(* ===== verification/_CoqProject ===== *)
-Q . S2P
Prelude.v
StoRegistry.v
StoServer.v
StoSpec.v
StoTheorems.v
Crc64.v
Storage.v
Blkdev.v
BlkdevSpec.v
BlkdevTheorems.v
BlockStore.v
Graph.v
Rewrite.v
FsInv.v
FsSpec.v
FsTheorems.v
FileIO.v
FileIOSpec.v
FileIOTheorems.v
Wal.v
WalSpec.v
WalTheorems.v
ProcdTable.v
ProcdServer.v
ProcdSpec.v
ProcdTheorems.v
ProcView.v
WalReplay.v
WalReplayTheorems.v
SotGuard.v
SotGuardTheorems.v
Anomaly.v
AnomalyTheorems.v
LucasAbi.v
Lucas.v
PledgeTheorems.v
TierTheorems.v
SotInit.v
IniTheorems.v
SotInitTheorems.v
SotCron.v
SotCronTheorems.v
NetFrame.v
SotTcp.v
NetTheorems.v
SotTcpInv.v
SotTcpStream.v
SotTcpPair.v
SotTcpTimer.v
SotTcpTheorems.v
Ring.v
ClientMem.v
Bytepipe.v
BytepipeTheorems.v
BoxState.v
Iomux.v
Pipe.v
FdTable.v
Console.v
PipeSys.v
PipeInv.v
PipeFifo.v
PipeRefs.v
PipeOps.v
PipeWait.v
PollWait.v
PollOps.v
EpollTheorems.v
PipeTheorems.v
WaitTable.v
WaitTheorems.v
Signals.v
SignalsTheorems.v
ShmPool.v
ShmPoolTheorems.v
ShmWireTheorems.v
ShmObj.v
ShmObjTheorems.v
