(* ===== verification/Prelude.v ===== *)
(** * Verification of sotOs

    sotOs is an operating system on the seL4 microkernel.  Its state lives in
    user-space servers and libraries: a transaction server (src/sto), a process
    server (src/procd), a file system with a block store and a write-ahead log
    (src/sotfs) that runs inside the orchestrator (src/orch), a Linux personality
    (src/lucas) and network, detection and shell components.  This library models the
    stateful core in Rocq, as executable definitions named after the C functions, and
    proves what makes each part correct.

    ** Files

    - Prelude: machine integers, fixed-size arrays, bounded scans, little-endian
      images, C strings, shared tactics.
    - StoRegistry, StoServer: src/sto/registry.c and ipc.c.  StoSpec: the abstract
      optimistic-concurrency store.  StoTheorems: refinement, no lost updates, badge
      isolation, life of wrapped capabilities.
    - Crc64: src/sotfs/crc64.c against the bit-serial definition; burst detection.
    - Storage: the storage vtable of include/sotfs/wal.h as the classes [StorageOps]
      and [StorageLaws], the RAM backend as an instance, a sparse disk [Image], the
      region layout of include/sotfs/layout.h.
    - Blkdev, BlkdevSpec, BlkdevTheorems: src/sotfs/blkdev.c over any lawful medium,
      its abstract block map, remount, geometry.  BlockStore: the interface io.c uses.
    - Graph, Rewrite: src/sotfs/graph.c and rewrite.c.  FsInv, FsSpec, FsTheorems: the
      invariant, the abstract file system and the refinement, atomicity of errors,
      delete on last close, path resolution.
    - FileIO, FileIOSpec, FileIOTheorems: src/sotfs/io.c; reads and writes as
      operations on the content of a file, from a fresh format through any run.
    - Wal, WalSpec, WalTheorems: src/sotfs/wal.c; the log as a list of frames,
      durability, replay, torn records, region bounds.
    - ProcdTable, ProcdServer: src/procd/table.c, event_ring.c, shm_init.c,
      handlers_lifecycle.c and the loop of main.c.  ProcdSpec: what a request may do to
      the table.  ProcdTheorems: invariant, life cycle, authority over tiers, wait,
      fork policy, exhaustion, the event ring as a history.
    - ProcView: the seqlock readers of include/procd/shm.h and src/lucas/procd_view.c,
      with a model of the writer's stores between the reader's loads.
    - WalReplay, WalReplayTheorems: src/sotfs/replay_*.c, wal_replay.c, the counters of
      src/sotnet/synth.c, the WAL mirror of src/orch/main.c and src/orch/simreboot.c.
    - SotGuard: src/sotguard/event_bus.c and policy_engine.c, src/orch/sotguard_pump.c.
      SotGuardTheorems: the bus as a bounded history, the engine as one state per process
      with declarative rules, events across a reboot, the order in which the pump
      evaluates.
    - Anomaly: the scoring process src/anomaly/main.c with its replies and its calls to
      procd.  AnomalyTheorems: the score as a function of the history of a process.
    - LucasAbi: include/lucas/syscalls.h and the table of src/lucas/dispatch.c.
    - Lucas: src/lucas/path_matcher.c, pledge.c, unveil.c, functor.c, anomaly.c, the
      syscall gate of dispatch.c, path copying and resolving of handlers_fs.c, and the
      places of fault_loop.c, backends_sotfs.c, src/sotnet and src/orch that change the
      tier of a sotbox.  PledgeTheorems: client strings, promises, unveiled paths.
      TierTheorems: the gate, and the tier as lucas, anomaly and procd hold it.
    - SotInit: src/sotinit (ini parser, unit registry, dependency order, spawning, exits
      and restarts, the scan for persistence attempts).  IniTheorems: printing and parsing
      a unit file.  SotInitTheorems: the activation order, exits, restarts with back-off.
    - SotCron: src/sotcron (timer files, calendar expressions, the timer loop).
      SotCronTheorems: the next instant of a calendar expression, the schedule of a timer.
    - NetFrame: byte order, checksums and headers, src/sotnet/tcp_fp.c, route.c, arp.c.
      SotTcp: src/sotnet/tcp.c, tcp_server.c, tcp_client.c, tcp_data.c, tcp_close.c and
      tcp_timer.c, with accept and read of src/lucas/handlers_net.c.  NetTheorems: frames
      and checksums.  SotTcpInv: the invariant of the stack.  SotTcpStream: what a guest
      reads.  SotTcpPair: two stacks on a wire.  SotTcpTimer, SotTcpTheorems: the timer,
      slots given back and lost, retransmission.
    - Ring, ClientMem: byte rings; the page loops that copy to and from a client
      (src/lucas/handlers_fs.c, src/orch/pipe.c).  Bytepipe, BytepipeTheorems: the shared
      rings of include/sotnet/bytepipe.h and bytepipe_frame.h as queues of frames.
    - BoxState: the descriptor table, the wait fields and the console of a sotbox
      (src/lucas/state.h), the pool of pipes, the log of replies.  Iomux: src/lucas/iomux.c.
      Pipe: src/orch/pipe.c.  FdTable: the calls of handlers_fs.c that make, copy and drop
      descriptors, with the descriptor side of fork.c, execve.c and exit.  Console: the
      console waits, and poll and select of handlers_proc.c.
    - PipeSys: the calls as steps of clients, the reachable worlds.  PipeInv, PipeFifo,
      PipeRefs, PipeOps: frames of the operations, the rings as queues, the open counts,
      every step keeps both.  PipeWait: parked readers and writers.  PollWait, PollOps: waits
      in epoll_wait, poll and select.  EpollTheorems: an instance as a finite map.
      PipeTheorems: the properties.
    - WaitTable: the zombie table and the wake-up of src/orch/sotbox_table.c, wait4, and what
      fork, exit, kill and the loop of src/orch/fault_loop.c do to them.  WaitTheorems: the
      table as a bounded queue of exits, exits told twice.
    - Signals: src/lucas/signals.c with its callers, over [ClientMem].  SignalsTheorems: the
      pending queue, the frame in client memory, the return from a handler.
    - ShmPool: src/orch/shm_pool.c and the calls on a memfd.  ShmPoolTheorems: ownership of
      the capabilities.  ShmWireTheorems: the count of references against the objects of
      the Wayland protocol.  ShmObj, ShmObjTheorems:
      src/lucas/backends_shm.c, named objects and their handles.

    ** How the code is modelled

    A C struct is a record, a file-static variable a field of the component's state
    record, a pointer into a table the index of the slot ([None] for NULL), an errno a
    negative integer, an out parameter a component of the result.  Integers are in Z
    with the reductions [u8], [u16], [u32], [u64] and [i32] written where C wraps or
    converts.  Arrays of fixed size are lists with [a.[i, d]] for reading.  Bounded
    search loops are [first_from]/[first_below].  A server loop is a function over the
    list of messages; the badge is what the kernel delivers with a message.  Printing
    is left out.

    ** Interfaces

    [StorageLaws] states what a storage backend promises (reads return what was
    written, inside the capacity); the block store and the log are proved against it
    and the RAM backend and [Image] discharge it.  [BlockStore] is what file I/O and
    replay need of the block store.

    ** Bounds and fuel

    Loops over tables carry the table size.  [wal_scan] has fuel
    [SOTFS_WAL_REGION_BYTES / 24 + 1]: a frame has at least 24 bytes
    ([scan_terminates]).  The write and read loops of io.c have the length of the
    buffer as fuel, each round moves at least a byte.  [log_payload_at] needs two
    levels: the in-checkpoint flag stops the second.  The geometry loop of the block
    store counts down from the number of blocks.  The seqlock readers take the list of
    their attempts (64 and 8 in the code).  [copy_pages] has the size of the buffer as
    fuel, since each page contributes a byte; [parse_loop] and [norm_loop] have the length
    of the string plus one, since each round consumes a byte.  The code itself stops
    resolving a path after 64 components ([resolve_stops_at_64]).  The queue loop of the
    activation order takes at most one round per unit; the loops over an ini file, over
    the names of [After=] and the words of [Exec=] consume a byte per round; the calendar
    search makes 86399 steps, as the code does.  Folding a checksum needs at most three
    rounds for the sums of frames of this size, a netmask has 32 bits, and each round over
    TCP options consumes a byte.  A copy to or from a client takes at most one round per
    page it touches.  Theorems on counters
    that wrap assume fewer events than the counter holds, and say so.

    ** Groups of theorems

    Refinement of an abstract machine: [sto_refines_spec], [blk_refines], [fs_refines],
    [wal_durable], [event_ring_history], [engine_refines].  Persistence:
    [boot_replay_restores], [fs_survives_reboot], [blk_remount], [torn_record_skipped],
    [events_survive_reboot].  Authority and confinement: [tier_authority], [tiers_agree],
    [pledge_irrevocable], [unveil_confines], [client_isolation].  Concurrency:
    [seqlock_coherent], [no_lost_update].  Services: [topo_sort_correct],
    [restart_backoff], [ini_roundtrip], [next_calendar_first], [timer_schedule].  Network:
    [tcp_conversation], [stream_in_order], [tcp_invariant], [slots_reclaimed].  Pipes and
    waiting: [pipe_stream], [open_counts], [parked_means_blocked], [no_lost_wakeup],
    [epoll_interest_map], [frames_queue].  Processes and memory: [zombies_are_a_queue],
    [handler_transparent], [pools_own_their_caps], [pool_outlives_refs],
    [shm_handle_keeps].  Where the code departs from its comments the
    behaviour it has is a theorem too, such as [pump_burst_inverted],
    [pledge_violation_demotes], [trusted_box_diverges], [half_open_forever],
    [retransmit_duplicates], [second_reader_stranded], [failed_fork_leaks],
    [cursor_wrap_overwrites], [exit_reported_twice], [ignored_signals_stay],
    [short_write_stale], [reused_block_not_zeroed], [alloc_tears_reader],
    [mapping_drops_paging], [ninth_buffer_uncounted], [wrapped_size],
    [stale_id_maps_another], [failed_open_destroys] and [spawn_clears_handles].

    ** What is not modelled

    The virtio drivers (device registers; their contract is [StorageLaws]), the seL4
    object handling of root and orch, the shell, tracing and graphics, net-synth and its
    vendored cryptography, [sotfs_wal_export] (text), the curvature detector, the
    unbounded seqlock readers (the same loop, behind a base pointer that is always NULL),
    the rest of sotnet (ARP, ICMP and UDP handlers, DNS, DHCP, IPv6: packet formatting
    and scripted answers), the arenas of orch.  Of lucas the handlers of files, sockets
    and memory maps, threads and the other mounts of its virtual file system are not modelled: files
    and sockets are followed as far as their descriptors go, and what a mount or the socket
    layer answers comes from [env].  A client of [PipeSys] has one thread; readv and writev
    are defined and are sequences of its reads and writes.  Its runs have fork but not vfork
    (which copies the descriptors as fork does and stops the parent), and no descriptor
    passed over a socket (a channel of src/lucas/handlers_net.c can hold pipe ends of its
    own).  The paging structures of a mapping in a guest belong to the guest's address space and
    are not counted with the capabilities of [ShmPool]. *)

From Stdlib Require Export ZArith Lia.
From stdpp Require Export base tactics decidable option list gmap sets strings relations.

#[global] Set Default Proof Using "Type".

(** ** Notations *)

Declare Scope sotos_scope.
Delimit Scope sotos_scope with sotos.
Open Scope Z_scope.

(** [a.[i, d]] reads slot [i] of a fixed-size C array, [d] standing for the
    (never used) value outside the bounds. *)
Notation "a .[ i , d ]" := (default d (a !! i)) (at level 1, i at level 200, left associativity) : sotos_scope.
Open Scope sotos_scope.

(** Size bounds stay folded under [simpl]. *)
#[global] Arguments Nat.leb : simpl never.
#[global] Arguments Nat.ltb : simpl never.
#[global] Arguments replicate : simpl never.
#[global] Arguments Z.to_nat : simpl never.
#[global] Arguments Z.of_nat : simpl never.
#[global] Arguments Z.mul : simpl never.
#[global] Arguments Z.add : simpl never.
#[global] Arguments Z.sub : simpl never.
#[global] Arguments Z.pow : simpl never.
#[global] Arguments Z.modulo : simpl never.
#[global] Arguments Z.div : simpl never.

(** ** Machine integers *)

Definition u8 (z : Z) : Z := z mod 2 ^ 8.
Definition u16 (z : Z) : Z := z mod 2 ^ 16.
Definition u32 (z : Z) : Z := z mod 2 ^ 32.
Definition u64 (z : Z) : Z := z mod 2 ^ 64.

(** Two's-complement reading of the low 32 bits, C's conversion to [int]. *)
Definition i32 (z : Z) : Z :=
  let w := u32 z in if w <? 2 ^ 31 then w else w - 2 ^ 32.

Definition is_byte (b : Z) : Prop := 0 <= b < 256.

(** C strings are lists of bytes without the terminating NUL. *)
Definition bytes_of_string (s : string) : list Z :=
  (fun a => Z.of_N (Ascii.N_of_ascii a)) <$> String.list_ascii_of_string s.
Notation "'STR' s" := (bytes_of_string s%string) (at level 9, s at level 0) : sotos_scope.

Lemma u8_range z : 0 <= u8 z < 2 ^ 8.
Proof. apply Z.mod_pos_bound; lia. Qed.
Lemma u32_range z : 0 <= u32 z < 2 ^ 32.
Proof. apply Z.mod_pos_bound; lia. Qed.
Lemma u64_range z : 0 <= u64 z < 2 ^ 64.
Proof. apply Z.mod_pos_bound; lia. Qed.
Lemma u32_small z : 0 <= z < 2 ^ 32 -> u32 z = z.
Proof. apply Z.mod_small. Qed.
Lemma u64_small z : 0 <= z < 2 ^ 64 -> u64 z = z.
Proof. apply Z.mod_small. Qed.
Lemma i32_small z : 0 <= z < 2 ^ 31 -> i32 z = z.
Proof. intros. unfold i32. rewrite u32_small by lia. by rewrite (proj2 (Z.ltb_lt z (2 ^ 31))) by lia. Qed.

(** ** Tactics *)

(** Turn boolean tests in the context and goal into propositions. *)
Ltac bool_to_prop :=
  repeat match goal with
  | H : _ && _ = true |- _ => apply andb_true_iff in H as [? ?]
  | H : _ || _ = false |- _ => apply orb_false_iff in H as [? ?]
  | H : negb _ = true |- _ => apply negb_true_iff in H
  | H : negb _ = false |- _ => apply negb_false_iff in H
  | H : (_ =? _) = true |- _ => apply Z.eqb_eq in H
  | H : (_ =? _) = false |- _ => apply Z.eqb_neq in H
  | H : (_ <? _) = true |- _ => apply Z.ltb_lt in H
  | H : (_ <? _) = false |- _ => apply Z.ltb_ge in H
  | H : (_ <=? _) = true |- _ => apply Z.leb_le in H
  | H : (_ <=? _) = false |- _ => apply Z.leb_gt in H
  | H : bool_decide _ = true |- _ => apply bool_decide_eq_true in H
  | H : bool_decide _ = false |- _ => apply bool_decide_eq_false in H
  end.

(** Split the first [if] or [match] of a hypothesis and simplify. *)
Ltac split_in H :=
  match type of H with
  | context [if ?b then _ else _] => let E := fresh "E" in destruct b eqn:E
  | context [match ?x with _ => _ end] => let E := fresh "E" in destruct x eqn:E
  end; simplify_eq/=.
Ltac split_goal :=
  match goal with
  | |- context [if ?b then _ else _] => let E := fresh "E" in destruct b eqn:E
  | |- context [match ?x with _ => _ end] => let E := fresh "E" in destruct x eqn:E
  end; simplify_eq/=.

(** Equalities between exclusive-or expressions, bit by bit. *)
Ltac xor_solve :=
  apply Z.bits_inj_iff; intros ?n; rewrite ?Z.lxor_spec, ?Z.bits_0;
  repeat match goal with |- context [Z.testbit ?a ?k] => destruct (Z.testbit a k) end; reflexivity.

(** ** Fixed-size arrays *)

Section arrays.
Context {A : Type}.
Implicit Types (l : list A) (i j : nat) (x d : A).

Lemma array_get l i x d : l !! i = Some x -> l.[i, d] = x.
Proof. by intros ->. Qed.

Lemma array_lookup_lt l i d : (i < length l)%nat -> l !! i = Some (l.[i, d]).
Proof. intros H. by destruct (lookup_lt_is_Some_2 l i H) as [y ->]. Qed.

Lemma array_get_insert l i j x d :
  (i < length l)%nat ->
  (<[i:=x]> l).[j, d] = if decide (i = j) then x else l.[j, d].
Proof.
  intros H. case_decide; subst.
  - by rewrite list_lookup_insert_eq.
  - by rewrite list_lookup_insert_ne.
Qed.

(** Storing into an array changes the number of its entries with a property by at
    most one. *)
Lemma filter_insert_length (P : A -> Prop) `{!forall x, Decision (P x)} l i x y : l !! i = Some x ->
  (length (filter P (<[i:=y]> l)) + (if decide (P x) then 1 else 0) = length (filter P l) + (if decide (P y) then 1 else 0))%nat.
Proof.
  revert i. induction l as [|z l IH]; intros [|i] Hi; cbn in Hi; try done.
  - injection Hi as ->. change (<[0%nat:=y]> (x :: l)) with (y :: l). rewrite !filter_cons. repeat case_decide; cbn [length]; lia.
  - change (<[S i:=y]> (z :: l)) with (z :: <[i:=y]> l). rewrite !filter_cons. specialize (IH i Hi). repeat case_decide; cbn [length]; lia.
Qed.

Lemma lookup_insert_cases l i j x y :
  <[i:=x]> l !! j = Some y ->
  (i = j /\ x = y /\ (i < length l)%nat) \/ (i <> j /\ l !! j = Some y).
Proof.
  intros H. apply list_lookup_insert_Some in H as [(?&?&?)|[? ?]]; subst; [left|right]; auto.
Qed.
End arrays.

(** First index below [n] satisfying [p]: the shape of every bounded scan loop
    [for (i = 0; i < n; i++) if (p(i)) return i;]. *)
Fixpoint first_from (p : nat -> bool) (i n : nat) : option nat :=
  match n with
  | O => None
  | S n' => if p i then Some i else first_from p (S i) n'
  end.
Definition first_below (p : nat -> bool) (n : nat) : option nat := first_from p 0 n.

Lemma first_from_Some p i n k :
  first_from p i n = Some k ->
  (i <= k < i + n)%nat /\ p k = true /\ (forall j, (i <= j < k)%nat -> p j = false).
Proof.
  revert i. induction n as [|n IH]; intros i H; simpl in H; [done|].
  destruct (p i) eqn:Hp; simplify_eq.
  - split_and!; [lia|lia|done|intros; lia].
  - apply IH in H as (?&?&Hb). split_and!; [lia|lia|done|].
    intros j ?. destruct (decide (j = i)) as [->|]; [done|apply Hb; lia].
Qed.

Lemma first_from_None p i n j :
  first_from p i n = None -> (i <= j < i + n)%nat -> p j = false.
Proof.
  revert i. induction n as [|n IH]; intros i H Hj; simpl in H; [lia|].
  destruct (p i) eqn:Hp; [done|].
  destruct (decide (j = i)) as [->|]; [done|]. apply (IH (S i)); [done|lia].
Qed.

Lemma first_below_Some p n k :
  first_below p n = Some k ->
  (k < n)%nat /\ p k = true /\ (forall j, (j < k)%nat -> p j = false).
Proof.
  intros (?&?&Hb)%first_from_Some. split_and!; [lia|done|]. intros; apply Hb; lia.
Qed.

Lemma first_below_None p n j :
  first_below p n = None -> (j < n)%nat -> p j = false.
Proof. intros H ?. eapply first_from_None; [done|lia]. Qed.

Lemma first_below_is_Some p n k :
  (k < n)%nat -> p k = true -> is_Some (first_below p n).
Proof.
  intros Hk Hp. destruct (first_below p n) eqn:E; [eauto|].
  rewrite (first_below_None _ _ _ E Hk) in Hp. done.
Qed.

Lemma first_from_ext p q i n :
  (forall j, (i <= j < i + n)%nat -> p j = q j) -> first_from p i n = first_from q i n.
Proof.
  revert i. induction n as [|n IH]; intros i H; simpl; [done|].
  rewrite (H i) by lia. destruct (q i); [done|]. apply IH. intros; apply H; lia.
Qed.

Lemma first_below_ext p q n :
  (forall j, (j < n)%nat -> p j = q j) -> first_below p n = first_below q n.
Proof. intros H. apply first_from_ext. intros; apply H; lia. Qed.

(** ** Little-endian byte strings *)

Fixpoint le_bytes (n : nat) (z : Z) : list Z :=
  match n with
  | O => []
  | S n' => z mod 256 :: le_bytes n' (z / 256)
  end.

Fixpoint le_val (bs : list Z) : Z :=
  match bs with
  | [] => 0
  | b :: bs' => b + 256 * le_val bs'
  end.

Lemma length_le_bytes n z : length (le_bytes n z) = n.
Proof. revert z. induction n; intros; simpl; auto. Qed.

Lemma le_bytes_byte n z : Forall is_byte (le_bytes n z).
Proof.
  revert z. induction n as [|n IH]; intros z; simpl; constructor; [|done].
  unfold is_byte. apply Z.mod_pos_bound. lia.
Qed.

Lemma le_val_range bs : Forall is_byte bs -> 0 <= le_val bs < 2 ^ (8 * Z.of_nat (length bs)).
Proof.
  induction 1 as [|b bs Hb _ IH]; simpl; [lia|].
  replace (8 * Z.of_nat (S (length bs))) with (8 + 8 * Z.of_nat (length bs)) by lia.
  rewrite Z.pow_add_r by lia. unfold is_byte in Hb. change (2 ^ 8) with 256. lia.
Qed.

Lemma le_val_bytes n z : 0 <= z < 2 ^ (8 * Z.of_nat n) -> le_val (le_bytes n z) = z.
Proof.
  revert z. induction n as [|n IH]; intros z Hz; simpl.
  - change (8 * Z.of_nat 0) with 0 in Hz. change (2 ^ 0) with 1 in Hz. lia.
  - rewrite IH; [pose proof (Z.div_mod z 256); lia|].
    replace (8 * Z.of_nat (S n)) with (8 + 8 * Z.of_nat n) in Hz by lia.
    rewrite Z.pow_add_r in Hz by lia. change (2 ^ 8) with 256 in Hz.
    split; [apply Z.div_pos; lia|apply Z.div_lt_upper_bound; lia].
Qed.

Lemma le_val_inj bs bs' :
  Forall is_byte bs -> Forall is_byte bs' -> length bs = length bs' -> le_val bs = le_val bs' -> bs = bs'.
Proof.
  intros H. revert bs'. induction H as [|b bs Hb _ IH]; intros [|b' bs'] H' Hl Hv; simplify_eq/=; [done|].
  apply Forall_cons in H' as [Hb' H']. unfold is_byte in *.
  assert (b = b') as -> by lia. f_equal. apply IH; [done..|lia].
Qed.

(** The [n]-byte little-endian field at offset [off] of an image. *)
Definition field (bs : list Z) (off n : nat) : Z := le_val (take n (drop off bs)).
(** A [char] or [uint8_t] array inside an image. *)
Definition bytes_at (bs : list Z) (off n : nat) : list Z := take n (drop off bs).

Lemma field_range bs off n : Forall is_byte bs -> 0 <= field bs off n < 2 ^ (8 * Z.of_nat n).
Proof.
  intros Hb. unfold field. pose proof (le_val_range (take n (drop off bs)) ltac:(by apply Forall_take, Forall_drop)) as Hr.
  split; [lia|]. eapply Z.lt_le_trans; [apply Hr|]. apply Z.pow_le_mono_r; [lia|]. rewrite length_take. lia.
Qed.

(** ** C strings in arrays *)

(** The C string that starts at an array: it ends at the first NUL. *)
Fixpoint c_str (bs : list Z) : list Z :=
  match bs with
  | [] => []
  | b :: bs' => if b =? 0 then [] else b :: c_str bs'
  end.

Lemma c_str_app s rest : Forall (fun c => c <> 0) s -> c_str (s ++ 0 :: rest) = s.
Proof.
  induction 1 as [|c s Hc _ IH]; simpl; [done|]. rewrite (proj2 (Z.eqb_neq c 0)) by done. by rewrite IH.
Qed.

Lemma c_str_cname bs : Forall (fun c => c <> 0) (c_str bs).
Proof.
  induction bs as [|b bs IH]; simpl; [constructor|]. destruct (b =? 0) eqn:E; constructor; [by bool_to_prop|done].
Qed.

Lemma length_c_str bs : (length (c_str bs) <= length bs)%nat.
Proof. induction bs as [|b bs IH]; simpl; [lia|]. destruct (b =? 0); simpl; lia. Qed.

(** ** Strings of tokens *)

(** The longest prefix of characters in [p], and the rest. *)
Fixpoint span (p : Z -> bool) (s : list Z) : list Z * list Z :=
  match s with
  | [] => ([], [])
  | c :: s' => if p c then let '(a, b) := span p s' in (c :: a, b) else ([], s)
  end.

Section tokens.
Context (sep : Z -> bool).

(** The maximal runs of characters that are no separators. *)
Fixpoint split_on (s : list Z) : list (list Z) :=
  match s with
  | [] => [[]]
  | c :: s' => if sep c then [] :: split_on s' else match split_on s' with t :: ts => (c :: t) :: ts | [] => [[c]] end
  end.
Definition tokens (s : list Z) : list (list Z) := filter (fun t => t <> []) (split_on s).

Lemma split_on_nonempty s : split_on s <> [].
Proof. induction s as [|c s IH]; simpl; [done|]. destruct (sep c); [done|]. by destruct (split_on s). Qed.

Lemma tokens_sep c s : sep c = true -> tokens (c :: s) = tokens s.
Proof. intros E. unfold tokens. cbn [split_on]. by rewrite E. Qed.

Lemma split_on_app a c b : sep c = true -> split_on (a ++ c :: b) = split_on a ++ split_on b.
Proof.
  intros E. induction a as [|x a IH]; simpl; [by rewrite E|]. destruct (sep x); [by rewrite IH|]. rewrite IH.
  destruct (split_on a) as [|t ts] eqn:Es; [by destruct (split_on_nonempty a)|done].
Qed.
Lemma tokens_app a c b : sep c = true -> tokens (a ++ c :: b) = tokens a ++ tokens b.
Proof. intros E. unfold tokens. by rewrite split_on_app, list.filter_app. Qed.

Lemma split_on_free s : Forall (fun t => Forall (fun c => sep c = false) t) (split_on s).
Proof.
  induction s as [|c s IH]; simpl; [by repeat constructor|]. destruct (sep c) eqn:E; [by constructor|].
  destruct (split_on s) as [|t ts]; [by repeat constructor|]. inversion IH; subst. repeat constructor; done.
Qed.
Lemma tokens_free s : Forall (fun t => t <> [] /\ Forall (fun c => sep c = false) t) (tokens s).
Proof.
  apply Forall_forall. intros t [Hne Ht]%list_elem_of_filter. split; [done|]. pose proof (split_on_free s) as Hf. rewrite Forall_forall in Hf. by apply Hf.
Qed.

(** A string without separators is one token. *)
Lemma tokens_word t : t <> [] -> Forall (fun c => sep c = false) t -> tokens t = [t].
Proof.
  intros Hne Ht. unfold tokens. assert (split_on t = [t]) as ->.
  { clear Hne. induction Ht as [|c t Hc _ IH]; [done|]. simpl. by rewrite Hc, IH. }
  rewrite filter_cons, decide_True by done. done.
Qed.

Lemma tokens_skip s : tokens (span sep s).2 = tokens s.
Proof.
  induction s as [|c s IH]; [done|]. cbn [span]. destruct (sep c) eqn:E; [|done]. destruct (span sep s) as [a b]. cbn [snd] in *. by rewrite IH, tokens_sep.
Qed.

Lemma tokens_head c s : sep c = false ->
  let '(tok, rest) := span (fun c => negb (sep c)) (c :: s) in
  tok <> [] /\ Forall (fun c => sep c = false) tok /\ tokens (c :: s) = tok :: tokens rest /\ (length rest <= length s)%nat.
Proof.
  revert c. induction s as [|c' s IH]; intros c E.
  - simpl. rewrite E. simpl. unfold tokens. simpl. rewrite E. split; [done|]. split; [by constructor|done].
  - cbn [span]. rewrite E. simpl negb. cbv iota. destruct (sep c') eqn:E'; simpl negb; cbv iota.
    + split; [done|]. split; [by constructor|]. unfold tokens. cbn [split_on]. rewrite E, E'. done.
    + specialize (IH c' E'). cbn [span] in IH. rewrite E' in IH. simpl negb in IH. cbv iota in IH.
      destruct (span _ s) as [tok rest]. destruct IH as (_&Hf&IH&Hl). split; [done|]. split; [by constructor|]. split; [|simpl; lia].
      unfold tokens in *. cbn [split_on] in *. rewrite E, E' in *. destruct (split_on s) as [|t ts] eqn:Es; [by destruct (split_on_nonempty s)|].
      rewrite filter_cons, decide_True in IH by done. rewrite filter_cons, decide_True by done. congruence.
Qed.

Lemma span_sep_head s c r : (span sep s).2 = c :: r -> sep c = false /\ (length r < length s)%nat.
Proof.
  induction s as [|x s IH]; [done|]. cbn [span]. destruct (sep x) eqn:E.
  - destruct (span sep s) as [a b]. cbn [snd] in *. intros H. destruct (IH H). simpl. split; [done|lia].
  - cbn [snd]. intros [= -> ->]. simpl. split; [done|lia].
Qed.
End tokens.
