(* ===== verification/StoRegistry.v ===== *)
(** * STO transaction registry

    Model of [src/sto/registry.h] and [src/sto/registry.c]: the fixed-size
    tables of the transaction server, one definition per C function.  A
    [sto_transaction_t *] is the slot number of the transaction in [active];
    a [sto_wrapped_cap_t *] is the slot number in [wrapped_pool].  The arrays
    with a fill count ([sto_obj_set_t], [wrapped_caps], [commit_log]) are the
    list of their first [count] entries: the C code never reads further. *)

From S2P Require Import Prelude.

(** ** Data *)

Definition STO_MAX_TX : nat := 64.
Definition STO_MAX_OBJ_PER_TX : nat := 32.
Definition STO_MAX_COMMIT_LOG : nat := 128.
Definition STO_MAX_WRAPPED_CAPS : nat := 256.
Definition STO_MAX_WRAPPED_PER_TX : nat := 16.


Definition STO_OK : Z := 0.
Definition STO_ABORTED : Z := 1.
Definition STO_CONFLICT : Z := 2.
Definition STO_INVALID_TX : Z := 3.
Definition STO_INVALID_STATE : Z := 4.
Definition STO_QUOTA : Z := 5.
Definition STO_PROTOCOL : Z := 6.

Inductive sto_cap_mode := STO_CAP_COMMIT_ONLY | STO_CAP_ACTIVE_OK.
Inductive sto_phase := STO_PHASE_FREE | STO_PHASE_ACTIVE | STO_PHASE_COMMITTED | STO_PHASE_ABORTED.

#[export] Instance sto_cap_mode_eq_dec : EqDecision sto_cap_mode.
Proof. solve_decision. Defined.
#[export] Instance sto_phase_eq_dec : EqDecision sto_phase.
Proof. solve_decision. Defined.

Abbreviation sto_obj_set := (list Z).

Record sto_transaction := MkTx {
  tx_id : Z;
  owner_badge : Z;
  phase : sto_phase;
  read_set : sto_obj_set;
  write_set : sto_obj_set;
  wrapped_caps : list Z;
}.

Record sto_commit_entry := MkEntry { ce_tx_id : Z; ce_write_set : sto_obj_set }.

Record sto_wrapped_cap := MkCap {
  wc_id : Z;
  wc_obj_id : Z;
  wc_tx_id : Z;
  wc_mode : sto_cap_mode;
  wc_revoked : bool;
}.

Record sto_registry := MkRegistry {
  active : list sto_transaction;
  active_count : nat;
  commit_log : list sto_commit_entry;
  next_tx_id : Z;
  wrapped_pool : list sto_wrapped_cap;
  next_wrapped_id : Z;
}.

(** The all-zero values [memset] leaves. *)
Definition zero_tx : sto_transaction := MkTx 0 0 STO_PHASE_FREE [] [] [].
Definition zero_cap : sto_wrapped_cap := MkCap 0 0 0 STO_CAP_COMMIT_ONLY false.

(** Field updates. *)
Definition set_phase (p : sto_phase) (t : sto_transaction) : sto_transaction :=
  MkTx (tx_id t) (owner_badge t) p (read_set t) (write_set t) (wrapped_caps t).
Definition set_read_set (s : sto_obj_set) (t : sto_transaction) : sto_transaction :=
  MkTx (tx_id t) (owner_badge t) (phase t) s (write_set t) (wrapped_caps t).
Definition set_write_set (s : sto_obj_set) (t : sto_transaction) : sto_transaction :=
  MkTx (tx_id t) (owner_badge t) (phase t) (read_set t) s (wrapped_caps t).
Definition set_wrapped_caps (l : list Z) (t : sto_transaction) : sto_transaction :=
  MkTx (tx_id t) (owner_badge t) (phase t) (read_set t) (write_set t) l.

Definition set_active (l : list sto_transaction) (r : sto_registry) : sto_registry :=
  MkRegistry l (active_count r) (commit_log r) (next_tx_id r) (wrapped_pool r) (next_wrapped_id r).
Definition set_active_count (n : nat) (r : sto_registry) : sto_registry :=
  MkRegistry (active r) n (commit_log r) (next_tx_id r) (wrapped_pool r) (next_wrapped_id r).
Definition set_commit_log (l : list sto_commit_entry) (r : sto_registry) : sto_registry :=
  MkRegistry (active r) (active_count r) l (next_tx_id r) (wrapped_pool r) (next_wrapped_id r).
Definition set_next_tx_id (n : Z) (r : sto_registry) : sto_registry :=
  MkRegistry (active r) (active_count r) (commit_log r) n (wrapped_pool r) (next_wrapped_id r).
Definition set_wrapped_pool (l : list sto_wrapped_cap) (r : sto_registry) : sto_registry :=
  MkRegistry (active r) (active_count r) (commit_log r) (next_tx_id r) l (next_wrapped_id r).
Definition set_next_wrapped_id (n : Z) (r : sto_registry) : sto_registry :=
  MkRegistry (active r) (active_count r) (commit_log r) (next_tx_id r) (wrapped_pool r) n.

(** [&r->active[i]] read through the pointer, and a write through it. *)
Definition tx_at (r : sto_registry) (i : nat) : sto_transaction := (active r).[i, zero_tx].
Definition cap_at (r : sto_registry) (j : nat) : sto_wrapped_cap := (wrapped_pool r).[j, zero_cap].
Definition update_tx (i : nat) (t : sto_transaction) (r : sto_registry) : sto_registry :=
  set_active (<[i:=t]> (active r)) r.

(** ** Object sets *)

Definition obj_set_contains (s : sto_obj_set) (obj_id : Z) : bool :=
  existsb (fun x => x =? obj_id) s.

Definition obj_sets_intersect (a b : sto_obj_set) : bool :=
  existsb (fun x => obj_set_contains b x) a.

Definition obj_set_add (s : sto_obj_set) (obj_id : Z) : Z * sto_obj_set :=
  if obj_set_contains s obj_id then (STO_OK, s)
  else if (STO_MAX_OBJ_PER_TX <=? length s)%nat then (STO_QUOTA, s)
  else (STO_OK, s ++ [obj_id]).

(** ** Transactions *)

Definition sto_registry_init : sto_registry :=
  MkRegistry (replicate STO_MAX_TX zero_tx) 0 [] 1 (replicate STO_MAX_WRAPPED_CAPS zero_cap) 1.

Definition is_phase (p : sto_phase) (t : sto_transaction) : bool := bool_decide (phase t = p).

Definition sto_registry_begin (r : sto_registry) (badge : Z) : option nat * sto_registry :=
  match first_below (fun i => is_phase STO_PHASE_FREE (tx_at r i)) STO_MAX_TX with
  | Some i =>
      let t := MkTx (next_tx_id r) badge STO_PHASE_ACTIVE [] [] [] in
      let r := set_next_tx_id (u64 (next_tx_id r + 1)) (update_tx i t r) in
      (Some i, if (active_count r <=? i)%nat then set_active_count (i + 1) r else r)
  | None => (None, r)
  end.

Definition sto_registry_find (r : sto_registry) (id badge : Z) : option nat :=
  first_below (fun i => let t := tx_at r i in
    is_phase STO_PHASE_ACTIVE t && (tx_id t =? id) && (owner_badge t =? badge)) (active_count r).

Definition sto_registry_add_read (r : sto_registry) (i : nat) (obj_id : Z) : Z * sto_registry :=
  let '(rc, s) := obj_set_add (read_set (tx_at r i)) obj_id in
  (rc, update_tx i (set_read_set s (tx_at r i)) r).

Definition sto_registry_add_write (r : sto_registry) (i : nat) (obj_id : Z) : Z * sto_registry :=
  let '(rc, s) := obj_set_add (write_set (tx_at r i)) obj_id in
  (rc, update_tx i (set_write_set s (tx_at r i)) r).

Definition sto_registry_can_commit (r : sto_registry) (i : nat) : bool :=
  forallb (fun e => negb (obj_sets_intersect (read_set (tx_at r i)) (ce_write_set e))) (commit_log r).

(** One pass over [active]: the number of live transactions and the index past
    the last slot in use. *)
Definition gc_pass (txs : list sto_transaction) : nat * nat :=
  fold_left (fun '(live, high) '(i, t) =>
    (if is_phase STO_PHASE_ACTIVE t then S live else live,
     if is_phase STO_PHASE_FREE t then high else S i))
    (zip (seq 0 (length txs)) txs) (0%nat, 0%nat).

Definition sto_registry_gc (r : sto_registry) : sto_registry :=
  let '(live, high) := gc_pass (active r) in
  let r := set_active_count high r in
  if (live =? 0)%nat then set_commit_log [] r else r.

(** ** Wrapped capabilities *)

Definition sto_registry_wrap (r : sto_registry) (i : nat) (obj_id : Z) (mode : sto_cap_mode)
    : Z * sto_registry :=
  let t := tx_at r i in
  if (STO_MAX_WRAPPED_PER_TX <=? length (wrapped_caps t))%nat then (0, r)
  else match first_below (fun j => wc_id (cap_at r j) =? 0) STO_MAX_WRAPPED_CAPS with
  | Some j =>
      let new_id := next_wrapped_id r in
      let r := set_next_wrapped_id (u64 (new_id + 1)) r in
      let r := set_wrapped_pool (<[j := MkCap new_id obj_id (tx_id t) mode false]> (wrapped_pool r)) r in
      (new_id, update_tx i (set_wrapped_caps (wrapped_caps t ++ [new_id]) t) r)
  | None => (0, r)
  end.

Definition sto_registry_wrapped_find (r : sto_registry) (id : Z) : option nat :=
  if id =? 0 then None
  else match first_below (fun j => wc_id (cap_at r j) =? id) STO_MAX_WRAPPED_CAPS with
  | Some j => if wc_revoked (cap_at r j) then None else Some j
  | None => None
  end.

Definition find_tx_by_id (r : sto_registry) (id : Z) : option nat :=
  first_below (fun i => tx_id (tx_at r i) =? id) (active_count r).

Definition sto_registry_wrapped_invocable (r : sto_registry) (j : nat) : bool :=
  let wc := cap_at r j in
  if wc_revoked wc then false
  else match find_tx_by_id r (wc_tx_id wc) with
  | None => false
  | Some i =>
      let p := phase (tx_at r i) in
      match wc_mode wc with
      | STO_CAP_ACTIVE_OK =>
          bool_decide (p = STO_PHASE_ACTIVE) || bool_decide (p = STO_PHASE_COMMITTED)
      | STO_CAP_COMMIT_ONLY => bool_decide (p = STO_PHASE_COMMITTED)
      end
  end.

(** [revoked = true; id = 0] on the pool slots selected by [sel]. *)
Definition reclaim (wc : sto_wrapped_cap) : sto_wrapped_cap :=
  MkCap 0 (wc_obj_id wc) (wc_tx_id wc) (wc_mode wc) true.
Definition reclaim_if (sel : sto_wrapped_cap -> bool) (wc : sto_wrapped_cap) : sto_wrapped_cap :=
  if sel wc then reclaim wc else wc.

Definition sto_registry_sweep_wrapped (r : sto_registry) (i : nat) : sto_registry :=
  set_wrapped_pool
    (fold_left (fun pool target => reclaim_if (fun wc => wc_id wc =? target) <$> pool)
       (wrapped_caps (tx_at r i)) (wrapped_pool r)) r.

Definition sto_registry_sweep_wrapped_by_mode (r : sto_registry) (i : nat) (mode : sto_cap_mode)
    : sto_registry :=
  set_wrapped_pool
    (fold_left (fun pool target =>
        reclaim_if (fun wc => (wc_id wc =? target) && bool_decide (wc_mode wc = mode)) <$> pool)
       (wrapped_caps (tx_at r i)) (wrapped_pool r)) r.

(** ** Commit and abort *)

Definition has_live_commit_only (r : sto_registry) (i : nat) : bool :=
  existsb (fun id => match sto_registry_wrapped_find r id with
                     | Some j => bool_decide (wc_mode (cap_at r j) = STO_CAP_COMMIT_ONLY)
                     | None => false
                     end) (wrapped_caps (tx_at r i)).

Definition sto_registry_commit (r : sto_registry) (i : nat) : Z * sto_registry :=
  if (STO_MAX_COMMIT_LOG <=? length (commit_log r))%nat then (STO_QUOTA, r)
  else
    let t := tx_at r i in
    let r := set_commit_log (commit_log r ++ [MkEntry (tx_id t) (write_set t)]) r in
    let r := sto_registry_sweep_wrapped_by_mode r i STO_CAP_ACTIVE_OK in
    let p := if has_live_commit_only r i then STO_PHASE_COMMITTED else STO_PHASE_FREE in
    (STO_OK, sto_registry_gc (update_tx i (set_phase p t) r)).

Definition sto_registry_abort (r : sto_registry) (i : nat) : sto_registry :=
  let r := sto_registry_sweep_wrapped r i in
  sto_registry_gc (update_tx i (set_phase STO_PHASE_FREE (tx_at r i)) r).

(** ** Elementary facts *)

Create HintDb sto.
Create Rewrite HintDb sto.

Lemma obj_set_contains_spec s x : obj_set_contains s x = true <-> x ∈ s.
Proof.
  unfold obj_set_contains. rewrite existsb_exists. setoid_rewrite list_elem_of_In.
  split; [intros (y&?&?%Z.eqb_eq); by subst|exists x; by rewrite Z.eqb_refl].
Qed.

Lemma obj_sets_intersect_spec a b :
  obj_sets_intersect a b = false <-> (forall x, x ∈ a -> x ∈ b -> False).
Proof.
  unfold obj_sets_intersect. rewrite <-not_true_iff_false, existsb_exists.
  setoid_rewrite obj_set_contains_spec. setoid_rewrite <-list_elem_of_In. naive_solver.
Qed.

(** [obj_set_add] is insertion into a set of at most 32 elements. *)
Lemma obj_set_add_spec s x rc s' :
  obj_set_add s x = (rc, s') ->
  (rc = STO_OK /\ (forall y, y ∈ s' <-> y = x \/ y ∈ s)) \/ (rc = STO_QUOTA /\ s' = s).
Proof.
  unfold obj_set_add. intros H. repeat split_in H.
  - left. split; [done|]. apply obj_set_contains_spec in E. naive_solver.
  - by right.
  - left. split; [done|]. set_solver.
Qed.

Definition obj_set_wf (s : sto_obj_set) : Prop :=
  NoDup s /\ (length s <= STO_MAX_OBJ_PER_TX)%nat.

Lemma obj_set_add_wf s x rc s' :
  obj_set_add s x = (rc, s') -> obj_set_wf s -> obj_set_wf s'.
Proof.
  unfold obj_set_add, obj_set_wf. intros H [Hnd Hlen]. repeat split_in H; [done..|].
  apply Nat.leb_gt in E0. rewrite length_app; simpl. split; [|lia].
  apply NoDup_app. split_and!; [done| |apply NoDup_singleton].
  intros y Hy ->%list_elem_of_singleton.
  apply obj_set_contains_spec in Hy. congruence.
Qed.

Lemma is_phase_spec p t : is_phase p t = true <-> phase t = p.
Proof. apply bool_decide_eq_true. Qed.
Lemma is_phase_false p t : is_phase p t = false <-> phase t <> p.
Proof. apply bool_decide_eq_false. Qed.

(** Writes through a transaction pointer. *)
Lemma tx_at_update r i k t :
  (i < length (active r))%nat -> tx_at (update_tx i t r) k = if decide (i = k) then t else tx_at r k.
Proof. intros. unfold tx_at, update_tx; simpl. by apply array_get_insert. Qed.

Lemma tx_at_out r i : (length (active r) <= i)%nat -> tx_at r i = zero_tx.
Proof. intros. unfold tx_at. by rewrite lookup_ge_None_2. Qed.

(** *** The garbage-collection pass *)

Lemma gc_pass_go k txs live high :
  (high <= k)%nat ->
  let '(live', high') :=
    fold_left (fun '(live, high) '(i, t) =>
      (if is_phase STO_PHASE_ACTIVE t then S live else live,
       if is_phase STO_PHASE_FREE t then high else S i)) (zip (seq k (length txs)) txs) (live, high) in
  (high <= high' <= k + length txs)%nat /\
  (forall i t, txs !! i = Some t -> (high' <= k + i)%nat -> phase t = STO_PHASE_FREE) /\
  (live' = 0%nat <-> live = 0%nat /\ forall i t, txs !! i = Some t -> phase t <> STO_PHASE_ACTIVE).
Proof.
  revert k live high. induction txs as [|t txs IH]; intros k live high Hk; simpl.
  { split_and!; [lia|lia|done|naive_solver]. }
  specialize (IH (S k) (if is_phase STO_PHASE_ACTIVE t then S live else live)
                 (if is_phase STO_PHASE_FREE t then high else S k)).
  revert IH. destruct (fold_left _ _ _) as [live' high']. intros IH.
  destruct IH as (?&Hfree&Hlive); [destruct (is_phase _ t); lia|].
  split_and!; [destruct (is_phase STO_PHASE_FREE t); lia| lia| |].
  - intros [|i] t' Hi Hle; simplify_eq/=; [|apply (Hfree i); [done|lia]].
    destruct (is_phase STO_PHASE_FREE t') eqn:E; [by apply is_phase_spec|lia].
  - rewrite Hlive. destruct (is_phase STO_PHASE_ACTIVE t) eqn:E.
    + apply is_phase_spec in E. split; [lia|]. intros [_ Hn]. by destruct (Hn 0%nat t).
    + apply is_phase_false in E. split; intros [? Hn]; (split; [done|]).
      * intros [|i] t' Hi; simplify_eq/=; eauto.
      * intros i t' Hi. apply (Hn (S i)). done.
Qed.

Lemma gc_pass_spec txs live high :
  gc_pass txs = (live, high) ->
  (high <= length txs)%nat /\
  (forall i t, txs !! i = Some t -> (high <= i)%nat -> phase t = STO_PHASE_FREE) /\
  (live = 0%nat <-> forall i t, txs !! i = Some t -> phase t <> STO_PHASE_ACTIVE).
Proof.
  intros H. pose proof (gc_pass_go 0 txs 0 0 (le_n 0)) as Hgo. unfold gc_pass in H.
  rewrite H in Hgo. destruct Hgo as ([??]&?&?). simpl in *. split_and!; [lia|done|naive_solver].
Qed.

(** *** Sweeping the pool *)

Definition targeted (targets : list Z) (sel : sto_wrapped_cap -> bool) (wc : sto_wrapped_cap) : bool :=
  bool_decide (wc_id wc ∈ targets) && sel wc.

(** The nested sweep loops are one map over the pool. *)
Lemma sweep_fold (sel : sto_wrapped_cap -> bool) (targets : list Z) (pool : list sto_wrapped_cap) :
  (0:Z) ∉ targets -> (forall wc, sel (reclaim wc) = sel wc) ->
  fold_left (fun pool target => reclaim_if (fun wc => (wc_id wc =? target) && sel wc) <$> pool)
    targets pool = reclaim_if (targeted targets sel) <$> pool.
Proof.
  intros H0 Hsel. revert pool. induction targets as [|x targets IH]; intros pool; simpl.
  { symmetry. rewrite <-(list_fmap_id pool) at 2. apply list_fmap_ext. intros i wc _.
    unfold reclaim_if, targeted. by rewrite bool_decide_eq_false_2 by apply not_elem_of_nil. }
  apply not_elem_of_cons in H0 as [? H0]. rewrite IH by done. rewrite <-list_fmap_compose.
  apply list_fmap_ext. intros i wc _. unfold reclaim_if, targeted; simpl.
  destruct (wc_id wc =? x) eqn:Ex; simpl.
  - apply Z.eqb_eq in Ex. rewrite (bool_decide_eq_true_2 (wc_id wc ∈ x :: targets)) by set_solver; simpl.
    destruct (sel wc) eqn:Es; simpl.
    + rewrite bool_decide_eq_false_2 by done. done.
    + by rewrite Es; destruct (bool_decide _).
  - apply Z.eqb_neq in Ex.
    by rewrite (bool_decide_ext (wc_id wc ∈ x :: targets) (wc_id wc ∈ targets)) by set_solver.
Qed.

Lemma sweep_all_spec r i :
  (0:Z) ∉ wrapped_caps (tx_at r i) ->
  sto_registry_sweep_wrapped r i =
  set_wrapped_pool (reclaim_if (targeted (wrapped_caps (tx_at r i)) (fun _ => true)) <$> wrapped_pool r) r.
Proof.
  intros H. unfold sto_registry_sweep_wrapped. f_equal.
  rewrite <-(sweep_fold (fun _ => true)) by done.
  generalize (wrapped_pool r). induction (wrapped_caps (tx_at r i)) as [|x l IH]; intros pool; simpl; [done|].
  rewrite <-IH by set_solver. f_equal. apply list_fmap_ext. intros ?? _.
  unfold reclaim_if. by rewrite andb_true_r.
Qed.

Lemma sweep_mode_spec r i m :
  (0:Z) ∉ wrapped_caps (tx_at r i) ->
  sto_registry_sweep_wrapped_by_mode r i m =
  set_wrapped_pool (reclaim_if (targeted (wrapped_caps (tx_at r i)) (fun wc => bool_decide (wc_mode wc = m)))
                    <$> wrapped_pool r) r.
Proof. intros H. unfold sto_registry_sweep_wrapped_by_mode. f_equal. by apply sweep_fold. Qed.

(** What the garbage collector changes. *)
Record gc_result (r r' : sto_registry) : Prop := {
  gc_active : active r' = active r;
  gc_pool : wrapped_pool r' = wrapped_pool r;
  gc_next : next_tx_id r' = next_tx_id r;
  gc_next_wrapped : next_wrapped_id r' = next_wrapped_id r;
  gc_count : (active_count r' <= length (active r))%nat;
  gc_beyond : forall i t, active r !! i = Some t -> (active_count r' <= i)%nat -> phase t = STO_PHASE_FREE;
  gc_log :
    (commit_log r' = commit_log r /\ exists i t, active r !! i = Some t /\ phase t = STO_PHASE_ACTIVE) \/
    (commit_log r' = [] /\ forall i t, active r !! i = Some t -> phase t <> STO_PHASE_ACTIVE);
}.

Lemma gc_spec r : gc_result r (sto_registry_gc r).
Proof.
  unfold sto_registry_gc. destruct (gc_pass (active r)) as [live high] eqn:E.
  apply gc_pass_spec in E as (?&?&Hlive).
  destruct (Nat.eqb_spec live 0) as [->|Hn]; split; simpl; try done.
  - right. split; [done|]. by apply Hlive.
  - left. split; [done|].
    destruct (list_find (fun t => phase t = STO_PHASE_ACTIVE) (active r)) as [[i t]|] eqn:Hf.
    + apply list_find_Some in Hf as (?&?&_). eauto.
    + apply list_find_None in Hf. rewrite Forall_lookup in Hf. exfalso. apply Hn, Hlive. apply Hf.
Qed.

(** ** The registry invariant *)

Record tx_wf (next next_w : Z) (t : sto_transaction) : Prop := {
  tx_id_range : 0 <= tx_id t < next;
  tx_id_nonzero : phase t <> STO_PHASE_FREE -> tx_id t <> 0;
  tx_not_aborted : phase t <> STO_PHASE_ABORTED;
  tx_reads_wf : obj_set_wf (read_set t);
  tx_writes_wf : obj_set_wf (write_set t);
  tx_wrapped_len : (length (wrapped_caps t) <= STO_MAX_WRAPPED_PER_TX)%nat;
  tx_wrapped_range : Forall (fun k => 0 < k < next_w) (wrapped_caps t);
}.

(** [t] is the parent a live capability [wc] needs. *)
Definition cap_parent (t : sto_transaction) (wc : sto_wrapped_cap) : Prop :=
  tx_id t = wc_tx_id wc /\ wc_id wc ∈ wrapped_caps t /\
  (phase t = STO_PHASE_ACTIVE \/ (phase t = STO_PHASE_COMMITTED /\ wc_mode wc = STO_CAP_COMMIT_ONLY)).

Record cap_wf (next_w : Z) (txs : list sto_transaction) (wc : sto_wrapped_cap) : Prop := {
  cap_id_range : 0 < wc_id wc < next_w;
  cap_live : wc_revoked wc = false;
  cap_has_parent : exists i t, txs !! i = Some t /\ cap_parent t wc;
}.

Record registry_wf (r : sto_registry) : Prop := {
  wf_active_len : length (active r) = STO_MAX_TX;
  wf_pool_len : length (wrapped_pool r) = STO_MAX_WRAPPED_CAPS;
  wf_count : (active_count r <= STO_MAX_TX)%nat;
  wf_beyond : forall i t, active r !! i = Some t -> (active_count r <= i)%nat -> phase t = STO_PHASE_FREE;
  wf_next : 1 <= next_tx_id r;
  wf_next_wrapped : 1 <= next_wrapped_id r;
  wf_tx : forall i t, active r !! i = Some t -> tx_wf (next_tx_id r) (next_wrapped_id r) t;
  wf_tx_inj : forall i k t u, active r !! i = Some t -> active r !! k = Some u ->
    tx_id t = tx_id u -> tx_id t <> 0 -> i = k;
  wf_cap : forall j wc, wrapped_pool r !! j = Some wc -> wc_id wc <> 0 -> cap_wf (next_wrapped_id r) (active r) wc;
  wf_cap_inj : forall j k a b, wrapped_pool r !! j = Some a -> wrapped_pool r !! k = Some b ->
    wc_id a = wc_id b -> wc_id a <> 0 -> j = k;
  wf_own : forall i t j wc, active r !! i = Some t -> phase t <> STO_PHASE_FREE ->
    wrapped_pool r !! j = Some wc -> wc_id wc <> 0 -> wc_id wc ∈ wrapped_caps t -> wc_tx_id wc = tx_id t;
  wf_log_len : (length (commit_log r) <= STO_MAX_COMMIT_LOG)%nat;
  wf_log_live : commit_log r <> [] ->
    exists i t, active r !! i = Some t /\ phase t = STO_PHASE_ACTIVE;
}.

#[export] Hint Resolve wf_tx wf_cap wf_active_len wf_pool_len wf_count wf_next wf_next_wrapped : sto.

Lemma init_wf : registry_wf sto_registry_init.
Proof.
  split; simpl; try lia; try done; try (by rewrite length_replicate).
  - by intros i t [-> _]%lookup_replicate.
  - intros i t [-> _]%lookup_replicate. split; simpl; try done; try lia.
    all: split; [apply NoDup_nil_2|simpl; lia].
  - by intros i k t u [-> _]%lookup_replicate [-> _]%lookup_replicate.
  - by intros j wc [-> _]%lookup_replicate.
  - by intros j k a b [-> _]%lookup_replicate.
  - by intros i t j wc [-> _]%lookup_replicate.
Qed.

(** Updates that keep the identity, phase and capabilities of a transaction. *)
Lemma update_tx_wf r i t t' :
  registry_wf r -> active r !! i = Some t ->
  tx_id t' = tx_id t -> phase t' = phase t -> wrapped_caps t' = wrapped_caps t ->
  obj_set_wf (read_set t') -> obj_set_wf (write_set t') ->
  registry_wf (update_tx i t' r).
Proof.
  intros W Hi Hid Hph Hwc Hr Hw. destruct W. split; simpl; try done.
  - by rewrite length_insert.
  - intros k u [(->&->&?)|[? ?]]%lookup_insert_cases ?; [rewrite Hph|]; eauto.
  - intros k u [(->&<-&?)|[? ?]]%lookup_insert_cases; [|by apply (wf_tx0 k)].
    destruct (wf_tx0 _ _ Hi). split; rewrite ?Hid, ?Hph, ?Hwc; done.
  - intros k k' u u' [(->&<-&?)|[? ?]]%lookup_insert_cases [(->&<-&?)|[? ?]]%lookup_insert_cases;
      rewrite ?Hid; eauto.
  - intros j wc Hj H0. destruct (wf_cap0 _ _ Hj H0) as [? ? (k&u&Hk&Hp)]. split; simpl; [done..|].
    destruct (decide (k = i)) as [->|].
    + exists i, t'. rewrite list_lookup_insert_eq by (by eapply lookup_lt_Some).
      split; [done|]. simplify_eq. unfold cap_parent in *. by rewrite Hid, Hph, Hwc.
    + exists k, u. by rewrite list_lookup_insert_ne.
  - intros k u j wc [(->&<-&?)|[? ?]]%lookup_insert_cases; rewrite ?Hph, ?Hwc, ?Hid; eauto.
  - intros (k&u&Hk&Hp)%wf_log_live0. destruct (decide (k = i)) as [->|].
    + exists i, t'. rewrite list_lookup_insert_eq by (by eapply lookup_lt_Some). simplify_eq. by rewrite Hph.
    + exists k, u. by rewrite list_lookup_insert_ne.
Qed.

Lemma tx_wf_mono n n' w w' t : n <= n' -> w <= w' -> tx_wf n w t -> tx_wf n' w' t.
Proof.
  intros ?? []. split; try done; [lia|]. eapply Forall_impl; [done|]. simpl; intros; lia.
Qed.

Lemma lookup_tx_at r i t : active r !! i = Some t -> tx_at r i = t.
Proof. apply array_get. Qed.

Lemma tx_at_lookup r i : registry_wf r -> (i < STO_MAX_TX)%nat -> active r !! i = Some (tx_at r i).
Proof. intros W ?. apply array_lookup_lt. by rewrite wf_active_len. Qed.

Lemma cap_at_lookup r j :
  registry_wf r -> (j < STO_MAX_WRAPPED_CAPS)%nat -> wrapped_pool r !! j = Some (cap_at r j).
Proof. intros W ?. apply array_lookup_lt. by rewrite wf_pool_len. Qed.

(** *** [sto_registry_find] and [find_tx_by_id] *)

Lemma find_Some r id badge i :
  registry_wf r -> sto_registry_find r id badge = Some i ->
  exists t, active r !! i = Some t /\ phase t = STO_PHASE_ACTIVE /\ tx_id t = id /\ owner_badge t = badge.
Proof.
  intros W (Hi&Hp&_)%first_below_Some. exists (tx_at r i).
  rewrite tx_at_lookup by (done || pose proof (wf_count _ W); lia).
  simpl in Hp. rewrite !andb_true_iff, is_phase_spec, !Z.eqb_eq in Hp. naive_solver.
Qed.

Lemma active_in_count r i t :
  registry_wf r -> active r !! i = Some t -> phase t <> STO_PHASE_FREE -> (i < active_count r)%nat.
Proof.
  intros W Hi Hp. destruct (decide (i < active_count r)%nat); [done|].
  exfalso. apply Hp. eapply wf_beyond; [done..|lia].
Qed.

Lemma find_complete r i t :
  registry_wf r -> active r !! i = Some t -> phase t = STO_PHASE_ACTIVE ->
  sto_registry_find r (tx_id t) (owner_badge t) = Some i.
Proof.
  intros W Hi Hp.
  assert (Hc : (i < active_count r)%nat) by (eapply active_in_count; [done..|congruence]).
  destruct (first_below_is_Some (fun i => let u := tx_at r i in
    is_phase STO_PHASE_ACTIVE u && (tx_id u =? tx_id t) && (owner_badge u =? owner_badge t))
    (active_count r) i Hc) as [k Hk].
  { rewrite (lookup_tx_at _ _ _ Hi). simpl. rewrite !Z.eqb_refl, !andb_true_r. by apply is_phase_spec. }
  change (sto_registry_find r (tx_id t) (owner_badge t) = Some k) in Hk. rewrite Hk.
  apply find_Some in Hk as (u&Hk&Hu&?&?); [|done]. f_equal.
  eapply (wf_tx_inj _ W); [done..|]. eapply tx_id_nonzero; [by eapply wf_tx|congruence].
Qed.

Lemma find_None r id badge i t :
  registry_wf r -> sto_registry_find r id badge = None ->
  active r !! i = Some t -> phase t = STO_PHASE_ACTIVE -> tx_id t = id -> owner_badge t = badge -> False.
Proof. intros W Hf Hi Hp <- <-. by rewrite (find_complete _ _ _ W Hi Hp) in Hf. Qed.

(** *** Adding to the read and write sets *)

Lemma add_read_wf r i t x rc r' :
  registry_wf r -> active r !! i = Some t -> sto_registry_add_read r i x = (rc, r') -> registry_wf r'.
Proof.
  intros W Hi. unfold sto_registry_add_read. rewrite (lookup_tx_at _ _ _ Hi).
  destruct (obj_set_add _ _) as [rc' s] eqn:E; intros; simplify_eq.
  destruct (wf_tx _ W _ _ Hi). eapply update_tx_wf; simpl; try done. by eapply obj_set_add_wf.
Qed.

Lemma add_write_wf r i t x rc r' :
  registry_wf r -> active r !! i = Some t -> sto_registry_add_write r i x = (rc, r') -> registry_wf r'.
Proof.
  intros W Hi. unfold sto_registry_add_write. rewrite (lookup_tx_at _ _ _ Hi).
  destruct (obj_set_add _ _) as [rc' s] eqn:E; intros; simplify_eq.
  destruct (wf_tx _ W _ _ Hi). eapply update_tx_wf; simpl; try done. by eapply obj_set_add_wf.
Qed.

(** *** [sto_registry_begin] *)

Lemma begin_cases r badge :
  registry_wf r -> next_tx_id r + 1 < 2 ^ 64 ->
  (sto_registry_begin r badge = (None, r) /\
   forall i t, active r !! i = Some t -> phase t <> STO_PHASE_FREE) \/
  (exists i t n, active r !! i = Some t /\ phase t = STO_PHASE_FREE /\
     (active_count r <= n <= STO_MAX_TX)%nat /\ (i < n)%nat /\
     sto_registry_begin r badge =
       (Some i, MkRegistry (<[i := MkTx (next_tx_id r) badge STO_PHASE_ACTIVE [] [] []]> (active r)) n
          (commit_log r) (next_tx_id r + 1) (wrapped_pool r) (next_wrapped_id r))).
Proof.
  intros W Hb. pose proof (wf_next _ W). unfold sto_registry_begin.
  destruct (first_below _ _) as [i|] eqn:E.
  - right. apply first_below_Some in E as (Hi&Hp%is_phase_spec&_).
    exists i, (tx_at r i), (if (active_count r <=? i)%nat then i + 1 else active_count r)%nat.
    rewrite tx_at_lookup by done. rewrite u64_small by lia. pose proof (wf_count _ W).
    unfold update_tx, set_active, set_next_tx_id, set_active_count; simpl.
    destruct (Nat.leb_spec (active_count r) i); split_and!; try done; lia.
  - left. split; [done|]. intros i t Hi Hp.
    pose proof (lookup_lt_Some _ _ _ Hi) as Hlt. rewrite wf_active_len in Hlt by done.
    apply (first_below_None _ _ _ E) in Hlt. rewrite (lookup_tx_at _ _ _ Hi) in Hlt.
    by apply is_phase_false in Hlt.
Qed.

Lemma begin_wf r badge o r' :
  registry_wf r -> next_tx_id r + 1 < 2 ^ 64 ->
  sto_registry_begin r badge = (o, r') -> registry_wf r'.
Proof.
  intros W Hb H. destruct (begin_cases r badge W Hb) as [[E _]|(i&t&n&Hi&Hp&Hn&Hin&E)];
    rewrite E in H; simplify_eq; [done|].
  assert (Hlt := lookup_lt_Some _ _ _ Hi). pose proof (wf_next _ W) as Hnx.
  split; simpl; eauto with sto; try lia.
  - rewrite length_insert. by apply wf_active_len.
  - intros k u [(->&?&?)|[? ?]]%lookup_insert_cases ?; [lia|]. eapply wf_beyond; [done..|lia].
  - intros k u [(->&<-&?)|[? ?]]%lookup_insert_cases.
    + split; simpl; try done; try lia.
      all: split; [apply NoDup_nil_2|simpl; lia].
    + eapply tx_wf_mono; [| |by eapply (wf_tx _ W)]; lia.
  - assert (Hne : forall k u, active r !! k = Some u -> tx_id u <> next_tx_id r).
    { intros k u Hk Heq. apply (wf_tx _ W), tx_id_range in Hk. lia. }
    intros k k' u u' [(->&<-&?)|[? Hk]]%lookup_insert_cases [(->&<-&?)|[? Hk']]%lookup_insert_cases;
      simpl; intros Heq ?; [done|by destruct (Hne _ _ Hk')|by destruct (Hne _ _ Hk)|].
    by eapply (wf_tx_inj _ W).
  - intros j wc Hj H0. destruct (wf_cap _ W _ _ Hj H0) as [? ? (k&u&Hk&Hpar)]. split; [done..|].
    exists k, u. rewrite list_lookup_insert_ne; [done|]. intros ->. simplify_eq.
    destruct Hpar as (_&_&[?|[? _]]); congruence.
  - apply (wf_cap_inj _ W).
  - intros k u j wc [(->&<-&?)|[? ?]]%lookup_insert_cases; simpl; [set_solver|]. eauto using wf_own.
  - by apply wf_log_len.
  - intros _. exists i. eexists. rewrite list_lookup_insert_eq by done. done.
Qed.

(** *** [sto_registry_wrap] *)

Lemma wrap_cases r i t obj m :
  registry_wf r -> active r !! i = Some t -> next_wrapped_id r + 1 < 2 ^ 64 ->
  sto_registry_wrap r i obj m = (0, r) \/
  (exists j wc, wrapped_pool r !! j = Some wc /\ wc_id wc = 0 /\
    (length (wrapped_caps t) < STO_MAX_WRAPPED_PER_TX)%nat /\
    sto_registry_wrap r i obj m =
      (next_wrapped_id r,
       MkRegistry (<[i := set_wrapped_caps (wrapped_caps t ++ [next_wrapped_id r]) t]> (active r))
         (active_count r) (commit_log r) (next_tx_id r)
         (<[j := MkCap (next_wrapped_id r) obj (tx_id t) m false]> (wrapped_pool r))
         (next_wrapped_id r + 1))).
Proof.
  intros W Hi Hb. pose proof (wf_next_wrapped _ W). unfold sto_registry_wrap.
  rewrite (lookup_tx_at _ _ _ Hi).
  destruct (Nat.leb_spec STO_MAX_WRAPPED_PER_TX (length (wrapped_caps t))); [by left|].
  destruct (first_below _ _) as [j|] eqn:E; [right|by left].
  apply first_below_Some in E as (Hj&Hz%Z.eqb_eq&_).
  exists j, (cap_at r j). rewrite cap_at_lookup by done. rewrite u64_small by lia. done.
Qed.

Lemma wrap_wf r i t obj m id r' :
  registry_wf r -> active r !! i = Some t -> phase t = STO_PHASE_ACTIVE ->
  next_wrapped_id r + 1 < 2 ^ 64 -> sto_registry_wrap r i obj m = (id, r') -> registry_wf r'.
Proof.
  intros W Hi Hp Hb H. destruct (wrap_cases r i t obj m W Hi Hb) as [E|(j&wc&Hj&H0&Hlen&E)];
    rewrite E in H; simplify_eq; [done|].
  assert (Hlt := lookup_lt_Some _ _ _ Hi). assert (Hjlt := lookup_lt_Some _ _ _ Hj).
  pose proof (wf_next_wrapped _ W) as Hnw. pose proof (wf_tx _ W _ _ Hi) as Ht.
  assert (Hfresh : forall k u, active r !! k = Some u -> next_wrapped_id r ∉ wrapped_caps u).
  { intros k u Hk Hin. apply (wf_tx _ W), tx_wrapped_range in Hk.
    rewrite Forall_forall in Hk. apply Hk in Hin. lia. }
  assert (Hcap : forall k wc', wrapped_pool r !! k = Some wc' -> wc_id wc' <> next_wrapped_id r).
  { intros k wc' Hk Heq. destruct (wf_cap _ W _ _ Hk); lia. }
  split; simpl; eauto using wf_count, wf_log_len, wf_next; try lia.
  - rewrite length_insert. by apply wf_active_len.
  - rewrite length_insert. by apply wf_pool_len.
  - intros k u [(->&<-&?)|[? ?]]%lookup_insert_cases ?; simpl; by eapply (wf_beyond _ W).
  - intros k u [(->&<-&?)|[? ?]]%lookup_insert_cases; [|eapply tx_wf_mono; [| |by eapply (wf_tx _ W)]; lia].
    destruct Ht. split; simpl; try done.
    + rewrite length_app; simpl. lia.
    + apply Forall_app; split; [|by apply Forall_singleton; lia].
      eapply Forall_impl; [done|]. simpl; lia.
  - intros k k' u u' [(->&<-&?)|[? Hk]]%lookup_insert_cases [(->&<-&?)|[? Hk']]%lookup_insert_cases;
      simpl; eauto using wf_tx_inj.
  - intros k wc' [(->&<-&?)|[? Hk]]%lookup_insert_cases ?.
    + split; simpl; [lia|done|]. exists i. eexists. rewrite list_lookup_insert_eq by done. split; [done|].
      split_and!; simpl; [done|set_solver|auto].
    + destruct (wf_cap _ W _ _ Hk) as [? ? (k'&u&Hk'&Hpar)]; [done|]. split; [lia|done|].
      destruct (decide (k' = i)) as [->|]; [|exists k', u; by rewrite list_lookup_insert_ne].
      exists i. eexists. rewrite list_lookup_insert_eq by done. split; [done|]. simplify_eq.
      destruct Hpar as (?&?&?). split_and!; simpl; [done|set_solver|done].
  - intros k k' a b [(->&<-&?)|[? Hk]]%lookup_insert_cases [(->&<-&?)|[? Hk']]%lookup_insert_cases;
      simpl; intros Heq ?; [done|by destruct (Hcap _ _ Hk')|by destruct (Hcap _ _ Hk)|eauto using wf_cap_inj].
  - intros k u j' wc' [(->&<-&?)|[? Hk]]%lookup_insert_cases ? [(->&<-&?)|[? Hk']]%lookup_insert_cases;
      simpl; intros ? Hin; [done| | |eauto using wf_own].
    + apply elem_of_app in Hin as [?|Heq%list_elem_of_singleton]; [eauto using wf_own|].
      by destruct (Hcap _ _ Hk').
    + by destruct (Hfresh _ _ Hk).
  - intros (k&u&Hk&?)%(wf_log_live _ W). destruct (decide (k = i)) as [->|].
    + exists i. eexists. by rewrite list_lookup_insert_eq.
    + exists k, u. by rewrite list_lookup_insert_ne.
Qed.

(** *** Commit and abort share one shape *)

(** The registry after the capabilities [sel] of slot [i] are reclaimed, its
    phase set to [p], the commit log to [log], and the collector run. *)
Definition finish (r : sto_registry) (i : nat) (t : sto_transaction) (p : sto_phase)
    (sel : sto_wrapped_cap -> bool) (log : list sto_commit_entry) : sto_registry :=
  sto_registry_gc (MkRegistry (<[i := set_phase p t]> (active r)) (active_count r) log (next_tx_id r)
    (reclaim_if (targeted (wrapped_caps t) sel) <$> wrapped_pool r) (next_wrapped_id r)).

Lemma wrapped_nonzero r i t : registry_wf r -> active r !! i = Some t -> (0:Z) ∉ wrapped_caps t.
Proof.
  intros W Hi Hin. apply (wf_tx _ W), tx_wrapped_range in Hi. rewrite Forall_forall in Hi.
  apply Hi in Hin. lia.
Qed.

Lemma abort_finish r i t :
  registry_wf r -> active r !! i = Some t ->
  sto_registry_abort r i = finish r i t STO_PHASE_FREE (fun _ => true) (commit_log r).
Proof.
  intros W Hi. unfold sto_registry_abort.
  rewrite sweep_all_spec by (rewrite (lookup_tx_at _ _ _ Hi); by eapply wrapped_nonzero).
  unfold tx_at; simpl. by rewrite Hi.
Qed.

Lemma commit_finish r i t :
  registry_wf r -> active r !! i = Some t ->
  sto_registry_commit r i = (STO_QUOTA, r) /\ (STO_MAX_COMMIT_LOG <= length (commit_log r))%nat \/
  (length (commit_log r) < STO_MAX_COMMIT_LOG)%nat /\
  exists p, sto_registry_commit r i =
    (STO_OK, finish r i t p (fun wc => bool_decide (wc_mode wc = STO_CAP_ACTIVE_OK))
               (commit_log r ++ [MkEntry (tx_id t) (write_set t)])) /\
    p = if has_live_commit_only (sto_registry_sweep_wrapped_by_mode r i STO_CAP_ACTIVE_OK) i
        then STO_PHASE_COMMITTED else STO_PHASE_FREE.
Proof.
  intros W Hi. unfold sto_registry_commit. rewrite (lookup_tx_at _ _ _ Hi).
  assert (H0 : (0:Z) ∉ wrapped_caps (tx_at r i)).
  { rewrite (lookup_tx_at _ _ _ Hi). by eapply wrapped_nonzero. }
  destruct (Nat.leb_spec STO_MAX_COMMIT_LOG (length (commit_log r))); [left; auto|right].
  split; [done|]. eexists. split; [|done].
  rewrite !sweep_mode_spec by done. unfold finish, tx_at; simpl. rewrite Hi; simpl. done.
Qed.

(** What the reclaimed pool contains. *)
Lemma reclaimed_lookup targets sel (pool : list sto_wrapped_cap) j wc :
  (reclaim_if (targeted targets sel) <$> pool) !! j = Some wc -> wc_id wc <> 0 ->
  pool !! j = Some wc /\ (wc_id wc ∈ targets -> sel wc = false).
Proof.
  rewrite list_lookup_fmap. destruct (pool !! j) as [wc'|] eqn:E; simpl; [|done].
  unfold reclaim_if. destruct (targeted targets sel wc') eqn:Et; intros [= <-] H0; [done|].
  split; [done|]. intros Hin. unfold targeted in Et. by rewrite bool_decide_eq_true_2 in Et.
Qed.

Lemma reclaimed_survives targets sel (pool : list sto_wrapped_cap) j wc :
  pool !! j = Some wc -> (wc_id wc ∈ targets -> sel wc = false) ->
  (reclaim_if (targeted targets sel) <$> pool) !! j = Some wc.
Proof.
  intros Hj Hs. rewrite list_lookup_fmap, Hj; simpl. unfold reclaim_if, targeted.
  case_bool_decide; simpl; [by rewrite Hs|done].
Qed.

Lemma finish_wf r i t p sel log :
  registry_wf r -> active r !! i = Some t -> phase t = STO_PHASE_ACTIVE ->
  p <> STO_PHASE_ABORTED -> (length log <= STO_MAX_COMMIT_LOG)%nat ->
  (forall j wc, wrapped_pool r !! j = Some wc -> wc_id wc <> 0 -> wc_id wc ∈ wrapped_caps t -> sel wc = false ->
     p = STO_PHASE_COMMITTED /\ wc_mode wc = STO_CAP_COMMIT_ONLY) ->
  registry_wf (finish r i t p sel log).
Proof.
  intros W Hi Hp Hpa Hlog Hsel. assert (Hlt := lookup_lt_Some _ _ _ Hi).
  pose proof (wf_tx _ W _ _ Hi) as Ht. unfold finish.
  pose proof (gc_spec (MkRegistry (<[i := set_phase p t]> (active r)) (active_count r) log (next_tx_id r)
    (reclaim_if (targeted (wrapped_caps t) sel) <$> wrapped_pool r) (next_wrapped_id r))) as G.
  revert G. generalize (sto_registry_gc (MkRegistry (<[i := set_phase p t]> (active r)) (active_count r) log
    (next_tx_id r) (reclaim_if (targeted (wrapped_caps t) sel) <$> wrapped_pool r) (next_wrapped_id r))).
  intros r' G. destruct G as [Ga Gp Gn Gw Gc Gb Gl]; simpl in *.
  split; rewrite ?Ga, ?Gp, ?Gn, ?Gw, ?length_fmap, ?length_insert; eauto with sto.
  - rewrite length_insert in Gc. by rewrite <-(wf_active_len _ W).
  - intros k u [(->&<-&?)|[? ?]]%lookup_insert_cases; [|by eapply (wf_tx _ W)].
    destruct Ht. split; simpl; try done. intros _. apply tx_id_nonzero0. congruence.
  - intros k k' u u' [(->&<-&?)|[? Hk]]%lookup_insert_cases [(->&<-&?)|[? Hk']]%lookup_insert_cases;
      simpl; eauto using wf_tx_inj.
  - intros j wc Hj H0. destruct (reclaimed_lookup _ _ _ _ _ Hj H0) as [Hj' Hns].
    destruct (wf_cap _ W _ _ Hj' H0) as [? ? (k&u&Hk&Hpar)]. split; [done..|].
    destruct (decide (k = i)) as [->|]; [|exists k, u; by rewrite list_lookup_insert_ne].
    exists i. eexists. rewrite list_lookup_insert_eq by done. split; [done|]. simplify_eq.
    destruct Hpar as (?&Hin&_). destruct (Hsel _ _ Hj' H0 Hin (Hns Hin)) as [-> ?].
    split_and!; simpl; auto.
  - intros j k a b Hj Hk Heq H0.
    apply reclaimed_lookup in Hj as [Hj _]; [|done]. apply reclaimed_lookup in Hk as [Hk _]; [|congruence].
    by eapply (wf_cap_inj _ W).
  - intros k u j wc Hk Hph Hj H0. apply reclaimed_lookup in Hj as [Hj _]; [|done].
    revert Hph. apply lookup_insert_cases in Hk as [(->&<-&?)|[? ?]]; simpl; [|eauto using wf_own].
    intros _ Hin. eapply (wf_own _ W); [done| |done..]. congruence.
  - destruct Gl as [[-> _]|[-> _]]; simpl; [done|lia].
  - intros Hne. destruct Gl as [[_ Hex]|[? _]]; done.
Qed.

(** *** Looking capabilities up *)

Record pool_ok (pool : list sto_wrapped_cap) : Prop := {
  pool_len : length pool = STO_MAX_WRAPPED_CAPS;
  pool_inj : forall j k a b, pool !! j = Some a -> pool !! k = Some b ->
    wc_id a = wc_id b -> wc_id a <> 0 -> j = k;
  pool_live : forall j a, pool !! j = Some a -> wc_id a <> 0 -> wc_revoked a = false;
}.

Lemma wf_pool_ok r : registry_wf r -> pool_ok (wrapped_pool r).
Proof.
  intros W. split; [by apply wf_pool_len|by apply wf_cap_inj|].
  intros j a Hj H0. by destruct (wf_cap _ W _ _ Hj H0).
Qed.

Lemma reclaimed_pool_ok targets sel pool :
  pool_ok pool -> pool_ok (reclaim_if (targeted targets sel) <$> pool).
Proof.
  intros [Hl Hi Hv]. split; [by rewrite length_fmap| |].
  - intros j k a b Hj Hk Heq H0. apply reclaimed_lookup in Hj as [Hj _]; [|done].
    apply reclaimed_lookup in Hk as [Hk _]; [|congruence]. eauto.
  - intros j a Hj H0. apply reclaimed_lookup in Hj as [Hj _]; eauto.
Qed.

Lemma wrapped_find_Some r id j :
  pool_ok (wrapped_pool r) -> sto_registry_wrapped_find r id = Some j ->
  exists wc, wrapped_pool r !! j = Some wc /\ wc_id wc = id /\ id <> 0.
Proof.
  intros P H. unfold sto_registry_wrapped_find in H. split_in H. bool_to_prop.
  destruct (first_below _ _) as [k|] eqn:E1; [|done].
  apply first_below_Some in E1 as (Hk&Hid%Z.eqb_eq&_). repeat split_in H.
  exists (cap_at r j). split; [|done]. apply array_lookup_lt. by rewrite (pool_len _ P).
Qed.

Lemma wrapped_find_complete r j wc :
  pool_ok (wrapped_pool r) -> wrapped_pool r !! j = Some wc -> wc_id wc <> 0 ->
  sto_registry_wrapped_find r (wc_id wc) = Some j.
Proof.
  intros P Hj H0. unfold sto_registry_wrapped_find. rewrite (proj2 (Z.eqb_neq _ _) H0).
  assert (Hlt := lookup_lt_Some _ _ _ Hj). rewrite (pool_len _ P) in Hlt.
  destruct (first_below_is_Some (fun k => wc_id (cap_at r k) =? wc_id wc) _ j Hlt) as [k Hk].
  { unfold cap_at. rewrite Hj. by apply Z.eqb_refl. }
  rewrite Hk. apply first_below_Some in Hk as (Hk&Hid%Z.eqb_eq&_).
  assert (Hk' : wrapped_pool r !! k = Some (cap_at r k)).
  { apply array_lookup_lt. by rewrite (pool_len _ P). }
  rewrite (pool_live _ P _ _ Hk') by congruence. f_equal.
  symmetry. by eapply (pool_inj _ P).
Qed.

Lemma has_live_spec r i :
  pool_ok (wrapped_pool r) ->
  has_live_commit_only r i = true <->
  exists j wc, wrapped_pool r !! j = Some wc /\ wc_id wc <> 0 /\ wc_id wc ∈ wrapped_caps (tx_at r i) /\
    wc_mode wc = STO_CAP_COMMIT_ONLY.
Proof.
  intros P. unfold has_live_commit_only. rewrite existsb_exists. setoid_rewrite <-list_elem_of_In. split.
  - intros (id&Hin&Hm). destruct (sto_registry_wrapped_find r id) as [j|] eqn:E; [|done].
    apply wrapped_find_Some in E as (wc&Hj&<-&?); [|done]. exists j, wc.
    unfold cap_at in Hm. rewrite Hj in Hm. by bool_to_prop.
  - intros (j&wc&Hj&H0&Hin&Hm). exists (wc_id wc). split; [done|].
    rewrite (wrapped_find_complete _ _ _ P Hj H0). unfold cap_at. rewrite Hj. by apply bool_decide_eq_true.
Qed.

Lemma abort_wf r i t :
  registry_wf r -> active r !! i = Some t -> phase t = STO_PHASE_ACTIVE ->
  registry_wf (sto_registry_abort r i).
Proof.
  intros W Hi Hp. rewrite (abort_finish _ _ _ W Hi).
  apply finish_wf; try done. by apply wf_log_len.
Qed.

(** The phase a successful commit leaves, in terms of the surviving capabilities. *)
Lemma commit_phase r i t :
  registry_wf r -> active r !! i = Some t ->
  (exists j wc, wrapped_pool r !! j = Some wc /\ wc_id wc <> 0 /\ wc_id wc ∈ wrapped_caps t /\
    wc_mode wc = STO_CAP_COMMIT_ONLY) <->
  has_live_commit_only (sto_registry_sweep_wrapped_by_mode r i STO_CAP_ACTIVE_OK) i = true.
Proof.
  intros W Hi. pose proof (wf_pool_ok _ W) as P.
  assert (Ht : tx_at r i = t) by by apply lookup_tx_at.
  rewrite sweep_mode_spec by (rewrite Ht; by eapply wrapped_nonzero).
  rewrite has_live_spec by by apply reclaimed_pool_ok. rewrite Ht.
  assert (Ht' : tx_at (set_wrapped_pool (reclaim_if (targeted (wrapped_caps t)
    (fun wc => bool_decide (wc_mode wc = STO_CAP_ACTIVE_OK))) <$> wrapped_pool r) r) i = t) by exact Ht.
  rewrite Ht'. simpl. split; intros (j&wc&Hj&H0&Hin&Hm); exists j, wc.
  - split_and!; try done. apply reclaimed_survives; [done|]. intros _. by rewrite Hm.
  - apply reclaimed_lookup in Hj as [Hj _]; done.
Qed.

Lemma commit_wf r i t rc r' :
  registry_wf r -> active r !! i = Some t -> phase t = STO_PHASE_ACTIVE ->
  sto_registry_commit r i = (rc, r') -> registry_wf r'.
Proof.
  intros W Hi Hp H. destruct (commit_finish _ _ _ W Hi) as [[E _]|(Hlen&p&E&Hph)];
    rewrite E in H; simplify_eq; [done|].
  apply finish_wf; try done.
  - by destruct (has_live_commit_only _ _).
  - rewrite length_app; simpl. lia.
  - intros j wc Hj H0 Hin Hm%bool_decide_eq_false.
    assert (Hc : wc_mode wc = STO_CAP_COMMIT_ONLY) by (by destruct (wc_mode wc)).
    split; [|done]. by rewrite (proj1 (commit_phase _ _ _ W Hi)) by eauto 10.
Qed.

(** The fields of a finished registry. *)
Lemma finish_active r i t p sel log : active (finish r i t p sel log) = <[i := set_phase p t]> (active r).
Proof. unfold finish. by rewrite (gc_active _ _ (gc_spec _)). Qed.
Lemma finish_pool r i t p sel log :
  wrapped_pool (finish r i t p sel log) = reclaim_if (targeted (wrapped_caps t) sel) <$> wrapped_pool r.
Proof. unfold finish. by rewrite (gc_pool _ _ (gc_spec _)). Qed.
Lemma finish_next r i t p sel log : next_tx_id (finish r i t p sel log) = next_tx_id r.
Proof. unfold finish. by rewrite (gc_next _ _ (gc_spec _)). Qed.
Lemma finish_next_wrapped r i t p sel log :
  next_wrapped_id (finish r i t p sel log) = next_wrapped_id r.
Proof. unfold finish. by rewrite (gc_next_wrapped _ _ (gc_spec _)). Qed.

(** While some other transaction stays active, finishing keeps the whole log. *)
Lemma finish_log r i t p sel log k u :
  active r !! k = Some u -> k <> i -> phase u = STO_PHASE_ACTIVE ->
  commit_log (finish r i t p sel log) = log.
Proof.
  intros Hk Hne Hp. destruct (gc_log _ _ (gc_spec (MkRegistry (<[i := set_phase p t]> (active r))
    (active_count r) log (next_tx_id r)
    (reclaim_if (targeted (wrapped_caps t) sel) <$> wrapped_pool r) (next_wrapped_id r))))
    as [[H _]|[_ H]]; [done|]. simpl in H. by destruct (H k u); [rewrite list_lookup_insert_ne|].
Qed.

#[export] Hint Rewrite finish_active finish_pool finish_next finish_next_wrapped : sto.

Lemma find_tx_by_id_complete r i t :
  registry_wf r -> active r !! i = Some t -> phase t <> STO_PHASE_FREE ->
  find_tx_by_id r (tx_id t) = Some i.
Proof.
  intros W Hi Hp. assert (Hc : (i < active_count r)%nat) by by eapply active_in_count.
  unfold find_tx_by_id.
  destruct (first_below_is_Some (fun k => tx_id (tx_at r k) =? tx_id t) _ i Hc) as [k Hk].
  { rewrite (lookup_tx_at _ _ _ Hi). apply Z.eqb_refl. }
  rewrite Hk. apply first_below_Some in Hk as (Hk&Hid%Z.eqb_eq&_). f_equal.
  assert (active r !! k = Some (tx_at r k)) as Hk'.
  { apply tx_at_lookup; [done|]. pose proof (wf_count _ W). lia. }
  assert (tx_id t <> 0) by (eapply tx_id_nonzero; [by eapply wf_tx|done]).
  eapply (wf_tx_inj _ W); [done..|congruence].
Qed.

(** A capability of the pool is invocable exactly when its mode matches the
    phase of its parent transaction. *)
Lemma invocable_spec r j wc i t :
  registry_wf r -> wrapped_pool r !! j = Some wc -> wc_id wc <> 0 ->
  active r !! i = Some t -> cap_parent t wc ->
  sto_registry_wrapped_invocable r j =
    match wc_mode wc with
    | STO_CAP_ACTIVE_OK => is_phase STO_PHASE_ACTIVE t
    | STO_CAP_COMMIT_ONLY => is_phase STO_PHASE_COMMITTED t
    end.
Proof.
  intros W Hj H0 Hi (Hid&Hin&Hph). unfold sto_registry_wrapped_invocable, cap_at. rewrite Hj. simpl.
  rewrite (cap_live _ _ _ (wf_cap _ W _ _ Hj H0)), <-Hid.
  rewrite (find_tx_by_id_complete _ _ _ W Hi) by (destruct Hph as [->|[-> _]]; done).
  rewrite (lookup_tx_at _ _ _ Hi). unfold is_phase.
  destruct Hph as [->|[-> Hm]]; [by destruct (wc_mode wc)|by rewrite Hm].
Qed.
