(* ===== verification/StoServer.v ===== *)
(** * STO server

    Model of [src/sto/ipc.c]: the request handlers and the dispatch loop of the
    transaction server over the registry of [StoRegistry].  A request is the
    message label and the message registers the handlers read, with the
    kernel-supplied badge of the sender; a reply is the list of message
    registers, or nothing for a rollback.  The server's [printf] diagnostics
    are not modelled. *)

From S2P Require Import Prelude StoRegistry.

(** ** Protocol data *)

Definition STO_OP_BEGIN : Z := 1.
Definition STO_OP_READ : Z := 2.
Definition STO_OP_STAGE : Z := 3.
Definition STO_OP_COMMIT : Z := 4.
Definition STO_OP_ROLLBACK : Z := 5.
Definition STO_OP_WRAP : Z := 6.
Definition STO_OP_UNWRAP : Z := 7.
Definition STO_OP_INVOKE : Z := 8.
Definition STO_OP_BENCH_PING : Z := 0xFFFF.

Record sto_msg := MkMsg { label : Z; mr0 : Z; mr1 : Z; mr2 : Z }.
Inductive sto_reply := NoReply | Reply (mrs : list Z).

Definition reply_status (status : Z) : sto_reply := Reply [status].

(** ** Handlers *)

Definition handle_begin (r : sto_registry) (badge : Z) : sto_reply * sto_registry :=
  match sto_registry_begin r badge with
  | (None, r') => (Reply [0], r')
  | (Some i, r') => (Reply [tx_id (tx_at r' i)], r')
  end.

Definition handle_read (r : sto_registry) (badge : Z) (m : sto_msg) : sto_reply * sto_registry :=
  match sto_registry_find r (mr0 m) badge with
  | None => (reply_status STO_INVALID_TX, r)
  | Some i =>
      if is_phase STO_PHASE_ACTIVE (tx_at r i) then
        let '(rc, r') := sto_registry_add_read r i (mr1 m) in (reply_status rc, r')
      else (reply_status STO_INVALID_STATE, r)
  end.

Definition handle_stage (r : sto_registry) (badge : Z) (m : sto_msg) : sto_reply * sto_registry :=
  match sto_registry_find r (mr0 m) badge with
  | None => (reply_status STO_INVALID_TX, r)
  | Some i =>
      if is_phase STO_PHASE_ACTIVE (tx_at r i) then
        let '(rc, r') := sto_registry_add_write r i (mr1 m) in (reply_status rc, r')
      else (reply_status STO_INVALID_STATE, r)
  end.

Definition handle_commit (r : sto_registry) (badge : Z) (m : sto_msg) : sto_reply * sto_registry :=
  match sto_registry_find r (mr0 m) badge with
  | None => (reply_status STO_INVALID_TX, r)
  | Some i =>
      if is_phase STO_PHASE_ACTIVE (tx_at r i) then
        if sto_registry_can_commit r i then
          let '(rc, r') := sto_registry_commit r i in (reply_status rc, r')
        else (reply_status STO_CONFLICT, sto_registry_abort r i)
      else (reply_status STO_INVALID_STATE, r)
  end.

Definition handle_rollback (r : sto_registry) (badge : Z) (m : sto_msg) : sto_reply * sto_registry :=
  match sto_registry_find r (mr0 m) badge with
  | None => (NoReply, r)
  | Some i =>
      if is_phase STO_PHASE_ACTIVE (tx_at r i) then (NoReply, sto_registry_abort r i)
      else (NoReply, r)
  end.

Definition wrap_mode (mode_w : Z) : option sto_cap_mode :=
  if mode_w =? 0 then Some STO_CAP_COMMIT_ONLY
  else if mode_w =? 1 then Some STO_CAP_ACTIVE_OK
  else None.

Definition handle_wrap (r : sto_registry) (badge : Z) (m : sto_msg) : sto_reply * sto_registry :=
  match sto_registry_find r (mr0 m) badge with
  | None => (reply_status STO_INVALID_TX, r)
  | Some i =>
      if is_phase STO_PHASE_ACTIVE (tx_at r i) then
        match wrap_mode (mr2 m) with
        | None => (reply_status STO_PROTOCOL, r)
        | Some mode =>
            let '(wid, r') := sto_registry_wrap r i (mr1 m) mode in
            if wid =? 0 then (reply_status STO_QUOTA, r') else (Reply [STO_OK; wid], r')
        end
      else (reply_status STO_INVALID_STATE, r)
  end.

Definition handle_invoke (r : sto_registry) (badge : Z) (m : sto_msg) : sto_reply * sto_registry :=
  match sto_registry_wrapped_find r (mr0 m) with
  | None => (reply_status STO_INVALID_TX, r)
  | Some j =>
      if sto_registry_wrapped_invocable r j then (reply_status STO_OK, r)
      else (reply_status STO_INVALID_STATE, r)
  end.

(** One turn of the [while (1)] loop. *)
Definition sto_dispatch (r : sto_registry) (badge : Z) (m : sto_msg) : sto_reply * sto_registry :=
  if label m =? STO_OP_BEGIN then handle_begin r badge
  else if label m =? STO_OP_READ then handle_read r badge m
  else if label m =? STO_OP_STAGE then handle_stage r badge m
  else if label m =? STO_OP_COMMIT then handle_commit r badge m
  else if label m =? STO_OP_ROLLBACK then handle_rollback r badge m
  else if label m =? STO_OP_WRAP then handle_wrap r badge m
  else if label m =? STO_OP_INVOKE then handle_invoke r badge m
  else if label m =? STO_OP_BENCH_PING then (reply_status STO_OK, r)
  else (reply_status STO_PROTOCOL, r).

(** The loop over a finite sequence of received messages, from state [r]. *)
Fixpoint serve_from (r : sto_registry) (msgs : list (Z * sto_msg)) : list sto_reply * sto_registry :=
  match msgs with
  | [] => ([], r)
  | (badge, m) :: msgs =>
      let '(rep, r1) := sto_dispatch r badge m in
      let '(reps, r2) := serve_from r1 msgs in
      (rep :: reps, r2)
  end.

Definition sto_serve (msgs : list (Z * sto_msg)) : list sto_reply * sto_registry :=
  serve_from sto_registry_init msgs.

(** Convenient message constructors. *)
Definition begin_msg : sto_msg := MkMsg STO_OP_BEGIN 0 0 0.
Definition read_msg (t o : Z) : sto_msg := MkMsg STO_OP_READ t o 0.
Definition stage_msg (t o : Z) : sto_msg := MkMsg STO_OP_STAGE t o 0.
Definition commit_msg (t : Z) : sto_msg := MkMsg STO_OP_COMMIT t 0 0.
Definition rollback_msg (t : Z) : sto_msg := MkMsg STO_OP_ROLLBACK t 0 0.
Definition wrap_msg (t o mode : Z) : sto_msg := MkMsg STO_OP_WRAP t o mode.
Definition invoke_msg (k : Z) : sto_msg := MkMsg STO_OP_INVOKE k 0 0.

(** ** Case analysis of one request

    [step_case] lists what one dispatch can do to a well-formed registry; every
    later theorem about the server is by cases on it. *)

Inductive step_case (r : sto_registry) (b : Z) (m : sto_msg) : sto_reply -> sto_registry -> Prop :=
| case_begin i t n :
    label m = STO_OP_BEGIN -> active r !! i = Some t -> phase t = STO_PHASE_FREE ->
    (active_count r <= n <= STO_MAX_TX)%nat -> (i < n)%nat ->
    step_case r b m (Reply [next_tx_id r])
      (MkRegistry (<[i := MkTx (next_tx_id r) b STO_PHASE_ACTIVE [] [] []]> (active r)) n
         (commit_log r) (next_tx_id r + 1) (wrapped_pool r) (next_wrapped_id r))
| case_begin_full :
    label m = STO_OP_BEGIN -> (forall i t, active r !! i = Some t -> phase t <> STO_PHASE_FREE) ->
    step_case r b m (Reply [0]) r
| case_add i t t' rc :
    label m = STO_OP_READ \/ label m = STO_OP_STAGE ->
    active r !! i = Some t -> phase t = STO_PHASE_ACTIVE -> tx_id t = mr0 m -> owner_badge t = b ->
    (label m = STO_OP_READ /\ exists s, obj_set_add (read_set t) (mr1 m) = (rc, s) /\ t' = set_read_set s t) \/
    (label m = STO_OP_STAGE /\ exists s, obj_set_add (write_set t) (mr1 m) = (rc, s) /\ t' = set_write_set s t) ->
    step_case r b m (reply_status rc) (update_tx i t' r)
| case_commit i t p :
    label m = STO_OP_COMMIT ->
    active r !! i = Some t -> phase t = STO_PHASE_ACTIVE -> tx_id t = mr0 m -> owner_badge t = b ->
    sto_registry_can_commit r i = true -> (length (commit_log r) < STO_MAX_COMMIT_LOG)%nat ->
    p = STO_PHASE_COMMITTED \/ p = STO_PHASE_FREE ->
    (p = STO_PHASE_COMMITTED <-> exists j wc, wrapped_pool r !! j = Some wc /\ wc_id wc <> 0 /\
       wc_id wc ∈ wrapped_caps t /\ wc_mode wc = STO_CAP_COMMIT_ONLY) ->
    step_case r b m (reply_status STO_OK)
      (finish r i t p (fun wc => bool_decide (wc_mode wc = STO_CAP_ACTIVE_OK))
         (commit_log r ++ [MkEntry (tx_id t) (write_set t)]))
| case_abort i t rep :
    (label m = STO_OP_COMMIT /\ rep = reply_status STO_CONFLICT /\ sto_registry_can_commit r i = false) \/
    (label m = STO_OP_ROLLBACK /\ rep = NoReply) ->
    active r !! i = Some t -> phase t = STO_PHASE_ACTIVE -> tx_id t = mr0 m -> owner_badge t = b ->
    step_case r b m rep (finish r i t STO_PHASE_FREE (fun _ => true) (commit_log r))
| case_wrap i t j wc mode :
    label m = STO_OP_WRAP -> wrap_mode (mr2 m) = Some mode ->
    active r !! i = Some t -> phase t = STO_PHASE_ACTIVE -> tx_id t = mr0 m -> owner_badge t = b ->
    wrapped_pool r !! j = Some wc -> wc_id wc = 0 ->
    (length (wrapped_caps t) < STO_MAX_WRAPPED_PER_TX)%nat ->
    step_case r b m (Reply [STO_OK; next_wrapped_id r])
      (MkRegistry (<[i := set_wrapped_caps (wrapped_caps t ++ [next_wrapped_id r]) t]> (active r))
         (active_count r) (commit_log r) (next_tx_id r)
         (<[j := MkCap (next_wrapped_id r) (mr1 m) (tx_id t) mode false]> (wrapped_pool r))
         (next_wrapped_id r + 1))
| case_refused rep :
    (label m ∈ [STO_OP_READ; STO_OP_STAGE; STO_OP_COMMIT; STO_OP_WRAP] /\ rep = reply_status STO_INVALID_TX \/
     label m = STO_OP_ROLLBACK /\ rep = NoReply) ->
    sto_registry_find r (mr0 m) b = None ->
    step_case r b m rep r
| case_quota i t :
    label m = STO_OP_COMMIT \/ label m = STO_OP_WRAP ->
    active r !! i = Some t -> phase t = STO_PHASE_ACTIVE -> tx_id t = mr0 m -> owner_badge t = b ->
    step_case r b m (reply_status STO_QUOTA) r
| case_bad_mode i t :
    label m = STO_OP_WRAP -> wrap_mode (mr2 m) = None ->
    active r !! i = Some t -> phase t = STO_PHASE_ACTIVE -> tx_id t = mr0 m -> owner_badge t = b ->
    step_case r b m (reply_status STO_PROTOCOL) r
| case_invoke rc :
    label m = STO_OP_INVOKE -> handle_invoke r b m = (reply_status rc, r) ->
    step_case r b m (reply_status rc) r
| case_ping :
    label m = STO_OP_BENCH_PING -> step_case r b m (reply_status STO_OK) r
| case_unknown :
    label m ∉ [STO_OP_BEGIN; STO_OP_READ; STO_OP_STAGE; STO_OP_COMMIT; STO_OP_ROLLBACK; STO_OP_WRAP;
               STO_OP_INVOKE; STO_OP_BENCH_PING] ->
    step_case r b m (reply_status STO_PROTOCOL) r.

(** The identifier counters of [r] are not about to wrap around. *)
Definition ids_left (r : sto_registry) : Prop :=
  next_tx_id r + 1 < 2 ^ 64 /\ next_wrapped_id r + 1 < 2 ^ 64.

Section cases.
Context (r : sto_registry) (b : Z) (m : sto_msg) (W : registry_wf r) (L : ids_left r).

(** The four handlers that look a transaction up find exactly an active slot of the caller. *)
Lemma find_active i :
  sto_registry_find r (mr0 m) b = Some i ->
  exists t, active r !! i = Some t /\ tx_at r i = t /\ phase t = STO_PHASE_ACTIVE /\
    tx_id t = mr0 m /\ owner_badge t = b /\ is_phase STO_PHASE_ACTIVE (tx_at r i) = true.
Proof using W L.
  intros (t&Hi&Hp&Hid&Hb)%find_Some; [|done]. exists t.
  rewrite (lookup_tx_at _ _ _ Hi). by rewrite is_phase_spec.
Qed.

Ltac found i E :=
  destruct (sto_registry_find r (mr0 m) b) as [i|] eqn:E;
  [apply find_active in E as (t&Hi&Ht&Hp&Hid&Hb&Hph); rewrite ?Hph in *
  |intros; simplify_eq; apply case_refused; [|done]].

Lemma begin_step rep r' : label m = STO_OP_BEGIN -> handle_begin r b = (rep, r') -> step_case r b m rep r'.
Proof using W L.
  intros Hl. destruct L as [L1 L2]. unfold handle_begin.
  destruct (begin_cases r b W L1) as [[-> Hf]|(i&t&n&Hi&Hp&Hn&Hin&->)]; intros; simplify_eq.
  - by apply case_begin_full.
  - unfold tx_at; simpl. rewrite list_lookup_insert_eq by (by eapply lookup_lt_Some).
    by eapply case_begin.
Qed.

Lemma read_step rep r' : label m = STO_OP_READ -> handle_read r b m = (rep, r') -> step_case r b m rep r'.
Proof using W L.
  intros Hl. unfold handle_read. found i E; [|left; rewrite Hl; split; [set_solver|done]].
  unfold sto_registry_add_read. rewrite Ht. destruct (obj_set_add _ _) as [rc s] eqn:Ea.
  intros; simplify_eq. eapply case_add; eauto 10.
Qed.

Lemma stage_step rep r' : label m = STO_OP_STAGE -> handle_stage r b m = (rep, r') -> step_case r b m rep r'.
Proof using W L.
  intros Hl. unfold handle_stage. found i E; [|left; rewrite Hl; split; [set_solver|done]].
  unfold sto_registry_add_write. rewrite Ht. destruct (obj_set_add _ _) as [rc s] eqn:Ea.
  intros; simplify_eq. eapply case_add; eauto 10.
Qed.

Lemma commit_step rep r' : label m = STO_OP_COMMIT -> handle_commit r b m = (rep, r') -> step_case r b m rep r'.
Proof using W L.
  intros Hl. unfold handle_commit. found i E; [|left; rewrite Hl; split; [set_solver|done]].
  destruct (sto_registry_can_commit r i) eqn:Hc.
  - destruct (commit_finish _ _ _ W Hi) as [[-> _]|(Hlen&p&->&Hph')]; intros; simplify_eq.
    + eapply case_quota; eauto.
    + eapply case_commit; try done; [by destruct (has_live_commit_only _ _); auto|].
      rewrite (commit_phase _ _ _ W Hi). by destruct (has_live_commit_only _ _).
  - intros; simplify_eq. rewrite (abort_finish _ _ _ W Hi). eapply case_abort; eauto.
Qed.

Lemma rollback_step rep r' :
  label m = STO_OP_ROLLBACK -> handle_rollback r b m = (rep, r') -> step_case r b m rep r'.
Proof using W L.
  intros Hl. unfold handle_rollback. found i E; [|by right].
  intros; simplify_eq. rewrite (abort_finish _ _ _ W Hi). eapply case_abort; eauto.
Qed.

Lemma wrap_step rep r' : label m = STO_OP_WRAP -> handle_wrap r b m = (rep, r') -> step_case r b m rep r'.
Proof using W L.
  intros Hl. destruct L as [L1 L2]. unfold handle_wrap. found i E; [|left; rewrite Hl; split; [set_solver|done]].
  destruct (wrap_mode (mr2 m)) as [mode|] eqn:Hm; [|intros; simplify_eq; by eapply case_bad_mode].
  destruct (wrap_cases r i t (mr1 m) mode W Hi L2) as [->|(j&wc&Hj&H0&Hlen&->)]; simpl.
  - intros; simplify_eq. eapply case_quota; eauto.
  - destruct (Z.eqb_spec (next_wrapped_id r) 0); [pose proof (wf_next_wrapped _ W); lia|].
    intros; simplify_eq. by eapply case_wrap.
Qed.

Lemma invoke_step rep r' :
  label m = STO_OP_INVOKE -> handle_invoke r b m = (rep, r') -> step_case r b m rep r'.
Proof using W L.
  intros Hl H. assert (exists rc, rep = reply_status rc /\ r' = r) as (rc&->&->).
  { unfold handle_invoke in H. repeat split_in H; eauto. }
  by apply case_invoke.
Qed.

Lemma dispatch_cases rep r' : sto_dispatch r b m = (rep, r') -> step_case r b m rep r'.
Proof using W L.
  unfold sto_dispatch.
  repeat (match goal with |- context [label m =? ?c] => destruct (Z.eqb_spec (label m) c) end;
    [eauto using begin_step, read_step, stage_step, commit_step, rollback_step, wrap_step, invoke_step|]).
  - intros; simplify_eq. by apply case_ping.
  - intros; simplify_eq. apply case_unknown. rewrite !not_elem_of_cons.
    split_and!; try done. apply not_elem_of_nil.
Qed.
End cases.

(** ** Every request preserves the registry invariant *)

Lemma dispatch_wf r b m rep r' :
  registry_wf r -> ids_left r -> sto_dispatch r b m = (rep, r') -> registry_wf r'.
Proof.
  intros W L H. pose proof (find_active r b m W L) as Hf. destruct L as [L1 L2].
  unfold sto_dispatch, handle_begin, handle_read, handle_stage, handle_commit, handle_rollback,
    handle_wrap, handle_invoke in H.
  repeat split_in H; try done;
    try (destruct (Hf _ eq_refl) as (t&Hi&_&Hp&_);
         eauto using add_read_wf, add_write_wf, commit_wf, abort_wf, wrap_wf).
  all: eauto using begin_wf.
Qed.

Lemma step_case_ids r b m rep r' :
  step_case r b m rep r' ->
  next_tx_id r <= next_tx_id r' <= next_tx_id r + 1 /\
  next_wrapped_id r <= next_wrapped_id r' <= next_wrapped_id r + 1.
Proof. intros C. inversion C; subst; autorewrite with sto; simpl; lia. Qed.

(** Runs shorter than [2^64 - 2] messages never wrap an identifier counter. *)
Definition short (msgs : list (Z * sto_msg)) : Prop := Z.of_nat (length msgs) < 2 ^ 64 - 2.

Lemma serve_from_wf msgs r reps r' :
  registry_wf r -> next_tx_id r + Z.of_nat (length msgs) < 2 ^ 64 - 1 ->
  next_wrapped_id r + Z.of_nat (length msgs) < 2 ^ 64 - 1 ->
  serve_from r msgs = (reps, r') ->
  registry_wf r' /\ next_tx_id r' <= next_tx_id r + Z.of_nat (length msgs) /\
  next_wrapped_id r' <= next_wrapped_id r + Z.of_nat (length msgs).
Proof.
  revert r reps. induction msgs as [|[b m] msgs IH]; intros r reps W H1 H2 H; simpl in *.
  { simplify_eq. split_and!; [done|lia..]. }
  destruct (sto_dispatch r b m) as [rep r1] eqn:E1. destruct (serve_from r1 msgs) as [reps1 r2] eqn:E2.
  simplify_eq. assert (L : ids_left r) by (split; lia).
  pose proof (step_case_ids _ _ _ _ _ (dispatch_cases r b m W L _ _ E1)).
  destruct (IH r1 reps1) as (?&?&?); [by eapply dispatch_wf|lia..|done|]. split_and!; [done|lia..].
Qed.
