(* ===== verification/StoSpec.v ===== *)
(** * Abstract specification of the STO server, and refinement

    The specification is optimistic concurrency control without tables, slots
    or garbage collection: transactions live for ever with a status, and each
    carries [sp_since], the set of objects written by transactions that
    committed since it began.  It adapts [formal/tla/STO.tla] to what the code
    promises: a transaction may commit only when nothing it read was written by
    a transaction that committed during its lifetime.  The server of [StoServer]
    is shown to refine it: every run of the server is a run of the
    specification with the same replies. *)

From S2P Require Import Prelude StoRegistry StoServer.

(** ** The specification *)

Inductive spec_status := SpecActive | SpecCommitted | SpecAborted.

Record spec_tx := MkSpecTx {
  sp_owner : Z;
  sp_status : spec_status;
  sp_reads : gset Z;
  sp_writes : gset Z;
  sp_since : gset Z;
}.

Record spec_cap := MkSpecCap { sp_cap_tx : Z; sp_cap_mode : sto_cap_mode; sp_cap_live : bool }.

Record spec := MkSpec { sp_txs : gmap Z spec_tx; sp_caps : gmap Z spec_cap }.

Definition spec_init : spec := MkSpec ∅ ∅.

Definition with_status (st : spec_status) (x : spec_tx) : spec_tx :=
  MkSpecTx (sp_owner x) st (sp_reads x) (sp_writes x) (sp_since x).
Definition note_commit (ws : gset Z) (x : spec_tx) : spec_tx :=
  MkSpecTx (sp_owner x) (sp_status x) (sp_reads x) (sp_writes x) (sp_since x ∪ ws).
Definition add_spec_read (o : Z) (x : spec_tx) : spec_tx :=
  MkSpecTx (sp_owner x) (sp_status x) ({[o]} ∪ sp_reads x) (sp_writes x) (sp_since x).
Definition add_spec_write (o : Z) (x : spec_tx) : spec_tx :=
  MkSpecTx (sp_owner x) (sp_status x) (sp_reads x) ({[o]} ∪ sp_writes x) (sp_since x).
Definition revoke_if (p : spec_cap -> bool) (c : spec_cap) : spec_cap :=
  if p c then MkSpecCap (sp_cap_tx c) (sp_cap_mode c) false else c.

(** Capability [k] may be exercised: the predicate [Invocable] of STO.tla. *)
Definition spec_invocable (s : spec) (k : Z) : Prop :=
  exists c x, sp_caps s !! k = Some c /\ sp_cap_live c = true /\ sp_txs s !! sp_cap_tx c = Some x /\
    match sp_cap_mode c with
    | STO_CAP_ACTIVE_OK => sp_status x = SpecActive
    | STO_CAP_COMMIT_ONLY => sp_status x = SpecCommitted
    end.

(** [x] is an active transaction [t] of client [b]. *)
Definition owned (s : spec) (b t : Z) (x : spec_tx) : Prop :=
  sp_txs s !! t = Some x /\ sp_status x = SpecActive /\ sp_owner x = b.

Definition spec_abort (s : spec) (t : Z) (x : spec_tx) : spec :=
  MkSpec (<[t := with_status SpecAborted x]> (sp_txs s))
    (revoke_if (fun c => sp_cap_tx c =? t) <$> sp_caps s).

Definition spec_commit (s : spec) (t : Z) (x : spec_tx) : spec :=
  MkSpec (<[t := with_status SpecCommitted x]> (note_commit (sp_writes x) <$> sp_txs s))
    (revoke_if (fun c => (sp_cap_tx c =? t) && bool_decide (sp_cap_mode c = STO_CAP_ACTIVE_OK)) <$> sp_caps s).

Inductive spec_step (s : spec) (b : Z) (m : sto_msg) : sto_reply -> spec -> Prop :=
| spec_begin t :
    label m = STO_OP_BEGIN -> t <> 0 -> sp_txs s !! t = None ->
    spec_step s b m (Reply [t]) (MkSpec (<[t := MkSpecTx b SpecActive ∅ ∅ ∅]> (sp_txs s)) (sp_caps s))
| spec_begin_full :
    label m = STO_OP_BEGIN -> spec_step s b m (Reply [0]) s
| spec_read x :
    label m = STO_OP_READ -> owned s b (mr0 m) x ->
    spec_step s b m (reply_status STO_OK)
      (MkSpec (<[mr0 m := add_spec_read (mr1 m) x]> (sp_txs s)) (sp_caps s))
| spec_write x :
    label m = STO_OP_STAGE -> owned s b (mr0 m) x ->
    spec_step s b m (reply_status STO_OK)
      (MkSpec (<[mr0 m := add_spec_write (mr1 m) x]> (sp_txs s)) (sp_caps s))
| spec_commit_ok x :
    label m = STO_OP_COMMIT -> owned s b (mr0 m) x -> sp_reads x ∩ sp_since x = ∅ ->
    spec_step s b m (reply_status STO_OK) (spec_commit s (mr0 m) x)
| spec_conflict x :
    label m = STO_OP_COMMIT -> owned s b (mr0 m) x ->
    spec_step s b m (reply_status STO_CONFLICT) (spec_abort s (mr0 m) x)
| spec_rollback x :
    label m = STO_OP_ROLLBACK -> owned s b (mr0 m) x ->
    spec_step s b m NoReply (spec_abort s (mr0 m) x)
| spec_wrap x k mode :
    label m = STO_OP_WRAP -> owned s b (mr0 m) x -> wrap_mode (mr2 m) = Some mode ->
    k <> 0 -> sp_caps s !! k = None ->
    spec_step s b m (Reply [STO_OK; k])
      (MkSpec (sp_txs s) (<[k := MkSpecCap (mr0 m) mode true]> (sp_caps s)))
| spec_bad_mode x :
    label m = STO_OP_WRAP -> owned s b (mr0 m) x -> wrap_mode (mr2 m) = None ->
    spec_step s b m (reply_status STO_PROTOCOL) s
| spec_quota x :
    label m ∈ [STO_OP_READ; STO_OP_STAGE; STO_OP_COMMIT; STO_OP_WRAP] -> owned s b (mr0 m) x ->
    spec_step s b m (reply_status STO_QUOTA) s
| spec_not_owned :
    label m ∈ [STO_OP_READ; STO_OP_STAGE; STO_OP_COMMIT; STO_OP_WRAP] ->
    (forall x, ~ owned s b (mr0 m) x) -> spec_step s b m (reply_status STO_INVALID_TX) s
| spec_rollback_none :
    label m = STO_OP_ROLLBACK -> (forall x, ~ owned s b (mr0 m) x) -> spec_step s b m NoReply s
| spec_invoke :
    label m = STO_OP_INVOKE -> spec_invocable s (mr0 m) -> spec_step s b m (reply_status STO_OK) s
| spec_invoke_fails rc :
    label m = STO_OP_INVOKE -> ~ spec_invocable s (mr0 m) ->
    rc = STO_INVALID_TX \/ rc = STO_INVALID_STATE -> spec_step s b m (reply_status rc) s
| spec_ping :
    label m = STO_OP_BENCH_PING -> spec_step s b m (reply_status STO_OK) s
| spec_unknown :
    label m ∉ [STO_OP_BEGIN; STO_OP_READ; STO_OP_STAGE; STO_OP_COMMIT; STO_OP_ROLLBACK; STO_OP_WRAP;
               STO_OP_INVOKE; STO_OP_BENCH_PING] ->
    spec_step s b m (reply_status STO_PROTOCOL) s.

(** A run of the specification. *)
Inductive spec_run : spec -> list (Z * sto_msg) -> list sto_reply -> spec -> Prop :=
| spec_run_nil s : spec_run s [] [] s
| spec_run_cons s b m rep s1 msgs reps s2 :
    spec_step s b m rep s1 -> spec_run s1 msgs reps s2 -> spec_run s ((b, m) :: msgs) (rep :: reps) s2.

(** ** The simulation relation *)

Record tx_rel (log : list sto_commit_entry) (t : sto_transaction) (x : spec_tx) : Prop := {
  rel_owner : sp_owner x = owner_badge t;
  rel_status : sp_status x = SpecActive;
  rel_reads : forall o, o ∈ sp_reads x <-> o ∈ read_set t;
  rel_writes : forall o, o ∈ sp_writes x <-> o ∈ write_set t;
  rel_since : forall o, o ∈ sp_since x -> exists e, e ∈ log /\ o ∈ ce_write_set e;
}.

Record rel (r : sto_registry) (s : spec) : Prop := {
  rel_active : forall i t, active r !! i = Some t -> phase t = STO_PHASE_ACTIVE ->
    exists x, sp_txs s !! tx_id t = Some x /\ tx_rel (commit_log r) t x;
  rel_active_inv : forall id x, sp_txs s !! id = Some x -> sp_status x = SpecActive ->
    exists i t, active r !! i = Some t /\ tx_id t = id /\ phase t = STO_PHASE_ACTIVE;
  rel_committed : forall i t, active r !! i = Some t -> phase t = STO_PHASE_COMMITTED ->
    exists x, sp_txs s !! tx_id t = Some x /\ sp_status x = SpecCommitted;
  rel_tx_range : forall id x, sp_txs s !! id = Some x -> 0 < id < next_tx_id r;
  rel_cap : forall j wc, wrapped_pool r !! j = Some wc -> wc_id wc <> 0 ->
    sp_caps s !! wc_id wc = Some (MkSpecCap (wc_tx_id wc) (wc_mode wc) true);
  rel_cap_range : forall k c, sp_caps s !! k = Some c -> 0 < k < next_wrapped_id r;
  rel_cap_inv : forall k c, sp_caps s !! k = Some c -> sp_cap_live c = true ->
    exists j wc, wrapped_pool r !! j = Some wc /\ wc_id wc = k;
}.

Lemma rel_init : rel sto_registry_init spec_init.
Proof.
  split; simpl; try (by intros ? ? [-> _]%lookup_replicate); by intros ? ? ?%lookup_empty_Some.
Qed.

Section simulation.
Context (r : sto_registry) (s : spec) (W : registry_wf r) (R : rel r s).

Lemma rel_owned i t :
  active r !! i = Some t -> phase t = STO_PHASE_ACTIVE ->
  exists x, owned s (owner_badge t) (tx_id t) x /\ tx_rel (commit_log r) t x.
Proof using R.
  intros Hi Hp. destruct (rel_active _ _ R _ _ Hi Hp) as (x&Hx&Hr). exists x. split; [|done].
  by destruct Hr.
Qed.

Lemma rel_not_owned id b x :
  sto_registry_find r id b = None -> owned s b id x -> False.
Proof using W R.
  intros Hf (Hx&Hst&Hb). destruct (rel_active_inv _ _ R _ _ Hx Hst) as (i&t&Hi&Hid&Hp).
  destruct (rel_active _ _ R _ _ Hi Hp) as (y&Hy&Hr). simplify_eq.
  eapply find_None; try done. by destruct Hr.
Qed.

(** The capabilities listed by an active transaction are those bound to it. *)
Lemma in_wrapped_iff i t j wc :
  active r !! i = Some t -> phase t = STO_PHASE_ACTIVE -> wrapped_pool r !! j = Some wc -> wc_id wc <> 0 ->
  wc_id wc ∈ wrapped_caps t <-> wc_tx_id wc = tx_id t.
Proof using W.
  intros Hi Hp Hj H0. split; [intros; eapply wf_own; try done; congruence|].
  intros Htx. destruct (wf_cap _ W _ _ Hj H0) as [_ _ (k&u&Hk&Hid&Hin&_)].
  assert (k = i) as ->; [|by simplify_eq].
  eapply (wf_tx_inj _ W); [done..|congruence|].
  rewrite Hid, Htx. eapply tx_id_nonzero; [by eapply wf_tx|congruence].
Qed.

(** Commit and abort, in the shape they share. *)
Lemma rel_finish i t x p sel (selm : sto_cap_mode -> bool) pr log st f :
  active r !! i = Some t -> phase t = STO_PHASE_ACTIVE -> sp_txs s !! tx_id t = Some x ->
  (forall wc, sel wc = selm (wc_mode wc)) ->
  (forall c, pr c = (sp_cap_tx c =? tx_id t) && selm (sp_cap_mode c)) ->
  p <> STO_PHASE_ACTIVE -> st <> SpecActive -> (p = STO_PHASE_COMMITTED -> st = SpecCommitted) ->
  (forall y, sp_status (f y) = sp_status y) ->
  (forall u y, tx_rel (commit_log r) u y -> tx_rel log u (f y)) ->
  rel (finish r i t p sel log)
    (MkSpec (<[tx_id t := with_status st x]> (f <$> sp_txs s)) (revoke_if pr <$> sp_caps s)).
Proof using W R.
  intros Hi Hp Hx Hsel Hpr Hpa Hst Hpc Hf Hlog. assert (Hlt := lookup_lt_Some _ _ _ Hi).
  assert (Hnz : tx_id t <> 0) by (eapply tx_id_nonzero; [by eapply wf_tx|congruence]).
  assert (Hother : forall k u, active r !! k = Some u -> k <> i -> tx_id u <> tx_id t).
  { intros k u Hk Hne Heq. apply Hne. eapply (wf_tx_inj _ W); try done. congruence. }
  split; simpl; autorewrite with sto.
  - intros k u [(->&<-&?)|[Hne Hk]]%lookup_insert_cases Hu; [done|].
    destruct (rel_active _ _ R _ _ Hk Hu) as (y&Hy&Hr). exists (f y).
    rewrite lookup_insert_ne by (symmetry; eauto). rewrite lookup_fmap, Hy.
    split; [done|]. rewrite (finish_log _ _ _ _ _ _ k u) by done. eauto.
  - intros id y [[<- <-]|[Hne Hy]]%lookup_insert_Some Hya; [done|].
    rewrite lookup_fmap in Hy. destruct (sp_txs s !! id) as [z|] eqn:Hz; simplify_eq/=.
    rewrite Hf in Hya. destruct (rel_active_inv _ _ R _ _ Hz Hya) as (k&u&Hk&<-&Hu).
    exists k, u. rewrite list_lookup_insert_ne; [done|]. intros ->. simplify_eq.
  - intros k u [(->&<-&?)|[Hne Hk]]%lookup_insert_cases Hu; simpl in *.
    + eexists. rewrite lookup_insert_eq. split; [done|]. by apply Hpc.
    + destruct (rel_committed _ _ R _ _ Hk Hu) as (y&Hy&Hc). exists (f y).
      rewrite lookup_insert_ne by (symmetry; eauto). rewrite lookup_fmap, Hy. by rewrite Hf.
  - intros id y [[<- <-]|[Hne Hy]]%lookup_insert_Some; [by eapply (rel_tx_range _ _ R)|].
    rewrite lookup_fmap in Hy. destruct (sp_txs s !! id) eqn:Hz; simplify_eq/=.
    by eapply (rel_tx_range _ _ R).
  - intros j wc Hj H0. apply reclaimed_lookup in Hj as [Hj Hns]; [|done].
    rewrite lookup_fmap, (rel_cap _ _ R _ _ Hj H0). simpl. unfold revoke_if. rewrite Hpr. simpl.
    destruct (Z.eqb_spec (wc_tx_id wc) (tx_id t)) as [Heq|]; [|done]. simpl.
    rewrite <-Hsel, Hns; [done|]. by eapply in_wrapped_iff.
  - intros k c Hc. rewrite lookup_fmap in Hc. destruct (sp_caps s !! k) eqn:Hk; simplify_eq/=.
    by eapply (rel_cap_range _ _ R).
  - intros k c Hc Hl. rewrite lookup_fmap in Hc. destruct (sp_caps s !! k) as [c'|] eqn:Hk; simplify_eq/=.
    assert (sp_cap_live c' = true /\ pr c' = false) as [Hl' Hpf].
    { unfold revoke_if in Hl. by destruct (pr c'). }
    destruct (rel_cap_inv _ _ R _ _ Hk Hl') as (j&wc&Hj&<-). exists j, wc. split; [|done].
    assert (H0 : wc_id wc <> 0) by (pose proof (rel_cap_range _ _ R _ _ Hk); lia).
    rewrite (rel_cap _ _ R _ _ Hj H0) in Hk. simplify_eq. rewrite Hpr in Hpf. simpl in Hpf.
    apply reclaimed_survives; [done|]. intros Hin.
    rewrite (in_wrapped_iff _ _ _ _ Hi Hp Hj H0) in Hin. rewrite Hin, Z.eqb_refl in Hpf. by rewrite Hsel.
Qed.

(** An object update of one transaction. *)
Lemma rel_update i t t' x x' :
  active r !! i = Some t -> phase t = STO_PHASE_ACTIVE -> sp_txs s !! tx_id t = Some x ->
  tx_id t' = tx_id t -> phase t' = phase t -> tx_rel (commit_log r) t' x' ->
  rel (update_tx i t' r) (MkSpec (<[tx_id t := x']> (sp_txs s)) (sp_caps s)).
Proof using W R.
  intros Hi Hp Hx Hid Hph Hr. assert (Hlt := lookup_lt_Some _ _ _ Hi).
  assert (Hnz : tx_id t <> 0) by (eapply tx_id_nonzero; [by eapply wf_tx|congruence]).
  assert (Hother : forall k u, active r !! k = Some u -> k <> i -> tx_id u <> tx_id t).
  { intros k u Hk Hne Heq. apply Hne. eapply (wf_tx_inj _ W); try done. congruence. }
  destruct R. split; simpl; try done.
  - intros k u [(->&<-&?)|[Hne Hk]]%lookup_insert_cases Hu.
    + rewrite Hid, lookup_insert_eq. eauto.
    + rewrite lookup_insert_ne by (symmetry; eauto). eauto.
  - intros id y [[<- <-]|[Hne Hy]]%lookup_insert_Some Hya.
    + exists i, t'. rewrite list_lookup_insert_eq by done. split_and!; [done..|congruence].
    + destruct (rel_active_inv0 _ _ Hy Hya) as (k&u&Hk&<-&Hu).
      exists k, u. rewrite list_lookup_insert_ne; [done|]. intros ->. simplify_eq.
  - intros k u [(->&<-&?)|[Hne Hk]]%lookup_insert_cases Hu; [congruence|].
    rewrite lookup_insert_ne by (symmetry; eauto). eauto.
  - intros id y [[<- <-]|[Hne Hy]]%lookup_insert_Some; eauto.
Qed.
End simulation.

(** The implementation's invocability test decides the specification's predicate. *)
Lemma invocable_iff r s k :
  registry_wf r -> rel r s ->
  spec_invocable s k <->
  exists j, sto_registry_wrapped_find r k = Some j /\ sto_registry_wrapped_invocable r j = true.
Proof.
  intros W R. pose proof (wf_pool_ok _ W) as P. split.
  - intros (c&x&Hc&Hl&Hx&Hm). destruct (rel_cap_inv _ _ R _ _ Hc Hl) as (j&wc&Hj&<-).
    assert (H0 : wc_id wc <> 0) by (pose proof (rel_cap_range _ _ R _ _ Hc); lia).
    rewrite (rel_cap _ _ R _ _ Hj H0) in Hc. simplify_eq/=.
    exists j. split; [by apply wrapped_find_complete|].
    destruct (cap_has_parent _ _ _ (wf_cap _ W _ _ Hj H0)) as (i&t&Hi&Hpar).
    rewrite (invocable_spec _ _ _ _ _ W Hj H0 Hi Hpar). destruct Hpar as (Hid&_&[Hp|[Hp Hmode]]).
    + destruct (rel_active _ _ R _ _ Hi Hp) as (y&Hy&Hr). rewrite Hid in Hy. simplify_eq.
      pose proof (rel_status _ _ _ Hr). destruct (wc_mode wc); [congruence|by apply is_phase_spec].
    + rewrite Hmode in *. by apply is_phase_spec.
  - intros (j&Hf&Hinv). apply wrapped_find_Some in Hf as (wc&Hj&<-&H0); [|done].
    destruct (cap_has_parent _ _ _ (wf_cap _ W _ _ Hj H0)) as (i&t&Hi&Hpar).
    rewrite (invocable_spec _ _ _ _ _ W Hj H0 Hi Hpar) in Hinv. destruct Hpar as (Hid&_).
    destruct (wc_mode wc) eqn:Hm; apply is_phase_spec in Hinv.
    + destruct (rel_committed _ _ R _ _ Hi Hinv) as (x&Hx&Hst). exists (MkSpecCap (wc_tx_id wc) (wc_mode wc) true), x.
      rewrite (rel_cap _ _ R _ _ Hj H0). simpl. rewrite <-Hid, Hm. done.
    + destruct (rel_active _ _ R _ _ Hi Hinv) as (x&Hx&Hr). exists (MkSpecCap (wc_tx_id wc) (wc_mode wc) true), x.
      rewrite (rel_cap _ _ R _ _ Hj H0). simpl. rewrite <-Hid, Hm. by destruct Hr.
Qed.

Lemma rel_begin r s b i t n :
  registry_wf r -> rel r s -> active r !! i = Some t -> phase t = STO_PHASE_FREE ->
  rel (MkRegistry (<[i := MkTx (next_tx_id r) b STO_PHASE_ACTIVE [] [] []]> (active r)) n
         (commit_log r) (next_tx_id r + 1) (wrapped_pool r) (next_wrapped_id r))
      (MkSpec (<[next_tx_id r := MkSpecTx b SpecActive ∅ ∅ ∅]> (sp_txs s)) (sp_caps s)).
Proof.
  intros W R Hi Hp. assert (Hlt := lookup_lt_Some _ _ _ Hi). pose proof (wf_next _ W).
  assert (Hold : forall k u, active r !! k = Some u -> next_tx_id r <> tx_id u).
  { intros k u Hk. pose proof (tx_id_range _ _ _ (wf_tx _ W _ _ Hk)). lia. }
  destruct R. split; simpl; try done.
  - intros k u [(->&<-&?)|[Hne Hk]]%lookup_insert_cases Hu; simpl.
    + eexists. rewrite lookup_insert_eq. split; [done|]. split; simpl; (done || set_solver).
    + rewrite lookup_insert_ne by eauto. eauto.
  - intros id y [[<- <-]|[Hne Hy]]%lookup_insert_Some Hya.
    + exists i. eexists. by rewrite list_lookup_insert_eq.
    + destruct (rel_active_inv0 _ _ Hy Hya) as (k&u&Hk&?&?). exists k, u.
      rewrite list_lookup_insert_ne; [done|]. intros ->. simplify_eq. congruence.
  - intros k u [(->&<-&?)|[Hne Hk]]%lookup_insert_cases Hu; [done|]. rewrite lookup_insert_ne by eauto. eauto.
  - intros id y [[<- <-]|[Hne Hy]]%lookup_insert_Some; [lia|]. apply rel_tx_range0 in Hy. lia.
Qed.

Lemma rel_wrap r s i t j wc obj mode :
  registry_wf r -> rel r s -> active r !! i = Some t -> phase t = STO_PHASE_ACTIVE ->
  wrapped_pool r !! j = Some wc -> wc_id wc = 0 ->
  rel (MkRegistry (<[i := set_wrapped_caps (wrapped_caps t ++ [next_wrapped_id r]) t]> (active r))
         (active_count r) (commit_log r) (next_tx_id r)
         (<[j := MkCap (next_wrapped_id r) obj (tx_id t) mode false]> (wrapped_pool r)) (next_wrapped_id r + 1))
      (MkSpec (sp_txs s) (<[next_wrapped_id r := MkSpecCap (tx_id t) mode true]> (sp_caps s))).
Proof.
  intros W R Hi Hp Hj H0. assert (Hlt := lookup_lt_Some _ _ _ Hi). assert (Hjlt := lookup_lt_Some _ _ _ Hj).
  pose proof (wf_next_wrapped _ W). destruct R. split; simpl; try done.
  - intros k u [(->&<-&?)|[Hne Hk]]%lookup_insert_cases Hu; [|eauto].
    destruct (rel_active0 _ _ Hi Hp) as (x&Hx&[]). exists x. split; [done|]. by split.
  - intros id y Hy Hya. destruct (rel_active_inv0 _ _ Hy Hya) as (k&u&Hk&?&?).
    destruct (decide (k = i)) as [->|]; [|exists k, u; by rewrite list_lookup_insert_ne].
    simplify_eq. exists i, (set_wrapped_caps (wrapped_caps t ++ [next_wrapped_id r]) t).
    by rewrite list_lookup_insert_eq.
  - intros k u [(->&<-&?)|[Hne Hk]]%lookup_insert_cases Hu; simpl in *; [congruence|eauto].
  - intros k wc' [(->&<-&?)|[Hne Hk]]%lookup_insert_cases Hnz; simpl; [by rewrite lookup_insert_eq|].
    rewrite lookup_insert_ne; [eauto|]. pose proof (cap_id_range _ _ _ (wf_cap _ W _ _ Hk Hnz)). lia.
  - intros k c [[<- <-]|[Hne Hc]]%lookup_insert_Some; [lia|]. apply rel_cap_range0 in Hc. lia.
  - intros k c [[<- <-]|[Hne Hc]]%lookup_insert_Some Hl.
    + exists j. eexists. by rewrite list_lookup_insert_eq.
    + destruct (rel_cap_inv0 _ _ Hc Hl) as (k'&wc'&Hk'&<-). exists k', wc'.
      rewrite list_lookup_insert_ne; [done|]. intros ->. simplify_eq. apply rel_cap_range0 in Hc. lia.
Qed.

(** ** Forward simulation *)

Lemma can_commit_spec r i t :
  active r !! i = Some t ->
  sto_registry_can_commit r i = true <->
  forall e o, e ∈ commit_log r -> o ∈ read_set t -> o ∈ ce_write_set e -> False.
Proof.
  intros Hi. unfold sto_registry_can_commit. rewrite (lookup_tx_at _ _ _ Hi), forallb_forall.
  setoid_rewrite <-list_elem_of_In. setoid_rewrite negb_true_iff. setoid_rewrite obj_sets_intersect_spec.
  naive_solver.
Qed.

Lemma update_tx_self r i t : active r !! i = Some t -> update_tx i t r = r.
Proof. intros Hi. unfold update_tx, set_active. rewrite list_insert_id by done. by destruct r. Qed.

(** The branches of a request, one by one. *)
Section branches.
Context (r : sto_registry) (s : spec) (b : Z) (m : sto_msg) (W : registry_wf r) (R : rel r s).

Definition simulated (rep : sto_reply) (r' : sto_registry) : Prop :=
  exists s', spec_step s b m rep s' /\ rel r' s'.

(** The caller's transaction in slot [i]. *)
Definition caller_tx (i : nat) (t : sto_transaction) : Prop :=
  active r !! i = Some t /\ phase t = STO_PHASE_ACTIVE /\ tx_id t = mr0 m /\ owner_badge t = b.

Lemma caller_owned i t :
  caller_tx i t -> exists x, owned s b (mr0 m) x /\ sp_txs s !! tx_id t = Some x /\ tx_rel (commit_log r) t x.
Proof using R.
  intros (Hi&Hp&Hid&Hb). destruct (rel_owned _ _ R _ _ Hi Hp) as (x&Ho&Hr). exists x.
  rewrite Hid, Hb in Ho. rewrite Hid. destruct Ho as (?&?&?). by split_and!.
Qed.

Lemma sim_read i t rc set :
  caller_tx i t -> label m = STO_OP_READ -> obj_set_add (read_set t) (mr1 m) = (rc, set) ->
  simulated (reply_status rc) (update_tx i (set_read_set set t) r).
Proof using W R.
  intros C Hl Ha. destruct (caller_owned _ _ C) as (x&Ho&Hx&[]). destruct C as (Hi&Hp&Hid&Hb).
  apply obj_set_add_spec in Ha as [[-> Hset]|[-> ->]].
  - eexists. split; [by eapply spec_read|]. rewrite <-Hid.
    eapply rel_update; try done. split; simpl; try done. set_solver.
  - exists s. split; [eapply spec_quota; [rewrite Hl; set_solver|done]|].
    replace (set_read_set (read_set t) t) with t by (by destruct t). by rewrite update_tx_self.
Qed.

Lemma sim_stage i t rc set :
  caller_tx i t -> label m = STO_OP_STAGE -> obj_set_add (write_set t) (mr1 m) = (rc, set) ->
  simulated (reply_status rc) (update_tx i (set_write_set set t) r).
Proof using W R.
  intros C Hl Ha. destruct (caller_owned _ _ C) as (x&Ho&Hx&[]). destruct C as (Hi&Hp&Hid&Hb).
  apply obj_set_add_spec in Ha as [[-> Hset]|[-> ->]].
  - eexists. split; [by eapply spec_write|]. rewrite <-Hid.
    eapply rel_update; try done. split; simpl; try done. set_solver.
  - exists s. split; [eapply spec_quota; [rewrite Hl; set_solver|done]|].
    replace (set_write_set (write_set t) t) with t by (by destruct t). by rewrite update_tx_self.
Qed.

Lemma sim_commit i t p :
  caller_tx i t -> label m = STO_OP_COMMIT -> sto_registry_can_commit r i = true ->
  p = STO_PHASE_COMMITTED \/ p = STO_PHASE_FREE ->
  simulated (reply_status STO_OK)
    (finish r i t p (fun wc => bool_decide (wc_mode wc = STO_CAP_ACTIVE_OK))
       (commit_log r ++ [MkEntry (tx_id t) (write_set t)])).
Proof using W R.
  intros C Hl Hcc Hph. destruct (caller_owned _ _ C) as (x&Ho&Hx&Hr). destruct C as (Hi&Hp&Hid&Hb).
  exists (spec_commit s (mr0 m) x). split.
  - eapply spec_commit_ok; try done. apply set_eq. intros o. split; [|set_solver].
    intros [Hrd (e&He&Hw)%(rel_since _ _ _ Hr)]%elem_of_intersection. exfalso.
    eapply (can_commit_spec _ _ _ Hi); [done..| |done]. by apply (rel_reads _ _ _ Hr).
  - unfold spec_commit. rewrite <-Hid.
    eapply (rel_finish _ _ W R _ _ _ _ _ (fun m => bool_decide (m = STO_CAP_ACTIVE_OK))); try done.
    + by destruct Hph as [->| ->].
    + intros u y []. split; simpl; try done. intros o [Hs|Hw]%elem_of_union.
      * destruct (rel_since0 _ Hs) as (e&?&?). exists e. set_solver.
      * eexists. split; [apply elem_of_app; right; by apply list_elem_of_singleton|].
        by apply (rel_writes _ _ _ Hr).
Qed.

Lemma sim_abort i t rep :
  caller_tx i t ->
  label m = STO_OP_COMMIT /\ rep = reply_status STO_CONFLICT \/ label m = STO_OP_ROLLBACK /\ rep = NoReply ->
  simulated rep (finish r i t STO_PHASE_FREE (fun _ => true) (commit_log r)).
Proof using W R.
  intros C Hl. destruct (caller_owned _ _ C) as (x&Ho&Hx&Hr). destruct C as (Hi&Hp&Hid&Hb).
  exists (spec_abort s (mr0 m) x). split.
  - destruct Hl as [[? ->]|[? ->]]; [by eapply spec_conflict|by eapply spec_rollback].
  - unfold spec_abort. rewrite <-Hid, <-(map_fmap_id (sp_txs s)).
    eapply (rel_finish _ _ W R _ _ _ _ _ (fun _ => true)); try done. intros c. by rewrite andb_true_r.
Qed.

Lemma sim_invoke rc :
  label m = STO_OP_INVOKE -> handle_invoke r b m = (reply_status rc, r) -> simulated (reply_status rc) r.
Proof using W R.
  intros Hl H. exists s. split; [|done]. unfold handle_invoke in H.
  pose proof (invocable_iff r s (mr0 m) W R) as Hiff.
  destruct (sto_registry_wrapped_find r (mr0 m)) as [j|];
    [destruct (sto_registry_wrapped_invocable r j) eqn:Ei|]; simplify_eq.
  - apply spec_invoke; [done|]. apply Hiff. eauto.
  - apply spec_invoke_fails; [done| |by right]. rewrite Hiff. naive_solver congruence.
  - apply spec_invoke_fails; [done| |by left]. rewrite Hiff. naive_solver.
Qed.
End branches.

(** Each branch of a request is a step of the specification. *)
Lemma step_simulation r s b m rep r' :
  registry_wf r -> rel r s -> step_case r b m rep r' -> simulated s b m rep r'.
Proof.
  intros W R C. destruct C.
  - eexists. split; [|by eapply rel_begin]. apply spec_begin; [done|pose proof (wf_next _ W); lia|].
    destruct (sp_txs s !! _) eqn:E; [|done]. apply (rel_tx_range _ _ R) in E. lia.
  - exists s. split; [by apply spec_begin_full|done].
  - assert (caller_tx r b m i t) by done.
    destruct H4 as [(?&?&?&->)|(?&?&?&->)]; [by eapply sim_read|by eapply sim_stage].
  - by eapply sim_commit.
  - eapply sim_abort; try done. naive_solver.
  - destruct (caller_owned r s b m R i t) as (x&Ho&_); [by split_and!|].
    eexists. split; [eapply spec_wrap; try done|rewrite <-H3; by eapply rel_wrap].
    + pose proof (wf_next_wrapped _ W). lia.
    + destruct (sp_caps s !! _) eqn:E; [|done]. apply (rel_cap_range _ _ R) in E. lia.
  - exists s. split; [|done].
    destruct H as [[? ->]|[? ->]]; [apply spec_not_owned|apply spec_rollback_none]; try done;
      intros x Hx; by eapply rel_not_owned.
  - destruct (caller_owned r s b m R i t) as (x&Ho&_); [by split_and!|]. exists s. split; [|done].
    eapply spec_quota; [|done]. destruct H as [->| ->]; set_solver.
  - destruct (caller_owned r s b m R i t) as (x&Ho&_); [by split_and!|]. exists s. split; [|done].
    by eapply spec_bad_mode.
  - by apply sim_invoke.
  - exists s. split; [by apply spec_ping|done].
  - exists s. split; [by apply spec_unknown|done].
Qed.

Lemma serve_from_refines msgs r s reps r' :
  registry_wf r -> rel r s ->
  next_tx_id r + Z.of_nat (length msgs) < 2 ^ 64 - 1 ->
  next_wrapped_id r + Z.of_nat (length msgs) < 2 ^ 64 - 1 ->
  serve_from r msgs = (reps, r') ->
  exists s', spec_run s msgs reps s' /\ rel r' s'.
Proof.
  revert r s reps. induction msgs as [|[b m] msgs IH]; intros r s reps W R H1 H2 H; simpl in *.
  { simplify_eq. exists s. split; [constructor|done]. }
  destruct (sto_dispatch r b m) as [rep r1] eqn:E1. destruct (serve_from r1 msgs) as [reps1 r2] eqn:E2.
  simplify_eq. assert (L : ids_left r) by (split; lia).
  pose proof (dispatch_cases r b m W L _ _ E1) as C. pose proof (step_case_ids _ _ _ _ _ C).
  destruct (step_simulation _ _ _ _ _ _ W R C) as (s1&Hs&R1).
  destruct (IH r1 s1 reps1) as (s2&?&?); [by eapply dispatch_wf|done|lia..|done|].
  exists s2. split; [by econstructor|done].
Qed.
