(* ===== verification/StoTheorems.v ===== *)
(** * Theorems about the STO server

    What the server of [StoServer] guarantees its clients: the registry
    invariant on every run, refinement of the abstract specification, absence
    of lost updates, isolation between clients, and the life cycle of wrapped
    capabilities. *)

From S2P Require Import Prelude StoRegistry StoServer StoSpec.

(** ** Facts carried along a run *)

(** Transaction [t] is active in [r]. *)
Definition tx_active (r : sto_registry) (t : Z) : Prop :=
  exists i x, active r !! i = Some x /\ phase x = STO_PHASE_ACTIVE /\ tx_id x = t.

(** Capability [k] is in the pool of [r]. *)
Definition cap_in_pool (r : sto_registry) (k : Z) (wc : sto_wrapped_cap) : Prop :=
  exists j, wrapped_pool r !! j = Some wc /\ wc_id wc = k /\ k <> 0.

(** Induction over a run: a property kept by every request is kept by the run. *)
Lemma serve_from_ind (P : sto_registry -> Prop) msgs r reps r' :
  (forall r b m rep r1, registry_wf r -> step_case r b m rep r1 -> P r -> P r1) ->
  registry_wf r -> next_tx_id r + Z.of_nat (length msgs) < 2 ^ 64 - 1 ->
  next_wrapped_id r + Z.of_nat (length msgs) < 2 ^ 64 - 1 ->
  serve_from r msgs = (reps, r') -> P r -> P r'.
Proof.
  intros Hstep. revert r reps. induction msgs as [|[b m] msgs IH]; intros r reps W H1 H2 H HP; simpl in *.
  { by simplify_eq. }
  destruct (sto_dispatch r b m) as [rep r1] eqn:E1. destruct (serve_from r1 msgs) as [reps1 r2] eqn:E2.
  simplify_eq. assert (L : ids_left r) by (split; lia).
  pose proof (dispatch_cases r b m W L _ _ E1) as C. pose proof (step_case_ids _ _ _ _ _ C).
  eapply (IH r1); [by eapply dispatch_wf|lia..|done|by eapply Hstep].
Qed.

(** A transaction that already had an identifier cannot become active again. *)
Lemma active_backward r b m rep r' t :
  registry_wf r -> step_case r b m rep r' -> t < next_tx_id r -> tx_active r' t -> tx_active r t.
Proof.
  intros W C Ht (i'&x&Hi&Hp&Hid).
  destruct C; autorewrite with sto in Hi; simpl in Hi; try (by exists i', x).
  all: apply lookup_insert_cases in Hi as [(->&<-&?)|[? ?]]; [|by exists i', x]; simpl in *.
  - lia.
  - exists i', t0. destruct H4 as [(?&?&?&->)|(?&?&?&->)]; done.
  - by destruct H6 as [->| ->].
  - done.
  - by exists i', t0.
Qed.

(** While a transaction stays active, the commit log only grows. *)
Lemma log_kept r b m rep r' t e :
  registry_wf r -> step_case r b m rep r' -> t < next_tx_id r -> tx_active r' t ->
  e ∈ commit_log r -> e ∈ commit_log r'.
Proof.
  intros W C Ht (i'&x&Hi&Hp&Hid) He.
  destruct C; autorewrite with sto in Hi; simpl in *; try done.
  - destruct (decide (i = i')) as [->|Hne].
    + rewrite list_lookup_insert_eq in Hi by (by eapply lookup_lt_Some). simplify_eq/=.
      destruct H6; congruence.
    + rewrite list_lookup_insert_ne in Hi by done.
      rewrite (finish_log _ _ _ _ _ _ i' x) by done. set_solver.
  - destruct (decide (i = i')) as [->|Hne].
    + by rewrite list_lookup_insert_eq in Hi by (by eapply lookup_lt_Some); simplify_eq/=.
    + rewrite list_lookup_insert_ne in Hi by done. by rewrite (finish_log _ _ _ _ _ _ i' x) by done.
Qed.

(** A capability that left the pool never comes back. *)
Lemma cap_gone_step r b m rep r' k :
  step_case r b m rep r' ->
  (k < next_wrapped_id r /\ forall wc, ~ cap_in_pool r k wc) ->
  k < next_wrapped_id r' /\ forall wc, ~ cap_in_pool r' k wc.
Proof.
  intros C [Hk Hno]. pose proof (step_case_ids _ _ _ _ _ C) as [_ Hids]. split; [lia|].
  intros wc (j'&Hj&Hid&Hnz). apply (Hno wc).
  destruct C; autorewrite with sto in Hj; simpl in Hj; try (by exists j').
  1, 2: apply reclaimed_lookup in Hj as [? _]; [by exists j'|congruence].
  apply lookup_insert_cases in Hj as [(->&<-&?)|[? ?]]; [simpl in *; lia|by exists j'].
Qed.

(** Enough identifiers are left in [r] for [n] more requests. *)
Definition room (r : sto_registry) (n : nat) : Prop :=
  next_tx_id r + Z.of_nat n < 2 ^ 64 - 1 /\ next_wrapped_id r + Z.of_nat n < 2 ^ 64 - 1.

(** One request from a well-formed registry with room for [S n] requests. *)
Lemma dispatch_room r b m rep r' n :
  registry_wf r -> room r (S n) -> sto_dispatch r b m = (rep, r') ->
  registry_wf r' /\ room r' n /\ step_case r b m rep r' /\ next_tx_id r <= next_tx_id r'.
Proof.
  intros W [H1 H2] E. assert (L : ids_left r) by (split; lia).
  pose proof (dispatch_cases r b m W L _ _ E) as C. pose proof (step_case_ids _ _ _ _ _ C).
  split_and!; try done; [by eapply dispatch_wf|split; lia|lia].
Qed.

(** A run from a well-formed registry. *)
Lemma serve_room r msgs reps r' n :
  registry_wf r -> room r (length msgs + n) -> serve_from r msgs = (reps, r') ->
  registry_wf r' /\ room r' n.
Proof.
  intros W [H1 H2] E. destruct (serve_from_wf msgs r reps r') as (?&?&?); try done; try lia.
  split; [done|]. split; lia.
Qed.

Lemma room_init msgs : short msgs -> room sto_registry_init (length msgs).
Proof. unfold short, room. simpl. lia. Qed.

(** Along a run that ends with [t] still active, [t] was active all the way and
    no commit record was dropped. *)
Lemma active_run r msgs reps r' t :
  registry_wf r -> room r (length msgs) -> serve_from r msgs = (reps, r') ->
  t < next_tx_id r -> tx_active r' t ->
  tx_active r t /\ forall e, e ∈ commit_log r -> e ∈ commit_log r'.
Proof.
  revert r reps. induction msgs as [|[b m] msgs IH]; intros r reps W Hroom H Ht Hact; simpl in *.
  { by simplify_eq. }
  destruct (sto_dispatch r b m) as [rep r1] eqn:E1. destruct (serve_from r1 msgs) as [reps1 r2] eqn:E2.
  simplify_eq. destruct (dispatch_room _ _ _ _ _ _ W Hroom E1) as (W1&Hroom1&C&?).
  destruct (IH r1 reps1) as [Hact1 Hlog]; try done; [lia|].
  split; [by eapply active_backward|]. intros e He. apply Hlog.
  exact (log_kept _ _ _ _ _ _ _ W C Ht Hact1 He).
Qed.

(** A successful commit finds the caller's transaction active and records its write set. *)
Lemma commit_ok_inv r b t r' :
  registry_wf r -> ids_left r -> sto_dispatch r b (commit_msg t) = (reply_status STO_OK, r') ->
  exists i x p, active r !! i = Some x /\ phase x = STO_PHASE_ACTIVE /\ tx_id x = t /\ owner_badge x = b /\
    sto_registry_can_commit r i = true /\ (p = STO_PHASE_COMMITTED \/ p = STO_PHASE_FREE) /\
    (p = STO_PHASE_COMMITTED <-> exists j wc, wrapped_pool r !! j = Some wc /\ wc_id wc <> 0 /\
       wc_id wc ∈ wrapped_caps x /\ wc_mode wc = STO_CAP_COMMIT_ONLY) /\
    r' = finish r i x p (fun wc => bool_decide (wc_mode wc = STO_CAP_ACTIVE_OK))
           (commit_log r ++ [MkEntry t (write_set x)]).
Proof.
  intros W L H. apply (dispatch_cases _ _ _ W L) in H. inversion H; simplify_eq/=.
  - exfalso. naive_solver.
  - exists i, t0, p. split_and!; try done. 
  - exfalso. naive_solver.
  - exfalso. naive_solver.
Qed.

Lemma serve_next_mono r msgs reps r' :
  registry_wf r -> room r (length msgs) -> serve_from r msgs = (reps, r') -> next_tx_id r <= next_tx_id r'.
Proof.
  intros W [H1 H2] H.
  eapply (serve_from_ind (fun r' => next_tx_id r <= next_tx_id r')); [|exact W|exact H1|exact H2|exact H|lia].
  intros r0 b m rep r1 _ C ?. pose proof (step_case_ids _ _ _ _ _ C). lia.
Qed.

(** A successful begin hands out an identifier below the counter. *)
Lemma begin_ok_fresh r b t r' :
  step_case r b begin_msg (Reply [t]) r' -> t <> 0 -> t < next_tx_id r'.
Proof.
  intros C Ht. inversion C; simplify_eq/=; try (exfalso; set_solver); lia.
Qed.

(** ** Invariant and refinement *)

(** After any sequence of fewer than [2^64 - 2] requests from any clients the
    registry is well formed: the tables keep their sizes, live transactions and
    capabilities have distinct identifiers, every object set is duplicate-free
    and within its quota, every live capability has a parent in a phase that
    justifies it, and the commit log is empty unless a transaction is active. *)
Theorem sto_invariant (msgs : list (Z * sto_msg)) (reps : list sto_reply) (r : sto_registry) :
  short msgs -> sto_serve msgs = (reps, r) -> registry_wf r.
Proof.
  intros Hs H. destruct (room_init _ Hs).
  by apply (serve_from_wf msgs sto_registry_init reps r init_wf).
Qed.

(** C1: the server refines the abstract specification of optimistic
    transactions: every run of the server, whatever the clients send, is a run
    of the specification with the same replies, ending in related states.  The
    slot tables, the garbage collection of the commit log and the reuse of pool
    slots are invisible to clients. *)
Theorem sto_refines_spec (msgs : list (Z * sto_msg)) (reps : list sto_reply) (r : sto_registry) :
  short msgs -> sto_serve msgs = (reps, r) ->
  exists s, spec_run spec_init msgs reps s /\ rel r s.
Proof.
  intros Hs H. destruct (room_init _ Hs).
  by apply (serve_from_refines msgs sto_registry_init spec_init reps r init_wf rel_init).
Qed.

(** C29: no lost update.  If transaction [t] begins, then another transaction [t2]
    commits, and then [t] commits successfully, nothing [t] read is among the
    objects [t2] wrote; the messages in between are arbitrary, so the commit log
    is never collected while it is still needed. *)
Theorem no_lost_update (l1 l2 l3 : list (Z * sto_msg)) (b b2 t t2 : Z)
    (reps1 reps2 reps3 : list sto_reply) (r1 ra r2 rb r3 rc : sto_registry) :
  short (l1 ++ (b, begin_msg) :: l2 ++ (b2, commit_msg t2) :: l3 ++ [(b, commit_msg t)]) ->
  sto_serve l1 = (reps1, r1) ->
  sto_dispatch r1 b begin_msg = (Reply [t], ra) -> t <> 0 ->
  serve_from ra l2 = (reps2, r2) ->
  sto_dispatch r2 b2 (commit_msg t2) = (reply_status STO_OK, rb) -> t2 <> t ->
  serve_from rb l3 = (reps3, r3) ->
  sto_dispatch r3 b (commit_msg t) = (reply_status STO_OK, rc) ->
  exists i x i2 x2,
    active r3 !! i = Some x /\ phase x = STO_PHASE_ACTIVE /\ tx_id x = t /\
    active r2 !! i2 = Some x2 /\ phase x2 = STO_PHASE_ACTIVE /\ tx_id x2 = t2 /\
    forall o, o ∈ read_set x -> o ∉ write_set x2.
Proof.
  intros Hs%room_init H1 Hb Ht H2 Hc2 Hne H3 Hc.
  repeat (rewrite length_app in Hs || simpl in Hs).
  destruct (serve_room _ _ _ _ _ init_wf Hs H1) as [W1 M1].
  destruct (dispatch_room _ _ _ _ _ _ W1 M1 Hb) as (Wa&Ma&Cb&_).
  destruct (serve_room _ _ _ _ _ Wa Ma H2) as [W2 M2].
  destruct (dispatch_room _ _ _ _ _ _ W2 M2 Hc2) as (Wb&Mb&C2&Hn2).
  destruct (serve_room _ _ _ _ _ Wb Mb H3) as [W3 M3].
  assert (Hta : t < next_tx_id ra) by (by eapply begin_ok_fresh).
  pose proof (serve_next_mono ra l2 reps2 r2 Wa ltac:(destruct Ma; split; lia) H2) as Hn.
  destruct (commit_ok_inv r3 _ _ _ W3 ltac:(unfold ids_left; destruct M3; split; lia) Hc)
    as (i&x&_&Hi&Hp&Hid&_&Hcc&_).
  destruct (commit_ok_inv r2 _ _ _ W2 ltac:(unfold ids_left; destruct M2; split; lia) Hc2)
    as (i2&x2&p&Hi2&Hp2&Hid2&_&_&_&_&Erb).
  destruct (active_run rb l3 reps3 r3 t) as [(k&u&Hk&Hu&Huid) Hlog]; try done; [destruct Mb; split; lia|lia|by exists i, x|].
  exists i, x, i2, x2. split_and!; try done. intros o Ho Hw.
  apply (proj1 (can_commit_spec _ _ _ Hi) Hcc (MkEntry t2 (write_set x2)) o); [|done..]. apply Hlog.
  rewrite Erb in Hk |- *. autorewrite with sto in Hk.
  assert (k <> i2).
  { intros ->. rewrite list_lookup_insert_eq in Hk by (by eapply lookup_lt_Some). simplify_eq/=. }
  rewrite list_lookup_insert_ne in Hk by done.
  rewrite (finish_log _ _ _ _ _ _ k u) by done. set_solver.
Qed.

(** ** Isolation *)

(** A request leaves every transaction alone that is not an active one of the
    caller, and the capabilities bound to it. *)
Lemma other_kept r b m rep r' i y :
  registry_wf r -> step_case r b m rep r' -> active r !! i = Some y -> phase y <> STO_PHASE_FREE ->
  ~ (phase y = STO_PHASE_ACTIVE /\ owner_badge y = b) ->
  active r' !! i = Some y /\
  forall j wc, wrapped_pool r !! j = Some wc -> wc_id wc <> 0 -> wc_tx_id wc = tx_id y ->
    wrapped_pool r' !! j = Some wc.
Proof.
  intros W C Hy Hfree Hown.
  assert (Hother : forall k t, active r !! k = Some t -> phase t = STO_PHASE_ACTIVE -> owner_badge t = b -> k <> i).
  { intros k t Hk Hp Hb ->. simplify_eq. naive_solver. }
  assert (Hcaps : forall k t sel j wc, active r !! k = Some t -> phase t = STO_PHASE_ACTIVE -> owner_badge t = b ->
    wrapped_pool r !! j = Some wc -> wc_id wc <> 0 -> wc_tx_id wc = tx_id y ->
    (reclaim_if (targeted (wrapped_caps t) sel) <$> wrapped_pool r) !! j = Some wc).
  { intros k t sel j wc Hk Hp Hb Hj H0 Htx. apply reclaimed_survives; [done|]. intros Hin. exfalso.
    apply (Hother _ _ Hk Hp Hb). rewrite (wf_own _ W _ _ _ _ Hk) in Htx by (done || congruence).
    eapply (wf_tx_inj _ W); try done. eapply tx_id_nonzero; [by eapply wf_tx|congruence]. }
  destruct C; autorewrite with sto; simpl; try done.
  - split; [|done]. rewrite list_lookup_insert_ne; [done|]. intros ->. simplify_eq.
  - split; [|done]. rewrite list_lookup_insert_ne by eauto. done.
  - split; [by rewrite list_lookup_insert_ne by eauto|eauto].
  - split; [by rewrite list_lookup_insert_ne by eauto|eauto].
  - split; [by rewrite list_lookup_insert_ne by eauto|]. intros j' wc' Hj' H0' _.
    rewrite list_lookup_insert_ne; [done|]. intros ->. simplify_eq.
Qed.

(** A client can only affect its own transactions (I1 of the protocol): whatever a
    client with badge [b] sends, an active transaction of another badge keeps
    its slot, read set, write set and phase, and every capability bound to it
    stays in the pool unchanged. *)
Theorem client_isolation (r : sto_registry) (b : Z) (m : sto_msg) (rep : sto_reply) (r' : sto_registry)
    (i : nat) (x : sto_transaction) :
  registry_wf r -> ids_left r -> sto_dispatch r b m = (rep, r') ->
  active r !! i = Some x -> phase x = STO_PHASE_ACTIVE -> owner_badge x <> b ->
  active r' !! i = Some x /\
  forall j wc, wrapped_pool r !! j = Some wc -> wc_id wc <> 0 -> wc_tx_id wc = tx_id x ->
    wrapped_pool r' !! j = Some wc.
Proof.
  intros W L H Hi Hp Hb. pose proof (dispatch_cases r b m W L _ _ H) as C.
  eapply other_kept; [done..|congruence|naive_solver].
Qed.

(** ** Life cycle of wrapped capabilities *)

(** Invoking a capability that is not in the pool. *)
Lemma invoke_gone r b k :
  registry_wf r -> (forall wc, ~ cap_in_pool r k wc) ->
  sto_dispatch r b (invoke_msg k) = (reply_status STO_INVALID_TX, r).
Proof.
  intros W Hno. unfold sto_dispatch, handle_invoke; simpl.
  destruct (sto_registry_wrapped_find r k) as [j|] eqn:E; [|done].
  apply wrapped_find_Some in E as (wc&Hj&<-&H0); [|by apply wf_pool_ok].
  destruct (Hno wc). by exists j.
Qed.

(** Invoking a capability of the pool: only the parent's phase matters. *)
Lemma invoke_live r b k wc i x :
  registry_wf r -> cap_in_pool r k wc -> active r !! i = Some x -> tx_id x = wc_tx_id wc ->
  phase x <> STO_PHASE_FREE ->
  sto_dispatch r b (invoke_msg k) =
    (reply_status (if match wc_mode wc with
                      | STO_CAP_ACTIVE_OK => is_phase STO_PHASE_ACTIVE x
                      | STO_CAP_COMMIT_ONLY => is_phase STO_PHASE_COMMITTED x
                      end then STO_OK else STO_INVALID_STATE), r).
Proof.
  intros W (j&Hj&<-&H0) Hi Hid Hp. unfold sto_dispatch, handle_invoke; simpl.
  rewrite (wrapped_find_complete _ _ _ (wf_pool_ok _ W) Hj H0).
  destruct (cap_has_parent _ _ _ (wf_cap _ W _ _ Hj H0)) as (k&u&Hk&Hpar).
  assert (k = i) as ->.
  { destruct Hpar as (Hu&_). eapply (wf_tx_inj _ W); [done..|congruence|]. rewrite Hu, <-Hid.
    eapply tx_id_nonzero; [by eapply wf_tx|done]. }
  simplify_eq. rewrite (invocable_spec _ _ _ _ _ W Hj H0 Hi Hpar).
  by destruct (wc_mode wc), (is_phase _ _).
Qed.

Lemma cap_gone_run r msgs reps r' k :
  registry_wf r -> room r (length msgs) -> serve_from r msgs = (reps, r') ->
  k < next_wrapped_id r -> (forall wc, ~ cap_in_pool r k wc) -> forall wc, ~ cap_in_pool r' k wc.
Proof.
  intros W [H1 H2] H Hk Hno.
  eapply (serve_from_ind (fun r => k < next_wrapped_id r /\ forall wc, ~ cap_in_pool r k wc));
    [|exact W|exact H1|exact H2|exact H|done].
  intros r0 b m rep r1 _ C. by eapply cap_gone_step.
Qed.

(** A capability selected by the sweep of its transaction leaves the pool. *)
Lemma swept_gone r i x wc j p sel log wc' :
  registry_wf r -> active r !! i = Some x -> phase x = STO_PHASE_ACTIVE ->
  wrapped_pool r !! j = Some wc -> wc_id wc <> 0 -> wc_tx_id wc = tx_id x -> sel wc = true ->
  ~ cap_in_pool (finish r i x p sel log) (wc_id wc) wc'.
Proof.
  intros W Hi Hp Hj H0 Htx Hsel (j'&Hj'&Hk'&_). autorewrite with sto in Hj'.
  apply reclaimed_lookup in Hj' as [Hj' Hs]; [|congruence].
  assert (j' = j) as -> by (eapply (wf_cap_inj _ W); [done..|congruence]). simplify_eq.
  rewrite Hs in Hsel; [done|]. by apply (in_wrapped_iff r W i x j wc).
Qed.

(** The request [m] with reply [rep] aborts transaction [t] of client [b]. *)
Definition aborts (b t : Z) (x : sto_transaction) (m : sto_msg) (rep : sto_reply) : Prop :=
  m = rollback_msg t /\ owner_badge x = b \/ m = commit_msg t /\ rep = reply_status STO_CONFLICT.

Lemma aborts_inv r b t i x m rep r' :
  registry_wf r -> ids_left r -> active r !! i = Some x -> phase x = STO_PHASE_ACTIVE -> tx_id x = t ->
  aborts b t x m rep -> sto_dispatch r b m = (rep, r') ->
  r' = finish r i x STO_PHASE_FREE (fun _ => true) (commit_log r).
Proof.
  intros W L Hi Hp Hid Ha H. pose proof (dispatch_cases r b m W L _ _ H) as C.
  assert (Hnz : tx_id x <> 0) by (eapply tx_id_nonzero; [by eapply wf_tx|congruence]).
  destruct Ha as [[-> Hb]|[-> ->]]; inversion C; simplify_eq/=; try (exfalso; set_solver).
  - assert (i0 = i) as -> by (eapply (wf_tx_inj _ W); [done..|congruence]). by simplify_eq.
  - exfalso. eapply (find_None _ _ _ _ _ W); eauto.
  - assert (i0 = i) as -> by (eapply (wf_tx_inj _ W); [done..|congruence]). by simplify_eq.
Qed.

(** No effects from an aborted transaction: once transaction [t] is rolled back,
    or its commit is refused for a conflict, every capability that was wrapped
    under it is dead for good; after any further messages, from any client,
    invoking it answers [STO_INVALID_TX]. *)
Theorem aborted_caps_dead (r : sto_registry) (b t k : Z) (i : nat) (x : sto_transaction)
    (wc : sto_wrapped_cap) (m : sto_msg) (rep : sto_reply) (r1 : sto_registry)
    (msgs : list (Z * sto_msg)) (reps : list sto_reply) (r2 : sto_registry) (b' : Z) :
  registry_wf r -> room r (S (length msgs)) ->
  active r !! i = Some x -> phase x = STO_PHASE_ACTIVE -> tx_id x = t ->
  cap_in_pool r k wc -> wc_tx_id wc = t ->
  aborts b t x m rep -> sto_dispatch r b m = (rep, r1) ->
  serve_from r1 msgs = (reps, r2) ->
  sto_dispatch r2 b' (invoke_msg k) = (reply_status STO_INVALID_TX, r2).
Proof.
  intros W M Hi Hp Hid (j&Hj&Hk&H0) Htx Ha H H2.
  destruct (dispatch_room _ _ _ _ _ _ W M H) as (W1&M1&_&_).
  pose proof (aborts_inv _ _ _ _ _ _ _ _ W ltac:(destruct M; split; lia) Hi Hp Hid Ha H) as ->.
  assert (M1' : room (finish r i x STO_PHASE_FREE (fun _ => true) (commit_log r)) (length msgs + 0))
    by (destruct M1; split; lia).
  destruct (serve_room _ _ _ _ _ W1 M1' H2) as [W2 _].
  apply invoke_gone; [done|]. eapply cap_gone_run; [exact W1|exact M1|exact H2| |].
  - autorewrite with sto. subst k. by apply (cap_id_range _ _ _ (wf_cap _ W _ _ Hj H0)).
  - intros wc'. subst k. eapply (swept_gone r i x wc j); try done. congruence.
Qed.

(** A committed slot and its capabilities survive every run. *)
Lemma pinned_run r msgs reps r' i y j wc :
  registry_wf r -> room r (length msgs) -> serve_from r msgs = (reps, r') ->
  active r !! i = Some y -> phase y = STO_PHASE_COMMITTED ->
  wrapped_pool r !! j = Some wc -> wc_id wc <> 0 -> wc_tx_id wc = tx_id y ->
  active r' !! i = Some y /\ wrapped_pool r' !! j = Some wc.
Proof.
  intros W [H1 H2] H Hi Hy Hj H0 Htx.
  eapply (serve_from_ind (fun r => active r !! i = Some y /\ wrapped_pool r !! j = Some wc));
    [|exact W|exact H1|exact H2|exact H|done].
  intros r0 b m rep r1 W0 C0 [Ha Hpool].
  destruct (other_kept _ _ _ _ _ _ _ W0 C0 Ha) as [? Hcaps]; [congruence|naive_solver congruence|]. eauto.
Qed.

(** COMMIT_ONLY visibility: a capability wrapped in mode COMMIT_ONLY answers
    [STO_INVALID_STATE] as long as its transaction is active, and from the
    moment the transaction commits it answers [STO_OK] after any further
    messages: the garbage collector never reclaims it or its parent. *)
Theorem commit_only_visibility (r : sto_registry) (b t k : Z) (i : nat) (x : sto_transaction)
    (wc : sto_wrapped_cap) (r1 : sto_registry) (msgs : list (Z * sto_msg)) (reps : list sto_reply)
    (r2 : sto_registry) (b' : Z) :
  registry_wf r -> room r (S (length msgs)) ->
  active r !! i = Some x -> phase x = STO_PHASE_ACTIVE -> tx_id x = t ->
  cap_in_pool r k wc -> wc_tx_id wc = t -> wc_mode wc = STO_CAP_COMMIT_ONLY ->
  sto_dispatch r b (commit_msg t) = (reply_status STO_OK, r1) ->
  serve_from r1 msgs = (reps, r2) ->
  sto_dispatch r b' (invoke_msg k) = (reply_status STO_INVALID_STATE, r) /\
  sto_dispatch r2 b' (invoke_msg k) = (reply_status STO_OK, r2).
Proof.
  intros W M Hi Hp Hid Hcap Htx Hm H H2. assert (Hlt := lookup_lt_Some _ _ _ Hi).
  assert (Hnz : tx_id x <> 0) by (eapply tx_id_nonzero; [by eapply wf_tx|congruence]).
  split; [by rewrite (invoke_live _ _ _ _ _ _ W Hcap Hi) by congruence; rewrite Hm; unfold is_phase; rewrite Hp|].
  destruct (dispatch_room _ _ _ _ _ _ W M H) as (W1&M1&_&_).
  destruct (commit_ok_inv _ _ _ _ W ltac:(destruct M; split; lia) H) as (i'&x'&p&Hi'&Hp'&Hid'&_&_&Hpc&Hpiff&E).
  assert (i' = i) as -> by (eapply (wf_tx_inj _ W); [done..|congruence|congruence]). simplify_eq.
  destruct Hcap as (j&Hj&Hk&H0). subst k.
  assert (Hin : wc_id wc ∈ wrapped_caps x) by (by eapply (in_wrapped_iff r W)).
  assert (p = STO_PHASE_COMMITTED) as -> by (apply Hpiff; eauto 10).
  destruct (serve_room _ msgs _ _ 0 W1 ltac:(destruct M1; split; lia) H2) as [W2 _].
  destruct (pinned_run _ _ _ _ i (set_phase STO_PHASE_COMMITTED x) j wc W1 M1 H2) as [Ha Hpool]; try done.
  - autorewrite with sto. by rewrite list_lookup_insert_eq.
  - autorewrite with sto. apply reclaimed_survives; [done|]. intros _. by rewrite Hm.
  - rewrite (invoke_live _ _ _ wc _ _ W2 ltac:(by exists j) Ha) by done. by rewrite Hm.
Qed.

(** An ACTIVE_OK capability is exercisable exactly while its transaction is
    active: it answers [STO_OK] before the commit, and after the commit it
    answers [STO_INVALID_TX] for ever. *)
Theorem active_ok_lifecycle (r : sto_registry) (b t k : Z) (i : nat) (x : sto_transaction)
    (wc : sto_wrapped_cap) (r1 : sto_registry) (msgs : list (Z * sto_msg)) (reps : list sto_reply)
    (r2 : sto_registry) (b' : Z) :
  registry_wf r -> room r (S (length msgs)) ->
  active r !! i = Some x -> phase x = STO_PHASE_ACTIVE -> tx_id x = t ->
  cap_in_pool r k wc -> wc_tx_id wc = t -> wc_mode wc = STO_CAP_ACTIVE_OK ->
  sto_dispatch r b (commit_msg t) = (reply_status STO_OK, r1) ->
  serve_from r1 msgs = (reps, r2) ->
  sto_dispatch r b' (invoke_msg k) = (reply_status STO_OK, r) /\
  sto_dispatch r2 b' (invoke_msg k) = (reply_status STO_INVALID_TX, r2).
Proof.
  intros W M Hi Hp Hid Hcap Htx Hm H H2.
  assert (Hnz : tx_id x <> 0) by (eapply tx_id_nonzero; [by eapply wf_tx|congruence]).
  split; [by rewrite (invoke_live _ _ _ _ _ _ W Hcap Hi) by congruence; rewrite Hm; unfold is_phase; rewrite Hp|].
  destruct (dispatch_room _ _ _ _ _ _ W M H) as (W1&M1&_&_).
  destruct (commit_ok_inv _ _ _ _ W ltac:(destruct M; split; lia) H) as (i'&x'&p&Hi'&Hp'&Hid'&_&_&_&_&E).
  assert (i' = i) as -> by (eapply (wf_tx_inj _ W); [done..|congruence|congruence]). simplify_eq.
  destruct Hcap as (j&Hj&Hk&H0). subst k.
  destruct (serve_room _ msgs _ _ 0 W1 ltac:(destruct M1; split; lia) H2) as [W2 _].
  apply invoke_gone; [done|]. eapply cap_gone_run; [exact W1|exact M1|exact H2| |].
  - autorewrite with sto. by apply (cap_id_range _ _ _ (wf_cap _ W _ _ Hj H0)).
  - intros wc'. eapply (swept_gone r i x wc j); try done. by rewrite Hm.
Qed.

(** A committed transaction that still has a COMMIT_ONLY capability pins its slot for
    ever: no sequence of messages changes it, so once every slot is pinned no
    client can begin a transaction again. *)
Theorem committed_slots_pinned (r : sto_registry) (msgs : list (Z * sto_msg)) (reps : list sto_reply)
    (r' : sto_registry) (b : Z) :
  registry_wf r -> room r (length msgs) ->
  (forall i x, active r !! i = Some x -> phase x = STO_PHASE_COMMITTED) ->
  serve_from r msgs = (reps, r') ->
  active r' = active r /\ sto_dispatch r' b begin_msg = (Reply [0], r').
Proof.
  intros W [M1 M2] Hall H.
  assert (active r' = active r) as HA.
  { eapply (serve_from_ind (fun r' => active r' = active r)); [|exact W|exact M1|exact M2|exact H|done].
    clear - Hall. intros r0 b m rep r1 W0 C0 E0. apply list_eq. intros i.
    rewrite <-E0. destruct (active r0 !! i) as [y|] eqn:Hi.
    - eapply (other_kept _ _ _ _ _ _ _ W0 C0 Hi); rewrite E0 in Hi; rewrite (Hall _ _ Hi); naive_solver.
    - apply lookup_ge_None. apply lookup_ge_None in Hi.
      destruct C0; autorewrite with sto; simpl; rewrite ?length_insert; done. }
  split; [done|]. unfold sto_dispatch, handle_begin, sto_registry_begin; simpl.
  destruct (first_below _ _) as [i|] eqn:E; [|done]. exfalso.
  apply first_below_Some in E as (Hi&Hf%is_phase_spec&_).
  destruct (serve_from_wf _ _ _ _ W M1 M2 H) as (W'&_).
  pose proof (tx_at_lookup _ _ W' Hi) as Hl. rewrite HA in Hl. by rewrite (Hall _ _ Hl) in Hf.
Qed.

(** ** Concrete runs

    Client 7 opens transaction 1, client 9 transaction 2; 7 reads object 100 and
    wraps one capability of each mode, 9 stages object 200. *)
Module Demo.
Definition opening : list (Z * sto_msg) :=
  [(7, begin_msg); (9, begin_msg); (7, read_msg 1 100); (9, stage_msg 2 200);
   (7, wrap_msg 1 55 0); (7, wrap_msg 1 56 1)].
Definition later : list (Z * sto_msg) := [(9, stage_msg 2 201); (9, begin_msg); (9, rollback_msg 2)].

Definition state : sto_registry := snd (sto_serve opening).
Definition aborted : sto_registry := snd (sto_dispatch state 7 (rollback_msg 1)).
Definition committed : sto_registry := snd (sto_dispatch state 7 (commit_msg 1)).
Definition tx1 : sto_transaction := tx_at state 0.

Lemma state_wf : registry_wf state.
Proof.
  assert (H : serve_from sto_registry_init opening = (fst (sto_serve opening), state))
    by (vm_compute; reflexivity).
  by apply (serve_from_wf _ _ _ _ init_wf) in H as (?&_); [| |]; try (vm_compute; reflexivity).
Qed.

(** Sixty-four transactions, each committed with a COMMIT_ONLY capability. *)
Definition exhaust : list (Z * sto_msg) :=
  concat ((fun t => [(7, begin_msg); (7, wrap_msg t 55 0); (7, commit_msg t)]) <$> (Z.of_nat <$> seq 1 64)).
Definition full : sto_registry := snd (sto_serve exhaust).

Lemma full_wf : registry_wf full.
Proof.
  assert (H : serve_from sto_registry_init exhaust = (fst (sto_serve exhaust), full))
    by (vm_compute; reflexivity).
  by apply (serve_from_wf _ _ _ _ init_wf) in H as (?&_); [| |]; try (vm_compute; reflexivity).
Qed.
End Demo.

Import Demo.

Lemma sto_invariant_witness : registry_wf (snd (sto_serve opening)).
Proof. apply (sto_invariant opening (fst (sto_serve opening))); vm_compute; reflexivity. Defined.

Lemma sto_refines_spec_witness :
  exists s, spec_run spec_init opening (fst (sto_serve opening)) s /\ rel (snd (sto_serve opening)) s.
Proof. apply sto_refines_spec; vm_compute; reflexivity. Defined.

Lemma no_lost_update_witness :
  let r1 := snd (sto_serve []) in
  let ra := snd (sto_dispatch r1 7 begin_msg) in
  let r2 := snd (serve_from ra [(9, begin_msg); (7, read_msg 1 100); (9, stage_msg 2 200)]) in
  let rb := snd (sto_dispatch r2 9 (commit_msg 2)) in
  let r3 := snd (serve_from rb [(7, read_msg 1 300)]) in
  exists i x i2 x2,
    active r3 !! i = Some x /\ phase x = STO_PHASE_ACTIVE /\ tx_id x = 1 /\
    active r2 !! i2 = Some x2 /\ phase x2 = STO_PHASE_ACTIVE /\ tx_id x2 = 2 /\
    forall o, o ∈ read_set x -> o ∉ write_set x2.
Proof.
  intros r1 ra r2 rb r3.
  apply (no_lost_update [] [(9, begin_msg); (7, read_msg 1 100); (9, stage_msg 2 200)] [(7, read_msg 1 300)]
    7 9 1 2 [] [Reply [2]; reply_status STO_OK; reply_status STO_OK] [reply_status STO_OK]
    r1 ra r2 rb r3 (snd (sto_dispatch r3 7 (commit_msg 1))));
    try discriminate; vm_compute; reflexivity.
Defined.

Lemma client_isolation_witness :
  active (snd (sto_dispatch state 9 (commit_msg 2))) !! 0%nat = Some tx1.
Proof.
  apply (client_isolation state 9 (commit_msg 2) (reply_status STO_OK) _ 0 tx1 state_wf);
    try (vm_compute; reflexivity); [split; vm_compute; reflexivity|vm_compute; discriminate].
Defined.

Lemma aborted_caps_dead_witness :
  sto_dispatch (snd (serve_from aborted later)) 7 (invoke_msg 2) =
  (reply_status STO_INVALID_TX, snd (serve_from aborted later)).
Proof.
  apply (aborted_caps_dead state 7 1 2 0 tx1 (cap_at state 1) (rollback_msg 1) NoReply aborted later
    (fst (serve_from aborted later)) _ 7 state_wf); try (vm_compute; reflexivity).
  - split; vm_compute; reflexivity.
  - exists 1%nat. split_and!; [vm_compute; reflexivity..|discriminate].
  - left. split; vm_compute; reflexivity.
Defined.

Lemma commit_only_visibility_witness :
  sto_dispatch state 9 (invoke_msg 1) = (reply_status STO_INVALID_STATE, state) /\
  sto_dispatch (snd (serve_from committed later)) 9 (invoke_msg 1) =
  (reply_status STO_OK, snd (serve_from committed later)).
Proof.
  apply (commit_only_visibility state 7 1 1 0 tx1 (cap_at state 0) committed later
    (fst (serve_from committed later)) _ 9 state_wf); try (vm_compute; reflexivity).
  - split; vm_compute; reflexivity.
  - exists 0%nat. split_and!; [vm_compute; reflexivity..|discriminate].
Defined.

Lemma active_ok_lifecycle_witness :
  sto_dispatch state 9 (invoke_msg 2) = (reply_status STO_OK, state) /\
  sto_dispatch (snd (serve_from committed later)) 9 (invoke_msg 2) =
  (reply_status STO_INVALID_TX, snd (serve_from committed later)).
Proof.
  apply (active_ok_lifecycle state 7 1 2 0 tx1 (cap_at state 1) committed later
    (fst (serve_from committed later)) _ 9 state_wf); try (vm_compute; reflexivity).
  - split; vm_compute; reflexivity.
  - exists 1%nat. split_and!; [vm_compute; reflexivity..|discriminate].
Defined.

Lemma committed_slots_pinned_witness :
  active (snd (serve_from full later)) = active full /\
  sto_dispatch (snd (serve_from full later)) 3 begin_msg = (Reply [0], snd (serve_from full later)).
Proof.
  apply (committed_slots_pinned full later (fst (serve_from full later)) _ 3 full_wf);
    [split; vm_compute; reflexivity| |vm_compute; reflexivity].
  apply Forall_lookup. apply (bool_decide_unpack _). vm_compute. reflexivity.
Defined.
