(* ===== verification/Crc64.v ===== *)
(** * CRC-64/ECMA (src/sotfs/crc64.c)

    The table-driven checksum the write-ahead log puts on every frame, its
    bit-at-a-time reference, and what the checksum is able to detect.  The lazy
    initialisation flag of the C file only decides when the table is filled; the
    model always uses the filled table. *)

From S2P Require Import Prelude.

(** ** The code *)

Definition poly : Z := 0xC96C5795D7870F42.

(** [c = (c & 1) ? ((c >> 1) ^ poly) : (c >> 1)] *)
Definition crc_bit (c : Z) : Z :=
  if Z.testbit c 0 then Z.lxor (Z.shiftr c 1) poly else Z.shiftr c 1.

Definition init_table_entry (i : nat) : Z := Nat.iter 8 crc_bit (Z.of_nat i).
Definition crc64_table : list Z := init_table_entry <$> seq 0 256.

Definition crc64_step (crc b : Z) : Z :=
  Z.lxor (crc64_table.[Z.to_nat (Z.land (Z.lxor crc b) 0xFF), 0]) (Z.shiftr crc 8).

Definition sotfs_crc64 (buf : list Z) : Z :=
  Z.lxor (fold_left crc64_step buf 0xFFFFFFFFFFFFFFFF) 0xFFFFFFFFFFFFFFFF.

(** ** The reference *)

Definition crc64_reference_step (crc b : Z) : Z := Nat.iter 8 crc_bit (Z.lxor crc b).
Definition crc64_reference (buf : list Z) : Z :=
  Z.lxor (fold_left crc64_reference_step buf 0xFFFFFFFFFFFFFFFF) 0xFFFFFFFFFFFFFFFF.

Example crc64_check : sotfs_crc64 (bytes_of_string "123456789") = 0x995DC9BBDF1939FA.
Proof. vm_compute. reflexivity. Qed.

(** ** Algebra of one division step *)

Lemma crc_bit_lxor a b : crc_bit (Z.lxor a b) = Z.lxor (crc_bit a) (crc_bit b).
Proof.
  unfold crc_bit. rewrite Z.lxor_spec, Z.shiftr_lxor.
  destruct (Z.testbit a 0), (Z.testbit b 0); simpl; xor_solve.
Qed.

Lemma iter_lxor n a b :
  Nat.iter n crc_bit (Z.lxor a b) = Z.lxor (Nat.iter n crc_bit a) (Nat.iter n crc_bit b).
Proof. induction n as [|n IH]; simpl; [done|]. by rewrite IH, crc_bit_lxor. Qed.

(** Bits shifted in from the left are simply shifted down. *)
Lemma iter_shiftl n x : 0 <= x -> Nat.iter n crc_bit (Z.shiftl x (Z.of_nat n)) = x.
Proof.
  revert x. induction n as [|n IH]; intros x Hx; [by rewrite Z.shiftl_0_r|].
  rewrite Nat.iter_succ_r. rewrite <-(IH x) at 2 by done. f_equal.
  unfold crc_bit. rewrite Z.shiftl_spec_low by lia.
  rewrite Z.shiftr_shiftl_l by lia. f_equal. lia.
Qed.

Definition is_u64 (c : Z) : Prop := 0 <= c < 2 ^ 64.

Lemma lt_pow2_bits c k n : 0 <= c < 2 ^ k -> 0 <= k -> k <= n -> Z.testbit c n = false.
Proof.
  intros Hc Hk Hn. destruct (decide (c = 0)) as [->|]; [apply Z.bits_0|].
  apply Z.bits_above_log2; [lia|]. apply Z.log2_lt_pow2; [lia|].
  eapply Z.lt_le_trans; [apply Hc|]. apply Z.pow_le_mono_r; lia.
Qed.

Lemma bits_lt_pow2 c k :
  0 <= c -> 0 <= k -> (forall n, k <= n -> Z.testbit c n = false) -> c < 2 ^ k.
Proof.
  intros Hc Hk Hb. destruct (decide (c = 0)) as [->|]; [lia|].
  apply Z.log2_lt_pow2; [lia|]. destruct (decide (Z.log2 c < k)); [done|].
  pose proof (Z.bit_log2 c) as H. rewrite Hb in H by lia. discriminate H. lia.
Qed.

Lemma lxor_u64 a b : is_u64 a -> is_u64 b -> is_u64 (Z.lxor a b).
Proof.
  intros Ha Hb. assert (0 <= Z.lxor a b) by (apply Z.lxor_nonneg; unfold is_u64 in *; lia).
  split; [done|]. apply bits_lt_pow2; [done|lia|]. intros n Hn.
  rewrite Z.lxor_spec, !(lt_pow2_bits _ 64) by (done || lia). done.
Qed.

Lemma shiftr_u64 a k : is_u64 a -> 0 <= k -> is_u64 (Z.shiftr a k).
Proof.
  intros Ha Hk. unfold is_u64 in *. rewrite Z.shiftr_div_pow2 by lia.
  pose proof (Z.pow_pos_nonneg 2 k). split; [apply Z.div_pos; lia|].
  apply Z.div_lt_upper_bound; [lia|nia].
Qed.

Lemma crc_bit_u64 c : is_u64 c -> is_u64 (crc_bit c).
Proof.
  intros Hc. assert (is_u64 poly) by (unfold is_u64, poly; lia).
  unfold crc_bit. destruct (Z.testbit c 0); [apply lxor_u64|]; auto using shiftr_u64 with lia.
Qed.

Lemma iter_u64 n c : is_u64 c -> is_u64 (Nat.iter n crc_bit c).
Proof. intros Hc. induction n; simpl; auto using crc_bit_u64. Qed.

(** The top coefficient of the polynomial makes a division step invertible. *)
Lemma crc_bit_inj a b : is_u64 a -> is_u64 b -> crc_bit a = crc_bit b -> a = b.
Proof.
  intros Ha Hb H.
  assert (Htop : forall c, is_u64 c -> Z.testbit (crc_bit c) 63 = Z.testbit c 0).
  { intros c Hc. unfold crc_bit. destruct (Z.testbit c 0) eqn:E; rewrite ?Z.lxor_spec;
      rewrite Z.shiftr_spec by lia; rewrite (lt_pow2_bits c 64) by (done || lia); done. }
  assert (H0 : Z.testbit a 0 = Z.testbit b 0) by (rewrite <-!Htop by done; congruence).
  assert (Hs : Z.shiftr a 1 = Z.shiftr b 1).
  { unfold crc_bit in H. rewrite H0 in H. destruct (Z.testbit b 0); [|done].
    apply (f_equal (fun z => Z.lxor z poly)) in H. by rewrite !Z.lxor_assoc, Z.lxor_nilpotent, !Z.lxor_0_r in H. }
  apply Z.bits_inj_iff'. intros n Hn. destruct (decide (n = 0)) as [->|]; [done|].
  apply (f_equal (fun z => Z.testbit z (n - 1))) in Hs. rewrite !Z.shiftr_spec in Hs by lia.
  by replace (n - 1 + 1) with n in Hs by lia.
Qed.

Lemma iter_inj n a b : is_u64 a -> is_u64 b -> Nat.iter n crc_bit a = Nat.iter n crc_bit b -> a = b.
Proof.
  intros Ha Hb. induction n as [|n IH]; simpl; [done|].
  intros H. apply IH, crc_bit_inj; auto using iter_u64.
Qed.

(** ** The table is the reference, eight bits at a time *)

Lemma table_lookup v : 0 <= v < 256 -> crc64_table.[Z.to_nat v, 0] = Nat.iter 8 crc_bit v.
Proof.
  intros Hv. unfold crc64_table. rewrite list_lookup_fmap, lookup_seq_lt by lia.
  change (Nat.iter 8 crc_bit (Z.of_nat (0 + Z.to_nat v)) = Nat.iter 8 crc_bit v). f_equal. lia.
Qed.

Lemma split_low_byte c : c = Z.lxor (Z.land c 0xFF) (Z.shiftl (Z.shiftr c 8) 8).
Proof.
  apply Z.bits_inj_iff'. intros n Hn. rewrite Z.lxor_spec, Z.land_spec.
  change 0xFF with (Z.ones 8). destruct (decide (n < 8)).
  - rewrite Z.ones_spec_low, Z.shiftl_spec_low by lia. by rewrite andb_true_r, xorb_false_r.
  - rewrite Z.ones_spec_high by lia. rewrite Z.shiftl_spec, Z.shiftr_spec by lia.
    rewrite andb_false_r. simpl. f_equal. lia.
Qed.

Lemma crc64_step_reference c b :
  is_u64 c -> is_byte b -> crc64_step c b = crc64_reference_step c b.
Proof.
  intros Hc Hb. unfold crc64_step, crc64_reference_step.
  assert (Hx : 0 <= Z.lxor c b) by (apply Z.lxor_nonneg; unfold is_u64, is_byte in *; lia).
  rewrite (split_low_byte (Z.lxor c b)) at 2. rewrite iter_lxor.
  rewrite table_lookup.
  2: { change 0xFF with (Z.ones 8). rewrite Z.land_ones by lia. apply Z.mod_pos_bound. lia. }
  f_equal. rewrite (iter_shiftl 8) by (by apply Z.shiftr_nonneg).
  rewrite Z.shiftr_lxor. rewrite (Z.shiftr_div_pow2 b), Z.div_small by (unfold is_byte in Hb; lia).
  by rewrite Z.lxor_0_r.
Qed.

Lemma reference_step_u64 c b : is_u64 c -> is_byte b -> is_u64 (crc64_reference_step c b).
Proof. intros. apply iter_u64, lxor_u64; [done|]. unfold is_u64, is_byte in *. lia. Qed.

Lemma crc64_fold_reference buf c :
  is_u64 c -> Forall is_byte buf -> fold_left crc64_step buf c = fold_left crc64_reference_step buf c.
Proof.
  intros Hc H. revert c Hc. induction H as [|b buf Hb _ IH]; intros c Hc; simpl; [done|].
  rewrite crc64_step_reference by done. auto using reference_step_u64.
Qed.

(** ** Error detection *)

Lemma byte_lxor_shift b v : is_byte b -> 0 <= v -> b + 256 * v = Z.lxor b (Z.shiftl v 8).
Proof.
  intros Hb Hv. rewrite Z.shiftl_mul_pow2 by lia. change (2 ^ 8) with 256. rewrite (Z.mul_comm v).
  apply Z.add_nocarry_lxor. apply Z.bits_inj_iff'. intros n Hn. rewrite Z.land_spec, Z.bits_0.
  destruct (decide (n < 8)).
  - change 256 with (2 ^ 8). rewrite Z.mul_comm, Z.mul_pow2_bits_low by lia. apply andb_false_r.
  - rewrite (lt_pow2_bits b 8) by (unfold is_byte in Hb; lia). done.
Qed.

(** Feeding bytes one by one is dividing their little-endian value at once. *)
Lemma reference_window w c :
  Forall is_byte w ->
  fold_left crc64_reference_step w c = Nat.iter (8 * length w) crc_bit (Z.lxor c (le_val w)).
Proof.
  intros H. revert c. induction H as [|b w Hb Hw IH]; intros c; simpl fold_left.
  { simpl. by rewrite Z.lxor_0_r. }
  rewrite IH. unfold crc64_reference_step. pose proof (le_val_range _ Hw) as [Hv _].
  replace (8 * length (b :: w))%nat with (8 * length w + 8)%nat by (simpl; lia).
  rewrite Nat.iter_add. f_equal. simpl le_val. rewrite byte_lxor_shift, <-Z.lxor_assoc by done.
  rewrite (iter_lxor 8 (Z.lxor c b)). by rewrite (iter_shiftl 8).
Qed.

Lemma reference_fold_u64 buf c :
  is_u64 c -> Forall is_byte buf -> is_u64 (fold_left crc64_reference_step buf c).
Proof. intros Hc H. revert c Hc. induction H; intros; simpl; auto using reference_step_u64. Qed.

(** A byte string acts injectively on the checksum register. *)
Lemma reference_fold_inj buf c c' :
  Forall is_byte buf -> is_u64 c -> is_u64 c' ->
  fold_left crc64_reference_step buf c = fold_left crc64_reference_step buf c' -> c = c'.
Proof.
  intros H. revert c c'. induction H as [|b buf Hb _ IH]; intros c c' Hc Hc' Heq; simpl in Heq; [done|].
  assert (is_u64 b) by (unfold is_u64, is_byte in *; lia).
  apply IH in Heq; [|by apply reference_step_u64..]. apply iter_inj in Heq; [|by apply lxor_u64..].
  apply (f_equal (fun z => Z.lxor z b)) in Heq. by rewrite !Z.lxor_assoc, Z.lxor_nilpotent, !Z.lxor_0_r in Heq.
Qed.

Lemma init_u64 : is_u64 0xFFFFFFFFFFFFFFFF.
Proof. unfold is_u64. lia. Qed.

(** The table-driven CRC-64 computes the bit-at-a-time CRC with the reversed
    ECMA-182 polynomial on every byte string. *)
Theorem crc64_table_correct (buf : list Z) :
  Forall is_byte buf -> sotfs_crc64 buf = crc64_reference buf.
Proof. intros H. unfold sotfs_crc64, crc64_reference. by rewrite crc64_fold_reference by auto using init_u64. Qed.

Lemma crc64_fold_inj buf buf' :
  Forall is_byte buf -> Forall is_byte buf' -> sotfs_crc64 buf = sotfs_crc64 buf' ->
  fold_left crc64_reference_step buf 0xFFFFFFFFFFFFFFFF = fold_left crc64_reference_step buf' 0xFFFFFFFFFFFFFFFF.
Proof.
  intros H H' Heq. unfold sotfs_crc64 in Heq. rewrite !crc64_fold_reference in Heq by auto using init_u64.
  apply (f_equal (fun z => Z.lxor z 0xFFFFFFFFFFFFFFFF)) in Heq.
  by rewrite !Z.lxor_assoc, Z.lxor_nilpotent, !Z.lxor_0_r in Heq.
Qed.

Lemma crc64_u64 buf : Forall is_byte buf -> is_u64 (sotfs_crc64 buf).
Proof.
  intros H. unfold sotfs_crc64. rewrite crc64_fold_reference by auto using init_u64.
  apply lxor_u64; auto using reference_fold_u64, init_u64.
Qed.

(** Equal checksums mean equal windows of at most eight bytes. *)
Lemma crc64_window (pre w w' post : list Z) :
  Forall is_byte pre -> Forall is_byte w -> Forall is_byte w' -> Forall is_byte post ->
  length w' = length w -> (length w <= 8)%nat ->
  w <> w' -> sotfs_crc64 (pre ++ w ++ post) <> sotfs_crc64 (pre ++ w' ++ post).
Proof.
  intros Hp Hw Hw' Hq Hl Hl8 Hne Heq. apply Hne. apply crc64_fold_inj in Heq; [|by rewrite !Forall_app..].
  rewrite !fold_left_app in Heq. pose proof (reference_fold_u64 _ _ init_u64 Hp) as Hc.
  generalize dependent (fold_left crc64_reference_step pre 0xFFFFFFFFFFFFFFFF). intros c Heq Hc.
  apply reference_fold_inj in Heq; [|by auto using reference_fold_u64..].
  rewrite !reference_window, Hl in Heq by done.
  assert (forall v, Forall is_byte v -> (length v <= 8)%nat -> is_u64 (le_val v)) as Hv.
  { intros v Hb Hlv. pose proof (le_val_range _ Hb) as [? Hlt]. split; [done|].
    eapply Z.lt_le_trans; [exact Hlt|]. apply (Z.pow_le_mono_r 2); lia. }
  apply iter_inj in Heq; [|apply lxor_u64; auto with lia..].
  apply le_val_inj; [done..|]. apply (f_equal (Z.lxor c)) in Heq.
  by rewrite <-!Z.lxor_assoc, !Z.lxor_nilpotent, !Z.lxor_0_l in Heq.
Qed.

(** C36: a corruption confined to at most eight consecutive bytes (any burst the
    polynomial's width covers, a torn sector tail or a flipped field) always
    changes the checksum, whatever surrounds it. *)
Theorem crc64_burst (pre w w' post : list Z) :
  Forall is_byte pre -> Forall is_byte w -> Forall is_byte w' -> Forall is_byte post ->
  length w' = length w -> (length w <= 8)%nat ->
  w <> w' -> sotfs_crc64 (pre ++ w ++ post) <> sotfs_crc64 (pre ++ w' ++ post).
Proof. apply crc64_window. Qed.

Lemma bytes_dec buf : forallb (fun b => (0 <=? b) && (b <? 256)) buf = true -> Forall is_byte buf.
Proof. induction buf; simpl; intros H; constructor; bool_to_prop; unfold is_byte in *; [lia|tauto]. Qed.

(** The published check value of CRC-64/XZ: the checksum of [123456789]. *)
Lemma crc64_table_correct_witness :
  sotfs_crc64 (bytes_of_string "123456789") = 0x995DC9BBDF1939FA
  /\ sotfs_crc64 (bytes_of_string "123456789") = crc64_reference (bytes_of_string "123456789").
Proof. split; [vm_compute; reflexivity|]. apply crc64_table_correct. apply bytes_dec. vm_compute. reflexivity. Defined.

Lemma crc64_burst_witness :
  sotfs_crc64 ([1; 2] ++ [3; 4; 5] ++ [6]) <> sotfs_crc64 ([1; 2] ++ [3; 0; 5] ++ [6]).
Proof. apply crc64_burst; [apply bytes_dec; reflexivity..|reflexivity|simpl; lia|discriminate]. Defined.
