(* ===== verification/Storage.v ===== *)
(** * The storage vtable of sotFS and its backends

    [sotfs_storage_ops_t] (include/sotfs/wal.h) is the interface between the
    file system and its medium: the WAL and the block store reach the disk only
    through it.  [StorageOps] is the vtable, [StorageLaws] what its two clients
    rely on: inside the advertised capacity a write stores the bytes and touches
    nothing else, a read returns them, a flush keeps them.

    [Ram] is the backend of src/sotfs/storage_ram.c with its error returns; its
    instance of the laws discharges the interface.  [Image] is a sparse disk of
    the size of [sotfs.img] (include/sotfs/layout.h), the medium the witnesses of
    the other files run on; the virtio-blk driver behind the real one is not
    modelled.  [Layout] holds the partition constants of the image. *)

From S2P Require Import Prelude.

(** ** Byte memories *)

(** The memory [f] after [memcpy(f + off, buf, len)]. *)
Definition overlay (f : Z -> Z) (off : Z) (buf : list Z) : Z -> Z :=
  fun o => if (off <=? o) && (o <? off + Z.of_nat (length buf)) then buf.[Z.to_nat (o - off), 0] else f o.

(** The [n] bytes of [f] from offset [off]. *)
Definition slice (f : Z -> Z) (off : Z) (n : nat) : list Z :=
  (fun k => f (off + Z.of_nat k)) <$> seq 0 n.

Lemma length_slice f off n : length (slice f off n) = n.
Proof. unfold slice. by rewrite length_fmap, length_seq. Qed.

Lemma slice_ext f g off n :
  (forall o, off <= o < off + Z.of_nat n -> f o = g o) -> slice f off n = slice g off n.
Proof.
  intros H. apply list_fmap_ext. intros i k Hk. apply lookup_seq in Hk as [-> ?]. apply H. lia.
Qed.

Lemma slice_const f off n x : (forall o, f o = x) -> slice f off n = replicate n x.
Proof.
  intros H. apply list_eq. intros i. unfold slice. rewrite list_lookup_fmap. destruct (decide (i < n)%nat) as [Hi|Hi].
  - rewrite lookup_seq_lt, lookup_replicate_2 by done. simpl. by rewrite H.
  - rewrite lookup_seq_ge by lia. symmetry. apply lookup_ge_None. rewrite length_replicate. lia.
Qed.

Lemma slice_overlay f off buf : slice (overlay f off buf) off (length buf) = buf.
Proof.
  apply list_eq. intros i. unfold slice. rewrite list_lookup_fmap.
  destruct (decide (i < length buf)%nat) as [Hi|Hi].
  - rewrite lookup_seq_lt by done. simpl. unfold overlay.
    rewrite (proj2 (Z.leb_le _ _)), (proj2 (Z.ltb_lt _ _)) by lia. simpl.
    replace (Z.to_nat _) with i by lia. by rewrite (array_lookup_lt buf i 0).
  - rewrite lookup_seq_ge by lia. symmetry. apply lookup_ge_None. lia.
Qed.

Lemma slice_overlay_ne f off buf off' n :
  off' + Z.of_nat n <= off \/ off + Z.of_nat (length buf) <= off' ->
  slice (overlay f off buf) off' n = slice f off' n.
Proof.
  intros H. apply slice_ext. intros o Ho. unfold overlay.
  destruct (off <=? o) eqn:E1, (o <? off + _) eqn:E2; try done; bool_to_prop; lia.
Qed.

Lemma slice_0_take f off n m : (m <= n)%nat -> take m (slice f off n) = slice f off m.
Proof.
  intros H. unfold slice. rewrite <-fmap_take. f_equal. by rewrite take_seq, Nat.min_l by lia.
Qed.

Lemma slice_lookup f off n i : (i < n)%nat -> slice f off n !! i = Some (f (off + Z.of_nat i)).
Proof. intros H. unfold slice. by rewrite list_lookup_fmap, lookup_seq_lt. Qed.

Lemma slice_app f off n m : slice f off (n + m) = slice f off n ++ slice f (off + Z.of_nat n) m.
Proof.
  unfold slice. rewrite seq_app, fmap_app. f_equal. apply list_eq. intros i. rewrite !list_lookup_fmap.
  destruct (decide (i < m)%nat).
  - rewrite !lookup_seq_lt by done. simpl. do 2 f_equal. lia.
  - by rewrite !lookup_seq_ge by lia.
Qed.

(** ** The vtable *)

(** [struct sotfs_storage_ops].  A result is C's [int]: the number of bytes moved
    or a negative errno. *)
Class StorageOps (B : Type) := {
  write_block : B -> Z -> list Z -> Z * B;
  read_block : B -> Z -> nat -> Z * list Z;
  flush : B -> Z * B;
  capacity_bytes : B -> Z;
}.

Class StorageLaws (B : Type) `{StorageOps B} := {
  storage_wf : B -> Prop;
  byte_at : B -> Z -> Z;
  capacity_range b : storage_wf b -> 0 <= capacity_bytes b < 2 ^ 62;
  write_block_spec b off buf :
    storage_wf b -> 0 <= off -> off + Z.of_nat (length buf) <= capacity_bytes b ->
    exists b', write_block b off buf = (i32 (Z.of_nat (length buf)), b') /\ storage_wf b'
      /\ capacity_bytes b' = capacity_bytes b
      /\ forall o, byte_at b' o = overlay (byte_at b) off buf o;
  read_block_spec b off n :
    storage_wf b -> 0 <= off -> off + Z.of_nat n <= capacity_bytes b ->
    read_block b off n = (i32 (Z.of_nat n), slice (byte_at b) off n);
  flush_spec b :
    storage_wf b -> exists b', flush b = (0, b') /\ storage_wf b'
      /\ capacity_bytes b' = capacity_bytes b /\ forall o, byte_at b' o = byte_at b o;
}.

(** ** Byte arrays *)

(** [memcpy] into a C array. *)
Definition write_list {A} (l : list A) (off : nat) (buf : list A) : list A :=
  take off l ++ buf ++ drop (off + length buf) l.

Section write_list.
Context {A : Type}.
Implicit Types (l buf : list A).

Lemma length_write_list l off buf :
  (off + length buf <= length l)%nat -> length (write_list l off buf) = length l.
Proof. intros H. unfold write_list. rewrite !length_app, length_take, length_drop. lia. Qed.

Lemma write_list_in l off buf i :
  (off + length buf <= length l)%nat -> (off <= i < off + length buf)%nat ->
  write_list l off buf !! i = buf !! (i - off)%nat.
Proof.
  intros H Hi. unfold write_list. rewrite lookup_app_r; rewrite length_take, Nat.min_l by lia; [|lia].
  by rewrite lookup_app_l by lia.
Qed.

Lemma write_list_out l off buf i :
  (off + length buf <= length l)%nat -> (i < off \/ off + length buf <= i)%nat ->
  write_list l off buf !! i = l !! i.
Proof.
  intros H [Hi|Hi]; unfold write_list.
  - rewrite lookup_app_l by (rewrite length_take; lia). by rewrite lookup_take_lt by lia.
  - rewrite lookup_app_r; rewrite length_take, Nat.min_l by lia; [|lia].
    rewrite lookup_app_r by lia. rewrite lookup_drop. f_equal. lia.
Qed.

Lemma write_list_get l off buf i d :
  (off + length buf <= length l)%nat ->
  (write_list l off buf).[i, d]
  = if decide (off <= i < off + length buf)%nat then buf.[(i - off)%nat, d] else l.[i, d].
Proof.
  intros H. case_decide; [by rewrite write_list_in|]. by rewrite write_list_out by lia.
Qed.
End write_list.

(** ** The RAM backend *)

Module Ram.
Definition SOTFS_RAM_STORAGE_BYTES : Z := 64 * 1024.

(** [g_ram_buffer]. *)
Definition g_ram_buffer := list Z.

Definition ram_write_block (backend : g_ram_buffer) (offset : Z) (buf : list Z) : Z * g_ram_buffer :=
  if u64 (offset + Z.of_nat (length buf)) >? SOTFS_RAM_STORAGE_BYTES then (-28, backend)
  else (i32 (Z.of_nat (length buf)), write_list backend (Z.to_nat offset) buf).

Definition ram_read_block (backend : g_ram_buffer) (offset : Z) (len : nat) : Z * list Z :=
  if u64 (offset + Z.of_nat len) >? SOTFS_RAM_STORAGE_BYTES then (-22, [])
  else (i32 (Z.of_nat len), take len (drop (Z.to_nat offset) backend)).

Definition ram_flush (backend : g_ram_buffer) : Z * g_ram_buffer := (0, backend).

Definition ram_capacity_bytes (backend : g_ram_buffer) : Z := SOTFS_RAM_STORAGE_BYTES.

#[export] Instance sotfs_storage_ram : StorageOps g_ram_buffer := {
  write_block := ram_write_block;
  read_block := ram_read_block;
  flush := ram_flush;
  capacity_bytes := ram_capacity_bytes;
}.

(** The zero-initialised static buffer. *)
Definition ram_boot : g_ram_buffer := replicate (Z.to_nat SOTFS_RAM_STORAGE_BYTES) 0.

Lemma ram_bound off len :
  0 <= off -> 0 <= len -> off + len <= SOTFS_RAM_STORAGE_BYTES ->
  (u64 (off + len) >? SOTFS_RAM_STORAGE_BYTES) = false.
Proof.
  unfold SOTFS_RAM_STORAGE_BYTES. intros. rewrite u64_small by lia. rewrite Z.gtb_ltb. apply Z.ltb_ge. lia.
Qed.

#[export] Program Instance ram_laws : StorageLaws g_ram_buffer := {
  storage_wf b := length b = Z.to_nat SOTFS_RAM_STORAGE_BYTES;
  byte_at b o := if o <? 0 then 0 else b.[Z.to_nat o, 0];
}.
Next Obligation. intros b _. simpl. unfold ram_capacity_bytes, SOTFS_RAM_STORAGE_BYTES. lia. Qed.
Next Obligation.
  simpl. unfold ram_capacity_bytes, ram_write_block. intros b off buf Hb Ho Hc. rewrite ram_bound by lia.
  unfold SOTFS_RAM_STORAGE_BYTES in *.
  exists (write_list b (Z.to_nat off) buf). split_and!; [done|by rewrite length_write_list by lia|done|].
  intros o. unfold overlay. destruct (o <? 0) eqn:E; bool_to_prop.
  { destruct (off <=? o) eqn:E2; bool_to_prop; [lia|done]. }
  unfold g_ram_buffer in *. rewrite write_list_get by lia. replace (Z.to_nat (o - off)) with (Z.to_nat o - Z.to_nat off)%nat by lia.
  destruct (off <=? o) eqn:E1, (o <? off + _) eqn:E2; simpl; bool_to_prop; case_decide; lia || done.
Qed.
Next Obligation.
  simpl. unfold ram_capacity_bytes, ram_read_block. intros b off n Hb Ho Hc. rewrite ram_bound by lia.
  unfold SOTFS_RAM_STORAGE_BYTES in *. f_equal. apply list_eq. intros i. unfold slice.
  rewrite list_lookup_fmap. destruct (decide (i < n)%nat).
  - rewrite lookup_take_lt, lookup_drop, lookup_seq_lt by done. simpl.
    rewrite (proj2 (Z.ltb_ge _ _)) by lia. replace (Z.to_nat (off + _)) with (Z.to_nat off + i)%nat by lia.
    apply array_lookup_lt. lia.
  - rewrite lookup_seq_ge by lia. apply lookup_ge_None. rewrite length_take. lia.
Qed.
Next Obligation. intros b Hb. exists b. done. Qed.
End Ram.

(** ** Partition of the image *)

Module Layout.
Definition MiB : Z := 1024 * 1024.
Definition SOTFS_IMG_TOTAL_BYTES : Z := (272 + 256) * MiB.
Definition SOTFS_STDLIB_REGION_BYTES : Z := 28 * MiB.
Definition SOTFS_BINARIES_OFFSET : Z := 28 * MiB.
Definition SOTFS_BINARIES_REGION_BYTES : Z := 68 * MiB.
Definition SOTFS_SYSROOT_OFFSET : Z := 96 * MiB.
Definition SOTFS_SYSROOT_REGION_BYTES : Z := 160 * MiB.
Definition SOTFS_RWBIN_OFFSET : Z := 256 * MiB.
Definition SOTFS_RWBIN_REGION_BYTES : Z := 12 * MiB.
Definition SOTFS_WAL_OFFSET : Z := 268 * MiB.
Definition SOTFS_WAL_REGION_BYTES : Z := 4 * MiB.
Definition SOTFS_DATA_OFFSET : Z := SOTFS_WAL_OFFSET + SOTFS_WAL_REGION_BYTES.
Definition SOTFS_DATA_REGION_BYTES : Z := 256 * MiB.
End Layout.

(** ** A sparse disk *)

Module Image.
(** Bytes never written read as zero. *)
Definition disk := gmap Z Z.

Fixpoint store (d : disk) (off : Z) (buf : list Z) : disk :=
  match buf with
  | [] => d
  | b :: buf' => store (<[off := b]> d) (off + 1) buf'
  end.

Definition get (d : disk) (o : Z) : Z := default 0 (d !! o).

Definition inside (off len : Z) : bool := (0 <=? off) && (off + len <=? Layout.SOTFS_IMG_TOTAL_BYTES).

#[export] Instance image_ops : StorageOps disk := {
  write_block d off buf :=
    if inside off (Z.of_nat (length buf)) then (i32 (Z.of_nat (length buf)), store d off buf) else (-28, d);
  read_block d off n :=
    if inside off (Z.of_nat n) then (i32 (Z.of_nat n), slice (get d) off n) else (-22, []);
  flush d := (0, d);
  capacity_bytes _ := Layout.SOTFS_IMG_TOTAL_BYTES;
}.

Lemma get_store d off buf o : get (store d off buf) o = overlay (get d) off buf o.
Proof.
  revert d off. induction buf as [|b buf IH]; intros d off; simpl; unfold overlay; simpl.
  { destruct (off <=? o) eqn:E1, (o <? off + _) eqn:E2; simpl; bool_to_prop; lia || done. }
  rewrite IH. unfold overlay, get, disk.
  destruct (decide (o = off)) as [->|Hne].
  { rewrite (proj2 (Z.leb_gt (off + 1) off)), (proj2 (Z.leb_le off off)) by lia. simpl.
    rewrite lookup_insert_eq, Z.sub_diag, (proj2 (Z.ltb_lt off (off + _))) by lia. done. }
  rewrite lookup_insert_ne by lia.
  destruct (off <=? o) eqn:E1, (off + 1 <=? o) eqn:E3, (o <? off + 1 + _) eqn:E2, (o <? off + _) eqn:E4;
    simpl; bool_to_prop; try lia; try done.
  by replace (Z.to_nat (o - off)) with (S (Z.to_nat (o - (off + 1)))) by lia.
Qed.

Lemma inside_true off len : 0 <= off -> off + len <= Layout.SOTFS_IMG_TOTAL_BYTES -> inside off len = true.
Proof. intros. unfold inside. rewrite andb_true_iff, !Z.leb_le. lia. Qed.

#[export] Program Instance image_laws : StorageLaws disk := {
  storage_wf _ := True;
  byte_at := get;
}.
Next Obligation. intros b _. simpl. unfold Layout.SOTFS_IMG_TOTAL_BYTES, Layout.MiB. lia. Qed.
Next Obligation.
  intros b off buf _ Ho Hc. simpl in *. rewrite inside_true by done. eexists. split_and!; [done..|].
  apply get_store.
Qed.
Next Obligation. intros b off n _ Ho Hc. simpl in *. by rewrite inside_true. Qed.
Next Obligation. intros b _. by exists b. Qed.
End Image.
