(* ===== verification/Blkdev.v ===== *)
(** * The disk block store (src/sotfs/blkdev.c)

    The module state [g_*] of blkdev.c is the record [blkdev]; its functions are
    state-passing definitions of the same names over any storage backend
    ([Storage.StorageOps]).  The buffers handed to [sotfs_blk_read] and
    [sotfs_blk_write] are the caller's 4096-byte arrays, so their NULL tests have
    no counterpart; [g_attached] stands for [g_st.ops != NULL].

    [blkdev_wf] is the invariant of the store and [view] its abstract content: the
    4096 bytes a client sees under each block id, wherever the cache keeps them. *)

From S2P Require Import Prelude Storage.

Definition SOTFS_BLKDEV_MAGIC : Z := 0x53464442.
Definition SOTFS_BLKDEV_VERSION : Z := 1.
Definition SOTFS_BLKDEV_BLOCK_SIZE : Z := 4096.
Definition SOTFS_BLKDEV_CACHE_SLOTS : nat := 256.
Definition BLKDEV_BITMAP_MAX : Z := 16384.
Abbreviation BS := SOTFS_BLKDEV_BLOCK_SIZE (only parsing).

(** A slot of the buffer cache; [cs_id = 0] is an empty slot. *)
Record cache_slot_t := mk_slot {
  cs_id : Z;
  cs_dirty : bool;
  cs_lru : Z;
  cs_data : list Z;
}.

Definition zero_block : list Z := replicate 4096 0.
Definition empty_slot : cache_slot_t := mk_slot 0 false 0 zero_block.

(** [struct sb], in memory order. *)
Definition sb_bytes (magic version total_blocks bitmap_bytes : Z) : list Z :=
  le_bytes 4 magic ++ le_bytes 4 version ++ le_bytes 8 total_blocks ++ le_bytes 8 bitmap_bytes.
Definition sb_magic (blk : list Z) : Z := le_val (take 4 blk).
Definition sb_version (blk : list Z) : Z := le_val (take 4 (drop 4 blk)).
Definition sb_total_blocks (blk : list Z) : Z := le_val (take 8 (drop 8 blk)).

Definition round_up_4k (v : Z) : Z := Z.land (u64 (v + (BS - 1))) (u64 (Z.lnot (BS - 1))).

(** ** The free bitmap, bit by bit *)

Definition bit_get (bm : list Z) (i : Z) : Z :=
  Z.land (Z.shiftr (bm.[Z.to_nat (Z.shiftr i 3), 0]) (Z.land i 7)) 1.
Definition bit_set (bm : list Z) (i : Z) : list Z :=
  let k := Z.to_nat (Z.shiftr i 3) in
  <[k := u8 (Z.lor (bm.[k, 0]) (u8 (Z.shiftl 1 (Z.land i 7))))]> bm.
Definition bit_clr (bm : list Z) (i : Z) : list Z :=
  let k := Z.to_nat (Z.shiftr i 3) in
  <[k := u8 (Z.land (bm.[k, 0]) (u8 (Z.lnot (Z.shiftl 1 (Z.land i 7)))))]> bm.

Definition bitmap_popcount (bm : list Z) (total : Z) : Z :=
  fold_left (fun n i => u64 (n + bit_get bm (Z.of_nat i))) (seq 0 (Z.to_nat total)) 0.

(** ** Geometry *)

(** The loop of [compute_geometry]: the first block count, going down, whose data
    and bitmap fit [avail]; with the rounded bitmap size. *)
Fixpoint geometry_loop (fuel : nat) (avail blocks : Z) : Z * Z :=
  let bm := round_up_4k (u64 (blocks + 7) / 8) in
  let need := u64 (blocks * BS + bm) in
  if (need <=? avail) || (blocks =? 0) then (blocks, bm)
  else match fuel with
       | O => (blocks, bm)
       | S fuel' => geometry_loop fuel' avail (blocks - 1)
       end.

(** The physical length of the bitmap: what init and flush move to the disk. *)
Definition bm_phys (bitmap_bytes : Z) : Z :=
  let p := round_up_4k bitmap_bytes in
  let p := if p =? 0 then BS else p in
  if p >? BLKDEV_BITMAP_MAX then BLKDEV_BITMAP_MAX else p.

(** ** The module state *)

Section state.
Context {B : Type}.

Record blkdev := mk_blkdev {
  g_st : B;
  g_attached : bool;
  g_region_off : Z;
  g_total_blocks : Z;
  g_bitmap_off : Z;
  g_bitmap_bytes : Z;
  g_heap_off : Z;
  g_used : Z;
  g_bitmap_dirty : bool;
  g_bitmap : list Z;
  g_cache : list cache_slot_t;
  g_lru_tick : Z;
}.

Definition upd_st (d : blkdev) (b : B) : blkdev :=
  mk_blkdev b (g_attached d) (g_region_off d) (g_total_blocks d) (g_bitmap_off d) (g_bitmap_bytes d)
    (g_heap_off d) (g_used d) (g_bitmap_dirty d) (g_bitmap d) (g_cache d) (g_lru_tick d).
Definition upd_cache (d : blkdev) (c : list cache_slot_t) : blkdev :=
  mk_blkdev (g_st d) (g_attached d) (g_region_off d) (g_total_blocks d) (g_bitmap_off d) (g_bitmap_bytes d)
    (g_heap_off d) (g_used d) (g_bitmap_dirty d) (g_bitmap d) c (g_lru_tick d).
Definition upd_slot (d : blkdev) (i : nat) (s : cache_slot_t) : blkdev :=
  upd_cache d (<[i := s]> (g_cache d)).
Definition upd_tick (d : blkdev) (t : Z) : blkdev :=
  mk_blkdev (g_st d) (g_attached d) (g_region_off d) (g_total_blocks d) (g_bitmap_off d) (g_bitmap_bytes d)
    (g_heap_off d) (g_used d) (g_bitmap_dirty d) (g_bitmap d) (g_cache d) t.
Definition upd_bitmap (d : blkdev) (bm : list Z) (used : Z) (dirty : bool) : blkdev :=
  mk_blkdev (g_st d) (g_attached d) (g_region_off d) (g_total_blocks d) (g_bitmap_off d) (g_bitmap_bytes d)
    (g_heap_off d) used dirty bm (g_cache d) (g_lru_tick d).

(** The zero-initialised statics; [b] is the medium nobody has attached yet. *)
Definition blkdev_boot (b : B) : blkdev :=
  mk_blkdev b false 0 0 0 0 0 0 false (replicate (Z.to_nat BLKDEV_BITMAP_MAX) 0)
    (replicate SOTFS_BLKDEV_CACHE_SLOTS empty_slot) 0.

Definition compute_geometry (d : blkdev) (region_off region_bytes : Z) : blkdev :=
  let bitmap_off := u64 (region_off + BS) in
  let avail := if region_bytes >? BS then region_bytes - BS else 0 in
  let '(blocks, bm) := geometry_loop (Z.to_nat (avail / BS)) avail (avail / BS) in
  let total := if blocks >? BLKDEV_BITMAP_MAX * 8 then BLKDEV_BITMAP_MAX * 8 else blocks in
  mk_blkdev (g_st d) (g_attached d) region_off total bitmap_off (u64 (blocks + 7) / 8)
    (u64 (bitmap_off + bm)) (g_used d) (g_bitmap_dirty d) (g_bitmap d) (g_cache d) (g_lru_tick d).

Definition slot_at (d : blkdev) (i : nat) : cache_slot_t := (g_cache d).[i, empty_slot].

Definition block_off (d : blkdev) (id : Z) : Z := u64 (g_heap_off d + u64 (id - 1) * BS).

(** ** The cache *)

Definition cache_find (d : blkdev) (id : Z) : option nat :=
  first_below (fun i => cs_id (slot_at d i) =? id) SOTFS_BLKDEV_CACHE_SLOTS.

(** The eviction scan: the first empty slot, else the least recently used. *)
Fixpoint victim_from (d : blkdev) (i n victim : nat) : nat :=
  match n with
  | O => victim
  | S n' =>
      if cs_id (slot_at d i) =? 0 then i
      else victim_from d (S i) n'
             (if cs_lru (slot_at d i) <? cs_lru (slot_at d victim) then i else victim)
  end.

Context `{StorageOps B}.

Definition st_write (b : B) (off : Z) (buf : list Z) : Z * B :=
  let '(r, b') := write_block b off buf in
  (if r =? i32 (Z.of_nat (length buf)) then 0 else if r <? 0 then r else -5, b').
Definition st_read (b : B) (off : Z) (len : nat) : Z * list Z :=
  let '(r, bs) := read_block b off len in
  (if r =? i32 (Z.of_nat len) then 0 else if r <? 0 then r else -5, bs).

Definition slot_writeback (d : blkdev) (i : nat) : Z * blkdev :=
  let s := slot_at d i in
  let clean := mk_slot (cs_id s) false (cs_lru s) (cs_data s) in
  if negb (cs_dirty s) || (cs_id s =? 0) then (0, upd_slot d i clean)
  else
    let '(r, b) := st_write (g_st d) (block_off d (cs_id s)) (cs_data s) in
    let d := upd_st d b in
    (r, if r =? 0 then upd_slot d i clean else d).

(** The slot for [id], and whether it already held it. *)
Definition cache_acquire (d : blkdev) (id : Z) : nat * bool * blkdev :=
  match cache_find d id with
  | Some i => (i, true, d)
  | None =>
      let v := victim_from d 0 SOTFS_BLKDEV_CACHE_SLOTS 0 in
      let d := (slot_writeback d v).2 in
      let s := slot_at d v in
      (v, false, upd_slot d v (mk_slot id false (cs_lru s) (cs_data s)))
  end.

Definition bitmap_flush (d : blkdev) : Z * blkdev :=
  let '(r, b) := st_write (g_st d) (g_bitmap_off d) (take (Z.to_nat (bm_phys (g_bitmap_bytes d))) (g_bitmap d)) in
  let d := upd_st d b in
  (r, if r =? 0 then upd_bitmap d (g_bitmap d) (g_used d) false else d).

(** ** The public operations *)

Definition format (d : blkdev) : Z * blkdev :=
  let bm := replicate (Z.to_nat BLKDEV_BITMAP_MAX) 0 in
  let d := upd_bitmap d bm 0 (g_bitmap_dirty d) in
  let sb := sb_bytes SOTFS_BLKDEV_MAGIC SOTFS_BLKDEV_VERSION (g_total_blocks d) (g_bitmap_bytes d) in
  let '(r, b) := st_write (g_st d) (g_region_off d) (sb ++ replicate (4096 - length sb) 0) in
  let d := upd_st d b in
  if negb (r =? 0) then (r, d)
  else
    let '(r, b) := st_write (g_st d) (g_bitmap_off d) (take (Z.to_nat (bm_phys (g_bitmap_bytes d))) bm) in
    (r, upd_st d b).

Definition attach (d : blkdev) : Z * blkdev :=
  let '(r, sb) := st_read (g_st d) (g_region_off d) 4096 in
  if negb (r =? 0) then (r, d)
  else if negb (sb_magic sb =? SOTFS_BLKDEV_MAGIC) || negb (sb_version sb =? SOTFS_BLKDEV_VERSION) then (-22, d)
  else if negb (sb_total_blocks sb =? g_total_blocks d) then (-22, d)
  else
    let bm := replicate (Z.to_nat BLKDEV_BITMAP_MAX) 0 in
    let '(r, bytes) := st_read (g_st d) (g_bitmap_off d) (Z.to_nat (bm_phys (g_bitmap_bytes d))) in
    if negb (r =? 0) then (r, upd_bitmap d bm (g_used d) (g_bitmap_dirty d))
    else
      let bm := write_list bm 0 bytes in
      (0, upd_bitmap d bm (bitmap_popcount bm (g_total_blocks d)) (g_bitmap_dirty d)).

Definition sotfs_blkdev_init (d : blkdev) (storage : option B) (region_off region_bytes : Z) (fresh : bool)
    : Z * blkdev :=
  match storage with
  | None => (-22, d)
  | Some b =>
      let d := mk_blkdev b true (g_region_off d) (g_total_blocks d) (g_bitmap_off d) (g_bitmap_bytes d)
                 (g_heap_off d) (g_used d) (g_bitmap_dirty d) (g_bitmap d) (g_cache d) (g_lru_tick d) in
      let d := compute_geometry d region_off region_bytes in
      if g_total_blocks d =? 0 then (-28, d)
      else
        let d := upd_cache d (replicate SOTFS_BLKDEV_CACHE_SLOTS empty_slot) in
        let d := upd_bitmap (upd_tick d 0) (g_bitmap d) (g_used d) false in
        let fresh :=
          fresh || (let '(pr, probe) := st_read (g_st d) region_off 4096 in
                    (pr =? 0) && negb (sb_magic probe =? SOTFS_BLKDEV_MAGIC)) in
        if fresh then format d else attach d
  end.

Definition sotfs_blk_alloc (d : blkdev) : Z * blkdev :=
  match first_below (fun i => bit_get (g_bitmap d) (Z.of_nat i) =? 0) (Z.to_nat (g_total_blocks d)) with
  | Some i =>
      (i32 (Z.of_nat i + 1), upd_bitmap d (bit_set (g_bitmap d) (Z.of_nat i)) (u64 (g_used d + 1)) true)
  | None => (0, d)
  end.

Definition out_of_range (d : blkdev) (blk : Z) : bool := (blk <=? 0) || (u64 blk >? g_total_blocks d).

Definition sotfs_blk_free (d : blkdev) (blk : Z) : blkdev :=
  if out_of_range d blk then d
  else
    let i := u64 (blk - 1) in
    if bit_get (g_bitmap d) i =? 0 then d
    else
      let d := upd_bitmap d (bit_clr (g_bitmap d) i) (if g_used d =? 0 then 0 else g_used d - 1) true in
      match cache_find d blk with
      | Some k =>
          let s := slot_at d k in upd_slot d k (mk_slot 0 false (cs_lru s) (cs_data s))
      | None => d
      end.

Definition sotfs_blk_read (d : blkdev) (blk : Z) : Z * list Z * blkdev :=
  if out_of_range d blk then (-22, [], d)
  else
    let '(k, present, d) := cache_acquire d blk in
    let s := slot_at d k in
    let '(r, data) := if present then (0, cs_data s) else st_read (g_st d) (block_off d blk) 4096 in
    if negb (r =? 0) then (r, [], upd_slot d k (mk_slot 0 (cs_dirty s) (cs_lru s) (cs_data s)))
    else
      let t := u64 (g_lru_tick d + 1) in
      (0, data, upd_tick (upd_slot d k (mk_slot (cs_id s) (cs_dirty s) t data)) t).

Definition sotfs_blk_write (d : blkdev) (blk : Z) (buf : list Z) : Z * blkdev :=
  if out_of_range d blk then (-22, d)
  else
    let '(k, _, d) := cache_acquire d blk in
    let t := u64 (g_lru_tick d + 1) in
    (0, upd_tick (upd_slot d k (mk_slot (cs_id (slot_at d k)) true t buf)) t).

Definition sotfs_blk_flush (d : blkdev) : blkdev :=
  let d := fold_left (fun d i => (slot_writeback d i).2) (seq 0 SOTFS_BLKDEV_CACHE_SLOTS) d in
  let d := if g_bitmap_dirty d then (bitmap_flush d).2 else d in
  if g_attached d then upd_st d (flush (g_st d)).2 else d.

Definition sotfs_blk_total (d : blkdev) : Z := g_total_blocks d.
Definition sotfs_blk_used (d : blkdev) : Z := g_used d.
End state.
Arguments blkdev : clear implicits.

(** ** Arithmetic of the layout *)

(** The reference rounding. *)
Definition rup (v : Z) : Z := (v + 4095) / 4096 * 4096.

Lemma round_up_4k_rup v : 0 <= v < 2 ^ 63 -> round_up_4k v = rup v.
Proof.
  intros Hv. unfold round_up_4k, rup, SOTFS_BLKDEV_BLOCK_SIZE. change (4096 - 1) with 4095.
  rewrite (u64_small (v + 4095)) by lia. set (a := v + 4095).
  replace (u64 (Z.lnot 4095)) with (Z.land (Z.lnot (Z.ones 12)) (Z.ones 64)) by reflexivity.
  rewrite (Z.land_comm (Z.lnot _)), Z.land_assoc, Z.land_ones, Z.mod_small by (unfold a; lia).
  change (Z.land a (Z.lnot (Z.ones 12))) with (Z.land a (Z.lnot (Z.ones 12))).
  rewrite <-Z.ldiff_land, Z.ldiff_ones_r, Z.shiftr_div_pow2, Z.shiftl_mul_pow2 by lia. done.
Qed.

Lemma rup_bounds v : v <= rup v < v + 4096.
Proof. unfold rup. pose proof (Z.div_mod (v + 4095) 4096). pose proof (Z.mod_pos_bound (v + 4095) 4096). lia. Qed.

Lemma rup_mono v w : v <= w -> rup v <= rup w.
Proof. intros. unfold rup. pose proof (Z.div_le_mono (v + 4095) (w + 4095) 4096). lia. Qed.

(** Bytes of data and bitmap that [n] blocks take. *)
Definition footprint (n : Z) : Z := n * 4096 + rup ((n + 7) / 8).

Lemma footprint_mono n m : n <= m -> footprint n <= footprint m.
Proof.
  intros. unfold footprint. pose proof (Z.div_le_mono (n + 7) (m + 7) 8). pose proof (rup_mono ((n + 7) / 8) ((m + 7) / 8)). lia.
Qed.

Lemma footprint_bound n : 0 <= n -> footprint n <= n * 4097 + 4097.
Proof.
  intros. unfold footprint. pose proof (rup_bounds ((n + 7) / 8)).
  pose proof (Z.div_mod (n + 7) 8). pose proof (Z.mod_pos_bound (n + 7) 8). lia.
Qed.

Lemma geometry_loop_spec fuel avail blocks :
  0 <= avail < 2 ^ 62 -> 0 <= blocks -> blocks * 4096 <= avail -> (Z.to_nat blocks <= fuel)%nat ->
  exists n, geometry_loop fuel avail blocks = (n, rup ((n + 7) / 8)) /\ 0 <= n <= blocks
    /\ (n = 0 \/ footprint n <= avail)
    /\ forall m, n < m <= blocks -> avail < footprint m.
Proof.
  intros Ha. revert blocks. induction fuel as [|fuel IH]; intros blocks Hb Hle Hf; simpl.
  all: pose proof (footprint_bound blocks Hb) as Hfp; unfold SOTFS_BLKDEV_BLOCK_SIZE.
  all: pose proof (Z.div_pos (blocks + 7) 8) as Hd; pose proof (Z.div_le_upper_bound (blocks + 7) 8 (blocks + 7)) as Hd'.
  all: rewrite (u64_small (blocks + 7)), round_up_4k_rup by lia; fold (footprint blocks).
  all: assert (0 <= footprint blocks) by (unfold footprint; pose proof (rup_bounds ((blocks + 7) / 8)); lia).
  all: rewrite (u64_small (footprint blocks)) by lia.
  - assert (blocks = 0) as -> by lia. rewrite orb_true_r. exists 0. split_and!; [done|lia|lia|auto|intros; lia].
  - destruct (footprint blocks <=? avail) eqn:E; simpl; bool_to_prop.
    { exists blocks. split_and!; [done|lia|lia|auto|intros; lia]. }
    destruct (blocks =? 0) eqn:E0; bool_to_prop.
    { subst. exists 0. split_and!; [done|lia|lia|auto|intros; lia]. }
    destruct (IH (blocks - 1)) as (n & -> & Hn & Hfit & Hmax); [lia..|].
    exists n. split_and!; [done|lia|lia|done|]. intros m Hm.
    destruct (decide (m = blocks)) as [->|]; [done|apply Hmax; lia].
Qed.

(** What [compute_geometry] guarantees of its result. *)
Record geom_wf (region_off total bitmap_off bitmap_bytes heap_off limit : Z) : Prop := {
  geom_region : 0 <= region_off;
  geom_limit : limit < 2 ^ 62;
  geom_bitmap_off : bitmap_off = region_off + 4096;
  geom_heap : heap_off = bitmap_off + rup bitmap_bytes;
  geom_total : 0 < total <= BLKDEV_BITMAP_MAX * 8;
  geom_bits : total <= 8 * bitmap_bytes;
  geom_bytes : 0 <= bitmap_bytes < 2 ^ 62;
  geom_end : heap_off + total * 4096 <= limit;
}.

Lemma compute_geometry_spec {B} (d : blkdev B) region_off region_bytes :
  0 <= region_off -> 0 <= region_bytes -> region_off + region_bytes < 2 ^ 62 ->
  let d' := compute_geometry d region_off region_bytes in
  (0 < g_total_blocks d' -> geom_wf region_off (g_total_blocks d') (g_bitmap_off d') (g_bitmap_bytes d') (g_heap_off d')
                              (region_off + region_bytes))
  /\ 0 <= g_total_blocks d'
  /\ forall n, 0 <= n -> 4096 + footprint n <= region_bytes -> Z.min n (BLKDEV_BITMAP_MAX * 8) <= g_total_blocks d'.
Proof.
  intros Ho Hb Hlim. unfold compute_geometry, SOTFS_BLKDEV_BLOCK_SIZE, BLKDEV_BITMAP_MAX. rewrite Z.gtb_ltb.
  set (avail := if 4096 <? region_bytes then region_bytes - 4096 else 0).
  assert (0 <= avail <= region_bytes /\ (avail = 0 /\ region_bytes <= 4096 \/ avail = region_bytes - 4096)) as [Ha Ha'].
  { unfold avail. destruct (4096 <? region_bytes) eqn:E; bool_to_prop; lia. }
  pose proof (Z.div_pos avail 4096). pose proof (Z.mul_div_le avail 4096).
  destruct (geometry_loop_spec (Z.to_nat (avail / 4096)) avail (avail / 4096)) as (n & -> & Hn & Hfit & Hmax); [lia..|].
  pose proof (Z.div_mod (n + 7) 8) as Hdm. pose proof (Z.mod_pos_bound (n + 7) 8).
  pose proof (rup_bounds ((n + 7) / 8)).
  simpl. rewrite Z.gtb_ltb, (u64_small (n + 7)), (u64_small (region_off + 4096)) by lia.
  rewrite u64_small by lia. split_and!.
  - intros Ht. assert (0 < n) by (destruct (_ <? n) eqn:E; bool_to_prop; lia).
    assert (footprint n <= avail) by lia. unfold footprint in *.
    destruct (_ <? n) eqn:E; bool_to_prop; constructor; unfold BLKDEV_BITMAP_MAX; lia.
  - destruct (_ <? n) eqn:E; bool_to_prop; lia.
  - intros m Hm Hfp. assert (m <= n); [|destruct (_ <? n) eqn:E; bool_to_prop; lia].
    destruct (decide (m <= n)); [done|]. assert (m * 4096 <= avail) as Hma.
    { unfold footprint in Hfp. pose proof (rup_bounds ((m + 7) / 8)). pose proof (Z.div_pos (m + 7) 8). lia. }
    assert (m <= avail / 4096) by (apply Z.div_le_lower_bound; lia).
    specialize (Hmax m). lia.
Qed.

Lemma bm_phys_spec region_off total bitmap_off bitmap_bytes heap_off limit :
  geom_wf region_off total bitmap_off bitmap_bytes heap_off limit ->
  0 < bm_phys bitmap_bytes <= BLKDEV_BITMAP_MAX /\ bitmap_off + bm_phys bitmap_bytes <= heap_off
  /\ total <= 8 * bm_phys bitmap_bytes.
Proof.
  intros [? ? -> -> Ht Hb Hbb _]. unfold bm_phys. rewrite round_up_4k_rup by lia. pose proof (rup_bounds bitmap_bytes).
  unfold SOTFS_BLKDEV_BLOCK_SIZE, BLKDEV_BITMAP_MAX in *. rewrite Z.gtb_ltb.
  destruct (rup bitmap_bytes =? 0) eqn:E; bool_to_prop; [lia|].
  destruct (16384 <? rup bitmap_bytes) eqn:E2; bool_to_prop; lia.
Qed.

(** ** The bitmap *)

Lemma lookup_bits i : 0 <= i -> Z.shiftr i 3 = i / 8 /\ Z.land i 7 = i mod 8.
Proof. intros. split; [by rewrite Z.shiftr_div_pow2 by lia|]. change 7 with (Z.ones 3). by rewrite Z.land_ones by lia. Qed.

Definition bit (bm : list Z) (i : Z) : bool := Z.testbit (bm.[Z.to_nat (i / 8), 0]) (i mod 8).

Lemma bit_get_bit bm i : 0 <= i -> bit_get bm i = Z.b2z (bit bm i).
Proof.
  intros Hi. unfold bit_get, bit. destruct (lookup_bits i Hi) as [-> ->]. pose proof (Z.mod_pos_bound i 8).
  change 1 with (Z.ones 1). rewrite Z.land_ones by lia. change (2 ^ 1) with 2. rewrite Z.shiftr_div_pow2 by lia.
  by rewrite <-Z.testbit_spec' by lia.
Qed.

Lemma bit_get_0 bm i : 0 <= i -> (bit_get bm i =? 0) = negb (bit bm i).
Proof. intros. rewrite bit_get_bit by done. by destruct (bit bm i). Qed.

Lemma u8_testbit z k : 0 <= k < 8 -> Z.testbit (u8 z) k = Z.testbit z k.
Proof. intros. unfold u8. by rewrite Z.mod_pow2_bits_low by lia. Qed.

Lemma one_bit k j : 0 <= j -> 0 <= k -> Z.testbit (Z.shiftl 1 k) j = bool_decide (j = k).
Proof.
  intros. rewrite Z.shiftl_mul_pow2, Z.mul_1_l by lia. case_bool_decide; subst.
  - by apply Z.pow2_bits_true.
  - apply Z.pow2_bits_false. lia.
Qed.

Lemma same_byte i j : 0 <= i -> 0 <= j -> i <> j -> Z.to_nat (i / 8) = Z.to_nat (j / 8) -> i mod 8 <> j mod 8.
Proof.
  intros ? ? Hne Hq Hr. pose proof (Z.div_pos i 8). pose proof (Z.div_pos j 8).
  pose proof (Z.div_mod i 8). pose proof (Z.div_mod j 8). lia.
Qed.

Lemma bit_update bm i j v f :
  0 <= i -> 0 <= j -> i / 8 < Z.of_nat (length bm) ->
  (forall k, 0 <= k < 8 -> Z.testbit (f (bm.[Z.to_nat (i / 8), 0])) k
                 = if bool_decide (k = i mod 8) then v else Z.testbit (bm.[Z.to_nat (i / 8), 0]) k) ->
  bit (<[Z.to_nat (i / 8) := f (bm.[Z.to_nat (i / 8), 0])]> bm) j = if bool_decide (j = i) then v else bit bm j.
Proof.
  intros Hi Hj Hl Hf. pose proof (Z.div_pos i 8). unfold bit. rewrite array_get_insert by lia.
  pose proof (Z.mod_pos_bound j 8). destruct (decide (Z.to_nat (i / 8) = Z.to_nat (j / 8))) as [He|He].
  - rewrite Hf by lia. case_bool_decide as E1; case_bool_decide as E2; subst; try done.
    + destruct (same_byte i j); auto.
    + by rewrite He.
  - rewrite bool_decide_false; [done|]. by intros ->.
Qed.

Lemma bit_set_spec bm i j :
  0 <= i -> 0 <= j -> i / 8 < Z.of_nat (length bm) ->
  bit (bit_set bm i) j = if bool_decide (j = i) then true else bit bm j.
Proof.
  intros Hi Hj Hl. unfold bit_set. destruct (lookup_bits i Hi) as [-> ->].
  apply (bit_update bm i j true (fun b => u8 (Z.lor b (u8 (Z.shiftl 1 (i mod 8)))))); [done..|].
  intros k Hk. pose proof (Z.mod_pos_bound i 8). rewrite u8_testbit, Z.lor_spec, u8_testbit, one_bit by lia.
  case_bool_decide; [apply orb_true_r|apply orb_false_r].
Qed.

Lemma bit_clr_spec bm i j :
  0 <= i -> 0 <= j -> i / 8 < Z.of_nat (length bm) ->
  bit (bit_clr bm i) j = if bool_decide (j = i) then false else bit bm j.
Proof.
  intros Hi Hj Hl. unfold bit_clr. destruct (lookup_bits i Hi) as [-> ->].
  apply (bit_update bm i j false (fun b => u8 (Z.land b (u8 (Z.lnot (Z.shiftl 1 (i mod 8))))))); [done..|].
  intros k Hk. pose proof (Z.mod_pos_bound i 8).
  rewrite u8_testbit, Z.land_spec, u8_testbit, Z.lnot_spec, one_bit by lia.
  case_bool_decide; [apply andb_false_r|apply andb_true_r].
Qed.

(** The number of allocated blocks. *)
Fixpoint count_bits (bm : list Z) (n : nat) : Z :=
  match n with
  | O => 0
  | S n' => count_bits bm n' + Z.b2z (bit bm (Z.of_nat n'))
  end.

Lemma count_bits_range bm n : 0 <= count_bits bm n <= Z.of_nat n.
Proof. induction n; simpl; [lia|]. destruct (bit _ _); simpl Z.b2z; lia. Qed.

Lemma bitmap_popcount_spec bm total : 0 <= total < 2 ^ 62 -> bitmap_popcount bm total = count_bits bm (Z.to_nat total).
Proof.
  intros Ht. unfold bitmap_popcount. assert (Z.of_nat (Z.to_nat total) < 2 ^ 62) as Hn by lia. clear Ht.
  induction (Z.to_nat total) as [|n IH]; [done|]. rewrite seq_S, fold_left_app, IH by lia. simpl.
  rewrite bit_get_bit by lia. pose proof (count_bits_range bm n). rewrite u64_small; [done|].
  destruct (bit _ _); simpl Z.b2z; lia.
Qed.

Lemma count_bits_ext bm bm' n :
  (forall j, (j < n)%nat -> bit bm' (Z.of_nat j) = bit bm (Z.of_nat j)) -> count_bits bm' n = count_bits bm n.
Proof. induction n as [|n IH]; intros H; simpl; [done|]. rewrite IH, H by auto with lia. done. Qed.

Lemma count_bits_flip bm bm' i n v :
  (i < n)%nat -> (forall j, 0 <= j -> bit bm' j = if bool_decide (j = Z.of_nat i) then v else bit bm j) ->
  count_bits bm' n = count_bits bm n + Z.b2z v - Z.b2z (bit bm (Z.of_nat i)).
Proof.
  intros Hi Hb. induction n as [|n IH]; [lia|]. simpl. rewrite Hb by lia.
  destruct (decide (i = n)) as [->|].
  - rewrite bool_decide_true by done. rewrite (count_bits_ext bm bm'); [lia|].
    intros j Hj. rewrite Hb by lia. by rewrite bool_decide_false by lia.
  - rewrite bool_decide_false, IH by lia. lia.
Qed.
