(* ===== verification/BlkdevSpec.v ===== *)
(** * Correctness of the block store

    The invariant [blkdev_wf] of the store, its abstract content [view], what each
    operation of [Blkdev] does to them over any backend satisfying
    [Storage.StorageLaws], and the theorems: the cache is transparent, allocation
    is exact, and a flushed store can be attached again. *)

From S2P Require Import Prelude Storage Blkdev.

Definition superblock (total bitmap_bytes : Z) : list Z :=
  let sb := sb_bytes SOTFS_BLKDEV_MAGIC SOTFS_BLKDEV_VERSION total bitmap_bytes in
  sb ++ replicate (4096 - length sb) 0.

#[local] Opaque slice superblock Z.to_nat Z.pow.

Section wf.
Context {B : Type} `{StorageLaws B}.

(** The 4096 bytes the medium holds for a block. *)
Definition disk_block (b : B) (heap id : Z) : list Z := slice (byte_at b) (heap + (id - 1) * 4096) 4096.

Record cache_wf (b : B) (heap total : Z) (c : list cache_slot_t) : Prop := {
  cw_len : length c = SOTFS_BLKDEV_CACHE_SLOTS;
  cw_data i s : c !! i = Some s -> length (cs_data s) = 4096%nat;
  cw_id i s : c !! i = Some s -> 0 <= cs_id s <= total;
  cw_uniq i j s t : c !! i = Some s -> c !! j = Some t -> cs_id s <> 0 -> cs_id s = cs_id t -> i = j;
  cw_clean i s : c !! i = Some s -> cs_id s <> 0 -> cs_dirty s = false -> cs_data s = disk_block b heap (cs_id s);
}.

Record meta_wf (b : B) (region_off bitmap_off total bitmap_bytes : Z) (bm : list Z) (dirty : bool) : Prop := {
  mw_sb : slice (byte_at b) region_off 4096 = superblock total bitmap_bytes;
  mw_bm : dirty = false ->
          slice (byte_at b) bitmap_off (Z.to_nat (bm_phys bitmap_bytes)) = take (Z.to_nat (bm_phys bitmap_bytes)) bm;
}.

Record blkdev_wf (d : blkdev B) : Prop := {
  bw_st : storage_wf (g_st d);
  bw_geom : geom_wf (g_region_off d) (g_total_blocks d) (g_bitmap_off d) (g_bitmap_bytes d) (g_heap_off d)
              (capacity_bytes (g_st d));
  bw_bitmap : length (g_bitmap d) = Z.to_nat BLKDEV_BITMAP_MAX;
  bw_used : g_used d = count_bits (g_bitmap d) (Z.to_nat (g_total_blocks d));
  bw_cache : cache_wf (g_st d) (g_heap_off d) (g_total_blocks d) (g_cache d);
  bw_meta : meta_wf (g_st d) (g_region_off d) (g_bitmap_off d) (g_total_blocks d) (g_bitmap_bytes d)
              (g_bitmap d) (g_bitmap_dirty d);
}.

(** The content of block [id], cached or not. *)
Definition view (d : blkdev B) (id : Z) : list Z :=
  match cache_find d id with
  | Some i => cs_data (slot_at d i)
  | None => disk_block (g_st d) (g_heap_off d) id
  end.

Definition valid_id (d : blkdev B) (id : Z) : Prop := 1 <= id <= g_total_blocks d.

(** Two states that differ in the cache and in the medium's block area only. *)
Record frame (d d' : blkdev B) : Prop := {
  fr_attached : g_attached d' = g_attached d;
  fr_region : g_region_off d' = g_region_off d;
  fr_total : g_total_blocks d' = g_total_blocks d;
  fr_bitmap_off : g_bitmap_off d' = g_bitmap_off d;
  fr_heap : g_heap_off d' = g_heap_off d;
  fr_bytes : g_bitmap_bytes d' = g_bitmap_bytes d;
  fr_used : g_used d' = g_used d;
  fr_bitmap : g_bitmap d' = g_bitmap d;
  fr_dirty : g_bitmap_dirty d' = g_bitmap_dirty d;
  fr_cap : capacity_bytes (g_st d') = capacity_bytes (g_st d);
}.

Lemma frame_refl d : frame d d.
Proof. done. Qed.
Lemma frame_trans d1 d2 d3 : frame d1 d2 -> frame d2 d3 -> frame d1 d3.
Proof. intros [] []. constructor; congruence. Qed.
End wf.

Create HintDb blk discriminated.
#[export] Hint Resolve frame_refl : blk.

Section ops.
Context {B : Type} `{StorageLaws B}.
Implicit Types (d : blkdev B) (b : B).

Lemma slot_lookup d i :
  blkdev_wf d -> (i < SOTFS_BLKDEV_CACHE_SLOTS)%nat -> g_cache d !! i = Some (slot_at d i).
Proof. intros W Hi. apply array_lookup_lt. by rewrite (cw_len _ _ _ _ (bw_cache _ W)). Qed.

Lemma slot_at_upd d i j s :
  length (g_cache d) = SOTFS_BLKDEV_CACHE_SLOTS -> (i < SOTFS_BLKDEV_CACHE_SLOTS)%nat ->
  slot_at (upd_slot d i s) j = if decide (i = j) then s else slot_at d j.
Proof. intros Hl Hi. unfold slot_at, upd_slot. simpl. apply array_get_insert. lia. Qed.

Lemma cache_find_Some d id i :
  cache_find d id = Some i -> (i < SOTFS_BLKDEV_CACHE_SLOTS)%nat /\ cs_id (slot_at d i) = id.
Proof. intros (?&?&_)%first_below_Some. bool_to_prop. done. Qed.

Lemma cache_find_None d id i :
  cache_find d id = None -> (i < SOTFS_BLKDEV_CACHE_SLOTS)%nat -> cs_id (slot_at d i) <> id.
Proof. intros Hf Hi. pose proof (first_below_None _ _ _ Hf Hi) as Hn. simpl in Hn. by bool_to_prop. Qed.

Lemma cache_find_is d id i :
  blkdev_wf d -> id <> 0 -> (i < SOTFS_BLKDEV_CACHE_SLOTS)%nat -> cs_id (slot_at d i) = id -> cache_find d id = Some i.
Proof.
  intros W Hid Hi Hs. destruct (cache_find d id) as [j|] eqn:E; [|by destruct (cache_find_None _ _ _ E Hi)].
  apply cache_find_Some in E as [Hj Hsj]. f_equal.
  eapply (cw_uniq _ _ _ _ (bw_cache _ W)); [by apply slot_lookup|by apply slot_lookup|congruence..].
Qed.

(** The content seen through a slot that holds [id]. *)
Lemma view_slot d id i :
  blkdev_wf d -> id <> 0 -> (i < SOTFS_BLKDEV_CACHE_SLOTS)%nat -> cs_id (slot_at d i) = id ->
  view d id = cs_data (slot_at d i).
Proof. intros. unfold view. by rewrite (cache_find_is d id i). Qed.

Lemma view_length d id : blkdev_wf d -> length (view d id) = 4096%nat.
Proof.
  intros W. unfold view. destruct (cache_find d id) eqn:E; [|apply length_slice].
  apply cache_find_Some in E as [Hi _]. eapply (cw_data _ _ _ _ (bw_cache _ W)). by apply slot_lookup.
Qed.

Lemma block_off_eq d id :
  blkdev_wf d -> valid_id d id -> block_off d id = g_heap_off d + (id - 1) * 4096
    /\ 0 <= g_heap_off d /\ g_heap_off d + (id - 1) * 4096 + 4096 <= capacity_bytes (g_st d).
Proof.
  intros W Hid. pose proof (bw_geom _ W) as [? ? ? ? Ht ? ? ?]. unfold valid_id, BLKDEV_BITMAP_MAX in *.
  unfold block_off, SOTFS_BLKDEV_BLOCK_SIZE. pose proof (rup_bounds (g_bitmap_bytes d)).
  rewrite (u64_small (id - 1)), u64_small by lia. lia.
Qed.

(** One block write on the medium. *)
Lemma disk_block_overlay b b' heap id data j :
  (forall o, byte_at b' o = overlay (byte_at b) (heap + (id - 1) * 4096) data o) -> length data = 4096%nat ->
  disk_block b' heap j = if decide (j = id) then data else disk_block b heap j.
Proof.
  intros Hb Hl. unfold disk_block. rewrite (slice_ext (byte_at b') (overlay (byte_at b) (heap + (id - 1) * 4096) data)) by auto.
  case_decide as Hj; subst.
  - rewrite <-Hl. apply slice_overlay.
  - apply slice_overlay_ne. lia.
Qed.

Lemma st_write_ok b off buf :
  storage_wf b -> 0 <= off -> off + Z.of_nat (length buf) <= capacity_bytes b ->
  exists b', st_write b off buf = (0, b') /\ storage_wf b' /\ capacity_bytes b' = capacity_bytes b
    /\ forall o, byte_at b' o = overlay (byte_at b) off buf o.
Proof.
  intros Hb Ho Hc. destruct (write_block_spec b off buf Hb Ho Hc) as (b'&E&?). exists b'.
  unfold st_write. rewrite E, Z.eqb_refl. auto.
Qed.

Lemma st_read_ok b off n :
  storage_wf b -> 0 <= off -> off + Z.of_nat n <= capacity_bytes b ->
  st_read b off n = (0, slice (byte_at b) off n).
Proof. intros Hb Ho Hc. unfold st_read. by rewrite read_block_spec, Z.eqb_refl. Qed.

(** Replacing a slot: the new slot holds [s], the old content of the slot is
    clean, empty, or is the block [s] holds. *)
Lemma install_slot d i s :
  blkdev_wf d -> (i < SOTFS_BLKDEV_CACHE_SLOTS)%nat -> length (cs_data s) = 4096%nat ->
  0 <= cs_id s <= g_total_blocks d ->
  (cs_id s <> 0 -> forall k, (k < SOTFS_BLKDEV_CACHE_SLOTS)%nat -> cs_id (slot_at d k) = cs_id s -> k = i) ->
  (cs_id s <> 0 -> cs_dirty s = false -> cs_data s = disk_block (g_st d) (g_heap_off d) (cs_id s)) ->
  blkdev_wf (upd_slot d i s).
Proof.
  intros W Hi Hd Hid Hu Hc. pose proof W as [? ? ? ? [Cl Cd Ci Cu Cc] ?]. constructor; simpl; try assumption; try reflexivity.
  constructor; simpl.
  - by rewrite length_insert.
  - intros j t [(<-&<-&_)|[_ ?]]%lookup_insert_cases; eauto.
  - intros j t [(<-&<-&_)|[_ ?]]%lookup_insert_cases; eauto.
  - assert (forall k t, g_cache d !! k = Some t -> (k < SOTFS_BLKDEV_CACHE_SLOTS)%nat /\ slot_at d k = t) as Hk.
    { intros k t Ht. split; [rewrite <-Cl; by eapply lookup_lt_Some|]. by apply array_get. }
    intros j k t u [(<-&<-&_)|[? Ht]]%lookup_insert_cases [(<-&<-&_)|[? Hu']]%lookup_insert_cases Hn He.
    + done.
    + apply Hk in Hu' as [? <-]. symmetry. by apply Hu.
    + apply Hk in Ht as [? <-]. apply Hu; [congruence|done..].
    + by eapply Cu.
  - intros j t [(<-&<-&_)|[_ ?]]%lookup_insert_cases; eauto.
Qed.

Lemma view_install d i s j :
  blkdev_wf d -> blkdev_wf (upd_slot d i s) -> (i < SOTFS_BLKDEV_CACHE_SLOTS)%nat -> j <> 0 ->
  (cs_id (slot_at d i) = j -> cs_id s <> j -> cs_dirty (slot_at d i) = false) ->
  view (upd_slot d i s) j = if decide (j = cs_id s) then cs_data s else view d j.
Proof.
  intros W W' Hi Hj Hold. pose proof (cw_len _ _ _ _ (bw_cache _ W)) as Hl.
  destruct (decide (j = cs_id s)) as [->|Hne].
  { assert (slot_at (upd_slot d i s) i = s) as Hs by (rewrite slot_at_upd by done; by case_decide).
    rewrite (view_slot _ _ i), Hs; by rewrite ?Hs. }
  unfold view at 1. destruct (cache_find (upd_slot d i s) j) as [k|] eqn:E.
  - apply cache_find_Some in E as [Hk E]. rewrite slot_at_upd in E |- * by done. case_decide; [congruence|].
    symmetry. by apply view_slot.
  - simpl. destruct (decide (cs_id (slot_at d i) = j)) as [Hd|Hd].
    + rewrite (view_slot d j i) by done. symmetry. subst j.
      apply (cw_clean _ _ _ _ (bw_cache _ W) i); [by apply slot_lookup|done|auto].
    + unfold view. destruct (cache_find d j) as [k|] eqn:F; [|done]. apply cache_find_Some in F as [Hk F].
      pose proof (cache_find_None _ _ _ E Hk) as Hx. rewrite slot_at_upd in Hx by done. case_decide; congruence.
Qed.

(** Moving the medium below a cached dirty block. *)
Lemma upd_st_wf d b id data :
  blkdev_wf d -> valid_id d id -> length data = 4096%nat -> storage_wf b ->
  capacity_bytes b = capacity_bytes (g_st d) ->
  (forall o, byte_at b o = overlay (byte_at (g_st d)) (g_heap_off d + (id - 1) * 4096) data o) ->
  (forall i, (i < SOTFS_BLKDEV_CACHE_SLOTS)%nat -> cs_id (slot_at d i) = id -> cs_dirty (slot_at d i) = true) ->
  blkdev_wf (upd_st d b).
Proof.
  intros W Hid Hl Hb Hcap Ho Hslot. pose proof W as [? Hg ? ? [Cl Cd Ci Cu Cc] [Ms Mb]].
  pose proof (bm_phys_spec _ _ _ _ _ _ Hg) as (?&?&_). pose proof (disk_block_overlay (g_st d) b (g_heap_off d) id data) as Hov.
  pose proof Hg as [? ? ? ? ? ? ? ?]. pose proof (rup_bounds (g_bitmap_bytes d)). unfold valid_id in Hid.
  constructor; simpl; rewrite ?Hcap; try assumption.
  - constructor; try assumption. intros i s Hs Hn Hdirty. rewrite Hov by done. rewrite decide_False; [by eauto|].
    intros He. assert (i < SOTFS_BLKDEV_CACHE_SLOTS)%nat by (rewrite <-Cl; by eapply lookup_lt_Some).
    assert (slot_at d i = s) as Hsl by by apply array_get. specialize (Hslot i). rewrite Hsl in Hslot.
    rewrite Hslot in Hdirty; done.
  - assert (forall off n, off + Z.of_nat n <= g_heap_off d ->
             slice (byte_at b) off n = slice (byte_at (g_st d)) off n) as Hlow.
    { intros off n Hle. rewrite (slice_ext _ _ off n (fun o _ => Ho o)). apply slice_overlay_ne. lia. }
    constructor; [rewrite Hlow by lia; done|]. intros Hd. rewrite Hlow by lia. auto.
Qed.

Lemma writeback_spec d i :
  blkdev_wf d -> (i < SOTFS_BLKDEV_CACHE_SLOTS)%nat ->
  exists d', slot_writeback d i = (0, d') /\ blkdev_wf d' /\ frame d d'
    /\ (forall id, id <> 0 -> view d' id = view d id)
    /\ g_cache d' = <[i := mk_slot (cs_id (slot_at d i)) false (cs_lru (slot_at d i)) (cs_data (slot_at d i))]> (g_cache d).
Proof.
  intros W Hi. pose proof (slot_lookup d i W Hi) as Hs. pose proof (bw_cache _ W) as C.
  unfold slot_writeback. set (s := slot_at d i) in *. set (s' := mk_slot (cs_id s) false (cs_lru s) (cs_data s)).
  pose proof (cw_data _ _ _ _ C _ _ Hs) as Hdl. pose proof (cw_id _ _ _ _ C _ _ Hs) as Hids.
  assert (cs_id s <> 0 -> forall k, (k < SOTFS_BLKDEV_CACHE_SLOTS)%nat -> cs_id (slot_at d k) = cs_id s -> k = i) as Hu.
  { intros Hn k Hk He. eapply (cw_uniq _ _ _ _ C); [by apply slot_lookup|done|congruence..]. }
  destruct (negb (cs_dirty s) || (cs_id s =? 0)) eqn:E.
  - assert (blkdev_wf (upd_slot d i s')) as W'.
    { apply install_slot; try done. intros Hn _. apply (cw_clean _ _ _ _ C i s Hs Hn).
      apply orb_true_iff in E as [E|E]; bool_to_prop; done. }
    eexists. split_and!; [done|done|done| |done]. intros id Hn. rewrite view_install; [|try done..].
    case_decide; [|done]. subst. symmetry. by apply view_slot.
  - bool_to_prop. assert (valid_id d (cs_id s)) as Hv by (unfold valid_id; lia).
    destruct (block_off_eq d _ W Hv) as (->&?&?). unfold valid_id in Hv.
    destruct (st_write_ok (g_st d) (g_heap_off d + (cs_id s - 1) * 4096) (cs_data s)) as (b&->&Hb&Hcap&Ho);
      [apply W|lia|lia|]. simpl.
    assert (blkdev_wf (upd_st d b)) as W1.
    { eapply upd_st_wf; eauto. intros k Hk He. by rewrite (Hu ltac:(lia) k Hk He). }
    assert (disk_block b (g_heap_off d) (cs_id s) = cs_data s) as Hdb.
    { rewrite (disk_block_overlay _ _ _ _ _ _ Ho) by done. by rewrite decide_True. }
    assert (blkdev_wf (upd_slot (upd_st d b) i s')) as W'.
    { apply install_slot; try done. }
    eexists. split_and!; [done|done|done| |done].
    intros id Hn. rewrite view_install by done.
    case_decide as He; [subst; symmetry; by apply view_slot|]. unfold view.
    change (cache_find (upd_st d b) id) with (cache_find d id).
    destruct (cache_find d id); [done|]. simpl. rewrite (disk_block_overlay _ _ _ _ _ _ Ho) by done.
    by rewrite decide_False.
Qed.
Lemma victim_from_lt d i n v :
  (i + n = SOTFS_BLKDEV_CACHE_SLOTS)%nat -> (v < SOTFS_BLKDEV_CACHE_SLOTS)%nat ->
  (victim_from d i n v < SOTFS_BLKDEV_CACHE_SLOTS)%nat.
Proof.
  revert i v. induction n as [|n IH]; intros i v Hi Hv; simpl; [done|].
  destruct (_ =? 0); [lia|]. apply IH; [lia|]. destruct (_ <? _); lia.
Qed.

(** The state [cache_acquire] works in: the eviction write-back done, nothing
    visible changed, and slot [i] free to take [id]. *)
Record acquired d (id : Z) (i : nat) (p : bool) d1 : Prop := {
  aq_slot : (i < SOTFS_BLKDEV_CACHE_SLOTS)%nat;
  aq_wf : blkdev_wf d1;
  aq_frame : frame d d1;
  aq_view j : j <> 0 -> view d1 j = view d j;
  aq_only k : (k < SOTFS_BLKDEV_CACHE_SLOTS)%nat -> cs_id (slot_at d1 k) = id -> k = i;
  aq_hit : p = true -> cs_id (slot_at d1 i) = id;
  aq_miss : p = false -> cs_dirty (slot_at d1 i) = false /\ cache_find d1 id = None;
}.

Definition acquired_state d1 (id : Z) (i : nat) (p : bool) : blkdev B :=
  if p then d1 else upd_slot d1 i (mk_slot id false (cs_lru (slot_at d1 i)) (cs_data (slot_at d1 i))).

Lemma acquire_spec d id :
  blkdev_wf d -> valid_id d id ->
  exists i p d1, cache_acquire d id = (i, p, acquired_state d1 id i p) /\ acquired d id i p d1.
Proof.
  intros W Hid. unfold valid_id in Hid. unfold cache_acquire. destruct (cache_find d id) as [i|] eqn:E.
  - pose proof (cache_find_Some _ _ _ E) as [Hi Hs]. exists i, true, d. split; [done|]. constructor; auto with blk; [|done].
    intros k Hk He. assert (id <> 0) as Hn by lia. pose proof (cache_find_is d id k W Hn Hk He). congruence.
  - set (v := victim_from _ _ _ _). assert (v < SOTFS_BLKDEV_CACHE_SLOTS)%nat as Hv.
    { apply victim_from_lt; unfold SOTFS_BLKDEV_CACHE_SLOTS; lia. }
    destruct (writeback_spec d v W Hv) as (d1&->&W1&F&Hview&Hc). simpl. exists v, false, d1.
    assert (forall k, slot_at d1 k = if decide (v = k)
              then mk_slot (cs_id (slot_at d v)) false (cs_lru (slot_at d v)) (cs_data (slot_at d v)) else slot_at d k) as Hsl.
    { intros k. unfold slot_at at 1. rewrite Hc. apply array_get_insert. by rewrite (cw_len _ _ _ _ (bw_cache _ W)). }
    assert (forall k, (k < SOTFS_BLKDEV_CACHE_SLOTS)%nat -> cs_id (slot_at d1 k) <> id) as Hno.
    { intros k Hk. rewrite Hsl. case_decide; simpl; by apply (cache_find_None _ _ _ E). }
    split; [done|]. constructor; auto; [by intros k Hk ?%Hno|done|intros _].
    rewrite Hsl, decide_True by done. split; [done|]. destruct (cache_find d1 id) as [k|] eqn:F'; [|done].
    apply cache_find_Some in F' as [Hk ?]. by destruct (Hno k).
Qed.

Lemma upd_tick_wf d t : blkdev_wf d -> blkdev_wf (upd_tick d t).
Proof. intros []. by constructor. Qed.

(** Filling the acquired slot. *)
Lemma acquired_put d id i p d1 s t :
  acquired d id i p d1 -> valid_id d id -> cs_id s = id -> length (cs_data s) = 4096%nat ->
  (cs_dirty s = false -> cs_data s = disk_block (g_st d1) (g_heap_off d1) id) ->
  let d' := upd_tick (upd_slot (acquired_state d1 id i p) i s) t in
  blkdev_wf d' /\ frame d d' /\ forall j, j <> 0 -> view d' j = if decide (j = id) then cs_data s else view d j.
Proof.
  intros [Hi W1 F Hview Honly Hhit Hmiss] Hid Hs Hl Hclean d'. unfold valid_id in Hid.
  assert (d' = upd_tick (upd_slot d1 i s) t) as ->.
  { unfold d', acquired_state. destruct p; [done|]. unfold upd_slot. simpl. by rewrite list_insert_insert_eq. }
  assert (blkdev_wf (upd_slot d1 i s)) as W2.
  { apply install_slot; rewrite ?Hs; auto. rewrite (fr_total _ _ F). lia. }
  split_and!; [by apply upd_tick_wf|by apply (frame_trans _ d1)|].
  intros j Hj. change (view (upd_tick ?x t) j) with (view x j). rewrite view_install by first [done | destruct p; [rewrite Hhit by done; congruence|intros; by apply Hmiss]].
  rewrite Hs. case_decide; [done|]. by apply Hview.
Qed.

Lemma valid_in_range d blk : blkdev_wf d -> valid_id d blk -> out_of_range d blk = false.
Proof.
  intros W Hv. pose proof (bw_geom _ W) as [? ? ? ? Ht ? ? ?]. unfold valid_id, out_of_range, BLKDEV_BITMAP_MAX in *.
  rewrite u64_small by lia. rewrite Z.gtb_ltb. apply orb_false_iff. rewrite Z.leb_gt, Z.ltb_ge. lia.
Qed.

Lemma invalid_out_of_range d blk :
  blkdev_wf d -> - 2 ^ 31 <= blk < 2 ^ 31 -> ~ valid_id d blk -> out_of_range d blk = true.
Proof.
  intros W Hr Hv. pose proof (bw_geom _ W) as [? ? ? ? Ht ? ? ?]. unfold valid_id, out_of_range, BLKDEV_BITMAP_MAX in *.
  apply orb_true_iff. rewrite Z.gtb_ltb, Z.leb_le, Z.ltb_lt. destruct (decide (blk <= 0)); [by left|right].
  rewrite u64_small; lia.
Qed.

Lemma sotfs_blk_write_spec d blk buf :
  blkdev_wf d -> valid_id d blk -> length buf = 4096%nat ->
  exists d', sotfs_blk_write d blk buf = (0, d') /\ blkdev_wf d' /\ frame d d'
    /\ forall j, j <> 0 -> view d' j = if decide (j = blk) then buf else view d j.
Proof.
  intros W Hv Hl. unfold sotfs_blk_write. rewrite valid_in_range by done.
  destruct (acquire_spec d blk W Hv) as (i&p&d1&->&A). eexists. split; [done|].
  eapply (acquired_put _ _ _ _ _ (mk_slot _ true _ buf)); simpl; eauto; [|done].
  pose proof A as [Hi W1 _ _ _ Hhit _]. unfold acquired_state. destruct p; [auto|].
  rewrite slot_at_upd by (try done; by apply (cw_len _ _ _ _ (bw_cache _ W1))). by case_decide.
Qed.

Lemma sotfs_blk_read_spec d blk :
  blkdev_wf d -> valid_id d blk ->
  exists d', sotfs_blk_read d blk = (0, view d blk, d') /\ blkdev_wf d' /\ frame d d'
    /\ forall j, j <> 0 -> view d' j = view d j.
Proof.
  intros W Hv. unfold sotfs_blk_read. rewrite valid_in_range by done.
  destruct (acquire_spec d blk W Hv) as (i&p&d1&->&A). pose proof A as [Hi W1 F Hview Honly Hhit Hmiss].
  assert (blk <> 0) as Hn by (unfold valid_id in Hv; lia). assert (valid_id d1 blk) as Hv1.
  { unfold valid_id in *. by rewrite (fr_total _ _ F). }
  assert (cs_id (slot_at (acquired_state d1 blk i p) i) = blk) as Hid.
  { unfold acquired_state. destruct p; [auto|].
    rewrite slot_at_upd by (try done; by apply (cw_len _ _ _ _ (bw_cache _ W1))). by case_decide. }
  set (s := slot_at (acquired_state d1 blk i p) i) in *.
  assert ((if p then (0, cs_data s) else st_read (g_st (acquired_state d1 blk i p)) (block_off (acquired_state d1 blk i p) blk) 4096)
          = (0, view d blk)) as ->.
  { rewrite <-Hview by done. destruct p; simpl in *.
    - f_equal. symmetry. by apply view_slot.
    - change (block_off (upd_slot _ _ _) blk) with (block_off d1 blk).
      destruct (block_off_eq d1 blk W1 Hv1) as (->&?&?). unfold valid_id in Hv1. rewrite st_read_ok; [|apply W1|lia..].
      unfold view. destruct Hmiss as [_ ->]; done. }
  simpl. eexists. split; [done|].
  destruct (acquired_put d blk i p d1 (mk_slot (cs_id s) (cs_dirty s) (u64 (g_lru_tick (acquired_state d1 blk i p) + 1)) (view d blk))
              (u64 (g_lru_tick (acquired_state d1 blk i p) + 1)) A Hv Hid) as (?&?&Hj); simpl.
  - by apply view_length.
  - rewrite <-Hview by done. intros Hd. destruct p; simpl in *.
    + rewrite (view_slot d1 blk i) by auto. rewrite <-(Hhit eq_refl).
      apply (cw_clean _ _ _ _ (bw_cache _ W1) i); [by apply slot_lookup|by rewrite Hhit|done].
    + unfold view. by destruct Hmiss as [_ ->].
  - split_and!; [done..|]. intros j Hjn. rewrite Hj by done. case_decide as He; [by rewrite He|done].
Qed.

(** ** Allocation *)

Definition allocated d (id : Z) : bool := bit (g_bitmap d) (id - 1).

Lemma bitmap_index d i :
  blkdev_wf d -> 0 <= i < g_total_blocks d -> i / 8 < Z.of_nat (length (g_bitmap d)).
Proof.
  intros W Hi. rewrite (bw_bitmap _ W). pose proof (geom_total _ _ _ _ _ _ (bw_geom _ W)).
  unfold BLKDEV_BITMAP_MAX in *. apply Z.div_lt_upper_bound; lia.
Qed.

Lemma upd_bitmap_wf d bm used :
  blkdev_wf d -> length bm = Z.to_nat BLKDEV_BITMAP_MAX ->
  used = count_bits bm (Z.to_nat (g_total_blocks d)) -> blkdev_wf (upd_bitmap d bm used true).
Proof. intros [? ? ? ? ? [? ?]] ? ?. constructor; simpl; try assumption. by constructor. Qed.

Lemma sotfs_blk_alloc_spec d id d' :
  blkdev_wf d -> sotfs_blk_alloc d = (id, d') ->
  (id = 0 /\ d' = d /\ (forall k, valid_id d k -> allocated d k = true))
  \/ (valid_id d id /\ allocated d id = false /\ (forall k, 1 <= k < id -> allocated d k = true)
      /\ blkdev_wf d' /\ sotfs_blk_used d' = sotfs_blk_used d + 1 /\ sotfs_blk_total d' = sotfs_blk_total d
      /\ (forall k, 1 <= k -> allocated d' k = if decide (k = id) then true else allocated d k)
      /\ forall k, view d' k = view d k).
Proof.
  intros W. pose proof (geom_total _ _ _ _ _ _ (bw_geom _ W)) as Ht. unfold BLKDEV_BITMAP_MAX in Ht.
  unfold sotfs_blk_alloc, allocated, valid_id, sotfs_blk_used, sotfs_blk_total. destruct (first_below _ _) as [i|] eqn:E; intros [= <- <-].
  - right. apply first_below_Some in E as (Hi&Hb&Hlow). rewrite bit_get_0 in Hb by lia. bool_to_prop.
    assert (i32 (Z.of_nat i + 1) = Z.of_nat i + 1) as ->.
    { unfold i32. rewrite u32_small by lia. destruct (_ <? _) eqn:E; bool_to_prop; lia. }
    rewrite Z.add_simpl_r. pose proof (bitmap_index d (Z.of_nat i) W) as Hidx.
    assert (forall j, 0 <= j -> bit (bit_set (g_bitmap d) (Z.of_nat i)) j = if bool_decide (j = Z.of_nat i) then true else bit (g_bitmap d) j) as Hset.
    { intros j Hj. apply bit_set_spec; lia. }
    pose proof (count_bits_flip _ _ i (Z.to_nat (g_total_blocks d)) true Hi Hset) as Hcnt.
    rewrite Hb in Hcnt. simpl Z.b2z in Hcnt. pose proof (bw_used _ W) as Hu.
    pose proof (count_bits_range (g_bitmap d) (Z.to_nat (g_total_blocks d))).
    assert (u64 (g_used d + 1) = g_used d + 1) as Hu64 by (apply u64_small; lia).
    split_and!; try lia; try done.
    + intros k Hk. specialize (Hlow (Z.to_nat (k - 1))). rewrite bit_get_0, Z2Nat.id in Hlow by lia.
      apply negb_false_iff, Hlow. lia.
    + apply upd_bitmap_wf; [done| |lia]. unfold bit_set. rewrite length_insert. apply W.
    + intros k Hk. simpl. rewrite Hset by lia. case_bool_decide; case_decide; try done; lia.
  - left. split_and!; [done..|]. intros k Hk. pose proof (first_below_None _ _ (Z.to_nat (k - 1)) E) as Hf. simpl in Hf.
    rewrite bit_get_0, Z2Nat.id in Hf by lia. apply negb_false_iff, Hf. lia.
Qed.

Lemma sotfs_blk_free_spec d id :
  blkdev_wf d -> valid_id d id -> allocated d id = true ->
  let d' := sotfs_blk_free d id in
  blkdev_wf d' /\ sotfs_blk_used d' = sotfs_blk_used d - 1 /\ sotfs_blk_total d' = sotfs_blk_total d
  /\ (forall k, 1 <= k -> allocated d' k = if decide (k = id) then false else allocated d k)
  /\ forall k, k <> 0 -> k <> id -> view d' k = view d k.
Proof.
  intros W Hv Ha. unfold sotfs_blk_free. rewrite valid_in_range by done. unfold allocated, valid_id, sotfs_blk_used, sotfs_blk_total in *.
  pose proof (geom_total _ _ _ _ _ _ (bw_geom _ W)) as Ht. unfold BLKDEV_BITMAP_MAX in Ht.
  rewrite (u64_small (id - 1)) by lia. rewrite bit_get_0 by lia. rewrite Ha. simpl.
  pose proof (bitmap_index d (id - 1) W) as Hidx.
  assert (forall j, 0 <= j -> bit (bit_clr (g_bitmap d) (id - 1)) j = if bool_decide (j = Z.of_nat (Z.to_nat (id - 1))) then false else bit (g_bitmap d) j) as Hclr.
  { intros j Hj. rewrite Z2Nat.id by lia. apply bit_clr_spec; lia. }
  assert (Z.to_nat (id - 1) < Z.to_nat (g_total_blocks d))%nat as Hlt by lia.
  pose proof (count_bits_flip _ _ _ (Z.to_nat (g_total_blocks d)) false Hlt Hclr) as Hcnt.
  rewrite Z2Nat.id, Ha in Hcnt by lia. simpl Z.b2z in Hcnt. pose proof (bw_used _ W) as Hu.
  pose proof (count_bits_range (bit_clr (g_bitmap d) (id - 1)) (Z.to_nat (g_total_blocks d))).
  assert ((if g_used d =? 0 then 0 else g_used d - 1) = g_used d - 1) as -> by (destruct (_ =? 0) eqn:E; bool_to_prop; lia).
  set (d1 := upd_bitmap d _ _ true).
  assert (blkdev_wf d1) as W1.
  { apply upd_bitmap_wf; [done| |lia]. unfold bit_clr. rewrite length_insert. apply W. }
  assert (forall k, 1 <= k -> bit (bit_clr (g_bitmap d) (id - 1)) (k - 1) = if decide (k = id) then false else bit (g_bitmap d) (k - 1)) as Hbits.
  { intros k Hk. rewrite Hclr by lia. case_bool_decide; case_decide; try done; lia. }
  destruct (cache_find d1 id) as [i|] eqn:E; simpl; [|by split_and!].
  pose proof (cache_find_Some _ _ _ E) as [Hi Hid].
  set (s := mk_slot 0 false _ _). assert (blkdev_wf (upd_slot d1 i s)) as W2.
  { apply install_slot; try done; [|simpl; lia]. simpl. apply (cw_data _ _ _ _ (bw_cache _ W1) i). by apply slot_lookup. }
  split_and!; try done. intros k Hk Hne. rewrite view_install; [|try done..].
  - rewrite decide_False by (simpl; lia). done.
  - rewrite Hid. intros ->. done.
Qed.
(** ** Flush *)

Lemma cache_wf_ext b b' heap total c :
  (forall id, 1 <= id <= total -> disk_block b' heap id = disk_block b heap id) ->
  cache_wf b heap total c -> cache_wf b' heap total c.
Proof.
  intros He [Cl Cd Ci Cu Cc]. constructor; try assumption. intros i s Hs Hn Hd. specialize (Ci _ _ Hs).
  rewrite He by lia. eauto.
Qed.

(** The content depends on the cache and the medium's blocks only. *)
Lemma view_ext d d' id :
  g_cache d' = g_cache d -> g_heap_off d' = g_heap_off d ->
  disk_block (g_st d') (g_heap_off d) id = disk_block (g_st d) (g_heap_off d) id -> view d' id = view d id.
Proof. intros Hc Hh Hd. unfold view, cache_find, slot_at. by rewrite Hc, Hh, Hd. Qed.

Lemma writeback_all_spec n d :
  blkdev_wf d -> (n <= SOTFS_BLKDEV_CACHE_SLOTS)%nat ->
  let d' := fold_left (fun d i => (slot_writeback d i).2) (seq 0 n) d in
  blkdev_wf d' /\ frame d d' /\ (forall id, id <> 0 -> view d' id = view d id)
  /\ forall i, (i < n)%nat -> cs_dirty (slot_at d' i) = false.
Proof.
  intros W. induction n as [|n IH]; intros Hn; [simpl; split_and!; auto with blk lia|].
  cbv zeta. rewrite seq_S, fold_left_app. destruct (IH ltac:(lia)) as (W1&F1&V1&C1). simpl.
  set (d1 := fold_left _ (seq 0 n) d) in *.
  destruct (writeback_spec d1 n W1 ltac:(lia)) as (d2&->&W2&F2&V2&Hc). simpl. split_and!; [done| | |].
  - by apply (frame_trans _ d1).
  - intros id Hid. by rewrite V2, V1.
  - intros i Hi. unfold slot_at. rewrite Hc, array_get_insert by (rewrite (cw_len _ _ _ _ (bw_cache _ W1)); lia).
    case_decide; [done|]. apply C1. lia.
Qed.

(** The bitmap write leaves the superblock and the blocks alone. *)
Lemma bitmap_flush_spec d :
  blkdev_wf d ->
  exists b, bitmap_flush d = (0, upd_bitmap (upd_st d b) (g_bitmap d) (g_used d) false)
    /\ blkdev_wf (upd_bitmap (upd_st d b) (g_bitmap d) (g_used d) false)
    /\ capacity_bytes b = capacity_bytes (g_st d)
    /\ forall id, valid_id d id -> disk_block b (g_heap_off d) id = disk_block (g_st d) (g_heap_off d) id.
Proof.
  intros W. pose proof W as [Wst Hg Hbm Hu Hc [Ms Mb]]. pose proof (bm_phys_spec _ _ _ _ _ _ Hg) as (Hp&Hp'&_).
  pose proof Hg as [? ? ? ? ? ? ? ?]. pose proof (rup_bounds (g_bitmap_bytes d)). unfold bitmap_flush, valid_id.
  set (bytes := take _ _). assert (length bytes = Z.to_nat (bm_phys (g_bitmap_bytes d))) as Hl.
  { unfold bytes. rewrite length_take, Hbm. lia. }
  destruct (st_write_ok (g_st d) (g_bitmap_off d) bytes) as (b&->&Hb&Hcap&Ho); [done|lia|lia|]. simpl.
  assert (forall id, valid_id d id -> disk_block b (g_heap_off d) id = disk_block (g_st d) (g_heap_off d) id) as Hdb.
  { intros id Hid. unfold valid_id in Hid. unfold disk_block. rewrite (slice_ext _ _ _ _ (fun o _ => Ho o)).
    apply slice_overlay_ne. lia. }
  exists b. split_and!; [done| |done|done]. constructor; simpl; rewrite ?Hcap; try assumption.
  - by eapply cache_wf_ext.
  - constructor.
    + rewrite (slice_ext _ _ _ _ (fun o _ => Ho o)), slice_overlay_ne by lia. done.
    + intros _. rewrite (slice_ext _ _ _ _ (fun o _ => Ho o)). rewrite <-Hl at 1. apply slice_overlay.
Qed.

(** Steps that move data to the medium and change nothing a client sees. *)
Record synced d d' : Prop := {
  sy_wf : blkdev_wf d';
  sy_view id : valid_id d id -> view d' id = view d id;
  sy_bitmap : g_bitmap d' = g_bitmap d;
  sy_used : g_used d' = g_used d;
  sy_region : g_region_off d' = g_region_off d;
  sy_total : g_total_blocks d' = g_total_blocks d;
  sy_bitmap_off : g_bitmap_off d' = g_bitmap_off d;
  sy_bytes : g_bitmap_bytes d' = g_bitmap_bytes d;
  sy_heap : g_heap_off d' = g_heap_off d;
  sy_cap : capacity_bytes (g_st d') = capacity_bytes (g_st d);
}.

Lemma synced_trans d1 d2 d3 : synced d1 d2 -> synced d2 d3 -> synced d1 d3.
Proof.
  intros [_ V1 ? ? ? T1 ? ? ? ?] [? V2 ? ? ? ? ? ? ? ?]. constructor; try congruence.
  intros id Hid. rewrite V2; [auto|]. unfold valid_id in *. by rewrite T1.
Qed.

Lemma writeback_all_synced d :
  blkdev_wf d ->
  let d' := fold_left (fun d i => (slot_writeback d i).2) (seq 0 SOTFS_BLKDEV_CACHE_SLOTS) d in
  synced d d' /\ forall i, (i < SOTFS_BLKDEV_CACHE_SLOTS)%nat -> cs_dirty (slot_at d' i) = false.
Proof.
  intros W. destruct (writeback_all_spec SOTFS_BLKDEV_CACHE_SLOTS d W (le_n _)) as (W1&F1&V1&C1).
  split; [|done]. pose proof F1 as []. constructor; try assumption. intros id Hid. apply V1. unfold valid_id in Hid. lia.
Qed.

Lemma bitmap_stage_synced d :
  blkdev_wf d ->
  let d' := if g_bitmap_dirty d then (bitmap_flush d).2 else d in
  synced d d' /\ g_bitmap_dirty d' = false /\ g_cache d' = g_cache d.
Proof.
  intros W. destruct (g_bitmap_dirty d) eqn:E; cbv zeta.
  - destruct (bitmap_flush_spec d W) as (b&->&W2&Hcap&Hdb). simpl. split_and!; [|reflexivity..].
    constructor; try reflexivity; try assumption. intros id Hid. apply view_ext; [reflexivity..|]. by apply Hdb.
  - split_and!; [|assumption|reflexivity]. by constructor.
Qed.

Lemma medium_stage_synced d :
  blkdev_wf d ->
  let d' := if g_attached d then upd_st d (flush (g_st d)).2 else d in
  synced d d' /\ g_bitmap_dirty d' = g_bitmap_dirty d
  /\ forall id, disk_block (g_st d') (g_heap_off d') id = disk_block (g_st d) (g_heap_off d) id.
Proof.
  intros W. destruct (g_attached d); cbv zeta; [|by split_and!; [constructor|..]].
  destruct (flush_spec (g_st d) (bw_st _ W)) as (b&->&Hb&Hcap&Ho). simpl.
  assert (forall id, disk_block b (g_heap_off d) id = disk_block (g_st d) (g_heap_off d) id) as Hdb.
  { intros id. apply slice_ext. auto. }
  split_and!; [|reflexivity|done]. constructor; try reflexivity; try assumption.
  - pose proof W as [? ? ? ? ? [Ms Mb]]. constructor; simpl; rewrite ?Hcap; try assumption; [apply (cache_wf_ext (g_st d)); auto|].
    constructor; [by rewrite (slice_ext _ _ _ _ (fun o _ => Ho o))|intros Hd; rewrite (slice_ext _ _ _ _ (fun o _ => Ho o)); auto].
  - intros id Hid. by apply view_ext.
Qed.

(** What a flush guarantees: the content stays, every block and the bitmap are on the medium. *)
Lemma sotfs_blk_flush_spec d :
  blkdev_wf d ->
  synced d (sotfs_blk_flush d) /\ g_bitmap_dirty (sotfs_blk_flush d) = false
  /\ forall id, valid_id d id ->
       disk_block (g_st (sotfs_blk_flush d)) (g_heap_off (sotfs_blk_flush d)) id = view d id.
Proof.
  intros W. unfold sotfs_blk_flush. destruct (writeback_all_synced d W) as [S1 C1].
  generalize dependent (fold_left (fun d i => (slot_writeback d i).2) (seq 0 SOTFS_BLKDEV_CACHE_SLOTS) d).
  intros d1 S1 C1. destruct (bitmap_stage_synced d1 (sy_wf _ _ S1)) as (S2&B2&K2).
  generalize dependent (if g_bitmap_dirty d1 then (bitmap_flush d1).2 else d1). intros d2 S2 B2 K2.
  destruct (medium_stage_synced d2 (sy_wf _ _ S2)) as (S3&B3&D3). pose proof (synced_trans _ _ _ S1 S2) as S12.
  split_and!; [by apply (synced_trans _ d2)|congruence|]. intros id Hid. rewrite D3, <-(sy_view _ _ S12) by done.
  unfold view. destruct (cache_find d2 id) as [i|] eqn:F; [|done].
  pose proof (cache_find_Some _ _ _ F) as [Hi Hs]. unfold valid_id in Hid. subst id. symmetry.
  pose proof (sy_wf _ _ S2) as W2. apply (cw_clean _ _ _ _ (bw_cache _ W2) i); [by apply slot_lookup|lia|].
  unfold slot_at. rewrite K2. by apply C1.
Qed.
End ops.
