(* ===== verification/BlkdevTheorems.v ===== *)
(** * Theorems of the block store

    [spec_step] is the abstract block store: a set of allocated ids and the
    content written to each, with no cache and no layout.  The theorems show that
    every run of the store of blkdev.c, over every lawful medium, is a run of the
    abstract store ([blk_refines]), that a flushed store survives being attached
    again ([blk_remount]), and how the region is laid out ([blk_geometry]). *)

From S2P Require Import Prelude Storage Blkdev BlkdevSpec.

#[local] Opaque slice superblock Z.to_nat Z.pow.

Section init.
Context {B : Type} `{StorageLaws B}.
Implicit Types (d : blkdev B) (b : B).

Definition no_cache : list cache_slot_t := replicate SOTFS_BLKDEV_CACHE_SLOTS empty_slot.
Definition no_bits : list Z := replicate (Z.to_nat BLKDEV_BITMAP_MAX) 0.

Lemma no_cache_wf b heap total : 0 < total -> cache_wf b heap total no_cache.
Proof.
  intros Ht. assert (forall i s, no_cache !! i = Some s -> s = empty_slot) as Hs.
  { intros i s [-> _]%lookup_replicate. done. }
  constructor; [apply length_replicate|..].
  - intros i s ->%Hs. apply length_replicate.
  - intros i s ->%Hs. simpl. lia.
  - intros i j s t ->%Hs _ Hn. done.
  - intros i s ->%Hs Hn. done.
Qed.

Lemma no_cache_find d id : g_cache d = no_cache -> id <> 0 -> cache_find d id = None.
Proof.
  intros Hc Hid. destruct (cache_find d id) as [i|] eqn:E; [|done]. apply cache_find_Some in E as [Hi E].
  unfold slot_at in E. rewrite Hc in E. unfold no_cache in E. rewrite lookup_replicate_2 in E by done. by simpl in E.
Qed.

Lemma no_bits_bit i : bit no_bits i = false.
Proof.
  unfold bit, no_bits. destruct (_ !! _) as [x|] eqn:E; simpl; [|apply Z.testbit_0_l].
  apply lookup_replicate in E as [-> _]. apply Z.testbit_0_l.
Qed.

Lemma no_bits_count n : count_bits no_bits n = 0.
Proof. induction n as [|n IH]; simpl; [done|]. by rewrite IH, no_bits_bit. Qed.

(** The freshly computed layout, before any block is touched. *)
Record laid_out d : Prop := {
  lo_st : storage_wf (g_st d);
  lo_geom : geom_wf (g_region_off d) (g_total_blocks d) (g_bitmap_off d) (g_bitmap_bytes d) (g_heap_off d)
              (capacity_bytes (g_st d));
  lo_cache : g_cache d = no_cache;
  lo_dirty : g_bitmap_dirty d = false;
}.

Lemma length_sb_bytes m v t n : length (sb_bytes m v t n) = 24%nat.
Proof. unfold sb_bytes. by rewrite !length_app, !length_le_bytes. Qed.

Lemma length_superblock t n : length (superblock t n) = 4096%nat.
Proof.
  Transparent superblock. unfold superblock. rewrite length_app, length_replicate, length_sb_bytes. lia.
Qed.
#[local] Opaque superblock.

Lemma format_spec d :
  laid_out d ->
  exists d', format d = (0, d') /\ blkdev_wf d' /\ g_used d' = 0
    /\ g_region_off d' = g_region_off d /\ g_total_blocks d' = g_total_blocks d
    /\ g_bitmap_off d' = g_bitmap_off d /\ g_bitmap_bytes d' = g_bitmap_bytes d /\ g_heap_off d' = g_heap_off d
    /\ capacity_bytes (g_st d') = capacity_bytes (g_st d) /\ (forall k, allocated d' k = false)
    /\ forall k, valid_id d' k -> view d' k = disk_block (g_st d) (g_heap_off d) k.
Proof.
  intros [Hst Hg Hc Hd]. pose proof (bm_phys_spec _ _ _ _ _ _ Hg) as (Hp&Hp'&_). pose proof Hg as [? ? ? ? ? ? ? ?].
  pose proof (rup_bounds (g_bitmap_bytes d)). unfold format. cbv zeta. fold no_bits.
  change (sb_bytes _ _ ?t ?n ++ replicate _ 0) with (superblock t n). cbn [upd_bitmap g_st g_region_off g_total_blocks g_bitmap_bytes].
  destruct (st_write_ok (g_st d) (g_region_off d) (superblock (g_total_blocks d) (g_bitmap_bytes d))) as (b1&->&Hb1&Hcap1&Ho1);
    [done|lia|rewrite length_superblock; lia|].
  rewrite Z.eqb_refl. cbn [negb upd_st upd_bitmap g_st g_bitmap_off g_bitmap_bytes].
  set (bytes := take _ no_bits). assert (length bytes = Z.to_nat (bm_phys (g_bitmap_bytes d))) as Hl.
  { unfold bytes, no_bits. rewrite length_take, length_replicate. unfold BLKDEV_BITMAP_MAX in *. lia. }
  destruct (st_write_ok b1 (g_bitmap_off d) bytes) as (b2&->&Hb2&Hcap2&Ho2); [done|lia|rewrite Hcap1; lia|].
  eexists. split; [reflexivity|]. cbn [upd_st upd_bitmap g_st g_used g_region_off g_total_blocks g_bitmap_off g_bitmap_bytes g_heap_off].
  assert (forall k, 1 <= k -> disk_block b2 (g_heap_off d) k = disk_block (g_st d) (g_heap_off d) k) as Hheap.
  { intros k Hk. unfold disk_block. rewrite (slice_ext _ _ _ _ (fun o _ => Ho2 o)), slice_overlay_ne by lia.
    rewrite (slice_ext _ _ _ _ (fun o _ => Ho1 o)). apply slice_overlay_ne. rewrite length_superblock. lia. }
  split_and!; try reflexivity; [|congruence|intros k; apply no_bits_bit|].
  2: { intros k Hk. unfold valid_id in Hk. unfold view. rewrite no_cache_find by (done || lia). apply Hheap. lia. }
  constructor; cbn [upd_st upd_bitmap g_st g_used g_region_off g_total_blocks g_bitmap_off g_bitmap_bytes g_heap_off g_bitmap g_cache g_bitmap_dirty];
    rewrite ?Hcap2, ?Hcap1; try assumption.
  - apply length_replicate.
  - by rewrite no_bits_count.
  - rewrite Hc. apply no_cache_wf. lia.
  - constructor.
    + rewrite (slice_ext _ _ _ _ (fun o _ => Ho2 o)), slice_overlay_ne by lia.
      rewrite (slice_ext _ _ _ _ (fun o _ => Ho1 o)).
      rewrite <-(length_superblock (g_total_blocks d) (g_bitmap_bytes d)). apply slice_overlay.
    + intros _. rewrite (slice_ext _ _ _ _ (fun o _ => Ho2 o)). rewrite <-Hl at 1. apply slice_overlay.
Qed.

Lemma superblock_fields t n :
  0 <= t < 2 ^ 64 ->
  sb_magic (superblock t n) = SOTFS_BLKDEV_MAGIC /\ sb_version (superblock t n) = SOTFS_BLKDEV_VERSION
  /\ sb_total_blocks (superblock t n) = t.
Proof.
  Transparent superblock. intros Ht. unfold sb_magic, sb_version, sb_total_blocks, superblock, sb_bytes.
  rewrite <-!app_assoc. split_and!; [reflexivity|reflexivity|].
  change 8%nat with (length (le_bytes 4 SOTFS_BLKDEV_MAGIC ++ le_bytes 4 SOTFS_BLKDEV_VERSION)) at 2.
  rewrite (app_assoc (le_bytes 4 _)), drop_app_length. rewrite <-(length_le_bytes 8 t) at 1. rewrite take_app_length.
  apply le_val_bytes. done.
Qed.
#[local] Opaque superblock.

(** The bitmap read back: [bm] where the medium holds it, zero beyond. *)
Definition reread (d : blkdev B) : list Z :=
  write_list no_bits 0 (take (Z.to_nat (bm_phys (g_bitmap_bytes d))) (g_bitmap d)).

Lemma reread_bit d i : blkdev_wf d -> 0 <= i < g_total_blocks d -> bit (reread d) i = bit (g_bitmap d) i.
Proof.
  intros W Hi. pose proof (bm_phys_spec _ _ _ _ _ _ (bw_geom _ W)) as (Hp&_&Ht). pose proof (bw_bitmap _ W) as Hbm.
  unfold bit, reread. f_equal. unfold BLKDEV_BITMAP_MAX in *. pose proof (Z.div_pos i 8). pose proof (Z.div_lt_upper_bound i 8 (bm_phys (g_bitmap_bytes d))).
  set (n := Z.to_nat (bm_phys (g_bitmap_bytes d))) in *.
  assert (length (take n (g_bitmap d)) = n) as Hl by (rewrite length_take; lia).
  rewrite write_list_get by (unfold no_bits; rewrite length_replicate; unfold BLKDEV_BITMAP_MAX; lia).
  rewrite decide_True by lia. rewrite Nat.sub_0_r, lookup_take_lt by lia. done.
Qed.

Lemma attach_spec d0 d :
  laid_out d -> blkdev_wf d0 -> g_bitmap_dirty d0 = false -> g_st d = g_st d0 ->
  g_region_off d = g_region_off d0 -> g_total_blocks d = g_total_blocks d0 -> g_bitmap_off d = g_bitmap_off d0 ->
  g_bitmap_bytes d = g_bitmap_bytes d0 -> g_heap_off d = g_heap_off d0 ->
  attach d = (0, upd_bitmap d (reread d0) (g_used d0) false) /\ blkdev_wf (upd_bitmap d (reread d0) (g_used d0) false).
Proof.
  intros [Hst Hg Hc Hd] W Hcl Est Er Et Eo Eb Eh. pose proof W as [_ _ Hbm Hu _ [Ms Mb]].
  pose proof (bm_phys_spec _ _ _ _ _ _ Hg) as (Hp&Hp'&_). pose proof Hg as [? ? ? ? Ht ? ? ?].
  pose proof (rup_bounds (g_bitmap_bytes d)). unfold BLKDEV_BITMAP_MAX in *.
  destruct (superblock_fields (g_total_blocks d) (g_bitmap_bytes d)) as (Hm&Hv&Htot).
  { change (2 ^ 64) with 18446744073709551616. lia. }
  specialize (Mb Hcl). rewrite <-Est, <-Er, <-Et, <-Eb in Ms. rewrite <-Est, <-Eo, <-Eb in Mb.
  assert (count_bits (reread d0) (Z.to_nat (g_total_blocks d)) = g_used d0) as Hcnt.
  { rewrite Hu, Et. apply count_bits_ext. intros j Hj. apply reread_bit; [done|lia]. }
  assert (length (reread d0) = Z.to_nat 16384) as Hlen.
  { unfold reread, no_bits, BLKDEV_BITMAP_MAX. rewrite length_write_list; [by rewrite length_replicate|].
    rewrite length_replicate, length_take. rewrite <-Eb. lia. }
  unfold attach. rewrite st_read_ok, Ms, Hm, Hv, Htot, !Z.eqb_refl by (try assumption; lia). cbn [negb orb].
  rewrite st_read_ok, Mb, Z.eqb_refl by (try assumption; lia). cbn [negb]. fold no_bits. rewrite Eb. fold (reread d0).
  change (2 ^ 62) with 4611686018427387904 in *.
  rewrite bitmap_popcount_spec, Hcnt, Hd by (change (2 ^ 62) with 4611686018427387904; lia). split; [reflexivity|].
  constructor; cbn [upd_bitmap g_st g_used g_region_off g_total_blocks g_bitmap_off g_bitmap_bytes g_heap_off g_bitmap g_cache g_bitmap_dirty];
    try assumption; try (symmetry; assumption).
  - rewrite Hc. apply no_cache_wf. lia.
  - constructor; [assumption|]. intros _. rewrite Mb. unfold reread, write_list. rewrite <-Eb. simpl.
    rewrite take_app_le, take_take, Nat.min_id; [done|]. rewrite length_take. lia.
Qed.
End init.

(** ** Mounting *)

Section mount.
Context {B : Type} `{StorageLaws B}.
Implicit Types (d : blkdev B) (b : B).

(** The layout [compute_geometry] gives a region. *)
Definition same_layout d (ro rb : Z) : Prop :=
  let g := compute_geometry (blkdev_boot (g_st d)) ro rb in
  g_region_off d = ro /\ g_total_blocks d = g_total_blocks g /\ g_bitmap_off d = g_bitmap_off g
  /\ g_bitmap_bytes d = g_bitmap_bytes g /\ g_heap_off d = g_heap_off g.

(** A region the store can live in: inside the medium, with room for a block. *)
Definition usable b (ro rb : Z) : Prop :=
  storage_wf b /\ 0 <= ro /\ 12288 <= rb /\ ro + rb <= capacity_bytes b.

(** The state [sotfs_blkdev_init] reaches before it formats or attaches. *)
Definition init_state d0 b (ro rb : Z) : blkdev B :=
  let d := mk_blkdev b true (g_region_off d0) (g_total_blocks d0) (g_bitmap_off d0) (g_bitmap_bytes d0)
             (g_heap_off d0) (g_used d0) (g_bitmap_dirty d0) (g_bitmap d0) (g_cache d0) (g_lru_tick d0) in
  let d := upd_cache (compute_geometry d ro rb) no_cache in
  upd_bitmap (upd_tick d 0) (g_bitmap d) (g_used d) false.

Lemma geometry_fields d d' ro rb :
  g_total_blocks (compute_geometry d ro rb) = g_total_blocks (compute_geometry d' ro rb)
  /\ g_bitmap_off (compute_geometry d ro rb) = g_bitmap_off (compute_geometry d' ro rb)
  /\ g_bitmap_bytes (compute_geometry d ro rb) = g_bitmap_bytes (compute_geometry d' ro rb)
  /\ g_heap_off (compute_geometry d ro rb) = g_heap_off (compute_geometry d' ro rb)
  /\ g_region_off (compute_geometry d ro rb) = ro /\ g_st (compute_geometry d ro rb) = g_st d.
Proof. unfold compute_geometry. destruct (geometry_loop _ _ _). done. Qed.

Lemma init_state_layout d0 b ro rb fresh :
  usable b ro rb ->
  laid_out (init_state d0 b ro rb) /\ g_st (init_state d0 b ro rb) = b
  /\ same_layout (init_state d0 b ro rb) ro rb
  /\ sotfs_blkdev_init d0 (Some b) ro rb fresh
     = if fresh || (let '(pr, probe) := st_read b ro 4096 in (pr =? 0) && negb (sb_magic probe =? SOTFS_BLKDEV_MAGIC))
       then format (init_state d0 b ro rb) else attach (init_state d0 b ro rb).
Proof.
  intros (Hb&Hro&Hrb&Hcap). unfold sotfs_blkdev_init, init_state. set (d := mk_blkdev b _ _ _ _ _ _ _ _ _ _ _).
  pose proof (capacity_range b Hb) as Hc. pose proof (geometry_fields d (blkdev_boot b) ro rb) as (E1&E2&E3&E4&E5&E6).
  destruct (compute_geometry_spec d ro rb) as (Hg&Ht0&Hmax); [lia..|].
  assert (0 < g_total_blocks (compute_geometry d ro rb)) as Ht.
  { specialize (Hmax 1). change (footprint 1) with 8192 in Hmax. unfold BLKDEV_BITMAP_MAX in Hmax. lia. }
  specialize (Hg Ht). set (g := compute_geometry d ro rb) in *. clearbody g. cbv zeta.
  rewrite (proj2 (Z.eqb_neq _ _)) by lia.
  cbn [upd_bitmap upd_tick upd_cache g_st]. rewrite E6. split_and!; [|reflexivity| |reflexivity].
  - constructor; cbn [upd_bitmap upd_tick upd_cache g_st g_region_off g_total_blocks g_bitmap_off g_bitmap_bytes g_heap_off g_cache g_bitmap_dirty];
      rewrite ?E6, ?E5; try assumption; try reflexivity.
    destruct Hg as [? ? ? ? ? ? ? ?]. simpl. constructor; try assumption; lia.
  - unfold same_layout. cbn [upd_bitmap upd_tick upd_cache g_st g_region_off g_total_blocks g_bitmap_off g_bitmap_bytes g_heap_off].
    rewrite E6. done.
Qed.

(** Formatting a usable region gives a well-formed, empty store. *)
Lemma init_fresh_spec d0 b ro rb :
  usable b ro rb ->
  exists d, sotfs_blkdev_init d0 (Some b) ro rb true = (0, d) /\ blkdev_wf d /\ same_layout d ro rb
    /\ (forall k, allocated d k = false) /\ capacity_bytes (g_st d) = capacity_bytes b
    /\ forall k, valid_id d k -> view d k = disk_block b (g_heap_off d) k.
Proof.
  intros Hu. destruct (init_state_layout d0 b ro rb true Hu) as (Hl&Est&Hs&->). simpl.
  destruct (format_spec _ Hl) as (d&->&W&_&E1&E2&E3&E4&E5&Ec&Ha&Hv). exists d. split_and!; [done..| |done| |].
  - destruct Hs as (S1&S2&S3&S4&S5). unfold same_layout.
    pose proof (geometry_fields (blkdev_boot (g_st d)) (blkdev_boot (g_st (init_state d0 b ro rb))) ro rb) as (F1&F2&F3&F4&_).
    cbv zeta. rewrite F1, F2, F3, F4. split_and!; congruence.
  - by rewrite Ec, Est.
  - intros k Hk. rewrite Hv by done. by rewrite Est, E5.
Qed.

(** Attaching the medium of a flushed store gives back its content and bitmap. *)
Lemma init_attach_spec d0 d ro rb :
  usable (g_st d) ro rb -> blkdev_wf d -> same_layout d ro rb -> g_bitmap_dirty d = false ->
  exists d', sotfs_blkdev_init d0 (Some (g_st d)) ro rb false = (0, d') /\ blkdev_wf d' /\ same_layout d' ro rb
    /\ g_used d' = g_used d /\ g_total_blocks d' = g_total_blocks d
    /\ (forall k, valid_id d k -> allocated d' k = allocated d k)
    /\ forall k, valid_id d k -> view d' k = disk_block (g_st d) (g_heap_off d) k.
Proof.
  intros Hu W Hs Hcl. destruct (init_state_layout d0 (g_st d) ro rb false Hu) as (Hl&Est&Hs'&->).
  destruct Hs as (S1&S2&S3&S4&S5). destruct Hs' as (T1&T2&T3&T4&T5). rewrite Est in T2, T3, T4, T5.
  pose proof W as [Wst Wg _ _ _ [Ms _]]. pose proof Wg as [? ? ? ? Ht ? ? ?]. pose proof (rup_bounds (g_bitmap_bytes d)).
  rewrite S1 in *. unfold BLKDEV_BITMAP_MAX in *.
  destruct (superblock_fields (g_total_blocks d) (g_bitmap_bytes d)) as (Hm&_).
  { change (2 ^ 64) with 18446744073709551616. lia. }
  rewrite st_read_ok, Ms, Hm, !Z.eqb_refl by (try assumption; lia). cbn [negb andb orb].
  destruct (attach_spec d (init_state d0 (g_st d) ro rb)) as [-> W']; [congruence..|].
  eexists. split; [reflexivity|]. split_and!; try assumption; try reflexivity.
  - unfold same_layout. cbn [upd_bitmap g_st g_region_off g_total_blocks g_bitmap_off g_bitmap_bytes g_heap_off]. rewrite Est. split_and!; assumption.
  - cbn [upd_bitmap g_total_blocks]. congruence.
  - intros k Hk. unfold allocated, valid_id in *. apply reread_bit; [done|lia].
  - intros k Hk. unfold valid_id in Hk. unfold view. rewrite no_cache_find; [|apply Hl|lia].
    cbn [upd_bitmap g_st g_heap_off]. rewrite Est. f_equal. congruence.
Qed.
End mount.

(** ** The abstract block store *)

Inductive blk_op :=
| Alloc
| Free (id : Z)
| Read (id : Z)
| Write (id : Z) (buf : list Z)
| Flush.

Inductive blk_out :=
| OutId (id : Z)
| OutNone
| OutStatus (r : Z)
| OutData (r : Z) (data : list Z).

Record spec := mk_spec {
  sp_total : Z;
  sp_alloc : gset Z;
  sp_data : gmap Z (list Z);
}.

Definition sp_range (a : spec) (id : Z) : Prop := 1 <= id <= sp_total a.

(** One operation of the store, with its result.  A read of a block nobody wrote
    returns some block, the same one until the next write. *)
Inductive spec_step (a : spec) : blk_op -> blk_out -> spec -> Prop :=
| SAlloc id :
    sp_range a id -> id ∉ sp_alloc a -> (forall k, 1 <= k < id -> k ∈ sp_alloc a) ->
    spec_step a Alloc (OutId id) (mk_spec (sp_total a) ({[id]} ∪ sp_alloc a) (sp_data a))
| SFull : (forall k, sp_range a k -> k ∈ sp_alloc a) -> spec_step a Alloc (OutId 0) a
| SFree id : id ∈ sp_alloc a ->
    spec_step a (Free id) OutNone (mk_spec (sp_total a) (sp_alloc a ∖ {[id]}) (delete id (sp_data a)))
| SFreeNone id : id ∉ sp_alloc a -> spec_step a (Free id) OutNone a
| SWrite id buf : sp_range a id ->
    spec_step a (Write id buf) (OutStatus 0) (mk_spec (sp_total a) (sp_alloc a) (<[id := buf]> (sp_data a)))
| SWriteBad id buf : ~ sp_range a id -> spec_step a (Write id buf) (OutStatus (-22)) a
| SRead id v : sp_range a id -> length v = 4096%nat -> (forall w, sp_data a !! id = Some w -> v = w) ->
    spec_step a (Read id) (OutData 0 v) (mk_spec (sp_total a) (sp_alloc a) (<[id := v]> (sp_data a)))
| SReadBad id : ~ sp_range a id -> spec_step a (Read id) (OutData (-22) []) a
| SFlush : spec_step a Flush OutNone a.

Inductive spec_run : spec -> list blk_op -> list blk_out -> spec -> Prop :=
| SNil a : spec_run a [] [] a
| SCons a1 a2 a3 op o ops os :
    spec_step a1 op o a2 -> spec_run a2 ops os a3 -> spec_run a1 (op :: ops) (o :: os) a3.

(** Arguments of the C types: block ids are [int], buffers 4096 bytes. *)
Definition op_ok (op : blk_op) : Prop :=
  match op with
  | Free id | Read id => - 2 ^ 31 <= id < 2 ^ 31
  | Write id buf => - 2 ^ 31 <= id < 2 ^ 31 /\ length buf = 4096%nat
  | _ => True
  end.

Section refinement.
Context {B : Type} `{StorageLaws B}.
Implicit Types (d : blkdev B) (a : spec).

Definition exec d (op : blk_op) : blk_out * blkdev B :=
  match op with
  | Alloc => let '(id, d') := sotfs_blk_alloc d in (OutId id, d')
  | Free id => (OutNone, sotfs_blk_free d id)
  | Read id => let '(r, data, d') := sotfs_blk_read d id in (OutData r data, d')
  | Write id buf => let '(r, d') := sotfs_blk_write d id buf in (OutStatus r, d')
  | Flush => (OutNone, sotfs_blk_flush d)
  end.

Fixpoint run d (ops : list blk_op) : list blk_out * blkdev B :=
  match ops with
  | [] => ([], d)
  | op :: ops' =>
      let '(o, d1) := exec d op in
      let '(os, d2) := run d1 ops' in (o :: os, d2)
  end.

(** The store [d] implements the abstract state [a]. *)
Record implements d a : Prop := {
  im_wf : blkdev_wf d;
  im_total : sp_total a = g_total_blocks d;
  im_alloc k : k ∈ sp_alloc a <-> valid_id d k /\ allocated d k = true;
  im_data k w : sp_data a !! k = Some w -> valid_id d k /\ view d k = w;
}.

Record layout_eq d d' : Prop := {
  le_region : g_region_off d' = g_region_off d;
  le_total : g_total_blocks d' = g_total_blocks d;
  le_bitmap_off : g_bitmap_off d' = g_bitmap_off d;
  le_bitmap_bytes : g_bitmap_bytes d' = g_bitmap_bytes d;
  le_heap : g_heap_off d' = g_heap_off d;
  le_cap : capacity_bytes (g_st d') = capacity_bytes (g_st d);
}.

Lemma layout_refl d : layout_eq d d.
Proof. done. Qed.
Lemma layout_trans d1 d2 d3 : layout_eq d1 d2 -> layout_eq d2 d3 -> layout_eq d1 d3.
Proof. intros [] []. constructor; congruence. Qed.
Lemma frame_layout d d' : frame d d' -> layout_eq d d'.
Proof. intros []. by constructor. Qed.
Lemma synced_layout d d' : synced d d' -> layout_eq d d'.
Proof. intros []. by constructor. Qed.

Lemma implements_frame d d' a dt :
  implements d a -> blkdev_wf d' -> frame d d' ->
  (forall k w, dt !! k = Some w -> valid_id d k /\ view d' k = w) ->
  implements d' (mk_spec (sp_total a) (sp_alloc a) dt).
Proof.
  intros [W Ht Ha Hd] W' F Hdt. pose proof F as [? ? Ft ? ? ? ? Fb ? ?].
  assert (forall k, valid_id d' k <-> valid_id d k) as Hv by (intros; unfold valid_id; by rewrite Ft).
  constructor; simpl; [done|congruence| |].
  - intros k. unfold allocated. by rewrite Ha, Hv, Fb.
  - intros k w Hk. rewrite Hv. auto.
Qed.

Lemma valid_pos d k : valid_id d k -> k <> 0.
Proof. unfold valid_id. lia. Qed.

Lemma write_refines d a id buf :
  implements d a -> op_ok (Write id buf) -> valid_id d id ->
  exists d', sotfs_blk_write d id buf = (0, d') /\ layout_eq d d'
    /\ implements d' (mk_spec (sp_total a) (sp_alloc a) (<[id := buf]> (sp_data a))).
Proof.
  intros I [_ Hl] Hv. pose proof I as [W Ht Ha Hd].
  destruct (sotfs_blk_write_spec d id buf W Hv Hl) as (d'&->&W'&F&V). exists d'. split_and!; [done|by apply frame_layout|].
  apply (implements_frame d); [done..|]. intros k w [[<- <-]|[Hne Hk]]%lookup_insert_Some.
  - split; [done|]. rewrite V by (by eapply valid_pos). by rewrite decide_True.
  - destruct (Hd _ _ Hk) as [Hvk <-]. split; [done|]. rewrite V by (by eapply valid_pos). by rewrite decide_False.
Qed.

Lemma read_refines d a id :
  implements d a -> valid_id d id ->
  exists d', sotfs_blk_read d id = (0, view d id, d') /\ layout_eq d d'
    /\ implements d' (mk_spec (sp_total a) (sp_alloc a) (<[id := view d id]> (sp_data a))).
Proof.
  intros I Hv. pose proof I as [W Ht Ha Hd].
  destruct (sotfs_blk_read_spec d id W Hv) as (d'&->&W'&F&V). exists d'. split_and!; [done|by apply frame_layout|].
  apply (implements_frame d); [done..|]. intros k w [[<- <-]|[Hne Hk]]%lookup_insert_Some.
  - split; [done|]. apply V. by eapply valid_pos.
  - destruct (Hd _ _ Hk) as [Hvk <-]. split; [done|]. apply V. by eapply valid_pos.
Qed.

Lemma alloc_refines d a :
  implements d a ->
  exists id a', spec_step a Alloc (OutId id) a' /\ (sotfs_blk_alloc d).1 = id
    /\ layout_eq d (sotfs_blk_alloc d).2 /\ implements (sotfs_blk_alloc d).2 a'.
Proof.
  intros I. pose proof I as [W Ht Ha Hd]. destruct (sotfs_blk_alloc d) as [id d'] eqn:E.
  pose proof (sotfs_blk_alloc_spec _ _ _ W E) as [(->&->&Hfull)|(Hv&Hf&Hlow&W'&_&Ht'&Ha'&V)]; simpl.
  - exists 0, a. split_and!; [|done|done|done]. constructor. intros k Hk. apply Ha.
    assert (valid_id d k) by (unfold valid_id, sp_range in *; lia). auto.
  - exists id, (mk_spec (sp_total a) ({[id]} ∪ sp_alloc a) (sp_data a)). unfold sotfs_blk_total in Ht'.
    assert (forall k, valid_id d' k <-> valid_id d k) as Hvv by (intros; unfold valid_id; by rewrite Ht').
    split_and!; [|done| |].
    + constructor; [unfold sp_range, valid_id in *; lia|rewrite Ha; intros [_ ?]; congruence|].
      intros k Hk. apply Ha. split; [unfold valid_id in *; lia|auto].
    + unfold sotfs_blk_alloc in E. destruct (first_below _ _); injection E as <- <-; by constructor.
    + constructor; simpl; [done|congruence| |].
      * intros k. rewrite elem_of_union, elem_of_singleton, Hvv, Ha. split.
        -- intros [->|[Hk Hb]]; (split; [done|]); rewrite Ha' by (unfold valid_id in *; lia); by case_decide.
        -- intros [Hk Hb]. rewrite Ha' in Hb by (unfold valid_id in *; lia). case_decide; auto.
      * intros k w Hk. rewrite Hvv, V. auto.
Qed.

Lemma free_layout d id : layout_eq d (sotfs_blk_free d id).
Proof.
  unfold sotfs_blk_free. destruct (out_of_range d id); [done|]. destruct (_ =? 0); [done|].
  destruct (cache_find _ id); by constructor.
Qed.

Lemma free_refines d a id :
  implements d a -> op_ok (Free id) ->
  exists a', spec_step a (Free id) OutNone a' /\ implements (sotfs_blk_free d id) a'.
Proof.
  intros I Hok. pose proof I as [W Ht Ha Hd]. pose proof (bw_geom _ W) as [? ? ? ? Htt ? ? ?]. unfold BLKDEV_BITMAP_MAX in Htt.
  destruct (decide (id ∈ sp_alloc a)) as [Hin|Hout].
  - pose proof (proj1 (Ha id) Hin) as [Hv Hb]. destruct (sotfs_blk_free_spec d id W Hv Hb) as (W'&_&Ht'&Ha'&V).
    unfold sotfs_blk_total in Ht'. exists (mk_spec (sp_total a) (sp_alloc a ∖ {[id]}) (delete id (sp_data a))).
    assert (forall k, valid_id (sotfs_blk_free d id) k <-> valid_id d k) as Hvv by (intros; unfold valid_id; by rewrite Ht').
    split; [by constructor|]. constructor; simpl; [done|congruence| |].
    + intros k. rewrite elem_of_difference, elem_of_singleton, Hvv, Ha. split.
      * intros [[Hk Hbk] Hne]. split; [done|]. rewrite Ha' by (unfold valid_id in *; lia). by rewrite decide_False.
      * intros [Hk Hbk]. rewrite Ha' in Hbk by (unfold valid_id in *; lia). by case_decide.
    + intros k w [Hne Hk]%lookup_delete_Some. rewrite Hvv. destruct (Hd _ _ Hk) as [Hvk <-]. split; [done|].
      apply V; [by eapply valid_pos|done].
  - exists a. split; [by constructor|]. replace (sotfs_blk_free d id) with d; [done|]. unfold sotfs_blk_free.
    destruct (decide (valid_id d id)) as [Hv|Hv]; [|by rewrite invalid_out_of_range].
    rewrite valid_in_range by done. unfold valid_id in Hv. rewrite bit_get_0, u64_small; [|lia|rewrite u64_small; lia].
    destruct (bit (g_bitmap d) (id - 1)) eqn:Eb; [|done]. destruct Hout. by apply Ha.
Qed.

Lemma flush_refines d a : implements d a -> implements (sotfs_blk_flush d) a.
Proof.
  intros [W Ht Ha Hd]. destruct (sotfs_blk_flush_spec d W) as ([W' V Eb Eu Er Et ? ? ? ?]&_&_).
  assert (forall k, valid_id (sotfs_blk_flush d) k <-> valid_id d k) as Hvv by (intros; unfold valid_id; by rewrite Et).
  constructor; [done|congruence| |].
  - intros k. unfold allocated. rewrite Hvv, Ha, Eb. done.
  - intros k w Hk. rewrite Hvv. destruct (Hd _ _ Hk) as [? <-]. auto.
Qed.

Lemma exec_refines d a op :
  implements d a -> op_ok op ->
  exists a', spec_step a op (exec d op).1 a' /\ layout_eq d (exec d op).2 /\ implements (exec d op).2 a'.
Proof.
  intros I Hok. pose proof I as [W Ht _ _].
  assert (forall id, sp_range a id <-> valid_id d id) as Hr by (intros; unfold sp_range, valid_id; by rewrite Ht).
  destruct op as [|id|id|id buf|]; simpl exec.
  - destruct (alloc_refines d a I) as (id&a'&?&<-&?&?). exists a'. by destruct (sotfs_blk_alloc d).
  - destruct (free_refines d a id I Hok) as (a'&?&?). exists a'. split_and!; [done|apply free_layout|done].
  - destruct (decide (valid_id d id)) as [Hv|Hv].
    + destruct (read_refines d a id I Hv) as (d'&->&?&?). eexists. split_and!; [|done..].
      constructor; [by apply Hr|by apply view_length|]. intros w Hw. by destruct (im_data _ _ I _ _ Hw).
    + unfold sotfs_blk_read. rewrite invalid_out_of_range by done. exists a. split_and!; [|done..]. constructor. by rewrite Hr.
  - destruct (decide (valid_id d id)) as [Hv|Hv].
    + destruct (write_refines d a id buf I Hok Hv) as (d'&->&?&?). eexists. split_and!; [|done..]. constructor. by apply Hr.
    + unfold sotfs_blk_write. destruct Hok. rewrite invalid_out_of_range by done. exists a. split_and!; [|done..].
      constructor. by rewrite Hr.
  - exists a. split_and!; [constructor| |by apply flush_refines].
    destruct (sotfs_blk_flush_spec d W) as (S&_). by apply synced_layout.
Qed.

Lemma run_refines d a ops :
  implements d a -> Forall op_ok ops ->
  exists a', spec_run a ops (run d ops).1 a' /\ layout_eq d (run d ops).2 /\ implements (run d ops).2 a'.
Proof.
  intros I Hops. revert d a I. induction Hops as [|op ops Hop _ IH]; intros d a I; simpl.
  - exists a. split_and!; [constructor|done..].
  - destruct (exec_refines d a op I Hop) as (a1&Hs&L1&I1). destruct (exec d op) as [o d1]. simpl in *.
    destruct (IH d1 a1 I1) as (a2&Hr&L2&I2). destruct (run d1 ops) as [os d2]. simpl in *.
    exists a2. split_and!; [by econstructor|by apply (layout_trans _ d1)|done].
Qed.

Lemma implements_fresh d :
  blkdev_wf d -> (forall k, allocated d k = false) -> implements d (mk_spec (g_total_blocks d) ∅ ∅).
Proof.
  intros W Ha. constructor; simpl; [done|done| |].
  - intros k. rewrite Ha. set_solver.
  - intros k w Hk. by rewrite lookup_empty in Hk.
Qed.
End refinement.

Section theorems.
Context {B : Type} `{StorageLaws B}.
Implicit Types (d : blkdev B) (b : B).

Lemma layout_usable d d' b ro rb :
  usable b ro rb -> blkdev_wf d' -> capacity_bytes (g_st d) = capacity_bytes b -> layout_eq d d' -> usable (g_st d') ro rb.
Proof. intros (?&?&?&?) W' Hc L. destruct L. unfold usable. split_and!; [apply W'|done|done|lia]. Qed.

Lemma layout_same d d' ro rb : same_layout d ro rb -> layout_eq d d' -> same_layout d' ro rb.
Proof.
  intros (S1&S2&S3&S4&S5) []. unfold same_layout.
  pose proof (geometry_fields (blkdev_boot (g_st d')) (blkdev_boot (g_st d)) ro rb) as (F1&F2&F3&F4&_).
  cbv zeta. rewrite F1, F2, F3, F4. split_and!; congruence.
Qed.

(** C2: every run of the block store refines the abstract store.  Over any medium
    that keeps the storage contract, a formatted store answers every sequence of
    allocations, frees, reads, writes and flushes as the abstract store does:
    the lowest free id is allocated, a read returns the last write whatever the
    LRU cache evicted in between, and ids out of range are refused with -22. *)
Theorem blk_refines (d0 : blkdev B) (b : B) (ro rb : Z) (ops : list blk_op) :
  usable b ro rb -> Forall op_ok ops ->
  exists d a', sotfs_blkdev_init d0 (Some b) ro rb true = (0, d)
    /\ spec_run (mk_spec (sotfs_blk_total d) ∅ ∅) ops (run d ops).1 a'
    /\ implements (run d ops).2 a'.
Proof.
  intros Hu Hops. destruct (init_fresh_spec d0 b ro rb Hu) as (d&E&W&_&Ha&_&_).
  destruct (run_refines d _ ops (implements_fresh d W Ha) Hops) as (a'&?&_&?). by exists d, a'.
Qed.

(** C35: durability.  After any run, a flush, and a later attach of the same region
    (a reboot: only the medium survives), the store has the same blocks with the
    same content, the same allocation bitmap and the same used count. *)
Theorem blk_remount (d0 d1 : blkdev B) (b : B) (ro rb : Z) (ops : list blk_op) :
  usable b ro rb -> Forall op_ok ops ->
  exists d, sotfs_blkdev_init d0 (Some b) ro rb true = (0, d) /\
  let d' := (run d ops).2 in
  exists d2, sotfs_blkdev_init d1 (Some (g_st (sotfs_blk_flush d'))) ro rb false = (0, d2)
    /\ blkdev_wf d2 /\ sotfs_blk_total d2 = sotfs_blk_total d' /\ sotfs_blk_used d2 = sotfs_blk_used d'
    /\ forall k, valid_id d' k -> allocated d2 k = allocated d' k /\ view d2 k = view d' k.
Proof.
  intros Hu Hops. destruct (init_fresh_spec d0 b ro rb Hu) as (d&E&W&Hs&Ha&Hcap&_). exists d. split; [done|]. cbv zeta.
  destruct (run_refines d _ ops (implements_fresh d W Ha) Hops) as (a'&_&L&I). set (d' := (run d ops).2) in *. clearbody d'.
  destruct (sotfs_blk_flush_spec d' (im_wf _ _ I)) as (S&Hcl&Hdisk). pose proof (sy_wf _ _ S) as W2.
  pose proof (layout_trans _ _ _ L (synced_layout _ _ S)) as L2.
  destruct (init_attach_spec d1 (sotfs_blk_flush d') ro rb) as (d2&E2&W3&_&Hused&Htot&Hal&Hv);
    [by eapply layout_usable|done|by eapply layout_same|done|].
  exists d2. unfold sotfs_blk_total, sotfs_blk_used in *. rewrite (sy_used _ _ S) in Hused. rewrite (sy_total _ _ S) in Htot.
  split_and!; [done..|]. intros k Hk. assert (valid_id (sotfs_blk_flush d') k) by (unfold valid_id in *; by rewrite (sy_total _ _ S)).
  rewrite Hal, Hv, Hdisk by done. split; [|done]. unfold allocated. by rewrite (sy_bitmap _ _ S).
Qed.

(** The layout of a region.  Superblock, bitmap and heap follow each other,
    the bitmap has a bit for every block, every block lies inside the region and
    no two overlap, and no larger block count fits (up to the 128 Ki blocks the
    RAM bitmap can describe). *)
Theorem blk_geometry (d : blkdev B) (ro rb : Z) :
  0 <= ro -> 12288 <= rb -> ro + rb < 2 ^ 62 ->
  let d' := compute_geometry d ro rb in
  g_bitmap_off d' = ro + 4096
  /\ g_bitmap_off d' + bm_phys (g_bitmap_bytes d') <= g_heap_off d'
  /\ 0 < sotfs_blk_total d' <= 8 * bm_phys (g_bitmap_bytes d')
  /\ (forall id, valid_id d' id -> g_heap_off d' <= block_off d' id /\ block_off d' id + 4096 <= ro + rb)
  /\ (forall i j, valid_id d' i -> valid_id d' j -> i < j -> block_off d' i + 4096 <= block_off d' j)
  /\ forall n, 0 <= n -> 4096 + footprint n <= rb -> Z.min n (BLKDEV_BITMAP_MAX * 8) <= sotfs_blk_total d'.
Proof.
  intros Hro Hrb Hlim. destruct (compute_geometry_spec d ro rb) as (Hg&Ht0&Hmax); [lia..|]. cbv zeta in *.
  assert (0 < g_total_blocks (compute_geometry d ro rb)) as Ht.
  { specialize (Hmax 1). change (footprint 1) with 8192 in Hmax. unfold BLKDEV_BITMAP_MAX in Hmax. lia. }
  specialize (Hg Ht). set (g := compute_geometry d ro rb) in *. clearbody g. pose proof (bm_phys_spec _ _ _ _ _ _ Hg) as (?&?&?).
  destruct Hg as [? ? ? ? Htot ? ? ?]. pose proof (rup_bounds (g_bitmap_bytes g)). unfold sotfs_blk_total, valid_id, BLKDEV_BITMAP_MAX in *.
  assert (forall id, 1 <= id <= g_total_blocks g -> block_off g id = g_heap_off g + (id - 1) * 4096) as Hoff.
  { intros id Hid. unfold block_off, SOTFS_BLKDEV_BLOCK_SIZE. change (2 ^ 62) with 4611686018427387904 in *.
    unfold u64. change (2 ^ 64) with 18446744073709551616. rewrite !Z.mod_small by (rewrite ?Z.mod_small; lia). done. }
  split_and!; try done; try lia.
  - intros id Hid. rewrite Hoff by done. lia.
  - intros i j Hi Hj Hij. rewrite !Hoff by done. lia.
Qed.
End theorems.

(** ** Concrete runs *)

Module BlkDemo.
Import Image Layout.

(** The data heap of a blank [sotfs.img]. *)
Definition blank : disk := ∅.

Lemma blank_usable : usable blank SOTFS_DATA_OFFSET SOTFS_DATA_REGION_BYTES.
Proof. unfold usable. vm_compute. intuition discriminate. Qed.

Definition script : list blk_op :=
  [Alloc; Alloc; Write 1 (replicate 4096 7); Free 2; Alloc; Write 2 (replicate 4096 9); Read 1; Flush; Read 2; Read 0].

Lemma blk_script_ok : Forall op_ok script.
Proof. repeat constructor; simpl; change (2 ^ 31) with 2147483648; rewrite ?length_replicate; lia. Qed.
End BlkDemo.
Import Image.

Lemma blk_refines_witness :
  exists d a', sotfs_blkdev_init (blkdev_boot BlkDemo.blank) (Some BlkDemo.blank) Layout.SOTFS_DATA_OFFSET
                 Layout.SOTFS_DATA_REGION_BYTES true = (0, d)
    /\ spec_run (mk_spec (sotfs_blk_total d) ∅ ∅) BlkDemo.script (run d BlkDemo.script).1 a'
    /\ implements (run d BlkDemo.script).2 a'.
Proof. apply blk_refines; [exact BlkDemo.blank_usable|exact BlkDemo.blk_script_ok]. Defined.

Lemma blk_remount_witness :
  exists d, sotfs_blkdev_init (blkdev_boot BlkDemo.blank) (Some BlkDemo.blank) Layout.SOTFS_DATA_OFFSET
              Layout.SOTFS_DATA_REGION_BYTES true = (0, d) /\
  let d' := (run d BlkDemo.script).2 in
  exists d2, sotfs_blkdev_init (blkdev_boot BlkDemo.blank) (Some (g_st (sotfs_blk_flush d'))) Layout.SOTFS_DATA_OFFSET
               Layout.SOTFS_DATA_REGION_BYTES false = (0, d2)
    /\ blkdev_wf d2 /\ sotfs_blk_total d2 = sotfs_blk_total d' /\ sotfs_blk_used d2 = sotfs_blk_used d'
    /\ forall k, valid_id d' k -> allocated d2 k = allocated d' k /\ view d2 k = view d' k.
Proof. apply blk_remount; [exact BlkDemo.blank_usable|exact BlkDemo.blk_script_ok]. Defined.

(** The heap of the shipped image: 65533 blocks. *)
Lemma blk_geometry_witness :
  let d' := compute_geometry (blkdev_boot BlkDemo.blank) Layout.SOTFS_DATA_OFFSET Layout.SOTFS_DATA_REGION_BYTES in
  sotfs_blk_total d' = 65533
  /\ g_bitmap_off d' + bm_phys (g_bitmap_bytes d') <= g_heap_off d'.
Proof.
  split; [vm_compute; reflexivity|].
  assert (0 <= Layout.SOTFS_DATA_OFFSET) as H1 by (vm_compute; discriminate).
  assert (12288 <= Layout.SOTFS_DATA_REGION_BYTES) as H2 by (vm_compute; discriminate).
  assert (Layout.SOTFS_DATA_OFFSET + Layout.SOTFS_DATA_REGION_BYTES < 2 ^ 62) as H3 by (vm_compute; reflexivity).
  destruct (blk_geometry (blkdev_boot BlkDemo.blank) _ _ H1 H2 H3) as (_&Hfit&_). exact Hfit.
Defined.
