(* ===== verification/BlockStore.v ===== *)
(** * The block-store interface of the file system

    The graph and the file I/O of sotFS use the block store only through
    [sotfs_blk_total], [sotfs_blk_alloc], [sotfs_blk_free], [sotfs_blk_read] and
    [sotfs_blk_write] (include/sotfs/blkdev.h).  [BlockStore] is that interface and
    [BlockStoreLaws] what its clients rely on; the store of [Blkdev] is an
    instance ([blkdev_laws]), proved from its specification. *)

From S2P Require Import Prelude Storage Blkdev BlkdevSpec BlkdevTheorems.

Class BlockStore (S : Type) := {
  bs_total : S -> Z;
  bs_alloc : S -> Z * S;
  bs_free : S -> Z -> S;
  bs_read : S -> Z -> Z * list Z * S;
  bs_write : S -> Z -> list Z -> Z * S;
}.

(** Same blocks, same allocation; the content is stated by each law. *)
Record bs_same {S} (valid alloced : S -> Z -> Prop) (s s' : S) : Prop := {
  bss_valid k : valid s' k <-> valid s k;
  bss_alloced k : valid s k -> (alloced s' k <-> alloced s k);
}.

Class BlockStoreLaws (S : Type) `{BlockStore S} := {
  bs_inv : S -> Prop;
  bs_valid : S -> Z -> Prop;
  bs_alloced : S -> Z -> Prop;
  bs_view : S -> Z -> list Z;
  bs_total_pos s : bs_inv s -> bs_total s <> 0;
  bs_valid_pos s k : bs_valid s k -> 0 < k;
  bs_view_length s k : bs_inv s -> length (bs_view s k) = 4096%nat;
  bs_alloc_spec s id s' :
    bs_inv s -> bs_alloc s = (id, s') ->
    (id = 0 /\ s' = s)
    \/ (bs_valid s id /\ ~ bs_alloced s id /\ bs_inv s' /\ (forall k, bs_valid s' k <-> bs_valid s k)
        /\ (forall k, bs_valid s k -> (bs_alloced s' k <-> k = id \/ bs_alloced s k))
        /\ forall k, bs_valid s k -> bs_view s' k = bs_view s k);
  bs_read_spec s id :
    bs_inv s -> bs_valid s id ->
    exists s', bs_read s id = (0, bs_view s id, s') /\ bs_inv s' /\ bs_same bs_valid bs_alloced s s'
      /\ forall k, bs_valid s k -> bs_view s' k = bs_view s k;
  bs_write_spec s id buf :
    bs_inv s -> bs_valid s id -> length buf = 4096%nat ->
    exists s', bs_write s id buf = (0, s') /\ bs_inv s' /\ bs_same bs_valid bs_alloced s s'
      /\ forall k, bs_valid s k -> bs_view s' k = if decide (k = id) then buf else bs_view s k;
  bs_free_none s : bs_inv s -> bs_free s 0 = s;
  bs_free_spec s id :
    bs_inv s -> bs_valid s id -> bs_alloced s id ->
    let s' := bs_free s id in
    bs_inv s' /\ (forall k, bs_valid s' k <-> bs_valid s k) /\ (forall k, bs_valid s k -> (bs_alloced s' k <-> bs_alloced s k /\ k <> id))
    /\ forall k, bs_valid s k -> k <> id -> bs_view s' k = bs_view s k;
}.

#[export] Instance blkdev_store {B} `{StorageOps B} : BlockStore (blkdev B) := {
  bs_total := sotfs_blk_total;
  bs_alloc := sotfs_blk_alloc;
  bs_free := sotfs_blk_free;
  bs_read := sotfs_blk_read;
  bs_write := sotfs_blk_write;
}.

Section instance.
Context {B : Type} `{StorageLaws B}.

Lemma frame_same (d d' : blkdev B) :
  frame d d' -> bs_same valid_id (fun d k => allocated d k = true) d d'.
Proof.
  intros [? ? Ft ? ? ? ? Fb ? ?]. constructor; intros k; [by unfold valid_id; rewrite Ft|].
  intros _. unfold allocated. by rewrite Fb.
Qed.

#[export] Program Instance blkdev_laws : BlockStoreLaws (blkdev B) := {
  bs_inv := blkdev_wf;
  bs_valid := valid_id;
  bs_alloced d k := allocated d k = true;
  bs_view := view;
}.
Next Obligation. intros d W. pose proof (geom_total _ _ _ _ _ _ (bw_geom _ W)). simpl. unfold sotfs_blk_total. lia. Qed.
Next Obligation. unfold valid_id. intros. lia. Qed.
Next Obligation. intros. by apply view_length. Qed.
Next Obligation.
  intros d id d' W E. pose proof (sotfs_blk_alloc_spec _ _ _ W E) as [(->&->&_)|(Hv&Hf&_&W'&_&Ht&Ha&V)]; [by left|right].
  unfold sotfs_blk_total in Ht. split_and!; [done|by rewrite Hf|done|..].
  - intros k. unfold valid_id. by rewrite Ht.
  - intros k Hk. rewrite Ha by (unfold valid_id in Hk; lia). case_decide; tauto.
  - intros k _. by apply V.
Qed.
Next Obligation.
  intros d id W Hv. destruct (sotfs_blk_read_spec d id W Hv) as (d'&E&W'&F&V). exists d'.
  split_and!; [done|done|by apply frame_same|]. intros k Hk. apply V. by eapply valid_pos.
Qed.
Next Obligation.
  intros d id buf W Hv Hl. destruct (sotfs_blk_write_spec d id buf W Hv Hl) as (d'&E&W'&F&V). exists d'.
  split_and!; [done|done|by apply frame_same|]. intros k Hk. apply V. by eapply valid_pos.
Qed.
Next Obligation. intros d W. cbn. unfold sotfs_blk_free, out_of_range. done. Qed.
Next Obligation.
  intros d id W Hv Ha. destruct (sotfs_blk_free_spec d id W Hv Ha) as (W'&_&Ht&Hal&V). cbv zeta. unfold sotfs_blk_total in Ht. split_and!; [done|..].
  - intros k. unfold valid_id. cbn. by rewrite Ht.
  - intros k Hk. cbn. rewrite Hal by (unfold valid_id in Hk; lia). case_decide; naive_solver.
  - intros k Hk Hne. apply V; [|done]. by eapply valid_pos.
Qed.
End instance.
