(* ===== verification/Graph.v ===== *)
(** * The graph of sotFS (include/sotfs/graph.h, src/sotfs/graph.c)

    Inodes, directory edges and block mappings live in three fixed arrays; ids are
    slot index plus one and 0 means free.  A name is its C string: the bytes before
    the NUL.  [e_curvature] holds the integer the curvature monitor stores in the
    [double] field.  Block allocation takes the block store as an argument
    ([BlockStore]). *)

From S2P Require Import Prelude BlockStore.

Definition SOTFS_MAX_INODES : nat := 1024.
Definition SOTFS_MAX_EDGES : nat := 2048.
Definition SOTFS_MAX_BLOCKS : nat := Z.to_nat 49152.
Definition SOTFS_MAX_NAME : nat := 128.
Definition SOTFS_BLOCK_SIZE : Z := 4096.

Inductive sotfs_inode_kind := KIND_FREE | KIND_FILE | KIND_DIR | KIND_SYMLINK.
#[export] Instance kind_eq_dec : EqDecision sotfs_inode_kind.
Proof. solve_decision. Defined.

Record sotfs_inode := mk_inode {
  i_id : Z;
  i_kind : sotfs_inode_kind;
  i_mode : Z;
  i_size : Z;
  i_generation : Z;
  i_nlink : Z;
  i_functor_persistence : Z;
  i_orphan : bool;
  i_open_count : Z;
  i_mtime_sec : Z;
  i_atime_sec : Z;
  i_ctime_sec : Z;
}.

Record sotfs_edge := mk_edge {
  e_id : Z;
  e_parent_id : Z;
  e_child_id : Z;
  e_name : list Z;
  e_curvature : Z;
}.

Record sotfs_block := mk_block {
  b_id : Z;
  b_file_id : Z;
  b_offset : Z;
  b_length : Z;
  b_disk_blk : Z;
}.

Record sotfs_graph := mk_graph {
  inodes : list sotfs_inode;
  edges : list sotfs_edge;
  blocks : list sotfs_block;
  next_inode_hint : nat;
  next_edge_hint : nat;
  next_block_hint : nat;
  root_id : Z;
}.

(** The [memset]-cleared slots. *)
Definition zero_inode : sotfs_inode := mk_inode 0 KIND_FREE 0 0 0 0 0 false 0 0 0 0.
Definition zero_edge : sotfs_edge := mk_edge 0 0 0 [] 0.
Definition zero_mapping : sotfs_block := mk_block 0 0 0 0 0.

Definition inode_at (g : sotfs_graph) (i : nat) : sotfs_inode := (inodes g).[i, zero_inode].
Definition edge_at (g : sotfs_graph) (i : nat) : sotfs_edge := (edges g).[i, zero_edge].
Definition block_at (g : sotfs_graph) (i : nat) : sotfs_block := (blocks g).[i, zero_mapping].

Definition set_inode (g : sotfs_graph) (i : nat) (x : sotfs_inode) : sotfs_graph :=
  mk_graph (<[i := x]> (inodes g)) (edges g) (blocks g) (next_inode_hint g) (next_edge_hint g) (next_block_hint g) (root_id g).
Definition set_edge (g : sotfs_graph) (i : nat) (x : sotfs_edge) : sotfs_graph :=
  mk_graph (inodes g) (<[i := x]> (edges g)) (blocks g) (next_inode_hint g) (next_edge_hint g) (next_block_hint g) (root_id g).
Definition set_block (g : sotfs_graph) (i : nat) (x : sotfs_block) : sotfs_graph :=
  mk_graph (inodes g) (edges g) (<[i := x]> (blocks g)) (next_inode_hint g) (next_edge_hint g) (next_block_hint g) (root_id g).
Definition set_blocks (g : sotfs_graph) (bs : list sotfs_block) : sotfs_graph :=
  mk_graph (inodes g) (edges g) bs (next_inode_hint g) (next_edge_hint g) (next_block_hint g) (root_id g).
Definition set_inode_hint (g : sotfs_graph) (h : nat) : sotfs_graph :=
  mk_graph (inodes g) (edges g) (blocks g) h (next_edge_hint g) (next_block_hint g) (root_id g).
Definition set_edge_hint (g : sotfs_graph) (h : nat) : sotfs_graph :=
  mk_graph (inodes g) (edges g) (blocks g) (next_inode_hint g) h (next_block_hint g) (root_id g).
Definition set_block_hint (g : sotfs_graph) (h : nat) : sotfs_graph :=
  mk_graph (inodes g) (edges g) (blocks g) (next_inode_hint g) (next_edge_hint g) h (root_id g).
Definition set_root (g : sotfs_graph) (r : Z) : sotfs_graph :=
  mk_graph (inodes g) (edges g) (blocks g) (next_inode_hint g) (next_edge_hint g) (next_block_hint g) r.

(** ** Slots *)

Definition slot_of (id : Z) (max : nat) : option nat :=
  if (id <=? 0) || (id >? Z.of_nat max) then None else Some (Z.to_nat (id - 1)).
Definition _inode_slot (id : Z) : option nat := slot_of id SOTFS_MAX_INODES.
Definition _edge_slot (id : Z) : option nat := slot_of id SOTFS_MAX_EDGES.
Definition _block_slot (id : Z) : option nat := slot_of id SOTFS_MAX_BLOCKS.

(** The [i]-th slot of a scan that starts at [hint] and wraps around. *)
Definition rotate (hint max i : nat) : nat := ((hint + i) mod max)%nat.

#[global] Arguments rotate : simpl never.
#[global] Arguments Nat.modulo : simpl never.

(** ** Allocation *)

Definition sotfs_alloc_inode (g : sotfs_graph) (kind : sotfs_inode_kind) (mode : Z) : Z * sotfs_graph :=
  match first_below (fun i => i_id (inode_at g (rotate (next_inode_hint g) SOTFS_MAX_INODES i)) =? 0) SOTFS_MAX_INODES with
  | Some i =>
      let slot := rotate (next_inode_hint g) SOTFS_MAX_INODES i in
      let x := inode_at g slot in
      let id := Z.of_nat slot + 1 in
      let x := mk_inode id kind mode 0 0 (if bool_decide (kind = KIND_DIR) then 2 else 1) (i_functor_persistence x)
                 (i_orphan x) (i_open_count x) (i_mtime_sec x) (i_atime_sec x) (i_ctime_sec x) in
      (id, set_inode_hint (set_inode g slot x) ((slot + 1) mod SOTFS_MAX_INODES)%nat)
  | None => (0, g)
  end.

(** [sotos_strlcpy] into a [char[SOTFS_MAX_NAME]]. *)
Definition sotos_strlcpy (name : list Z) : list Z := take (SOTFS_MAX_NAME - 1) name.

Definition sotfs_alloc_edge (g : sotfs_graph) (parent_id child_id : Z) (name : list Z) : Z * sotfs_graph :=
  match first_below (fun i => e_id (edge_at g (rotate (next_edge_hint g) SOTFS_MAX_EDGES i)) =? 0) SOTFS_MAX_EDGES with
  | Some i =>
      let slot := rotate (next_edge_hint g) SOTFS_MAX_EDGES i in
      let id := Z.of_nat slot + 1 in
      let x := mk_edge id parent_id child_id (sotos_strlcpy name) (e_curvature (edge_at g slot)) in
      (id, set_edge_hint (set_edge g slot x) ((slot + 1) mod SOTFS_MAX_EDGES)%nat)
  | None => (0, g)
  end.

(** Octal 0755. *)
Definition mode_0755 : Z := 493.

Definition sotfs_graph_init : sotfs_graph :=
  let g := mk_graph (replicate SOTFS_MAX_INODES zero_inode) (replicate SOTFS_MAX_EDGES zero_edge)
             (replicate SOTFS_MAX_BLOCKS zero_mapping) 0 0 0 0 in
  let '(id, g) := sotfs_alloc_inode g KIND_DIR mode_0755 in
  set_root g id.

Definition sotfs_alloc_block {S} `{BlockStore S} (g : sotfs_graph) (s : S) (file_id offset : Z) : Z * sotfs_graph * S :=
  match first_below (fun i => b_id (block_at g (rotate (next_block_hint g) SOTFS_MAX_BLOCKS i)) =? 0) SOTFS_MAX_BLOCKS with
  | Some i =>
      let slot := rotate (next_block_hint g) SOTFS_MAX_BLOCKS i in
      let id := Z.of_nat slot + 1 in
      let claim disk_blk := set_block_hint (set_block g slot (mk_block id file_id offset 0 disk_blk))
                              ((slot + 1) mod SOTFS_MAX_BLOCKS)%nat in
      if bs_total s =? 0 then (id, claim 0, s)
      else
        let '(disk_blk, s) := bs_alloc s in
        if disk_blk =? 0 then (0, g, s) else (id, claim disk_blk, s)
  | None => (0, g, s)
  end.

(** ** Release *)

Definition sotfs_free_inode (g : sotfs_graph) (id : Z) : sotfs_graph :=
  match _inode_slot id with Some slot => set_inode g slot zero_inode | None => g end.
Definition sotfs_free_edge (g : sotfs_graph) (id : Z) : sotfs_graph :=
  match _edge_slot id with Some slot => set_edge g slot zero_edge | None => g end.
Definition sotfs_free_block {S} `{BlockStore S} (g : sotfs_graph) (s : S) (id : Z) : sotfs_graph * S :=
  match _block_slot id with
  | Some slot => (set_block g slot zero_mapping, bs_free s (b_disk_blk (block_at g slot)))
  | None => (g, s)
  end.

(** ** Lookup *)

(** Character [j] of a C string, the NUL past its end. *)
Definition cchar (s : list Z) (j : nat) : Z := s.[j, 0].

Fixpoint name_scan (en n : list Z) (j fuel : nat) : nat :=
  match fuel with
  | O => j
  | S fuel' =>
      if (cchar en j =? cchar n j) && negb (cchar en j =? 0) then name_scan en n (j + 1) fuel' else j
  end.

(** The comparison loop of [sotfs_find_edge]. *)
Definition name_match (en n : list Z) : bool :=
  let j := name_scan en n 0 SOTFS_MAX_NAME in
  (j <? SOTFS_MAX_NAME)%nat && (cchar en j =? cchar n j).

Definition edge_hit (g : sotfs_graph) (parent_id : Z) (name : list Z) (i : nat) : bool :=
  let e := edge_at g i in
  negb (e_id e =? 0) && (e_parent_id e =? parent_id) && name_match (e_name e) name.

Definition sotfs_find_edge (g : sotfs_graph) (parent_id : Z) (name : list Z) : Z :=
  match first_below (edge_hit g parent_id name) SOTFS_MAX_EDGES with
  | Some i => e_id (edge_at g i)
  | None => 0
  end.

(** Length of the next path component, at most [SOTFS_MAX_NAME - 1]. *)
Fixpoint component_len (p : list Z) (room : nat) : nat :=
  match room, p with
  | S room', c :: p' => if c =? 47 then 0%nat else S (component_len p' room')
  | _, _ => 0%nat
  end.

Fixpoint resolve_loop (fuel : nat) (g : sotfs_graph) (cur_id : Z) (p : list Z) : Z :=
  match fuel, p with
  | _, [] => cur_id
  | O, _ => 0
  | S fuel', c :: p' =>
      match component_len p (SOTFS_MAX_NAME - 1) with
      | O => resolve_loop fuel' g cur_id (if c =? 47 then p' else p)
      | len =>
          let component := take len p in
          let rest := drop len p in
          let rest := if cchar rest 0 =? 47 then drop 1 rest else rest in
          let edge_id := sotfs_find_edge g cur_id component in
          if edge_id =? 0 then 0
          else match _edge_slot edge_id with
               | None => 0
               | Some slot => resolve_loop fuel' g (e_child_id (edge_at g slot)) rest
               end
      end
  end.

(** [path = None] is the NULL pointer. *)
Definition sotfs_resolve_path_from (g : sotfs_graph) (root : Z) (path : option (list Z)) : Z :=
  match path with
  | Some (47 :: p) => resolve_loop (length p) g (if root >? 0 then root else root_id g) p
  | _ => 0
  end.

Definition sotfs_resolve_path (g : sotfs_graph) (path : option (list Z)) : Z :=
  sotfs_resolve_path_from g (root_id g) path.
