(* ===== verification/Rewrite.v ===== *)
(** * The rewrite rules of sotFS (src/sotfs/rewrite.c)

    One definition per rule, with its guards in the order of the code and its error
    codes.  A NULL name takes the branch of the empty name, so names are byte lists
    and [[]] stands for both. *)

From S2P Require Import Prelude BlockStore Graph.

Definition SOTFS_OK : Z := 0.
Definition SOTFS_ERR_EXISTS : Z := -1.
Definition SOTFS_ERR_NOENT : Z := -2.
Definition SOTFS_ERR_NOTDIR : Z := -3.
Definition SOTFS_ERR_ISDIR : Z := -4.
Definition SOTFS_ERR_NOTEMPTY : Z := -5.
Definition SOTFS_ERR_NOSPACE : Z := -6.
Definition SOTFS_ERR_NAMETOOLONG : Z := -7.
Definition SOTFS_ERR_INVAL : Z := -8.

Definition _dir_has_children (g : sotfs_graph) (dir_id : Z) : bool :=
  bool_decide (is_Some (first_below (fun i => negb (e_id (edge_at g i) =? 0) && (e_parent_id (edge_at g i) =? dir_id)) SOTFS_MAX_EDGES)).

(** The guard every rule starts with: [id] is a live directory. *)
Definition dir_guard (g : sotfs_graph) (id : Z) : Z :=
  match _inode_slot id with
  | None => SOTFS_ERR_NOENT
  | Some slot =>
      if i_id (inode_at g slot) =? 0 then SOTFS_ERR_NOENT
      else if bool_decide (i_kind (inode_at g slot) = KIND_DIR) then SOTFS_OK
      else SOTFS_ERR_NOTDIR
  end.

(** [create_file] and [mkdir] differ in the kind of the new inode only. *)
Definition rewrite_create (kind : sotfs_inode_kind) (g : sotfs_graph) (parent_id : Z) (name : list Z) (mode : Z)
    : Z * sotfs_graph :=
  if bool_decide (name = []) then (SOTFS_ERR_INVAL, g)
  else if (SOTFS_MAX_NAME <=? length name)%nat then (SOTFS_ERR_NAMETOOLONG, g)
  else
    let guard := dir_guard g parent_id in
    if negb (guard =? SOTFS_OK) then (guard, g)
    else if negb (sotfs_find_edge g parent_id name =? 0) then (SOTFS_ERR_EXISTS, g)
    else
      let '(id, g) := sotfs_alloc_inode g kind mode in
      if id =? 0 then (SOTFS_ERR_NOSPACE, g)
      else
        let '(edge_id, g) := sotfs_alloc_edge g parent_id id name in
        if edge_id =? 0 then (SOTFS_ERR_NOSPACE, sotfs_free_inode g id)
        else (id, g).

Definition sotfs_rewrite_create_file : sotfs_graph -> Z -> list Z -> Z -> Z * sotfs_graph := rewrite_create KIND_FILE.
Definition sotfs_rewrite_mkdir : sotfs_graph -> Z -> list Z -> Z -> Z * sotfs_graph := rewrite_create KIND_DIR.

Definition upd_inode (x : sotfs_inode) (nlink : Z) (orphan : bool) (open_count : Z) : sotfs_inode :=
  mk_inode (i_id x) (i_kind x) (i_mode x) (i_size x) (i_generation x) nlink (i_functor_persistence x) orphan open_count
    (i_mtime_sec x) (i_atime_sec x) (i_ctime_sec x).

Definition clear_block (file_id : Z) (b : sotfs_block) : sotfs_block :=
  if negb (b_id b =? 0) && (b_file_id b =? file_id) then zero_mapping else b.

Definition sotfs_free_file_storage (g : sotfs_graph) (file_id : Z) : sotfs_graph :=
  match _inode_slot file_id with
  | None => g
  | Some slot =>
      if i_id (inode_at g slot) =? 0 then g
      else sotfs_free_inode (set_blocks g (clear_block file_id <$> blocks g)) file_id
  end.

(** [None] when a guard of the lookup fails, with its error code; otherwise the
    edge and the slot of its child. *)
Definition lookup_child (g : sotfs_graph) (parent_id : Z) (name : list Z) : Z + (Z * Z * nat) :=
  if bool_decide (name = []) then inl SOTFS_ERR_INVAL
  else
    let guard := dir_guard g parent_id in
    if negb (guard =? SOTFS_OK) then inl guard
    else
      let edge_id := sotfs_find_edge g parent_id name in
      if edge_id =? 0 then inl SOTFS_ERR_NOENT
      else match _edge_slot edge_id with
           | None => inl SOTFS_ERR_INVAL
           | Some edge_slot =>
               let child_id := e_child_id (edge_at g edge_slot) in
               match _inode_slot child_id with
               | None => inl SOTFS_ERR_INVAL
               | Some child_slot => inr (edge_id, child_id, child_slot)
               end
           end.

Definition sotfs_rewrite_unlink (g : sotfs_graph) (parent_id : Z) (name : list Z) : Z * sotfs_graph :=
  match lookup_child g parent_id name with
  | inl err => (err, g)
  | inr (edge_id, child_id, child_slot) =>
      if bool_decide (i_kind (inode_at g child_slot) = KIND_DIR) then (SOTFS_ERR_ISDIR, g)
      else
        let g := sotfs_free_edge g edge_id in
        let x := inode_at g child_slot in
        let x := upd_inode x (i_nlink x - 1) (i_orphan x) (i_open_count x) in
        let g := set_inode g child_slot x in
        if i_nlink x <=? 0 then
          if i_open_count x >? 0 then
            (SOTFS_OK, set_inode g child_slot (upd_inode x (i_nlink x) true (i_open_count x)))
          else (SOTFS_OK, sotfs_free_file_storage g child_id)
        else (SOTFS_OK, g)
  end.

Definition sotfs_inode_open (g : sotfs_graph) (file_id : Z) : sotfs_graph :=
  match _inode_slot file_id with
  | None => g
  | Some slot =>
      let x := inode_at g slot in
      if i_id x =? 0 then g
      else if i_open_count x <? 255
           then set_inode g slot (upd_inode x (i_nlink x) (i_orphan x) (i_open_count x + 1))
           else g
  end.

Definition sotfs_inode_close (g : sotfs_graph) (file_id : Z) : sotfs_graph :=
  match _inode_slot file_id with
  | None => g
  | Some slot =>
      let x := inode_at g slot in
      if i_id x =? 0 then g
      else
        let x := if i_open_count x >? 0 then upd_inode x (i_nlink x) (i_orphan x) (i_open_count x - 1) else x in
        let g := set_inode g slot x in
        if (i_open_count x =? 0) && i_orphan x then sotfs_free_file_storage g file_id else g
  end.

Definition sotfs_rewrite_rmdir (g : sotfs_graph) (parent_id : Z) (name : list Z) : Z * sotfs_graph :=
  match lookup_child g parent_id name with
  | inl err => (err, g)
  | inr (edge_id, child_id, child_slot) =>
      if negb (bool_decide (i_kind (inode_at g child_slot) = KIND_DIR)) then (SOTFS_ERR_NOTDIR, g)
      else if _dir_has_children g child_id then (SOTFS_ERR_NOTEMPTY, g)
      else (SOTFS_OK, sotfs_free_inode (sotfs_free_edge g edge_id) child_id)
  end.

Definition sotfs_rewrite_rename (g : sotfs_graph) (p_src : Z) (old_name : list Z) (p_dst : Z) (new_name : list Z)
    : Z * sotfs_graph :=
  if bool_decide (old_name = []) then (SOTFS_ERR_INVAL, g)
  else if bool_decide (new_name = []) then (SOTFS_ERR_INVAL, g)
  else if (SOTFS_MAX_NAME <=? length old_name)%nat then (SOTFS_ERR_NAMETOOLONG, g)
  else if (SOTFS_MAX_NAME <=? length new_name)%nat then (SOTFS_ERR_NAMETOOLONG, g)
  else if negb (dir_guard g p_src =? SOTFS_OK) then (dir_guard g p_src, g)
  else if negb (dir_guard g p_dst =? SOTFS_OK) then (dir_guard g p_dst, g)
  else
    let old_edge_id := sotfs_find_edge g p_src old_name in
    if old_edge_id =? 0 then (SOTFS_ERR_NOENT, g)
    else match _edge_slot old_edge_id with
         | None => (SOTFS_ERR_INVAL, g)
         | Some old_slot =>
             let child_id := e_child_id (edge_at g old_slot) in
             if negb (sotfs_find_edge g p_dst new_name =? 0) then (SOTFS_ERR_EXISTS, g)
             else
               let '(new_edge_id, g) := sotfs_alloc_edge g p_dst child_id new_name in
               if new_edge_id =? 0 then (SOTFS_ERR_NOSPACE, g)
               else (SOTFS_OK, sotfs_free_edge g old_edge_id)
         end.
