(* ===== verification/FsInv.v ===== *)
(** * Slot discipline of the graph

    [graph_wf] is the invariant of the three arrays: a live slot carries its index
    plus one, a free slot is cleared, and no directory has two entries of one name.
    [node] and [entry] read the graph as a map of inodes and a map of directory
    entries; the lemmas say what each primitive of [Graph] does to them. *)

From S2P Require Import Prelude BlockStore Graph.

(** A C string: no NUL inside. *)
Definition cname (n : list Z) : Prop := Forall (fun c => c <> 0) n.
(** A name that fits a directory entry. *)
Definition leaf_name (n : list Z) : Prop := cname n /\ (length n < SOTFS_MAX_NAME)%nat.

Definition live_edge (es : list sotfs_edge) (i : nat) (e : sotfs_edge) : Prop := es !! i = Some e /\ e_id e <> 0.

Record edges_wf (es : list sotfs_edge) : Prop := {
  ew_len : length es = SOTFS_MAX_EDGES;
  ew_free i e : es !! i = Some e -> e_id e = 0 -> e = zero_edge;
  ew_id i e : live_edge es i e -> e_id e = Z.of_nat i + 1 /\ leaf_name (e_name e);
  ew_uniq i j e e' : live_edge es i e -> live_edge es j e' -> e_parent_id e = e_parent_id e' -> e_name e = e_name e' -> i = j;
}.

Record inodes_wf (xs : list sotfs_inode) : Prop := {
  iw_len : length xs = SOTFS_MAX_INODES;
  iw_free i x : xs !! i = Some x -> i_id x = 0 -> x = zero_inode;
  iw_id i x : xs !! i = Some x -> i_id x <> 0 -> i_id x = Z.of_nat i + 1;
}.

Record graph_wf (g : sotfs_graph) : Prop := {
  gw_inodes : inodes_wf (inodes g);
  gw_edges : edges_wf (edges g);
}.

(** The inode a live id names. *)
Definition node (g : sotfs_graph) (k : Z) : option sotfs_inode :=
  match _inode_slot k with
  | Some slot => let x := inode_at g slot in if i_id x =? 0 then None else Some x
  | None => None
  end.

(** The child under [name] in directory [p]. *)
Definition entry (g : sotfs_graph) (p : Z) (name : list Z) : option Z :=
  match first_below (edge_hit g p name) SOTFS_MAX_EDGES with
  | Some i => Some (e_child_id (edge_at g i))
  | None => None
  end.

(** ** Names *)

Lemma cchar_0 n i : cname n -> cchar n i = 0 <-> n !! i = None.
Proof.
  intros Hn. unfold cchar. destruct (n !! i) as [c|] eqn:E; simpl; [|done].
  split; [|done]. intros ->. by eapply Forall_lookup_1 in E; [|exact Hn].
Qed.

Lemma cchar_inj n m : cname n -> cname m -> (forall i, cchar n i = cchar m i) -> n = m.
Proof.
  intros Hn Hm He. apply list_eq. intros i. specialize (He i).
  destruct (n !! i) as [c|] eqn:E, (m !! i) as [c'|] eqn:E'; [|exfalso..|done].
  - unfold cchar in He. rewrite E, E' in He. simpl in He. by subst.
  - apply (cchar_0 m i Hm) in E'. rewrite E' in He. apply (cchar_0 n i Hn) in He. congruence.
  - apply (cchar_0 n i Hn) in E. rewrite E in He. symmetry in He. apply (cchar_0 m i Hm) in He. congruence.
Qed.

Lemma name_scan_spec en n j fuel :
  (j <= name_scan en n j fuel <= j + fuel)%nat
  /\ (forall i, (j <= i < name_scan en n j fuel)%nat -> cchar en i = cchar n i /\ cchar en i <> 0)
  /\ ((name_scan en n j fuel < j + fuel)%nat ->
      cchar en (name_scan en n j fuel) = cchar n (name_scan en n j fuel) -> cchar en (name_scan en n j fuel) = 0).
Proof.
  revert j. induction fuel as [|fuel IH]; intros j; simpl; [split_and!; [lia|lia|intros; lia|lia]|].
  destruct ((cchar en j =? cchar n j) && negb (cchar en j =? 0)) eqn:E.
  - bool_to_prop. destruct (IH (j + 1)%nat) as (?&Hb&He). split_and!; [lia|lia| |].
    + intros i Hi. destruct (decide (i = j)) as [->|]; [done|]. apply Hb. lia.
    + intros. apply He; [lia|done].
  - split_and!; [lia|lia|intros; lia|]. intros _ Heq. apply andb_false_iff in E as [E|E]; bool_to_prop; done.
Qed.

Lemma name_match_spec en n : leaf_name en -> cname n -> name_match en n = bool_decide (en = n).
Proof.
  intros [He Hl] Hn. unfold name_match. pose proof (name_scan_spec en n 0 SOTFS_MAX_NAME) as (Hk&Hb&Hs).
  set (k := name_scan en n 0 SOTFS_MAX_NAME) in *. simpl in *. apply eq_bool_prop_intro. rewrite bool_decide_spec.
  unfold Is_true. destruct ((k <? SOTFS_MAX_NAME)%nat && (cchar en k =? cchar n k)) eqn:E.
  - split; [intros _|done]. apply andb_true_iff in E as [E1%Nat.ltb_lt E2%Z.eqb_eq]. specialize (Hs E1 E2).
    apply cchar_inj; [done..|]. intros i. destruct (decide (i < k)%nat) as [Hi|Hi]; [apply Hb; lia|].
    assert (forall m, cname m -> cchar m k = 0 -> cchar m i = 0) as Hz.
    { intros m Hm Hz. apply cchar_0 in Hz; [|done]. apply cchar_0; [done|]. apply lookup_ge_None in Hz. apply lookup_ge_None. lia. }
    rewrite (Hz en) by done. symmetry. apply Hz; congruence.
  - split; [done|]. intros <-. rewrite Z.eqb_refl, andb_true_r in E. apply Nat.ltb_ge in E.
    destruct (Hb (length en)) as [_ Hz]; [lia|]. apply Hz. apply cchar_0; [done|]. by apply lookup_ge_None.
Qed.

(** ** Slots *)

Lemma slot_of_Some id max s : slot_of id max = Some s <-> (s < max)%nat /\ id = Z.of_nat s + 1.
Proof.
  unfold slot_of. rewrite Z.gtb_ltb. destruct ((id <=? 0) || _) eqn:E.
  - split; [done|]. intros [? ->]. apply orb_true_iff in E as [E|E]; bool_to_prop; lia.
  - bool_to_prop. split; [intros [= <-]; lia|]. intros [? ->]. f_equal. lia.
Qed.

Lemma slot_of_None id max : slot_of id max = None <-> ~ (1 <= id <= Z.of_nat max).
Proof.
  unfold slot_of. rewrite Z.gtb_ltb. destruct ((id <=? 0) || _) eqn:E.
  - split; [|done]. intros _. apply orb_true_iff in E as [E|E]; bool_to_prop; lia.
  - bool_to_prop. split; [done|]. lia.
Qed.

Lemma rotate_lt hint max i : (0 < max)%nat -> (rotate hint max i < max)%nat.
Proof. intros. unfold rotate. apply Nat.mod_upper_bound. lia. Qed.

Lemma rotate_cover hint max j : (j < max)%nat -> exists i, (i < max)%nat /\ rotate hint max i = j.
Proof.
  intros Hj. exists ((j + (max - hint mod max)) mod max)%nat. split; [apply Nat.mod_upper_bound; lia|].
  unfold rotate. rewrite Nat.Div0.add_mod_idemp_r. pose proof (Nat.mod_upper_bound hint max).
  rewrite (Nat.div_mod_eq hint max) at 1.
  replace (max * (hint / max) + hint mod max + (j + (max - hint mod max)))%nat with (j + (hint / max + 1) * max)%nat by lia.
  rewrite Nat.Div0.mod_add. by apply Nat.mod_small.
Qed.

Lemma inode_lookup g i : inodes_wf (inodes g) -> (i < SOTFS_MAX_INODES)%nat -> inodes g !! i = Some (inode_at g i).
Proof. intros W Hi. apply array_lookup_lt. by rewrite (iw_len _ W). Qed.

Lemma edge_lookup g i : edges_wf (edges g) -> (i < SOTFS_MAX_EDGES)%nat -> edges g !! i = Some (edge_at g i).
Proof. intros W Hi. apply array_lookup_lt. by rewrite (ew_len _ W). Qed.

Lemma node_Some g k x :
  node g k = Some x <-> exists i, (i < SOTFS_MAX_INODES)%nat /\ k = Z.of_nat i + 1 /\ inode_at g i = x /\ i_id x <> 0.
Proof.
  unfold node, _inode_slot. destruct (slot_of k SOTFS_MAX_INODES) as [i|] eqn:E.
  - apply slot_of_Some in E as [Hi ->]. destruct (i_id (inode_at g i) =? 0) eqn:E; bool_to_prop.
    + split; [done|]. intros (j&_&Hj&<-&Hn). assert (j = i) as -> by lia. done.
    + split; [intros [= <-]; eauto|]. intros (j&_&Hj&<-&Hn). by assert (j = i) as -> by lia.
  - split; [done|]. intros (i&Hi&->&_). apply slot_of_None in E. lia.
Qed.

Lemma node_id g k x : inodes_wf (inodes g) -> node g k = Some x -> i_id x = k /\ 1 <= k <= Z.of_nat SOTFS_MAX_INODES.
Proof.
  intros W (i&Hi&->&<-&Hn)%node_Some. split; [|lia]. apply (iw_id _ W i); [by apply inode_lookup|done].
Qed.

Lemma node_ext g g' k : inodes g' = inodes g -> node g' k = node g k.
Proof. intros He. unfold node, inode_at. by rewrite He. Qed.

Lemma node_set g i x k :
  inodes_wf (inodes g) -> (i < SOTFS_MAX_INODES)%nat ->
  node (set_inode g i x) k = if decide (k = Z.of_nat i + 1) then (if i_id x =? 0 then None else Some x) else node g k.
Proof.
  intros W Hi. unfold node, _inode_slot, inode_at. simpl. destruct (slot_of k SOTFS_MAX_INODES) as [j|] eqn:E.
  - apply slot_of_Some in E as [Hj ->]. rewrite array_get_insert by (rewrite (iw_len _ W); lia).
    destruct (decide (i = j)) as [->|]; [by rewrite decide_True|]. by rewrite decide_False by lia.
  - apply slot_of_None in E. by rewrite decide_False by lia.
Qed.

Lemma set_inode_wf g i x :
  inodes_wf (inodes g) -> (x = zero_inode \/ i_id x = Z.of_nat i + 1) -> inodes_wf (inodes (set_inode g i x)).
Proof.
  intros [Hl Hf Hi] Hx. constructor; simpl.
  - by rewrite length_insert.
  - intros j y [(<-&<-&_)|[_ Hj]]%lookup_insert_cases Hy; [|by eapply Hf]. destruct Hx as [->|Hx]; [done|lia].
  - intros j y [(<-&<-&_)|[_ Hj]]%lookup_insert_cases Hy; [|by eapply Hi]. destruct Hx as [->|Hx]; [done|lia].
Qed.

(** ** Entries *)

Lemma edge_hit_spec g p n i :
  edges_wf (edges g) -> cname n -> (i < SOTFS_MAX_EDGES)%nat ->
  edge_hit g p n i = true
  <-> live_edge (edges g) i (edge_at g i) /\ e_parent_id (edge_at g i) = p /\ e_name (edge_at g i) = n.
Proof.
  intros W Hn Hi. pose proof (edge_lookup g i W Hi) as He. unfold edge_hit, live_edge.
  destruct (decide (e_id (edge_at g i) = 0)) as [H0|H0].
  - rewrite H0. simpl. split; [done|]. intros [[_ ?] _]. done.
  - pose proof (ew_id _ W i _ (conj He H0)) as [_ Hname]. rewrite name_match_spec by done.
    rewrite !andb_true_iff, negb_true_iff, Z.eqb_neq, Z.eqb_eq, bool_decide_eq_true. naive_solver.
Qed.

Lemma entry_Some g p n c :
  edges_wf (edges g) -> cname n ->
  entry g p n = Some c
  <-> exists i e, live_edge (edges g) i e /\ e_parent_id e = p /\ e_name e = n /\ e_child_id e = c.
Proof.
  intros W Hn. unfold entry. split.
  - destruct (first_below _ _) as [i|] eqn:E; [|done]. intros [= <-].
    apply first_below_Some in E as (Hi&Hh&_). apply edge_hit_spec in Hh as (?&?&?); [|done..]. by exists i, (edge_at g i).
  - intros (i&e&L&Hp&Hm&Hc). assert (i < SOTFS_MAX_EDGES)%nat as Hi.
    { rewrite <-(ew_len _ W). eapply lookup_lt_Some, L. }
    assert (edge_at g i = e) as Hat by (apply array_get, L).
    destruct (first_below _ _) as [j|] eqn:E.
    + apply first_below_Some in E as (Hj&Hh&_). apply edge_hit_spec in Hh as (L'&Hp'&Hm'); [|done..].
      assert (i = j) as <- by (eapply (ew_uniq _ W); [exact L|exact L'|congruence..]). by rewrite Hat, Hc.
    + pose proof (first_below_None _ _ _ E Hi) as Hh. apply not_true_iff_false in Hh. destruct Hh.
      apply edge_hit_spec; [done..|]. by rewrite Hat.
Qed.

Lemma entry_ext g g' p n : edges g' = edges g -> entry g' p n = entry g p n.
Proof. intros He. unfold entry, edge_hit, edge_at. by rewrite He. Qed.

(** The edge id the code looks up, when the entry exists. *)
Lemma find_edge_spec g p n :
  edges_wf (edges g) -> cname n ->
  match entry g p n with
  | Some c => exists i, (i < SOTFS_MAX_EDGES)%nat /\ sotfs_find_edge g p n = Z.of_nat i + 1
                /\ live_edge (edges g) i (edge_at g i) /\ e_parent_id (edge_at g i) = p
                /\ e_name (edge_at g i) = n /\ e_child_id (edge_at g i) = c
  | None => sotfs_find_edge g p n = 0
  end.
Proof.
  intros W Hn. unfold entry, sotfs_find_edge. destruct (first_below _ _) as [i|] eqn:E; [|done].
  apply first_below_Some in E as (Hi&Hh&_). apply edge_hit_spec in Hh as (L&Hp&Hm); [|done..].
  exists i. split_and!; try done; try apply L. by apply (ew_id _ W).
Qed.

Lemma find_edge_0 g p n :
  edges_wf (edges g) -> cname n -> (sotfs_find_edge g p n =? 0) = bool_decide (entry g p n = None).
Proof.
  intros W Hn. pose proof (find_edge_spec g p n W Hn) as Hf. destruct (entry g p n).
  - destruct Hf as (i&_&->&_). rewrite bool_decide_false by done. apply Z.eqb_neq. lia.
  - by rewrite Hf.
Qed.

(** ** Primitives *)

#[local] Opaque rotate Nat.modulo.

Definition new_inode (id : Z) (kind : sotfs_inode_kind) (mode : Z) : sotfs_inode :=
  mk_inode id kind mode 0 0 (if bool_decide (kind = KIND_DIR) then 2 else 1) 0 false 0 0 0 0.

Lemma alloc_inode_spec g kind mode id g' :
  graph_wf g -> sotfs_alloc_inode g kind mode = (id, g') ->
  (id = 0 /\ g' = g /\ forall k, 1 <= k <= Z.of_nat SOTFS_MAX_INODES -> is_Some (node g k))
  \/ (node g id = None /\ 1 <= id <= Z.of_nat SOTFS_MAX_INODES /\ graph_wf g' /\ edges g' = edges g /\ blocks g' = blocks g
      /\ root_id g' = root_id g
      /\ forall k, node g' k = if decide (k = id) then Some (new_inode id kind mode) else node g k).
Proof.
  intros [Wi We]. unfold sotfs_alloc_inode. destruct (first_below _ _) as [i|] eqn:E; intros [= <- <-].
  - right. apply first_below_Some in E as (Hi&Hz&_). bool_to_prop. set (slot := rotate _ _ _) in *.
    assert (slot < SOTFS_MAX_INODES)%nat as Hs by (apply rotate_lt; unfold SOTFS_MAX_INODES; lia).
    pose proof (iw_free _ Wi slot _ (inode_lookup g slot Wi Hs) Hz) as ->. simpl.
    fold (new_inode (Z.of_nat slot + 1) kind mode).
    split_and!; try done; try lia.
    + unfold node, _inode_slot. rewrite (proj2 (slot_of_Some (Z.of_nat slot + 1) SOTFS_MAX_INODES slot)) by done. by rewrite Hz.
    + constructor; [|done]. apply (set_inode_wf g slot); [done|by right].
    + intros k. rewrite (node_ext (set_inode g slot (new_inode (Z.of_nat slot + 1) kind mode))) by done.
      rewrite node_set by done. case_decide; [|done]. simpl. rewrite (proj2 (Z.eqb_neq _ _)) by lia. done.
  - left. split_and!; [done..|]. intros k Hk. destruct (rotate_cover (next_inode_hint g) SOTFS_MAX_INODES (Z.to_nat (k - 1))) as (i&Hi&Hr); [lia|].
    pose proof (first_below_None _ _ _ E Hi) as Hz. simpl in Hz. rewrite Hr in Hz. bool_to_prop.
    exists (inode_at g (Z.to_nat (k - 1))). apply node_Some. exists (Z.to_nat (k - 1)). split_and!; [lia|lia|done|done].
Qed.

Lemma free_inode_spec g k0 :
  inodes_wf (inodes g) -> 1 <= k0 <= Z.of_nat SOTFS_MAX_INODES ->
  inodes_wf (inodes (sotfs_free_inode g k0)) /\ edges (sotfs_free_inode g k0) = edges g
  /\ blocks (sotfs_free_inode g k0) = blocks g /\ root_id (sotfs_free_inode g k0) = root_id g
  /\ forall k, node (sotfs_free_inode g k0) k = if decide (k = k0) then None else node g k.
Proof.
  intros W Hk. unfold sotfs_free_inode, _inode_slot.
  rewrite (proj2 (slot_of_Some k0 SOTFS_MAX_INODES (Z.to_nat (k0 - 1)))) by lia.
  split_and!; try done; [apply set_inode_wf; [done|by left]|].
  intros k. rewrite node_set by (done || lia). replace (Z.of_nat (Z.to_nat (k0 - 1)) + 1) with k0 by lia. by case_decide.
Qed.

(** All edge slots in use. *)
Definition edges_full (g : sotfs_graph) : Prop := forall i, (i < SOTFS_MAX_EDGES)%nat -> e_id (edge_at g i) <> 0.

Lemma strlcpy_leaf n : (length n < SOTFS_MAX_NAME)%nat -> sotos_strlcpy n = n.
Proof. intros. unfold sotos_strlcpy. apply take_ge. lia. Qed.

Lemma set_edge_live es i e j x :
  length es = SOTFS_MAX_EDGES -> (i < SOTFS_MAX_EDGES)%nat ->
  live_edge (<[i := e]> es) j x <-> (j = i /\ x = e /\ e_id e <> 0) \/ (j <> i /\ live_edge es j x).
Proof.
  intros Hl Hi. unfold live_edge. rewrite list_lookup_insert_Some. split.
  - intros [[(->&->&_)|[? ?]] ?]; [left|right]; auto.
  - intros [(->&->&?)|(?&?&?)]; split; auto. left. split_and!; [done..|lia].
Qed.

Lemma alloc_edge_spec g p c n id g' :
  graph_wf g -> leaf_name n -> entry g p n = None -> sotfs_alloc_edge g p c n = (id, g') ->
  (id = 0 /\ g' = g /\ edges_full g)
  \/ (1 <= id <= Z.of_nat SOTFS_MAX_EDGES /\ e_id (edge_at g (Z.to_nat (id - 1))) = 0
      /\ graph_wf g' /\ inodes g' = inodes g /\ blocks g' = blocks g /\ root_id g' = root_id g
      /\ edges g' = <[Z.to_nat (id - 1) := mk_edge id p c n 0]> (edges g)
      /\ forall q m, cname m -> entry g' q m = if decide ((q, m) = (p, n)) then Some c else entry g q m).
Proof.
  intros [Wi We] Hn Hfree. unfold sotfs_alloc_edge. destruct (first_below _ _) as [i|] eqn:E; intros [= <- <-].
  - right. apply first_below_Some in E as (Hi&Hz&_). bool_to_prop. set (slot := rotate _ _ _) in *.
    assert (slot < SOTFS_MAX_EDGES)%nat as Hs by (apply rotate_lt; unfold SOTFS_MAX_EDGES; lia).
    pose proof (ew_free _ We slot _ (edge_lookup g slot We Hs) Hz) as Hslot. rewrite Hslot. simpl.
    rewrite strlcpy_leaf by apply Hn. replace (Z.to_nat (Z.of_nat slot + 1 - 1)) with slot by lia.
    set (e := mk_edge _ _ _ _ _). pose proof (ew_len _ We) as Hl.
    assert (e_id e <> 0) as He by (simpl; lia).
    assert (forall j x, live_edge (<[slot := e]> (edges g)) j x <-> (j = slot /\ x = e) \/ (j <> slot /\ live_edge (edges g) j x)) as HL.
    { intros j x. rewrite set_edge_live by done. naive_solver. }
    assert (edges_wf (<[slot := e]> (edges g))) as We'.
    { constructor.
      - by rewrite length_insert.
      - intros j x [(<-&<-&_)|[_ ?]]%lookup_insert_cases ?; [done|by eapply (ew_free _ We)].
      - intros j x [[-> ->]|[? ?]]%HL; [by split|by apply (ew_id _ We)].
      - assert (forall j x, live_edge (edges g) j x -> e_parent_id x = p -> e_name x = n -> False) as Hno.
        { intros j x Lx Hp Hm. assert (entry g p n = Some (e_child_id x)); [|congruence].
          apply entry_Some; [done|apply Hn|]. by exists j, x. }
        intros j k x y [[-> ->]|[? Lx]]%HL [[-> ->]|[? Ly]]%HL Hp Hm; simpl in *; [done|exfalso; eauto..|by eapply (ew_uniq _ We)]. }
    split_and!; try done; try lia.
    + intros q m Hm. apply option_eq. intros c'. rewrite entry_Some by done. simpl. case_decide as Hk; simplify_eq.
      * split; [|intros [= <-]; exists slot, e; split_and!; try done; by apply HL; left].
        intros (j&x&[[-> ->]|[_ L]]%HL&Hp&Hm'&Hc); [simpl in Hc; congruence|]. assert (entry g p n = Some c'); [|congruence].
        apply entry_Some; [done..|]. by exists j, x.
      * rewrite entry_Some by done. split.
        -- intros (j&x&[[-> ->]|[_ L]]%HL&Hp&Hm'&Hc); [|by exists j, x]. simpl in *. congruence.
        -- intros (j&x&L&Hp&Hm'&Hc). exists j, x. split_and!; try done. apply HL. right. split; [|done].
           intros ->. destruct L as [L Hx]. apply Hx. rewrite (edge_lookup g slot We Hs) in L. injection L as <-. done.
  - left. split_and!; [done..|]. intros j Hj. destruct (rotate_cover (next_edge_hint g) SOTFS_MAX_EDGES j Hj) as (i&Hi&Hr).
    pose proof (first_below_None _ _ _ E Hi) as Hz. simpl in Hz. rewrite Hr in Hz. by bool_to_prop.
Qed.

Lemma free_edge_spec g i p n c :
  graph_wf g -> (i < SOTFS_MAX_EDGES)%nat -> live_edge (edges g) i (edge_at g i) ->
  e_parent_id (edge_at g i) = p -> e_name (edge_at g i) = n -> e_child_id (edge_at g i) = c ->
  let g' := sotfs_free_edge g (Z.of_nat i + 1) in
  graph_wf g' /\ inodes g' = inodes g /\ blocks g' = blocks g /\ root_id g' = root_id g
  /\ edges g' = <[i := zero_edge]> (edges g)
  /\ forall q m, cname m -> entry g' q m = if decide ((q, m) = (p, n)) then None else entry g q m.
Proof.
  intros [Wi We] Hi L Hp Hn Hc. unfold sotfs_free_edge, _edge_slot.
  rewrite (proj2 (slot_of_Some (Z.of_nat i + 1) SOTFS_MAX_EDGES i)) by done. cbv zeta. pose proof (ew_len _ We) as Hl.
  assert (forall j x, live_edge (<[i := zero_edge]> (edges g)) j x <-> j <> i /\ live_edge (edges g) j x) as HL.
  { intros j x. rewrite set_edge_live by done. simpl. naive_solver. }
  assert (edges_wf (<[i := zero_edge]> (edges g))) as We'.
  { constructor.
    - by rewrite length_insert.
    - intros j x [(<-&<-&_)|[_ ?]]%lookup_insert_cases ?; [done|by eapply (ew_free _ We)].
    - intros j x [? ?]%HL. by apply (ew_id _ We).
    - intros j k x y [? Lx]%HL [? Ly]%HL. by apply (ew_uniq _ We). }
  split_and!; try done. intros q m Hm. apply option_eq. intros c'. rewrite entry_Some by done. simpl.
  case_decide as Hk.
  - injection Hk as -> ->. split; [|done]. intros (j&x&[Hne Lx]%HL&Hp'&Hm'&_).
    destruct Hne. eapply (ew_uniq _ We); [exact Lx|exact L|congruence..].
  - rewrite entry_Some by done. split.
    + intros (j&x&[_ Lx]%HL&?). by exists j, x.
    + intros (j&x&Lx&Hp'&Hm'&Hc'). exists j, x. split_and!; try done. apply HL. split; [|done]. intros ->.
      assert (edge_at g i = x) as Hat by (apply array_get, Lx). rewrite Hat in *. congruence.
Qed.
