(* ===== verification/FsSpec.v ===== *)
(** * The abstract file system and the simulation

    [fs] is a file system as its client sees it: a map of inodes and a map from
    (directory, name) to the child.  [fs_step] gives every rule of rewrite.c on it,
    error results included; [fs_ok] is its invariant.  [fs_rel] relates the graph
    of the code to it, and [exec_sim] is the simulation. *)

From S2P Require Import Prelude BlockStore Graph Rewrite FsInv.

Record fs := mk_fs {
  fs_nodes : gmap Z sotfs_inode;
  fs_tree : gmap (Z * list Z) Z;
  fs_root : Z;
}.

Inductive fs_op :=
| OpCreate (kind : sotfs_inode_kind) (p : Z) (n : list Z) (mode : Z)
| OpUnlink (p : Z) (n : list Z)
| OpRmdir (p : Z) (n : list Z)
| OpRename (ps : Z) (old_name : list Z) (pd : Z) (new_name : list Z)
| OpOpen (k : Z)
| OpClose (k : Z).

(** Names are C strings and [create] makes files and directories. *)
Definition fs_op_ok (op : fs_op) : Prop :=
  match op with
  | OpCreate kind p n mode => cname n /\ (kind = KIND_FILE \/ kind = KIND_DIR)
  | OpUnlink p n | OpRmdir p n => cname n
  | OpRename ps n pd m => cname n /\ cname m
  | _ => True
  end.

Definition fs_exec (g : sotfs_graph) (op : fs_op) : Z * sotfs_graph :=
  match op with
  | OpCreate kind p n mode =>
      if bool_decide (kind = KIND_DIR) then sotfs_rewrite_mkdir g p n mode else sotfs_rewrite_create_file g p n mode
  | OpUnlink p n => sotfs_rewrite_unlink g p n
  | OpRmdir p n => sotfs_rewrite_rmdir g p n
  | OpRename ps n pd m => sotfs_rewrite_rename g ps n pd m
  | OpOpen k => (SOTFS_OK, sotfs_inode_open g k)
  | OpClose k => (SOTFS_OK, sotfs_inode_close g k)
  end.

(** ** The specification *)

Section spec.
Context (a : fs).

Definition guard_dir (p : Z) : Z :=
  match fs_nodes a !! p with
  | None => SOTFS_ERR_NOENT
  | Some x => if bool_decide (i_kind x = KIND_DIR) then SOTFS_OK else SOTFS_ERR_NOTDIR
  end.

Definition guard_name (n : list Z) : Z :=
  if bool_decide (n = []) then SOTFS_ERR_INVAL
  else if (SOTFS_MAX_NAME <=? length n)%nat then SOTFS_ERR_NAMETOOLONG else SOTFS_OK.

Definition guard_create (p : Z) (n : list Z) : Z :=
  if negb (guard_name n =? SOTFS_OK) then guard_name n
  else if negb (guard_dir p =? SOTFS_OK) then guard_dir p
  else if bool_decide (fs_tree a !! (p, n) = None) then SOTFS_OK else SOTFS_ERR_EXISTS.

(** The child a removal names, or the error. *)
Definition guard_child (p : Z) (n : list Z) : Z + (Z * sotfs_inode) :=
  if bool_decide (n = []) then inl SOTFS_ERR_INVAL
  else if negb (guard_dir p =? SOTFS_OK) then inl (guard_dir p)
  else match fs_tree a !! (p, n) with
       | None => inl SOTFS_ERR_NOENT
       | Some c => match fs_nodes a !! c with None => inl SOTFS_ERR_INVAL | Some x => inr (c, x) end
       end.

Definition guard_rename (ps : Z) (n : list Z) (pd : Z) (m : list Z) : Z :=
  if bool_decide (n = []) || bool_decide (m = []) then SOTFS_ERR_INVAL
  else if (SOTFS_MAX_NAME <=? length n)%nat || (SOTFS_MAX_NAME <=? length m)%nat then SOTFS_ERR_NAMETOOLONG
  else if negb (guard_dir ps =? SOTFS_OK) then guard_dir ps
  else if negb (guard_dir pd =? SOTFS_OK) then guard_dir pd
  else if bool_decide (fs_tree a !! (ps, n) = None) then SOTFS_ERR_NOENT
  else if bool_decide (fs_tree a !! (pd, m) = None) then SOTFS_OK else SOTFS_ERR_EXISTS.

Definition nodes_full : Prop := forall k, 1 <= k <= Z.of_nat SOTFS_MAX_INODES -> is_Some (fs_nodes a !! k).
Definition tree_full : Prop := (SOTFS_MAX_EDGES <= size (fs_tree a))%nat.

(** Dropping the last link of an inode: it lives on while it is open. *)
Definition drop_link (c : Z) (x : sotfs_inode) : gmap Z sotfs_inode :=
  if i_nlink x - 1 <=? 0 then
    if i_open_count x >? 0 then <[c := upd_inode x (i_nlink x - 1) true (i_open_count x)]> (fs_nodes a)
    else delete c (fs_nodes a)
  else <[c := upd_inode x (i_nlink x - 1) (i_orphan x) (i_open_count x)]> (fs_nodes a).

Definition open_node (k : Z) : gmap Z sotfs_inode :=
  match fs_nodes a !! k with
  | Some x => if i_open_count x <? 255 then <[k := upd_inode x (i_nlink x) (i_orphan x) (i_open_count x + 1)]> (fs_nodes a)
              else fs_nodes a
  | None => fs_nodes a
  end.

Definition close_node (k : Z) : gmap Z sotfs_inode :=
  match fs_nodes a !! k with
  | Some x =>
      let n := if i_open_count x >? 0 then i_open_count x - 1 else i_open_count x in
      if (n =? 0) && i_orphan x then delete k (fs_nodes a)
      else <[k := upd_inode x (i_nlink x) (i_orphan x) n]> (fs_nodes a)
  | None => fs_nodes a
  end.

Inductive fs_step : fs_op -> Z -> fs -> Prop :=
| StCreateErr kind p n mode : guard_create p n <> SOTFS_OK -> fs_step (OpCreate kind p n mode) (guard_create p n) a
| StCreateFull kind p n mode :
    guard_create p n = SOTFS_OK -> nodes_full \/ tree_full -> fs_step (OpCreate kind p n mode) SOTFS_ERR_NOSPACE a
| StCreate kind p n mode id :
    guard_create p n = SOTFS_OK -> fs_nodes a !! id = None -> 1 <= id <= Z.of_nat SOTFS_MAX_INODES ->
    fs_step (OpCreate kind p n mode) id
      (mk_fs (<[id := new_inode id kind mode]> (fs_nodes a)) (<[(p, n) := id]> (fs_tree a)) (fs_root a))
| StUnlinkErr p n err : guard_child p n = inl err -> fs_step (OpUnlink p n) err a
| StUnlinkDir p n c x : guard_child p n = inr (c, x) -> i_kind x = KIND_DIR -> fs_step (OpUnlink p n) SOTFS_ERR_ISDIR a
| StUnlink p n c x :
    guard_child p n = inr (c, x) -> i_kind x <> KIND_DIR ->
    fs_step (OpUnlink p n) SOTFS_OK (mk_fs (drop_link c x) (delete (p, n) (fs_tree a)) (fs_root a))
| StRmdirErr p n err : guard_child p n = inl err -> fs_step (OpRmdir p n) err a
| StRmdirFile p n c x : guard_child p n = inr (c, x) -> i_kind x <> KIND_DIR -> fs_step (OpRmdir p n) SOTFS_ERR_NOTDIR a
| StRmdirFull p n c x m c' :
    guard_child p n = inr (c, x) -> i_kind x = KIND_DIR -> fs_tree a !! (c, m) = Some c' ->
    fs_step (OpRmdir p n) SOTFS_ERR_NOTEMPTY a
| StRmdir p n c x :
    guard_child p n = inr (c, x) -> i_kind x = KIND_DIR -> (forall m, fs_tree a !! (c, m) = None) ->
    fs_step (OpRmdir p n) SOTFS_OK (mk_fs (delete c (fs_nodes a)) (delete (p, n) (fs_tree a)) (fs_root a))
| StRenameErr ps n pd m : guard_rename ps n pd m <> SOTFS_OK -> fs_step (OpRename ps n pd m) (guard_rename ps n pd m) a
| StRenameFull ps n pd m :
    guard_rename ps n pd m = SOTFS_OK -> tree_full -> fs_step (OpRename ps n pd m) SOTFS_ERR_NOSPACE a
| StRename ps n pd m c :
    guard_rename ps n pd m = SOTFS_OK -> fs_tree a !! (ps, n) = Some c ->
    fs_step (OpRename ps n pd m) SOTFS_OK
      (mk_fs (fs_nodes a) (delete (ps, n) (<[(pd, m) := c]> (fs_tree a))) (fs_root a))
| StOpen k : fs_step (OpOpen k) SOTFS_OK (mk_fs (open_node k) (fs_tree a) (fs_root a))
| StClose k : fs_step (OpClose k) SOTFS_OK (mk_fs (close_node k) (fs_tree a) (fs_root a)).

(** ** The invariant of the abstract file system *)

Record fs_ok : Prop := {
  ok_root : exists x, fs_nodes a !! fs_root a = Some x /\ i_kind x = KIND_DIR;
  ok_root_top p n : fs_tree a !! (p, n) <> Some (fs_root a);
  ok_parent p n c : fs_tree a !! (p, n) = Some c -> exists x, fs_nodes a !! p = Some x /\ i_kind x = KIND_DIR;
  ok_child p n c : fs_tree a !! (p, n) = Some c -> is_Some (fs_nodes a !! c);
  ok_name p n c : fs_tree a !! (p, n) = Some c -> leaf_name n /\ n <> [];
  ok_single p n p' n' c : fs_tree a !! (p, n) = Some c -> fs_tree a !! (p', n') = Some c -> (p, n) = (p', n');
  ok_node c x : fs_nodes a !! c = Some x -> i_id x = c /\ 0 <= i_open_count x <= 255 /\ 1 <= c <= Z.of_nat SOTFS_MAX_INODES;
  ok_linked c x : fs_nodes a !! c = Some x ->
    c = fs_root a \/ (exists p n, fs_tree a !! (p, n) = Some c) \/ i_orphan x = true;
  ok_orphan c x : fs_nodes a !! c = Some x -> i_orphan x = true ->
    i_nlink x = 0 /\ 0 < i_open_count x /\ i_kind x <> KIND_DIR /\ forall p n, fs_tree a !! (p, n) <> Some c;
  ok_nlink c x p n : fs_nodes a !! c = Some x -> i_kind x <> KIND_DIR -> fs_tree a !! (p, n) = Some c -> i_nlink x = 1;
}.
End spec.

Inductive fs_run : fs -> list fs_op -> list Z -> fs -> Prop :=
| FsNil a : fs_run a [] [] a
| FsCons a1 a2 a3 op r ops rs : fs_step a1 op r a2 -> fs_run a2 ops rs a3 -> fs_run a1 (op :: ops) (r :: rs) a3.

Definition fs_init : fs := mk_fs {[1 := new_inode 1 KIND_DIR mode_0755]} ∅ 1.

(** ** The simulation relation *)

Record fs_rel (g : sotfs_graph) (a : fs) : Prop := {
  rel_wf : graph_wf g;
  rel_nodes k : fs_nodes a !! k = node g k;
  rel_tree p n : cname n -> fs_tree a !! (p, n) = entry g p n;
  rel_keys p n c : fs_tree a !! (p, n) = Some c -> cname n;
  rel_root : fs_root a = root_id g;
}.

Section sim.
Context (g : sotfs_graph) (a : fs) (R : fs_rel g a) (O : fs_ok a).

Lemma sim_dir p : dir_guard g p = guard_dir a p.
Proof using R.
  unfold dir_guard, guard_dir. rewrite (rel_nodes _ _ R). unfold node. destruct (_inode_slot p); [|done].
  by destruct (_ =? 0).
Qed.

Lemma sim_find p n : cname n -> (sotfs_find_edge g p n =? 0) = bool_decide (fs_tree a !! (p, n) = None).
Proof using R. intros Hn. rewrite find_edge_0 by (done || apply R). by rewrite (rel_tree _ _ R). Qed.

Lemma sim_full : edges_full g -> tree_full a.
Proof using R.
  intros Hfull. pose proof (gw_edges _ (rel_wf _ _ R)) as We. unfold tree_full. rewrite <-(ew_len _ We).
  assert (forall i e, edges g !! i = Some e -> live_edge (edges g) i e) as HL.
  { intros i e Hi. split; [done|]. rewrite <-(array_get _ _ _ zero_edge Hi). apply Hfull.
    rewrite <-(ew_len _ We). by eapply lookup_lt_Some. }
  set (key := fun e => (e_parent_id e, e_name e)). rewrite <-(length_fmap key), <-size_dom.
  assert (NoDup (key <$> edges g)) as Hnd.
  { apply NoDup_alt. intros i j x Hi Hj. apply list_lookup_fmap_Some in Hi as (e&->&Hi), Hj as (e'&Hk&Hj).
    injection Hk as ? ?. eapply (ew_uniq _ We); eauto. }
  rewrite <-(size_list_to_set (C := gset _) _ Hnd). apply subseteq_size. intros x Hx. apply elem_of_list_to_set in Hx.
  apply list_elem_of_fmap in Hx as (e&->&He). apply list_elem_of_lookup in He as (i&Hi). apply elem_of_dom.
  pose proof (proj2 (ew_id _ We i e (HL _ _ Hi))) as [Hn _]. unfold key. rewrite (rel_tree _ _ R) by done.
  exists (e_child_id e). apply entry_Some; [done..|]. exists i, e. auto.
Qed.

(** An entry that exists, as the code sees it. *)
Lemma sim_entry p n c :
  cname n -> fs_tree a !! (p, n) = Some c ->
  exists i, (i < SOTFS_MAX_EDGES)%nat /\ sotfs_find_edge g p n = Z.of_nat i + 1 /\ _edge_slot (Z.of_nat i + 1) = Some i
    /\ live_edge (edges g) i (edge_at g i) /\ e_parent_id (edge_at g i) = p /\ e_name (edge_at g i) = n
    /\ e_child_id (edge_at g i) = c.
Proof using R.
  intros Hn Hc. rewrite (rel_tree _ _ R) in Hc by done. pose proof (find_edge_spec g p n (gw_edges _ (rel_wf _ _ R)) Hn) as Hf.
  rewrite Hc in Hf. destruct Hf as (i&Hi&Hf). exists i. split_and!; try apply Hf; [done|]. by apply slot_of_Some.
Qed.

Lemma sim_node c x :
  fs_nodes a !! c = Some x -> exists i, (i < SOTFS_MAX_INODES)%nat /\ c = Z.of_nat i + 1 /\ _inode_slot c = Some i
    /\ inode_at g i = x /\ i_id x = c.
Proof using R O.
  intros Hc. pose proof (ok_node _ O _ _ Hc) as [Hid _]. rewrite (rel_nodes _ _ R) in Hc.
  apply node_Some in Hc as (i&Hi&->&Hx&_). exists i. split_and!; try done. by apply slot_of_Some.
Qed.

Lemma sim_child p n :
  cname n ->
  match guard_child a p n with
  | inl err => lookup_child g p n = inl err
  | inr (c, x) => exists i j, lookup_child g p n = inr (Z.of_nat i + 1, c, j) /\ (i < SOTFS_MAX_EDGES)%nat
       /\ (j < SOTFS_MAX_INODES)%nat /\ c = Z.of_nat j + 1 /\ inode_at g j = x /\ i_id x = c
       /\ live_edge (edges g) i (edge_at g i) /\ e_parent_id (edge_at g i) = p /\ e_name (edge_at g i) = n
       /\ e_child_id (edge_at g i) = c /\ fs_nodes a !! c = Some x /\ fs_tree a !! (p, n) = Some c
  end.
Proof using R O.
  intros Hn. unfold guard_child, lookup_child. rewrite sim_dir. destruct (bool_decide (n = [])); [done|].
  destruct (negb (guard_dir a p =? SOTFS_OK)); [done|]. rewrite sim_find by done.
  destruct (fs_tree a !! (p, n)) as [c|] eqn:E; [|done]. rewrite bool_decide_false by done.
  destruct (ok_child _ O _ _ _ E) as [x Hx]. rewrite Hx. destruct (sim_entry p n c Hn E) as (i&Hi&->&->&L&Hp&Hm&Hc).
  destruct (sim_node c x Hx) as (j&Hj&Hcj&Hs&Hat&Hid). rewrite Hc, Hs. exists i, j. split_and!; done.
Qed.

Lemma sim_create kind p n mode :
  fs_op_ok (OpCreate kind p n mode) ->
  exists a', fs_step a (OpCreate kind p n mode) (rewrite_create kind g p n mode).1 a'
    /\ fs_rel (rewrite_create kind g p n mode).2 a'.
Proof using R.
  intros [Hn _]. pose proof (rel_wf _ _ R) as W.
  assert (rewrite_create kind g p n mode
          = if negb (guard_create a p n =? SOTFS_OK) then (guard_create a p n, g)
            else let '(id, g1) := sotfs_alloc_inode g kind mode in
                 if id =? 0 then (SOTFS_ERR_NOSPACE, g1)
                 else let '(edge_id, g2) := sotfs_alloc_edge g1 p id n in
                      if edge_id =? 0 then (SOTFS_ERR_NOSPACE, sotfs_free_inode g2 id) else (id, g2)) as ->.
  { unfold rewrite_create, guard_create, guard_name. rewrite sim_dir, sim_find by done.
    destruct (bool_decide (n = [])); [done|]. destruct (_ <=? length n)%nat; [done|]. simpl.
    destruct (guard_dir a p =? SOTFS_OK) eqn:E; simpl; rewrite ?E; simpl; [|done]. by destruct (bool_decide (_ = None)). }
  destruct (negb (guard_create a p n =? SOTFS_OK)) eqn:E; bool_to_prop.
  { exists a. split; [by constructor|done]. }
  assert (leaf_name n /\ fs_tree a !! (p, n) = None) as [Hleaf Hfree].
  { revert E. unfold guard_create, guard_name. destruct (bool_decide (n = [])); [done|].
    destruct (_ <=? length n)%nat eqn:El; [done|]. apply Nat.leb_gt in El. simpl.
    destruct (guard_dir a p =? SOTFS_OK) eqn:E2; simpl; [|intros E; rewrite E in E2; done].
    case_bool_decide; [|done]. intros _. split; [by split|done]. }
  rewrite (rel_tree _ _ R) in Hfree by done.
  destruct (sotfs_alloc_inode g kind mode) as [id g1] eqn:Ea.
  destruct (alloc_inode_spec _ _ _ _ _ W Ea) as [(->&->&Hfull)|(Hnew&Hid&W1&Ee1&Eb1&Er1&Hnode)]; simpl.
  { exists a. split; [|done]. apply StCreateFull; [done|left]. intros k Hk. rewrite (rel_nodes _ _ R). auto. }
  rewrite (proj2 (Z.eqb_neq id 0)) by lia. rewrite <-(entry_ext g g1) in Hfree by done.
  destruct (sotfs_alloc_edge g1 p id n) as [eid g2] eqn:Eb.
  destruct (alloc_edge_spec _ _ _ _ _ _ W1 Hleaf Hfree Eb) as [(->&->&Hfull)|(Heid&_&W2&Ei2&Eb2&Er2&Eg2&Hent)]; simpl.
  - exists a. split.
    + apply StCreateFull; [done|right]. apply sim_full. intros i Hi. specialize (Hfull i Hi). unfold edge_at in *. by rewrite Ee1 in Hfull.
    + destruct (free_inode_spec g1 id (gw_inodes _ W1) Hid) as (Wf&Ef&_&Erf&Hnf). constructor.
      * constructor; [done|]. rewrite Ef. apply W1.
      * intros k. rewrite Hnf, Hnode, (rel_nodes _ _ R). case_decide as Hk; [by subst|done].
      * intros q m Hm. rewrite (entry_ext g1) by done. rewrite (entry_ext g) by done. by apply (rel_tree _ _ R).
      * apply R.
      * rewrite Erf, Er1. apply R.
  - rewrite (proj2 (Z.eqb_neq eid 0)) by lia. eexists. split; [apply StCreate; [done| |done]; by rewrite (rel_nodes _ _ R)|].
    constructor; simpl; [done|..].
    + intros k. rewrite (node_ext g1) by done. rewrite Hnode. destruct (decide (k = id)) as [->|Hk].
      * by rewrite lookup_insert_eq.
      * rewrite lookup_insert_ne by done. apply R.
    + intros q m Hm. rewrite Hent by done. destruct (decide ((q, m) = (p, n))) as [->|Hk].
      * by rewrite lookup_insert_eq.
      * rewrite lookup_insert_ne by done. rewrite (entry_ext g) by done. by apply R.
    + intros q m c [[[= <- <-] _]|[_ Hc]]%lookup_insert_Some; [done|by eapply (rel_keys _ _ R)].
    + rewrite Er2, Er1. apply R.
Qed.

(** Removing an entry and updating the inodes. *)
Lemma sim_remove g' i p n c xs :
  (i < SOTFS_MAX_EDGES)%nat -> live_edge (edges g) i (edge_at g i) -> e_parent_id (edge_at g i) = p ->
  e_name (edge_at g i) = n -> e_child_id (edge_at g i) = c ->
  edges g' = edges (sotfs_free_edge g (Z.of_nat i + 1)) -> inodes_wf (inodes g') -> root_id g' = root_id g ->
  (forall k, xs !! k = node g' k) -> fs_rel g' (mk_fs xs (delete (p, n) (fs_tree a)) (fs_root a)).
Proof using R.
  intros Hi L Hp Hn Hc He Wi Hr Hxs. pose proof (free_edge_spec g i p n c (rel_wf _ _ R) Hi L Hp Hn Hc) as (W&_&_&_&_&Hent).
  pose proof (ew_id _ (gw_edges _ (rel_wf _ _ R)) i _ L) as [_ [Hcn _]]. rewrite Hn in Hcn.
  constructor; simpl; [|done|..].
  - constructor; [done|]. rewrite He. apply W.
  - intros q m Hm. rewrite (entry_ext (sotfs_free_edge g (Z.of_nat i + 1))) by done. rewrite Hent by done.
    destruct (decide ((q, m) = (p, n))) as [->|Hk]; [by rewrite lookup_delete_eq|].
    rewrite lookup_delete_ne by done. by apply R.
  - intros q m c' [_ Hk]%lookup_delete_Some. by eapply (rel_keys _ _ R).
  - rewrite Hr. apply R.
Qed.

Lemma free_edge_inodes k : inodes (sotfs_free_edge g k) = inodes g /\ root_id (sotfs_free_edge g k) = root_id g.
Proof using Type. unfold sotfs_free_edge. by destruct (_edge_slot k). Qed.

(** Freeing the storage of a live inode. *)
Lemma free_storage_spec h j :
  inodes_wf (inodes h) -> (j < SOTFS_MAX_INODES)%nat -> i_id (inode_at h j) <> 0 ->
  let h' := sotfs_free_file_storage h (Z.of_nat j + 1) in
  inodes_wf (inodes h') /\ edges h' = edges h /\ root_id h' = root_id h
  /\ blocks h' = (clear_block (Z.of_nat j + 1) <$> blocks h)
  /\ forall k, node h' k = if decide (k = Z.of_nat j + 1) then None else node h k.
Proof using Type.
  intros W Hj Hid. unfold sotfs_free_file_storage, _inode_slot.
  rewrite (proj2 (slot_of_Some (Z.of_nat j + 1) SOTFS_MAX_INODES j)) by done. rewrite (proj2 (Z.eqb_neq _ _)) by done. cbv zeta.
  destruct (free_inode_spec (set_blocks h (clear_block (Z.of_nat j + 1) <$> blocks h)) (Z.of_nat j + 1)) as (?&?&?&?&?);
    [done|lia|]. done.
Qed.

Lemma sim_unlink p n :
  cname n ->
  exists a', fs_step a (OpUnlink p n) (sotfs_rewrite_unlink g p n).1 a' /\ fs_rel (sotfs_rewrite_unlink g p n).2 a'.
Proof using R O.
  intros Hn. pose proof (rel_wf _ _ R) as W. unfold sotfs_rewrite_unlink. pose proof (sim_child p n Hn) as Hg.
  destruct (guard_child a p n) as [err|[c x]] eqn:E; [rewrite Hg; exists a; split; [by constructor|done]|].
  destruct Hg as (i&j&->&Hi&Hj&Hcj&Hx&Hid&L&Hp&Hm&Hc&Hnode&Htree). rewrite Hx.
  case_bool_decide as Hk; [exists a; split; [by eapply StUnlinkDir|done]|].
  destruct (free_edge_inodes (Z.of_nat i + 1)) as [Ei Er]. set (g1 := sotfs_free_edge g (Z.of_nat i + 1)) in *.
  assert (inode_at g1 j = x) as Hx1 by (unfold inode_at in *; by rewrite Ei). rewrite Hx1.
  set (x1 := upd_inode x (i_nlink x - 1) (i_orphan x) (i_open_count x)).
  assert (inodes_wf (inodes g1)) as W1 by (rewrite Ei; apply W).
  assert (inodes_wf (inodes (set_inode g1 j x1))) as W2 by (apply set_inode_wf; [done|right; simpl; congruence]).
  assert (i_id x <> 0) as Hid0 by lia.
  assert (fs_step a (OpUnlink p n) SOTFS_OK (mk_fs (drop_link a c x) (delete (p, n) (fs_tree a)) (fs_root a))) as Hstep by by apply StUnlink.
  exists (mk_fs (drop_link a c x) (delete (p, n) (fs_tree a)) (fs_root a)).
  assert (forall g', edges g' = edges g1 -> inodes_wf (inodes g') -> root_id g' = root_id g -> (forall k, drop_link a c x !! k = node g' k) ->
     fs_step a (OpUnlink p n) (SOTFS_OK, g').1 (mk_fs (drop_link a c x) (delete (p, n) (fs_tree a)) (fs_root a))
     /\ fs_rel (SOTFS_OK, g').2 (mk_fs (drop_link a c x) (delete (p, n) (fs_tree a)) (fs_root a))) as Hfin.
  { intros g' ? ? ? ?. split; [done|]. by eapply sim_remove. }
  assert (forall y k, i_id y <> 0 -> <[c := y]> (fs_nodes a) !! k = node (set_inode g1 j y) k) as Hins.
  { intros y k Hy. rewrite node_set by done. rewrite (proj2 (Z.eqb_neq (i_id y) 0)) by done. rewrite <-Hcj.
    destruct (decide (k = c)) as [->|Hkc]; [by rewrite lookup_insert_eq|]. rewrite lookup_insert_ne by done.
    rewrite (node_ext g) by done. apply R. }
  change (i_nlink x1) with (i_nlink x - 1). change (i_open_count x1) with (i_open_count x).
  unfold drop_link in *. destruct (i_nlink x - 1 <=? 0); [destruct (i_open_count x >? 0)|].
  - apply Hfin; [done| |by simpl|].
    + apply set_inode_wf; [done|right; simpl; congruence].
    + intros k. rewrite Hins by done. unfold node, inode_at. simpl. by rewrite list_insert_insert_eq.
  - assert (inode_at (set_inode g1 j x1) j = x1) as Hx2.
    { unfold inode_at. simpl. rewrite array_get_insert by (rewrite (iw_len _ W1); lia). by rewrite decide_True. }
    destruct (free_storage_spec (set_inode g1 j x1) j W2 Hj) as (W3&Ee3&Er3&_&Hn3); [by rewrite Hx2|]. rewrite <-Hcj in *.
    apply Hfin; [done|done|by rewrite Er3|]. intros k. rewrite Hn3. destruct (decide (k = c)) as [->|Hkc]; [by rewrite lookup_delete_eq|].
    rewrite lookup_delete_ne by done. rewrite node_set by done. rewrite <-Hcj, decide_False by done. rewrite (node_ext g) by done. apply R.
  - apply Hfin; [done|done|by simpl|]. intros k. by apply Hins.
Qed.

Lemma sim_has_children c : _dir_has_children g c = true <-> exists m c', fs_tree a !! (c, m) = Some c'.
Proof using R.
  pose proof (gw_edges _ (rel_wf _ _ R)) as We. unfold _dir_has_children. rewrite bool_decide_eq_true. split.
  - intros [i Hi]. apply first_below_Some in Hi as (Hi&Hh&_). bool_to_prop. pose proof (edge_lookup g i We Hi) as Hl.
    assert (live_edge (edges g) i (edge_at g i)) as L by done. pose proof (ew_id _ We _ _ L) as [_ [Hn _]].
    exists (e_name (edge_at g i)), (e_child_id (edge_at g i)). rewrite (rel_tree _ _ R) by done.
    apply entry_Some; [done..|]. by exists i, (edge_at g i).
  - intros (m&c'&Hm). pose proof (rel_keys _ _ R _ _ _ Hm) as Hn. rewrite (rel_tree _ _ R) in Hm by done.
    apply entry_Some in Hm as (i&e&L&Hp&_&_); [|done..]. assert (edge_at g i = e) as Hat by (apply array_get, L).
    apply (first_below_is_Some _ _ i); [rewrite <-(ew_len _ We); eapply lookup_lt_Some, L|].
    rewrite Hat, Hp, Z.eqb_refl, andb_true_r. apply negb_true_iff, Z.eqb_neq, L.
Qed.

Lemma sim_rmdir p n :
  cname n ->
  exists a', fs_step a (OpRmdir p n) (sotfs_rewrite_rmdir g p n).1 a' /\ fs_rel (sotfs_rewrite_rmdir g p n).2 a'.
Proof using R O.
  intros Hn. pose proof (rel_wf _ _ R) as W. unfold sotfs_rewrite_rmdir. pose proof (sim_child p n Hn) as Hg.
  destruct (guard_child a p n) as [err|[c x]] eqn:E; [rewrite Hg; exists a; split; [by constructor|done]|].
  destruct Hg as (i&j&->&Hi&Hj&Hcj&Hx&Hid&L&Hp&Hm&Hc&Hnode&Htree). rewrite Hx.
  case_bool_decide as Hk; simpl; [|exists a; split; [by eapply StRmdirFile|done]].
  destruct (_dir_has_children g c) eqn:Hch; simpl.
  { apply sim_has_children in Hch as (m&c'&Hm'). exists a. split; [by eapply StRmdirFull|done]. }
  destruct (free_edge_inodes (Z.of_nat i + 1)) as [Ei Er]. set (g1 := sotfs_free_edge g (Z.of_nat i + 1)) in *.
  destruct (free_inode_spec g1 c) as (W3&Ee3&_&Er3&Hn3); [rewrite Ei; apply W|lia|].
  exists (mk_fs (delete c (fs_nodes a)) (delete (p, n) (fs_tree a)) (fs_root a)). split.
  - eapply StRmdir; [done..|]. intros m. destruct (fs_tree a !! (c, m)) eqn:Et; [|done].
    apply not_true_iff_false in Hch. destruct Hch. apply sim_has_children. eauto.
  - eapply sim_remove; try done; [by rewrite Er3|]. intros k. rewrite Hn3.
    destruct (decide (k = c)) as [->|]; [by rewrite lookup_delete_eq|]. rewrite lookup_delete_ne by done.
    rewrite (node_ext g) by done. apply R.
Qed.

Lemma sim_rename ps n pd m :
  cname n -> cname m ->
  exists a', fs_step a (OpRename ps n pd m) (sotfs_rewrite_rename g ps n pd m).1 a'
    /\ fs_rel (sotfs_rewrite_rename g ps n pd m).2 a'.
Proof using R O.
  intros Hn Hm. pose proof (rel_wf _ _ R) as W.
  destruct (decide (guard_rename a ps n pd m = SOTFS_OK)) as [Hok|Herr].
  - assert (leaf_name m /\ fs_tree a !! (pd, m) = None /\ exists c, fs_tree a !! (ps, n) = Some c) as (Hleaf&Hfree&c&Hc).
    { revert Hok. unfold guard_rename. destruct (_ || _); [done|]. destruct ((_ <=? length n)%nat || _) eqn:El; [done|].
      apply orb_false_iff in El as [_ El]. apply Nat.leb_gt in El.
      destruct (guard_dir a ps =? SOTFS_OK) eqn:E1; simpl; [|intros E; rewrite E in E1; done].
      destruct (guard_dir a pd =? SOTFS_OK) eqn:E2; simpl; [|intros E; rewrite E in E2; done].
      case_bool_decide as E3; [done|]. case_bool_decide as E4; [|done]. intros _. split_and!; [by split|done|].
      destruct (fs_tree a !! (ps, n)); [eauto|done]. }
    destruct (sim_entry ps n c Hn Hc) as (i&Hi&Hf&Hs&L&Hp&Hnm&Hch).
    assert (sotfs_rewrite_rename g ps n pd m
            = let '(id, g1) := sotfs_alloc_edge g pd c m in
              if id =? 0 then (SOTFS_ERR_NOSPACE, g1) else (SOTFS_OK, sotfs_free_edge g1 (Z.of_nat i + 1))) as ->.
    { revert Hok. unfold guard_rename, sotfs_rewrite_rename. rewrite !sim_dir, !sim_find, Hf, Hs, Hch by done.
      destruct (bool_decide (n = [])), (bool_decide (m = [])); try done. simpl.
      destruct (_ <=? length n)%nat, (_ <=? length m)%nat; try done. simpl.
      destruct (guard_dir a ps =? SOTFS_OK) eqn:E1; simpl; [|intros E; rewrite E in E1; done].
      destruct (guard_dir a pd =? SOTFS_OK) eqn:E2; simpl; [|intros E; rewrite E in E2; done].
      rewrite Hc, Hfree. simpl. done. }
    pose proof Hfree as Hfree'. rewrite (rel_tree _ _ R) in Hfree' by done.
    destruct (sotfs_alloc_edge g pd c m) as [id g1] eqn:Ea.
    destruct (alloc_edge_spec _ _ _ _ _ _ W Hleaf Hfree' Ea) as [(->&->&Hfull)|(Hid&Hz&W1&Ei&_&Er&Ee&Hent)]; simpl.
    { exists a. split; [|done]. apply StRenameFull; [done|by apply sim_full]. }
    rewrite (proj2 (Z.eqb_neq id 0)) by lia. simpl. set (slot := Z.to_nat (id - 1)) in *.
    assert (slot <> i) as Hne by (intros ->; by destruct L).
    assert (edge_at g1 i = edge_at g i) as Hat by (unfold edge_at; by rewrite Ee, list_lookup_insert_ne).
    destruct (free_edge_spec g1 i ps n c W1 Hi) as (W2&Ei2&_&Er2&_&Hent2); rewrite ?Hat; try done.
    { rewrite Ee. apply set_edge_live; [apply W|lia|]. right. split; [done|apply L]. }
    eexists. split; [by eapply StRename|]. constructor; simpl; [done|..].
    + intros k. rewrite (node_ext g) by congruence. apply R.
    + intros q x Hx. rewrite Hent2, Hent by done. destruct (decide ((q, x) = (ps, n))) as [->|H1]; [by rewrite lookup_delete_eq|].
      rewrite lookup_delete_ne by done. destruct (decide ((q, x) = (pd, m))) as [->|H2]; [by rewrite lookup_insert_eq|].
      rewrite lookup_insert_ne by done. by apply R.
    + intros q x c' [_ [[[= <- <-] _]|[_ Hk]]%lookup_insert_Some]%lookup_delete_Some; [done|by eapply (rel_keys _ _ R)].
    + rewrite Er2, Er. apply R.
  - assert (sotfs_rewrite_rename g ps n pd m = (guard_rename a ps n pd m, g)) as ->.
    { revert Herr. unfold guard_rename, sotfs_rewrite_rename. rewrite !sim_dir, !sim_find by done.
      destruct (bool_decide (n = [])), (bool_decide (m = [])); try done. simpl.
      destruct (_ <=? length n)%nat, (_ <=? length m)%nat; try done. simpl.
      destruct (guard_dir a ps =? SOTFS_OK); simpl; [|done]. destruct (guard_dir a pd =? SOTFS_OK); simpl; [|done].
      destruct (fs_tree a !! (ps, n)) as [c|] eqn:Hc; [|done]. rewrite (bool_decide_false (Some c = None)) by done.
      destruct (sim_entry ps n c Hn Hc) as (i&_&->&->&_). by case_bool_decide. }
    exists a. split; [by constructor|done].
Qed.

(** Replacing the inode of a live id. *)
Lemma sim_set k x j y xs :
  fs_nodes a !! k = Some x -> (j < SOTFS_MAX_INODES)%nat -> k = Z.of_nat j + 1 -> i_id y = k ->
  xs = <[k := y]> (fs_nodes a) -> fs_rel (set_inode g j y) (mk_fs xs (fs_tree a) (fs_root a)).
Proof using R.
  intros Hk Hj Hkj Hy ->. pose proof (rel_wf _ _ R) as [Wi We]. constructor; simpl; [|..|apply R|apply R].
  - constructor; [|done]. apply set_inode_wf; [done|right; congruence].
  - intros k'. rewrite node_set by done. rewrite (proj2 (Z.eqb_neq (i_id y) 0)) by lia. rewrite <-Hkj.
    destruct (decide (k' = k)) as [->|]; [by rewrite lookup_insert_eq|]. rewrite lookup_insert_ne by done. apply R.
  - intros p n Hn. rewrite (entry_ext g) by done. by apply R.
Qed.

Lemma rel_same xs : xs = fs_nodes a -> fs_rel g (mk_fs xs (fs_tree a) (fs_root a)).
Proof using R. intros ->. destruct R. by constructor. Qed.

Lemma node_dead_slot k slot :
  fs_nodes a !! k = None -> _inode_slot k = Some slot -> i_id (inode_at g slot) = 0.
Proof using R.
  intros Hk Hs. rewrite (rel_nodes _ _ R) in Hk. unfold node in Hk. rewrite Hs in Hk.
  destruct (_ =? 0) eqn:E; bool_to_prop; done.
Qed.

Lemma sim_open k : fs_rel (sotfs_inode_open g k) (mk_fs (open_node a k) (fs_tree a) (fs_root a)).
Proof using R O.
  unfold sotfs_inode_open, open_node. destruct (fs_nodes a !! k) as [x|] eqn:E.
  - destruct (sim_node k x E) as (j&Hj&Hkj&->&->&Hid). pose proof (ok_node _ O _ _ E) as (_&_&?).
    rewrite (proj2 (Z.eqb_neq (i_id x) 0)) by lia. destruct (i_open_count x <? 255).
    + by apply (sim_set k x).
    + by apply rel_same.
  - destruct (_inode_slot k) as [slot|] eqn:Es; [|by apply rel_same].
    rewrite (node_dead_slot k slot) by done. by apply rel_same.
Qed.

Lemma sim_close k : fs_rel (sotfs_inode_close g k) (mk_fs (close_node a k) (fs_tree a) (fs_root a)).
Proof using R O.
  unfold sotfs_inode_close, close_node. destruct (fs_nodes a !! k) as [x|] eqn:E.
  - destruct (sim_node k x E) as (j&Hj&Hkj&->&Hat&Hid). rewrite Hat. pose proof (ok_node _ O _ _ E) as (_&_&?).
    rewrite (proj2 (Z.eqb_neq (i_id x) 0)) by lia.
    set (n := if i_open_count x >? 0 then i_open_count x - 1 else i_open_count x).
    assert ((if i_open_count x >? 0 then upd_inode x (i_nlink x) (i_orphan x) (i_open_count x - 1) else x)
            = upd_inode x (i_nlink x) (i_orphan x) n) as -> by (unfold n; destruct (_ >? 0), x; done).
    set (y := upd_inode x (i_nlink x) (i_orphan x) n). change (i_open_count y) with n. change (i_orphan y) with (i_orphan x).
    pose proof (sim_set k x j y _ E Hj Hkj Hid eq_refl) as R'.
    destruct ((n =? 0) && i_orphan x); [|done]. pose proof (gw_inodes _ (rel_wf _ _ R)) as Wi.
    assert (inode_at (set_inode g j y) j = y) as Hy.
    { unfold inode_at. simpl. rewrite array_get_insert by (rewrite (iw_len _ Wi); lia). by rewrite decide_True. }
    destruct (free_storage_spec (set_inode g j y) j (gw_inodes _ (rel_wf _ _ R')) Hj) as (W3&Ee3&Er3&_&Hn3).
    { rewrite Hy. simpl. lia. }
    rewrite Hkj. constructor; simpl; [|..].
    + constructor; [done|]. rewrite Ee3. apply R'.
    + intros k'. rewrite Hn3. destruct (decide (k' = Z.of_nat j + 1)) as [->|Hne]; [by rewrite lookup_delete_eq|].
      rewrite lookup_delete_ne by done. rewrite node_set by done. rewrite decide_False by done. apply R.
    + intros p m Hm. rewrite (entry_ext g) by done. by apply R.
    + apply R.
    + rewrite Er3. apply R.
  - destruct (_inode_slot k) as [slot|] eqn:Es; [|by apply rel_same].
    rewrite (node_dead_slot k slot) by done. by apply rel_same.
Qed.

Lemma exec_sim op :
  fs_op_ok op -> exists a', fs_step a op (fs_exec g op).1 a' /\ fs_rel (fs_exec g op).2 a'.
Proof using R O.
  destruct op as [kind p n mode|p n|p n|ps n pd m|k|k]; simpl; intros Hok.
  - destruct (sim_create kind p n mode Hok) as (a'&?&?). exists a'.
    unfold sotfs_rewrite_mkdir, sotfs_rewrite_create_file. by destruct Hok as [_ [-> | ->]].
  - by apply sim_unlink.
  - by apply sim_rmdir.
  - destruct Hok. by apply sim_rename.
  - eexists. split; [constructor|apply sim_open].
  - eexists. split; [constructor|apply sim_close].
Qed.
End sim.

(** ** The invariant is preserved *)

Lemma guard_dir_ok a p : guard_dir a p = SOTFS_OK -> exists x, fs_nodes a !! p = Some x /\ i_kind x = KIND_DIR.
Proof. unfold guard_dir. destruct (fs_nodes a !! p) as [x|]; [|done]. case_bool_decide; [eauto|done]. Qed.

Lemma guard_create_ok a p n :
  cname n -> guard_create a p n = SOTFS_OK ->
  leaf_name n /\ n <> [] /\ fs_tree a !! (p, n) = None /\ exists x, fs_nodes a !! p = Some x /\ i_kind x = KIND_DIR.
Proof.
  unfold guard_create, guard_name. intros Hn. case_bool_decide; [done|]. destruct (_ <=? length n)%nat eqn:El; [done|].
  apply Nat.leb_gt in El. simpl. destruct (guard_dir a p =? SOTFS_OK) eqn:E; simpl; [|intros H1; rewrite H1 in E; done].
  case_bool_decide; [|done]. intros _. bool_to_prop. split_and!; [by split|done|done|by apply guard_dir_ok].
Qed.

Lemma guard_child_ok a p n c x :
  guard_child a p n = inr (c, x) -> fs_tree a !! (p, n) = Some c /\ fs_nodes a !! c = Some x.
Proof.
  unfold guard_child. case_bool_decide; [done|]. destruct (negb _); [done|].
  destruct (fs_tree a !! (p, n)) as [c'|]; [|done]. destruct (fs_nodes a !! c') eqn:E; [|done]. by intros [= <- <-].
Qed.

Lemma guard_rename_ok a ps n pd m :
  cname m -> guard_rename a ps n pd m = SOTFS_OK ->
  leaf_name m /\ m <> [] /\ fs_tree a !! (pd, m) = None /\ (exists x, fs_nodes a !! pd = Some x /\ i_kind x = KIND_DIR).
Proof.
  unfold guard_rename. intros Hm. case_bool_decide; [done|]. case_bool_decide; [done|]. simpl.
  destruct (_ <=? length n)%nat; [done|]. destruct (_ <=? length m)%nat eqn:El; [done|]. apply Nat.leb_gt in El. simpl.
  destruct (guard_dir a ps =? SOTFS_OK) eqn:E1; simpl; [|intros H1; rewrite H1 in E1; done].
  destruct (guard_dir a pd =? SOTFS_OK) eqn:E2; simpl; [|intros H1; rewrite H1 in E2; done].
  case_bool_decide; [done|]. case_bool_decide; [|done]. intros _. bool_to_prop. split_and!; [by split|done|done|by apply guard_dir_ok].
Qed.

Lemma create_ok a kind p n mode id :
  fs_ok a -> cname n -> guard_create a p n = SOTFS_OK -> fs_nodes a !! id = None -> 1 <= id <= Z.of_nat SOTFS_MAX_INODES ->
  fs_ok (mk_fs (<[id := new_inode id kind mode]> (fs_nodes a)) (<[(p, n) := id]> (fs_tree a)) (fs_root a)).
Proof.
  intros O Hn Hg Hid Hr. destruct (guard_create_ok a p n Hn Hg) as (Hleaf&Hne&Hfree&xp&Hxp&Hkp).
  assert (forall k x, fs_nodes a !! k = Some x -> k <> id) as Hold by (intros k x Hk ->; congruence).
  assert (forall q m, fs_tree a !! (q, m) <> Some id) as Hnoid.
  { intros q m Hq. destruct (ok_child _ O _ _ _ Hq). congruence. }
  destruct (ok_root _ O) as (xr&Hxr&Hkr).
  assert (forall k x, fs_nodes a !! k = Some x -> <[id := new_inode id kind mode]> (fs_nodes a) !! k = Some x) as Hkeep.
  { intros k x Hk. rewrite lookup_insert_ne; [done|]. intros ->. congruence. }
  constructor; simpl.
  - eauto.
  - intros q m [[[= <- <-] ->]|[_ Hq]]%lookup_insert_Some; [congruence|by apply (ok_root_top _ O) in Hq].
  - intros q m c [[[= <- <-] _]|[_ Hq]]%lookup_insert_Some; [eauto|]. destruct (ok_parent _ O _ _ _ Hq) as (x&?&?). eauto.
  - intros q m c [[_ <-]|[_ Hq]]%lookup_insert_Some; [rewrite lookup_insert_eq; eauto|].
    destruct (ok_child _ O _ _ _ Hq) as [x Hx]. eauto.
  - intros q m c [[[= <- <-] _]|[_ Hq]]%lookup_insert_Some; [done|by eapply (ok_name _ O)].
  - intros q m q' m' c [[<- <-]|[_ Hq]]%lookup_insert_Some [[<- Hc]|[_ Hq']]%lookup_insert_Some; try done.
    + by apply Hnoid in Hq'.
    + subst. by apply Hnoid in Hq.
    + by eapply (ok_single _ O).
  - intros c x [[<- <-]|[_ Hc]]%lookup_insert_Some; [simpl; lia|by apply (ok_node _ O)].
  - intros c x [[<- <-]|[_ Hc]]%lookup_insert_Some.
    + right. left. exists p, n. by rewrite lookup_insert_eq.
    + destruct (ok_linked _ O _ _ Hc) as [?|[(q&m&Hq)|?]]; auto. right. left. exists q, m.
      rewrite lookup_insert_ne; [done|]. intros [= <- <-]. congruence.
  - intros c x [[<- <-]|[_ Hc]]%lookup_insert_Some Ho; [done|]. destruct (ok_orphan _ O _ _ Hc Ho) as (?&?&?&Hq).
    split_and!; [done..|]. intros q m [[_ <-]|[_ ?]]%lookup_insert_Some; [by apply Hold in Hc|by eapply Hq].
  - intros c x q m [[<- <-]|[Hcid Hc]]%lookup_insert_Some Hk [[Heq Hcc]|[_ Hq]]%lookup_insert_Some.
    + simpl in *. by rewrite bool_decide_false.
    + by apply Hnoid in Hq.
    + congruence.
    + by eapply (ok_nlink _ O).
Qed.

(** Changing the counters of a node, keeping its identity. *)
Lemma set_node_ok a c x y :
  fs_ok a -> fs_nodes a !! c = Some x -> i_id y = i_id x -> i_kind y = i_kind x -> i_nlink y = i_nlink x ->
  i_orphan y = i_orphan x -> 0 <= i_open_count y <= 255 -> (i_orphan x = true -> 0 < i_open_count y) ->
  fs_ok (mk_fs (<[c := y]> (fs_nodes a)) (fs_tree a) (fs_root a)).
Proof.
  intros O Hx Hi Hk Hl Ho Hc Hor. destruct (ok_node _ O _ _ Hx) as (Hid&_&Hr).
  assert (forall k z, fs_nodes a !! k = Some z -> exists z', <[c := y]> (fs_nodes a) !! k = Some z' /\ i_kind z' = i_kind z) as Hkeep.
  { intros k z Hz. destruct (decide (k = c)) as [->|]; [rewrite lookup_insert_eq|rewrite lookup_insert_ne by done; eauto].
    eexists. split; [done|]. congruence. }
  constructor; simpl.
  - destruct (ok_root _ O) as (xr&Hxr&Hkr). destruct (Hkeep _ _ Hxr) as (z&?&?). exists z. split; congruence.
  - apply O.
  - intros p n k Hp. destruct (ok_parent _ O _ _ _ Hp) as (z&Hz&?). destruct (Hkeep _ _ Hz) as (z'&?&?). exists z'. split; congruence.
  - intros p n k Hp. destruct (ok_child _ O _ _ _ Hp) as (z&Hz). destruct (Hkeep _ _ Hz) as (z'&?&?). eauto.
  - apply O.
  - apply O.
  - intros k z [[<- <-]|[_ Hz]]%lookup_insert_Some; [split_and!; lia|by apply (ok_node _ O)].
  - intros k z [[<- <-]|[_ Hz]]%lookup_insert_Some; [rewrite Ho; by apply (ok_linked _ O)|by apply (ok_linked _ O)].
  - intros k z [[<- <-]|[_ Hz]]%lookup_insert_Some Hz'; [|by apply (ok_orphan _ O)]. rewrite Ho in Hz'.
    destruct (ok_orphan _ O _ _ Hx Hz') as (?&?&?&?). rewrite Hk, Hl. split_and!; auto.
  - intros k z p n [[<- <-]|[_ Hz]]%lookup_insert_Some Hkz Hp; [rewrite Hl; eapply (ok_nlink _ O); [done|congruence|done]|by eapply (ok_nlink _ O)].
Qed.

(** Removing an entry together with its child, or orphaning the child. *)
Lemma remove_ok a p n c x :
  fs_ok a -> fs_tree a !! (p, n) = Some c -> fs_nodes a !! c = Some x -> (forall m, fs_tree a !! (c, m) = None) ->
  (fs_ok (mk_fs (delete c (fs_nodes a)) (delete (p, n) (fs_tree a)) (fs_root a)))
  /\ (i_kind x <> KIND_DIR -> 0 < i_open_count x ->
      fs_ok (mk_fs (<[c := upd_inode x 0 true (i_open_count x)]> (fs_nodes a)) (delete (p, n) (fs_tree a)) (fs_root a))).
Proof.
  intros O Ht Hx Hno. destruct (ok_root _ O) as (xr&Hxr&Hkr).
  assert (c <> fs_root a) as Hcr by (intros ->; by apply (ok_root_top _ O) in Ht).
  assert (forall q m k, delete (p, n) (fs_tree a) !! (q, m) = Some k -> fs_tree a !! (q, m) = Some k /\ k <> c /\ q <> c) as Hdel.
  { intros q m k [Hne Hk]%lookup_delete_Some. split_and!; [done| |].
    - intros ->. destruct Hne. by eapply (ok_single _ O).
    - intros ->. by rewrite Hno in Hk. }
  assert (forall k z, k <> c -> fs_nodes a !! k = Some z ->
            k = fs_root a \/ (exists q m, delete (p, n) (fs_tree a) !! (q, m) = Some k) \/ i_orphan z = true) as Hlinked.
  { intros k z Hkc Hz. destruct (ok_linked _ O _ _ Hz) as [?|[(q&m&Hq)|?]]; auto. right. left. exists q, m.
    rewrite lookup_delete_ne; [done|]. intros [= <- <-]. congruence. }
  assert (forall nodes, (forall k, k <> c -> nodes !! k = fs_nodes a !! k) ->
            (forall y, nodes !! c = Some y -> i_id y = i_id x /\ i_open_count y = i_open_count x /\ 0 < i_open_count x
               /\ i_orphan y = true /\ i_nlink y = 0 /\ i_kind y <> KIND_DIR) ->
            fs_ok (mk_fs nodes (delete (p, n) (fs_tree a)) (fs_root a))) as Hmain.
  { intros nodes Hsame Hc. constructor; simpl.
    - exists xr. by rewrite Hsame by done.
    - intros q m (Hq&_&_)%Hdel. by apply (ok_root_top _ O) in Hq.
    - intros q m k (Hq&_&Hqc)%Hdel. rewrite Hsame by done. by eapply (ok_parent _ O).
    - intros q m k (Hq&Hkc&_)%Hdel. rewrite Hsame by done. by eapply (ok_child _ O).
    - intros q m k (Hq&_&_)%Hdel. by eapply (ok_name _ O).
    - intros q m q' m' k (Hq&_&_)%Hdel (Hq'&_&_)%Hdel. by eapply (ok_single _ O).
    - intros k z Hz. destruct (decide (k = c)) as [->|Hkc]; [|rewrite Hsame in Hz by done; by apply (ok_node _ O)].
      destruct (Hc z Hz) as (Hi&Ho&_). rewrite Hi, Ho. by apply (ok_node _ O).
    - intros k z Hz. destruct (decide (k = c)) as [->|Hkc]; [right; right; by apply Hc|]. rewrite Hsame in Hz by done. auto.
    - intros k z Hz Ho. destruct (decide (k = c)) as [->|Hkc].
      + destruct (Hc z Hz) as (_&Hoc&?&_&?&?). rewrite Hoc. split_and!; try done. by intros q m (_&?&_)%Hdel.
      + rewrite Hsame in Hz by done. destruct (ok_orphan _ O _ _ Hz Ho) as (?&?&?&Hq). split_and!; try done.
        intros q m (Hq'&_&_)%Hdel. by eapply Hq.
    - intros k z q m Hz Hk (Hq&Hkc&_)%Hdel. rewrite Hsame in Hz by done. by eapply (ok_nlink _ O). }
  split.
  - apply Hmain; [intros; by rewrite lookup_delete_ne|]. intros y Hy. by rewrite lookup_delete_eq in Hy.
  - intros Hk Ho. apply Hmain; [intros; by rewrite lookup_insert_ne|]. intros y Hy. rewrite lookup_insert_eq in Hy. by injection Hy as <-.
Qed.

Lemma rename_ok a ps n pd m c :
  fs_ok a -> cname m -> guard_rename a ps n pd m = SOTFS_OK -> fs_tree a !! (ps, n) = Some c ->
  fs_ok (mk_fs (fs_nodes a) (delete (ps, n) (<[(pd, m) := c]> (fs_tree a))) (fs_root a)).
Proof.
  intros O Hm Hg Hc. destruct (guard_rename_ok a ps n pd m Hm Hg) as (Hleaf&Hne&Hfree&Hpd).
  assert ((ps, n) <> (pd, m)) as Hkey by congruence.
  assert (forall q x k, delete (ps, n) (<[(pd, m) := c]> (fs_tree a)) !! (q, x) = Some k ->
            ((q, x) = (pd, m) /\ k = c) \/ (fs_tree a !! (q, x) = Some k /\ k <> c /\ (q, x) <> (ps, n))) as Hdel.
  { intros q x k [Hne1 [[<- <-]|[_ Hk]]%lookup_insert_Some]%lookup_delete_Some; [by left|right]. split_and!; [done| |done].
    intros ->. destruct Hne1. by eapply (ok_single _ O). }
  constructor; simpl.
  - apply O.
  - intros q x [[_ Hk]|(Hq&_&_)]%Hdel; [rewrite <-Hk in Hc|]; by eapply (ok_root_top _ O).
  - intros q x k [[[= -> ->] _]|(Hq&_&_)]%Hdel; [done|by eapply (ok_parent _ O)].
  - intros q x k [[_ ->]|(Hq&_&_)]%Hdel; by eapply (ok_child _ O).
  - intros q x k [[[= -> ->] _]|(Hq&_&_)]%Hdel; [done|by eapply (ok_name _ O)].
  - intros q x q' x' k [[-> ->]|(Hq&Hk&_)]%Hdel [[-> Hk']|(Hq'&Hk'&_)]%Hdel; try done. by eapply (ok_single _ O).
  - apply O.
  - intros k z Hz. destruct (ok_linked _ O _ _ Hz) as [?|[(q&x&Hq)|?]]; auto. right. left.
    destruct (decide ((q, x) = (ps, n))) as [Heq|Hq'].
    + exists pd, m. rewrite lookup_delete_ne, lookup_insert_eq by done. congruence.
    + exists q, x. rewrite lookup_delete_ne, lookup_insert_ne by congruence. done.
  - intros k z Hz Ho. destruct (ok_orphan _ O _ _ Hz Ho) as (?&?&?&Hq). split_and!; try done.
    intros q x [[_ ->]|(Hq'&_&_)]%Hdel; by eapply Hq.
  - intros k z q x Hz Hk [[_ ->]|(Hq&_&_)]%Hdel; by eapply (ok_nlink _ O).
Qed.

Lemma step_ok a op r a' : fs_ok a -> fs_op_ok op -> fs_step a op r a' -> fs_ok a'.
Proof.
  intros O Hok St. destruct St as [| |kind p n mode id Hg Hid Hr| | |p n c x Hg Hk| | | |p n c x Hg Hk Hno| | |ps n pd m c Hg Hc|k|k]; try exact O.
  - apply create_ok; try done. apply Hok.
  - apply guard_child_ok in Hg as [Ht Hx]. pose proof (ok_nlink _ O _ _ _ _ Hx Hk Ht) as Hl.
    unfold drop_link. rewrite Hl. simpl. rewrite Z.gtb_ltb. change (1 - 1) with 0. simpl.
    assert (forall m, fs_tree a !! (c, m) = None) as Hno.
    { intros m. destruct (fs_tree a !! (c, m)) eqn:E; [|done]. destruct (ok_parent _ O _ _ _ E) as (y&?&?). congruence. }
    destruct (remove_ok a p n c x O Ht Hx Hno) as [H1 H2]. destruct (0 <? i_open_count x) eqn:E; bool_to_prop; auto.
  - apply guard_child_ok in Hg as [Ht Hx]. by apply (remove_ok a p n c x).
  - apply rename_ok; try done. apply Hok.
  - unfold open_node. destruct (fs_nodes a !! k) as [x|] eqn:E; [|by destruct a].
    destruct (i_open_count x <? 255) eqn:E2; [|by destruct a]. bool_to_prop. destruct (ok_node _ O _ _ E) as (?&?&?).
    apply (set_node_ok a k x); try done; simpl; [lia|]. intros. lia.
  - unfold close_node. destruct (fs_nodes a !! k) as [x|] eqn:E; [|by destruct a]. destruct (ok_node _ O _ _ E) as (?&?&?).
    rewrite Z.gtb_ltb. destruct ((_ =? 0) && i_orphan x) eqn:E2.
    + bool_to_prop. destruct (ok_orphan _ O _ _ E) as (_&_&Hkd&Hno); [done|].
      destruct (ok_root _ O) as (xr&Hxr&Hkr). assert (k <> fs_root a) as Hkr' by (intros ->; congruence).
      constructor; simpl; try apply O.
      * exists xr. by rewrite lookup_delete_ne.
      * intros p n c Hp. destruct (ok_parent _ O _ _ _ Hp) as (y&Hy&?). exists y. rewrite lookup_delete_ne; [done|]. intros ->. congruence.
      * intros p n c Hp. rewrite lookup_delete_ne; [by eapply (ok_child _ O)|]. intros ->. by eapply Hno.
      * intros c y [_ Hy]%lookup_delete_Some. by apply (ok_node _ O).
      * intros c y [_ Hy]%lookup_delete_Some. by apply (ok_linked _ O).
      * intros c y [_ Hy]%lookup_delete_Some. by apply (ok_orphan _ O).
      * intros c y p n [_ Hy]%lookup_delete_Some. by apply (ok_nlink _ O).
    + apply (set_node_ok a k x); try done; simpl.
      * destruct (0 <? i_open_count x) eqn:E3; bool_to_prop; lia.
      * intros Ho. rewrite Ho, andb_true_r in E2. bool_to_prop.
        destruct (ok_orphan _ O _ _ E Ho) as (_&?&_). destruct (0 <? i_open_count x) eqn:E3; bool_to_prop; lia.
Qed.
