(* ===== verification/FsTheorems.v ===== *)
(** * Theorems of the file-system graph

    Runs of the rewrite rules from [sotfs_graph_init] refine the abstract file
    system and keep its invariant; failing rules change nothing; an open file
    outlives its last link; paths resolve component by component. *)

From S2P Require Import Prelude BlockStore Graph Rewrite FsInv FsSpec.

Fixpoint fs_exec_all (g : sotfs_graph) (ops : list fs_op) : list Z * sotfs_graph :=
  match ops with
  | [] => ([], g)
  | op :: ops' =>
      let '(r, g1) := fs_exec g op in
      let '(rs, g2) := fs_exec_all g1 ops' in (r :: rs, g2)
  end.

(** The graphs the rules can produce. *)
Definition reachable (g : sotfs_graph) : Prop :=
  exists ops, Forall fs_op_ok ops /\ (fs_exec_all sotfs_graph_init ops).2 = g.

(** Two graphs with the same inodes and the same entries; slots and hints may differ. *)
Definition fs_equiv (g g' : sotfs_graph) : Prop :=
  (forall k, node g k = node g' k) /\ (forall p n, cname n -> entry g p n = entry g' p n).

#[export] Instance fs_equiv_equivalence : Equivalence fs_equiv.
Proof.
  split.
  - by intros g.
  - intros g g' [H1 H2]. split; intros; symmetry; auto.
  - intros g1 g2 g3 [H1 H2] [H3 H4]. split; intros; [by rewrite H1|by rewrite H2 by done; apply H4].
Qed.

#[export] Instance node_proper : Proper (fs_equiv ==> eq ==> eq) node.
Proof. intros g g' [H _] k ? <-. apply H. Qed.

(** ** Initial state *)

Definition empty_graph : sotfs_graph :=
  mk_graph (replicate SOTFS_MAX_INODES zero_inode) (replicate SOTFS_MAX_EDGES zero_edge)
    (replicate SOTFS_MAX_BLOCKS zero_mapping) 0 0 0 0.

Lemma empty_graph_wf : graph_wf empty_graph.
Proof.
  constructor; constructor; unfold empty_graph; cbn [inodes edges].
  - apply length_replicate.
  - intros i x [-> _]%lookup_replicate. done.
  - intros i x [-> _]%lookup_replicate. done.
  - apply length_replicate.
  - intros i e [-> _]%lookup_replicate. done.
  - intros i e [[-> _]%lookup_replicate Hn]. done.
  - intros i j e e' [[-> _]%lookup_replicate Hn]. done.
Qed.

Lemma empty_graph_node k : node empty_graph k = None.
Proof.
  unfold node, inode_at, empty_graph. cbn [inodes]. destruct (_inode_slot k) as [i|]; [|done].
  destruct (replicate _ _ !! i) as [x|] eqn:E; [apply lookup_replicate in E as [-> _]|]; done.
Qed.

Lemma empty_graph_entry p n : cname n -> entry empty_graph p n = None.
Proof.
  intros Hn. destruct (entry empty_graph p n) as [c|] eqn:E; [|done].
  apply entry_Some in E as (i&e&[[-> _]%lookup_replicate Hx]&_); [done|apply empty_graph_wf|done].
Qed.

Lemma init_rel : fs_rel sotfs_graph_init fs_init.
Proof.
  assert (sotfs_graph_init = let '(id, g) := sotfs_alloc_inode empty_graph KIND_DIR mode_0755 in set_root g id) as -> by reflexivity.
  assert (fst (sotfs_alloc_inode empty_graph KIND_DIR mode_0755) = 1) as Hid by (vm_compute; reflexivity).
  destruct (sotfs_alloc_inode empty_graph KIND_DIR mode_0755) as [id g] eqn:E. simpl in Hid. subst id.
  destruct (alloc_inode_spec _ _ _ _ _ empty_graph_wf E) as [[? _]|(_&_&[Wi We]&Ee&_&_&Hn)]; [done|].
  constructor; simpl.
  - by constructor.
  - intros k. rewrite (node_ext g) by done. rewrite Hn, empty_graph_node. case_decide as Hk; [subst; by rewrite lookup_singleton_eq|].
    by rewrite lookup_singleton_ne.
  - intros p n Hc. rewrite (entry_ext empty_graph) by done. rewrite empty_graph_entry by done. by rewrite lookup_empty.
  - intros p n c Hc. by rewrite lookup_empty in Hc.
  - done.
Qed.

Lemma init_ok : fs_ok fs_init.
Proof.
  assert (forall c x, fs_nodes fs_init !! c = Some x -> c = 1 /\ x = new_inode 1 KIND_DIR mode_0755) as Hs.
  { intros c x. simpl. rewrite lookup_singleton_Some. intros [<- <-]. done. }
  constructor; simpl.
  - exists (new_inode 1 KIND_DIR mode_0755). by rewrite lookup_singleton_eq.
  - intros p n. by rewrite lookup_empty.
  - intros p n c. by rewrite lookup_empty.
  - intros p n c. by rewrite lookup_empty.
  - intros p n c. by rewrite lookup_empty.
  - intros p n p' n' c. by rewrite lookup_empty.
  - intros c x [-> ->]%Hs. simpl. unfold SOTFS_MAX_INODES. lia.
  - intros c x [-> ->]%Hs. by left.
  - intros c x [-> ->]%Hs. done.
  - intros c x p n [-> ->]%Hs. done.
Qed.

Lemma exec_all_sim g a ops :
  fs_rel g a -> fs_ok a -> Forall fs_op_ok ops ->
  exists a', fs_run a ops (fs_exec_all g ops).1 a' /\ fs_rel (fs_exec_all g ops).2 a' /\ fs_ok a'.
Proof.
  intros R O Hops. revert g a R O. induction Hops as [|op ops Hop _ IH]; intros g a R O; simpl.
  - exists a. split_and!; [constructor|done..].
  - destruct (exec_sim g a R O op Hop) as (a1&St&R1). pose proof (step_ok _ _ _ _ O Hop St) as O1.
    destruct (fs_exec g op) as [r g1]. simpl in *. destruct (IH g1 a1 R1 O1) as (a2&Hr&R2&O2).
    destruct (fs_exec_all g1 ops) as [rs g2]. simpl in *. exists a2. split_and!; [by econstructor|done..].
Qed.

Lemma reachable_rel g : reachable g -> exists a, fs_rel g a /\ fs_ok a.
Proof.
  intros (ops&Hops&<-). destruct (exec_all_sim _ _ ops init_rel init_ok Hops) as (a&_&?&?). eauto.
Qed.

Lemma rel_equiv g g' a : fs_rel g a -> fs_rel g' a -> fs_equiv g g'.
Proof.
  intros R R'. split.
  - intros k. by rewrite <-(rel_nodes _ _ R), <-(rel_nodes _ _ R').
  - intros p n Hn. by rewrite <-(rel_tree _ _ R), <-(rel_tree _ _ R').
Qed.

Lemma guard_create_nonpos a p n : guard_create a p n <= 0.
Proof.
  assert (guard_dir a p <= 0).
  { unfold guard_dir. destruct (fs_nodes a !! p); [case_bool_decide|]; unfold SOTFS_OK, SOTFS_ERR_NOTDIR, SOTFS_ERR_NOENT; lia. }
  unfold guard_create, guard_name. unfold SOTFS_OK, SOTFS_ERR_INVAL, SOTFS_ERR_NAMETOOLONG, SOTFS_ERR_EXISTS in *.
  repeat (case_bool_decide || split_goal); lia.
Qed.

(** The removals on an entry that can go. *)
Lemma unlink_inv a p n c x r a' :
  guard_child a p n = inr (c, x) -> i_kind x <> KIND_DIR -> fs_step a (OpUnlink p n) r a' ->
  r = SOTFS_OK /\ a' = mk_fs (drop_link a c x) (delete (p, n) (fs_tree a)) (fs_root a).
Proof. intros Hg Hk St. inversion St; subst; try congruence. assert (c0 = c /\ x0 = x) as [-> ->]; [split; congruence|done]. Qed.

Lemma rmdir_inv a p n c x r a' :
  guard_child a p n = inr (c, x) -> i_kind x = KIND_DIR -> (forall m, fs_tree a !! (c, m) = None) ->
  fs_step a (OpRmdir p n) r a' ->
  r = SOTFS_OK /\ a' = mk_fs (delete c (fs_nodes a)) (delete (p, n) (fs_tree a)) (fs_root a).
Proof.
  intros Hg Hk Hno St. inversion St; subst; try congruence.
  assert (c0 = c) as -> by congruence. done.
Qed.

(** C3: every run of the rewrite rules is a run of the abstract file system, result
    codes included, and ends in a file system that satisfies its invariant: the
    root is a directory without parent, every entry joins a live directory to a
    live inode under a fresh non-empty name, no inode has two entries, and every
    other inode is an open orphan. *)
Theorem fs_refines (ops : list fs_op) :
  Forall fs_op_ok ops ->
  exists a', fs_run fs_init ops (fs_exec_all sotfs_graph_init ops).1 a'
    /\ fs_rel (fs_exec_all sotfs_graph_init ops).2 a' /\ fs_ok a'.
Proof. apply exec_all_sim; [apply init_rel|apply init_ok]. Qed.

(** The rules are all-or-nothing.  A rule that returns an error, whatever it had
    already allocated, leaves the same inodes and the same entries. *)
Theorem fs_errors_atomic (g : sotfs_graph) (op : fs_op) :
  reachable g -> fs_op_ok op -> (fs_exec g op).1 < 0 -> fs_equiv g (fs_exec g op).2.
Proof.
  intros Hg Hop Hr. destruct (reachable_rel g Hg) as (a&R&O). destruct (exec_sim g a R O op Hop) as (a'&St&R').
  assert (a' = a) as ->; [|by eapply rel_equiv]. revert Hr. generalize dependent (fs_exec g op). intros [r g'] St R' Hr. simpl in *.
  destruct St; simpl in *; try done; try lia.
Qed.

(** A successful create or mkdir makes exactly one new inode, under exactly one
    new entry, and removing that entry again restores the file system. *)
Theorem create_then_remove (g : sotfs_graph) (kind : sotfs_inode_kind) (p : Z) (n : list Z) (mode : Z) :
  reachable g -> fs_op_ok (OpCreate kind p n mode) ->
  let '(id, g1) := fs_exec g (OpCreate kind p n mode) in
  0 < id ->
  entry g p n = None /\ node g id = None
  /\ node g1 id = Some (new_inode id kind mode) /\ entry g1 p n = Some id
  /\ (forall k, k <> id -> node g1 k = node g k)
  /\ (forall q m, cname m -> (q, m) <> (p, n) -> entry g1 q m = entry g q m)
  /\ let '(r, g2) := fs_exec g1 (if bool_decide (kind = KIND_DIR) then OpRmdir p n else OpUnlink p n) in
     r = SOTFS_OK /\ fs_equiv g g2.
Proof.
  intros Hg Hop. destruct (reachable_rel g Hg) as (a&R&O). destruct (exec_sim g a R O _ Hop) as (a1&St&R1).
  destruct (fs_exec g (OpCreate kind p n mode)) as [id g1]. simpl in St, R1. intros Hid. pose proof Hop as [Hn Hkind].
  assert (guard_create a p n = SOTFS_OK /\ fs_nodes a !! id = None /\ 1 <= id <= Z.of_nat SOTFS_MAX_INODES /\
    a1 = mk_fs (<[id := new_inode id kind mode]> (fs_nodes a)) (<[(p, n) := id]> (fs_tree a)) (fs_root a)) as (Hgc&Hnew&Hrange&Ha1).
  { pose proof (guard_create_nonpos a p n). inversion St; subst; try done. lia. }
  destruct (guard_create_ok a p n Hn Hgc) as (Hleaf&Hne&Hfree&xp&Hxp&Hkp).
  pose proof (step_ok _ _ _ _ O Hop St) as O1. subst a1. pose proof (rel_nodes _ _ R1) as N1. pose proof (rel_tree _ _ R1) as T1. simpl in N1, T1.
  split_and!.
  - by rewrite <-(rel_tree _ _ R).
  - by rewrite <-(rel_nodes _ _ R).
  - by rewrite <-N1, lookup_insert_eq.
  - by rewrite <-T1, lookup_insert_eq.
  - intros k Hk. rewrite <-N1, lookup_insert_ne by done. apply R.
  - intros q m Hm Hq. rewrite <-T1, lookup_insert_ne by done. by apply R.
  - set (op2 := if bool_decide (kind = KIND_DIR) then OpRmdir p n else OpUnlink p n).
    assert (fs_op_ok op2) as Hop2 by (unfold op2; by case_bool_decide).
    destruct (exec_sim g1 _ R1 O1 op2 Hop2) as (a2&St2&R2). destruct (fs_exec g1 op2) as [r g2]. simpl in St2, R2.
    assert (forall m, fs_tree a !! (id, m) = None) as Hnochild.
    { intros m. destruct (fs_tree a !! (id, m)) eqn:E; [|done]. destruct (ok_parent _ O _ _ _ E) as (y&?&_). congruence. }
    assert (id <> p) as Hidp by congruence.
    set (a1 := mk_fs _ _ _) in *. set (x := new_inode id kind mode).
    assert (guard_child a1 p n = inr (id, x)) as Hgch.
    { unfold guard_child, guard_dir. simpl. rewrite bool_decide_false by done. rewrite lookup_insert_ne by done.
      rewrite Hxp, bool_decide_true by done. simpl. by rewrite !lookup_insert_eq. }
    assert (r = SOTFS_OK /\ a2 = a) as [-> ->]; [|split; [done|by eapply rel_equiv]].
    assert (mk_fs (delete id (fs_nodes a1)) (delete (p, n) (fs_tree a1)) (fs_root a1) = a) as Ha.
    { simpl. rewrite !delete_insert_eq, !delete_id by done. by destruct a. }
    unfold op2 in St2. case_bool_decide as Hk.
    + rewrite <-Ha. apply (rmdir_inv a1 p n id x); [done..| |done].
      intros m. simpl. rewrite lookup_insert_ne by congruence. apply Hnochild.
    + destruct (unlink_inv a1 p n id x r a2) as [-> ->]; [done..|]. split; [done|].
      unfold drop_link. simpl. rewrite bool_decide_false by done. exact Ha.
Qed.

(** ** Delete on last close *)

Lemma close_blocks h c x :
  graph_wf h -> node h c = Some x -> i_id x = c ->
  blocks (sotfs_inode_close h c)
  = match node (sotfs_inode_close h c) c with None => clear_block c <$> blocks h | Some _ => blocks h end.
Proof.
  intros [Wi We] (j&Hj&->&<-&Hn)%node_Some Hid. unfold sotfs_inode_close, _inode_slot.
  rewrite (proj2 (slot_of_Some (Z.of_nat j + 1) SOTFS_MAX_INODES j)) by done. rewrite (proj2 (Z.eqb_neq _ _)) by done.
  set (x := inode_at h j) in *. set (y := if i_open_count x >? 0 then _ else x).
  assert (i_id y = Z.of_nat j + 1) as Hy by (unfold y; by destruct (_ >? 0)).
  destruct ((i_open_count y =? 0) && i_orphan y).
  - assert (inode_at (set_inode h j y) j = y) as Hat.
    { unfold inode_at. simpl. rewrite array_get_insert by (rewrite (iw_len _ Wi); lia). by rewrite decide_True. }
    destruct (free_storage_spec (set_inode h j y) j) as (_&_&_&Hb&Hnode); [apply set_inode_wf; [done|by right]|done|rewrite Hat; lia|].
    by rewrite Hnode, decide_True, Hb.
  - rewrite node_set by done. rewrite decide_True by done. by rewrite (proj2 (Z.eqb_neq (i_id y) 0)) by lia.
Qed.

(** The orphan [x] of id [c] with [j] handles left. *)
Definition orphan_with (x : sotfs_inode) (j : nat) : sotfs_inode := upd_inode x 0 true (Z.of_nat j).

Lemma close_orphan h a c x j :
  fs_rel h a -> fs_ok a -> node h c = Some (orphan_with x (S j)) ->
  let h' := sotfs_inode_close h c in
  exists a', fs_rel h' a' /\ fs_ok a' /\ node h' c = (if decide (j = 0%nat) then None else Some (orphan_with x j))
    /\ blocks h' = (if decide (j = 0%nat) then clear_block c <$> blocks h else blocks h).
Proof.
  intros R O Hc. cbv zeta. pose proof (sim_close h a R O c) as R'. pose proof (step_ok a (OpClose c) _ _ O I (StClose a c)) as O'.
  assert (node (sotfs_inode_close h c) c = (if decide (j = 0%nat) then None else Some (orphan_with x j))) as Hn.
  { rewrite <-(rel_nodes _ _ R'). simpl. unfold close_node. rewrite (rel_nodes _ _ R), Hc. unfold orphan_with. cbn [upd_inode i_open_count i_orphan i_nlink].
    rewrite Z.gtb_ltb, (proj2 (Z.ltb_lt 0 (Z.of_nat (S j)))) by lia. rewrite andb_true_r.
    replace (Z.of_nat (S j) - 1) with (Z.of_nat j) by lia. case_decide as Hj.
    - subst. simpl. by rewrite lookup_delete_eq.
    - rewrite (proj2 (Z.eqb_neq (Z.of_nat j) 0)) by lia. by rewrite lookup_insert_eq. }
  eexists. split_and!; [exact R'|exact O'|exact Hn|].
  rewrite (close_blocks h c _ (rel_wf _ _ R) Hc), Hn; [by case_decide|].
  apply (node_id h c); [apply R|done].
Qed.

Lemma close_many h a c x j k :
  fs_rel h a -> fs_ok a -> node h c = Some (orphan_with x (j + k)) -> (0 < k)%nat ->
  exists a', fs_rel (Nat.iter j (fun g => sotfs_inode_close g c) h) a' /\ fs_ok a'
    /\ node (Nat.iter j (fun g => sotfs_inode_close g c) h) c = Some (orphan_with x k)
    /\ blocks (Nat.iter j (fun g => sotfs_inode_close g c) h) = blocks h.
Proof.
  intros R O. revert k. induction j as [|j IH]; intros k Hc Hk; [by exists a|].
  destruct (IH (S k)) as (a1&R1&O1&Hn1&Hb1); [by rewrite Nat.add_succ_r|lia|].
  destruct (close_orphan _ a1 c x k R1 O1 Hn1) as (a2&R2&O2&Hn2&Hb2). rewrite decide_False in Hn2 by lia. rewrite decide_False in Hb2 by lia.
  exists a2. simpl. split_and!; [done..|congruence].
Qed.

(** What an unlink does to the block mappings. *)
Lemma unlink_blocks g a p n c x :
  fs_rel g a -> fs_ok a -> cname n -> guard_child a p n = inr (c, x) -> i_kind x <> KIND_DIR ->
  blocks (sotfs_rewrite_unlink g p n).2 = if i_open_count x >? 0 then blocks g else clear_block c <$> blocks g.
Proof.
  intros R O Hn Hgc Hk. destruct (guard_child_ok _ _ _ _ _ Hgc) as [Ht Hxa]. pose proof (ok_nlink _ O _ _ _ _ Hxa Hk Ht) as Hl.
  destruct (ok_node _ O _ _ Hxa) as (Hid&_&Hcr).
  unfold sotfs_rewrite_unlink. pose proof (sim_child g a R O p n Hn) as Hc. rewrite Hgc in Hc.
  destruct Hc as (i&j&->&Hi&Hj&Hcj&Hat&_&L&Hp&Hm&Hch&_). rewrite Hat, bool_decide_false by done.
  destruct (free_edge_inodes g (Z.of_nat i + 1)) as [Ei _]. set (g1 := sotfs_free_edge g (Z.of_nat i + 1)) in *.
  assert (blocks g1 = blocks g) as Eb by (unfold g1, sotfs_free_edge; by destruct (_edge_slot _)).
  assert (inode_at g1 j = x) as -> by (unfold inode_at in *; by rewrite Ei). cbn [upd_inode i_nlink i_open_count]. rewrite Hl. simpl.
  destruct (i_open_count x >? 0); [done|]. rewrite Hcj.
  destruct (free_storage_spec (set_inode g1 j (upd_inode x (1 - 1) (i_orphan x) (i_open_count x))) j) as (_&_&_&Hb&_).
  - apply set_inode_wf; [rewrite Ei; apply R|right; simpl; congruence].
  - done.
  - unfold inode_at. simpl. rewrite array_get_insert, decide_True by (try done; rewrite Ei, (iw_len _ (gw_inodes _ (rel_wf _ _ R))); lia). simpl. lia.
  - simpl in Hb |- *. by rewrite Hb, Eb.
Qed.

(** Delete on last close.  Unlinking a file with [k] open handles removes its
    entry at once; the inode and its blocks stay through the first [k - 1] closes
    and are gone after the [k]-th (at once when [k] is 0). *)
Theorem delete_on_last_close (g : sotfs_graph) (p c : Z) (n : list Z) (x : sotfs_inode) :
  reachable g -> cname n -> n <> [] -> entry g p n = Some c -> node g c = Some x -> i_kind x <> KIND_DIR ->
  let k := Z.to_nat (i_open_count x) in
  let '(r, g1) := sotfs_rewrite_unlink g p n in
  let closed j := Nat.iter j (fun h => sotfs_inode_close h c) g1 in
  r = SOTFS_OK /\ entry g1 p n = None
  /\ (forall j, (j < k)%nat -> node (closed j) c = Some (upd_inode x 0 true (i_open_count x - Z.of_nat j)) /\ blocks (closed j) = blocks g)
  /\ node (closed k) c = None
  /\ blocks (closed k) = (clear_block c <$> blocks g).
Proof.
  intros Hg Hn Hne He Hx Hk. destruct (reachable_rel g Hg) as (a&R&O). cbv zeta.
  pose proof He as Ht. rewrite <-(rel_tree _ _ R) in Ht by done. pose proof Hx as Hxa. rewrite <-(rel_nodes _ _ R) in Hxa.
  pose proof (ok_nlink _ O _ _ _ _ Hxa Hk Ht) as Hl. destruct (ok_node _ O _ _ Hxa) as (Hid&Hoc&Hcr).
  destruct (ok_parent _ O _ _ _ Ht) as (xp&Hxp&Hkp).
  assert (guard_child a p n = inr (c, x)) as Hgc.
  { unfold guard_child, guard_dir. rewrite bool_decide_false by done. rewrite Hxp, bool_decide_true by done. simpl. by rewrite Ht, Hxa. }
  destruct (sim_unlink g a R O p n Hn) as (a1&St&R1).
  pose proof (unlink_blocks g a p n c x R O Hn Hgc Hk) as Hb.
  destruct (unlink_inv a p n c x _ a1 Hgc Hk St) as [Hr ->]. pose proof (step_ok _ (OpUnlink p n) _ _ O Hn St) as O1.
  destruct (sotfs_rewrite_unlink g p n) as [r g1]. simpl in Hr, R1, Hb. subst r.
  split; [done|]. split; [rewrite <-(rel_tree _ _ R1) by done; simpl; by rewrite lookup_delete_eq|].
  pose proof (rel_nodes _ _ R1) as N1. simpl in N1. unfold drop_link in N1. rewrite Hl in N1. change (1 - 1 <=? 0) with true in N1. cbn iota in N1.
  rewrite Z.gtb_ltb in N1, Hb. destruct (0 <? i_open_count x) eqn:Eo; bool_to_prop.
  - assert (node g1 c = Some (orphan_with x (Z.to_nat (i_open_count x)))) as Hn1.
    { rewrite <-N1, lookup_insert_eq. unfold orphan_with. by rewrite Z2Nat.id by lia. }
    assert (forall j, (j < Z.to_nat (i_open_count x))%nat -> exists a', fs_rel (Nat.iter j (fun h => sotfs_inode_close h c) g1) a' /\ fs_ok a'
      /\ node (Nat.iter j (fun h => sotfs_inode_close h c) g1) c = Some (orphan_with x (Z.to_nat (i_open_count x) - j))
      /\ blocks (Nat.iter j (fun h => sotfs_inode_close h c) g1) = blocks g1) as Hmany.
    { intros j Hj. eapply close_many; [done..| |lia]. rewrite Hn1. do 2 f_equal. lia. }
    split_and!.
    + intros j Hj. destruct (Hmany j Hj) as (a'&_&_&->&->). split; [|done]. unfold orphan_with. do 2 f_equal. lia.
    + destruct (Hmany (Z.to_nat (i_open_count x) - 1)%nat ltac:(lia)) as (a'&R'&O'&Hn'&_).
      replace (Z.to_nat (i_open_count x)) with (S (Z.to_nat (i_open_count x) - 1)) by lia. simpl.
      replace (_ - (_ - 1))%nat with 1%nat in Hn' by lia. by destruct (close_orphan _ a' c x 0 R' O' Hn') as (_&_&_&->&_).
    + destruct (Hmany (Z.to_nat (i_open_count x) - 1)%nat ltac:(lia)) as (a'&R'&O'&Hn'&Hb').
      replace (Z.to_nat (i_open_count x)) with (S (Z.to_nat (i_open_count x) - 1)) by lia. simpl.
      replace (_ - (_ - 1))%nat with 1%nat in Hn' by lia. destruct (close_orphan _ a' c x 0 R' O' Hn') as (_&_&_&_&->).
      rewrite decide_True by done. by rewrite Hb', Hb.
  - replace (Z.to_nat (i_open_count x)) with 0%nat by lia. simpl. split_and!; [intros j Hj; lia| |done].
    by rewrite <-N1, lookup_delete_eq.
Qed.

(** ** Path resolution *)

(** The non-empty components of a path; [acc] holds the current one, reversed. *)
Fixpoint components_from (acc p : list Z) : list (list Z) :=
  let emit rest := if bool_decide (acc = []) then rest else reverse acc :: rest in
  match p with
  | [] => emit []
  | c :: p' => if c =? 47 then emit (components_from [] p') else components_from (c :: acc) p'
  end.
Definition components (p : list Z) : list (list Z) := components_from [] p.

(** Following names from [cur]; 0 when one is missing. *)
Fixpoint walk (g : sotfs_graph) (cur : Z) (names : list (list Z)) : Z :=
  match names with
  | [] => cur
  | n :: names' => match entry g cur n with Some c => walk g c names' | None => 0 end
  end.

Definition no_slash (w : list Z) : Prop := Forall (fun c => c <> 47) w.

Lemma components_from_app acc w p :
  no_slash w -> components_from acc (w ++ p) = components_from (reverse w ++ acc) p.
Proof.
  intros Hw. revert acc. induction Hw as [|c w Hc _ IH]; intros acc; simpl; [done|].
  rewrite (proj2 (Z.eqb_neq c 47)) by done. rewrite IH. by rewrite reverse_cons, <-app_assoc.
Qed.

(** A component followed by the end of the path or by a slash. *)
Lemma components_cons w rest :
  no_slash w -> w <> [] -> (rest = [] \/ exists r, rest = 47 :: r) ->
  components (w ++ rest) = w :: components (drop 1 rest).
Proof.
  intros Hw Hne Hr. unfold components. rewrite components_from_app, app_nil_r by done.
  assert (reverse w <> []) as Hrn by (intros E; apply (f_equal reverse) in E; rewrite reverse_involutive in E; done).
  destruct Hr as [->|[r ->]]; simpl; rewrite bool_decide_false, reverse_involutive by done; [done|]. by rewrite drop_0.
Qed.

Lemma split_component p :
  exists w rest, p = w ++ rest /\ no_slash w /\ (rest = [] \/ exists r, rest = 47 :: r).
Proof.
  induction p as [|c p (w&rest&->&Hw&Hr)]; [exists [], []; split_and!; try done; [constructor|by left]|].
  destruct (decide (c = 47)) as [->|Hc].
  - exists [], (47 :: w ++ rest). split_and!; [done|constructor|eauto].
  - exists (c :: w), rest. split_and!; [done|by constructor|done].
Qed.

Lemma component_len_app w rest room :
  no_slash w -> (length w <= room)%nat -> (rest = [] \/ exists r, rest = 47 :: r) ->
  component_len (w ++ rest) room = length w.
Proof.
  intros Hw Hl Hr. revert room Hl. induction Hw as [|c w Hc _ IH]; intros room Hl; simpl.
  - destruct Hr as [->|[r ->]]; destruct room; done.
  - destruct room as [|room]; simpl in *; [lia|]. rewrite (proj2 (Z.eqb_neq c 47)) by done. by rewrite IH by lia.
Qed.

Lemma resolve_loop_spec fuel g cur p :
  edges_wf (edges g) -> cname p -> Forall (fun n => length n < SOTFS_MAX_NAME)%nat (components p) ->
  (length p <= fuel)%nat -> resolve_loop fuel g cur p = walk g cur (components p).
Proof.
  intros W. revert cur p. induction fuel as [|fuel IH]; intros cur p Hp Hc Hf.
  { destruct p; [done|simpl in Hf; lia]. }
  destruct p as [|c p]; [done|]. destruct (split_component (c :: p)) as (w&rest&Heq&Hw&Hr).
  destruct w as [|c' w].
  - destruct Hr as [->|[r ->]]; [done|]. simpl in Heq. injection Heq as -> ->. simpl.
    unfold components in *. simpl in Hc |- *. apply IH; [by apply Forall_cons in Hp as [_ Hp]|done|simpl in Hf; lia].
  - assert (w' : c' :: w <> []) by done. pose proof (components_cons (c' :: w) rest Hw w' Hr) as Hcs. rewrite <-Heq in Hcs.
    rewrite Hcs in Hc |- *. apply Forall_cons in Hc as [Hl Hc]. cbn [resolve_loop].
    rewrite Heq. rewrite component_len_app by (try done; lia). cbn [length].
    change (S (length w)) with (length (c' :: w)). rewrite take_app_length, drop_app_length.
    rewrite Heq in Hp. apply Forall_app in Hp as [Hpw Hpr].
    assert ((if cchar rest 0 =? 47 then drop 1 rest else rest) = drop 1 rest) as ->.
    { destruct Hr as [->|[r ->]]; done. }
    cbn [walk]. pose proof (find_edge_spec g cur (c' :: w) W Hpw) as Hf'. destruct (entry g cur (c' :: w)) as [k|].
    + destruct Hf' as (i&Hi&->&_&_&_&<-). rewrite (proj2 (Z.eqb_neq _ _)) by lia. unfold _edge_slot.
      rewrite (proj2 (slot_of_Some (Z.of_nat i + 1) SOTFS_MAX_EDGES i)) by done. apply IH; [by apply Forall_drop|done|].
      apply (f_equal length) in Heq. rewrite length_app in Heq. rewrite length_drop. simpl in *. lia.
    + by rewrite Hf'.
Qed.

(** Resolving an absolute path follows its components one directory entry at a
    time from the given root (duplicate and trailing slashes ignored) and returns
    0 exactly when one of them is missing; the walk always terminates. *)
Theorem resolve_path_spec (g : sotfs_graph) (root : Z) (p : list Z) :
  reachable g -> 0 < root -> cname p -> Forall (fun n => length n < SOTFS_MAX_NAME)%nat (components p) ->
  sotfs_resolve_path_from g root (Some (47 :: p)) = walk g root (components p).
Proof.
  intros Hg Hr Hp Hc. destruct (reachable_rel g Hg) as (a&R&_). unfold sotfs_resolve_path_from.
  rewrite Z.gtb_ltb, (proj2 (Z.ltb_lt 0 root)) by done. apply resolve_loop_spec; [apply R|done..].
Qed.

(** ** Concrete runs *)

Module FsDemo.
Definition n (s : string) : list Z := bytes_of_string s.

(** A directory, a file in it opened twice, and a second directory. *)
Definition script : list fs_op :=
  [OpCreate KIND_DIR 1 (n "etc") 493; OpCreate KIND_FILE 2 (n "passwd") 420; OpOpen 3; OpOpen 3;
   OpCreate KIND_DIR 1 (n "tmp") 511; OpUnlink 1 (n "etc"); OpRename 2 (n "passwd") 4 (n "p"); OpRmdir 1 (n "etc")].

Definition bytes_ok (s : string) : bool := forallb (fun c => negb (c =? 0)) (n s).

Lemma cname_of (s : string) : bytes_ok s = true -> cname (n s).
Proof. unfold bytes_ok, cname. induction (n s); simpl; intros H; constructor; bool_to_prop; auto. Qed.

Lemma fs_script_ok : Forall fs_op_ok script.
Proof.
  unfold script. repeat (apply Forall_cons; split; [simpl; try done; split_and?; try (apply cname_of; reflexivity); auto|]). constructor.
Qed.

Definition state (k : nat) : sotfs_graph := (fs_exec_all sotfs_graph_init (take k script)).2.

Lemma state_reachable k : reachable (state k).
Proof. exists (take k script). split; [apply Forall_take, fs_script_ok|done]. Qed.
End FsDemo.

Lemma fs_refines_witness :
  (fs_exec_all sotfs_graph_init FsDemo.script).1 = [2; 3; 0; 0; 4; SOTFS_ERR_ISDIR; 0; 0]
  /\ exists a', fs_run fs_init FsDemo.script (fs_exec_all sotfs_graph_init FsDemo.script).1 a'
       /\ fs_rel (fs_exec_all sotfs_graph_init FsDemo.script).2 a' /\ fs_ok a'.
Proof. split; [vm_compute; reflexivity|]. apply fs_refines. exact FsDemo.fs_script_ok. Defined.

Lemma fs_errors_atomic_witness :
  fs_equiv (FsDemo.state 5) (fs_exec (FsDemo.state 5) (OpRmdir 1 (FsDemo.n "etc"))).2.
Proof. apply fs_errors_atomic; [apply FsDemo.state_reachable|apply FsDemo.cname_of; reflexivity|vm_compute; reflexivity]. Defined.

Lemma create_then_remove_witness :
  entry (FsDemo.state 1) 2 (FsDemo.n "passwd") = None.
Proof.
  assert (Hop : fs_op_ok (OpCreate KIND_FILE 2 (FsDemo.n "passwd") 420)).
  { split; [apply FsDemo.cname_of; reflexivity|by left]. }
  pose proof (create_then_remove (FsDemo.state 1) KIND_FILE 2 (FsDemo.n "passwd") 420 (FsDemo.state_reachable 1) Hop) as H.
  assert (Hpos : 0 < (fs_exec (FsDemo.state 1) (OpCreate KIND_FILE 2 (FsDemo.n "passwd") 420)).1) by (vm_compute; reflexivity).
  destruct (fs_exec (FsDemo.state 1) (OpCreate KIND_FILE 2 (FsDemo.n "passwd") 420)) as [id g1]. destruct (H Hpos) as (He&_). exact He.
Defined.

(** The file opened twice: gone after the second close. *)
Lemma delete_on_last_close_witness :
  node (Nat.iter 2 (fun h => sotfs_inode_close h 3) (sotfs_rewrite_unlink (FsDemo.state 4) 2 (FsDemo.n "passwd")).2) 3 = None.
Proof.
  assert (Hx : exists x, node (FsDemo.state 4) 3 = Some x /\ i_kind x = KIND_FILE /\ i_open_count x = 2).
  { eexists. vm_compute. split_and!; reflexivity. }
  destruct Hx as (x&Hx&Hk&Ho).
  pose proof (delete_on_last_close (FsDemo.state 4) 2 3 (FsDemo.n "passwd") x (FsDemo.state_reachable 4)) as H.
  assert (Hc : cname (FsDemo.n "passwd")) by (apply FsDemo.cname_of; reflexivity).
  assert (He : entry (FsDemo.state 4) 2 (FsDemo.n "passwd") = Some 3) by (vm_compute; reflexivity).
  assert (Hne : FsDemo.n "passwd" <> []) by (vm_compute; discriminate).
  assert (Hkd : i_kind x <> KIND_DIR) by (rewrite Hk; discriminate).
  specialize (H Hc Hne He Hx Hkd). rewrite Ho in H.
  destruct (sotfs_rewrite_unlink (FsDemo.state 4) 2 (FsDemo.n "passwd")) as [r g1]. destruct H as (_&_&_&Hn&_). exact Hn.
Defined.

Lemma resolve_path_spec_witness :
  sotfs_resolve_path_from (FsDemo.state 4) 1 (Some (47 :: FsDemo.n "etc//passwd/")) = 3.
Proof.
  rewrite resolve_path_spec; [vm_compute; reflexivity|apply FsDemo.state_reachable|reflexivity|apply FsDemo.cname_of; reflexivity|].
  vm_compute. repeat constructor.
Defined.

(** A component longer than 127 bytes is not refused: the resolver cuts it and
    goes on with the rest, so ["/" ++ 127 bytes ++ "b"] names the child ["b"] of
    the directory with the 127-byte name. *)
Theorem overlong_component_splits :
  let long := replicate 127 97 in
  let g := (fs_exec_all sotfs_graph_init [OpCreate KIND_DIR 1 long 493; OpCreate KIND_FILE 2 (FsDemo.n "b") 420]).2 in
  sotfs_resolve_path g (Some (47 :: long ++ FsDemo.n "b")) = 3.
Proof. vm_compute. reflexivity. Qed.

(** The rename rule does not look for cycles: a directory can be renamed into
    itself, after which no path from the root reaches it although its inode is
    still live and has an entry. *)
Theorem rename_into_itself :
  let '(rs, g) := fs_exec_all sotfs_graph_init
                    [OpCreate KIND_DIR 1 (FsDemo.n "d") 493; OpRename 1 (FsDemo.n "d") 2 (FsDemo.n "d")] in
  rs = [2; SOTFS_OK] /\ entry g 2 (FsDemo.n "d") = Some 2 /\ node g 2 = Some (new_inode 2 KIND_DIR 493)
  /\ sotfs_resolve_path g (Some (FsDemo.n "/d")) = 0.
Proof. vm_compute. split_and!; reflexivity. Qed.
