(* ===== verification/FileIO.v ===== *)
(** * File I/O (src/sotfs/io.c)

    [sotfs_file_write] and [sotfs_file_read] over any block store ([BlockStore]).
    The buffer of a write is the list of its [len] bytes (a NULL buffer takes the
    branch of [len = 0]); the buffer of a read is what the call returns.  Offsets
    and lengths are 32-bit.  The loops run on fuel [len]: every iteration moves at
    least one byte. *)

From S2P Require Import Prelude Storage BlockStore Graph Rewrite.

(** The block of [file_id] at [aligned_offset], by scan. *)
Definition block_hit (g : sotfs_graph) (file_id aligned_offset : Z) (i : nat) : bool :=
  let b := block_at g i in
  negb (b_id b =? 0) && (b_file_id b =? file_id) && (b_offset b =? aligned_offset).

Definition _find_block (g : sotfs_graph) (file_id aligned_offset : Z) : Z :=
  match first_below (block_hit g file_id aligned_offset) SOTFS_MAX_BLOCKS with
  | Some i => b_id (block_at g i)
  | None => 0
  end.

(** The inode checks both operations start with: [inl] an error, [inr] the slot. *)
Definition file_guard (g : sotfs_graph) (file_id : Z) : Z + nat :=
  match _inode_slot file_id with
  | None => inl SOTFS_ERR_NOENT
  | Some slot =>
      if i_id (inode_at g slot) =? 0 then inl SOTFS_ERR_NOENT
      else if bool_decide (i_kind (inode_at g slot) = KIND_FILE) then inr slot
      else inl SOTFS_ERR_ISDIR
  end.

(** Block-aligned offset, offset inside the block and size of the next chunk. *)
Definition chunk_at (offset moved len : Z) : Z * Z * Z :=
  let cur_off := u32 (offset + moved) in
  let blk_off := Z.land cur_off (u32 (Z.lnot (SOTFS_BLOCK_SIZE - 1))) in
  let blk_intra := cur_off - blk_off in
  let blk_remain := SOTFS_BLOCK_SIZE - blk_intra in
  let chunk := len - moved in
  (blk_off, blk_intra, if chunk >? blk_remain then blk_remain else chunk).

Section io.
Context {S : Type} `{BlockStore S}.

(** The 4 KiB of a mapping: zero when it has no disk block or the read fails. *)
Definition load_page (s : S) (disk : Z) : list Z * S :=
  if disk =? 0 then (replicate 4096 0, s)
  else let '(r, page, s) := bs_read s disk in
       (if r =? 0 then page else replicate 4096 0, s).

Definition set_length (b : sotfs_block) (n : Z) : sotfs_block :=
  mk_block (b_id b) (b_file_id b) (b_offset b) n (b_disk_blk b).

(** One block of a write: [inl] an early return. *)
Definition write_chunk (g : sotfs_graph) (s : S) (file_id orig_size blk_off blk_intra : Z) (data : list Z) (written : Z)
    : Z * sotfs_graph * S + sotfs_graph * S :=
  let found := if blk_off >=? orig_size then 0 else _find_block g file_id blk_off in
  let '(blk_id, g, s) := if found =? 0 then sotfs_alloc_block g s file_id blk_off else (found, g, s) in
  if blk_id =? 0 then inl (if written >? 0 then i32 written else SOTFS_ERR_NOSPACE, g, s)
  else match _block_slot blk_id with
       | None => inl (SOTFS_ERR_INVAL, g, s)
       | Some blk_slot =>
           let b := block_at g blk_slot in
           let '(page, s) := load_page s (b_disk_blk b) in
           let page := write_list page (Z.to_nat blk_intra) data in
           let s := if b_disk_blk b =? 0 then s else (bs_write s (b_disk_blk b) page).2 in
           let end_intra := blk_intra + Z.of_nat (length data) in
           let g := if end_intra >? b_length b then set_block g blk_slot (set_length b end_intra) else g in
           inr (g, s)
       end.

Fixpoint write_loop (fuel : nat) (g : sotfs_graph) (s : S) (file_id orig_size offset : Z) (buf : list Z) (written : Z)
    : Z * sotfs_graph * S + sotfs_graph * S :=
  let len := Z.of_nat (length buf) in
  if written <? len then
    match fuel with
    | O => inl (0, g, s)
    | Datatypes.S fuel' =>
        let '(blk_off, blk_intra, chunk) := chunk_at offset written len in
        let data := take (Z.to_nat chunk) (drop (Z.to_nat written) buf) in
        match write_chunk g s file_id orig_size blk_off blk_intra data written with
        | inl early => inl early
        | inr (g, s) => write_loop fuel' g s file_id orig_size offset buf (written + chunk)
        end
    end
  else inr (g, s).

Definition set_size (x : sotfs_inode) (size : Z) : sotfs_inode :=
  mk_inode (i_id x) (i_kind x) (i_mode x) size (i_generation x) (i_nlink x) (i_functor_persistence x) (i_orphan x)
    (i_open_count x) (i_mtime_sec x) (i_atime_sec x) (i_ctime_sec x).

Definition sotfs_file_write (g : sotfs_graph) (s : S) (file_id offset : Z) (buf : list Z) : Z * sotfs_graph * S :=
  let len := Z.of_nat (length buf) in
  if len =? 0 then (0, g, s)
  else match file_guard g file_id with
       | inl err => (err, g, s)
       | inr slot =>
           match write_loop (length buf) g s file_id (i_size (inode_at g slot)) offset buf 0 with
           | inl early => early
           | inr (g, s) =>
               let new_end := u32 (offset + len) in
               let x := inode_at g slot in
               (i32 len, if new_end >? i_size x then set_inode g slot (set_size x new_end) else g, s)
           end
       end.

(** The loop of a read: [inl] an error, [inr] the bytes. *)
Fixpoint read_loop (fuel : nat) (g : sotfs_graph) (s : S) (file_id offset read_len done : Z) : Z * S + list Z * S :=
  if done <? read_len then
    match fuel with
    | O => inl (0, s)
    | Datatypes.S fuel' =>
        let '(blk_off, blk_intra, chunk) := chunk_at offset done read_len in
        let blk_id := _find_block g file_id blk_off in
        let piece :=
          if blk_id =? 0 then inr (replicate (Z.to_nat chunk) 0, s)
          else match _block_slot blk_id with
               | None => inl (SOTFS_ERR_INVAL, s)
               | Some blk_slot =>
                   let '(page, s) := load_page s (b_disk_blk (block_at g blk_slot)) in
                   inr (take (Z.to_nat chunk) (drop (Z.to_nat blk_intra) page), s)
               end in
        match piece with
        | inl err => inl err
        | inr (bytes, s) =>
            match read_loop fuel' g s file_id offset read_len (done + chunk) with
            | inl err => inl err
            | inr (rest, s) => inr (bytes ++ rest, s)
            end
        end
    end
  else inr ([], s).

Definition sotfs_file_read (g : sotfs_graph) (s : S) (file_id offset len : Z) : Z * list Z * S :=
  if len =? 0 then (0, [], s)
  else match file_guard g file_id with
       | inl err => (err, [], s)
       | inr slot =>
           let file_size := i_size (inode_at g slot) in
           if offset >=? file_size then (0, [], s)
           else
             let read_len := if file_size - offset >? len then len else file_size - offset in
             match read_loop (Z.to_nat read_len) g s file_id offset read_len 0 with
             | inl (err, s) => (err, [], s)
             | inr (bytes, s) => (i32 read_len, bytes, s)
             end
       end.
End io.
