(* ===== verification/FileIOSpec.v ===== *)
(** * What file reads and writes do

    [content] is the byte a file has at an offset, through its block mapping and
    the block store; [io_wf] is the invariant under which mappings and store agree.
    A write that runs out of space leaves mappings behind the end of its file, which
    a later write overlooks, so what depends on them is claimed of the files that are
    [good], for which no write was cut short.  The lemmas: a read returns the file's
    bytes; a completed write lays its buffer over them ([laid]: a block it had to
    allocate has, around the buffer, what the disk block held before) and touches no
    other file; whatever the outcome the invariant is kept. *)

From S2P Require Import Prelude Storage Blkdev BlkdevSpec BlkdevTheorems BlockStore Graph Rewrite FsInv FileIO.

(** ** Chunks *)

Lemma land_align a : 0 <= a < 2 ^ 32 -> Z.land a (u32 (Z.lnot 4095)) = a - a mod 4096.
Proof.
  intros Ha. replace (u32 (Z.lnot 4095)) with (Z.land (Z.lnot (Z.ones 12)) (Z.ones 32)) by reflexivity.
  rewrite (Z.land_comm (Z.lnot _)), Z.land_assoc, Z.land_ones, Z.mod_small by lia.
  rewrite <-Z.ldiff_land, Z.ldiff_ones_r, Z.shiftr_div_pow2, Z.shiftl_mul_pow2 by lia.
  change (2 ^ 12) with 4096. pose proof (Z.div_mod a 4096). lia.
Qed.

Lemma chunk_at_spec offset moved len :
  0 <= offset -> 0 <= moved < len -> offset + len < 2 ^ 32 ->
  let cur := offset + moved in
  exists chunk, chunk_at offset moved len = (cur - cur mod 4096, cur mod 4096, chunk)
    /\ 0 < chunk <= len - moved /\ cur mod 4096 + chunk <= 4096
    /\ (chunk = len - moved \/ cur mod 4096 + chunk = 4096).
Proof.
  intros Ho Hm Hl. cbv zeta. unfold chunk_at, SOTFS_BLOCK_SIZE. change (4096 - 1) with 4095.
  rewrite (u32_small (offset + moved)) by lia. rewrite land_align by lia. rewrite Z.gtb_ltb.
  pose proof (Z.mod_pos_bound (offset + moved) 4096).
  replace (offset + moved - (offset + moved - (offset + moved) mod 4096)) with ((offset + moved) mod 4096) by lia.
  eexists. split; [done|]. destruct (_ <? _) eqn:E; bool_to_prop; lia.
Qed.

(** ** The invariant *)

Definition live_block (bs : list sotfs_block) (i : nat) (b : sotfs_block) : Prop := bs !! i = Some b /\ b_id b <> 0.

(** Every mapping has its slot's id, an aligned offset and a disk block of its own; those of
    a good file are below [lim] of the file and at different offsets. *)
Record mapping_wf (bs : list sotfs_block) (lim : Z -> Z) (good : Z -> Prop) : Prop := {
  mp_len : length bs = SOTFS_MAX_BLOCKS;
  mp_id i b : live_block bs i b -> b_id b = Z.of_nat i + 1;
  mp_off i b : live_block bs i b -> 0 <= b_offset b /\ b_offset b mod 4096 = 0;
  mp_lim i b : live_block bs i b -> good (b_file_id b) -> b_offset b < lim (b_file_id b);
  mp_uniq i j b b' : live_block bs i b -> live_block bs j b' -> good (b_file_id b) -> b_file_id b = b_file_id b' -> b_offset b = b_offset b' -> i = j;
  mp_disk i j b b' : live_block bs i b -> live_block bs j b' -> b_disk_blk b = b_disk_blk b' -> i = j;
}.

Section spec.
Context {S : Type} `{BlockStoreLaws S}.
Implicit Types (g : sotfs_graph) (s : S) (lim : Z -> Z) (good : Z -> Prop).

(** Mappings own allocated disk blocks. *)
Record io_wf g s lim good : Prop := {
  io_map : mapping_wf (blocks g) lim good;
  io_inv : bs_inv s;
  io_disk i b : live_block (blocks g) i b -> bs_valid s (b_disk_blk b) /\ bs_alloced s (b_disk_blk b);
}.

(** The mapping of a file at a block-aligned offset. *)
Definition mapping g (f off : Z) : option sotfs_block :=
  match first_below (block_hit g f off) SOTFS_MAX_BLOCKS with Some i => Some (block_at g i) | None => None end.

(** The byte of file [f] at offset [o]. *)
Definition content g s (f o : Z) : Z :=
  match mapping g f (o - o mod 4096) with
  | Some b => (bs_view s (b_disk_blk b)).[Z.to_nat (o mod 4096), 0]
  | None => 0
  end.

Lemma block_lookup bs lim good i : mapping_wf bs lim good -> (i < SOTFS_MAX_BLOCKS)%nat -> bs !! i = Some (bs.[i, zero_mapping]).
Proof using Type. intros W Hi. apply array_lookup_lt. by rewrite (mp_len _ _ _ W). Qed.

Lemma live_lt bs lim good i b : mapping_wf bs lim good -> live_block bs i b -> (i < SOTFS_MAX_BLOCKS)%nat.
Proof using Type. intros W [Hi _]. rewrite <-(mp_len _ _ _ W). by eapply lookup_lt_Some. Qed.

Lemma block_hit_spec g lim good f off i :
  mapping_wf (blocks g) lim good -> (i < SOTFS_MAX_BLOCKS)%nat ->
  block_hit g f off i = true
  <-> live_block (blocks g) i (block_at g i) /\ b_file_id (block_at g i) = f /\ b_offset (block_at g i) = off.
Proof using Type.
  intros W Hi. unfold block_hit, live_block. pose proof (block_lookup _ _ _ i W Hi) as Hl. fold (block_at g i) in Hl.
  rewrite !andb_true_iff, negb_true_iff, Z.eqb_neq, !Z.eqb_eq. naive_solver.
Qed.

(** What the lookup returns, for any file; and that it returns it, for a good one. *)
Lemma mapping_live g lim good f off b :
  mapping_wf (blocks g) lim good -> mapping g f off = Some b -> exists i, live_block (blocks g) i b /\ b_file_id b = f /\ b_offset b = off.
Proof using Type.
  intros W. unfold mapping. destruct (first_below _ _) as [i|] eqn:E; [|done]. intros [= <-]. apply first_below_Some in E as (Hi&Hh&_).
  apply (block_hit_spec g lim good) in Hh; [|done..]. eauto.
Qed.

Lemma mapping_Some g lim good f off b :
  mapping_wf (blocks g) lim good -> good f ->
  mapping g f off = Some b <-> exists i, live_block (blocks g) i b /\ b_file_id b = f /\ b_offset b = off.
Proof using Type.
  intros W Hg. split; [by eapply mapping_live|]. unfold mapping.
  intros (i&L&Hf&Ho). pose proof (live_lt _ _ _ _ _ W L) as Hi. assert (block_at g i = b) as Hat by (apply array_get, L).
  destruct (first_below _ _) as [j|] eqn:E.
  - apply first_below_Some in E as (Hj&Hh&_). apply (block_hit_spec g lim good) in Hh as (L'&Hf'&Ho'); [|done..].
    assert (i = j) as <- by (eapply (mp_uniq _ _ _ W); [exact L|exact L'|congruence..]). by rewrite Hat.
  - pose proof (first_below_None _ _ _ E Hi) as Hh. apply not_true_iff_false in Hh. destruct Hh.
    apply (block_hit_spec g lim good); [done..|]. by rewrite Hat.
Qed.

(** A mapping shows up in the lookup, whoever else has the same file and offset. *)
Lemma mapping_found g lim good i b : mapping_wf (blocks g) lim good -> live_block (blocks g) i b -> mapping g (b_file_id b) (b_offset b) <> None.
Proof using Type.
  intros W L. pose proof (live_lt _ _ _ _ _ W L) as Hi. assert (block_at g i = b) as Hat by (apply array_get, L). unfold mapping.
  destruct (first_below _ _) eqn:E; [done|]. pose proof (first_below_None _ _ _ E Hi) as Hh. apply not_true_iff_false in Hh. destruct Hh.
  apply (block_hit_spec g lim good); [done..|]. by rewrite Hat.
Qed.

(** The id the code finds. *)
Lemma find_block_spec g lim good f off :
  mapping_wf (blocks g) lim good ->
  match mapping g f off with
  | Some b => exists i, (i < SOTFS_MAX_BLOCKS)%nat /\ _find_block g f off = Z.of_nat i + 1 /\ _block_slot (Z.of_nat i + 1) = Some i
                /\ live_block (blocks g) i b /\ block_at g i = b
  | None => _find_block g f off = 0
  end.
Proof using Type.
  intros W. unfold mapping, _find_block. destruct (first_below _ _) as [i|] eqn:E; [|done].
  apply first_below_Some in E as (Hi&Hh&_). apply (block_hit_spec g lim good) in Hh as (L&_&_); [|done..].
  exists i. split_and!; try done; [by apply (mp_id _ _ _ W)|by apply slot_of_Some].
Qed.

(** Reading a page through a mapping. *)
Lemma load_page_spec s d :
  bs_inv s -> bs_valid s d ->
  exists s', load_page s d = (bs_view s d, s') /\ bs_inv s' /\ bs_same bs_valid bs_alloced s s'
    /\ forall k, bs_valid s k -> bs_view s' k = bs_view s k.
Proof using Type.
  intros Hs Hd. destruct (bs_read_spec s d Hs Hd) as (s'&E&?). exists s'. unfold load_page.
  pose proof (bs_valid_pos s d Hd). rewrite (proj2 (Z.eqb_neq d 0)) by lia. by rewrite E.
Qed.

(** A store step that keeps the blocks: the invariant and the content stay. *)
Lemma io_store_step g s s' lim good :
  io_wf g s lim good -> bs_inv s' -> bs_same bs_valid bs_alloced s s' -> (forall k, bs_valid s k -> bs_view s' k = bs_view s k) ->
  io_wf g s' lim good /\ forall f o, content g s' f o = content g s f o.
Proof using Type.
  intros [Wm Wi Wd] Hi [Hv Ha] Hview. split.
  - constructor; [done|done|]. intros i b L. destruct (Wd i b L) as [Hd Hal]. rewrite Hv, Ha by done. done.
  - intros f o. unfold content. destruct (mapping g f _) as [b|] eqn:E; [|done].
    apply (mapping_live g lim good) in E as (i&L&_); [|done]. by rewrite Hview by (by apply (Wd i)).
Qed.

Lemma mapping_mono bs lim lim' good good' : mapping_wf bs lim good -> (forall f, good' f -> good f /\ lim f <= lim' f) -> mapping_wf bs lim' good'.
Proof using Type.
  intros [Hl Hi Ho Hm Hu Hd] Hle. constructor; try done.
  - intros i b L Hg. destruct (Hle _ Hg) as [Hg' ?]. specialize (Hm i b L Hg'). lia.
  - intros i j b b' L L' Hg. apply Hu; [done..|]. by apply Hle.
Qed.

Lemma io_mono g s lim lim' good good' : io_wf g s lim good -> (forall f, good' f -> good f /\ lim f <= lim' f) -> io_wf g s lim' good'.
Proof using Type. intros [Wm ? ?] Hle. constructor; try done. by eapply mapping_mono. Qed.

(** Content depends on the mapping of the block the offset falls in. *)
Lemma content_same g g' s s' f o :
  (mapping g' f (o - o mod 4096) = None /\ mapping g f (o - o mod 4096) = None)
  \/ (exists b b', mapping g' f (o - o mod 4096) = Some b' /\ mapping g f (o - o mod 4096) = Some b
        /\ bs_view s' (b_disk_blk b') = bs_view s (b_disk_blk b)) ->
  content g' s' f o = content g s f o.
Proof using Type. unfold content. by intros [[-> ->]|(b&b'&->&->&->)]. Qed.

Lemma set_block_live bs i b j x :
  length bs = SOTFS_MAX_BLOCKS -> (i < SOTFS_MAX_BLOCKS)%nat ->
  live_block (<[i := b]> bs) j x <-> (j = i /\ x = b /\ b_id b <> 0) \/ (j <> i /\ live_block bs j x).
Proof using Type.
  intros Hl Hi. unfold live_block. rewrite list_lookup_insert_Some. split.
  - intros [[(->&->&_)|[? ?]] ?]; [left|right]; auto.
  - intros [(->&->&?)|(?&?&?)]; split; auto. left. split_and!; [done..|lia].
Qed.

#[local] Opaque rotate Nat.modulo SOTFS_MAX_BLOCKS.

(** Claiming a slot for a block of [f]. *)
Lemma alloc_block_spec g s lim good f off id g' s' :
  io_wf g s lim good -> 0 <= off -> off mod 4096 = 0 -> (good f -> mapping g f off = None /\ off < lim f) ->
  sotfs_alloc_block g s f off = (id, g', s') ->
  (id = 0 /\ g' = g /\ s' = s)
  \/ (exists i b, (i < SOTFS_MAX_BLOCKS)%nat /\ id = Z.of_nat i + 1 /\ _block_slot id = Some i
       /\ inodes g' = inodes g /\ edges g' = edges g /\ live_block (blocks g') i b /\ block_at g' i = b
       /\ b_file_id b = f /\ b_offset b = off /\ io_wf g' s' lim good
       /\ (forall f' o, good f' -> f' <> f \/ o - o mod 4096 <> off -> content g' s' f' o = content g s f' o)
       /\ forall f' off', good f' -> mapping g f' off' <> None -> mapping g' f' off' <> None).
Proof using Type.
  intros [Wm Wi Wd] Hoff Hal Hgood. unfold sotfs_alloc_block.
  destruct (first_below _ _) as [i|] eqn:E; [|intros [= <- <- <-]; by left].
  apply first_below_Some in E as (Hi&Hz&_). bool_to_prop. set (slot := rotate _ _ _) in *.
  assert (slot < SOTFS_MAX_BLOCKS)%nat as Hs by (apply rotate_lt; lia).
  rewrite (proj2 (Z.eqb_neq _ 0)) by (by apply bs_total_pos).
  destruct (bs_alloc s) as [d s1] eqn:Ea. destruct (bs_alloc_spec s d s1 Wi Ea) as [[-> ->]|(Hv&Hna&Wi1&Hvv&Haa&Hview)].
  { simpl. intros [= <- <- <-]. by left. }
  pose proof (bs_valid_pos s d Hv). rewrite (proj2 (Z.eqb_neq d 0)) by lia. intros [= <- <- <-]. right.
  set (b := mk_block (Z.of_nat slot + 1) f off 0 d). set (g1 := set_block_hint _ _).
  pose proof (mp_len _ _ _ Wm) as Hl. assert (b_id b <> 0) as Hb by (simpl; lia).
  assert (forall j x, live_block (blocks g1) j x <-> (j = slot /\ x = b) \/ (j <> slot /\ live_block (blocks g) j x)) as HL.
  { intros j x. simpl. rewrite set_block_live by done. naive_solver. }
  assert (forall j x, live_block (blocks g) j x -> j <> slot) as Hfree.
  { intros j x [Lj Hx] ->. apply Hx. unfold block_at in Hz. by rewrite Lj in Hz. }
  assert (forall j x, good f -> live_block (blocks g) j x -> ~ (b_file_id x = f /\ b_offset x = off)) as Hnew.
  { intros j x Hg L [Hf Ho]. destruct (Hgood Hg) as [Hno _]. assert (mapping g f off = Some x); [|congruence]. apply (mapping_Some g lim good); [done|done|]. eauto. }
  assert (mapping_wf (blocks g1) lim good) as Wm1.
  { constructor.
    - simpl. by rewrite length_insert.
    - intros j x [[-> ->]|[_ L]]%HL; [done|by apply (mp_id _ _ _ Wm)].
    - intros j x [[-> ->]|[_ L]]%HL; [done|by eapply (mp_off _ _ _ Wm)].
    - intros j x [[-> ->]|[_ L]]%HL; [apply Hgood|by eapply (mp_lim _ _ _ Wm)].
    - intros j k x y [[-> ->]|[_ Lx]]%HL [[-> ->]|[_ Ly]]%HL Hg Hf Ho; [done|exfalso; by eapply Hnew|exfalso; eapply Hnew; [|exact Lx|done]; by rewrite Hf in Hg|by eapply (mp_uniq _ _ _ Wm)].
    - intros j k x y [[-> ->]|[_ Lx]]%HL [[-> ->]|[_ Ly]]%HL Hd; [done|exfalso..|by eapply (mp_disk _ _ _ Wm)].
      + simpl in Hd. destruct (Wd _ _ Ly) as [_ Hal']. congruence.
      + simpl in Hd. destruct (Wd _ _ Lx) as [_ Hal']. congruence. }
  assert (io_wf g1 s1 lim good) as W1.
  { constructor; [done|done|]. intros j x [[-> ->]|[_ L]]%HL; [simpl; rewrite Hvv, Haa by done; auto|]. destruct (Wd _ _ L). rewrite Hvv, Haa by done. auto. }
  assert (live_block (blocks g1) slot b) as Lb by (apply HL; by left).
  assert (forall f' o x, good f' -> mapping g f' o = Some x -> mapping g1 f' o = Some x) as Hkeep.
  { intros f' o x Hg Ex. apply (mapping_live g lim good) in Ex as (j&L&Hf&Ho); [|done]. apply (mapping_Some g1 lim good); [done|done|]. exists j. split_and!; [|done..].
    apply HL. right. split; [by eapply Hfree|done]. }
  exists slot, b. split_and!; try done; [by apply slot_of_Some|by apply array_get, Lb| |].
  - intros f' o Hg Hdiff. apply content_same. destruct (mapping g f' (o - o mod 4096)) as [x|] eqn:Ex.
    + right. exists x, x. split_and!; [by apply Hkeep|done|]. apply (mapping_live g lim good) in Ex as (j&L&_); [|done]. apply Hview. by eapply Wd.
    + left. split; [|done]. destruct (mapping g1 f' (o - o mod 4096)) as [y|] eqn:Ey; [|done].
      apply (mapping_live g1 lim good) in Ey as (j&[[-> ->]|[_ L]]%HL&Hf&Ho); [subst b; simpl in Hf, Ho; destruct Hdiff; congruence| |done].
      assert (mapping g f' (o - o mod 4096) = Some y); [|congruence]. apply (mapping_Some g lim good); [done|done|]. eauto.
  - intros f' o Hg Hm. destruct (mapping g f' o) as [x|] eqn:Ex; [|done]. by rewrite (Hkeep _ _ _ Hg Ex).
Qed.

(** Recording the length of a mapping changes no content. *)
Lemma set_length_spec g s lim good i b n :
  io_wf g s lim good -> live_block (blocks g) i b ->
  let g' := set_block g i (set_length b n) in
  io_wf g' s lim good /\ (forall f o, good f -> content g' s f o = content g s f o) /\ forall f off, good f -> mapping g' f off <> None <-> mapping g f off <> None.
Proof using Type.
  intros [Wm Wi Wd] L. cbv zeta. pose proof (live_lt _ _ _ _ _ Wm L) as Hi. pose proof (mp_len _ _ _ Wm) as Hl.
  assert (forall j x, live_block (blocks (set_block g i (set_length b n))) j x ->
     exists y, live_block (blocks g) j y /\ b_id x = b_id y /\ b_file_id x = b_file_id y /\ b_offset x = b_offset y /\ b_disk_blk x = b_disk_blk y) as Hback.
  { intros j x Lx. apply set_block_live in Lx as [(->&->&_)|[_ Lx]]; [by exists b|by exists x|done|done]. }
  assert (mapping_wf (blocks (set_block g i (set_length b n))) lim good) as Wm1.
  { constructor.
    - simpl. by rewrite length_insert.
    - intros j x (y&L'&->&_)%Hback. by apply (mp_id _ _ _ Wm).
    - intros j x (y&L'&_&_&->&_)%Hback. by eapply (mp_off _ _ _ Wm).
    - intros j x (y&L'&_&->&->&_)%Hback. by eapply (mp_lim _ _ _ Wm).
    - intros j k x x' (y&L1&_&->&->&_)%Hback (y'&L2&_&->&->&_)%Hback. by eapply (mp_uniq _ _ _ Wm).
    - intros j k x x' (y&L1&_&_&_&->)%Hback (y'&L2&_&_&_&->)%Hback. by eapply (mp_disk _ _ _ Wm). }
  assert (forall f off, good f ->
     (mapping (set_block g i (set_length b n)) f off = None /\ mapping g f off = None)
     \/ exists y y', mapping (set_block g i (set_length b n)) f off = Some y' /\ mapping g f off = Some y /\ b_disk_blk y' = b_disk_blk y) as Hcase.
  { intros f off Hg. destruct (mapping g f off) as [y|] eqn:Ey.
    - right. pose proof Ey as Ey'. apply (mapping_live g lim good) in Ey as (j&Lj&Hf&Ho); [|done].
      exists y, (if decide (j = i) then set_length b n else y). split_and!; [|done|].
      + apply (mapping_Some _ lim good); [done|done|]. exists j. destruct (decide (j = i)) as [->|Hne].
        * assert (y = b) as -> by (destruct Lj, L; congruence). split_and!; [|done..]. apply set_block_live; [done..|]. left. split_and!; [done..|apply L].
        * split_and!; [|done..]. apply set_block_live; [done..|]. by right.
      + destruct (decide (j = i)) as [->|Hne]; [|done]. by assert (y = b) as -> by (destruct Lj, L; congruence).
    - left. split; [|done]. destruct (mapping (set_block g i _) f _) as [z|] eqn:Ez; [|done].
      apply (mapping_live _ lim good) in Ez as (j&(y&Ly&_&Hf&Ho&_)%Hback&Hzf&Hzo); [|done].
      assert (mapping g f off = Some y); [|congruence]. apply (mapping_Some g lim good); [done|done|]. exists j. split_and!; congruence || done. }
  split; [constructor; try done; intros j x (y&L'&_&_&_&->)%Hback; by eapply Wd|]. split.
  - intros f o Hg. apply content_same. destruct (Hcase f (o - o mod 4096) Hg) as [?|(y&y'&?&?&Hd)]; [by left|right]. exists y, y'. split_and!; [done|done|by rewrite Hd].
  - intros f off Hg. destruct (Hcase f off Hg) as [[-> ->]|(y&y'&->&->&_)]; done.
Qed.

(** Overwriting part of a mapped page. *)
Lemma page_write_spec g s s' lim good i b intra data :
  io_wf g s lim good -> live_block (blocks g) i b -> 0 <= intra -> intra + Z.of_nat (length data) <= 4096 ->
  let page := write_list (bs_view s (b_disk_blk b)) (Z.to_nat intra) data in
  bs_inv s' -> bs_same bs_valid bs_alloced s s' ->
  (forall k, bs_valid s k -> bs_view s' k = if decide (k = b_disk_blk b) then page else bs_view s k) ->
  io_wf g s' lim good
  /\ forall f o, good f -> content g s' f o = if decide (f = b_file_id b) then overlay (content g s f) (b_offset b + intra) data o else content g s f o.
Proof using Type.
  intros W L Hin Hlen page Hi' [Hv Ha] Hview. pose proof W as [Wm Wi Wd]. destruct (Wd i b L) as [Hvb Hab].
  pose proof (bs_view_length s (b_disk_blk b) Wi) as Hvl. destruct (mp_off _ _ _ Wm i b L) as (Ho0&Ho1).
  split; [constructor; [done|done|]; intros j x Lx; destruct (Wd j x Lx); rewrite Hv, Ha by done; done|].
  intros f o Hg. pose proof (Z.mod_pos_bound o 4096) as Hmo. pose proof (Z.div_mod o 4096) as Hdm.
  unfold content at 1. destruct (mapping g f (o - o mod 4096)) as [x|] eqn:Ex.
  - pose proof Ex as Ex'. apply (mapping_live g lim good) in Ex as (j&Lx&Hf&Ho); [|done]. rewrite Hview by (by eapply Wd).
    destruct (decide (b_disk_blk x = b_disk_blk b)) as [Hd|Hd].
    + assert (j = i) as -> by (eapply (mp_disk _ _ _ Wm); eauto). assert (x = b) as -> by (destruct Lx, L; congruence).
      rewrite decide_True by done. unfold page. rewrite write_list_get by lia. unfold overlay, content. rewrite Ex'.
      replace (Z.to_nat (o - (b_offset b + intra))) with (Z.to_nat (o mod 4096) - Z.to_nat intra)%nat by lia.
      destruct (b_offset b + intra <=? o) eqn:E1, (o <? b_offset b + intra + _) eqn:E2; simpl; bool_to_prop; case_decide; done || lia.
    + unfold content. rewrite Ex'. case_decide as Hff; [|done]. unfold overlay. rewrite Ex'.
      destruct (b_offset b + intra <=? o) eqn:E1, (o <? b_offset b + intra + _) eqn:E2; simpl; try done. bool_to_prop.
      assert (b_offset b = b_offset x).
      { pose proof (Z.div_mod (b_offset b) 4096). rewrite Ho. lia. }
      exfalso. assert (j = i) as -> by (eapply (mp_uniq _ _ _ Wm); [exact Lx|exact L|congruence..]). destruct Lx, L. congruence.
  - unfold content. rewrite Ex. case_decide as Hff; [|done]. unfold overlay. rewrite Ex.
    destruct (b_offset b + intra <=? o) eqn:E1, (o <? b_offset b + intra + _) eqn:E2; simpl; try done. bool_to_prop.
    exfalso. assert (mapping g f (o - o mod 4096) = Some b); [|congruence]. apply (mapping_Some g lim good); [done|done|].
    exists i. split_and!; [done..|]. pose proof (Z.div_mod (b_offset b) 4096). lia.
Qed.

(** [data] laid over a file from [start] on: its bytes are there; every other byte is as before,
    but in blocks that were allocated for it; no mapping is gone. *)
Record laid g s g' s' (f start : Z) (data : list Z) : Prop := {
  la_in o : start <= o < start + Z.of_nat (length data) -> mapping g' f (o - o mod 4096) <> None /\ content g' s' f o = data.[Z.to_nat (o - start), 0];
  la_out o : ~ (start <= o < start + Z.of_nat (length data)) -> mapping g f (o - o mod 4096) <> None \/ mapping g' f (o - o mod 4096) = None ->
    content g' s' f o = content g s f o;
  la_mono off : mapping g f off <> None -> mapping g' f off <> None;
}.

Lemma laid_nil g s f start : laid g s g s f start [].
Proof using Type. constructor; [simpl; lia|done|done]. Qed.

Lemma laid_app g s g1 s1 g' s' f start d1 d2 :
  laid g s g1 s1 f start d1 -> laid g1 s1 g' s' f (start + Z.of_nat (length d1)) d2 -> laid g s g' s' f start (d1 ++ d2).
Proof using Type.
  intros [I1 O1 M1] [I2 O2 M2]. constructor; [| |auto].
  - intros o. rewrite length_app. intros Ho. destruct (decide (o < start + Z.of_nat (length d1))) as [Hlt|Hge].
    + destruct (I1 o ltac:(lia)) as [Hm Hc]. split; [by apply M2|]. rewrite O2 by (lia || by left). rewrite Hc. by rewrite lookup_app_l by lia.
    + destruct (I2 o ltac:(lia)) as [Hm Hc]. split; [done|]. rewrite Hc, lookup_app_r by lia. do 2 f_equal. lia.
  - intros o. rewrite length_app. intros Ho Hm. rewrite O2; [apply O1; [lia|]|lia|].
    + destruct Hm as [?|Hm]; [by left|right]. destruct (mapping g1 f (o - o mod 4096)) eqn:E; [|done]. exfalso. by apply (M2 (o - o mod 4096)); [rewrite E|].
    + destruct Hm as [Hm|?]; [left; by apply M1|by right].
Qed.

(** One chunk: either the store is full and nothing changed, or the chunk is laid over the file. *)
Lemma write_chunk_spec g s lim good f orig off intra data written :
  io_wf g s lim good -> 0 <= off -> off mod 4096 = 0 -> (good f -> off < lim f) -> 0 <= intra -> intra + Z.of_nat (length data) <= 4096 ->
  (good f -> orig <= off -> mapping g f off = None) ->
  match write_chunk g s f orig off intra data written with
  | inl (r, g', s') => r = (if written >? 0 then i32 written else SOTFS_ERR_NOSPACE) /\ g' = g /\ s' = s
  | inr (g', s') => io_wf g' s' lim good /\ inodes g' = inodes g /\ edges g' = edges g
      /\ (forall f' o, good f' -> f' <> f -> content g' s' f' o = content g s f' o)
      /\ (good f -> laid g s g' s' f (off + intra) data)
  end.
Proof using Type.
  intros W Ho Hal Hlim Hin Hlen Hskip. unfold write_chunk.
  set (found := if off >=? orig then 0 else _find_block g f off).
  assert (exists id g1 s1, (if found =? 0 then sotfs_alloc_block g s f off else (found, g, s)) = (id, g1, s1)
    /\ ((id = 0 /\ g1 = g /\ s1 = s) \/ exists i b, (i < SOTFS_MAX_BLOCKS)%nat /\ id = Z.of_nat i + 1 /\ _block_slot id = Some i
          /\ inodes g1 = inodes g /\ edges g1 = edges g /\ live_block (blocks g1) i b /\ block_at g1 i = b
          /\ b_file_id b = f /\ b_offset b = off /\ io_wf g1 s1 lim good
          /\ (forall f' o, good f' -> f' <> f \/ o - o mod 4096 <> off \/ mapping g f off <> None -> content g1 s1 f' o = content g s f' o)
          /\ forall f' off', good f' -> mapping g f' off' <> None -> mapping g1 f' off' <> None))
    as (id&g1&s1&->&Hid).
  { pose proof (find_block_spec g lim good f off (io_map _ _ _ _ W)) as Hf. destruct (found =? 0) eqn:E0; bool_to_prop.
    - destruct (sotfs_alloc_block g s f off) as [[id g1] s1] eqn:Ea. do 3 eexists. split; [done|].
      assert (good f -> mapping g f off = None) as Hno.
      { intros Hg. destruct (decide (orig <= off)) as [Hge|Hlt]; [by apply Hskip|]. unfold found in E0. rewrite Z.geb_leb, (proj2 (Z.leb_gt orig off)) in E0 by lia.
        destruct (mapping g f off); [|done]. destruct Hf as (i&_&Hf&_). lia. }
      destruct (alloc_block_spec _ _ lim good _ _ _ _ _ W Ho Hal (fun Hg => conj (Hno Hg) (Hlim Hg)) Ea) as [?|(i&b&H1&H2&H3&H4&H5&H6&H7&H8&H9&H10&H11&H12)]; [by left|right].
      exists i, b. split_and!; try done. intros f' o Hg [?|[?|Hm]]; [apply H11; auto|apply H11; auto|]. destruct (decide (f' = f)) as [->|]; [|apply H11; auto]. by rewrite Hno in Hm.
    - destruct (mapping g f off) as [b|] eqn:Em; [|exfalso; apply E0; unfold found; by destruct (off >=? orig)].
      assert (found = _find_block g f off) as Ef by (unfold found in *; by destruct (off >=? orig)).
      destruct Hf as (i&Hi&Hf&Hs&L&Hat). rewrite Ef, Hf. do 3 eexists. split; [done|]. right. exists i, b.
      apply (mapping_live g lim good) in Em as (j&_&Hbf&Hbo); [|apply W]. split_and!; done. }
  destruct Hid as [(->&->&->)|(i&b&Hi&->&Hs&Ein&Eed&L&Hat&Hbf&Hbo&W1&Hc1&Hm1)]; [done|].
  rewrite (proj2 (Z.eqb_neq (Z.of_nat i + 1) 0)) by lia. rewrite Hs, Hat.
  destruct (io_disk _ _ _ _ W1 i b L) as [Hv _]. pose proof (bs_valid_pos s1 _ Hv).
  destruct (load_page_spec s1 (b_disk_blk b) (io_inv _ _ _ _ W1) Hv) as (s2&->&Hi2&Hsame2&Hv2).
  destruct (io_store_step g1 s1 s2 lim good W1 Hi2 Hsame2 Hv2) as [W2 Hc2].
  rewrite (proj2 (Z.eqb_neq (b_disk_blk b) 0)) by lia. rewrite <-(Hv2 _ Hv).
  assert (bs_valid s2 (b_disk_blk b)) as Hvs2 by (by apply (bss_valid _ _ _ _ Hsame2)).
  pose proof (bs_view_length s2 (b_disk_blk b) Hi2) as Hvl.
  destruct (bs_write_spec s2 (b_disk_blk b) (write_list (bs_view s2 (b_disk_blk b)) (Z.to_nat intra) data) Hi2 Hvs2) as (s3&->&Hi3&Hsame3&Hv3).
  { rewrite length_write_list; lia. }
  destruct (page_write_spec g1 s2 s3 lim good i b intra data W2 L Hin Hlen Hi3 Hsame3 Hv3) as [W3 Hc3]. cbn [snd]. rewrite Hbf, Hbo in Hc3.
  set (g2 := if _ >? b_length b then _ else g1).
  assert (io_wf g2 s3 lim good /\ inodes g2 = inodes g1 /\ edges g2 = edges g1 /\ (forall f' o, good f' -> content g2 s3 f' o = content g1 s3 f' o)
    /\ forall f' off', good f' -> mapping g2 f' off' <> None <-> mapping g1 f' off' <> None) as (W4&Ein2&Eed2&Hc4&Hm4).
  { unfold g2. destruct (_ >? b_length b); [|done]. destruct (set_length_spec g1 s3 lim good i b (intra + Z.of_nat (length data)) W3 L) as (?&?&?). done. }
  clearbody g2. split_and!; [done|congruence|congruence| |].
  - intros f' o Hg Hne. rewrite Hc4, Hc3, decide_False, Hc2 by done. apply Hc1; auto.
  - intros Hg. assert (forall o, content g2 s3 f o = overlay (content g1 s2 f) (off + intra) data o) as Hcf by (intros o; by rewrite Hc4, Hc3, decide_True by done).
    assert (mapping g2 f off <> None) as Hmap by (apply Hm4; [done|]; pose proof (mapping_found g1 lim good i b (io_map _ _ _ _ W1) L) as Hx; by rewrite Hbf, Hbo in Hx).
    assert (forall o, off <= o < off + 4096 -> o - o mod 4096 = off) as Hblk.
    { intros o Hr. pose proof (Z.div_mod off 4096). assert (o mod 4096 = o - off); [|lia]. symmetry. apply (Z.mod_unique_pos o 4096 (off / 4096)); lia. }
    constructor.
    + intros o Hr. split; [by rewrite Hblk by lia|]. rewrite Hcf. unfold overlay. rewrite (proj2 (Z.leb_le _ _)), (proj2 (Z.ltb_lt _ _)) by lia. done.
    + intros o Hr Hm. rewrite Hcf. unfold overlay. destruct (_ && _) eqn:Eb; [apply andb_true_iff in Eb as [? ?]; bool_to_prop; lia|]. rewrite Hc2. apply Hc1; [done|].
      destruct (decide (o - o mod 4096 = off)) as [Eo|Eo]; [|by right; left]. right. right. rewrite Eo in Hm. destruct Hm as [?|Hm]; [done|by destruct Hmap].
    + intros off' Hm. apply Hm4; [done|]. by apply Hm1.
Qed.

Definition raise_lim (lim : Z -> Z) (f e : Z) : Z -> Z := fun f' => if decide (f' = f) then Z.max (lim f) e else lim f'.

(** The good files but [f]. *)
Definition but (good : Z -> Prop) (f : Z) : Z -> Prop := fun f' => good f' /\ f' <> f.

(** The loop from byte [written] on.  [e] bounds the blocks the loop added so far. *)
Lemma write_loop_spec fuel g s lim good f offset buf written e :
  let len := Z.of_nat (length buf) in
  io_wf g s (raise_lim lim f e) good -> 0 <= offset -> 0 <= written <= len -> offset + len < 2 ^ 32 -> len < 2 ^ 31 ->
  (Z.to_nat (len - written) <= fuel)%nat -> e <= offset + len ->
  (written < len -> e <= offset + written - (offset + written) mod 4096) ->
  match write_loop fuel g s f (lim f) offset buf written with
  | inl (r, g', s') => (r = SOTFS_ERR_NOSPACE /\ written = 0 /\ g' = g /\ s' = s \/ 0 < r < len)
      /\ io_wf g' s' lim (but good f) /\ inodes g' = inodes g /\ edges g' = edges g
      /\ forall f' o, good f' -> f' <> f -> content g' s' f' o = content g s f' o
  | inr (g', s') => io_wf g' s' (raise_lim lim f (offset + len)) good /\ inodes g' = inodes g /\ edges g' = edges g
      /\ (forall f' o, good f' -> f' <> f -> content g' s' f' o = content g s f' o)
      /\ (good f -> laid g s g' s' f (offset + written) (drop (Z.to_nat written) buf))
  end.
Proof using Type.
  intros len. revert g s written e. induction fuel as [|fuel IH]; intros g s written e W Ho Hw Hl Hl31 Hf He Hskip; cbn [write_loop]; fold len.
  all: destruct (written <? len) eqn:Elt; bool_to_prop.
  2, 4: assert (written = len) as -> by lia; split_and!; [|done..|].
  2, 4: eapply io_mono; [exact W|]; intros f' Hg; split; [done|]; unfold raise_lim; case_decide; lia.
  2, 3: intros _; rewrite drop_ge by lia; apply laid_nil.
  { lia. }
  destruct (chunk_at_spec offset written len Ho ltac:(lia) Hl) as (chunk&->&Hch&Hin&Hend).
  set (cur := offset + written) in *. pose proof (Z.mod_pos_bound cur 4096) as Hmod. pose proof (Z.div_mod cur 4096) as Hdm.
  set (data := take (Z.to_nat chunk) (drop (Z.to_nat written) buf)).
  assert (Z.of_nat (length data) = chunk) as Hdl by (unfold data; rewrite length_take, length_drop; unfold len in *; lia).
  set (lim1 := raise_lim lim f (cur + chunk)).
  assert (io_wf g s lim1 good) as W1.
  { eapply io_mono; [exact W|]. intros f' Hg. split; [done|]. unfold lim1, raise_lim. case_decide; lia. }
  assert (forall a, a * 4096 mod 4096 = 0) as Hmul by (intros; by apply Z.mod_mul).
  assert ((cur - cur mod 4096) mod 4096 = 0) as A1 by (replace (cur - cur mod 4096) with (cur / 4096 * 4096) by lia; apply Hmul).
  assert (cur - cur mod 4096 < lim1 f) as A2 by (unfold lim1, raise_lim; rewrite decide_True by done; lia).
  assert (good f -> lim f <= cur - cur mod 4096 -> mapping g f (cur - cur mod 4096) = None) as A3.
  { intros Hg Hge. destruct (mapping g f (cur - cur mod 4096)) as [b|] eqn:Em; [|done].
    apply (mapping_live g (raise_lim lim f e) good) in Em as (i&L&Hbf&Hbo); [|apply W].
    pose proof (mp_lim _ _ _ (io_map _ _ _ _ W) i b L ltac:(by rewrite Hbf)) as Hlt.
    rewrite Hbf in Hlt. unfold raise_lim in Hlt. rewrite decide_True in Hlt by done. lia. }
  assert (written + chunk < len -> cur + chunk <= offset + (written + chunk) - (offset + (written + chunk)) mod 4096) as A4.
  { intros Hlt. destruct Hend as [Hend|Hend]; [lia|]. replace (offset + (written + chunk)) with ((cur / 4096 + 1) * 4096) by (unfold cur in *; lia).
    rewrite Hmul. lia. }
  pose proof (write_chunk_spec g s lim1 good f (lim f) (cur - cur mod 4096) (cur mod 4096) data written W1 ltac:(lia) A1 (fun _ => A2) ltac:(lia) ltac:(lia) A3) as Hc.
  destruct (write_chunk g s f (lim f) (cur - cur mod 4096) (cur mod 4096) data written) as [[[r g'] s']|[g1 s1]].
  { destruct Hc as (->&->&->). split_and!; try done.
    - rewrite Z.gtb_ltb. destruct (0 <? written) eqn:Ew; bool_to_prop; [right; rewrite i32_small; lia|left; split_and!; try done; lia].
    - eapply io_mono; [exact W|]. intros f' [Hg Hne]. split; [done|]. unfold raise_lim. rewrite decide_False by done. lia. }
  destruct Hc as (W2&Ein&Eed&Hoth&Hlaid).
  specialize (IH g1 s1 (written + chunk) (cur + chunk) W2 Ho ltac:(lia) Hl Hl31 ltac:(lia) ltac:(unfold cur; lia) A4).
  destruct (write_loop fuel g1 s1 f (lim f) offset buf (written + chunk)) as [[[r g'] s']|[g' s']].
  { destruct IH as (Hr&W3&Ein3&Eed3&Hoth3). split_and!; [right; destruct Hr as [(_&?&_)|?]; lia|done|congruence|congruence|]. intros f' o Hg Hne. by rewrite Hoth3, Hoth. }
  destruct IH as (W3&Ein3&Eed3&Hoth3&Hlaid3). split_and!; [done|congruence|congruence|intros f' o Hg Hne; by rewrite Hoth3, Hoth|]. intros Hg.
  replace (drop (Z.to_nat written) buf) with (data ++ drop (Z.to_nat (written + chunk)) buf).
  - replace (cur - cur mod 4096 + cur mod 4096) with cur in Hlaid by lia. eapply laid_app; [by apply Hlaid|]. replace (cur + Z.of_nat (length data)) with (offset + (written + chunk)) by (unfold cur; lia). by apply Hlaid3.
  - unfold data. replace (Z.to_nat (written + chunk)) with (Z.to_nat written + Z.to_nat chunk)%nat by lia.
    rewrite <-drop_drop. apply take_drop.
Qed.

(** ** Files *)

Definition size_of (x : sotfs_inode) : Z := if bool_decide (i_kind x = KIND_FILE) then i_size x else 0.
Definition file_size g (f : Z) : Z := match node g f with Some x => size_of x | None => 0 end.

Lemma size_of_file x : i_kind x = KIND_FILE -> size_of x = i_size x.
Proof using Type. intros Hk. unfold size_of. by rewrite bool_decide_true. Qed.

(** [f] is a live regular file. *)
Definition is_file g (f : Z) : Prop := exists x, node g f = Some x /\ i_kind x = KIND_FILE.

Lemma file_guard_ok g f :
  inodes_wf (inodes g) -> is_file g f ->
  exists slot, file_guard g f = inr slot /\ (slot < SOTFS_MAX_INODES)%nat /\ f = Z.of_nat slot + 1
    /\ node g f = Some (inode_at g slot) /\ i_id (inode_at g slot) = f /\ i_kind (inode_at g slot) = KIND_FILE.
Proof using Type.
  intros W (x&Hx&Hk). pose proof (node_id g f x W Hx) as [Hid Hr]. pose proof Hx as Hx'.
  apply node_Some in Hx as (slot&Hs&Hf&Hat&Hn). exists slot. unfold file_guard, _inode_slot.
  rewrite (proj2 (slot_of_Some f SOTFS_MAX_INODES slot)) by done. rewrite Hat, (proj2 (Z.eqb_neq _ 0)), bool_decide_true by done.
  split_and!; done.
Qed.

Lemma raise_lim_size g f e lim' :
  e <= lim' f -> (forall f', file_size g f' <= lim' f') -> forall f', raise_lim (file_size g) f e f' <= lim' f'.
Proof using Type. intros He Hs f'. unfold raise_lim. specialize (Hs f'). case_decide; subst; lia. Qed.

(** A write to a file, whatever it returns. *)
Lemma file_write_spec g s good f offset buf :
  inodes_wf (inodes g) -> io_wf g s (file_size g) good -> is_file g f -> buf <> [] ->
  0 <= offset -> offset + Z.of_nat (length buf) < 2 ^ 32 -> Z.of_nat (length buf) < 2 ^ 31 ->
  let len := Z.of_nat (length buf) in
  let '(r, g', s') := sotfs_file_write g s f offset buf in
  inodes_wf (inodes g') /\ edges g' = edges g /\ (forall f' o, good f' -> f' <> f -> content g' s' f' o = content g s f' o)
  /\ (r = SOTFS_ERR_NOSPACE /\ g' = g /\ s' = s
      \/ 0 < r < len /\ (forall k, node g' k = node g k) /\ io_wf g' s' (file_size g') (but good f)
      \/ r = len /\ io_wf g' s' (file_size g') good /\ file_size g' f = Z.max (file_size g f) (offset + len)
         /\ (forall k, node g' k = (fun x => if decide (k = f) then set_size x (file_size g' f) else x) <$> node g k)
         /\ (good f -> laid g s g' s' f offset buf)).
Proof using Type.
  intros Wi W Hfile Hne Ho Hl Hl31. cbv zeta. unfold sotfs_file_write.
  assert (0 < Z.of_nat (length buf)) by (destruct buf; [done|simpl; lia]). rewrite (proj2 (Z.eqb_neq _ 0)) by lia.
  destruct (file_guard_ok g f Wi Hfile) as (slot&->&Hs&Hfs&Hnode&Hid&Hkind).
  assert (i_size (inode_at g slot) = file_size g f) as Hsz by (unfold file_size; rewrite Hnode; by rewrite size_of_file). rewrite Hsz.
  pose proof (write_loop_spec (length buf) g s (file_size g) good f offset buf 0 0) as Hloop. cbv zeta in Hloop.
  assert (0 <= offset mod 4096 < 4096 /\ 0 <= offset - offset mod 4096) as [? ?].
  { pose proof (Z.mod_pos_bound offset 4096). pose proof (Z.div_mod offset 4096). pose proof (Z.div_pos offset 4096). lia. }
  assert (io_wf g s (raise_lim (file_size g) f 0) good) as W0.
  { eapply io_mono; [exact W|]. intros f' Hg. split; [done|]. unfold raise_lim. case_decide; subst; lia. }
  specialize (Hloop W0 Ho ltac:(lia) Hl Hl31 ltac:(lia) ltac:(lia) ltac:(intros; rewrite Z.add_0_r; lia)).
  destruct (write_loop (length buf) g s f (file_size g f) offset buf 0) as [[[r g1] s1]|[g1 s1]].
  { destruct Hloop as (Hr&W1&Ein&Eed&Hoth). assert (forall k, node g1 k = node g k) as Hn1 by (intros; by apply node_ext). split_and!; [by rewrite Ein|done|done|].
    destruct Hr as [(?&_&?&?)|Hr]; [by left|right; left]. split_and!; [lia..|done|]. eapply io_mono; [exact W1|]. intros f' Hg. split; [done|]. unfold file_size. by rewrite Hn1. }
  destruct Hloop as (W1&Ein&Eed&Hoth&Hlaid). rewrite Z.add_0_r, drop_0 in Hlaid.
  assert (inode_at g1 slot = inode_at g slot) as Hat by (unfold inode_at; by rewrite Ein). rewrite Hat, Hsz.
  rewrite (u32_small (offset + Z.of_nat (length buf))), i32_small by lia. rewrite Z.gtb_ltb.
  assert (forall k, node g1 k = node g k) as Hn1 by (intros; by apply node_ext).
  assert (forall k, file_size g1 k = file_size g k) as Hs1 by (intros; unfold file_size; by rewrite Hn1).
  destruct (file_size g f <? offset + Z.of_nat (length buf)) eqn:E; bool_to_prop.
  - set (x' := set_size (inode_at g slot) (offset + Z.of_nat (length buf))).
    assert (inodes_wf (inodes g1)) as Wi1 by (by rewrite Ein).
    assert (forall k, node (set_inode g1 slot x') k = if decide (k = f) then Some x' else node g k) as Hn2.
    { intros k. rewrite node_set by done. rewrite <-Hfs, Hn1. case_decide; [|done]. simpl. by rewrite (proj2 (Z.eqb_neq _ 0)) by (rewrite Hid; lia). }
    assert (file_size (set_inode g1 slot x') f = offset + Z.of_nat (length buf)) as Hsf by (unfold file_size; rewrite Hn2, decide_True by done; by rewrite size_of_file).
    split_and!; [apply set_inode_wf; [done|right; simpl; congruence]|done|exact Hoth|right; right]. split_and!; [done| |lia| |].
    + assert (io_wf (set_inode g1 slot x') s1 (raise_lim (file_size g) f (offset + Z.of_nat (length buf))) good) as W2 by (by destruct W1).
      eapply io_mono; [exact W2|]. intros f' Hg. split; [done|]. apply raise_lim_size; [lia|]. clear f' Hg. intros f'. unfold file_size at 2. rewrite Hn2.
      case_decide; [subst; rewrite size_of_file by done; simpl; lia|]. unfold file_size. lia.
    + intros k. rewrite Hn2, Hsf. case_decide as Hk; [subst k; by rewrite Hnode|]. by destruct (node g k).
    + intros Hg. destruct (Hlaid Hg). by constructor.
  - split_and!; [by rewrite Ein|done|done|right; right]. rewrite Hs1. split_and!; [done| |lia| |done].
    + eapply io_mono; [exact W1|]. intros f' Hg. split; [done|]. apply raise_lim_size; [rewrite Hs1; lia|]. clear f' Hg. intros f'. rewrite Hs1. lia.
    + intros k. rewrite Hn1. case_decide as Hk; [|by destruct (node g k)]. subst k. rewrite Hnode. simpl. f_equal.
      unfold file_size. rewrite Hnode, size_of_file by done. by destruct (inode_at g slot).
Qed.

Lemma read_loop_spec fuel g s good f offset len done' :
  io_wf g s (file_size g) good -> 0 <= offset -> 0 <= done' <= len -> offset + len < 2 ^ 32 -> (Z.to_nat (len - done') <= fuel)%nat ->
  exists s', read_loop fuel g s f offset len done' = inr (slice (content g s f) (offset + done') (Z.to_nat (len - done')), s')
    /\ io_wf g s' (file_size g) good /\ forall f' o, content g s' f' o = content g s f' o.
Proof using Type.
  revert s done'. induction fuel as [|fuel IH]; intros s dn W Ho Hd Hl Hf; cbn [read_loop].
  all: destruct (dn <? len) eqn:E; bool_to_prop.
  1: lia.
  1, 3: exists s; replace (Z.to_nat (len - dn)) with 0%nat by lia; done.
  destruct (chunk_at_spec offset dn len Ho ltac:(lia) Hl) as (chunk&->&Hch&Hin&Hend).
  set (cur := offset + dn) in *. pose proof (Z.mod_pos_bound cur 4096) as Hmod. pose proof (Z.div_mod cur 4096) as Hdm.
  assert (forall k, (k < Z.to_nat chunk)%nat -> (cur + Z.of_nat k) mod 4096 = cur mod 4096 + Z.of_nat k) as Hmk.
  { intros k Hk. rewrite (Z.add_mod cur) by lia. rewrite (Z.mod_small (Z.of_nat k)) by lia. apply Z.mod_small. lia. }
  assert (exists s1, (if _find_block g f (cur - cur mod 4096) =? 0 then inr (replicate (Z.to_nat chunk) 0, s)
          else match _block_slot (_find_block g f (cur - cur mod 4096)) with
               | Some blk_slot => let '(page, s) := load_page s (b_disk_blk (block_at g blk_slot)) in
                                  inr (take (Z.to_nat chunk) (drop (Z.to_nat (cur mod 4096)) page), s)
               | None => inl (SOTFS_ERR_INVAL, s)
               end) = inr (slice (content g s f) cur (Z.to_nat chunk), s1)
       /\ io_wf g s1 (file_size g) good /\ forall f' o, content g s1 f' o = content g s f' o) as (s1&->&W1&Hc1).
  { pose proof (find_block_spec g (file_size g) good f (cur - cur mod 4096) (io_map _ _ _ _ W)) as Hfb.
    destruct (mapping g f (cur - cur mod 4096)) as [b|] eqn:Em.
    - destruct Hfb as (i&Hi&->&->&L&Hat). rewrite (proj2 (Z.eqb_neq _ 0)) by lia. rewrite Hat.
      destruct (io_disk _ _ _ _ W i b L) as [Hv _]. destruct (load_page_spec s _ (io_inv _ _ _ _ W) Hv) as (s1&->&Hi1&Hsame&Hview).
      destruct (io_store_step g s s1 _ _ W Hi1 Hsame Hview) as [W1 Hc1]. exists s1. split_and!; [|done..]. do 2 f_equal.
      pose proof (bs_view_length s (b_disk_blk b) (io_inv _ _ _ _ W)) as Hvl.
      apply list_eq. intros k. destruct (decide (k < Z.to_nat chunk)%nat) as [Hk|Hk].
      + rewrite slice_lookup, lookup_take_lt, lookup_drop by done. unfold content. rewrite Hmk by done.
        replace (cur + Z.of_nat k - (cur mod 4096 + Z.of_nat k)) with (cur - cur mod 4096) by lia. rewrite Em.
        replace (Z.to_nat (cur mod 4096 + Z.of_nat k)) with (Z.to_nat (cur mod 4096) + k)%nat by lia.
        apply array_lookup_lt. lia.
      + rewrite !lookup_ge_None_2; [done|rewrite length_slice; lia|rewrite length_take; lia].
    - rewrite Hfb. simpl. exists s. split_and!; [|done..]. do 2 f_equal. apply list_eq. intros k.
      destruct (decide (k < Z.to_nat chunk)%nat) as [Hk|Hk].
      + rewrite slice_lookup, lookup_replicate_2 by done. unfold content. rewrite Hmk by done.
        replace (cur + Z.of_nat k - (cur mod 4096 + Z.of_nat k)) with (cur - cur mod 4096) by lia. by rewrite Em.
      + rewrite !lookup_ge_None_2; [done|rewrite length_slice; lia|rewrite length_replicate; lia]. }
  destruct (IH s1 (dn + chunk) W1 Ho ltac:(lia) Hl ltac:(lia)) as (s2&->&W2&Hc2). exists s2. split_and!; [|done|].
  - do 2 f_equal. replace (Z.to_nat (len - dn)) with (Z.to_nat chunk + Z.to_nat (len - (dn + chunk)))%nat by lia.
    rewrite slice_app. f_equal. replace (offset + (dn + chunk)) with (cur + Z.of_nat (Z.to_nat chunk)) by (unfold cur; lia).
    apply slice_ext. intros o _. apply Hc1.
  - intros f' o. by rewrite Hc2, Hc1.
Qed.

Lemma file_read_spec g s good f offset len :
  inodes_wf (inodes g) -> io_wf g s (file_size g) good -> is_file g f -> 0 <= offset -> 0 <= len < 2 ^ 31 -> file_size g f < 2 ^ 32 ->
  let n := Z.max 0 (Z.min len (file_size g f - offset)) in
  exists s', sotfs_file_read g s f offset len = (n, slice (content g s f) offset (Z.to_nat n), s')
    /\ io_wf g s' (file_size g) good /\ forall f' o, content g s' f' o = content g s f' o.
Proof using Type.
  intros Wi W Hfile Ho Hl Hsz. cbv zeta. unfold sotfs_file_read. destruct (len =? 0) eqn:E0; bool_to_prop.
  { subst. replace (Z.max 0 (Z.min 0 _)) with 0 by lia. by exists s. }
  destruct (file_guard_ok g f Wi Hfile) as (slot&->&Hs&Hfs&Hnode&Hid&Hkind).
  assert (i_size (inode_at g slot) = file_size g f) as -> by (unfold file_size; rewrite Hnode; by rewrite size_of_file).
  rewrite Z.geb_leb, Z.gtb_ltb. destruct (file_size g f <=? offset) eqn:E1; bool_to_prop.
  { replace (Z.max 0 _) with 0 by lia. by exists s. }
  set (n := if len <? file_size g f - offset then len else file_size g f - offset).
  assert (n = Z.max 0 (Z.min len (file_size g f - offset))) as <- by (unfold n; destruct (_ <? _) eqn:E2; bool_to_prop; lia).
  assert (0 < n <= len /\ offset + n < 2 ^ 32) as [Hn Hn'] by (unfold n; destruct (_ <? _) eqn:E2; bool_to_prop; lia).
  destruct (read_loop_spec (Z.to_nat n) g s good f offset n 0 W Ho ltac:(lia) Hn' ltac:(lia)) as (s'&->&W'&Hc').
  exists s'. rewrite Z.add_0_r, Z.sub_0_r, i32_small by lia. done.
Qed.
End spec.
