(* ===== verification/FileIOTheorems.v ===== *)
(** * Theorems of file I/O

    [sys_inv] joins the invariants of the name space and of the block mappings; it
    holds of a freshly formatted file system and is kept by every rewrite rule, every
    write whatever it returns, every read and every release of a block ([run_sys]).  Under
    it a file behaves as a byte array, unless a write to it was cut short. *)

From S2P Require Import Prelude Storage Blkdev BlkdevSpec BlkdevTheorems BlockStore.
From S2P Require Import Graph Rewrite FsInv FsSpec FsTheorems FileIO FileIOSpec.

Section system.
Context {S : Type} `{BlockStoreLaws S}.
Implicit Types (g : sotfs_graph) (s : S) (good : Z -> Prop).

Definition sys_inv g s good : Prop := (exists a, fs_rel g a /\ fs_ok a) /\ io_wf g s (file_size g) good /\ forall f, file_size g f < 2 ^ 32.

Lemma sys_inodes g s good : sys_inv g s good -> inodes_wf (inodes g).
Proof using Type. intros [(a&R&_) _]. apply R. Qed.

(** ** The rewrite rules and the mappings *)

Lemma alloc_inode_blocks g kind mode : blocks (sotfs_alloc_inode g kind mode).2 = blocks g.
Proof using Type. unfold sotfs_alloc_inode. by destruct (first_below _ _). Qed.
Lemma alloc_edge_blocks g p c n : blocks (sotfs_alloc_edge g p c n).2 = blocks g.
Proof using Type. unfold sotfs_alloc_edge. by destruct (first_below _ _). Qed.
Lemma free_inode_blocks g k : blocks (sotfs_free_inode g k) = blocks g.
Proof using Type. unfold sotfs_free_inode. by destruct (_inode_slot k). Qed.
Lemma free_edge_blocks g k : blocks (sotfs_free_edge g k) = blocks g.
Proof using Type. unfold sotfs_free_edge. by destruct (_edge_slot k). Qed.

Lemma create_blocks kind g p n mode : blocks (rewrite_create kind g p n mode).2 = blocks g.
Proof using Type.
  unfold rewrite_create. case_bool_decide; [done|]. destruct (_ <=? _)%nat; [done|]. destruct (negb _); [done|]. destruct (negb _); [done|].
  pose proof (alloc_inode_blocks g kind mode) as E1. destruct (sotfs_alloc_inode g kind mode) as [id g1]. simpl in E1.
  destruct (id =? 0); [done|]. pose proof (alloc_edge_blocks g1 p id n) as E2. destruct (sotfs_alloc_edge g1 p id n) as [e g2]. simpl in E2.
  destruct (e =? 0); simpl; [rewrite free_inode_blocks|]; congruence.
Qed.

Lemma rename_blocks g ps n pd m : blocks (sotfs_rewrite_rename g ps n pd m).2 = blocks g.
Proof using Type.
  unfold sotfs_rewrite_rename. do 2 (case_bool_decide; [reflexivity|]). do 2 (destruct (_ <=? _)%nat; [reflexivity|]).
  destruct (negb (dir_guard g ps =? SOTFS_OK)); [reflexivity|]. destruct (negb (dir_guard g pd =? SOTFS_OK)); [reflexivity|].
  cbv zeta. destruct (sotfs_find_edge g ps n =? 0); [reflexivity|]. destruct (_edge_slot _) as [slot|]; [|reflexivity].
  destruct (negb (sotfs_find_edge g pd m =? 0)); [reflexivity|].
  pose proof (alloc_edge_blocks g pd (e_child_id (edge_at g slot)) m) as E2. destruct (sotfs_alloc_edge g pd _ m) as [e g2]. simpl in E2.
  destruct (e =? 0); simpl; rewrite ?free_edge_blocks; congruence.
Qed.

Lemma rmdir_blocks g p n : blocks (sotfs_rewrite_rmdir g p n).2 = blocks g.
Proof using Type.
  unfold sotfs_rewrite_rmdir. destruct (lookup_child g p n) as [|[[e c] j]]; [done|]. destruct (negb _); [done|].
  destruct (_dir_has_children g c); [done|]. simpl. by rewrite free_inode_blocks, free_edge_blocks.
Qed.

Lemma open_blocks g k : blocks (sotfs_inode_open g k) = blocks g.
Proof using Type.
  unfold sotfs_inode_open. destruct (_inode_slot k) as [j|]; [|reflexivity]. cbv zeta.
  destruct (i_id (inode_at g j) =? 0); [reflexivity|]. by destruct (i_open_count (inode_at g j) <? 255).
Qed.

(** The size the abstract state gives a file. *)
Definition fs_size (a : fs) (k : Z) : Z := match fs_nodes a !! k with Some x => size_of x | None => 0 end.

Lemma rel_size g a k : fs_rel g a -> file_size g k = fs_size a k.
Proof using Type. intros R. unfold file_size, fs_size. by rewrite (rel_nodes _ _ R). Qed.

(** A rule keeps every size and every mapping, or drops one file with its mappings. *)
Definition maps_kept g g' : Prop :=
  (blocks g' = blocks g /\ forall k, file_size g' k = file_size g k)
  \/ (exists c, blocks g' = (clear_block c <$> blocks g) /\ node g' c = None
        /\ forall k, k <> c -> file_size g' k = file_size g k).

Lemma upd_inode_size x n o c : size_of (upd_inode x n o c) = size_of x.
Proof using Type. done. Qed.

Lemma insert_size a k x y tree j :
  fs_nodes a !! k = Some x -> size_of y = size_of x -> fs_size (mk_fs (<[k := y]> (fs_nodes a)) tree (fs_root a)) j = fs_size a j.
Proof using Type.
  intros Hx Hy. unfold fs_size. simpl. destruct (decide (j = k)) as [->|]; [by rewrite lookup_insert_eq, Hx|by rewrite lookup_insert_ne].
Qed.

Lemma delete_size a k tree j : j <> k -> fs_size (mk_fs (delete k (fs_nodes a)) tree (fs_root a)) j = fs_size a j.
Proof using Type. intros Hj. unfold fs_size. simpl. by rewrite lookup_delete_ne. Qed.

Lemma unlink_maps g a p n :
  fs_rel g a -> fs_ok a -> cname n -> maps_kept g (sotfs_rewrite_unlink g p n).2.
Proof using Type.
  intros R O Hn. destruct (sim_unlink g a R O p n Hn) as (a'&St&R').
  assert (forall k, file_size (sotfs_rewrite_unlink g p n).2 k = fs_size a' k) as Hs' by (intros; by apply rel_size).
  assert (forall k, file_size g k = fs_size a k) as Hs by (intros; by apply rel_size).
  destruct (guard_child a p n) as [err|[c x]] eqn:Hg.
  { left. pose proof (sim_child g a R O p n Hn) as Hc. rewrite Hg in Hc. unfold sotfs_rewrite_unlink in *. rewrite Hc in *. done. }
  destruct (guard_child_ok _ _ _ _ _ Hg) as [Ht Hx].
  destruct (decide (i_kind x = KIND_DIR)) as [Hk|Hk].
  { left. pose proof (sim_child g a R O p n Hn) as Hc. rewrite Hg in Hc. destruct Hc as (i&j&Hlc&_&_&_&Hat&_).
    unfold sotfs_rewrite_unlink in *. rewrite Hlc, Hat, bool_decide_true in * by done. done. }
  destruct (unlink_inv a p n c x _ a' Hg Hk St) as [_ ->]. pose proof (unlink_blocks g a p n c x R O Hn Hg Hk) as Hb.
  pose proof (ok_nlink _ O _ _ _ _ Hx Hk Ht) as Hl. unfold drop_link in *. rewrite Hl in *. change (1 - 1 <=? 0) with true in *. cbn iota in *.
  destruct (i_open_count x >? 0).
  - left. split; [done|]. intros k. rewrite Hs', Hs. by eapply insert_size.
  - right. exists c. split_and!; [done| |].
    + rewrite <-(rel_nodes _ _ R'). simpl. by rewrite lookup_delete_eq.
    + intros k Hkc. rewrite Hs', Hs. by apply delete_size.
Qed.

Lemma close_maps g a k : fs_rel g a -> fs_ok a -> maps_kept g (sotfs_inode_close g k).
Proof using Type.
  intros R O. pose proof (sim_close g a R O k) as R'.
  assert (forall j, file_size (sotfs_inode_close g k) j = fs_size (mk_fs (close_node a k) (fs_tree a) (fs_root a)) j) as Hs'
    by (intros; by apply rel_size).
  assert (forall j, file_size g j = fs_size a j) as Hs by (intros; by apply rel_size).
  destruct (fs_nodes a !! k) as [x|] eqn:Hx.
  - pose proof Hx as Hn. rewrite (rel_nodes _ _ R) in Hn. destruct (ok_node _ O _ _ Hx) as (Hid&_&_).
    pose proof (close_blocks g k x (rel_wf _ _ R) Hn Hid) as Hb. pose proof (rel_nodes _ _ R' k) as Hn'. simpl in Hn'.
    unfold close_node in *. rewrite Hx in *. destruct (_ && _).
    + right. exists k. rewrite lookup_delete_eq in Hn'. rewrite <-Hn' in Hb. split_and!; [done..|].
      intros j Hj. rewrite Hs', Hs. by apply delete_size.
    + left. rewrite lookup_insert_eq in Hn'. rewrite <-Hn' in Hb. split; [done|]. intros j. rewrite Hs', Hs. by eapply insert_size.
  - left. assert (sotfs_inode_close g k = g) as ->; [|done]. unfold sotfs_inode_close. destruct (_inode_slot k) as [slot|] eqn:E; [|done].
    by rewrite (node_dead_slot g a R k slot).
Qed.

Lemma exec_maps g a op : fs_rel g a -> fs_ok a -> fs_op_ok op -> maps_kept g (fs_exec g op).2.
Proof using Type.
  intros R O Hop. destruct (exec_sim g a R O op Hop) as (a'&St&R').
  assert (forall k, file_size (fs_exec g op).2 k = fs_size a' k) as Hs' by (intros; by apply rel_size).
  assert (forall k, file_size g k = fs_size a k) as Hs by (intros; by apply rel_size).
  assert (blocks (fs_exec g op).2 = blocks g -> (forall k, fs_size a' k = fs_size a k) -> maps_kept g (fs_exec g op).2) as Hleft.
  { intros Hb Hk. left. split; [done|]. intros k. by rewrite Hs', Hs. }
  destruct op as [kind p n mode|p n|p n|ps n pd m|k|k].
  - apply Hleft.
    + simpl. unfold sotfs_rewrite_mkdir, sotfs_rewrite_create_file. case_bool_decide; apply create_blocks.
    + intros k. inversion St; subst; try done. unfold fs_size. simpl. destruct (decide (k = (fs_exec g (OpCreate kind p n mode)).1)) as [->|Hk].
      * rewrite lookup_insert_eq. replace (fs_nodes a !! _) with (@None sotfs_inode) by done. unfold size_of. simpl. by case_bool_decide.
      * by rewrite lookup_insert_ne.
  - by apply (unlink_maps g a).
  - apply Hleft; [apply rmdir_blocks|]. intros k. inversion St; subst; try done.
    assert (fs_tree a !! (p, n) = Some c /\ fs_nodes a !! c = Some x) as [_ Hx] by (by apply guard_child_ok).
    destruct (decide (k = c)) as [->|]; [|by apply delete_size]. unfold fs_size. simpl. rewrite lookup_delete_eq, Hx.
    unfold size_of. by rewrite bool_decide_false by congruence.
  - apply Hleft; [apply rename_blocks|]. intros k. by inversion St.
  - apply Hleft; [apply open_blocks|]. intros j. inversion St; subst. unfold open_node. destruct (fs_nodes a !! k) as [x|] eqn:Hx; [|done].
    destruct (_ <? 255); [|done]. by eapply insert_size.
  - by apply (close_maps g a).
Qed.

(** ** Contents *)

Lemma clear_live bs c i b :
  live_block (clear_block c <$> bs) i b <-> live_block bs i b /\ b_file_id b <> c.
Proof using Type.
  unfold live_block. rewrite list_lookup_fmap. destruct (bs !! i) as [x|]; simpl; [|naive_solver].
  unfold clear_block. destruct (b_id x =? 0) eqn:E1, (b_file_id x =? c) eqn:E2; simpl; bool_to_prop; split; naive_solver.
Qed.

Lemma mapping_blocks g g' f off : blocks g' = blocks g -> mapping g' f off = mapping g f off.
Proof using Type. intros E. unfold mapping, block_hit, block_at. by rewrite E. Qed.

Lemma maps_kept_io g g' s good :
  io_wf g s (file_size g) good -> maps_kept g g' ->
  io_wf g' s (file_size g') good /\ forall f o, good f -> node g' f <> None -> content g' s f o = content g s f o.
Proof using Type.
  intros [Wm Wi Wd] [[Hb Hs]|(c&Hb&Hn&Hs)].
  - split.
    + constructor; rewrite ?Hb; try done. eapply mapping_mono; [exact Wm|]. intros. by rewrite Hs.
    + intros f o _ _. unfold content. by rewrite (mapping_blocks g g') by done.
  - assert (forall i b, live_block (blocks g') i b <-> live_block (blocks g) i b /\ b_file_id b <> c) as HL.
    { intros. rewrite Hb. apply clear_live. }
    assert (mapping_wf (blocks g') (file_size g') good) as Wm'.
    { constructor.
      - rewrite Hb, length_fmap. apply (mp_len _ _ _ Wm).
      - intros i b [L _]%HL. by apply (mp_id _ _ _ Wm).
      - intros i b [L _]%HL. by eapply (mp_off _ _ _ Wm).
      - intros i b [L Hc]%HL. rewrite Hs by done. by eapply (mp_lim _ _ _ Wm).
      - intros i j b b' [L _]%HL [L' _]%HL. by apply (mp_uniq _ _ _ Wm).
      - intros i j b b' [L _]%HL [L' _]%HL. by apply (mp_disk _ _ _ Wm). }
    split; [constructor; try done; intros i b [L _]%HL; by eapply Wd|].
    intros f o Hg Hf. assert (f <> c) as Hfc by congruence. apply content_same.
    destruct (mapping g f (o - o mod 4096)) as [b|] eqn:E.
    + right. exists b, b. split_and!; try done. pose proof E as (i&L&Hbf&Hbo)%(mapping_live g (file_size g) good); [|done].
      apply (mapping_Some g' (file_size g') good); [done|done|]. exists i. split_and!; [|done..]. apply HL. split; [done|congruence].
    + left. split; [|done]. destruct (mapping g' f (o - o mod 4096)) as [b|] eqn:E'; [|done].
      apply (mapping_live g' (file_size g') good) in E' as (i&[L _]%HL&Hbf&Hbo); [|done].
      assert (mapping g f (o - o mod 4096) = Some b); [|congruence]. apply (mapping_Some g (file_size g) good); [done|done|]. eauto.
Qed.

Lemma exec_sys g s good op : sys_inv g s good -> fs_op_ok op -> sys_inv (fs_exec g op).2 s good.
Proof using Type.
  intros [(a&R&O) [W B]] Hop. destruct (exec_sim g a R O op Hop) as (a'&St&R'). pose proof (step_ok _ _ _ _ O Hop St) as O'.
  pose proof (exec_maps g a op R O Hop) as Hm. split; [by exists a'|]. split; [by apply (maps_kept_io g)|].
  intros f. destruct Hm as [[_ Hs]|(c&_&Hn&Hs)]; [by rewrite Hs|]. destruct (decide (f = c)) as [->|]; [unfold file_size; by rewrite Hn|by rewrite Hs].
Qed.

(** The name-space rules never touch file contents.  Creating, renaming,
    unlinking, opening, closing or failing to do so keeps the invariant and leaves
    the size and, of a good file, every byte of every file that still exists. *)
Theorem namespace_keeps_content g s good (op : fs_op) :
  sys_inv g s good -> fs_op_ok op ->
  let g' := (fs_exec g op).2 in
  sys_inv g' s good
  /\ forall f, node g f <> None -> node g' f <> None ->
       file_size g' f = file_size g f /\ (good f -> forall o, content g' s f o = content g s f o).
Proof using Type.
  intros I Hop. cbv zeta. split; [by apply exec_sys|]. destruct I as [(a&R&O) [W _]].
  pose proof (exec_maps g a op R O Hop) as Hm. destruct (maps_kept_io _ _ s good W Hm) as [W' Hc].
  intros f Hf Hf'. split; [|intros Hg o; by apply Hc].
  destruct Hm as [[_ Hs]|(c&_&Hn&Hs)]; [done|]. apply Hs. congruence.
Qed.

(** ** Reads and writes *)

(** Growing a file keeps the name space. *)
Lemma set_size_rel g g' a f n x :
  fs_rel g a -> fs_ok a -> node g f = Some x -> inodes_wf (inodes g') -> edges g' = edges g -> root_id g' = root_id g ->
  (forall k, node g' k = (fun y => if decide (k = f) then set_size y n else y) <$> node g k) ->
  exists a', fs_rel g' a' /\ fs_ok a'.
Proof using Type.
  intros R O Hx Wi He Hr Hn. exists (mk_fs (<[f := set_size x n]> (fs_nodes a)) (fs_tree a) (fs_root a)).
  pose proof Hx as Hxa. rewrite <-(rel_nodes _ _ R) in Hxa. split.
  - constructor; simpl; [|..|apply R|rewrite Hr; apply R].
    + constructor; [done|]. rewrite He. apply R.
    + intros k. rewrite Hn. destruct (decide (k = f)) as [->|]; [by rewrite lookup_insert_eq, Hx|].
      rewrite lookup_insert_ne by done. rewrite (rel_nodes _ _ R). by destruct (node g k).
    + intros p m Hm. rewrite (entry_ext g) by done. by apply R.
  - destruct (ok_node _ O _ _ Hxa) as (_&Hoc&_). apply (set_node_ok a f x); try done. simpl. intros Ho. by destruct (ok_orphan _ O _ _ Hxa Ho) as (_&?&_).
Qed.

Lemma alloc_block_root g s f off : root_id (sotfs_alloc_block g s f off).1.2 = root_id g.
Proof using Type.
  unfold sotfs_alloc_block. destruct (first_below _ _); [|reflexivity]. cbv zeta. destruct (bs_total s =? 0); [reflexivity|].
  destruct (bs_alloc s) as [d s1]. by destruct (d =? 0).
Qed.

Lemma write_chunk_root g s f orig off intra data w :
  root_id (match write_chunk g s f orig off intra data w with inl (_, g', _) => g' | inr (g', _) => g' end) = root_id g.
Proof using Type.
  unfold write_chunk. set (found := if off >=? orig then 0 else _). pose proof (alloc_block_root g s f off) as Ha.
  assert (root_id (if found =? 0 then sotfs_alloc_block g s f off else (found, g, s)).1.2 = root_id g) as Hr by (by destruct (found =? 0)).
  destruct (if found =? 0 then _ else _) as [[id g1] s1]. simpl in Hr. destruct (id =? 0); [done|].
  destruct (_block_slot id) as [j|]; [|done]. destruct (load_page s1 _) as [page s2]. cbv zeta. by destruct (_ >? _).
Qed.

Lemma write_root g s f offset buf : root_id (sotfs_file_write g s f offset buf).1.2 = root_id g.
Proof using Type.
  assert (forall fuel g s orig w, root_id (match write_loop fuel g s f orig offset buf w with inl (_, g', _) => g' | inr (g', _) => g' end) = root_id g) as Hloop.
  { induction fuel as [|fuel IH]; intros h t orig w; cbn [write_loop]; cbv zeta; destruct (w <? Z.of_nat (length buf)); try done.
    destruct (chunk_at offset w (Z.of_nat (length buf))) as [[bo bi] ch].
    pose proof (write_chunk_root h t f orig bo bi (take (Z.to_nat ch) (drop (Z.to_nat w) buf)) w) as Hc.
    destruct (write_chunk h t f orig bo bi _ w) as [[[r g1] s1]|[g1 s1]]; [done|]. by rewrite IH. }
  unfold sotfs_file_write. cbv zeta. destruct (_ =? 0); [done|]. destruct (file_guard g f) as [err|slot]; [done|].
  specialize (Hloop (length buf) g s (i_size (inode_at g slot)) 0).
  destruct (write_loop (length buf) g s f _ offset buf 0) as [[[r g1] s1]|[g1 s1]]; [done|]. simpl. by destruct (_ >? _).
Qed.

(** The name space of a graph with the same nodes and edges. *)
Lemma same_names_rel g g' a : fs_rel g a -> inodes_wf (inodes g') -> edges g' = edges g -> root_id g' = root_id g -> (forall k, node g' k = node g k) -> fs_rel g' a.
Proof using Type.
  intros R Wi He Hr Hn. constructor; [|..|apply R|rewrite Hr; apply R].
  - constructor; [done|]. rewrite He. apply R.
  - intros k. rewrite Hn. apply R.
  - intros p m Hm. rewrite (entry_ext g) by done. by apply R.
Qed.

(** The files that stay good when a write returns [r]. *)
Definition good_after good (f r len : Z) : Z -> Prop := if (0 <? r) && (r <? len) then but good f else good.

Lemma guard_error g f err : file_guard g f = inl err -> err < 0.
Proof using Type.
  unfold file_guard. destruct (_inode_slot f) as [i|]; [|by intros [= <-]]. destruct (_ =? 0); [by intros [= <-]|]. case_bool_decide; [done|by intros [= <-]].
Qed.

Lemma guard_file g f slot : file_guard g f = inr slot -> is_file g f.
Proof using Type.
  unfold file_guard. destruct (_inode_slot f) as [i|] eqn:E; [|done]. destruct (i_id (inode_at g i) =? 0) eqn:Ez; [done|]. case_bool_decide as Hk; [|done]. intros [= <-]. bool_to_prop.
  exists (inode_at g i). split; [|done]. unfold _inode_slot in E. apply slot_of_Some in E as [Hi ->]. apply node_Some. exists i. split_and!; done.
Qed.

Lemma write_sys g s good f offset buf :
  sys_inv g s good -> 0 <= offset -> offset + Z.of_nat (length buf) < 2 ^ 32 -> Z.of_nat (length buf) < 2 ^ 31 ->
  let '(r, g', s') := sotfs_file_write g s f offset buf in sys_inv g' s' (good_after good f r (Z.of_nat (length buf))).
Proof using Type.
  intros I Ho Hl Hl31. destruct (decide (buf = [])) as [->|Hne]; [done|].
  assert (0 < Z.of_nat (length buf)) as Hpos by (destruct buf; [done|simpl; lia]). destruct (file_guard g f) as [err|slot] eqn:Eg.
  { unfold sotfs_file_write. rewrite Eg, (proj2 (Z.eqb_neq _ 0)) by lia. apply guard_error in Eg. unfold good_after. by rewrite (proj2 (Z.ltb_ge 0 err)) by lia. }
  apply guard_file in Eg as Hf. pose proof I as [(a&R&O) [W B]]. pose proof (file_write_spec g s good f offset buf (gw_inodes _ (rel_wf _ _ R)) W Hf Hne Ho Hl Hl31) as Hw. cbv zeta in Hw.
  assert (root_id (sotfs_file_write g s f offset buf).1.2 = root_id g) as Hroot by apply write_root.
  destruct (sotfs_file_write g s f offset buf) as [[r g'] s']. cbn [fst snd] in Hroot. destruct Hw as (Wi'&Ee&_&[(->&->&->)|[(Hr&Hn&W')|(->&W'&Hsz&Hn&_)]]); unfold good_after.
  - done.
  - rewrite (proj2 (Z.ltb_lt 0 r)), (proj2 (Z.ltb_lt r _)) by lia. cbn [andb]. split; [exists a; split; [by eapply same_names_rel|done]|]. split; [done|]. intros f'. unfold file_size. rewrite Hn. apply B.
  - rewrite Z.ltb_irrefl, andb_false_r. destruct Hf as (x&Hx&Hk). split; [by eapply (set_size_rel g g' a f (file_size g' f) x)|]. split; [done|].
    intros f'. destruct (decide (f' = f)) as [->|Hne']; [specialize (B f); lia|]. unfold file_size. rewrite Hn. specialize (B f'). unfold file_size in B. destruct (node g f'); [|done]. simpl. by rewrite decide_False.
Qed.

Lemma read_sys g s good f offset len : sys_inv g s good -> 0 <= offset -> 0 <= len < 2 ^ 31 -> sys_inv g (sotfs_file_read g s f offset len).2 good.
Proof using Type.
  intros I Ho Hl. unfold sotfs_file_read. destruct (len =? 0) eqn:E0; [done|]. destruct (file_guard g f) as [err|slot] eqn:Eg; [done|].
  apply guard_file in Eg as Hf. pose proof I as [HR [W B]]. destruct (file_read_spec g s good f offset len (sys_inodes g s good I) W Hf Ho Hl (B f)) as (s'&E&W'&_).
  unfold sotfs_file_read in E. rewrite E0, Eg in E. rewrite E. done.
Qed.

(** Releasing the block of a mapping: the mapping goes, and the disk block with what it holds. *)
Lemma free_block_sys g s good i b : sys_inv g s good -> live_block (blocks g) i b ->
  let '(g', s') := sotfs_free_block g s (b_id b) in sys_inv g' s' good.
Proof using Type.
  intros [(a&R&O) [[Wm Wi Wd] B]] Lb. pose proof (live_lt _ _ _ _ _ Wm Lb) as Hi. pose proof (mp_len _ _ _ Wm) as Hlen. rewrite (mp_id _ _ _ Wm i b Lb).
  unfold sotfs_free_block, _block_slot. rewrite (proj2 (slot_of_Some _ _ i)) by done. assert (block_at g i = b) as -> by (apply array_get, Lb).
  set (g' := set_block g i zero_mapping). destruct (Wd i b Lb) as [Hv Ha]. destruct (bs_free_spec s (b_disk_blk b) Wi Hv Ha) as (Wi'&Hvv&Haa&_).
  assert (forall j x, live_block (blocks g') j x <-> j <> i /\ live_block (blocks g) j x) as HL.
  { intros j x. unfold g'. simpl. rewrite set_block_live by done. simpl. naive_solver. }
  split; [exists a; split; [by apply (same_names_rel g); [|apply R|..]|done]|]. split; [|exact B]. constructor; [|done|].
  - constructor.
    + unfold g'. simpl. by rewrite length_insert.
    + intros j x [_ L]%HL. by apply (mp_id _ _ _ Wm).
    + intros j x [_ L]%HL. by eapply (mp_off _ _ _ Wm).
    + intros j x [_ L]%HL. by eapply (mp_lim _ _ _ Wm).
    + intros j k x y [_ L]%HL [_ L']%HL. by apply (mp_uniq _ _ _ Wm).
    + intros j k x y [_ L]%HL [_ L']%HL. by apply (mp_disk _ _ _ Wm).
  - intros j x [Hj L]%HL. destruct (Wd j x L) as [Hvx Hax]. rewrite Hvv, Haa by done. split_and!; [done..|]. intros E. apply Hj. by eapply (mp_disk _ _ _ Wm).
Qed.

(** ** Runs *)

(** The calls of the back ends: a rewrite rule, a write, a read, the release of a block (of
    the slot [i], when it is mapped). *)
Inductive io_op :=
| IoRule (op : fs_op) | IoWrite (f offset : Z) (buf : list Z) | IoRead (f offset len : Z) | IoFree (i : nat).

(** Offsets and lengths do not wrap. *)
Definition io_op_ok (o : io_op) : Prop :=
  match o with
  | IoRule op => fs_op_ok op
  | IoWrite _ offset buf => 0 <= offset /\ offset + Z.of_nat (length buf) < 2 ^ 32 /\ Z.of_nat (length buf) < 2 ^ 31
  | IoRead _ offset len => 0 <= offset /\ 0 <= len < 2 ^ 31
  | IoFree _ => True
  end.

(** With the files a write to which was cut short. *)
Definition io_exec (x : sotfs_graph * S * gset Z) (o : io_op) : sotfs_graph * S * gset Z :=
  let '(g, s, short) := x in
  match o with
  | IoRule op => ((fs_exec g op).2, s, short)
  | IoWrite f offset buf =>
      let '(r, g, s) := sotfs_file_write g s f offset buf in (g, s, if (0 <? r) && (r <? Z.of_nat (length buf)) then {[f]} ∪ short else short)
  | IoRead f offset len => (g, (sotfs_file_read g s f offset len).2, short)
  | IoFree i => if b_id (block_at g i) =? 0 then x else let '(g, s) := sotfs_free_block g s (b_id (block_at g i)) in (g, s, short)
  end.
Definition io_run (ops : list io_op) (x : sotfs_graph * S * gset Z) : sotfs_graph * S * gset Z := fold_left io_exec ops x.

Definition run_inv (x : sotfs_graph * S * gset Z) : Prop := sys_inv x.1.1 x.1.2 (fun f => f ∉ x.2).

Lemma sys_mono g s good good' : (forall f, good' f -> good f) -> sys_inv g s good -> sys_inv g s good'.
Proof using Type. intros Hg [HR [W B]]. split; [done|]. split; [|done]. eapply io_mono; [exact W|]. intros f Hf. split; [by apply Hg|done]. Qed.

Lemma io_exec_sys x o : run_inv x -> io_op_ok o -> run_inv (io_exec x o).
Proof using Type.
  destruct x as [[g s] short]. unfold run_inv. cbn [fst snd]. intros I Ho. destruct o as [op|f offset buf|f offset len|i]; cbn [io_exec].
  - by apply exec_sys.
  - destruct Ho as (H1&H2&H3). pose proof (write_sys g s _ f offset buf I H1 H2 H3) as Hw. destruct (sotfs_file_write g s f offset buf) as [[r g'] s']. cbn [fst snd].
    eapply sys_mono; [|exact Hw]. unfold good_after. destruct (_ && _); [|done]. unfold but. intros f'. rewrite not_elem_of_union, not_elem_of_singleton. tauto.
  - destruct Ho as [H1 H2]. by apply read_sys.
  - destruct (Z.eqb_spec (b_id (block_at g i)) 0) as [|Hz]; [done|]. assert (live_block (blocks g) i (block_at g i)) as L.
    { split; [|done]. unfold block_at in *. destruct (blocks g !! i) eqn:E; [done|by destruct Hz]. }
    pose proof (free_block_sys g s _ i _ I L) as Hf. by destruct (sotfs_free_block g s _) as [g' s'].
Qed.

Lemma run_sys ops x : run_inv x -> Forall io_op_ok ops -> run_inv (io_run ops x).
Proof using Type. intros I Ho. revert x I. induction Ho as [|o ops Ho _ IH]; intros x I; [done|]. by apply IH, io_exec_sys. Qed.

Lemma rules_run ops g s short : io_run (IoRule <$> ops) (g, s, short) = ((fs_exec_all g ops).2, s, short).
Proof using Type.
  revert g. induction ops as [|op ops IH]; intros g; [done|]. cbn [fs_exec_all fmap list_fmap]. unfold io_run in *. cbn [fold_left io_exec]. rewrite IH.
  destruct (fs_exec g op) as [r g1]. cbn [snd]. by destruct (fs_exec_all g1 ops).
Qed.

Lemma rules_sys ops g s short : run_inv (g, s, short) -> Forall io_op_ok (IoRule <$> ops) -> sys_inv (fs_exec_all g ops).2 s (fun f => f ∉ short).
Proof using Type. intros I Ho. pose proof (run_sys _ _ I Ho) as Hr. by rewrite rules_run in Hr. Qed.

(** A write to a good file. *)
Lemma write_outcome g s good f offset buf :
  sys_inv g s good -> is_file g f -> good f -> buf <> [] -> 0 <= offset -> offset + Z.of_nat (length buf) < 2 ^ 32 -> Z.of_nat (length buf) < 2 ^ 31 ->
  let len := Z.of_nat (length buf) in
  let '(r, g', s') := sotfs_file_write g s f offset buf in
  (forall k, k <> f -> node g' k = node g k) /\ (forall p n, entry g' p n = entry g p n)
  /\ (forall f' o, good f' -> f' <> f -> content g' s' f' o = content g s f' o)
  /\ (r = SOTFS_ERR_NOSPACE /\ g' = g /\ s' = s
      \/ 0 < r < len /\ file_size g' f = file_size g f
      \/ r = len /\ file_size g' f = Z.max (file_size g f) (offset + len) /\ laid g s g' s' f offset buf
         /\ exists s'', sotfs_file_read g' s' f offset len = (len, buf, s'')).
Proof using Type.
  intros I Hf Hg Hne Ho Hl Hl31. cbv zeta. pose proof I as [(a&R&O) [W B]].
  pose proof (file_write_spec g s good f offset buf (gw_inodes _ (rel_wf _ _ R)) W Hf Hne Ho Hl Hl31) as Hw. cbv zeta in Hw.
  destruct (sotfs_file_write g s f offset buf) as [[r g'] s']. destruct Hw as (Wi'&Ee&Hoth&Hr). split.
  { intros k Hk. destruct Hr as [(_&->&_)|[(_&Hn&_)|(_&_&_&Hn&_)]]; [done|apply Hn|]. rewrite Hn. destruct (node g k); [simpl; by rewrite decide_False|done]. }
  split; [intros p n; by apply entry_ext|]. split; [done|]. destruct Hr as [?|[(Hr&Hn&_)|(Hr&W'&Hsz&Hn&Hlaid)]]; [by left|right; left|right; right].
  { split; [done|]. unfold file_size. by rewrite Hn. }
  specialize (Hlaid Hg). split_and!; [done..|].
  assert (is_file g' f) as Hf'.
  { destruct Hf as (x&Hx&Hk). exists (set_size x (file_size g' f)). rewrite Hn, Hx. simpl. by rewrite decide_True. }
  destruct (file_read_spec g' s' good f offset (Z.of_nat (length buf)) Wi' W' Hf' Ho ltac:(lia)) as (s''&->&_); [specialize (B f); lia|].
  exists s''. replace (Z.max 0 _) with (Z.of_nat (length buf)) by lia. rewrite Nat2Z.id. do 2 f_equal.
  apply list_eq. intros k. destruct (decide (k < length buf)%nat) as [Hk|Hk].
  - rewrite slice_lookup by done. destruct (la_in _ _ _ _ _ _ _ Hlaid (offset + Z.of_nat k) ltac:(lia)) as [_ ->].
    replace (Z.to_nat (offset + Z.of_nat k - offset)) with k by lia. symmetry. by apply array_lookup_lt.
  - rewrite !lookup_ge_None_2; [done|lia|rewrite length_slice; lia].
Qed.

(** A read returns the bytes of the file from [offset] up to the requested
    length or the end of the file, holes as zeros, and changes no content. *)
Theorem file_read_content g s good (f offset len : Z) :
  sys_inv g s good -> is_file g f -> 0 <= offset -> 0 <= len < 2 ^ 31 ->
  let n := Z.max 0 (Z.min len (file_size g f - offset)) in
  exists s', sotfs_file_read g s f offset len = (n, slice (content g s f) offset (Z.to_nat n), s')
    /\ sys_inv g s' good /\ forall f' o, content g s' f' o = content g s f' o.
Proof using Type.
  intros I Hf Ho Hl. pose proof I as [HR [W B]]. destruct (file_read_spec g s good f offset len (sys_inodes g s good I) W Hf Ho Hl (B f)) as (s'&E&W'&Hc).
  exists s'. split_and!; done.
Qed.
End system.

(** ** A freshly formatted file system *)

Lemma init_blocks : blocks sotfs_graph_init = replicate SOTFS_MAX_BLOCKS zero_mapping.
Proof.
  assert (sotfs_graph_init = let '(id, g) := sotfs_alloc_inode empty_graph KIND_DIR mode_0755 in set_root g id) as -> by reflexivity.
  pose proof (alloc_inode_blocks empty_graph KIND_DIR mode_0755) as E.
  destruct (sotfs_alloc_inode empty_graph KIND_DIR mode_0755) as [id g]. exact E.
Qed.

Lemma fresh_sys {B} `{StorageLaws B} (d0 : blkdev B) (b : B) (ro rb : Z) :
  usable b ro rb -> exists d, sotfs_blkdev_init d0 (Some b) ro rb true = (0, d) /\ run_inv (sotfs_graph_init, d, ∅).
Proof.
  intros Hu. destruct (init_fresh_spec d0 b ro rb Hu) as (d&E&W&_). exists d. split; [exact E|].
  assert (forall i b, ~ live_block (blocks sotfs_graph_init) i b) as Hno.
  { intros i x [Hi Hx]. rewrite init_blocks in Hi. apply lookup_replicate in Hi as [-> _]. by apply Hx. }
  split; [exists fs_init; split; [exact init_rel|exact init_ok]|]. split.
  - constructor; [|exact W|intros i x L; exfalso; by eapply Hno].
    constructor; try (intros i; intros; exfalso; by eapply Hno). cbn [fst]. rewrite init_blocks. apply length_replicate.
  - intros f. cbn [fst]. rewrite (rel_size _ _ f init_rel). unfold fs_size, fs_init. cbn [fs_nodes]. destruct (_ !! f) as [x|] eqn:Ex; [|done].
    apply lookup_singleton_Some in Ex as [_ <-]. done.
Qed.

(** C18: a write lays its buffer over the file.  On a file system formatted on any medium and
    used through any rewrite rules, writes, reads and releases of blocks, a write to a file none
    of whose earlier writes was cut short returns an error for lack of space, with nothing changed; or the bytes it had
    room for, the size unchanged; or its length.  Then the file has the buffer's bytes at
    [offset], reads them back, has its old bytes elsewhere except in blocks that had to be allocated for the write, which around
    the buffer have what the disk block held before, and its size covers the write.  In each case no other
    inode and no name changed, nor any byte of another such file.  Offsets and lengths do not wrap. *)
Theorem file_write_overlay {B} `{StorageLaws B} (d0 : blkdev B) (b : B) (ro rb : Z) (ops : list io_op) (f offset : Z) (buf : list Z) :
  usable b ro rb -> Forall io_op_ok ops -> buf <> [] -> io_op_ok (IoWrite f offset buf) ->
  let len := Z.of_nat (length buf) in
  let '(g, s, short) := io_run ops (sotfs_graph_init, (sotfs_blkdev_init d0 (Some b) ro rb true).2, ∅) in
  is_file g f -> f ∉ short ->
  let '(r, g', s') := sotfs_file_write g s f offset buf in
  (forall k, k <> f -> node g' k = node g k) /\ (forall p n, entry g' p n = entry g p n)
  /\ (forall f' o, f' ∉ short -> f' <> f -> content g' s' f' o = content g s f' o)
  /\ (r = SOTFS_ERR_NOSPACE /\ g' = g /\ s' = s
      \/ 0 < r < len /\ file_size g' f = file_size g f
      \/ r = len /\ file_size g' f = Z.max (file_size g f) (offset + len) /\ laid g s g' s' f offset buf
         /\ exists s'', sotfs_file_read g' s' f offset len = (len, buf, s'')).
Proof.
  intros Hu Hops Hne (H1&H2&H3). cbv zeta. destruct (fresh_sys d0 b ro rb Hu) as (d&E&I). rewrite E. cbn [snd]. pose proof (run_sys ops _ I Hops) as Hr.
  destruct (io_run ops _) as [[g s] short]. intros Hf Hg. exact (write_outcome g s _ f offset buf Hr Hf Hg Hne H1 H2 H3).
Qed.

(** ** Concrete runs *)

Module IoDemo.
Import Image.

(** The data heap of a blank image and a file system with two empty files. *)
Definition dev : blkdev disk :=
  (sotfs_blkdev_init (blkdev_boot BlkDemo.blank) (Some BlkDemo.blank) Layout.SOTFS_DATA_OFFSET Layout.SOTFS_DATA_REGION_BYTES true).2.
Definition script : list fs_op := [OpCreate KIND_FILE 1 (FsDemo.n "a") 420; OpCreate KIND_FILE 1 (FsDemo.n "b") 420].
Definition graph : sotfs_graph := (fs_exec_all sotfs_graph_init script).2.

Lemma io_script_ok : Forall io_op_ok (IoRule <$> script).
Proof. unfold script. repeat (apply Forall_cons; split; [split; [apply FsDemo.cname_of; reflexivity|by left]|]). constructor. Qed.

Lemma demo_run :
  io_run (IoRule <$> script) (sotfs_graph_init,
    (sotfs_blkdev_init (blkdev_boot BlkDemo.blank) (Some BlkDemo.blank) Layout.SOTFS_DATA_OFFSET Layout.SOTFS_DATA_REGION_BYTES true).2, ∅)
  = (graph, dev, ∅).
Proof. unfold dev, graph. rewrite rules_run. reflexivity. Qed.

Lemma dev_inv : run_inv (sotfs_graph_init, dev, ∅).
Proof.
  destruct (fresh_sys (blkdev_boot BlkDemo.blank) BlkDemo.blank _ _ BlkDemo.blank_usable) as (d&E&I).
  pose proof (f_equal snd E) as Hd. cbn [snd] in Hd. exact (eq_rect_r (fun x => run_inv (sotfs_graph_init, x, ∅)) I Hd).
Qed.

Lemma demo_sys : sys_inv graph dev (fun f => f ∉ (∅ : gset Z)).
Proof. exact (rules_sys script sotfs_graph_init dev ∅ dev_inv io_script_ok). Qed.

Lemma demo_file : is_file graph 2.
Proof. exists (new_inode 2 KIND_FILE 420). split; [vm_compute; reflexivity|reflexivity]. Qed.

(** A store of [n] blocks, for the full-disk runs. *)
Definition tiny (n : Z) : blkdev disk :=
  (sotfs_blkdev_init (blkdev_boot BlkDemo.blank) (Some BlkDemo.blank) 0 (8192 + n * 4096) true).2.
End IoDemo.
Import Image.

Lemma namespace_keeps_content_witness :
  sys_inv (fs_exec IoDemo.graph (OpRename 1 (FsDemo.n "a") 1 (FsDemo.n "c"))).2 IoDemo.dev (fun f => f ∉ (∅ : gset Z)).
Proof.
  assert (Hop : fs_op_ok (OpRename 1 (FsDemo.n "a") 1 (FsDemo.n "c"))) by (split; apply FsDemo.cname_of; reflexivity).
  destruct (namespace_keeps_content IoDemo.graph IoDemo.dev _ _ IoDemo.demo_sys Hop) as [I _]. exact I.
Defined.

(** Eight bytes across a block boundary. *)
Lemma file_write_overlay_witness :
  let '(r, g', s') := sotfs_file_write IoDemo.graph IoDemo.dev 2 4092 [1; 2; 3; 4; 5; 6; 7; 8] in
  r = 8 /\ file_size g' 2 = 4100 /\ exists s'', sotfs_file_read g' s' 2 4092 8 = (8, [1; 2; 3; 4; 5; 6; 7; 8], s'').
Proof.
  pose proof (file_write_overlay (blkdev_boot BlkDemo.blank) BlkDemo.blank Layout.SOTFS_DATA_OFFSET Layout.SOTFS_DATA_REGION_BYTES (IoRule <$> IoDemo.script) 2 4092 [1; 2; 3; 4; 5; 6; 7; 8]
    BlkDemo.blank_usable IoDemo.io_script_ok ltac:(discriminate) ltac:(cbn; lia)) as Hw.
  assert (Hr : (sotfs_file_write IoDemo.graph IoDemo.dev 2 4092 [1; 2; 3; 4; 5; 6; 7; 8]).1.1 = 8) by (vm_compute; reflexivity).
  assert (Hs : file_size IoDemo.graph 2 = 0) by (vm_compute; reflexivity). cbv zeta in Hw. rewrite IoDemo.demo_run in Hw.
  specialize (Hw IoDemo.demo_file ltac:(apply not_elem_of_empty)).
  destruct (sotfs_file_write IoDemo.graph IoDemo.dev 2 4092 [1; 2; 3; 4; 5; 6; 7; 8]) as [[r g'] s']. cbn [fst snd] in Hr. subst r.
  change (Z.of_nat (length [1; 2; 3; 4; 5; 6; 7; 8])) with 8 in Hw. unfold SOTFS_ERR_NOSPACE in Hw.
  destruct Hw as (_&_&_&[(Hw&_)|[[[_ Hw] _]|(_&Hw&_&Hread)]]); [discriminate Hw|destruct (Z.lt_irrefl 8 Hw)|]. rewrite Hs in Hw. split; [reflexivity|]. split; [exact Hw|exact Hread].
Defined.

Lemma file_read_content_witness :
  exists s', sotfs_file_read IoDemo.graph IoDemo.dev 2 0 100 = (0, [], s').
Proof.
  pose proof (file_read_content IoDemo.graph IoDemo.dev _ 2 0 100 IoDemo.demo_sys IoDemo.demo_file) as Hr.
  assert (Hs : file_size IoDemo.graph 2 = 0) by (vm_compute; reflexivity). rewrite Hs in Hr.
  destruct Hr as (s'&E&_); [lia|lia|]. exists s'. exact E.
Defined.

(** ** Where the code falls short of its comments *)

(** A write that runs out of space after its first block reports the bytes it
    stored but does not grow the file: on a one-block store, writing two blocks
    returns 4096, and the file still reads as empty. *)
Theorem short_write_invisible :
  let '(r, g, s) := sotfs_file_write IoDemo.graph (IoDemo.tiny 1) 2 0 (replicate (Z.to_nat 8192) 7) in
  r = 4096 /\ (sotfs_file_read g s 2 0 4096).1 = (0, []).
Proof. vm_compute. split; reflexivity. Qed.

(** After such a short write the append fast path maps the same file offset a
    second time: a later one-byte write of 9 succeeds, yet reading it back gives
    the 7 of the first attempt. *)
Theorem short_write_stale :
  (let '(r1, g, s) := sotfs_file_write IoDemo.graph (IoDemo.tiny 2) 3 0 (replicate (Z.to_nat 4096) 1) in
   let '(r2, g, s) := sotfs_file_write g s 2 0 (replicate (Z.to_nat 8192) 7) in
   let '(g, s) := sotfs_free_block g s 1 in
   let '(r3, g, s) := sotfs_file_write g s 2 0 [9] in
   (r1, r2, r3, (sotfs_file_read g s 2 0 1).1))
  = (4096, 4096, 1, (1, [7])).
Proof. vm_compute. reflexivity. Qed.

(** Unlinking a file clears its block mappings without returning the disk
    blocks: after writing and unlinking the only file, one block is still counted
    as used although no mapping is left, and a one-block store stays full. *)
Theorem unlink_leaks_blocks :
  let '(r1, g, s) := sotfs_file_write IoDemo.graph (IoDemo.tiny 1) 2 0 (replicate (Z.to_nat 4096) 7) in
  let '(r2, g) := sotfs_rewrite_unlink g 1 (FsDemo.n "a") in
  r1 = 4096 /\ r2 = SOTFS_OK /\ sotfs_blk_used s = 1 /\ forallb (λ b, b_id b =? 0) (blocks g) = true
  /\ (sotfs_file_write g s 3 0 [1]).1.1 = SOTFS_ERR_NOSPACE.
Proof. vm_compute. split_and!; reflexivity. Qed.

(** A block that comes back from [sotfs_free_block] is reused without being
    zeroed: a file whose first bytes were never written reads the previous owner's
    data instead of zeros. *)
Theorem reused_block_not_zeroed :
  let '(r1, g, s) := sotfs_file_write IoDemo.graph (IoDemo.tiny 1) 2 0 (replicate (Z.to_nat 4096) 7) in
  let s := sotfs_blk_flush s in
  let '(g, s) := sotfs_free_block g s 1 in
  let '(r2, g, s) := sotfs_file_write g s 3 3 [1] in
  r1 = 4096 /\ r2 = 1 /\ (sotfs_file_read g s 3 0 4).1 = (4, [7; 7; 7; 1]).
Proof. vm_compute. split_and!; reflexivity. Qed.
