(* ===== verification/Wal.v ===== *)
(** * The write-ahead log (src/sotfs/wal.c, include/sotfs/wal.h)

    Frames, records, the append paths with their periodic checkpoint, the
    emitters of every record kind and the replay of the file-system records.

    A C struct is a record together with its image in memory ([hdr_bytes],
    [rec_bytes], ...; x86-64 layout, little endian) and the reading of that image
    ([hdr_of], [rec_of], ...).  The file-static variables of wal.c are the record
    [wal]; [g_storage] is [None] while [g_initialised] is 0.  What
    [sotfs_wal_audit_emit] is called with is the trace [g_audit], newest first.
    The time stamp counter is an argument of the emitters.  Offsets stay below
    2^33, so the [uint64_t] sums of offsets do not wrap and are written without a
    reduction. *)

From S2P Require Import Prelude Crc64 Storage BlockStore Graph Rewrite FileIO.
Import Layout.

Definition SOTFS_WAL_MAGIC : Z := 0xDF50FA01.
Definition SOTFS_WAL_NAME_BYTES : nat := 128.
Definition SOTFS_WAL_MAX_BLOB : nat := 512.
Definition SOTFS_WAL_CHECKPOINT_INTERVAL : Z := 4096.

Definition SOTFS_WAL_KIND_CREATE_FILE : Z := 1.
Definition SOTFS_WAL_KIND_MKDIR : Z := 2.
Definition SOTFS_WAL_KIND_UNLINK : Z := 3.
Definition SOTFS_WAL_KIND_RMDIR : Z := 4.
Definition SOTFS_WAL_KIND_RENAME : Z := 5.
Definition SOTFS_WAL_KIND_WRITE : Z := 6.
Definition SOTFS_WAL_KIND_INSTALL : Z := 7.
Definition SOTFS_WAL_KIND_PROCD_MUT : Z := 0x10.
Definition SOTFS_WAL_KIND_ANOMALY_EV : Z := 0x20.
Definition SOTFS_WAL_KIND_SOTNET_SYNTH : Z := 0x30.
Definition SOTFS_WAL_KIND_CHECKPOINT : Z := 0xF0.

Definition SOTGUARD_KIND_WAL_FULL_DROP : Z := 0x70.
Definition SOTGUARD_KIND_WAL_TORN_RECORD : Z := 0x71.
Definition SOTGUARD_KIND_WAL_REPLAY_DONE : Z := 0x72.

(** End of the WAL region, the [cap] of the scans. *)
Definition WAL_END : Z := SOTFS_WAL_OFFSET + SOTFS_WAL_REGION_BYTES.

(** ** Structs and their images *)

Record sotfs_wal_v2_header := mk_hdr { h_seq : Z; h_kind : Z; h_len : Z; h_crc64 : Z }.

Definition hdr_bytes (h : sotfs_wal_v2_header) : list Z :=
  le_bytes 8 (h_seq h) ++ le_bytes 4 (h_kind h) ++ le_bytes 4 (h_len h) ++ le_bytes 8 (h_crc64 h).
Definition hdr_of (bs : list Z) : sotfs_wal_v2_header :=
  mk_hdr (field bs 0 8) (field bs 8 4) (field bs 12 4) (field bs 16 8).

Record sotfs_wal_record := mk_rec {
  r_magic : Z; r_length : Z; r_tx_id : Z; r_timestamp : Z; r_kind : Z; r_reserved : Z;
  r_parent_id : Z; r_target_id : Z; r_new_parent_id : Z; r_mode : Z; r_offset : Z; r_blob_len : Z;
  r_name : list Z; r_name2 : list Z; r_blob : list Z;
}.

(** [sizeof(sotfs_wal_record_t)]: 52 bytes of fields, the arrays and four bytes of
    padding, which [memset] zeroes. *)
Definition rec_size : nat := 824.

Definition rec_fields (r : sotfs_wal_record) : list Z :=
  le_bytes 4 (r_magic r) ++ le_bytes 4 (r_length r) ++ le_bytes 8 (r_tx_id r) ++ le_bytes 8 (r_timestamp r)
  ++ le_bytes 2 (r_kind r) ++ le_bytes 2 (r_reserved r) ++ le_bytes 4 (r_parent_id r) ++ le_bytes 4 (r_target_id r)
  ++ le_bytes 4 (r_new_parent_id r) ++ le_bytes 4 (r_mode r) ++ le_bytes 4 (r_offset r) ++ le_bytes 4 (r_blob_len r).
Definition rec_bytes (r : sotfs_wal_record) : list Z :=
  rec_fields r ++ r_name r ++ r_name2 r ++ r_blob r ++ replicate 4 0.
Definition rec_of (bs : list Z) : sotfs_wal_record :=
  mk_rec (field bs 0 4) (field bs 4 4) (field bs 8 8) (field bs 16 8) (field bs 24 2) (field bs 26 2)
    (i32 (field bs 28 4)) (i32 (field bs 32 4)) (i32 (field bs 36 4)) (field bs 40 4) (field bs 44 4) (field bs 48 4)
    (bytes_at bs 52 128) (bytes_at bs 180 128) (bytes_at bs 308 512).

Record sotfs_wal_payload_checkpoint := mk_ck { ck_epoch_seq : Z; ck_simreboot_count : Z; ck_shutdown_reason : Z; ck_total_records : Z }.
Definition ck_bytes (c : sotfs_wal_payload_checkpoint) : list Z :=
  le_bytes 8 (ck_epoch_seq c) ++ le_bytes 4 (ck_simreboot_count c) ++ le_bytes 4 (ck_shutdown_reason c)
  ++ le_bytes 8 (ck_total_records c).

(** [rec->name] and [rec->name2] as C strings: without a NUL inside the array the
    string runs on into the fields behind it. *)
Definition rec_name (r : sotfs_wal_record) : list Z := c_str (r_name r ++ r_name2 r ++ r_blob r).
Definition rec_name2 (r : sotfs_wal_record) : list Z := c_str (r_name2 r ++ r_blob r).
(** The [blob_len] bytes at [rec->blob]; the emitters keep [blob_len] within the
    array. *)
Definition rec_data (r : sotfs_wal_record) : list Z := take (Z.to_nat (r_blob_len r)) (r_blob r).

(** ** Replaying one record *)

Definition mode_0644 : Z := 420.

Section apply.
Context {S : Type} `{BlockStore S}.

Definition apply_record (g : sotfs_graph) (s : S) (r : sotfs_wal_record) : Z * sotfs_graph * S :=
  let keep (x : Z * sotfs_graph) := (x.1, x.2, s) in
  if r_kind r =? SOTFS_WAL_KIND_CREATE_FILE then keep (sotfs_rewrite_create_file g (r_parent_id r) (rec_name r) (r_mode r))
  else if r_kind r =? SOTFS_WAL_KIND_MKDIR then keep (sotfs_rewrite_mkdir g (r_parent_id r) (rec_name r) (r_mode r))
  else if r_kind r =? SOTFS_WAL_KIND_UNLINK then keep (sotfs_rewrite_unlink g (r_parent_id r) (rec_name r))
  else if r_kind r =? SOTFS_WAL_KIND_RMDIR then keep (sotfs_rewrite_rmdir g (r_parent_id r) (rec_name r))
  else if r_kind r =? SOTFS_WAL_KIND_RENAME then
    keep (sotfs_rewrite_rename g (r_parent_id r) (rec_name r) (r_new_parent_id r) (rec_name2 r))
  else if r_kind r =? SOTFS_WAL_KIND_WRITE then
    if bool_decide (rec_name r = []) then sotfs_file_write g s (r_target_id r) (r_offset r) (rec_data r)
    else
      let fid := sotfs_resolve_path g (Some (rec_name r)) in
      if fid =? 0 then (-2, g, s) else sotfs_file_write g s fid (r_offset r) (rec_data r)
  else if r_kind r =? SOTFS_WAL_KIND_INSTALL then
    let leaf := match rec_name r with c :: rest => if c =? 47 then rest else rec_name r | [] => [] end in
    let g := (sotfs_rewrite_create_file g (root_id g) leaf mode_0644).2 in
    let file_id := sotfs_resolve_path g (Some (rec_name r)) in
    if file_id =? 0 then (-2, g, s) else sotfs_file_write g s file_id 0 (rec_data r)
  else (-22, g, s).
End apply.

(** ** The log *)

Section wal.
Context {B : Type} `{StorageOps B}.

Record wal := mk_wal {
  g_storage : option B;
  g_wal_cursor : Z;
  g_wal_seq : Z;
  g_records_since_checkpoint : Z;
  g_in_checkpoint : bool;
  g_audit : list (Z * Z);
}.

Definition set_storage (w : wal) (b : B) : wal :=
  mk_wal (Some b) (g_wal_cursor w) (g_wal_seq w) (g_records_since_checkpoint w) (g_in_checkpoint w) (g_audit w).
Definition set_since (w : wal) (n : Z) : wal :=
  mk_wal (g_storage w) (g_wal_cursor w) (g_wal_seq w) n (g_in_checkpoint w) (g_audit w).
Definition set_in_checkpoint (w : wal) (f : bool) : wal :=
  mk_wal (g_storage w) (g_wal_cursor w) (g_wal_seq w) (g_records_since_checkpoint w) f (g_audit w).
Definition set_position (w : wal) (cursor seq : Z) : wal :=
  mk_wal (g_storage w) cursor seq (g_records_since_checkpoint w) (g_in_checkpoint w) (g_audit w).
Definition set_audit (w : wal) (a : list (Z * Z)) : wal :=
  mk_wal (g_storage w) (g_wal_cursor w) (g_wal_seq w) (g_records_since_checkpoint w) (g_in_checkpoint w) a.
Definition sotfs_wal_audit_emit (w : wal) (kind arg0 : Z) : wal := set_audit w ((kind, arg0) :: g_audit w).

(** The zero-initialised statics, [g_wal_seq] apart. *)
Definition wal_boot : wal := mk_wal None 0 1 0 false [].

(** [sotfs_wal_init] leaves the checkpoint counter and flag as they are. *)
Definition sotfs_wal_init (w : wal) (storage : B) : wal :=
  mk_wal (Some storage) SOTFS_WAL_OFFSET 1 (g_records_since_checkpoint w) (g_in_checkpoint w) (g_audit w).

Definition sotfs_wal_cursor (w : wal) : Z := g_wal_cursor w.
Definition sotfs_wal_seq (w : wal) : Z := g_wal_seq w.

Definition sotfs_storage_read (w : wal) (off : Z) (len : nat) : Z * list Z :=
  match g_storage w with
  | None => (-22, [])
  | Some b =>
      if (len =? 0)%nat then (-22, [])
      else let '(rc, bs) := read_block b off len in
           if rc <? 0 then (rc, [])
           else if negb (u32 rc =? Z.of_nat len) then (-5, []) else (0, bs)
  end.

(** The part the two append paths share: frame the payload [p] at the cursor if it
    fits below [cap].  The sequence number and the cursor only move once both
    writes succeeded. *)
Definition wal_frame (w : wal) (b : B) (cap kind : Z) (p : list Z) : Z * wal :=
  let hdr := mk_hdr (g_wal_seq w) kind (u32 (24 + Z.of_nat (length p))) (sotfs_crc64 p) in
  if g_wal_cursor w + h_len hdr >? cap then
    (-28, sotfs_wal_audit_emit w SOTGUARD_KIND_WAL_FULL_DROP (g_wal_cursor w))
  else
    let '(rc, b) := write_block b (g_wal_cursor w) (hdr_bytes hdr) in
    if rc <? 0 then (rc, set_storage w b)
    else
      let '(rc, b) := write_block b (g_wal_cursor w + 24) p in
      if rc <? 0 then (rc, set_storage w b)
      else (0, set_position (set_storage w b) (g_wal_cursor w + h_len hdr) (u64 (g_wal_seq w + 1))).

Definition wal_maybe_checkpoint (sotfs_wal_log_checkpoint : list Z -> wal -> Z * wal) (w : wal) : wal :=
  if g_in_checkpoint w then w
  else
    let n := u32 (g_records_since_checkpoint w + 1) in
    if n <? SOTFS_WAL_CHECKPOINT_INTERVAL then set_since w n
    else
      let ck := mk_ck (g_wal_seq w) 0 0 (g_wal_seq w) in
      let w := set_in_checkpoint (set_since w 0) true in
      set_in_checkpoint (sotfs_wal_log_checkpoint (ck_bytes ck) w).2 false.

(** [sotfs_wal_log_payload] and [wal_maybe_checkpoint] call each other; the flag
    stops the second round, so two levels are all the calls there are
    ([log_payload_depth]). *)
Fixpoint log_payload_at (depth : nat) (kind : Z) (p : list Z) (w : wal) : Z * wal :=
  match depth with
  | O => (0, w)
  | S depth' =>
      match g_storage w with
      | None => (-22, w)
      | Some b =>
          if bool_decide (p = []) then (-22, w)
          else let '(rc, w) := wal_frame w b WAL_END kind p in
               if rc <? 0 then (rc, w)
               else (0, wal_maybe_checkpoint (log_payload_at depth' SOTFS_WAL_KIND_CHECKPOINT) w)
      end
  end.

Definition sotfs_wal_log_payload : Z -> list Z -> wal -> Z * wal := log_payload_at 2.
Definition sotfs_wal_log_checkpoint (p : list Z) (w : wal) : Z * wal :=
  sotfs_wal_log_payload SOTFS_WAL_KIND_CHECKPOINT p w.

Definition sotfs_wal_append (w : wal) (rec : sotfs_wal_record) : Z * wal :=
  match g_storage w with
  | None => (-22, w)
  | Some b =>
      let '(rc, w) := wal_frame w b (capacity_bytes b) (r_kind rec) (rec_bytes rec) in
      if rc <? 0 then (rc, w) else (0, wal_maybe_checkpoint sotfs_wal_log_checkpoint w)
  end.

Definition sotfs_wal_flush (w : wal) : wal :=
  match g_storage w with None => w | Some b => set_storage w (flush b).2 end.

(** ** The emitters *)

(** [sotos_strlcpy] into a zeroed array of [n] bytes. *)
Definition char_buf (n : nat) (s : list Z) : list Z :=
  let c := take (n - 1) s in c ++ replicate (n - length c) 0.
(** [memcpy] of at most [SOTFS_WAL_MAX_BLOB] bytes into the zeroed blob. *)
Definition blob_buf (data : list Z) : list Z :=
  let d := take SOTFS_WAL_MAX_BLOB data in d ++ replicate (SOTFS_WAL_MAX_BLOB - length d) 0.
Definition blob_size (data : list Z) : Z :=
  let len := Z.of_nat (length data) in
  if len >? Z.of_nat SOTFS_WAL_MAX_BLOB then Z.of_nat SOTFS_WAL_MAX_BLOB else len.

(** [prep_header] and the fields the emitters fill in. *)
Definition prep_header (kind tx tsc parent target new_parent mode offset blob_len : Z) (name name2 : list Z) (data : list Z)
    : sotfs_wal_record :=
  mk_rec SOTFS_WAL_MAGIC (Z.of_nat rec_size) tx tsc kind 0 parent target new_parent mode offset blob_len
    (char_buf SOTFS_WAL_NAME_BYTES name) (char_buf SOTFS_WAL_NAME_BYTES name2) (blob_buf data).

Definition create_record (tx tsc parent : Z) (name : list Z) (mode : Z) : sotfs_wal_record :=
  prep_header SOTFS_WAL_KIND_CREATE_FILE tx tsc parent 0 0 mode 0
    (Z.of_nat (length (take (SOTFS_WAL_NAME_BYTES - 1) name))) name [] [].
Definition mkdir_record (tx tsc parent : Z) (name : list Z) (mode : Z) : sotfs_wal_record :=
  prep_header SOTFS_WAL_KIND_MKDIR tx tsc parent 0 0 mode 0 0 name [] [].
Definition unlink_record (tx tsc parent : Z) (name : list Z) : sotfs_wal_record :=
  prep_header SOTFS_WAL_KIND_UNLINK tx tsc parent 0 0 0 0 0 name [] [].
Definition rmdir_record (tx tsc parent : Z) (name : list Z) : sotfs_wal_record :=
  prep_header SOTFS_WAL_KIND_RMDIR tx tsc parent 0 0 0 0 0 name [] [].
Definition rename_record (tx tsc p_src : Z) (old_name : list Z) (p_dst : Z) (new_name : list Z) : sotfs_wal_record :=
  prep_header SOTFS_WAL_KIND_RENAME tx tsc p_src 0 p_dst 0 0 0 old_name new_name [].
Definition write_record (tx tsc file_id offset : Z) (buf : list Z) : sotfs_wal_record :=
  prep_header SOTFS_WAL_KIND_WRITE tx tsc 0 file_id 0 0 offset (blob_size buf) [] [] buf.
(** A NULL path leaves the name empty. *)
Definition write_path_record (tx tsc : Z) (path : list Z) (offset : Z) (buf : list Z) : sotfs_wal_record :=
  prep_header SOTFS_WAL_KIND_WRITE tx tsc 0 0 0 0 offset (blob_size buf) path [] buf.
Definition install_record (tx tsc : Z) (path : list Z) (content : list Z) : sotfs_wal_record :=
  prep_header SOTFS_WAL_KIND_INSTALL tx tsc 0 0 0 0 0 (blob_size content) path [] content.

(** The emitters ignore the result of the append. *)
Definition sotfs_wal_log_create_file (w : wal) (tx tsc parent : Z) (name : list Z) (mode : Z) : wal :=
  (sotfs_wal_append w (create_record tx tsc parent name mode)).2.
Definition sotfs_wal_log_mkdir (w : wal) (tx tsc parent : Z) (name : list Z) (mode : Z) : wal :=
  (sotfs_wal_append w (mkdir_record tx tsc parent name mode)).2.
Definition sotfs_wal_log_unlink (w : wal) (tx tsc parent : Z) (name : list Z) : wal :=
  (sotfs_wal_append w (unlink_record tx tsc parent name)).2.
Definition sotfs_wal_log_rmdir (w : wal) (tx tsc parent : Z) (name : list Z) : wal :=
  (sotfs_wal_append w (rmdir_record tx tsc parent name)).2.
Definition sotfs_wal_log_rename (w : wal) (tx tsc p_src : Z) (old_name : list Z) (p_dst : Z) (new_name : list Z) : wal :=
  (sotfs_wal_append w (rename_record tx tsc p_src old_name p_dst new_name)).2.
Definition sotfs_wal_log_write (w : wal) (tx tsc file_id offset : Z) (buf : list Z) : wal :=
  (sotfs_wal_append w (write_record tx tsc file_id offset buf)).2.
Definition sotfs_wal_log_write_path (w : wal) (tx tsc : Z) (path : list Z) (offset : Z) (buf : list Z) : wal :=
  (sotfs_wal_append w (write_path_record tx tsc path offset buf)).2.
Definition sotfs_wal_log_install (w : wal) (tx tsc : Z) (path : list Z) (content : list Z) : wal :=
  (sotfs_wal_append w (install_record tx tsc path content)).2.

(** ** Scanning the region *)

(** The loop of every scan of the log: read the header at [off], stop at the end of
    the region, at an unwritten or malformed header and at a frame that does not
    fit, otherwise run [body] on the frame and step over it.  A frame is at least
    24 bytes long, so [scan_fuel] rounds cover the region ([scan_fuel_enough]). *)
Fixpoint wal_scan {A} (read : Z -> nat -> Z * list Z) (body : A -> Z -> sotfs_wal_v2_header -> A)
    (fuel : nat) (off : Z) (acc : A) : Z * A :=
  match fuel with
  | O => (off, acc)
  | S fuel' =>
      if off + 24 <=? WAL_END then
        let '(rc, bs) := read off 24%nat in
        if rc <? 0 then (off, acc)
        else
          let hdr := hdr_of bs in
          if (h_seq hdr =? 0) || (h_len hdr <? 24) then (off, acc)
          else if off + h_len hdr >? WAL_END then (off, acc)
          else wal_scan read body fuel' (off + h_len hdr) (body acc off hdr)
      else (off, acc)
  end.

Definition scan_fuel : nat := Z.to_nat (SOTFS_WAL_REGION_BYTES / 24 + 1).

Definition sotfs_wal_find_last_checkpoint (w : wal) : Z :=
  match g_storage w with
  | None => SOTFS_WAL_OFFSET
  | Some _ =>
      (wal_scan (sotfs_storage_read w)
         (fun last_ck off hdr => if h_kind hdr =? SOTFS_WAL_KIND_CHECKPOINT then off else last_ck)
         scan_fuel SOTFS_WAL_OFFSET SOTFS_WAL_OFFSET).2
  end.

Section replay.
Context {S : Type} `{BlockStore S}.

(** The locals of [sotfs_wal_replay_files], the graph and store it works on and
    what it reports. *)
Record replay := mk_replay {
  rp_graph : sotfs_graph; rp_store : S; rp_applied : Z; rp_torn : Z; rp_last_seq : Z; rp_audit : list (Z * Z);
}.

Definition replay_frame (b : B) (a : replay) (off : Z) (hdr : sotfs_wal_v2_header) : replay :=
  let '(mk_replay g s applied torn _ audit) := a in
  if h_kind hdr >=? SOTFS_WAL_KIND_PROCD_MUT then mk_replay g s applied torn (h_seq hdr) audit
  else if h_len hdr - 24 =? Z.of_nat rec_size then
    let '(rc, bs) := read_block b (off + 24) rec_size in
    if (0 <=? rc) && (sotfs_crc64 bs =? h_crc64 hdr) then
      let '(ar, g, s) := apply_record g s (rec_of bs) in
      mk_replay g s (if 0 <=? ar then u32 (applied + 1) else applied) torn (h_seq hdr) audit
    else mk_replay g s applied (u32 (torn + 1)) (h_seq hdr) ((SOTGUARD_KIND_WAL_TORN_RECORD, h_seq hdr) :: audit)
  else mk_replay g s applied torn (h_seq hdr) audit.

Definition sotfs_wal_replay_files (w : wal) (g : sotfs_graph) (s : S) : Z * sotfs_graph * S * wal :=
  match g_storage w with
  | None => (-22, g, s, w)
  | Some b =>
      let '(off, a) := wal_scan (read_block b) (replay_frame b) scan_fuel SOTFS_WAL_OFFSET
                         (mk_replay g s 0 0 0 (g_audit w)) in
      let seq := if rp_last_seq a >=? g_wal_seq w then u64 (rp_last_seq a + 1) else g_wal_seq w in
      (i32 (rp_applied a), rp_graph a, rp_store a, set_audit (set_position w off seq) (rp_audit a))
  end.
End replay.
End wal.

Arguments wal : clear implicits.
Arguments replay : clear implicits.
