(* ===== verification/WalSpec.v ===== *)
(** * The log as a list of frames

    [frame] is a header with its payload, [holds f off l] says that the medium [f]
    carries the frames [l] from offset [off] on and zeros behind them up to the end
    of the WAL region.  [put_op] is what a logging call adds to the list: its frame
    and, every [SOTFS_WAL_CHECKPOINT_INTERVAL] calls, a checkpoint.  [wal_rel]
    relates the state of the code to the list; [exec_rel] is the simulation and
    [scan_log] says what a scan of the region visits. *)

From S2P Require Import Prelude Crc64 Storage BlockStore Graph Rewrite FileIO Wal.
Import Layout.

#[local] Arguments le_bytes : simpl never.
#[local] Arguments app : simpl never.

Record frame := mk_frame { fr_hdr : sotfs_wal_v2_header; fr_payload : list Z }.

Record frame_ok (x : frame) : Prop := {
  fo_seq : 0 < h_seq (fr_hdr x) < 2 ^ 64;
  fo_kind : 0 <= h_kind (fr_hdr x) < 2 ^ 32;
  fo_len : h_len (fr_hdr x) = 24 + Z.of_nat (length (fr_payload x));
  fo_small : h_len (fr_hdr x) < 2 ^ 32;
  fo_crc : is_u64 (h_crc64 (fr_hdr x));
}.

Definition log_size (l : list frame) : Z := foldr (fun x n => h_len (fr_hdr x) + n) 0 l.

(** The offsets of the frames of a log that starts at [off]. *)
Fixpoint placed (off : Z) (l : list frame) : list (Z * frame) :=
  match l with
  | [] => []
  | x :: l' => (off, x) :: placed (off + h_len (fr_hdr x)) l'
  end.

Fixpoint holds (f : Z -> Z) (off : Z) (l : list frame) : Prop :=
  match l with
  | [] => off <= WAL_END /\ forall o, off <= o < WAL_END -> f o = 0
  | x :: l' =>
      slice f off 24 = hdr_bytes (fr_hdr x) /\ slice f (off + 24) (length (fr_payload x)) = fr_payload x
      /\ holds f (off + h_len (fr_hdr x)) l'
  end.

(** ** Images *)

Lemma length_hdr_bytes h : length (hdr_bytes h) = 24%nat.
Proof. unfold hdr_bytes. by rewrite !length_app, !length_le_bytes. Qed.

Lemma field_app_l n m z rest : (n = m)%nat -> 0 <= z < 2 ^ (8 * Z.of_nat n) -> field (le_bytes n z ++ rest) 0 m = z.
Proof.
  intros <- Hz. unfold field. rewrite drop_0. rewrite <-(length_le_bytes n z) at 1.
  by rewrite take_app_length, le_val_bytes.
Qed.

(** Skipping the first field of an image. *)
Lemma field_skip n z rest off m : (n <= off)%nat -> field (le_bytes n z ++ rest) off m = field rest (off - n) m.
Proof.
  intros H. unfold field. rewrite drop_app_ge by (rewrite length_le_bytes; lia). by rewrite length_le_bytes.
Qed.

Lemma bytes_skip n z rest off m : (n <= off)%nat -> bytes_at (le_bytes n z ++ rest) off m = bytes_at rest (off - n) m.
Proof.
  intros H. unfold bytes_at. rewrite drop_app_ge by (rewrite length_le_bytes; lia). by rewrite length_le_bytes.
Qed.

Lemma bytes_skip_list a rest off m : (length a <= off)%nat -> bytes_at (a ++ rest) off m = bytes_at rest (off - length a) m.
Proof. intros H. unfold bytes_at. by rewrite drop_app_ge by lia. Qed.

Lemma bytes_at_app a rest m : length a = m -> bytes_at (a ++ rest) 0 m = a.
Proof. intros <-. unfold bytes_at. by rewrite drop_0, take_app_length. Qed.

(** Read one field after the other off the front of an image. *)
Ltac read_fields :=
  repeat (rewrite field_skip by lia); repeat (rewrite bytes_skip by lia); simpl Nat.sub.

Lemma hdr_of_bytes h :
  0 <= h_seq h < 2 ^ 64 -> 0 <= h_kind h < 2 ^ 32 -> 0 <= h_len h < 2 ^ 32 -> is_u64 (h_crc64 h) ->
  hdr_of (hdr_bytes h) = h.
Proof.
  destruct h as [s k n c]. simpl. intros Hs Hk Hn Hc. unfold hdr_of, hdr_bytes. simpl h_seq. simpl h_kind. simpl h_len. simpl h_crc64.
  f_equal; read_fields.
  - by apply field_app_l.
  - by apply field_app_l.
  - by apply field_app_l.
  - rewrite <-(app_nil_r (le_bytes 8 c)). by apply field_app_l.
Qed.

Lemma frame_ok_hdr x : frame_ok x -> hdr_of (hdr_bytes (fr_hdr x)) = fr_hdr x.
Proof. intros [? ? ? ? ?]. apply hdr_of_bytes; try done; lia. Qed.

(** Every field in its range, every array of its size. *)
Record rec_wf (r : sotfs_wal_record) : Prop := {
  rw_magic : 0 <= r_magic r < 2 ^ 32;
  rw_length : 0 <= r_length r < 2 ^ 32;
  rw_tx : 0 <= r_tx_id r < 2 ^ 64;
  rw_timestamp : 0 <= r_timestamp r < 2 ^ 64;
  rw_kind : 0 <= r_kind r < 2 ^ 16;
  rw_reserved : 0 <= r_reserved r < 2 ^ 16;
  rw_parent : - 2 ^ 31 <= r_parent_id r < 2 ^ 31;
  rw_target : - 2 ^ 31 <= r_target_id r < 2 ^ 31;
  rw_new_parent : - 2 ^ 31 <= r_new_parent_id r < 2 ^ 31;
  rw_mode : 0 <= r_mode r < 2 ^ 32;
  rw_offset : 0 <= r_offset r < 2 ^ 32;
  rw_blob_len : 0 <= r_blob_len r < 2 ^ 32;
  rw_name : length (r_name r) = 128%nat;
  rw_name2 : length (r_name2 r) = 128%nat;
  rw_blob : length (r_blob r) = 512%nat;
  rw_bytes : Forall is_byte (r_name r ++ r_name2 r ++ r_blob r);
}.

Lemma length_rec_bytes r : rec_wf r -> length (rec_bytes r) = rec_size.
Proof.
  intros W. unfold rec_bytes, rec_fields. rewrite !length_app, !length_le_bytes, (rw_name _ W), (rw_name2 _ W), (rw_blob _ W).
  by rewrite length_replicate.
Qed.

Lemma rec_bytes_byte r : rec_wf r -> Forall is_byte (rec_bytes r).
Proof.
  intros W. unfold rec_bytes, rec_fields. pose proof (rw_bytes _ W) as Hb. rewrite !Forall_app in Hb.
  destruct Hb as (?&?&?). repeat apply Forall_app_2; try apply le_bytes_byte; try assumption.
  apply Forall_replicate. unfold is_byte. lia.
Qed.

(** The image of a negative [int32_t] is that of its residue. *)
Lemma le_bytes_mod n z : le_bytes n (z mod 2 ^ (8 * Z.of_nat n)) = le_bytes n z.
Proof.
  revert z. induction n as [|n IH]; intros z; [done|]. unfold le_bytes at 1 2. fold le_bytes.
  replace (8 * Z.of_nat (S n)) with (8 + 8 * Z.of_nat n) by lia. rewrite Z.pow_add_r by lia. change (2 ^ 8) with 256.
  assert (0 < 2 ^ (8 * Z.of_nat n)) by (apply Z.pow_pos_nonneg; lia).
  rewrite Z.rem_mul_r by lia. f_equal.
  - rewrite Z.mul_comm, Z_mod_plus_full. apply Z.mod_mod. lia.
  - rewrite Z.mul_comm, Z_div_plus_full by lia. rewrite (Z.div_small (z mod 256)) by (apply Z.mod_pos_bound; lia).
    apply IH.
Qed.

Lemma i32_u32 z : - 2 ^ 31 <= z < 2 ^ 31 -> i32 (z mod 2 ^ 32) = z.
Proof.
  intros Hz. unfold i32, u32. rewrite Z.mod_mod by lia. destruct (decide (0 <= z)).
  - rewrite Z.mod_small by lia. destruct (z <? 2 ^ 31) eqn:E; bool_to_prop; lia.
  - replace (z mod 2 ^ 32) with (z + 2 ^ 32); [|apply (Z.mod_unique z (2 ^ 32) (-1)); lia].
    destruct (z + 2 ^ 32 <? 2 ^ 31) eqn:E; bool_to_prop; lia.
Qed.

Lemma field_i32 z rest : - 2 ^ 31 <= z < 2 ^ 31 -> i32 (field (le_bytes 4 z ++ rest) 0 4) = z.
Proof.
  intros Hz. rewrite <-(le_bytes_mod 4 z). change (8 * Z.of_nat 4) with 32.
  rewrite field_app_l; [by apply i32_u32|done|]. apply Z.mod_pos_bound. lia.
Qed.

Lemma rec_of_bytes r : rec_wf r -> rec_of (rec_bytes r) = r.
Proof.
  intros W. destruct W. destruct r. simpl in *. unfold rec_of, rec_bytes, rec_fields. simpl. rewrite <-!app_assoc.
  f_equal; read_fields; try (by apply field_app_l); try (by apply field_i32).
  - by apply bytes_at_app.
  - rewrite bytes_skip_list by lia. rewrite rw_name0. by apply bytes_at_app.
  - rewrite !bytes_skip_list by (rewrite ?rw_name0; lia). rewrite rw_name0, rw_name3. by apply bytes_at_app.
Qed.

(** ** Logs on a medium *)

Lemma log_size_app l1 l2 : log_size (l1 ++ l2) = log_size l1 + log_size l2.
Proof. induction l1 as [|x l1 IH]; [done|]. change ((x :: l1) ++ l2) with (x :: (l1 ++ l2)). simpl. lia. Qed.

Lemma log_size_nonneg l : Forall frame_ok l -> 24 * Z.of_nat (length l) <= log_size l.
Proof. induction 1 as [|x l Hx _ IH]; simpl; [lia|]. pose proof (fo_len _ Hx). lia. Qed.

Lemma holds_end f off l : holds f off l -> off + log_size l <= WAL_END.
Proof. revert off. induction l as [|x l IH]; intros off; simpl; [lia|]. intros (_&_&H). apply IH in H. lia. Qed.

Lemma holds_zero f off l o : holds f off l -> off + log_size l <= o < WAL_END -> f o = 0.
Proof.
  revert off. induction l as [|x l IH]; intros off; simpl.
  - intros [_ H] Ho. apply H. lia.
  - intros (_&_&H) Ho. eapply IH; [done|lia].
Qed.

(** [holds] only depends on the bytes from [off] to the end of the region. *)
Lemma holds_ext f g off l :
  Forall frame_ok l -> holds f off l -> (forall o, off <= o < WAL_END -> g o = f o) -> holds g off l.
Proof.
  intros Hl. revert off. induction Hl as [|x l Hx Hl IH]; intros off; simpl.
  - intros [He Hz] Hfg. split; [done|]. intros o Ho. rewrite Hfg by done. by apply Hz.
  - intros (H1&H2&H3) Hfg. pose proof (holds_end _ _ _ H3). pose proof (log_size_nonneg _ Hl). pose proof (fo_len _ Hx).
    split_and!.
    + rewrite <-H1. apply slice_ext. intros o Ho. apply Hfg. lia.
    + rewrite <-H2 at 2. apply slice_ext. intros o Ho. apply Hfg. lia.
    + apply IH; [done|]. intros o Ho. apply Hfg. lia.
Qed.

(** Writing a frame right behind the log. *)
Lemma holds_snoc f g off l x :
  Forall frame_ok l -> frame_ok x -> holds f off l ->
  let cur := off + log_size l in
  cur + h_len (fr_hdr x) <= WAL_END ->
  (forall o, off <= o < WAL_END -> o < cur \/ cur + h_len (fr_hdr x) <= o -> g o = f o) ->
  slice g cur 24 = hdr_bytes (fr_hdr x) -> slice g (cur + 24) (length (fr_payload x)) = fr_payload x ->
  holds g off (l ++ [x]).
Proof.
  intros Hl Hx. cbv zeta. revert off. induction Hl as [|y l Hy Hl IH]; intros off.
  - change ([] ++ [x]) with [x]. simpl. rewrite Z.add_0_r. intros [He Hz] Hfit Hfg H1 H2. split_and!; try done.
    intros o Ho. pose proof (fo_len _ Hx). rewrite Hfg by lia. apply Hz. lia.
  - change ((y :: l) ++ [x]) with (y :: (l ++ [x])). simpl. intros (H1&H2&H3) Hfit Hfg H4 H5.
    pose proof (fo_len _ Hy). pose proof (fo_len _ Hx). pose proof (log_size_nonneg _ Hl). rewrite !Z.add_assoc in *.
    split_and!.
    + rewrite <-H1. apply slice_ext. intros o Ho. apply Hfg; lia.
    + rewrite <-H2 at 2. apply slice_ext. intros o Ho. apply Hfg; lia.
    + apply IH; try done. intros o Ho Ho'. apply Hfg; lia.
Qed.

(** Overwriting the payload of one frame. *)
Lemma holds_replace f g off l1 x p l2 :
  Forall frame_ok (l1 ++ x :: l2) -> holds f off (l1 ++ x :: l2) -> length p = length (fr_payload x) ->
  let at_ := off + log_size l1 + 24 in
  (forall o, off <= o < WAL_END -> g o = overlay f at_ p o) ->
  holds g off (l1 ++ mk_frame (fr_hdr x) p :: l2).
Proof.
  intros Hl H Hp. cbv zeta. revert off H. induction l1 as [|y l1 IH]; intros off.
  - change ([] ++ ?a) with a in *. simpl. rewrite Z.add_0_r. intros (H1&H2&H3) Hg.
    apply Forall_cons in Hl as [Hx Hl]. pose proof (fo_len _ Hx). pose proof (holds_end _ _ _ H3). pose proof (log_size_nonneg _ Hl).
    assert (forall o n, off <= o -> o + Z.of_nat n <= WAL_END -> slice g o n = slice (overlay f (off + 24) p) o n) as Hs.
    { intros o n ? ?. apply slice_ext. intros. apply Hg. lia. }
    split_and!.
    + rewrite Hs by lia. rewrite slice_overlay_ne by lia. done.
    + rewrite Hs by lia. by rewrite slice_overlay.
    + eapply holds_ext; [done..|]. intros o Ho. rewrite Hg by lia. unfold overlay.
      destruct (o <? off + 24 + Z.of_nat (length p)) eqn:E; bool_to_prop; [lia|]. by rewrite andb_false_r.
  - change ((y :: l1) ++ ?a) with (y :: (l1 ++ a)) in *. simpl. intros (H1&H2&H3) Hg.
    apply Forall_cons in Hl as [Hy Hl]. pose proof (fo_len _ Hy). pose proof (holds_end _ _ _ H3) as He.
    pose proof (log_size_nonneg _ Hl). rewrite log_size_app in *. simpl in *.
    apply Forall_app in Hl as Hl'. destruct Hl' as [Hl1 Hl2]. pose proof (log_size_nonneg _ Hl1).
    apply Forall_cons in Hl2 as [Hx Hl2]. pose proof (fo_len _ Hx). pose proof (log_size_nonneg _ Hl2).
    assert (forall o, off <= o < off + h_len (fr_hdr y) -> g o = f o) as Hgf.
    { intros o Ho. rewrite Hg by lia. unfold overlay.
      destruct (off + (h_len (fr_hdr y) + log_size l1) + 24 <=? o) eqn:E; bool_to_prop; [lia|done]. }
    split_and!.
    + rewrite <-H1. apply slice_ext. intros o Ho. apply Hgf. lia.
    + rewrite <-H2 at 2. apply slice_ext. intros o Ho. apply Hgf. lia.
    + apply IH; [done..|]. intros o Ho. rewrite Hg by lia. f_equal. lia.
Qed.

(** ** Scans *)


Section scan.
Context {A : Type} (read : Z -> nat -> Z * list Z) (body : A -> Z -> sotfs_wal_v2_header -> A).

Lemma wal_scan_S fuel off acc :
  wal_scan read body (S fuel) off acc
  = if off + 24 <=? WAL_END then
      let '(rc, bs) := read off 24%nat in
      if rc <? 0 then (off, acc)
      else if (h_seq (hdr_of bs) =? 0) || (h_len (hdr_of bs) <? 24) then (off, acc)
      else if off + h_len (hdr_of bs) >? WAL_END then (off, acc)
      else wal_scan read body fuel (off + h_len (hdr_of bs)) (body acc off (hdr_of bs))
    else (off, acc).
Proof. reflexivity. Qed.

(** The fuel of a scan covers the region: more makes no difference. *)
Lemma scan_fuel_mono fuel k off acc :
  WAL_END - off < 24 * Z.of_nat fuel -> wal_scan read body (fuel + k) off acc = wal_scan read body fuel off acc.
Proof.
  revert off acc. induction fuel as [|fuel IH]; intros off acc H.
  - change (0 + k)%nat with k. destruct k as [|k]; [done|]. rewrite wal_scan_S. by rewrite (proj2 (Z.leb_gt _ _)) by lia.
  - change (S fuel + k)%nat with (S (fuel + k)). rewrite !wal_scan_S. destruct (off + 24 <=? WAL_END); [|done].
    destruct (read off 24%nat) as [rc bs]. destruct (rc <? 0); [done|].
    destruct ((h_seq (hdr_of bs) =? 0) || (h_len (hdr_of bs) <? 24)) eqn:E; [done|].
    destruct (off + h_len (hdr_of bs) >? WAL_END); [done|]. apply IH. bool_to_prop. lia.
Qed.

Lemma scan_log f l fuel off acc :
  (forall o n, off <= o -> (0 < n)%nat -> o + Z.of_nat n <= WAL_END -> exists rc, 0 <= rc /\ read o n = (rc, slice f o n)) ->
  Forall frame_ok l -> holds f off l -> (length l < fuel)%nat ->
  wal_scan read body fuel off acc
  = (off + log_size l, fold_left (fun a '(o, x) => body a o (fr_hdr x)) (placed off l) acc).
Proof.
  intros Hr Hl. revert fuel off acc Hr. induction Hl as [|x l Hx Hl IH]; intros fuel off acc Hr H Hf.
  - destruct fuel as [|fuel]; [simpl in Hf; lia|]. destruct H as [_ Hz]. rewrite wal_scan_S. simpl log_size. simpl placed. rewrite Z.add_0_r.
    destruct (off + 24 <=? WAL_END) eqn:E; [|done]. bool_to_prop.
    destruct (Hr off 24%nat) as (rc&Hrc&->); [lia..|]. rewrite (proj2 (Z.ltb_ge rc 0)) by done.
    assert (h_seq (hdr_of (slice f off 24)) = 0) as ->; [|done]. unfold hdr_of, field, h_seq.
    rewrite (slice_ext f (fun _ => 0)) by (intros; apply Hz; lia).
    rewrite (slice_const (fun _ => 0) off 24 0) by done. vm_compute. reflexivity.
  - destruct fuel as [|fuel]; [simpl in Hf; lia|]. simpl in H. destruct H as (H1&H2&H3). pose proof (fo_len _ Hx).
    pose proof (holds_end _ _ _ H3). pose proof (log_size_nonneg _ Hl).
    rewrite wal_scan_S, (proj2 (Z.leb_le _ _)) by lia. destruct (Hr off 24%nat) as (rc&Hrc&->); [lia..|].
    rewrite (proj2 (Z.ltb_ge rc 0)) by done. rewrite H1, frame_ok_hdr by done.
    destruct (h_seq (fr_hdr x) =? 0) eqn:Es; [bool_to_prop; pose proof (fo_seq _ Hx); lia|].
    rewrite (proj2 (Z.ltb_ge _ 24)) by lia. rewrite Z.gtb_ltb, (proj2 (Z.ltb_ge WAL_END _)) by lia.
    rewrite orb_false_l, IH; [simpl; f_equal; lia| |done|simpl in Hf; lia]. intros. apply Hr; lia.
Qed.

(** The frames a log that fits has are fewer than the fuel. *)
Lemma scan_fuel_log f l : Forall frame_ok l -> holds f SOTFS_WAL_OFFSET l -> (length l < scan_fuel)%nat.
Proof.
  intros Hl H. apply holds_end in H. apply log_size_nonneg in Hl. unfold WAL_END in H.
  assert (log_size l / 24 <= SOTFS_WAL_REGION_BYTES / 24) by (apply Z.div_le_mono; lia).
  assert (Z.of_nat (length l) <= log_size l / 24) by (apply Z.div_le_lower_bound; lia).
  unfold scan_fuel. lia.
Qed.
End scan.

(** ** The log a sequence of calls produces *)

Inductive wal_op :=
| WAppend (r : sotfs_wal_record)
| WLog (kind : Z) (p : list Z).

(** File-system records carry a kind below [PROCD_MUT], the other payloads one
    from there on: the replays tell them apart by it. *)
Definition wal_op_ok (op : wal_op) : Prop :=
  match op with
  | WAppend r => rec_wf r /\ r_kind r < SOTFS_WAL_KIND_PROCD_MUT
  | WLog kind p => SOTFS_WAL_KIND_PROCD_MUT <= kind < 2 ^ 32 /\ p <> [] /\ Forall is_byte p
  end.

(** The next frame: consecutive sequence numbers from 1, the checksum of the
    payload. *)
Definition next_frame (l : list frame) (kind : Z) (p : list Z) : frame :=
  mk_frame (mk_hdr (Z.of_nat (length l) + 1) kind (24 + Z.of_nat (length p)) (sotfs_crc64 p)) p.

Definition checkpoint_after (l : list frame) : list Z :=
  ck_bytes (mk_ck (Z.of_nat (length l) + 1) 0 0 (Z.of_nat (length l) + 1)).

(** One call: its frame and, when the counter reaches the interval, a checkpoint. *)
Definition put (st : list frame * Z) (kind : Z) (p : list Z) : list frame * Z :=
  let l := st.1 ++ [next_frame st.1 kind p] in
  if st.2 + 1 <? SOTFS_WAL_CHECKPOINT_INTERVAL then (l, st.2 + 1)
  else (l ++ [next_frame l SOTFS_WAL_KIND_CHECKPOINT (checkpoint_after l)], 0).

Definition put_op (st : list frame * Z) (op : wal_op) : list frame * Z :=
  match op with
  | WAppend r => put st (r_kind r) (rec_bytes r)
  | WLog kind p => put st kind p
  end.

Definition fits (l : list frame) : Prop := SOTFS_WAL_OFFSET + log_size l <= WAL_END.

Lemma log_size_snoc l x : log_size (l ++ [x]) = log_size l + h_len (fr_hdr x).
Proof. rewrite log_size_app. simpl. lia. Qed.

Lemma put_size st kind p : log_size st.1 + 24 <= log_size (put st kind p).1.
Proof.
  unfold put. destruct (st.2 + 1 <? SOTFS_WAL_CHECKPOINT_INTERVAL); simpl; rewrite !log_size_snoc; simpl; lia.
Qed.

Lemma fits_mono st op : fits (put_op st op).1 -> fits st.1.
Proof.
  unfold fits. intros H. destruct op as [r|kind p]; simpl in H;
    pose proof (put_size st) as Hp; [specialize (Hp (r_kind r) (rec_bytes r))|specialize (Hp kind p)]; lia.
Qed.

Lemma fits_foldl st ops : fits (fold_left put_op ops st).1 -> fits st.1.
Proof. revert st. induction ops as [|op ops IH]; intros st; simpl; [done|]. intros H. by eapply fits_mono, IH. Qed.

Lemma WAL_END_small : WAL_END < 2 ^ 29.
Proof. vm_compute. reflexivity. Qed.

Lemma next_frame_ok l kind p :
  0 <= kind < 2 ^ 32 -> Forall is_byte p -> Forall frame_ok l -> fits (l ++ [next_frame l kind p]) ->
  frame_ok (next_frame l kind p).
Proof.
  intros Hk Hp Hl Hf. unfold fits in Hf. rewrite log_size_snoc in Hf. simpl in Hf. pose proof (log_size_nonneg _ Hl). pose proof WAL_END_small.
  assert (0 < SOTFS_WAL_OFFSET) by (vm_compute; reflexivity).
  constructor; simpl; try lia. by apply crc64_u64.
Qed.

(** Sequence numbers run from 1. *)
Definition seqs_ok (l : list frame) : Prop := forall i x, l !! i = Some x -> h_seq (fr_hdr x) = Z.of_nat i + 1.

Lemma seqs_snoc l kind p : seqs_ok l -> seqs_ok (l ++ [next_frame l kind p]).
Proof.
  intros H i x Hi. apply lookup_app_Some in Hi as [Hi|[Hi Hx]]; [by apply H|].
  destruct (i - length l)%nat eqn:E; [|by destruct n]. simpl in Hx. simplify_eq. simpl. lia.
Qed.

Section sim.
Context {B : Type} `{StorageLaws B}.

Definition wal_exec (w : wal B) (op : wal_op) : Z * wal B :=
  match op with
  | WAppend r => sotfs_wal_append w r
  | WLog kind p => sotfs_wal_log_payload kind p w
  end.

Fixpoint wal_exec_all (w : wal B) (ops : list wal_op) : list Z * wal B :=
  match ops with
  | [] => ([], w)
  | op :: ops' => let '(r, w) := wal_exec w op in let '(rs, w) := wal_exec_all w ops' in (r :: rs, w)
  end.

(** The medium [b] carries the log [l]. *)
Record carries (b : B) (l : list frame) : Prop := {
  ca_wf : storage_wf b;
  ca_cap : WAL_END <= capacity_bytes b;
  ca_frames : Forall frame_ok l;
  ca_seqs : seqs_ok l;
  ca_holds : holds (byte_at b) SOTFS_WAL_OFFSET l;
}.

Record wal_rel (w : wal B) (b : B) (st : list frame * Z) : Prop := {
  wr_storage : g_storage w = Some b;
  wr_carries : carries b st.1;
  wr_cursor : g_wal_cursor w = SOTFS_WAL_OFFSET + log_size st.1;
  wr_seq : g_wal_seq w = Z.of_nat (length st.1) + 1;
  wr_since : g_records_since_checkpoint w = st.2;
}.

Lemma carries_fits b l : carries b l -> fits l.
Proof. intros C. apply (holds_end _ _ _ (ca_holds _ _ C)). Qed.

Lemma i32_nonneg n : 0 <= n < 2 ^ 31 -> (i32 n <? 0) = false.
Proof.
  intros Hn. apply Z.ltb_ge. unfold i32, u32. rewrite Z.mod_small by lia. destruct (n <? 2 ^ 31) eqn:E; bool_to_prop; lia.
Qed.

(** The two writes of a frame, whatever limit the caller checks against. *)
Lemma frame_writes (b : B) (cur : Z) (h p : list Z) :
  storage_wf b -> 0 <= cur -> length h = 24%nat -> Z.of_nat (length p) < 2 ^ 31 ->
  cur + 24 + Z.of_nat (length p) <= capacity_bytes b ->
  exists b1 b2,
    write_block b cur h = (i32 24, b1) /\ write_block b1 (cur + 24) p = (i32 (Z.of_nat (length p)), b2)
    /\ storage_wf b2 /\ capacity_bytes b2 = capacity_bytes b
    /\ forall o, byte_at b2 o = overlay (byte_at b) cur (h ++ p) o.
Proof.
  intros Hb Hc Hh Hp Hcap.
  destruct (write_block_spec b cur h) as (b1&E1&W1&C1&B1); [done..|rewrite Hh; lia|].
  destruct (write_block_spec b1 (cur + 24) p) as (b2&E2&W2&C2&B2); [done|lia|lia|].
  exists b1, b2. rewrite Hh in E1. split_and!; try done; [congruence|]. intros o. rewrite B2. unfold overlay at 1. rewrite B1. unfold overlay.
  rewrite length_app, Hh.
  destruct (cur + 24 <=? o) eqn:E3, (o <? cur + 24 + Z.of_nat (length p)) eqn:E4, (cur <=? o) eqn:E5,
    (o <? cur + Z.of_nat 24) eqn:E6, (o <? cur + Z.of_nat (24 + length p)) eqn:E7; simpl; bool_to_prop; try lia; try done.
  - rewrite lookup_app_r by (rewrite Hh; lia). rewrite Hh. do 2 f_equal. lia.
  - rewrite lookup_app_l by (rewrite Hh; lia). done.
Qed.

Lemma frame_rel w b st cap kind p :
  wal_rel w b st -> 0 <= kind < 2 ^ 32 -> Forall is_byte p -> fits (st.1 ++ [next_frame st.1 kind p]) ->
  WAL_END <= cap ->
  exists b', wal_frame w b cap kind p
      = (0, mk_wal (Some b') (SOTFS_WAL_OFFSET + log_size (st.1 ++ [next_frame st.1 kind p])) (Z.of_nat (length st.1) + 2)
              (g_records_since_checkpoint w) (g_in_checkpoint w) (g_audit w))
    /\ carries b' (st.1 ++ [next_frame st.1 kind p]).
Proof.
  intros [Hst C Hcur Hseq Hsince] Hk Hp Hf Hcap. destruct C as [Wb Hcb Fl Sl Hl].
  pose proof (next_frame_ok _ _ _ Hk Hp Fl Hf) as Fx. pose proof Hf as Hf'. unfold fits in Hf. rewrite log_size_snoc in Hf.
  simpl in Hf. pose proof WAL_END_small. pose proof (log_size_nonneg _ Fl).
  assert (0 < SOTFS_WAL_OFFSET) by (vm_compute; reflexivity).
  unfold wal_frame. cbn [h_len]. rewrite u32_small by lia. rewrite Z.gtb_ltb, (proj2 (Z.ltb_ge cap _)) by lia.
  set (h := hdr_bytes _).
  destruct (frame_writes b (g_wal_cursor w) h p) as (b1&b2&->&->&W2&C2&B2); [done|lia|apply length_hdr_bytes|lia|lia|].
  rewrite !i32_nonneg by lia. exists b2. split.
  { f_equal. unfold set_position, set_storage. simpl. f_equal; [rewrite log_size_snoc; simpl; lia|]. rewrite u64_small; [lia|].
    split; [lia|]. apply Z.lt_trans with (2 ^ 30); [lia|]. by apply Z.pow_lt_mono_r. }
  assert (h = hdr_bytes (fr_hdr (next_frame st.1 kind p))) as Hh by (unfold h; simpl; by rewrite Hseq).
  constructor; [done|lia|by apply Forall_app_2; [|constructor]|by apply seqs_snoc|].
  apply (holds_snoc (byte_at b)); try done; rewrite <-?Hcur; simpl; try lia.
  - intros o Ho Ho'. rewrite B2. unfold overlay. rewrite length_app. unfold h. rewrite length_hdr_bytes.
    destruct (g_wal_cursor w <=? o) eqn:E1, (o <? g_wal_cursor w + Z.of_nat (24 + length p)) eqn:E2; simpl; bool_to_prop; lia || done.
  - rewrite (slice_ext _ _ _ _ (fun o _ => B2 o)).
    rewrite <-(slice_0_take _ _ (length (h ++ p))) by (rewrite length_app; unfold h; rewrite length_hdr_bytes; lia).
    rewrite slice_overlay, Hh, <-(length_hdr_bytes (fr_hdr (next_frame st.1 kind p))). apply take_app_length.
  - rewrite (slice_ext _ _ _ _ (fun o _ => B2 o)).
    pose proof (slice_overlay (byte_at b) (g_wal_cursor w) (h ++ p)) as Hs. rewrite length_app in Hs. unfold h in Hs at 2.
    rewrite length_hdr_bytes, slice_app in Hs. apply app_inj_1 in Hs as [_ Hs]; [done|]. rewrite length_slice. unfold h. by rewrite length_hdr_bytes.
Qed.

(** ** Simulation *)

Lemma ck_bytes_ok c : Forall is_byte (ck_bytes c).
Proof. unfold ck_bytes. repeat apply Forall_app_2; apply le_bytes_byte. Qed.

Lemma length_ck_bytes c : length (ck_bytes c) = 24%nat.
Proof. unfold ck_bytes. by rewrite !length_app, !length_le_bytes. Qed.

Lemma ck_bytes_cons c : bool_decide (ck_bytes c = []) = false.
Proof. by apply bool_decide_eq_false. Qed.

Lemma log_payload_S d kind p (w : wal B) :
  log_payload_at (S d) kind p w
  = match g_storage w with
    | None => (-22, w)
    | Some b =>
        if bool_decide (p = []) then (-22, w)
        else let '(rc, w) := wal_frame w b WAL_END kind p in
             if rc <? 0 then (rc, w)
             else (0, wal_maybe_checkpoint (log_payload_at d SOTFS_WAL_KIND_CHECKPOINT) w)
    end.
Proof. reflexivity. Qed.

(** The frame a checkpoint call writes, the flag being set. *)
Lemma checkpoint_call d w b l n :
  wal_rel w b (l, n) -> g_in_checkpoint w = true ->
  fits (l ++ [next_frame l SOTFS_WAL_KIND_CHECKPOINT (checkpoint_after l)]) ->
  exists b', (log_payload_at (S d) SOTFS_WAL_KIND_CHECKPOINT (ck_bytes (mk_ck (g_wal_seq w) 0 0 (g_wal_seq w))) w).2
      = mk_wal (Some b') (SOTFS_WAL_OFFSET + log_size (l ++ [next_frame l SOTFS_WAL_KIND_CHECKPOINT (checkpoint_after l)]))
          (Z.of_nat (length l) + 2) n true (g_audit w)
    /\ carries b' (l ++ [next_frame l SOTFS_WAL_KIND_CHECKPOINT (checkpoint_after l)]).
Proof.
  intros R Hin Hf. rewrite log_payload_S, (wr_storage _ _ _ R), ck_bytes_cons.
  rewrite (wr_seq _ _ _ R). simpl fst. fold (checkpoint_after l).
  destruct (frame_rel w b (l, n) WAL_END SOTFS_WAL_KIND_CHECKPOINT (checkpoint_after l)) as (b'&->&C');
    [done|vm_compute; split; discriminate || reflexivity|apply ck_bytes_ok|done|lia|].
  exists b'. split; [|done]. simpl. unfold wal_maybe_checkpoint. simpl. rewrite Hin. f_equal. apply (wr_since _ _ _ R).
Qed.

(** The counter and the checkpoint behind a frame. *)
Lemma maybe_checkpoint_rel d w b l n :
  wal_rel w b (l, n) -> g_in_checkpoint w = false -> 0 <= n < SOTFS_WAL_CHECKPOINT_INTERVAL ->
  let ck := next_frame l SOTFS_WAL_KIND_CHECKPOINT (checkpoint_after l) in
  let st' := if n + 1 <? SOTFS_WAL_CHECKPOINT_INTERVAL then (l, n + 1) else (l ++ [ck], 0) in
  fits st'.1 ->
  let w' := wal_maybe_checkpoint (log_payload_at (S d) SOTFS_WAL_KIND_CHECKPOINT) w in
  (exists b', wal_rel w' b' st') /\ g_in_checkpoint w' = false /\ g_audit w' = g_audit w.
Proof.
  intros R Hin Hn. cbv zeta. unfold wal_maybe_checkpoint. rewrite Hin, (wr_since _ _ _ R). change ((l, n).2) with n.
  assert (SOTFS_WAL_CHECKPOINT_INTERVAL = 4096) as HI by done. rewrite u32_small by lia.
  destruct (n + 1 <? SOTFS_WAL_CHECKPOINT_INTERVAL) eqn:E; intros Hf.
  { split; [|done]. exists b. destruct R. by constructor. }
  destruct (checkpoint_call d (set_in_checkpoint (set_since w 0) true) b l 0) as (b'&E'&C'); [destruct R; by constructor|done|done|].
  simpl g_wal_seq in E'. cbv zeta. rewrite E'. split; [|done]. exists b'. constructor; simpl; try done.
  rewrite length_app. simpl. lia.
Qed.

Record ready (w : wal B) (b : B) (st : list frame * Z) : Prop := {
  rd_rel : wal_rel w b st;
  rd_flag : g_in_checkpoint w = false;
  rd_since : 0 <= st.2 < SOTFS_WAL_CHECKPOINT_INTERVAL;
}.

(** Both append paths: frame the payload, then look at the counter. *)
Lemma call_rel d w b st cap kind p :
  ready w b st -> 0 <= kind < 2 ^ 32 -> Forall is_byte p -> WAL_END <= cap -> fits (put st kind p).1 ->
  exists w1, wal_frame w b cap kind p = (0, w1)
    /\ let w' := wal_maybe_checkpoint (log_payload_at (S d) SOTFS_WAL_KIND_CHECKPOINT) w1 in
       g_audit w' = g_audit w /\ exists b', ready w' b' (put st kind p).
Proof.
  intros [R Hin Hn] Hk Hp Hcap Hf. set (l1 := st.1 ++ [next_frame st.1 kind p]).
  assert (fits l1) as Hf1.
  { unfold put in Hf. fold l1 in Hf. unfold fits in *. destruct (st.2 + 1 <? _); simpl in Hf; [done|]. rewrite log_size_snoc in Hf. simpl in Hf. lia. }
  destruct (frame_rel w b st cap kind p R Hk Hp Hf1 Hcap) as (b1&Ef&C1). eexists. split; [exact Ef|].
  destruct (maybe_checkpoint_rel d (mk_wal (Some b1) (SOTFS_WAL_OFFSET + log_size l1) (Z.of_nat (length st.1) + 2)
      (g_records_since_checkpoint w) (g_in_checkpoint w) (g_audit w)) b1 l1 st.2) as ((b'&R')&Hin'&Ha'); try done.
  { constructor; simpl; try done; [|apply (wr_since _ _ _ R)]. unfold l1. rewrite length_app. simpl. lia. }
  cbv zeta. split; [done|]. exists b'. constructor; [exact R'|done|]. unfold put. destruct (st.2 + 1 <? SOTFS_WAL_CHECKPOINT_INTERVAL) eqn:E; simpl; [bool_to_prop; lia|].
  split; [lia|done].
Qed.

Lemma exec_rel w b st op :
  ready w b st -> wal_op_ok op -> fits (put_op st op).1 ->
  (wal_exec w op).1 = 0 /\ g_audit (wal_exec w op).2 = g_audit w /\ exists b', ready (wal_exec w op).2 b' (put_op st op).
Proof.
  intros Rd Hop Hf. pose proof (wr_storage _ _ _ (rd_rel _ _ _ Rd)) as Hst. pose proof (ca_cap _ _ (wr_carries _ _ _ (rd_rel _ _ _ Rd))) as Hcap.
  destruct op as [r|kind p]; simpl in *.
  - destruct (call_rel 1 w b st (capacity_bytes b) (r_kind r) (rec_bytes r) Rd) as (w1&E1&Ha&Hb); [pose proof (rw_kind _ (proj1 Hop)); lia|by apply rec_bytes_byte, Hop|done|done|].
    unfold sotfs_wal_append. rewrite Hst, E1. done.
  - destruct Hop as (Hk&Hne&Hp). destruct (call_rel 0 w b st WAL_END kind p Rd) as (w1&E1&Ha&Hb); [unfold SOTFS_WAL_KIND_PROCD_MUT in Hk; lia|done|lia|done|].
    unfold sotfs_wal_log_payload. rewrite log_payload_S, Hst, (proj2 (bool_decide_eq_false _)) by done. rewrite E1. done.
Qed.

Lemma exec_all_rel w b st ops :
  ready w b st -> Forall wal_op_ok ops -> fits (fold_left put_op ops st).1 ->
  (wal_exec_all w ops).1 = replicate (length ops) 0 /\ g_audit (wal_exec_all w ops).2 = g_audit w
  /\ exists b', ready (wal_exec_all w ops).2 b' (fold_left put_op ops st).
Proof.
  intros R Hops. revert w b st R. induction Hops as [|op ops Hop Hops IH]; intros w b st R Hf; simpl in *; [eauto|].
  destruct (exec_rel w b st op R Hop) as (E0&Ea&b1&R1); [by eapply fits_foldl|].
  destruct (wal_exec w op) as [r w1]. simpl in *. destruct (IH w1 b1 (put_op st op) R1 Hf) as (E1&Ea1&Hb).
  destruct (wal_exec_all w1 ops) as [rs w2]. simpl in *. split_and!; [by rewrite E0, E1|congruence|done].
Qed.

(** A WAL attached to an empty region, the counter below the interval. *)
Lemma init_ready w b :
  storage_wf b -> WAL_END <= capacity_bytes b -> (forall o, SOTFS_WAL_OFFSET <= o < WAL_END -> byte_at b o = 0) ->
  g_in_checkpoint w = false -> 0 <= g_records_since_checkpoint w < SOTFS_WAL_CHECKPOINT_INTERVAL ->
  ready (sotfs_wal_init w b) b ([], g_records_since_checkpoint w).
Proof.
  intros Wb Hcap Hz Hin Hn. constructor; [|done|done]. constructor; try done.
Qed.

(** ** What a scan of the log sees *)

Lemma read_ok b l : carries b l -> forall o n, SOTFS_WAL_OFFSET <= o -> (0 < n)%nat -> o + Z.of_nat n <= WAL_END ->
  exists rc, 0 <= rc /\ read_block b o n = (rc, slice (byte_at b) o n).
Proof.
  intros C o n Ho Hn Hon. pose proof WAL_END_small. assert (0 < SOTFS_WAL_OFFSET) by (vm_compute; reflexivity).
  exists (i32 (Z.of_nat n)). split; [apply Z.ltb_ge, i32_nonneg; lia|].
  apply read_block_spec; [apply C|lia|]. pose proof (ca_cap _ _ C). lia.
Qed.

Lemma storage_read_ok w b l : carries b l -> g_storage w = Some b -> forall o n, SOTFS_WAL_OFFSET <= o -> (0 < n)%nat -> o + Z.of_nat n <= WAL_END ->
  sotfs_storage_read w o n = (0, slice (byte_at b) o n).
Proof.
  intros C Hst o n Ho Hn Hon. pose proof WAL_END_small. assert (0 < SOTFS_WAL_OFFSET) by (vm_compute; reflexivity).
  unfold sotfs_storage_read. rewrite Hst. rewrite (proj2 (Nat.eqb_neq n 0)) by lia.
  rewrite read_block_spec; [|apply C|lia|pose proof (ca_cap _ _ C); lia]. rewrite i32_nonneg by lia.
  unfold i32. rewrite (u32_small (Z.of_nat n)) by lia. rewrite (proj2 (Z.ltb_lt _ _)) by lia. by rewrite u32_small, Z.eqb_refl by lia.
Qed.

(** A scan whose body depends on a frame only through its content. *)
Lemma scan_frames {A} b l read (body : A -> Z -> sotfs_wal_v2_header -> A) (step : A -> frame -> A) acc :
  carries b l ->
  (forall o n, SOTFS_WAL_OFFSET <= o -> (0 < n)%nat -> o + Z.of_nat n <= WAL_END ->
     exists rc, 0 <= rc /\ read o n = (rc, slice (byte_at b) o n)) ->
  (forall a o x, frame_ok x -> SOTFS_WAL_OFFSET <= o -> o + h_len (fr_hdr x) <= WAL_END ->
     slice (byte_at b) (o + 24) (length (fr_payload x)) = fr_payload x -> body a o (fr_hdr x) = step a x) ->
  wal_scan read body scan_fuel SOTFS_WAL_OFFSET acc = (SOTFS_WAL_OFFSET + log_size l, fold_left step l acc).
Proof.
  intros C Hr Hb. destruct C as [_ _ Fl _ Hl].
  rewrite (scan_log read body (byte_at b) l) by (done || by eapply scan_fuel_log). f_equal.
  assert (SOTFS_WAL_OFFSET <= SOTFS_WAL_OFFSET) as Ho by lia. revert Hl Ho.
  generalize SOTFS_WAL_OFFSET at 1 3 4 as off. clear Hr.
  induction Fl as [|x l Fx Fl IH] in acc |- *; intros off Hl Ho; simpl; [done|]. destruct Hl as (H1&H2&H3).
  pose proof (holds_end _ _ _ H3). pose proof (log_size_nonneg _ Fl). pose proof (fo_len _ Fx).
  rewrite (Hb acc off x) by (done || lia). apply IH; [done|lia].
Qed.
End sim.
