(* ===== verification/WalTheorems.v ===== *)
(** * Theorems on the write-ahead log

    Durability of the log ([wal_durable]), replay after a reboot
    ([wal_replay_restores], [fs_survives_reboot]), torn records
    ([torn_record_skipped]), the checkpoints ([checkpoint_cadence]), the region
    bounds of the two append paths ([payload_stays_in_region],
    [append_overruns_region]) and what replay loses ([long_write_truncated]). *)

From S2P Require Import Prelude Crc64 Storage Blkdev BlkdevTheorems BlockStore Graph Rewrite FsInv FsSpec FsTheorems FileIO FileIOSpec FileIOTheorems Wal WalSpec.
Import Layout.

(** The frames on the medium, as a scan of the region reads them. *)
Definition dump_frame {B} `{StorageOps B} (w : wal B) (a : list frame) (off : Z) (hdr : sotfs_wal_v2_header) : list frame :=
  a ++ [mk_frame hdr (sotfs_storage_read w (off + 24) (Z.to_nat (h_len hdr - 24))).2].
Definition wal_dump {B} `{StorageOps B} (w : wal B) : list frame :=
  (wal_scan (sotfs_storage_read w) (dump_frame w) scan_fuel SOTFS_WAL_OFFSET []).2.

Lemma fold_left_snoc {A} (l a : list A) : fold_left (fun a x => a ++ [x]) l a = a ++ l.
Proof. revert a. induction l as [|x l IH]; intros a; simpl; [by rewrite app_nil_r|]. by rewrite IH, <-app_assoc. Qed.

(** ** Replay as a fold over frames *)

Section frames.
Context {S : Type} `{BlockStore S}.

Definition replay_step (a : replay S) (x : frame) : replay S :=
  let '(mk_replay g s applied torn _ audit) := a in
  let seq := h_seq (fr_hdr x) in
  if h_kind (fr_hdr x) >=? SOTFS_WAL_KIND_PROCD_MUT then mk_replay g s applied torn seq audit
  else if h_len (fr_hdr x) - 24 =? Z.of_nat rec_size then
    if sotfs_crc64 (fr_payload x) =? h_crc64 (fr_hdr x) then
      let '(ar, g, s) := apply_record g s (rec_of (fr_payload x)) in
      mk_replay g s (if 0 <=? ar then u32 (applied + 1) else applied) torn seq audit
    else mk_replay g s applied (u32 (torn + 1)) seq ((SOTGUARD_KIND_WAL_TORN_RECORD, seq) :: audit)
  else mk_replay g s applied torn seq audit.

(** Applying records one after the other, counting the successes. *)
Definition apply_one (a : Z * sotfs_graph * S) (r : sotfs_wal_record) : Z * sotfs_graph * S :=
  let '(n, g, s) := a in
  let '(ar, g, s) := apply_record g s r in (if 0 <=? ar then u32 (n + 1) else n, g, s).
Definition apply_all (g : sotfs_graph) (s : S) (rs : list sotfs_wal_record) : Z * sotfs_graph * S :=
  fold_left apply_one rs (0, g, s).
End frames.

Definition op_record (op : wal_op) : option sotfs_wal_record :=
  match op with WAppend r => Some r | WLog _ _ => None end.
Definition records (ops : list wal_op) : list sotfs_wal_record := omap op_record ops.

(** The log of [ops] from an empty one with counter [n]. *)
Definition log_of (n : Z) (ops : list wal_op) : list frame := (fold_left put_op ops ([], n)).1.

Section replay.
Context {S : Type} `{BlockStore S}.
Implicit Types (a : replay S) (l : list frame).

Definition progress a : Z * sotfs_graph * S := (rp_applied a, rp_graph a, rp_store a).

Lemma replay_step_skip a x :
  SOTFS_WAL_KIND_PROCD_MUT <= h_kind (fr_hdr x) ->
  progress (replay_step a x) = progress a /\ rp_audit (replay_step a x) = rp_audit a.
Proof.
  intros H1. destruct a. unfold replay_step. rewrite Z.geb_leb, (proj2 (Z.leb_le _ _)) by done. done.
Qed.

Lemma replay_step_seq a x : rp_last_seq (replay_step a x) = h_seq (fr_hdr x).
Proof. destruct a. unfold replay_step. repeat split_goal; done. Qed.

Lemma replay_step_record a x r :
  rec_wf r -> r_kind r < SOTFS_WAL_KIND_PROCD_MUT -> fr_payload x = rec_bytes r -> h_kind (fr_hdr x) = r_kind r ->
  h_len (fr_hdr x) = 24 + Z.of_nat (length (fr_payload x)) -> h_crc64 (fr_hdr x) = sotfs_crc64 (rec_bytes r) ->
  progress (replay_step a x) = apply_one (progress a) r /\ rp_audit (replay_step a x) = rp_audit a.
Proof.
  intros W Hk Hp Hh Hl Hc. destruct a as [g s n t q u]. unfold replay_step, progress, apply_one. rewrite Hh, Z.geb_leb, (proj2 (Z.leb_gt _ _)) by done.
  rewrite Hl, Hp, (length_rec_bytes _ W). rewrite (proj2 (Z.eqb_eq _ (Z.of_nat rec_size))) by lia. rewrite Hc, Z.eqb_refl.
  simpl rp_applied. simpl rp_graph. simpl rp_store. rewrite rec_of_bytes by done. by destruct (apply_record g s r) as [[ar g'] s'].
Qed.

(** Two accumulators that agree but for the last sequence number stay so. *)
Lemma next_frame_record a l r :
  rec_wf r -> r_kind r < SOTFS_WAL_KIND_PROCD_MUT ->
  let a' := replay_step a (next_frame l (r_kind r) (rec_bytes r)) in
  progress a' = apply_one (progress a) r /\ rp_audit a' = rp_audit a.
Proof. intros W Hk. by apply replay_step_record. Qed.

Lemma replay_put a st kind p :
  exists l', (put st kind p).1 = st.1 ++ next_frame st.1 kind p :: l'
    /\ let a' := fold_left replay_step l' a in progress a' = progress a /\ rp_audit a' = rp_audit a.
Proof.
  unfold put. destruct (st.2 + 1 <? _); simpl.
  - by exists [].
  - eexists. rewrite <-app_assoc. split; [done|]. simpl. apply replay_step_skip. vm_compute. discriminate.
Qed.

Lemma replay_put_op a st op :
  wal_op_ok op ->
  exists l', (put_op st op).1 = st.1 ++ l'
    /\ let a' := fold_left replay_step l' a in
       progress a' = fold_left apply_one (records [op]) (progress a) /\ rp_audit a' = rp_audit a.
Proof.
  destruct op as [r|kind p]; simpl.
  - intros [W Hk]. destruct (next_frame_record a st.1 r W Hk) as [E1 E2].
    destruct (replay_put (replay_step a (next_frame st.1 (r_kind r) (rec_bytes r))) st (r_kind r) (rec_bytes r)) as (l'&El&E3&E4).
    eexists. split; [exact El|]. simpl. by rewrite E3, E4, E1, E2.
  - intros (Hk&_). destruct (replay_step_skip a (next_frame st.1 kind p)) as [E1 E2]; [apply Hk|].
    destruct (replay_put (replay_step a (next_frame st.1 kind p)) st kind p) as (l'&El&E3&E4).
    eexists. split; [exact El|]. simpl. by rewrite E3, E4, E1, E2.
Qed.

Lemma replay_ops a st ops :
  Forall wal_op_ok ops ->
  exists l', (fold_left put_op ops st).1 = st.1 ++ l'
    /\ let a' := fold_left replay_step l' a in
       progress a' = fold_left apply_one (records ops) (progress a) /\ rp_audit a' = rp_audit a.
Proof.
  intros Hops. revert a st. induction Hops as [|op ops Hop Hops IH]; intros a st.
  { exists []. by rewrite app_nil_r. }
  destruct (replay_put_op a st op Hop) as (l1&E1&P1&A1). destruct (IH (fold_left replay_step l1 a) (put_op st op)) as (l2&E2&P2&A2).
  exists (l1 ++ l2). simpl fold_left. rewrite E2, E1, app_assoc. split; [done|]. cbv zeta. rewrite fold_left_app, P2, A2, P1, A1.
  split; [|done]. destruct op; reflexivity.
Qed.

(** Logging only adds frames. *)
Lemma replay_extend st ops : exists l', (fold_left put_op ops st).1 = st.1 ++ l'.
Proof.
  assert (forall st op, exists l', (put_op st op).1 = st.1 ++ l') as Hone.
  { intros st' op. assert (forall kind p, exists l', (put st' kind p).1 = st'.1 ++ l') as Hp.
    { intros kind p. unfold put. destruct (st'.2 + 1 <? _); simpl; [eauto|]. rewrite <-app_assoc. eauto. }
    destruct op; apply Hp. }
  revert st. induction ops as [|op ops IH]; intros st; simpl; [exists []; by rewrite app_nil_r|].
  destruct (IH (put_op st op)) as (l2&->). destruct (Hone st op) as (l1&->). rewrite <-app_assoc. eauto.
Qed.

Lemma replay_last_seq a l : seqs_ok l -> l <> [] -> rp_last_seq (fold_left replay_step l a) = Z.of_nat (length l).
Proof.
  intros Hs Hne. destruct l as [|x l] using rev_ind; [done|]. clear IHl. rewrite fold_left_app. simpl. rewrite replay_step_seq.
  rewrite (Hs (length l) x) by (by rewrite lookup_app_r, Nat.sub_diag by lia). rewrite length_app. simpl. lia.
Qed.
End replay.

Section theorems.
Context {B : Type} `{StorageLaws B} {S : Type} `{BlockStore S}.
Implicit Types (w : wal B) (b : B) (g : sotfs_graph) (s : S).

(** A medium with an empty WAL region, attached while no checkpoint is being
    written. *)
Record blank_log w b : Prop := {
  bl_wf : storage_wf b;
  bl_cap : WAL_END <= capacity_bytes b;
  bl_zero o : SOTFS_WAL_OFFSET <= o < WAL_END -> byte_at b o = 0;
  bl_flag : g_in_checkpoint w = false;
  bl_since : 0 <= g_records_since_checkpoint w < SOTFS_WAL_CHECKPOINT_INTERVAL;
}.

Lemma blank_ready w b : blank_log w b -> ready (sotfs_wal_init w b) b ([], g_records_since_checkpoint w).
Proof. intros []. by apply init_ready. Qed.

Lemma dump_log w b l : carries b l -> g_storage w = Some b -> wal_dump w = l.
Proof.
  intros C Hst. unfold wal_dump. rewrite (scan_frames b l _ _ (fun a x => a ++ [x])); [simpl|done| |].
  - apply (fold_left_snoc l []).
  - intros o n Ho Hn Hon. exists 0. split; [lia|]. by eapply storage_read_ok.
  - intros a o x Fx Ho Ho' Hs. unfold dump_frame. do 2 f_equal. destruct x as [h p]. simpl in *. f_equal. pose proof (fo_len _ Fx) as Hl. simpl in Hl.
    replace (Z.to_nat (h_len h - 24)) with (length p) by lia. destruct p as [|z p].
    { unfold sotfs_storage_read. by rewrite Hst. }
    rewrite (storage_read_ok w b l) by (done || (rewrite ?Hl in Ho'; simpl in *; lia)). done.
Qed.

(** Replaying a medium is folding over its frames. *)
Lemma replay_log w b l g s :
  carries b l -> g_storage w = Some b -> g_wal_seq w = 1 ->
  let a := fold_left replay_step l (mk_replay g s 0 0 0 (g_audit w)) in
  sotfs_wal_replay_files w g s
  = (i32 (rp_applied a), rp_graph a, rp_store a,
     set_audit (set_position w (SOTFS_WAL_OFFSET + log_size l) (Z.of_nat (length l) + 1)) (rp_audit a)).
Proof.
  intros C Hst Hseq. cbv zeta. unfold sotfs_wal_replay_files. rewrite Hst.
  rewrite (scan_frames b l _ _ replay_step); [|done|by eapply read_ok|].
  - do 4 f_equal. rewrite Hseq, Z.geb_leb. destruct (decide (l = [])) as [->|Hne]; [done|].
    rewrite replay_last_seq by (done || apply C). pose proof (log_size_nonneg _ (ca_frames _ _ C)). pose proof (carries_fits _ _ C) as Hf. unfold fits in Hf.
    pose proof WAL_END_small. assert (0 < SOTFS_WAL_OFFSET) by (vm_compute; reflexivity).
    assert (0 < length l)%nat by (destruct l; simpl; [done|lia]). rewrite (proj2 (Z.leb_le 1 _)) by lia. apply u64_small. split; [lia|].
    apply Z.lt_trans with (2 ^ 30); [lia|]. by apply Z.pow_lt_mono_r.
  - intros [g' s' n t q u] o x Fx Ho Ho' Hs. unfold replay_frame, replay_step. destruct (h_kind (fr_hdr x) >=? _); [done|].
    destruct (h_len (fr_hdr x) - 24 =? Z.of_nat rec_size) eqn:E; [|done]. bool_to_prop. pose proof (fo_len _ Fx).
    assert (length (fr_payload x) = rec_size) as Hlp by lia. rewrite Hlp in Hs.
    destruct (read_ok b l C (o + 24) rec_size) as (rc&Hrc&->); [lia|unfold rec_size; lia|lia|]. rewrite Hs, (proj2 (Z.leb_le 0 rc)) by done. done.
Qed.

(** The state after a run of logging calls on a blank region. *)
Lemma run_ready w b ops :
  blank_log w b -> Forall wal_op_ok ops -> fits (log_of (g_records_since_checkpoint w) ops) ->
  let run := wal_exec_all (sotfs_wal_init w b) ops in
  run.1 = replicate (length ops) 0 /\ g_audit run.2 = g_audit w
  /\ exists b', ready run.2 b' (fold_left put_op ops ([], g_records_since_checkpoint w)).
Proof. intros Hb Hops Hf. exact (exec_all_rel _ b _ ops (blank_ready w b Hb) Hops Hf). Qed.

(** C5: the log is durable and complete.  On a blank WAL region, as long as the
    frames fit, every append and every payload write succeeds and a scan of the
    region afterwards reads back exactly the frames that were logged, in order,
    with consecutive sequence numbers, their checksums and the periodic
    checkpoints; cursor and sequence counter point behind the last one. *)
Theorem wal_durable w b (ops : list wal_op) :
  blank_log w b -> Forall wal_op_ok ops ->
  let l := log_of (g_records_since_checkpoint w) ops in
  fits l ->
  let '(rs, w') := wal_exec_all (sotfs_wal_init w b) ops in
  rs = replicate (length ops) 0 /\ wal_dump w' = l
  /\ g_wal_cursor w' = SOTFS_WAL_OFFSET + log_size l /\ g_wal_seq w' = Z.of_nat (length l) + 1.
Proof.
  intros Hb Hops l Hf. destruct (run_ready w b ops Hb Hops Hf) as (Er&_&b'&[[Hst C Hc Hq _] _ _]).
  destruct (wal_exec_all (sotfs_wal_init w b) ops) as [rs w']. split_and!; try done. by eapply dump_log.
Qed.

Lemma replay_run w b ops w1 g s :
  blank_log w b -> Forall wal_op_ok ops -> fits (log_of (g_records_since_checkpoint w) ops) ->
  let w' := (wal_exec_all (sotfs_wal_init w b) ops).2 in
  exists b', g_storage w' = Some b'
    /\ let '(n, g', s') := apply_all g s (records ops) in
       sotfs_wal_replay_files (sotfs_wal_init w1 b') g s
       = (i32 n, g', s', set_position (sotfs_wal_init w1 b') (g_wal_cursor w') (g_wal_seq w')).
Proof.
  intros Hb Hops Hf. cbv zeta. destruct (run_ready w b ops Hb Hops Hf) as (_&_&b'&[[Hst C Hc Hq _] _ _]). exists b'. split; [done|].
  destruct (replay_ops (mk_replay g s 0 0 0 (g_audit w1)) ([], g_records_since_checkpoint w) ops Hops) as (l&El&Ep&Ea).
  unfold apply_all. change (0, g, s) with (progress (mk_replay g s 0 0 0 (g_audit w1))). rewrite <-Ep. unfold progress at 1.
  rewrite El in C, Hc, Hq. rewrite (replay_log (sotfs_wal_init w1 b') b' l); try done. rewrite Hc, Hq. unfold set_audit, set_position. simpl.
  by rewrite Ea.
Qed.

(** Replay after a reboot.  Whatever was logged before, attaching the medium
    again and replaying it applies exactly the file-system records that were
    appended, in their order, to the graph it is given, and puts cursor and
    sequence counter back where they were: the next append continues the log. *)
Theorem wal_replay_restores w b (ops : list wal_op) w1 g s :
  blank_log w b -> Forall wal_op_ok ops -> fits (log_of (g_records_since_checkpoint w) ops) ->
  let w' := (wal_exec_all (sotfs_wal_init w b) ops).2 in
  exists b', g_storage w' = Some b'
    /\ let '(n, g', s') := apply_all g s (records ops) in
       sotfs_wal_replay_files (sotfs_wal_init w1 b') g s
       = (i32 n, g', s', set_position (sotfs_wal_init w1 b') (g_wal_cursor w') (g_wal_seq w')).
Proof. apply replay_run. Qed.

(** ** The namespace across a reboot *)

(** The record the emitter of an operation appends; opening and closing are not
    logged. *)
Definition op_logged (tx tsc : Z) (op : fs_op) : option sotfs_wal_record :=
  match op with
  | OpCreate kind p n mode => Some (if bool_decide (kind = KIND_DIR) then mkdir_record tx tsc p n mode else create_record tx tsc p n mode)
  | OpUnlink p n => Some (unlink_record tx tsc p n)
  | OpRmdir p n => Some (rmdir_record tx tsc p n)
  | OpRename ps n pd m => Some (rename_record tx tsc ps n pd m)
  | OpOpen _ | OpClose _ => None
  end.

(** An operation of the live system: the rewrite, then its log record if it
    succeeded. *)
Definition live_step (gw : sotfs_graph * wal B) (t : Z * Z * fs_op) : Z * (sotfs_graph * wal B) :=
  let '(tx, tsc, op) := t in
  let '(g, w) := gw in
  let '(r, g') := fs_exec g op in
  if r <? 0 then (r, (g', w))
  else (r, (g', match op with
                | OpCreate kind p n mode =>
                    if bool_decide (kind = KIND_DIR) then sotfs_wal_log_mkdir w tx tsc p n mode
                    else sotfs_wal_log_create_file w tx tsc p n mode
                | OpUnlink p n => sotfs_wal_log_unlink w tx tsc p n
                | OpRmdir p n => sotfs_wal_log_rmdir w tx tsc p n
                | OpRename ps n pd m => sotfs_wal_log_rename w tx tsc ps n pd m
                | OpOpen _ | OpClose _ => w
                end)).

Fixpoint live_run (gw : sotfs_graph * wal B) (ts : list (Z * Z * fs_op)) : list Z * (sotfs_graph * wal B) :=
  match ts with
  | [] => ([], gw)
  | t :: ts' => let '(r, gw) := live_step gw t in let '(rs, gw) := live_run gw ts' in (r :: rs, gw)
  end.

Definition byte_name (n : list Z) : Prop := leaf_name n /\ Forall is_byte n.
Definition is_i32 (z : Z) : Prop := - 2 ^ 31 <= z < 2 ^ 31.

(** C types of the arguments: names are C strings that fit a record. *)
Definition loggable (t : Z * Z * fs_op) : Prop :=
  let '(tx, tsc, op) := t in
  0 <= tx < 2 ^ 64 /\ 0 <= tsc < 2 ^ 64 /\
  match op with
  | OpCreate kind p n mode => (kind = KIND_FILE \/ kind = KIND_DIR) /\ is_i32 p /\ byte_name n /\ 0 <= mode < 2 ^ 32
  | OpUnlink p n | OpRmdir p n => is_i32 p /\ byte_name n
  | OpRename ps n pd m => is_i32 ps /\ is_i32 pd /\ byte_name n /\ byte_name m
  | OpOpen _ | OpClose _ => False
  end.

Definition live_records (ts : list (Z * Z * fs_op)) : list sotfs_wal_record := omap (fun '(tx, tsc, op) => op_logged tx tsc op) ts.
End theorems.

(** ** Names and blobs in a record *)

Lemma length_char_buf n s : (0 < n)%nat -> length (char_buf n s) = n.
Proof. intros Hn. unfold char_buf. rewrite length_app, length_replicate, length_take. lia. Qed.

Lemma length_blob_buf d : length (blob_buf d) = 512%nat.
Proof. unfold blob_buf, SOTFS_WAL_MAX_BLOB. rewrite length_app, length_replicate, length_take. lia. Qed.

Lemma char_buf_byte n s : Forall is_byte s -> Forall is_byte (char_buf n s).
Proof. intros Hs. unfold char_buf. apply Forall_app_2; [by apply Forall_take|]. apply Forall_replicate. unfold is_byte. lia. Qed.

Lemma blob_buf_byte d : Forall is_byte d -> Forall is_byte (blob_buf d).
Proof. intros Hs. unfold blob_buf. apply Forall_app_2; [by apply Forall_take|]. apply Forall_replicate. unfold is_byte. lia. Qed.

(** A name that fits is read back whole, whatever follows the array. *)
Lemma c_str_char_buf s rest : leaf_name s -> c_str (char_buf SOTFS_WAL_NAME_BYTES s ++ rest) = s.
Proof.
  intros [Hs Hl]. unfold char_buf, SOTFS_WAL_NAME_BYTES, SOTFS_MAX_NAME in *. rewrite take_ge by lia.
  destruct (128 - length s)%nat as [|k] eqn:E; [lia|]. rewrite replicate_S, <-app_assoc. by apply c_str_app.
Qed.

Lemma c_str_zero n s : (0 < n)%nat -> c_str (replicate n 0 ++ s) = [].
Proof. destruct n; [lia|]. by rewrite replicate_S. Qed.

Lemma prep_header_wf kind tx tsc parent target new_parent mode offset blob_len name name2 data :
  0 <= kind < 2 ^ 16 -> 0 <= tx < 2 ^ 64 -> 0 <= tsc < 2 ^ 64 -> is_i32 parent -> is_i32 target -> is_i32 new_parent ->
  0 <= mode < 2 ^ 32 -> 0 <= offset < 2 ^ 32 -> 0 <= blob_len < 2 ^ 32 ->
  Forall is_byte name -> Forall is_byte name2 -> Forall is_byte data ->
  rec_wf (prep_header kind tx tsc parent target new_parent mode offset blob_len name name2 data).
Proof.
  intros Hk Htx Hts Hp Ht Hn Hm Ho Hb N1 N2 D. unfold prep_header. constructor; cbn [r_magic r_length r_tx_id r_timestamp r_kind r_reserved
    r_parent_id r_target_id r_new_parent_id r_mode r_offset r_blob_len r_name r_name2 r_blob]; try assumption;
    [unfold SOTFS_WAL_MAGIC; lia|unfold rec_size; lia|lia|apply length_char_buf; unfold SOTFS_WAL_NAME_BYTES; lia
    |apply length_char_buf; unfold SOTFS_WAL_NAME_BYTES; lia|apply length_blob_buf|].
  apply Forall_app_2; [by apply char_buf_byte|]. apply Forall_app_2; [by apply char_buf_byte|by apply blob_buf_byte].
Qed.

Lemma op_logged_wf tx tsc op r : loggable (tx, tsc, op) -> op_logged tx tsc op = Some r -> rec_wf r /\ r_kind r < SOTFS_WAL_KIND_PROCD_MUT.
Proof.
  assert (is_i32 0) as Z0 by (unfold is_i32; lia).
  assert (forall n, byte_name n -> 0 <= Z.of_nat (length (take (SOTFS_WAL_NAME_BYTES - 1) n)) < 2 ^ 32) as Hlen.
  { intros n _. rewrite length_take. unfold SOTFS_WAL_NAME_BYTES. lia. }
  unfold loggable. intros (Htx&Hts&Hop) E. destruct op as [kind p n mode|p n|p n|ps n pd m|k|k]; simpl in E; simplify_eq.
  - destruct Hop as (_&Hp&Hn&Hm). pose proof (Hlen n Hn). destruct Hn as [_ Hn].
    destruct (bool_decide (kind = KIND_DIR)); (split; [apply prep_header_wf; try assumption; try (constructor); lia|vm_compute; reflexivity]).
  - destruct Hop as (Hp&_&Hn). split; [apply prep_header_wf; try assumption; try constructor; lia|vm_compute; reflexivity].
  - destruct Hop as (Hp&_&Hn). split; [apply prep_header_wf; try assumption; try constructor; lia|vm_compute; reflexivity].
  - destruct Hop as (Hp&Hq&[_ Hn]&[_ Hm]). split; [apply prep_header_wf; try assumption; try constructor; lia|vm_compute; reflexivity].
Qed.

(** Replaying the record of an operation performs the operation. *)
Lemma apply_logged {S} `{BlockStore S} g (s : S) tx tsc op r :
  loggable (tx, tsc, op) -> op_logged tx tsc op = Some r ->
  apply_record g s r = ((fs_exec g op).1, (fs_exec g op).2, s).
Proof.
  unfold loggable. intros (_&_&Hop) E. destruct op as [kind p n mode|p n|p n|ps n pd m|k|k]; simpl in E; simplify_eq.
  - destruct Hop as (_&_&[Hn _]&_). simpl fs_exec. destruct (bool_decide (kind = KIND_DIR)); unfold apply_record, rec_name; cbn [r_kind create_record mkdir_record prep_header r_name r_name2 r_blob r_parent_id r_mode];
      rewrite c_str_char_buf by done; done.
  - destruct Hop as (_&[Hn _]). unfold apply_record, rec_name; cbn [r_kind unlink_record prep_header r_name r_name2 r_blob r_parent_id r_mode].
    rewrite c_str_char_buf by done. done.
  - destruct Hop as (_&[Hn _]). unfold apply_record, rec_name; cbn [r_kind rmdir_record prep_header r_name r_name2 r_blob r_parent_id r_mode].
    rewrite c_str_char_buf by done. done.
  - destruct Hop as (_&_&[Hn _]&[Hm _]). unfold apply_record, rec_name, rec_name2; cbn [r_kind rename_record prep_header r_name r_name2 r_blob r_parent_id r_new_parent_id].
    rewrite !c_str_char_buf by done. done.
Qed.

Section survive.
Context {B : Type} `{StorageLaws B} {S : Type} `{BlockStore S}.
Implicit Types (w : wal B) (b : B) (g : sotfs_graph) (s : S).

Lemma live_step_log g w tx tsc op r :
  op_logged tx tsc op = Some r -> 0 <= (fs_exec g op).1 ->
  live_step (g, w) (tx, tsc, op) = ((fs_exec g op).1, ((fs_exec g op).2, (wal_exec w (WAppend r)).2)).
Proof.
  intros E Hr. unfold live_step. destruct (fs_exec g op) as [z g']. simpl in Hr. rewrite (proj2 (Z.ltb_ge z 0)) by done.
  destruct op; simpl in E; simplify_eq; try done. by destruct (bool_decide _).
Qed.

Lemma live_run_spec g w ts s :
  Forall loggable ts -> Forall (fun r => 0 <= r) (live_run (g, w) ts).1 ->
  forall n, exists n', fold_left apply_one (live_records ts) (n, g, s) = (n', (live_run (g, w) ts).2.1, s)
  /\ (live_run (g, w) ts).2.2 = (wal_exec_all w (WAppend <$> live_records ts)).2.
Proof.
  intros Hts. revert g w. induction Hts as [|[[tx tsc] op] ts Hop Hts IH]; intros g w Hrs n; [by exists n|].
  destruct (op_logged tx tsc op) as [r|] eqn:E.
  2: { destruct Hop as (_&_&Hop). by destruct op. }
  simpl live_records. rewrite E. simpl live_run in *.
  destruct (decide (0 <= (fs_exec g op).1)) as [Hr|Hr].
  2: { exfalso. unfold live_step in Hrs. destruct (fs_exec g op) as [z g']. simpl in Hr. rewrite (proj2 (Z.ltb_lt z 0)) in Hrs by lia.
       destruct (live_run (g', w) ts). simpl in Hrs. apply Forall_cons in Hrs as [? _]. lia. }
  pose proof (live_step_log g w tx tsc op r E Hr) as El. unfold live_step in El, Hrs |- *. rewrite El in *. clear El.
  set (g1 := (fs_exec g op).2) in *. set (w1 := (wal_exec w (WAppend r)).2) in *.
  specialize (IH g1 w1). destruct (live_run (g1, w1) ts) as [rs [g2 w2]]. simpl in Hrs, IH |- *. apply Forall_cons in Hrs as [_ Hrs].
  rewrite (apply_logged g s tx tsc op r Hop E). fold g1.
  destruct (IH Hrs (if 0 <=? (fs_exec g op).1 then u32 (n + 1) else n)) as (n'&E1&E2). exists n'. split; [exact E1|].
  rewrite E2. unfold w1. simpl. destruct (sotfs_wal_append w r) as [z w3]. simpl. by destruct (wal_exec_all w3 _).
Qed.

Lemma live_records_ok ts : Forall loggable ts -> Forall wal_op_ok (WAppend <$> live_records ts).
Proof.
  induction 1 as [|[[tx tsc] op] ts Hop Hts IH]; simpl; [constructor|]. destruct (op_logged tx tsc op) as [r|] eqn:E; simpl; [|done].
  constructor; [|done]. simpl. by eapply op_logged_wf.
Qed.

Lemma records_append rs : records (WAppend <$> rs) = rs.
Proof. induction rs as [|r rs IH]; [done|]. change (r :: records (WAppend <$> rs) = r :: rs). by rewrite IH. Qed.

(** The namespace survives a reboot.  Take any sequence of successful creates,
    mkdirs, unlinks, rmdirs and renames of the live system, each executed on the
    graph and then logged by its emitter.  Attaching the medium again and replaying
    it on the graph the run started from rebuilds the same graph, inode numbers
    included, and does not touch the block store. *)
Theorem fs_survives_reboot w b (ts : list (Z * Z * fs_op)) w1 g s :
  blank_log w b -> Forall loggable ts -> fits (log_of (g_records_since_checkpoint w) (WAppend <$> live_records ts)) ->
  Forall (fun r => 0 <= r) (live_run (g, sotfs_wal_init w b) ts).1 ->
  let '(_, (g', w')) := live_run (g, sotfs_wal_init w b) ts in
  exists b', g_storage w' = Some b'
    /\ let '(_, g'', s'', w'') := sotfs_wal_replay_files (sotfs_wal_init w1 b') g s in
       g'' = g' /\ s'' = s /\ g_wal_cursor w'' = g_wal_cursor w' /\ g_wal_seq w'' = g_wal_seq w'.
Proof.
  intros Hb Hts Hf Hrs. destruct (live_run_spec g (sotfs_wal_init w b) ts s Hts Hrs 0) as (n'&Eg&Ew).
  destruct (replay_run w b (WAppend <$> live_records ts) w1 g s Hb (live_records_ok ts Hts) Hf) as (b'&Hst&Er).
  rewrite records_append in Er. unfold apply_all in Er. rewrite Eg in Er.
  destruct (live_run (g, sotfs_wal_init w b) ts) as [rs [g' w']]. simpl in Ew, Er. rewrite Ew. exists b'. split; [done|].
  by rewrite Er.
Qed.
End survive.

(** ** Torn records *)

(** Changing a window of a payload is overwriting the payload. *)
Lemma overlay_window f a pre v v' post o :
  slice f a (length (pre ++ v ++ post)) = pre ++ v ++ post -> length v' = length v ->
  overlay f (a + Z.of_nat (length pre)) v' o = overlay f a (pre ++ v' ++ post) o.
Proof.
  intros Hs Hv. unfold overlay. rewrite !length_app, Hv.
  destruct (a + Z.of_nat (length pre) <=? o) eqn:E1, (o <? a + Z.of_nat (length pre) + Z.of_nat (length v)) eqn:E2,
    (a <=? o) eqn:E3, (o <? a + Z.of_nat (length pre + (length v + length post))) eqn:E4; simpl; bool_to_prop; try lia; try done.
  - rewrite lookup_app_r by lia. rewrite lookup_app_l by lia. do 2 f_equal. lia.
  - rewrite lookup_app_r by lia. rewrite lookup_app_r by lia. rewrite Hv.
    assert ((pre ++ v ++ post) !! Z.to_nat (o - a) = Some (f o)) as Hp.
    { rewrite <-Hs, slice_lookup by (rewrite !length_app; lia). do 2 f_equal. lia. }
    rewrite lookup_app_r in Hp by lia. rewrite lookup_app_r in Hp by lia. rewrite Hp. done.
  - rewrite lookup_app_l by lia.
    assert ((pre ++ v ++ post) !! Z.to_nat (o - a) = Some (f o)) as Hp.
    { rewrite <-Hs, slice_lookup by (rewrite !length_app; lia). do 2 f_equal. lia. }
    rewrite lookup_app_l in Hp by lia. rewrite Hp. done.
Qed.

Section torn.
Context {B : Type} `{StorageLaws B} {S : Type} `{BlockStore S}.
Implicit Types (w : wal B) (b : B) (g : sotfs_graph) (s : S).

(** The frame in the middle of a log and the bytes of its payload. *)
Lemma holds_payload f off l1 x l2 :
  holds f off (l1 ++ x :: l2) ->
  slice f (off + log_size l1 + 24) (length (fr_payload x)) = fr_payload x
  /\ off + log_size l1 + h_len (fr_hdr x) + log_size l2 <= WAL_END.
Proof.
  revert off. induction l1 as [|y l1 IH]; intros off; simpl.
  - intros (_&Hs&Hh). rewrite Z.add_0_r. split; [done|]. apply holds_end in Hh. lia.
  - intros (_&_&Hh). apply IH in Hh as [H1' H2']. rewrite !Z.add_assoc in *. done.
Qed.

Lemma carries_corrupt b l1 x l2 pre v v' post :
  carries b (l1 ++ x :: l2) -> fr_payload x = pre ++ v ++ post -> length v' = length v ->
  let b' := (write_block b (SOTFS_WAL_OFFSET + log_size l1 + 24 + Z.of_nat (length pre)) v').2 in
  carries b' (l1 ++ mk_frame (fr_hdr x) (pre ++ v' ++ post) :: l2).
Proof.
  intros [Wb Hcap Fl Sl Hl] Hx Hv. cbv zeta. destruct (holds_payload _ _ _ _ _ Hl) as [Hs He].
  pose proof Fl as Fl'. apply Forall_app in Fl' as [F1 F2]. apply Forall_cons in F2 as [Fx F2].
  pose proof (fo_len _ Fx) as Hlen. rewrite Hx, !length_app in Hlen. pose proof (log_size_nonneg _ F1). pose proof (log_size_nonneg _ F2).
  assert (0 < SOTFS_WAL_OFFSET) by (vm_compute; reflexivity).
  destruct (write_block_spec b (SOTFS_WAL_OFFSET + log_size l1 + 24 + Z.of_nat (length pre)) v') as (b'&->&Wb'&Hc'&Hb'); [done|lia|lia|]. simpl.
  constructor; [done|lia| | |].
  - apply Forall_app_2; [done|]. constructor; [|done]. destruct Fx. constructor; simpl; try done. rewrite !length_app. lia.
  - intros i y Hi. apply lookup_app_Some in Hi as [Hi|[Hi Hy]]; [apply Sl; by apply lookup_app_l_Some|].
    pose proof (Sl i) as Sli. rewrite lookup_app_r in Sli by done. destruct (i - length l1)%nat eqn:E; simpl in Hy; simplify_eq; simpl; by apply Sli.
  - eapply (holds_replace (byte_at b)); [done|done|rewrite Hx, !length_app; lia|]. intros o Ho. rewrite Hb'.
    apply overlay_window with v; [|done]. by rewrite <-Hx.
Qed.

(** The frames of a run around one of its records. *)
Lemma log_split n ops1 r ops2 :
  Forall wal_op_ok (ops1 ++ WAppend r :: ops2) ->
  let l1 := log_of n ops1 in
  exists l2, log_of n (ops1 ++ WAppend r :: ops2) = l1 ++ next_frame l1 (r_kind r) (rec_bytes r) :: l2
    /\ forall a : replay S, let a' := fold_left replay_step l2 a in
       progress a' = fold_left apply_one (records ops2) (progress a) /\ rp_audit a' = rp_audit a.
Proof.
  intros Hops. apply Forall_app in Hops as [_ Hops]. apply Forall_cons in Hops as [_ Hops]. cbv zeta.
  unfold log_of. rewrite fold_left_app. cbn [fold_left]. set (st := fold_left put_op ops1 ([], n)).
  assert (exists l2, (put_op st (WAppend r)).1 = st.1 ++ next_frame st.1 (r_kind r) (rec_bytes r) :: l2
    /\ forall a : replay S, let a' := fold_left replay_step l2 a in progress a' = progress a /\ rp_audit a' = rp_audit a) as (l2&E2&P2).
  { simpl. unfold put. destruct (st.2 + 1 <? _); simpl.
    - by exists [].
    - eexists. rewrite <-app_assoc. split; [done|]. intros a. simpl. apply replay_step_skip. vm_compute. discriminate. }
  assert (exists l3, (fold_left put_op ops2 (put_op st (WAppend r))).1 = (put_op st (WAppend r)).1 ++ l3
    /\ forall a : replay S, let a' := fold_left replay_step l3 a in progress a' = fold_left apply_one (records ops2) (progress a) /\ rp_audit a' = rp_audit a) as (l3&E3&P3).
  { generalize (put_op st (WAppend r)) as st'. intros st'. destruct (replay_extend st' ops2) as (l3&E3). exists l3. split; [done|].
    intros a. destruct (replay_ops a st' ops2 Hops) as (l4&E4&P4). rewrite E3 in E4. by apply app_inv_head in E4 as ->. }
  exists (l2 ++ l3). rewrite E3, E2, <-app_assoc. split; [done|]. intros a. cbv zeta. rewrite fold_left_app. destruct (P3 (fold_left replay_step l2 a)) as [-> ->].
  by destruct (P2 a) as [-> ->].
Qed.

Lemma torn_step (a : replay S) l r p :
  rec_wf r -> r_kind r < SOTFS_WAL_KIND_PROCD_MUT -> sotfs_crc64 p <> sotfs_crc64 (rec_bytes r) ->
  let a' := replay_step a (mk_frame (fr_hdr (next_frame l (r_kind r) (rec_bytes r))) p) in
  progress a' = progress a /\ rp_audit a' = (SOTGUARD_KIND_WAL_TORN_RECORD, Z.of_nat (length l) + 1) :: rp_audit a.
Proof.
  intros W Hk Hc. destruct a as [g s n t q u]. unfold replay_step. cbn [fr_hdr next_frame h_kind h_len h_crc64 h_seq fr_payload].
  rewrite Z.geb_leb, (proj2 (Z.leb_gt _ _)) by done. rewrite (length_rec_bytes _ W), (proj2 (Z.eqb_eq _ (Z.of_nat rec_size))) by lia.
  by rewrite (proj2 (Z.eqb_neq _ _)).
Qed.

(** C34: a torn record is skipped and nothing else is.  Corrupt up to eight
    consecutive payload bytes of any one file-system record of the log; replay
    then behaves as if that record had never been logged (every other record is
    applied, in order), reports it in the audit trail under its sequence number,
    and still ends with the cursor and sequence counter of the undamaged log. *)
Theorem torn_record_skipped w b (ops1 ops2 : list wal_op) (r : sotfs_wal_record) (pre v v' post : list Z) w1 g s :
  blank_log w b -> Forall wal_op_ok (ops1 ++ WAppend r :: ops2) ->
  fits (log_of (g_records_since_checkpoint w) (ops1 ++ WAppend r :: ops2)) ->
  rec_bytes r = pre ++ v ++ post -> length v' = length v -> (length v <= 8)%nat -> Forall is_byte v' -> v <> v' ->
  let before := (wal_exec_all (sotfs_wal_init w b) ops1).2 in
  let w' := (wal_exec_all (sotfs_wal_init w b) (ops1 ++ WAppend r :: ops2)).2 in
  exists b', g_storage w' = Some b'
    /\ let torn := (write_block b' (g_wal_cursor before + 24 + Z.of_nat (length pre)) v').2 in
       let '(n, g', s') := apply_all g s (records (ops1 ++ ops2)) in
       sotfs_wal_replay_files (sotfs_wal_init w1 torn) g s
       = (i32 n, g', s',
          set_audit (set_position (sotfs_wal_init w1 torn) (g_wal_cursor w') (g_wal_seq w'))
            ((SOTGUARD_KIND_WAL_TORN_RECORD, g_wal_seq before) :: g_audit w1)).
Proof.
  intros Hb Hops Hf Hr Hlv Hl8 Hv' Hne. cbv zeta. set (n0 := g_records_since_checkpoint w) in *.
  pose proof Hops as Hops'. apply Forall_app in Hops' as [Hops1 Hops2]. apply Forall_cons in Hops2 as [[Wr Hk] Hops2].
  destruct (log_split n0 ops1 r ops2 Hops) as (l2&El&P2).
  assert (fits (log_of n0 ops1)) as Hf1. { apply (fits_foldl _ (WAppend r :: ops2)). unfold log_of in Hf. by rewrite fold_left_app in Hf. }
  destruct (run_ready w b ops1 Hb Hops1 Hf1) as (_&_&b1&[[_ C1 Hc1 Hq1 _] _ _]).
  destruct (run_ready w b _ Hb Hops Hf) as (_&_&b'&[[Hst C Hc Hq _] _ _]). fold n0 in C, Hc, Hq, C1, Hc1, Hq1.
  change (fold_left put_op (ops1 ++ WAppend r :: ops2) ([], n0)).1 with (log_of n0 (ops1 ++ WAppend r :: ops2)) in *.
  change (fold_left put_op ops1 ([], n0)).1 with (log_of n0 ops1) in *. rewrite El in C, Hc, Hq.
  exists b'. split; [done|]. rewrite Hc1, Hq1, Hc, Hq. set (l1 := log_of n0 ops1) in *.
  pose proof (carries_corrupt b' l1 (next_frame l1 (r_kind r) (rec_bytes r)) l2 pre v v' post C Hr Hlv) as C'. cbv zeta in C'.
  set (torn := (write_block b' _ v').2) in *.
  assert (Forall is_byte (pre ++ v ++ post)) as Hbytes by (rewrite <-Hr; by apply rec_bytes_byte). rewrite !Forall_app in Hbytes.
  destruct Hbytes as (Hpre&Hv&Hpost).
  assert (sotfs_crc64 (pre ++ v' ++ post) <> sotfs_crc64 (rec_bytes r)) as Hcrc.
  { rewrite Hr. apply not_eq_sym. by apply crc64_window. }
  rewrite (replay_log (sotfs_wal_init w1 torn) _ _ g s C' eq_refl eq_refl). rewrite fold_left_app. cbn [fold_left].
  destruct (replay_ops (mk_replay g s 0 0 0 (g_audit w1)) ([], n0) ops1 Hops1) as (l1'&El1&P1&A1).
  change (log_of n0 ops1 = l1') in El1. fold l1 in El1. subst l1'. cbv zeta in P1, A1.
  change (g_audit (sotfs_wal_init w1 torn)) with (g_audit w1). set (a1 := fold_left replay_step l1 _) in *.
  destruct (torn_step a1 l1 r (pre ++ v' ++ post) Wr Hk Hcrc) as [P3 A3]. cbv zeta in P3, A3. set (a2 := replay_step a1 _) in *.
  destruct (P2 a2) as [P4 A4]. set (a3 := fold_left replay_step l2 a2) in *.
  unfold apply_all. unfold records. rewrite omap_app, fold_left_app. change (0, g, s) with (progress (mk_replay g s 0 0 0 (g_audit w1))).
  fold (records ops1) (records ops2). rewrite <-P1, <-P3, <-P4. unfold progress at 1. rewrite A4, A3, A1. f_equal.
  unfold set_audit, set_position. f_equal; [rewrite !log_size_app; done|rewrite !length_app; done].
Qed.
End torn.

(** ** Checkpoints *)

Definition is_checkpoint (x : frame) : bool := h_kind (fr_hdr x) =? SOTFS_WAL_KIND_CHECKPOINT.
Definition checkpoints (l : list frame) : list frame := filter (fun x => is_checkpoint x = true) l.
(** The offset of the last checkpoint of a log, its start when it has none. *)
Definition last_checkpoint (l : list frame) : Z :=
  fold_left (fun a '(o, x) => if is_checkpoint x then o else a) (placed SOTFS_WAL_OFFSET l) SOTFS_WAL_OFFSET.

Definition op_kind (op : wal_op) : Z := match op with WAppend r => r_kind r | WLog kind _ => kind end.
Definition op_payload (op : wal_op) : list Z := match op with WAppend r => rec_bytes r | WLog _ p => p end.
Definition op_size (op : wal_op) : Z := 24 + Z.of_nat (length (op_payload op)).

Lemma put_op_eq st op : put_op st op = put st (op_kind op) (op_payload op).
Proof. by destruct op. Qed.

(** One call counts; every 4096th adds a checkpoint of 48 bytes. *)
Lemma put_count l n op :
  0 <= n < SOTFS_WAL_CHECKPOINT_INTERVAL -> op_kind op <> SOTFS_WAL_KIND_CHECKPOINT ->
  let q := (n + 1) / SOTFS_WAL_CHECKPOINT_INTERVAL in
  (put_op (l, n) op).2 = (n + 1) mod SOTFS_WAL_CHECKPOINT_INTERVAL
  /\ Z.of_nat (length (checkpoints (put_op (l, n) op).1)) = Z.of_nat (length (checkpoints l)) + q
  /\ log_size (put_op (l, n) op).1 = log_size l + op_size op + 48 * q.
Proof.
  intros Hn Hk. cbv zeta. rewrite put_op_eq. unfold put, op_size, checkpoints. simpl fst. simpl snd.
  assert (forall m, is_checkpoint (next_frame m (op_kind op) (op_payload op)) = false) as Hx by (intros m; by apply Z.eqb_neq).
  unfold SOTFS_WAL_CHECKPOINT_INTERVAL in *. destruct (n + 1 <? 4096) eqn:E; simpl fst; simpl snd; bool_to_prop.
  - rewrite Z.mod_small, Z.div_small by lia. rewrite filter_app, filter_cons_False, filter_nil, app_nil_r, log_size_snoc by (by rewrite Hx). simpl. split_and!; lia.
  - assert (n + 1 = 4096) as -> by lia. rewrite !filter_app. rewrite filter_cons_False, filter_nil, app_nil_r by (by rewrite Hx).
    rewrite filter_cons_True, filter_nil, length_app by done. rewrite !log_size_snoc. change (4096 / 4096) with 1.
    split_and!; [done|cbn [length]; lia|]. unfold next_frame. cbn [fr_hdr h_len]. unfold checkpoint_after. rewrite length_ck_bytes. lia.
Qed.

Lemma put_counts l n ops :
  0 <= n < SOTFS_WAL_CHECKPOINT_INTERVAL -> Forall (fun op => op_kind op <> SOTFS_WAL_KIND_CHECKPOINT) ops ->
  let q := (n + Z.of_nat (length ops)) / SOTFS_WAL_CHECKPOINT_INTERVAL in
  let st := fold_left put_op ops (l, n) in
  st.2 = (n + Z.of_nat (length ops)) mod SOTFS_WAL_CHECKPOINT_INTERVAL
  /\ Z.of_nat (length (checkpoints st.1)) = Z.of_nat (length (checkpoints l)) + q
  /\ log_size st.1 = log_size l + foldr (fun op k => op_size op + k) 0 ops + 48 * q.
Proof.
  intros Hn Hk. revert l n Hn. induction Hk as [|op ops Hop Hk IH]; intros l n Hn; cbv zeta.
  { simpl. rewrite Z.add_0_r. rewrite Z.mod_small, Z.div_small by done. split_and!; lia. }
  simpl fold_left. simpl length. simpl foldr. destruct (put_count l n op Hn Hop) as (E1&E2&E3). destruct (put_op (l, n) op) as [l1 n1]. simpl in E1, E2, E3.
  assert (0 <= n1 < SOTFS_WAL_CHECKPOINT_INTERVAL) as Hn1 by (rewrite E1; apply Z.mod_pos_bound; vm_compute; reflexivity).
  destruct (IH l1 n1 Hn1) as (F1&F2&F3). rewrite F1, F2, F3, E2, E3.
  replace (n + Z.of_nat (Datatypes.S (length ops))) with (n + 1 + Z.of_nat (length ops)) by lia.
  assert (n1 = n + 1 - SOTFS_WAL_CHECKPOINT_INTERVAL * ((n + 1) / SOTFS_WAL_CHECKPOINT_INTERVAL)) as Hn1'.
  { rewrite E1. apply Z.mod_eq. done. }
  unfold SOTFS_WAL_CHECKPOINT_INTERVAL in *. set (q := (n + 1) / 4096) in *.
  replace (n1 + Z.of_nat (length ops)) with (n + 1 + Z.of_nat (length ops) + (- q) * 4096) by lia.
  rewrite Z.mod_add, Z.div_add by lia. split_and!; lia.
Qed.

Section bounds.
Context {B : Type} `{StorageLaws B}.
Implicit Types (w : wal B) (b : B).

(** The checkpoint cadence.  After a run of appends and payload writes the log
    holds one checkpoint for every 4096 of them, and
    [sotfs_wal_find_last_checkpoint] returns the offset of the last one (the start
    of the region while there is none). *)
Theorem checkpoint_cadence w b (ops : list wal_op) :
  blank_log w b -> Forall wal_op_ok ops -> Forall (fun op => op_kind op <> SOTFS_WAL_KIND_CHECKPOINT) ops ->
  let n := g_records_since_checkpoint w in
  fits (log_of n ops) ->
  let w' := (wal_exec_all (sotfs_wal_init w b) ops).2 in
  Z.of_nat (length (checkpoints (wal_dump w'))) = (n + Z.of_nat (length ops)) / SOTFS_WAL_CHECKPOINT_INTERVAL
  /\ g_records_since_checkpoint w' = (n + Z.of_nat (length ops)) mod SOTFS_WAL_CHECKPOINT_INTERVAL
  /\ sotfs_wal_find_last_checkpoint w' = last_checkpoint (wal_dump w').
Proof.
  intros Hb Hops Hk n Hf. cbv zeta. destruct (run_ready w b ops Hb Hops Hf) as (_&_&b'&[[Hst C _ _ Hn] _ _]).
  rewrite (dump_log _ b' _ C Hst). fold n in C, Hn |- *. destruct (put_counts [] n ops (bl_since _ _ Hb) Hk) as (E1&E2&_).
  split_and!; [exact E2|by rewrite Hn|]. unfold sotfs_wal_find_last_checkpoint. rewrite Hst.
  destruct C as [Wb Hcap Fl Sl Hl]. rewrite (scan_log _ _ (byte_at b') (fold_left put_op ops ([], n)).1); [done| |done|done|by eapply scan_fuel_log].
  intros o k Ho Hk' Hok. exists 0. split; [lia|]. by eapply storage_read_ok; [constructor|..].
Qed.

(** ** Region bounds *)

Definition outside (o : Z) : Prop := o < SOTFS_WAL_OFFSET \/ WAL_END <= o.

Record in_region w b : Prop := {
  ir_storage : g_storage w = Some b;
  ir_wf : storage_wf b;
  ir_cap : WAL_END <= capacity_bytes b;
  ir_cursor : SOTFS_WAL_OFFSET <= g_wal_cursor w <= WAL_END;
}.

Lemma frame_region w b kind p :
  in_region w b -> Z.of_nat (length p) < 2 ^ 31 ->
  exists b', in_region (wal_frame w b WAL_END kind p).2 b' /\ forall o, outside o -> byte_at b' o = byte_at b o.
Proof.
  intros [Hst Wb Hcap Hcur] Hp. unfold wal_frame. cbn [h_len]. rewrite u32_small by lia. assert (0 < SOTFS_WAL_OFFSET) by (vm_compute; reflexivity).
  destruct (g_wal_cursor w + (24 + Z.of_nat (length p)) >? WAL_END) eqn:E; [by exists b|]. rewrite Z.gtb_ltb in E. bool_to_prop.
  set (h := hdr_bytes _).
  destruct (frame_writes b (g_wal_cursor w) h p) as (b1&b2&->&->&W2&C2&B2); [done|lia|apply length_hdr_bytes|done|lia|].
  rewrite !i32_nonneg by lia. exists b2. split; [constructor; simpl; try done; lia|].
  intros o Ho. rewrite B2. unfold overlay, outside in *. rewrite length_app. unfold h. rewrite length_hdr_bytes.
  destruct (g_wal_cursor w <=? o) eqn:E1, (o <? g_wal_cursor w + Z.of_nat (24 + length p)) eqn:E2; simpl; bool_to_prop; lia || done.
Qed.

Lemma log_payload_region d w b kind p :
  in_region w b -> Z.of_nat (length p) < 2 ^ 31 ->
  exists b', in_region (log_payload_at d kind p w).2 b' /\ forall o, outside o -> byte_at b' o = byte_at b o.
Proof.
  revert w b kind p. induction d as [|d IH]; intros w b kind p Hr Hp; [by exists b|].
  rewrite log_payload_S, (ir_storage _ _ Hr). destruct (bool_decide (p = [])); [by exists b|].
  destruct (frame_region w b kind p Hr Hp) as (b1&R1&O1). destruct (wal_frame w b WAL_END kind p) as [rc w1]. simpl in R1.
  destruct (rc <? 0); [by exists b1|]. simpl. unfold wal_maybe_checkpoint. destruct (g_in_checkpoint w1); [by exists b1|].
  destruct (u32 (g_records_since_checkpoint w1 + 1) <? SOTFS_WAL_CHECKPOINT_INTERVAL); [exists b1; split; [by destruct R1|done]|].
  destruct (IH (set_in_checkpoint (set_since w1 0) true) b1 SOTFS_WAL_KIND_CHECKPOINT (ck_bytes (mk_ck (g_wal_seq w1) 0 0 (g_wal_seq w1)))) as (b2&R2&O2).
  { by destruct R1. }
  { rewrite length_ck_bytes. lia. }
  exists b2. split; [by destruct R2|]. intros o Ho. by rewrite O2, O1.
Qed.

(** A payload write stays inside the WAL region.  Whatever the payload and
    whatever state the log is in, successful or refused, with or without a
    checkpoint behind it, [sotfs_wal_log_payload] changes no byte outside the
    region and leaves the cursor inside it. *)
Theorem payload_stays_in_region w b (kind : Z) (p : list Z) :
  g_storage w = Some b -> storage_wf b -> WAL_END <= capacity_bytes b -> SOTFS_WAL_OFFSET <= g_wal_cursor w <= WAL_END ->
  Z.of_nat (length p) < 2 ^ 31 ->
  let w' := (sotfs_wal_log_payload kind p w).2 in
  SOTFS_WAL_OFFSET <= g_wal_cursor w' <= WAL_END
  /\ exists b', g_storage w' = Some b' /\ forall o, o < SOTFS_WAL_OFFSET \/ WAL_END <= o -> byte_at b' o = byte_at b o.
Proof.
  intros Hst Wb Hcap Hcur Hp. destruct (log_payload_region 2 w b kind p) as (b'&[Hst' _ _ Hcur']&Ho); [done|done|].
  split; [exact Hcur'|]. exists b'. split; [exact Hst'|exact Ho].
Qed.

(** The calls never change the size of the medium. *)
Record attached w b (cap : Z) : Prop := {
  at_storage : g_storage w = Some b;
  at_wf : storage_wf b;
  at_cap : capacity_bytes b = cap;
  at_end : WAL_END <= cap;
  at_cursor : 0 <= g_wal_cursor w;
}.

Lemma frame_attached w b cap lim kind p :
  attached w b cap -> lim <= cap -> Z.of_nat (length p) < 2 ^ 31 -> exists b', attached (wal_frame w b lim kind p).2 b' cap.
Proof.
  intros [Hst Wb Hcap Hend Hcur] Hl Hp. unfold wal_frame. cbn [h_len]. rewrite u32_small by lia.
  destruct (g_wal_cursor w + (24 + Z.of_nat (length p)) >? lim) eqn:E; [by exists b|]. rewrite Z.gtb_ltb in E. bool_to_prop.
  set (h := hdr_bytes _).
  destruct (frame_writes b (g_wal_cursor w) h p) as (b1&b2&->&->&W2&C2&B2); [done|lia|apply length_hdr_bytes|done|lia|].
  rewrite !i32_nonneg by lia. exists b2. constructor; simpl; try done; lia.
Qed.

Lemma checkpoint_attached w b cap (log : list Z -> wal B -> Z * wal B) :
  attached w b cap ->
  (forall w1 b1 p, attached w1 b1 cap -> Z.of_nat (length p) < 2 ^ 31 -> exists b2, attached (log p w1).2 b2 cap) ->
  exists b', attached (wal_maybe_checkpoint log w) b' cap.
Proof.
  intros A Hlog. unfold wal_maybe_checkpoint. destruct (g_in_checkpoint w); [by exists b|].
  destruct (u32 (g_records_since_checkpoint w + 1) <? SOTFS_WAL_CHECKPOINT_INTERVAL); [exists b; by destruct A|].
  destruct (Hlog (set_in_checkpoint (set_since w 0) true) b (ck_bytes (mk_ck (g_wal_seq w) 0 0 (g_wal_seq w)))) as (b2&A2);
    [by destruct A|rewrite length_ck_bytes; lia|]. exists b2. by destruct A2.
Qed.

Lemma log_payload_attached d w b cap kind p :
  attached w b cap -> Z.of_nat (length p) < 2 ^ 31 -> exists b', attached (log_payload_at d kind p w).2 b' cap.
Proof.
  revert w b kind p. induction d as [|d IH]; intros w b kind p A Hp; [by exists b|].
  rewrite log_payload_S, (at_storage _ _ _ A). destruct (bool_decide (p = [])); [by exists b|].
  destruct (frame_attached w b cap WAL_END kind p A (at_end _ _ _ A) Hp) as (b1&A1). destruct (wal_frame w b WAL_END kind p) as [rc w1]. simpl in A1.
  destruct (rc <? 0); [by exists b1|]. eapply checkpoint_attached; [exact A1|]. intros w2 b2 q. apply IH.
Qed.

Lemma append_attached w b cap r : attached w b cap -> rec_wf r -> exists b', attached (sotfs_wal_append w r).2 b' cap.
Proof.
  intros A Wr. unfold sotfs_wal_append. rewrite (at_storage _ _ _ A), (at_cap _ _ _ A).
  destruct (frame_attached w b cap cap (r_kind r) (rec_bytes r) A) as (b1&A1); [lia|rewrite (length_rec_bytes _ Wr); unfold rec_size; lia|].
  destruct (wal_frame w b cap (r_kind r) (rec_bytes r)) as [rc w1]. simpl in A1. destruct (rc <? 0); [by exists b1|].
  eapply checkpoint_attached; [exact A1|]. intros w2 b2 q. apply log_payload_attached.
Qed.

Lemma appends_attached w b cap rs :
  attached w b cap -> Forall rec_wf rs -> exists b', attached (wal_exec_all w (WAppend <$> rs)).2 b' cap.
Proof.
  intros A Hrs. revert w b A. induction Hrs as [|r rs Wr Hrs IH]; intros w b A; [by exists b|]. rewrite fmap_cons. cbn [wal_exec_all wal_exec].
  destruct (append_attached w b cap r A Wr) as (b1&A1). destruct (sotfs_wal_append w r) as [z w1]. simpl in A1.
  destruct (IH w1 b1 A1) as (b2&A2). destruct (wal_exec_all w1 _) as [zs w2]. by exists b2.
Qed.

(** The bytes an append leaves where it writes past the region. *)
Lemma append_spill w b cap r :
  attached w b cap -> rec_wf r -> g_in_checkpoint w = false -> 0 <= g_records_since_checkpoint w < SOTFS_WAL_CHECKPOINT_INTERVAL - 1 ->
  g_wal_cursor w + 848 <= cap ->
  (sotfs_wal_append w r).1 = 0
  /\ exists b', g_storage (sotfs_wal_append w r).2 = Some b'
      /\ forall k n, (k + n <= rec_size)%nat -> slice (byte_at b') (g_wal_cursor w + 24 + Z.of_nat k) n = take n (drop k (rec_bytes r)).
Proof.
  intros [Hst Wb Hcap Hend Hcur] Wr Hin Hn Hfit. unfold sotfs_wal_append. rewrite Hst. unfold wal_frame. cbn [h_len].
  rewrite (length_rec_bytes _ Wr). change (u32 (24 + Z.of_nat rec_size)) with 848. rewrite Z.gtb_ltb, (proj2 (Z.ltb_ge (capacity_bytes b) _)) by lia.
  set (h := hdr_bytes _). pose proof (length_rec_bytes _ Wr) as Hl. unfold rec_size in *.
  destruct (frame_writes b (g_wal_cursor w) h (rec_bytes r)) as (b2&b3&->&->&_&_&B3); [done|lia|apply length_hdr_bytes|rewrite Hl; lia|rewrite Hl; lia|].
  rewrite Hl. change (i32 24 <? 0) with false. change (i32 (Z.of_nat 824) <? 0) with false. cbv iota. change (0 <? 0) with false. cbv iota.
  unfold wal_maybe_checkpoint. cbn [set_position set_storage g_in_checkpoint g_records_since_checkpoint]. unfold SOTFS_WAL_CHECKPOINT_INTERVAL in *.
  rewrite Hin, u32_small, (proj2 (Z.ltb_lt _ _)) by lia. split; [done|]. exists b3. split; [done|]. intros k n Hkn.
  rewrite (slice_ext _ _ _ _ (fun o _ => B3 o)). apply list_eq. intros i. destruct (decide (i < n)%nat) as [Hi|Hi].
  - rewrite slice_lookup, lookup_take_lt, lookup_drop by done. unfold overlay. rewrite length_app, Hl. unfold h at 1. rewrite length_hdr_bytes.
    rewrite (proj2 (Z.leb_le _ _)), (proj2 (Z.ltb_lt _ _)) by lia. simpl andb. cbv iota.
    rewrite lookup_app_r by (unfold h; rewrite length_hdr_bytes; lia). unfold h. rewrite length_hdr_bytes.
    replace (Z.to_nat (g_wal_cursor w + 24 + Z.of_nat k + Z.of_nat i - g_wal_cursor w) - 24)%nat with (k + i)%nat by lia. symmetry. apply array_lookup_lt. lia.
  - rewrite !(proj2 (lookup_ge_None _ _)); [done|rewrite length_take; lia|rewrite length_slice; lia].
Qed.

(** After 4946 records and the checkpoint between them, 48 bytes are left. *)
Lemma appends_fill b rs :
  blank_log wal_boot b -> Forall (fun r => rec_wf r /\ r_kind r < SOTFS_WAL_KIND_PROCD_MUT) rs -> length rs = Z.to_nat 4946 ->
  let w := (wal_exec_all (sotfs_wal_init wal_boot b) (WAppend <$> rs)).2 in
  g_wal_cursor w = WAL_END - 48 /\ g_in_checkpoint w = false /\ g_records_since_checkpoint w = 850.
Proof.
  intros Hb Hrs Hlen. cbv zeta. assert (Forall wal_op_ok (WAppend <$> rs)) as Hops.
  { apply Forall_fmap. eapply Forall_impl; [exact Hrs|]. intros x Hx. exact Hx. }
  assert (Forall (fun op => op_kind op <> SOTFS_WAL_KIND_CHECKPOINT) (WAppend <$> rs)) as Hk.
  { apply Forall_fmap. eapply Forall_impl; [exact Hrs|]. intros x [_ Hx]. simpl. unfold SOTFS_WAL_KIND_PROCD_MUT, SOTFS_WAL_KIND_CHECKPOINT in *. lia. }
  assert (0 <= 0 < SOTFS_WAL_CHECKPOINT_INTERVAL) as H0' by (vm_compute; split; congruence).
  destruct (put_counts [] 0 (WAppend <$> rs) H0' Hk) as (E1&_&E3). rewrite length_fmap, Hlen in E1, E3.
  assert (foldr (fun op k => op_size op + k) 0 (WAppend <$> rs) = 848 * Z.of_nat (length rs)) as Es.
  { clear -Hrs. induction Hrs as [|x rs [Wx _] Hrs IH]; [done|]. rewrite fmap_cons. cbn [foldr length]. rewrite IH. unfold op_size. cbn [op_payload].
    rewrite (length_rec_bytes _ Wx). unfold rec_size. lia. }
  rewrite Es, Hlen in E3. change (log_size []) with 0 in E3.
  change (0 + 848 * Z.of_nat (Z.to_nat 4946) + 48 * ((0 + Z.of_nat (Z.to_nat 4946)) / SOTFS_WAL_CHECKPOINT_INTERVAL)) with 4194256 in E3.
  change ((0 + Z.of_nat (Z.to_nat 4946)) mod SOTFS_WAL_CHECKPOINT_INTERVAL) with 850 in E1.
  assert (WAL_END = SOTFS_WAL_OFFSET + 4194304) as HE by (vm_compute; reflexivity).
  destruct (run_ready wal_boot b _ Hb Hops) as (_&_&b1&[[_ _ Hc _ Hn] Hin _]).
  { unfold fits, log_of. simpl g_records_since_checkpoint. lia. }
  simpl g_records_since_checkpoint in Hc, Hn. rewrite E3 in Hc. rewrite E1 in Hn. split_and!; [lia|done|done].
Qed.

(** A file-system record does not stay inside it.  [sotfs_wal_append] tests
    against the size of the disk instead of the end of the region: after 4946
    records the next append still reports success and writes the last 800 bytes of
    its record over the start of the data heap, where the superblock of the block
    store is. *)
Theorem append_overruns_region b (rs : list sotfs_wal_record) (r : sotfs_wal_record) :
  blank_log wal_boot b -> SOTFS_IMG_TOTAL_BYTES <= capacity_bytes b ->
  Forall (fun r => rec_wf r /\ r_kind r < SOTFS_WAL_KIND_PROCD_MUT) rs -> length rs = Z.to_nat 4946 -> rec_wf r ->
  let w := (wal_exec_all (sotfs_wal_init wal_boot b) (WAppend <$> rs)).2 in
  (sotfs_wal_append w r).1 = 0
  /\ exists b', g_storage (sotfs_wal_append w r).2 = Some b' /\ slice (byte_at b') SOTFS_DATA_OFFSET 800 = drop 24 (rec_bytes r).
Proof.
  intros Hb Hcap Hrs Hlen Wr. cbv zeta. destruct (appends_fill b rs Hb Hrs Hlen) as (Hc&Hin&Hn).
  destruct (appends_attached (sotfs_wal_init wal_boot b) b (capacity_bytes b) rs) as (b1&A).
  { destruct Hb. by constructor. }
  { eapply Forall_impl; [exact Hrs|]. by intros x [? _]. }
  assert (SOTFS_IMG_TOTAL_BYTES = WAL_END + 256 * MiB) as HT by (vm_compute; reflexivity). unfold MiB in HT.
  destruct (append_spill _ b1 (capacity_bytes b) r A Wr Hin) as (E&b'&Hst&Hs).
  { rewrite Hn. vm_compute. split; congruence. }
  { lia. }
  split; [exact E|]. exists b'. split; [exact Hst|]. specialize (Hs 24%nat 800%nat ltac:(unfold rec_size; lia)). rewrite Hc in Hs.
  change SOTFS_DATA_OFFSET with WAL_END. replace (WAL_END - 48 + 24 + Z.of_nat 24) with WAL_END in Hs by lia. rewrite Hs. apply take_ge.
  rewrite length_drop, (length_rec_bytes _ Wr). unfold rec_size. lia.
Qed.
End bounds.

(** ** Termination and contents *)

(** C37: every scan of the log terminates.  The length of a frame is at least that of
    its header, so whatever the medium holds, [scan_fuel] rounds cover the region:
    running the loop any longer changes neither where it stops nor what it
    computed. *)
Theorem scan_terminates {A} (read : Z -> nat -> Z * list Z) (body : A -> Z -> sotfs_wal_v2_header -> A) (acc : A) (k : nat) :
  wal_scan read body (scan_fuel + k) SOTFS_WAL_OFFSET acc = wal_scan read body scan_fuel SOTFS_WAL_OFFSET acc.
Proof. apply scan_fuel_mono. vm_compute. reflexivity. Qed.

Lemma data_of_blob buf : take (Z.to_nat (blob_size buf)) (blob_buf buf) = take SOTFS_WAL_MAX_BLOB buf.
Proof.
  unfold blob_size, blob_buf. rewrite Z.gtb_ltb. unfold SOTFS_WAL_MAX_BLOB. destruct (Z.of_nat 512 <? Z.of_nat (length buf)) eqn:E; bool_to_prop; rewrite Nat2Z.id.
  - rewrite take_app_le by (rewrite length_take; lia). by rewrite take_take, Nat.min_l by lia.
  - rewrite !(take_ge buf) by lia. by rewrite take_app_length.
Qed.

(** Replay re-executes the first 512 bytes of a write and no more.  Replaying
    the record of a write of [buf], keyed by inode or by path, is the write of
    [take 512 buf]: what a call wrote beyond the blob of its record is not in the
    log and is lost at the next boot. *)
Theorem write_replay_prefix {S} `{BlockStore S} (g : sotfs_graph) (s : S) (tx tsc f offset : Z) (path buf : list Z) :
  leaf_name path -> path <> [] ->
  let prefix := take SOTFS_WAL_MAX_BLOB buf in
  let fid := sotfs_resolve_path g (Some path) in
  apply_record g s (write_record tx tsc f offset buf) = sotfs_file_write g s f offset prefix
  /\ apply_record g s (write_path_record tx tsc path offset buf)
     = if fid =? 0 then (-2, g, s) else sotfs_file_write g s fid offset prefix.
Proof.
  intros Hp Hne. cbv zeta. rewrite <-data_of_blob. split.
  - unfold apply_record, rec_name, rec_data. cbn [write_record prep_header r_kind r_name r_name2 r_blob r_target_id r_offset r_blob_len].
    change (char_buf SOTFS_WAL_NAME_BYTES []) with (replicate 128 0). rewrite c_str_zero by lia. done.
  - unfold apply_record, rec_name, rec_data. cbn [write_path_record prep_header r_kind r_name r_name2 r_blob r_target_id r_offset r_blob_len].
    rewrite c_str_char_buf by done. rewrite (proj2 (bool_decide_eq_false _)) by done. done.
Qed.

(** ** Concrete runs *)

Module WalDemo.
Import Image.

(** A directory, a file in it and its new name, on a blank image. *)
Definition script : list (Z * Z * fs_op) :=
  [(1, 100, OpCreate KIND_DIR 1 (FsDemo.n "etc") 493); (2, 110, OpCreate KIND_FILE 2 (FsDemo.n "passwd") 420);
   (3, 120, OpRename 2 (FsDemo.n "passwd") 1 (FsDemo.n "p"))].

(** The same records with an anomaly event between them. *)
Definition rec1 : sotfs_wal_record := mkdir_record 1 100 1 (FsDemo.n "etc") 493.
Definition rec2 : sotfs_wal_record := create_record 2 110 2 (FsDemo.n "passwd") 420.
Definition ops : list wal_op := [WAppend rec1; WLog SOTFS_WAL_KIND_ANOMALY_EV (replicate 24 1); WAppend rec2].

Lemma byte_name_of (s : string) :
  (FsDemo.bytes_ok s && (length (FsDemo.n s) <? 128)%nat && forallb (fun c => (0 <=? c) && (c <? 256)) (FsDemo.n s))%bool = true ->
  byte_name (FsDemo.n s).
Proof.
  intros Hb. apply andb_true_iff in Hb as [Hb H3]. apply andb_true_iff in Hb as [H1 H2]. split; [split; [by apply FsDemo.cname_of|]|].
  - apply Nat.ltb_lt in H2. exact H2.
  - apply Forall_forall. intros c Hc. rewrite forallb_forall in H3. apply list_elem_of_In in Hc. specialize (H3 c Hc). unfold is_byte. bool_to_prop. lia.
Qed.

Lemma script_loggable : Forall loggable script.
Proof.
  unfold script, is_i32. repeat (apply Forall_cons; split; [unfold loggable; unfold is_i32; split_and!; try (apply byte_name_of; vm_compute; reflexivity); try lia; auto|]).
  constructor.
Qed.

Lemma blank_image : blank_log wal_boot BlkDemo.blank.
Proof.
  constructor; [exact I|vm_compute; discriminate| |reflexivity|vm_compute; split; congruence].
  intros o _. simpl. unfold get, BlkDemo.blank, disk. by rewrite lookup_empty.
Qed.

Lemma rec1_ok : rec_wf rec1 /\ r_kind rec1 < SOTFS_WAL_KIND_PROCD_MUT.
Proof.
  apply (op_logged_wf 1 100 (OpCreate KIND_DIR 1 (FsDemo.n "etc") 493)); [|reflexivity].
  pose proof script_loggable as Hs. by apply Forall_cons in Hs as [? _].
Qed.

Lemma rec2_ok : rec_wf rec2 /\ r_kind rec2 < SOTFS_WAL_KIND_PROCD_MUT.
Proof.
  apply (op_logged_wf 2 110 (OpCreate KIND_FILE 2 (FsDemo.n "passwd") 420)); [|reflexivity].
  pose proof script_loggable as Hs. apply Forall_cons in Hs as [_ Hs]. by apply Forall_cons in Hs as [? _].
Qed.

Lemma ops_ok : Forall wal_op_ok ops.
Proof.
  repeat (apply Forall_cons; split); [apply rec1_ok| |apply rec2_ok|constructor].
  split; [vm_compute; split; congruence|]. split; [discriminate|]. apply Forall_replicate. unfold is_byte. lia.
Qed.

Lemma ops_fit : fits (log_of 0 ops).
Proof. unfold fits. vm_compute. discriminate. Qed.
End WalDemo.
Import Image.

Lemma wal_durable_witness :
  let '(rs, w') := wal_exec_all (sotfs_wal_init wal_boot BlkDemo.blank) WalDemo.ops in
  rs = [0; 0; 0] /\ wal_dump w' = log_of 0 WalDemo.ops /\ g_wal_seq w' = 4.
Proof.
  pose proof (wal_durable wal_boot BlkDemo.blank WalDemo.ops WalDemo.blank_image WalDemo.ops_ok WalDemo.ops_fit) as H.
  destruct (wal_exec_all _ WalDemo.ops) as [rs w']. destruct H as (E1&E2&_&E4). split; [exact E1|]. split; [exact E2|exact E4].
Defined.

Lemma wal_replay_restores_witness :
  let w' := (wal_exec_all (sotfs_wal_init wal_boot BlkDemo.blank) WalDemo.ops).2 in
  exists b', g_storage w' = Some b'
    /\ let '(n, g', s', w'') := sotfs_wal_replay_files (sotfs_wal_init wal_boot b') sotfs_graph_init IoDemo.dev in
       n = 2 /\ g' = (apply_all sotfs_graph_init IoDemo.dev [WalDemo.rec1; WalDemo.rec2]).1.2.
Proof.
  destruct (wal_replay_restores wal_boot BlkDemo.blank WalDemo.ops wal_boot sotfs_graph_init IoDemo.dev WalDemo.blank_image WalDemo.ops_ok WalDemo.ops_fit) as (b'&E&Hr).
  exists b'. split; [exact E|]. change (records WalDemo.ops) with [WalDemo.rec1; WalDemo.rec2] in Hr.
  assert (Hn : (apply_all sotfs_graph_init IoDemo.dev [WalDemo.rec1; WalDemo.rec2]).1.1 = 2) by (vm_compute; reflexivity).
  destruct (apply_all _ _ _) as [[n g'] s']. simpl in Hn. subst n. rewrite Hr.
  split; reflexivity.
Defined.

Lemma fs_survives_reboot_witness :
  let '(rs, (g', w')) := live_run (sotfs_graph_init, sotfs_wal_init wal_boot BlkDemo.blank) WalDemo.script in
  rs = [2; 3; 0] /\ exists b', g_storage w' = Some b'
    /\ (sotfs_wal_replay_files (sotfs_wal_init wal_boot b') sotfs_graph_init IoDemo.dev).1.1.2 = g'.
Proof.
  assert (Hrs : (live_run (sotfs_graph_init, sotfs_wal_init wal_boot BlkDemo.blank) WalDemo.script).1 = [2; 3; 0]) by (vm_compute; reflexivity).
  assert (Hf : fits (log_of 0 (WAppend <$> live_records WalDemo.script))) by (unfold fits; vm_compute; discriminate).
  assert (Hp : Forall (fun r => 0 <= r) (live_run (sotfs_graph_init, sotfs_wal_init wal_boot BlkDemo.blank) WalDemo.script).1)
    by (rewrite Hrs; repeat constructor; lia).
  pose proof (fs_survives_reboot wal_boot BlkDemo.blank WalDemo.script wal_boot sotfs_graph_init IoDemo.dev WalDemo.blank_image WalDemo.script_loggable Hf Hp) as H.
  destruct (live_run _ WalDemo.script) as [rs [g' w']]. split; [exact Hrs|]. destruct H as (b'&E&H). exists b'. split; [exact E|].
  destruct (sotfs_wal_replay_files _ _ _) as [[[n g''] s''] w'']. exact (proj1 H).
Defined.

(** One flipped byte in the name of the first record. *)
Lemma torn_record_skipped_witness :
  let w' := (wal_exec_all (sotfs_wal_init wal_boot BlkDemo.blank) WalDemo.ops).2 in
  exists b', g_storage w' = Some b'
    /\ let torn := (write_block b' (SOTFS_WAL_OFFSET + 24 + 52) [102]).2 in
       let '(n, g', s', w'') := sotfs_wal_replay_files (sotfs_wal_init wal_boot torn) sotfs_graph_init IoDemo.dev in
       n = 0 /\ g_audit w'' = [(SOTGUARD_KIND_WAL_TORN_RECORD, 1)].
Proof.
  destruct (torn_record_skipped wal_boot BlkDemo.blank [] [WLog SOTFS_WAL_KIND_ANOMALY_EV (replicate 24 1); WAppend WalDemo.rec2] WalDemo.rec1
    (take 52 (rec_bytes WalDemo.rec1)) [101] [102] (drop 53 (rec_bytes WalDemo.rec1)) wal_boot sotfs_graph_init IoDemo.dev
    WalDemo.blank_image WalDemo.ops_ok WalDemo.ops_fit) as (b'&E&Hr).
  - vm_compute. reflexivity.
  - reflexivity.
  - simpl. lia.
  - repeat constructor; lia.
  - discriminate.
  - exists b'. split; [exact E|]. cbv zeta in Hr |- *.
    change (g_wal_cursor (wal_exec_all (sotfs_wal_init wal_boot BlkDemo.blank) []).2) with SOTFS_WAL_OFFSET in Hr.
    assert (Hl : Z.of_nat (length (take 52 (rec_bytes WalDemo.rec1))) = 52) by (vm_compute; reflexivity). rewrite Hl in Hr.
    change (records ([] ++ [WLog SOTFS_WAL_KIND_ANOMALY_EV (replicate 24 1); WAppend WalDemo.rec2])) with [WalDemo.rec2] in Hr.
    assert (Hn : (apply_all sotfs_graph_init IoDemo.dev [WalDemo.rec2]).1.1 = 0) by (vm_compute; reflexivity).
    destruct (apply_all _ _ _) as [[n g'] s']. simpl in Hn. subst n. rewrite Hr. split; reflexivity.
Defined.

Lemma checkpoint_cadence_witness :
  let w' := (wal_exec_all (sotfs_wal_init wal_boot BlkDemo.blank) WalDemo.ops).2 in
  checkpoints (wal_dump w') = [] /\ g_records_since_checkpoint w' = 3 /\ sotfs_wal_find_last_checkpoint w' = last_checkpoint (wal_dump w').
Proof.
  destruct (checkpoint_cadence wal_boot BlkDemo.blank WalDemo.ops WalDemo.blank_image WalDemo.ops_ok) as (E1&E2&E3).
  - repeat (apply Forall_cons; split; [vm_compute; discriminate|]). constructor.
  - exact WalDemo.ops_fit.
  - cbv zeta. split; [|split; [exact E2|exact E3]]. destruct (checkpoints _); [reflexivity|].
    assert (0 <= Z.of_nat (length l)) by lia. simpl length in E1. rewrite Nat2Z.inj_succ in E1. vm_compute (_ / _) in E1. lia.
Defined.

Lemma payload_stays_in_region_witness :
  let w' := (sotfs_wal_log_payload SOTFS_WAL_KIND_ANOMALY_EV (replicate 24 1) (sotfs_wal_init wal_boot BlkDemo.blank)).2 in
  SOTFS_WAL_OFFSET <= g_wal_cursor w' <= WAL_END.
Proof.
  refine (proj1 (payload_stays_in_region _ BlkDemo.blank SOTFS_WAL_KIND_ANOMALY_EV (replicate 24 1) _ _ _ _ _));
    [reflexivity|exact I|vm_compute; discriminate|vm_compute; split; discriminate|vm_compute; reflexivity].
Defined.

Lemma append_overruns_region_witness :
  let w := (wal_exec_all (sotfs_wal_init wal_boot BlkDemo.blank) (WAppend <$> replicate (Z.to_nat 4946) WalDemo.rec1)).2 in
  (sotfs_wal_append w WalDemo.rec1).1 = 0.
Proof.
  refine (proj1 (append_overruns_region BlkDemo.blank (replicate (Z.to_nat 4946) WalDemo.rec1) WalDemo.rec1 WalDemo.blank_image _ _ _ (proj1 WalDemo.rec1_ok))).
  - vm_compute. discriminate.
  - apply Forall_replicate. exact WalDemo.rec1_ok.
  - apply length_replicate.
Defined.

Lemma write_replay_prefix_witness :
  apply_record IoDemo.graph IoDemo.dev (write_record 1 100 2 0 (replicate 600 7)) = sotfs_file_write IoDemo.graph IoDemo.dev 2 0 (replicate 512 7).
Proof.
  refine (proj1 (write_replay_prefix IoDemo.graph IoDemo.dev 1 100 2 0 (FsDemo.n "/a") (replicate 600 7) _ _)).
  - apply (WalDemo.byte_name_of "/a"). vm_compute. reflexivity.
  - discriminate.
Defined.
