(* ===== verification/ProcdTable.v ===== *)
(** * The process table and event ring of procd

    src/procd/table.c, src/procd/event_ring.c, src/procd/shm_init.c and the headers
    include/procd/proc.h, shm.h and events.h.

    A [proc_t *] or [thread_t *] is the index of its slot, [None] for NULL.  The
    fields that procd only ever zeroes ([real_pid], [birth_tsc], the seL4
    capabilities, [thread_slot_base], [audit_seq] of a process; [tcb],
    [ipc_buffer_vaddr] and [version] of a thread) are left out.  The state of the
    server is [procd]: both tables, the two id counters, the event ring and, for
    [PROCD_SEQLOCK_END_LOGGED], the attach flag with the records sent to the WAL.
    The server initialises its memory before it serves, so the ring is always
    there. *)

From S2P Require Import Prelude.

Definition PROCD_MAX_PROCS : nat := 256.
Definition PROCD_MAX_THREADS : nat := 1024.
Definition PROCD_EVENT_RING_N : Z := 1024.

Inductive proc_state :=
| PROC_STATE_FREE | PROC_STATE_NASCENT | PROC_STATE_RUNNING | PROC_STATE_STOPPED | PROC_STATE_ZOMBIE | PROC_STATE_DEAD.

#[export] Instance proc_state_eq_dec : EqDecision proc_state.
Proof. solve_decision. Defined.

Definition PROC_TIER_0 : Z := 0.
Definition PROC_TIER_1 : Z := 1.
Definition PROC_TIER_2 : Z := 2.
Definition PROC_TIER_3 : Z := 3.

(** [functor_fs], [functor_net] and [functor_proc]. *)
Record functor_binding := mk_functor { f_fs : Z; f_net : Z; f_proc : Z }.

Record proc := mk_proc {
  p_slot : Z; p_synthetic_pid : Z; p_ppid : Z; p_pgid : Z; p_sid : Z;
  p_state : proc_state; p_tier : Z; p_exit_code : Z; p_n_threads : Z;
  p_functor : functor_binding; p_pledge_mask : Z; p_share_flags : Z;
  p_comm : list Z; p_cow_session : Z;
  p_version : Z;
}.

Record thread := mk_thread {
  t_tid : Z; t_owner_slot : Z; t_tls_base : Z; t_clear_tid_ptr : Z; t_robust_list_head : Z; t_state : Z;
}.

Record procd_event := mk_event { ev_seq : Z; ev_kind : Z; ev_slot : Z; ev_extra32 : Z }.
Record event_ring := mk_ring { head_seq : Z; entries : list procd_event }.

Definition zero_proc : proc := mk_proc 0 0 0 0 0 PROC_STATE_FREE 0 0 0 (mk_functor 0 0 0) 0 0 (replicate 16 0) 0 0.
Definition zero_thread : thread := mk_thread 0 0 0 0 0 0.
Definition zero_event : procd_event := mk_event 0 0 0 0.

Definition PROCD_EV_PROC_BORN : Z := 0x10.
Definition PROCD_EV_PROC_EXITED : Z := 0x11.
Definition PROCD_EV_PROC_REAPED : Z := 0x12.
Definition PROCD_EV_THREAD_BORN : Z := 0x13.
Definition PROCD_EV_THREAD_EXITED : Z := 0x14.
Definition PROCD_EV_SIGCHLD : Z := 0x15.
Definition PROCD_EV_EXEC_OK : Z := 0x16.
Definition PROCD_EV_TIER_CHANGED : Z := 0x20.
Definition PROCD_EV_FUNCTOR_REBOUND : Z := 0x21.
Definition PROCD_EV_SYNTH_FORK : Z := 0x22.
Definition PROCD_EV_DENIED_TIER3 : Z := 0x23.
Definition PROCD_EV_TABLE_FULL : Z := 0x30.
Definition PROCD_EV_BADGE_REJECT : Z := 0x32.
Definition PROCD_EV_CLONE_FLAG_ENOSYS : Z := 0x33.

(** The payload of a PROCD_MUT record, as [procd_wal_log_p] fills it. *)
Record procd_mut := mk_mut {
  mu_slot : Z; mu_synthetic_pid : Z; mu_ppid : Z; mu_pgid : Z; mu_sid : Z;
  mu_tier : Z; mu_functor : functor_binding; mu_state : proc_state; mu_pledge_mask : Z;
}.

Record procd := mk_procd {
  g_procs : list proc;
  g_threads : list thread;
  g_next_pid : Z;
  g_next_tid : Z;
  g_ring : event_ring;
  g_wal_attached : bool;
  g_wal_sent : list procd_mut;
}.

Definition proc_at (d : procd) (i : nat) : proc := (g_procs d).[i, zero_proc].
Definition thread_at (d : procd) (i : nat) : thread := (g_threads d).[i, zero_thread].

Definition set_proc (d : procd) (i : nat) (p : proc) : procd :=
  mk_procd (<[i := p]> (g_procs d)) (g_threads d) (g_next_pid d) (g_next_tid d) (g_ring d) (g_wal_attached d) (g_wal_sent d).
Definition set_thread (d : procd) (i : nat) (t : thread) : procd :=
  mk_procd (g_procs d) (<[i := t]> (g_threads d)) (g_next_pid d) (g_next_tid d) (g_ring d) (g_wal_attached d) (g_wal_sent d).
Definition set_next_pid (d : procd) (n : Z) : procd :=
  mk_procd (g_procs d) (g_threads d) n (g_next_tid d) (g_ring d) (g_wal_attached d) (g_wal_sent d).
Definition set_next_tid (d : procd) (n : Z) : procd :=
  mk_procd (g_procs d) (g_threads d) (g_next_pid d) n (g_ring d) (g_wal_attached d) (g_wal_sent d).
Definition set_ring (d : procd) (r : event_ring) : procd :=
  mk_procd (g_procs d) (g_threads d) (g_next_pid d) (g_next_tid d) r (g_wal_attached d) (g_wal_sent d).
Definition set_wal_sent (d : procd) (l : list procd_mut) : procd :=
  mk_procd (g_procs d) (g_threads d) (g_next_pid d) (g_next_tid d) (g_ring d) (g_wal_attached d) l.

(** ** The seqlock *)

Definition with_version (p : proc) (v : Z) : proc :=
  mk_proc (p_slot p) (p_synthetic_pid p) (p_ppid p) (p_pgid p) (p_sid p) (p_state p) (p_tier p) (p_exit_code p) (p_n_threads p)
    (p_functor p) (p_pledge_mask p) (p_share_flags p) (p_comm p) (p_cow_session p) v.
Definition procd_seqlock_begin (p : proc) : proc := with_version p (Z.lor (p_version p) 1).
Definition procd_seqlock_end (p : proc) : proc := with_version p (u64 (p_version p + 1)).

Definition procd_wal_log_p (d : procd) (p : proc) : procd :=
  if g_wal_attached d then
    set_wal_sent d (mk_mut (p_slot p) (p_synthetic_pid p) (p_ppid p) (p_pgid p) (p_sid p) (u16 (p_tier p)) (p_functor p) (p_state p) (p_pledge_mask p)
                      :: g_wal_sent d)
  else d.

(** [procd_seqlock_begin(p); f(p); PROCD_SEQLOCK_END_LOGGED(p)] on slot [i]. *)
Definition commit_proc (d : procd) (i : nat) (f : proc -> proc) : procd :=
  let p := procd_seqlock_end (f (procd_seqlock_begin (proc_at d i))) in
  procd_wal_log_p (set_proc d i p) p.

(** ** The event ring *)

Definition procd_event_ring_init : event_ring := mk_ring 0 (replicate (Z.to_nat PROCD_EVENT_RING_N) zero_event).

Definition ring_index (seq : Z) : nat := Z.to_nat (Z.land seq (PROCD_EVENT_RING_N - 1)).

Definition procd_event_publish (r : event_ring) (kind slot extra32 : Z) : event_ring :=
  mk_ring (u64 (head_seq r + 1)) (<[ring_index (head_seq r) := mk_event (head_seq r) kind slot extra32]> (entries r)).

Definition publish (d : procd) (kind slot extra32 : Z) : procd := set_ring d (procd_event_publish (g_ring d) kind slot extra32).

(** The copy loop of [procd_event_drain]: at most [max_n] events from [tail] up to
    the head. *)
Fixpoint drain_loop (r : event_ring) (tail : Z) (max_n : nat) : Z * list procd_event :=
  match max_n with
  | O => (tail, [])
  | S n => if tail <? head_seq r then
             let '(tail', out) := drain_loop r (u64 (tail + 1)) n in
             (tail', (entries r).[ring_index tail, zero_event] :: out)
           else (tail, [])
  end.

(** Result: the new tail, the events copied, the overflow flag. *)
Definition procd_event_drain (r : event_ring) (tail : Z) (max_n : nat) : Z * list procd_event * bool :=
  if tail >? head_seq r then (head_seq r, [], false)
  else
    let lag := head_seq r - tail in
    let overflow := lag >? PROCD_EVENT_RING_N / 2 in
    let tail := if overflow then head_seq r - PROCD_EVENT_RING_N / 4 else tail in
    let '(tail, out) := drain_loop r tail max_n in
    (tail, out, overflow).

(** ** The tables *)

Definition with_state (p : proc) (s : proc_state) : proc :=
  mk_proc (p_slot p) (p_synthetic_pid p) (p_ppid p) (p_pgid p) (p_sid p) s (p_tier p) (p_exit_code p) (p_n_threads p)
    (p_functor p) (p_pledge_mask p) (p_share_flags p) (p_comm p) (p_cow_session p) (p_version p).

Definition procd_table_init (attached : bool) : procd :=
  mk_procd (<[0%nat := with_state zero_proc PROC_STATE_DEAD]> (replicate PROCD_MAX_PROCS zero_proc))
    (replicate PROCD_MAX_THREADS zero_thread) 1 1 procd_event_ring_init attached [].

(** The scans start at slot 1. *)
Definition procd_slot_alloc (d : procd) : option nat * procd :=
  match first_from (fun i => bool_decide (p_state (proc_at d i) = PROC_STATE_FREE)) 1 (PROCD_MAX_PROCS - 1) with
  | None => (None, d)
  | Some i =>
      (Some i, set_next_pid
                 (set_proc d i (mk_proc (Z.of_nat i) (g_next_pid d) 0 0 0 PROC_STATE_NASCENT 0 0 0 (mk_functor 0 0 0) 0 0 (replicate 16 0) 0 0))
                 (u32 (g_next_pid d + 1)))
  end.

Definition procd_slot_free (d : procd) (slot : Z) : Z * procd :=
  if (slot =? 0) || (slot >=? Z.of_nat PROCD_MAX_PROCS) then (-1, d) else (0, set_proc d (Z.to_nat slot) zero_proc).

Definition procd_thread_alloc (d : procd) : option nat * procd :=
  match first_from (fun i => (t_state (thread_at d i) =? 0) && (t_tid (thread_at d i) =? 0)) 1 (PROCD_MAX_THREADS - 1) with
  | None => (None, d)
  | Some i => (Some i, set_next_tid (set_thread d i (mk_thread (g_next_tid d) 0 0 0 0 1)) (u32 (g_next_tid d + 1)))
  end.

Definition procd_thread_free (d : procd) (tslot : nat) : procd :=
  if (tslot =? 0)%nat || (PROCD_MAX_THREADS <=? tslot)%nat then d else set_thread d tslot zero_thread.

Definition procd_thread_at_index (i : nat) : option nat :=
  if (i =? 0)%nat || (PROCD_MAX_THREADS <=? i)%nat then None else Some i.

Definition procd_thread_by_tid (d : procd) (tid : Z) : option nat :=
  if tid =? 0 then None else first_from (fun i => t_tid (thread_at d i) =? tid) 1 (PROCD_MAX_THREADS - 1).

Definition procd_table_get (slot : Z) : option nat :=
  if slot >=? Z.of_nat PROCD_MAX_PROCS then None else Some (Z.to_nat slot).

Definition procd_table_first_zombie_child (d : procd) (ppid : Z) : option nat :=
  first_from (fun i => bool_decide (p_state (proc_at d i) = PROC_STATE_ZOMBIE) && (p_ppid (proc_at d i) =? ppid)) 1 (PROCD_MAX_PROCS - 1).

Definition procd_table_lookup_by_synthetic_pid (d : procd) (pid : Z) : option nat :=
  if pid =? 0 then None
  else first_from (fun i => (p_synthetic_pid (proc_at d i) =? pid) && negb (bool_decide (p_state (proc_at d i) = PROC_STATE_FREE)))
         1 (PROCD_MAX_PROCS - 1).
