(* ===== verification/ProcdServer.v ===== *)
(** * The request handlers and the dispatcher of procd

    src/procd/handlers_lifecycle.c and the service loop of src/procd/main.c, with
    include/procd/proto.h and include/procd/functor.h.

    A handler is a function of the server state and of the request fields it reads;
    it returns the reply and the new state.  [procd_dispatch] unpacks the message
    registers the way the loop does; the registers are the function [mr], the badge
    is what [seL4_Recv] returned. *)

From S2P Require Import Prelude ProcdTable.

Definition PROCD_OP_SPAWN : Z := 0x01.
Definition PROCD_OP_FORK : Z := 0x02.
Definition PROCD_OP_CLONE : Z := 0x03.
Definition PROCD_OP_EXEC : Z := 0x04.
Definition PROCD_OP_EXIT : Z := 0x05.
Definition PROCD_OP_THREAD_EXIT : Z := 0x06.
Definition PROCD_OP_WAIT : Z := 0x07.
Definition PROCD_OP_SETSID : Z := 0x09.
Definition PROCD_OP_SETPGID : Z := 0x0A.
Definition PROCD_OP_GETPGID : Z := 0x0B.
Definition PROCD_OP_SET_ROBUST : Z := 0x0E.
Definition PROCD_OP_SET_TIER : Z := 0x40.
Definition PROCD_OP_REBIND_FUNCTOR : Z := 0x41.
Definition PROCD_OP_SET_SESSION : Z := 0x44.

Definition BADGE_ANOMALY_OP_SET_TIER : Z := 0xA009.

Definition FFS_IDENTITY : Z := 0.
Definition FFS_WRITE_SILENCED : Z := 1.
Definition FFS_ISOLATED : Z := 2.
Definition FFS_REVOKED : Z := 3.
Definition FNET_IDENTITY : Z := 0.
Definition FNET_SYNTH : Z := 1.
Definition FNET_REVOKED : Z := 2.
Definition FPROC_IDENTITY : Z := 0.
Definition FPROC_SYNTH_FORK : Z := 1.
Definition FPROC_REVOKED : Z := 2.

Definition procd_default_functor_for_tier : list functor_binding :=
  [mk_functor FFS_IDENTITY FNET_IDENTITY FPROC_IDENTITY; mk_functor FFS_WRITE_SILENCED FNET_IDENTITY FPROC_IDENTITY;
   mk_functor FFS_ISOLATED FNET_SYNTH FPROC_SYNTH_FORK; mk_functor FFS_REVOKED FNET_REVOKED FPROC_REVOKED].
Definition default_functor (tier : Z) : functor_binding := procd_default_functor_for_tier.[Z.to_nat tier, mk_functor 0 0 0].

Definition LX_CLONE_VM : Z := 0x100.
Definition LX_CLONE_FS : Z := 0x200.
Definition LX_CLONE_FILES : Z := 0x400.
Definition LX_CLONE_SIGHAND : Z := 0x800.
Definition LX_CLONE_PTRACE : Z := 0x2000.
Definition LX_CLONE_VFORK : Z := 0x4000.
Definition LX_CLONE_PARENT : Z := 0x8000.
Definition LX_CLONE_THREAD : Z := 0x10000.
Definition LX_CLONE_NEWNS : Z := 0x20000.
Definition LX_CLONE_NEWCGROUP : Z := 0x2000000.
Definition LX_CLONE_NEWUTS : Z := 0x4000000.
Definition LX_CLONE_NEWIPC : Z := 0x8000000.
Definition LX_CLONE_NEWUSER : Z := 0x10000000.
Definition LX_CLONE_NEWPID : Z := 0x20000000.
Definition LX_CLONE_NEWNET : Z := 0x40000000.

Record procd_reply := mk_reply { rp_result : Z; rp_out_slot : Z; rp_out_extra : Z }.

Definition err (e : Z) : procd_reply := mk_reply e 0 0.
Definition EAGAIN : Z := -11.
Definition ESRCH : Z := -3.
Definition EPERM : Z := -1.
Definition EINVAL : Z := -22.
Definition ECHILD : Z := -10.
Definition ENOSYS : Z := -38.

Definition is_free (p : proc) : bool := bool_decide (p_state p = PROC_STATE_FREE).
(** [state == FREE || state == DEAD]: the guard of exit, exec and clone. *)
Definition is_stale (p : proc) : bool := is_free p || bool_decide (p_state p = PROC_STATE_DEAD).

(** [strncpy(dst, src, 15); dst[15] = 0] on a 16-byte array. *)
Definition copy_comm (src : list Z) : list Z := let s := c_str (take 15 src) in s ++ replicate (16 - length s) 0.

(** ** Spawn and fork *)

Definition spawn_fill (caller_slot initial_tier initial_pledge : Z) (comm : list Z) (p : proc) : proc :=
  mk_proc (p_slot p) (p_synthetic_pid p) caller_slot (p_synthetic_pid p) (p_synthetic_pid p) PROC_STATE_NASCENT initial_tier 0 (p_n_threads p)
    (if initial_tier <=? PROC_TIER_3 then default_functor initial_tier else p_functor p)
    initial_pledge (p_share_flags p) (copy_comm comm) 0 (p_version p).

Definition procd_handle_spawn (d : procd) (caller_slot initial_tier initial_pledge : Z) (comm : list Z) : procd_reply * procd :=
  match procd_slot_alloc d with
  | (None, d) => (err EAGAIN, publish d PROCD_EV_TABLE_FULL caller_slot 0)
  | (Some slot, d) =>
      let d := commit_proc d slot (spawn_fill caller_slot initial_tier initial_pledge comm) in
      let pid := p_synthetic_pid (proc_at d slot) in
      let d := publish d PROCD_EV_PROC_BORN (Z.of_nat slot) pid in
      (mk_reply (Z.of_nat slot) (Z.of_nat slot) pid, d)
  end.

(** What a child takes from its parent. *)
Definition inherit (parent : proc) (ppid tier : Z) (f : functor_binding) (share : Z -> Z) (p : proc) : proc :=
  mk_proc (p_slot p) (p_synthetic_pid p) ppid (p_pgid parent) (p_sid parent) PROC_STATE_NASCENT tier 0 (p_n_threads p)
    f (p_pledge_mask parent) (share (p_share_flags p)) (copy_comm (p_comm parent)) (p_cow_session parent) (p_version p).

Definition do_fork_real (d : procd) (parent : nat) (caller_slot : Z) : procd_reply * procd :=
  match procd_slot_alloc d with
  | (None, d) => (err EAGAIN, publish d PROCD_EV_TABLE_FULL caller_slot 0)
  | (Some slot, d) =>
      let pa := proc_at d parent in
      let d := commit_proc d slot (inherit pa (p_synthetic_pid pa) (p_tier pa) (p_functor pa) id) in
      let pid := p_synthetic_pid (proc_at d slot) in
      (mk_reply (Z.of_nat slot) (Z.of_nat slot) pid, publish d PROCD_EV_PROC_BORN (Z.of_nat slot) pid)
  end.

Definition do_fork_synth (d : procd) (parent : nat) (caller_slot : Z) : procd_reply * procd :=
  match procd_slot_alloc d with
  | (None, d) => (err EAGAIN, publish d PROCD_EV_TABLE_FULL caller_slot 0)
  | (Some slot, d) =>
      let pa := proc_at d parent in
      let d := commit_proc d slot (inherit pa (p_synthetic_pid pa) PROC_TIER_2 (mk_functor FFS_ISOLATED FNET_SYNTH FPROC_SYNTH_FORK) id) in
      let pid := p_synthetic_pid (proc_at d slot) in
      (mk_reply (i32 pid) (Z.of_nat slot) pid, publish d PROCD_EV_SYNTH_FORK (Z.of_nat slot) (p_synthetic_pid (proc_at d parent)))
  end.

Definition procd_handle_fork (d : procd) (caller_slot : Z) : procd_reply * procd :=
  match procd_table_get caller_slot with
  | None => (err ESRCH, d)
  | Some parent =>
      let tier := p_tier (proc_at d parent) in
      if (tier =? PROC_TIER_0) || (tier =? PROC_TIER_1) then do_fork_real d parent caller_slot
      else if tier =? PROC_TIER_2 then do_fork_synth d parent caller_slot
      else if tier =? PROC_TIER_3 then (err EPERM, publish d PROCD_EV_DENIED_TIER3 caller_slot PROCD_OP_FORK)
      else (err EINVAL, d)
  end.

(** ** Exit, wait, exec *)

Definition exit_with (code : Z) (p : proc) : proc :=
  mk_proc (p_slot p) (p_synthetic_pid p) (p_ppid p) (p_pgid p) (p_sid p) PROC_STATE_ZOMBIE (p_tier p) code (p_n_threads p)
    (p_functor p) (p_pledge_mask p) (p_share_flags p) (p_comm p) (p_cow_session p) (p_version p).

Definition procd_handle_exit (d : procd) (caller_slot exit_status : Z) : procd_reply * procd :=
  match procd_table_get caller_slot with
  | None => (err ESRCH, d)
  | Some i =>
      if is_stale (proc_at d i) then (err ESRCH, d)
      else
        let d := commit_proc d i (exit_with exit_status) in
        let p := proc_at d i in
        let d := publish d PROCD_EV_PROC_EXITED (p_slot p) (u32 exit_status) in
        let d := publish d PROCD_EV_SIGCHLD (if p_ppid p =? 0 then 1 else p_ppid p) (p_slot p) in
        (err 0, d)
  end.

Definition procd_handle_wait (d : procd) (caller_slot options : Z) : procd_reply * procd :=
  match procd_table_get caller_slot with
  | None => (err ESRCH, d)
  | Some i =>
      match procd_table_first_zombie_child d (p_synthetic_pid (proc_at d i)) with
      | None => (err (if Z.testbit options 0 then 0 else ECHILD), d)
      | Some z =>
          let status := p_exit_code (proc_at d z) in
          let pid := i32 (p_synthetic_pid (proc_at d z)) in
          let d := commit_proc d z (fun p => with_state p PROC_STATE_DEAD) in
          let zslot := p_slot (proc_at d z) in
          (mk_reply pid zslot (u32 status), publish d PROCD_EV_PROC_REAPED zslot (u32 status))
      end
  end.

Definition procd_handle_exec (d : procd) (caller_slot : Z) : procd_reply * procd :=
  match procd_table_get caller_slot with
  | None => (err ESRCH, d)
  | Some i =>
      if is_stale (proc_at d i) then (err ESRCH, d)
      else
        let d := commit_proc d i (fun p => with_state p PROC_STATE_RUNNING) in
        let p := proc_at d i in
        (mk_reply 0 (p_slot p) (p_synthetic_pid p), publish d PROCD_EV_EXEC_OK (p_slot p) 0)
  end.

(** ** Clone *)

Definition with_threads (p : proc) (n : Z) : proc :=
  mk_proc (p_slot p) (p_synthetic_pid p) (p_ppid p) (p_pgid p) (p_sid p) (p_state p) (p_tier p) (p_exit_code p) n
    (p_functor p) (p_pledge_mask p) (p_share_flags p) (p_comm p) (p_cow_session p) (p_version p).

Definition procd_clone_thread (d : procd) (caller_slot tls child_tid_ptr : Z) : procd_reply * procd :=
  match procd_table_get caller_slot with
  | None => (err ESRCH, d)
  | Some i =>
      if is_stale (proc_at d i) then (err ESRCH, d)
      else match procd_thread_alloc d with
           | (None, d) => (err EAGAIN, publish d PROCD_EV_TABLE_FULL caller_slot 0)
           | (Some tslot, d) =>
               match procd_thread_at_index tslot with
               | None => (err EAGAIN, d)
               | Some t =>
                   let th := thread_at d t in
                   let d := set_thread d t (mk_thread (t_tid th) caller_slot tls child_tid_ptr 0 (t_state th)) in
                   let d := commit_proc d i (fun p => with_threads p (u32 (p_n_threads p + 1))) in
                   let tid := t_tid (thread_at d t) in
                   (mk_reply (i32 tid) caller_slot (Z.of_nat tslot), publish d PROCD_EV_THREAD_BORN caller_slot tid)
               end
           end
  end.

Definition clone_share (flags : Z) : Z := u32 (Z.land flags (Z.lor LX_CLONE_FS (Z.lor LX_CLONE_FILES LX_CLONE_SIGHAND))).
Definition has_flag (flags f : Z) : bool := negb (Z.land flags f =? 0).

Definition procd_clone_fork_like (d : procd) (caller_slot flags : Z) : procd_reply * procd :=
  match procd_table_get caller_slot with
  | None => (err ESRCH, d)
  | Some parent =>
      if is_stale (proc_at d parent) then (err ESRCH, d)
      else match procd_slot_alloc d with
           | (None, d) => (err EAGAIN, publish d PROCD_EV_TABLE_FULL caller_slot 0)
           | (Some slot, d) =>
               let pa := proc_at d parent in
               let ppid := if has_flag flags LX_CLONE_PARENT then p_ppid pa else p_synthetic_pid pa in
               let d := commit_proc d slot (inherit pa ppid (p_tier pa) (p_functor pa) (fun _ => clone_share flags)) in
               let pid := p_synthetic_pid (proc_at d slot) in
               let d := publish d PROCD_EV_PROC_BORN (Z.of_nat slot) pid in
               let d := if has_flag flags LX_CLONE_VFORK then publish d PROCD_EV_PROC_BORN (Z.of_nat slot) (Z.lor 0xFF000000 pid) else d in
               (mk_reply (Z.of_nat slot) (Z.of_nat slot) pid, d)
           end
  end.

Definition clone_unsupported : Z :=
  Z.lor LX_CLONE_NEWNS (Z.lor LX_CLONE_NEWPID (Z.lor LX_CLONE_NEWUSER (Z.lor LX_CLONE_NEWNET
    (Z.lor LX_CLONE_NEWIPC (Z.lor LX_CLONE_NEWUTS (Z.lor LX_CLONE_NEWCGROUP LX_CLONE_PTRACE)))))).

Definition procd_handle_clone (d : procd) (caller_slot flags tls child_tid_ptr : Z) : procd_reply * procd :=
  if has_flag flags clone_unsupported then
    (err ENOSYS, publish d PROCD_EV_CLONE_FLAG_ENOSYS caller_slot (u32 (Z.land flags clone_unsupported)))
  else if has_flag flags LX_CLONE_THREAD then
    if negb (has_flag flags LX_CLONE_VM) || negb (has_flag flags LX_CLONE_SIGHAND) then (err EINVAL, d)
    else procd_clone_thread d caller_slot tls child_tid_ptr
  else procd_clone_fork_like d caller_slot flags.

(** ** Sessions and process groups *)

Definition with_group (p : proc) (pgid sid : Z) : proc :=
  mk_proc (p_slot p) (p_synthetic_pid p) (p_ppid p) pgid sid (p_state p) (p_tier p) (p_exit_code p) (p_n_threads p)
    (p_functor p) (p_pledge_mask p) (p_share_flags p) (p_comm p) (p_cow_session p) (p_version p).

Definition procd_handle_setsid (d : procd) (caller_slot : Z) : procd_reply * procd :=
  match procd_table_get caller_slot with
  | None => (err ESRCH, d)
  | Some i =>
      let p := proc_at d i in
      if is_free p then (err ESRCH, d)
      else if (p_pgid p =? p_synthetic_pid p) && (p_sid p =? p_synthetic_pid p) then (err EPERM, d)
      else
        let d := commit_proc d i (fun p => with_group p (p_synthetic_pid p) (p_synthetic_pid p)) in
        let p := proc_at d i in
        (mk_reply (i32 (p_sid p)) (p_slot p) (p_synthetic_pid p), d)
  end.

(** The process [target_pid] names: 0 and the caller's own pid mean the caller. *)
Definition group_target (d : procd) (caller : nat) (target_pid : Z) : option nat :=
  if negb (target_pid =? 0) && negb (target_pid =? p_synthetic_pid (proc_at d caller))
  then procd_table_lookup_by_synthetic_pid d target_pid else Some caller.

Definition procd_handle_setpgid (d : procd) (caller_slot target_pid new_pgid : Z) : procd_reply * procd :=
  match procd_table_get caller_slot with
  | None => (err ESRCH, d)
  | Some i =>
      if is_free (proc_at d i) then (err ESRCH, d)
      else match group_target d i target_pid with
           | None => (err ESRCH, d)
           | Some t =>
               let pgid := if new_pgid =? 0 then p_synthetic_pid (proc_at d t) else new_pgid in
               let d := commit_proc d t (fun p => with_group p pgid (p_sid p)) in
               (mk_reply 0 (p_slot (proc_at d t)) 0, d)
           end
  end.

Definition procd_handle_getpgid (d : procd) (caller_slot target_pid : Z) : procd_reply * procd :=
  match procd_table_get caller_slot with
  | None => (err ESRCH, d)
  | Some i =>
      if is_free (proc_at d i) then (err ESRCH, d)
      else match group_target d i target_pid with
           | None => (err ESRCH, d)
           | Some t => (mk_reply (i32 (p_pgid (proc_at d t))) (p_slot (proc_at d t)) 0, d)
           end
  end.

(** ** Threads *)

(** The second scan of the C code looks for the index of the pointer the first one
    returned; the pointer is an index here. *)
Definition procd_handle_thread_exit (d : procd) (tid : Z) : procd_reply * procd :=
  match procd_thread_by_tid d tid with
  | None => (err ESRCH, d)
  | Some t =>
      let owner_slot := t_owner_slot (thread_at d t) in
      let d := match procd_table_get owner_slot with
               | Some o => commit_proc d o (fun p => if p_n_threads p >? 0 then with_threads p (p_n_threads p - 1) else p)
               | None => d
               end in
      let d := procd_thread_free d t in
      (mk_reply 0 owner_slot (Z.of_nat t), publish d PROCD_EV_THREAD_EXITED owner_slot tid)
  end.

Definition set_robust_head (th : thread) (h : Z) : thread :=
  mk_thread (t_tid th) (t_owner_slot th) (t_tls_base th) (t_clear_tid_ptr th) h (t_state th).

Definition procd_handle_set_robust (d : procd) (caller_slot tid robust_head : Z) : procd_reply * procd :=
  if tid =? 0 then
    match first_from (fun i => t_owner_slot (thread_at d i) =? caller_slot) 1 (PROCD_MAX_THREADS - 1) with
    | Some i => (mk_reply 0 caller_slot (t_tid (thread_at d i)), set_thread d i (set_robust_head (thread_at d i) robust_head))
    | None => (mk_reply 0 caller_slot 0, d)
    end
  else
    match procd_thread_by_tid d tid with
    | None => (err ESRCH, d)
    | Some i => (mk_reply 0 caller_slot tid, set_thread d i (set_robust_head (thread_at d i) robust_head))
    end.

(** ** Tier and functors *)

Definition with_tier (tier : Z) (f : functor_binding) (p : proc) : proc :=
  mk_proc (p_slot p) (p_synthetic_pid p) (p_ppid p) (p_pgid p) (p_sid p) (p_state p) tier (p_exit_code p) (p_n_threads p)
    f (p_pledge_mask p) (p_share_flags p) (p_comm p) (p_cow_session p) (p_version p).

(** [(fs << 16) | (net << 8) | proc] *)
Definition pack_functor (f : functor_binding) : Z := u32 (Z.lor (Z.shiftl (f_fs f) 16) (Z.lor (Z.shiftl (f_net f) 8) (f_proc f))).

Definition procd_handle_set_tier (d : procd) (badge caller_slot new_tier : Z) : procd_reply * procd :=
  if negb (badge =? BADGE_ANOMALY_OP_SET_TIER) then (err EPERM, publish d PROCD_EV_BADGE_REJECT caller_slot PROCD_OP_SET_TIER)
  else
    match procd_table_get caller_slot with
    | None => (err ESRCH, d)
    | Some i =>
        if is_free (proc_at d i) then (err ESRCH, d)
        else if new_tier >? PROC_TIER_3 then (err EINVAL, d)
        else
          let old := p_tier (proc_at d i) in
          let d := commit_proc d i (with_tier new_tier (default_functor new_tier)) in
          let p := proc_at d i in
          let d := publish d PROCD_EV_TIER_CHANGED (p_slot p) (Z.lor (u32 (Z.shiftl old 16)) new_tier) in
          let d := publish d PROCD_EV_FUNCTOR_REBOUND (p_slot p) (pack_functor (p_functor p)) in
          (mk_reply 0 (p_slot p) 0, d)
    end.

Definition procd_handle_rebind_functor (d : procd) (badge caller_slot new_fs new_net new_proc : Z) : procd_reply * procd :=
  if negb (badge =? BADGE_ANOMALY_OP_SET_TIER) then (err EPERM, publish d PROCD_EV_BADGE_REJECT caller_slot PROCD_OP_REBIND_FUNCTOR)
  else
    match procd_table_get caller_slot with
    | None => (err ESRCH, d)
    | Some i =>
        if is_free (proc_at d i) then (err ESRCH, d)
        else
          let d := commit_proc d i (fun p => with_tier (p_tier p) (mk_functor (u16 new_fs) (u16 new_net) (u16 new_proc)) p) in
          let p := proc_at d i in
          (mk_reply 0 (p_slot p) 0, publish d PROCD_EV_FUNCTOR_REBOUND (p_slot p) (pack_functor (p_functor p)))
    end.

(** ** Session *)

Definition with_session (p : proc) (session : Z) (comm : list Z) : proc :=
  mk_proc (p_slot p) (p_synthetic_pid p) (p_ppid p) (p_pgid p) (p_sid p) (p_state p) (p_tier p) (p_exit_code p) (p_n_threads p)
    (p_functor p) (p_pledge_mask p) (p_share_flags p) comm session (p_version p).

Definition procd_handle_set_session (d : procd) (target_slot cow_session : Z) (comm : list Z) (comm_present : Z) : procd_reply * procd :=
  match procd_table_get target_slot with
  | None => (err ESRCH, d)
  | Some i =>
      if is_free (proc_at d i) then (err ESRCH, d)
      else
        let d := commit_proc d i (fun p => with_session p cow_session (if comm_present =? 0 then p_comm p else copy_comm comm)) in
        (mk_reply 0 (p_slot (proc_at d i)) 0, d)
  end.

(** ** The dispatcher *)

(** A word of 64 bits read as [int32_t] or [uint32_t]. *)
Definition comm_of (lo hi : Z) : list Z := take 15 (le_bytes 8 lo ++ le_bytes 8 hi) ++ [0].

(** One round of the service loop: the reply, the new state and whether the
    subscriber notification (when [ntf] says there is one) was signalled. *)
Definition procd_dispatch (d : procd) (ntf : bool) (badge : Z) (mr : nat -> Z) : procd_reply * procd * bool :=
  let op := mr 0%nat in
  let caller := u32 (mr 1%nat) in
  let wake (c : Z -> bool) (x : procd_reply * procd) := (x.1, x.2, ntf && c (rp_result x.1)) in
  let ok r := 0 <=? r in
  let never _ := false in
  if op =? PROCD_OP_SPAWN then
    wake ok (procd_handle_spawn d caller (u32 (mr 2%nat)) (Z.lor (u64 (Z.shiftl (mr 4%nat) 32)) (u32 (mr 3%nat))) (comm_of (mr 5%nat) (mr 6%nat)))
  else if op =? PROCD_OP_FORK then wake ok (procd_handle_fork d caller)
  else if op =? PROCD_OP_EXIT then wake ok (procd_handle_exit d caller (i32 (mr 2%nat)))
  else if op =? PROCD_OP_WAIT then wake (fun r => 0 <? r) (procd_handle_wait d caller (i32 (mr 3%nat)))
  else if op =? PROCD_OP_EXEC then wake ok (procd_handle_exec d caller)
  else if op =? PROCD_OP_CLONE then wake (fun _ => true) (procd_handle_clone d caller (mr 2%nat) (mr 3%nat) (mr 4%nat))
  else if op =? PROCD_OP_THREAD_EXIT then wake ok (procd_handle_thread_exit d (u32 (mr 2%nat)))
  else if op =? PROCD_OP_SET_ROBUST then wake never (procd_handle_set_robust d caller (u32 (mr 2%nat)) (mr 3%nat))
  else if op =? PROCD_OP_SETSID then wake never (procd_handle_setsid d caller)
  else if op =? PROCD_OP_SETPGID then wake never (procd_handle_setpgid d caller (u32 (mr 2%nat)) (u32 (mr 3%nat)))
  else if op =? PROCD_OP_GETPGID then wake never (procd_handle_getpgid d caller (u32 (mr 2%nat)))
  else if op =? PROCD_OP_SET_TIER then wake ok (procd_handle_set_tier d badge caller (u32 (mr 2%nat)))
  else if op =? PROCD_OP_REBIND_FUNCTOR then
    wake ok (procd_handle_rebind_functor d badge caller (u32 (mr 2%nat)) (u32 (mr 3%nat)) (u32 (mr 4%nat)))
  else if op =? PROCD_OP_SET_SESSION then
    wake never (procd_handle_set_session d caller (u32 (mr 2%nat)) (comm_of (mr 3%nat) (mr 4%nat)) (u32 (mr 5%nat)))
  else (err ENOSYS, d, false).

(** The state the loop starts from: the marker event of [main] is published. *)
Definition procd_boot : procd := publish (procd_table_init false) PROCD_EV_PROC_BORN 0 0xC0FFEE.

(** Serving a sequence of messages. *)
Fixpoint procd_serve (d : procd) (ntf : bool) (msgs : list (Z * (nat -> Z))) : list procd_reply * procd :=
  match msgs with
  | [] => ([], d)
  | (badge, mr) :: msgs' =>
      let '(rep, d, _) := procd_dispatch d ntf badge mr in
      let '(reps, d) := procd_serve d ntf msgs' in
      (rep :: reps, d)
  end.
