(* ===== verification/ProcdSpec.v ===== *)
(** * What a request does to the process table

    [table_step] is the abstract step of the table: nothing, a birth in one slot, or
    a change that keeps the identity of the process and moves its state along
    [state_next].  [dispatch_step] shows that every request of the dispatcher is
    such a step. *)

From S2P Require Import Prelude ProcdTable ProcdServer.

(** ** Primitives on slots *)

Section slots.
Implicit Types (d : procd) (i j : nat) (p : proc).

Lemma proc_at_publish d kind s x j : proc_at (publish d kind s x) j = proc_at d j.
Proof. done. Qed.
Lemma proc_at_set_thread d t th j : proc_at (set_thread d t th) j = proc_at d j.
Proof. done. Qed.
Lemma proc_at_thread_free d t j : proc_at (procd_thread_free d t) j = proc_at d j.
Proof. unfold procd_thread_free. by destruct (_ || _). Qed.

Lemma procs_commit d i f : g_procs (commit_proc d i f) = <[i := procd_seqlock_end (f (procd_seqlock_begin (proc_at d i)))]> (g_procs d).
Proof. unfold commit_proc, procd_wal_log_p. by destruct (g_wal_attached _). Qed.

Lemma proc_at_commit d i f j :
  (i < length (g_procs d))%nat ->
  proc_at (commit_proc d i f) j = if decide (i = j) then procd_seqlock_end (f (procd_seqlock_begin (proc_at d i))) else proc_at d j.
Proof. intros Hi. unfold proc_at at 1. rewrite procs_commit. by apply array_get_insert. Qed.

(** Everything but the table of processes and the WAL trace is left alone. *)
Lemma commit_rest d i f :
  let d' := commit_proc d i f in
  g_threads d' = g_threads d /\ g_next_pid d' = g_next_pid d /\ g_next_tid d' = g_next_tid d /\ g_ring d' = g_ring d
  /\ length (g_procs d') = length (g_procs d).
Proof.
  cbv zeta. rewrite procs_commit, length_insert. unfold commit_proc, procd_wal_log_p. by destruct (g_wal_attached _).
Qed.

(** The record a fresh slot starts with. *)
Definition newborn (i : nat) (pid : Z) : proc :=
  mk_proc (Z.of_nat i) pid 0 0 0 PROC_STATE_NASCENT 0 0 0 (mk_functor 0 0 0) 0 0 (replicate 16 0) 0 0.

Lemma slot_alloc_Some d i d' :
  length (g_procs d) = PROCD_MAX_PROCS -> procd_slot_alloc d = (Some i, d') ->
  (1 <= i < PROCD_MAX_PROCS)%nat /\ p_state (proc_at d i) = PROC_STATE_FREE
  /\ (forall j, (1 <= j < i)%nat -> p_state (proc_at d j) <> PROC_STATE_FREE)
  /\ (forall j, proc_at d' j = if decide (i = j) then newborn i (g_next_pid d) else proc_at d j)
  /\ g_next_pid d' = u32 (g_next_pid d + 1) /\ g_threads d' = g_threads d /\ g_next_tid d' = g_next_tid d /\ g_ring d' = g_ring d
  /\ length (g_procs d') = PROCD_MAX_PROCS.
Proof.
  unfold procd_slot_alloc. intros Hl E. destruct (first_from _ _ _) as [k|] eqn:Hf; simplify_eq.
  apply first_from_Some in Hf as (Hi&Hp&Hb). apply bool_decide_eq_true in Hp.
  assert (1 <= i < PROCD_MAX_PROCS)%nat as Hi' by (unfold PROCD_MAX_PROCS in *; lia).
  split_and!; try done; try lia.
  - intros j Hj. specialize (Hb j Hj). by apply bool_decide_eq_false in Hb.
  - intros j. unfold proc_at at 1. simpl. rewrite array_get_insert by lia. done.
  - simpl. by rewrite length_insert.
Qed.

Lemma slot_alloc_None d d' :
  procd_slot_alloc d = (None, d') -> d' = d /\ forall j, (1 <= j < PROCD_MAX_PROCS)%nat -> p_state (proc_at d j) <> PROC_STATE_FREE.
Proof.
  unfold procd_slot_alloc. intros E. destruct (first_from _ _ _) as [k|] eqn:Hf; simplify_eq. split; [done|]. intros j Hj Hp.
  eapply first_from_None in Hf; [|instantiate (1 := j); unfold PROCD_MAX_PROCS in *; lia]. rewrite Hp in Hf. done.
Qed.

Lemma thread_alloc_procs d o d' :
  procd_thread_alloc d = (o, d') -> g_procs d' = g_procs d /\ g_next_pid d' = g_next_pid d /\ g_ring d' = g_ring d.
Proof. unfold procd_thread_alloc. intros E. destruct (first_from _ _ _); simplify_eq; done. Qed.

Lemma table_get_Some s i : procd_table_get s = Some i -> i = Z.to_nat s /\ (i < PROCD_MAX_PROCS)%nat.
Proof.
  unfold procd_table_get. rewrite Z.geb_leb. destruct (_ <=? s) eqn:E; intros H; simplify_eq. bool_to_prop. unfold PROCD_MAX_PROCS in *. lia.
Qed.
End slots.

(** ** Steps of a slot *)

(** The state machine of a process, without births. *)
Inductive state_next : proc_state -> proc_state -> Prop :=
| SnSame s : state_next s s
| SnExit s : s <> PROC_STATE_FREE -> s <> PROC_STATE_DEAD -> state_next s PROC_STATE_ZOMBIE
| SnExec s : s <> PROC_STATE_FREE -> s <> PROC_STATE_DEAD -> state_next s PROC_STATE_RUNNING
| SnReap : state_next PROC_STATE_ZOMBIE PROC_STATE_DEAD.

(** A change of an existing process: who it is, its parent and its promises stay,
    tier and functors only move under the authority of the anomaly badge. *)
Record kept (auth : bool) (p p' : proc) : Prop := {
  kp_slot : p_slot p' = p_slot p;
  kp_pid : p_synthetic_pid p' = p_synthetic_pid p;
  kp_ppid : p_ppid p' = p_ppid p;
  kp_pledge : p_pledge_mask p' = p_pledge_mask p;
  kp_state : state_next (p_state p) (p_state p');
  kp_tier : auth = false -> p_tier p' = p_tier p /\ p_functor p' = p_functor p;
  kp_version : p_version p' = p_version (procd_seqlock_end (procd_seqlock_begin p));
}.

(** A birth: the slot was free, the new process is nascent. *)
Record born (i : nat) (pid : Z) (p' : proc) : Prop := {
  bo_slot : p_slot p' = Z.of_nat i;
  bo_pid : p_synthetic_pid p' = pid;
  bo_state : p_state p' = PROC_STATE_NASCENT;
  bo_version : p_version p' = 2;
}.

Inductive table_step (auth : bool) (d d' : procd) : Prop :=
| TsSame : (forall j, proc_at d' j = proc_at d j) -> g_next_pid d' = g_next_pid d -> length (g_procs d') = length (g_procs d) -> table_step auth d d'
| TsKept i : (i < PROCD_MAX_PROCS)%nat -> kept auth (proc_at d i) (proc_at d' i) -> (forall j, j <> i -> proc_at d' j = proc_at d j) ->
    g_next_pid d' = g_next_pid d -> length (g_procs d') = length (g_procs d) -> table_step auth d d'
| TsBorn i : (1 <= i < PROCD_MAX_PROCS)%nat -> p_state (proc_at d i) = PROC_STATE_FREE ->
    (forall j, (1 <= j < i)%nat -> p_state (proc_at d j) <> PROC_STATE_FREE) ->
    born i (g_next_pid d) (proc_at d' i) -> (forall j, j <> i -> proc_at d' j = proc_at d j) ->
    g_next_pid d' = u32 (g_next_pid d + 1) -> length (g_procs d') = length (g_procs d) -> table_step auth d d'.

(** Updates under the seqlock that keep what [kept] asks for. *)
Record gentle (auth : bool) (f : proc -> proc) (p : proc) : Prop := {
  ge_slot q : p_slot (f q) = p_slot q;
  ge_pid q : p_synthetic_pid (f q) = p_synthetic_pid q;
  ge_ppid q : p_ppid (f q) = p_ppid q;
  ge_pledge q : p_pledge_mask (f q) = p_pledge_mask q;
  ge_version q : p_version (f q) = p_version q;
  ge_tier q : auth = false -> p_tier (f q) = p_tier q /\ p_functor (f q) = p_functor q;
  ge_state q : p_state q = p_state p -> state_next (p_state p) (p_state (f q));
}.

(** An update that fills in a newborn. *)
Record filler (f : proc -> proc) : Prop := {
  fi_slot q : p_slot (f q) = p_slot q;
  fi_pid q : p_synthetic_pid (f q) = p_synthetic_pid q;
  fi_state q : p_state (f q) = PROC_STATE_NASCENT;
  fi_version q : p_version (f q) = p_version q;
}.

Section steps.
Implicit Types (d : procd).

Lemma commit_kept auth d i f :
  length (g_procs d) = PROCD_MAX_PROCS -> (i < PROCD_MAX_PROCS)%nat -> gentle auth f (proc_at d i) -> table_step auth d (commit_proc d i f).
Proof.
  intros Hl Hi G. destruct (commit_rest d i f) as (_&Hn&_&_&Hl'). eapply (TsKept _ _ _ i); try done.
  - rewrite proc_at_commit, decide_True by (done || congruence). destruct G.
    constructor; simpl; [by rewrite ge_slot0|by rewrite ge_pid0|by rewrite ge_ppid0|by rewrite ge_pledge0|by apply ge_state0| |by rewrite ge_version0].
    intros Ha. exact (ge_tier0 _ Ha).
  - intros j Hj. rewrite proc_at_commit, decide_False by (done || congruence). done.
Qed.

Lemma born_step auth d i d1 f :
  length (g_procs d) = PROCD_MAX_PROCS -> procd_slot_alloc d = (Some i, d1) -> filler f -> table_step auth d (commit_proc d1 i f).
Proof.
  intros Hl E F. destruct (slot_alloc_Some d i d1 Hl E) as (Hi&Hfree&Hb&Hat&Hn&_&_&_&Hl1). destruct (commit_rest d1 i f) as (_&Hn'&_&_&Hl').
  eapply (TsBorn _ _ _ i); try done; [| |congruence|congruence].
  - rewrite proc_at_commit, decide_True by (done || lia). rewrite Hat, decide_True by done. destruct F. constructor; simpl.
    + by rewrite fi_slot0.
    + by rewrite fi_pid0.
    + done.
    + rewrite fi_version0. done.
  - intros j Hj. rewrite proc_at_commit, decide_False by (done || lia). rewrite Hat, decide_False by done. done.
Qed.

Lemma step_publish auth d d' kind s x : table_step auth d d' -> table_step auth d (publish d' kind s x).
Proof. intros []; [eapply TsSame|eapply TsKept|eapply TsBorn]; done. Qed.

Lemma step_refl auth d : table_step auth d d.
Proof. by apply TsSame. Qed.

Lemma step_full auth d kind s : table_step auth d (publish d kind s 0).
Proof. by apply step_publish, step_refl. Qed.

Lemma step_weaken auth d d' : table_step false d d' -> table_step auth d d'.
Proof.
  intros [?|i ? [? ? ? ? ? Ht ?] ?|i ?]; [by eapply TsSame| |by eapply TsBorn]. eapply (TsKept _ _ _ i); try done.
  constructor; try done. intros _. by apply Ht.
Qed.

(** Only the threads differ. *)
Lemma step_procs auth d d1 d' :
  g_procs d1 = g_procs d -> g_next_pid d1 = g_next_pid d -> table_step auth d1 d' -> table_step auth d d'.
Proof.
  intros Hp Hn St. assert (forall j, proc_at d1 j = proc_at d j) as Hat by (intros j; unfold proc_at; by rewrite Hp).
  destruct St as [Hs Hn' Hl|i Hi Hk Hs Hn' Hl|i Hi Hf Hb Hk Hs Hn' Hl].
  - eapply TsSame; [intros j; by rewrite Hs|congruence|congruence].
  - eapply (TsKept _ _ _ i); [done|by rewrite <-Hat|intros j Hj; by rewrite Hs, Hat|congruence|congruence].
  - eapply (TsBorn _ _ _ i); [done|by rewrite <-Hat|intros j Hj; rewrite <-Hat; auto|by rewrite <-Hn|intros j Hj; by rewrite Hs, Hat|congruence|congruence].
Qed.

(** ** Every request *)

(** [spawn_fill] and [inherit] are fillers; the other updates are gentle. *)
Lemma spawn_filler c t pl comm : filler (spawn_fill c t pl comm).
Proof. by constructor. Qed.
Lemma inherit_filler pa ppid t f sh : filler (inherit pa ppid t f sh).
Proof. by constructor. Qed.

Lemma not_stale p : is_stale p = false -> p_state p <> PROC_STATE_FREE /\ p_state p <> PROC_STATE_DEAD.
Proof. unfold is_stale, is_free. intros H. bool_to_prop. done. Qed.

Ltac gentle_by tac := constructor; intros q; [done|done|done|done|done|intros Ha; done|intros Hst; tac].
Ltac gentle_same := gentle_by ltac:(simpl; match goal with H : p_state _ = p_state _ |- _ => rewrite <-H end; apply SnSame).

Lemma spawn_step auth d c t pl comm : length (g_procs d) = PROCD_MAX_PROCS -> table_step auth d (procd_handle_spawn d c t pl comm).2.
Proof.
  intros Hl. unfold procd_handle_spawn. destruct (procd_slot_alloc d) as [[i|] d1] eqn:E; simpl.
  - apply step_publish. by eapply born_step; [| |apply spawn_filler].
  - apply slot_alloc_None in E as [-> _]. apply step_full.
Qed.

Lemma fork_real_step auth d i c : length (g_procs d) = PROCD_MAX_PROCS -> table_step auth d (do_fork_real d i c).2.
Proof.
  intros Hl. unfold do_fork_real. destruct (procd_slot_alloc d) as [[k|] d1] eqn:E; simpl.
  - apply step_publish. by eapply born_step; [| |apply inherit_filler].
  - apply slot_alloc_None in E as [-> _]. apply step_full.
Qed.

Lemma fork_synth_step auth d i c : length (g_procs d) = PROCD_MAX_PROCS -> table_step auth d (do_fork_synth d i c).2.
Proof.
  intros Hl. unfold do_fork_synth. destruct (procd_slot_alloc d) as [[k|] d1] eqn:E; simpl.
  - apply step_publish. by eapply born_step; [| |apply inherit_filler].
  - apply slot_alloc_None in E as [-> _]. apply step_full.
Qed.

Lemma fork_step auth d c : length (g_procs d) = PROCD_MAX_PROCS -> table_step auth d (procd_handle_fork d c).2.
Proof.
  intros Hl. unfold procd_handle_fork. destruct (procd_table_get c); [|apply step_refl].
  repeat split_goal; auto using fork_real_step, fork_synth_step, step_publish, step_refl.
Qed.

Lemma exit_step auth d c code : length (g_procs d) = PROCD_MAX_PROCS -> table_step auth d (procd_handle_exit d c code).2.
Proof.
  intros Hl. unfold procd_handle_exit. destruct (procd_table_get c) as [i|] eqn:E; [|apply step_refl]. apply table_get_Some in E as [_ Hi].
  destruct (is_stale (proc_at d i)) eqn:Es; [apply step_refl|]. apply not_stale in Es as [E1 E2]. simpl. do 2 apply step_publish.
  apply commit_kept; [done|done|]. gentle_by ltac:(by apply SnExit).
Qed.

Lemma wait_step auth d c o : length (g_procs d) = PROCD_MAX_PROCS -> table_step auth d (procd_handle_wait d c o).2.
Proof.
  intros Hl. unfold procd_handle_wait. destruct (procd_table_get c) as [i|] eqn:E; [|apply step_refl].
  destruct (procd_table_first_zombie_child _ _) as [z|] eqn:Ez; [|apply step_refl]. simpl. apply step_publish.
  apply first_from_Some in Ez as (Hz&Ez&_). bool_to_prop. apply commit_kept; [done|unfold PROCD_MAX_PROCS in *; lia|].
  gentle_by ltac:(match goal with H : p_state (proc_at d z) = _ |- _ => rewrite H end; constructor).
Qed.

Lemma exec_step auth d c : length (g_procs d) = PROCD_MAX_PROCS -> table_step auth d (procd_handle_exec d c).2.
Proof.
  intros Hl. unfold procd_handle_exec. destruct (procd_table_get c) as [i|] eqn:E; [|apply step_refl]. apply table_get_Some in E as [_ Hi].
  destruct (is_stale (proc_at d i)) eqn:Es; [apply step_refl|]. apply not_stale in Es as [E1 E2]. simpl. apply step_publish.
  apply commit_kept; [done|done|]. gentle_by ltac:(by apply SnExec).
Qed.

Lemma clone_thread_step auth d c t p : length (g_procs d) = PROCD_MAX_PROCS -> table_step auth d (procd_clone_thread d c t p).2.
Proof.
  intros Hl. unfold procd_clone_thread. destruct (procd_table_get c) as [i|] eqn:E; [|apply step_refl]. apply table_get_Some in E as [_ Hi].
  destruct (is_stale (proc_at d i)); [apply step_refl|]. destruct (procd_thread_alloc d) as [[k|] d1] eqn:Et; simpl;
    apply thread_alloc_procs in Et as (Ep&En&_).
  - destruct (procd_thread_at_index k) as [u|]; [|by eapply (step_procs _ _ d1), step_refl]. simpl. apply step_publish.
    eapply (step_procs _ _ (set_thread d1 u _)); [done..|]. apply commit_kept; [simpl; congruence|done|]. gentle_same.
  - eapply (step_procs _ _ d1); [done..|]. apply step_full.
Qed.

Lemma clone_fork_step auth d c fl : length (g_procs d) = PROCD_MAX_PROCS -> table_step auth d (procd_clone_fork_like d c fl).2.
Proof.
  intros Hl. unfold procd_clone_fork_like. destruct (procd_table_get c); [|apply step_refl]. destruct (is_stale _); [apply step_refl|].
  destruct (procd_slot_alloc d) as [[k|] d1] eqn:E; simpl.
  - assert (forall f, filler f -> table_step auth d (commit_proc d1 k f)) as Hb by (intros f Hf; by eapply born_step).
    destruct (has_flag fl LX_CLONE_VFORK); repeat apply step_publish; apply Hb, inherit_filler.
  - apply slot_alloc_None in E as [-> _]. apply step_full.
Qed.

Lemma clone_step auth d c fl t p : length (g_procs d) = PROCD_MAX_PROCS -> table_step auth d (procd_handle_clone d c fl t p).2.
Proof.
  intros Hl. unfold procd_handle_clone. destruct (has_flag fl clone_unsupported); [apply step_publish, step_refl|].
  destruct (has_flag fl LX_CLONE_THREAD); [|by apply clone_fork_step].
  destruct (negb _ || negb _); [apply step_refl|by apply clone_thread_step].
Qed.

Lemma setsid_step auth d c : length (g_procs d) = PROCD_MAX_PROCS -> table_step auth d (procd_handle_setsid d c).2.
Proof.
  intros Hl. unfold procd_handle_setsid. destruct (procd_table_get c) as [i|] eqn:E; [|apply step_refl]. apply table_get_Some in E as [_ Hi].
  destruct (is_free _); [apply step_refl|]. destruct (_ && _); [apply step_refl|]. simpl. apply commit_kept; [done|done|]. gentle_same.
Qed.

Lemma group_target_lt d i t k : (i < PROCD_MAX_PROCS)%nat -> group_target d i t = Some k -> (k < PROCD_MAX_PROCS)%nat.
Proof.
  unfold group_target, procd_table_lookup_by_synthetic_pid. intros Hi H. destruct (_ && _); [|by simplify_eq].
  destruct (t =? 0); [done|]. apply first_from_Some in H as (?&_). unfold PROCD_MAX_PROCS in *. lia.
Qed.

Lemma setpgid_step auth d c t g : length (g_procs d) = PROCD_MAX_PROCS -> table_step auth d (procd_handle_setpgid d c t g).2.
Proof.
  intros Hl. unfold procd_handle_setpgid. destruct (procd_table_get c) as [i|] eqn:E; [|apply step_refl]. apply table_get_Some in E as [_ Hi].
  destruct (is_free _); [apply step_refl|]. destruct (group_target d i t) as [k|] eqn:Ek; [|apply step_refl]. simpl.
  apply commit_kept; [done|by eapply group_target_lt|]. gentle_same.
Qed.

Lemma getpgid_state d c t : (procd_handle_getpgid d c t).2 = d.
Proof. unfold procd_handle_getpgid. repeat split_goal; done. Qed.

Lemma thread_exit_step auth d tid : length (g_procs d) = PROCD_MAX_PROCS -> table_step auth d (procd_handle_thread_exit d tid).2.
Proof.
  intros Hl. unfold procd_handle_thread_exit. destruct (procd_thread_by_tid d tid) as [t|]; [|apply step_refl]. simpl. apply step_publish.
  assert (forall d', table_step auth d d' -> table_step auth d (procd_thread_free d' t)) as Hfree.
  { intros d' St. unfold procd_thread_free. destruct (_ || _); [done|]. destruct St; [eapply TsSame|eapply TsKept|eapply TsBorn]; done. }
  apply Hfree. destruct (procd_table_get _) as [o|] eqn:E; [|apply step_refl]. apply table_get_Some in E as [_ Ho].
  apply commit_kept; [done|done|]. constructor; intros q; try (destruct (p_n_threads q >? 0); done).
  intros E'. rewrite <-E'. destruct (p_n_threads q >? 0); constructor.
Qed.

Lemma set_robust_step auth d c t h : table_step auth d (procd_handle_set_robust d c t h).2.
Proof.
  unfold procd_handle_set_robust. destruct (t =? 0).
  - destruct (first_from _ _ _) as [i|]; [|apply step_refl]. apply TsSame; [intros j; reflexivity|reflexivity|reflexivity].
  - destruct (procd_thread_by_tid d t) as [i|]; [|apply step_refl]. apply TsSame; [intros j; reflexivity|reflexivity|reflexivity].
Qed.

Lemma set_tier_step d badge c t : length (g_procs d) = PROCD_MAX_PROCS -> table_step (badge =? BADGE_ANOMALY_OP_SET_TIER) d (procd_handle_set_tier d badge c t).2.
Proof.
  intros Hl. unfold procd_handle_set_tier. destruct (badge =? BADGE_ANOMALY_OP_SET_TIER) eqn:Eb; simpl negb; cbv iota; [|apply step_publish, step_refl].
  destruct (procd_table_get c) as [i|] eqn:E; [|apply step_refl]. apply table_get_Some in E as [_ Hi].
  destruct (is_free _); [apply step_refl|]. destruct (t >? PROC_TIER_3); [apply step_refl|]. simpl. do 2 apply step_publish.
  apply commit_kept; [done|done|]. gentle_same.
Qed.

Lemma rebind_step d badge c a b e : length (g_procs d) = PROCD_MAX_PROCS -> table_step (badge =? BADGE_ANOMALY_OP_SET_TIER) d (procd_handle_rebind_functor d badge c a b e).2.
Proof.
  intros Hl. unfold procd_handle_rebind_functor. destruct (badge =? BADGE_ANOMALY_OP_SET_TIER) eqn:Eb; simpl negb; cbv iota; [|apply step_publish, step_refl].
  destruct (procd_table_get c) as [i|] eqn:E; [|apply step_refl]. apply table_get_Some in E as [_ Hi].
  destruct (is_free _); [apply step_refl|]. simpl. apply step_publish. apply commit_kept; [done|done|]. gentle_same.
Qed.

Lemma set_session_step auth d c s comm cp : length (g_procs d) = PROCD_MAX_PROCS -> table_step auth d (procd_handle_set_session d c s comm cp).2.
Proof.
  intros Hl. unfold procd_handle_set_session. destruct (procd_table_get c) as [i|] eqn:E; [|apply step_refl]. apply table_get_Some in E as [_ Hi].
  destruct (is_free _); [apply step_refl|]. simpl. apply commit_kept; [done|done|]. gentle_same.
Qed.

(** Whether a message carries the authority to change tiers. *)
Definition authority (badge : Z) (mr : nat -> Z) : bool :=
  (badge =? BADGE_ANOMALY_OP_SET_TIER) && ((mr 0%nat =? PROCD_OP_SET_TIER) || (mr 0%nat =? PROCD_OP_REBIND_FUNCTOR)).

Lemma dispatch_step d ntf badge mr :
  length (g_procs d) = PROCD_MAX_PROCS -> table_step (authority badge mr) d (procd_dispatch d ntf badge mr).1.2.
Proof.
  intros Hl. unfold procd_dispatch, authority.
  repeat match goal with |- context [if mr 0%nat =? ?c then _ else _] =>
    let E := fresh "E" in destruct (mr 0%nat =? c) eqn:E; [try (apply Z.eqb_eq in E; rewrite E); simpl; try rewrite getpgid_state;
      auto using step_refl, spawn_step, fork_step, exit_step, wait_step, exec_step, clone_step, thread_exit_step, set_robust_step, setsid_step, setpgid_step, set_session_step|] end.
  all: simpl; rewrite ?andb_true_r, ?orb_true_r; auto using step_refl, set_tier_step, rebind_step.
Qed.
End steps.
