(* ===== verification/ProcdTheorems.v ===== *)
(** * Theorems on procd

    The invariant of the process table ([procd_invariant]), the life cycle of a
    process and who may change tiers ([procd_lifecycle], [tier_authority]), reaping
    ([wait_reaps_once]), the fork policy and its gap ([fork_policy],
    [clone_escapes_tier3]), the life-time limit of the table ([table_exhausted]) and
    the event ring as a bounded history ([event_ring_history]). *)

From S2P Require Import Prelude ProcdTable ProcdServer ProcdSpec.

(** ** The invariant *)

Record procd_inv (d : procd) : Prop := {
  pi_len : length (g_procs d) = PROCD_MAX_PROCS;
  pi_next : 1 <= g_next_pid d <= Z.of_nat PROCD_MAX_PROCS;
  pi_zero : p_state (proc_at d 0) = PROC_STATE_DEAD;
  pi_free i : (1 <= i < PROCD_MAX_PROCS)%nat -> (p_state (proc_at d i) = PROC_STATE_FREE <-> g_next_pid d <= Z.of_nat i);
  pi_id i : (i < PROCD_MAX_PROCS)%nat -> p_state (proc_at d i) <> PROC_STATE_FREE ->
            p_slot (proc_at d i) = Z.of_nat i /\ p_synthetic_pid (proc_at d i) = Z.of_nat i;
  pi_version i : (i < PROCD_MAX_PROCS)%nat -> Z.even (p_version (proc_at d i)) = true;
}.

Lemma state_next_free s s' : state_next s s' -> s = PROC_STATE_FREE <-> s' = PROC_STATE_FREE.
Proof. inversion 1; subst; split; congruence. Qed.
Lemma state_next_dead s : state_next PROC_STATE_DEAD s -> s = PROC_STATE_DEAD.
Proof. by inversion 1. Qed.

Lemma lor_even k : Z.lor (2 * k) 1 = 2 * k + 1.
Proof. destruct k as [|p|p]; try reflexivity. simpl. destruct p; reflexivity. Qed.

Lemma seqlock_even p : Z.even (p_version p) = true -> Z.even (p_version (procd_seqlock_end (procd_seqlock_begin p))) = true.
Proof.
  simpl. intros [k ->]%Z.even_spec. rewrite lor_even. replace (2 * k + 1 + 1) with (2 * (k + 1)) by lia. unfold u64.
  rewrite Z.mod_eq, Z.even_sub, !Z.even_mul by lia. done.
Qed.

Section invariant.
Implicit Types (d : procd).

Lemma boot_at j : proc_at procd_boot j = if decide (j = 0%nat) then with_state zero_proc PROC_STATE_DEAD else zero_proc.
Proof.
  change (proc_at procd_boot j) with ((<[0%nat := with_state zero_proc PROC_STATE_DEAD]> (replicate PROCD_MAX_PROCS zero_proc)).[j, zero_proc]).
  rewrite array_get_insert by (rewrite length_replicate; unfold PROCD_MAX_PROCS; lia).
  case_decide as E; subst; [done|]. rewrite decide_False by done. destruct (replicate _ _ !! j) eqn:Ej; [|done]. by apply lookup_replicate in Ej as [-> _].
Qed.

Lemma boot_inv : procd_inv procd_boot.
Proof.
  constructor; [reflexivity|simpl; unfold PROCD_MAX_PROCS; lia|by rewrite boot_at|..]; intros i Hi; rewrite boot_at; case_decide; subst; try done; try lia.
  split; [simpl; lia|done].
Qed.

(** The free slots are the ones from the next pid on, so a birth takes the slot
    that has the number of its pid. *)
Lemma born_index d i :
  procd_inv d -> (1 <= i < PROCD_MAX_PROCS)%nat -> p_state (proc_at d i) = PROC_STATE_FREE ->
  (forall j, (1 <= j < i)%nat -> p_state (proc_at d j) <> PROC_STATE_FREE) -> g_next_pid d = Z.of_nat i.
Proof.
  intros I Hi Hf Hb. pose proof (pi_next d I) as Hn. apply (pi_free d I i Hi) in Hf. destruct (decide (g_next_pid d = Z.of_nat i)) as [|Hne]; [done|].
  exfalso. apply (Hb (Z.to_nat (g_next_pid d))); [lia|]. apply (pi_free d I); lia.
Qed.

Lemma kept_inv auth d d' i :
  procd_inv d -> (i < PROCD_MAX_PROCS)%nat -> kept auth (proc_at d i) (proc_at d' i) -> (forall j, j <> i -> proc_at d' j = proc_at d j) ->
  g_next_pid d' = g_next_pid d -> length (g_procs d') = length (g_procs d) -> procd_inv d'.
Proof.
  intros I Hi K Hs Hn Hl. pose proof (state_next_free _ _ (kp_state _ _ _ K)) as Hfr. constructor.
  - rewrite Hl. apply I.
  - rewrite Hn. apply I.
  - destruct (decide (0%nat = i)) as [<-|]; [|rewrite Hs by done; apply I]. apply state_next_dead. rewrite <-(pi_zero d I). apply K.
  - intros j Hj. rewrite Hn, <-(pi_free d I j Hj). destruct (decide (j = i)) as [->|]; [by rewrite Hfr|by rewrite Hs].
  - intros j Hj. destruct (decide (j = i)) as [->|]; [|rewrite Hs by done; by apply I]. rewrite <-Hfr, (kp_slot _ _ _ K), (kp_pid _ _ _ K). by apply I.
  - intros j Hj. destruct (decide (j = i)) as [->|]; [|rewrite Hs by done; by apply I]. rewrite (kp_version _ _ _ K). by apply seqlock_even, I.
Qed.

Lemma born_inv d d' i :
  procd_inv d -> (1 <= i < PROCD_MAX_PROCS)%nat -> g_next_pid d = Z.of_nat i -> born i (g_next_pid d) (proc_at d' i) ->
  (forall j, j <> i -> proc_at d' j = proc_at d j) -> g_next_pid d' = u32 (g_next_pid d + 1) -> length (g_procs d') = length (g_procs d) -> procd_inv d'.
Proof.
  intros I Hi Hpid B Hs Hn Hl. rewrite u32_small in Hn by (rewrite Hpid; unfold PROCD_MAX_PROCS in *; lia). constructor.
  - rewrite Hl. apply I.
  - lia.
  - rewrite Hs by lia. apply I.
  - intros j Hj. destruct (decide (j = i)) as [->|].
    + rewrite (bo_state _ _ _ B). split; [done|lia].
    + rewrite Hs, (pi_free d I j Hj) by done. lia.
  - intros j Hj. destruct (decide (j = i)) as [->|]; [|rewrite Hs by done; by apply I]. intros _. rewrite (bo_slot _ _ _ B), (bo_pid _ _ _ B). done.
  - intros j Hj. destruct (decide (j = i)) as [->|]; [|rewrite Hs by done; by apply I]. by rewrite (bo_version _ _ _ B).
Qed.

Lemma step_inv auth d d' : procd_inv d -> table_step auth d d' -> procd_inv d'.
Proof.
  intros I [Hs Hn Hl|i Hi K Hs Hn Hl|i Hi Hf Hb B Hs Hn Hl].
  - constructor; [rewrite Hl|rewrite Hn|rewrite Hs|intros j; rewrite Hs, Hn|intros j; rewrite Hs|intros j; rewrite Hs]; apply I.
  - by eapply kept_inv.
  - eapply born_inv; try done. by apply born_index.
Qed.

Lemma dispatch_inv d ntf badge mr : procd_inv d -> procd_inv (procd_dispatch d ntf badge mr).1.2.
Proof. intros I. eapply step_inv; [done|]. apply dispatch_step, I. Qed.

Lemma serve_cons d ntf badge mr msgs :
  (procd_serve d ntf ((badge, mr) :: msgs)).2 = (procd_serve (procd_dispatch d ntf badge mr).1.2 ntf msgs).2.
Proof. simpl. destruct (procd_dispatch d ntf badge mr) as [[rep d1] b]. simpl. by destruct (procd_serve d1 ntf msgs). Qed.

(** Induction over a sequence of requests. *)
Lemma serve_ind (P : procd -> Prop) ntf d msgs :
  (forall d' badge mr, (badge, mr) ∈ msgs -> P d' -> P (procd_dispatch d' ntf badge mr).1.2) -> P d -> P (procd_serve d ntf msgs).2.
Proof.
  revert d. induction msgs as [|[b mr] msgs IH]; intros d Hstep Hd; [done|]. rewrite serve_cons. apply IH.
  - intros d' b' mr' Hin. apply Hstep. by apply list_elem_of_further.
  - apply Hstep; [apply list_elem_of_here|done].
Qed.

Lemma serve_inv d ntf msgs : procd_inv d -> procd_inv (procd_serve d ntf msgs).2.
Proof. intros I. apply serve_ind; [|done]. intros. by apply dispatch_inv. Qed.
End invariant.

(** ** The life of a process *)

(** What a sequence of requests can do to the occupant of a slot. *)
Record same_process (auth : bool) (p p' : proc) : Prop := {
  sp_slot : p_slot p' = p_slot p;
  sp_pid : p_synthetic_pid p' = p_synthetic_pid p;
  sp_ppid : p_ppid p' = p_ppid p;
  sp_pledge : p_pledge_mask p' = p_pledge_mask p;
  sp_states : rtc state_next (p_state p) (p_state p');
  sp_tier : auth = false -> p_tier p' = p_tier p /\ p_functor p' = p_functor p;
}.

Lemma states_free s s' : rtc state_next s s' -> s = PROC_STATE_FREE <-> s' = PROC_STATE_FREE.
Proof. induction 1 as [|x y z H _ IH]; [done|]. by rewrite <-IH, (state_next_free x y). Qed.
Lemma states_dead s : rtc state_next PROC_STATE_DEAD s -> s = PROC_STATE_DEAD.
Proof. intros H. remember PROC_STATE_DEAD as x eqn:E. induction H as [|x y z H _ IH]; [done|]. subst. apply state_next_dead in H as ->. auto. Qed.

Lemma same_process_refl auth p : same_process auth p p.
Proof. constructor; done. Qed.

Lemma same_process_kept auth p q r : same_process auth p q -> kept auth q r -> same_process auth p r.
Proof.
  intros [H1 H2 H3 H4 H5 H6] [K1 K2 K3 K4 K5 K6 _]. constructor; [congruence..|by eapply rtc_r|].
  intros Ha. destruct (H6 Ha), (K6 Ha). split; congruence.
Qed.

Lemma step_same auth d d' p i :
  procd_inv d -> table_step auth d d' -> p_state p <> PROC_STATE_FREE -> same_process auth p (proc_at d i) -> same_process auth p (proc_at d' i).
Proof.
  intros I [Hs Hn Hl|k Hk K Hs Hn Hl|k Hk Hf Hb B Hs Hn Hl] Hp S.
  - by rewrite Hs.
  - destruct (decide (i = k)) as [->|]; [|by rewrite Hs]. by eapply same_process_kept.
  - destruct (decide (i = k)) as [->|]; [|by rewrite Hs]. by apply (states_free _ _ (sp_states _ _ _ S)) in Hf.
Qed.

Lemma serve_same auth d ntf msgs i :
  procd_inv d -> p_state (proc_at d i) <> PROC_STATE_FREE ->
  Forall (fun m => authority m.1 m.2 = true -> auth = true) msgs ->
  same_process auth (proc_at d i) (proc_at (procd_serve d ntf msgs).2 i).
Proof.
  intros I Hp Hauth.
  apply (serve_ind (fun d' => procd_inv d' /\ same_process auth (proc_at d i) (proc_at d' i))); [|by split; [|apply same_process_refl]].
  intros d' b mr Hin [I' S]. split; [by apply dispatch_inv|]. eapply step_same; [done| |done|done].
  rewrite Forall_forall in Hauth. specialize (Hauth _ Hin). simpl in Hauth. destruct auth.
  - pose proof (dispatch_step d' ntf b mr (pi_len d' I')) as St. destruct (authority b mr); [done|by apply step_weaken].
  - destruct (authority b mr) eqn:E; [by discriminate Hauth|]. rewrite <-E. apply dispatch_step, I'.
Qed.

(** C31: on the server, at any time after boot, the table has 256 entries, slot 0 is
    dead, the free slots are exactly those from the next pid on, every other slot
    carries its own index as slot number and pid (so pids are unique), and no slot is
    left with an odd version, that is inside a write section. *)
Theorem procd_invariant ntf msgs : procd_inv (procd_serve procd_boot ntf msgs).2.
Proof. apply serve_inv, boot_inv. Qed.

(** The occupant of a slot never changes: whatever requests follow, the slot keeps its
    pid, parent and pledge mask and is never free again; its state moves only along exit,
    exec and reap, and a reaped (dead) process stays dead. *)
Theorem procd_lifecycle ntf msgs msgs' i :
  let d := (procd_serve procd_boot ntf msgs).2 in
  let d' := (procd_serve d ntf msgs').2 in
  p_state (proc_at d i) <> PROC_STATE_FREE ->
  same_process true (proc_at d i) (proc_at d' i) /\ p_state (proc_at d' i) <> PROC_STATE_FREE
  /\ (p_state (proc_at d i) = PROC_STATE_DEAD -> p_state (proc_at d' i) = PROC_STATE_DEAD).
Proof.
  cbv zeta. intros Hp. pose proof (serve_same true _ ntf msgs' i (serve_inv _ ntf msgs boot_inv) Hp) as S.
  specialize (S ltac:(by apply Forall_forall)). pose proof (sp_states _ _ _ S) as St. split; [exact S|]. split.
  - by rewrite <-(states_free _ _ St).
  - intros E. rewrite E in St. by apply states_dead.
Qed.

(** Message registers from a list of words. *)
Definition regs (ws : list Z) (i : nat) : Z := ws.[i, 0].

Lemma procd_lifecycle_witness :
  let d := (procd_serve procd_boot true [(0, regs [PROCD_OP_SPAWN; 0; 2; 7])]).2 in
  let d' := (procd_serve d true [(0, regs [PROCD_OP_EXIT; 1; 5]); (0, regs [PROCD_OP_WAIT; 0])]).2 in
  p_state (proc_at d 1) = PROC_STATE_NASCENT /\ p_state (proc_at d' 1) = PROC_STATE_DEAD /\ p_synthetic_pid (proc_at d' 1) = p_synthetic_pid (proc_at d 1).
Proof.
  cbv zeta. split; [vm_compute; reflexivity|]. split; [vm_compute; reflexivity|].
  refine (sp_pid _ _ _ (proj1 (procd_lifecycle true [(0, regs [PROCD_OP_SPAWN; 0; 2; 7])] _ 1 _))). vm_compute. discriminate.
Defined.

(** C4: tier and functor bindings of an existing process change only through SET_TIER or
    REBIND_FUNCTOR under the anomaly badge: a sequence of requests without one of those leaves
    them as they were, whoever sends it and whatever else it asks for. *)
Theorem tier_authority ntf msgs msgs' i :
  let d := (procd_serve procd_boot ntf msgs).2 in
  let d' := (procd_serve d ntf msgs').2 in
  p_state (proc_at d i) <> PROC_STATE_FREE ->
  Forall (fun m => authority m.1 m.2 = false) msgs' ->
  p_tier (proc_at d' i) = p_tier (proc_at d i) /\ p_functor (proc_at d' i) = p_functor (proc_at d i).
Proof.
  cbv zeta. intros Hp Hm. apply (sp_tier false); [|done]. apply serve_same; [apply serve_inv, boot_inv|done|].
  eapply Forall_impl; [exact Hm|]. simpl. intros m E. congruence.
Qed.

Lemma tier_authority_witness :
  let d := (procd_serve procd_boot true [(0, regs [PROCD_OP_SPAWN; 0; 2; 7])]).2 in
  let d' := (procd_serve d true [(0, regs [PROCD_OP_SET_TIER; 1; 0]); (0xA009, regs [PROCD_OP_EXEC; 1])]).2 in
  p_tier (proc_at d' 1) = 2.
Proof.
  cbv zeta. etransitivity; [refine (proj1 (tier_authority true [(0, regs [PROCD_OP_SPAWN; 0; 2; 7])] _ 1 _ _))|vm_compute; reflexivity].
  - vm_compute. discriminate.
  - repeat constructor.
Defined.

(** The set_tier handler under the badge, for a process and a tier that exist. *)
Lemma set_tier_sets d c i t :
  length (g_procs d) = PROCD_MAX_PROCS -> procd_table_get c = Some i -> p_state (proc_at d i) <> PROC_STATE_FREE -> 0 <= t <= 3 ->
  let x := procd_handle_set_tier d BADGE_ANOMALY_OP_SET_TIER c t in
  rp_result x.1 = 0 /\ p_tier (proc_at x.2 i) = t /\ p_functor (proc_at x.2 i) = default_functor t.
Proof.
  intros Hl E Hf Ht. unfold procd_handle_set_tier. rewrite Z.eqb_refl. simpl. rewrite E. unfold is_free. rewrite bool_decide_eq_false_2 by done.
  rewrite Z.gtb_ltb, (proj2 (Z.ltb_ge PROC_TIER_3 t)) by (unfold PROC_TIER_3; lia). simpl. rewrite !proc_at_publish.
  apply table_get_Some in E as [_ Hi]. rewrite proc_at_commit, decide_True by (done || congruence). done.
Qed.

(** ** Reaping *)

Lemma first_from_head p i n : first_from p i n = head (filter (fun j => p j = true) (seq i n)).
Proof.
  revert i. induction n as [|n IH]; intros i; simpl; [done|]. rewrite filter_cons.
  destruct (p i) eqn:E; [by rewrite decide_True|by rewrite decide_False, IH].
Qed.

Lemma filter_seq_pointwise p q i n :
  (forall j, (i <= j < i + n)%nat -> p j = q j) -> filter (fun j => p j = true) (seq i n) = filter (fun j => q j = true) (seq i n).
Proof.
  revert i. induction n as [|n IH]; intros i H; simpl; [done|]. rewrite !filter_cons, (H i), (IH (S i)) by (intros; apply H || lia; lia).
  done.
Qed.

(** Clearing the predicate at the first index that satisfies it drops the head. *)
Lemma filter_seq_tail p q i n z rest :
  filter (fun j => p j = true) (seq i n) = z :: rest -> q z = false -> (forall j, j <> z -> q j = p j) ->
  filter (fun j => q j = true) (seq i n) = rest.
Proof.
  revert i. induction n as [|n IH]; intros i H Hz Hq; simpl in *; [done|]. rewrite filter_cons in H |- *.
  destruct (p i) eqn:E.
  - rewrite decide_True in H by done. simplify_eq. rewrite decide_False by congruence.
    apply filter_seq_pointwise. intros j Hj. apply Hq. lia.
  - rewrite decide_False in H by congruence. assert (i <> z) as Hne.
    { intros <-. assert (i ∈ filter (fun j => p j = true) (seq (S i) n)) as Hin by (rewrite H; left). apply list_elem_of_filter in Hin as [? _]. congruence. }
    rewrite (Hq i Hne), E, decide_False by congruence. by apply IH.
Qed.

Definition is_zombie_of (d : procd) (ppid : Z) (i : nat) : bool :=
  bool_decide (p_state (proc_at d i) = PROC_STATE_ZOMBIE) && (p_ppid (proc_at d i) =? ppid).
(** The children of [ppid] that have exited and are not reaped yet, by slot. *)
Definition zombies_of (d : procd) (ppid : Z) : list nat := filter (fun i => is_zombie_of d ppid i = true) (seq 1 (PROCD_MAX_PROCS - 1)).

Lemma first_zombie d ppid : procd_table_first_zombie_child d ppid = head (zombies_of d ppid).
Proof. apply first_from_head. Qed.

(** Wait hands out every exited child once: with no zombie child it answers ECHILD (or 0
    under WNOHANG) and changes nothing; otherwise it answers the pid, slot and exit status of
    the first one, which leaves the list of zombies, and no other slot changes. *)
Theorem wait_reaps_once d c i options :
  length (g_procs d) = PROCD_MAX_PROCS -> procd_table_get c = Some i ->
  let ppid := p_synthetic_pid (proc_at d i) in
  let '(rep, d') := procd_handle_wait d c options in
  match zombies_of d ppid with
  | [] => d' = d /\ rep = err (if Z.testbit options 0 then 0 else ECHILD)
  | z :: rest =>
      rep = mk_reply (i32 (p_synthetic_pid (proc_at d z))) (p_slot (proc_at d z)) (u32 (p_exit_code (proc_at d z)))
      /\ zombies_of d' ppid = rest /\ p_state (proc_at d' z) = PROC_STATE_DEAD /\ (forall j, j <> z -> proc_at d' j = proc_at d j)
  end.
Proof.
  intros Hl Ec. cbv zeta. unfold procd_handle_wait. rewrite Ec, first_zombie. destruct (zombies_of d _) as [|z rest] eqn:Ez; simpl head; cbv iota; [done|].
  assert (z ∈ zombies_of d (p_synthetic_pid (proc_at d i))) as Hz by (rewrite Ez; left). unfold zombies_of in Hz.
  apply list_elem_of_filter in Hz as [_ Hz]. apply list_elem_of_In, in_seq in Hz.
  assert (z < length (g_procs d))%nat as Hlt by (unfold PROCD_MAX_PROCS in *; lia).
  rewrite !proc_at_commit, decide_True by done. split; [done|]. split; [|split].
  - eapply filter_seq_tail; [exact Ez| |].
    + unfold is_zombie_of. rewrite proc_at_publish, proc_at_commit, decide_True by done. done.
    + intros j Hj. unfold is_zombie_of. rewrite proc_at_publish, proc_at_commit, decide_False by done. done.
  - rewrite proc_at_publish, proc_at_commit, decide_True by done. done.
  - intros j Hj. rewrite proc_at_publish, proc_at_commit, decide_False by done. done.
Qed.

Lemma wait_reaps_once_witness :
  let d := (procd_serve procd_boot true [(0, regs [PROCD_OP_SPAWN; 0; 0]); (0, regs [PROCD_OP_FORK; 1]); (0, regs [PROCD_OP_FORK; 1]);
                                         (0, regs [PROCD_OP_EXIT; 3; 9]); (0, regs [PROCD_OP_EXIT; 2; 5])]).2 in
  zombies_of d 1 = [2; 3]%nat /\ (procd_handle_wait d 1 0).1 = mk_reply 2 2 5 /\ zombies_of (procd_handle_wait d 1 0).2 1 = [3%nat].
Proof.
  cbv zeta. match goal with |- zombies_of ?x _ = _ /\ _ => set (d := x) end.
  assert (zombies_of d 1 = [2; 3]%nat) as Hz by (vm_compute; reflexivity). split; [exact Hz|].
  pose proof (wait_reaps_once d 1 1 0 ltac:(vm_compute; reflexivity) ltac:(reflexivity)) as H. cbv zeta in H.
  replace (p_synthetic_pid (proc_at d 1)) with 1 in H by (vm_compute; reflexivity). rewrite Hz in H.
  destruct (procd_handle_wait d 1 0) as [rep d']. destruct H as (->&Hr&_). split; [vm_compute; reflexivity|exact Hr].
Defined.

(** ** Fork *)

(** The child a fork of [pa] with pid [pid] is, apart from its version. *)
Definition fork_child (pa : proc) (i : nat) (pid : Z) (tier : Z) (f : functor_binding) : proc :=
  mk_proc (Z.of_nat i) pid (p_synthetic_pid pa) (p_pgid pa) (p_sid pa) PROC_STATE_NASCENT tier 0 0
    f (p_pledge_mask pa) 0 (copy_comm (p_comm pa)) (p_cow_session pa) 2.

(** A birth under the invariant: the slot is the next pid, the record is what the
    filler makes of a newborn, everything else stays. *)
Lemma birth_result d i d1 f :
  procd_inv d -> procd_slot_alloc d = (Some i, d1) ->
  g_next_pid d = Z.of_nat i /\ (forall j, j <> i -> proc_at (commit_proc d1 i f) j = proc_at d j)
  /\ (forall j, j <> i -> proc_at d1 j = proc_at d j)
  /\ proc_at (commit_proc d1 i f) i = procd_seqlock_end (f (procd_seqlock_begin (newborn i (Z.of_nat i)))).
Proof.
  intros I E. destruct (slot_alloc_Some d i d1 (pi_len d I) E) as (Hi&Hf&Hb&Hat&_&_&_&_&Hl).
  pose proof (born_index d i I Hi Hf Hb) as Hn. split; [done|]. split; [|split].
  - intros j Hj. rewrite proc_at_commit, decide_False by (done || lia). by rewrite Hat, decide_False.
  - intros j Hj. by rewrite Hat, decide_False.
  - rewrite proc_at_commit, decide_True by (done || lia). by rewrite Hat, decide_True, Hn.
Qed.

Lemma slot_alloc_next d : procd_inv d -> g_next_pid d < Z.of_nat PROCD_MAX_PROCS -> exists d1, procd_slot_alloc d = (Some (Z.to_nat (g_next_pid d)), d1).
Proof.
  intros I Hn. pose proof (pi_next d I). destruct (procd_slot_alloc d) as [[i|] d1] eqn:E.
  - destruct (birth_result d i d1 id I E) as [-> _]. exists d1. f_equal. f_equal. lia.
  - apply slot_alloc_None in E as [_ E]. exfalso. apply (E (Z.to_nat (g_next_pid d))); [lia|]. apply (pi_free d I); lia.
Qed.

(** The fork policy: while the table has room, a fork of a tier 0 or 1 process makes a
    child with the parent's tier and functors, a fork of a tier 2 process makes a tier 2
    child whose functors are all isolating, and a tier 3 process is refused with EPERM and
    a denial event; other slots keep their contents.  The child takes the next pid. *)
Theorem fork_policy d c i :
  procd_inv d -> procd_table_get c = Some i -> p_state (proc_at d i) <> PROC_STATE_FREE -> g_next_pid d < Z.of_nat PROCD_MAX_PROCS ->
  let pa := proc_at d i in
  let k := Z.to_nat (g_next_pid d) in
  let '(rep, d') := procd_handle_fork d c in
  match p_tier pa with
  | 0 | 1 => rep = mk_reply (g_next_pid d) (g_next_pid d) (g_next_pid d)
             /\ proc_at d' k = fork_child pa k (g_next_pid d) (p_tier pa) (p_functor pa) /\ (forall j, j <> k -> proc_at d' j = proc_at d j)
  | 2 => rep = mk_reply (g_next_pid d) (g_next_pid d) (g_next_pid d)
         /\ proc_at d' k = fork_child pa k (g_next_pid d) PROC_TIER_2 (default_functor PROC_TIER_2) /\ (forall j, j <> k -> proc_at d' j = proc_at d j)
  | 3 => rep = err EPERM /\ d' = publish d PROCD_EV_DENIED_TIER3 c PROCD_OP_FORK
  | _ => rep = err EINVAL /\ d' = d
  end.
Proof.
  intros I Ec Hf Hn. cbv zeta. destruct (slot_alloc_next d I Hn) as [d1 Ea]. pose proof (pi_next d I) as Hn1.
  set (k := Z.to_nat (g_next_pid d)) in *. assert (Z.of_nat k = g_next_pid d) as Hk by lia.
  assert (i <> k) as Hik.
  { intros ->. apply Hf, (pi_free d I); unfold PROCD_MAX_PROCS in *; lia. }
  assert (i32 (Z.of_nat k) = Z.of_nat k) as Hi32.
  { unfold i32. rewrite u32_small by (unfold PROCD_MAX_PROCS in *; lia). by rewrite (proj2 (Z.ltb_lt _ _)) by (unfold PROCD_MAX_PROCS in *; lia). }
  pose proof (fun f => birth_result d k d1 f I Ea) as B. destruct (B id) as (_&_&H1&_). specialize (H1 i Hik).
  unfold procd_handle_fork. rewrite Ec.
  assert (forall t f, let d2 := commit_proc d1 k (inherit (proc_at d i) (p_synthetic_pid (proc_at d i)) t f id) in
    proc_at d2 k = fork_child (proc_at d i) k (g_next_pid d) t f /\ (forall j, j <> k -> proc_at d2 j = proc_at d j)) as Hbirth.
  { intros t f. cbv zeta. destruct (B (inherit (proc_at d i) (p_synthetic_pid (proc_at d i)) t f id)) as (_&Hj&_&->).
    split; [unfold fork_child; by rewrite <-Hk|done]. }
  destruct (p_tier (proc_at d i)) as [|[[q|[q|q|]|]|[q|q|]|]|] eqn:Et; simpl; try done;
    unfold do_fork_real, do_fork_synth; rewrite Ea; cbv zeta; rewrite !proc_at_publish, ?H1, ?Et;
    match goal with |- context [commit_proc d1 k (inherit _ _ ?t ?f id)] => destruct (Hbirth t f) as [Hc Ho] end;
    rewrite Hc; simpl; rewrite <-?Hk, ?Hi32; (split; [done|split; [done|intros j Hj; rewrite proc_at_publish; by apply Ho]]).
Qed.

Lemma fork_policy_witness :
  let d := (procd_serve procd_boot true [(0, regs [PROCD_OP_SPAWN; 0; 2; 7])]).2 in
  p_tier (proc_at (procd_handle_fork d 1).2 2) = 2 /\ f_net (p_functor (proc_at (procd_handle_fork d 1).2 2)) = FNET_SYNTH.
Proof.
  cbv zeta. match goal with |- context [procd_handle_fork ?x 1] => set (d := x) end.
  pose proof (fork_policy d 1 1 (serve_inv _ true _ boot_inv) ltac:(reflexivity) ltac:(vm_compute; discriminate) ltac:(vm_compute; reflexivity)) as H.
  cbv zeta in H. replace (p_tier (proc_at d 1)) with 2 in H by (vm_compute; reflexivity).
  replace (Z.to_nat (g_next_pid d)) with 2%nat in H by (vm_compute; reflexivity).
  destruct (procd_handle_fork d 1) as [rep d']. destruct H as (_&H&_). cbn [snd]. rewrite H. split; reflexivity.
Defined.

(** The tier 3 denial covers FORK only: the same process gets a child from CLONE without
    CLONE_THREAD, whose handler has no tier test. *)
Theorem clone_escapes_tier3 :
  let d := (procd_serve procd_boot true [(0, regs [PROCD_OP_SPAWN; 0; 3; 7])]).2 in
  rp_result (procd_dispatch d true 0 (regs [PROCD_OP_FORK; 1])).1.1 = EPERM
  /\ rp_result (procd_dispatch d true 0 (regs [PROCD_OP_CLONE; 1; 0])).1.1 = 2
  /\ p_state (proc_at (procd_dispatch d true 0 (regs [PROCD_OP_CLONE; 1; 0])).1.2 2) = PROC_STATE_NASCENT.
Proof. vm_compute. split; [reflexivity|split; reflexivity]. Qed.

(** ** The table fills up for good *)

Lemma full_alloc d : procd_inv d -> g_next_pid d = Z.of_nat PROCD_MAX_PROCS -> procd_slot_alloc d = (None, d).
Proof.
  intros I Hn. destruct (procd_slot_alloc d) as [[i|] d1] eqn:E.
  - exfalso. destruct (slot_alloc_Some d i d1 (pi_len d I) E) as (Hi&_). destruct (birth_result d i d1 id I E) as [? _]. lia.
  - by apply slot_alloc_None in E as [-> _].
Qed.

Lemma step_full_stays auth d d' : procd_inv d -> g_next_pid d = Z.of_nat PROCD_MAX_PROCS -> table_step auth d d' -> g_next_pid d' = Z.of_nat PROCD_MAX_PROCS.
Proof.
  intros I Hn [Hs Hn' Hl|i Hi K Hs Hn' Hl|i Hi Hf Hb B Hs Hn' Hl]; [congruence|congruence|].
  pose proof (born_index d i I Hi Hf Hb). lia.
Qed.

(** A slot is never given back (nothing calls [procd_slot_free]), so the 255th birth is the
    last one of the server's life: from then on, whatever exits and is waited for in between,
    SPAWN answers EAGAIN, at every later moment. *)
Theorem table_exhausted d ntf msgs c tier pledge comm :
  procd_inv d -> g_next_pid d = Z.of_nat PROCD_MAX_PROCS ->
  let d' := (procd_serve d ntf msgs).2 in
  (procd_handle_spawn d' c tier pledge comm).1 = err EAGAIN
  /\ (forall parent, (do_fork_real d' parent c).1 = err EAGAIN /\ (do_fork_synth d' parent c).1 = err EAGAIN).
Proof.
  cbv zeta. intros I Hn.
  assert (procd_inv (procd_serve d ntf msgs).2 /\ g_next_pid (procd_serve d ntf msgs).2 = Z.of_nat PROCD_MAX_PROCS) as [I' Hn'].
  { apply (serve_ind (fun x => procd_inv x /\ g_next_pid x = Z.of_nat PROCD_MAX_PROCS)); [|done]. intros x b mr _ [Ix Hx].
    split; [by apply dispatch_inv|]. eapply step_full_stays; [done|done|]. by apply dispatch_step, Ix. }
  pose proof (full_alloc _ I' Hn') as E. unfold procd_handle_spawn, do_fork_real, do_fork_synth. by rewrite E.
Qed.

Lemma table_exhausted_witness :
  let d := (procd_serve procd_boot true (replicate 255 (0, regs [PROCD_OP_SPAWN; 0; 0]))).2 in
  let d' := (procd_serve d true [(0, regs [PROCD_OP_EXIT; 9; 0]); (0, regs [PROCD_OP_WAIT; 0])]).2 in
  p_state (proc_at d' 9) = PROC_STATE_DEAD /\ (procd_handle_spawn d' 0 0 0 []).1 = err EAGAIN.
Proof.
  cbv zeta. split; [vm_compute; reflexivity|]. refine (proj1 (table_exhausted _ _ _ _ _ _ _ _ _)).
  - apply serve_inv, boot_inv.
  - vm_compute. reflexivity.
Defined.

(** ** The event ring as a history *)

(** The events published so far, each with the sequence number it got. *)
Definition numbered (E : list (Z * Z * Z)) : list procd_event := imap (fun i e => mk_event (Z.of_nat i) e.1.1 e.1.2 e.2) E.
Definition ring_of (E : list (Z * Z * Z)) : event_ring := foldl (fun r e => procd_event_publish r e.1.1 e.1.2 e.2) procd_event_ring_init E.

Lemma ring_index_mod s : ring_index s = Z.to_nat (s mod 1024).
Proof. unfold ring_index. change (PROCD_EVENT_RING_N - 1) with (Z.ones 10). rewrite Z.land_ones by lia. done. Qed.

(** Two sequence numbers less than a lap apart have different slots. *)
Lemma ring_index_inj s s' : 0 <= s -> s < s' < s + 1024 -> ring_index s <> ring_index s'.
Proof.
  rewrite !ring_index_mod. intros Hs Hs' E. pose proof (Z.mod_pos_bound s 1024). pose proof (Z.mod_pos_bound s' 1024).
  apply Z2Nat.inj in E; [|lia..]. pose proof (Z.div_mod s 1024). pose proof (Z.div_mod s' 1024). nia.
Qed.

Lemma numbered_snoc E e : numbered (E ++ [e]) = numbered E ++ [mk_event (Z.of_nat (length E)) e.1.1 e.1.2 e.2].
Proof. unfold numbered. rewrite imap_app. simpl. by rewrite Nat.add_0_r. Qed.
Lemma length_numbered E : length (numbered E) = length E.
Proof. apply length_imap. Qed.
Lemma ring_of_snoc E e : ring_of (E ++ [e]) = procd_event_publish (ring_of E) e.1.1 e.1.2 e.2.
Proof. unfold ring_of. by rewrite foldl_app. Qed.

(** The ring holds the last 1024 events. *)
Lemma ring_holds E :
  Z.of_nat (length E) < 2 ^ 64 ->
  head_seq (ring_of E) = Z.of_nat (length E) /\ length (entries (ring_of E)) = 1024%nat
  /\ forall s x, numbered E !! s = Some x -> (length E <= s + 1024)%nat -> (entries (ring_of E)).[ring_index (Z.of_nat s), zero_event] = x.
Proof.
  induction E as [|e E IH] using rev_ind; intros Hl; [split_and!; [done|done|intros [|s] x H; done]|].
  rewrite length_app in Hl |- *. simpl in Hl |- *. destruct IH as (Hh&Hn&Hs); [lia|]. rewrite ring_of_snoc.
  unfold procd_event_publish. cbn [head_seq entries]. rewrite Hh. split_and!.
  - rewrite u64_small; lia.
  - by rewrite length_insert.
  - intros s x Hx Hle. rewrite array_get_insert.
    2:{ rewrite Hn, ring_index_mod. pose proof (Z.mod_pos_bound (Z.of_nat (length E)) 1024). lia. }
    rewrite numbered_snoc in Hx. destruct (decide (s = length E)) as [->|Hne].
    + rewrite decide_True by done. rewrite lookup_app_r in Hx by (rewrite length_numbered; lia). rewrite length_numbered, Nat.sub_diag in Hx. by simplify_eq/=.
    + apply lookup_lt_Some in Hx as Hlt. rewrite length_app, length_numbered in Hlt. simpl in Hlt.
      rewrite decide_False by (apply not_eq_sym, ring_index_inj; lia). apply Hs; [|lia]. by rewrite lookup_app_l in Hx by (rewrite length_numbered; lia).
Qed.

Lemma drain_loop_history E tail n :
  Z.of_nat (length E) < 2 ^ 64 -> (tail <= length E <= tail + 1024)%nat ->
  drain_loop (ring_of E) (Z.of_nat tail) n = (Z.of_nat (tail + Nat.min n (length E - tail)), take n (drop tail (numbered E))).
Proof.
  intros Hl. destruct (ring_holds E Hl) as (Hh&_&Hs). revert tail. induction n as [|n IH]; intros tail Ht; simpl drain_loop.
  - f_equal. f_equal. lia.
  - rewrite Hh. destruct (_ <? _) eqn:E1; bool_to_prop.
    + rewrite u64_small by lia. replace (Z.of_nat tail + 1) with (Z.of_nat (S tail)) by lia. rewrite IH by lia.
      destruct (lookup_lt_is_Some_2 (numbered E) tail) as [x Hx]; [rewrite length_numbered; lia|].
      rewrite (drop_S _ x tail Hx). simpl take. rewrite (Hs tail x Hx) by lia. f_equal. f_equal. lia.
    + rewrite drop_ge by (rewrite length_numbered; lia). f_equal. f_equal. lia.
Qed.

Section drain.
Implicit Types (E : list (Z * Z * Z)).

Lemma drain_in_window E tail n :
  Z.of_nat (length E) < 2 ^ 64 -> (tail <= length E <= tail + 512)%nat ->
  procd_event_drain (ring_of E) (Z.of_nat tail) n = (Z.of_nat (tail + Nat.min n (length E - tail)), take n (drop tail (numbered E)), false).
Proof.
  intros Hl Ht. unfold procd_event_drain. destruct (ring_holds E Hl) as (Hh&_). rewrite Hh, Z.gtb_ltb, (proj2 (Z.ltb_ge _ _)) by lia.
  change (PROCD_EVENT_RING_N / 2) with 512. rewrite Z.gtb_ltb, (proj2 (Z.ltb_ge 512 _)) by lia. rewrite drain_loop_history by lia. done.
Qed.

Lemma drain_overflow E tail n :
  Z.of_nat (length E) < 2 ^ 64 -> (tail + 512 < length E)%nat ->
  procd_event_drain (ring_of E) (Z.of_nat tail) n
  = (Z.of_nat (length E - 256 + Nat.min n 256), take n (drop (length E - 256) (numbered E)), true).
Proof.
  intros Hl Ht. unfold procd_event_drain. destruct (ring_holds E Hl) as (Hh&_). rewrite Hh, Z.gtb_ltb, (proj2 (Z.ltb_ge _ _)) by lia.
  change (PROCD_EVENT_RING_N / 2) with 512. change (PROCD_EVENT_RING_N / 4) with 256. rewrite Z.gtb_ltb, (proj2 (Z.ltb_lt 512 _)) by lia.
  replace (Z.of_nat (length E) - 256) with (Z.of_nat (length E - 256)) by lia. rewrite drain_loop_history by lia. f_equal. f_equal. f_equal. lia.
Qed.
End drain.

(** Every request appends its events to the history. *)
Definition extends (d d' : procd) : Prop := forall E, g_ring d = ring_of E -> exists E', g_ring d' = ring_of (E ++ E').

Lemma extends_same d d' : g_ring d' = g_ring d -> extends d d'.
Proof. intros H E HE. exists []. by rewrite app_nil_r, H. Qed.

Lemma extends_publish d d' kind s x : extends d d' -> extends d (publish d' kind s x).
Proof. intros H E HE. destruct (H E HE) as [E' HE']. exists (E' ++ [(kind, s, x)]). rewrite app_assoc, ring_of_snoc, <-HE'. done. Qed.

Lemma extends_trans d d1 d2 : extends d d1 -> extends d1 d2 -> extends d d2.
Proof. intros H1 H2 E HE. destruct (H1 E HE) as [E1 HE1]. destruct (H2 _ HE1) as [E2 HE2]. exists (E1 ++ E2). by rewrite app_assoc. Qed.

Lemma extends_commit d d' i f : extends d d' -> extends d (commit_proc d' i f).
Proof. intros H. eapply extends_trans; [exact H|]. apply extends_same. by destruct (commit_rest d' i f) as (_&_&_&?&_). Qed.

Lemma extends_thread_free d d' t : extends d d' -> extends d (procd_thread_free d' t).
Proof. intros H. unfold procd_thread_free. by destruct (_ || _). Qed.

Lemma slot_alloc_ring d o d1 : procd_slot_alloc d = (o, d1) -> extends d d1.
Proof. unfold procd_slot_alloc. intros E. destruct (first_from _ _ _); simplify_eq; by apply extends_same. Qed.
Lemma thread_alloc_ring d o d1 : procd_thread_alloc d = (o, d1) -> extends d d1.
Proof. unfold procd_thread_alloc. intros E. destruct (first_from _ _ _); simplify_eq; by apply extends_same. Qed.

Create HintDb procd_ring.
#[export] Hint Resolve extends_publish extends_commit extends_thread_free slot_alloc_ring thread_alloc_ring : procd_ring.
#[export] Hint Extern 5 (extends ?d ?d) => apply extends_same; reflexivity : procd_ring.

(** Split the tests of a handler, remembering only allocations. *)
Ltac ring_cases :=
  repeat match goal with
  | |- context [match procd_slot_alloc ?d with _ => _ end] => let E := fresh "E" in destruct (procd_slot_alloc d) as [[?|] ?] eqn:E
  | |- context [match procd_thread_alloc ?d with _ => _ end] => let E := fresh "E" in destruct (procd_thread_alloc d) as [[?|] ?] eqn:E
  | |- extends _ (snd (if ?b then _ else _)) => destruct b
  | |- extends _ (snd (match ?x with Some _ => _ | None => _ end)) => destruct x
  | |- extends _ (snd (let _ := _ in _)) => cbv zeta
  end.
Ltac ring_solve := ring_cases; simpl; eauto 8 with procd_ring.

Section handlers_ring.
Implicit Types (d : procd).

Lemma spawn_ring d c t pl comm : extends d (procd_handle_spawn d c t pl comm).2.
Proof. unfold procd_handle_spawn. ring_solve. Qed.
Lemma fork_ring d c : extends d (procd_handle_fork d c).2.
Proof. unfold procd_handle_fork, do_fork_real, do_fork_synth. ring_solve. Qed.
Lemma exit_ring d c x : extends d (procd_handle_exit d c x).2.
Proof. unfold procd_handle_exit. ring_solve. Qed.
Lemma wait_ring d c x : extends d (procd_handle_wait d c x).2.
Proof. unfold procd_handle_wait. ring_solve. Qed.
Lemma exec_ring d c : extends d (procd_handle_exec d c).2.
Proof. unfold procd_handle_exec. ring_solve. Qed.
Lemma clone_thread_ring d c t p : extends d (procd_clone_thread d c t p).2.
Proof.
  unfold procd_clone_thread. ring_solve. simpl. apply extends_publish, extends_commit. eapply extends_trans; [by eapply thread_alloc_ring|by apply extends_same].
Qed.
Lemma clone_fork_ring d c fl : extends d (procd_clone_fork_like d c fl).2.
Proof. unfold procd_clone_fork_like. ring_solve. destruct (has_flag fl LX_CLONE_VFORK); eauto 8 with procd_ring. Qed.
Lemma clone_ring d c fl t p : extends d (procd_handle_clone d c fl t p).2.
Proof.
  unfold procd_handle_clone.
  destruct (has_flag fl clone_unsupported); [simpl; eauto with procd_ring|]. destruct (has_flag fl LX_CLONE_THREAD); [|apply clone_fork_ring].
  destruct (negb _ || negb _); [simpl; eauto with procd_ring|apply clone_thread_ring].
Qed.
Lemma thread_exit_ring d tid : extends d (procd_handle_thread_exit d tid).2.
Proof.
  unfold procd_handle_thread_exit. destruct (procd_thread_by_tid d tid) as [t|]; simpl; [|eauto with procd_ring].
  apply extends_publish, extends_thread_free. destruct (procd_table_get _); eauto with procd_ring.
Qed.
Lemma set_robust_ring d c t h : extends d (procd_handle_set_robust d c t h).2.
Proof. unfold procd_handle_set_robust. ring_cases; simpl; by apply extends_same. Qed.
Lemma setsid_ring d c : extends d (procd_handle_setsid d c).2.
Proof. unfold procd_handle_setsid. ring_solve. Qed.
Lemma setpgid_ring d c t g : extends d (procd_handle_setpgid d c t g).2.
Proof. unfold procd_handle_setpgid. ring_solve. Qed.
Lemma set_tier_ring d b c t : extends d (procd_handle_set_tier d b c t).2.
Proof. unfold procd_handle_set_tier. ring_solve. Qed.
Lemma rebind_ring d b c x y z : extends d (procd_handle_rebind_functor d b c x y z).2.
Proof. unfold procd_handle_rebind_functor. ring_solve. Qed.
Lemma set_session_ring d c s comm cp : extends d (procd_handle_set_session d c s comm cp).2.
Proof. unfold procd_handle_set_session. ring_solve. Qed.

Lemma dispatch_ring d ntf badge mr : extends d (procd_dispatch d ntf badge mr).1.2.
Proof.
  unfold procd_dispatch. assert (forall c t, extends d (procd_handle_getpgid d c t).2) as Hget by (intros; by rewrite getpgid_state; apply extends_same).
  repeat match goal with |- context [if mr 0%nat =? ?c then _ else _] => destruct (mr 0%nat =? c) end; simpl;
    auto using spawn_ring, fork_ring, exit_ring, wait_ring, exec_ring, clone_ring, thread_exit_ring, set_robust_ring, setsid_ring, setpgid_ring,
      set_tier_ring, rebind_ring, set_session_ring, extends_same.
Qed.

Lemma serve_history ntf msgs : exists E, g_ring (procd_serve procd_boot ntf msgs).2 = ring_of E.
Proof.
  apply (serve_ind (fun d => exists E, g_ring d = ring_of E)).
  - intros d b mr _ [E HE]. destruct (dispatch_ring d ntf b mr E HE) as [E' ?]. by exists (E ++ E').
  - by exists [(PROCD_EV_PROC_BORN, 0, 0xC0FFEE)].
Qed.
End handlers_ring.

(** C30: the event ring is a faithful window on the history of events: after any requests there is
    a list of all events published so far such that a reader at most 512 behind gets exactly the
    events from its tail on, up to the number it asked for, numbered consecutively, with its tail
    moved past them; a reader further behind is told so and resumes 256 events before the head. *)
Theorem event_ring_history ntf msgs :
  exists E, let r := g_ring (procd_serve procd_boot ntf msgs).2 in
  r = ring_of E
  /\ (Z.of_nat (length E) < 2 ^ 64 -> forall tail n, (tail <= length E)%nat ->
      procd_event_drain r (Z.of_nat tail) n
      = if decide (length E <= tail + 512)%nat
        then (Z.of_nat (tail + Nat.min n (length E - tail)), take n (drop tail (numbered E)), false)
        else (Z.of_nat (length E - 256 + Nat.min n 256), take n (drop (length E - 256) (numbered E)), true)).
Proof.
  destruct (serve_history ntf msgs) as [E HE]. exists E. cbv zeta. split; [exact HE|]. intros Hl tail n Ht. rewrite HE.
  case_decide; [apply drain_in_window|apply drain_overflow]; lia.
Qed.
