(* ===== verification/ProcView.v ===== *)
(** * Readers of the process table

    The seqlock readers of procd's shared memory: [procd_tier_load_bounded] of
    include/procd/shm.h and the bounded loaders of src/lucas/procd_view.c.

    A reader runs beside the writer, so what it sees is not one record: an attempt
    is a function [obs] from the number of the load to the contents the record has
    when that load happens.  The bounded retry loop takes the list of its attempts.
    Loads and stores are taken in program order, as the acquire and release
    operations of the code and x86 give it. *)

From S2P Require Import Prelude ProcdTable ProcdServer ProcdSpec ProcdTheorems.

(** One attempt of every reader: the version, the fields, the version again. *)
Definition seqlock_try {A} (fields : (nat -> proc) -> A) (last : nat) (obs : nat -> proc) : option A :=
  let v1 := p_version (obs 0%nat) in
  if Z.odd v1 then None
  else let a := fields obs in
       if v1 =? p_version (obs last) then Some a else None.

Fixpoint seqlock_read {A} (fields : (nat -> proc) -> A) (last : nat) (tries : list (nat -> proc)) : option A :=
  match tries with
  | [] => None
  | obs :: tries' => match seqlock_try fields last obs with Some a => Some a | None => seqlock_read fields last tries' end
  end.

(** The list has [max_spins] attempts; a timeout reads as tier 0. *)
Definition procd_tier_load_bounded (tries : list (nat -> proc)) : Z :=
  default PROC_TIER_0 (seqlock_read (fun obs => p_tier (obs 1%nat)) 2 tries).

(** ** src/lucas/procd_view.c *)

Record lucas_proc_view := mk_view {
  v_synthetic_pid : Z; v_ppid : Z; v_pgid : Z; v_sid : Z; v_tier : Z; v_functor_proc : Z; v_state : proc_state;
  v_comm : list Z; v_cow_session : Z;
}.

(** [memcpy] of the 16 bytes from load [k] on, the last one set to NUL. *)
Definition load_comm (obs : nat -> proc) (k : nat) : list Z :=
  ((fun i => (p_comm (obs (k + i)%nat)).[i, 0]) <$> seq 0 15) ++ [0].

Definition view_fields (obs : nat -> proc) : lucas_proc_view :=
  mk_view (p_synthetic_pid (obs 1%nat)) (p_ppid (obs 2%nat)) (p_pgid (obs 3%nat)) (p_sid (obs 4%nat)) (p_tier (obs 5%nat))
    (f_proc (p_functor (obs 6%nat))) (p_state (obs 7%nat)) (load_comm obs 8) (p_cow_session (obs 24%nat)).
Definition view_last : nat := 25.

Definition PROCD_SHM_MAGIC : Z := 0x50524F43444D3031.
Definition LUCAS_PROCT_MAX_SPINS : nat := 64.

(** The read-only view of the region: header fields and, per slot, attempt and load,
    the contents the loader meets. *)
Record shm_view := mk_shm { sh_magic : Z; sh_table_n : Z; sh_obs : nat -> nat -> nat -> proc }.

Definition proc_t_ro_at_slot (ro : option shm_view) (slot : Z) : option (nat -> nat -> proc) :=
  match ro with
  | None => None
  | Some m => if (slot =? 0) || negb (sh_magic m =? PROCD_SHM_MAGIC) || (slot >=? sh_table_n m) then None else Some (sh_obs m (Z.to_nat slot))
  end.

(** [None] stands for the result -1 with a cleared view, [Some] for 0 with a valid one. *)
Definition lucas_proct_load (ro : option shm_view) (slot : Z) : option lucas_proc_view :=
  match proc_t_ro_at_slot ro slot with
  | None => None
  | Some p => seqlock_read view_fields view_last (p <$> seq 0 LUCAS_PROCT_MAX_SPINS)
  end.

Fixpoint find_loop (ro : option shm_view) (synthetic_pid : Z) (i n : nat) : option lucas_proc_view :=
  match n with
  | O => None
  | S n' =>
      match lucas_proct_load ro (Z.of_nat i) with
      | Some v => if (v_synthetic_pid v =? synthetic_pid) && negb (bool_decide (v_state v = PROC_STATE_FREE)) then Some v
                  else find_loop ro synthetic_pid (S i) n'
      | None => find_loop ro synthetic_pid (S i) n'
      end
  end.

Definition lucas_proct_find_synthetic_pid (ro : option shm_view) (synthetic_pid : Z) : option lucas_proc_view :=
  match ro with
  | None => None
  | Some m =>
      if (synthetic_pid =? 0) || negb (sh_magic m =? PROCD_SHM_MAGIC) then None
      else let n := if sh_table_n m >? Z.of_nat PROCD_MAX_PROCS then Z.of_nat PROCD_MAX_PROCS else sh_table_n m in
           find_loop ro synthetic_pid 1 (Z.to_nat n - 1)
  end.

(** ** Writer and readers together *)

(** What a store of the writer may do to a record: enter the section, change a field
    inside it (no request makes a record free), leave it; or, without a section, any of the stores
    of [procd_slot_alloc] into a record that is free: the bytes of its memset, which clears the version
    too, the slot, the pid and, last, the state NASCENT.  [procd_slot_free] is called by no
    handler. *)
Inductive wstep : proc -> proc -> Prop :=
| WBegin p : Z.even (p_version p) = true -> wstep p (procd_seqlock_begin p)
| WField p q : Z.odd (p_version p) = true -> p_version q = p_version p -> (p_state q = PROC_STATE_FREE -> p_state p = PROC_STATE_FREE) -> wstep p q
| WEnd p : Z.odd (p_version p) = true -> wstep p (procd_seqlock_end p)
| WAlloc p q : p_state p = PROC_STATE_FREE -> wstep p q.

(** The contents of a record over time: at every instant at most one store. *)
Definition history (h : nat -> proc) : Prop := forall t, h (S t) = h t \/ wstep (h t) (h (S t)).
(** The version has not reached the end of its 64 bits in the time considered. *)
Definition no_wrap (h : nat -> proc) : Prop := forall t, 0 <= p_version (h t) < 2 ^ 64 - 1.
(** An attempt made while the record goes through [h]: its loads happen one after
    another.  [drawn_live]: and the record was not free when it began. *)
Definition drawn (h : nat -> proc) (last : nat) (obs : nat -> proc) : Prop :=
  exists tm : nat -> nat, (forall k k', (k <= k' <= last)%nat -> (tm k <= tm k')%nat) /\ (forall k, (k <= last)%nat -> obs k = h (tm k)).
Definition drawn_live (h : nat -> proc) (last : nat) (obs : nat -> proc) : Prop := drawn h last obs /\ p_state (obs 0%nat) <> PROC_STATE_FREE.

Section coherence.
Context (h : nat -> proc) (Hh : history h) (Hw : no_wrap h).

(** A record once taken stays taken, and its version grows with every change. *)
Lemma version_step t : p_state (h t) <> PROC_STATE_FREE -> p_state (h (S t)) <> PROC_STATE_FREE
  /\ p_version (h t) <= p_version (h (S t)) /\ (Z.even (p_version (h t)) = true -> p_version (h (S t)) = p_version (h t) -> h (S t) = h t).
Proof using Hh Hw.
  intros Hf. destruct (Hh t) as [->|Hs]; [done|]. pose proof (Hw t) as Hr. remember (h (S t)) as q eqn:Eq. destruct Hs as [p He|p q Ho Hv Hq|p Ho|p q Hfr].
  - apply Z.even_spec in He as [k Hk]. simpl in *. rewrite Hk, lor_even in *. split; [done|]. split; [lia|intros _ ?; lia].
  - split; [auto|]. split; [lia|]. rewrite <-Z.negb_odd, Ho. done.
  - simpl in *. rewrite u64_small in * by lia. split; [done|]. split; [lia|intros _ ?; lia].
  - done.
Qed.

Lemma version_mono t t' : (t <= t')%nat -> p_state (h t) <> PROC_STATE_FREE -> p_state (h t') <> PROC_STATE_FREE /\ p_version (h t) <= p_version (h t').
Proof using Hh Hw. intros Hle Hf. induction Hle as [|m _ [IHf IH]]; [done|]. destruct (version_step m IHf) as (?&?&_). split; [done|lia]. Qed.

(** Between two equal even versions nothing was stored. *)
Lemma settled t t' : (t <= t')%nat -> p_state (h t) <> PROC_STATE_FREE -> Z.even (p_version (h t)) = true -> p_version (h t) = p_version (h t') -> forall u, (t <= u <= t')%nat -> h u = h t.
Proof using Hh Hw.
  intros Ht Hf He Hv. induction u as [|u IH]; intros Hu; [by replace t with 0%nat by lia|].
  destruct (decide (t = S u)) as [->|Hne]; [done|]. rewrite <-IH by lia.
  apply version_step; [rewrite IH by lia; done|rewrite IH by lia; done|]. rewrite IH by lia.
  pose proof (version_mono t (S u) ltac:(lia) Hf) as [Hf' ?]. pose proof (version_mono (S u) t' ltac:(lia) Hf'). lia.
Qed.

Lemma try_coherent {A} (fields : (nat -> proc) -> A) last obs a :
  drawn_live h last obs -> seqlock_try fields last obs = Some a ->
  exists t, Z.even (p_version (h t)) = true /\ a = fields obs /\ (forall k, (k <= last)%nat -> obs k = h t).
Proof using Hh Hw.
  intros [(tm&Hm&Ho) Hf]. rewrite (Ho 0%nat) in Hf by lia. unfold seqlock_try. destruct (Z.odd _) eqn:Eo; [done|]. destruct (_ =? _) eqn:Ev; [|done]. intros E. bool_to_prop. simplify_eq.
  rewrite (Ho 0%nat), (Ho last) in Ev by lia. rewrite Ho in Eo by lia. exists (tm 0%nat). split; [rewrite <-Z.negb_odd, Eo; done|]. split; [done|].
  intros k Hk. rewrite Ho by done. apply (settled (tm 0%nat) (tm last)); [apply Hm; lia|done|rewrite <-Z.negb_odd, Eo; done|done|].
  split; apply Hm; lia.
Qed.

(** A reader whose fields come from loads up to [last] returns what some settled
    record has. *)
Lemma read_coherent {A} (fields : (nat -> proc) -> A) last tries a :
  (forall obs p, (forall k, (k <= last)%nat -> obs k = p) -> fields obs = fields (fun _ => p)) ->
  Forall (drawn_live h last) tries -> seqlock_read fields last tries = Some a ->
  exists t, Z.even (p_version (h t)) = true /\ a = fields (fun _ => h t).
Proof using Hh Hw.
  intros Hext. induction 1 as [|obs tries Hd _ IH]; simpl; [done|]. destruct (seqlock_try fields last obs) as [x|] eqn:E; [|exact IH].
  intros ?. simplify_eq. destruct (try_coherent fields last obs a Hd E) as (t&He&->&Ho). exists t. split; [done|]. by apply Hext.
Qed.
End coherence.

(** An attempt on a record at rest succeeds. *)
Lemma read_quiet {A} (fields : (nat -> proc) -> A) last tries p :
  Z.even (p_version p) = true -> tries <> [] -> Forall (fun obs => obs = fun _ => p) tries -> seqlock_read fields last tries = Some (fields (fun _ => p)).
Proof.
  intros He Hne Hq. destruct tries as [|obs tries]; [done|]. apply Forall_cons in Hq as [-> _]. simpl. unfold seqlock_try. by rewrite <-Z.negb_even, He, Z.eqb_refl.
Qed.

Lemma view_fields_ext obs p : (forall k, (k <= view_last)%nat -> obs k = p) -> view_fields obs = view_fields (fun _ => p).
Proof.
  unfold view_last. intros H. unfold view_fields. rewrite !H by lia. f_equal. unfold load_comm. f_equal. apply list_fmap_ext.
  intros j x Hx. apply lookup_seq in Hx as [-> Hj]. by rewrite H by lia.
Qed.

(** What a request does to a record, be it a commit or the birth of a process, is made of such
    stores. *)
Lemma section_wsteps p p' : Z.even (p_version p) = true -> (p_state p' = PROC_STATE_FREE -> p_state p = PROC_STATE_FREE) ->
  p_version p' = p_version (procd_seqlock_end (procd_seqlock_begin p)) -> rtc wstep p p'.
Proof.
  intros He Hf Hv. assert (Z.odd (Z.lor (p_version p) 1) = true) as Ho.
  { apply Z.even_spec in He as [k ->]. rewrite lor_even. by rewrite Z.odd_add, Z.odd_mul. }
  eapply rtc_l; [by apply WBegin|]. eapply rtc_l; [apply (WField _ (with_version p' (Z.lor (p_version p) 1))); done|].
  apply rtc_once. assert (p' = procd_seqlock_end (with_version p' (Z.lor (p_version p) 1))) as E by (destruct p'; simpl in *; by subst).
  rewrite E at 2. by apply WEnd.
Qed.

Lemma request_wsteps d ntf badge mr i : procd_inv d -> rtc wstep (proc_at d i) (proc_at (procd_dispatch d ntf badge mr).1.2 i).
Proof.
  intros I. destruct (dispatch_step d ntf badge mr (pi_len d I)) as [Hs Hn Hl|k Hk K Hs Hn Hl|k Hk Hfr Hb B Hs Hn Hl].
  - by rewrite Hs.
  - destruct (decide (i = k)) as [->|]; [|by rewrite Hs]. apply section_wsteps; [by apply I| |apply K]. pose proof (kp_state _ _ _ K) as Hst. intros E. rewrite E in Hst. by inversion Hst.
  - destruct (decide (i = k)) as [->|]; [|by rewrite Hs]. eapply rtc_l; [apply (WAlloc _ (newborn k (g_next_pid d)) Hfr)|].
    apply section_wsteps; [done|rewrite (bo_state _ _ _ B); done|exact (bo_version _ _ _ B)].
Qed.

(** ** Theorems *)

(** C26: seqlock readers never see a torn record of a process that exists: whatever stores of the
    writer happen between their loads (section entered, fields changed in it, section left; also the
    stores of [procd_slot_alloc], which are made without a section), a bounded loader whose attempts
    each began when the slot was not free returns, when it succeeds, the fields of one record that stood in the
    table outside a write section, and the tier loader returns the tier of such a record or the
    tier 0 of its timeout.  An attempt that began on a free slot can be torn by its allocation
    ([alloc_tears_reader]).  The version is below 2^64 - 1. *)
Theorem seqlock_coherent h tries tier_tries :
  history h -> no_wrap h -> Forall (drawn_live h view_last) tries -> Forall (drawn_live h 2) tier_tries ->
  (forall v, seqlock_read view_fields view_last tries = Some v -> exists t, Z.even (p_version (h t)) = true /\ v = view_fields (fun _ => h t))
  /\ (procd_tier_load_bounded tier_tries = PROC_TIER_0
      \/ exists t, Z.even (p_version (h t)) = true /\ procd_tier_load_bounded tier_tries = p_tier (h t)).
Proof.
  intros Hh Hw Hv Ht. split.
  - intros v Hv'. eapply read_coherent; [exact Hh|exact Hw|apply view_fields_ext|exact Hv|exact Hv'].
  - unfold procd_tier_load_bounded. destruct (seqlock_read _ 2 tier_tries) as [x|] eqn:E; [|by left]. right.
    eapply (read_coherent h Hh Hw (fun obs => p_tier (obs 1%nat)) 2 tier_tries); [intros obs p Ho; by rewrite Ho by lia|exact Ht|exact E].
Qed.

(** What a loader meets while the server is idle. *)
Definition quiet_view (d : procd) : shm_view := mk_shm PROCD_SHM_MAGIC (Z.of_nat PROCD_MAX_PROCS) (fun slot _ _ => proc_at d slot).
Definition view_of (p : proc) : lucas_proc_view := view_fields (fun _ => p).

Lemma load_quiet d i : procd_inv d -> (1 <= i < PROCD_MAX_PROCS)%nat -> lucas_proct_load (Some (quiet_view d)) (Z.of_nat i) = Some (view_of (proc_at d i)).
Proof.
  intros I Hi. unfold lucas_proct_load, proc_t_ro_at_slot. rewrite (proj2 (Z.eqb_neq (Z.of_nat i) 0)) by lia. simpl sh_magic. rewrite Z.eqb_refl.
  simpl sh_table_n. rewrite Z.geb_leb, (proj2 (Z.leb_gt _ _)) by lia. cbn [negb orb]. rewrite Nat2Z.id.
  apply read_quiet; [apply I; lia|done|]. apply Forall_fmap, Forall_forall. done.
Qed.

Lemma find_quiet d pid i n :
  procd_inv d -> (1 <= i)%nat -> (i + n <= PROCD_MAX_PROCS)%nat ->
  find_loop (Some (quiet_view d)) pid i n
  = (fun k => view_of (proc_at d k))
    <$> first_from (fun i => (p_synthetic_pid (proc_at d i) =? pid) && negb (bool_decide (p_state (proc_at d i) = PROC_STATE_FREE))) i n.
Proof.
  intros I. revert i. induction n as [|n IH]; intros i Hi Hn; [done|]. simpl find_loop. rewrite load_quiet by (done || lia).
  simpl v_synthetic_pid. simpl v_state. simpl first_from. destruct (_ && _); [done|]. apply IH; lia.
Qed.

(** On an idle server the reader's search by pid agrees with procd's own table lookup: it
    finds a process exactly when procd does, and then returns that process's record; in particular
    every live pid is found in the slot of the same number. *)
Theorem reader_agrees ntf msgs pid :
  let d := (procd_serve procd_boot ntf msgs).2 in
  let found := lucas_proct_find_synthetic_pid (Some (quiet_view d)) pid in
  found = (fun k => view_of (proc_at d k)) <$> procd_table_lookup_by_synthetic_pid d pid
  /\ (forall i, procd_table_lookup_by_synthetic_pid d pid = Some i -> Z.of_nat i = pid)
  /\ (0 < pid < g_next_pid d -> is_Some found).
Proof.
  cbv zeta. set (d := (procd_serve procd_boot ntf msgs).2). assert (procd_inv d) as I by apply serve_inv, boot_inv.
  assert (lucas_proct_find_synthetic_pid (Some (quiet_view d)) pid = (fun k => view_of (proc_at d k)) <$> procd_table_lookup_by_synthetic_pid d pid) as E.
  { unfold lucas_proct_find_synthetic_pid, procd_table_lookup_by_synthetic_pid. simpl sh_magic. rewrite Z.eqb_refl. simpl sh_table_n.
    destruct (pid =? 0); simpl orb; cbv iota; [done|]. rewrite Z.gtb_ltb, Z.ltb_irrefl, Nat2Z.id. apply find_quiet; [done|lia|unfold PROCD_MAX_PROCS; lia]. }
  split; [exact E|]. unfold procd_table_lookup_by_synthetic_pid in *. split.
  - intros i. destruct (pid =? 0); [done|]. intros (Hi&Hp&_)%first_from_Some. bool_to_prop.
    destruct (pi_id d I i) as [_ Hid]; [unfold PROCD_MAX_PROCS in *; lia|done|congruence].
  - intros Hpid. rewrite E. pose proof (pi_next d I). rewrite (proj2 (Z.eqb_neq pid 0)) by lia. destruct (first_from _ _ _) eqn:Ef; [by eexists|].
    assert (p_state (proc_at d (Z.to_nat pid)) <> PROC_STATE_FREE) as Hs by (rewrite (pi_free d I) by lia; lia).
    eapply (first_from_None _ _ _ (Z.to_nat pid)) in Ef; [|unfold PROCD_MAX_PROCS in *; lia].
    destruct (pi_id d I (Z.to_nat pid)) as [_ Hid]; [lia|done|]. cbv beta in Ef. rewrite Hid, Z2Nat.id, Z.eqb_refl in Ef by lia. simpl in Ef.
    by rewrite bool_decide_eq_false_2 in Ef by done.
Qed.

(** A record that is allocated and then rewritten while it is read: instants 0 to 2 are the stores of
    the allocation (the pid, the state), 3 the section entered, 4 the tier stored, 5 the section
    left. *)
Module ViewDemo.
Definition q0 : proc := mk_proc 1 0 0 0 0 PROC_STATE_FREE 0 0 0 (mk_functor 0 0 0) 0 0 (replicate 16 0) 0 0.
Definition q1 : proc := mk_proc 1 1 0 0 0 PROC_STATE_FREE 0 0 0 (mk_functor 0 0 0) 0 0 (replicate 16 0) 0 0.
Definition p0 : proc := mk_proc 1 1 0 0 0 PROC_STATE_NASCENT 0 0 0 (mk_functor 0 0 0) 0 0 (replicate 16 0) 0 0.
Definition p1 : proc := procd_seqlock_begin p0.
Definition p2 : proc := with_tier 2 (mk_functor 2 1 1) p1.
Definition p3 : proc := procd_seqlock_end p2.
Definition h (t : nat) : proc := match t with 0%nat => q0 | 1%nat => q1 | 2%nat => p0 | 3%nat => p1 | 4%nat => p2 | _ => p3 end.
(** The first attempt straddles the section, the second comes after it. *)
Definition early (k : nat) : proc := h (k + 2).
Definition late (k : nat) : proc := h (k + 5).
(** This one begins before the allocation and ends before the section. *)
Definition torn (k : nat) : proc := if (k <=? 1)%nat then h 0 else h 2.

Lemma h_history : history h.
Proof.
  intros [|[|[|[|[|t]]]]]; simpl; [right; by apply WAlloc|right; by apply WAlloc|right; by apply WBegin|right; by apply WField|right; by apply WEnd|by left].
Qed.
Lemma h_no_wrap : no_wrap h.
Proof. intros [|[|[|[|[|t]]]]]; vm_compute; split; congruence. Qed.
End ViewDemo.

Lemma seqlock_coherent_witness :
  seqlock_read view_fields view_last [ViewDemo.early; ViewDemo.late] = Some (view_of ViewDemo.p3)
  /\ exists t, Z.even (p_version (ViewDemo.h t)) = true /\ view_of ViewDemo.p3 = view_of (ViewDemo.h t).
Proof.
  assert (seqlock_read view_fields view_last [ViewDemo.early; ViewDemo.late] = Some (view_of ViewDemo.p3)) as E by (vm_compute; reflexivity).
  split; [exact E|]. refine (proj1 (seqlock_coherent ViewDemo.h [ViewDemo.early; ViewDemo.late] [] ViewDemo.h_history ViewDemo.h_no_wrap _ (Forall_nil_2 _)) _ E).
  constructor; [|constructor; [|constructor]]; (split; [|vm_compute; discriminate]).
  - exists (fun k => (k + 2)%nat). split; [lia|done].
  - exists (fun k => (k + 5)%nat). split; [lia|done].
Defined.

(** A loader that began on the free slot returns the old pid 0 with the new state NASCENT, which no
    record ever had: the allocation leaves the version at 0, and even. *)
Example alloc_tears_reader :
  drawn ViewDemo.h view_last ViewDemo.torn /\
  exists v, seqlock_read view_fields view_last [ViewDemo.torn] = Some v /\ v_synthetic_pid v = 0 /\ v_state v = PROC_STATE_NASCENT
    /\ forall t, v <> view_of (ViewDemo.h t).
Proof.
  split.
  - exists (fun k => if (k <=? 1)%nat then 0%nat else 2%nat). split; [|intros k _; unfold ViewDemo.torn; by destruct (k <=? 1)%nat].
    intros k k' Hk. destruct (Nat.leb_spec k 1), (Nat.leb_spec k' 1); lia.
  - eexists. split; [vm_compute; reflexivity|]. split; [done|]. split; [done|]. intros [|[|[|[|[|t]]]]]; vm_compute; discriminate.
Qed.
