(* ===== verification/WalReplay.v ===== *)
(** * The replays of the other subsystems

    src/sotfs/replay_procd.c, replay_anomaly.c, replay_sotnet.c and the dispatcher
    src/sotfs/wal_replay.c; the synth counters of src/sotnet/synth.c; the payloads of
    include/sotfs/wal.h with their emitters; and [orch_procd_wal_mirror_slot] of
    src/orch/main.c.

    [g_procd_shm_base] is [option (list proc)]: [None] for NULL, else the table it
    points to.  [g_procd_shm_ro] is the view of ProcView. *)

From S2P Require Import Prelude Crc64 Storage BlockStore Graph Rewrite FileIO Wal ProcdTable ProcView.
Import Layout.

(** ** Payloads *)

Definition state_code (s : proc_state) : Z :=
  match s with
  | PROC_STATE_FREE => 0 | PROC_STATE_NASCENT => 1 | PROC_STATE_RUNNING => 2
  | PROC_STATE_STOPPED => 3 | PROC_STATE_ZOMBIE => 4 | PROC_STATE_DEAD => 5
  end.
(** The cast back; every writer stores one of the six codes. *)
Definition state_of_code (c : Z) : proc_state :=
  if c =? 1 then PROC_STATE_NASCENT else if c =? 2 then PROC_STATE_RUNNING else if c =? 3 then PROC_STATE_STOPPED
  else if c =? 4 then PROC_STATE_ZOMBIE else if c =? 5 then PROC_STATE_DEAD else PROC_STATE_FREE.

(** Seven bytes of [_pad] and four of alignment follow the state. *)
Definition mut_bytes (m : procd_mut) : list Z :=
  le_bytes 4 (mu_slot m) ++ le_bytes 4 (mu_synthetic_pid m) ++ le_bytes 4 (mu_ppid m) ++ le_bytes 4 (mu_pgid m) ++ le_bytes 4 (mu_sid m)
  ++ le_bytes 2 (mu_tier m) ++ le_bytes 2 (f_fs (mu_functor m)) ++ le_bytes 2 (f_net (mu_functor m)) ++ le_bytes 2 (f_proc (mu_functor m))
  ++ le_bytes 1 (state_code (mu_state m)) ++ le_bytes 7 0 ++ le_bytes 4 0 ++ le_bytes 8 (mu_pledge_mask m).
Definition mut_of (bs : list Z) : procd_mut :=
  mk_mut (field bs 0 4) (field bs 4 4) (field bs 8 4) (field bs 12 4) (field bs 16 4) (field bs 20 2)
    (mk_functor (field bs 22 2) (field bs 24 2) (field bs 26 2)) (state_of_code (field bs 28 1)) (field bs 40 8).
Definition mut_size : nat := 48.

Record anomaly_ev := mk_aev { ae_timestamp : Z; ae_pid : Z; ae_kind : Z; ae_pad : Z; ae_arg0 : Z; ae_arg1 : Z }.
Definition aev_bytes (e : anomaly_ev) : list Z :=
  le_bytes 8 (ae_timestamp e) ++ le_bytes 4 (ae_pid e) ++ le_bytes 2 (ae_kind e) ++ le_bytes 2 (ae_pad e) ++ le_bytes 4 (ae_arg0 e) ++ le_bytes 4 (ae_arg1 e).
Definition aev_of (bs : list Z) : anomaly_ev :=
  mk_aev (field bs 0 8) (field bs 8 4) (field bs 12 2) (field bs 14 2) (field bs 16 4) (field bs 20 4).
Definition aev_size : nat := 24.

Record sotnet_synth := mk_syn { sy_src_slot : Z; sy_dst_ip_be : Z; sy_dst_port_be : Z; sy_pad : Z; sy_bytes_redirected : Z }.
Definition syn_bytes (s : sotnet_synth) : list Z :=
  le_bytes 4 (sy_src_slot s) ++ le_bytes 4 (sy_dst_ip_be s) ++ le_bytes 2 (sy_dst_port_be s) ++ le_bytes 2 (sy_pad s) ++ le_bytes 4 (sy_bytes_redirected s).
Definition syn_of (bs : list Z) : sotnet_synth :=
  mk_syn (field bs 0 4) (field bs 4 4) (field bs 8 2) (field bs 10 2) (field bs 12 4).
Definition syn_size : nat := 16.

(** ** The synth counters *)

Definition ORCH_STATUS_MAX_ENTRIES : Z := 8.

Record synth := mk_synth { g_synth_redirects_total : Z; g_synth_bytes_total : Z; g_synth_redirects_pid : list Z }.
Definition synth_boot : synth := mk_synth 0 0 (replicate 9 0).

(** The counters of [synth_redirect_emit]; replay uses the same arithmetic. *)
Definition synth_replay_bump (s : synth) (src_slot bytes : Z) : synth :=
  mk_synth (u32 (g_synth_redirects_total s + 1)) (u32 (g_synth_bytes_total s + bytes))
    (if (src_slot >? 0) && (src_slot <=? ORCH_STATUS_MAX_ENTRIES)
     then <[Z.to_nat src_slot := u32 ((g_synth_redirects_pid s).[Z.to_nat src_slot, 0] + 1)]> (g_synth_redirects_pid s)
     else g_synth_redirects_pid s).
Definition synth_get_redirects (s : synth) : Z := g_synth_redirects_total s.
Definition synth_get_bytes (s : synth) : Z := g_synth_bytes_total s.
Definition synth_get_redirects_pid (s : synth) (pid : Z) : Z :=
  if (pid =? 0) || (pid >? ORCH_STATUS_MAX_ENTRIES) then 0 else (g_synth_redirects_pid s).[Z.to_nat pid, 0].

(** ** The scans *)

(** The locals of a scan: what it restores, frames of its kind, torn ones, and the
    audit trace. *)
Record scan_acc (A : Type) := mk_acc { sa_val : A; sa_scanned : Z; sa_torn : Z; sa_audit : list (Z * Z) }.
#[global] Arguments mk_acc {A}.
#[global] Arguments sa_val {A}.
#[global] Arguments sa_scanned {A}.
#[global] Arguments sa_torn {A}.
#[global] Arguments sa_audit {A}.

Definition SOTGUARD_KIND_SIMREBOOT_BEGIN : Z := 0x73.
Definition SOTGUARD_KIND_SIMREBOOT_END : Z := 0x74.

Section replays.
Context {B : Type} `{StorageOps B}.
Implicit Types (w : wal B).

(** The loop body the three scans share: frames of another kind or size are stepped
    over, a payload whose checksum fails is reported, the others are used. *)
Definition payload_frame {A} (w : wal B) (kind : Z) (size : nat) (use : A -> list Z -> A) (a : scan_acc A) (off : Z) (hdr : sotfs_wal_v2_header) : scan_acc A :=
  let '(mk_acc x n torn audit) := a in
  if h_kind hdr =? kind then
    let n := u32 (n + 1) in
    if h_len hdr - 24 =? Z.of_nat size then
      let '(rc, bs) := sotfs_storage_read w (off + 24) size in
      if rc <? 0 then mk_acc x n torn audit
      else if sotfs_crc64 bs =? h_crc64 hdr then mk_acc (use x bs) n torn audit
      else mk_acc x n (u32 (torn + 1)) ((SOTGUARD_KIND_WAL_TORN_RECORD, h_seq hdr) :: audit)
    else mk_acc x n torn audit
  else a.

Definition payload_scan {A} (w : wal B) (kind : Z) (size : nat) (use : A -> list Z -> A) (x : A) : scan_acc A :=
  (wal_scan (sotfs_storage_read w) (payload_frame w kind size use) scan_fuel SOTFS_WAL_OFFSET (mk_acc x 0 0 (g_audit w))).2.

(** *** procd *)

Definition procd_shm_proc_at (base : option (list proc)) (slot : Z) : option nat :=
  match base with
  | None => None
  | Some procs => if (slot =? 0) || (slot >=? Z.of_nat (length procs)) then None else Some (Z.to_nat slot)
  end.

Definition restore_fields (m : procd_mut) (p : proc) : proc :=
  mk_proc (p_slot p) (mu_synthetic_pid m) (mu_ppid m) (mu_pgid m) (mu_sid m) (mu_state m) (mu_tier m) (p_exit_code p) (p_n_threads p)
    (mu_functor m) (mu_pledge_mask m) (p_share_flags p) (p_comm p) (p_cow_session p) (p_version p).

(** The table, records applied and records without a table to apply to. *)
Definition procd_use (x : option (list proc) * Z * Z) (bs : list Z) : option (list proc) * Z * Z :=
  let '(base, applied, no_shm) := x in
  let m := mut_of bs in
  match base, procd_shm_proc_at base (mu_slot m) with
  | Some procs, Some i =>
      let p := procd_seqlock_end (restore_fields m (procd_seqlock_begin procs.[i, zero_proc])) in
      (Some (<[i := p]> procs), u32 (applied + 1), no_shm)
  | _, _ => (base, applied, u32 (no_shm + 1))
  end.

Definition procd_wal_replay (w : wal B) (base : option (list proc)) : Z * option (list proc) * wal B :=
  let a := payload_scan w SOTFS_WAL_KIND_PROCD_MUT mut_size procd_use (base, 0, 0) in
  (i32 (sa_val a).1.2, (sa_val a).1.1, set_audit w (sa_audit a)).

(** *** Anomaly history *)

Definition ANOMALY_REPLAY_HISTORY_MAX : nat := 256.

(** [g_history] up to [g_history_count], with the counters restored and dropped. *)
Definition anomaly_use (x : list anomaly_ev * Z * Z) (bs : list Z) : list anomaly_ev * Z * Z :=
  let '(hist, restored, full) := x in
  if (length hist <? ANOMALY_REPLAY_HISTORY_MAX)%nat then (hist ++ [aev_of bs], u32 (restored + 1), full) else (hist, restored, u32 (full + 1)).

(** The buffer is emptied on entry. *)
Definition anomaly_wal_replay (w : wal B) : Z * list anomaly_ev * wal B :=
  let a := payload_scan w SOTFS_WAL_KIND_ANOMALY_EV aev_size anomaly_use ([], 0, 0) in
  (i32 (sa_val a).1.2, (sa_val a).1.1, set_audit w (sa_audit a)).

Definition anomaly_replay_history_count (hist : list anomaly_ev) : Z := Z.of_nat (length hist).
Definition anomaly_replay_history_get (hist : list anomaly_ev) (i : nat) : option anomaly_ev := hist !! i.

(** *** Synth counters *)

Definition sotnet_use (x : synth * Z) (bs : list Z) : synth * Z :=
  (synth_replay_bump x.1 (sy_src_slot (syn_of bs)) (sy_bytes_redirected (syn_of bs)), u32 (x.2 + 1)).

Definition sotnet_wal_replay (w : wal B) (s : synth) : Z * synth * wal B :=
  let a := payload_scan w SOTFS_WAL_KIND_SOTNET_SYNTH syn_size sotnet_use (s, 0) in
  (i32 (sa_val a).2, (sa_val a).1, set_audit w (sa_audit a)).

(** *** All of them, at boot *)

Section apply.
Context {S : Type} `{BlockStore S}.

(** The state of the address space the replays run in. *)
Record world := mk_world { wd_graph : sotfs_graph; wd_store : S; wd_procs : option (list proc); wd_history : list anomaly_ev; wd_synth : synth }.

Definition nonneg (n : Z) : Z := if n <? 0 then 0 else n.

Definition sotfs_wal_replay_apply (w : wal B) (x : world) : Z * world * wal B :=
  let '(files, g, s, w) := sotfs_wal_replay_files w (wd_graph x) (wd_store x) in
  let '(procd_n, procs, w) := procd_wal_replay w (wd_procs x) in
  let '(anomaly_n, hist, w) := anomaly_wal_replay w in
  let '(sotnet_n, syn, w) := sotnet_wal_replay w (wd_synth x) in
  let total := files + nonneg procd_n + nonneg anomaly_n + nonneg sotnet_n in
  (total, mk_world g s procs hist syn, sotfs_wal_audit_emit w SOTGUARD_KIND_WAL_REPLAY_DONE (u64 total)).

(** [orch_simreboot_cascade] of src/orch/simreboot.c: the checkpoint of the new epoch, a flush,
    and the replay once more on the live state ([None] before the file system is up).  The
    result also lists what is appended to the anomaly log, as kind and first argument. *)
Definition orch_simreboot_cascade (count : Z) (w : wal B) (x : option world) : Z * Z * wal B * option world * list (Z * Z) :=
  let first := (SOTGUARD_KIND_SIMREBOOT_BEGIN, count) in
  let next := u32 (count + 1) in
  let '(rc, w) := sotfs_wal_log_checkpoint (ck_bytes (mk_ck next next 1 (sotfs_wal_cursor w))) w in
  if rc <? 0 then (rc, count, w, x, [first])
  else
    let w := sotfs_wal_flush w in
    match x with
    | None => (0, next, w, None, [first; (SOTGUARD_KIND_SIMREBOOT_END, next)])
    | Some wd => let '(_, wd, w) := sotfs_wal_replay_apply w wd in (0, next, w, Some wd, [first; (SOTGUARD_KIND_SIMREBOOT_END, next)])
    end.
End apply.
#[global] Arguments world : clear implicits.

(** ** Writers *)

Definition sotfs_wal_log_procd_mut (p : procd_mut) (w : wal B) : Z * wal B := sotfs_wal_log_payload SOTFS_WAL_KIND_PROCD_MUT (mut_bytes p) w.
Definition sotfs_wal_log_anomaly_ev (p : anomaly_ev) (w : wal B) : Z * wal B := sotfs_wal_log_payload SOTFS_WAL_KIND_ANOMALY_EV (aev_bytes p) w.
Definition sotfs_wal_log_sotnet_synth (p : sotnet_synth) (w : wal B) : Z * wal B := sotfs_wal_log_payload SOTFS_WAL_KIND_SOTNET_SYNTH (syn_bytes p) w.

(** The record built from the copied [proc_t]: [memcpy] loads the fields in the order
    of the struct, between the two version loads 0 and 12. *)
Definition snap_fields (obs : nat -> proc) : procd_mut :=
  mk_mut (p_slot (obs 1%nat)) (p_synthetic_pid (obs 2%nat)) (p_ppid (obs 3%nat)) (p_pgid (obs 4%nat)) (p_sid (obs 5%nat)) (u16 (p_tier (obs 7%nat)))
    (mk_functor (f_fs (p_functor (obs 8%nat))) (f_net (p_functor (obs 9%nat))) (f_proc (p_functor (obs 10%nat)))) (p_state (obs 6%nat)) (p_pledge_mask (obs 11%nat)).
Definition snap_last : nat := 12.
Definition SNAP_TRIES : nat := 8.

(** The seqlock read and the record of one slot; [None] when the read did not settle or
    the slot is free. *)
Definition snap_slot (m : shm_view) (slot : nat) : option procd_mut :=
  match seqlock_read snap_fields snap_last (sh_obs m slot <$> seq 0 SNAP_TRIES) with
  | Some r => if bool_decide (mu_state r = PROC_STATE_FREE) then None else Some r
  | None => None
  end.

Fixpoint snapshot_loop (m : shm_view) (slot n : nat) (wrote : Z) (w : wal B) : Z * wal B :=
  match n with
  | O => (wrote, w)
  | S n' =>
      match snap_slot m slot with
      | None => snapshot_loop m (S slot) n' wrote w
      | Some r => let '(rc, w) := sotfs_wal_log_procd_mut r w in
                  snapshot_loop m (S slot) n' (if rc =? 0 then u32 (wrote + 1) else wrote) w
      end
  end.

Definition procd_wal_snapshot (ro : option shm_view) (w : wal B) : Z * wal B :=
  match ro with
  | None => (0, w)
  | Some m =>
      if negb (sh_magic m =? PROCD_SHM_MAGIC) then (0, w)
      else let n := if sh_table_n m >? Z.of_nat PROCD_MAX_PROCS then Z.of_nat PROCD_MAX_PROCS else sh_table_n m in
           let '(wrote, w) := snapshot_loop m 1 (Z.to_nat n - 1) 0 w in (i32 wrote, w)
  end.

Definition orch_procd_wal_mirror_slot (attached : bool) (ro : option shm_view) (slot : Z) (w : wal B) : wal B :=
  match attached, ro with
  | true, Some m =>
      if (slot =? 0) || (slot >=? Z.of_nat PROCD_MAX_PROCS) then w
      else if negb (sh_magic m =? PROCD_SHM_MAGIC) || (slot >=? sh_table_n m) then w
      else match snap_slot m (Z.to_nat slot) with
           | Some r => (sotfs_wal_log_procd_mut r w).2
           | None => w
           end
  | _, _ => w
  end.
End replays.
