(* ===== verification/WalReplayTheorems.v ===== *)
(** * Theorems on the replays of the other subsystems

    What a boot restores of each subsystem ([boot_replay_restores]), the snapshot of
    the process table in the log ([snapshot_logs_table]) and what a simulated reboot
    does to a live file system ([simreboot_resurrects]). *)

From S2P Require Import Prelude Crc64 Storage Blkdev BlkdevTheorems BlockStore Graph Rewrite FsInv FsSpec FsTheorems FileIO FileIOSpec FileIOTheorems Wal WalSpec WalTheorems ProcdTable ProcdServer ProcdSpec ProcdTheorems ProcView WalReplay.
Import Layout.

#[local] Arguments le_bytes : simpl never.
#[local] Arguments app : simpl never.

(** ** Payload images *)

Record mut_wf (m : procd_mut) : Prop := {
  mw_slot : 0 <= mu_slot m < 2 ^ 32; mw_pid : 0 <= mu_synthetic_pid m < 2 ^ 32; mw_ppid : 0 <= mu_ppid m < 2 ^ 32;
  mw_pgid : 0 <= mu_pgid m < 2 ^ 32; mw_sid : 0 <= mu_sid m < 2 ^ 32; mw_tier : 0 <= mu_tier m < 2 ^ 16;
  mw_fs : 0 <= f_fs (mu_functor m) < 2 ^ 16; mw_net : 0 <= f_net (mu_functor m) < 2 ^ 16; mw_proc : 0 <= f_proc (mu_functor m) < 2 ^ 16;
  mw_pledge : 0 <= mu_pledge_mask m < 2 ^ 64;
}.

Lemma state_of_code_code s : state_of_code (state_code s) = s.
Proof. by destruct s. Qed.

(** The last field of an image. *)
Lemma field_last n m z : (n = m)%nat -> 0 <= z < 2 ^ (8 * Z.of_nat n) -> field (le_bytes n z) 0 m = z.
Proof. intros E Hz. rewrite <-(app_nil_r (le_bytes n z)). by apply field_app_l. Qed.

Lemma mut_of_bytes m : mut_wf m -> mut_of (mut_bytes m) = m.
Proof.
  intros []. assert (0 <= state_code (mu_state m) < 2 ^ (8 * Z.of_nat 1)) by (destruct (mu_state m); simpl; lia).
  destruct m as [? ? ? ? ? ? [? ? ?] st ?]. simpl in *. unfold mut_of, mut_bytes. simpl.
  f_equal; [..|f_equal|rewrite <-state_of_code_code; f_equal|]; read_fields; first [by apply field_app_l|by apply field_last].
Qed.

Record aev_wf (e : anomaly_ev) : Prop := {
  aw_ts : 0 <= ae_timestamp e < 2 ^ 64; aw_pid : 0 <= ae_pid e < 2 ^ 32; aw_kind : 0 <= ae_kind e < 2 ^ 16; aw_pad : 0 <= ae_pad e < 2 ^ 16;
  aw_arg0 : 0 <= ae_arg0 e < 2 ^ 32; aw_arg1 : 0 <= ae_arg1 e < 2 ^ 32;
}.

Lemma aev_of_bytes e : aev_wf e -> aev_of (aev_bytes e) = e.
Proof.
  intros []. destruct e. simpl in *. unfold aev_of, aev_bytes. simpl. f_equal; read_fields; first [by apply field_app_l|by apply field_last].
Qed.

Record syn_wf (s : sotnet_synth) : Prop := {
  sw_slot : 0 <= sy_src_slot s < 2 ^ 32; sw_ip : 0 <= sy_dst_ip_be s < 2 ^ 32; sw_port : 0 <= sy_dst_port_be s < 2 ^ 16; sw_pad : 0 <= sy_pad s < 2 ^ 16;
  sw_bytes : 0 <= sy_bytes_redirected s < 2 ^ 32;
}.

Lemma syn_of_bytes s : syn_wf s -> syn_of (syn_bytes s) = s.
Proof.
  intros []. destruct s. simpl in *. unfold syn_of, syn_bytes. simpl. f_equal; read_fields; first [by apply field_app_l|by apply field_last].
Qed.

Lemma length_mut_bytes m : length (mut_bytes m) = mut_size.
Proof. unfold mut_bytes. by rewrite !length_app, !length_le_bytes. Qed.
Lemma length_aev_bytes e : length (aev_bytes e) = aev_size.
Proof. unfold aev_bytes. by rewrite !length_app, !length_le_bytes. Qed.
Lemma length_syn_bytes s : length (syn_bytes s) = syn_size.
Proof. unfold syn_bytes. by rewrite !length_app, !length_le_bytes. Qed.

(** ** A scan as a fold over frames *)

Section scan.
Context {A : Type} (kind : Z) (size : nat) (use : A -> list Z -> A).

Definition payload_step (a : scan_acc A) (x : frame) : scan_acc A :=
  let '(mk_acc v n torn audit) := a in
  if h_kind (fr_hdr x) =? kind then
    let n := u32 (n + 1) in
    if h_len (fr_hdr x) - 24 =? Z.of_nat size then
      if sotfs_crc64 (fr_payload x) =? h_crc64 (fr_hdr x) then mk_acc (use v (fr_payload x)) n torn audit
      else mk_acc v n (u32 (torn + 1)) ((SOTGUARD_KIND_WAL_TORN_RECORD, h_seq (fr_hdr x)) :: audit)
    else mk_acc v n torn audit
  else a.

(** A frame as the writers leave it. *)
Definition sound (x : frame) : Prop := h_len (fr_hdr x) = 24 + Z.of_nat (length (fr_payload x)) /\ h_crc64 (fr_hdr x) = sotfs_crc64 (fr_payload x).

(** The payloads of one kind and size. *)
Definition select (k : Z) (p : list Z) : option (list Z) := if (k =? kind) && (length p =? size)%nat then Some p else None.
Definition selected (l : list frame) : list (list Z) := omap (fun x => select (h_kind (fr_hdr x)) (fr_payload x)) l.
Definition payloads (ops : list wal_op) : list (list Z) := omap (fun op => select (op_kind op) (op_payload op)) ops.

Lemma fold_sound l v n t u :
  Forall sound l -> let a := fold_left payload_step l (mk_acc v n t u) in
  sa_val a = fold_left use (selected l) v /\ sa_torn a = t /\ sa_audit a = u.
Proof.
  intros Hl. revert v n. induction Hl as [|x l [Hlen Hcrc] _ IH]; intros v n; simpl; [done|].
  rewrite Hlen, Hcrc, Z.eqb_refl. unfold select. destruct (_ =? kind); simpl; [|apply IH].
  replace (24 + Z.of_nat (length (fr_payload x)) - 24 =? Z.of_nat size) with (length (fr_payload x) =? size)%nat
    by (apply Bool.eq_iff_eq_true; rewrite Nat.eqb_eq, Z.eqb_eq; lia).
  destruct (_ =? size)%nat; simpl; apply IH.
Qed.

Lemma next_frame_sound l k p : sound (next_frame l k p).
Proof. done. Qed.

Lemma put_selected st k p :
  kind <> SOTFS_WAL_KIND_CHECKPOINT -> Forall sound st.1 ->
  Forall sound (put st k p).1 /\ selected (put st k p).1 = selected st.1 ++ option_list (select k p).
Proof.
  intros Hck Hs. unfold put, selected. destruct (st.2 + 1 <? _); simpl; rewrite ?omap_app; simpl.
  - split; [apply Forall_app; split; [done|by repeat constructor]|]. by destruct (select k p).
  - split; [rewrite !Forall_app; split_and!; [done|by repeat constructor|by repeat constructor]|].
    assert (select SOTFS_WAL_KIND_CHECKPOINT (checkpoint_after (st.1 ++ [next_frame st.1 k p])) = None) as ->.
    { unfold select. by rewrite (proj2 (Z.eqb_neq _ _)) by done. }
    rewrite app_nil_r. by destruct (select k p).
Qed.

Lemma log_selected ops st :
  kind <> SOTFS_WAL_KIND_CHECKPOINT -> Forall sound st.1 ->
  Forall sound (fold_left put_op ops st).1 /\ selected (fold_left put_op ops st).1 = selected st.1 ++ payloads ops.
Proof.
  intros Hck. revert st. induction ops as [|op ops IH]; intros st Hs; simpl; [by rewrite app_nil_r|].
  rewrite put_op_eq. destruct (put_selected st (op_kind op) (op_payload op) Hck Hs) as [H1 H2]. destruct (IH _ H1) as [H3 H4].
  split; [done|]. rewrite H4, H2, <-app_assoc. f_equal. by destruct (select _ _).
Qed.
End scan.

Section replays.
Context {B : Type} `{StorageLaws B} {S : Type} `{BlockStore S}.
Implicit Types (w : wal B) (b : B).

Lemma payload_scan_log {A} w b l kind size (use : A -> list Z -> A) v :
  carries b l -> g_storage w = Some b -> (0 < size)%nat ->
  payload_scan w kind size use v = fold_left (payload_step kind size use) l (mk_acc v 0 0 (g_audit w)).
Proof.
  intros C Hst Hsz. unfold payload_scan. rewrite (scan_frames b l _ _ (payload_step kind size use)); [done|done| |].
  - intros o n Ho Hn Hon. exists 0. split; [lia|]. by eapply storage_read_ok.
  - intros [v' n t u] o x Fx Ho Ho' Hs. unfold payload_frame, payload_step. destruct (_ =? kind); [|done].
    destruct (_ =? Z.of_nat size) eqn:E; [|done]. bool_to_prop. pose proof (fo_len _ Fx).
    assert (length (fr_payload x) = size) as Hlp by lia. rewrite Hlp in Hs.
    rewrite (storage_read_ok w b l C Hst (o + 24) size) by lia. simpl. by rewrite Hs.
Qed.

(** What a scan of the log of [ops] restores. *)
Lemma payload_scan_ops {A} w b n ops kind size (use : A -> list Z -> A) v :
  carries b (log_of n ops) -> g_storage w = Some b -> (0 < size)%nat -> kind <> SOTFS_WAL_KIND_CHECKPOINT ->
  let a := payload_scan w kind size use v in
  sa_val a = fold_left use (payloads kind size ops) v /\ sa_torn a = 0 /\ sa_audit a = g_audit w.
Proof.
  intros C Hst Hsz Hk. cbv zeta. rewrite (payload_scan_log w b (log_of n ops)) by done.
  destruct (log_selected kind size ops ([], n) Hk (Forall_nil_2 _)) as [Hs Hsel].
  destruct (fold_sound kind size use _ v 0 0 (g_audit w) Hs) as (E1&E2&E3). unfold log_of. rewrite E1, Hsel. done.
Qed.

Lemma set_audit_same w : set_audit w (g_audit w) = w.
Proof. by destruct w. Qed.

(** *** The three replays of the log of [ops] *)

Definition bump_all (s : synth) (ps : list sotnet_synth) : synth := fold_left (fun s p => synth_replay_bump s (sy_src_slot p) (sy_bytes_redirected p)) ps s.

Lemma anomaly_fold ps h r f :
  (length h <= ANOMALY_REPLAY_HISTORY_MAX)%nat ->
  (fold_left anomaly_use ps (h, r, f)).1.1 = take ANOMALY_REPLAY_HISTORY_MAX (h ++ (aev_of <$> ps)).
Proof.
  revert h r f. induction ps as [|p ps IH]; intros h r f Hh.
  - simpl. rewrite app_nil_r, take_ge by done. done.
  - cbn [fold_left anomaly_use fmap list_fmap]. destruct (length h <? ANOMALY_REPLAY_HISTORY_MAX)%nat eqn:E.
    + apply Nat.ltb_lt in E. rewrite IH by (rewrite length_app; simpl; lia). by rewrite <-app_assoc.
    + apply Nat.ltb_ge in E. rewrite IH by done. rewrite !take_app_le by lia. done.
Qed.

Lemma sotnet_fold ps s r : (fold_left sotnet_use ps (s, r)).1 = bump_all s (syn_of <$> ps).
Proof. revert s r. induction ps as [|p ps IH]; intros s r; [done|]. cbn [fold_left sotnet_use fmap list_fmap]. unfold sotnet_use at 2. rewrite IH. done. Qed.

Lemma procd_fold ps a f : (fold_left procd_use ps (None, a, f)).1 = (None, a).
Proof. revert f. induction ps as [|p ps IH]; intros f; [done|]. simpl. apply IH. Qed.

Section after.
Context (w : wal B) (b : B) (n : Z) (ops : list wal_op).
Context (C : carries b (log_of n ops)) (Hst : g_storage w = Some b).

Lemma procd_replay_ops : procd_wal_replay w None = (0, None, w).
Proof using C Hst H0.
  unfold procd_wal_replay. destruct (payload_scan_ops w b n ops SOTFS_WAL_KIND_PROCD_MUT mut_size procd_use (None, 0, 0) C Hst) as (E1&_&E3); [unfold mut_size; lia|done|].
  rewrite E1, E3, procd_fold, set_audit_same. done.
Qed.

Lemma anomaly_replay_ops :
  exists k, anomaly_wal_replay w = (k, take ANOMALY_REPLAY_HISTORY_MAX (aev_of <$> payloads SOTFS_WAL_KIND_ANOMALY_EV aev_size ops), w).
Proof using C Hst H0.
  unfold anomaly_wal_replay. destruct (payload_scan_ops w b n ops SOTFS_WAL_KIND_ANOMALY_EV aev_size anomaly_use ([], 0, 0) C Hst) as (E1&_&E3); [unfold aev_size; lia|done|].
  rewrite E3, set_audit_same, E1, anomaly_fold by (simpl; lia). by eexists.
Qed.

Lemma sotnet_replay_ops s :
  exists k, sotnet_wal_replay w s = (k, bump_all s (syn_of <$> payloads SOTFS_WAL_KIND_SOTNET_SYNTH syn_size ops), w).
Proof using C Hst H0.
  unfold sotnet_wal_replay. destruct (payload_scan_ops w b n ops SOTFS_WAL_KIND_SOTNET_SYNTH syn_size sotnet_use (s, 0) C Hst) as (E1&_&E3); [unfold syn_size; lia|done|].
  rewrite E3, set_audit_same, E1, sotnet_fold. by eexists.
Qed.
End after.


(** *** The snapshot of the process table *)

Definition proc_record (p : proc) : procd_mut := snap_fields (fun _ => p).
Definition mut_op (m : procd_mut) : wal_op := WLog SOTFS_WAL_KIND_PROCD_MUT (mut_bytes m).

Lemma mut_bytes_byte m : Forall is_byte (mut_bytes m).
Proof. unfold mut_bytes. rewrite !Forall_app. split_and!; apply le_bytes_byte. Qed.

Lemma mut_op_ok m : wal_op_ok (mut_op m).
Proof.
  split; [done|]. split; [|apply mut_bytes_byte]. intros E. pose proof (length_mut_bytes m) as Hl. by rewrite E in Hl.
Qed.

Lemma put_op_size st op : log_size (put_op st op).1 <= log_size st.1 + op_size op + 48.
Proof.
  rewrite put_op_eq. unfold put, op_size. destruct (st.2 + 1 <? _); cbn [fst]; rewrite !log_size_snoc; unfold next_frame; cbn [fr_hdr h_len]; [lia|].
  unfold checkpoint_after. rewrite length_ck_bytes. lia.
Qed.

Lemma log_mut_size ms st : log_size (fold_left put_op (mut_op <$> ms) st).1 <= log_size st.1 + 120 * Z.of_nat (length ms).
Proof.
  revert st. induction ms as [|m ms IH]; intros st; cbn [fmap list_fmap fold_left length]; [lia|]. etransitivity; [apply IH|].
  pose proof (put_op_size st (mut_op m)) as Hp. assert (op_size (mut_op m) = 72) as E by (unfold op_size; simpl op_payload; by rewrite length_mut_bytes). lia.
Qed.

Lemma payloads_mut ms : payloads SOTFS_WAL_KIND_PROCD_MUT mut_size (mut_op <$> ms) = mut_bytes <$> ms.
Proof.
  induction ms as [|m ms IH]; [done|]. unfold payloads in *. cbn [fmap list_fmap omap list_omap].
  assert (select SOTFS_WAL_KIND_PROCD_MUT mut_size (op_kind (mut_op m)) (op_payload (mut_op m)) = Some (mut_bytes m)) as ->.
  { unfold select. simpl op_payload. rewrite length_mut_bytes. done. }
  f_equal. exact IH.
Qed.

Section quiet.
Context (d : procd) (I : procd_inv d).

Lemma snap_quiet i :
  (i < PROCD_MAX_PROCS)%nat -> snap_slot (quiet_view d) i = if bool_decide (p_state (proc_at d i) = PROC_STATE_FREE) then None else Some (proc_record (proc_at d i)).
Proof using I.
  intros Hi. unfold snap_slot. rewrite (read_quiet snap_fields snap_last _ (proc_at d i)); [done|by apply I|done|].
  apply Forall_fmap, Forall_forall. done.
Qed.

(** The loop logs the processes in the order of their slots. *)
Lemma snapshot_exec i n wrote w :
  (1 <= i)%nat -> (i + n <= PROCD_MAX_PROCS)%nat ->
  let ms := (fun j => proc_record (proc_at d j)) <$> seq i (Nat.min n (Z.to_nat (g_next_pid d) - i)) in
  let run := wal_exec_all w (mut_op <$> ms) in
  run.1 = replicate (length ms) 0 -> wrote + Z.of_nat (length ms) < 2 ^ 32 -> 0 <= wrote ->
  snapshot_loop (quiet_view d) i n wrote w = (wrote + Z.of_nat (length ms), run.2).
Proof using I.
  revert i wrote w. induction n as [|n IH]; intros i wrote w Hi Hn; cbv zeta; [simpl; by rewrite Z.add_0_r|].
  simpl snapshot_loop. rewrite snap_quiet by lia. pose proof (pi_free d I i ltac:(lia)) as Hfree. pose proof (pi_next d I) as Hnext.
  case_bool_decide as Hs.
  - apply Hfree in Hs. replace (Z.to_nat (g_next_pid d) - i)%nat with 0%nat by lia. rewrite Nat.min_0_r. specialize (IH (Datatypes.S i) wrote w ltac:(lia) ltac:(lia)).
    cbv zeta in IH. replace (Z.to_nat (g_next_pid d) - Datatypes.S i)%nat with 0%nat in IH by lia. by rewrite Nat.min_0_r in IH.
  - assert (Z.of_nat i < g_next_pid d) as Hlt by (apply Z.nle_gt; intros ?; apply Hs, Hfree; done).
    replace (Nat.min (Datatypes.S n) (Z.to_nat (g_next_pid d) - i)) with (Datatypes.S (Nat.min n (Z.to_nat (g_next_pid d) - Datatypes.S i))) by lia.
    cbn [seq fmap list_fmap wal_exec_all length]. unfold mut_op at 1 3. simpl wal_exec. unfold sotfs_wal_log_procd_mut.
    destruct (sotfs_wal_log_payload _ _ w) as [rc w1]. specialize (IH (Datatypes.S i) (u32 (wrote + 1)) w1 ltac:(lia) ltac:(lia)). cbv zeta in IH.
    destruct (wal_exec_all w1 _) as [rs w2]. simpl in IH |- *. rewrite replicate_S. intros Hr Hw Hw0. simplify_eq. rewrite u32_small in IH by lia.
    rewrite u32_small by lia. simpl. rewrite IH by (done || lia). f_equal. lia.
Qed.
End quiet.

(** The boot snapshot puts the whole process table into the log: on an idle server it writes
    exactly one PROCD_MUT frame per process that was ever created, in the order of the pids, with
    the fields of its record, all of them durable and none dropped, and returns their number. *)
Theorem snapshot_logs_table w b ntf msgs :
  let d := (procd_serve procd_boot ntf msgs).2 in
  blank_log w b ->
  let ms := (fun i => proc_record (proc_at d i)) <$> seq 1 (Z.to_nat (g_next_pid d) - 1) in
  let '(n, w') := procd_wal_snapshot (Some (quiet_view d)) (sotfs_wal_init w b) in
  n = g_next_pid d - 1 /\ wal_dump w' = log_of (g_records_since_checkpoint w) (mut_op <$> ms)
  /\ selected SOTFS_WAL_KIND_PROCD_MUT mut_size (wal_dump w') = mut_bytes <$> ms.
Proof.
  cbv zeta. set (d := (procd_serve procd_boot ntf msgs).2). assert (procd_inv d) as I by apply serve_inv, boot_inv. intros Hb.
  set (ms := (fun i => proc_record (proc_at d i)) <$> seq 1 (Z.to_nat (g_next_pid d) - 1)). pose proof (pi_next d I) as Hnext.
  assert (length ms = (Z.to_nat (g_next_pid d) - 1)%nat) as Hms by (unfold ms; by rewrite length_fmap, length_seq).
  assert (Forall wal_op_ok (mut_op <$> ms)) as Hok by (apply Forall_fmap, Forall_forall; intros m _; apply mut_op_ok).
  assert (fits (log_of (g_records_since_checkpoint w) (mut_op <$> ms))) as Hf.
  { unfold fits, log_of. pose proof (log_mut_size ms ([], g_records_since_checkpoint w)) as Hl. simpl in Hl.
    change WAL_END with (SOTFS_WAL_OFFSET + SOTFS_WAL_REGION_BYTES). unfold PROCD_MAX_PROCS in Hnext. assert (120 * 256 < SOTFS_WAL_REGION_BYTES) by (vm_compute; reflexivity). lia. }
  destruct (run_ready w b (mut_op <$> ms) Hb Hok Hf) as (Hr&_&b'&[[Hst C _ _ _] _ _]).
  unfold procd_wal_snapshot. simpl sh_magic. rewrite Z.eqb_refl. simpl sh_table_n. rewrite Z.gtb_ltb, Z.ltb_irrefl, Nat2Z.id. simpl negb. cbv iota.
  assert (Nat.min (PROCD_MAX_PROCS - 1) (Z.to_nat (g_next_pid d) - 1) = (Z.to_nat (g_next_pid d) - 1)%nat) as Hmin by lia.
  pose proof (snapshot_exec d I 1 (PROCD_MAX_PROCS - 1) 0 (sotfs_wal_init w b)) as Hx. cbv zeta in Hx. rewrite Hmin in Hx. fold ms in Hx.
  rewrite Hx; [|lia|unfold PROCD_MAX_PROCS; lia|rewrite Hr; by rewrite length_fmap|unfold PROCD_MAX_PROCS in *; lia|lia].
  assert (wal_dump (wal_exec_all (sotfs_wal_init w b) (mut_op <$> ms)).2 = log_of (g_records_since_checkpoint w) (mut_op <$> ms)) as Hd by (by eapply dump_log).
  split; [|split; [exact Hd|]].
  - unfold i32. rewrite u32_small by (unfold PROCD_MAX_PROCS in *; lia). rewrite (proj2 (Z.ltb_lt _ _)) by (unfold PROCD_MAX_PROCS in *; lia). lia.
  - rewrite Hd. destruct (log_selected SOTFS_WAL_KIND_PROCD_MUT mut_size (mut_op <$> ms) ([], g_records_since_checkpoint w)) as [_ E]; [done|constructor|].
    unfold log_of. rewrite E. apply payloads_mut.
Qed.
End replays.

(** ** Concrete runs *)

Import Image.

Module ReplayDemo.
Definition syn1 : sotnet_synth := mk_syn 3 0x0F02000A 0x50 0 200.
Definition aev1 : anomaly_ev := mk_aev 77 2 5 0 1 9.
(** The file-system records of the WAL runs with an anomaly event and two redirects. *)
Definition ops : list wal_op :=
  [WAppend WalDemo.rec1; WLog SOTFS_WAL_KIND_ANOMALY_EV (aev_bytes aev1); WLog SOTFS_WAL_KIND_SOTNET_SYNTH (syn_bytes syn1);
   WAppend WalDemo.rec2; WLog SOTFS_WAL_KIND_SOTNET_SYNTH (syn_bytes syn1)].

Lemma replay_ops_ok : Forall wal_op_ok ops.
Proof.
  repeat (apply Forall_cons; split); [apply WalDemo.rec1_ok| | |apply WalDemo.rec2_ok| |constructor];
    (split; [vm_compute; split; congruence|]; split; [vm_compute; discriminate|]);
    unfold aev_bytes, syn_bytes; rewrite !Forall_app; split_and!; apply le_bytes_byte.
Qed.

Lemma replay_ops_fit : fits (log_of 0 ops).
Proof. unfold fits. vm_compute. discriminate. Qed.

Definition start : world (blkdev disk) := mk_world sotfs_graph_init IoDemo.dev None [] synth_boot.
End ReplayDemo.


Lemma snapshot_logs_table_witness :
  let d := (procd_serve procd_boot true [(0, regs [PROCD_OP_SPAWN; 0; 2; 7]); (0, regs [PROCD_OP_FORK; 1]); (0, regs [PROCD_OP_EXIT; 1; 0])]).2 in
  let '(n, w') := procd_wal_snapshot (Some (quiet_view d)) (sotfs_wal_init wal_boot BlkDemo.blank) in
  n = 2 /\ (fun p => (mu_synthetic_pid (mut_of p), mu_state (mut_of p))) <$> selected SOTFS_WAL_KIND_PROCD_MUT mut_size (wal_dump w')
           = [(1, PROC_STATE_ZOMBIE); (2, PROC_STATE_NASCENT)].
Proof.
  pose proof (snapshot_logs_table wal_boot BlkDemo.blank true
    [(0, regs [PROCD_OP_SPAWN; 0; 2; 7]); (0, regs [PROCD_OP_FORK; 1]); (0, regs [PROCD_OP_EXIT; 1; 0])] WalDemo.blank_image) as H.
  cbv zeta in H |- *. destruct (procd_wal_snapshot _ _) as [n w']. destruct H as (->&_&->). split; vm_compute; reflexivity.
Defined.

(** A simulated reboot replays the log onto the live graph instead of an empty one, so it is
    not idempotent: after a file was created as /etc/passwd and renamed to /p, the cascade succeeds
    and leaves an empty /etc/passwd behind next to /p, because CREATE finds the old name free and
    RENAME then finds the new one taken; the synth counters are added a second time as well. *)
Theorem simreboot_resurrects :
  let '(g, w) := (live_run (sotfs_graph_init, sotfs_wal_init wal_boot BlkDemo.blank) WalDemo.script).2 in
  let w := (sotfs_wal_log_sotnet_synth ReplayDemo.syn1 w).2 in
  let live := synth_replay_bump synth_boot (sy_src_slot ReplayDemo.syn1) (sy_bytes_redirected ReplayDemo.syn1) in
  match orch_simreboot_cascade 0 w (Some (mk_world g IoDemo.dev None [] live)) with
  | (rc, count, _, Some x, _) =>
      rc = 0 /\ count = 1
      /\ sotfs_resolve_path g (Some (FsDemo.n "/etc/passwd")) = 0
      /\ sotfs_resolve_path (wd_graph x) (Some (FsDemo.n "/etc/passwd")) = 4
      /\ sotfs_resolve_path (wd_graph x) (Some (FsDemo.n "/p")) = sotfs_resolve_path g (Some (FsDemo.n "/p"))
      /\ synth_get_redirects (wd_synth x) = 2 * synth_get_redirects live
  | _ => False
  end.
Proof. vm_compute. repeat split. Qed.
