(* ===== verification/SotGuard.v ===== *)
(** * sotGuard: event bus, policy engine, pump

    src/sotguard/event_bus.c, src/sotguard/policy_engine.c and
    src/orch/sotguard_pump.c, with include/sotguard/event.h and engine.h.

    The 80-byte union of an event is its image in memory ([ev_detail], see Wal for
    images), so reading an arm is reading bytes whatever arm was written.  A verdict
    is the value the engine fills in; the printing of the pump is its result. *)

From S2P Require Import Prelude Storage Wal WalReplay.

(** ** Events *)

Definition SG_EV_NONE : Z := 0.
Definition SG_EV_FS_READ : Z := 1.
Definition SG_EV_FS_WRITE : Z := 2.
Definition SG_EV_FS_OPEN : Z := 3.
Definition SG_EV_NET_CONNECT : Z := 4.
Definition SG_EV_NET_SEND : Z := 5.
Definition SG_EV_NET_RECV : Z := 6.
Definition SG_EV_DNS_LOOKUP : Z := 7.
Definition SG_EV_PLEDGE_VIOL : Z := 8.
Definition SG_EV_FAULT_SYSCALL : Z := 9.
Definition SG_EV_GRAPH_CURVATURE_RANSOM : Z := 10.
Definition SG_EV_GRAPH_CURVATURE_LATERAL : Z := 11.
Definition SG_EV_CANARY_READ : Z := 12.
Definition SOTGUARD_EMIT_MAX_KIND : Z := SG_EV_CANARY_READ.
Definition SOTGUARD_RING_CAPACITY : nat := 256.

Record sotguard_event := mk_sgev { ev_pid : Z; ev_type : Z; ev_conn_id : Z; ev_timestamp : Z; ev_detail : list Z }.

(** The arms of the union. *)
Definition fs_fd (e : sotguard_event) : Z := field (ev_detail e) 0 8.
Definition fs_bytes (e : sotguard_event) : Z := field (ev_detail e) 8 8.
Definition fs_path (e : sotguard_event) : list Z := c_str (bytes_at (ev_detail e) 16 64).
Definition net_ip_be (e : sotguard_event) : Z := field (ev_detail e) 0 4.
Definition net_port_be (e : sotguard_event) : Z := field (ev_detail e) 4 2.
Definition net_len (e : sotguard_event) : Z := field (ev_detail e) 8 8.
Definition dns_ip_be (e : sotguard_event) : Z := field (ev_detail e) 64 4.
Definition fault_syscall_nr (e : sotguard_event) : Z := field (ev_detail e) 0 4.
Definition fault_rip (e : sotguard_event) : Z := field (ev_detail e) 8 8.
Definition curv_rule_kind (e : sotguard_event) : Z := field (ev_detail e) 0 4.
Definition curv_severity (e : sotguard_event) : Z := field (ev_detail e) 4 4.

Definition zero_sgev : sotguard_event := mk_sgev 0 0 0 0 (replicate 80 0).

(** ** The bus *)

Record bus := mk_bus { g_sgring : list sotguard_event; g_sghead : nat; g_sgtotal : Z }.

Definition sotguard_event_init : bus := mk_bus (replicate SOTGUARD_RING_CAPACITY zero_sgev) 0 0.

Definition is_one_of (t : Z) (ts : list Z) : bool := existsb (Z.eqb t) ts.

(** The record mirrored to the log. *)
Definition wal_record (e : sotguard_event) : anomaly_ev :=
  let '(a0, a1) :=
    if is_one_of (ev_type e) [SG_EV_FS_READ; SG_EV_FS_WRITE; SG_EV_FS_OPEN] then (u32 (fs_fd e), u32 (fs_bytes e))
    else if is_one_of (ev_type e) [SG_EV_NET_CONNECT; SG_EV_NET_SEND; SG_EV_NET_RECV] then
      (net_ip_be e, Z.lor (u32 (Z.shiftl (net_port_be e) 16)) (u32 (net_len e)))
    else if ev_type e =? SG_EV_DNS_LOOKUP then (dns_ip_be e, 0)
    else if ev_type e =? SG_EV_FAULT_SYSCALL then (fault_syscall_nr e, u32 (fault_rip e))
    else if is_one_of (ev_type e) [SG_EV_GRAPH_CURVATURE_RANSOM; SG_EV_GRAPH_CURVATURE_LATERAL] then (curv_rule_kind e, curv_severity e)
    else (0, 0) in
  mk_aev (ev_timestamp e) (ev_pid e) (ev_type e) 0 a0 a1.

Section emit.
Context {B : Type} `{StorageOps B}.

(** The result of the log is ignored. *)
Definition sotguard_emit (b : bus) (attached : bool) (w : wal B) (e : sotguard_event) : Z * bus * wal B :=
  if (ev_type e =? SG_EV_NONE) || (ev_type e >? SOTGUARD_EMIT_MAX_KIND) then (-1, b, w)
  else
    let b := mk_bus (<[g_sghead b := e]> (g_sgring b)) ((g_sghead b + 1) mod SOTGUARD_RING_CAPACITY)%nat (u64 (g_sgtotal b + 1)) in
    let w := if attached then (sotfs_wal_log_anomaly_ev (wal_record e) w).2 else w in
    (0, b, w).
End emit.

(** The walk backwards from [idx]. *)
Fixpoint recent_loop (ring : list sotguard_event) (idx want : nat) : list sotguard_event :=
  match want with
  | O => []
  | S n =>
      let idx := if (idx =? 0)%nat then (SOTGUARD_RING_CAPACITY - 1)%nat else (idx - 1)%nat in
      ring.[idx, zero_sgev] :: recent_loop ring idx n
  end.

Definition sotguard_recent (b : bus) (want : nat) : list sotguard_event :=
  let valid := if g_sgtotal b <? Z.of_nat SOTGUARD_RING_CAPACITY then Z.to_nat (g_sgtotal b) else SOTGUARD_RING_CAPACITY in
  recent_loop (g_sgring b) (g_sghead b) (if (valid <? want)%nat then valid else want).

Definition sotguard_total_emitted (b : bus) : Z := g_sgtotal b.

(** ** The policy engine *)

Definition SOTGUARD_MAX_TRACKED_PIDS : nat := 16.
Definition SG_BURST_WINDOW_NS : Z := 1000000.
Definition SG_BURST_THRESHOLD : Z := 10.
Definition SG_RECON_THRESHOLD : Z := 3.
Definition SG_CANARY_READ_THRESHOLD : Z := 2.
Definition SG_RECON_INCREMENT : Z := 5.
Definition UINT32_MAX : Z := 4294967295.

Inductive sotguard_rule_id := SG_RULE_NONE | SG_RULE_RECON_EXFIL | SG_RULE_BURST_WRITES | SG_RULE_CANARY_TRIPPED.

Record sotguard_pid_ctx := mk_ctx { c_pid : Z; c_recon_score : Z; c_burst_writes : Z; c_last_write_ts : Z; c_canary_reads : Z; c_in_use : bool }.
Definition free_ctx : sotguard_pid_ctx := mk_ctx 0 0 0 0 0 false.

Record sotguard_rule_result := mk_verdict { vd_rule : sotguard_rule_id; vd_pid : Z; vd_target_tier : Z; vd_reason : list Z }.

Definition engine := list sotguard_pid_ctx.
Definition sotguard_engine_init : engine := replicate SOTGUARD_MAX_TRACKED_PIDS free_ctx.
Definition ctx_at (g : engine) (i : nat) : sotguard_pid_ctx := g.[i, free_ctx].

(** The inner loop: [needle] matches at the start of [hay]. *)
Fixpoint matches_here (hay needle : list Z) : bool :=
  match needle, hay with
  | [], _ => true
  | _, [] => false
  | n :: needle', h :: hay' => if h =? n then matches_here hay' needle' else false
  end.

Fixpoint contains_from (hay needle : list Z) : bool :=
  match hay with
  | [] => false
  | _ :: hay' => if matches_here hay needle then true else contains_from hay' needle
  end.
Definition sg_contains (hay needle : list Z) : bool := if bool_decide (needle = []) then true else contains_from hay needle.

Definition sg_strcpy_bounded (src : list Z) (cap : nat) : list Z := take (cap - 1) src.

Definition path_is_sensitive (p : list Z) : bool :=
  sg_contains p (bytes_of_string "/etc/passwd") || sg_contains p (bytes_of_string "/proc/self/maps").

Definition tracks (g : engine) (pid : Z) (i : nat) : bool := c_in_use (ctx_at g i) && (c_pid (ctx_at g i) =? pid).

Definition get_or_alloc_ctx (g : engine) (pid : Z) : option nat * engine :=
  if pid =? 0 then (None, g)
  else match first_below (tracks g pid) SOTGUARD_MAX_TRACKED_PIDS with
       | Some i => (Some i, g)
       | None =>
           match first_below (fun i => negb (c_in_use (ctx_at g i))) SOTGUARD_MAX_TRACKED_PIDS with
           | Some i => (Some i, <[i := mk_ctx pid 0 0 0 0 true]> g)
           | None => (None, g)
           end
       end.

Definition sotguard_engine_reset_pid (g : engine) (pid : Z) : engine :=
  if pid =? 0 then g
  else match first_below (tracks g pid) SOTGUARD_MAX_TRACKED_PIDS with
       | Some i => <[i := free_ctx]> g
       | None => g
       end.

Definition fill_verdict (rule : sotguard_rule_id) (pid target_tier : Z) (reason : string) : sotguard_rule_result :=
  mk_verdict rule pid target_tier (sg_strcpy_bounded (bytes_of_string reason) 32).

(** The rules on one context: its new contents and the verdict. *)
Definition eval_ctx (c : sotguard_pid_ctx) (e : sotguard_event) : option sotguard_rule_result * sotguard_pid_ctx :=
  if ev_type e =? SG_EV_FS_READ then
    (None, if path_is_sensitive (fs_path e)
           then mk_ctx (c_pid c) (u32 (c_recon_score c + SG_RECON_INCREMENT)) (c_burst_writes c) (c_last_write_ts c) (c_canary_reads c) (c_in_use c)
           else c)
  else if ev_type e =? SG_EV_CANARY_READ then
    let n := if c_canary_reads c <? UINT32_MAX then c_canary_reads c + 1 else c_canary_reads c in
    (if n >=? SG_CANARY_READ_THRESHOLD then Some (fill_verdict SG_RULE_CANARY_TRIPPED (c_pid c) 2 "canary-tripped") else None,
     mk_ctx (c_pid c) (c_recon_score c) (c_burst_writes c) (c_last_write_ts c) n (c_in_use c))
  else if ev_type e =? SG_EV_NET_CONNECT then
    let non_local := negb (Z.land (net_ip_be e) 0xFF =? 127) in
    (if non_local && (c_recon_score c >? SG_RECON_THRESHOLD) then Some (fill_verdict SG_RULE_RECON_EXFIL (c_pid c) 2 "recon-then-exfil") else None, c)
  else if ev_type e =? SG_EV_FS_WRITE then
    let now := ev_timestamp e in
    let n := if negb (c_last_write_ts c =? 0) && (u64 (now - c_last_write_ts c) <? SG_BURST_WINDOW_NS)
             then (if c_burst_writes c <? UINT32_MAX then c_burst_writes c + 1 else c_burst_writes c) else 1 in
    (if n >? SG_BURST_THRESHOLD then Some (fill_verdict SG_RULE_BURST_WRITES (c_pid c) 1 "burst-writes") else None,
     mk_ctx (c_pid c) (c_recon_score c) n now (c_canary_reads c) (c_in_use c))
  else (None, c).

Definition sotguard_engine_eval (g : engine) (e : sotguard_event) : option sotguard_rule_result * engine :=
  match get_or_alloc_ctx g (ev_pid e) with
  | (None, g) => (None, g)
  | (Some i, g) => let '(v, c) := eval_ctx (ctx_at g i) e in (v, <[i := c]> g)
  end.

(** ** The pump *)

Definition SG_PUMP_POLL_WINDOW : nat := 16.

Fixpoint pump_loop (g : engine) (buf : list sotguard_event) : list sotguard_rule_result * engine :=
  match buf with
  | [] => ([], g)
  | e :: buf' =>
      let '(v, g) := sotguard_engine_eval g e in
      let '(vs, g) := pump_loop g buf' in
      (option_list v ++ vs, g)
  end.

Definition sotguard_pump_init : engine := sotguard_engine_init.
(** One tick: the verdicts logged and the engine after it. *)
Definition sotguard_pump_tick (b : bus) (g : engine) : list sotguard_rule_result * engine :=
  pump_loop g (sotguard_recent b SG_PUMP_POLL_WINDOW).
