(* ===== verification/SotGuardTheorems.v ===== *)
(** * Theorems on sotGuard

    The bus as a bounded history ([bus_window]), the engine as one state per process
    with declarative rules ([engine_refines], [engine_rules]), the events across a
    reboot ([events_survive_reboot]) and what the pump makes of the burst rule
    ([pump_burst_inverted]). *)

From S2P Require Import Prelude Crc64 Storage Blkdev BlkdevTheorems BlockStore Graph FileIO FileIOTheorems Wal WalSpec WalTheorems WalReplay WalReplayTheorems SotGuard.
Import Layout Image.

(** ** The bus *)

Definition accepted (e : sotguard_event) : bool := negb ((ev_type e =? SG_EV_NONE) || (ev_type e >? SOTGUARD_EMIT_MAX_KIND)).

Section bus.
Context {B : Type} `{StorageOps B}.

Fixpoint emit_all (b : bus) (attached : bool) (w : wal B) (es : list sotguard_event) : list Z * bus * wal B :=
  match es with
  | [] => ([], b, w)
  | e :: es' =>
      let '(r, b, w) := sotguard_emit b attached w e in
      let '(rs, b, w) := emit_all b attached w es' in
      (r :: rs, b, w)
  end.

(** The ring holds the last 256 of the events [E] accepted so far. *)
Record bus_holds (b : bus) (E : list sotguard_event) : Prop := {
  bh_len : length (g_sgring b) = SOTGUARD_RING_CAPACITY;
  bh_total : g_sgtotal b = Z.of_nat (length E);
  bh_head : g_sghead b = (length E mod SOTGUARD_RING_CAPACITY)%nat;
  bh_entries s e : E !! s = Some e -> (length E <= s + SOTGUARD_RING_CAPACITY)%nat -> (g_sgring b).[(s mod SOTGUARD_RING_CAPACITY)%nat, zero_sgev] = e;
}.

Lemma init_holds : bus_holds sotguard_event_init [].
Proof. constructor; [done..|]. intros [|s] e; done. Qed.

Lemma mod_apart (s n c : nat) : (0 < c)%nat -> (s < n < s + c)%nat -> (s mod c <> n mod c)%nat.
Proof.
  intros Hc Hn E. pose proof (Nat.div_mod_eq s c). pose proof (Nat.div_mod_eq n c). rewrite E in *.
  assert (n / c = s / c \/ s / c + 1 <= n / c)%nat as [|] by nia; nia.
Qed.

Lemma emit_holds b attached w e E :
  bus_holds b E -> Z.of_nat (length E) + 1 < 2 ^ 64 ->
  let '(r, b', _) := sotguard_emit b attached w e in
  r = (if accepted e then 0 else -1) /\ bus_holds b' (E ++ (if accepted e then [e] else [])).
Proof.
  intros [Hl Ht Hh He] Hb. unfold sotguard_emit, accepted. destruct (_ || _); simpl; [by rewrite app_nil_r|]. split; [done|].
  constructor; cbn [g_sgring g_sghead g_sgtotal].
  - by rewrite length_insert.
  - rewrite Ht, length_app, u64_small; simpl; lia.
  - rewrite Hh, length_app. simpl length. rewrite Nat.Div0.add_mod_idemp_l. done.
  - intros s x Hx Hs. rewrite length_app in Hs. simpl in Hs. assert (0 < SOTGUARD_RING_CAPACITY)%nat by (unfold SOTGUARD_RING_CAPACITY; lia).
    rewrite array_get_insert by (rewrite Hh, Hl; apply Nat.mod_upper_bound; lia). rewrite Hh.
    destruct (decide (s = length E)) as [->|Hne].
    + rewrite decide_True by done. rewrite lookup_app_r, Nat.sub_diag in Hx by lia. by simplify_eq/=.
    + apply lookup_lt_Some in Hx as Hlt. rewrite length_app in Hlt. simpl in Hlt.
      rewrite decide_False by (apply not_eq_sym, mod_apart; lia). apply He; [|lia]. by rewrite lookup_app_l in Hx by lia.
Qed.

Lemma emit_all_holds b attached w es E :
  bus_holds b E -> Z.of_nat (length E + length es) < 2 ^ 64 -> bus_holds (emit_all b attached w es).1.2 (E ++ filter (fun e => accepted e = true) es).
Proof.
  revert b w E. induction es as [|e es IH]; intros b w E Hb Hn; simpl; [by rewrite app_nil_r|].
  pose proof (emit_holds b attached w e E Hb) as H1. simpl in Hn. specialize (H1 ltac:(lia)).
  destruct (sotguard_emit b attached w e) as [[r b1] w1]. destruct H1 as [_ H1]. specialize (IH b1 w1 _ H1).
  rewrite length_app in IH. destruct (emit_all b1 attached w1 es) as [[rs b2] w2]. simpl in *. rewrite filter_cons.
  destruct (accepted e).
  - rewrite decide_True by done. rewrite <-app_assoc in IH. apply IH. simpl. lia.
  - rewrite decide_False by done. rewrite app_nil_r in IH. apply IH. simpl. lia.
Qed.
End bus.

Lemma slot_before (k c : nat) :
  (0 < c)%nat -> (if (S k mod c =? 0)%nat then c - 1 else S k mod c - 1)%nat = (k mod c)%nat.
Proof.
  intros Hc. pose proof (Nat.div_mod_eq k c). pose proof (Nat.mod_upper_bound k c ltac:(lia)).
  destruct (decide (k mod c = c - 1)%nat) as [E|E].
  - replace (S k) with (0 + (k / c + 1) * c)%nat by nia. rewrite Nat.Div0.mod_add, Nat.Div0.mod_0_l. simpl. lia.
  - replace (S k mod c)%nat with (S (k mod c)); [simpl; lia|]. apply (Nat.mod_unique _ _ (k / c)); lia.
Qed.

Lemma recent_loop_spec b E k n :
  bus_holds b E -> (n <= k <= length E)%nat -> (length E + n <= k + SOTGUARD_RING_CAPACITY)%nat ->
  recent_loop (g_sgring b) (k mod SOTGUARD_RING_CAPACITY)%nat n = take n (reverse (take k E)).
Proof.
  intros Hb. revert k. induction n as [|n IH]; intros k Hk Hn; [done|]. destruct k as [|k]; [lia|].
  destruct (lookup_lt_is_Some_2 E k) as [e He]; [lia|]. rewrite (take_S_r _ _ _ He), reverse_app.
  cbn [recent_loop reverse rev_append app take]. cbv zeta. rewrite slot_before by (unfold SOTGUARD_RING_CAPACITY; lia).
  rewrite IH by lia. rewrite (bh_entries b E Hb k e) by (done || lia). done.
Qed.

Lemma recent_window b E want :
  bus_holds b E -> sotguard_recent b want = take (Nat.min want SOTGUARD_RING_CAPACITY) (reverse E).
Proof.
  intros Hb. unfold sotguard_recent. rewrite (bh_total b E Hb), (bh_head b E Hb).
  set (valid := if Z.of_nat (length E) <? Z.of_nat SOTGUARD_RING_CAPACITY then Z.to_nat (Z.of_nat (length E)) else SOTGUARD_RING_CAPACITY).
  assert (valid = Nat.min (length E) SOTGUARD_RING_CAPACITY) as ->.
  { unfold valid. destruct (_ <? _) eqn:E1; bool_to_prop; lia. }
  replace (if (Nat.min (length E) SOTGUARD_RING_CAPACITY <? want)%nat then Nat.min (length E) SOTGUARD_RING_CAPACITY else want)
    with (Nat.min want (Nat.min (length E) SOTGUARD_RING_CAPACITY)) by (destruct (_ <? want)%nat eqn:E1; [apply Nat.ltb_lt in E1|apply Nat.ltb_ge in E1]; lia).
  rewrite (recent_loop_spec b E) by (done || lia). rewrite (take_ge E (length E)) by lia.
  destruct (decide (length E <= Nat.min want SOTGUARD_RING_CAPACITY)%nat).
  - rewrite !take_ge by (rewrite length_reverse; lia). done.
  - f_equal. lia.
Qed.

(** The bus is a lossy window on its history: after any emits, of which exactly those with a
    valid type are accepted, [sotguard_recent] returns the newest accepted events, newest first, as
    many as asked for but at most 256, and the total counts all of them. *)
Theorem bus_window {B} `{StorageOps B} (attached : bool) (w : wal B) (es : list sotguard_event) (want : nat) :
  Z.of_nat (length es) < 2 ^ 64 ->
  let b := (emit_all sotguard_event_init attached w es).1.2 in
  let E := filter (fun e => accepted e = true) es in
  sotguard_recent b want = take (Nat.min want SOTGUARD_RING_CAPACITY) (reverse E) /\ sotguard_total_emitted b = Z.of_nat (length E).
Proof.
  intros Hn. cbv zeta. pose proof (emit_all_holds sotguard_event_init attached w es [] init_holds Hn) as Hb. simpl in Hb.
  split; [by apply recent_window|apply Hb].
Qed.


Definition open_of (pid ts : Z) : sotguard_event := mk_sgev pid SG_EV_FS_OPEN 0 ts (replicate 80 0).

Definition bus_demo : list sotguard_event := open_of 1 5 :: mk_sgev 1 13 0 0 [] :: map (fun k => open_of 2 (Z.of_nat k)) (seq 0 300).

Lemma bus_window_witness :
  let b := (emit_all sotguard_event_init false (wal_boot (B := disk)) bus_demo).1.2 in
  map ev_timestamp (sotguard_recent b 3) = [299; 298; 297] /\ length (sotguard_recent b 1000) = 256%nat /\ sotguard_total_emitted b = 301.
Proof.
  assert (Z.of_nat (length bus_demo) < 2 ^ 64) as Hn by (vm_compute; reflexivity).
  destruct (bus_window false (wal_boot (B := disk)) bus_demo 3 Hn) as [E1 E2]. destruct (bus_window false (wal_boot (B := disk)) bus_demo 1000 Hn) as [E3 _].
  cbv zeta in *. rewrite E1, E2, E3. split; [|split]; vm_compute; reflexivity.
Defined.

(** ** The engine *)

(** *** The rules, on the events [h] of one process, newest first *)

Definition sensitive_read (e : sotguard_event) : Prop := ev_type e = SG_EV_FS_READ /\ path_is_sensitive (fs_path e) = true.
Definition canary_read (e : sotguard_event) : Prop := ev_type e = SG_EV_CANARY_READ.
Definition fs_write (e : sotguard_event) : Prop := ev_type e = SG_EV_FS_WRITE.
#[global] Instance sensitive_read_dec e : Decision (sensitive_read e) := _.
#[global] Instance canary_read_dec e : Decision (canary_read e) := _.
#[global] Instance fs_write_dec e : Decision (fs_write e) := _.

(** A write at [t] continues the burst of the write at [t']. *)
Definition close_to (t t' : Z) : Prop := t' <> 0 /\ u64 (t - t') < SG_BURST_WINDOW_NS.
#[global] Instance close_to_dec t t' : Decision (close_to t t') := _.

(** The newest eleven writes, each close to the one before. *)
Definition burst (ts : list Z) : Prop :=
  (11 <= length ts)%nat /\ forall i t t', (i < 10)%nat -> ts !! i = Some t -> ts !! S i = Some t' -> close_to t t'.

Definition write_times (h : list sotguard_event) : list Z := ev_timestamp <$> filter fs_write h.

(** What the newest event of a history triggers. *)
Inductive triggers : list sotguard_event -> sotguard_rule_id -> Z -> string -> Prop :=
| trig_canary e h : ev_type e = SG_EV_CANARY_READ -> (2 <= length (filter canary_read (e :: h)))%nat ->
    triggers (e :: h) SG_RULE_CANARY_TRIPPED 2 "canary-tripped"
| trig_exfil e h r : ev_type e = SG_EV_NET_CONNECT -> Z.land (net_ip_be e) 0xFF <> 127 -> r ∈ h -> sensitive_read r ->
    triggers (e :: h) SG_RULE_RECON_EXFIL 2 "recon-then-exfil"
| trig_burst e h : ev_type e = SG_EV_FS_WRITE -> burst (write_times (e :: h)) ->
    triggers (e :: h) SG_RULE_BURST_WRITES 1 "burst-writes".

(** *** The counters as functions of the history *)

Fixpoint burst_run (ts : list Z) : nat :=
  match ts with
  | [] => 0
  | t :: ts' => match ts' with
                | [] => 1
                | t' :: _ => if decide (close_to t t') then S (burst_run ts') else 1
                end
  end.

Lemma burst_run_le ts : (burst_run ts <= length ts)%nat.
Proof. induction ts as [|t [|t' ts] IH]; simpl in *; [lia..|]. destruct (decide _); simpl in *; lia. Qed.

Lemma burst_run_ge ts n :
  (n < burst_run ts)%nat <-> (n < length ts)%nat /\ forall i t t', (i < n)%nat -> ts !! i = Some t -> ts !! S i = Some t' -> close_to t t'.
Proof.
  revert n. induction ts as [|t ts IH]; intros n; [simpl; lia|]. destruct ts as [|t' ts].
  - simpl. split; [intros; split; [lia|intros; lia]|lia].
  - change (burst_run (t :: t' :: ts)) with (if decide (close_to t t') then S (burst_run (t' :: ts)) else 1%nat).
    destruct n as [|n]; [destruct (decide _); simpl; (split; [intros _; split; [lia|intros; lia]|lia])|].
    destruct (decide (close_to t t')) as [Hc|Hc].
    + rewrite <-Nat.succ_lt_mono, IH. simpl length. split; intros [Hn Hi]; (split; [lia|]).
      * intros [|i] x y Hlt; simpl; [by intros [= <-] [= <-]|]. intros H1 H2. apply (Hi i); [lia|done..].
      * intros i x y Hlt H1 H2. apply (Hi (S i)); [lia|done..].
    + split; [lia|]. intros [_ Hi]. destruct Hc. apply (Hi 0%nat); [lia|done..].
Qed.

Definition ctx_of (pid : Z) (h : list sotguard_event) : sotguard_pid_ctx :=
  mk_ctx pid (5 * Z.of_nat (length (filter sensitive_read h))) (Z.of_nat (burst_run (write_times h)))
    (default 0 (head (write_times h))) (Z.of_nat (length (filter canary_read h))) true.

(** Histories short enough for the counters not to wrap or saturate. *)
Definition short (n : nat) : Prop := Z.of_nat n < 2 ^ 29.

Lemma write_times_cons e h : write_times (e :: h) = if decide (fs_write e) then ev_timestamp e :: write_times h else write_times h.
Proof. unfold write_times. rewrite filter_cons. by destruct (decide _). Qed.

Lemma history_bounds h :
  (length (filter sensitive_read h) <= length h)%nat /\ (length (filter canary_read h) <= length h)%nat /\ (burst_run (write_times h) <= length h)%nat.
Proof.
  split; [apply length_filter|]. split; [apply length_filter|]. etrans; [apply burst_run_le|]. unfold write_times. rewrite length_fmap. apply length_filter.
Qed.

(** A step of the counters, by the type of the event. *)
Ltac ctx_step :=
  unfold ctx_of; rewrite ?write_times_cons, ?filter_cons;
  repeat case_decide;
  unfold sensitive_read, canary_read, fs_write, SG_EV_FS_READ, SG_EV_CANARY_READ, SG_EV_FS_WRITE, SG_EV_NET_CONNECT in *;
  try (exfalso; intuition congruence).

Lemma eval_ctx_counters pid e h : short (length h) -> (eval_ctx (ctx_of pid h) e).2 = ctx_of pid (e :: h).
Proof.
  intros Hs. unfold short in Hs. pose proof (history_bounds h) as (?&?&?).
  unfold eval_ctx. cbn [c_pid c_recon_score c_burst_writes c_last_write_ts c_canary_reads c_in_use ctx_of].
  destruct (ev_type e =? SG_EV_FS_READ) eqn:E1; [|destruct (ev_type e =? SG_EV_CANARY_READ) eqn:E2; [|destruct (ev_type e =? SG_EV_NET_CONNECT) eqn:E3;
    [|destruct (ev_type e =? SG_EV_FS_WRITE) eqn:E4]]]; bool_to_prop; cbn [snd].
  - destruct (path_is_sensitive (fs_path e)) eqn:Ep; ctx_step; simpl; f_equal. unfold SG_RECON_INCREMENT. rewrite u32_small; lia.
  - ctx_step. simpl. f_equal. rewrite (proj2 (Z.ltb_lt _ _)) by (unfold UINT32_MAX; lia). lia.
  - ctx_step. done.
  - ctx_step. simpl. f_equal. unfold UINT32_MAX. rewrite (proj2 (Z.ltb_lt (Z.of_nat _) 4294967295)) by lia.
    destruct (write_times h) as [|t' ts]; [done|]. cbn [head default]. change (id t') with t'. unfold close_to.
    destruct (decide (t' <> 0 /\ _)) as [[Ha Hb]|Hn].
    + rewrite (proj2 (Z.eqb_neq _ _)) by done. rewrite (proj2 (Z.ltb_lt _ _)) by done. simpl. lia.
    + destruct (t' =? 0) eqn:Ez, (_ <? SG_BURST_WINDOW_NS) eqn:Ew; bool_to_prop; [done|done|exfalso; by apply Hn|done].
  - ctx_step. done.
Qed.

(** The verdict is a threshold on the counters after the event. *)
Lemma eval_ctx_threshold c e :
  let '(v, c') := eval_ctx c e in
  v = if ev_type e =? SG_EV_CANARY_READ then (if c_canary_reads c' >=? 2 then Some (fill_verdict SG_RULE_CANARY_TRIPPED (c_pid c) 2 "canary-tripped") else None)
      else if ev_type e =? SG_EV_NET_CONNECT then
        (if negb (Z.land (net_ip_be e) 0xFF =? 127) && (c_recon_score c' >? 3) then Some (fill_verdict SG_RULE_RECON_EXFIL (c_pid c) 2 "recon-then-exfil") else None)
      else if ev_type e =? SG_EV_FS_WRITE then (if c_burst_writes c' >? 10 then Some (fill_verdict SG_RULE_BURST_WRITES (c_pid c) 1 "burst-writes") else None)
      else None.
Proof.
  unfold eval_ctx. destruct (ev_type e =? SG_EV_FS_READ) eqn:E1; [bool_to_prop; rewrite E1; by destruct (path_is_sensitive _)|].
  destruct (ev_type e =? SG_EV_CANARY_READ); [done|]. destruct (ev_type e =? SG_EV_NET_CONNECT); [done|]. by destruct (ev_type e =? SG_EV_FS_WRITE).
Qed.

(** [eval_ctx] fires exactly the rules. *)
Lemma eval_ctx_verdict pid e h v :
  short (length h) ->
  (eval_ctx (ctx_of pid h) e).1 = Some v <-> exists rule tier reason, triggers (e :: h) rule tier reason /\ v = fill_verdict rule pid tier reason.
Proof.
  intros Hs. pose proof (eval_ctx_counters pid e h Hs) as Hc. pose proof (eval_ctx_threshold (ctx_of pid h) e) as Ht.
  destruct (eval_ctx _ e) as [w c]. simpl in Hc. subst c w. cbn [fst c_pid c_recon_score c_burst_writes c_last_write_ts c_canary_reads c_in_use ctx_of].
  split.
  - destruct (ev_type e =? SG_EV_CANARY_READ) eqn:E2; [|destruct (ev_type e =? SG_EV_NET_CONNECT) eqn:E3; [|destruct (ev_type e =? SG_EV_FS_WRITE) eqn:E4; [|done]]];
      match goal with |- (if ?b then _ else _) = _ -> _ => destruct b eqn:Eb end; intros [= <-]; rewrite ?Z.geb_leb, ?Z.gtb_ltb in Eb; bool_to_prop; do 3 eexists; (split; [|done]).
    + apply trig_canary; [done|lia].
    + destruct (filter sensitive_read (e :: h)) as [|r rs] eqn:Ef; [simpl in *; lia|].
      assert (r ∈ filter sensitive_read (e :: h)) as Hr by (rewrite Ef; set_solver). apply list_elem_of_filter in Hr as [Hr Hin].
      apply (trig_exfil e h r); [done|done| |done]. apply elem_of_cons in Hin as [->|]; [|done]. destruct Hr as [Hr _]. unfold SG_EV_FS_READ, SG_EV_NET_CONNECT in *. lia.
    + apply trig_burst; [done|]. apply burst_run_ge. lia.
  - intros (rule&tier&reason&Ht&->). inversion Ht; subst; clear Ht.
    + rewrite (proj2 (Z.eqb_eq _ _)) by done. rewrite (proj2 (Z.geb_le _ _)) by lia. done.
    + rewrite (proj2 (Z.eqb_neq _ SG_EV_CANARY_READ)) by (unfold SG_EV_CANARY_READ, SG_EV_NET_CONNECT in *; lia).
      rewrite (proj2 (Z.eqb_eq _ SG_EV_NET_CONNECT)) by done. rewrite (proj2 (Z.eqb_neq _ 127)) by done. simpl.
      assert (r ∈ filter sensitive_read (e :: h)) as Hr by (apply list_elem_of_filter; set_solver).
      rewrite Z.gtb_ltb, (proj2 (Z.ltb_lt _ _)); [done|]. destruct (filter sensitive_read (e :: h)); [set_solver|]. simpl. lia.
    + rewrite (proj2 (Z.eqb_neq _ SG_EV_CANARY_READ)) by (unfold SG_EV_CANARY_READ, SG_EV_FS_WRITE in *; lia).
      rewrite (proj2 (Z.eqb_neq _ SG_EV_NET_CONNECT)) by (unfold SG_EV_NET_CONNECT, SG_EV_FS_WRITE in *; lia). rewrite (proj2 (Z.eqb_eq _ SG_EV_FS_WRITE)) by done.
      rewrite Z.gtb_ltb, (proj2 (Z.ltb_lt _ _)); [done|]. assert (10 < burst_run (write_times (e :: h)))%nat; [by apply burst_run_ge|lia].
Qed.

(** *** The abstract engine: one history per tracked process *)

Inductive engine_op := EvalOp (e : sotguard_event) | ResetOp (pid : Z).

Definition exec_op (g : list sotguard_pid_ctx) (o : engine_op) : option sotguard_rule_result * engine :=
  match o with EvalOp e => sotguard_engine_eval g e | ResetOp pid => (None, sotguard_engine_reset_pid g pid) end.

(** An event of a tracked process, or of a new one while there is room, is added to its
    history and judged by the rules; any other is dropped. *)
Inductive spec_step : gmap Z (list sotguard_event) -> engine_op -> option sotguard_rule_result -> gmap Z (list sotguard_event) -> Prop :=
| spec_drop m e : ev_pid e = 0 \/ (m !! ev_pid e = None /\ size m = SOTGUARD_MAX_TRACKED_PIDS) -> spec_step m (EvalOp e) None m
| spec_eval m e h v : ev_pid e <> 0 -> (m !! ev_pid e = Some h \/ (m !! ev_pid e = None /\ h = [] /\ (size m < SOTGUARD_MAX_TRACKED_PIDS)%nat)) ->
    (forall v', v = Some v' <-> exists rule tier reason, triggers (e :: h) rule tier reason /\ v' = fill_verdict rule (ev_pid e) tier reason) ->
    spec_step m (EvalOp e) v (<[ev_pid e := e :: h]> m)
| spec_reset m pid : spec_step m (ResetOp pid) None (if decide (pid = 0) then m else delete pid m).

Definition used (g : list sotguard_pid_ctx) : list sotguard_pid_ctx := filter (fun c => c_in_use c = true) g.

Record tracks_histories (g : list sotguard_pid_ctx) (m : gmap Z (list sotguard_event)) : Prop := {
  th_len : length g = SOTGUARD_MAX_TRACKED_PIDS;
  th_nodup : NoDup (c_pid <$> used g);
  th_dom : dom m = list_to_set (c_pid <$> used g);
  th_ctx c : c ∈ used g -> c_pid c <> 0 /\ exists h, m !! c_pid c = Some h /\ c = ctx_of (c_pid c) h;
}.

Lemma used_split (g : list sotguard_pid_ctx) i : (i < length g)%nat ->
  exists l r, (forall c, used (<[i := c]> g) = l ++ (if c_in_use c then [c] else []) ++ r)
              /\ used g = l ++ (if c_in_use (ctx_at g i) then [ctx_at g i] else []) ++ r.
Proof.
  intros Hi. exists (used (take i g)), (used (drop (S i) g)). assert (forall c, used (<[i := c]> g) = used (take i g) ++ (if c_in_use c then [c] else []) ++ used (drop (S i) g)) as Hu.
  { intros c. unfold engine in *. rewrite insert_take_drop by done. unfold used. rewrite list.filter_app, filter_cons. destruct (c_in_use c); simpl; done. }
  split; [done|]. rewrite <-(Hu (ctx_at g i)). f_equal. symmetry. apply list_insert_id. by apply array_lookup_lt.
Qed.

Lemma tracks_size g m : tracks_histories g m -> size m = length (used g).
Proof. intros [_ Hn Hd _]. rewrite <-(size_dom (D := gset Z)), Hd, size_list_to_set by done. by rewrite length_fmap. Qed.

Lemma used_lookup (g : list sotguard_pid_ctx) i : (i < length g)%nat -> c_in_use (ctx_at g i) = true -> ctx_at g i ∈ used g.
Proof. intros Hi Hu. apply list_elem_of_filter. split; [done|]. apply (list_elem_of_lookup_2 _ i). by apply array_lookup_lt. Qed.

Lemma used_inv (g : list sotguard_pid_ctx) c : c ∈ used g -> exists i, (i < length g)%nat /\ ctx_at g i = c /\ c_in_use c = true.
Proof.
  intros [Hu Hin]%list_elem_of_filter. apply list_elem_of_lookup_1 in Hin as [i Hi]. exists i.
  split; [by eapply lookup_lt_Some|]. split; [by apply array_get|done].
Qed.

Lemma used_full (g : list sotguard_pid_ctx) : Forall (fun c => c_in_use c = true) g -> used g = g.
Proof. unfold used. induction 1 as [|c g Hc _ IH]; [done|]. rewrite filter_cons, decide_True by done. by rewrite IH. Qed.

Lemma used_room (g : list sotguard_pid_ctx) i : (i < length g)%nat -> c_in_use (ctx_at g i) = false -> (length (used g) < length g)%nat.
Proof.
  intros Hi Hf. destruct (used_split g i Hi) as (l&r&Hs&Hu). rewrite Hf in Hu.
  assert (length (used (<[i := mk_ctx 1 0 0 0 0 true]> g)) <= length g)%nat as Hle by (etrans; [apply length_filter|]; by rewrite length_insert).
  rewrite Hs in Hle. rewrite Hu. simpl in *. rewrite !length_app in *. simpl in *. lia.
Qed.

(** Storing the context of [pid] in a slot that was its own, or was free. *)
Lemma tracks_insert g m i pid h :
  tracks_histories g m -> (i < SOTGUARD_MAX_TRACKED_PIDS)%nat -> pid <> 0 ->
  tracks g pid i = true \/ (c_in_use (ctx_at g i) = false /\ m !! pid = None) ->
  tracks_histories (<[i := ctx_of pid h]> g) (<[pid := h]> m).
Proof.
  intros [Hl Hn Hd Hc] Hi Hp Hslot. destruct (used_split g i) as (l&r&Hs&Hu); [lia|]. specialize (Hs (ctx_of pid h)). simpl in Hs.
  assert (exists old, used g = l ++ old ++ r /\ (old = [] /\ m !! pid = None \/ exists c, old = [c] /\ c_pid c = pid)) as (old&Hu'&Hold).
  { eexists. split; [exact Hu|]. unfold tracks in Hslot. destruct Hslot as [Ht|[-> Hm]]; [right|by left]. bool_to_prop. rewrite H. by eexists. }
  clear Hu Hslot. rewrite Hu' in *.
  assert (forall x, x ∈ l ++ r -> c_pid x <> pid) as Hother.
  { intros x Hx E. destruct Hold as [[-> Hm]|(c&->&E2)].
    - destruct (Hc x) as (_&h'&Hh&_); [set_solver|]. rewrite E in Hh. congruence.
    - rewrite !fmap_app in Hn. simpl in Hn. rewrite <-Permutation_middle in Hn. apply NoDup_cons in Hn as [Hn _]. apply Hn. rewrite E2, <-E.
      rewrite <-fmap_app. by apply list_elem_of_fmap_2. }
  constructor.
  - by rewrite length_insert.
  - rewrite Hs, !fmap_app. simpl. rewrite <-Permutation_middle. apply NoDup_cons. split.
    + rewrite <-fmap_app. intros (x&E&Hx)%list_elem_of_fmap. by apply (Hother x).
    + destruct Hold as [[-> _]|(c&->&_)]; rewrite !fmap_app in Hn; simpl in Hn; [done|]. rewrite <-Permutation_middle in Hn. by apply NoDup_cons in Hn as [_ ?].
  - rewrite dom_insert_L, Hd, Hs, !fmap_app, !list_to_set_app_L. simpl. destruct Hold as [[-> _]|(c&->&E2)]; simpl; [set_solver|]. rewrite E2. set_solver.
  - rewrite Hs. intros c [Hin|[->|Hin]%elem_of_cons]%elem_of_app; cbn [c_pid ctx_of].
    2: { split; [done|]. exists h. split; [apply lookup_insert_eq|done]. }
    all: destruct (Hc c) as (Hz&h'&Hh&E); [set_solver|]; (split; [done|]); exists h'; rewrite lookup_insert_ne; [done|]; apply not_eq_sym, Hother; set_solver.
Qed.

(** Freeing the slot of [pid]. *)
Lemma tracks_delete g m i pid :
  tracks_histories g m -> (i < SOTGUARD_MAX_TRACKED_PIDS)%nat -> tracks g pid i = true -> tracks_histories (<[i := free_ctx]> g) (delete pid m).
Proof.
  intros [Hl Hn Hd Hc] Hi Ht. destruct (used_split g i) as (l&r&Hs&Hu); [lia|]. specialize (Hs free_ctx). simpl in Hs.
  unfold tracks in Ht. bool_to_prop. rewrite H in Hu. set (c := ctx_at g i) in *. simpl in Hu. rewrite Hu in *.
  rewrite !fmap_app, fmap_cons, <-Permutation_middle, <-fmap_app in Hn. apply NoDup_cons in Hn as [Hnin Hn].
  assert (forall x, x ∈ l ++ r -> c_pid x <> pid) as Hother.
  { intros x Hx E. apply Hnin. rewrite H0, <-E. by apply list_elem_of_fmap_2. }
  constructor.
  - by rewrite length_insert.
  - by rewrite Hs.
  - rewrite dom_delete_L, Hd, Hs, !fmap_app, !list_to_set_app_L. simpl. rewrite H0.
    assert (pid ∉ (list_to_set (c_pid <$> l) ∪ list_to_set (c_pid <$> r) : gset Z)); [|set_solver].
    rewrite <-list_to_set_app_L, <-fmap_app, elem_of_list_to_set. intros (x&E&Hx)%list_elem_of_fmap. by apply (Hother x).
  - rewrite Hs. intros x Hx. destruct (Hc x) as (Hz&h&Hh&E); [set_solver|]. split; [done|]. exists h. rewrite lookup_delete_ne; [done|]. by apply not_eq_sym, Hother.
Qed.

Lemma tracks_slot g m i pid :
  tracks_histories g m -> (i < SOTGUARD_MAX_TRACKED_PIDS)%nat -> tracks g pid i = true -> exists h, m !! pid = Some h /\ ctx_at g i = ctx_of pid h.
Proof.
  intros [Hl Hn Hd Hc] Hi Ht. unfold tracks in Ht. bool_to_prop. destruct (Hc (ctx_at g i)) as (_&h&Hh&E); [apply used_lookup; [lia|done]|].
  rewrite H0 in *. by exists h.
Qed.

Lemma untracked g m pid : tracks_histories g m -> first_below (tracks g pid) SOTGUARD_MAX_TRACKED_PIDS = None -> m !! pid = None.
Proof.
  intros [Hl Hn Hd Hc] Hf. apply not_elem_of_dom. rewrite Hd, elem_of_list_to_set. intros (c&E&Hin)%list_elem_of_fmap.
  apply used_inv in Hin as (i&Hi&Ei&Hu). pose proof (first_below_None _ _ i Hf ltac:(lia)) as Hno. unfold tracks in Hno. rewrite Ei, Hu, <-E, Z.eqb_refl in Hno. done.
Qed.

Lemma engine_full g m : tracks_histories g m -> first_below (fun i => negb (c_in_use (ctx_at g i))) SOTGUARD_MAX_TRACKED_PIDS = None -> size m = SOTGUARD_MAX_TRACKED_PIDS.
Proof.
  intros R Hf. rewrite (tracks_size g m R), used_full; [apply R|]. apply Forall_lookup. intros i c Hc. pose proof (lookup_lt_Some _ _ _ Hc) as Hi.
  rewrite (th_len g m R) in Hi. pose proof (first_below_None _ _ i Hf Hi) as Hno. cbv beta in Hno. unfold ctx_at in Hno. rewrite (array_get g i c) in Hno by done. by bool_to_prop.
Qed.

(** *** Refinement *)

Fixpoint exec_all (g : engine) (ops : list engine_op) : list (option sotguard_rule_result) * engine :=
  match ops with
  | [] => ([], g)
  | o :: ops' => let '(v, g) := exec_op g o in let '(vs, g) := exec_all g ops' in (v :: vs, g)
  end.

Inductive spec_run : gmap Z (list sotguard_event) -> list engine_op -> list (option sotguard_rule_result) -> gmap Z (list sotguard_event) -> Prop :=
| spec_nil m : spec_run m [] [] m
| spec_cons m m1 m2 o ops v vs : spec_step m o v m1 -> spec_run m1 ops vs m2 -> spec_run m (o :: ops) (v :: vs) m2.

Definition histories_upto (n : nat) (m : gmap Z (list sotguard_event)) : Prop := forall pid h, m !! pid = Some h -> (length h <= n)%nat.

(** A context in slot [i], found or new, evaluated. *)
Lemma eval_slot g m i h e v c :
  tracks_histories g m -> (i < SOTGUARD_MAX_TRACKED_PIDS)%nat -> ev_pid e <> 0 -> short (length h) ->
  tracks g (ev_pid e) i = true \/ (c_in_use (ctx_at g i) = false /\ m !! ev_pid e = None) ->
  m !! ev_pid e = Some h \/ (m !! ev_pid e = None /\ h = [] /\ (size m < SOTGUARD_MAX_TRACKED_PIDS)%nat) ->
  eval_ctx (ctx_of (ev_pid e) h) e = (v, c) ->
  spec_step m (EvalOp e) v (<[ev_pid e := e :: h]> m) /\ tracks_histories (<[i := c]> g) (<[ev_pid e := e :: h]> m).
Proof.
  intros R Hi Hp Hs Hslot Hm E. pose proof (eval_ctx_counters (ev_pid e) e h Hs) as Hc. rewrite E in Hc. simpl in Hc. subst c. split.
  - apply spec_eval; [done|done|]. intros v'. rewrite <-(eval_ctx_verdict (ev_pid e) e h v' Hs), E. done.
  - by apply tracks_insert.
Qed.

Lemma histories_insert n m pid e h : histories_upto n m -> (length h <= n)%nat -> histories_upto (S n) (<[pid := e :: h]> m).
Proof. intros Hu Hl q k. rewrite lookup_insert. case_decide; [intros [= <-]; simpl; lia|]. intros Hk%Hu. lia. Qed.

Lemma eval_refines g m n e v g' :
  tracks_histories g m -> histories_upto n m -> short n -> sotguard_engine_eval g e = (v, g') ->
  exists m', spec_step m (EvalOp e) v m' /\ tracks_histories g' m' /\ histories_upto (S n) m'.
Proof.
  intros R Hu Hs. assert (histories_upto (S n) m) as Hu' by (intros p h Hh%Hu; lia). unfold sotguard_engine_eval, get_or_alloc_ctx.
  destruct (ev_pid e =? 0) eqn:Ez; bool_to_prop; [intros [= <- <-]; exists m; split; [by apply spec_drop; left|done]|].
  destruct (first_below (tracks g (ev_pid e)) _) as [i|] eqn:Ef.
  - apply first_below_Some in Ef as (Hi&Ht&_). destruct (tracks_slot g m i (ev_pid e) R Hi Ht) as (h&Hh&->). pose proof (Hu _ _ Hh).
    destruct (eval_ctx _ e) as [v1 c] eqn:Ec. intros [= <- <-]. eexists.
    destruct (eval_slot g m i h e v1 c R Hi Ez ltac:(unfold short in *; lia) (or_introl Ht) (or_introl Hh) Ec) as [H1 H2].
    split; [exact H1|]. split; [exact H2|by apply histories_insert].
  - pose proof (untracked g m _ R Ef) as Hno. destruct (first_below _ _) as [i|] eqn:Eg in |- *.
    2: { intros [= <- <-]. exists m. split; [apply spec_drop; right; split; [done|by apply (engine_full g)]|done]. }
    apply first_below_Some in Eg as (Hi&Hfree&_). bool_to_prop. pose proof (th_len g m R) as Hl. unfold engine in *.
    assert (forall x, ctx_at (<[i := x]> g) i = x) as -> by (intros x; unfold ctx_at, engine; rewrite array_get_insert, decide_True by (done || lia); done).
    change (mk_ctx (ev_pid e) 0 0 0 0 true) with (ctx_of (ev_pid e) []). destruct (eval_ctx _ e) as [v1 c] eqn:Ec. intros [= <- <-].
    rewrite list_insert_insert_eq. eexists.
    assert (size m < SOTGUARD_MAX_TRACKED_PIDS)%nat by (rewrite (tracks_size g m R), <-Hl; apply (used_room g i); [lia|done]).
    destruct (eval_slot g m i [] e v1 c R Hi Ez ltac:(unfold short in *; simpl; lia) (or_intror (conj Hfree Hno)) (or_intror (conj Hno (conj eq_refl H))) Ec) as [H1 H2].
    split; [exact H1|]. split; [exact H2|apply histories_insert; [done|simpl; lia]].
Qed.

Lemma reset_refines g m pid : tracks_histories g m -> tracks_histories (sotguard_engine_reset_pid g pid) (if decide (pid = 0) then m else delete pid m).
Proof.
  intros R. unfold sotguard_engine_reset_pid. destruct (pid =? 0) eqn:Ez; bool_to_prop; [by rewrite decide_True|]. rewrite decide_False by done.
  destruct (first_below _ _) as [i|] eqn:Ef.
  - apply first_below_Some in Ef as (Hi&Ht&_). by apply tracks_delete.
  - rewrite delete_id; [done|]. by apply (untracked g).
Qed.

Lemma engine_exec_refines g m n ops :
  tracks_histories g m -> histories_upto n m -> short (n + length ops) ->
  exists m', spec_run m ops (exec_all g ops).1 m' /\ tracks_histories (exec_all g ops).2 m'.
Proof.
  revert g m n. induction ops as [|o ops IH]; intros g m n R Hu Hs; simpl; [exists m; split; [constructor|done]|]. simpl in Hs.
  assert (exists v g1 m1, exec_op g o = (v, g1) /\ spec_step m o v m1 /\ tracks_histories g1 m1 /\ histories_upto (S n) m1) as (v&g1&m1&->&H1&R1&Hu1).
  { destruct o as [e|pid]; simpl.
    - destruct (sotguard_engine_eval g e) as [v g1] eqn:E. destruct (eval_refines g m n e v g1 R Hu ltac:(unfold short in *; lia) E) as (m1&?&?&?). by exists v, g1, m1.
    - exists None, (sotguard_engine_reset_pid g pid). eexists. split; [done|]. split; [constructor|]. split; [by apply reset_refines|].
      intros p h. case_decide; [|rewrite lookup_delete; case_decide; [done|]]; intros Hh%Hu; lia. }
  destruct (IH g1 m1 (S n) R1 Hu1) as (m2&Hr&R2); [unfold short in *; lia|].
  destruct (exec_all g1 ops) as [vs g2]. exists m2. split; [by econstructor|done].
Qed.

Lemma init_tracks : tracks_histories sotguard_engine_init ∅.
Proof. constructor; [done|constructor|done|intros c Hc; by apply elem_of_nil in Hc]. Qed.

(** C12: the policy engine implements one history per process: over any sequence of evaluations
    and resets it returns exactly the verdicts of the abstract engine, in which an event of a
    tracked process, or of a new one while fewer than sixteen are tracked, is added to that
    process's history and fires CANARY_TRIPPED on the second canary read, RECON_EXFIL on a
    connection outside 127/8 after any read of a sensitive path, and BURST_WRITES when the last
    eleven writes are each within a millisecond of the one before; no other event fires
    anything, no process affects another's verdicts, and a reset forgets the process. *)
Theorem engine_refines (ops : list engine_op) :
  short (length ops) ->
  exists m, spec_run ∅ ops (exec_all sotguard_engine_init ops).1 m /\ tracks_histories (exec_all sotguard_engine_init ops).2 m.
Proof. intros Hs. apply (engine_exec_refines _ _ 0); [apply init_tracks|by intros p h|done]. Qed.

(** ** Events across a reboot *)

Section reboot.
Context {B : Type} `{StorageLaws B}.

(** The width of the fields of an event. *)
Record sgev_wf (e : sotguard_event) : Prop := {
  sg_pid : 0 <= ev_pid e < 2 ^ 32; sg_type : 0 <= ev_type e < 2 ^ 16; sg_ts : 0 <= ev_timestamp e < 2 ^ 64; sg_bytes : Forall is_byte (ev_detail e);
}.

Definition aev_op (p : anomaly_ev) : wal_op := WLog SOTFS_WAL_KIND_ANOMALY_EV (aev_bytes p).

Lemma aev_op_ok p : wal_op_ok (aev_op p).
Proof.
  split; [done|]. split; [|unfold aev_bytes; rewrite !Forall_app; split_and!; apply le_bytes_byte]. intros E. pose proof (length_aev_bytes p) as Hl. by rewrite E in Hl.
Qed.

Lemma log_aev_size ps st : log_size (fold_left put_op (aev_op <$> ps) st).1 <= log_size st.1 + 96 * Z.of_nat (length ps).
Proof.
  revert st. induction ps as [|p ps IH]; intros st; cbn [fmap list_fmap fold_left length]; [lia|]. etransitivity; [apply IH|].
  pose proof (put_op_size st (aev_op p)) as Hp. assert (op_size (aev_op p) = 48) as E by (unfold op_size; simpl op_payload; by rewrite length_aev_bytes). lia.
Qed.

Lemma payloads_aev ps : payloads SOTFS_WAL_KIND_ANOMALY_EV aev_size (aev_op <$> ps) = aev_bytes <$> ps.
Proof.
  induction ps as [|p ps IH]; [done|]. unfold payloads in *. cbn [fmap list_fmap omap list_omap].
  assert (select SOTFS_WAL_KIND_ANOMALY_EV aev_size (op_kind (aev_op p)) (op_payload (aev_op p)) = Some (aev_bytes p)) as ->.
  { unfold select. simpl op_payload. rewrite length_aev_bytes. done. }
  f_equal. exact IH.
Qed.

Lemma emit_all_wal b w es : (emit_all b true w es).2 = (wal_exec_all w (aev_op <$> (wal_record <$> filter (fun e => accepted e = true) es))).2.
Proof.
  revert b w. induction es as [|e es IH]; intros b w; [done|]. cbn [emit_all]. rewrite filter_cons. unfold sotguard_emit. rewrite <-(negb_involutive (_ || _)). fold (accepted e).
  destruct (accepted e) eqn:Ea; simpl negb; cbv iota.
  2: rewrite decide_False by done. 2: specialize (IH b w). 2: by destruct (emit_all b true w es) as [[rs b2] w2].
  - rewrite decide_True by done. cbn [fmap list_fmap wal_exec_all wal_exec aev_op]. unfold sotfs_wal_log_anomaly_ev.
    destruct (sotfs_wal_log_payload _ _ w) as [r w1]. cbn [snd].
    match goal with |- context [emit_all ?b1 true w1 es] => specialize (IH b1 w1); destruct (emit_all b1 true w1 es) as [[rs b2] w2] end.
    cbn [snd] in *. rewrite IH. by destruct (wal_exec_all w1 _).
Qed.


Lemma u32_lor a b : 0 <= Z.lor (u32 a) (u32 b) < 2 ^ 32.
Proof.
  replace (Z.lor (u32 a) (u32 b)) with (u32 (Z.lor a b)); [apply u32_range|]. unfold u32.
  rewrite <-!Z.land_ones by lia. apply Z.land_lor_distr_l.
Qed.

Lemma wal_record_wf e : sgev_wf e -> aev_wf (wal_record e).
Proof.
  intros [Hp Ht Hs Hb]. pose proof (fun off => field_range (ev_detail e) off 4 Hb) as H4. change (8 * Z.of_nat 4) with 32 in H4.
  assert (exists a0 a1, wal_record e = mk_aev (ev_timestamp e) (ev_pid e) (ev_type e) 0 a0 a1 /\ 0 <= a0 < 2 ^ 32 /\ 0 <= a1 < 2 ^ 32) as (a0&a1&->&H0'&H1').
  { unfold wal_record. repeat case_match; simplify_eq; do 2 eexists; (split; [reflexivity|]);
      first [split; apply u32_range|split; [apply H4|apply u32_lor]|split; [apply H4|lia]|split; [apply H4|apply u32_range]|split; apply H4|lia]. }
  constructor; simpl; (done || lia).
Qed.

(** Anomaly events survive a reboot: emit any events on a bus attached to a freshly
    formatted log with room for them, mount the medium again and replay, and the anomaly
    history is the compressed records of the accepted events, oldest first, cut to 256. *)
Theorem events_survive_reboot w b es w1 :
  blank_log w b -> Forall sgev_wf es -> 96 * Z.of_nat (length es) <= SOTFS_WAL_REGION_BYTES ->
  exists b', g_storage (emit_all sotguard_event_init true (sotfs_wal_init w b) es).2 = Some b'
    /\ (anomaly_wal_replay (sotfs_wal_init w1 b')).1.2 = take ANOMALY_REPLAY_HISTORY_MAX (wal_record <$> filter (fun e => accepted e = true) es).
Proof.
  intros Hb Hwf Hroom. rewrite emit_all_wal. set (es' := filter _ es). set (ps := wal_record <$> es').
  assert (length ps <= length es)%nat as Hlen by (unfold ps, es'; rewrite length_fmap; apply length_filter).
  assert (Forall wal_op_ok (aev_op <$> ps)) as Hok by (apply Forall_fmap, Forall_forall; intros p _; apply aev_op_ok).
  assert (fits (log_of (g_records_since_checkpoint w) (aev_op <$> ps))) as Hf.
  { unfold fits, log_of. pose proof (log_aev_size ps ([], g_records_since_checkpoint w)) as Hl. simpl in Hl.
    change WAL_END with (SOTFS_WAL_OFFSET + SOTFS_WAL_REGION_BYTES). lia. }
  destruct (run_ready w b (aev_op <$> ps) Hb Hok Hf) as (_&_&b'&[[Hst C _ _ _] _ _]). exists b'. split; [exact Hst|].
  destruct (anomaly_replay_ops (sotfs_wal_init w1 b') b' _ (aev_op <$> ps) C eq_refl) as [k ->]. cbn [fst snd]. f_equal.
  rewrite payloads_aev. rewrite <-list_fmap_compose. transitivity (id <$> ps); [|by rewrite list_fmap_id].
  apply list_fmap_ext. intros i p Hp. cbn. apply aev_of_bytes. unfold ps in Hp. apply list_lookup_fmap_Some in Hp as (e&->&He). apply wal_record_wf.
  rewrite Forall_forall in Hwf. apply Hwf. apply list_elem_of_lookup_2 in He. by apply list_elem_of_filter in He as [_ ?].
Qed.
End reboot.

(** ** Concrete runs *)

Definition event_of (pid type ts : Z) (detail : list Z) : sotguard_event := mk_sgev pid type 0 ts (take 80 (detail ++ replicate 80 0)).
Definition read_passwd : sotguard_event := event_of 7 SG_EV_FS_READ 1 (replicate 16 0 ++ bytes_of_string "/etc/passwd").
Definition connect_out : sotguard_event := event_of 7 SG_EV_NET_CONNECT 2 [10; 0; 2; 15].
Definition connect_local : sotguard_event := event_of 7 SG_EV_NET_CONNECT 3 [127; 0; 0; 1].
Definition canary (pid : Z) : sotguard_event := event_of pid SG_EV_CANARY_READ 4 [].
Definition engine_demo : list engine_op :=
  map EvalOp [connect_out; read_passwd; connect_local; connect_out; canary 7; canary 8; canary 7] ++ [ResetOp 7; EvalOp connect_out; EvalOp (canary 7)]
  ++ map (fun k => EvalOp (event_of 9 SG_EV_FS_WRITE (1000 * Z.of_nat k) [])) (seq 1 11).

Lemma engine_refines_witness :
  exists m, spec_run ∅ engine_demo
    ([None; None; None; Some (fill_verdict SG_RULE_RECON_EXFIL 7 2 "recon-then-exfil"); None; None; Some (fill_verdict SG_RULE_CANARY_TRIPPED 7 2 "canary-tripped");
      None; None; None] ++ replicate 10 None ++ [Some (fill_verdict SG_RULE_BURST_WRITES 9 1 "burst-writes")]) m.
Proof.
  destruct (engine_refines engine_demo ltac:(vm_compute; reflexivity)) as (m&Hr&_). exists m.
  assert ((exec_all sotguard_engine_init engine_demo).1 =
    ([None; None; None; Some (fill_verdict SG_RULE_RECON_EXFIL 7 2 "recon-then-exfil"); None; None; Some (fill_verdict SG_RULE_CANARY_TRIPPED 7 2 "canary-tripped");
      None; None; None] ++ replicate 10 None ++ [Some (fill_verdict SG_RULE_BURST_WRITES 9 1 "burst-writes")])) as <- by (vm_compute; reflexivity).
  exact Hr.
Defined.

Lemma events_survive_reboot_witness :
  exists b', g_storage (emit_all sotguard_event_init true (sotfs_wal_init wal_boot BlkDemo.blank) [read_passwd; event_of 7 13 1 []; connect_out]).2 = Some b'
    /\ (anomaly_wal_replay (sotfs_wal_init wal_boot b')).1.2 = [mk_aev 1 7 1 0 0 0; mk_aev 2 7 4 0 0x0F02000A 0].
Proof.
  assert (Forall sgev_wf [read_passwd; event_of 7 13 1 []; connect_out]) as Hwf.
  { repeat (apply Forall_cons; split); [..|constructor]; (constructor; [vm_compute; split; congruence..|]); vm_compute; repeat (constructor; [split; congruence|]); constructor. }
  destruct (events_survive_reboot wal_boot BlkDemo.blank [read_passwd; event_of 7 13 1 []; connect_out] wal_boot WalDemo.blank_image Hwf ltac:(vm_compute; discriminate))
    as (b'&E&H). exists b'. split; [exact E|]. rewrite H. vm_compute. reflexivity.
Defined.

Fixpoint ticks (b : bus) (g : engine) (n : nat) : list (list sotguard_rule_result) :=
  match n with O => [] | S n => let '(vs, g) := sotguard_pump_tick b g in vs :: ticks b g n end.

(** The pump inverts the burst rule, as it rereads the newest events first: one write alone
    fires BURST_WRITES at the eleventh tick, while sixteen writes 1 us apart never do. *)
Theorem pump_burst_inverted :
  let bus_after ts := (emit_all sotguard_event_init false (wal_boot (B := disk)) (map (fun t => event_of 1 SG_EV_FS_WRITE t []) ts)).1.2 in
  ticks (bus_after [5]) sotguard_pump_init 11 = replicate 10 [] ++ [[fill_verdict SG_RULE_BURST_WRITES 1 1 "burst-writes"]]
  /\ ticks (bus_after (map (fun k => 1000 * Z.of_nat k) (seq 1 16))) sotguard_pump_init 100 = replicate 100 [].
Proof. vm_compute. split; reflexivity. Qed.
