(* ===== verification/Anomaly.v ===== *)
(** * The anomaly process

    src/anomaly/main.c: the weighted suspicion score, the rules on network, curvature,
    DNS and syscall-origin events, and the reply each event gets.  The eight arrays of
    the file, all indexed by pid, are one array of records ([pid_state]); the calls to
    procd go to the dispatcher of ProcdServer under the badge of the endpoint.  The
    mirror to the WAL is disabled in the source ([g_wal_attached] stays 0), and the
    printing is left out. *)

From S2P Require Import Prelude ProcdTable ProcdServer.

(** ** Messages *)

Definition ORCH_OP_ANOMALY_EVENT : Z := 7.
Definition ANOMALY_EV_WRITE : Z := 1.
Definition ANOMALY_EV_OPERATOR_PROMOTE : Z := 2.
Definition ANOMALY_EV_PLEDGE_VIOLATION : Z := 3.
Definition ANOMALY_EV_NET_PRECOMMIT : Z := 4.
Definition ANOMALY_EV_CURVATURE : Z := 5.
Definition ANOMALY_EV_DNS_HIT : Z := 6.
Definition ANOMALY_EV_TCP_OPEN : Z := 7.
Definition ANOMALY_EV_MSYSCALL : Z := 8.
Definition ANOMALY_EV_CRED_ACCESS : Z := 16.
Definition ANOMALY_EV_UNLINK : Z := 17.
Definition ANOMALY_EV_EXEC : Z := 18.

Definition ANOMALY_T1_THRESHOLD : Z := 20.
Definition ANOMALY_T2_THRESHOLD : Z := 40.

Definition anomaly_weight (kind : Z) : Z :=
  if kind =? ANOMALY_EV_WRITE then 1
  else if kind =? ANOMALY_EV_UNLINK then 2
  else if kind =? ANOMALY_EV_EXEC then 8
  else if kind =? ANOMALY_EV_CRED_ACCESS then 15
  else if (kind =? ANOMALY_EV_NET_PRECOMMIT) || (kind =? ANOMALY_EV_CURVATURE) || (kind =? ANOMALY_EV_DNS_HIT)
          || (kind =? ANOMALY_EV_TCP_OPEN) || (kind =? ANOMALY_EV_MSYSCALL) then ANOMALY_T2_THRESHOLD
  else 0.

(** ** State *)

Record pid_state := mk_ps {
  ps_score : Z; ps_applied_tier : Z; ps_write_count : Z; ps_procd_slot : Z;
  ps_promoted : bool; ps_unlink_run : Z; ps_since_unlink : Z; ps_bytes_out : Z }.

Definition set_score (x : Z) (p : pid_state) : pid_state :=
  mk_ps x (ps_applied_tier p) (ps_write_count p) (ps_procd_slot p) (ps_promoted p) (ps_unlink_run p) (ps_since_unlink p) (ps_bytes_out p).
Definition set_applied (x : Z) (p : pid_state) : pid_state :=
  mk_ps (ps_score p) x (ps_write_count p) (ps_procd_slot p) (ps_promoted p) (ps_unlink_run p) (ps_since_unlink p) (ps_bytes_out p).
Definition set_write_count (x : Z) (p : pid_state) : pid_state :=
  mk_ps (ps_score p) (ps_applied_tier p) x (ps_procd_slot p) (ps_promoted p) (ps_unlink_run p) (ps_since_unlink p) (ps_bytes_out p).
Definition set_procd_slot (x : Z) (p : pid_state) : pid_state :=
  mk_ps (ps_score p) (ps_applied_tier p) (ps_write_count p) x (ps_promoted p) (ps_unlink_run p) (ps_since_unlink p) (ps_bytes_out p).
Definition set_promoted (x : bool) (p : pid_state) : pid_state :=
  mk_ps (ps_score p) (ps_applied_tier p) (ps_write_count p) (ps_procd_slot p) x (ps_unlink_run p) (ps_since_unlink p) (ps_bytes_out p).
Definition set_unlink_run (x : Z) (p : pid_state) : pid_state :=
  mk_ps (ps_score p) (ps_applied_tier p) (ps_write_count p) (ps_procd_slot p) (ps_promoted p) x (ps_since_unlink p) (ps_bytes_out p).
Definition set_since (x : Z) (p : pid_state) : pid_state :=
  mk_ps (ps_score p) (ps_applied_tier p) (ps_write_count p) (ps_procd_slot p) (ps_promoted p) (ps_unlink_run p) x (ps_bytes_out p).
Definition set_bytes_out (x : Z) (p : pid_state) : pid_state :=
  mk_ps (ps_score p) (ps_applied_tier p) (ps_write_count p) (ps_procd_slot p) (ps_promoted p) (ps_unlink_run p) (ps_since_unlink p) x.

Definition ANOMALY_MAX_PIDS : nat := 16.
Definition fresh_pid : pid_state := mk_ps 0 0 0 0 false 0 0 0.
Definition anomaly := list pid_state.
Definition anomaly_boot : anomaly := replicate ANOMALY_MAX_PIDS fresh_pid.

Definition pid_at (a : anomaly) (pid : Z) : pid_state := a.[Z.to_nat pid, fresh_pid].
Definition upd_pid (a : anomaly) (pid : Z) (f : pid_state -> pid_state) : anomaly := <[Z.to_nat pid := f (pid_at a pid)]> a.

(** [pid >= 1 && pid < 16]. *)
Definition scored_pid (pid : Z) : bool := (1 <=? pid) && (pid <? 16).

(** ** The score *)

Definition score_fold (kind burst_bonus : Z) (p : pid_state) : Z * pid_state :=
  let p := set_score (u32 (ps_score p + anomaly_weight kind + burst_bonus)) p in
  let target := if ps_score p >=? ANOMALY_T2_THRESHOLD then 2 else if ps_score p >=? ANOMALY_T1_THRESHOLD then 1 else 0 in
  if target >? ps_applied_tier p then (target, set_applied target p) else (0, p).

Definition anomaly_score_fold (a : anomaly) (pid kind burst_bonus : Z) : Z * anomaly :=
  if negb (scored_pid pid) then (0, a)
  else let '(t, p) := score_fold kind burst_bonus (pid_at a pid) in (t, upd_pid a pid (fun _ => p)).

Definition anomaly_fold_async (a : anomaly) (pid kind : Z) : anomaly :=
  if negb (scored_pid pid) then a
  else upd_pid (anomaly_score_fold a pid kind 0).2 pid (fun p => set_since (u32 (ps_since_unlink p + 1)) p).

(** ** Calls to procd *)

(** A badged endpoint, if one was minted. *)
Definition call_set_tier (d : procd) (ntf : bool) (slot tier : Z) : Z * procd :=
  let '(rep, d, _) := procd_dispatch d ntf BADGE_ANOMALY_OP_SET_TIER
    (fun i => match i with O => PROCD_OP_SET_TIER | 1%nat => slot | 2%nat => tier | _ => 0 end) in
  (rp_result rep, d).

Section server.
(** The callback and procd endpoints of [argv] and whether procd notifies its subscribers. *)
Context (orch_ep procd_ep ntf : bool).

Definition anomaly_procd_set_tier (d : procd) (procd_slot target_tier : Z) : procd :=
  if negb procd_ep || (procd_slot =? 0) then d else (call_set_tier d ntf procd_slot target_tier).2.

(** The first part of [anomaly_handle_sync]: the procd slot, the fresh-tenant reset and
    the write watermark. *)
Definition sync_tenant (lucas_count pd_slot : Z) (p : pid_state) : pid_state :=
  let p := if negb (pd_slot =? 0) then set_procd_slot pd_slot p else p in
  let p := if negb (lucas_count =? 0) && (lucas_count <? ps_write_count p)
           then set_promoted false (set_since 0 (set_unlink_run 0 (set_applied 0 (set_score 0 p)))) else p in
  set_write_count (if negb (lucas_count =? 0) then lucas_count else u32 (ps_write_count p + 1)) p.

(** The unlink-burst escalation: the extra weight and the state with its run counters. *)
Definition sync_burst (kind mr2 : Z) (p : pid_state) : option (Z * pid_state) :=
  let K := 8 in let BASE := 2 in let CAP := BASE * 6 in
  if kind =? ANOMALY_EV_UNLINK then
    let cred := Z.land (u32 mr2) 1 in
    let p := if ps_since_unlink p >? K then set_unlink_run 0 p else p in
    let p := set_since 0 (set_unlink_run (u32 (ps_unlink_run p + 1)) p) in
    let step := u32 (BASE * ps_unlink_run p) in
    let step := if step >? CAP then CAP else step in
    let burst_bonus := u32 (step - BASE) in
    let burst_bonus := if negb (cred =? 0) then u32 (burst_bonus + BASE) else burst_bonus in
    Some (burst_bonus, p)
  else if (kind =? ANOMALY_EV_WRITE) || (kind =? ANOMALY_EV_CRED_ACCESS) || (kind =? ANOMALY_EV_EXEC) then
    Some (0, set_since (u32 (ps_since_unlink p + 1)) p)
  else None.

Definition anomaly_handle_sync (a : anomaly) (d : procd) (pid kind mr2 lucas_count pd_slot : Z) : Z * anomaly * procd :=
  if negb (scored_pid pid) then (0, a, d)
  else
    let a := upd_pid a pid (sync_tenant lucas_count pd_slot) in
    match sync_burst kind mr2 (pid_at a pid) with
    | None => (0, a, d)
    | Some (burst_bonus, p) =>
        let '(target, a) := anomaly_score_fold (upd_pid a pid (fun _ => p)) pid kind burst_bonus in
        (target, a, if target >? 0 then anomaly_procd_set_tier d (ps_procd_slot (pid_at a pid)) target else d)
    end.

(** ** The other rules *)

(** Single-fire escalation of [pid] by an event of [kind]. *)
Definition escalate (a : anomaly) (d : procd) (pid kind : Z) : anomaly * procd :=
  let a := upd_pid a pid (set_promoted true) in
  let d := anomaly_procd_set_tier d (ps_procd_slot (pid_at a pid)) 2 in
  (anomaly_fold_async a pid kind, d).

Definition may_escalate (a : anomaly) (pid : Z) : bool := scored_pid pid && negb (ps_promoted (pid_at a pid)) && orch_ep.

(** Decision (0 commit, 1 abort, 2 synth), tier to apply. *)
Definition net_precommit (a : anomaly) (d : procd) (pid dst_ip_be len : Z) : Z * Z * anomaly * procd :=
  let counted := (0 <=? pid) && (pid <? 16) in
  let a := if counted then upd_pid a pid (fun p => set_bytes_out (u32 (ps_bytes_out p + len)) p) else a in
  let first_octet := Z.land dst_ip_be 0xFF in
  let decision := if first_octet =? 10 then 0
                  else if len >? 256 then 1
                  else if counted && (ps_bytes_out (pid_at a pid) >? 4096) then 1 else 0 in
  if scored_pid pid && negb (first_octet =? 10) && (ps_bytes_out (pid_at a pid) >? 16384) && negb (ps_promoted (pid_at a pid)) && orch_ep then
    let '(a, d) := escalate a d pid ANOMALY_EV_NET_PRECOMMIT in (2, 2, a, d)
  else (decision, 0, a, d).

Definition curvature_event (a : anomaly) (d : procd) (pid rule_kind : Z) : Z * anomaly * procd :=
  if scored_pid pid && (1 <=? rule_kind) && (rule_kind <=? 2) && negb (ps_promoted (pid_at a pid)) && orch_ep then
    let '(a, d) := escalate a d pid ANOMALY_EV_CURVATURE in (2, a, d)
  else (0, a, d).

Definition dns_event (a : anomaly) (d : procd) (pid : Z) : Z * anomaly * procd :=
  if may_escalate a pid then let '(a, d) := escalate a d pid ANOMALY_EV_DNS_HIT in (2, a, d) else (0, a, d).

Definition msyscall_event (a : anomaly) (d : procd) (pid : Z) : Z * anomaly * procd :=
  if may_escalate a pid then let '(a, d) := escalate a d pid ANOMALY_EV_MSYSCALL in (2, a, d) else (0, a, d).

Definition tcp_event (a : anomaly) (d : procd) (pid rip_be : Z) : Z * anomaly * procd :=
  if may_escalate a pid && negb (Z.land rip_be 0xFF =? 10) then
    let '(a, d) := escalate a d pid ANOMALY_EV_TCP_OPEN in (2, a, d)
  else (0, a, d).

(** ** One turn of the loop: the message registers of the reply, the state and procd. *)
Definition anomaly_turn (a : anomaly) (d : procd) (label : Z) (mr : nat -> Z) : list Z * anomaly * procd :=
  let one (x : Z * anomaly * procd) := let '(t, a, d) := x in ([t], a, d) in
  if negb (label =? ORCH_OP_ANOMALY_EVENT) then ([], a, d)
  else
    let pid := i32 (mr 0%nat) in
    let kind := i32 (mr 1%nat) in
    if kind =? ANOMALY_EV_NET_PRECOMMIT then
      let '(decision, tier, a, d) := net_precommit a d pid (u32 (mr 2%nat)) (u32 (mr 3%nat)) in ([decision; tier], a, d)
    else if kind =? ANOMALY_EV_CURVATURE then one (curvature_event a d pid (u32 (mr 2%nat)))
    else if kind =? ANOMALY_EV_DNS_HIT then one (dns_event a d pid)
    else if kind =? ANOMALY_EV_MSYSCALL then one (msyscall_event a d pid)
    else if (kind =? ANOMALY_EV_WRITE) || (kind =? ANOMALY_EV_UNLINK) || (kind =? ANOMALY_EV_CRED_ACCESS) || (kind =? ANOMALY_EV_EXEC) then
      one (anomaly_handle_sync a d pid kind (mr 2%nat) (u32 (mr 3%nat)) (u32 (mr 4%nat)))
    else if kind =? ANOMALY_EV_TCP_OPEN then one (tcp_event a d pid (u32 (mr 2%nat)))
    else ([], a, d).
End server.
