(* ===== verification/AnomalyTheorems.v ===== *)
(** * Theorems on the anomaly process

    The suspicion score as a function of the history of a process ([score_history]) and
    what the fresh-tenant watermark makes of it ([stale_tenant_immune],
    [first_write_forgets]). *)

From S2P Require Import Prelude ProcdTable ProcdServer ProcdSpec Anomaly.

(** ** Slots of the table *)

Section slots.
Implicit Types (a : list pid_state) (p : pid_state).

Lemma pid_at_upd a pid f q :
  length a = ANOMALY_MAX_PIDS -> 0 <= pid < 16 -> 0 <= q -> pid_at (upd_pid a pid f) q = if decide (pid = q) then f (pid_at a pid) else pid_at a q.
Proof.
  intros Hl Hp Hq. unfold pid_at at 1, upd_pid, anomaly. rewrite array_get_insert by (rewrite Hl; unfold ANOMALY_MAX_PIDS; lia).
  destruct (decide (pid = q)) as [->|Hne]; [by rewrite decide_True|]. rewrite decide_False by lia. done.
Qed.

Lemma length_upd a pid f : length (upd_pid a pid f) = length a.
Proof. unfold upd_pid, anomaly. by rewrite length_insert. Qed.

Lemma scored pid : scored_pid pid = true <-> 1 <= pid < 16.
Proof. unfold scored_pid. rewrite andb_true_iff, Z.leb_le, Z.ltb_lt. lia. Qed.
End slots.

(** ** The score of a history *)

(** A scored event of one process, and its history, newest first. *)
Record signal := mk_signal { sg_kind : Z; sg_cred : bool }.
Definition sync_kind (k : Z) : Prop := k = ANOMALY_EV_WRITE \/ k = ANOMALY_EV_UNLINK \/ k = ANOMALY_EV_CRED_ACCESS \/ k = ANOMALY_EV_EXEC.
Definition is_unlink (e : signal) : bool := sg_kind e =? ANOMALY_EV_UNLINK.

(** Events since the last unlink, and the length of the current run of unlinks, which is broken
    by more than eight other events in a row. *)
Fixpoint since (h : list signal) : nat :=
  match h with [] => 0 | e :: h' => if is_unlink e then 0 else S (since h') end.
Fixpoint run (h : list signal) : nat :=
  match h with [] => 0 | e :: h' => if is_unlink e then (if (8 <? since h')%nat then 1 else S (run h')) else run h' end.

Definition points (e : signal) (h : list signal) : Z :=
  if is_unlink e then Z.min (2 * Z.of_nat (run (e :: h))) 12 + (if sg_cred e then 2 else 0)
  else if sg_kind e =? ANOMALY_EV_WRITE then 1 else if sg_kind e =? ANOMALY_EV_EXEC then 8 else 15.
Fixpoint score (h : list signal) : Z := match h with [] => 0 | e :: h' => points e h' + score h' end.
Definition tier_of (s : Z) : Z := if 40 <=? s then 2 else if 20 <=? s then 1 else 0.

Lemma since_le h : (since h <= length h)%nat.
Proof. induction h as [|e h IH]; simpl; [lia|]. destruct (is_unlink e); lia. Qed.
Lemma run_le h : (run h <= length h)%nat.
Proof. induction h as [|e h IH]; simpl; [lia|]. destruct (is_unlink e); [destruct (8 <? since h)%nat|]; lia. Qed.
Lemma run_unlink e h : is_unlink e = true -> (1 <= run (e :: h))%nat.
Proof. intros E. simpl. rewrite E. destruct (8 <? since h)%nat; lia. Qed.
Lemma points_range e h : 1 <= points e h <= 15.
Proof.
  unfold points. destruct (is_unlink e) eqn:E; [|destruct (_ =? _); [lia|destruct (_ =? _); lia]].
  pose proof (run_unlink e h E). destruct (sg_cred e); lia.
Qed.
Lemma score_range h : 0 <= score h <= 15 * Z.of_nat (length h).
Proof. induction h as [|e h IH]; simpl; [lia|]. pose proof (points_range e h). lia. Qed.
Lemma tier_of_mono s s' : s <= s' -> tier_of s <= tier_of s'.
Proof. intros Hs. unfold tier_of. destruct (40 <=? s) eqn:E1, (40 <=? s') eqn:E2, (20 <=? s) eqn:E3, (20 <=? s') eqn:E4; bool_to_prop; lia. Qed.

(** The state of a process with history [h] in one tenancy. *)
Record holds (p : pid_state) (h : list signal) : Prop := {
  h_score : ps_score p = score h;
  h_tier : ps_applied_tier p = tier_of (score h);
  h_run : ps_unlink_run p = Z.of_nat (run h);
  h_since : ps_since_unlink p = Z.of_nat (since h);
}.

Definition short_history (n : nat) : Prop := 15 * (Z.of_nat n + 1) < 2 ^ 31.

Lemma cred_bit mr2 : (Z.land (u32 mr2) 1 =? 0) = negb (Z.testbit mr2 0).
Proof.
  change 1 with (Z.ones 1). rewrite Z.land_ones by lia. unfold u32. rewrite Z.bit0_odd, Zodd_mod.
  replace ((mr2 mod 2 ^ 32) mod 2 ^ 1) with (mr2 mod 2) by (change (2 ^ 32) with (2 * 2 ^ 31); change (2 ^ 1) with 2; rewrite Z.rem_mul_r by lia; rewrite Z.mul_comm, Z.mod_add by lia; by rewrite Z.mod_mod by lia).
  pose proof (Z.mod_pos_bound mr2 2 ltac:(lia)). destruct (mr2 mod 2 =? 0) eqn:E; bool_to_prop; [by rewrite E|].
  assert (mr2 mod 2 = 1) as -> by lia. done.
Qed.

(** What [sync_burst] leaves alone. *)
Definition same_account (p p' : pid_state) : Prop :=
  ps_score p' = ps_score p /\ ps_applied_tier p' = ps_applied_tier p /\ ps_procd_slot p' = ps_procd_slot p /\ ps_promoted p' = ps_promoted p
  /\ ps_write_count p' = ps_write_count p.

Lemma burst_unlink p h e mr2 :
  holds p h -> sg_kind e = ANOMALY_EV_UNLINK -> sg_cred e = Z.testbit mr2 0 -> short_history (length h) ->
  exists bonus p', sync_burst (sg_kind e) mr2 p = Some (bonus, p') /\ same_account p p'
    /\ ps_unlink_run p' = Z.of_nat (run (e :: h)) /\ ps_since_unlink p' = Z.of_nat (since (e :: h))
    /\ anomaly_weight (sg_kind e) + bonus = points e h.
Proof.
  intros [Hs Ht Hr Hn] E Hc Hb. unfold short_history in Hb. pose proof (run_le h) as Hle.
  assert (is_unlink e = true) as Hu by (unfold is_unlink; rewrite E; done). pose proof (run_unlink e h Hu) as H1.
  assert (u32 (ps_unlink_run (if ps_since_unlink p >? 8 then set_unlink_run 0 p else p) + 1) = Z.of_nat (run (e :: h))) as Erun.
  { simpl. rewrite Hu, Hn. destruct (8 <? since h)%nat eqn:E8; [apply Nat.ltb_lt in E8|apply Nat.ltb_ge in E8].
    - rewrite Z.gtb_ltb, (proj2 (Z.ltb_lt _ _)) by lia. done.
    - rewrite Z.gtb_ltb, (proj2 (Z.ltb_ge _ _)) by lia. rewrite Hr, u32_small by lia. lia. }
  pose proof (run_le (e :: h)) as Hle'. simpl length in Hle'.
  unfold sync_burst. rewrite E, Z.eqb_refl. do 2 eexists. split; [reflexivity|]. cbv zeta. split; [by destruct (_ >? 8)|].
  split; [exact Erun|]. split; [simpl; by rewrite Hu|]. cbn [ps_unlink_run set_unlink_run set_since]. rewrite Erun, cred_bit, negb_involutive, <-Hc.
  unfold points. rewrite Hu. change (anomaly_weight ANOMALY_EV_UNLINK) with 2. rewrite (u32_small (2 * _)) by lia.
  rewrite Z.gtb_ltb. destruct (_ <? _) eqn:E12; bool_to_prop; destruct (sg_cred e); rewrite !u32_small; rewrite ?u32_small; lia.
Qed.

Lemma burst_holds p h e mr2 :
  holds p h -> sync_kind (sg_kind e) -> sg_cred e = Z.testbit mr2 0 -> short_history (length h) ->
  exists bonus p', sync_burst (sg_kind e) mr2 p = Some (bonus, p') /\ same_account p p'
    /\ ps_unlink_run p' = Z.of_nat (run (e :: h)) /\ ps_since_unlink p' = Z.of_nat (since (e :: h))
    /\ anomaly_weight (sg_kind e) + bonus = points e h.
Proof.
  intros Hh Hk Hc Hb. destruct (decide (sg_kind e = ANOMALY_EV_UNLINK)) as [E|E]; [by apply burst_unlink|].
  destruct Hh as [Hs Ht Hr Hn]. unfold short_history in Hb. pose proof (since_le h).
  assert (is_unlink e = false) as Hu by (by apply Z.eqb_neq).
  exists 0, (set_since (u32 (ps_since_unlink p + 1)) p). split; [|split; [done|]].
  { unfold sync_burst. rewrite (proj2 (Z.eqb_neq _ _)) by done. destruct Hk as [->|[?|[->| ->]]]; done. }
  simpl. rewrite Hu, Hn, Hr, u32_small by lia. split; [done|]. split; [lia|].
  unfold points. rewrite Hu. destruct Hk as [->|[?|[->| ->]]]; done.
Qed.

(** ** Runs of the server on forwarded signals *)

Record sync_msg := mk_sync { sm_pid : Z; sm_kind : Z; sm_mr2 : Z; sm_count : Z; sm_slot : Z }.
Definition signal_of (m : sync_msg) : signal := mk_signal (sm_kind m) (Z.testbit (sm_mr2 m) 0).

Section server.
Context (procd_ep ntf : bool).
Implicit Types (a : list pid_state) (d : procd) (m : sync_msg).

Definition handle a d m : Z * anomaly * procd := anomaly_handle_sync procd_ep ntf a d (sm_pid m) (sm_kind m) (sm_mr2 m) (sm_count m) (sm_slot m).

Fixpoint sync_all (a : anomaly) (d : procd) (ms : list sync_msg) : list (Z * Z) * anomaly * procd :=
  match ms with
  | [] => ([], a, d)
  | m :: ms' => let '(t, a, d) := handle a d m in let '(ts, a, d) := sync_all a d ms' in ((sm_pid m, t) :: ts, a, d)
  end.

(** The tier a new signal is answered with. *)
Definition verdict (h : list signal) (e : signal) : Z := if tier_of (score h) <? tier_of (score (e :: h)) then tier_of (score (e :: h)) else 0.
Fixpoint verdicts (h : list signal) (es : list signal) : list Z :=
  match es with [] => [] | e :: es' => verdict h e :: verdicts (e :: h) es' end.

Lemma tenant_holds p h count slot :
  holds p h -> 1 <= count -> ps_write_count p <= count ->
  let p' := sync_tenant count slot p in
  holds p' h /\ ps_write_count p' = count /\ ps_promoted p' = ps_promoted p /\ ps_procd_slot p' = if slot =? 0 then ps_procd_slot p else slot.
Proof.
  intros [Hs Ht Hr Hn] Hc Hw. unfold sync_tenant. rewrite (proj2 (Z.eqb_neq count 0)) by lia.
  destruct (slot =? 0); simpl; rewrite (proj2 (Z.ltb_ge _ _)) by done; done.
Qed.

Lemma fold_holds p p' h e bonus :
  holds p h -> same_account p p' -> ps_unlink_run p' = Z.of_nat (run (e :: h)) -> ps_since_unlink p' = Z.of_nat (since (e :: h)) ->
  anomaly_weight (sg_kind e) + bonus = points e h -> short_history (length h) ->
  let x := score_fold (sg_kind e) bonus p' in
  x.1 = verdict h e /\ holds x.2 (e :: h) /\ ps_write_count x.2 = ps_write_count p /\ ps_promoted x.2 = ps_promoted p /\ ps_procd_slot x.2 = ps_procd_slot p.
Proof.
  intros [Hs Ht Hr Hn] (E1&E2&E3&E4&E5) Er En Ep Hb. unfold short_history in Hb. pose proof (score_range h). pose proof (points_range e h).
  pose proof (tier_of_mono (score h) (score (e :: h)) ltac:(simpl; lia)) as Hm.
  unfold score_fold, verdict. rewrite E1, Hs. replace (score h + anomaly_weight (sg_kind e) + bonus) with (score (e :: h)) by (simpl; lia).
  cbn [ps_score set_score]. rewrite (u32_small (score (e :: h))) by (simpl; lia). rewrite !Z.geb_leb. change ANOMALY_T2_THRESHOLD with 40. change ANOMALY_T1_THRESHOLD with 20. fold (tier_of (score (e :: h))).
  cbn [ps_applied_tier set_score]. rewrite E2, Ht, Z.gtb_ltb.
  destruct (_ <? _) eqn:Elt; bool_to_prop; cbn [fst snd]; (split; [done|]); (split; [constructor; [done| |exact Er|exact En]|done]).
  - done.
  - cbn [ps_applied_tier set_score]. rewrite E2, Ht. lia.
Qed.

(** One signal of the process of history [h], in its tenancy. *)
Lemma sync_own a d m h t a' d' :
  length a = ANOMALY_MAX_PIDS -> 1 <= sm_pid m < 16 -> sync_kind (sm_kind m) -> short_history (length h) ->
  holds (pid_at a (sm_pid m)) h -> 1 <= sm_count m -> ps_write_count (pid_at a (sm_pid m)) <= sm_count m ->
  handle a d m = (t, a', d') ->
  t = verdict h (signal_of m) /\ holds (pid_at a' (sm_pid m)) (signal_of m :: h) /\ ps_write_count (pid_at a' (sm_pid m)) = sm_count m
  /\ ps_promoted (pid_at a' (sm_pid m)) = ps_promoted (pid_at a (sm_pid m))
  /\ ps_procd_slot (pid_at a' (sm_pid m)) = (if sm_slot m =? 0 then ps_procd_slot (pid_at a (sm_pid m)) else sm_slot m)
  /\ d' = if t >? 0 then anomaly_procd_set_tier procd_ep ntf d (ps_procd_slot (pid_at a' (sm_pid m))) t else d.
Proof.
  intros Hl Hp Hk Hb Hh Hc Hw. set (pid := sm_pid m) in *. unfold handle, anomaly_handle_sync. fold pid. rewrite (proj2 (scored pid)) by lia. simpl negb. cbv iota.
  destruct (tenant_holds _ h (sm_count m) (sm_slot m) Hh Hc Hw) as (Hh1&Hw1&Hp1&Hs1). rewrite (pid_at_upd a pid _ pid), decide_True by (done || lia).
  set (p1 := sync_tenant _ _ _) in *.
  destruct (burst_holds p1 h (signal_of m) (sm_mr2 m) Hh1 Hk eq_refl Hb) as (bonus&p2&Eb&Hsame&Er&En&Ep). cbn [sg_kind signal_of] in Eb. rewrite Eb.
  unfold anomaly_score_fold. rewrite (proj2 (scored pid)) by lia. simpl negb. cbv iota. rewrite !pid_at_upd, !decide_True by (rewrite ?length_upd; done || lia).
  destruct (fold_holds p1 p2 h (signal_of m) bonus Hh1 Hsame Er En Ep Hb) as (Et&Hh2&Hw2&Hp2&Hs2). cbn [sg_kind signal_of] in *.
  destruct (score_fold (sm_kind m) bonus p2) as [t0 p3]. cbn [fst snd] in *. intros [= <- <- <-].
  rewrite !pid_at_upd, !decide_True by (rewrite ?length_upd; done || lia). by rewrite Hw2, Hp2, Hs2, Hw1, Hp1, Hs1.
Qed.

(** A signal of another process. *)
Lemma sync_other a d m t a' d' pid :
  length a = ANOMALY_MAX_PIDS -> 0 <= pid -> sm_pid m <> pid -> handle a d m = (t, a', d') -> pid_at a' pid = pid_at a pid.
Proof.
  intros Hl Hp Hne. unfold handle, anomaly_handle_sync. destruct (scored_pid (sm_pid m)) eqn:Es; simpl negb; cbv iota; [|by intros [= <- <- <-]].
  apply scored in Es as Hs. destruct (sync_burst _ _ _) as [[bonus p]|].
  - unfold anomaly_score_fold. rewrite Es. simpl negb. cbv iota. destruct (score_fold _ _ _) as [t0 p0]. intros [= <- <- <-].
    rewrite !pid_at_upd, !decide_False by (rewrite ?length_upd; done || lia). done.
  - intros [= <- <- <-]. rewrite pid_at_upd, decide_False by (done || lia). done.
Qed.

Lemma handle_length a d m : length (handle a d m).1.2 = length a.
Proof.
  unfold handle, anomaly_handle_sync. destruct (scored_pid (sm_pid m)) eqn:Es; simpl negb; cbv iota; [|done].
  destruct (sync_burst _ _ _) as [[bonus p]|]; [|apply length_upd].
  unfold anomaly_score_fold. rewrite Es. simpl negb. cbv iota. destruct (score_fold _ _ _) as [t0 p0]. cbn [fst snd]. by rewrite !length_upd.
Qed.

(** The signals of [pid] come from one tenant: its count of writes is never zero and never falls. *)
Fixpoint one_tenant (pid : Z) (n : Z) (ms : list sync_msg) : Prop :=
  match ms with
  | [] => True
  | m :: ms' => if decide (sm_pid m = pid) then sync_kind (sm_kind m) /\ 1 <= sm_count m /\ n <= sm_count m /\ one_tenant pid (sm_count m) ms' else one_tenant pid n ms'
  end.

Definition own (pid : Z) (ms : list sync_msg) : list signal := signal_of <$> filter (fun m => sm_pid m = pid) ms.
Definition own_replies (pid : Z) (ts : list (Z * Z)) : list Z := snd <$> filter (fun t => t.1 = pid) ts.

Lemma sync_all_holds a d ms pid h :
  length a = ANOMALY_MAX_PIDS -> 1 <= pid < 16 -> holds (pid_at a pid) h -> short_history (length h + length ms) ->
  one_tenant pid (ps_write_count (pid_at a pid)) ms ->
  let '(ts, a', d') := sync_all a d ms in
  own_replies pid ts = verdicts h (own pid ms) /\ holds (pid_at a' pid) (reverse (own pid ms) ++ h).
Proof.
  intros Hl Hp. revert a d h Hl. induction ms as [|m ms IH]; intros a d h Hl Hh Hb Ht; [done|]. cbn [sync_all].
  pose proof (handle_length a d m) as Hl'. destruct (handle a d m) as [[t a1] d1] eqn:E. cbn [fst snd] in Hl'. rewrite Hl in Hl'. simpl length in Hb.
  unfold own, own_replies in *. rewrite filter_cons. cbn [one_tenant] in Ht. destruct (decide (sm_pid m = pid)) as [Em|Em].
  - destruct Ht as (Hk&Hc1&Hc2&Ht). subst pid.
    destruct (sync_own a d m h t a1 d1 Hl Hp Hk ltac:(unfold short_history in *; lia) Hh Hc1 Hc2 E) as (->&Hh'&Hw'&_).
    specialize (IH a1 d1 (signal_of m :: h) Hl' Hh' ltac:(unfold short_history in *; simpl; lia) ltac:(by rewrite Hw')).
    destruct (sync_all a1 d1 ms) as [[ts a2] d2]. destruct IH as [E1 E2]. rewrite filter_cons, decide_True by done. cbn [fmap list_fmap verdicts snd].
    split; [by rewrite E1|]. rewrite reverse_cons, <-app_assoc. done.
  - pose proof (sync_other a d m t a1 d1 pid Hl ltac:(lia) Em E) as Ho. rewrite <-Ho in Hh, Ht.
    specialize (IH a1 d1 h Hl' Hh ltac:(unfold short_history in *; lia) Ht). destruct (sync_all a1 d1 ms) as [[ts a2] d2].
    rewrite filter_cons, decide_False by done. done.
Qed.
End server.

Lemma boot_pid pid : pid_at anomaly_boot pid = fresh_pid.
Proof. unfold pid_at, anomaly_boot, anomaly. destruct (replicate _ _ !! _) eqn:E; [|done]. by apply lookup_replicate in E as [-> _]. Qed.

(** C33: the suspicion score is the weighted history of a process.  From boot, over any
    interleaving of signals of any processes, short enough that no 32-bit score can overflow, a process with a pid
    from 1 to 15 that sends only the four synchronous kinds, with a write count that starts above zero and never
    falls (so that all its signals are of one tenant), is
    answered with a tier exactly when its score crosses a threshold (20 for Tier 1, 40 for Tier
    2), where a write counts 1, an exec 8, a credential access 15, and the n-th unlink of a run
    min(2n, 12), two more on a credential path, a run ending after more than eight other
    signals; no other process's signals change it. *)
Theorem score_history (procd_ep ntf : bool) (d : procd) (ms : list sync_msg) (pid : Z) :
  1 <= pid < 16 -> short_history (length ms) -> one_tenant pid 0 ms ->
  let '(ts, a', _) := sync_all procd_ep ntf anomaly_boot d ms in
  own_replies pid ts = verdicts [] (own pid ms)
  /\ ps_score (pid_at a' pid) = score (reverse (own pid ms)) /\ ps_applied_tier (pid_at a' pid) = tier_of (score (reverse (own pid ms))).
Proof.
  intros Hp Hb Ht. assert (holds (pid_at anomaly_boot pid) []) as Hh by (rewrite boot_pid; done).
  pose proof (sync_all_holds procd_ep ntf anomaly_boot d ms pid [] eq_refl Hp Hh Hb ltac:(by rewrite boot_pid)) as H.
  destruct (sync_all _ _ _ _ _) as [[ts a'] d']. destruct H as [E [Hs Hti _ _]]. rewrite app_nil_r in *. done.
Qed.

Definition writes (pid : Z) (n : nat) : list sync_msg := map (fun k => mk_sync pid ANOMALY_EV_WRITE 100 (Z.of_nat k + 1) 0) (seq 0 n).
Definition score_demo : list sync_msg :=
  writes 3 3 ++ [mk_sync 4 ANOMALY_EV_CRED_ACCESS 0 0 0; mk_sync 3 ANOMALY_EV_UNLINK 0 3 0; mk_sync 3 ANOMALY_EV_UNLINK 1 3 0; mk_sync 3 ANOMALY_EV_EXEC 0 3 0;
                 mk_sync 3 ANOMALY_EV_WRITE 0 4 0; mk_sync 3 ANOMALY_EV_CRED_ACCESS 0 4 0; mk_sync 3 ANOMALY_EV_UNLINK 0 4 0].

Lemma score_history_witness :
  let '(ts, a', _) := sync_all true true anomaly_boot procd_boot score_demo in
  own_replies 3 ts = [0; 0; 0; 0; 0; 0; 1; 0; 2] /\ ps_score (pid_at a' 3) = 3 + 2 + (4 + 2) + 8 + 1 + 15 + 6.
Proof.
  assert (one_tenant 3 0 score_demo) as Ht by (vm_compute; intuition discriminate).
  pose proof (score_history true true procd_boot score_demo 3 ltac:(lia) ltac:(vm_compute; reflexivity) Ht) as H.
  destruct (sync_all _ _ _ _ _) as [[ts a'] d']. destruct H as (->&->&_). split; vm_compute; reflexivity.
Defined.

(** ** Tenants that have written nothing *)

Section stale.
Context (procd_ep ntf : bool) (pid : Z) (Hp : 1 <= pid < 16).

Lemma stale_step a d m t a' d' :
  length a = ANOMALY_MAX_PIDS -> ps_applied_tier (pid_at a pid) = 2 -> (sm_pid m = pid -> sm_count m = 0) ->
  handle procd_ep ntf a d m = (t, a', d') -> (sm_pid m = pid -> t = 0 /\ d' = d) /\ ps_applied_tier (pid_at a' pid) = 2.
Proof using Hp.
  intros Hl Ha Hc E. destruct (decide (sm_pid m = pid)) as [Em|Em]; [|split; [done|]; by erewrite (sync_other _ _ a d m t a' d' pid); [|done|lia|..]].
  revert E. unfold handle, anomaly_handle_sync. rewrite Em, (Hc Em), (proj2 (scored pid)) by lia. simpl negb. cbv iota.
  rewrite (pid_at_upd a pid _ pid), decide_True by (done || lia). set (p1 := sync_tenant _ _ _).
  assert (ps_applied_tier p1 = 2) as H1 by (unfold p1, sync_tenant; cbn [Z.eqb negb andb]; destruct (sm_slot m =? 0); exact Ha).
  destruct (sync_burst _ _ p1) as [[bonus p2]|] eqn:Eb; [|intros [= <- <- <-]; by rewrite pid_at_upd, decide_True by (done || lia)].
  assert (ps_applied_tier p2 = 2) as H2.
  { revert Eb. unfold sync_burst. destruct (_ =? _); [intros [= _ <-]; by destruct (_ >? 8)|]. destruct (_ || _); [by intros [= _ <-]|done]. }
  unfold anomaly_score_fold. rewrite (proj2 (scored pid)) by lia. simpl negb. cbv iota. rewrite !pid_at_upd, !decide_True by (rewrite ?length_upd; done || lia).
  unfold score_fold. cbn [ps_applied_tier set_score]. rewrite H2.
  assert (forall s, ((if s >=? ANOMALY_T2_THRESHOLD then 2 else if s >=? ANOMALY_T1_THRESHOLD then 1 else 0) >? 2) = false) as -> by (intros s; by repeat destruct (_ >=? _)).
  intros [= <- <- <-]. rewrite !pid_at_upd, !decide_True by (rewrite ?length_upd; done || lia). done.
Qed.
End stale.

(** A process in a reused slot inherits the verdict on its predecessor: once the slot's
    applied tier is 2, no signal of a process that has written no file yet is answered with a
    tier, however many credentials it reads, programs it runs or files it deletes, and whatever
    other processes do meanwhile; only its first writes clear the slot. *)
Theorem stale_tenant_immune (procd_ep ntf : bool) (a : list pid_state) (d : procd) (ms : list sync_msg) (pid : Z) :
  length a = ANOMALY_MAX_PIDS -> 1 <= pid < 16 -> ps_applied_tier (pid_at a pid) = 2 ->
  Forall (fun m => sm_pid m = pid -> sm_count m = 0) ms ->
  Forall (fun t => t = 0) (own_replies pid (sync_all procd_ep ntf a d ms).1.1).
Proof.
  intros Hl Hp Ha Hm. revert a d Hl Ha. induction Hm as [|m ms Hc Hm IH]; intros a d Hl Ha; [constructor|]. cbn [sync_all].
  pose proof (handle_length procd_ep ntf a d m) as Hl'. destruct (handle procd_ep ntf a d m) as [[t a1] d1] eqn:E. cbn [fst snd] in Hl'.
  destruct (stale_step procd_ep ntf pid Hp a d m t a1 d1 Hl Ha Hc E) as [Ht Ha1]. specialize (IH a1 d1 ltac:(congruence) Ha1).
  destruct (sync_all procd_ep ntf a1 d1 ms) as [[ts a2] d2]. unfold own_replies in *. cbn [fst]. rewrite filter_cons. destruct (decide _) as [Em|Em]; [|done].
  cbn [fmap list_fmap]. constructor; [by apply Ht|done].
Qed.

Lemma stale_tenant_immune_witness :
  let '(_, a, d) := sync_all true true anomaly_boot procd_boot (map (fun k => mk_sync 3 ANOMALY_EV_CRED_ACCESS 0 5 0) (seq 0 3)) in
  ps_applied_tier (pid_at a 3) = 2
  /\ Forall (fun t => t = 0) (own_replies 3 (sync_all true true a d (map (fun k => mk_sync 3 ANOMALY_EV_CRED_ACCESS 0 0 0) (seq 0 100))).1.1).
Proof.
  destruct (sync_all _ _ _ _ _) as [[ts a] d] eqn:E. vm_compute in E. simplify_eq. split; [reflexivity|].
  apply stale_tenant_immune; [reflexivity|lia|reflexivity|]. apply Forall_forall. intros m Hm _. apply list_elem_of_In, in_map_iff in Hm as (k&<-&_). reflexivity.
Defined.
