(* ===== verification/LucasAbi.v ===== *)
(** * The syscall table of lucas

    include/lucas/syscalls.h and the dispatch table of src/lucas/dispatch.c
    ([lucas_dispatch], [is_safe_noop]).  A handler is the name of its C function. *)

From S2P Require Import Prelude.

(** ** Syscall numbers *)

Definition LX_SYS_read : Z := 0.
Definition LX_SYS_write : Z := 1.
Definition LX_SYS_open : Z := 2.
Definition LX_SYS_creat : Z := 85.
Definition LX_SYS_close : Z := 3.
Definition LX_SYS_stat : Z := 4.
Definition LX_SYS_fstat : Z := 5.
Definition LX_SYS_lstat : Z := 6.
Definition LX_SYS_lseek : Z := 8.
Definition LX_SYS_mmap : Z := 9.
Definition LX_SYS_munmap : Z := 11.
Definition LX_SYS_brk : Z := 12.
Definition LX_SYS_rt_sigaction : Z := 13.
Definition LX_SYS_rt_sigprocmask : Z := 14.
Definition LX_SYS_ioctl : Z := 16.
Definition LX_SYS_readv : Z := 19.
Definition LX_SYS_writev : Z := 20.
Definition LX_SYS_access : Z := 21.
Definition LX_SYS_pipe : Z := 22.
Definition LX_SYS_pipe2 : Z := 293.
Definition LX_SYS_sched_yield : Z := 24.
Definition LX_SYS_dup : Z := 32.
Definition LX_SYS_dup2 : Z := 33.
Definition LX_SYS_nanosleep : Z := 35.
Definition LX_SYS_dup3 : Z := 292.
Definition LX_SYS_close_range : Z := 436.
Definition LX_SYS_getpid : Z := 39.
Definition LX_SYS_clone : Z := 56.
Definition LX_SYS_fork : Z := 57.
Definition LX_SYS_vfork : Z := 58.
Definition LX_SYS_execve : Z := 59.
Definition LX_SYS_exit : Z := 60.
Definition LX_SYS_wait4 : Z := 61.
Definition LX_SYS_kill : Z := 62.
Definition LX_SYS_uname : Z := 63.
Definition LX_SYS_fcntl : Z := 72.
Definition LX_SYS_unlink : Z := 87.
Definition LX_SYS_getcwd : Z := 79.
Definition LX_SYS_readlink : Z := 89.
Definition LX_SYS_getrlimit : Z := 97.
Definition LX_SYS_sysinfo : Z := 99.
Definition LX_SYS_gettimeofday : Z := 96.
Definition LX_SYS_getuid : Z := 102.
Definition LX_SYS_getgid : Z := 104.
Definition LX_SYS_setuid : Z := 105.
Definition LX_SYS_setgid : Z := 106.
Definition LX_SYS_geteuid : Z := 107.
Definition LX_SYS_getegid : Z := 108.
Definition LX_SYS_arch_prctl : Z := 158.
Definition LX_SYS_getitimer : Z := 36.
Definition LX_SYS_setitimer : Z := 38.
Definition LX_SYS_sigaltstack : Z := 131.
Definition LX_SYS_set_tid_address : Z := 218.
Definition LX_SYS_clock_gettime : Z := 228.
Definition LX_SYS_exit_group : Z := 231.
Definition LX_SYS_newfstatat : Z := 262.
Definition LX_SYS_unlinkat : Z := 263.
Definition LX_SYS_getdents64 : Z := 217.
Definition LX_SYS_prlimit64 : Z := 302.
Definition LX_SYS_tkill : Z := 200.
Definition LX_SYS_tgkill : Z := 234.
Definition LX_SYS_getppid : Z := 110.
Definition LX_SYS_ptrace : Z := 101.
Definition LX_SYS_chdir : Z := 80.
Definition LX_SYS_fchdir : Z := 81.
Definition LX_SYS_set_robust_list : Z := 273.
Definition LX_SYS_getrandom : Z := 318.
Definition LX_SYS_memfd_create : Z := 319.
Definition LX_SYS_rseq : Z := 334.
Definition LX_SYS_getpgrp : Z := 111.
Definition LX_SYS_setpgid : Z := 109.
Definition LX_SYS_getpgid : Z := 121.
Definition LX_SYS_setsid : Z := 112.
Definition LX_SYS_getsid : Z := 124.
Definition LX_SYS_poll : Z := 7.
Definition LX_SYS_mprotect : Z := 10.
Definition LX_SYS_pread64 : Z := 17.
Definition LX_SYS_pwrite64 : Z := 18.
Definition LX_SYS_rt_sigreturn : Z := 15.
Definition LX_SYS_select : Z := 23.
Definition LX_SYS_openat : Z := 257.
Definition LX_SYS_pselect6 : Z := 270.
Definition LX_SYS_ppoll : Z := 271.
Definition LX_SYS_socket : Z := 41.
Definition LX_SYS_connect : Z := 42.
Definition LX_SYS_accept : Z := 43.
Definition LX_SYS_sendto : Z := 44.
Definition LX_SYS_recvfrom : Z := 45.
Definition LX_SYS_sendmsg : Z := 46.
Definition LX_SYS_recvmsg : Z := 47.
Definition LX_SYS_shutdown : Z := 48.
Definition LX_SYS_bind : Z := 49.
Definition LX_SYS_listen : Z := 50.
Definition LX_SYS_getsockname : Z := 51.
Definition LX_SYS_getpeername : Z := 52.
Definition LX_SYS_socketpair : Z := 53.
Definition LX_SYS_setsockopt : Z := 54.
Definition LX_SYS_getsockopt : Z := 55.
Definition LX_SYS_accept4 : Z := 288.
Definition LX_SYS_madvise : Z := 28.
Definition LX_SYS_ftruncate : Z := 77.
Definition LX_SYS_fallocate : Z := 285.
Definition LX_SYS_statfs : Z := 137.
Definition LX_SYS_fstatfs : Z := 138.
Definition LX_SYS_futex : Z := 202.
Definition LX_SYS_epoll_wait : Z := 232.
Definition LX_SYS_epoll_ctl : Z := 233.
Definition LX_SYS_get_robust_list : Z := 274.
Definition LX_SYS_getgroups : Z := 115.
Definition LX_SYS_eventfd2 : Z := 290.
Definition LX_SYS_epoll_create1 : Z := 291.
Definition LX_SYS_getcpu : Z := 309.
Definition LX_SYS_sendfile : Z := 40.
Definition LX_SYS_epoll_pwait : Z := 281.
Definition LX_SYS_gettid : Z := 186.
Definition LX_SYS_sched_getaffinity : Z := 204.
Definition LX_SYS_readlinkat : Z := 267.
Definition LX_SYS_sched_setparam : Z := 142.
Definition LX_SYS_sched_getparam : Z := 143.
Definition LX_SYS_sched_setscheduler : Z := 144.
Definition LX_SYS_sched_getscheduler : Z := 145.
Definition LX_SYS_sched_get_priority_max : Z := 146.
Definition LX_SYS_sched_get_priority_min : Z := 147.
Definition LX_SYS_sched_setaffinity : Z := 203.
Definition LX_SYS_mremap : Z := 25.
Definition LX_SYS_umask : Z := 95.
Definition LX_SYS_getrusage : Z := 98.
Definition LX_SYS_setrlimit : Z := 160.
Definition LX_SYS_clock_getres : Z := 229.
Definition LX_SYS_clock_nanosleep : Z := 230.
Definition LX_SYS_fchmod : Z := 91.
Definition LX_SYS_fchown : Z := 93.
Definition LX_SYS_mknod : Z := 133.
Definition LX_SYS_mknodat : Z := 259.
Definition LX_SYS_utimensat : Z := 280.
Definition LX_SYS_fsync : Z := 74.
Definition LX_SYS_fdatasync : Z := 75.
Definition LX_SYS_mlock : Z := 149.
Definition LX_SYS_munlock : Z := 150.
Definition LX_SYS_fadvise64 : Z := 221.
Definition LX_SYS_pledge : Z := 1000.
Definition LX_SYS_shm_open : Z := 1001.
Definition LX_SYS_shm_unlink : Z := 1002.
Definition LX_SYS_unveil : Z := 1003.
Definition LX_SYS_truncate : Z := 76.
Definition LX_SYS_rename : Z := 82.
Definition LX_SYS_mkdir : Z := 83.
Definition LX_SYS_mkdirat : Z := 258.
Definition LX_SYS_rmdir : Z := 84.
Definition LX_SYS_link : Z := 86.
Definition LX_SYS_symlink : Z := 88.
Definition LX_SYS_chmod : Z := 90.
Definition LX_SYS_chown : Z := 92.
Definition LX_SYS_lchown : Z := 94.
Definition LX_SYS_utime : Z := 132.
Definition LX_SYS_utimes : Z := 235.
Definition LX_SYS_fchownat : Z := 260.
Definition LX_SYS_futimesat : Z := 261.
Definition LX_SYS_renameat : Z := 264.
Definition LX_SYS_linkat : Z := 265.
Definition LX_SYS_symlinkat : Z := 266.
Definition LX_SYS_fchmodat : Z := 268.
Definition LX_SYS_faccessat : Z := 269.
Definition LX_SYS_renameat2 : Z := 316.
Definition LX_SYS_faccessat2 : Z := 439.
Definition LX_SYS_fchmodat2 : Z := 452.
Definition LX_SYS_flock : Z := 73.
Definition LX_SYS_setreuid : Z := 113.
Definition LX_SYS_setregid : Z := 114.
Definition LX_SYS_setgroups : Z := 116.
Definition LX_SYS_setresuid : Z := 117.
Definition LX_SYS_getresuid : Z := 118.
Definition LX_SYS_setresgid : Z := 119.
Definition LX_SYS_getresgid : Z := 120.
Definition LX_SYS_setfsuid : Z := 122.
Definition LX_SYS_setfsgid : Z := 123.
Definition LX_SYS_rt_sigpending : Z := 127.
Definition LX_SYS_rt_sigtimedwait : Z := 128.
Definition LX_SYS_rt_sigsuspend : Z := 130.
Definition LX_SYS_prctl : Z := 157.
Definition LX_SYS_waitid : Z := 247.
Definition LX_SYS_inotify_add_watch : Z := 254.
Definition LX_SYS_inotify_rm_watch : Z := 255.
Definition LX_SYS_timerfd_create : Z := 283.
Definition LX_SYS_timerfd_settime : Z := 286.
Definition LX_SYS_timerfd_gettime : Z := 287.
Definition LX_SYS_signalfd4 : Z := 289.
Definition LX_SYS_inotify_init1 : Z := 294.
Definition LX_SYS_recvmmsg : Z := 299.
Definition LX_SYS_sendmmsg : Z := 307.
Definition LX_SYS_membarrier : Z := 324.
Definition LX_SYS_statx : Z := 332.
Definition LX_SYS_clone3 : Z := 435.
Definition LX_SYS_pivot_root : Z := 155.
Definition LX_SYS_chroot : Z := 161.
Definition LX_SYS_settimeofday : Z := 164.
Definition LX_SYS_adjtimex : Z := 159.
Definition LX_SYS_clock_settime : Z := 227.
Definition LX_SYS_mount : Z := 165.
Definition LX_SYS_umount2 : Z := 166.
Definition LX_SYS_reboot : Z := 169.
Definition LX_SYS_sethostname : Z := 170.
Definition LX_SYS_setdomainname : Z := 171.
Definition LX_SYS_init_module : Z := 175.
Definition LX_SYS_delete_module : Z := 176.
Definition LX_SYS_setxattr : Z := 188.
Definition LX_SYS_lsetxattr : Z := 189.
Definition LX_SYS_fsetxattr : Z := 190.
Definition LX_SYS_getxattr : Z := 191.
Definition LX_SYS_lgetxattr : Z := 192.
Definition LX_SYS_fgetxattr : Z := 193.
Definition LX_SYS_listxattr : Z := 194.
Definition LX_SYS_llistxattr : Z := 195.
Definition LX_SYS_flistxattr : Z := 196.
Definition LX_SYS_removexattr : Z := 197.
Definition LX_SYS_lremovexattr : Z := 198.
Definition LX_SYS_fremovexattr : Z := 199.
Definition LX_SYS_add_key : Z := 248.
Definition LX_SYS_keyctl : Z := 250.
Definition LX_SYS_perf_event_open : Z := 298.
Definition LX_SYS_bpf : Z := 321.
Definition LX_SYS_finit_module : Z := 313.

(** ** The table *)

Definition safe_noop : list Z := [LX_SYS_madvise; LX_SYS_fadvise64; LX_SYS_sched_yield; LX_SYS_mlock; LX_SYS_munlock; LX_SYS_fsync; LX_SYS_fdatasync].
Definition is_safe_noop (sysno : Z) : bool := existsb (Z.eqb sysno) safe_noop.

(** The cases of the [switch], in order. *)
Definition dispatch_cases : list (Z * string) := [
  (LX_SYS_read, "lucas_sys_read");
  (LX_SYS_write, "lucas_sys_write");
  (LX_SYS_open, "lucas_sys_open");
  (LX_SYS_unlink, "lucas_sys_unlink");
  (LX_SYS_close, "lucas_sys_close");
  (LX_SYS_lseek, "lucas_sys_lseek");
  (LX_SYS_stat, "lucas_sys_stat");
  (LX_SYS_lstat, "lucas_sys_stat");
  (LX_SYS_fstat, "lucas_sys_fstat");
  (LX_SYS_newfstatat, "lucas_sys_newfstatat");
  (LX_SYS_unlinkat, "lucas_sys_unlinkat");
  (LX_SYS_getdents64, "lucas_sys_getdents64");
  (LX_SYS_access, "lucas_sys_access");
  (LX_SYS_readlink, "lucas_sys_readlink");
  (LX_SYS_ioctl, "lucas_sys_ioctl");
  (LX_SYS_rt_sigaction, "lucas_sys_rt_sigaction");
  (LX_SYS_rt_sigprocmask, "lucas_sys_rt_sigprocmask");
  (LX_SYS_sigaltstack, "lucas_sys_sigaltstack");
  (LX_SYS_set_tid_address, "lucas_sys_set_tid_address");
  (LX_SYS_prlimit64, "lucas_sys_prlimit64");
  (LX_SYS_setitimer, "lucas_sys_setitimer");
  (LX_SYS_getitimer, "lucas_sys_getitimer");
  (LX_SYS_getrlimit, "lucas_sys_getrlimit");
  (LX_SYS_sysinfo, "lucas_sys_sysinfo");
  (LX_SYS_mmap, "lucas_sys_mmap");
  (LX_SYS_brk, "lucas_sys_brk");
  (LX_SYS_sched_yield, "lucas_sys_sched_yield");
  (LX_SYS_getpid, "lucas_sys_getpid");
  (LX_SYS_exit, "lucas_sys_exit");
  (LX_SYS_uname, "lucas_sys_uname");
  (LX_SYS_arch_prctl, "lucas_sys_arch_prctl");
  (LX_SYS_exit_group, "lucas_sys_exit_group");
  (LX_SYS_getuid, "lucas_sys_getuid");
  (LX_SYS_getgid, "lucas_sys_getgid");
  (LX_SYS_setuid, "lucas_sys_setuid");
  (LX_SYS_setgid, "lucas_sys_setgid");
  (LX_SYS_geteuid, "lucas_sys_geteuid");
  (LX_SYS_getegid, "lucas_sys_getegid");
  (LX_SYS_gettimeofday, "lucas_sys_gettimeofday");
  (LX_SYS_clock_gettime, "lucas_sys_clock_gettime");
  (LX_SYS_fcntl, "lucas_sys_fcntl");
  (LX_SYS_munmap, "lucas_sys_munmap");
  (LX_SYS_readv, "lucas_sys_readv");
  (LX_SYS_writev, "lucas_sys_writev");
  (LX_SYS_clone, "lucas_sys_clone");
  (LX_SYS_fork, "lucas_sys_fork");
  (LX_SYS_vfork, "lucas_sys_fork");
  (LX_SYS_execve, "lucas_sys_execve");
  (LX_SYS_wait4, "lucas_sys_wait4");
  (LX_SYS_kill, "lucas_sys_kill");
  (LX_SYS_tkill, "lucas_sys_tkill");
  (LX_SYS_tgkill, "lucas_sys_tgkill");
  (LX_SYS_pipe, "lucas_sys_pipe");
  (LX_SYS_pipe2, "lucas_sys_pipe2");
  (LX_SYS_dup2, "lucas_sys_dup2");
  (LX_SYS_dup3, "lucas_sys_dup3");
  (LX_SYS_close_range, "lucas_sys_close_range");
  (LX_SYS_dup, "lucas_sys_dup");
  (LX_SYS_getppid, "lucas_sys_getppid");
  (LX_SYS_ptrace, "lucas_sys_ptrace");
  (LX_SYS_chdir, "lucas_sys_chdir");
  (LX_SYS_fchdir, "lucas_sys_fchdir");
  (LX_SYS_getcwd, "lucas_sys_getcwd");
  (LX_SYS_nanosleep, "lucas_sys_nanosleep");
  (LX_SYS_clock_nanosleep, "lucas_sys_nanosleep");
  (LX_SYS_set_robust_list, "lucas_sys_set_robust_list");
  (LX_SYS_getrandom, "lucas_sys_getrandom");
  (LX_SYS_rseq, "lucas_sys_rseq");
  (LX_SYS_getpgrp, "lucas_sys_getpgrp");
  (LX_SYS_setpgid, "lucas_sys_setpgid");
  (LX_SYS_getpgid, "lucas_sys_getpgid");
  (LX_SYS_setsid, "lucas_sys_setsid");
  (LX_SYS_getsid, "lucas_sys_getsid");
  (LX_SYS_mprotect, "lucas_sys_mprotect");
  (LX_SYS_rt_sigreturn, "lucas_sys_rt_sigreturn");
  (LX_SYS_select, "lucas_sys_select");
  (LX_SYS_poll, "lucas_sys_poll");
  (LX_SYS_pselect6, "lucas_sys_pselect6");
  (LX_SYS_ppoll, "lucas_sys_ppoll");
  (LX_SYS_openat, "lucas_sys_openat");
  (LX_SYS_creat, "lucas_sys_creat");
  (LX_SYS_pread64, "lucas_sys_pread64");
  (LX_SYS_pwrite64, "lucas_sys_pwrite64");
  (LX_SYS_socket, "lucas_sys_socket");
  (LX_SYS_connect, "lucas_sys_connect");
  (LX_SYS_accept, "lucas_sys_accept");
  (LX_SYS_accept4, "lucas_sys_accept4");
  (LX_SYS_sendto, "lucas_sys_sendto");
  (LX_SYS_recvfrom, "lucas_sys_recvfrom");
  (LX_SYS_sendmsg, "lucas_sys_sendmsg");
  (LX_SYS_sendmmsg, "lucas_sys_sendmmsg");
  (LX_SYS_recvmsg, "lucas_sys_recvmsg");
  (LX_SYS_shutdown, "lucas_sys_shutdown");
  (LX_SYS_bind, "lucas_sys_bind");
  (LX_SYS_listen, "lucas_sys_listen");
  (LX_SYS_getsockname, "lucas_sys_getsockname");
  (LX_SYS_getpeername, "lucas_sys_getpeername");
  (LX_SYS_socketpair, "lucas_sys_socketpair");
  (LX_SYS_setsockopt, "lucas_sys_setsockopt");
  (LX_SYS_getsockopt, "lucas_sys_getsockopt");
  (LX_SYS_futex, "lucas_sys_futex");
  (LX_SYS_epoll_create1, "lucas_sys_epoll_create1");
  (LX_SYS_epoll_ctl, "lucas_sys_epoll_ctl");
  (LX_SYS_epoll_wait, "lucas_sys_epoll_wait");
  (LX_SYS_statfs, "lucas_sys_statfs");
  (LX_SYS_fstatfs, "lucas_sys_fstatfs");
  (LX_SYS_eventfd2, "lucas_sys_eventfd2");
  (LX_SYS_getcpu, "lucas_sys_getcpu");
  (LX_SYS_madvise, "lucas_sys_madvise");
  (LX_SYS_ftruncate, "lucas_sys_ftruncate");
  (LX_SYS_fallocate, "lucas_sys_fallocate");
  (LX_SYS_memfd_create, "lucas_sys_memfd_create");
  (LX_SYS_get_robust_list, "lucas_sys_get_robust_list");
  (LX_SYS_getgroups, "lucas_sys_getgroups");
  (LX_SYS_mremap, "lucas_sys_mremap");
  (LX_SYS_clock_getres, "lucas_sys_clock_getres");
  (LX_SYS_umask, "lucas_sys_umask");
  (LX_SYS_setrlimit, "lucas_sys_setrlimit");
  (LX_SYS_getrusage, "lucas_sys_getrusage");
  (LX_SYS_gettid, "lucas_sys_gettid");
  (LX_SYS_readlinkat, "lucas_sys_readlinkat");
  (LX_SYS_sched_getaffinity, "lucas_sys_sched_getaffinity");
  (LX_SYS_sched_setaffinity, "lucas_sys_sched_setaffinity");
  (LX_SYS_sched_getscheduler, "lucas_sys_sched_getscheduler");
  (LX_SYS_sched_setscheduler, "lucas_sys_sched_setscheduler");
  (LX_SYS_sched_getparam, "lucas_sys_sched_getparam");
  (LX_SYS_sched_setparam, "lucas_sys_sched_setparam");
  (LX_SYS_sched_get_priority_max, "lucas_sys_sched_get_priority_max");
  (LX_SYS_sched_get_priority_min, "lucas_sys_sched_get_priority_min");
  (LX_SYS_pledge, "lucas_sys_pledge");
  (LX_SYS_unveil, "lucas_sys_unveil");
  (LX_SYS_shm_open, "lucas_sys_shm_open");
  (LX_SYS_shm_unlink, "lucas_sys_shm_unlink");
  (LX_SYS_fchmod, "lucas_sys_fchmod");
  (LX_SYS_fchown, "lucas_sys_fchown");
  (LX_SYS_utimensat, "lucas_sys_utimensat");
  (LX_SYS_mknod, "lucas_sys_mknod");
  (LX_SYS_mknodat, "lucas_sys_mknodat");
  (LX_SYS_mkdir, "lucas_sys_mkdir");
  (LX_SYS_mkdirat, "lucas_sys_mkdirat");
  (LX_SYS_rmdir, "lucas_sys_rmdir");
  (LX_SYS_rename, "lucas_sys_rename");
  (LX_SYS_renameat, "lucas_sys_renameat");
  (LX_SYS_renameat2, "lucas_sys_renameat2");
  (LX_SYS_chmod, "lucas_sys_chmod");
  (LX_SYS_fchmodat, "lucas_sys_fchmodat");
  (LX_SYS_fchmodat2, "lucas_sys_fchmodat");
  (LX_SYS_chown, "lucas_sys_chown");
  (LX_SYS_lchown, "lucas_sys_lchown");
  (LX_SYS_fchownat, "lucas_sys_fchownat");
  (LX_SYS_symlink, "lucas_sys_symlink");
  (LX_SYS_symlinkat, "lucas_sys_symlinkat");
  (LX_SYS_link, "lucas_sys_link");
  (LX_SYS_linkat, "lucas_sys_linkat");
  (LX_SYS_truncate, "lucas_sys_truncate");
  (LX_SYS_utime, "lucas_sys_utime");
  (LX_SYS_utimes, "lucas_sys_utimes");
  (LX_SYS_futimesat, "lucas_sys_futimesat");
  (LX_SYS_faccessat, "lucas_sys_faccessat");
  (LX_SYS_faccessat2, "lucas_sys_faccessat");
  (LX_SYS_statx, "lucas_sys_statx");
  (LX_SYS_prctl, "lucas_sys_prctl");
  (LX_SYS_clone3, "lucas_sys_clone3");
  (LX_SYS_setresuid, "lucas_sys_setresuid");
  (LX_SYS_setresgid, "lucas_sys_setresgid");
  (LX_SYS_setreuid, "lucas_sys_setreuid");
  (LX_SYS_setregid, "lucas_sys_setregid");
  (LX_SYS_setfsuid, "lucas_sys_setfsuid");
  (LX_SYS_setfsgid, "lucas_sys_setfsgid");
  (LX_SYS_setgroups, "lucas_sys_setgroups");
  (LX_SYS_getresuid, "lucas_sys_getresuid");
  (LX_SYS_getresgid, "lucas_sys_getresgid");
  (LX_SYS_membarrier, "lucas_sys_membarrier");
  (LX_SYS_flock, "lucas_sys_flock");
  (LX_SYS_init_module, "lucas_sys_init_module");
  (LX_SYS_finit_module, "lucas_sys_finit_module");
  (LX_SYS_delete_module, "lucas_sys_delete_module");
  (LX_SYS_mount, "lucas_sys_mount");
  (LX_SYS_umount2, "lucas_sys_umount2");
  (LX_SYS_chroot, "lucas_sys_chroot");
  (LX_SYS_pivot_root, "lucas_sys_pivot_root");
  (LX_SYS_setxattr, "lucas_sys_setxattr");
  (LX_SYS_lsetxattr, "lucas_sys_lsetxattr");
  (LX_SYS_fsetxattr, "lucas_sys_fsetxattr");
  (LX_SYS_getxattr, "lucas_sys_getxattr");
  (LX_SYS_lgetxattr, "lucas_sys_getxattr");
  (LX_SYS_fgetxattr, "lucas_sys_getxattr");
  (LX_SYS_listxattr, "lucas_sys_listxattr");
  (LX_SYS_llistxattr, "lucas_sys_listxattr");
  (LX_SYS_flistxattr, "lucas_sys_listxattr");
  (LX_SYS_removexattr, "lucas_sys_removexattr");
  (LX_SYS_lremovexattr, "lucas_sys_removexattr");
  (LX_SYS_fremovexattr, "lucas_sys_removexattr");
  (LX_SYS_bpf, "lucas_sys_bpf");
  (LX_SYS_perf_event_open, "lucas_sys_perf_event_open");
  (LX_SYS_keyctl, "lucas_sys_keyctl");
  (LX_SYS_add_key, "lucas_sys_add_key");
  (LX_SYS_sethostname, "lucas_sys_sethostname");
  (LX_SYS_setdomainname, "lucas_sys_setdomainname");
  (LX_SYS_reboot, "lucas_sys_reboot");
  (LX_SYS_settimeofday, "lucas_sys_settimeofday");
  (LX_SYS_clock_settime, "lucas_sys_clock_settime");
  (LX_SYS_adjtimex, "lucas_sys_adjtimex");
  (LX_SYS_sendfile, "lucas_sys_sendfile");
  (LX_SYS_epoll_pwait, "lucas_sys_epoll_pwait")
]%string.

Fixpoint switch {A} (sysno : Z) (cases : list (Z * A)) (otherwise : A) : A :=
  match cases with
  | [] => otherwise
  | (n, f) :: cases' => if sysno =? n then f else switch sysno cases' otherwise
  end.

Definition lucas_dispatch (sysno : Z) : string :=
  switch sysno dispatch_cases (if is_safe_noop sysno then "sys_noop"%string else "sys_enosys"%string).
