(* ===== verification/Lucas.v ===== *)
(** * The policy core of lucas

    src/lucas/path_matcher.c, pledge.c, unveil.c, functor.c, anomaly.c, the syscall
    gate of dispatch.c, and of handlers_fs.c the copying and resolving of client
    paths.  Strings are lists of bytes without their NUL.  [lucas_state] has the
    fields these parts use.  The client's memory is the parameter [client_page]:
    the frame lookup and mapping of the seL4 libraries as a partial function from
    page addresses to the 4096 bytes of the page. *)

From S2P Require Import Prelude Storage Wal WalReplay ProcdTable ProcdServer SotGuard Anomaly LucasAbi.

(** ** Path classes *)

Definition sotos_path_has_suffix (path suffix : list Z) : bool :=
  if (length path <? length suffix)%nat then false
  else bool_decide (drop (length path - length suffix) path = suffix).
Definition sotos_path_starts_with (path prefix : list Z) : bool := bool_decide (take (length prefix) path = prefix).

Definition sotos_path_is_persistence_sensitive (path : list Z) : bool :=
  if bool_decide (path = []) then false
  else if sotos_path_has_suffix path (STR ".service") then true
  else if sotos_path_has_suffix path (STR ".timer") then true
  else if sotos_path_has_suffix path (STR ".desktop") then true
  else if sotos_path_starts_with path (STR "/etc/cron.") then true
  else if sotos_path_starts_with path (STR "/etc/systemd/system/") then true
  else if sotos_path_starts_with path (STR "/root/.config/autostart/") then true
  else existsb (fun e => bool_decide (path = e))
         [STR "/etc/crontab"; STR "/etc/profile"; STR "/root/.bashrc"; STR "/root/.bash_profile"; STR "/root/.profile"].

Definition sotos_path_is_cred_sensitive (path : list Z) : bool :=
  if bool_decide (path = []) then false
  else if existsb (fun e => bool_decide (path = e)) [STR "/etc/shadow"; STR "/etc/gshadow"; STR "/etc/sudoers"] then true
  else if sotos_path_starts_with path (STR "/canary-") then true
  else if sotos_path_starts_with path (STR "/root/.ssh/") then true
  else if sotos_path_starts_with path (STR "/home/") && sotos_path_has_suffix path (STR "/credentials") then true
  else if sotos_path_has_suffix path (STR ".pem") then true
  else sotos_path_has_suffix path (STR ".key").

(** ** Pledge classes *)

Definition PLEDGE_STDIO : Z := Z.shiftl 1 0.
Definition PLEDGE_RPATH : Z := Z.shiftl 1 1.
Definition PLEDGE_WPATH : Z := Z.shiftl 1 2.
Definition PLEDGE_INET : Z := Z.shiftl 1 3.
Definition PLEDGE_UNIX : Z := Z.shiftl 1 4.
Definition PLEDGE_PROC : Z := Z.shiftl 1 5.
Definition PLEDGE_EXEC : Z := Z.shiftl 1 6.
Definition PLEDGE_FATTR : Z := Z.shiftl 1 7.
Definition PLEDGE_VMINFO : Z := Z.shiftl 1 8.
Definition PLEDGE_TTY : Z := Z.shiftl 1 9.
Definition PLEDGE_LUCAS : Z := Z.shiftl 1 10.
Definition PLEDGE_SOTFS : Z := Z.shiftl 1 11.
Definition PLEDGE_SETID : Z := Z.shiftl 1 12.
Definition PLEDGE_ALL : Z := 0xFFFFFFFFFFFFFFFF.

Definition bits (l : list Z) : Z := fold_left Z.lor l 0.
Definition PLEDGE_T_TRUSTED_ROOT : Z := PLEDGE_ALL.
Definition PLEDGE_T_SHELL : Z := bits [PLEDGE_STDIO; PLEDGE_RPATH; PLEDGE_WPATH; PLEDGE_PROC; PLEDGE_EXEC; PLEDGE_TTY].
Definition PLEDGE_T_DAEMON_NETWORK : Z := bits [PLEDGE_STDIO; PLEDGE_INET; PLEDGE_RPATH].
Definition PLEDGE_T_CANARY_TARGET : Z := bits [PLEDGE_STDIO; PLEDGE_RPATH].
Definition PLEDGE_T_PYTHON_SANDBOX : Z := bits [PLEDGE_STDIO; PLEDGE_RPATH; PLEDGE_VMINFO].
Definition PLEDGE_T_COMPUTE_ONLY : Z := bits [PLEDGE_STDIO; PLEDGE_RPATH].
Definition PLEDGE_T_PIPELINE_STAGE : Z := bits [PLEDGE_STDIO; PLEDGE_RPATH; PLEDGE_PROC; PLEDGE_VMINFO].
Definition PLEDGE_T_NET_CLIENT : Z := bits [PLEDGE_STDIO; PLEDGE_RPATH; PLEDGE_INET; PLEDGE_VMINFO].

Definition among (sysno : Z) (l : list Z) : bool := existsb (Z.eqb sysno) l.

Definition pledge_category (sysno : Z) : Z :=
  if among sysno [LX_SYS_read; LX_SYS_write; LX_SYS_close; LX_SYS_lseek; LX_SYS_dup; LX_SYS_dup2; LX_SYS_dup3; LX_SYS_pipe; LX_SYS_pipe2;
                  LX_SYS_ioctl; LX_SYS_fcntl; LX_SYS_exit; LX_SYS_exit_group; LX_SYS_writev] then PLEDGE_STDIO
  else if among sysno [LX_SYS_open; LX_SYS_openat; LX_SYS_stat; LX_SYS_fstat; LX_SYS_lstat; LX_SYS_newfstatat; LX_SYS_readlink;
                       LX_SYS_readlinkat; LX_SYS_access; LX_SYS_getcwd; LX_SYS_getdents64] then PLEDGE_RPATH
  else if among sysno [LX_SYS_socket; LX_SYS_connect; LX_SYS_accept; LX_SYS_accept4; LX_SYS_bind; LX_SYS_listen; LX_SYS_sendto; LX_SYS_recvfrom;
                       LX_SYS_sendmsg; LX_SYS_recvmsg; LX_SYS_shutdown; LX_SYS_getsockname; LX_SYS_getpeername; LX_SYS_socketpair;
                       LX_SYS_setsockopt; LX_SYS_getsockopt] then PLEDGE_INET
  else if among sysno [LX_SYS_fork; LX_SYS_clone; LX_SYS_wait4; LX_SYS_kill; LX_SYS_tkill; LX_SYS_tgkill] then PLEDGE_PROC
  else if among sysno [LX_SYS_execve] then PLEDGE_EXEC
  else if among sysno [LX_SYS_mmap; LX_SYS_munmap; LX_SYS_mprotect; LX_SYS_brk] then PLEDGE_VMINFO
  else if among sysno [LX_SYS_setuid; LX_SYS_setgid] then PLEDGE_SETID
  else if among sysno [LX_SYS_pledge] then PLEDGE_LUCAS
  else 0.

Definition LX_O_ACCMODE : Z := 3.

Definition pledge_check_args (sysno : Z) (args : list Z) : Z :=
  if sysno =? LX_SYS_open then if Z.land (args.[1%nat, 0]) LX_O_ACCMODE =? 0 then PLEDGE_RPATH else PLEDGE_WPATH
  else if sysno =? LX_SYS_openat then if Z.land (args.[2%nat, 0]) LX_O_ACCMODE =? 0 then PLEDGE_RPATH else PLEDGE_WPATH
  else pledge_category sysno.

(** ** Promise strings *)

Definition pledge_class_table : list (list Z * Z) :=
  [(STR "stdio", PLEDGE_STDIO); (STR "rpath", PLEDGE_RPATH); (STR "wpath", PLEDGE_WPATH); (STR "inet", PLEDGE_INET); (STR "unix", PLEDGE_UNIX);
   (STR "proc", PLEDGE_PROC); (STR "exec", PLEDGE_EXEC); (STR "setid", PLEDGE_SETID); (STR "fattr", PLEDGE_FATTR); (STR "vminfo", PLEDGE_VMINFO);
   (STR "tty", PLEDGE_TTY); (STR "lucas", PLEDGE_LUCAS); (STR "sotfs", PLEDGE_SOTFS)].

Definition pledge_is_sep (c : Z) : bool := (c =? 32) || (c =? 9) || (c =? 44) || (c =? 10) || (c =? 13).

Definition to_lower (c : Z) : Z := if (65 <=? c) && (c <=? 90) then c + 32 else c.

Fixpoint pledge_token_eq (tok name : list Z) : bool :=
  match tok, name with
  | [], _ => bool_decide (name = [])
  | _, [] => false
  | a :: tok', b :: name' => if negb (to_lower a =? b) then false else pledge_token_eq tok' name'
  end.

Fixpoint class_bit (tok : list Z) (table : list (list Z * Z)) : Z :=
  match table with
  | [] => 0
  | (name, bit) :: table' => if pledge_token_eq tok name then bit else class_bit tok table'
  end.

(** The loop over tokens; every turn consumes a byte, so the length of the string is fuel. *)
Fixpoint parse_loop (fuel : nat) (p : list Z) (mask : Z) : Z :=
  match fuel with
  | O => mask
  | S fuel' =>
      let p := (span pledge_is_sep p).2 in
      if bool_decide (p = []) then mask
      else let '(tok, p) := span (fun c => negb (pledge_is_sep c)) p in
           parse_loop fuel' p (Z.lor mask (class_bit tok pledge_class_table))
  end.
Definition pledge_parse (promise_str : list Z) : Z := parse_loop (S (length promise_str)) promise_str 0.

Definition pledge_template_table : list (list Z * Z) :=
  [(STR "none", PLEDGE_ALL); (STR "T_TRUSTED_ROOT", PLEDGE_T_TRUSTED_ROOT); (STR "T_SHELL", PLEDGE_T_SHELL); (STR "T_DAEMON_NETWORK", PLEDGE_T_DAEMON_NETWORK);
   (STR "T_CANARY_TARGET", PLEDGE_T_CANARY_TARGET); (STR "T_PYTHON_SANDBOX", PLEDGE_T_PYTHON_SANDBOX); (STR "T_COMPUTE_ONLY", PLEDGE_T_COMPUTE_ONLY);
   (STR "T_PIPELINE_STAGE", PLEDGE_T_PIPELINE_STAGE); (STR "T_NET_CLIENT", PLEDGE_T_NET_CLIENT)].

(** The mask and [*ok]. *)
Definition lucas_pledge_template_from_name (name : option (list Z)) : Z * bool :=
  match name with
  | None => (PLEDGE_ALL, true)
  | Some n => match find (fun e => bool_decide (n = e.1)) pledge_template_table with Some e => (e.2, true) | None => (PLEDGE_ALL, false) end
  end.

Definition pledge_class_name (single_bit : Z) : list Z :=
  if single_bit =? 0 then STR "?"
  else if negb (Z.land single_bit (single_bit - 1) =? 0) then STR "?"
  else match find (fun e => e.2 =? single_bit) pledge_class_table with Some e => e.1 | None => STR "?" end.

(** ** Functors and the state of a sotbox *)

Definition FUNCTOR_TIER_EGRESS : Z := 3.
Record lucas_functor := mk_lf { lf_name : string; lf_tier : Z; lf_writes_silenced : bool; lf_is_isolated : bool; lf_is_egress : bool }.
Definition LUCAS_F_0 : lucas_functor := mk_lf "F_0" 0 false false false.
Definition LUCAS_F_1 : lucas_functor := mk_lf "F_1" 1 true false false.
Definition LUCAS_F_2 : lucas_functor := mk_lf "F_2" 2 false true false.
Definition LUCAS_F_0E : lucas_functor := mk_lf "F_0e" FUNCTOR_TIER_EGRESS false false true.

Definition lucas_functor_for_tier (tier : Z) : lucas_functor :=
  if tier =? 0 then LUCAS_F_0 else if tier =? 1 then LUCAS_F_1 else if tier =? 2 then LUCAS_F_2
  else if tier =? FUNCTOR_TIER_EGRESS then LUCAS_F_0E else LUCAS_F_0.

Definition UNVEIL_R : Z := 1.
Definition UNVEIL_W : Z := 2.
Definition UNVEIL_X : Z := 4.
Definition LUCAS_UNVEIL_MAX_ENTRIES : nat := 16.
Definition LUCAS_UNVEIL_PATH_MAX : nat := 96.

(** The entries in use; [count] is their number. *)
Record lucas_unveil_state := mk_uv { uv_entries : list (list Z * Z); uv_locked : bool; uv_initialized : bool }.
Definition no_unveil : lucas_unveil_state := mk_uv [] false false.

Record lucas_state := mk_lucas {
  l_synthetic_pid : Z; l_slot_index : Z; l_procd_slot : Z; l_cwd : list Z;
  l_tier : Z; l_trusted : bool; l_functor : lucas_functor;
  l_write_count : Z; l_anomaly_triggers : Z; l_curvature_alerts : Z;
  l_pledge : Z; l_pledge_violations : Z; l_unveil : lucas_unveil_state }.

Definition with_tier_functor (tier : Z) (f : lucas_functor) (st : lucas_state) : lucas_state :=
  mk_lucas (l_synthetic_pid st) (l_slot_index st) (l_procd_slot st) (l_cwd st) tier (l_trusted st) f
    (l_write_count st) (l_anomaly_triggers st) (l_curvature_alerts st) (l_pledge st) (l_pledge_violations st) (l_unveil st).
Definition with_counters (writes triggers alerts : Z) (st : lucas_state) : lucas_state :=
  mk_lucas (l_synthetic_pid st) (l_slot_index st) (l_procd_slot st) (l_cwd st) (l_tier st) (l_trusted st) (l_functor st)
    writes triggers alerts (l_pledge st) (l_pledge_violations st) (l_unveil st).
Definition with_pledge (pledge violations : Z) (st : lucas_state) : lucas_state :=
  mk_lucas (l_synthetic_pid st) (l_slot_index st) (l_procd_slot st) (l_cwd st) (l_tier st) (l_trusted st) (l_functor st)
    (l_write_count st) (l_anomaly_triggers st) (l_curvature_alerts st) pledge violations (l_unveil st).
Definition with_unveil (uv : lucas_unveil_state) (st : lucas_state) : lucas_state :=
  mk_lucas (l_synthetic_pid st) (l_slot_index st) (l_procd_slot st) (l_cwd st) (l_tier st) (l_trusted st) (l_functor st)
    (l_write_count st) (l_anomaly_triggers st) (l_curvature_alerts st) (l_pledge st) (l_pledge_violations st) uv.

(** ** Client strings and paths *)

Definition LUCAS_PATH_MAX : nat := 256.

Section client.
Context (client_page : Z -> option (list Z)).

(** The inner loop: at most [n] bytes, stopping at a NUL; whether one was met. *)
Fixpoint copy_bytes (src : list Z) (n : nat) {struct n} : list Z * bool :=
  match n, src with
  | O, _ => ([], false)
  | _, [] => ([], false)
  | S n', c :: src' => if c =? 0 then ([], true) else let '(s, nul) := copy_bytes src' n' in (c :: s, nul)
  end.

(** The walk over pages; every turn copies a byte, so [buf_size] is fuel. *)
Fixpoint copy_pages (fuel : nat) (client_vaddr : Z) (buf_size : nat) (buf : list Z) : option (list Z) :=
  match fuel with
  | O => None
  | S fuel' =>
      let out := length buf in
      if (out <? buf_size - 1)%nat then
        let addr := u64 (client_vaddr + Z.of_nat out) in
        let page_base := Z.land addr (Z.lnot 0xFFF) in
        let off_in_page := addr - page_base in
        let in_page_remaining := Z.to_nat (4096 - off_in_page) in
        let in_page_remaining := if (buf_size - 1 - out <? in_page_remaining)%nat then (buf_size - 1 - out)%nat else in_page_remaining in
        match client_page page_base with
        | None => None
        | Some local =>
            let '(s, nul) := copy_bytes (drop (Z.to_nat off_in_page) local) in_page_remaining in
            if nul then Some (buf ++ s) else copy_pages fuel' client_vaddr buf_size (buf ++ s)
        end
      else Some buf
  end.

(** The string left in [buf]; [None] is the result -1. *)
Definition lucas_copy_cstr_from_client (client_vaddr : Z) (buf_size : nat) : option (list Z) :=
  if (buf_size =? 0)%nat then None else copy_pages buf_size client_vaddr buf_size [].
End client.

Definition SLASH : Z := 47.
Definition DOT : Z := 46.

(** The buffer [tmp]: the working directory, a slash and the input, cut to its size. *)
Definition absolute_of (cwd inp : list Z) : list Z :=
  let size := (LUCAS_PATH_MAX * 2)%nat in
  let cwd := if bool_decide (cwd = []) then [SLASH] else cwd in
  let tmp := if bool_decide (head inp = Some SLASH) then []
             else let t := take (size - 2) cwd in
                  if bool_decide (last t = Some SLASH) then t else t ++ [SLASH] in
  take (size - 1) (tmp ++ inp).

Definition MAX_SEGS : nat := 64.

(** The walk over [tmp]: [segs] is the stack of segments, newest first. *)
Fixpoint norm_loop (fuel : nat) (tmp : list Z) (segs : list (list Z)) : list (list Z) :=
  match fuel with
  | O => segs
  | S fuel' =>
      if bool_decide (tmp = []) || negb (length segs <? MAX_SEGS)%nat then segs
      else
        let tmp := (span (fun c => c =? SLASH) tmp).2 in
        if bool_decide (tmp = []) then segs
        else
          let '(seg, tmp) := span (fun c => negb (c =? SLASH)) tmp in
          if bool_decide (seg = [DOT]) then norm_loop fuel' tmp segs
          else if bool_decide (seg = [DOT; DOT]) then norm_loop fuel' tmp (tail segs)
          else norm_loop fuel' tmp (seg :: segs)
  end.

(** The result, of at most [outsz - 1] bytes; the code writes nothing when [outsz] is 0. *)
Definition lucas_resolve_path (cwd inp : list Z) (outsz : nat) : list Z :=
  let tmp := absolute_of cwd inp in
  let segs := reverse (norm_loop (S (length tmp)) tmp []) in
  if bool_decide (segs = []) then (if (2 <=? outsz)%nat then [SLASH] else [])
  else take (outsz - 1) (concat (map (fun s => SLASH :: s) segs)).

(** ** pledge(2) *)

Definition lucas_sys_pledge (client_page : Z -> option (list Z)) (st : lucas_state) (promise_vaddr : Z) : Z * lucas_state :=
  if promise_vaddr =? 0 then (0, st)
  else match lucas_copy_cstr_from_client client_page promise_vaddr 64 with
       | None => (-14, st)
       | Some promise_buf =>
           let requested := pledge_parse promise_buf in
           if requested =? 0 then (-22, st)
           else
             let current := l_pledge st in
             let is_first_call := current =? PLEDGE_ALL in
             if negb is_first_call && negb (Z.land requested (Z.lnot current) =? 0) then (-1, st)
             else (0, with_pledge (if is_first_call then requested else Z.land current requested) (l_pledge_violations st) st)
       end.

(** ** unveil(2) *)

Definition perm_bit (c : Z) : Z :=
  let c := to_lower c in
  if c =? 114 then UNVEIL_R else if c =? 119 then UNVEIL_W else if c =? 120 then UNVEIL_X else if c =? 99 then UNVEIL_W else 0.
Definition unveil_parse_perms (s : list Z) : Z := fold_left (fun mask c => Z.lor mask (perm_bit c)) s 0.

(** The conditions of the loop body: entry path [e] applies to [query]. *)
Definition unveil_matches (e query : list Z) : bool :=
  let elen := length e in
  let qlen := length query in
  negb ((elen =? 0)%nat || (qlen <? elen)%nat)
  && bool_decide (take elen query = e)
  && ((elen =? qlen)%nat || (query.[elen, 0] =? SLASH) || (e.[(elen - 1)%nat, 0] =? SLASH)).

Fixpoint match_loop (entries : list (list Z * Z)) (i : nat) (query : list Z) (best : option nat) (best_len : nat) : option nat :=
  match entries with
  | [] => best
  | e :: entries' =>
      if unveil_matches e.1 query && (best_len <? length e.1)%nat then match_loop entries' (S i) query (Some i) (length e.1)
      else match_loop entries' (S i) query best best_len
  end.
Definition unveil_find_match (uv : lucas_unveil_state) (query : list Z) : option nat := match_loop (uv_entries uv) 0 query None 0.

Definition entry_at (uv : lucas_unveil_state) (i : nat) : list Z * Z := (uv_entries uv).[i, ([], 0)].

Definition lucas_unveil_check (st : lucas_state) (path : list Z) (want_perms : Z) : Z :=
  let uv := l_unveil st in
  if negb (uv_initialized uv) then 0
  else if want_perms =? 0 then 0
  else match unveil_find_match uv path with
       | None => -13
       | Some idx => if negb (Z.land want_perms (entry_at uv idx).2 =? want_perms) then -13 else 0
       end.

Definition unveil_find_exact (uv : lucas_unveil_state) (path : list Z) : option nat :=
  first_below (fun i => bool_decide ((entry_at uv i).1 = path)) (length (uv_entries uv)).
Definition unveil_copy_path (src : list Z) : list Z := take (LUCAS_UNVEIL_PATH_MAX - 1) src.

Definition lucas_sys_unveil (client_page : Z -> option (list Z)) (st : lucas_state) (path_vaddr perms_vaddr : Z) : Z * lucas_state :=
  let uv := l_unveil st in
  if (path_vaddr =? 0) && (perms_vaddr =? 0) then (0, with_unveil (mk_uv (uv_entries uv) true true) st)
  else if uv_locked uv then (-1, st)
  else if (path_vaddr =? 0) || (perms_vaddr =? 0) then (-22, st)
  else match lucas_copy_cstr_from_client client_page path_vaddr LUCAS_UNVEIL_PATH_MAX with
       | None => (-14, st)
       | Some path_buf =>
           match lucas_copy_cstr_from_client client_page perms_vaddr 16 with
           | None => (-14, st)
           | Some perms_buf =>
               if bool_decide (path_buf = []) then (-22, st)
               else
                 let new_perms := unveil_parse_perms perms_buf in
                 match unveil_find_exact uv path_buf with
                 | Some idx =>
                     let cur := (entry_at uv idx).2 in
                     if negb (Z.land new_perms (Z.lnot cur) =? 0) then (-1, st)
                     else (0, with_unveil (mk_uv (<[idx := ((entry_at uv idx).1, Z.land cur new_perms)]> (uv_entries uv)) (uv_locked uv) true) st)
                 | None =>
                     if (LUCAS_UNVEIL_MAX_ENTRIES <=? length (uv_entries uv))%nat then (-1, st)
                     else (0, with_unveil (mk_uv (uv_entries uv ++ [(unveil_copy_path path_buf, new_perms)]) (uv_locked uv) true) st)
                 end
           end
       end.

(** ** Tiers, the anomaly process and procd *)

(** What one sotbox works with: its state, the anomaly process, procd, the event bus with its
    log, and the static counters of the producers of events. *)
Record box {B : Type} := mk_box {
  bx_st : lucas_state; bx_an : anomaly; bx_pd : procd; bx_bus : bus; bx_wal : wal B;
  sg_pledge_seq : Z; sg_anomaly_monotonic : Z; g_sg_tcp_open_ts : Z; g_sg_net_send_ts : Z; sg_msyscall_seq : Z; sg_graph_curvature_monotonic : Z }.
Arguments box : clear implicits.
Arguments mk_box {B}.

(** How the processes were wired at boot: the endpoints of orch to procd (badged) and to the
    anomaly process, those of the anomaly process, procd's notification and the log of the bus. *)
Record wiring := mk_wiring { w_set_tier_ep : bool; w_anomaly_ep : bool; w_orch_ep : bool; w_procd_ep : bool; w_ntf : bool; w_wal_attached : bool }.

Section box.
Context {B : Type} `{StorageOps B} (w : wiring).
Implicit Types (x : box B).

Definition with_st (st : lucas_state) x : box B :=
  mk_box st (bx_an x) (bx_pd x) (bx_bus x) (bx_wal x) (sg_pledge_seq x) (sg_anomaly_monotonic x) (g_sg_tcp_open_ts x) (g_sg_net_send_ts x) (sg_msyscall_seq x) (sg_graph_curvature_monotonic x).
Definition with_servers (a : anomaly) (d : procd) x : box B :=
  mk_box (bx_st x) a d (bx_bus x) (bx_wal x) (sg_pledge_seq x) (sg_anomaly_monotonic x) (g_sg_tcp_open_ts x) (g_sg_net_send_ts x) (sg_msyscall_seq x) (sg_graph_curvature_monotonic x).
Definition with_bus (b : bus) (l : wal B) x : box B :=
  mk_box (bx_st x) (bx_an x) (bx_pd x) b l (sg_pledge_seq x) (sg_anomaly_monotonic x) (g_sg_tcp_open_ts x) (g_sg_net_send_ts x) (sg_msyscall_seq x) (sg_graph_curvature_monotonic x).
Definition with_seqs (pledge mono tcp send msys curv : Z) x : box B :=
  mk_box (bx_st x) (bx_an x) (bx_pd x) (bx_bus x) (bx_wal x) pledge mono tcp send msys curv.

(** [(void)sotguard_emit(&ev)] of a zeroed event with its union image. *)
Definition emit (pid type ts : Z) (detail : list Z) x : box B :=
  let '(_, b, l) := sotguard_emit (bx_bus x) (w_wal_attached w) (bx_wal x) (mk_sgev (u32 pid) type 0 ts (take 80 (detail ++ replicate 80 0))) in
  with_bus b l x.

Definition orch_procd_set_tier (d : procd) (target_slot new_tier : Z) : Z * procd :=
  if negb (w_set_tier_ep w) || (target_slot =? 0) then (-1, d) else call_set_tier d (w_ntf w) target_slot new_tier.

Definition lucas_set_tier (tier : Z) x : box B :=
  let st := bx_st x in
  if l_trusted st && (tier >? 0) then x
  else
    let x := with_st (with_tier_functor tier (lucas_functor_for_tier tier) st) x in
    if negb (l_procd_slot st =? 0) then with_servers (bx_an x) (orch_procd_set_tier (bx_pd x) (l_procd_slot st) (u32 tier)).2 x else x.

(** [seL4_Call] on the anomaly endpoint: the registers of the reply. *)
Definition call_anomaly (mrs : list Z) x : list Z * box B :=
  let '(reply, a, d) := anomaly_turn (w_orch_ep w) (w_procd_ep w) (w_ntf w) (bx_an x) (bx_pd x) ORCH_OP_ANOMALY_EVENT (fun i => mrs.[i, 0]) in
  (reply, with_servers a d x).

Definition anomaly_forward_sync (kind magnitude : Z) x : Z * box B :=
  let st := bx_st x in
  if negb (w_anomaly_ep w) || (l_synthetic_pid st <? 1) then (-1, x)
  else let '(reply, x) := call_anomaly [l_synthetic_pid st; kind; magnitude; l_write_count st; l_procd_slot st] x in
       (i32 (reply.[0%nat, l_synthetic_pid st]), x).

Definition anomaly_apply_reply_tier (target : Z) x : box B :=
  let st := bx_st x in
  if target >? l_tier st then
    lucas_set_tier target (with_st (with_counters (l_write_count st) (u32 (l_anomaly_triggers st + 1)) (l_curvature_alerts st) st) x)
  else x.

(** Forward an event and apply the tier of the reply. *)
Definition forward_and_apply (kind magnitude : Z) x : box B :=
  let '(target, x) := anomaly_forward_sync kind magnitude x in
  if target >? 0 then anomaly_apply_reply_tier target x else x.

Definition anomaly_on_write (fd bytes : Z) x : box B :=
  if (fd =? 1) || (fd =? 2) then x
  else
    let st := bx_st x in
    let x := with_st (with_counters (u32 (l_write_count st + 1)) (l_anomaly_triggers st) (l_curvature_alerts st) st) x in
    let x := with_seqs (sg_pledge_seq x) (u64 (sg_anomaly_monotonic x + 1)) (g_sg_tcp_open_ts x) (g_sg_net_send_ts x) (sg_msyscall_seq x) (sg_graph_curvature_monotonic x) x in
    let x := emit (l_synthetic_pid st) SG_EV_FS_WRITE (sg_anomaly_monotonic x) (le_bytes 8 fd ++ le_bytes 8 bytes) x in
    if l_trusted (bx_st x) then x else forward_and_apply ANOMALY_EV_WRITE bytes x.

(** The signals of the open, unlink and execve handlers. *)
Definition open_cred_signal (path : list Z) x : box B :=
  if sotos_path_is_cred_sensitive path then
    if lf_is_egress (l_functor (bx_st x)) then x else forward_and_apply ANOMALY_EV_CRED_ACCESS 0 x
  else x.
Definition unlink_signal (path : list Z) x : box B :=
  forward_and_apply ANOMALY_EV_UNLINK (if sotos_path_is_cred_sensitive path then 1 else 0) x.
Definition exec_signal x : box B := forward_and_apply ANOMALY_EV_EXEC 0 x.

Definition SOTBOX_MAX_SLOTS : Z := 8.

(** The promotion of the sotbox in slot [pid - 1]; here the one of [x]. *)
Definition orch_anomaly_apply_promote (pid target_tier : Z) x : box B :=
  if (target_tier <=? 0) || (pid <? 1) || (pid >? SOTBOX_MAX_SLOTS) then x
  else if l_slot_index (bx_st x) =? pid - 1 then anomaly_apply_reply_tier target_tier x else x.

(** The reply-driven promotions of the producers outside the syscall handlers. *)
Definition tcp_audit_open (origin_pid remote_ip_be remote_port_be local_port_be : Z) x : box B :=
  let x :=
    if w_anomaly_ep w then
      let '(reply, x) := call_anomaly [origin_pid; ANOMALY_EV_TCP_OPEN; remote_ip_be; Z.lor (u32 (Z.shiftl remote_port_be 16)) local_port_be] x in
      let promote_tier := match reply with [] => 0 | t :: _ => i32 t end in
      if (promote_tier >? 0) && (origin_pid >=? 1) then orch_anomaly_apply_promote (u32 origin_pid) promote_tier x else x
    else x in
  let x := with_seqs (sg_pledge_seq x) (sg_anomaly_monotonic x) (u64 (g_sg_tcp_open_ts x + 1)) (g_sg_net_send_ts x) (sg_msyscall_seq x) (sg_graph_curvature_monotonic x) x in
  emit origin_pid SG_EV_NET_CONNECT (g_sg_tcp_open_ts x) (le_bytes 4 remote_ip_be ++ le_bytes 2 remote_port_be) x.

(** The pre-commit hook of a UDP send: the decision. *)
Definition udp_precommit (pid dst_ip_be dst_port_be pkt_len : Z) x : Z * box B :=
  let '(decision, x) :=
    if w_anomaly_ep w then
      let '(reply, x) := call_anomaly [pid; ANOMALY_EV_NET_PRECOMMIT; dst_ip_be; pkt_len] x in
      let decision := match reply with [] => 0 | t :: _ => i32 t end in
      let promote_tier := match reply with _ :: t :: _ => i32 t | _ => 0 end in
      (decision, if promote_tier >? 0 then orch_anomaly_apply_promote pid promote_tier x else x)
    else (0, x) in
  let x := with_seqs (sg_pledge_seq x) (sg_anomaly_monotonic x) (g_sg_tcp_open_ts x) (u64 (g_sg_net_send_ts x + 1)) (sg_msyscall_seq x) (sg_graph_curvature_monotonic x) x in
  (decision, emit pid SG_EV_NET_SEND (g_sg_net_send_ts x) (le_bytes 4 dst_ip_be ++ le_bytes 2 dst_port_be ++ le_bytes 2 0 ++ le_bytes 8 pkt_len) x).

(** The first syscall of an untrusted static box from outside its text. *)
Definition msyscall_first_hit (syscall_site sysno : Z) x : box B :=
  let pid := l_synthetic_pid (bx_st x) in
  let x :=
    if w_anomaly_ep w then
      let '(reply, x) := call_anomaly [pid; ANOMALY_EV_MSYSCALL; syscall_site; sysno] x in
      let pt := match reply with [] => 0 | t :: _ => i32 t end in
      if pt >? 0 then orch_anomaly_apply_promote (u32 pid) pt x else x
    else x in
  let x := with_seqs (sg_pledge_seq x) (sg_anomaly_monotonic x) (g_sg_tcp_open_ts x) (g_sg_net_send_ts x) (u64 (sg_msyscall_seq x + 1)) (sg_graph_curvature_monotonic x) x in
  emit pid SG_EV_FAULT_SYSCALL (sg_msyscall_seq x) (le_bytes 4 sysno ++ replicate 4 0 ++ le_bytes 8 syscall_site) x.

(** The notification of a curvature rule; the current caller is the sotbox of [x]. *)
Definition sotfs_graph_curvature_anomaly_notify (pid rule_kind severity : Z) x : box B :=
  if negb (w_anomaly_ep w) then x
  else
    let st := bx_st x in
    let x := if negb (pid =? 0) && (u32 (l_synthetic_pid st) =? pid)
             then with_st (with_counters (l_write_count st) (l_anomaly_triggers st) (u32 (l_curvature_alerts st + 1)) st) x else x in
    let '(reply, x) := call_anomaly [pid; ANOMALY_EV_CURVATURE; rule_kind; severity] x in
    let pt := match reply with [] => 0 | t :: _ => i32 t end in
    let x := if (pt >? 0) && (pid >=? 1) then orch_anomaly_apply_promote pid pt x else x in
    let x := with_seqs (sg_pledge_seq x) (sg_anomaly_monotonic x) (g_sg_tcp_open_ts x) (g_sg_net_send_ts x) (sg_msyscall_seq x) (u64 (sg_graph_curvature_monotonic x + 1)) x in
    emit pid (if rule_kind =? 1 then SG_EV_GRAPH_CURVATURE_RANSOM else SG_EV_GRAPH_CURVATURE_LATERAL) (sg_graph_curvature_monotonic x)
      (le_bytes 4 rule_kind ++ le_bytes 4 severity) x.

(** ** The syscall gate *)

(** A syscall of category [cat] falls outside the pledge. *)
Definition pledge_violation (sysno : Z) x : box B :=
  let st := bx_st x in
  let x := with_st (with_pledge (l_pledge st) (u32 (l_pledge_violations st + 1)) st) x in
  let x := lucas_set_tier 1 x in
  let x := if (l_tier (bx_st x) =? 1) && (l_pledge_violations (bx_st x) >=? 3) then lucas_set_tier 2 x else x in
  let pid := l_synthetic_pid (bx_st x) in
  let x := if w_anomaly_ep w then (call_anomaly [pid; ANOMALY_EV_PLEDGE_VIOLATION; sysno] x).2 else x in
  let x := with_seqs (u64 (sg_pledge_seq x + 1)) (sg_anomaly_monotonic x) (g_sg_tcp_open_ts x) (g_sg_net_send_ts x) (sg_msyscall_seq x) (sg_graph_curvature_monotonic x) x in
  emit pid SG_EV_PLEDGE_VIOL (sg_pledge_seq x) (le_bytes 4 sysno) x.

Context (client_page : Z -> option (list Z)).

(** The handlers not in this file, by their C name. *)
Context (other_handler : string -> list Z -> box B -> Z * box B).

Definition run_handler (name : string) (args : list Z) x : Z * box B :=
  if String.eqb name "lucas_sys_pledge" then
    let '(r, st) := lucas_sys_pledge client_page (bx_st x) (args.[0%nat, 0]) in (r, with_st st x)
  else if String.eqb name "lucas_sys_unveil" then
    let '(r, st) := lucas_sys_unveil client_page (bx_st x) (args.[0%nat, 0]) (args.[1%nat, 0]) in (r, with_st st x)
  else if String.eqb name "sys_noop" then (0, x)
  else if String.eqb name "sys_enosys" then (-38, x)
  else other_handler name args x.

Definition lucas_dispatch_call (sysno : Z) (args : list Z) x : Z * box B :=
  let cat := pledge_check_args sysno args in
  if negb (l_pledge (bx_st x) =? PLEDGE_ALL) && negb (cat =? 0) && (Z.land (l_pledge (bx_st x)) cat =? 0) then (0, pledge_violation sysno x)
  else run_handler (lucas_dispatch sysno) args x.
End box.
