(* ===== verification/PledgeTheorems.v ===== *)
(** * Theorems on client strings, promises and unveiled paths

    The page-wise copy of a client string against a byte-wise reference
    ([copy_cstr_bytewise]), the promise parser against its grammar
    ([pledge_parse_grammar]), the narrowing of the pledge ([pledge_narrows]), the
    decision and the evolution of the unveil table ([unveil_longest_prefix],
    [unveil_narrows]) and the normal form of resolved paths ([resolve_normal],
    [unveil_confines]). *)

From S2P Require Import Prelude LucasAbi Lucas.

(** ** Client strings *)

Section client.
Context (client_page : Z -> option (list Z)).

(** The byte at an address, and the reference: one byte after the other. *)
Definition client_byte (addr : Z) : option Z :=
  page ← client_page (addr - addr mod 4096); page !! Z.to_nat (addr mod 4096).
Fixpoint read_cstr (n : nat) (addr : Z) : option (list Z) :=
  match n with
  | O => Some []
  | S n' => c ← client_byte addr; if c =? 0 then Some [] else cons c <$> read_cstr n' (u64 (addr + 1))
  end.

Lemma page_base addr : Z.land addr (Z.lnot 0xFFF) = addr - addr mod 4096.
Proof.
  rewrite <-Z.ldiff_land. change 0xFFF with (Z.ones 12). rewrite Z.ldiff_ones_r, Z.shiftl_mul_pow2, Z.shiftr_div_pow2 by lia.
  change (2 ^ 12) with 4096. pose proof (Z.div_mod addr 4096). lia.
Qed.

(** [k] bytes inside the page [local]. *)
Lemma read_in_page local addr k n :
  client_page (addr - addr mod 4096) = Some local -> length local = 4096%nat -> 0 <= addr < 2 ^ 64 -> Z.of_nat k <= 4096 - addr mod 4096 ->
  read_cstr (k + n) addr =
    let '(s, nul) := copy_bytes (drop (Z.to_nat (addr mod 4096)) local) k in
    if nul then Some s else app s <$> read_cstr n (u64 (addr + Z.of_nat k)).
Proof.
  intros Hpg Hlen. revert addr Hpg. induction k as [|k IH]; intros addr Hpg Ha Hk.
  - simpl. rewrite Z.add_0_r, u64_small by done. by destruct (read_cstr n addr).
  - pose proof (Z.mod_pos_bound addr 4096 ltac:(lia)) as Hm.
    destruct (lookup_lt_is_Some_2 local (Z.to_nat (addr mod 4096))) as [c Hc]; [lia|].
    rewrite (drop_S _ c _ Hc). cbn [copy_bytes Nat.add read_cstr]. unfold client_byte. rewrite Hpg. simpl mbind. rewrite Hc. simpl mbind.
    destruct (c =? 0); [done|]. destruct k as [|k'].
    { simpl. by destruct (read_cstr n _). }
    assert ((addr + 1) mod 4096 = addr mod 4096 + 1) as Em.
    { symmetry. apply Z.mod_unique with (addr / 4096); [lia|]. pose proof (Z.div_mod addr 4096). lia. }
    assert (addr + 1 < 2 ^ 64) as Hlt.
    { assert (2 ^ 64 mod 4096 = 0) by done. destruct (decide (addr + 1 = 2 ^ 64)) as [E|]; [|lia]. rewrite E in Em. lia. }
    rewrite (u64_small (addr + 1)) by lia. rewrite (IH (addr + 1)); [|replace (addr + 1 - (addr + 1) mod 4096) with (addr - addr mod 4096) by lia; done|lia|lia].
    rewrite Em. replace (Z.to_nat (addr mod 4096 + 1)) with (S (Z.to_nat (addr mod 4096))) by lia.
    destruct (copy_bytes (drop (S _) local) (S k')) as [s nul]. destruct nul; [done|].
    replace (addr + 1 + Z.of_nat (S k')) with (addr + Z.of_nat (S (S k'))) by lia. by destruct (read_cstr n _).
Qed.

Lemma copy_bytes_length src k s : copy_bytes src k = (s, false) -> (k <= length src)%nat -> length s = k.
Proof.
  revert src s. induction k as [|k IH]; intros src s; [by intros [= <-]|]. destruct src as [|c src]; simpl; [lia|].
  destruct (c =? 0); [done|]. destruct (copy_bytes src k) as [s' nul] eqn:E. intros [= <- ->] Hk. simpl. rewrite (IH src s' E); lia.
Qed.

Lemma copy_pages_spec fuel vaddr size buf :
  (forall b l, client_page b = Some l -> length l = 4096%nat) -> (length buf <= size - 1)%nat -> (size - 1 - length buf < fuel)%nat ->
  copy_pages client_page fuel vaddr size buf = app buf <$> read_cstr (size - 1 - length buf) (u64 (vaddr + Z.of_nat (length buf))).
Proof.
  intros Hpages. revert buf. induction fuel as [|fuel IH]; intros buf Hb Hf; [lia|]. cbn [copy_pages].
  destruct (length buf <? size - 1)%nat eqn:El; [apply Nat.ltb_lt in El|apply Nat.ltb_ge in El].
  2: { replace (size - 1 - length buf)%nat with 0%nat by lia. simpl. by rewrite app_nil_r. }
  set (addr := u64 (vaddr + Z.of_nat (length buf))). pose proof (u64_range (vaddr + Z.of_nat (length buf))) as Ha. fold addr in Ha.
  rewrite page_base. pose proof (Z.mod_pos_bound addr 4096 ltac:(lia)) as Hm. replace (addr - (addr - addr mod 4096)) with (addr mod 4096) by lia.
  set (rest := (size - 1 - length buf)%nat) in *. set (k := if (rest <? Z.to_nat (4096 - addr mod 4096))%nat then rest else Z.to_nat (4096 - addr mod 4096)).
  assert ((1 <= k <= rest)%nat /\ Z.of_nat k <= 4096 - addr mod 4096) as [[Hk1 Hk2] Hk3].
  { unfold k. destruct (rest <? _)%nat eqn:E; [apply Nat.ltb_lt in E|apply Nat.ltb_ge in E]; lia. }
  destruct (client_page (addr - addr mod 4096)) as [local|] eqn:Ep.
  2: { destruct rest; [lia|]. cbn [read_cstr]. unfold client_byte. rewrite Ep. done. }
  pose proof (Hpages _ _ Ep) as Hlen. replace rest with (k + (rest - k))%nat by lia. rewrite (read_in_page local addr k (rest - k) Ep Hlen Ha Hk3).
  destruct (copy_bytes _ k) as [s nul] eqn:Ec. destruct nul; [done|].
  assert (length s = k) as Hs by (apply (copy_bytes_length _ _ _ Ec); rewrite length_drop; lia).
  rewrite IH by (rewrite length_app; lia). rewrite length_app, Hs. replace (size - 1 - (length buf + k))%nat with (rest - k)%nat by lia.
  replace (u64 (vaddr + Z.of_nat (length buf + k))) with (u64 (addr + Z.of_nat k)).
  2: { unfold addr, u64. rewrite Zplus_mod_idemp_l. f_equal. lia. }
  destruct (read_cstr (rest - k) _); [|done]. simpl. by rewrite app_assoc.
Qed.
End client.

(** C38: copying a string page by page is copying it byte by byte: the result is the string up
    to its NUL, or its first [buf_size - 1] bytes, and the call fails exactly when one of the
    bytes it has to look at is not mapped, also across page boundaries and at the end of the
    address space. *)
Theorem copy_cstr_bytewise (client_page : Z -> option (list Z)) (client_vaddr : Z) (n : nat) :
  (forall b l, client_page b = Some l -> length l = 4096%nat) -> 0 <= client_vaddr < 2 ^ 64 ->
  lucas_copy_cstr_from_client client_page client_vaddr (S n) = read_cstr client_page n client_vaddr.
Proof.
  intros Hp Ha. unfold lucas_copy_cstr_from_client. cbn [Nat.eqb]. rewrite (copy_pages_spec client_page) by (done || simpl; lia). simpl length.
  rewrite Z.add_0_r, u64_small by done. replace (S n - 1 - 0)%nat with n by lia. by destruct (read_cstr _ n _).
Qed.

Definition two_pages (b : Z) : option (list Z) :=
  if b =? 0x1000 then Some (replicate 4090 65 ++ STR "stdio ") else if b =? 0x2000 then Some (STR "rpath" ++ replicate 4091 0) else None.

Lemma copy_cstr_bytewise_witness :
  lucas_copy_cstr_from_client two_pages 0x1FFA 64 = Some (STR "stdio rpath") /\ lucas_copy_cstr_from_client two_pages 0x2FFF 3 = Some []
  /\ read_cstr two_pages 63 0x3000 = None.
Proof.
  assert (forall b l, two_pages b = Some l -> length l = 4096%nat) as Hp.
  { intros b l. unfold two_pages. destruct (_ =? _); [intros [= <-]; vm_compute; reflexivity|]. destruct (_ =? _); [intros [= <-]; vm_compute; reflexivity|done]. }
  rewrite !copy_cstr_bytewise by (done || lia). split; [|split]; vm_compute; reflexivity.
Defined.

(** ** Promise strings *)

(** The class a token names, up to case. *)
Definition class_of (tok : list Z) : Z :=
  match list_find (fun e => e.1 = map to_lower tok) pledge_class_table with Some (_, e) => e.2 | None => 0 end.

Lemma token_eq_spec tok name : pledge_token_eq tok name = bool_decide (map to_lower tok = name).
Proof.
  revert name. induction tok as [|a tok IH]; intros [|b name]; simpl; try done.
  - destruct (to_lower a =? b) eqn:E; bool_to_prop; simpl; [|symmetry; apply bool_decide_eq_false_2; congruence].
    rewrite IH. apply bool_decide_ext. split; [intros <-; by rewrite E|congruence].
Qed.

Lemma class_bit_spec tok table :
  class_bit tok table = match list_find (fun e => e.1 = map to_lower tok) table with Some (_, e) => e.2 | None => 0 end.
Proof.
  induction table as [|[name bit] table IH]; [done|]. cbn [class_bit list_find]. rewrite token_eq_spec.
  destruct (decide (map to_lower tok = name)) as [E|E].
  - rewrite bool_decide_eq_true_2 by done. by rewrite decide_True by (by rewrite E).
  - rewrite bool_decide_eq_false_2 by done. rewrite decide_False by (simpl; congruence). rewrite IH. by destruct (list_find _ table) as [[]|].
Qed.

Lemma parse_loop_spec fuel s mask : (length s < fuel)%nat -> parse_loop fuel s mask = fold_left Z.lor (map class_of (tokens pledge_is_sep s)) mask.
Proof.
  revert s mask. induction fuel as [|fuel IH]; intros s mask Hf; [lia|]. cbn [parse_loop]. rewrite <-(tokens_skip pledge_is_sep s).
  destruct (span pledge_is_sep s).2 as [|c r] eqn:E; [done|]. rewrite bool_decide_eq_false_2 by done. destruct (span_sep_head _ _ _ _ E) as [Hc Hl].
  pose proof (tokens_head pledge_is_sep c r Hc) as Ht. destruct (span _ (c :: r)) as [tok rest]. destruct Ht as (_&_&->&Hrest). rewrite IH by lia.
  cbn [map fold_left]. rewrite class_bit_spec. done.
Qed.

(** The promise parser accepts its grammar: a promise string yields the union of the classes
    named by its tokens, the maximal runs of characters other than blanks and commas, whatever
    their case and order; tokens that name no class add nothing; and every class is named by the
    name [pledge_class_name] gives it. *)
Theorem pledge_parse_grammar (s : list Z) :
  pledge_parse s = bits (map class_of (tokens pledge_is_sep s))
  /\ Forall (fun e => pledge_parse (pledge_class_name e.2) = e.2) pledge_class_table.
Proof.
  split; [unfold pledge_parse; rewrite parse_loop_spec by lia; done|]. repeat (constructor; [vm_compute; reflexivity|]). constructor.
Qed.

(** ** Narrowing the pledge *)

(** [m] grants no class that [m'] does not. *)
Definition submask (m m' : Z) : Prop := Z.land m m' = m.

Lemma submask_refl m : submask m m.
Proof. apply Z.land_diag. Qed.
Lemma submask_trans m1 m2 m3 : submask m1 m2 -> submask m2 m3 -> submask m1 m3.
Proof. unfold submask. intros H1 H2. rewrite <-H1 at 1. by rewrite <-Z.land_assoc, H2. Qed.
Lemma submask_all m : 0 <= m < 2 ^ 64 -> submask m PLEDGE_ALL.
Proof. intros Hm. unfold submask. change PLEDGE_ALL with (Z.ones 64). rewrite Z.land_ones by lia. by apply Z.mod_small. Qed.
Lemma submask_disjoint m m' cat : submask m m' -> Z.land m' cat = 0 -> Z.land m cat = 0.
Proof. unfold submask. intros <- H. by rewrite <-Z.land_assoc, H, Z.land_0_r. Qed.

Lemma lor_range a b n : 0 <= n -> 0 <= a < 2 ^ n -> 0 <= b < 2 ^ n -> 0 <= Z.lor a b < 2 ^ n.
Proof.
  intros Hn Ha Hb. assert (Z.lor a b = Z.lor a b mod 2 ^ n) as E; [|rewrite E; apply Z.mod_pos_bound; lia].
  rewrite <-Z.land_ones, Z.land_lor_distr_l, !Z.land_ones by lia. by rewrite !Z.mod_small.
Qed.

Lemma land_range a b n : 0 <= n -> 0 <= a < 2 ^ n -> 0 <= b < 2 ^ n -> 0 <= Z.land a b < 2 ^ n.
Proof.
  intros Hn Ha Hb. assert (Z.land a b = Z.land a b mod 2 ^ n) as E; [|rewrite E; apply Z.mod_pos_bound; lia].
  rewrite <-Z.land_ones, <-Z.land_assoc, Z.land_ones by lia. by rewrite (Z.mod_small b).
Qed.

Lemma class_of_range tok : 0 <= class_of tok < 2 ^ 64.
Proof.
  unfold class_of. destruct (list_find _ _) as [[i e]|] eqn:E; [|lia]. apply list_find_Some in E as (E&_&_).
  assert (Forall (fun e => 0 <= e.2 < 2 ^ 64) pledge_class_table) as Hall by (repeat (constructor; [vm_compute; split; congruence|]); constructor).
  by eapply (Forall_lookup_1 _ _ _ _ Hall).
Qed.

Lemma fold_class_range ts mask : 0 <= mask < 2 ^ 64 -> 0 <= fold_left Z.lor (map class_of ts) mask < 2 ^ 64.
Proof.
  revert mask. induction ts as [|t ts IH]; intros mask Hm; [done|]. cbn [map fold_left]. apply IH, lor_range; [lia|done|apply class_of_range].
Qed.

Lemma parse_range s : 0 <= pledge_parse s < 2 ^ 64.
Proof. unfold pledge_parse. rewrite parse_loop_spec by lia. apply fold_class_range. lia. Qed.

Lemma sys_pledge_narrows client_page st v :
  0 <= l_pledge st < 2 ^ 64 ->
  let '(r, st') := lucas_sys_pledge client_page st v in
  st' = with_pledge (l_pledge st') (l_pledge_violations st) st /\ submask (l_pledge st') (l_pledge st) /\ 0 <= l_pledge st' < 2 ^ 64 /\ (r <> 0 -> st' = st).
Proof.
  intros Hm. assert (st = with_pledge (l_pledge st) (l_pledge_violations st) st) as Hst by (by destruct st). unfold lucas_sys_pledge.
  destruct (v =? 0); [by auto using submask_refl|]. destruct (lucas_copy_cstr_from_client _ _ _) as [s|]; [|by auto using submask_refl].
  destruct (pledge_parse s =? 0); [by auto using submask_refl|]. pose proof (parse_range s) as Hp.
  destruct (l_pledge st =? PLEDGE_ALL) eqn:E; simpl negb; cbn [andb]; bool_to_prop.
  - cbn [l_pledge with_pledge l_pledge_violations]. rewrite E. split; [done|]. split; [by apply submask_all|done].
  - destruct (negb _); [by auto using submask_refl|]. cbn [l_pledge with_pledge l_pledge_violations]. split; [done|].
    split; [unfold submask; by rewrite <-Z.land_assoc, (Z.land_comm (pledge_parse s)), Z.land_assoc, Z.land_diag|].
    split; [|done]. apply land_range; [lia|done|done].
Qed.

(** ** The unveil table *)

(** [e] is [path] or a directory above it. *)
Definition covers (e path : list Z) : Prop := e <> [] /\ exists r, path = e ++ r /\ (r = [] \/ head r = Some SLASH \/ last e = Some SLASH).

Lemma matches_covers e path : unveil_matches e path = true <-> covers e path.
Proof.
  unfold unveil_matches, covers. rewrite !andb_true_iff, negb_true_iff, orb_false_iff, bool_decide_eq_true, !orb_true_iff, Nat.eqb_neq, Nat.ltb_ge, Nat.eqb_eq, !Z.eqb_eq.
  split.
  - intros (((Hn&Hle)&Ht)&Hb). split; [by destruct e|]. exists (drop (length e) path). split; [by rewrite <-Ht at 1; rewrite take_drop|].
    destruct Hb as [[Hb|Hb]|Hb].
    + left. apply drop_ge. lia.
    + right; left. destruct (lookup_lt_is_Some_2 path (length e)) as [c Hc].
      { apply Nat.nle_gt. intros Hge. rewrite lookup_ge_None_2 in Hb by done. done. }
      rewrite (drop_S _ _ _ Hc). simpl. rewrite Hc in Hb. simpl in Hb. by subst.
    + right; right. rewrite last_lookup. destruct (lookup_lt_is_Some_2 e (length e - 1)) as [c Hc]; [lia|].
      rewrite Hc in Hb. simpl in Hb. subst. by replace (pred (length e)) with (length e - 1)%nat by lia.
  - intros (Hne&r&->&Hb). rewrite length_app, take_app_length. assert (length e <> 0)%nat by (by destruct e).
    split; [split; [split; lia|done]|]. destruct Hb as [->|[Hr|Hl]].
    + left; left. simpl. lia.
    + left; right. rewrite lookup_app_r, Nat.sub_diag by lia. destruct r; simpl in *; congruence.
    + right. rewrite last_lookup in Hl. replace (length e - 1)%nat with (pred (length e)) by lia. by rewrite Hl.
Qed.

Lemma match_loop_spec entries i query best best_len :
  match match_loop entries i query best best_len with
  | Some k => (best = Some k /\ forall j e, entries !! j = Some e -> covers e.1 query -> (length e.1 <= best_len)%nat)
              \/ exists j e, k = (i + j)%nat /\ entries !! j = Some e /\ covers e.1 query /\ (best_len < length e.1)%nat
                   /\ forall j' e', entries !! j' = Some e' -> covers e'.1 query -> (length e'.1 <= length e.1)%nat
  | None => best = None /\ forall j e, entries !! j = Some e -> covers e.1 query -> (length e.1 <= best_len)%nat
  end.
Proof.
  revert i best best_len. induction entries as [|e0 entries IH]; intros i best best_len; simpl; [destruct best; [left|]; done|].
  destruct (unveil_matches e0.1 query && (best_len <? length e0.1)%nat) eqn:E.
  - apply andb_true_iff in E as [Em El]. apply matches_covers in Em. apply Nat.ltb_lt in El. specialize (IH (S i) (Some i) (length e0.1)).
    destruct (match_loop _ _ _ _ _) as [k|]; [|by destruct IH]. right. destruct IH as [[[= <-] Hall]|(j&e&->&He&Hc&Hl&Hall)].
    + exists 0%nat, e0. split; [lia|]. split; [done|]. split; [done|]. split; [done|]. intros [|j'] e' He' Hc'; simplify_eq/=; [done|]. by apply (Hall j').
    + exists (S j), e. split; [lia|]. split; [done|]. split; [done|]. split; [lia|]. intros [|j'] e' He' Hc'; simplify_eq/=; [lia|]. by apply (Hall j').
  - assert (covers e0.1 query -> (length e0.1 <= best_len)%nat) as H0.
    { intros Hc%matches_covers. rewrite Hc in E. simpl in E. by apply Nat.ltb_ge in E. }
    specialize (IH (S i) best best_len). destruct (match_loop _ _ _ _ _) as [k|].
    + destruct IH as [[-> Hall]|(j&e&->&He&Hc&Hl&Hall)].
      * left. split; [done|]. intros [|j] e He; simplify_eq/=; [done|]. by apply (Hall j).
      * right. exists (S j), e. split; [lia|]. split; [done|]. split; [done|]. split; [done|].
        intros [|j'] e' He' Hc'; simplify_eq/=; [specialize (H0 Hc'); lia|]. by apply (Hall j').
    + destruct IH as [-> Hall]. split; [done|]. intros [|j] e He; simplify_eq/=; [done|]. by apply (Hall j).
Qed.

(** *** Calls *)

Record unveil_call := mk_ucall { uc_page : Z -> option (list Z); uc_path : Z; uc_perms : Z }.
Definition do_unveil (st : lucas_state) (c : unveil_call) : lucas_state := (lucas_sys_unveil (uc_page c) st (uc_path c) (uc_perms c)).2.
Definition unveil_all (st : lucas_state) (cs : list unveil_call) : lucas_state := fold_left do_unveil cs st.

Definition paths_of (uv : lucas_unveil_state) : list (list Z) := fst <$> uv_entries uv.

Record unveil_wf (uv : lucas_unveil_state) : Prop := {
  uw_nodup : NoDup (paths_of uv);
  uw_count : (length (uv_entries uv) <= LUCAS_UNVEIL_MAX_ENTRIES)%nat;
  uw_paths : Forall (fun p => p <> [] /\ (length p < LUCAS_UNVEIL_PATH_MAX)%nat) (paths_of uv);
}.

(** Every entry of [uv] is still there, with no permission it had not. *)
Record narrows (uv uv' : lucas_unveil_state) : Prop := {
  nw_entries i e perms : uv_entries uv !! i = Some (e, perms) -> exists perms', uv_entries uv' !! i = Some (e, perms') /\ submask perms' perms;
  nw_locked : uv_locked uv = true -> uv_entries uv' = uv_entries uv /\ uv_locked uv' = true;
  nw_init : uv_initialized uv = true -> uv_initialized uv' = true;
}.

Lemma narrows_refl uv : narrows uv uv.
Proof. constructor; eauto using submask_refl. Qed.
Lemma narrows_trans u1 u2 u3 : narrows u1 u2 -> narrows u2 u3 -> narrows u1 u3.
Proof.
  intros [A1 B1 C1] [A2 B2 C2]. constructor; [|intros H; destruct (B1 H) as [E1 H1]; destruct (B2 H1); split; congruence|auto].
  intros i e perms H. destruct (A1 _ _ _ H) as (p2&H2&S2). destruct (A2 _ _ _ H2) as (p3&H3&S3). eauto using submask_trans.
Qed.

Lemma cstr_length client_page v n s : lucas_copy_cstr_from_client client_page v (S n) = Some s -> (length s <= n)%nat.
Proof.
  unfold lucas_copy_cstr_from_client. cbn [Nat.eqb].
  assert (forall src k s nul, copy_bytes src k = (s, nul) -> (length s <= k)%nat) as Hcb.
  { intros src k. revert src. induction k as [|k IH]; intros [|c src] s' nul; simpl; try (intros [= <- _]; simpl; lia).
    destruct (c =? 0); [intros [= <- _]; simpl; lia|]. destruct (copy_bytes src k) as [s1 n1] eqn:E. intros [= <- _]. simpl. specialize (IH src s1 n1 E). lia. }
  assert (forall fuel buf s, (length buf <= n)%nat -> copy_pages client_page fuel v (S n) buf = Some s -> (length s <= n)%nat) as Hcp; [|apply Hcp; simpl; lia].
  induction fuel as [|fuel IH]; intros buf s' Hb; simpl; [done|]. rewrite Nat.sub_0_r. destruct (length buf <? n)%nat eqn:El; [apply Nat.ltb_lt in El|intros [= <-]; done].
  destruct (client_page _) as [local|]; [|done]. match goal with |- context [copy_bytes ?l ?k] => set (kk := k); destruct (copy_bytes l kk) as [s1 nul] eqn:Ec end.
  apply Hcb in Ec. assert (kk <= n - length buf)%nat by (unfold kk; destruct (_ <? _)%nat eqn:E2; [lia|apply Nat.ltb_ge in E2; lia]).
  destruct nul; [intros [= <-]; rewrite length_app; lia|]. apply IH. rewrite length_app. lia.
Qed.

Lemma find_exact_Some uv path i : unveil_find_exact uv path = Some i -> (i < length (uv_entries uv))%nat /\ uv_entries uv !! i = Some (path, (entry_at uv i).2).
Proof.
  intros (Hi&Hp&_)%first_below_Some. apply bool_decide_eq_true in Hp. split; [done|]. rewrite (array_lookup_lt _ i ([], 0) Hi). fold (entry_at uv i).
  destruct (entry_at uv i). simpl in *. by subst.
Qed.

Lemma find_exact_None uv path : unveil_find_exact uv path = None -> path ∉ paths_of uv.
Proof.
  intros Hf (e&->&He)%list_elem_of_fmap. apply list_elem_of_lookup_1 in He as [i Hi]. pose proof (lookup_lt_Some _ _ _ Hi) as Hlt.
  pose proof (first_below_None _ _ i Hf Hlt) as Hno. cbv beta in Hno. apply bool_decide_eq_false in Hno. apply Hno. unfold entry_at. by rewrite (array_get _ _ _ _ Hi).
Qed.

Lemma do_unveil_step st c : unveil_wf (l_unveil st) -> narrows (l_unveil st) (l_unveil (do_unveil st c)) /\ unveil_wf (l_unveil (do_unveil st c)).
Proof.
  intros W. pose proof (narrows_refl (l_unveil st)) as N. unfold do_unveil, lucas_sys_unveil. set (uv := l_unveil st) in *.
  destruct ((uc_path c =? 0) && (uc_perms c =? 0)).
  { cbn [snd l_unveil with_unveil]. split; [constructor; [intros; eauto using submask_refl|done..]|]. by destruct W. }
  destruct (uv_locked uv) eqn:El; [done|]. destruct ((uc_path c =? 0) || (uc_perms c =? 0)); [done|].
  change LUCAS_UNVEIL_PATH_MAX with (S 95). destruct (lucas_copy_cstr_from_client _ (uc_path c) (S 95)) as [path|] eqn:Ep; [|done]. apply cstr_length in Ep.
  destruct (lucas_copy_cstr_from_client _ (uc_perms c) 16) as [perms|]; [|done]. destruct (bool_decide (path = [])) eqn:Ene; bool_to_prop; [done|].
  destruct W as [Wn Wc Wp]. destruct (unveil_find_exact uv path) as [i|] eqn:Ef.
  - destruct (negb _); [done|]. apply find_exact_Some in Ef as [Hi Hlk]. cbn [snd l_unveil with_unveil].
    assert (paths_of (mk_uv (<[i := ((entry_at uv i).1, Z.land (entry_at uv i).2 (unveil_parse_perms perms))]> (uv_entries uv)) false true) = paths_of uv) as Hpaths.
    { unfold paths_of. cbn [uv_entries]. rewrite list_fmap_insert. apply list_insert_id. rewrite list_lookup_fmap, Hlk. simpl. unfold entry_at. by rewrite (array_get _ _ _ _ Hlk). }
    split; [constructor; [|by rewrite El|done]|constructor; [by rewrite Hpaths|cbn [uv_entries]; by rewrite length_insert|by rewrite Hpaths]].
    cbn [uv_entries]. intros j e p Hj. destruct (decide (i = j)) as [<-|Hne].
    + rewrite list_lookup_insert_eq by done. eexists. assert ((entry_at uv i) = (e, p)) as -> by (unfold entry_at; by rewrite (array_get _ _ _ _ Hj)).
      split; [done|]. unfold submask. by rewrite <-Z.land_assoc, (Z.land_comm (unveil_parse_perms perms)), Z.land_assoc, Z.land_diag.
    + rewrite list_lookup_insert_ne by done. eauto using submask_refl.
  - destruct (_ <=? _)%nat eqn:Ec; [done|]. apply Nat.leb_gt in Ec. apply find_exact_None in Ef. cbn [snd l_unveil with_unveil].
    assert (unveil_copy_path path = path) as -> by (apply take_ge; unfold LUCAS_UNVEIL_PATH_MAX; lia).
    split; [constructor; [|by rewrite El|done]|constructor].
    + intros j e p Hj. exists p. cbn [uv_entries]. rewrite lookup_app_l by (by eapply lookup_lt_Some). by split; [|apply submask_refl].
    + unfold paths_of. cbn [uv_entries]. rewrite fmap_app. apply NoDup_app. split; [done|]. split; [|apply NoDup_singleton]. intros x Hx Hx2. simpl in Hx2. set_solver.
    + cbn [uv_entries]. rewrite length_app. simpl. lia.
    + unfold paths_of. cbn [uv_entries]. rewrite fmap_app. apply Forall_app. split; [done|]. simpl. constructor; [|constructor]. split; [done|unfold LUCAS_UNVEIL_PATH_MAX; lia].
Qed.

Lemma unveil_all_step st cs : unveil_wf (l_unveil st) -> narrows (l_unveil st) (l_unveil (unveil_all st cs)) /\ unveil_wf (l_unveil (unveil_all st cs)).
Proof.
  revert st. induction cs as [|c cs IH]; intros st W; [split; [apply narrows_refl|done]|]. destruct (do_unveil_step st c W) as [N1 W1].
  destruct (IH _ W1) as [N2 W2]. split; [|done]. exact (narrows_trans _ _ _ N1 N2).
Qed.

Lemma unveil_boot_wf st : l_unveil st = no_unveil -> unveil_wf (l_unveil st).
Proof. intros ->. constructor; [constructor|simpl; lia|constructor]. Qed.

Lemma covers_same_length e e' path : covers e path -> covers e' path -> length e = length e' -> e = e'.
Proof. intros (_&r&->&_) (_&r'&E&_) Hl. by apply (app_inj_1 _ _ _ _ Hl) in E as [? _]. Qed.

Lemma same_path_same_entry uv e p p' : NoDup (paths_of uv) -> (e, p) ∈ uv_entries uv -> (e, p') ∈ uv_entries uv -> p = p'.
Proof.
  intros Hn [i Hi]%list_elem_of_lookup_1 [j Hj]%list_elem_of_lookup_1.
  assert (i = j) as ->; [|congruence]. apply (proj1 (NoDup_alt _) Hn i j e); unfold paths_of; rewrite list_lookup_fmap, ?Hi, ?Hj; done.
Qed.

(** After any calls of unveil, a path is allowed exactly when no call was made yet, no
    permission is asked for, or the longest entry that is the path or a directory above it
    grants every permission asked for; otherwise the answer is EACCES. *)
Theorem unveil_longest_prefix (st0 : lucas_state) (cs : list unveil_call) (path : list Z) (want : Z) :
  l_unveil st0 = no_unveil ->
  let st := unveil_all st0 cs in
  let uv := l_unveil st in
  (lucas_unveil_check st path want = 0 \/ lucas_unveil_check st path want = -13)
  /\ (lucas_unveil_check st path want = 0 <->
      uv_initialized uv = false \/ want = 0
      \/ exists e perms, (e, perms) ∈ uv_entries uv /\ covers e path /\ (forall e' p', (e', p') ∈ uv_entries uv -> covers e' path -> (length e' <= length e)%nat)
                         /\ submask want perms).
Proof.
  intros H0. cbv zeta. destruct (unveil_all_step st0 cs (unveil_boot_wf st0 H0)) as [_ [Hn _ _]]. set (st := unveil_all st0 cs) in *. set (uv := l_unveil st) in *.
  unfold lucas_unveil_check. fold uv. destruct (uv_initialized uv) eqn:Ei; simpl negb; cbv iota; [|tauto].
  destruct (want =? 0) eqn:Ew; bool_to_prop; [tauto|]. unfold unveil_find_match. pose proof (match_loop_spec (uv_entries uv) 0 path None 0) as Hm.
  destruct (match_loop _ _ _ _ _) as [k|].
  - destruct Hm as [[? _]|(j&[e perms]&->&He&Hc&_&Hall)]; [done|]. simpl Nat.add. simpl fst in *.
    assert (entry_at uv j = (e, perms)) as -> by (unfold entry_at; by rewrite (array_get _ _ _ _ He)). cbn [snd].
    assert (forall e' p', (e', p') ∈ uv_entries uv -> covers e' path -> (length e' <= length e)%nat) as Hall'.
    { intros e' p' [j' Hj']%list_elem_of_lookup_1 Hc'. by apply (Hall j' (e', p')). }
    split; [destruct (negb _); auto|]. split.
    + destruct (Z.land want perms =? want) eqn:El; simpl negb; cbv iota; [|done]. bool_to_prop. intros _. right; right. exists e, perms.
      split; [by eapply list_elem_of_lookup_2|]. auto.
    + intros [?|[?|(e'&p'&Hin&Hc'&Hall2&Hs)]]; [done..|]. apply list_elem_of_lookup_2 in He.
      assert (e' = e) as ->. { apply (covers_same_length e' e path); [done..|]. specialize (Hall' e' p' Hin Hc'). specialize (Hall2 e perms He Hc). lia. }
      rewrite (same_path_same_entry uv e perms p' Hn He Hin). unfold submask in Hs. by rewrite Hs, Z.eqb_refl.
  - destruct Hm as [_ Hall]. split; [by right|]. split; [done|]. intros [?|[?|(e&p&[j Hj]%list_elem_of_lookup_1&Hc&_)]]; [done..|].
    specialize (Hall j (e, p) Hj Hc). simpl in Hall. destruct Hc as [Hne _]. destruct e; [done|]. simpl in Hall. lia.
Qed.

(** The unveil table only narrows: whatever calls follow, every entry keeps its path and gets
    no permission it had not, paths stay distinct and at most sixteen, and once locked the table
    never changes again. *)
Theorem unveil_narrows (st0 : lucas_state) (cs cs' : list unveil_call) :
  l_unveil st0 = no_unveil ->
  let uv := l_unveil (unveil_all st0 cs) in
  let uv' := l_unveil (unveil_all (unveil_all st0 cs) cs') in
  narrows uv uv' /\ unveil_wf uv'.
Proof. intros H0. cbv zeta. apply unveil_all_step. by apply unveil_all_step, unveil_boot_wf. Qed.

Definition fresh_box : lucas_state := mk_lucas 1 0 1 [] 0 false LUCAS_F_0 0 0 0 PLEDGE_ALL 0 no_unveil.
(** A page with a path at 0x1000 and permissions at 0x1100. *)
Definition call_of (path perms : string) : unveil_call :=
  mk_ucall (fun b => if b =? 0x1000 then Some (take 4096 (take 256 (STR path ++ replicate 256 0) ++ STR perms ++ replicate 4096 0)) else None) 0x1000 0x1100.
Definition lock_call : unveil_call := mk_ucall (fun _ => None) 0 0.
Definition unveil_demo : list unveil_call := [call_of "/" "r"; call_of "/tmp" "rwC"; call_of "/tmp" "w"].

Lemma unveil_longest_prefix_witness :
  let st := unveil_all fresh_box unveil_demo in
  lucas_unveil_check st (STR "/tmp/a") UNVEIL_W = 0 /\ lucas_unveil_check st (STR "/tmp/a") UNVEIL_R = -13.
Proof.
  cbv zeta. assert (uv_entries (l_unveil (unveil_all fresh_box unveil_demo)) = [(STR "/", UNVEIL_R); (STR "/tmp", UNVEIL_W)]) as Eu by (vm_compute; reflexivity).
  destruct (unveil_longest_prefix fresh_box unveil_demo (STR "/tmp/a") UNVEIL_W eq_refl) as [_ [_ H1]].
  destruct (unveil_longest_prefix fresh_box unveil_demo (STR "/tmp/a") UNVEIL_R eq_refl) as [[H2|H2] [_ _]]; [vm_compute in H2; discriminate|].
  split; [|exact H2]. apply H1. right; right. exists (STR "/tmp"), UNVEIL_W. rewrite Eu. split; [apply list_elem_of_In; right; left; reflexivity|].
  split; [split; [done|]; exists (STR "/a"); split; [reflexivity|right; left; reflexivity]|]. split; [|reflexivity].
  intros e' p' [[= -> _]|[[= -> _]|[]%elem_of_nil]%elem_of_cons]%elem_of_cons _; vm_compute; lia.
Defined.

Lemma unveil_narrows_witness :
  uv_entries (l_unveil (unveil_all (unveil_all fresh_box (unveil_demo ++ [lock_call])) [call_of "/etc" "r"; call_of "/" ""]))
  = uv_entries (l_unveil (unveil_all fresh_box (unveil_demo ++ [lock_call]))).
Proof.
  apply (nw_locked _ _ (proj1 (unveil_narrows fresh_box (unveil_demo ++ [lock_call]) [call_of "/etc" "r"; call_of "/" ""] eq_refl))). vm_compute. reflexivity.
Defined.

(** ** Resolved paths *)

Definition is_slash (c : Z) : bool := c =? SLASH.
(** The components of a path. *)
Definition comps (s : list Z) : list (list Z) := tokens is_slash s.

(** Normalisation, on a stack with the last component on top. *)
Definition norm_step (stack : list (list Z)) (c : list Z) : list (list Z) :=
  if decide (c = [DOT]) then stack else if decide (c = [DOT; DOT]) then tail stack else c :: stack.
Definition normalize (cs : list (list Z)) : list (list Z) := reverse (fold_left norm_step cs []).
Definition render (cs : list (list Z)) : list Z := if decide (cs = []) then [SLASH] else concat (map (cons SLASH) cs).

(** A component of a normal path. *)
Definition proper (c : list Z) : Prop := c <> [] /\ Forall (fun x => is_slash x = false) c /\ c <> [DOT] /\ c <> [DOT; DOT].

Lemma comps_slash s : comps (SLASH :: s) = comps s.
Proof. by apply tokens_sep. Qed.

(** Components of a concatenation at a boundary. *)
Lemma comps_app a b : b = [] \/ last a = Some SLASH \/ head b = Some SLASH -> comps (a ++ b) = comps a ++ comps b.
Proof.
  intros [->|[Hl|Hh]].
  - by rewrite !app_nil_r.
  - apply last_Some in Hl as [a' ->]. rewrite <-app_assoc. unfold comps. simpl app. rewrite !tokens_app by done. by rewrite app_nil_r.
  - destruct b as [|c b]; [done|]. injection Hh as ->. rewrite comps_slash. by apply tokens_app.
Qed.

Lemma norm_loop_spec fuel tmp segs :
  (length tmp < fuel)%nat -> (length segs + length (comps tmp) <= MAX_SEGS)%nat -> norm_loop fuel tmp segs = fold_left norm_step (comps tmp) segs.
Proof.
  revert tmp segs. induction fuel as [|fuel IH]; intros tmp segs Hf Hn; [lia|]. cbn [norm_loop].
  destruct (bool_decide (tmp = [])) eqn:E0; bool_to_prop; [subst; done|]. cbn [orb].
  destruct (length segs <? MAX_SEGS)%nat eqn:El; simpl negb; cbv iota; [apply Nat.ltb_lt in El|apply Nat.ltb_ge in El].
  2: { destruct (comps tmp); [done|simpl in Hn; lia]. }
  change (fun c => c =? SLASH) with is_slash. unfold comps in *. rewrite <-(tokens_skip is_slash tmp) in *.
  destruct (span is_slash tmp).2 as [|c r] eqn:Es; [done|]. rewrite bool_decide_eq_false_2 by done. destruct (span_sep_head _ _ _ _ Es) as [Hc Hl].
  pose proof (tokens_head is_slash c r Hc) as Ht. change (fun c => negb (c =? SLASH)) with (fun c => negb (is_slash c)).
  destruct (span _ (c :: r)) as [tok rest]. destruct Ht as (_&_&Et&Hrest). rewrite Et in *. cbn [fold_left]. simpl length in Hn. unfold norm_step at 2.
  destruct (decide (tok = [DOT])) as [Ed|Ed]; [rewrite bool_decide_eq_true_2 by done; apply IH; simpl; lia|rewrite bool_decide_eq_false_2 by done].
  destruct (decide (tok = [DOT; DOT])) as [Ee|Ee]; [rewrite bool_decide_eq_true_2 by done|rewrite bool_decide_eq_false_2 by done]; apply IH; try lia.
  - destruct segs; simpl in *; lia.
  - simpl. lia.
Qed.

(** What a path names from a working directory: its components, after those of the directory if
    it is relative. *)
Definition from_cwd (cwd inp : list Z) : list (list Z) := (if decide (head inp = Some SLASH) then [] else comps cwd) ++ comps inp.

Lemma absolute_comps cwd inp : (length cwd + length inp < 510)%nat -> comps (absolute_of cwd inp) = from_cwd cwd inp.
Proof.
  intros Hl. unfold absolute_of, from_cwd. change (LUCAS_PATH_MAX * 2)%nat with 512%nat. simpl Nat.sub.
  destruct (decide (head inp = Some SLASH)) as [Eh|Eh]; [rewrite bool_decide_eq_true_2 by done|rewrite bool_decide_eq_false_2 by done].
  { simpl app. rewrite take_ge by lia. done. }
  set (dir := if bool_decide (cwd = []) then [SLASH] else cwd). assert (comps dir = comps cwd /\ (length dir + length inp <= 510)%nat) as (<-&Hd).
  { unfold dir. destruct (bool_decide (cwd = [])) eqn:E; bool_to_prop; [subst; split; [done|simpl in *; lia]|split; [done|lia]]. }
  rewrite (take_ge dir) by lia. destruct (bool_decide (last dir = Some SLASH)) eqn:El; bool_to_prop.
  - rewrite take_ge by (rewrite length_app; lia). apply comps_app. auto.
  - rewrite take_ge by (rewrite !length_app; simpl; lia). rewrite <-app_assoc. simpl app. by apply tokens_app.
Qed.

Lemma fold_norm_le cs st : (length (fold_left norm_step cs st) <= length st + length cs)%nat.
Proof.
  revert st. induction cs as [|c cs IH]; intros st; simpl; [lia|]. etrans; [apply IH|]. unfold norm_step.
  destruct (decide _); [lia|]. destruct (decide _); [destruct st; simpl; lia|simpl; lia].
Qed.

Lemma fold_norm_proper cs st : Forall (fun t => t <> [] /\ Forall (fun c => is_slash c = false) t) cs -> Forall proper st -> Forall proper (fold_left norm_step cs st).
Proof.
  intros Hcs. revert st. induction Hcs as [|c cs [Hne Hf] Hcs IH]; intros st Hst; [done|]. cbn [fold_left]. apply IH. unfold norm_step.
  destruct (decide _); [done|]. destruct (decide _); [destruct Hst; [constructor|done]|]. by constructor.
Qed.

Lemma normalize_proper cs : Forall (fun t => t <> [] /\ Forall (fun c => is_slash c = false) t) cs -> Forall proper (normalize cs).
Proof. intros Hcs. unfold normalize. apply Forall_reverse. apply fold_norm_proper; [done|constructor]. Qed.

Lemma normalize_id cs : Forall proper cs -> normalize cs = cs.
Proof.
  intros Hp. unfold normalize. assert (forall st, fold_left norm_step cs st = reverse cs ++ st) as ->; [|by rewrite app_nil_r, reverse_involutive].
  induction Hp as [|c cs (Hne&Hf&H1&H2) _ IH]; intros st; [done|]. cbn [fold_left]. unfold norm_step at 2. rewrite !decide_False by done.
  rewrite IH, reverse_cons, <-app_assoc. done.
Qed.

Lemma from_cwd_free cwd inp : Forall (fun t => t <> [] /\ Forall (fun c => is_slash c = false) t) (from_cwd cwd inp).
Proof. unfold from_cwd. apply Forall_app. split; [destruct (decide _); [constructor|]|]; apply tokens_free. Qed.

Lemma render_comps cs : Forall proper cs -> comps (render cs) = cs.
Proof.
  intros Hp. unfold render. destruct (decide (cs = [])) as [->|_]; [done|]. induction Hp as [|c cs (Hne&Hf&_) Hp IH]; [done|].
  cbn [map concat]. rewrite comps_app; [|destruct Hp; [by left|by right; right]]. rewrite comps_slash, IH. unfold comps at 1. by rewrite (tokens_word is_slash c).
Qed.

Lemma render_head cs : head (render cs) = Some SLASH.
Proof. unfold render. destruct (decide (cs = [])); [done|]. by destruct cs. Qed.

Lemma resolve_render cwd inp :
  (length cwd + length inp < 510)%nat -> (length (from_cwd cwd inp) <= MAX_SEGS)%nat -> (length (render (normalize (from_cwd cwd inp))) < LUCAS_PATH_MAX)%nat ->
  lucas_resolve_path cwd inp LUCAS_PATH_MAX = render (normalize (from_cwd cwd inp)).
Proof.
  intros Hl Hn Hr. unfold lucas_resolve_path. rewrite norm_loop_spec by (rewrite ?absolute_comps by done; simpl; lia). rewrite absolute_comps by done.
  fold (normalize (from_cwd cwd inp)). unfold render in *. destruct (decide (normalize (from_cwd cwd inp) = [])) as [E|E].
  - rewrite bool_decide_eq_true_2 by done. done.
  - rewrite bool_decide_eq_false_2 by done. apply take_ge. lia.
Qed.

(** Resolving a path normalises it: a path that fits the buffers and has at most 64
    components, with those of the working directory when it is relative, resolves to the
    components left when each dot is dropped and each dot-dot removes the one before it, stopping
    at the root; the result is absolute, has no dots and no empty components left, and resolves
    to itself from every directory. *)
Theorem resolve_normal (cwd inp : list Z) :
  (length cwd + length inp < 510)%nat -> (length (from_cwd cwd inp) <= MAX_SEGS)%nat -> (length (render (normalize (from_cwd cwd inp))) < LUCAS_PATH_MAX)%nat ->
  let out := lucas_resolve_path cwd inp LUCAS_PATH_MAX in
  out = render (normalize (from_cwd cwd inp)) /\ head out = Some SLASH /\ comps out = normalize (from_cwd cwd inp) /\ Forall proper (comps out)
  /\ (forall cwd', (length cwd' < 254)%nat -> lucas_resolve_path cwd' out LUCAS_PATH_MAX = out).
Proof.
  intros Hl Hn Hr. cbv zeta. rewrite (resolve_render cwd inp Hl Hn Hr). set (ns := normalize (from_cwd cwd inp)) in *.
  assert (Forall proper ns) as Hp by (apply normalize_proper, from_cwd_free). rewrite (render_comps ns Hp).
  split; [done|]. split; [apply render_head|]. split; [done|]. split; [done|]. intros cwd' Hc.
  assert (from_cwd cwd' (render ns) = ns) as E.
  { unfold from_cwd. rewrite decide_True by apply render_head. simpl. by apply render_comps. }
  assert (length ns <= MAX_SEGS)%nat.
  { etrans; [|exact Hn]. unfold ns, normalize. rewrite length_reverse. etrans; [apply fold_norm_le|]. simpl. lia. }
  rewrite resolve_render by (rewrite ?E, ?(normalize_id ns Hp); unfold LUCAS_PATH_MAX in *; lia). by rewrite E, normalize_id.
Qed.

Lemma resolve_normal_witness : lucas_resolve_path (STR "/tmp/x") (STR "../../etc//./../a/b") LUCAS_PATH_MAX = STR "/a/b".
Proof.
  rewrite (proj1 (resolve_normal (STR "/tmp/x") (STR "../../etc//./../a/b") ltac:(vm_compute; lia) ltac:(vm_compute; lia) ltac:(vm_compute; lia))). vm_compute. reflexivity.
Defined.

(** The 64-segment limit: what follows the sixty-fourth component is dropped, a dot-dot too, so
    a path of 65 components names the directory above its file and dot-dot from the sixty-fourth
    level stays where it is. *)
Theorem resolve_stops_at_64 :
  let deep := concat (replicate 64 (STR "/a")) in
  lucas_resolve_path [] (deep ++ STR "/file") LUCAS_PATH_MAX = deep /\ lucas_resolve_path [] (deep ++ STR "/..") LUCAS_PATH_MAX = deep.
Proof. vm_compute. split; reflexivity. Qed.

Lemma check_entry st path want :
  lucas_unveil_check st path want = 0 -> uv_initialized (l_unveil st) = true -> want <> 0 ->
  exists e perms, (e, perms) ∈ uv_entries (l_unveil st) /\ covers e path /\ submask want perms.
Proof.
  unfold lucas_unveil_check, unveil_find_match. intros H Hi Hw. rewrite Hi in H. simpl negb in H. cbv iota in H. rewrite (proj2 (Z.eqb_neq _ _)) in H by done.
  pose proof (match_loop_spec (uv_entries (l_unveil st)) 0 path None 0) as Hm. destruct (match_loop _ _ _ _ _) as [k|]; [|done].
  destruct Hm as [[? _]|(j&[e perms]&->&He&Hc&_)]; [done|]. simpl Nat.add in H. unfold entry_at in H. rewrite (array_get _ _ _ _ He) in H. cbn [snd] in H.
  exists e, perms. split; [by eapply list_elem_of_lookup_2|]. split; [done|]. destruct (Z.land want perms =? want) eqn:E; simpl in H; [by apply Z.eqb_eq in E|done].
Qed.

Lemma covers_comps e path : covers e path -> comps e `prefix_of` comps path.
Proof. intros (_&r&->&Hb). exists (comps r). apply comps_app. tauto. Qed.

(** C14: unveil confines a process whatever dot-dots it uses: once a process has unveiled
    anything, every path it may use, once resolved from its working directory, lies component by
    component at or below an unveiled path that grants the access. *)
Theorem unveil_confines (st : lucas_state) (inp : list Z) (want : Z) :
  uv_initialized (l_unveil st) = true -> want <> 0 ->
  (length (l_cwd st) + length inp < 510)%nat -> (length (from_cwd (l_cwd st) inp) <= MAX_SEGS)%nat ->
  (length (render (normalize (from_cwd (l_cwd st) inp))) < LUCAS_PATH_MAX)%nat ->
  lucas_unveil_check st (lucas_resolve_path (l_cwd st) inp LUCAS_PATH_MAX) want = 0 ->
  exists e perms, (e, perms) ∈ uv_entries (l_unveil st) /\ submask want perms /\ comps e `prefix_of` normalize (from_cwd (l_cwd st) inp)
                  /\ Forall proper (comps e).
Proof.
  intros Hi Hw Hl Hn Hr. rewrite resolve_render by done. intros H. destruct (check_entry st _ want H Hi Hw) as (e&perms&Hin&Hc&Hs).
  apply covers_comps in Hc. assert (Forall proper (normalize (from_cwd (l_cwd st) inp))) as Hp by (apply normalize_proper, from_cwd_free). rewrite render_comps in Hc by done.
  exists e, perms. split; [done|]. split; [done|]. split; [done|]. destruct Hc as [r E]. rewrite E in Hp. by apply Forall_app in Hp as [? _].
Qed.

Lemma unveil_confines_witness :
  let st := unveil_all fresh_box [call_of "/tmp" "r"] in
  (exists e perms, (e, perms) ∈ uv_entries (l_unveil st) /\ submask UNVEIL_R perms /\ comps e `prefix_of` [STR "tmp"; STR "a"] /\ Forall proper (comps e))
  /\ lucas_unveil_check st (lucas_resolve_path (l_cwd st) (STR "/tmp/../etc/shadow") LUCAS_PATH_MAX) UNVEIL_R = -13.
Proof.
  split; [|vm_compute; reflexivity].
  apply (unveil_confines (unveil_all fresh_box [call_of "/tmp" "r"]) (STR "/tmp/b/../a") UNVEIL_R); first [vm_compute; lia|vm_compute; reflexivity|done].
Defined.
