(* ===== verification/TierTheorems.v ===== *)
(** * Theorems on the syscall gate and the trust tiers

    The pledge as an irrevocable restriction ([pledge_irrevocable]); the tier of a sotbox as
    lucas, the anomaly process and procd see it ([tiers_agree]); and where they part: the
    pledge gate lowers a tier ([pledge_violation_demotes]), the watermark forgets
    ([first_write_forgets]) and trusted boxes ([trusted_box_diverges]). *)

From S2P Require Import Prelude Storage Wal WalReplay ProcdTable ProcdServer ProcdSpec SotGuard Anomaly AnomalyTheorems LucasAbi Lucas PledgeTheorems.

(** ** SET_TIER as seen by its callers *)

Lemma call_set_tier_spec d ntf slot t :
  length (g_procs d) = PROCD_MAX_PROCS -> 1 <= slot < 256 -> p_state (proc_at d (Z.to_nat slot)) <> PROC_STATE_FREE -> 0 <= t <= 3 ->
  let d' := (call_set_tier d ntf slot t).2 in
  length (g_procs d') = PROCD_MAX_PROCS
  /\ (forall j, p_state (proc_at d' j) = p_state (proc_at d j))
  /\ (forall j, p_tier (proc_at d' j) = if decide (j = Z.to_nat slot) then t else p_tier (proc_at d j)).
Proof.
  intros Hl Hs Hfree Ht. cbv zeta.
  assert (exists d1, (call_set_tier d ntf slot t).2 = d1 /\ g_procs d1 = g_procs (commit_proc d (Z.to_nat slot) (with_tier t (default_functor t)))) as (d1&->&E).
  { eexists. split; [reflexivity|]. unfold call_set_tier, procd_dispatch. cbn [Z.eqb PROCD_OP_SET_TIER PROCD_OP_SPAWN PROCD_OP_FORK PROCD_OP_EXIT PROCD_OP_WAIT PROCD_OP_EXEC
      PROCD_OP_CLONE PROCD_OP_THREAD_EXIT PROCD_OP_SET_ROBUST PROCD_OP_SETSID PROCD_OP_SETPGID PROCD_OP_GETPGID Pos.eqb fst snd].
    rewrite (u32_small slot), (u32_small t) by lia. unfold procd_handle_set_tier. rewrite Z.eqb_refl. simpl negb. cbv iota.
    unfold procd_table_get. rewrite Z.geb_leb, (proj2 (Z.leb_gt _ _)) by (unfold PROCD_MAX_PROCS; lia). unfold is_free. rewrite bool_decide_eq_false_2 by done.
    rewrite Z.gtb_ltb, (proj2 (Z.ltb_ge _ _)) by (unfold PROC_TIER_3; lia). done. }
  rewrite procs_commit in E. assert (forall j, proc_at d1 j = if decide (Z.to_nat slot = j) then procd_seqlock_end (with_tier t (default_functor t) (procd_seqlock_begin (proc_at d j))) else proc_at d j) as Hat.
  { intros j. unfold proc_at at 1. rewrite E, array_get_insert by (rewrite Hl; unfold PROCD_MAX_PROCS; lia). by destruct (decide _) as [->|]. }
  split; [by rewrite E, length_insert|]. split; intros j; rewrite Hat.
  - by destruct (decide _).
  - destruct (decide (Z.to_nat slot = j)) as [->|Hne]; [by rewrite decide_True|]. by rewrite decide_False by congruence.
Qed.

(** ** What an event does to the account of its process *)

(** The process is at most moved up to [t]: the reply, its applied tier and the state of procd. *)
Definition promotes (procd_ep ntf : bool) (p p' : pid_state) (t : Z) (d d' : procd) : Prop :=
  (t = 0 /\ ps_applied_tier p' = ps_applied_tier p /\ d' = d)
  \/ (ps_applied_tier p < t <= 2 /\ ps_applied_tier p' = t /\ d' = anomaly_procd_set_tier procd_ep ntf d (ps_procd_slot p') t).

Lemma score_fold_promotes kind bonus p :
  0 <= ps_score p -> 0 <= anomaly_weight kind + bonus -> ps_score p + anomaly_weight kind + bonus < 2 ^ 32 -> 0 <= ps_applied_tier p ->
  let x := score_fold kind bonus p in
  ps_score x.2 = ps_score p + anomaly_weight kind + bonus
  /\ ps_write_count x.2 = ps_write_count p /\ ps_promoted x.2 = ps_promoted p /\ ps_procd_slot x.2 = ps_procd_slot p
  /\ ps_unlink_run x.2 = ps_unlink_run p /\ ps_since_unlink x.2 = ps_since_unlink p
  /\ ((x.1 = 0 /\ ps_applied_tier x.2 = ps_applied_tier p /\ tier_of (ps_score x.2) <= ps_applied_tier p)
      \/ (ps_applied_tier p < x.1 <= 2 /\ ps_applied_tier x.2 = x.1 /\ x.1 = tier_of (ps_score x.2))).
Proof.
  intros H0 H1 H2 Ha. unfold score_fold. set (s := ps_score p + _ + _) in *. cbn [ps_score set_score]. rewrite (u32_small s) by lia. rewrite !Z.geb_leb.
  change ANOMALY_T2_THRESHOLD with 40. change ANOMALY_T1_THRESHOLD with 20. fold (tier_of s). cbn [ps_applied_tier set_score].
  assert (tier_of s <= 2) by (unfold tier_of; repeat destruct (_ <=? s); lia).
  rewrite Z.gtb_ltb. destruct (_ <? _) eqn:E; bool_to_prop; cbn [fst snd]; (repeat split; try done).
  - right. cbn. lia.
  - left. cbn. lia.
Qed.

Lemma sync_burst_bounds kind mr2 p : sync_kind kind -> 0 <= ps_unlink_run p < 2 ^ 30 ->
  exists bonus p', sync_burst kind mr2 p = Some (bonus, p') /\ same_account p p' /\ 0 <= anomaly_weight kind + bonus <= 15 /\ 0 <= ps_unlink_run p' <= ps_unlink_run p + 1.
Proof.
  intros Hk Hr. unfold sync_burst. destruct (kind =? ANOMALY_EV_UNLINK) eqn:E; bool_to_prop.
  - subst kind. change (anomaly_weight ANOMALY_EV_UNLINK) with 2.
    set (r := ps_unlink_run (if ps_since_unlink p >? 8 then set_unlink_run 0 p else p)). assert (0 <= r <= ps_unlink_run p) as Hr' by (unfold r; destruct (_ >? 8); simpl; lia).
    do 2 eexists. split; [reflexivity|]. cbn [ps_unlink_run set_unlink_run set_since]. fold r. rewrite (u32_small (r + 1)) by lia. rewrite (u32_small (2 * (r + 1))) by lia.
    split; [by destruct (_ >? 8)|]. split; [|lia]. rewrite Z.gtb_ltb.
    destruct (_ <? 2 * (r + 1)) eqn:E12; bool_to_prop; destruct (negb _); rewrite !u32_small; rewrite ?u32_small; lia.
  - exists 0, (set_since (u32 (ps_since_unlink p + 1)) p). split; [destruct Hk as [->|[?|[->| ->]]]; done|]. split; [done|]. split; [|cbn; lia].
    destruct Hk as [->|[?|[->| ->]]]; vm_compute; split; congruence.
Qed.

(** The account of [pid] after an event: at most [c] more points, and the rest as [promotes] says. *)
Record accounts (procd_ep ntf : bool) (c : Z) (a a' : list pid_state) (pid t : Z) (d d' : procd) : Prop := {
  ac_len : length a' = length a;
  ac_score : 0 <= ps_score (pid_at a' pid) <= ps_score (pid_at a pid) + c;
  ac_run : 0 <= ps_unlink_run (pid_at a' pid) <= ps_unlink_run (pid_at a pid) + 1;
  ac_promotes : promotes procd_ep ntf (pid_at a pid) (pid_at a' pid) t d d';
}.

Section effects.
Context (orch_ep procd_ep ntf : bool).
Implicit Types (a : list pid_state) (d : procd).

Lemma sync_effect a d pid kind mr2 count slot :
  length a = ANOMALY_MAX_PIDS -> 1 <= pid < 16 -> sync_kind kind -> 1 <= count -> ps_write_count (pid_at a pid) <= count ->
  0 <= ps_score (pid_at a pid) < 2 ^ 31 -> 0 <= ps_unlink_run (pid_at a pid) < 2 ^ 30 -> 0 <= ps_applied_tier (pid_at a pid) ->
  let '(t, a', d') := anomaly_handle_sync procd_ep ntf a d pid kind mr2 count slot in
  accounts procd_ep ntf 40 a a' pid t d d'
  /\ ps_write_count (pid_at a' pid) = count /\ ps_promoted (pid_at a' pid) = ps_promoted (pid_at a pid)
  /\ ps_procd_slot (pid_at a' pid) = if slot =? 0 then ps_procd_slot (pid_at a pid) else slot.
Proof.
  intros Hl Hp Hk Hc Hw Hs Hr Ha. set (p := pid_at a pid) in *. unfold anomaly_handle_sync. rewrite (proj2 (scored pid)) by lia. simpl negb. cbv iota.
  rewrite (pid_at_upd a pid _ pid), decide_True by (done || lia). fold p. set (p1 := sync_tenant count slot p).
  assert (ps_score p1 = ps_score p /\ ps_unlink_run p1 = ps_unlink_run p /\ ps_applied_tier p1 = ps_applied_tier p /\ ps_promoted p1 = ps_promoted p
          /\ ps_write_count p1 = count /\ ps_procd_slot p1 = if slot =? 0 then ps_procd_slot p else slot) as (E1&E2&E3&E4&E5&E6).
  { unfold p1, sync_tenant. rewrite (proj2 (Z.eqb_neq count 0)) by lia. destruct (slot =? 0); simpl; rewrite (proj2 (Z.ltb_ge _ _)) by done; done. }
  destruct (sync_burst_bounds kind mr2 p1 Hk ltac:(lia)) as (bonus&p2&->&(F1&F2&F3&F4&F5)&Hb&Hrun).
  unfold anomaly_score_fold. rewrite (proj2 (scored pid)) by lia. simpl negb. cbv iota. rewrite !pid_at_upd, !decide_True by (rewrite ?length_upd; done || lia).
  destruct (score_fold_promotes kind bonus p2) as (G1&G2&G3&G4&G5&_&G); [lia..|].
  destruct (score_fold kind bonus p2) as [t p3]. cbn [fst snd] in *.
  assert (pid_at (upd_pid (upd_pid (upd_pid a pid (sync_tenant count slot)) pid (fun _ => p2)) pid (fun _ => p3)) pid = p3) as Eat by (by rewrite !pid_at_upd, !decide_True by (rewrite ?length_upd; done || lia)).
  split; [|rewrite Eat; split; [congruence|]; split; congruence].
  constructor; rewrite ?Eat; fold p; [by rewrite !length_upd|lia|lia|].
  destruct G as [(->&G&_)|(G&G'&_)]; [left; split; [done|]; split; [congruence|done]|right].
  split; [lia|]. split; [done|]. rewrite Z.gtb_ltb, (proj2 (Z.ltb_lt _ _)) by lia. done.
Qed.

(** An escalation of a process not escalated before. *)
Lemma escalate_effect a d pid kind :
  length a = ANOMALY_MAX_PIDS -> 1 <= pid < 16 -> anomaly_weight kind = 40 -> 0 <= ps_score (pid_at a pid) < 2 ^ 31 -> 0 <= ps_applied_tier (pid_at a pid) <= 2 ->
  let '(a', d') := escalate procd_ep ntf a d pid kind in
  length a' = length a /\ 0 <= ps_score (pid_at a' pid) <= ps_score (pid_at a pid) + 40 /\ ps_unlink_run (pid_at a' pid) = ps_unlink_run (pid_at a pid)
  /\ ps_applied_tier (pid_at a' pid) = 2 /\ ps_write_count (pid_at a' pid) = ps_write_count (pid_at a pid)
  /\ ps_procd_slot (pid_at a' pid) = ps_procd_slot (pid_at a pid) /\ d' = anomaly_procd_set_tier procd_ep ntf d (ps_procd_slot (pid_at a pid)) 2.
Proof.
  intros Hl Hp Hk Hs Ha. set (p := pid_at a pid) in *. unfold escalate, anomaly_fold_async, anomaly_score_fold. rewrite (proj2 (scored pid)) by lia. simpl negb. cbv iota.
  rewrite !pid_at_upd, !decide_True by (rewrite ?length_upd; done || lia). fold p.
  destruct (score_fold_promotes kind 0 (set_promoted true p)) as (G1&G2&_&G4&G5&_&G); [cbn; lia..|]. destruct (score_fold kind 0 (set_promoted true p)) as [t p3]. cbn [fst snd] in *.
  cbn [ps_score ps_applied_tier ps_write_count ps_procd_slot ps_unlink_run set_promoted] in *.
  rewrite !pid_at_upd, !decide_True by (rewrite ?length_upd; done || lia).
  cbn [ps_score ps_applied_tier ps_write_count ps_procd_slot ps_unlink_run set_since]. split; [by rewrite !length_upd|]. split; [lia|]. split; [done|].
  assert (tier_of (ps_score p3) = 2) by (unfold tier_of; rewrite (proj2 (Z.leb_le 40 _)) by lia; done).
  split; [destruct G as [(_&?&?)|(?&?&?)]; lia|]. done.
Qed.
End effects.

(** ** Agreement on the tier *)

(** lucas, the anomaly process and procd hold the same tier for the box, after [n] events. *)
Record agree (n : Z) (st : lucas_state) (a : list pid_state) (d : procd) : Prop := {
  ag_an : length a = ANOMALY_MAX_PIDS;
  ag_pd : length (g_procs d) = PROCD_MAX_PROCS;
  ag_pid : 1 <= l_synthetic_pid st <= 8;
  ag_index : l_slot_index st = l_synthetic_pid st - 1;
  ag_slot : 1 <= l_procd_slot st < 256;
  ag_live : p_state (proc_at d (Z.to_nat (l_procd_slot st))) <> PROC_STATE_FREE;
  ag_trusted : l_trusted st = false;
  ag_functor : l_functor st = lucas_functor_for_tier (l_tier st);
  ag_tier : 0 <= l_tier st <= 2;
  ag_procd : p_tier (proc_at d (Z.to_nat (l_procd_slot st))) = l_tier st;
  ag_applied : ps_applied_tier (pid_at a (l_synthetic_pid st)) = l_tier st;
  ag_promoted : ps_promoted (pid_at a (l_synthetic_pid st)) = true -> l_tier st = 2;
  ag_known : ps_procd_slot (pid_at a (l_synthetic_pid st)) = 0 \/ ps_procd_slot (pid_at a (l_synthetic_pid st)) = l_procd_slot st;
  ag_writes : 1 <= l_write_count st /\ ps_write_count (pid_at a (l_synthetic_pid st)) <= l_write_count st;
  ag_bound : l_write_count st + 40 * n < 2 ^ 30 /\ 0 <= n;
  ag_score : 0 <= ps_score (pid_at a (l_synthetic_pid st)) <= 40 * n;
  ag_run : 0 <= ps_unlink_run (pid_at a (l_synthetic_pid st)) <= n;
}.

Section tiers.
Context {B : Type} `{StorageOps B} (w : wiring) (Hwired : w_set_tier_ep w = true).
Implicit Types (x : box B) (a : list pid_state) (d : procd) (st : lucas_state).

Definition agrees (n : Z) x : Prop := agree n (bx_st x) (bx_an x) (bx_pd x).

Lemma emit_same pid type ts detail x :
  let x' := emit w pid type ts detail x in bx_st x' = bx_st x /\ bx_an x' = bx_an x /\ bx_pd x' = bx_pd x.
Proof. unfold emit. by destruct (sotguard_emit _ _ _ _) as [[r b] l]. Qed.

Lemma agrees_same n x x' : bx_st x' = bx_st x /\ bx_an x' = bx_an x /\ bx_pd x' = bx_pd x -> agrees n x -> agrees n x'.
Proof. unfold agrees. by intros (->&->&->). Qed.

(** SET_TIER on the slot of the box, by whoever may call it. *)
Lemma set_tier_agree n st a d t :
  agree n st a d -> 0 <= t <= 2 ->
  let d' := (call_set_tier d (w_ntf w) (l_procd_slot st) t).2 in
  length (g_procs d') = PROCD_MAX_PROCS /\ p_state (proc_at d' (Z.to_nat (l_procd_slot st))) <> PROC_STATE_FREE /\ p_tier (proc_at d' (Z.to_nat (l_procd_slot st))) = t.
Proof.
  intros A Ht. destruct (call_set_tier_spec d (w_ntf w) (l_procd_slot st) t (ag_pd _ _ _ _ A) (ag_slot _ _ _ _ A) (ag_live _ _ _ _ A) ltac:(lia)) as (H1&H2&H3).
  cbv zeta. split; [exact H1|]. rewrite H2, H3, decide_True by done. split; [exact (ag_live _ _ _ _ A)|done].
Qed.

(** An event changed the account of the box to tier [t'] and was answered; the answer is applied. *)
Lemma settle n x a' d' t :
  agrees n x -> l_write_count (bx_st x) + 40 * (n + 1) < 2 ^ 30 ->
  let p' := pid_at a' (l_synthetic_pid (bx_st x)) in
  length a' = ANOMALY_MAX_PIDS -> 0 <= ps_score p' <= 40 * (n + 1) -> 0 <= ps_unlink_run p' <= n + 1 ->
  ps_write_count p' <= l_write_count (bx_st x) -> (ps_procd_slot p' = 0 \/ ps_procd_slot p' = l_procd_slot (bx_st x)) ->
  (ps_promoted p' = true -> ps_applied_tier p' = 2) -> l_tier (bx_st x) <= ps_applied_tier p' <= 2 ->
  (t = 0 /\ ps_applied_tier p' = l_tier (bx_st x)) \/ t = ps_applied_tier p' ->
  d' = bx_pd x \/ d' = anomaly_procd_set_tier (w_procd_ep w) (w_ntf w) (bx_pd x) (ps_procd_slot p') (ps_applied_tier p') ->
  let x1 := with_servers a' d' x in
  let x2 := if t >? 0 then anomaly_apply_reply_tier w t x1 else x1 in
  agrees (n + 1) x2 /\ l_tier (bx_st x) <= l_tier (bx_st x2) /\ l_write_count (bx_st x2) = l_write_count (bx_st x) /\ l_synthetic_pid (bx_st x2) = l_synthetic_pid (bx_st x).
Proof using Hwired.
  intros A Hb p' Hl Hs Hr Hw Hk Hp Ha Ht Hd x1 x2. unfold agrees in *. set (st := bx_st x) in *. set (d := bx_pd x) in *. pose proof (ag_tier _ _ _ _ A) as Htier.
  assert (length (g_procs d') = PROCD_MAX_PROCS /\ p_state (proc_at d' (Z.to_nat (l_procd_slot st))) <> PROC_STATE_FREE
          /\ (p_tier (proc_at d' (Z.to_nat (l_procd_slot st))) = l_tier st \/ p_tier (proc_at d' (Z.to_nat (l_procd_slot st))) = ps_applied_tier p')) as (D1&D2&D3).
  { pose proof (ag_pd _ _ _ _ A). pose proof (ag_live _ _ _ _ A). pose proof (ag_procd _ _ _ _ A).
    destruct Hd as [->| ->]; [by auto|]. unfold anomaly_procd_set_tier. destruct (negb (w_procd_ep w) || _) eqn:E; [by auto|].
    apply orb_false_iff in E as [_ E]. bool_to_prop. destruct Hk as [?|Hk]; [done|]. rewrite Hk. destruct (set_tier_agree n st _ d (ps_applied_tier p') A ltac:(lia)) as (?&?&?). auto. }
  assert (ps_applied_tier p' = l_tier st -> agree (n + 1) st a' d') as Hstay.
  { intros E. destruct A. constructor; try done; try lia; [intros H1; rewrite <-E; by apply Hp|split; [lia|done]]. }
  unfold x2. destruct (t >? 0) eqn:Et; rewrite Z.gtb_ltb in Et; bool_to_prop.
  2: { split; [apply Hstay; lia|]. done. }
  unfold anomaly_apply_reply_tier, x1. cbn [bx_st with_servers]. fold st. destruct (t >? l_tier st) eqn:El; rewrite Z.gtb_ltb in El; bool_to_prop.
  2: { split; [apply Hstay; lia|]. done. }
  assert (t = ps_applied_tier p') as -> by lia. unfold lucas_set_tier. cbn [bx_st with_st l_trusted with_counters l_procd_slot bx_an bx_pd with_servers].
  rewrite (ag_trusted _ _ _ _ A). cbn [andb]. rewrite (proj2 (Z.eqb_neq (l_procd_slot st) 0)) by (pose proof (ag_slot _ _ _ _ A); lia). simpl negb. cbv iota.
  unfold orch_procd_set_tier. rewrite Hwired, (proj2 (Z.eqb_neq (l_procd_slot st) 0)) by (pose proof (ag_slot _ _ _ _ A); lia). cbn [negb orb].
  rewrite u32_small by lia. cbn [bx_st with_st with_servers bx_an bx_pd]. pose proof (ag_slot _ _ _ _ A).
  destruct (call_set_tier_spec d' (w_ntf w) (l_procd_slot st) (ps_applied_tier p') D1 ltac:(lia) D2 ltac:(lia)) as (E1&E2&E3).
  split; [|split; [cbn; lia|done]]. destruct A. constructor; cbn; try done; try lia.
  - by rewrite E2.
  - by rewrite E3, decide_True.
  - split; [lia|exact Hw].
Qed.

Lemma agree_weaken n st a d : agree n st a d -> l_write_count st + 40 * (n + 1) < 2 ^ 30 -> agree (n + 1) st a d.
Proof. intros A Hb. destruct A. constructor; try done; lia. Qed.

(** What the box holds after an event, and what it keeps. *)
Definition settled (n : Z) x x' : Prop :=
  agrees (n + 1) x' /\ l_tier (bx_st x) <= l_tier (bx_st x') /\ l_write_count (bx_st x') = l_write_count (bx_st x) /\ l_synthetic_pid (bx_st x') = l_synthetic_pid (bx_st x).

Lemma settled_same n x x1 x2 : bx_st x2 = bx_st x1 /\ bx_an x2 = bx_an x1 /\ bx_pd x2 = bx_pd x1 -> settled n x x1 -> settled n x x2.
Proof. unfold settled, agrees. by intros (->&->&->). Qed.

(** The counters of the producers do not matter. *)
Ltac drop_seqs := match goal with |- settled _ _ (with_seqs _ _ _ _ _ _ ?y) => eapply (settled_same _ _ y); [done|] end.

Lemma turn_sync oe pe ntf a d mr pid kind count slot :
  mr 0%nat = pid -> mr 1%nat = kind -> mr 3%nat = count -> mr 4%nat = slot ->
  sync_kind kind -> 1 <= pid <= 8 -> 0 <= count < 2 ^ 32 -> 0 <= slot < 2 ^ 32 ->
  anomaly_turn oe pe ntf a d ORCH_OP_ANOMALY_EVENT mr
  = let '(t, a, d) := anomaly_handle_sync pe ntf a d pid kind (mr 2%nat) count slot in ([t], a, d).
Proof.
  intros E0 E1 E3 E4 Hk Hp Hc Hs. unfold anomaly_turn. rewrite Z.eqb_refl, E0, E1, E3, E4. cbn [negb]. rewrite (u32_small count), (u32_small slot), (i32_small pid) by lia.
  destruct Hk as [->|[->|[->| ->]]]; reflexivity.
Qed.

Lemma forward_settled n x kind mag :
  agrees n x -> l_write_count (bx_st x) + 40 * (n + 1) < 2 ^ 30 -> sync_kind kind -> settled n x (forward_and_apply w kind mag x).
Proof using Hwired.
  intros A Hb Hk. pose proof A as []. unfold forward_and_apply, anomaly_forward_sync. rewrite (proj2 (Z.ltb_ge _ 1)) by lia. destruct (w_anomaly_ep w); cbn [negb orb].
  2: { cbn. split; [by apply agree_weaken|done]. }
  unfold call_anomaly. rewrite (turn_sync _ _ _ _ _ _ (l_synthetic_pid (bx_st x)) kind (l_write_count (bx_st x)) (l_procd_slot (bx_st x))) by (done || lia).
  pose proof (sync_effect (w_procd_ep w) (w_ntf w) (bx_an x) (bx_pd x) (l_synthetic_pid (bx_st x)) kind mag (l_write_count (bx_st x)) (l_procd_slot (bx_st x))) as He.
  cbv beta. change ([l_synthetic_pid (bx_st x); kind; mag; l_write_count (bx_st x); l_procd_slot (bx_st x)].[2%nat, 0]) with mag.
  destruct (anomaly_handle_sync _ _ _ _ _ _ _ _ _) as [[t a'] d']. destruct He as ([E1 E2 E3 E4]&E5&E6&E7); [done|lia|done|lia..|].
  rewrite (proj2 (Z.eqb_neq (l_procd_slot _) 0)) in E7 by lia. change ([t].[0%nat, l_synthetic_pid (bx_st x)]) with t.
  assert (0 <= t <= 2) by (destruct E4 as [(->&_)|(?&_)]; lia). rewrite (i32_small t) by lia.
  apply settle; [done|done|lia|lia|lia|lia|by right| | | |].
  - intros Hpr. rewrite E6 in Hpr. apply ag_promoted0 in Hpr. destruct E4 as [(_&->&_)|(?&->&_)]; lia.
  - destruct E4 as [(_&->&_)|(?&->&_)]; lia.
  - destruct E4 as [(->&->&_)|(?&->&_)]; [by left|by right].
  - destruct E4 as [(_&_&->)|(?&->&->)]; [by left|by right].
Qed.

Lemma own_promote n x a' d' t : agrees n x -> 0 < t -> orch_anomaly_apply_promote w (l_synthetic_pid (bx_st x)) t (with_servers a' d' x) = anomaly_apply_reply_tier w t (with_servers a' d' x).
Proof.
  intros [] Ht. unfold orch_anomaly_apply_promote. cbn [bx_st with_servers]. rewrite (proj2 (Z.leb_gt _ 0)), (proj2 (Z.ltb_ge _ 1)), Z.gtb_ltb, (proj2 (Z.ltb_ge _ _)) by (unfold SOTBOX_MAX_SLOTS; lia).
  cbn [orb]. by rewrite ag_index0, Z.eqb_refl.
Qed.

(** The account [p1] is that of [p] up to the bytes sent. *)
Definition same_but_bytes (p p1 : pid_state) : Prop :=
  ps_score p1 = ps_score p /\ ps_applied_tier p1 = ps_applied_tier p /\ ps_write_count p1 = ps_write_count p /\ ps_procd_slot p1 = ps_procd_slot p
  /\ ps_promoted p1 = ps_promoted p /\ ps_unlink_run p1 = ps_unlink_run p.

Lemma counted_settled n x a1 :
  agrees n x -> l_write_count (bx_st x) + 40 * (n + 1) < 2 ^ 30 -> length a1 = ANOMALY_MAX_PIDS ->
  same_but_bytes (pid_at (bx_an x) (l_synthetic_pid (bx_st x))) (pid_at a1 (l_synthetic_pid (bx_st x))) -> settled n x (with_servers a1 (bx_pd x) x).
Proof.
  intros A Hb Hl (E1&E2&E3&E4&E5&E6). split; [|done]. apply agree_weaken; [|done]. unfold agrees in A. destruct A. constructor; cbn; rewrite ?E1, ?E2, ?E3, ?E4, ?E5, ?E6; done.
Qed.

Lemma escalate_settled n x a1 kind :
  agrees n x -> l_write_count (bx_st x) + 40 * (n + 1) < 2 ^ 30 -> length a1 = ANOMALY_MAX_PIDS ->
  same_but_bytes (pid_at (bx_an x) (l_synthetic_pid (bx_st x))) (pid_at a1 (l_synthetic_pid (bx_st x))) -> anomaly_weight kind = 40 ->
  let '(a', d') := escalate (w_procd_ep w) (w_ntf w) a1 (bx_pd x) (l_synthetic_pid (bx_st x)) kind in
  settled n x (orch_anomaly_apply_promote w (l_synthetic_pid (bx_st x)) 2 (with_servers a' d' x)).
Proof using Hwired.
  intros A Hb Hl (E1&E2&E3&E4&E5&E6) Hk. pose proof A as [].
  pose proof (escalate_effect (w_procd_ep w) (w_ntf w) a1 (bx_pd x) (l_synthetic_pid (bx_st x)) kind Hl ltac:(lia) Hk ltac:(lia) ltac:(lia)) as He.
  destruct (escalate _ _ _ _ _ _) as [a' d']. destruct He as (F1&F2&F3&F4&F5&F6&F7). rewrite (own_promote n x a' d' 2 A ltac:(lia)).
  apply (settle n x a' d' 2); [done|done|lia|lia|lia|lia| |done|lia|by right|].
  - rewrite F6, E4. done.
  - right. by rewrite F4, F6.
Qed.

(** An event answered with a single tier that is 0 or comes with an escalation. *)
Lemma promote_settled n x (cond : bool) kind :
  agrees n x -> l_write_count (bx_st x) + 40 * (n + 1) < 2 ^ 30 -> anomaly_weight kind = 40 ->
  let '(t, a', d') := if cond then let '(a, d) := escalate (w_procd_ep w) (w_ntf w) (bx_an x) (bx_pd x) (l_synthetic_pid (bx_st x)) kind in (2, a, d) else (0, bx_an x, bx_pd x) in
  settled n x (if t >? 0 then orch_anomaly_apply_promote w (l_synthetic_pid (bx_st x)) t (with_servers a' d' x) else with_servers a' d' x) /\ (t = 0 \/ t = 2).
Proof using Hwired.
  intros A Hb Hk. assert (same_but_bytes (pid_at (bx_an x) (l_synthetic_pid (bx_st x))) (pid_at (bx_an x) (l_synthetic_pid (bx_st x)))) as Hsame by done. destruct cond.
  - pose proof (escalate_settled n x (bx_an x) kind A Hb (ag_an _ _ _ _ A) Hsame Hk) as He. destruct (escalate _ _ _ _ _ _) as [a' d']. split; [exact He|by right].
  - split; [|by left]. apply counted_settled; [done..|exact (ag_an _ _ _ _ A)|done].
Qed.

Lemma turn_promote oe pe ntf a d mr pid kind :
  mr 0%nat = pid -> mr 1%nat = kind -> 1 <= pid <= 8 ->
  kind = ANOMALY_EV_CURVATURE \/ kind = ANOMALY_EV_MSYSCALL \/ kind = ANOMALY_EV_TCP_OPEN ->
  exists cond, anomaly_turn oe pe ntf a d ORCH_OP_ANOMALY_EVENT mr
  = let '(t, a, d) := if cond : bool then let '(a, d) := escalate pe ntf a d pid kind in (2, a, d) else (0, a, d) in ([t], a, d).
Proof.
  intros E0 E1 Hp Hk. unfold anomaly_turn. rewrite Z.eqb_refl, E0, E1. cbn [negb]. rewrite (i32_small pid) by lia.
  destruct Hk as [->|[->| ->]]; eexists; reflexivity.
Qed.

Lemma event_settled n x mrs kind :
  agrees n x -> l_write_count (bx_st x) + 40 * (n + 1) < 2 ^ 30 -> mrs.[0%nat, 0] = l_synthetic_pid (bx_st x) -> mrs.[1%nat, 0] = kind ->
  kind = ANOMALY_EV_CURVATURE \/ kind = ANOMALY_EV_MSYSCALL \/ kind = ANOMALY_EV_TCP_OPEN ->
  let '(reply, x1) := call_anomaly w mrs x in
  exists t, reply = [t] /\ i32 t = t
    /\ settled n x (if t >? 0 then orch_anomaly_apply_promote w (l_synthetic_pid (bx_st x)) t x1 else x1).
Proof using Hwired.
  intros A Hb E0 E1 Hk. pose proof (ag_pid _ _ _ _ A) as Hp. unfold call_anomaly.
  destruct (turn_promote (w_orch_ep w) (w_procd_ep w) (w_ntf w) (bx_an x) (bx_pd x) (fun i => mrs.[i, 0]) (l_synthetic_pid (bx_st x)) kind E0 E1 Hp Hk) as [cond ->].
  pose proof (promote_settled n x cond kind A Hb ltac:(destruct Hk as [->|[->| ->]]; done)) as Hs.
  destruct (if cond then _ else _) as [[t a'] d']. destruct Hs as [Hs Ht]. exists t. split; [done|]. split; [destruct Ht as [->| ->]; done|done].
Qed.

Lemma tcp_settled n x ip rport lport :
  agrees n x -> l_write_count (bx_st x) + 40 * (n + 1) < 2 ^ 30 -> settled n x (tcp_audit_open w (l_synthetic_pid (bx_st x)) ip rport lport x).
Proof using Hwired.
  intros A Hb. pose proof (ag_pid _ _ _ _ A) as Hp. unfold tcp_audit_open. cbv zeta. eapply settled_same; [apply emit_same|]. drop_seqs.
  destruct (w_anomaly_ep w); [|split; [by apply agree_weaken|done]].
  match goal with |- context [call_anomaly w ?mrs x] => pose proof (event_settled n x mrs ANOMALY_EV_TCP_OPEN A Hb eq_refl eq_refl ltac:(tauto)) as He end.
  destruct (call_anomaly _ _ _) as [reply x1]. destruct He as (t&->&->&Hs).
  rewrite Z.geb_leb, (proj2 (Z.leb_le 1 _)), andb_true_r, u32_small by lia. exact Hs.
Qed.

Lemma msyscall_settled n x site sysno :
  agrees n x -> l_write_count (bx_st x) + 40 * (n + 1) < 2 ^ 30 -> settled n x (msyscall_first_hit w site sysno x).
Proof using Hwired.
  intros A Hb. pose proof (ag_pid _ _ _ _ A) as Hp. unfold msyscall_first_hit. cbv zeta. eapply settled_same; [apply emit_same|]. drop_seqs.
  destruct (w_anomaly_ep w); [|split; [by apply agree_weaken|done]].
  match goal with |- context [call_anomaly w ?mrs x] => pose proof (event_settled n x mrs ANOMALY_EV_MSYSCALL A Hb eq_refl eq_refl ltac:(tauto)) as He end.
  destruct (call_anomaly _ _ _) as [reply x1]. destruct He as (t&->&->&Hs). rewrite u32_small by lia. exact Hs.
Qed.

Lemma agrees_alerts n x k : agrees n x -> agrees n (with_st (with_counters (l_write_count (bx_st x)) (l_anomaly_triggers (bx_st x)) k (bx_st x)) x).
Proof. unfold agrees. intros []. by constructor. Qed.

Lemma curvature_settled n x rule severity :
  agrees n x -> l_write_count (bx_st x) + 40 * (n + 1) < 2 ^ 30 -> settled n x (sotfs_graph_curvature_anomaly_notify w (l_synthetic_pid (bx_st x)) rule severity x).
Proof using Hwired.
  intros A Hb. pose proof (ag_pid _ _ _ _ A) as Hp. unfold sotfs_graph_curvature_anomaly_notify. destruct (w_anomaly_ep w); simpl negb; cbv iota; [|split; [by apply agree_weaken|done]].
  rewrite u32_small, Z.eqb_refl, (proj2 (Z.eqb_neq _ 0)) by lia. cbn [negb andb].
  pose proof (agrees_alerts n x (u32 (l_curvature_alerts (bx_st x) + 1)) A) as A1. set (x0 := with_st _ x) in *.
  pose proof (event_settled n x0 [l_synthetic_pid (bx_st x); ANOMALY_EV_CURVATURE; rule; severity] ANOMALY_EV_CURVATURE A1 Hb eq_refl eq_refl ltac:(tauto)) as He.
  destruct (call_anomaly w _ x0) as [reply x1]. destruct He as (t&->&->&Hs). rewrite Z.geb_leb, (proj2 (Z.leb_le 1 _)), andb_true_r by lia.
  cbv zeta. eapply settled_same; [apply emit_same|]. drop_seqs. exact Hs.
Qed.

Lemma udp_settled n x ip port len :
  agrees n x -> l_write_count (bx_st x) + 40 * (n + 1) < 2 ^ 30 -> settled n x (udp_precommit w (l_synthetic_pid (bx_st x)) ip port len x).2.
Proof using Hwired.
  intros A Hb. pose proof A as []. unfold udp_precommit. destruct (w_anomaly_ep w).
  2: { cbv zeta. cbn [snd]. eapply settled_same; [apply emit_same|]. drop_seqs. split; [by apply agree_weaken|done]. }
  unfold call_anomaly, anomaly_turn. rewrite Z.eqb_refl. cbn [negb]. cbv beta.
  change ([l_synthetic_pid (bx_st x); ANOMALY_EV_NET_PRECOMMIT; ip; len].[0%nat, 0]) with (l_synthetic_pid (bx_st x)).
  change ([l_synthetic_pid (bx_st x); ANOMALY_EV_NET_PRECOMMIT; ip; len].[1%nat, 0]) with ANOMALY_EV_NET_PRECOMMIT.
  rewrite (i32_small (l_synthetic_pid _)) by lia. change (i32 ANOMALY_EV_NET_PRECOMMIT =? ANOMALY_EV_NET_PRECOMMIT) with true. cbv iota.
  unfold net_precommit. rewrite (proj2 (Z.leb_le 0 _)), (proj2 (Z.ltb_lt _ 16)) by lia. cbn [andb]. cbv zeta. set (a1 := upd_pid _ _ _).
  assert (length a1 = ANOMALY_MAX_PIDS) as Hl by (unfold a1; by rewrite length_upd).
  assert (same_but_bytes (pid_at (bx_an x) (l_synthetic_pid (bx_st x))) (pid_at a1 (l_synthetic_pid (bx_st x)))) as Hsame by (unfold a1; rewrite pid_at_upd, decide_True by (done || lia); done).
  match goal with |- context [if ?c then (let '(_, _) := escalate _ _ _ _ _ _ in _) else _] => destruct c end.
  - pose proof (escalate_settled n x a1 ANOMALY_EV_NET_PRECOMMIT A Hb Hl Hsame eq_refl) as He. destruct (escalate _ _ _ _ _ _) as [a' d'].
    cbn [snd]. eapply settled_same; [apply emit_same|]. drop_seqs. exact He.
  - cbn [snd]. eapply settled_same; [apply emit_same|]. drop_seqs. by apply counted_settled.
Qed.

(** ** Runs of one box *)

Inductive box_op :=
| OpWrite (fd bytes : Z) | OpOpen (path : list Z) | OpUnlink (path : list Z) | OpExec
| OpTcp (ip rport lport : Z) | OpUdp (ip port len : Z) | OpMsyscall (site sysno : Z) | OpCurvature (rule severity : Z).

Definition do_op x (o : box_op) : box B :=
  match o with
  | OpWrite fd bytes => anomaly_on_write w fd bytes x
  | OpOpen path => open_cred_signal w path x
  | OpUnlink path => unlink_signal w path x
  | OpExec => exec_signal w x
  | OpTcp ip rport lport => tcp_audit_open w (l_synthetic_pid (bx_st x)) ip rport lport x
  | OpUdp ip port len => (udp_precommit w (l_synthetic_pid (bx_st x)) ip port len x).2
  | OpMsyscall site sysno => msyscall_first_hit w site sysno x
  | OpCurvature rule severity => sotfs_graph_curvature_anomaly_notify w (l_synthetic_pid (bx_st x)) rule severity x
  end.

Lemma agrees_write n x k : agrees n x -> l_write_count (bx_st x) <= k -> k + 40 * n < 2 ^ 30 ->
  agrees n (with_st (with_counters k (l_anomaly_triggers (bx_st x)) (l_curvature_alerts (bx_st x)) (bx_st x)) x).
Proof. unfold agrees. intros [] Hk Hb. constructor; try done; cbn; lia. Qed.

(** A write, once it is counted. *)
Definition count_write x : box B :=
  with_st (with_counters (u32 (l_write_count (bx_st x) + 1)) (l_anomaly_triggers (bx_st x)) (l_curvature_alerts (bx_st x)) (bx_st x)) x.

Lemma write_counted n x fd bytes :
  agrees n (count_write x) -> l_write_count (bx_st (count_write x)) + 40 * (n + 1) < 2 ^ 30 -> fd <> 1 -> fd <> 2 ->
  let x' := anomaly_on_write w fd bytes x in
  agrees (n + 1) x' /\ l_tier (bx_st x) <= l_tier (bx_st x') /\ l_write_count (bx_st x') = l_write_count (bx_st (count_write x)).
Proof using Hwired.
  intros A Hb Hf1 Hf2. cbv zeta. unfold anomaly_on_write. rewrite (proj2 (Z.eqb_neq fd 1)), (proj2 (Z.eqb_neq fd 2)) by done. cbn [orb]. cbv zeta. fold (count_write x).
  match goal with |- context [emit w ?a ?b ?c ?d ?y] => pose proof (emit_same a b c d y) as He; set (x1 := emit w a b c d y) in * end. destruct He as (E1&E2&E3). clearbody x1.
  assert (agrees n x1) as A2 by (eapply agrees_same; [split; [exact E1|split; [exact E2|exact E3]]|]; exact A).
  rewrite (ag_trusted _ _ _ _ A2). cbv iota. destruct (forward_settled n x1 ANOMALY_EV_WRITE bytes A2) as (A3&Ht&Hw&_); [by rewrite E1|by left|].
  rewrite E1 in Ht, Hw. split; [exact A3|]. split; [exact Ht|exact Hw].
Qed.

Lemma write_settled n x fd bytes :
  agrees n x -> l_write_count (bx_st x) + 1 + 40 * (n + 1) < 2 ^ 30 ->
  let x' := anomaly_on_write w fd bytes x in
  agrees (n + 1) x' /\ l_tier (bx_st x) <= l_tier (bx_st x') /\ l_write_count (bx_st x') <= l_write_count (bx_st x) + 1.
Proof using Hwired.
  intros A Hb. cbv zeta. pose proof A as []. destruct (decide (fd = 1 \/ fd = 2)) as [Hc|Hc].
  - unfold anomaly_on_write. assert ((fd =? 1) || (fd =? 2) = true) as -> by (by destruct Hc as [->| ->]). split; [apply agree_weaken; [done|lia]|lia].
  - assert (l_write_count (bx_st (count_write x)) = l_write_count (bx_st x) + 1) as E by (unfold count_write; cbn; rewrite u32_small; lia).
    destruct (write_counted n x fd bytes) as (A1&Ht&Hw); [|lia|tauto|tauto|split; [done|lia]].
    unfold count_write. apply agrees_write; [done|rewrite u32_small; lia|rewrite u32_small; lia].
Qed.

Lemma do_op_agrees n x o :
  agrees n x -> l_write_count (bx_st x) + 1 + 40 * (n + 1) < 2 ^ 30 ->
  let x' := do_op x o in agrees (n + 1) x' /\ l_tier (bx_st x) <= l_tier (bx_st x') /\ l_write_count (bx_st x') <= l_write_count (bx_st x) + 1.
Proof using Hwired.
  intros A Hb. destruct o; cbv zeta; cbn [do_op]; [by apply write_settled|..].
  all: match goal with |- agrees _ ?x' /\ _ => assert (settled n x x') as (?&?&?&_); [|split; [done|lia]] end.
  - unfold open_cred_signal. assert (agrees (n + 1) x) by (apply agree_weaken; [done|lia]).
    destruct (sotos_path_is_cred_sensitive path); [|done]. destruct (lf_is_egress _); [done|]. apply forward_settled; [done|lia|unfold sync_kind; tauto].
  - apply forward_settled; [done|lia|unfold sync_kind; tauto].
  - apply forward_settled; [done|lia|unfold sync_kind; tauto].
  - apply tcp_settled; [done|lia].
  - apply udp_settled; [done|lia].
  - apply msyscall_settled; [done|lia].
  - apply curvature_settled; [done|lia].
Qed.

Lemma run_agrees n x ops :
  agrees n x -> l_write_count (bx_st x) + Z.of_nat (length ops) + 40 * (n + Z.of_nat (length ops)) < 2 ^ 30 ->
  agrees (n + Z.of_nat (length ops)) (fold_left do_op ops x) /\ l_tier (bx_st x) <= l_tier (bx_st (fold_left do_op ops x))
  /\ l_write_count (bx_st (fold_left do_op ops x)) <= l_write_count (bx_st x) + Z.of_nat (length ops).
Proof using Hwired.
  revert n x. induction ops as [|o ops IH]; intros n x A Hb; cbn [fold_left length] in *; [rewrite Z.add_0_r; split; [done|lia]|].
  pose proof (ag_bound _ _ _ _ A). destruct (do_op_agrees n x o A ltac:(lia)) as (A1&Ht&Hw). destruct (IH (n + 1) _ A1 ltac:(lia)) as (A2&Ht2&Hw2).
  replace (n + Z.of_nat (S (length ops))) with (n + 1 + Z.of_nat (length ops)) by lia. split; [exact A2|lia].
Qed.
End tiers.

(** ** Boxes just spawned *)

Record newborn_box {B} (x : box B) : Prop := {
  nb_pid : 1 <= l_synthetic_pid (bx_st x) <= 8;
  nb_index : l_slot_index (bx_st x) = l_synthetic_pid (bx_st x) - 1;
  nb_untrusted : l_trusted (bx_st x) = false;
  nb_tier : l_tier (bx_st x) = 0 /\ l_functor (bx_st x) = LUCAS_F_0 /\ l_write_count (bx_st x) = 0;
  nb_anomaly : bx_an x = anomaly_boot;
  nb_slot : 1 <= l_procd_slot (bx_st x) < 256;
  nb_table : length (g_procs (bx_pd x)) = PROCD_MAX_PROCS;
  nb_procd : p_state (proc_at (bx_pd x) (Z.to_nat (l_procd_slot (bx_st x)))) <> PROC_STATE_FREE /\ p_tier (proc_at (bx_pd x) (Z.to_nat (l_procd_slot (bx_st x)))) = 0;
}.

Lemma newborn_agrees {B} (x : box B) : newborn_box x -> agrees 0 (count_write x).
Proof.
  intros [Hp Hi Hu (Ht&Hf&Hw) Ha Hs Hl (Hd1&Hd2)]. unfold agrees, count_write. cbn [bx_st with_st bx_an bx_pd]. rewrite Ha, Hw. change (u32 (0 + 1)) with 1.
  constructor; cbn [l_synthetic_pid l_slot_index l_procd_slot l_trusted l_functor l_tier l_write_count with_counters]; rewrite ?boot_pid, ?Ht; cbn; try done; try lia.
Qed.


(** ** The syscall gate *)

Section gate.
Context {B : Type} `{StorageOps B} (w : wiring).
Implicit Types (x : box B).

Lemma set_tier_keeps t x :
  let x' := lucas_set_tier w t x in
  l_pledge (bx_st x') = l_pledge (bx_st x) /\ l_pledge_violations (bx_st x') = l_pledge_violations (bx_st x) /\ bx_an x' = bx_an x
  /\ l_synthetic_pid (bx_st x') = l_synthetic_pid (bx_st x) /\ l_procd_slot (bx_st x') = l_procd_slot (bx_st x) /\ l_trusted (bx_st x') = l_trusted (bx_st x)
  /\ l_write_count (bx_st x') = l_write_count (bx_st x).
Proof. unfold lucas_set_tier. destruct (_ && _); [done|]. by destruct (negb _). Qed.

Lemma call_violation x pid sysno : (call_anomaly w [pid; ANOMALY_EV_PLEDGE_VIOLATION; sysno] x).2 = with_servers (bx_an x) (bx_pd x) x.
Proof. done. Qed.

(** The tier changes of a violation. *)
Definition demoted x : box B :=
  let x := lucas_set_tier w 1 (with_st (with_pledge (l_pledge (bx_st x)) (u32 (l_pledge_violations (bx_st x) + 1)) (bx_st x)) x) in
  if (l_tier (bx_st x) =? 1) && (l_pledge_violations (bx_st x) >=? 3) then lucas_set_tier w 2 x else x.

Lemma violation_demoted sysno x :
  let x' := pledge_violation w sysno x in bx_st x' = bx_st (demoted x) /\ bx_an x' = bx_an (demoted x) /\ bx_pd x' = bx_pd (demoted x).
Proof.
  unfold pledge_violation. cbv zeta. fold (demoted x). destruct (w_anomaly_ep w).
  - rewrite call_violation. match goal with |- context [emit w ?a ?b ?c ?d ?y] => destruct (emit_same w a b c d y) as (->&->&->) end. done.
  - match goal with |- context [emit w ?a ?b ?c ?d ?y] => destruct (emit_same w a b c d y) as (->&->&->) end. done.
Qed.

Lemma demoted_pledge x : l_pledge (bx_st (demoted x)) = l_pledge (bx_st x) /\ bx_an (demoted x) = bx_an x.
Proof.
  unfold demoted. cbv zeta. set (x1 := with_st _ x). destruct (set_tier_keeps 1 x1) as (E1&_&E2&_). destruct (_ && _); [|by rewrite E1, E2].
  destruct (set_tier_keeps 2 (lucas_set_tier w 1 x1)) as (F1&_&F2&_). by rewrite F1, F2, E1, E2.
Qed.

Lemma category_range sysno args : 0 <= pledge_check_args sysno args < 2 ^ 64.
Proof.
  unfold pledge_check_args, pledge_category.
  repeat match goal with |- context [if ?b then _ else _] => destruct b end; vm_compute; split; congruence.
Qed.

Context (other : string -> list Z -> box B -> Z * box B).
Context (Hother : forall name args x, l_pledge (bx_st (other name args x).2) = l_pledge (bx_st x)).

Record syscall := mk_syscall { sc_page : Z -> option (list Z); sc_no : Z; sc_args : list Z }.
Definition sys_step x (s : syscall) : box B := (lucas_dispatch_call w (sc_page s) other (sc_no s) (sc_args s) x).2.

Lemma sys_step_narrows x s :
  0 <= l_pledge (bx_st x) < 2 ^ 64 -> submask (l_pledge (bx_st (sys_step x s))) (l_pledge (bx_st x)) /\ 0 <= l_pledge (bx_st (sys_step x s)) < 2 ^ 64.
Proof using Hother.
  intros Hm. assert (forall x', l_pledge (bx_st x') = l_pledge (bx_st x) -> submask (l_pledge (bx_st x')) (l_pledge (bx_st x)) /\ 0 <= l_pledge (bx_st x') < 2 ^ 64) as Hsame
    by (intros x' ->; split; [apply submask_refl|done]).
  unfold sys_step, lucas_dispatch_call. destruct (_ && _ && _).
  { apply Hsame. cbn [snd]. destruct (violation_demoted (sc_no s) x) as (->&_&_). apply demoted_pledge. }
  unfold run_handler. destruct (String.eqb _ "lucas_sys_pledge").
  { pose proof (sys_pledge_narrows (sc_page s) (bx_st x) ((sc_args s).[0%nat, 0]) Hm) as Hp. destruct (lucas_sys_pledge _ _ _) as [r st]. destruct Hp as (_&H1&H2&_). done. }
  destruct (String.eqb _ "lucas_sys_unveil").
  { apply Hsame. unfold lucas_sys_unveil. repeat match goal with |- context [if ?b then _ else _] => destruct b | |- context [match ?o with Some _ => _ | None => _ end] => destruct o end; done. }
  destruct (String.eqb _ "sys_noop"); [by apply Hsame|]. destruct (String.eqb _ "sys_enosys"); [by apply Hsame|]. apply Hsame, Hother.
Qed.

Lemma run_narrows x ss :
  0 <= l_pledge (bx_st x) < 2 ^ 64 -> submask (l_pledge (bx_st (fold_left sys_step ss x))) (l_pledge (bx_st x)) /\ 0 <= l_pledge (bx_st (fold_left sys_step ss x)) < 2 ^ 64.
Proof using Hother.
  revert x. induction ss as [|s ss IH]; intros x Hm; [split; [apply submask_refl|done]|]. destruct (sys_step_narrows x s Hm) as [H1 H2]. destruct (IH _ H2) as [H3 H4].
  cbn [fold_left]. split; [by eapply submask_trans|done].
Qed.
End gate.

(** C13: a pledge is irrevocable: whatever syscalls a box makes, pledge calls included, its mask
    only loses classes, and once a class is missing every syscall of that class is answered with
    a synthetic 0 and counted as a violation without running its handler, for as long as the box
    lives. *)
Theorem pledge_irrevocable {B} `{StorageOps B} (w : wiring) (other : string -> list Z -> box B -> Z * box B) (x0 : box B) (ss : list syscall) :
  (forall name args x, l_pledge (bx_st (other name args x).2) = l_pledge (bx_st x)) -> 0 <= l_pledge (bx_st x0) < 2 ^ 64 ->
  let x := fold_left (sys_step w other) ss x0 in
  submask (l_pledge (bx_st x)) (l_pledge (bx_st x0))
  /\ forall client_page sysno args, pledge_check_args sysno args <> 0 -> Z.land (l_pledge (bx_st x0)) (pledge_check_args sysno args) = 0 ->
       lucas_dispatch_call w client_page other sysno args x = (0, pledge_violation w sysno x).
Proof.
  intros Ho Hm. cbv zeta. destruct (run_narrows w other Ho x0 ss Hm) as [Hs _]. split; [done|]. intros page sysno args Hc Hd.
  pose proof (submask_disjoint _ _ _ Hs Hd) as Hx. unfold lucas_dispatch_call. rewrite Hx, Z.eqb_refl, andb_true_r, (proj2 (Z.eqb_neq _ 0)), andb_true_r by done.
  rewrite (proj2 (Z.eqb_neq _ PLEDGE_ALL)); [done|]. intros E. rewrite E in Hx. pose proof (submask_all _ (category_range sysno args)) as Ha.
  unfold submask in Ha. rewrite Z.land_comm in Ha. congruence.
Qed.

(** ** The gate lowers a tier *)

Section demotion.
Context {B : Type} `{StorageOps B} (w : wiring) (Hwired : w_set_tier_ep w = true).
Implicit Types (x : box B).

(** A box the score keeper has at Tier 2 and will not move again. *)
Record capped (n : Z) x : Prop := {
  cp_an : length (bx_an x) = ANOMALY_MAX_PIDS;
  cp_pid : 1 <= l_synthetic_pid (bx_st x) <= 8;
  cp_slot : 1 <= l_procd_slot (bx_st x) < 256;
  cp_trusted : l_trusted (bx_st x) = false;
  cp_applied : ps_applied_tier (pid_at (bx_an x) (l_synthetic_pid (bx_st x))) = 2;
  cp_writes : 1 <= l_write_count (bx_st x) /\ ps_write_count (pid_at (bx_an x) (l_synthetic_pid (bx_st x))) <= l_write_count (bx_st x);
  cp_bound : l_write_count (bx_st x) + 40 * n < 2 ^ 30 /\ 0 <= n;
  cp_score : 0 <= ps_score (pid_at (bx_an x) (l_synthetic_pid (bx_st x))) <= 40 * n;
  cp_run : 0 <= ps_unlink_run (pid_at (bx_an x) (l_synthetic_pid (bx_st x))) <= n;
}.

Definition still n x x' : Prop := capped n x' /\ l_tier (bx_st x') = l_tier (bx_st x) /\ l_procd_slot (bx_st x') = l_procd_slot (bx_st x)
  /\ bx_pd x' = bx_pd x /\ l_write_count (bx_st x') <= l_write_count (bx_st x) + 1.

Lemma forward_capped n x kind mag :
  capped n x -> l_write_count (bx_st x) + 40 * (n + 1) < 2 ^ 30 -> sync_kind kind ->
  let x' := forward_and_apply w kind mag x in capped (n + 1) x' /\ bx_st x' = bx_st x /\ bx_pd x' = bx_pd x.
Proof.
  intros C Hb Hk. pose proof C as []. cbv zeta. unfold forward_and_apply, anomaly_forward_sync. rewrite (proj2 (Z.ltb_ge _ 1)) by lia.
  assert (capped (n + 1) x) by (constructor; try done; lia). destruct (w_anomaly_ep w); cbn [negb orb]; [|done].
  unfold call_anomaly. rewrite (turn_sync _ _ _ _ _ _ (l_synthetic_pid (bx_st x)) kind (l_write_count (bx_st x)) (l_procd_slot (bx_st x))) by (done || lia).
  pose proof (sync_effect (w_procd_ep w) (w_ntf w) (bx_an x) (bx_pd x) (l_synthetic_pid (bx_st x)) kind mag (l_write_count (bx_st x)) (l_procd_slot (bx_st x))) as He.
  cbv beta. change ([l_synthetic_pid (bx_st x); kind; mag; l_write_count (bx_st x); l_procd_slot (bx_st x)].[2%nat, 0]) with mag.
  destruct (anomaly_handle_sync _ _ _ _ _ _ _ _ _) as [[t a'] d']. destruct He as ([E1 E2 E3 E4]&E5&E6&E7); [done|lia|done|lia..|].
  destruct E4 as [(->&E4&->)|(?&_)]; [|lia]. change (i32 [0].[0%nat, l_synthetic_pid (bx_st x)] >? 0) with false. cbv iota. split; [|done].
  constructor; cbn [with_servers bx_st bx_an]; rewrite ?E4, ?E5; try done; lia.
Qed.

(** The score-driven signals. *)
Definition scored_op (o : box_op) : Prop := match o with OpWrite _ _ | OpOpen _ | OpUnlink _ | OpExec => True | _ => False end.

Lemma op_still n x o : capped n x -> l_write_count (bx_st x) + 1 + 40 * (n + 1) < 2 ^ 30 -> scored_op o -> still (n + 1) x (do_op w x o).
Proof.
  intros C Hb Ho. pose proof C as [].
  assert (forall kind mag, sync_kind kind -> still (n + 1) x (forward_and_apply w kind mag x)) as Hfwd.
  { intros kind mag Hk. destruct (forward_capped n x kind mag C ltac:(lia) Hk) as (C'&E1&E2). unfold still. rewrite E1. split; [done|]. split; [done|]. split; [done|]. split; [done|lia]. }
  assert (still (n + 1) x x) as Hx by (split; [constructor; try done; lia|]; split; [done|]; split; [done|]; split; [done|lia]).
  destruct o; try done; cbn [do_op].
  - unfold anomaly_on_write. destruct ((fd =? 1) || (fd =? 2)); [done|]. cbv zeta.
    match goal with |- context [emit w ?a ?b ?c ?d ?y] => pose proof (emit_same w a b c d y) as He; set (x1 := emit w a b c d y) in * end. destruct He as (E1&E2&E3). clearbody x1.
    rewrite u32_small in E1 by lia. assert (capped n x1) as C1 by (constructor; rewrite ?E1, ?E2; cbn; try done; lia).
    rewrite (cp_trusted _ _ C1). destruct (forward_capped n x1 ANOMALY_EV_WRITE bytes C1) as (C'&F1&F2); [rewrite E1; cbn; lia|by left|].
    unfold still. rewrite F1, F2, E1, E3. split; [done|]. cbn. split; [done|]. split; [done|]. split; [done|lia].
  - unfold open_cred_signal. destruct (sotos_path_is_cred_sensitive path); [|done]. destruct (lf_is_egress _); [done|]. apply Hfwd. unfold sync_kind; tauto.
  - apply Hfwd. unfold sync_kind; tauto.
  - apply Hfwd. unfold sync_kind; tauto.
Qed.

Lemma run_still n x ops :
  capped n x -> Forall scored_op ops -> l_write_count (bx_st x) + Z.of_nat (length ops) + 40 * (n + Z.of_nat (length ops)) < 2 ^ 30 ->
  let x' := fold_left (do_op w) ops x in l_tier (bx_st x') = l_tier (bx_st x) /\ l_procd_slot (bx_st x') = l_procd_slot (bx_st x) /\ bx_pd x' = bx_pd x.
Proof.
  intros C Ho. revert n x C. induction Ho as [|o ops Ho Hops IH]; intros n x C Hb; cbn [fold_left length] in *; [done|].
  pose proof (cp_bound _ _ C). destruct (op_still n x o C ltac:(lia) Ho) as (C1&E1&E2&E3&Hw). destruct (IH (n + 1) _ C1 ltac:(lia)) as (F1&F2&F3).
  cbv zeta. rewrite F1, F2, F3. done.
Qed.

Lemma demoted_lowers n x :
  agrees n x -> l_tier (bx_st x) = 2 -> 0 <= l_pledge_violations (bx_st x) <= 1 ->
  l_tier (bx_st (demoted w x)) = 1 /\ p_tier (proc_at (bx_pd (demoted w x)) (Z.to_nat (l_procd_slot (bx_st (demoted w x))))) = 1 /\ capped n (demoted w x).
Proof using Hwired.
  intros A Ht Hv. pose proof A as []. unfold demoted, lucas_set_tier. cbn [bx_st with_st l_trusted with_pledge l_procd_slot with_servers bx_an bx_pd l_tier with_tier_functor l_pledge_violations].
  rewrite ag_trusted0, (proj2 (Z.eqb_neq (l_procd_slot (bx_st x)) 0)) by lia. cbn [andb negb]. unfold orch_procd_set_tier. rewrite Hwired, (proj2 (Z.eqb_neq (l_procd_slot (bx_st x)) 0)) by lia.
  cbn [negb orb bx_st with_st with_servers with_pledge l_tier with_tier_functor l_pledge_violations]. rewrite (u32_small (_ + 1)), Z.geb_leb, (proj2 (Z.leb_gt 3 _)), andb_false_r by lia.
  cbn [bx_st with_st with_servers bx_pd l_tier with_tier_functor l_procd_slot]. change (u32 1) with 1.
  destruct (call_set_tier_spec (bx_pd x) (w_ntf w) (l_procd_slot (bx_st x)) 1 ag_pd0 ag_slot0 ag_live0 ltac:(lia)) as (_&_&E). cbn in E.
  split; [done|]. split; [cbn; by rewrite E, decide_True|]. constructor; cbn; try done; lia.
Qed.
End demotion.

(** A pledge violation lowers the trust tier instead of raising it: a box that its score put
    at Tier 2 and that makes a first or second syscall outside its pledge drops to Tier 1, in
    lucas and in procd, and stays there whatever it writes, deletes, executes or reads after
    that, because the score keeper believes it is still at Tier 2. *)
Theorem pledge_violation_demotes {B} `{StorageOps B} (w : wiring) (n : Z) (x : box B) (sysno : Z) (ops : list box_op) :
  w_set_tier_ep w = true -> agrees n x -> l_tier (bx_st x) = 2 -> 0 <= l_pledge_violations (bx_st x) <= 1 ->
  Forall scored_op ops -> l_write_count (bx_st x) + Z.of_nat (length ops) + 40 * (n + Z.of_nat (length ops)) < 2 ^ 30 ->
  let x' := fold_left (do_op w) ops (pledge_violation w sysno x) in
  l_tier (bx_st x') = 1 /\ p_tier (proc_at (bx_pd x') (Z.to_nat (l_procd_slot (bx_st x')))) = 1.
Proof.
  intros Hw A Ht Hv Ho Hb. cbv zeta. destruct (demoted_lowers w Hw n x A Ht Hv) as (E1&E2&C). destruct (violation_demoted w sysno x) as (F1&F2&F3).
  assert (capped n (pledge_violation w sysno x)) as C' by (destruct C; constructor; rewrite ?F1, ?F2; done).
  assert (l_write_count (bx_st (demoted w x)) = l_write_count (bx_st x)) as Hwc.
  { unfold demoted. cbv zeta. set (y := with_st _ x). destruct (set_tier_keeps w 1 y) as (_&_&_&_&_&_&G1). destruct (_ && _); [|exact G1].
    destruct (set_tier_keeps w 2 (lucas_set_tier w 1 y)) as (_&_&_&_&_&_&G2). by rewrite G2. }
  destruct (run_still w n _ ops C' Ho) as (G1&G2&G3); [rewrite F1, Hwc; exact Hb|]. rewrite G1, G2, G3, F1, F3. done.
Qed.

(** ** Concrete runs *)

Import Image.

Module TierDemo.
Definition wired : wiring := mk_wiring true true true true true false.
Definition pd : procd := (procd_serve procd_boot true [(0, fun i => [PROCD_OP_SPAWN; 0; 0; 7].[i, 0])]).2.
Definition st (trusted : bool) (pledge : Z) : lucas_state := mk_lucas 1 0 1 [] 0 trusted LUCAS_F_0 0 0 0 pledge 0 no_unveil.
Definition start (trusted : bool) (pledge : Z) : box disk := mk_box (st trusted pledge) anomaly_boot pd sotguard_event_init wal_boot 0 0 0 0 0 0.
Definition write : box_op := OpWrite 3 10.
Definition shadow : box_op := OpOpen (STR "/etc/shadow").
(** The tiers in lucas, in procd and in the score keeper. *)
Definition tiers (x : box disk) : Z * Z * Z := (l_tier (bx_st x), p_tier (proc_at (bx_pd x) 1), ps_applied_tier (pid_at (bx_an x) 1)).
Definition no_handlers (name : string) (args : list Z) (x : box disk) : Z * box disk := (-38, x).

Lemma newborn_start pledge : newborn_box (start false pledge).
Proof. constructor; cbn; try done; try lia; vm_compute; split; congruence. Qed.
End TierDemo.
Import TierDemo.

Definition demo_ops : list box_op := [shadow; OpExec; OpUdp 0x08080808 53 100].
Definition demo_ops' : list box_op := [shadow; OpUnlink (STR "/tmp/a")].


Lemma pledge_irrevocable_witness :
  let page (b : Z) := if b =? 0x1000 then Some (STR "stdio rpath lucas" ++ replicate 4079 0) else None in
  let x := fold_left (sys_step wired no_handlers) [mk_syscall page LX_SYS_pledge [0x1000]; mk_syscall page LX_SYS_pledge [0x1000]] (start false (bits [PLEDGE_STDIO; PLEDGE_RPATH; PLEDGE_LUCAS; PLEDGE_TTY])) in
  lucas_dispatch_call wired page no_handlers LX_SYS_openat [0; 0; 1] x = (0, pledge_violation wired LX_SYS_openat x).
Proof.
  cbv zeta. apply (pledge_irrevocable wired no_handlers (start false (bits [PLEDGE_STDIO; PLEDGE_RPATH; PLEDGE_LUCAS; PLEDGE_TTY]))); [done|vm_compute; split; congruence|vm_compute; discriminate|vm_compute; reflexivity].
Defined.

Lemma pledge_violation_demotes_witness :
  let x := fold_left (do_op wired) [write; shadow; shadow; shadow] (start false PLEDGE_T_COMPUTE_ONLY) in
  let x' := fold_left (do_op wired) [shadow; shadow; OpExec; write] (pledge_violation wired LX_SYS_socket x) in
  tiers x = (2, 2, 2) /\ l_tier (bx_st x') = 1 /\ p_tier (proc_at (bx_pd x') (Z.to_nat (l_procd_slot (bx_st x')))) = 1.
Proof.
  cbv zeta. split; [vm_compute; reflexivity|].
  apply (pledge_violation_demotes wired 4 (fold_left (do_op wired) [write; shadow; shadow; shadow] (start false PLEDGE_T_COMPUTE_ONLY)) LX_SYS_socket [shadow; shadow; OpExec; write]);
    [reflexivity| |vm_compute; reflexivity|vm_compute; split; congruence|repeat constructor|vm_compute; reflexivity].
  constructor; try (vm_compute; first [reflexivity|split; congruence|right; reflexivity|discriminate]).
Defined.

(** The watermark that should reset the score for a new tenant also fires for a process whose
    first write comes after two other signals: three reads of a credential file put it at Tier
    2 everywhere, its first write erases the score, and twenty writes later the score keeper
    lowers the authoritative tier in procd to 1 while lucas still has 2. *)
Theorem first_write_forgets :
  let x3 := fold_left (do_op wired) [shadow; shadow; shadow] (start false PLEDGE_ALL) in
  let x4 := do_op wired x3 write in
  let x23 := fold_left (do_op wired) (replicate 19 write) x4 in
  tiers x3 = (2, 2, 2) /\ ps_score (pid_at (bx_an x3) 1) = 45 /\ tiers x4 = (2, 2, 0) /\ ps_score (pid_at (bx_an x4) 1) = 1 /\ tiers x23 = (2, 1, 1).
Proof. vm_compute. repeat split. Qed.

(** The tier of a trusted box is pinned in lucas only: five execs put it at Tier 2 in procd. *)
Theorem trusted_box_diverges : tiers (fold_left (do_op wired) (replicate 5 OpExec) (start true PLEDGE_ALL)) = (0, 2, 2).
Proof. vm_compute. reflexivity. Qed.

(** Handlers that create, delete or rename files or start processes and have no pledge class, so
    that a box pledged to stdio and rpath alone still reaches them. *)
Theorem pledge_gaps :
  Forall (fun sysno => forall client_page x, l_pledge (bx_st x) = PLEDGE_T_COMPUTE_ONLY ->
            lucas_dispatch_call wired client_page no_handlers sysno [] x = no_handlers (lucas_dispatch sysno) [] x)
    [LX_SYS_creat; LX_SYS_unlink; LX_SYS_unlinkat; LX_SYS_mkdir; LX_SYS_rmdir; LX_SYS_rename; LX_SYS_truncate; LX_SYS_chmod; LX_SYS_vfork; LX_SYS_clone3; LX_SYS_sendmmsg].
Proof. repeat (constructor; [intros page x E; unfold lucas_dispatch_call; rewrite E; reflexivity|]). constructor. Qed.
