(* ===== verification/SotInit.v ===== *)
(** * sotinit: units, dependency order, activation, restart

    src/sotinit: unit_registry.c, ini_parser.c, scan.c, sotfs_scan.c, topo_sort.c,
    launcher.c, queries.c, restart.c, audit_ipc.c and the loop of main.c, with
    include/sotinit.

    The registry only grows, so [g_units] is the list of the slots in use and a pointer
    to a unit its position.  Strings are lists of bytes without their NUL; what a
    [strncpy] into an array of [n] bytes leaves is [strncpy_n n].  The calls to procd go
    to the dispatcher of ProcdServer; the messages to the audit endpoint of orch are
    collected in [audits].  Printing is left out, except that the line
    [sotinit_on_proc_exited] prints is its result. *)

From S2P Require Import Prelude ProcdTable ProcdServer.

(** ** Units *)

Definition SOTINIT_MAX_UNITS : nat := 64.
Definition SOTINIT_NAME_MAX : nat := 64.
Definition SOTINIT_DESC_MAX : nat := 128.
Definition SOTINIT_EXEC_MAX : nat := 256.
Definition SOTINIT_MAX_AFTER : nat := 3.

Definition UNIT_KIND_SERVICE : Z := 1.
Definition UNIT_KIND_TIMER : Z := 2.
Definition UNIT_KIND_TARGET : Z := 3.

Definition UNIT_STATE_LOADED : Z := 1.
Definition UNIT_STATE_ACTIVE : Z := 2.
Definition UNIT_STATE_FAILED : Z := 3.
Definition UNIT_STATE_DISABLED : Z := 4.

Definition UNIT_FLAG_F_PERSISTENCE : Z := 1.
Definition UNIT_FLAG_ACTIVATE_LOGGED : Z := 2.

(** [u_after] holds the first [after_count] names. *)
Record unit_t := mk_unit {
  u_index : Z; u_kind : Z; u_state : Z; u_name : list Z; u_description : list Z; u_exec_start : list Z;
  u_on_calendar : list Z; u_timer_unit : list Z; u_procd_slot : Z; u_restart_policy : Z; u_after : list (list Z); u_flags : Z }.

Definition zero_unit : unit_t := mk_unit 0 0 0 [] [] [] [] [] 0 0 [] 0.

Definition set_kind (x : Z) (u : unit_t) : unit_t :=
  mk_unit (u_index u) x (u_state u) (u_name u) (u_description u) (u_exec_start u) (u_on_calendar u) (u_timer_unit u) (u_procd_slot u) (u_restart_policy u) (u_after u) (u_flags u).
Definition set_state (x : Z) (u : unit_t) : unit_t :=
  mk_unit (u_index u) (u_kind u) x (u_name u) (u_description u) (u_exec_start u) (u_on_calendar u) (u_timer_unit u) (u_procd_slot u) (u_restart_policy u) (u_after u) (u_flags u).
Definition set_name (x : list Z) (u : unit_t) : unit_t :=
  mk_unit (u_index u) (u_kind u) (u_state u) x (u_description u) (u_exec_start u) (u_on_calendar u) (u_timer_unit u) (u_procd_slot u) (u_restart_policy u) (u_after u) (u_flags u).
Definition set_description (x : list Z) (u : unit_t) : unit_t :=
  mk_unit (u_index u) (u_kind u) (u_state u) (u_name u) x (u_exec_start u) (u_on_calendar u) (u_timer_unit u) (u_procd_slot u) (u_restart_policy u) (u_after u) (u_flags u).
Definition set_exec_start (x : list Z) (u : unit_t) : unit_t :=
  mk_unit (u_index u) (u_kind u) (u_state u) (u_name u) (u_description u) x (u_on_calendar u) (u_timer_unit u) (u_procd_slot u) (u_restart_policy u) (u_after u) (u_flags u).
Definition set_on_calendar (x : list Z) (u : unit_t) : unit_t :=
  mk_unit (u_index u) (u_kind u) (u_state u) (u_name u) (u_description u) (u_exec_start u) x (u_timer_unit u) (u_procd_slot u) (u_restart_policy u) (u_after u) (u_flags u).
Definition set_timer_unit (x : list Z) (u : unit_t) : unit_t :=
  mk_unit (u_index u) (u_kind u) (u_state u) (u_name u) (u_description u) (u_exec_start u) (u_on_calendar u) x (u_procd_slot u) (u_restart_policy u) (u_after u) (u_flags u).
Definition set_unit_slot (x : Z) (u : unit_t) : unit_t :=
  mk_unit (u_index u) (u_kind u) (u_state u) (u_name u) (u_description u) (u_exec_start u) (u_on_calendar u) (u_timer_unit u) x (u_restart_policy u) (u_after u) (u_flags u).
Definition set_restart_policy (x : Z) (u : unit_t) : unit_t :=
  mk_unit (u_index u) (u_kind u) (u_state u) (u_name u) (u_description u) (u_exec_start u) (u_on_calendar u) (u_timer_unit u) (u_procd_slot u) x (u_after u) (u_flags u).
Definition set_after (x : list (list Z)) (u : unit_t) : unit_t :=
  mk_unit (u_index u) (u_kind u) (u_state u) (u_name u) (u_description u) (u_exec_start u) (u_on_calendar u) (u_timer_unit u) (u_procd_slot u) (u_restart_policy u) x (u_flags u).
Definition set_flags (x : Z) (u : unit_t) : unit_t :=
  mk_unit (u_index u) (u_kind u) (u_state u) (u_name u) (u_description u) (u_exec_start u) (u_on_calendar u) (u_timer_unit u) (u_procd_slot u) (u_restart_policy u) (u_after u) x.

Definition strncpy_n (n : nat) (src : list Z) : list Z := take (n - 1) src.

(** ** The registry *)

Definition unit_at (us : list unit_t) (i : nat) : unit_t := us.[i, zero_unit].

Definition sotinit_unit_alloc (us : list unit_t) : option nat * list unit_t :=
  if (SOTINIT_MAX_UNITS <=? length us)%nat then (None, us)
  else (Some (length us), us ++ [set_state UNIT_STATE_LOADED (mk_unit (Z.of_nat (length us)) 0 0 [] [] [] [] [] 0 0 [] 0)]).

Definition sotinit_unit_by_index (us : list unit_t) (idx : Z) : option nat :=
  if Z.of_nat (length us) <=? idx then None else Some (Z.to_nat idx).
Definition sotinit_unit_by_name (us : list unit_t) (name : list Z) : option nat :=
  first_below (fun i => bool_decide (u_name (unit_at us i) = name)) (length us).
Definition sotinit_unit_by_procd_slot (us : list unit_t) (slot : Z) : option nat :=
  if slot =? 0 then None else first_below (fun i => u_procd_slot (unit_at us i) =? slot) (length us).

(** ** The ini parser *)

Inductive ini_section := INI_SECTION_NONE | INI_SECTION_UNIT | INI_SECTION_SERVICE | INI_SECTION_TIMER | INI_SECTION_INSTALL.

Definition section_from_name (name : list Z) : ini_section :=
  if bool_decide (name = STR "Unit") then INI_SECTION_UNIT
  else if bool_decide (name = STR "Service") then INI_SECTION_SERVICE
  else if bool_decide (name = STR "Timer") then INI_SECTION_TIMER
  else if bool_decide (name = STR "Install") then INI_SECTION_INSTALL
  else INI_SECTION_NONE.

Definition NL : Z := 10.
Definition is_blank (c : Z) : bool := (c =? 32) || (c =? 9).
Definition is_trailing (c : Z) : bool := is_blank c || (c =? NL) || (c =? 13).

Definition trim (s : list Z) : list Z := reverse (span is_trailing (reverse (span is_blank s).2)).2.

(** [strchr]: what is before and after the first [c]. *)
Fixpoint strchr (c : Z) (s : list Z) : option (list Z * list Z) :=
  match s with
  | [] => None
  | x :: s' => if x =? c then Some ([], s') else match strchr c s' with Some (a, b) => Some (x :: a, b) | None => None end
  end.

Section ini.
Context {A : Type} (cb : ini_section -> list Z -> list Z -> A -> Z * A).

(** One turn of the loop on the text of a line: the section and the count and user data. *)
Definition ini_line (current : ini_section) (line : list Z) (st : Z * A) : ini_section * (Z * A) :=
  let trimmed := trim (c_str (take 255 line)) in
  match trimmed with
  | [] => (current, st)
  | c :: _ =>
      if (c =? 35) || (c =? 59) then (current, st)
      else if c =? 91 then
        match strchr 93 trimmed with
        | Some (pre, _) => (section_from_name (drop 1 pre), st)
        | None => (current, st)
        end
      else match strchr 61 trimmed with
           | None => (current, st)
           | Some (key, value) =>
               let '(rc, a) := cb current (trim key) (trim value) st.2 in
               (current, (if rc =? 0 then i32 (st.1 + 1) else st.1, a))
           end
  end.

(** A turn consumes a byte, so the length of the buffer is fuel. *)
Fixpoint ini_loop (fuel : nat) (buf : list Z) (current : ini_section) (st : Z * A) : Z * A :=
  match fuel, buf with
  | O, _ | _, [] => st
  | S fuel', _ =>
      let '(line, rest) := span (fun c => negb (c =? NL)) buf in
      let '(current, st) := ini_line current line st in
      ini_loop fuel' (drop 1 rest) current st
  end.

Definition sotinit_ini_parse (buf : list Z) (userdata : A) : Z * A := ini_loop (length buf) buf INI_SECTION_NONE (0, userdata).
End ini.

(** ** The scan of unit files *)

Fixpoint after_loop (fuel : nat) (p : list Z) (after : list (list Z)) : list (list Z) :=
  match fuel with
  | O => after
  | S fuel' =>
      if bool_decide (p = []) || (SOTINIT_MAX_AFTER <=? length after)%nat then after
      else
        let p := (span is_blank p).2 in
        if bool_decide (p = []) then after
        else let '(tok, p) := span (fun c => negb (is_blank c)) p in
             after_loop fuel' p (after ++ [take (SOTINIT_NAME_MAX - 1) tok])
  end.

Definition kv_callback (section : ini_section) (key value : list Z) (u : unit_t) : Z * unit_t :=
  (0, match section with
      | INI_SECTION_UNIT =>
          if bool_decide (key = STR "Description") then set_description (strncpy_n SOTINIT_DESC_MAX value) u
          else if bool_decide (key = STR "After") then set_after (after_loop (S (length value)) value (u_after u)) u
          else u
      | INI_SECTION_SERVICE =>
          if bool_decide (key = STR "ExecStart") then set_exec_start (strncpy_n SOTINIT_EXEC_MAX value) u
          else if bool_decide (key = STR "Restart") then
            if bool_decide (value = STR "no") then set_restart_policy 0 u
            else if bool_decide (value = STR "on-failure") then set_restart_policy 1 u
            else if bool_decide (value = STR "always") then set_restart_policy 2 u
            else u
          else u
      | INI_SECTION_TIMER =>
          if bool_decide (key = STR "OnCalendar") then set_on_calendar (strncpy_n 64 value) u
          else if bool_decide (key = STR "OnUnitActiveSec") then set_on_calendar (strncpy_n 64 value) u
          else if bool_decide (key = STR "Unit") then set_timer_unit (strncpy_n 64 value) u
          else u
      | _ => u
      end).

(** [strrchr]: the string from the last [c] on. *)
Fixpoint strrchr (c : Z) (s : list Z) : option (list Z) :=
  match s with
  | [] => None
  | x :: s' => match strrchr c s' with Some r => Some r | None => if x =? c then Some s else None end
  end.

Definition kind_from_filename (name : list Z) : Z :=
  match strrchr 46 name with
  | None => 0
  | Some dot =>
      if bool_decide (dot = STR ".service") then UNIT_KIND_SERVICE
      else if bool_decide (dot = STR ".timer") then UNIT_KIND_TIMER
      else if bool_decide (dot = STR ".target") then UNIT_KIND_TARGET
      else 0
  end.

Definition text (ls : list (list Z)) : list Z := concat ((fun l => l ++ [NL]) <$> ls).
Definition k_demo_multi_user_target : list Z := text [STR "[Unit]"; STR "Description=Multi-user run level"].
Definition k_demo_noop_service : list Z :=
  text [STR "[Unit]"; STR "Description=Beta-demo no-op service"; STR "[Service]"; STR "Type=simple"; STR "ExecStart=/bin/true"; STR "[Install]"; STR "WantedBy=multi-user.target"].
Definition k_demo_a_service : list Z :=
  text [STR "[Unit]"; STR "Description=Demo A (first)"; STR "[Service]"; STR "Type=simple"; STR "ExecStart=/bin/true"].
Definition k_demo_b_service : list Z :=
  text [STR "[Unit]"; STR "Description=Demo B (after A)"; STR "After=demo-a.service"; STR "[Service]"; STR "Type=simple"; STR "ExecStart=/bin/true"].
Definition k_demo_fail_service : list Z :=
  text [STR "[Unit]"; STR "Description=Demo failure (exits 1)"; STR "[Service]"; STR "Type=simple"; STR "ExecStart=/bin/false"; STR "Restart=on-failure"].
Definition g_bundled : list (list Z * list Z) :=
  [(STR "multi-user.target", k_demo_multi_user_target); (STR "demo-noop.service", k_demo_noop_service);
   (STR "demo-b.service", k_demo_b_service); (STR "demo-a.service", k_demo_a_service); (STR "demo-fail.service", k_demo_fail_service)].

(** The loop over the files; a full registry ends it. *)
Fixpoint scan_loop (files : list (list Z * list Z)) (us : list unit_t) (loaded : Z) : Z * list unit_t :=
  match files with
  | [] => (loaded, us)
  | (name, body) :: files' =>
      let kind := kind_from_filename name in
      if kind =? 0 then scan_loop files' us loaded
      else match sotinit_unit_alloc us with
           | (None, us) => (loaded, us)
           | (Some i, us) =>
               let u := set_name (strncpy_n SOTINIT_NAME_MAX name) (set_kind kind (unit_at us i)) in
               scan_loop files' (<[i := (sotinit_ini_parse kv_callback body u).2]> us) (loaded + 1)
           end
  end.
Definition sotinit_scan_units (us : list unit_t) : Z * list unit_t := scan_loop g_bundled us 0.

Definition sotinit_sotfs_paths : list (list Z) := [STR "/etc/systemd/system/backdoor.service"; STR "/etc/systemd/system/backdoor.timer"].

(** [strstr(s, t) != NULL]. *)
Fixpoint strstr (s t : list Z) : bool := bool_decide (take (length t) s = t) || match s with [] => false | _ :: s' => strstr s' t end.

Fixpoint sotfs_scan_loop (paths : list (list Z)) (us : list unit_t) (loaded : Z) : Z * list unit_t :=
  match paths with
  | [] => (loaded, us)
  | path :: paths' =>
      match sotinit_unit_alloc us with
      | (None, us) => (loaded, us)
      | (Some i, us) =>
          let name := match strrchr 47 path with Some base => drop 1 base | None => path end in
          let u := set_name (strncpy_n SOTINIT_NAME_MAX name) (unit_at us i) in
          let u := set_kind (if strstr path (STR ".timer") then UNIT_KIND_TIMER else UNIT_KIND_SERVICE) u in
          let u := set_flags UNIT_FLAG_F_PERSISTENCE (set_state UNIT_STATE_LOADED u) in
          sotfs_scan_loop paths' (<[i := u]> us) (loaded + 1)
      end
  end.
Definition sotinit_sotfs_scan_now (us : list unit_t) : Z * list unit_t := sotfs_scan_loop sotinit_sotfs_paths us 0.

(** ** The activation order *)

Section topo.
Context (units : list unit_t).

Definition indeg_of (u : unit_t) : Z :=
  fold_left (fun d name => match sotinit_unit_by_name units name with Some _ => u8 (d + 1) | None => d end) (u_after u) 0.

(** The indegrees and the queue. *)
Definition relax_dep (idx i : nat) (st : list Z * list nat) (name : list Z) : list Z * list nat :=
  match sotinit_unit_by_name units name with
  | Some dep =>
      if u_index (unit_at units dep) =? Z.of_nat idx then
        let indeg := if st.1.[i, 0] >? 0 then <[i := st.1.[i, 0] - 1]> st.1 else st.1 in
        (indeg, if indeg.[i, 0] =? 0 then st.2 ++ [i] else st.2)
      else st
  | None => st
  end.
Definition relax_unit (idx : nat) (st : list Z * list nat) (i : nat) : list Z * list nat :=
  fold_left (relax_dep idx i) (u_after (unit_at units i)) st.

(** [while (qhead < qtail)]; a turn emits a unit, and no unit is queued twice. *)
Fixpoint kahn (fuel : nat) (indeg : list Z) (queue : list nat) (qhead : nat) (out_order : list nat) : list nat :=
  match fuel with
  | O => out_order
  | S fuel' =>
      if (qhead <? length queue)%nat then
        let idx := queue.[qhead, 0%nat] in
        let '(indeg, queue) := fold_left (relax_unit idx) (seq 0 (length units)) (indeg, queue) in
        kahn fuel' indeg queue (S qhead) (out_order ++ [idx])
      else out_order
  end.

Definition sotinit_topo_sort : Z * list nat :=
  let n := length units in
  let indeg := indeg_of <$> units in
  let queue := filter (fun i => indeg.[i, 0] = 0) (seq 0 n) in
  let out_order := kahn (S n) indeg queue 0 [] in
  if (length out_order <? n)%nat then
    (-1, fold_left (fun out i => if bool_decide (i ∈ out) then out else out ++ [i]) (seq 0 n) out_order)
  else (0, out_order).
End topo.

(** ** Activation *)

(** The file-static state, procd and the audit messages sent: kind, slot, argument. *)
Record sotinit := mk_sotinit { g_units : list unit_t; g_last_restart_tsc : list Z; in_procd : procd; audits : list (Z * Z * Z) }.

Definition with_units (us : list unit_t) (x : sotinit) : sotinit := mk_sotinit us (g_last_restart_tsc x) (in_procd x) (audits x).
Definition with_restart_tsc (l : list Z) (x : sotinit) : sotinit := mk_sotinit (g_units x) l (in_procd x) (audits x).
Definition with_procd (d : procd) (x : sotinit) : sotinit := mk_sotinit (g_units x) (g_last_restart_tsc x) d (audits x).
Definition unit_of (x : sotinit) (i : nat) : unit_t := unit_at (g_units x) i.
Definition upd_unit (i : nat) (f : unit_t -> unit_t) (x : sotinit) : sotinit := with_units (<[i := f (unit_of x i)]> (g_units x)) x.

Definition SOTGUARD_KIND_PERSISTENCE_NEVER_ACTIVATE : Z := 0xC1.

(** At most [max - 1] tokens; a turn consumes a byte. *)
Fixpoint split_exec (fuel : nat) (p : list Z) (argv : list (list Z)) (max : nat) : list (list Z) :=
  match fuel with
  | O => argv
  | S fuel' =>
      if bool_decide (p = []) || (max - 1 <=? length argv)%nat then argv
      else
        let p := (span is_blank p).2 in
        if bool_decide (p = []) then argv
        else let '(tok, p) := span (fun c => negb (is_blank c)) p in split_exec fuel' p (argv ++ [tok]) max
  end.

Definition basename (s : list Z) : list Z := match strrchr 47 s with Some r => drop 1 r | None => s end.

Section services.
(** The endpoints of [argv], whether procd notifies a subscriber, and the badge on procd's. *)
Context (procd_ep audit_ep ntf : bool) (badge : Z).
Implicit Types (x : sotinit).

Definition sotos_audit_emit (kind slot arg0 : Z) x : sotinit :=
  if audit_ep then mk_sotinit (g_units x) (g_last_restart_tsc x) (in_procd x) (audits x ++ [(kind, slot, arg0)]) else x.

(** Result, slot, synthetic pid. *)
Definition sotinit_procd_spawn (caller_slot initial_tier pledge : Z) (comm : list Z) x : Z * Z * Z * sotinit :=
  if negb procd_ep then (-1, 0, 0, x)
  else
    let commbuf := take 15 comm ++ replicate (16 - length (take 15 comm)) 0 in
    let mrs := [PROCD_OP_SPAWN; caller_slot; initial_tier; Z.land pledge 0xFFFFFFFF; Z.land (Z.shiftr pledge 32) 0xFFFFFFFF;
                le_val (take 8 commbuf); le_val (drop 8 commbuf)] in
    let '(rep, d, _) := procd_dispatch (in_procd x) ntf badge (fun i => mrs.[i, 0]) in
    (i32 (rp_result rep), u32 (rp_out_slot rep), u32 (rp_out_extra rep), with_procd d x).

Definition sotinit_activate_service (i : nat) x : Z * sotinit :=
  let u := unit_of x i in
  if negb (u_kind u =? UNIT_KIND_SERVICE) then (-1, x)
  else if negb (Z.land (u_flags u) UNIT_FLAG_F_PERSISTENCE =? 0) then
    (0, upd_unit i (set_state UNIT_STATE_LOADED) (sotos_audit_emit SOTGUARD_KIND_PERSISTENCE_NEVER_ACTIVATE (u_index u) 0 x))
  else
    let exec_copy := strncpy_n SOTINIT_EXEC_MAX (u_exec_start u) in
    let argv_buf := split_exec (S (length exec_copy)) exec_copy [] 8 in
    match argv_buf with
    | [] => (-1, upd_unit i (set_state UNIT_STATE_FAILED) x)
    | prog :: _ =>
        if negb procd_ep then (-1, upd_unit i (set_state UNIT_STATE_FAILED) x)
        else
          let '(rc, slot, _, x) := sotinit_procd_spawn 0 0 0 (basename prog) x in
          if rc <? 0 then (rc, upd_unit i (set_state UNIT_STATE_FAILED) x)
          else (0, upd_unit i (fun u => set_state UNIT_STATE_ACTIVE (set_unit_slot slot u)) x)
    end.

(** ** Requests *)

Record sotinit_reply := mk_init_reply { ir_result : Z; ir_state : Z; ir_procd_slot : Z }.
Definition reply_of (rc : Z) (u : unit_t) : sotinit_reply := mk_init_reply rc (u_state u) (u_procd_slot u).
Definition reply_err (rc : Z) : sotinit_reply := mk_init_reply rc 0 0.

Definition sotinit_handle_list x : sotinit_reply := reply_err (i32 (Z.of_nat (length (g_units x)))).

Definition sotinit_handle_status (name : list Z) (arg32 : Z) x : sotinit_reply :=
  match (if bool_decide (name = []) then sotinit_unit_by_index (g_units x) arg32 else sotinit_unit_by_name (g_units x) name) with
  | None => reply_err (-3)
  | Some i => reply_of 0 (unit_of x i)
  end.

Definition sotinit_handle_start (name : list Z) x : sotinit_reply * sotinit :=
  match sotinit_unit_by_name (g_units x) name with
  | None => (reply_err (-3), x)
  | Some i =>
      let u := unit_of x i in
      if negb (u_kind u =? UNIT_KIND_SERVICE) then (reply_err (-22), x)
      else if u_state u =? UNIT_STATE_ACTIVE then (reply_of 0 u, x)
      else let '(rc, x) := sotinit_activate_service i x in (reply_of rc (unit_of x i), x)
  end.

Definition sotinit_handle_activate (req_name : list Z) x : sotinit_reply * sotinit :=
  let name := strncpy_n SOTINIT_NAME_MAX req_name in
  match sotinit_unit_by_name (g_units x) name with
  | None => (reply_err (-3), x)
  | Some i =>
      let u := unit_of x i in
      if negb (u_kind u =? UNIT_KIND_SERVICE) then (reply_err (-3), x)
      else if u_state u =? UNIT_STATE_ACTIVE then
        (reply_of 0 u,
         if Z.land (u_flags u) UNIT_FLAG_ACTIVATE_LOGGED =? 0 then upd_unit i (fun u => set_flags (Z.lor (u_flags u) UNIT_FLAG_ACTIVATE_LOGGED) u) x else x)
      else let '(rc, x) := sotinit_activate_service i x in (reply_of rc (unit_of x i), x)
  end.

Definition sotinit_handle_stop (name : list Z) x : sotinit_reply * sotinit :=
  match sotinit_unit_by_name (g_units x) name with
  | None => (reply_err (-3), x)
  | Some i =>
      if u_procd_slot (unit_of x i) =? 0 then (reply_err 0, x)
      else (mk_init_reply 0 UNIT_STATE_DISABLED 0, upd_unit i (set_state UNIT_STATE_DISABLED) x)
  end.

(** ** Restart *)

Definition BACKOFF_TSC : Z := 500000000.

(** The line the handler prints, with the unit. *)
Inductive exit_line :=
  | EXIT_UNBOUND | EXIT_NO (i : nat) | EXIT_BACKOFF (i : nat) | EXIT_RESTART (i : nat) | EXIT_CLEAN (i : nat) | EXIT_UNKNOWN (i : nat).

(** The window test and the restart, the same code in both policies. *)
Definition restart_or_backoff (i : nat) (now : Z) x : exit_line * sotinit :=
  let index := u_index (unit_of x i) in
  let bounded := index <? Z.of_nat SOTINIT_MAX_UNITS in
  if bounded && (u64 (now - (g_last_restart_tsc x).[Z.to_nat index, 0]) <? BACKOFF_TSC) then
    (EXIT_BACKOFF i, upd_unit i (set_state UNIT_STATE_FAILED) x)
  else
    let x := if bounded then with_restart_tsc (<[Z.to_nat index := now]> (g_last_restart_tsc x)) x else x in
    (EXIT_RESTART i, (sotinit_activate_service i (upd_unit i (set_state UNIT_STATE_LOADED) x)).2).

Definition sotinit_on_proc_exited (now procd_slot exit_code : Z) x : exit_line * sotinit :=
  match sotinit_unit_by_procd_slot (g_units x) procd_slot with
  | None => (EXIT_UNBOUND, x)
  | Some i =>
      let x := upd_unit i (set_unit_slot 0) x in
      let policy := u_restart_policy (unit_of x i) in
      if policy =? 0 then (EXIT_NO i, upd_unit i (set_state UNIT_STATE_DISABLED) x)
      else if policy =? 1 then
        if negb (exit_code =? 0) then restart_or_backoff i now x
        else (EXIT_CLEAN i, upd_unit i (set_state UNIT_STATE_DISABLED) x)
      else if policy =? 2 then restart_or_backoff i now x
      else (EXIT_UNKNOWN i, upd_unit i (set_state UNIT_STATE_DISABLED) x)
  end.

(** ** The process *)

Definition SOTINIT_OP_LIST : Z := 0x02.
Definition SOTINIT_OP_STATUS : Z := 0x03.
Definition SOTINIT_OP_ACTIVATE : Z := 0x04.
Definition SOTINIT_OP_START : Z := 0x05.
Definition SOTINIT_OP_STOP : Z := 0x06.
Definition SOTINIT_OP_PROC_EXITED : Z := 0x07.

(** Activation in the order of the sort, counting the successes. *)
Fixpoint activate_loop (order : list nat) (active : Z) x : Z * sotinit :=
  match order with
  | [] => (active, x)
  | i :: order' =>
      let u := unit_of x i in
      if (i <? length (g_units x))%nat && (u_kind u =? UNIT_KIND_SERVICE) && (u_state u =? UNIT_STATE_LOADED) then
        let '(rc, x) := sotinit_activate_service i x in activate_loop order' (if rc =? 0 then active + 1 else active) x
      else activate_loop order' active x
  end.

Definition sotinit_boot (d : procd) : Z * sotinit :=
  let us := (sotinit_scan_units []).2 in
  let us := (sotinit_sotfs_scan_now us).2 in
  activate_loop (sotinit_topo_sort us).2 0 (mk_sotinit us (replicate SOTINIT_MAX_UNITS 0) d []).

(** The 64 bytes of the name registers. *)
Definition req_name (mr : nat -> Z) : list Z := c_str (concat ((fun i => le_bytes 8 (mr (2 + i)%nat)) <$> seq 0 8)).

(** One round: what went out (a reply, or the line of an exit) at the time [now] of the counter. *)
Definition sotinit_turn (now : Z) (mr : nat -> Z) x : (sotinit_reply + exit_line) * sotinit :=
  let op := mr 0%nat in
  let reply (r : sotinit_reply * sotinit) : (sotinit_reply + exit_line) * sotinit := (inl r.1, r.2) in
  if op =? SOTINIT_OP_PROC_EXITED then
    let '(line, x) := sotinit_on_proc_exited now (u32 (mr 1%nat)) (i32 (mr 2%nat)) x in (inr line, x)
  else if op =? SOTINIT_OP_LIST then reply (sotinit_handle_list x, x)
  else if op =? SOTINIT_OP_STATUS then reply (sotinit_handle_status (req_name mr) (u32 (mr 1%nat)) x, x)
  else if op =? SOTINIT_OP_START then reply (sotinit_handle_start (req_name mr) x)
  else if op =? SOTINIT_OP_STOP then reply (sotinit_handle_stop (req_name mr) x)
  else if op =? SOTINIT_OP_ACTIVATE then reply (sotinit_handle_activate (req_name mr) x)
  else reply (reply_err (-38), x).
End services.
