(* ===== verification/IniTheorems.v ===== *)
(** * Theorems on the ini parser and the unit files

    Printing a unit file and parsing it gives its entries back ([ini_roundtrip]). *)

From S2P Require Import Prelude ProcdTable ProcdServer SotInit.

(** ** Documents *)

(** A section and its keys and values. *)
Definition ini_block : Type := ini_section * list (list Z * list Z).

Definition section_name (s : ini_section) : list Z :=
  match s with
  | INI_SECTION_UNIT => STR "Unit" | INI_SECTION_SERVICE => STR "Service" | INI_SECTION_TIMER => STR "Timer" | INI_SECTION_INSTALL => STR "Install"
  | INI_SECTION_NONE => []
  end.

Definition header_line (s : ini_section) : list Z := 91 :: section_name s ++ [93].
Definition kv_line (kv : list Z * list Z) : list Z := kv.1 ++ 61 :: kv.2.
Definition block_lines (b : ini_block) : list (list Z) := header_line b.1 :: (kv_line <$> b.2).
Definition print_ini (doc : list ini_block) : list Z := text (concat (block_lines <$> doc)).

(** The entries in order, each with its section. *)
Definition ini_entry : Type := ini_section * list Z * list Z.
Definition block_entries (b : ini_block) : list ini_entry := (fun kv => (b.1, kv.1, kv.2)) <$> b.2.
Definition entries (doc : list ini_block) : list ini_entry := concat (block_entries <$> doc).

(** A callback that accepts and records everything. *)
Definition record_kv (s : ini_section) (k v : list Z) (acc : list ini_entry) : Z * list ini_entry := (0, acc ++ [(s, k, v)]).

(** No blank at the start and nothing that [trim] removes at the end. *)
Definition trimmed (s : list Z) : Prop := from_option (fun c => is_blank c = false) True (head s) /\ from_option (fun c => is_trailing c = false) True (last s).
Definition plain (s : list Z) : Prop := Forall (fun c => c <> 0 /\ c <> NL) s.

Record kv_ok (kv : list Z * list Z) : Prop := {
  ko_key : plain kv.1 /\ trimmed kv.1 /\ (61 ∉ kv.1) /\ exists c k, kv.1 = c :: k /\ c <> 35 /\ c <> 59 /\ c <> 91;
  ko_value : plain kv.2 /\ trimmed kv.2;
  ko_length : (length (kv_line kv) <= 255)%nat }.

(** ** Lines *)

Lemma span_stop p (s : list Z) : from_option (fun c => p c = false) True (head s) -> span p s = ([], s).
Proof. destruct s as [|c s]; [done|]. simpl. by intros ->. Qed.

Lemma trim_id s : trimmed s -> trim s = s.
Proof.
  intros [Hh Hl]. unfold trim. rewrite (span_stop is_blank s Hh). cbn [snd]. rewrite span_stop; [cbn [snd]; by rewrite reverse_involutive|].
  destruct s as [|c s] using rev_ind; [done|]. rewrite last_snoc in Hl. by rewrite reverse_app.
Qed.

Lemma strchr_first c a b : c ∉ a -> strchr c (a ++ c :: b) = Some (a, b).
Proof.
  induction a as [|x a IH]; simpl; [by rewrite Z.eqb_refl|]. intros [Hx Ha]%not_elem_of_cons. rewrite (proj2 (Z.eqb_neq _ _)) by done. by rewrite IH.
Qed.

Lemma c_str_plain s : plain s -> c_str s = s.
Proof. induction 1 as [|c s [Hc _] _ IH]; simpl; [done|]. rewrite (proj2 (Z.eqb_neq _ _)) by done. by rewrite IH. Qed.

Lemma span_line line rest : plain line -> span (fun c => negb (c =? NL)) (line ++ NL :: rest) = (line, NL :: rest).
Proof. induction 1 as [|c s [_ Hc] _ IH]; [done|]. simpl. rewrite (proj2 (Z.eqb_neq _ _)) by done. simpl. by rewrite IH. Qed.

Section lines.
Context {A : Type} (cb : ini_section -> list Z -> list Z -> A -> Z * A).

(** The loop is a fold over the lines. *)
Definition line_step (st : ini_section * (Z * A)) (line : list Z) : ini_section * (Z * A) := ini_line cb st.1 line st.2.

Lemma ini_lines fuel ls current st : Forall plain ls -> (length (text ls) <= fuel)%nat ->
  ini_loop cb fuel (text ls) current st = (fold_left line_step ls (current, st)).2.
Proof.
  intros Hp. revert fuel current st. induction Hp as [|l ls Hl _ IH]; intros fuel current st Hf; [by destruct fuel|].
  assert (text (l :: ls) = l ++ NL :: text ls) as Et by (unfold text; simpl; by rewrite <- app_assoc). rewrite Et in *.
  rewrite length_app in Hf. destruct fuel as [|fuel]; [simpl in Hf; lia|]. destruct (l ++ NL :: text ls) as [|c r] eqn:E; [by destruct l|].
  cbn [ini_loop]. rewrite <- E, span_line by done. cbn [fold_left]. unfold line_step at 2. cbn [fst snd].
  destruct (ini_line cb current l st) as [current' st']. cbn [drop]. apply IH. simpl in Hf. lia.
Qed.
End lines.

Lemma header_step {A} (cb : ini_section -> list Z -> list Z -> A -> Z * A) s current st : s <> INI_SECTION_NONE -> line_step cb (current, st) (header_line s) = (s, st).
Proof. unfold line_step, ini_line. cbn [fst snd]. by destruct s. Qed.

Lemma last_cons_ne (s : list Z) : s <> [] -> exists c, last s = Some c.
Proof. intros H. destruct (last s) eqn:E; [eauto|]. by apply last_None in E. Qed.

Lemma kv_line_trimmed kv : kv_ok kv -> trimmed (kv_line kv).
Proof.
  destruct kv as [k v]. intros [(_&[Hh _]&_&(c&k'&Ek&_)) [_ [_ Hv]] _]. cbn [fst snd] in *. subst k. split; [done|]. unfold kv_line. cbn [fst snd].
  rewrite last_app. destruct v as [|y v]; [done|]. rewrite last_cons_cons. by destruct (last_cons_ne (y :: v) ltac:(done)) as [z Hz]; rewrite Hz in *.
Qed.

Lemma kv_step s n acc kv : kv_ok kv -> 0 <= n < 2 ^ 31 - 1 -> line_step record_kv (s, (n, acc)) (kv_line kv) = (s, (n + 1, acc ++ [(s, kv.1, kv.2)])).
Proof.
  intros Hok Hn. pose proof (kv_line_trimmed kv Hok) as Ht. destruct kv as [k v]. destruct Hok as [(Hp&Htk&He&(c&k'&Ek&H35&H59&H91)) [Hpv Htv] Hl]. cbn [fst snd] in *.
  assert (plain (kv_line (k, v))) as Hpl by (unfold kv_line; apply Forall_app; split; [done|]; by constructor).
  unfold line_step, ini_line. cbn [fst snd]. rewrite take_ge by done. rewrite c_str_plain, trim_id by done. unfold kv_line. cbn [fst snd].
  destruct (k ++ 61 :: v) as [|x r] eqn:E; [by destruct k|]. assert (x = c) as -> by (subst k; by simplify_eq/=). rewrite <- E.
  rewrite !(proj2 (Z.eqb_neq _ _)) by done. cbn [orb]. rewrite strchr_first by done. cbn [record_kv]. rewrite !trim_id by done. cbn [Z.eqb].
  rewrite i32_small by lia. done.
Qed.

Lemma kvs_step s kvs n acc : Forall kv_ok kvs -> 0 <= n -> n + Z.of_nat (length kvs) < 2 ^ 31 ->
  fold_left (line_step record_kv) (kv_line <$> kvs) (s, (n, acc)) = (s, (n + Z.of_nat (length kvs), acc ++ block_entries (s, kvs))).
Proof.
  intros Hok. revert n acc. induction Hok as [|kv kvs Hk _ IH]; intros n acc Hn Hb; cbn [fmap list_fmap fold_left length block_entries fst snd] in *.
  - rewrite app_nil_r. do 2 f_equal. lia.
  - rewrite kv_step by (done || lia). rewrite IH by lia. rewrite <- app_assoc. do 2 f_equal. lia.
Qed.

Lemma doc_step doc current n acc : Forall (fun b => b.1 <> INI_SECTION_NONE /\ Forall kv_ok b.2) doc -> 0 <= n -> n + Z.of_nat (length (entries doc)) < 2 ^ 31 ->
  (fold_left (line_step record_kv) (concat (block_lines <$> doc)) (current, (n, acc))).2 = (n + Z.of_nat (length (entries doc)), acc ++ entries doc).
Proof.
  intros Hok. revert current n acc. induction Hok as [|[s kvs] doc [Hs Hk] _ IH]; intros current n acc Hn Hb.
  - cbn. rewrite app_nil_r. f_equal. lia.
  - cbn [fmap list_fmap concat] in *. unfold entries in *. cbn [fmap list_fmap concat] in *. rewrite length_app in *. cbn [fst snd] in *.
    assert (length (block_entries (s, kvs)) = length kvs) as El by apply length_fmap. rewrite fold_left_app. unfold block_lines. cbn [fold_left fst snd].
    rewrite header_step, kvs_step by (done || lia). rewrite IH by lia. rewrite <- app_assoc. f_equal. lia.
Qed.

Lemma header_plain s : plain (header_line s).
Proof. destruct s; unfold plain; repeat constructor; by vm_compute. Qed.

(** C39: For every unit file that is a list of sections with their keys and values, parsing
    its text hands the callback exactly these entries, in order and each with its section,
    and returns their number.  Keys are not empty, have no equals sign and do not look
    like a comment or a section; keys and values are single lines without blanks around
    them; a line has at most 255 bytes. *)
Theorem ini_roundtrip doc :
  Forall (fun b => b.1 <> INI_SECTION_NONE /\ Forall kv_ok b.2) doc -> Z.of_nat (length (entries doc)) < 2 ^ 31 ->
  sotinit_ini_parse record_kv (print_ini doc) [] = (Z.of_nat (length (entries doc)), entries doc).
Proof.
  intros Hok Hb. unfold sotinit_ini_parse, print_ini. rewrite ini_lines; [|clear Hb|done].
  - by rewrite doc_step by (done || lia).
  - apply Forall_concat. apply Forall_fmap. apply (Forall_impl _ _ _ Hok). intros [s kvs] [_ Hk]. constructor; [apply header_plain|]. apply Forall_fmap.
    apply (Forall_impl _ _ _ Hk). intros kv [(Hp&_) [Hv _] _]. unfold compose, kv_line. apply Forall_app. split; [done|]. by constructor.
Qed.

Module IniDemo.
Definition doc : list ini_block :=
  [(INI_SECTION_UNIT, [(STR "Description", STR "Demo B = after A"); (STR "After", STR "demo-a.service")]); (INI_SECTION_SERVICE, [(STR "ExecStart", STR "/bin/true"); (STR "Restart", [])])].

Ltac solve_kv :=
  split; [split; [by apply (bool_decide_unpack _)|split; [done|split; [by apply (bool_decide_unpack _)|by repeat eexists]]]|split; [by apply (bool_decide_unpack _)|done]|by apply (bool_decide_unpack _)].

Lemma doc_ok : Forall (fun b : ini_block => b.1 <> INI_SECTION_NONE /\ Forall kv_ok b.2) doc.
Proof. repeat (apply Forall_cons; split; [split; [done|repeat (apply Forall_cons; split; [solve_kv|]); by apply Forall_nil]|]). by apply Forall_nil. Qed.
End IniDemo.

Lemma ini_roundtrip_witness : sotinit_ini_parse record_kv (print_ini IniDemo.doc) [] = (4, entries IniDemo.doc).
Proof. rewrite (ini_roundtrip IniDemo.doc); [reflexivity|apply IniDemo.doc_ok|vm_compute; reflexivity]. Defined.
