(* ===== verification/SotInitTheorems.v ===== *)
(** * Theorems on sotinit

    The activation order ([topo_sort_correct]), the unit an exit notification belongs to
    ([exit_finds_its_unit]), services written by a sotbox never run
    ([persistence_never_runs]), the restart policy and its back-off ([restart_backoff]),
    and a stopped service that is started again by its own exit ([stop_undone]). *)

From S2P Require Import Prelude ProcdTable ProcdServer ProcdSpec ProcdTheorems SotInit.

(** ** The dependency graph *)

(** What the registry is after the scans: positions are indices, at most three names in [After=]. *)
Definition registry_ok (us : list unit_t) : Prop :=
  (length us <= SOTINIT_MAX_UNITS)%nat
  /\ (forall i, (i < length us)%nat -> u_index (unit_at us i) = Z.of_nat i /\ (length (u_after (unit_at us i)) <= SOTINIT_MAX_AFTER)%nat).

(** The units the [After=] names of [i] resolve to; names of unknown units have no effect. *)
Definition deps (us : list unit_t) (i : nat) : list nat := omap (sotinit_unit_by_name us) (u_after (unit_at us i)).
Definition depends (us : list unit_t) (i j : nat) : Prop := (i < length us)%nat /\ j ∈ deps us i.

Section topo.
Context (us : list unit_t) (Hok : registry_ok us).
Implicit Types (out queue : list nat) (indeg : list Z) (i j idx : nat).

Lemma by_name_lt name i : sotinit_unit_by_name us name = Some i -> (i < length us)%nat.
Proof. intros (?&_&_)%first_below_Some. done. Qed.

Lemma deps_lt i j : j ∈ deps us i -> (j < length us)%nat.
Proof. intros (name&_&H)%list_elem_of_omap. by eapply by_name_lt. Qed.

(** The dependencies of [i] still to come. *)
Definition pending out i : list nat := filter (fun j => j ∉ out) (deps us i).

Lemma indeg_of_length u : (length (u_after u) <= SOTINIT_MAX_AFTER)%nat -> indeg_of us u = Z.of_nat (length (omap (sotinit_unit_by_name us) (u_after u))).
Proof.
  unfold indeg_of, SOTINIT_MAX_AFTER. intros H.
  assert (forall l d, 0 <= d -> d + Z.of_nat (length l) < 256 ->
    fold_left (fun d name => match sotinit_unit_by_name us name with Some _ => u8 (d + 1) | None => d end) l d = d + Z.of_nat (length (omap (sotinit_unit_by_name us) l))) as Hf.
  { induction l as [|a l IH]; intros d Hd Hl; cbn [fold_left omap list_omap length] in *; [lia|].
    destruct (sotinit_unit_by_name us a); cbn [length]; [|apply IH; lia].
    assert (u8 (d + 1) = d + 1) as -> by (apply Z.mod_small; lia). rewrite IH by lia. lia. }
  rewrite Hf by lia. lia.
Qed.

(** One unit: its edges from [idx] are removed, and it is queued when the last one goes. *)
Lemma relax_names idx i names indeg queue c :
  (i < length indeg)%nat -> 0 <= c -> (forall name k, sotinit_unit_by_name us name = Some k -> u_index (unit_at us k) = Z.of_nat k) ->
  let m := length (filter (fun j => j = idx) (omap (sotinit_unit_by_name us) names)) in
  indeg.[i, 0] = c + Z.of_nat m ->
  fold_left (relax_dep us idx i) names (indeg, queue) = (<[i := c]> indeg, queue ++ if decide (m <> O /\ c = 0) then [i] else []).
Proof.
  intros Hi Hc Hidx. revert indeg queue Hi. induction names as [|a names IH]; intros indeg queue Hi m Hm.
  - subst m. cbn in *. rewrite decide_False by naive_solver. rewrite app_nil_r. f_equal. symmetry. apply list_insert_id.
    rewrite (array_lookup_lt _ _ 0) by done. f_equal. lia.
  - cbn [fold_left]. unfold relax_dep at 2. cbn [omap list_omap] in m. destruct (sotinit_unit_by_name us a) as [k|] eqn:Ea; [|by apply IH].
    rewrite (Hidx a k Ea). destruct (Z.of_nat k =? Z.of_nat idx) eqn:E; bool_to_prop.
    + assert (k = idx) as -> by lia. subst m. rewrite filter_cons_True in * by done. cbn [length fst snd] in *.
      set (m := length _) in *. rewrite (proj2 (Z.gtb_lt _ _)) by lia.
      rewrite array_get_insert, decide_True by done. destruct (decide (c = 0 /\ m = O)) as [[-> E0]|Hne].
      * rewrite (proj2 (Z.eqb_eq _ _)) by lia. rewrite IH.
        -- fold m. rewrite E0. rewrite list_insert_insert_eq. rewrite decide_False by naive_solver. rewrite decide_True by (split; [done|lia]). by rewrite app_nil_r.
        -- by rewrite length_insert.
        -- fold m. rewrite array_get_insert, decide_True by done. lia.
      * rewrite (proj2 (Z.eqb_neq _ _)) by lia. rewrite IH.
        -- fold m. rewrite list_insert_insert_eq. f_equal. f_equal.
           destruct (decide (m <> O /\ c = 0)); [rewrite decide_True by naive_solver; done|]. rewrite decide_False by lia. done.
        -- by rewrite length_insert.
        -- fold m. rewrite array_get_insert, decide_True by done. lia.
    + subst m. rewrite filter_cons_False in * by (intros ->; lia). by apply IH.
Qed.

Lemma unit_index name k : sotinit_unit_by_name us name = Some k -> u_index (unit_at us k) = Z.of_nat k.
Proof using Hok. intros H. by apply Hok, (by_name_lt name). Qed.

Lemma pending_snoc out i idx : idx ∉ out ->
  length (pending out i) = (length (pending (out ++ [idx]) i) + length (filter (fun j => j = idx) (deps us i)))%nat.
Proof.
  clear Hok. intros Hx. unfold pending. induction (deps us i) as [|j l IH]; [done|]. rewrite !filter_cons.
  destruct (decide (j = idx)) as [->|Hj].
  - rewrite decide_True by done. rewrite decide_False by set_solver. simpl. lia.
  - destruct (decide (j ∈ out)) as [Hin|Hin].
    + rewrite !decide_False by set_solver. done.
    + rewrite !decide_True by set_solver. simpl. lia.
Qed.

(** Units of which [idx] is a dependency, the last one to come. *)
Definition released out idx i : Prop := idx ∈ deps us i /\ pending (out ++ [idx]) i = [].
#[local] Instance released_dec out idx i : Decision (released out idx i).
Proof. unfold released. apply _. Defined.

Lemma relax_unit_spec idx i out indeg queue :
  (i < length indeg)%nat -> idx ∉ out -> indeg.[i, 0] = Z.of_nat (length (pending out i)) ->
  relax_unit us idx (indeg, queue) i =
    (<[i := Z.of_nat (length (pending (out ++ [idx]) i))]> indeg, queue ++ if decide (released out idx i) then [i] else []).
Proof using Hok.
  intros Hi Hx Hd. unfold relax_unit.
  rewrite (relax_names idx i _ indeg queue (Z.of_nat (length (pending (out ++ [idx]) i)))); [|done|lia|apply unit_index|].
  - f_equal. f_equal. fold (deps us i). unfold released. destruct (decide (idx ∈ deps us i /\ _)) as [[Ha Hb]|Hn].
    + rewrite decide_True; [done|]. rewrite Hb. split; [|done]. intros E%nil_length_inv. assert (idx ∈ filter (fun j => j = idx) (deps us i)) as Hf by (by apply list_elem_of_filter). by rewrite E, elem_of_nil in Hf.
    + rewrite decide_False; [done|]. intros [Ha Hb]. apply Hn. split; [|by apply nil_length_inv; lia].
      destruct (filter (fun j => j = idx) (deps us i)) as [|y l] eqn:E; [done|].
      assert (y ∈ filter (fun j => j = idx) (deps us i)) as [-> Hy]%list_elem_of_filter by (rewrite E; left). done.
  - rewrite Hd, (pending_snoc out i idx Hx). fold (deps us i). lia.
Qed.

(** All units: the loop over [l]. *)
Lemma relax_all idx out l indeg queue :
  idx ∉ out -> NoDup l -> (forall i, i ∈ l -> (i < length indeg)%nat /\ indeg.[i, 0] = Z.of_nat (length (pending out i))) ->
  let '(indeg', queue') := fold_left (relax_unit us idx) l (indeg, queue) in
  queue' = queue ++ filter (released out idx) l /\ length indeg' = length indeg
  /\ forall i, indeg'.[i, 0] = if decide (i ∈ l) then Z.of_nat (length (pending (out ++ [idx]) i)) else indeg.[i, 0].
Proof using Hok.
  intros Hx. revert indeg queue. induction l as [|i l IH]; intros indeg queue Hnd Hd.
  - simpl. by rewrite app_nil_r.
  - apply NoDup_cons in Hnd as [Hni Hnd]. destruct (Hd i) as [Hi Hdi]; [left|]. cbn [fold_left]. rewrite (relax_unit_spec idx i out) by done.
    specialize (IH (<[i := Z.of_nat (length (pending (out ++ [idx]) i))]> indeg) (queue ++ if decide (released out idx i) then [i] else []) Hnd).
    destruct (fold_left _ l _) as [indeg' queue']. destruct IH as (->&Hl&Hg).
    + intros j Hj. rewrite length_insert. destruct (Hd j) as [Hj1 Hj2]; [by right|]. split; [done|].
      rewrite array_get_insert by done. rewrite decide_False by congruence. done.
    + rewrite length_insert in Hl. split; [|split; [done|]].
      * rewrite <- app_assoc. f_equal. rewrite filter_cons. by destruct (decide (released out idx i)).
      * intros j. rewrite Hg, array_get_insert by done. destruct (decide (j ∈ l)); [by rewrite decide_True by (by right)|].
        destruct (decide (i = j)) as [->|]; [by rewrite decide_True by left|]. rewrite decide_False; [done|]. set_solver.
Qed.

(** ** The loop *)

Record topo_inv indeg queue (qhead : nat) out : Prop := {
  ti_out : out = take qhead queue;
  ti_length : length indeg = length us;
  ti_nodup : NoDup queue;
  ti_indeg : forall i, (i < length us)%nat -> indeg.[i, 0] = Z.of_nat (length (pending out i));
  ti_queue : forall i, i ∈ queue <-> (i < length us)%nat /\ pending out i = [];
  ti_sorted : forall k i, queue !! k = Some i -> deps us i ⊆ take k queue }.

Lemma pending_nil out i : pending out i = [] <-> deps us i ⊆ out.
Proof.
  clear Hok. unfold pending. induction (deps us i) as [|j l IH]; [by split; [intros _; apply list_subseteq_nil|]|]. rewrite filter_cons.
  destruct (decide (j ∉ out)) as [Hj|Hj%dec_stable].
  - split; [done|]. intros Hs. destruct Hj. apply Hs. left.
  - rewrite IH. split; intros Hs x Hx; [apply elem_of_cons in Hx as [->|Hx]; [done|by apply Hs]|apply Hs; by right].
Qed.

Lemma released_fresh out idx i : idx ∉ out -> released out idx i -> pending out i <> [].
Proof. clear Hok. intros Hx [Hd _] H. apply pending_nil in H. by apply Hx, H. Qed.

Lemma pending_after out idx i : idx ∉ out -> pending (out ++ [idx]) i = [] <-> pending out i = [] \/ released out idx i.
Proof.
  clear Hok. intros Hx. split.
  - intros H. destruct (decide (idx ∈ deps us i)); [by right|]. left. apply pending_nil. apply pending_nil in H. intros j Hj.
    pose proof (H j Hj) as [|Hi%list_elem_of_singleton]%elem_of_app; [done|]. by subst.
  - intros [H|[_ H]]; [|done]. apply pending_nil. apply pending_nil in H. intros j Hj. apply elem_of_app. left. by apply H.
Qed.

Lemma topo_step indeg queue qhead out idx :
  topo_inv indeg queue qhead out -> queue !! qhead = Some idx ->
  let '(indeg', queue') := fold_left (relax_unit us idx) (seq 0 (length us)) (indeg, queue) in
  topo_inv indeg' queue' (S qhead) (out ++ [idx]).
Proof using Hok.
  intros [-> Hl Hnd Hd Hq Hs] Hi. assert (idx ∉ take qhead queue) as Hx.
  { intros (k&Hk&?)%elem_of_take. pose proof (NoDup_lookup _ _ _ _ Hnd Hk Hi). lia. }
  pose proof (relax_all idx (take qhead queue) (seq 0 (length us)) indeg queue Hx (NoDup_seq _ _)) as Hr.
  destruct (fold_left _ _ _) as [indeg' queue']. destruct Hr as (->&Hl'&Hd').
  { intros i [_ ?]%elem_of_seq. rewrite Hl. split; [lia|]. apply Hd. lia. }
  assert (take qhead queue ++ [idx] = take (S qhead) queue) as Eo by (by rewrite (take_S_r _ _ idx)).
  assert (forall i, i ∈ filter (released (take qhead queue) idx) (seq 0 (length us)) <-> released (take qhead queue) idx i /\ (i < length us)%nat) as Hf.
  { intros i. rewrite list_elem_of_filter, elem_of_seq. assert ((0 <= i < 0 + length us)%nat <-> (i < length us)%nat) as -> by lia. done. }
  split.
  - rewrite Eo, take_app_le; [done|]. apply lookup_lt_Some in Hi. lia.
  - lia.
  - apply NoDup_app. split; [done|]. split; [|apply NoDup_filter, NoDup_seq]. intros i [_ Hp]%Hq [Hr _]%Hf. by apply released_fresh in Hr.
  - intros i Hlt. rewrite Hd', decide_True; [done|]. apply elem_of_seq. lia.
  - intros i. rewrite elem_of_app, Hq, Hf, pending_after by done. naive_solver.
  - intros k i [Hk|[Hk Hr]]%lookup_app_Some.
    + rewrite take_app_le; [by apply Hs|]. apply lookup_lt_Some in Hk. lia.
    + apply list_elem_of_lookup_2, Hf in Hr as [[_ Hr] _]. apply pending_nil in Hr. rewrite Eo in Hr. intros j Hj. apply Hr in Hj.
      rewrite take_app_ge by done. apply elem_of_app. left. apply elem_of_take in Hj as (m&Hm&_). by eapply list_elem_of_lookup_2.
Qed.

Lemma queue_length indeg queue qhead out : topo_inv indeg queue qhead out -> (length queue <= length us)%nat.
Proof.
  clear Hok. intros [_ _ Hnd _ Hq _]. rewrite <- (length_seq (length us) 0). apply submseteq_length, NoDup_submseteq; [done|].
  intros i [? _]%Hq. apply elem_of_seq. lia.
Qed.

(** With enough fuel the loop stops because the queue is empty. *)
Lemma kahn_done fuel indeg queue qhead out :
  topo_inv indeg queue qhead out -> (qhead <= length queue)%nat -> (length us - qhead < fuel)%nat ->
  exists indeg', topo_inv indeg' (kahn us fuel indeg queue qhead out) (length (kahn us fuel indeg queue qhead out)) (kahn us fuel indeg queue qhead out).
Proof using Hok.
  revert indeg queue qhead out. induction fuel as [|fuel IH]; intros indeg queue qhead out Hinv Hle Hf; [lia|]. cbn [kahn].
  destruct (decide (qhead < length queue)%nat) as [Hlt|Hge].
  - rewrite (proj2 (Nat.ltb_lt _ _)) by done. pose proof (array_lookup_lt _ _ 0%nat Hlt) as Hi. set (idx := queue.[qhead, 0%nat]) in *.
    pose proof (topo_step _ _ _ _ idx Hinv Hi) as Hs. pose proof (queue_length _ _ _ _ Hinv). destruct (fold_left _ _ _) as [indeg' queue'] eqn:E.
    apply IH; [done| |lia]. destruct Hs as [Ho _ _ _ _ _]. apply (f_equal length) in Ho. rewrite length_app, (ti_out _ _ _ _ Hinv), !length_take in Ho. cbn [length] in Ho. lia.
  - rewrite (proj2 (Nat.ltb_ge _ _)) by lia. exists indeg. assert (out = queue) as -> by (rewrite (ti_out _ _ _ _ Hinv); apply take_ge; lia).
    assert (qhead = length queue) as -> by lia. done.
Qed.

Lemma keep_all (l : list nat) : filter (fun j => j ∉ ([] : list nat)) l = l.
Proof. clear Hok. induction l as [|j l IH]; [done|]. rewrite filter_cons_True by apply not_elem_of_nil. by rewrite IH. Qed.

Definition initial_indeg : list Z := indeg_of us <$> us.
Definition emitted : list nat := kahn us (S (length us)) initial_indeg (filter (fun i => initial_indeg.[i, 0] = 0) (seq 0 (length us))) 0 [].

Lemma initial_inv : topo_inv initial_indeg (filter (fun i => initial_indeg.[i, 0] = 0) (seq 0 (length us))) 0 [].
Proof using Hok.
  assert (forall i, (i < length us)%nat -> initial_indeg.[i, 0] = Z.of_nat (length (pending [] i))) as Hd.
  { intros i Hi. unfold initial_indeg. rewrite list_lookup_fmap. unfold pending. destruct Hok as [_ Ho]. destruct (Ho i Hi) as [_ Ha]. unfold unit_at in Ha.
    unfold deps, unit_at. rewrite (array_lookup_lt _ _ zero_unit Hi) in *. cbn [default fmap option_fmap option_map] in *.
    rewrite indeg_of_length by done. by rewrite keep_all. }
  assert (forall i, i ∈ filter (fun i => initial_indeg.[i, 0] = 0) (seq 0 (length us)) <-> (i < length us)%nat /\ pending [] i = []) as Hq.
  { intros i. rewrite list_elem_of_filter, elem_of_seq. split.
    - intros [H0 ?]. split; [lia|]. rewrite Hd in H0 by lia. by apply nil_length_inv; lia.
    - intros [Hi Hp]. rewrite Hd, Hp by done. split; [done|lia]. }
  split; [done| |apply NoDup_filter, NoDup_seq|done|done|].
  - unfold initial_indeg. by rewrite length_fmap.
  - intros k i Hk. apply list_elem_of_lookup_2, Hq in Hk as [_ Hp]. apply pending_nil in Hp. intros j Hj. apply Hp in Hj. by apply elem_of_nil in Hj.
Qed.

(** What the loop emits: every unit all of whose dependencies it emitted, each after them. *)
Lemma emitted_spec :
  NoDup emitted /\ (forall i, i ∈ emitted <-> (i < length us)%nat /\ deps us i ⊆ emitted)
  /\ forall k i, emitted !! k = Some i -> deps us i ⊆ take k emitted.
Proof using Hok.
  destruct (kahn_done (S (length us)) _ _ 0 [] initial_inv) as [indeg [_ _ Hnd _ Hq Hs]]; [lia..|]. fold emitted in *.
  split; [done|]. split; [|done]. intros i. by rewrite Hq, pending_nil.
Qed.

(** The emitted units are those from which no dependency chain goes on for ever. *)
Lemma emitted_sn i : i ∈ emitted <-> (i < length us)%nat /\ sn (depends us) i.
Proof using Hok.
  destruct emitted_spec as (_&He&Hs). split.
  - intros [k Hk]%list_elem_of_lookup. split; [apply He; by eapply list_elem_of_lookup_2|]. revert i Hk. induction (lt_wf k) as [k _ IH]. intros i Hk.
    constructor. intros j [_ Hj]. apply (Hs k i Hk), elem_of_take in Hj as (m&Hm&?). by apply (IH m).
  - intros [Hi Hsn]. induction Hsn as [i _ IH]. apply He. split; [done|]. intros j Hj. apply IH; [by split|by eapply deps_lt].
Qed.

Lemma complete_acyclic : (length us <= length emitted)%nat <-> Irreflexive (tc (depends us)).
Proof using Hok.
  destruct emitted_spec as (Hnd&He&Hs). split.
  - intros Hl x Hx. assert (forall i, (i < length us)%nat -> i ∈ emitted) as Hall.
    { intros i Hi. assert (emitted ≡ₚ seq 0 (length us)) as ->; [|apply elem_of_seq; lia]. apply submseteq_length_Permutation; [|by rewrite length_seq].
      apply NoDup_submseteq; [done|]. intros j [? _]%He. apply elem_of_seq. lia. }
    assert (forall i j, tc (depends us) i j -> exists p q, emitted !! p = Some i /\ emitted !! q = Some j /\ (q < p)%nat) as Hpos.
    { assert (forall i j, depends us i j -> exists p q, emitted !! p = Some i /\ emitted !! q = Some j /\ (q < p)%nat) as H1.
      { intros i j [Hi Hj]. pose proof (Hall i Hi) as [p Hp]%list_elem_of_lookup. pose proof (Hs p i Hp j Hj) as (q&?&?)%elem_of_take. eauto 10. }
      intros i j Htc. induction Htc as [i j Hr|i j k Hr _ IHt]; [by apply H1|]. destruct IHt as (p'&q&Hp'&Hq&Hlt), (H1 i j Hr) as (p&q'&Hp&Hq'&Hlt').
      pose proof (NoDup_lookup _ _ _ _ Hnd Hp' Hq'). subst. exists p, q. split; [done|]. split; [done|lia]. }
    destruct (Hpos x x Hx) as (p&q&Hp&Hq&Hlt). pose proof (NoDup_lookup _ _ _ _ Hnd Hp Hq). lia.
  - intros Hirr. rewrite <- (length_seq (length us) 0) at 1. apply submseteq_length, NoDup_submseteq; [apply NoDup_seq|].
    intros i [_ Hi]%elem_of_seq. apply emitted_sn. split; [lia|]. apply tc_finite_sn; [done|]. exists (seq 0 (length us)). intros j Hj. apply elem_of_seq.
    split; [lia|]. clear -Hj. induction Hj as [i j [_ H]|]; [by eapply deps_lt|done].
Qed.

(** The fallback appends what is missing in the order of definition. *)
Lemma fallback_spec out l : NoDup l ->
  fold_left (fun out i => if bool_decide (i ∈ out) then out else out ++ [i]) l out = out ++ filter (fun i => i ∉ out) l.
Proof.
  clear Hok. intros Hnd. revert out. induction Hnd as [|i l Hi Hnd IH]; intros out; cbn [fold_left]; [by rewrite app_nil_r|]. rewrite filter_cons.
  case_bool_decide as Hin.
  - rewrite decide_False by (intros H; by apply H). apply IH.
  - rewrite decide_True by done. rewrite IH, <- app_assoc. do 2 f_equal. simpl. f_equal. clear -Hi. induction l as [|j l IH]; [done|]. apply not_elem_of_cons in Hi as [Hj Hi].
    rewrite !filter_cons, (IH Hi). destruct (decide (j ∈ out)); [rewrite !decide_False by set_solver; done|rewrite !decide_True by set_solver; done].
Qed.
End topo.

(** C17: Whatever the units are, the activation order contains every unit once.  The result is 0
    exactly when no unit depends on itself through a chain of After= names, and -1 otherwise.
    The order starts with the units that do not lead into a cycle, each one behind all the
    units it depends on; the others follow in the order of their definition. *)
Theorem topo_sort_correct us : registry_ok us ->
  let '(rc, order) := sotinit_topo_sort us in
  order ≡ₚ seq 0 (length us)
  /\ (rc = 0 <-> Irreflexive (tc (depends us))) /\ (rc = 0 \/ rc = -1)
  /\ exists k, (forall i, i ∈ take k order <-> (i < length us)%nat /\ sn (depends us) i)
     /\ (forall p i j, order !! p = Some i -> depends us i j -> (p < k)%nat -> j ∈ take p order)
     /\ drop k order = filter (fun i => i ∉ take k order) (seq 0 (length us)).
Proof.
  intros Hok. destruct (emitted_spec us Hok) as (Hnd&He&Hs). pose proof (emitted_sn us Hok) as Hsn. pose proof (complete_acyclic us Hok) as Hc.
  unfold sotinit_topo_sort. fold (initial_indeg us). fold (emitted us). rewrite fallback_spec by apply NoDup_seq.
  assert (emitted us ++ filter (fun i => i ∉ emitted us) (seq 0 (length us)) ≡ₚ seq 0 (length us)) as Hp.
  { apply NoDup_Permutation; [|apply NoDup_seq|].
    - apply NoDup_app. split; [done|]. split; [|apply NoDup_filter, NoDup_seq]. intros i Hi [? _]%list_elem_of_filter. done.
    - intros i. rewrite elem_of_app, list_elem_of_filter, He, elem_of_seq. destruct (decide (i ∈ emitted us)) as [Hi|]; [|naive_solver lia].
      apply He in Hi. naive_solver lia. }
  destruct (length (emitted us) <? length us)%nat eqn:E.
  - apply Nat.ltb_lt in E. split; [done|]. split; [rewrite <- Hc; lia|]. split; [by right|]. exists (length (emitted us)). rewrite take_app_length, drop_app_length.
    split; [done|]. split; [|done]. intros p i j Hp' [_ Hj] Hlt. rewrite lookup_app_l in Hp' by done. rewrite take_app_le by lia. by apply (Hs p i).
  - apply Nat.ltb_ge in E. assert (filter (fun i => i ∉ emitted us) (seq 0 (length us)) = []) as Ef.
    { apply nil_length_inv. apply Permutation_length in Hp. rewrite length_app, length_seq in Hp. lia. }
    rewrite Ef, app_nil_r in Hp. split; [done|]. split; [by rewrite <- Hc|]. split; [by left|]. exists (length (emitted us)). rewrite take_ge, drop_ge by lia.
    split; [done|]. split; [|done]. intros p i j Hp' [_ Hj] _. by apply (Hs p i).
Qed.

(** ** Units and process slots *)

Definition persistent (u : unit_t) : Prop := Z.land (u_flags u) UNIT_FLAG_F_PERSISTENCE <> 0.

(** What the unit file said, fixed after the scan. *)
Definition declared (u : unit_t) : Z * Z * list Z * list Z * Z * list (list Z) * bool :=
  (u_index u, u_kind u, u_name u, u_exec_start u, u_restart_policy u, u_after u, bool_decide (persistent u)).

(** A unit with a slot is a service, and the slot was given out by procd (whose next one is
    [next]); an active unit has a slot; a persistent unit has none and stays loaded. *)
Record unit_ok (next : Z) (u : unit_t) : Prop := {
  uo_slot : u_procd_slot u <> 0 -> u_kind u = UNIT_KIND_SERVICE /\ 1 <= u_procd_slot u < next;
  uo_active : u_state u = UNIT_STATE_ACTIVE -> u_procd_slot u <> 0;
  uo_persistent : persistent u -> u_state u = UNIT_STATE_LOADED /\ u_procd_slot u = 0 }.

Record units_ok (next : Z) (us : list unit_t) : Prop := {
  us_registry : registry_ok us;
  us_each : forall i, (i < length us)%nat -> unit_ok next (unit_at us i);
  us_distinct : forall i j, u_procd_slot (unit_at us i) = u_procd_slot (unit_at us j) -> u_procd_slot (unit_at us i) <> 0 -> i = j }.

Record init_ok (x : sotinit) : Prop := {
  io_procd : procd_inv (in_procd x);
  io_units : units_ok (g_next_pid (in_procd x)) (g_units x);
  io_tsc : length (g_last_restart_tsc x) = SOTINIT_MAX_UNITS }.

(** A step of the system: the registry keeps its declarations. *)
Definition init_step (x x' : sotinit) : Prop :=
  init_ok x' /\ length (g_units x') = length (g_units x) /\ forall i, declared (unit_of x' i) = declared (unit_of x i).

Lemma init_step_refl x : init_ok x -> init_step x x.
Proof. by split. Qed.
Lemma init_step_trans x y z : init_step x y -> init_step y z -> init_step x z.
Proof. intros (_&Hl&Hd) (Ho&Hl'&Hd'). split; [done|]. split; [congruence|]. intros i. by rewrite Hd', Hd. Qed.

Lemma unit_ok_mono next next' u : next <= next' -> unit_ok next u -> unit_ok next' u.
Proof. intros Hn [Hs Ha Hp]. split; [|done|done]. intros H. destruct (Hs H). split; [done|lia]. Qed.

Lemma units_ok_mono next next' us : next <= next' -> units_ok next us -> units_ok next' us.
Proof. intros Hn [Hr He Hd]. split; [done| |done]. intros i Hi. by eapply unit_ok_mono, He. Qed.

Lemma unit_at_insert us i j u : (i < length us)%nat -> unit_at (<[i := u]> us) j = if decide (i = j) then u else unit_at us j.
Proof. apply array_get_insert. Qed.

Lemma declared_fields u u' : declared u' = declared u ->
  u_index u' = u_index u /\ u_kind u' = u_kind u /\ u_name u' = u_name u /\ u_after u' = u_after u /\ (persistent u' <-> persistent u).
Proof. unfold declared. intros [= ? ? ? ? ? ? Hp]. split_and!; [done..|]. by rewrite <- (bool_decide_eq_true (persistent u')), Hp, bool_decide_eq_true. Qed.

Lemma registry_update us i u : registry_ok us -> (i < length us)%nat -> declared u = declared (unit_at us i) -> registry_ok (<[i := u]> us).
Proof.
  intros [Hn Hr] Hi (E1&_&_&E2&_)%declared_fields. split; [by rewrite length_insert|]. intros j. rewrite length_insert, unit_at_insert by done. intros Hj.
  destruct (decide (i = j)) as [<-|]; [rewrite E1, E2|]; by apply Hr.
Qed.

(** Updates of one unit: its slot stays, is dropped, or is the one just given out. *)
Lemma units_update next next' us i u :
  units_ok next us -> next <= next' -> (i < length us)%nat -> declared u = declared (unit_at us i) -> unit_ok next' u ->
  (u_procd_slot u = u_procd_slot (unit_at us i) \/ u_procd_slot u = 0 \/ u_procd_slot u = next) ->
  units_ok next' (<[i := u]> us).
Proof.
  intros [Hr He Hd] Hn Hi Hdecl Hu Hslot. split; [by apply registry_update|..].
  - intros j. rewrite length_insert, unit_at_insert by done. intros Hj. case_decide; [done|]. by eapply unit_ok_mono, He.
  - assert (forall j, j <> i -> u_procd_slot (unit_at us j) = u_procd_slot u -> u_procd_slot u <> 0 -> False) as Hfresh.
    { intros j Hj E Hne. destruct Hslot as [Es|[Es|Es]]; [apply Hj, Hd; congruence|done|].
      destruct (decide (j < length us)%nat) as [Hlt|Hge]; [destruct (uo_slot _ _ (He j Hlt)); [congruence|lia]|].
      unfold unit_at in E. rewrite lookup_ge_None_2 in E by lia. simpl in E. congruence. }
    intros j k. rewrite !unit_at_insert by done. repeat case_decide; subst; [done|intros E Hne|intros E Hne|apply Hd].
    + destruct (Hfresh k); [congruence..].
    + destruct (Hfresh j); [congruence..].
Qed.

Lemma upd_unit_at i f x j : (i < length (g_units x))%nat -> unit_of (upd_unit i f x) j = if decide (i = j) then f (unit_of x i) else unit_of x j.
Proof. apply unit_at_insert. Qed.

Lemma upd_upd i f g x : (i < length (g_units x))%nat -> upd_unit i f (upd_unit i g x) = upd_unit i (fun u => f (g u)) x.
Proof. intros Hi. unfold upd_unit at 1. rewrite upd_unit_at, decide_True by done. unfold upd_unit, with_units. simpl. by rewrite list_insert_insert_eq. Qed.

(** One unit changes and procd stays. *)
Lemma upd_step i f x :
  init_ok x -> (i < length (g_units x))%nat -> declared (f (unit_of x i)) = declared (unit_of x i) ->
  unit_ok (g_next_pid (in_procd x)) (f (unit_of x i)) ->
  (u_procd_slot (f (unit_of x i)) = u_procd_slot (unit_of x i) \/ u_procd_slot (f (unit_of x i)) = 0) -> init_step x (upd_unit i f x).
Proof.
  intros [Hp Hu Ht] Hi Hd Ho Hs. split; [split; [done| |done]|].
  - eapply units_update; [done|reflexivity|done|done|done|]. tauto.
  - split; [apply length_insert|]. intros j. rewrite upd_unit_at by done. case_decide; subst; done.
Qed.

(** ** Activation and requests keep the invariant *)

Lemma dispatch_next d ntf badge mr : procd_inv d -> g_next_pid d <= g_next_pid (procd_dispatch d ntf badge mr).1.2.
Proof.
  intros I. destruct (dispatch_step d ntf badge mr (pi_len d I)) as [_ ->|? _ _ _ ->|i Hi Hf Hb _ _ -> _]; [done|done|].
  rewrite (born_index d i I Hi Hf Hb). rewrite u32_small; unfold PROCD_MAX_PROCS in *; lia.
Qed.

Section services.
Context (procd_ep audit_ep ntf : bool) (badge : Z).
Implicit Types (x : sotinit).
Abbreviation activate := (sotinit_activate_service procd_ep audit_ep ntf badge).
Abbreviation turn := (sotinit_turn procd_ep audit_ep ntf badge).

(** SPAWN gives out the next slot, or refuses and changes no slot. *)
Lemma spawn_next d caller tier pledge comm :
  procd_inv d -> let '(rep, d') := procd_handle_spawn d caller tier pledge comm in
  rp_result rep < 0 /\ - 2 ^ 31 <= rp_result rep
  \/ rp_result rep = g_next_pid d /\ rp_out_slot rep = g_next_pid d /\ g_next_pid d < Z.of_nat PROCD_MAX_PROCS /\ g_next_pid d' = g_next_pid d + 1.
Proof.
  intros I. unfold procd_handle_spawn. destruct (procd_slot_alloc d) as [[i|] d1] eqn:E; [right|left; simpl; unfold EAGAIN; lia].
  destruct (birth_result d i d1 id I E) as [Hn _]. destruct (slot_alloc_Some d i d1 (pi_len d I) E) as (Hi&_&_&_&Hn'&_). cbn [rp_result rp_out_slot].
  split; [done|]. split; [done|]. split; [lia|]. change (g_next_pid (publish ?d _ _ _)) with (g_next_pid d).
  destruct (commit_rest d1 i (spawn_fill caller tier pledge comm)) as (_&->&_). rewrite Hn'. rewrite u32_small; unfold PROCD_MAX_PROCS in *; lia.
Qed.

Lemma i32_neg z : - 2 ^ 31 <= z < 0 -> i32 z = z.
Proof.
  intros Hz. unfold i32, u32. assert (z mod 2 ^ 32 = z + 2 ^ 32) as -> by (symmetry; apply (Z.mod_unique_pos z (2 ^ 32) (-1)); lia).
  rewrite (proj2 (Z.ltb_ge _ _)) by lia. lia.
Qed.

Lemma procd_spawn_spec x comm : procd_inv (in_procd x) ->
  let '(rc, slot, _, x') := sotinit_procd_spawn procd_ep ntf badge 0 0 0 comm x in
  procd_inv (in_procd x') /\ g_next_pid (in_procd x) <= g_next_pid (in_procd x') /\ x' = with_procd (in_procd x') x
  /\ (0 <= rc -> slot = g_next_pid (in_procd x) /\ slot < g_next_pid (in_procd x')).
Proof.
  intros I. unfold sotinit_procd_spawn. destruct procd_ep; cbn [negb]; [|by destruct x; split; [done|]; split; [lia|]; split; [|lia]].
  set (mr := fun i : nat => _ .[ i , 0 ]). pose proof (dispatch_inv (in_procd x) ntf badge mr I) as I'. pose proof (dispatch_next (in_procd x) ntf badge mr I) as Hn.
  assert ((procd_dispatch (in_procd x) ntf badge mr).1 = procd_handle_spawn (in_procd x) (u32 (mr 1%nat)) (u32 (mr 2%nat))
    (Z.lor (u64 (Z.shiftl (mr 4%nat) 32)) (u32 (mr 3%nat))) (comm_of (mr 5%nat) (mr 6%nat))) as Ed.
  { unfold procd_dispatch. change (mr 0%nat =? PROCD_OP_SPAWN) with true. cbv iota. cbn [fst]. by destruct (procd_handle_spawn _ _ _ _ _). }
  pose proof (spawn_next (in_procd x) (u32 (mr 1%nat)) (u32 (mr 2%nat)) (Z.lor (u64 (Z.shiftl (mr 4%nat) 32)) (u32 (mr 3%nat))) (comm_of (mr 5%nat) (mr 6%nat)) I) as Hs.
  rewrite <- Ed in Hs. destruct (procd_dispatch (in_procd x) ntf badge mr) as [[rep d'] b]. cbn [fst snd in_procd with_procd] in *.
  split; [done|]. split; [done|]. split; [done|]. intros Hrc. pose proof (pi_next _ I). destruct Hs as [Hs|(Hr&->&Hlt&Hnx)].
  - rewrite i32_neg in Hrc by lia. lia.
  - rewrite u32_small by (unfold PROCD_MAX_PROCS in *; lia). split; [done|]. lia.
Qed.

(** Marking a unit without a slot change. *)
Lemma mark_ok next s u : unit_ok next u -> ~ persistent u -> s <> UNIT_STATE_ACTIVE -> unit_ok next (set_state s u).
Proof. intros [Hs _ _] Hp Hne. split; [done|done|]. intros H. by destruct Hp. Qed.

Lemma mark_step i s x : init_ok x -> (i < length (g_units x))%nat -> ~ persistent (unit_of x i) -> s <> UNIT_STATE_ACTIVE -> init_step x (upd_unit i (set_state s) x).
Proof. intros Ho Hi Hp Hs. apply upd_step; [done..| |by left]. apply mark_ok; [|done..]. exact (us_each _ _ (io_units _ Ho) i Hi). Qed.

Lemma emit_step x kind slot arg0 : init_ok x -> init_step x (sotos_audit_emit audit_ep kind slot arg0 x).
Proof. intros [H1 H2 H3]. unfold sotos_audit_emit. destruct audit_ep; [|by apply init_step_refl]. by split; [split|]. Qed.

Lemma park_step i x : init_ok x -> (i < length (g_units x))%nat -> init_step x (upd_unit i (set_state UNIT_STATE_LOADED) x).
Proof.
  intros Ho Hi. apply upd_step; [done..| |by left]. destruct (us_each _ _ (io_units _ Ho) i Hi) as [H1 H2 H3]. split; [done|done|].
  intros Hp. split; [done|by apply H3].
Qed.

Lemma activate_step i x : init_ok x -> (i < length (g_units x))%nat -> init_step x (activate i x).2.
Proof.
  intros Ho Hi. unfold sotinit_activate_service. destruct (u_kind (unit_of x i) =? UNIT_KIND_SERVICE) eqn:Ek; cbn [negb]; [|by apply init_step_refl]. bool_to_prop.
  destruct (Z.land (u_flags (unit_of x i)) UNIT_FLAG_F_PERSISTENCE =? 0) eqn:Ef; cbn [negb]; bool_to_prop.
  - assert (~ persistent (unit_of x i)) as Hp by (unfold persistent; lia). destruct (split_exec _ _ _ _) as [|prog argv]; [by apply mark_step|].
    destruct procd_ep eqn:Ee; cbn [negb]; [|by apply mark_step]. rewrite <- Ee.
    pose proof (procd_spawn_spec x (basename prog) (io_procd _ Ho)) as Hs. destruct (sotinit_procd_spawn _ _ _ _ _ _ _ _) as [[[rc slot] pid] x']. destruct Hs as (I'&Hn&->&Hs).
    cbn [in_procd with_procd] in *. set (d' := in_procd x') in *. assert (init_ok (with_procd d' x)) as Ho'.
    { split; [done|exact (units_ok_mono _ _ _ Hn (io_units _ Ho))|exact (io_tsc _ Ho)]. }
    destruct (rc <? 0) eqn:Er; bool_to_prop; cbn [snd]; [by apply (mark_step i _ (with_procd d' x))|].
    destruct (Hs Er) as [-> Hlt]. pose proof (pi_next _ (io_procd _ Ho)) as Hpos. split; [split; [done| |exact (io_tsc _ Ho)]|].
    + eapply (units_update _ (g_next_pid d')); [exact (io_units _ Ho)|done|done|done| |right; by right]. split; [intros _; split; [done|simpl; lia]|simpl; lia|done].
    + split; [apply length_insert|]. intros j. rewrite upd_unit_at by done. case_decide; subst; done.
  - cbn [snd]. pose proof (emit_step x SOTGUARD_KIND_PERSISTENCE_NEVER_ACTIVATE (u_index (unit_of x i)) 0 Ho) as He. eapply init_step_trans; [done|].
    destruct He as (He&Hl&_). apply park_step; [done|by rewrite Hl].
Qed.

Lemma by_slot_spec us slot i : sotinit_unit_by_procd_slot us slot = Some i -> slot <> 0 /\ (i < length us)%nat /\ u_procd_slot (unit_at us i) = slot.
Proof. unfold sotinit_unit_by_procd_slot. destruct (slot =? 0) eqn:E; [done|]. bool_to_prop. intros (?&?&_)%first_below_Some. bool_to_prop. done. Qed.

(** A unit whose process has ended, with a state that is not active. *)
Lemma ended_step i s x : init_ok x -> (i < length (g_units x))%nat -> ~ persistent (unit_of x i) -> s <> UNIT_STATE_ACTIVE ->
  init_step x (upd_unit i (set_state s) (upd_unit i (set_unit_slot 0) x)).
Proof.
  intros Ho Hi Hp Hs. rewrite upd_upd by done. apply upd_step; [done..| |by right]. split; [done|done|]. intros H. by destruct Hp.
Qed.

Lemma tsc_step l x : init_ok x -> length l = SOTINIT_MAX_UNITS -> init_step x (with_restart_tsc l x).
Proof. intros [H1 H2 H3] Hl. by split; [split|]. Qed.

Lemma restart_step i now x : init_ok x -> (i < length (g_units x))%nat -> ~ persistent (unit_of x i) ->
  init_step x (restart_or_backoff procd_ep audit_ep ntf badge i now (upd_unit i (set_unit_slot 0) x)).2.
Proof.
  intros Ho Hi Hp. unfold restart_or_backoff. set (x0 := upd_unit i (set_unit_slot 0) x). destruct (_ && _); cbn [snd]; [by apply ended_step|].
  set (b := u_index _ <? _). set (l := <[_ := now]> _).
  assert (init_step x (upd_unit i (set_state UNIT_STATE_LOADED) (if b then with_restart_tsc l x0 else x0))) as Hs.
  { pose proof (ended_step i UNIT_STATE_LOADED x Ho Hi Hp ltac:(done)) as Hs. destruct b; [|done]. eapply init_step_trans; [exact Hs|].
    apply (tsc_step l _ (proj1 Hs)). unfold l. rewrite length_insert. exact (io_tsc _ Ho). }
  eapply init_step_trans; [exact Hs|]. destruct Hs as (Ho'&Hl&_). apply activate_step; [done|by rewrite Hl].
Qed.

Lemma exited_step now slot code x : init_ok x -> init_step x (sotinit_on_proc_exited procd_ep audit_ep ntf badge now slot code x).2.
Proof.
  intros Ho. unfold sotinit_on_proc_exited. destruct (sotinit_unit_by_procd_slot (g_units x) slot) as [i|] eqn:E; [|by apply init_step_refl].
  apply by_slot_spec in E as (Hne&Hi&Hs). assert (~ persistent (unit_of x i)) as Hp.
  { intros H. destruct (uo_persistent _ _ (us_each _ _ (io_units _ Ho) i Hi) H). unfold unit_of in *. congruence. }
  repeat split_goal; (by apply ended_step) || (by apply restart_step).
Qed.

Lemma by_name_spec us name i : sotinit_unit_by_name us name = Some i -> (i < length us)%nat /\ u_name (unit_at us i) = name.
Proof. unfold sotinit_unit_by_name. intros (?&H&_)%first_below_Some. apply bool_decide_eq_true in H. done. Qed.

Lemma logged_persistent u : persistent (set_flags (Z.lor (u_flags u) UNIT_FLAG_ACTIVATE_LOGGED) u) <-> persistent u.
Proof. unfold persistent. simpl. rewrite Z.land_lor_distr_l. change (Z.land UNIT_FLAG_ACTIVATE_LOGGED UNIT_FLAG_F_PERSISTENCE) with 0. by rewrite Z.lor_0_r. Qed.

Lemma logged_step i x : init_ok x -> (i < length (g_units x))%nat ->
  init_step x (upd_unit i (fun u => set_flags (Z.lor (u_flags u) UNIT_FLAG_ACTIVATE_LOGGED) u) x).
Proof.
  intros Ho Hi. apply upd_step; [done..| | |by left].
  - unfold declared. simpl. f_equal. by apply bool_decide_ext, logged_persistent.
  - destruct (us_each _ _ (io_units _ Ho) i Hi) as [H1 H2 H3]. split; [done|done|]. intros H. exact (H3 (proj1 (logged_persistent _) H)).
Qed.

Lemma turn_step now mr x : init_ok x -> init_step x (turn now mr x).2.
Proof.
  intros Ho. pose proof (init_step_refl x Ho) as Hr. unfold sotinit_turn. destruct (_ =? _).
  { pose proof (exited_step now (u32 (mr 1%nat)) (i32 (mr 2%nat)) x Ho) as H. by destruct (sotinit_on_proc_exited _ _ _ _ _ _ _ _). }
  destruct (_ =? _); [done|]. destruct (_ =? _); [done|]. destruct (_ =? _); [|destruct (_ =? _); [|destruct (_ =? _); [|done]]]; cbn [snd].
  - unfold sotinit_handle_start. destruct (sotinit_unit_by_name _ _) as [i|] eqn:E; [|done]. apply by_name_spec in E as [Hi _]. destruct (negb _); [done|]. destruct (_ =? _); [done|].
    pose proof (activate_step i x Ho Hi). by destruct (sotinit_activate_service _ _ _ _ _ _).
  - unfold sotinit_handle_stop. destruct (sotinit_unit_by_name _ _) as [i|] eqn:E; [|done]. apply by_name_spec in E as [Hi _]. destruct (_ =? _) eqn:Es; [done|]. bool_to_prop.
    apply mark_step; [done..| |done]. intros H. by destruct (uo_persistent _ _ (us_each _ _ (io_units _ Ho) i Hi) H).
  - unfold sotinit_handle_activate. destruct (sotinit_unit_by_name _ _) as [i|] eqn:E; [|done]. apply by_name_spec in E as [Hi _]. destruct (negb _); [done|]. destruct (_ =? _).
    + cbn [snd]. destruct (_ =? _); [by apply logged_step|done].
    + pose proof (activate_step i x Ho Hi). by destruct (sotinit_activate_service _ _ _ _ _ _).
Qed.

(** ** Runs *)

(** The messages sotinit receives, at times of the counter, and those others send to procd. *)
Inductive sys_op := Request (now : Z) (mr : nat -> Z) | Other (ntf' : bool) (badge' : Z) (mr : nat -> Z).

Definition sys_step x (op : sys_op) : sotinit :=
  match op with
  | Request now mr => (turn now mr x).2
  | Other ntf' badge' mr => with_procd (procd_dispatch (in_procd x) ntf' badge' mr).1.2 x
  end.
Definition sys_run x (ops : list sys_op) : sotinit := fold_left sys_step ops x.

Lemma sys_step_ok x op : init_ok x -> init_step x (sys_step x op).
Proof.
  intros Ho. destruct op as [now mr|ntf' badge' mr]; [by apply turn_step|]. split; [|done]. split.
  - by apply dispatch_inv, io_procd.
  - exact (units_ok_mono _ _ _ (dispatch_next _ ntf' badge' mr (io_procd _ Ho)) (io_units _ Ho)).
  - exact (io_tsc _ Ho).
Qed.

Lemma run_step x ops : init_ok x -> init_step x (sys_run x ops).
Proof.
  revert x. induction ops as [|op ops IH]; intros x Ho; [by apply init_step_refl|]. pose proof (sys_step_ok x op Ho) as Hs.
  eapply init_step_trans; [exact Hs|]. apply IH, Hs.
Qed.

(** ** Boot *)

Lemma activate_loop_step order active x : init_ok x -> init_step x (activate_loop procd_ep audit_ep ntf badge order active x).2.
Proof.
  revert active x. induction order as [|i order IH]; intros active x Ho; [by apply init_step_refl|]. cbn [activate_loop].
  destruct (_ && _) eqn:E; [|by apply IH]. bool_to_prop. apply Nat.ltb_lt in H. pose proof (activate_step i x Ho H) as Hs.
  destruct (sotinit_activate_service _ _ _ _ i x) as [rc x']. eapply init_step_trans; [exact Hs|]. apply IH, Hs.
Qed.
End services.

(** The registry the scans leave. *)
Definition boot_units : list unit_t := (sotinit_sotfs_scan_now (sotinit_scan_units []).2).2.

Definition loaded_unit (i : nat) (u : unit_t) : bool :=
  (u_index u =? Z.of_nat i) && (length (u_after u) <=? SOTINIT_MAX_AFTER)%nat && (u_state u =? UNIT_STATE_LOADED) && (u_procd_slot u =? 0).

Lemma boot_units_loaded : forallb (fun i => loaded_unit i (unit_at boot_units i)) (seq 0 7) = true /\ length boot_units = 7%nat.
Proof. split; vm_compute; reflexivity. Qed.

Lemma boot_loaded i : (i < length boot_units)%nat -> loaded_unit i (unit_at boot_units i) = true.
Proof.
  destruct boot_units_loaded as [H ->]. intros Hi. rewrite forallb_forall in H. apply H, in_seq. lia.
Qed.

Lemma boot_units_ok next : 0 <= next -> units_ok next boot_units.
Proof.
  intros Hn. assert (forall i, u_procd_slot (unit_at boot_units i) = 0) as Hz.
  { intros i. destruct (decide (i < length boot_units)%nat) as [Hi|Hi].
    - pose proof (boot_loaded i Hi) as H. unfold loaded_unit in H. by bool_to_prop.
    - unfold unit_at. by rewrite lookup_ge_None_2 by lia. }
  split; [split|..].
  - destruct boot_units_loaded as [_ ->]. unfold SOTINIT_MAX_UNITS. lia.
  - intros i Hi. pose proof (boot_loaded i Hi) as H. unfold loaded_unit in H. bool_to_prop. split; [done|]. by apply Nat.leb_le.
  - intros i Hi. pose proof (boot_loaded i Hi) as H. unfold loaded_unit in H. bool_to_prop. split; rewrite ?Hz; [intros []; reflexivity| |intros _; by split]. intros E. unfold UNIT_STATE_ACTIVE, UNIT_STATE_LOADED in *. lia.
  - intros i j _ H. by rewrite Hz in H.
Qed.

Lemma boot_ok procd_ep audit_ep ntf badge d : procd_inv d -> init_ok (sotinit_boot procd_ep audit_ep ntf badge d).2.
Proof.
  intros I. unfold sotinit_boot. fold boot_units. apply (activate_loop_step procd_ep audit_ep ntf badge). split; [done| |done].
  apply boot_units_ok. pose proof (pi_next _ I). simpl. lia.
Qed.

(** ** Restarts in time *)

Section restarts.
Context (procd_ep audit_ep ntf : bool) (badge : Z).
Implicit Types (x : sotinit).
Abbreviation turn := (sotinit_turn procd_ep audit_ep ntf badge).
Abbreviation step := (sys_step procd_ep audit_ep ntf badge).

(** The counter is read at each request; it does not run backwards. *)
Fixpoint clock_from (lo : Z) (ops : list sys_op) : Prop :=
  match ops with
  | [] => True
  | Request now _ :: ops' => lo <= now < 2 ^ 64 /\ clock_from now ops'
  | Other _ _ _ :: ops' => clock_from lo ops'
  end.

(** The times at which the unit [i] was restarted. *)
Fixpoint restart_times (i : nat) x (ops : list sys_op) : list Z :=
  match ops with
  | [] => []
  | op :: ops' =>
      match op with
      | Request now mr => match (turn now mr x).1 with inr (EXIT_RESTART k) => if decide (k = i) then [now] else [] | _ => [] end
      | Other _ _ _ => []
      end ++ restart_times i (step x op) ops'
  end.

Fixpoint spaced (lo : Z) (ts : list Z) : Prop :=
  match ts with
  | [] => True
  | t :: ts' => lo + BACKOFF_TSC <= t /\ spaced t ts'
  end.

Definition last_restart x (i : nat) : Z := (g_last_restart_tsc x).[i, 0].

Lemma activate_tsc i x : g_last_restart_tsc (sotinit_activate_service procd_ep audit_ep ntf badge i x).2 = g_last_restart_tsc x.
Proof.
  unfold sotinit_activate_service, sotinit_procd_spawn, sotos_audit_emit. repeat split_goal; try done.
Qed.

Lemma restart_tsc i k now x : init_ok x -> (k < length (g_units x))%nat -> 0 <= last_restart x k <= now -> now < 2 ^ 64 ->
  let '(line, x') := restart_or_backoff procd_ep audit_ep ntf badge k now (upd_unit k (set_unit_slot 0) x) in
  line = EXIT_BACKOFF k /\ last_restart x' i = last_restart x i
  \/ line = EXIT_RESTART k /\ last_restart x k + BACKOFF_TSC <= now /\ last_restart x' i = if decide (k = i) then now else last_restart x i.
Proof.
  intros Ho Hk Hl Hnow. unfold restart_or_backoff. assert (unit_of (upd_unit k (set_unit_slot 0) x) k = set_unit_slot 0 (unit_of x k)) as Eu.
  { by rewrite upd_unit_at, decide_True. }
  destruct (us_registry _ _ (io_units _ Ho)) as [Hmax Hreg]. destruct (Hreg k Hk) as [Hidx _]. fold (unit_of x k) in Hidx.
  rewrite Eu. change (u_index (set_unit_slot 0 (unit_of x k))) with (u_index (unit_of x k)). rewrite Hidx, (proj2 (Z.ltb_lt _ _)), Nat2Z.id by lia.
  change (g_last_restart_tsc (upd_unit k (set_unit_slot 0) x)) with (g_last_restart_tsc x). fold (last_restart x k). cbn [andb].
  rewrite u64_small by lia. destruct (_ <? _) eqn:E; bool_to_prop; [by left|right]. split; [done|]. split; [lia|].
  unfold last_restart at 1. rewrite activate_tsc. cbn [g_last_restart_tsc upd_unit with_units with_restart_tsc].
  rewrite array_get_insert; [done|]. rewrite (io_tsc _ Ho). lia.
Qed.

(** What a round does to the time of the last restart. *)
Lemma turn_tsc i now mr x : init_ok x -> (forall k, 0 <= last_restart x k <= now) -> now < 2 ^ 64 ->
  last_restart x i + BACKOFF_TSC <= now /\ (turn now mr x).1 = inr (EXIT_RESTART i) /\ last_restart (turn now mr x).2 i = now
  \/ (turn now mr x).1 <> inr (EXIT_RESTART i) /\ last_restart (turn now mr x).2 i = last_restart x i.
Proof.
  intros Ho Hl Hnow. unfold sotinit_turn. destruct (_ =? _).
  - unfold sotinit_on_proc_exited. destruct (sotinit_unit_by_procd_slot (g_units x) _) as [k|] eqn:E; [|by right].
    apply by_slot_spec in E as (_&Hk&_). pose proof (restart_tsc i k now x Ho Hk (Hl k) Hnow) as Hr.
    destruct (restart_or_backoff _ _ _ _ k now (upd_unit k (set_unit_slot 0) x)) as [line x'] eqn:Er.
    assert (last_restart x i + BACKOFF_TSC <= now /\ (inr line : sotinit_reply + exit_line) = inr (EXIT_RESTART i) /\ last_restart x' i = now
      \/ (inr line : sotinit_reply + exit_line) <> inr (EXIT_RESTART i) /\ last_restart x' i = last_restart x i) as Hx.
    { destruct Hr as [[-> ->]|(->&Hge&->)]; [by right|]. destruct (decide (k = i)) as [->|Hne]; [by left|right]. split; [congruence|done]. }
    repeat split_goal; done || (by right).
  - right. unfold last_restart, sotinit_handle_start, sotinit_handle_stop, sotinit_handle_activate.
    repeat match goal with
    | |- context [sotinit_activate_service ?a ?b ?c ?d ?i ?x] => pose proof (activate_tsc i x); destruct (sotinit_activate_service a b c d i x)
    | _ => split_goal
    end; cbn in *; split; congruence || done.
Qed.

Lemma turn_clock lo now mr x : init_ok x -> (forall k, 0 <= last_restart x k <= lo) -> lo <= now < 2 ^ 64 -> forall k, 0 <= last_restart (turn now mr x).2 k <= now.
Proof.
  intros Ho Hl Hn k. assert (forall j, 0 <= last_restart x j <= now) as Hl' by (intros j; specialize (Hl j); lia).
  destruct (turn_tsc k now mr x Ho Hl' (proj2 Hn)) as [(_&_&->)|[_ ->]]; specialize (Hl' k); lia.
Qed.

Lemma restarts_spaced i lo x ops : init_ok x -> (forall k, 0 <= last_restart x k <= lo) -> clock_from lo ops -> spaced (last_restart x i) (restart_times i x ops).
Proof.
  revert lo x. induction ops as [|op ops IH]; intros lo x Ho Hl Hc; [done|]. destruct (sys_step_ok procd_ep audit_ep ntf badge x op Ho) as [Ho' _].
  cbn [restart_times]. destruct op as [now mr|ntf' badge' mr]; [|exact (IH lo _ Ho' Hl Hc)]. destruct Hc as [Hn Hc].
  pose proof (IH now _ Ho' (turn_clock lo now mr x Ho Hl Hn) Hc) as Hs. cbn [sys_step] in *.
  destruct (turn_tsc i now mr x Ho) as [(Hge&E&El)|[E El]]; [intros k; specialize (Hl k); lia|lia|..]; rewrite El in Hs.
  - rewrite E, decide_True by done. done.
  - destruct (turn now mr x).1 as [|[]]; try done. rewrite decide_False; [done|]. congruence.
Qed.
End restarts.

Lemma activate_loop_tsc procd_ep audit_ep ntf badge order active x :
  g_last_restart_tsc (activate_loop procd_ep audit_ep ntf badge order active x).2 = g_last_restart_tsc x.
Proof.
  revert active x. induction order as [|i order IH]; intros active x; [done|]. cbn [activate_loop]. destruct (_ && _); [|apply IH].
  pose proof (activate_tsc procd_ep audit_ep ntf badge i x) as Ht. destruct (sotinit_activate_service _ _ _ _ i x) as [rc x']. cbn [snd] in Ht. by rewrite IH.
Qed.

Lemma boot_last procd_ep audit_ep ntf badge d k : last_restart (sotinit_boot procd_ep audit_ep ntf badge d).2 k = 0.
Proof.
  unfold last_restart, sotinit_boot. rewrite activate_loop_tsc. cbn [g_last_restart_tsc]. destruct (replicate _ _ !! k) eqn:E; [|done]. by apply lookup_replicate in E as [-> _].
Qed.

(** ** Claims *)

Section claims.
Context (procd_ep audit_ep ntf : bool) (badge : Z).
Abbreviation boot d := (sotinit_boot procd_ep audit_ep ntf badge d).2.
Abbreviation run := (sys_run procd_ep audit_ep ntf badge).

Lemma boot_declared d i : procd_inv d -> declared (unit_of (boot d) i) = declared (unit_at boot_units i).
Proof.
  intros I. unfold sotinit_boot. fold boot_units. set (x0 := mk_sotinit boot_units _ d []).
  assert (init_ok x0) as Ho by (split; [done|apply boot_units_ok; pose proof (pi_next _ I); simpl; lia|done]).
  by destruct (activate_loop_step procd_ep audit_ep ntf badge (sotinit_topo_sort boot_units).2 0 x0 Ho) as (_&_&->).
Qed.

Lemma activate_persistent i x : (i < length (g_units x))%nat -> u_kind (unit_of x i) = UNIT_KIND_SERVICE -> persistent (unit_of x i) ->
  let '(rc, x') := sotinit_activate_service procd_ep audit_ep ntf badge i x in
  rc = 0 /\ unit_of x' i = set_state UNIT_STATE_LOADED (unit_of x i) /\ in_procd x' = in_procd x.
Proof.
  intros Hi Hk Hp. unfold sotinit_activate_service. rewrite Hk, (proj2 (Z.eqb_neq _ _) Hp). cbn [negb Z.eqb UNIT_KIND_SERVICE Pos.eqb]. split; [done|].
  unfold sotos_audit_emit. split; [rewrite upd_unit_at, decide_True by (by destruct audit_ep)|]; by destruct audit_ep.
Qed.

(** After boot, whatever requests, exit notifications and messages of other processes to
    procd follow: a unit with a process slot is a service and no persistence unit, the slot is
    that of a process procd created, and the exit notification of the slot finds this unit
    and no other; an active unit has a slot. *)
Theorem exit_finds_its_unit d ops i :
  let x := run (boot d) ops in
  procd_inv d -> (i < length (g_units x))%nat ->
  let u := unit_of x i in
  (u_procd_slot u <> 0 ->
     u_kind u = UNIT_KIND_SERVICE /\ ~ persistent u /\ p_state (proc_at (in_procd x) (Z.to_nat (u_procd_slot u))) <> PROC_STATE_FREE
     /\ sotinit_unit_by_procd_slot (g_units x) (u_procd_slot u) = Some i)
  /\ (u_state u = UNIT_STATE_ACTIVE -> u_procd_slot u <> 0).
Proof.
  intros x I Hi u. destruct (run_step procd_ep audit_ep ntf badge _ ops (boot_ok procd_ep audit_ep ntf badge d I)) as (Ho&_&_). fold x in Ho.
  pose proof (io_procd _ Ho) as Ip. destruct (us_each _ _ (io_units _ Ho) i Hi) as [H1 H2 H3]. split; [|done]. intros Hs. destruct (H1 Hs) as [Hk Hlt]. split; [done|]. split; [|split].
  - intros Hp. by destruct (H3 Hp).
  - pose proof (pi_next _ Ip). change (unit_at (g_units x) i) with u in *. intros Hf. apply (pi_free _ Ip) in Hf; lia.
  - unfold sotinit_unit_by_procd_slot. rewrite (proj2 (Z.eqb_neq _ _)) by done.
    destruct (first_below_is_Some (fun j => u_procd_slot (unit_at (g_units x) j) =? u_procd_slot u) (length (g_units x)) i Hi) as [j Hj]; [by apply Z.eqb_eq|].
    rewrite Hj. f_equal. apply first_below_Some in Hj as (_&Hj&_). bool_to_prop. symmetry. apply (us_distinct _ _ (io_units _ Ho)); done.
Qed.

(** A unit that the scan marked as a persistence install never gets a process: after any
    run it is still loaded and without a slot, and a START or ACTIVATE of it answers
    with success while procd is left as it was. *)
Theorem persistence_never_runs d ops i name :
  let x := run (boot d) ops in
  procd_inv d -> (i < length boot_units)%nat -> persistent (unit_at boot_units i) ->
  sotinit_unit_by_name (g_units x) name = Some i -> u_kind (unit_of x i) = UNIT_KIND_SERVICE -> (length name < SOTINIT_NAME_MAX)%nat ->
  u_state (unit_of x i) = UNIT_STATE_LOADED /\ u_procd_slot (unit_of x i) = 0
  /\ (let '(r, x') := sotinit_handle_start procd_ep audit_ep ntf badge name x in r = mk_init_reply 0 UNIT_STATE_LOADED 0 /\ in_procd x' = in_procd x)
  /\ (let '(r, x') := sotinit_handle_activate procd_ep audit_ep ntf badge name x in r = mk_init_reply 0 UNIT_STATE_LOADED 0 /\ in_procd x' = in_procd x).
Proof.
  intros x I Hi Hp Hn Hk Hl. destruct (run_step procd_ep audit_ep ntf badge _ ops (boot_ok procd_ep audit_ep ntf badge d I)) as (Ho&_&Hd). fold x in Ho, Hd.
  destruct (by_name_spec _ _ _ Hn) as [Hi' _].
  assert (persistent (unit_of x i)) as Hp'.
  { destruct (declared_fields _ _ (Hd i)) as (_&_&_&_&->). by destruct (declared_fields _ _ (boot_declared d i I)) as (_&_&_&_&->). }
  destruct (uo_persistent _ _ (us_each _ _ (io_units _ Ho) i Hi') Hp') as [Hs Hz]. fold (unit_of x i) in *. split; [done|]. split; [done|].
  pose proof (activate_persistent i x Hi' Hk Hp') as Ha.
  split; [unfold sotinit_handle_start|unfold sotinit_handle_activate, strncpy_n; rewrite take_ge by lia]; rewrite Hn, Hk, Hs; cbn [negb Z.eqb UNIT_KIND_SERVICE UNIT_STATE_LOADED UNIT_STATE_ACTIVE Pos.eqb];
    destruct (sotinit_activate_service _ _ _ _ i x) as [rc x']; destruct Ha as (->&Eu&Ep); (split; [|done]); unfold reply_of; rewrite Eu; simpl; by rewrite Hz.
Qed.

(** Restarts of a service are at least 500 million ticks apart, and the first one is that
    far from zero, as long as the counter does not run backwards. *)
Theorem restart_backoff d ops i :
  procd_inv d -> clock_from 0 ops -> spaced 0 (restart_times procd_ep audit_ep ntf badge i (boot d) ops).
Proof.
  intros I Hc. rewrite <- (boot_last procd_ep audit_ep ntf badge d i). apply (restarts_spaced procd_ep audit_ep ntf badge i 0); [by apply boot_ok| |done].
  intros k. rewrite boot_last. lia.
Qed.
End claims.

Module InitDemo.
(** A request for a unit, as the registers of a message. *)
Definition request (op : Z) (name : list Z) : nat -> Z :=
  let bytes := name ++ replicate (64 - length name) 0 in
  fun i => match i with O => op | 1%nat => 0 | S (S k) => le_val (take 8 (drop (8 * k) bytes)) end.
Definition exited (slot code : Z) : nat -> Z := fun i => match i with O => SOTINIT_OP_PROC_EXITED | 1%nat => slot | _ => code end.

(** Two units that wait for each other, one behind them and one without dependencies. *)
Definition named (i : Z) (name : list Z) (after : list (list Z)) : unit_t := mk_unit i UNIT_KIND_SERVICE UNIT_STATE_LOADED name [] (STR "/bin/true") [] [] 0 0 after 0.
Definition ring : list unit_t := [named 0 (STR "a") [STR "b"]; named 1 (STR "b") [STR "a"; STR "x"]; named 2 (STR "c") [STR "a"; STR "d"]; named 3 (STR "d") []].
Lemma ring_ok : registry_ok ring.
Proof. split; [vm_compute; lia|]. intros i Hi. do 4 (destruct i as [|i]; [by vm_compute; split; [|lia]|]). vm_compute in Hi. lia. Qed.
End InitDemo.

(** The sort at a registry with a cycle: only the unit that does not lead to it is sorted. *)
Lemma topo_sort_correct_witness : sotinit_topo_sort InitDemo.ring = (-1, [3; 0; 1; 2]%nat) /\ ~ Irreflexive (tc (depends InitDemo.ring)).
Proof.
  assert (sotinit_topo_sort InitDemo.ring = (-1, [3; 0; 1; 2]%nat)) as E by (vm_compute; reflexivity). split; [done|].
  pose proof (topo_sort_correct InitDemo.ring InitDemo.ring_ok) as H. rewrite E in H. destruct H as (_&[_ H]&_). intros Hi. by apply H in Hi.
Defined.

Lemma exit_finds_its_unit_witness :
  let x := sys_run true true false 0 (sotinit_boot true true false 0 procd_boot).2 [Request 0 (InitDemo.request SOTINIT_OP_STOP (STR "demo-b.service"))] in
  u_procd_slot (unit_of x 2) = 4 /\ sotinit_unit_by_procd_slot (g_units x) 4 = Some 2%nat.
Proof.
  intros x. assert (u_procd_slot (unit_of x 2) = 4) as E by (vm_compute; reflexivity). split; [done|].
  destruct (exit_finds_its_unit true true false 0 procd_boot [Request 0 (InitDemo.request SOTINIT_OP_STOP (STR "demo-b.service"))] 2 boot_inv) as [H _]; [vm_compute; lia|].
  fold x in H. rewrite E in H. apply H. lia.
Defined.

Lemma persistence_never_runs_witness :
  let x := sys_run true true false 0 (sotinit_boot true true false 0 procd_boot).2 [Request 0 (InitDemo.request SOTINIT_OP_START (STR "backdoor.service"))] in
  u_procd_slot (unit_of x 5) = 0 /\ (sotinit_handle_start true true false 0 (STR "backdoor.service") x).1 = mk_init_reply 0 UNIT_STATE_LOADED 0.
Proof.
  intros x. destruct (persistence_never_runs true true false 0 procd_boot [Request 0 (InitDemo.request SOTINIT_OP_START (STR "backdoor.service"))] 5 (STR "backdoor.service") boot_inv) as (_&Hz&Hs&_);
    [vm_compute; lia|by vm_compute|vm_compute; reflexivity|vm_compute; reflexivity|vm_compute; lia|].
  fold x in Hz, Hs. split; [done|]. destruct (sotinit_handle_start _ _ _ _ _ x). by destruct Hs as [-> _].
Defined.

(** demo-fail.service (unit 4, slot 3) fails three times; the second failure is too early and
    the restart by the operator is followed by one that is late enough. *)
Lemma restart_backoff_witness :
  let ops := [Request 600000000 (InitDemo.exited 3 1); Request 700000000 (InitDemo.exited 5 1);
              Request 800000000 (InitDemo.request SOTINIT_OP_START (STR "demo-fail.service")); Request 1200000000 (InitDemo.exited 6 1)] in
  let ts := restart_times true true false 0 4 (sotinit_boot true true false 0 procd_boot).2 ops in
  ts = [600000000; 1200000000] /\ spaced 0 ts.
Proof.
  intros ops ts. split; [vm_compute; reflexivity|]. apply (restart_backoff true true false 0 procd_boot ops 4 boot_inv).
  unfold ops. cbn [clock_from]. lia.
Defined.

(** STOP does not hold: the slot stays bound, so the exit that follows restarts the unit. *)
Theorem stop_undone :
  let x := sys_run true true false 0 (sotinit_boot true true false 0 procd_boot).2 [Request 0 (InitDemo.request SOTINIT_OP_STOP (STR "demo-fail.service"))] in
  u_state (unit_of x 4) = UNIT_STATE_DISABLED
  /\ u_state (unit_of (sotinit_turn true true false 0 600000000 (InitDemo.exited 3 1) x).2 4) = UNIT_STATE_ACTIVE.
Proof. split; vm_compute; reflexivity. Qed.
