(* ===== verification/SotCron.v ===== *)
(** * sotcron: calendars, timers and their dispatch to sotinit

    src/sotcron: calendar.c, tsc.c, scan.c, sotfs_scan.c, queries.c and the loop of
    main.c, with include/sotcron.

    The time stamp counter is an argument of the operations that read it.  Strings are
    lists of bytes without their NUL; a read of the calendar parser behind the NUL is
    [None].  The calls to sotinit go to [sotinit_turn]. *)

From S2P Require Import Prelude ProcdTable ProcdServer SotInit.

(** ** Timers *)

Definition SOTCRON_MAX_TIMERS : nat := 32.
Definition SOTCRON_NAME_MAX : nat := 64.
Definition TIMER_KIND_CALENDAR : Z := 1.
Definition TIMER_KIND_INTERVAL : Z := 2.

(** -1, or any negative number, is the wildcard. *)
Record sotcron_calendar_spec := mk_spec { cs_hour : Z; cs_minute : Z; cs_second : Z }.

Record sotcron_timer := mk_timer {
  t_index : Z; t_kind : Z; t_name : list Z; t_target_unit : list Z; t_calendar_spec : sotcron_calendar_spec;
  t_interval_tsc : Z; t_next_fire_tsc : Z; t_last_fire_tsc : Z; t_fire_count : Z }.

Definition zero_timer : sotcron_timer := mk_timer 0 0 [] [] (mk_spec 0 0 0) 0 0 0 0.

Definition set_next_fire (t : Z) (x : sotcron_timer) : sotcron_timer :=
  mk_timer (t_index x) (t_kind x) (t_name x) (t_target_unit x) (t_calendar_spec x) (t_interval_tsc x) t (t_last_fire_tsc x) (t_fire_count x).

(** ** The parsers *)

Definition i8 (z : Z) : Z := let w := u8 z in if w <? 2 ^ 7 then w else w - 2 ^ 8.

(** [str[i]], a signed char; the NUL is readable. *)
Definition char_at (str : list Z) (i : nat) : option Z := if (i =? length str)%nat then Some 0 else i8 <$> str !! i.

(** A field at [i]: its value and where the next one starts. *)
Definition calendar_field (str : list Z) (i : nat) : option (Z * nat) :=
  c ← char_at str i;
  if c =? 42 then Some (-1, (i + 2)%nat)
  else d ← char_at str (i + 1); Some ((c - 48) * 10 + (d - 48), (i + 3)%nat).

(** [Some None] is the result -1. *)
Definition sotcron_parse_on_calendar (str : list Z) : option (option sotcron_calendar_spec) :=
  if negb (bool_decide (take 6 str = STR "*-*-* ")) then Some None
  else
    '(hh, p) ← calendar_field str 6;
    '(mm, p) ← calendar_field str p;
    '(ss, _) ← calendar_field str p;
    Some (if (hh >? 23) || (mm >? 59) || (ss >? 59) then None else Some (mk_spec (i8 hh) (i8 mm) (i8 ss))).

Definition is_digit (c : Z) : bool := (48 <=? c) && (c <=? 57).

Definition interval_unit (p : list Z) : Z :=
  if bool_decide (p = STR "s") then 1 else if bool_decide (p = STR "min") then 60
  else if bool_decide (p = STR "h") then 3600 else if bool_decide (p = STR "d") then 86400 else 0.

Section clock.
(** [g_tsc_per_second] and [g_boot_tsc]. *)
Context (tps boot : Z).

Definition sotcron_parse_on_unit_active_sec (str : list Z) : option Z :=
  let '(digits, p) := span is_digit str in
  let n := fold_left (fun n c => u64 (u64 (n * 10) + (c - 48))) digits 0 in
  if bool_decide (digits = []) then None
  else let mult := interval_unit p in if mult =? 0 then None else Some (u64 (u64 (n * mult) * tps)).

Definition second_matches (spec : sotcron_calendar_spec) (cand : Z) : bool :=
  let h := u32 ((cand / 3600) mod 24) in
  let m := u32 ((cand / 60) mod 60) in
  let s := u32 (cand mod 60) in
  ((cs_hour spec <? 0) || (cs_hour spec =? i8 h)) && ((cs_minute spec <? 0) || (cs_minute spec =? i8 m)) && ((cs_second spec <? 0) || (cs_second spec =? i8 s)).

Definition sotcron_compute_next_calendar (spec : sotcron_calendar_spec) (now_tsc : Z) : Z :=
  let now_sec := u64 (now_tsc - boot) / tps in
  match first_from (fun delta => second_matches spec (u64 (now_sec + Z.of_nat delta))) 1 (Z.to_nat 86399) with
  | Some delta => u64 (boot + u64 (u64 (now_sec + Z.of_nat delta) * tps))
  | None => u64 (now_tsc + u64 (86400 * tps))
  end.

(** The time of the fire after the one at [now_tsc]. *)
Definition next_fire (t : sotcron_timer) (now_tsc : Z) : Z :=
  if t_kind t =? TIMER_KIND_CALENDAR then sotcron_compute_next_calendar (t_calendar_spec t) now_tsc else u64 (now_tsc + t_interval_tsc t).
End clock.

(** The 50000 yields took from [t0] to [t1]. *)
Definition sotcron_tsc_calibrate (t0 t1 : Z) : Z :=
  let calibrated := u64 (u64 (t1 - t0) * 20) in
  if (calibrated <? 100000000) || (calibrated >? 50000000000) then 2400000000 else calibrated.

(** ** The process *)

(** [cr_init] is sotinit, which the process calls. *)
Record sotcron := mk_sotcron { g_tsc_per_second : Z; g_boot_tsc : Z; g_timers : list sotcron_timer; cr_init : sotinit }.
Definition timer_at (l : list sotcron_timer) (i : nat) : sotcron_timer := l.[i, zero_timer].

(** ** The scans *)

(** Name, target, OnCalendar, OnUnitActiveSec. *)
Definition g_bundled_timers : list (list Z * list Z * option (list Z) * option (list Z)) :=
  [(STR "demo-tick.timer", STR "demo-noop.service", None, Some (STR "30s"))].

(** One file of the table: [None] when it is skipped. *)
Definition load_timer (tps boot_now : Z) (index : nat) (src : list Z * list Z * option (list Z) * option (list Z)) : option sotcron_timer :=
  let '(name, target, on_calendar, on_unit_active_sec) := src in
  let mk kind spec interval next :=
    mk_timer (Z.of_nat index) kind (strncpy_n SOTCRON_NAME_MAX name) (strncpy_n SOTCRON_NAME_MAX target) spec interval next 0 0 in
  match on_calendar, on_unit_active_sec with
  | Some str, _ =>
      match sotcron_parse_on_calendar str with
      | Some (Some spec) => Some (mk TIMER_KIND_CALENDAR spec 0 (sotcron_compute_next_calendar tps boot_now spec boot_now))
      | _ => None
      end
  | None, Some str =>
      match sotcron_parse_on_unit_active_sec tps str with
      | Some interval => Some (mk TIMER_KIND_INTERVAL (mk_spec 0 0 0) interval (u64 (boot_now + interval)))
      | None => None
      end
  | None, None => None
  end.

Fixpoint cron_scan_loop (tps boot_now : Z) (files : list (list Z * list Z * option (list Z) * option (list Z))) (timers : list sotcron_timer) : list sotcron_timer :=
  match files with
  | [] => timers
  | src :: files' =>
      if (SOTCRON_MAX_TIMERS <=? length timers)%nat then timers
      else cron_scan_loop tps boot_now files' (timers ++ match load_timer tps boot_now (length timers) src with Some t => [t] | None => [] end)
  end.
Definition sotcron_scan (tps boot_now : Z) : list sotcron_timer := cron_scan_loop tps boot_now g_bundled_timers [].

Definition sotcron_sotfs_timer_paths : list (list Z) := [STR "/etc/systemd/system/backdoor.timer"].
Definition UINT64_MAX : Z := 2 ^ 64 - 1.

Fixpoint cron_sotfs_loop (paths : list (list Z)) (timers : list sotcron_timer) : list sotcron_timer :=
  match paths with
  | [] => timers
  | p :: paths' =>
      if (SOTCRON_MAX_TIMERS <=? length timers)%nat then timers
      else
        let name := match strrchr 47 p with Some base => drop 1 base | None => p end in
        cron_sotfs_loop paths' (timers ++ [mk_timer (Z.of_nat (length timers)) 0 (strncpy_n SOTCRON_NAME_MAX name) [] (mk_spec 0 0 0) 0 UINT64_MAX 0 0])
  end.
Definition sotcron_sotfs_scan_now (timers : list sotcron_timer) : list sotcron_timer := cron_sotfs_loop sotcron_sotfs_timer_paths timers.

(** ** Firing *)

(** The registers of an activation: the unit name in eight words. *)
Definition activate_mrs (target_unit : list Z) : nat -> Z :=
  let bytes := target_unit ++ replicate (64 - length target_unit) 0 in
  fun i => match i with O => SOTINIT_OP_ACTIVATE | 1%nat => 0 | S (S j) => if (j <? 8)%nat then le_val (take 8 (drop (8 * j) bytes)) else 0 end.

Section process.
(** Whether sotinit's endpoint was given, and the endpoints of sotinit. *)
Context (sotinit_ep procd_ep audit_ep ntf : bool) (badge : Z).
Implicit Types (c : sotcron).

(** One timer of the walk: fired or not, the timer and sotinit after it. *)
Definition process_timer (tps boot now_tsc : Z) (t : sotcron_timer) (x : sotinit) : bool * sotcron_timer * sotinit :=
  if t_next_fire_tsc t >? now_tsc then (false, t, x)
  else
    let x := if sotinit_ep then (sotinit_turn procd_ep audit_ep ntf badge now_tsc (activate_mrs (t_target_unit t)) x).2 else x in
    (true, mk_timer (t_index t) (t_kind t) (t_name t) (t_target_unit t) (t_calendar_spec t) (t_interval_tsc t) (next_fire tps boot t now_tsc) now_tsc (u32 (t_fire_count t + 1)), x).

(** The walk, with the timers that fired. *)
Fixpoint process_loop (tps boot now_tsc : Z) (ts : list sotcron_timer) (x : sotinit) : list bool * list sotcron_timer * sotinit :=
  match ts with
  | [] => ([], [], x)
  | t :: ts' =>
      let '(f, t, x) := process_timer tps boot now_tsc t x in
      let '(fs, ts', x) := process_loop tps boot now_tsc ts' x in
      (f :: fs, t :: ts', x)
  end.
Definition sotcron_process_timers (now_tsc : Z) c : list bool * sotcron :=
  let '(fs, ts, x) := process_loop (g_tsc_per_second c) (g_boot_tsc c) now_tsc (g_timers c) (cr_init c) in
  (fs, mk_sotcron (g_tsc_per_second c) (g_boot_tsc c) ts x).

(** ** Requests *)

Definition SOTCRON_OP_LIST : Z := 1.
Definition SOTCRON_OP_FIRE_NOW : Z := 2.

Record sotcron_reply := mk_cron_reply { cp_result : Z; cp_timer_count : Z; cp_next_fire_tsc : Z }.

Definition sotcron_handle_list c : sotcron_reply :=
  let n := Z.of_nat (length (g_timers c)) in mk_cron_reply (i32 n) n (if n >? 0 then t_next_fire_tsc (timer_at (g_timers c) 0) else 0).

Definition sotcron_handle_fire_now (name : list Z) (now_tsc : Z) c : sotcron_reply * sotcron :=
  match first_below (fun i => bool_decide (t_name (timer_at (g_timers c) i) = name)) (length (g_timers c)) with
  | Some i => (mk_cron_reply 0 (Z.of_nat (length (g_timers c))) now_tsc,
               mk_sotcron (g_tsc_per_second c) (g_boot_tsc c) (<[i := set_next_fire now_tsc (timer_at (g_timers c) i)]> (g_timers c)) (cr_init c))
  | None => (mk_cron_reply (-3) 0 0, c)
  end.

(** The name of a request; its last byte is overwritten by a NUL. *)
Definition cron_req_name (mr : nat -> Z) : list Z := c_str (take 63 (concat ((fun i => le_bytes 8 (mr (2 + i)%nat)) <$> seq 0 8))).

(** A pass over the queue: [None] when no message waits (badge 0). *)
Definition sotcron_drain_ipc (now_tsc : Z) (msg : option (nat -> Z)) c : option sotcron_reply * sotcron :=
  match msg with
  | None => (None, c)
  | Some mr =>
      if mr 0%nat =? SOTCRON_OP_LIST then (Some (sotcron_handle_list c), c)
      else if mr 0%nat =? SOTCRON_OP_FIRE_NOW then let '(r, c) := sotcron_handle_fire_now (cron_req_name mr) now_tsc c in (Some r, c)
      else (Some (mk_cron_reply (-1) 0 0), c)
  end.

(** A turn of the polling loop at [now]; a request is served at [now']. *)
Definition sotcron_poll (now now' : Z) (msg : option (nat -> Z)) (last_poll : Z) c : Z * sotcron :=
  let '(last_poll, c) :=
    if u64 (now - last_poll) >=? g_tsc_per_second c then (now, (sotcron_process_timers now c).2) else (last_poll, c) in
  (last_poll, (sotcron_drain_ipc now' msg c).2).

Definition sotcron_boot (t0 t1 boot_now : Z) (x : sotinit) : sotcron :=
  let tps := sotcron_tsc_calibrate t0 t1 in
  mk_sotcron tps boot_now (sotcron_sotfs_scan_now (sotcron_scan tps boot_now)) x.
End process.
