(* ===== verification/SotCronTheorems.v ===== *)
(** * Theorems on sotcron

    The next instant of a calendar ([next_calendar_first]), the text form of calendars and
    intervals ([calendar_roundtrip], [interval_parse]), the fires of a timer over turns of
    the polling loop, against due times written from the calendar and the interval ([timer_schedule]), and where the code parts from its comments
    ([calendar_accepts_garbage], [persistent_timer_fires]). *)

From S2P Require Import Prelude ProcdTable ProcdServer ProcdSpec ProcdTheorems SotInit SotInitTheorems SotCron.

(** ** Calendars *)

Definition field_ok (bound f : Z) : Prop := f = -1 \/ 0 <= f < bound.
Definition spec_ok (s : sotcron_calendar_spec) : Prop := field_ok 24 (cs_hour s) /\ field_ok 60 (cs_minute s) /\ field_ok 60 (cs_second s).

(** The second [k] after boot is one the calendar names. *)
Definition matches (s : sotcron_calendar_spec) (k : Z) : Prop :=
  (cs_hour s < 0 \/ cs_hour s = (k / 3600) mod 24) /\ (cs_minute s < 0 \/ cs_minute s = (k / 60) mod 60) /\ (cs_second s < 0 \/ cs_second s = k mod 60).

Lemma i8_small z : 0 <= z < 2 ^ 7 -> i8 z = z.
Proof. intros H. unfold i8, u8. rewrite Z.mod_small by lia. by rewrite (proj2 (Z.ltb_lt _ _)) by lia. Qed.

Lemma wild_or a b : 0 <= b < 2 ^ 7 -> (a <? 0) || (a =? i8 (u32 b)) = true <-> a < 0 \/ a = b.
Proof. intros H. rewrite u32_small, i8_small, orb_true_iff, Z.ltb_lt, Z.eqb_eq by lia. done. Qed.

Lemma second_matches_spec s k : second_matches s k = true <-> matches s k.
Proof.
  unfold second_matches, matches. rewrite !andb_true_iff, !wild_or; [tauto|..].
  - pose proof (Z.mod_pos_bound k 60). lia.
  - pose proof (Z.mod_pos_bound (k / 60) 60). lia.
  - pose proof (Z.mod_pos_bound (k / 3600) 24). lia.
Qed.

(** Every day has a matching second. *)
Lemma match_within_a_day s now : spec_ok s -> exists k, now < k <= now + 86400 /\ matches s k.
Proof.
  intros (Hh&Hm&Hs). set (h := Z.max 0 (cs_hour s)). set (m := Z.max 0 (cs_minute s)). set (sec := Z.max 0 (cs_second s)).
  assert (0 <= h < 24 /\ 0 <= m < 60 /\ 0 <= sec < 60) as (Bh&Bm&Bs) by (unfold field_ok in *; lia).
  set (t := h * 3600 + m * 60 + sec). exists (now + 1 + (t - now - 1) mod 86400). pose proof (Z.mod_pos_bound (t - now - 1) 86400). split; [lia|].
  assert (exists q, now + 1 + (t - now - 1) mod 86400 = 86400 * q + t) as [q ->] by (exists (- ((t - now - 1) / 86400)); rewrite Z.mod_eq by lia; lia). unfold matches.
  assert ((86400 * q + t) / 3600 = 24 * q + h) as -> by (symmetry; apply (Z.div_unique_pos _ _ _ (m * 60 + sec)); lia).
  assert ((86400 * q + t) / 60 = 60 * (24 * q + h) + m) as -> by (symmetry; apply (Z.div_unique_pos _ _ _ sec); lia).
  assert ((24 * q + h) mod 24 = h) as Eh by (symmetry; apply (Z.mod_unique_pos _ _ q); lia).
  assert ((60 * (24 * q + h) + m) mod 60 = m) as Em by (symmetry; apply (Z.mod_unique_pos _ _ (24 * q + h)); lia).
  assert ((86400 * q + t) mod 60 = sec) as Es by (symmetry; apply (Z.mod_unique_pos _ _ (1440 * q + h * 60 + m)); lia).
  rewrite Eh, Em, Es. clearbody t. unfold h, m, sec, field_ok in *. lia.
Qed.

(** For a valid calendar, the computed time is later than now and lies in the first
    matching second after the current one, counted from boot; that is so even when the
    search of a day finds nothing and the fallback of 24 hours is taken. *)
Theorem next_calendar_first tps boot spec now :
  spec_ok spec -> 0 < tps -> 0 <= boot <= now -> now + 86400 * tps < 2 ^ 64 ->
  let sec t := (t - boot) / tps in
  let next := sotcron_compute_next_calendar tps boot spec now in
  now < next /\ matches spec (sec next) /\ forall k, sec now < k < sec next -> ~ matches spec k.
Proof.
  intros Hok Ht Hb Hov sec next. unfold next, sotcron_compute_next_calendar, sec. set (now_sec := (now - boot) / tps).
  pose proof (Z.div_mod (now - boot) tps ltac:(lia)) as Hd. pose proof (Z.mod_pos_bound (now - boot) tps Ht) as Hm. fold now_sec in Hd.
  assert (0 <= now_sec) as Hs by (apply Z.div_pos; lia). rewrite (u64_small (now - boot)) by lia. fold now_sec.
  assert (forall delta : nat, Z.of_nat delta < 86400 -> u64 (now_sec + Z.of_nat delta) = now_sec + Z.of_nat delta) as Hu by (intros delta Hlt; apply u64_small; nia).
  destruct (first_from _ _ _) as [delta|] eqn:E.
  - apply first_from_Some in E as (Hr&Hp&Hbefore). assert (Z.of_nat delta < 86400) as Hlt by lia. rewrite Hu in Hp |- * by done.
    rewrite (u64_small ((now_sec + Z.of_nat delta) * tps)) by nia. rewrite u64_small by nia.
    assert ((boot + (now_sec + Z.of_nat delta) * tps - boot) / tps = now_sec + Z.of_nat delta) as -> by (rewrite <- (Z.div_mul (now_sec + Z.of_nat delta) tps) at 2 by lia; f_equal; lia).
    split; [nia|]. split; [by apply second_matches_spec|]. intros k Hk Hkm. apply second_matches_spec in Hkm.
    specialize (Hbefore (Z.to_nat (k - now_sec)) ltac:(lia)). simpl in Hbefore. rewrite Hu in Hbefore by lia. replace (now_sec + Z.of_nat (Z.to_nat (k - now_sec))) with k in Hbefore by lia. congruence.
  - rewrite (u64_small (86400 * tps)), u64_small by lia.
    assert ((now + 86400 * tps - boot) / tps = now_sec + 86400) as -> by (unfold now_sec; rewrite <- Z.div_add by lia; f_equal; lia).
    assert (forall k, now_sec < k < now_sec + 86400 -> ~ matches spec k) as Hno.
    { intros k Hk Hkm%second_matches_spec. pose proof (first_from_None _ _ _ (Z.to_nat (k - now_sec)) E ltac:(lia)) as Hf. simpl in Hf. rewrite Hu in Hf by lia.
      replace (now_sec + Z.of_nat (Z.to_nat (k - now_sec))) with k in Hf by lia. congruence. }
    split; [lia|]. split; [|done]. destruct (match_within_a_day spec now_sec Hok) as (k&Hk&Hkm). destruct (decide (k = now_sec + 86400)) as [->|]; [done|].
    exfalso. apply (Hno k); [lia|done].
Qed.

(** Daily at 06:30:00, asked half a minute before. *)
Lemma next_calendar_first_witness :
  let next := sotcron_compute_next_calendar 1000000000 0 (mk_spec 6 30 0) 23370500000000 in
  next = 23400000000000 /\ 23370500000000 < next /\ matches (mk_spec 6 30 0) (next / 1000000000).
Proof.
  intros next. assert (next = 23400000000000) as E by (vm_compute; reflexivity). split; [done|].
  destruct (next_calendar_first 1000000000 0 (mk_spec 6 30 0) 23370500000000) as (H1&H2&_); [unfold spec_ok, field_ok; simpl; lia|lia|lia|lia|]. fold next in H1, H2.
  rewrite Z.sub_0_r in H2. exact (conj H1 H2).
Defined.

(** ** Text *)

Definition print_field (f : Z) : list Z := if f <? 0 then [42] else [48 + f / 10; 48 + f mod 10].
Definition print_calendar (s : sotcron_calendar_spec) : list Z :=
  STR "*-*-* " ++ print_field (cs_hour s) ++ [58] ++ print_field (cs_minute s) ++ [58] ++ print_field (cs_second s).

Lemma char_at_app a c r n : n = length a -> 0 <= c < 2 ^ 7 -> char_at (a ++ c :: r) n = Some c.
Proof.
  intros -> Hc. unfold char_at. rewrite length_app. simpl length. rewrite (proj2 (Nat.eqb_neq _ _)) by lia. rewrite list_lookup_middle by done. simpl. by rewrite i8_small.
Qed.

Lemma calendar_field_print a f r bound : field_ok bound f -> bound <= 100 ->
  calendar_field (a ++ print_field f ++ r) (length a) = Some (f, (length a + length (print_field f) + 1)%nat).
Proof.
  intros [->|Hf] Hb; unfold calendar_field.
  - change (print_field (-1) ++ r) with (42 :: r). rewrite (char_at_app a 42 r _ eq_refl) by (split; [done|reflexivity]). cbn. do 2 f_equal. lia.
  - unfold print_field. rewrite (proj2 (Z.ltb_ge f 0)) by lia. pose proof (Z.div_mod f 10 ltac:(lia)). pose proof (Z.mod_pos_bound f 10 ltac:(lia)). cbn [app]. rewrite (char_at_app a _ _ _ eq_refl) by (split; [lia|change (2 ^ 7) with 128; lia]).
    cbn [mbind option_bind]. rewrite (proj2 (Z.eqb_neq _ _)) by lia. replace (a ++ 48 + f / 10 :: 48 + f mod 10 :: r) with ((a ++ [48 + f / 10]) ++ 48 + f mod 10 :: r) by (by rewrite <- app_assoc).
    rewrite char_at_app; [|rewrite length_app; done|lia]. cbn [mbind option_bind length]. do 2 f_equal; lia.
Qed.

(** The next field starts behind the colon. *)
Lemma calendar_field_next a f r bound n : field_ok bound f -> bound <= 100 -> n = (length a + 1)%nat ->
  calendar_field (a ++ [58] ++ print_field f ++ r) n = Some (f, (n + length (print_field f) + 1)%nat).
Proof. intros Hf Hb ->. rewrite app_assoc. replace (length a + 1)%nat with (length (a ++ [58])) by (rewrite length_app; done). by apply calendar_field_print with bound. Qed.

(** Parsing the text of a valid calendar gives it back; hours, minutes and seconds may be
    wildcards. *)
Theorem calendar_roundtrip spec : spec_ok spec -> sotcron_parse_on_calendar (print_calendar spec) = Some (Some spec).
Proof.
  destruct spec as [h m s]. intros (Hh&Hm&Hs). cbn [cs_hour cs_minute cs_second] in *. unfold sotcron_parse_on_calendar, print_calendar. cbn [cs_hour cs_minute cs_second].
  set (pre := STR "*-*-* "). change 6%nat with (length pre) at 2. rewrite (calendar_field_print pre h _ 24) by (done || lia).
  rewrite bool_decide_eq_true_2 by done. cbn [negb mbind option_bind].
  replace (pre ++ print_field h ++ [58] ++ print_field m ++ [58] ++ print_field s) with ((pre ++ print_field h) ++ [58] ++ print_field m ++ [58] ++ print_field s) by (by rewrite <- !app_assoc).
  rewrite (calendar_field_next _ m _ 60) by (done || lia || by rewrite length_app). cbn [mbind option_bind].
  replace ((pre ++ print_field h) ++ [58] ++ print_field m ++ [58] ++ print_field s) with ((pre ++ print_field h ++ [58] ++ print_field m) ++ [58] ++ print_field s ++ []) by (by rewrite app_nil_r, <- !app_assoc).
  rewrite (calendar_field_next _ s _ 60) by (done || lia || (rewrite !length_app; simpl; lia)). cbn [mbind option_bind].
  assert (forall f b, field_ok b f -> b <= 100 -> i8 f = f) as Hi by (intros f b [->|Hf] Hb; [done|apply i8_small; lia]).
  assert (forall f b, field_ok (b + 1) f -> 0 < b -> (f >? b) = false) as Hg by (intros f b [->|Hf] Hb; rewrite Z.gtb_ltb; apply Z.ltb_ge; lia).
  rewrite (Hg h 23), (Hg m 59), (Hg s 59), (Hi h 24), (Hi m 60), (Hi s 60) by (done || lia). done.
Qed.

Lemma calendar_roundtrip_witness : sotcron_parse_on_calendar (STR "*-*-* 23:*:05") = Some (Some (mk_spec 23 (-1) 5)).
Proof. apply (calendar_roundtrip (mk_spec 23 (-1) 5)). unfold spec_ok, field_ok. simpl. lia. Defined.

Lemma span_digits digits (unit : list Z) : Forall (fun c => is_digit c = true) digits -> from_option (fun c => is_digit c = false) True (head unit) ->
  span is_digit (digits ++ unit) = (digits, unit).
Proof.
  intros Hd Hh. induction Hd as [|c s Hc _ IH]; [destruct unit as [|c r]; [done|]; cbn in *; by rewrite Hh|]. cbn [app span]. by rewrite Hc, IH.
Qed.

Lemma digits_nonneg digits n : Forall (fun c => is_digit c = true) digits -> 0 <= n -> n <= fold_left (fun n c => n * 10 + (c - 48)) digits n.
Proof.
  intros Hd. revert n. induction Hd as [|c s Hc _ IH]; intros n Hn; cbn [fold_left]; [lia|]. unfold is_digit in Hc. bool_to_prop.
  specialize (IH (n * 10 + (c - 48)) ltac:(lia)). lia.
Qed.

Lemma digits_value digits n : Forall (fun c => is_digit c = true) digits -> 0 <= n -> fold_left (fun n c => n * 10 + (c - 48)) digits n < 2 ^ 64 ->
  fold_left (fun n c => u64 (u64 (n * 10) + (c - 48))) digits n = fold_left (fun n c => n * 10 + (c - 48)) digits n.
Proof.
  intros Hd. revert n. induction Hd as [|c s Hc Hs IH]; intros n Hn Hb; cbn [fold_left] in *; [done|]. unfold is_digit in Hc. bool_to_prop.
  pose proof (digits_nonneg s (n * 10 + (c - 48)) Hs ltac:(lia)). rewrite (u64_small (n * 10)), u64_small by lia. apply IH; lia.
Qed.

(** An interval: the digits are the decimal number, as long as nothing overflows. *)
Theorem interval_parse tps digits unit mult :
  digits <> [] -> Forall (fun c => is_digit c = true) digits -> (unit, mult) ∈ [(STR "s", 1); (STR "min", 60); (STR "h", 3600); (STR "d", 86400)] ->
  let n := fold_left (fun n c => n * 10 + (c - 48)) digits 0 in
  0 < tps -> n * mult * tps < 2 ^ 64 -> sotcron_parse_on_unit_active_sec tps (digits ++ unit) = Some (n * mult * tps).
Proof.
  intros Hne Hd Hu n Ht Hb. assert (0 < mult /\ interval_unit unit = mult /\ from_option (fun c => is_digit c = false) True (head unit)) as (Hm&Ei&Hh).
  { repeat (apply elem_of_cons in Hu as [[= -> ->]|Hu]; [done|]). by apply elem_of_nil in Hu. }
  unfold sotcron_parse_on_unit_active_sec. rewrite span_digits by done. rewrite bool_decide_eq_false_2, Ei, (proj2 (Z.eqb_neq _ _)) by (done || lia).
  assert (0 <= n < 2 ^ 64) as Hn by (split; [apply digits_nonneg; done|nia]). rewrite (digits_value digits 0) by (done || lia). fold n.
  rewrite (u64_small (n * mult)), u64_small by nia. done.
Qed.

(** Characters below the digits give a negative number, which is a wildcard. *)
Theorem calendar_accepts_garbage : sotcron_parse_on_calendar (STR "*-*-* //:00:00") = Some (Some (mk_spec (-11) 0 0)).
Proof. vm_compute. reflexivity. Qed.

(** A text that ends after a field makes the parser read behind its NUL. *)
Theorem calendar_overreads : sotcron_parse_on_calendar (STR "*-*-* *") = None.
Proof. vm_compute. reflexivity. Qed.

(** ** When a timer is due *)

(** What the files say, without the code's computations.  After a fire at [now] a calendar
    timer is due in the first second after the current one, counted from boot, that its
    calendar names; any other timer is due its interval later. *)
Inductive due_after (tps boot : Z) (t : sotcron_timer) (now : Z) : Z -> Prop :=
| due_calendar d : t_kind t = TIMER_KIND_CALENDAR -> now < d -> matches (t_calendar_spec t) ((d - boot) / tps) ->
    (forall k, (now - boot) / tps < k < (d - boot) / tps -> ~ matches (t_calendar_spec t) k) -> due_after tps boot t now d
| due_interval : t_kind t <> TIMER_KIND_CALENDAR -> due_after tps boot t now (now + t_interval_tsc t).

Lemma next_fire_due tps boot t now : 0 < tps -> 0 <= boot <= now -> now + 86400 * tps < 2 ^ 64 -> 0 <= t_interval_tsc t -> now + t_interval_tsc t < 2 ^ 64 ->
  (t_kind t = TIMER_KIND_CALENDAR -> spec_ok (t_calendar_spec t)) -> due_after tps boot t now (next_fire tps boot t now).
Proof.
  intros Ht Hb Hd Hi Hn Hs. unfold next_fire. destruct (Z.eqb_spec (t_kind t) TIMER_KIND_CALENDAR) as [Ek|Ek].
  - destruct (next_calendar_first tps boot (t_calendar_spec t) now (Hs Ek) Ht Hb Hd) as (H1&H2&H3). by apply due_calendar.
  - rewrite u64_small by lia. by apply due_interval.
Qed.

(** A turn of the loop: the time it begins, the time a request is served, the request. *)
Record turn := mk_turn { tu_now : Z; tu_served : Z; tu_msg : option (nat -> Z) }.

(** A request that names the timer (the first one of that name) makes it due when it is served. *)
Definition names_it (names : list (list Z)) (i : nat) (msg : option (nat -> Z)) : Prop :=
  exists mr, msg = Some mr /\ mr 0%nat = SOTCRON_OP_FIRE_NOW /\ names !! i = Some (cron_req_name mr) /\ forall j, (j < i)%nat -> names !! j <> Some (cron_req_name mr).
Definition due_served (names : list (list Z)) (i : nat) (u : turn) (due due' : Z) : Prop :=
  names_it names i (tu_msg u) /\ due' = tu_served u \/ ~ names_it names i (tu_msg u) /\ due' = due.

(** The fires of timer [i] over a list of turns: the timers are looked at in a turn that
    begins a second or more after the last one in which they were; the timer fires then if it
    is due, and is due again by its file; a request may change that. *)
Inductive scheduled (tps boot : Z) (t : sotcron_timer) (names : list (list Z)) (i : nat) : Z -> Z -> list turn -> list Z -> Prop :=
| sched_end last due : scheduled tps boot t names i last due [] []
| sched_soon last due due' u us fs : tu_now u - last < tps -> due_served names i u due due' ->
    scheduled tps boot t names i last due' us fs -> scheduled tps boot t names i last due (u :: us) fs
| sched_early last due due' u us fs : tps <= tu_now u - last -> tu_now u < due -> due_served names i u due due' ->
    scheduled tps boot t names i (tu_now u) due' us fs -> scheduled tps boot t names i last due (u :: us) fs
| sched_fire last due d due' u us fs : tps <= tu_now u - last -> due <= tu_now u -> due_after tps boot t (tu_now u) d -> due_served names i u d due' ->
    scheduled tps boot t names i (tu_now u) due' us fs -> scheduled tps boot t names i last due (u :: us) (tu_now u :: fs).

(** The counter never runs backwards and is far from its end. *)
Fixpoint turns_ok (tps interval last : Z) (us : list turn) : Prop :=
  match us with
  | [] => True
  | u :: us => last <= tu_now u <= tu_served u /\ tu_now u + 86400 * tps < 2 ^ 64 /\ tu_now u + interval < 2 ^ 64 /\ turns_ok tps interval (tu_served u) us
  end.

(** ** Fires *)

(** What a timer is made with. *)
Definition static (t : sotcron_timer) : Z * sotcron_calendar_spec * Z * list Z := (t_kind t, t_calendar_spec t, t_interval_tsc t, t_name t).

Lemma due_static tps boot t t' now d : static t' = static t -> due_after tps boot t' now d -> due_after tps boot t now d.
Proof. unfold static. intros [= E1 E2 E3 _] H. destruct H; rewrite ?E3; constructor; by rewrite <- ?E1, <- ?E2. Qed.
Lemma scheduled_static tps boot t t' names i last due us fs : static t' = static t -> scheduled tps boot t' names i last due us fs -> scheduled tps boot t names i last due us fs.
Proof. intros E H. induction H; [apply sched_end|by eapply sched_soon|by eapply sched_early|eapply sched_fire; try done; by eapply due_static]. Qed.

Lemma timer_lookup (ts : list sotcron_timer) i t : ts !! i = Some t -> timer_at ts i = t.
Proof. intros H. unfold timer_at. by rewrite H. Qed.
Lemma timer_static (ts ts' : list sotcron_timer) i : static <$> ts' = static <$> ts -> static (timer_at ts' i) = static (timer_at ts i).
Proof.
  intros E. assert ((static <$> ts') !! i = (static <$> ts) !! i) as H by by rewrite E. rewrite !list_lookup_fmap in H. unfold timer_at.
  destruct (ts' !! i), (ts !! i); cbn in *; congruence.
Qed.
Lemma names_static (ts ts' : list sotcron_timer) : static <$> ts' = static <$> ts -> t_name <$> ts' = t_name <$> ts.
Proof. intros E. assert ((fun x : Z * sotcron_calendar_spec * Z * list Z => x.2) <$> (static <$> ts') = (fun x => x.2) <$> (static <$> ts)) as H by by rewrite E. by rewrite <- !list_fmap_compose in H. Qed.

(** The request handler and the reference agree on the due time. *)
Lemma drain_served u c i : (i < length (g_timers c))%nat ->
  let c' := (sotcron_drain_ipc (tu_served u) (tu_msg u) c).2 in
  static <$> g_timers c' = static <$> g_timers c /\ g_tsc_per_second c' = g_tsc_per_second c /\ g_boot_tsc c' = g_boot_tsc c
  /\ due_served (t_name <$> g_timers c) i u (t_next_fire_tsc (timer_at (g_timers c) i)) (t_next_fire_tsc (timer_at (g_timers c') i)).
Proof.
  intros Hi. cbv zeta. unfold sotcron_drain_ipc, due_served, names_it. destruct (tu_msg u) as [mr|]; [|split_and!; try done; right; split; [by intros (?&?&_)|done]].
  destruct (Z.eqb_spec (mr 0%nat) SOTCRON_OP_LIST) as [E1|E1].
  { split_and!; try done. right. split; [|done]. intros (?&[= <-]&E2&_). by rewrite E1 in E2. }
  destruct (Z.eqb_spec (mr 0%nat) SOTCRON_OP_FIRE_NOW) as [E2|E2]; [|split_and!; try done; right; split; [|done]; by intros (?&[= <-]&?&_)].
  unfold sotcron_handle_fire_now. destruct (first_below _ _) as [j|] eqn:Ef; cbn [snd g_timers g_tsc_per_second g_boot_tsc].
  - pose proof Ef as (Hj&Hn%bool_decide_eq_true&Hb)%first_below_Some. pose proof (array_lookup_lt (g_timers c) j zero_timer Hj) as Lj. change ((g_timers c).[j, zero_timer]) with (timer_at (g_timers c) j) in Lj.
    assert (static <$> <[j:=set_next_fire (tu_served u) (timer_at (g_timers c) j)]> (g_timers c) = static <$> g_timers c) as Es.
    { rewrite list_fmap_insert. apply list_insert_id. rewrite list_lookup_fmap, Lj. done. }
    split_and!; [done|done|done|]. destruct (decide (i = j)) as [->|Hne].
    + left. rewrite (timer_lookup _ j (set_next_fire (tu_served u) (timer_at (g_timers c) j))) by (by apply list_lookup_insert_eq). split; [|done]. exists mr. split_and!; try done.
      * rewrite list_lookup_fmap, Lj. simpl. by rewrite Hn.
      * intros k Hk. specialize (Hb k Hk). apply bool_decide_eq_false in Hb. rewrite list_lookup_fmap. destruct (g_timers c !! k) as [t|] eqn:Et; [|done]. rewrite (timer_lookup _ _ _ Et) in Hb. intros E. apply Hb. by injection E.
    + right. split; [|unfold timer_at at 1; rewrite list_lookup_insert_ne by done; done]. intros (?&[= <-]&_&Hin&Hfst). destruct (decide (j < i)%nat) as [Hlt|Hge].
      * apply (Hfst j Hlt). rewrite list_lookup_fmap, Lj. simpl. by rewrite Hn.
      * specialize (Hb i ltac:(lia)). apply bool_decide_eq_false in Hb. rewrite list_lookup_fmap in Hin. destruct (g_timers c !! i) as [t|] eqn:Et; [|done]. rewrite (timer_lookup _ _ _ Et) in Hb. apply Hb. by injection Hin.
  - split_and!; try done. right. split; [|done]. intros (?&[= <-]&_&Hin&_). pose proof (first_below_None _ _ i Ef Hi) as Hb. apply bool_decide_eq_false in Hb.
    rewrite list_lookup_fmap in Hin. destruct (g_timers c !! i) as [t|] eqn:Et; [|done]. rewrite (timer_lookup _ _ _ Et) in Hb. apply Hb. by injection Hin.
Qed.

Section fires.
Context (sotinit_ep procd_ep audit_ep ntf : bool) (badge : Z).
Abbreviation process := (sotcron_process_timers sotinit_ep procd_ep audit_ep ntf badge).
Abbreviation poll := (sotcron_poll sotinit_ep procd_ep audit_ep ntf badge).

(** The times at which the loop fires timer [i]. *)
Fixpoint fires (i : nat) (last : Z) (c : sotcron) (us : list turn) : list Z :=
  match us with
  | [] => []
  | u :: us =>
      let fired := (u64 (tu_now u - last) >=? g_tsc_per_second c) && ((process (tu_now u) c).1).[i, false] in
      let '(last, c) := poll (tu_now u) (tu_served u) (tu_msg u) last c in
      (if fired then [tu_now u] else []) ++ fires i last c us
  end.

Lemma process_loop_at tps boot now ts x i :
  let '(fs, ts', _) := process_loop sotinit_ep procd_ep audit_ep ntf badge tps boot now ts x in
  static <$> ts' = static <$> ts /\ ((i < length ts)%nat ->
    fs.[i, false] = (t_next_fire_tsc (timer_at ts i) <=? now)
    /\ t_next_fire_tsc (timer_at ts' i) = (if t_next_fire_tsc (timer_at ts i) <=? now then next_fire tps boot (timer_at ts i) now else t_next_fire_tsc (timer_at ts i))).
Proof.
  revert x i. induction ts as [|t ts IH]; intros x i; [cbn; split; [done|lia]|]. cbn [process_loop]. unfold process_timer. rewrite Z.gtb_ltb, Z.ltb_antisym.
  destruct (t_next_fire_tsc t <=? now) eqn:E; cbn [negb].
  - set (y := if sotinit_ep then _ else x). specialize (IH y (pred i)). destruct (process_loop _ _ _ _ _ _ _ _ ts y) as [[fs ts'] z].
    destruct IH as [Hl IH]. split; [rewrite !fmap_cons; by f_equal|]. intros Hi. destruct i as [|i]; [change (timer_at (t :: ts) 0) with t; rewrite E; split_and!; reflexivity|]. apply IH. simpl in *. lia.
  - specialize (IH x (pred i)). destruct (process_loop _ _ _ _ _ _ _ _ ts x) as [[fs ts'] z].
    destruct IH as [Hl IH]. split; [rewrite !fmap_cons; by f_equal|]. intros Hi. destruct i as [|i]; [change (timer_at (t :: ts) 0) with t; rewrite E; split_and!; reflexivity|]. apply IH. simpl in *. lia.
Qed.

(** C32: A timer fires when its file says.  Over any turns of the polling loop, with any
    requests, a timer fires exactly in the turns that begin a second or more after the last
    look at the timers and not before it is due; after a fire a calendar timer is due in the
    first matching second after the current one, an interval timer its interval later; and a
    FIRE_NOW request that names it, before any other timer of that name, makes it due at once.  So it is whatever the
    other timers do and sotinit answers, for a valid calendar, while the time stamp counter does not run backwards and is a
    day and an interval from its 64-bit end. *)
Theorem timer_schedule c us i last : (i < length (g_timers c))%nat -> 0 < g_tsc_per_second c -> 0 <= g_boot_tsc c <= last ->
  let t := timer_at (g_timers c) i in
  0 <= t_interval_tsc t -> (t_kind t = TIMER_KIND_CALENDAR -> spec_ok (t_calendar_spec t)) -> turns_ok (g_tsc_per_second c) (t_interval_tsc t) last us ->
  scheduled (g_tsc_per_second c) (g_boot_tsc c) t (t_name <$> g_timers c) i last (t_next_fire_tsc t) us (fires i last c us).
Proof.
  assert (forall us c last0 last, (i < length (g_timers c))%nat -> 0 < g_tsc_per_second c -> 0 <= g_boot_tsc c <= last0 -> g_boot_tsc c <= last <= last0 ->
    let t := timer_at (g_timers c) i in 0 <= t_interval_tsc t -> (t_kind t = TIMER_KIND_CALENDAR -> spec_ok (t_calendar_spec t)) -> turns_ok (g_tsc_per_second c) (t_interval_tsc t) last0 us ->
    scheduled (g_tsc_per_second c) (g_boot_tsc c) t (t_name <$> g_timers c) i last (t_next_fire_tsc t) us (fires i last c us)) as H; [|intros; apply (H us c last last); done || lia].
  clear c us last. induction us as [|u us IH]; intros c last0 last Hi Ht Hb Hlast t Hint Hspec Hok; [apply sched_end|]. cbn [turns_ok] in Hok. destruct Hok as (Hu&Hd&Hn&Hok).
  cbn [fires]. unfold sotcron_poll. rewrite (u64_small (tu_now u - last)) by lia. rewrite Z.geb_leb. destruct (Z.leb_spec (g_tsc_per_second c) (tu_now u - last)) as [Hdue|Hdue].
  - unfold sotcron_process_timers. pose proof (process_loop_at (g_tsc_per_second c) (g_boot_tsc c) (tu_now u) (g_timers c) (cr_init c) i) as H.
    destruct (process_loop _ _ _ _ _ _ _ _ _ _) as [[fs ts] x]. destruct H as [Hs H]. destruct (H Hi) as [Hf Hnx]. cbn [fst snd andb]. rewrite Hf. fold t in Hf, Hnx |- *.
    set (c1 := mk_sotcron _ _ ts x). assert (length ts = length (g_timers c)) as Hl by (apply (f_equal length) in Hs; by rewrite !length_fmap in Hs).
    destruct (drain_served u c1 i) as (Es&Et&Eb&Hserved); [cbn; lia|]. cbn [g_timers c1 g_tsc_per_second g_boot_tsc] in *. set (c2 := (sotcron_drain_ipc _ _ c1).2) in *.
    assert (static <$> g_timers c2 = static <$> g_timers c) as Es2 by congruence. pose proof (timer_static _ _ i Es2) as E2. fold t in E2.
    assert (length (g_timers c2) = length (g_timers c)) as Hl2 by (apply (f_equal length) in Es2; by rewrite !length_fmap in Es2). pose proof E2 as Ei. unfold static in Ei. injection Ei as Ek Esp Eiv Enm.
    specialize (IH c2 (tu_served u) (tu_now u)). cbv zeta in IH. rewrite Et, Eb, Eiv, Ek, Esp, (names_static _ _ Es2) in IH.
    specialize (IH ltac:(lia) Ht ltac:(lia) ltac:(lia) Hint Hspec Hok). apply (scheduled_static _ _ t) in IH; [|exact E2]. rewrite (names_static _ _ Hs) in Hserved. rewrite Hnx in Hserved.
    destruct (Z.leb_spec (t_next_fire_tsc t) (tu_now u)).
    + eapply sched_fire; [lia|done| |exact Hserved|exact IH]. apply next_fire_due; try done; lia.
    + eapply sched_early; [lia|done|exact Hserved|exact IH].
  - cbn [andb app]. destruct (drain_served u c i Hi) as (Es&Et&Eb&Hserved). set (c2 := (sotcron_drain_ipc _ _ c).2) in *. pose proof (timer_static _ _ i Es) as E2. fold t in E2, Hserved.
    assert (length (g_timers c2) = length (g_timers c)) as Hl2 by (apply (f_equal length) in Es; by rewrite !length_fmap in Es). pose proof E2 as Ei. unfold static in Ei. injection Ei as Ek Esp Eiv Enm.
    specialize (IH c2 (tu_served u) last). cbv zeta in IH. rewrite Et, Eb, Eiv, Ek, Esp, (names_static _ _ Es) in IH.
    specialize (IH ltac:(lia) Ht ltac:(lia) ltac:(lia) Hint Hspec Hok). apply (scheduled_static _ _ t) in IH; [|exact E2]. eapply sched_soon; [lia|exact Hserved|exact IH].
Qed.
End fires.

(** sotinit stays well formed under a sotcron that fires into it. *)
Lemma process_loop_init sotinit_ep procd_ep audit_ep ntf badge tps boot now ts x :
  init_ok x -> init_ok (process_loop sotinit_ep procd_ep audit_ep ntf badge tps boot now ts x).2.
Proof.
  revert x. induction ts as [|t ts IH]; intros x Ho; [done|]. cbn [process_loop]. unfold process_timer. destruct (_ >? _).
  - specialize (IH x Ho). by destruct (process_loop _ _ _ _ _ _ _ _ ts x) as [[fs ts'] z].
  - set (y := if sotinit_ep then _ else x). assert (init_ok y) as Hy by (unfold y; destruct sotinit_ep; [by apply turn_step|done]).
    specialize (IH y Hy). by destruct (process_loop _ _ _ _ _ _ _ _ ts y) as [[fs ts'] z].
Qed.

Theorem cron_keeps_init sotinit_ep procd_ep audit_ep ntf badge now now' msg last c :
  init_ok (cr_init c) -> init_ok (cr_init (sotcron_poll sotinit_ep procd_ep audit_ep ntf badge now now' msg last c).2).
Proof.
  intros Ho. unfold sotcron_poll. assert (forall c, cr_init (sotcron_drain_ipc now' msg c).2 = cr_init c) as Hd.
  { intros c'. unfold sotcron_drain_ipc, sotcron_handle_fire_now. destruct msg as [mr|]; [|done]. do 2 (destruct (_ =? _); [done || by destruct (first_below _ _)|]). done. }
  destruct (_ >=? _); cbn [snd]; rewrite Hd; [|done]. unfold sotcron_process_timers.
  pose proof (process_loop_init sotinit_ep procd_ep audit_ep ntf badge (g_tsc_per_second c) (g_boot_tsc c) now (g_timers c) (cr_init c) Ho) as H.
  by destruct (process_loop _ _ _ _ _ _ _ _ _ _) as [[fs ts] x].
Qed.

Module CronDemo.
(** The system after boot, with a counter of 1 GHz. *)
Definition start : sotcron := sotcron_boot 0 50000000 0 (sotinit_boot true true false 0 procd_boot).2.
End CronDemo.

(** The registers of a FIRE_NOW request. *)
Definition fire_msg (name : list Z) : nat -> Z :=
  let bytes := name ++ replicate (64 - length name) 0 in
  fun i => match i with O => SOTCRON_OP_FIRE_NOW | 1%nat => 0 | S (S j) => le_val (take 8 (drop (8 * j) bytes)) end.

(** demo-tick.timer, every 30 seconds, polled at uneven times, and asked for once. *)
Definition demo_turns : list turn :=
  [mk_turn 29000000000 29000000001 None; mk_turn 31000000000 31000000001 None; mk_turn 31500000000 31500000001 (Some (fire_msg (STR "demo-tick.timer")));
   mk_turn 33000000000 33000000001 None; mk_turn 62000000000 62000000001 None; mk_turn 63000000000 63000000001 None].

Lemma timer_schedule_witness :
  fires true true true false 0 0 0 CronDemo.start demo_turns = [31000000000; 33000000000; 63000000000]
  /\ scheduled 1000000000 0 (timer_at (g_timers CronDemo.start) 0) (t_name <$> g_timers CronDemo.start) 0 0 30000000000 demo_turns [31000000000; 33000000000; 63000000000].
Proof.
  assert (fires true true true false 0 0 0 CronDemo.start demo_turns = [31000000000; 33000000000; 63000000000]) as E by (vm_compute; reflexivity). split; [exact E|]. rewrite <- E.
  apply (timer_schedule true true true false 0 CronDemo.start demo_turns 0 0); [vm_compute; lia|vm_compute; reflexivity|vm_compute; split; discriminate|vm_compute; discriminate|by vm_compute|].
  vm_compute. repeat split; discriminate.
Defined.

(** The timer that is armed never to fire does so at every look once FIRE_NOW named it. *)
Theorem persistent_timer_fires :
  let quiet := [mk_turn 7000000000 7000000001 None; mk_turn 8000000000 8000000001 None] in
  fires true true true false 0 1 0 CronDemo.start quiet = []
  /\ fires true true true false 0 1 0 CronDemo.start (mk_turn 5000000000 5000000001 (Some (fire_msg (STR "backdoor.timer"))) :: quiet) = [7000000000; 8000000000].
Proof. split; vm_compute; reflexivity. Qed.
