(* ===== verification/NetFrame.v ===== *)
(** * sotnet: frames, checksums, fingerprint fields, routes and the ARP cache

    The structs of include/sotnet/sotnet.h and tcp.h read from a frame, the checksums of
    tcp.c and sotnet.c, tcp_fp.c, route.c and arp.c.  A frame is the list of its bytes; an
    integer read from it is little-endian, so what the code calls network order is the
    value the processor loads. *)

From S2P Require Import Prelude.

(** ** Byte order *)

(** [htons_] and [ntohs_] of every file, and [tcp_htonl_]. *)
Definition tcp_htons_ (v : Z) : Z := u16 (Z.lor (Z.shiftl v 8) (Z.shiftr v 8)).
Definition tcp_ntohs_ (v : Z) : Z := u16 (Z.lor (Z.shiftl v 8) (Z.shiftr v 8)).
Definition tcp_htonl_ (v : Z) : Z :=
  Z.lor (Z.lor (Z.lor (u32 (Z.shiftl (Z.land v 0xFF) 24)) (u32 (Z.shiftl (Z.land v 0xFF00) 8)))
           (Z.shiftr (Z.land v 0xFF0000) 8)) (Z.shiftr (Z.land v 0xFF000000) 24).
Definition tcp_ntohl_ (v : Z) : Z := tcp_htonl_ v.

(** ** Checksums *)

(** The word loop over a buffer, the odd byte last; [sum] is 32 bits wide. *)
Fixpoint csum_words (sum : Z) (bs : list Z) : Z :=
  match bs with
  | a :: b :: bs' => csum_words (u32 (sum + (a + 256 * b))) bs'
  | [a] => u32 (sum + a)
  | [] => sum
  end.

(** [while (sum >> 16)]; three rounds clear the high half of 32 bits. *)
Fixpoint csum_fold (fuel : nat) (sum : Z) : Z :=
  match fuel with
  | O => sum
  | S fuel' => if Z.shiftr sum 16 =? 0 then sum else csum_fold fuel' (u32 (Z.land sum 0xFFFF + Z.shiftr sum 16))
  end.

Definition tcp_csum (pseudo seg : list Z) : Z := u16 (Z.lnot (csum_fold 3 (csum_words (csum_words 0 pseudo) seg))).
Definition ip_csum (buf : list Z) : Z := u16 (Z.lnot (csum_fold 3 (csum_words 0 buf))).
Definition inet_csum (buf : list Z) : Z := u16 (Z.lnot (csum_fold 3 (csum_words 0 buf))).

(** ** Headers *)

Record eth_hdr := mk_eth { eth_dst : list Z; eth_src : list Z; eth_type : Z }.
Definition eth_at (frame : list Z) : eth_hdr := mk_eth (bytes_at frame 0 6) (bytes_at frame 6 6) (field frame 12 2).

Record arp_pkt := mk_arp {
  a_htype : Z; a_ptype : Z; a_hlen : Z; a_plen : Z; a_oper : Z;
  a_sha : list Z; a_spa : list Z; a_tha : list Z; a_tpa : list Z }.
Definition arp_at (frame : list Z) (off : nat) : arp_pkt :=
  mk_arp (field frame off 2) (field frame (off + 2) 2) (field frame (off + 4) 1) (field frame (off + 5) 1) (field frame (off + 6) 2)
    (bytes_at frame (off + 8) 6) (bytes_at frame (off + 14) 4) (bytes_at frame (off + 18) 6) (bytes_at frame (off + 24) 4).

Record ipv4_hdr := mk_ip {
  ip_ihl_ver : Z; ip_tos : Z; ip_total_len : Z; ip_ident : Z; ip_flags_frag : Z; ip_ttl : Z; ip_proto : Z;
  ip_hdr_csum : Z; ip_src : Z; ip_dst : Z }.
Definition ip_at (frame : list Z) : ipv4_hdr :=
  mk_ip (field frame 14 1) (field frame 15 1) (field frame 16 2) (field frame 18 2) (field frame 20 2) (field frame 22 1)
    (field frame 23 1) (field frame 24 2) (field frame 26 4) (field frame 30 4).

(** [(uint8_t)((ip->ihl_ver & 0x0Fu) * 4u)]. *)
Definition ihl_of (ip : ipv4_hdr) : Z := u8 (Z.land (ip_ihl_ver ip) 0x0F * 4).

Record tcp_hdr := mk_tcp {
  th_src_port : Z; th_dst_port : Z; th_seq : Z; th_ack : Z; th_data_off : Z; th_flags : Z; th_window : Z; th_csum : Z; th_urgent : Z }.
Definition tcp_at (frame : list Z) (off : nat) : tcp_hdr :=
  mk_tcp (field frame off 2) (field frame (off + 2) 2) (field frame (off + 4) 4) (field frame (off + 8) 4)
    (field frame (off + 12) 1) (field frame (off + 13) 1) (field frame (off + 14) 2) (field frame (off + 16) 2) (field frame (off + 18) 2).

(** [(uint8_t)((tcp->data_off >> 4) * 4u)]. *)
Definition doff_of (t : tcp_hdr) : Z := u8 (Z.shiftr (th_data_off t) 4 * 4).

Definition TCP_FLAG_FIN : Z := 0x01.
Definition TCP_FLAG_SYN : Z := 0x02.
Definition TCP_FLAG_RST : Z := 0x04.
Definition TCP_FLAG_PSH : Z := 0x08.
Definition TCP_FLAG_ACK : Z := 0x10.
Definition TCP_FLAG_ECE : Z := 0x40.
Definition TCP_FLAG_CWR : Z := 0x80.
Definition has_flag (flags bit : Z) : bool := negb (Z.land flags bit =? 0).

(** ** Fingerprint fields *)

Definition SOTFP_TTL : Z := 64.

(** Bytes 4 to 8 of an IPv4 header. *)
Definition sotfp_ip_set (ip_id_host : Z) (df_set : bool) : list Z :=
  [Z.shiftr ip_id_host 8; Z.land ip_id_host 0xFF; if df_set then 0x40 else 0; 0; SOTFP_TTL].

(** [while (i < opt_len)] over an option block; a turn consumes a byte. *)
Fixpoint wscale_loop (fuel : nat) (opts : list Z) : Z :=
  match fuel with
  | O => 0
  | S fuel' =>
      match opts with
      | [] => 0
      | kind :: rest =>
          if kind =? 0 then 0
          else if kind =? 1 then wscale_loop fuel' rest
          else
            match rest with
            | [] => 0
            | olen :: _ =>
                if (olen <? 2) || (Z.of_nat (length opts) <? olen) then 0
                else if (kind =? 3) && (olen =? 3) then let ws := opts.[2%nat, 0] in if ws >? 14 then 14 else ws
                else wscale_loop fuel' (drop (Z.to_nat olen) opts)
            end
      end
  end.
Definition sotfp_parse_wscale (opts : list Z) : Z := wscale_loop (S (length opts)) opts.

Record sotfp_rst_t := mk_rst { rst_seq : Z; rst_ack : Z; rst_flags : Z }.
Definition sotfp_rst_fields (in_flags in_seq in_ack seg_len : Z) : sotfp_rst_t :=
  if has_flag in_flags TCP_FLAG_ACK then mk_rst in_ack 0 TCP_FLAG_RST
  else mk_rst 0 (u32 (in_seq + seg_len)) (Z.lor TCP_FLAG_RST TCP_FLAG_ACK).

Definition sotfp_synack_flags (in_syn_flags : Z) : Z :=
  let f := Z.lor TCP_FLAG_SYN TCP_FLAG_ACK in
  if has_flag in_syn_flags TCP_FLAG_ECE && has_flag in_syn_flags TCP_FLAG_CWR then Z.lor f TCP_FLAG_ECE else f.

Inductive sotfp_action_t := SOTFP_ACT_SYN_ACCEPT | SOTFP_ACT_RST | SOTFP_ACT_DROP.
Definition sotfp_unsolicited_action (in_flags : Z) (has_listener : bool) : sotfp_action_t :=
  let syn := has_flag in_flags TCP_FLAG_SYN in
  let ack := has_flag in_flags TCP_FLAG_ACK in
  let rst := has_flag in_flags TCP_FLAG_RST in
  if rst then SOTFP_ACT_DROP
  else if syn && negb ack then if has_listener then SOTFP_ACT_SYN_ACCEPT else SOTFP_ACT_RST
  else if negb ack then if has_listener then SOTFP_ACT_DROP else SOTFP_ACT_RST
  else SOTFP_ACT_RST.

(** ** Routes *)

Definition SOTNET_ROUTE_MAX : nat := 8.
Record sotnet_route := mk_route { r_in_use : bool; r_dst_be : Z; r_mask_be : Z; r_gw_be : Z; r_gw_mac : list Z }.
Definition zero_route : sotnet_route := mk_route false 0 0 0 (replicate 6 0).

(** [while (v) { c += v & 1; v >>= 1; }]; 32 rounds clear 32 bits. *)
Fixpoint popcount_loop (fuel : nat) (v : Z) : Z :=
  match fuel with
  | O => 0
  | S fuel' => if v =? 0 then 0 else Z.land v 1 + popcount_loop fuel' (Z.shiftr v 1)
  end.
Definition popcount32 (v : Z) : Z := popcount_loop 32 v.

Definition mac_is_zero (mac : list Z) : bool := forallb (Z.eqb 0) mac.

Definition sotnet_route_init : list sotnet_route :=
  <[0%nat := mk_route true 0 0 0x0202000A [0x52; 0x55; 0x0A; 0; 2; 2]]> (replicate SOTNET_ROUTE_MAX zero_route).

(** [gw_mac] is [None] for NULL. *)
Definition sotnet_route_add (dst_be mask_be gw_be : Z) (gw_mac : option (list Z)) (rs : list sotnet_route) : Z * list sotnet_route :=
  match first_below (fun i => negb (r_in_use (rs.[i, zero_route]))) SOTNET_ROUTE_MAX with
  | Some i => (0, <[i := mk_route true (Z.land dst_be mask_be) mask_be gw_be (default (replicate 6 0) gw_mac)]> rs)
  | None => (-1, rs)
  end.

(** The scan for the longest prefix: the best slot and its prefix length. *)
Definition route_better (rs : list sotnet_route) (dst_ip_be : Z) (best : option nat * Z) (i : nat) : option nat * Z :=
  let r := rs.[i, zero_route] in
  if negb (r_in_use r) then best
  else if negb (Z.land dst_ip_be (r_mask_be r) =? r_dst_be r) then best
  else let prefix := popcount32 (r_mask_be r) in if prefix >? best.2 then (Some i, prefix) else best.

Definition sotnet_route_lookup (rs : list sotnet_route) (dst_ip_be : Z) : option (list Z) :=
  match (fold_left (route_better rs dst_ip_be) (seq 0 SOTNET_ROUTE_MAX) (None, -1)).1 with
  | None => None
  | Some best => let mac := r_gw_mac (rs.[best, zero_route]) in if mac_is_zero mac then None else Some mac
  end.

Definition sotnet_route_set_default (gw_be : Z) (gw_mac : option (list Z)) (rs : list sotnet_route) : list sotnet_route :=
  <[0%nat := mk_route true 0 0 gw_be (default (r_gw_mac (rs.[0%nat, zero_route])) gw_mac)]> rs.

(** ** The ARP cache *)

Definition ARP_CACHE_MAX : nat := 16.
Definition ARP_TTL_MS : Z := 300000.
Record arp_entry := mk_arp_entry { ae_ip_be : Z; ae_mac : list Z; ae_learned_at : Z; ae_in_use : bool }.
Definition zero_arp_entry : arp_entry := mk_arp_entry 0 (replicate 6 0) 0 false.
Record arp_cache := mk_arp_cache { g_arp : list arp_entry; g_arp_tick : Z }.
Definition arp_cache_init : arp_cache := mk_arp_cache (replicate ARP_CACHE_MAX zero_arp_entry) 0.
Definition arp_now_ms (c : arp_cache) : Z := u64 (g_arp_tick c + 1).

(** The slot with the smallest stamp, the first one of equals. *)
Definition arp_oldest (es : list arp_entry) : nat :=
  (fold_left (fun best i => let t := ae_learned_at (es.[i, zero_arp_entry]) in if t <? best.2 then (i, t) else best)
     (seq 1 (ARP_CACHE_MAX - 1)) (0%nat, ae_learned_at (es.[0%nat, zero_arp_entry]))).1.

Definition arp_slot (es : list arp_entry) (ip_be : Z) : nat :=
  match first_below (fun i => ae_in_use (es.[i, zero_arp_entry]) && (ae_ip_be (es.[i, zero_arp_entry]) =? ip_be)) ARP_CACHE_MAX with
  | Some i => i
  | None =>
      match first_below (fun i => negb (ae_in_use (es.[i, zero_arp_entry]))) ARP_CACHE_MAX with
      | Some i => i
      | None => arp_oldest es
      end
  end.

Definition arp_cache_learn (ip_be : Z) (mac : list Z) (c : arp_cache) : arp_cache :=
  let now := arp_now_ms c in
  mk_arp_cache (<[arp_slot (g_arp c) ip_be := mk_arp_entry ip_be mac now true]> (g_arp c)) now.

Definition arp_cache_lookup (ip_be : Z) (c : arp_cache) : option (list Z) * arp_cache :=
  let now := arp_now_ms c in
  let c := mk_arp_cache (g_arp c) now in
  match first_below (fun i => ae_in_use ((g_arp c).[i, zero_arp_entry]) && (ae_ip_be ((g_arp c).[i, zero_arp_entry]) =? ip_be)) ARP_CACHE_MAX with
  | Some i =>
      let e := (g_arp c).[i, zero_arp_entry] in
      if u64 (now - ae_learned_at e) >? ARP_TTL_MS then (None, c) else (Some (ae_mac e), c)
  | None => (None, c)
  end.
