(* ===== verification/SotTcp.v ===== *)
(** * sotnet: TCP

    src/sotnet/tcp.c, tcp_server.c, tcp_client.c, tcp_data.c, tcp_close.c and tcp_timer.c
    with include/sotnet/tcp_conn.h, and the places of src/lucas/handlers_net.c that accept a
    connection and read from one.  A connection is its slot in the table.  What the stack
    hands to others (frames on the wire, bytes to the responder, audit and trace records) is
    the list [n_out], oldest first; random numbers and the cycle counter are arguments. *)

From S2P Require Import Prelude NetFrame.

(** ** Data *)

Definition TCP_CONN_MAX : nat := 32.
Definition TCP_TX_BUF_SIZE : Z := 256.
Definition TCP_RX_BUF_SIZE : Z := 16384.

Inductive tcp_state :=
  | TCP_STATE_CLOSED | TCP_STATE_LISTEN | TCP_STATE_SYN_SENT | TCP_STATE_SYN_RCVD | TCP_STATE_ESTABLISHED
  | TCP_STATE_FIN_WAIT_1 | TCP_STATE_FIN_WAIT_2 | TCP_STATE_CLOSE_WAIT | TCP_STATE_CLOSING | TCP_STATE_LAST_ACK
  | TCP_STATE_TIME_WAIT.
#[global] Instance tcp_state_eq_dec : EqDecision tcp_state.
Proof. solve_decision. Defined.

(** [c_tx] is [tx_buf] up to [tx_len] and [c_rx] is [rx_buf] up to [rx_len]; nothing reads
    behind the lengths. *)
Record tcp_conn := mk_conn {
  c_in_use : bool; c_conn_id : Z; c_state : tcp_state;
  c_remote_ip_be : Z; c_remote_port_be : Z; c_local_port_be : Z;
  c_snd_nxt : Z; c_snd_una : Z; c_rcv_nxt : Z;
  c_peer_wscale : Z; c_snd_wnd : Z;
  c_last_tx_ms : Z; c_time_wait_tick : Z;
  c_tx : list Z; c_tx_flags : Z; c_retx_count : Z;
  c_rx : list Z; c_rx_bytes : Z; c_tx_bytes : Z;
  c_listen_slot : Z; c_app_owned : bool; c_origin_pid : Z }.
(** A cleared slot, [listen_slot] -1. *)
Definition free_conn : tcp_conn :=
  mk_conn false 0 TCP_STATE_CLOSED 0 0 0 0 0 0 0 0 0 0 [] 0 0 [] 0 0 (-1) false 0.
(** A slot just allocated. *)
Definition alloc_conn : tcp_conn :=
  mk_conn true 0 TCP_STATE_CLOSED 0 0 0 0 0 0 0 0 0 0 [] 0 0 [] 0 0 (-1) false 0.
Definition rx_len (c : tcp_conn) : Z := Z.of_nat (length (c_rx c)).

Definition set_cstate (s : tcp_state) (c : tcp_conn) : tcp_conn :=
  mk_conn (c_in_use c) (c_conn_id c) s (c_remote_ip_be c) (c_remote_port_be c) (c_local_port_be c) (c_snd_nxt c) (c_snd_una c) (c_rcv_nxt c) (c_peer_wscale c) (c_snd_wnd c) (c_last_tx_ms c) (c_time_wait_tick c) (c_tx c) (c_tx_flags c) (c_retx_count c) (c_rx c) (c_rx_bytes c) (c_tx_bytes c) (c_listen_slot c) (c_app_owned c) (c_origin_pid c).
Definition set_peer (rip : Z) (rport : Z) (lport : Z) (c : tcp_conn) : tcp_conn :=
  mk_conn (c_in_use c) (c_conn_id c) (c_state c) rip rport lport (c_snd_nxt c) (c_snd_una c) (c_rcv_nxt c) (c_peer_wscale c) (c_snd_wnd c) (c_last_tx_ms c) (c_time_wait_tick c) (c_tx c) (c_tx_flags c) (c_retx_count c) (c_rx c) (c_rx_bytes c) (c_tx_bytes c) (c_listen_slot c) (c_app_owned c) (c_origin_pid c).
Definition set_ids (cid : Z) (slot : Z) (pid : Z) (c : tcp_conn) : tcp_conn :=
  mk_conn (c_in_use c) cid (c_state c) (c_remote_ip_be c) (c_remote_port_be c) (c_local_port_be c) (c_snd_nxt c) (c_snd_una c) (c_rcv_nxt c) (c_peer_wscale c) (c_snd_wnd c) (c_last_tx_ms c) (c_time_wait_tick c) (c_tx c) (c_tx_flags c) (c_retx_count c) (c_rx c) (c_rx_bytes c) (c_tx_bytes c) slot (c_app_owned c) pid.
Definition set_snd (nxt : Z) (una : Z) (c : tcp_conn) : tcp_conn :=
  mk_conn (c_in_use c) (c_conn_id c) (c_state c) (c_remote_ip_be c) (c_remote_port_be c) (c_local_port_be c) nxt una (c_rcv_nxt c) (c_peer_wscale c) (c_snd_wnd c) (c_last_tx_ms c) (c_time_wait_tick c) (c_tx c) (c_tx_flags c) (c_retx_count c) (c_rx c) (c_rx_bytes c) (c_tx_bytes c) (c_listen_slot c) (c_app_owned c) (c_origin_pid c).
Definition set_rcv (nxt : Z) (c : tcp_conn) : tcp_conn :=
  mk_conn (c_in_use c) (c_conn_id c) (c_state c) (c_remote_ip_be c) (c_remote_port_be c) (c_local_port_be c) (c_snd_nxt c) (c_snd_una c) nxt (c_peer_wscale c) (c_snd_wnd c) (c_last_tx_ms c) (c_time_wait_tick c) (c_tx c) (c_tx_flags c) (c_retx_count c) (c_rx c) (c_rx_bytes c) (c_tx_bytes c) (c_listen_slot c) (c_app_owned c) (c_origin_pid c).
Definition set_wscale (ws : Z) (c : tcp_conn) : tcp_conn :=
  mk_conn (c_in_use c) (c_conn_id c) (c_state c) (c_remote_ip_be c) (c_remote_port_be c) (c_local_port_be c) (c_snd_nxt c) (c_snd_una c) (c_rcv_nxt c) ws (c_snd_wnd c) (c_last_tx_ms c) (c_time_wait_tick c) (c_tx c) (c_tx_flags c) (c_retx_count c) (c_rx c) (c_rx_bytes c) (c_tx_bytes c) (c_listen_slot c) (c_app_owned c) (c_origin_pid c).
Definition set_snd_wnd (w : Z) (c : tcp_conn) : tcp_conn :=
  mk_conn (c_in_use c) (c_conn_id c) (c_state c) (c_remote_ip_be c) (c_remote_port_be c) (c_local_port_be c) (c_snd_nxt c) (c_snd_una c) (c_rcv_nxt c) (c_peer_wscale c) w (c_last_tx_ms c) (c_time_wait_tick c) (c_tx c) (c_tx_flags c) (c_retx_count c) (c_rx c) (c_rx_bytes c) (c_tx_bytes c) (c_listen_slot c) (c_app_owned c) (c_origin_pid c).
Definition set_tx (tx : list Z) (flags : Z) (last : Z) (c : tcp_conn) : tcp_conn :=
  mk_conn (c_in_use c) (c_conn_id c) (c_state c) (c_remote_ip_be c) (c_remote_port_be c) (c_local_port_be c) (c_snd_nxt c) (c_snd_una c) (c_rcv_nxt c) (c_peer_wscale c) (c_snd_wnd c) last (c_time_wait_tick c) tx flags (c_retx_count c) (c_rx c) (c_rx_bytes c) (c_tx_bytes c) (c_listen_slot c) (c_app_owned c) (c_origin_pid c).
Definition set_retx (n : Z) (c : tcp_conn) : tcp_conn :=
  mk_conn (c_in_use c) (c_conn_id c) (c_state c) (c_remote_ip_be c) (c_remote_port_be c) (c_local_port_be c) (c_snd_nxt c) (c_snd_una c) (c_rcv_nxt c) (c_peer_wscale c) (c_snd_wnd c) (c_last_tx_ms c) (c_time_wait_tick c) (c_tx c) (c_tx_flags c) n (c_rx c) (c_rx_bytes c) (c_tx_bytes c) (c_listen_slot c) (c_app_owned c) (c_origin_pid c).
Definition set_rx (rx : list Z) (c : tcp_conn) : tcp_conn :=
  mk_conn (c_in_use c) (c_conn_id c) (c_state c) (c_remote_ip_be c) (c_remote_port_be c) (c_local_port_be c) (c_snd_nxt c) (c_snd_una c) (c_rcv_nxt c) (c_peer_wscale c) (c_snd_wnd c) (c_last_tx_ms c) (c_time_wait_tick c) (c_tx c) (c_tx_flags c) (c_retx_count c) rx (c_rx_bytes c) (c_tx_bytes c) (c_listen_slot c) (c_app_owned c) (c_origin_pid c).
Definition set_counts (rb : Z) (tb : Z) (c : tcp_conn) : tcp_conn :=
  mk_conn (c_in_use c) (c_conn_id c) (c_state c) (c_remote_ip_be c) (c_remote_port_be c) (c_local_port_be c) (c_snd_nxt c) (c_snd_una c) (c_rcv_nxt c) (c_peer_wscale c) (c_snd_wnd c) (c_last_tx_ms c) (c_time_wait_tick c) (c_tx c) (c_tx_flags c) (c_retx_count c) (c_rx c) rb tb (c_listen_slot c) (c_app_owned c) (c_origin_pid c).
Definition set_tw_tick (t : Z) (c : tcp_conn) : tcp_conn :=
  mk_conn (c_in_use c) (c_conn_id c) (c_state c) (c_remote_ip_be c) (c_remote_port_be c) (c_local_port_be c) (c_snd_nxt c) (c_snd_una c) (c_rcv_nxt c) (c_peer_wscale c) (c_snd_wnd c) (c_last_tx_ms c) t (c_tx c) (c_tx_flags c) (c_retx_count c) (c_rx c) (c_rx_bytes c) (c_tx_bytes c) (c_listen_slot c) (c_app_owned c) (c_origin_pid c).
Definition set_listen_slot (slot : Z) (c : tcp_conn) : tcp_conn :=
  mk_conn (c_in_use c) (c_conn_id c) (c_state c) (c_remote_ip_be c) (c_remote_port_be c) (c_local_port_be c) (c_snd_nxt c) (c_snd_una c) (c_rcv_nxt c) (c_peer_wscale c) (c_snd_wnd c) (c_last_tx_ms c) (c_time_wait_tick c) (c_tx c) (c_tx_flags c) (c_retx_count c) (c_rx c) (c_rx_bytes c) (c_tx_bytes c) slot (c_app_owned c) (c_origin_pid c).
Definition set_app_owned (b : bool) (c : tcp_conn) : tcp_conn :=
  mk_conn (c_in_use c) (c_conn_id c) (c_state c) (c_remote_ip_be c) (c_remote_port_be c) (c_local_port_be c) (c_snd_nxt c) (c_snd_una c) (c_rcv_nxt c) (c_peer_wscale c) (c_snd_wnd c) (c_last_tx_ms c) (c_time_wait_tick c) (c_tx c) (c_tx_flags c) (c_retx_count c) (c_rx c) (c_rx_bytes c) (c_tx_bytes c) (c_listen_slot c) b (c_origin_pid c).

(** What leaves the stack. *)
Inductive net_effect :=
  | TX (frame : list Z)
  | INBOUND_PUSH (conn_id local_port : Z) (data : list Z)
  | AUDIT_OPEN (origin_pid remote_ip_be remote_port_be local_port_be : Z)
  | TRACE_ACCEPT (slot pid conn_id remote_ip_be remote_port_be local_port_be : Z)
  | TRACE_CLOSE (conn_id rx_bytes tx_bytes : Z)
  | CAPTURE_IN (conn_id : Z) (data : list Z).

(** A sotbox parked in accept, in slot order, and what its descriptor table and address
    buffer will allow. *)
Inductive accept_outcome := ACCEPT_HAS_FD | ACCEPT_NO_FD | ACCEPT_BAD_ADDR.
Record acceptor := mk_acceptor { aw_slot : Z; aw_pid : Z; aw_outcome : accept_outcome }.

(** The file-static variables of the stack, the driver's address and readiness. *)
Record net := mk_net {
  g_tcp_conns : list tcp_conn; g_tcp_now_ms : Z; g_conn_id_next : Z; g_inbound_total : Z; last_tick_tsc : Z;
  g_ssh_shell_conn : Z; n_acceptors : list acceptor;
  g_ip_id : Z; g_our_ip : Z; n_hw_mac : list Z; g_routes : list sotnet_route; n_tx_ready : bool;
  n_out : list net_effect }.
Definition with_conns (cs : list tcp_conn) (x : net) : net :=
  mk_net cs (g_tcp_now_ms x) (g_conn_id_next x) (g_inbound_total x) (last_tick_tsc x) (g_ssh_shell_conn x) (n_acceptors x) (g_ip_id x) (g_our_ip x) (n_hw_mac x) (g_routes x) (n_tx_ready x) (n_out x).
Definition with_clock (now : Z) (tsc : Z) (x : net) : net :=
  mk_net (g_tcp_conns x) now (g_conn_id_next x) (g_inbound_total x) tsc (g_ssh_shell_conn x) (n_acceptors x) (g_ip_id x) (g_our_ip x) (n_hw_mac x) (g_routes x) (n_tx_ready x) (n_out x).
Definition with_conn_id (n : Z) (x : net) : net :=
  mk_net (g_tcp_conns x) (g_tcp_now_ms x) n (g_inbound_total x) (last_tick_tsc x) (g_ssh_shell_conn x) (n_acceptors x) (g_ip_id x) (g_our_ip x) (n_hw_mac x) (g_routes x) (n_tx_ready x) (n_out x).
Definition with_inbound (n : Z) (x : net) : net :=
  mk_net (g_tcp_conns x) (g_tcp_now_ms x) (g_conn_id_next x) n (last_tick_tsc x) (g_ssh_shell_conn x) (n_acceptors x) (g_ip_id x) (g_our_ip x) (n_hw_mac x) (g_routes x) (n_tx_ready x) (n_out x).
Definition with_shell (cid : Z) (x : net) : net :=
  mk_net (g_tcp_conns x) (g_tcp_now_ms x) (g_conn_id_next x) (g_inbound_total x) (last_tick_tsc x) cid (n_acceptors x) (g_ip_id x) (g_our_ip x) (n_hw_mac x) (g_routes x) (n_tx_ready x) (n_out x).
Definition with_acceptors (ws : list acceptor) (x : net) : net :=
  mk_net (g_tcp_conns x) (g_tcp_now_ms x) (g_conn_id_next x) (g_inbound_total x) (last_tick_tsc x) (g_ssh_shell_conn x) ws (g_ip_id x) (g_our_ip x) (n_hw_mac x) (g_routes x) (n_tx_ready x) (n_out x).
Definition with_ip_id (n : Z) (x : net) : net :=
  mk_net (g_tcp_conns x) (g_tcp_now_ms x) (g_conn_id_next x) (g_inbound_total x) (last_tick_tsc x) (g_ssh_shell_conn x) (n_acceptors x) n (g_our_ip x) (n_hw_mac x) (g_routes x) (n_tx_ready x) (n_out x).
Definition with_out (o : list net_effect) (x : net) : net :=
  mk_net (g_tcp_conns x) (g_tcp_now_ms x) (g_conn_id_next x) (g_inbound_total x) (last_tick_tsc x) (g_ssh_shell_conn x) (n_acceptors x) (g_ip_id x) (g_our_ip x) (n_hw_mac x) (g_routes x) (n_tx_ready x) o.

Definition net_init (our_ip : Z) (mac : list Z) : net :=
  mk_net (replicate TCP_CONN_MAX free_conn) 0 1 0 0 0 [] (u16 (Z.lxor our_ip (Z.shiftr our_ip 16))) our_ip mac sotnet_route_init true [].

Definition conn_at (x : net) (i : nat) : tcp_conn := (g_tcp_conns x).[i, free_conn].
Definition upd_conn (i : nat) (f : tcp_conn -> tcp_conn) (x : net) : net :=
  with_conns (<[i := f (conn_at x i)]> (g_tcp_conns x)) x.
Definition out (e : net_effect) (x : net) : net := with_out (n_out x ++ [e]) x.

(** [virtio_net_tx]: the device takes every frame of 1 to 1500 bytes once its queues are set up. *)
Definition virtio_net_tx (frame : list Z) (x : net) : Z * net :=
  let len := Z.of_nat (length frame) in
  if (len =? 0) || (len >? 1500) then (-1, x)
  else if negb (n_tx_ready x) then (-1, x)
  else (0, out (TX frame) x).

(** ** The connection table *)

Definition tcp_conn_alloc (x : net) : option nat * net :=
  match first_below (fun i => negb (c_in_use (conn_at x i))) TCP_CONN_MAX with
  | Some i => (Some i, upd_conn i (fun _ => alloc_conn) x)
  | None => (None, x)
  end.
Definition tcp_conn_free (i : nat) (x : net) : net := upd_conn i (fun _ => free_conn) x.

Definition tcp_conn_lookup (x : net) (remote_ip_be remote_port_be local_port_be : Z) : option nat :=
  first_below (fun i =>
    let c := conn_at x i in
    c_in_use c && negb (bool_decide (c_state c = TCP_STATE_LISTEN))
    && (c_remote_ip_be c =? remote_ip_be) && (c_remote_port_be c =? remote_port_be) && (c_local_port_be c =? local_port_be)) TCP_CONN_MAX.
Definition tcp_conn_find_listen (x : net) (local_port_be : Z) : option nat :=
  first_below (fun i =>
    let c := conn_at x i in c_in_use c && bool_decide (c_state c = TCP_STATE_LISTEN) && (c_local_port_be c =? local_port_be)) TCP_CONN_MAX.
Definition tcp_conn_by_id (x : net) (conn_id : Z) : option nat :=
  if conn_id =? 0 then None
  else first_below (fun i => let c := conn_at x i in c_in_use c && (c_conn_id c =? conn_id)) TCP_CONN_MAX.

(** [while ((c = tcp_conn_iter(&it)) != NULL)] with a body that may change the table: slots
    in order, those in use when the walk reaches them. *)
Definition tcp_conn_iter (body : nat -> net -> net) (x : net) : net :=
  fold_left (fun x i => if c_in_use (conn_at x i) then body i x else x) (seq 0 TCP_CONN_MAX) x.
Definition find_listen_slot_index (x : net) (local_port_be : Z) : option nat :=
  first_below (fun i =>
    let c := conn_at x i in c_in_use c && (bool_decide (c_state c = TCP_STATE_LISTEN) && (c_local_port_be c =? local_port_be))) TCP_CONN_MAX.

(** ** Segments *)

Definition LINUX_SYNACK_OPTS : list Z := [0x02; 0x04; 0x05; 0xb4; 0x01; 0x01; 0x04; 0x02; 0x01; 0x03; 0x03; 0x0a].
Definition LINUX_SYNACK_WINDOW : Z := 64240.

Definition sotfp_next_ip_id (x : net) : Z * net := let n := u16 (g_ip_id x + 1) in (n, with_ip_id n x).

(** The Ethernet, IPv4 and TCP headers, the checksum fields computed over the headers with a
    zero in their place. *)
Definition eth_bytes (dst src : list Z) (ethertype : Z) : list Z := dst ++ src ++ le_bytes 2 (tcp_htons_ ethertype).
Definition ip_bytes (total_len ip_id : Z) (df : bool) (proto src dst csum : Z) : list Z :=
  [Z.lor (Z.shiftl 4 4) 5; 0] ++ le_bytes 2 (tcp_htons_ total_len) ++ sotfp_ip_set ip_id df ++ [proto]
  ++ le_bytes 2 csum ++ le_bytes 4 src ++ le_bytes 4 dst.
Definition ip_header (total_len ip_id : Z) (df : bool) (proto src dst : Z) : list Z :=
  ip_bytes total_len ip_id df proto src dst (ip_csum (ip_bytes total_len ip_id df proto src dst 0)).
Definition pseudo_bytes (src dst tcp_len : Z) : list Z := le_bytes 4 src ++ le_bytes 4 dst ++ [0; 6] ++ le_bytes 2 (tcp_htons_ (u16 tcp_len)).
Definition seg_bytes (src_port dst_port seq ack data_off flags window : Z) (body : list Z) (csum : Z) : list Z :=
  le_bytes 2 src_port ++ le_bytes 2 dst_port ++ le_bytes 4 (tcp_htonl_ seq) ++ le_bytes 4 (tcp_htonl_ ack)
  ++ [data_off; flags] ++ le_bytes 2 (tcp_htons_ window) ++ le_bytes 2 csum ++ [0; 0] ++ body.
Definition tcp_segment (pseudo : list Z) (src_port dst_port seq ack data_off flags window : Z) (body : list Z) : list Z :=
  seg_bytes src_port dst_port seq ack data_off flags window body
    (tcp_csum pseudo (seg_bytes src_port dst_port seq ack data_off flags window body 0)).

(** The window a segment advertises: a constant with SYN, else the free receive buffer. *)
Definition adv_window (c : tcp_conn) (flags : Z) : Z :=
  if has_flag flags TCP_FLAG_SYN then LINUX_SYNACK_WINDOW
  else
    let rx_free := if rx_len c <? TCP_RX_BUF_SIZE then TCP_RX_BUF_SIZE - rx_len c else 0 in
    if rx_free >? 0xFFFF then 0xFFFF else u16 rx_free.

Definition tcp_frame (x : net) (c : tcp_conn) (flags ip_id : Z) (data : list Z) : list Z :=
  let opts := if has_flag flags TCP_FLAG_SYN then LINUX_SYNACK_OPTS else [] in
  let opt_len := Z.of_nat (length opts) in
  let data_len := Z.of_nat (length data) in
  let dst := default (replicate 6 0xFF) (sotnet_route_lookup (g_routes x) (c_remote_ip_be c)) in
  eth_bytes dst (n_hw_mac x) 0x0800
  ++ ip_header (u16 (20 + 20 + opt_len + data_len)) ip_id true 6 (g_our_ip x) (c_remote_ip_be c)
  ++ tcp_segment (pseudo_bytes (g_our_ip x) (c_remote_ip_be c) (20 + opt_len + data_len))
       (c_local_port_be c) (c_remote_port_be c) (c_snd_nxt c) (c_rcv_nxt c)
       (u8 (Z.shiftl ((20 + opt_len) / 4) 4)) flags (adv_window c flags) (opts ++ data).

Definition tcp_send_segment (i : nat) (flags : Z) (data : list Z) (x : net) : Z * net :=
  let opt_len := if has_flag flags TCP_FLAG_SYN then Z.of_nat (length LINUX_SYNACK_OPTS) else 0 in
  let data_len := Z.of_nat (length data) in
  if opt_len + data_len >? TCP_TX_BUF_SIZE then (-1, x)
  else
    let pkt_len := 14 + 20 + 20 + opt_len + data_len in
    if pkt_len >? 1500 then (-1, x)
    else
      let '(ip_id, x) := if has_flag flags TCP_FLAG_SYN then (0, x) else sotfp_next_ip_id x in
      let frame := tcp_frame x (conn_at x i) flags ip_id data in
      let c := conn_at x i in
      let x := upd_conn i (set_tx (if data_len >? 0 then data else c_tx c) flags
                             (if (data_len >? 0) || has_flag flags (Z.lor TCP_FLAG_SYN TCP_FLAG_FIN) then g_tcp_now_ms x else c_last_tx_ms c)) x in
      virtio_net_tx frame x.

(** The guards on an incoming frame, common to all handlers; the offset of the TCP header. *)
Definition tcp_off (frame : list Z) : option nat :=
  let len := Z.of_nat (length frame) in
  if len <? 14 + 20 + 20 then None
  else
    let ihl := ihl_of (ip_at frame) in
    if (ihl <? 20) || (len <? 14 + ihl + 20) then None else Some (Z.to_nat (14 + ihl)).

Definition send_rst (in_frame : list Z) (x : net) : net :=
  match tcp_off in_frame with
  | None => x
  | Some off =>
      let in_ip := ip_at in_frame in
      let in_tcp := tcp_at in_frame off in
      let hdrs := Z.of_nat off + doff_of in_tcp in
      let in_len := Z.of_nat (length in_frame) in
      let payload := if in_len >? hdrs then u32 (in_len - hdrs) else 0 in
      let seg_len := u32 (payload + (if has_flag (th_flags in_tcp) TCP_FLAG_SYN then 1 else 0) + (if has_flag (th_flags in_tcp) TCP_FLAG_FIN then 1 else 0)) in
      let rf := sotfp_rst_fields (th_flags in_tcp) (tcp_ntohl_ (th_seq in_tcp)) (tcp_ntohl_ (th_ack in_tcp)) seg_len in
      let reply :=
        eth_bytes (eth_src (eth_at in_frame)) (n_hw_mac x) 0x0800
        ++ ip_header 40 0 true 6 (ip_dst in_ip) (ip_src in_ip)
        ++ tcp_segment (pseudo_bytes (ip_dst in_ip) (ip_src in_ip) 20) (th_dst_port in_tcp) (th_src_port in_tcp)
             (rst_seq rf) (rst_ack rf) (Z.shiftl 5 4) (rst_flags rf) 0 [] in
      (virtio_net_tx reply x).2
  end.

(** ** Closing *)

Definition sotnet_tcp_close (i : nat) (x : net) : net :=
  let c := conn_at x i in
  if negb (c_in_use c) then x
  else
    match c_state c with
    | TCP_STATE_ESTABLISHED =>
        let x := (tcp_send_segment i (Z.lor TCP_FLAG_FIN TCP_FLAG_ACK) [] x).2 in
        upd_conn i (fun c => set_cstate TCP_STATE_FIN_WAIT_1 (set_snd (u32 (c_snd_nxt c + 1)) (c_snd_una c) c)) x
    | TCP_STATE_CLOSE_WAIT =>
        let x := (tcp_send_segment i (Z.lor TCP_FLAG_FIN TCP_FLAG_ACK) [] x).2 in
        upd_conn i (fun c => set_cstate TCP_STATE_LAST_ACK (set_snd (u32 (c_snd_nxt c + 1)) (c_snd_una c) c)) x
    | _ => tcp_conn_free i (out (TRACE_CLOSE (c_conn_id c) (c_rx_bytes c) (c_tx_bytes c)) x)
    end.

(** Acknowledging a FIN and moving to [s]. *)
Definition ack_fin (i : nat) (s : tcp_state) (x : net) : net :=
  let x := upd_conn i (fun c => set_rcv (u32 (c_rcv_nxt c + 1)) c) x in
  let x := (tcp_send_segment i TCP_FLAG_ACK [] x).2 in
  upd_conn i (set_cstate s) x.

Definition tcp_close_on_fin (i : nat) (frame : list Z) (x : net) : net :=
  if negb (c_in_use (conn_at x i)) then x
  else
    match tcp_off frame with
    | None => x
    | Some off =>
        let ip := ip_at frame in
        let tcp := tcp_at frame off in
        let data_len := tcp_ntohs_ (ip_total_len ip) - ihl_of ip - doff_of tcp in
        let fin_seq := u32 (tcp_ntohl_ (th_seq tcp) + u32 data_len) in
        if negb (fin_seq =? c_rcv_nxt (conn_at x i)) then x
        else
          match c_state (conn_at x i) with
          | TCP_STATE_ESTABLISHED => ack_fin i TCP_STATE_CLOSE_WAIT x
          | TCP_STATE_FIN_WAIT_1 => ack_fin i TCP_STATE_CLOSING x
          | TCP_STATE_FIN_WAIT_2 =>
              let x := upd_conn i (set_tw_tick (g_tcp_now_ms x)) (ack_fin i TCP_STATE_TIME_WAIT x) in
              let c := conn_at x i in
              out (TRACE_CLOSE (c_conn_id c) (c_rx_bytes c) (c_tx_bytes c)) x
          | _ => x
          end
    end.

Definition tcp_close_on_finack (i : nat) (x : net) : net :=
  let c := conn_at x i in
  if negb (c_in_use c) then x
  else
    match c_state c with
    | TCP_STATE_FIN_WAIT_1 => upd_conn i (set_cstate TCP_STATE_FIN_WAIT_2) x
    | TCP_STATE_CLOSING => upd_conn i (fun c => set_tw_tick (g_tcp_now_ms x) (set_cstate TCP_STATE_TIME_WAIT c)) x
    | TCP_STATE_LAST_ACK => tcp_conn_free i (out (TRACE_CLOSE (c_conn_id c) (c_rx_bytes c) (c_tx_bytes c)) x)
    | _ => x
    end.

(** ** Opening *)

Definition tcp_audit (i : nat) (x : net) : net :=
  let c := conn_at x i in out (AUDIT_OPEN (c_origin_pid c) (c_remote_ip_be c) (c_remote_port_be c) (c_local_port_be c)) x.

Definition lucas_default_local_port_be : Z := tcp_htons_ 80.

Definition tcp_accept_dequeue (local_port_be : Z) (x : net) : option nat * net :=
  match first_below (fun i =>
          let c := conn_at x i in
          c_in_use c && (bool_decide (c_state c = TCP_STATE_ESTABLISHED) && (c_listen_slot c >=? 0) && (c_local_port_be c =? local_port_be))) TCP_CONN_MAX with
  | Some i => (Some i, upd_conn i (set_listen_slot (-1)) x)
  | None => (None, x)
  end.

(** [do_accept]; [None] is EAGAIN, nothing to accept. *)
Definition do_accept (w : acceptor) (x : net) : option nat * net :=
  let '(r, x) := tcp_accept_dequeue lucas_default_local_port_be x in
  match r with
  | None => (None, x)
  | Some i =>
      match aw_outcome w with
      | ACCEPT_NO_FD => (Some i, x)
      | ACCEPT_BAD_ADDR => (Some i, sotnet_tcp_close i x)
      | ACCEPT_HAS_FD =>
          let x := upd_conn i (set_app_owned true) x in
          let c := conn_at x i in
          (Some i, out (TRACE_ACCEPT (aw_slot w) (aw_pid w) (c_conn_id c) (c_remote_ip_be c) (c_remote_port_be c) lucas_default_local_port_be) x)
      end
  end.

(** The first parked sotbox takes a connection and runs on; it stays parked when there is none. *)
Definition lucas_accept_wake_waiter (x : net) : net :=
  match n_acceptors x with
  | [] => x
  | w :: ws => let '(r, x') := do_accept w x in match r with None => x' | Some _ => with_acceptors ws x' end
  end.

(** The peer's window scale from the options of a SYN, when the frame holds them. *)
Definition peer_wscale_of (frame : list Z) (off : nat) (tcp : tcp_hdr) : option Z :=
  let doff := doff_of tcp in
  if (doff >? 20) && (Z.of_nat off + doff <=? Z.of_nat (length frame))
  then Some (sotfp_parse_wscale (bytes_at frame (off + 20) (Z.to_nat (doff - 20)))) else None.
Definition learn_wscale (i : nat) (frame : list Z) (off : nat) (tcp : tcp_hdr) (x : net) : net :=
  match peer_wscale_of frame off tcp with Some ws => upd_conn i (set_wscale ws) x | None => x end.

Definition tcp_server_on_syn (isn : Z) (frame : list Z) (x : net) : net :=
  match tcp_off frame with
  | None => x
  | Some off =>
      let ip := ip_at frame in
      let tcp := tcp_at frame off in
      match tcp_conn_find_listen x (th_dst_port tcp) with
      | None => x
      | Some _ =>
          match find_listen_slot_index x (th_dst_port tcp) with
          | None => x
          | Some listen_idx =>
              let '(r, x) := tcp_conn_alloc x in
              match r with
              | None => x
              | Some i =>
                  let cid := g_conn_id_next x in
                  let next := u16 (cid + 1) in
                  let x := with_conn_id (if next =? 0 then 1 else next) x in
                  let x := upd_conn i (fun c =>
                    set_rcv (u32 (tcp_ntohl_ (th_seq tcp) + 1)) (set_snd isn isn (set_ids cid (Z.of_nat listen_idx) 0
                      (set_peer (ip_src ip) (th_src_port tcp) (th_dst_port tcp) (set_cstate TCP_STATE_SYN_RCVD (set_counts 0 0 c)))))) x in
                  let x := learn_wscale i frame off tcp x in
                  (tcp_send_segment i (sotfp_synack_flags (th_flags tcp)) [] x).2
              end
          end
      end
  end.

Definition tcp_server_on_ack (i : nat) (frame : list Z) (x : net) : net :=
  match tcp_off frame with
  | None => x
  | Some off =>
      let c := conn_at x i in
      if negb (bool_decide (c_state c = TCP_STATE_SYN_RCVD)) then x
      else
        let expected := u32 (c_snd_nxt c + 1) in
        if negb (tcp_ntohl_ (th_ack (tcp_at frame off)) =? expected) then x
        else
          let x := upd_conn i (fun c => set_cstate TCP_STATE_ESTABLISHED (set_snd expected expected c)) x in
          let x := with_inbound (u32 (g_inbound_total x + 1)) x in
          let x := tcp_audit i x in
          let x := lucas_accept_wake_waiter x in
          let c := conn_at x i in
          let x := if tcp_ntohs_ (c_local_port_be c) =? 22 then out (INBOUND_PUSH (c_conn_id c) 22 []) x else x in
          out (TRACE_ACCEPT (-1) 0 (c_conn_id c) (c_remote_ip_be c) (c_remote_port_be c) (c_local_port_be c)) x
  end.

Definition tcp_passive_open (local_port_be : Z) (x : net) : option nat * net :=
  match tcp_conn_find_listen x local_port_be with
  | Some _ => (None, x)
  | None =>
      let '(r, x) := tcp_conn_alloc x in
      match r with
      | None => (None, x)
      | Some i => (Some i, upd_conn i (fun c => set_ids 0 (-1) 0 (set_peer (c_remote_ip_be c) (c_remote_port_be c) local_port_be (set_cstate TCP_STATE_LISTEN c))) x)
      end
  end.

Definition EPHEMERAL_PORT_BASE : Z := 49152.
Definition EPHEMERAL_PORT_RANGE : Z := 16384.

(** [port_rnd] is the result of [sotos_arc4random_uniform(EPHEMERAL_PORT_RANGE)]. *)
Definition tcp_active_open (dst_ip_be dst_port_be pid port_rnd isn : Z) (x : net) : option nat * net :=
  let '(r, x) := tcp_conn_alloc x in
  match r with
  | None => (None, x)
  | Some i =>
      let lport_host := u16 (EPHEMERAL_PORT_BASE + port_rnd) in
      let x := upd_conn i (fun c => set_rcv 0 (set_snd isn isn (set_ids (c_conn_id c) (-1) pid
                 (set_peer dst_ip_be dst_port_be (tcp_htons_ lport_host) (set_cstate TCP_STATE_SYN_SENT c))))) x in
      let '(rc, x) := tcp_send_segment i TCP_FLAG_SYN [] x in
      if negb (rc =? 0) then (None, tcp_conn_free i x) else (Some i, x)
  end.

Definition tcp_client_on_synack (i : nat) (frame : list Z) (x : net) : net :=
  let c := conn_at x i in
  if negb (bool_decide (c_state c = TCP_STATE_SYN_SENT)) then x
  else
    match tcp_off frame with
    | None => x
    | Some off =>
        let tcp := tcp_at frame off in
        if negb (has_flag (th_flags tcp) TCP_FLAG_SYN && has_flag (th_flags tcp) TCP_FLAG_ACK) then x
        else
          let expected_ack := u32 (c_snd_nxt c + 1) in
          if negb (tcp_ntohl_ (th_ack tcp) =? expected_ack) then x
          else
            let x := upd_conn i (fun c => set_cstate TCP_STATE_ESTABLISHED (set_snd expected_ack expected_ack
                       (set_rcv (u32 (tcp_ntohl_ (th_seq tcp) + 1)) c))) x in
            let x := learn_wscale i frame off tcp x in
            let '(rc, x) := tcp_send_segment i TCP_FLAG_ACK [] x in
            if negb (rc =? 0) then tcp_conn_free i x else tcp_audit i x
    end.

(** ** Data *)

Definition tcp_send_data (i : nat) (buf : list Z) (x : net) : Z * net :=
  let c := conn_at x i in
  if negb (bool_decide (c_state c = TCP_STATE_ESTABLISHED)) && negb (bool_decide (c_state c = TCP_STATE_CLOSE_WAIT)) then (-1, x)
  else if (length buf =? 0)%nat then (0, x)
  else
    let buf := take (Z.to_nat TCP_TX_BUF_SIZE) buf in
    let len := Z.of_nat (length buf) in
    let seq_before := c_snd_nxt c in
    let '(rc, x) := tcp_send_segment i (Z.lor TCP_FLAG_ACK TCP_FLAG_PSH) buf x in
    if negb (rc =? 0) then (-1, x)
    else (len, upd_conn i (fun c => set_counts (c_rx_bytes c) (u64 (c_tx_bytes c + len)) (set_snd (u32 (seq_before + len)) (c_snd_una c) c)) x).

Definition is_bridged (lport : Z) : bool := (lport =? 80) || (lport =? 22) || (lport =? 443).

(** The payload of an in-order segment. *)
Definition tcp_take_payload (i : nat) (their_seq : Z) (payload : list Z) (x : net) : net :=
  let c := conn_at x i in
  let data_len := Z.of_nat (length payload) in
  let x := out (CAPTURE_IN (c_conn_id c) payload) x in
  let lport := tcp_ntohs_ (c_local_port_be c) in
  let x := if is_bridged lport then out (INBOUND_PUSH (c_conn_id c) lport payload) x else x in
  let x :=
    if is_bridged lport && negb (c_app_owned c) then
      upd_conn i (fun c => set_counts (u64 (c_rx_bytes c + data_len)) (c_tx_bytes c) (set_rcv (u32 (their_seq + u32 data_len)) c)) x
    else
      let rx_free := if rx_len c <? TCP_RX_BUF_SIZE then TCP_RX_BUF_SIZE - rx_len c else 0 in
      let copy_len := if data_len <? rx_free then data_len else rx_free in
      upd_conn i (fun c => set_counts (u64 (c_rx_bytes c + copy_len)) (c_tx_bytes c) (set_rcv (u32 (their_seq + u32 copy_len))
        (set_rx (c_rx c ++ take (Z.to_nat copy_len) payload) c))) x in
  (tcp_send_segment i TCP_FLAG_ACK [] x).2.

Definition tcp_data_on_segment (i : nat) (frame : list Z) (x : net) : net :=
  match tcp_off frame with
  | None => x
  | Some off =>
      let ip := ip_at frame in
      let tcp := tcp_at frame off in
      let ihl := ihl_of ip in
      let data_off := doff_of tcp in
      let len := Z.of_nat (length frame) in
      let ip_total := tcp_ntohs_ (ip_total_len ip) in
      if data_off <? 20 then x
      else if len <? 14 + ihl + data_off then x
      else if ip_total <? u16 (ihl + data_off) then x
      else if 14 + ip_total >? len then x
      else
        let their_seq := tcp_ntohl_ (th_seq tcp) in
        let their_ack := tcp_ntohl_ (th_ack tcp) in
        let x := upd_conn i (fun c => set_snd_wnd (u32 (Z.shiftl (tcp_ntohs_ (th_window tcp)) (c_peer_wscale c))) c) x in
        let data_len := ip_total - ihl - data_off in
        let x := if has_flag (th_flags tcp) TCP_FLAG_ACK && (i32 (their_ack - c_snd_una (conn_at x i)) >? 0)
                 then upd_conn i (fun c => set_retx 0 (set_snd (c_snd_nxt c) their_ack c)) x else x in
        if data_len >? 0 then
          if their_seq =? c_rcv_nxt (conn_at x i)
          then tcp_take_payload i their_seq (bytes_at frame (Z.to_nat (14 + ihl + data_off)) (Z.to_nat data_len)) x
          else (tcp_send_segment i TCP_FLAG_ACK [] x).2
        else x
  end.

(** The end of [lucas_tcp_recv], after it waited for data: EAGAIN, end of stream, or up to
    [count] bytes; the receive window is advertised again after a read. *)
Definition lucas_tcp_recv_drain (i : nat) (count : Z) (copy_ok : bool) (x : net) : Z * list Z * net :=
  let c := conn_at x i in
  if rx_len c =? 0 then (if bool_decide (c_state c = TCP_STATE_ESTABLISHED) then -11 else 0, [], x)
  else
    let n := if count <? rx_len c then count else rx_len c in
    if negb copy_ok then (-14, [], x)
    else
      let data := take (Z.to_nat n) (c_rx c) in
      let x := upd_conn i (set_rx (drop (Z.to_nat n) (c_rx c))) x in
      let x := if (n >? 0) && bool_decide (c_state c = TCP_STATE_ESTABLISHED) then (tcp_send_segment i TCP_FLAG_ACK [] x).2 else x in
      (n, data, x).

(** ** The dispatcher *)

Definition tcp_handle_packet (isn : Z) (frame : list Z) (x : net) : net :=
  match tcp_off frame with
  | None => x
  | Some off =>
      let ip := ip_at frame in
      if negb (ip_proto ip =? 6) then x
      else if negb (ip_dst ip =? g_our_ip x) then x
      else
        let tcp := tcp_at frame off in
        let flags := th_flags tcp in
        match tcp_conn_lookup x (ip_src ip) (th_src_port tcp) (th_dst_port tcp) with
        | None =>
            let has_listener := bool_decide (is_Some (tcp_conn_find_listen x (th_dst_port tcp))) in
            match sotfp_unsolicited_action flags has_listener with
            | SOTFP_ACT_SYN_ACCEPT => tcp_server_on_syn isn frame x
            | SOTFP_ACT_RST => send_rst frame x
            | SOTFP_ACT_DROP => x
            end
        | Some i =>
            if has_flag flags TCP_FLAG_RST then tcp_conn_free i x
            else
              match c_state (conn_at x i) with
              | TCP_STATE_SYN_RCVD => if has_flag flags TCP_FLAG_ACK then tcp_server_on_ack i frame x else x
              | TCP_STATE_SYN_SENT => if has_flag flags TCP_FLAG_SYN && has_flag flags TCP_FLAG_ACK then tcp_client_on_synack i frame x else x
              | TCP_STATE_ESTABLISHED =>
                  let x := tcp_data_on_segment i frame x in
                  if has_flag flags TCP_FLAG_FIN then tcp_close_on_fin i frame x else x
              | TCP_STATE_FIN_WAIT_1 | TCP_STATE_FIN_WAIT_2 | TCP_STATE_CLOSING | TCP_STATE_LAST_ACK =>
                  if has_flag flags TCP_FLAG_FIN then tcp_close_on_fin i frame x
                  else if has_flag flags TCP_FLAG_ACK then tcp_close_on_finack i x
                  else x
              | _ => x
              end
        end
  end.

(** ** The timer *)

Definition TCP_TSC_PER_TICK : Z := 2400000.
Definition TCP_RETX_TICKS : Z := 1000.
Definition TCP_TIME_WAIT_TICKS : Z := 4000.
Definition TCP_RETX_MAX : Z := 8.
Definition TCP_IDLE_TICKS : Z := 30000.
Definition TCP_CLOSE_WAIT_TICKS : Z := 2000.

Definition tcp_conn_protected (x : net) (conn_id : Z) : bool := negb (conn_id =? 0) && (conn_id =? g_ssh_shell_conn x).

(** The body of the scan, for one connection. *)
Definition tcp_timer_conn (now : Z) (i : nat) (x : net) : net :=
  let c := conn_at x i in
  let since := u32 (now - c_last_tx_ms c) in
  match c_state c with
  | TCP_STATE_SYN_SENT | TCP_STATE_SYN_RCVD | TCP_STATE_ESTABLISHED =>
      if (c_snd_una c <? c_snd_nxt c) && (since >? TCP_RETX_TICKS) then
        if c_retx_count c >=? TCP_RETX_MAX then tcp_conn_free i (tcp_send_segment i TCP_FLAG_RST [] x).2
        else
          let x := upd_conn i (fun c => set_retx (u16 (c_retx_count c + 1)) c) x in
          (tcp_send_segment i (c_tx_flags c) (c_tx c) x).2
      else if bool_decide (c_state c = TCP_STATE_ESTABLISHED) && (c_snd_una c =? c_snd_nxt c)
              && (since >? TCP_IDLE_TICKS) && negb (tcp_conn_protected x (c_conn_id c)) then
        tcp_conn_free i (tcp_send_segment i TCP_FLAG_RST [] x).2
      else x
  | TCP_STATE_CLOSE_WAIT =>
      if (since >? TCP_CLOSE_WAIT_TICKS) && negb (tcp_conn_protected x (c_conn_id c)) then sotnet_tcp_close i x else x
  | TCP_STATE_FIN_WAIT_1 | TCP_STATE_FIN_WAIT_2 | TCP_STATE_CLOSING | TCP_STATE_LAST_ACK =>
      if since >? TCP_IDLE_TICKS then tcp_conn_free i x else x
  | TCP_STATE_TIME_WAIT =>
      if u32 (now - c_time_wait_tick c) >? TCP_TIME_WAIT_TICKS then tcp_conn_free i x else x
  | _ => x
  end.

(** [now_tsc] is the cycle counter, 0 where there is none. *)
Definition tcp_timer_tick (now_tsc : Z) (x : net) : net :=
  let last := if last_tick_tsc x =? 0 then now_tsc else last_tick_tsc x in
  if negb (now_tsc =? 0) && (u64 (now_tsc - last) <? TCP_TSC_PER_TICK) then with_clock (g_tcp_now_ms x) last x
  else
    let now := u32 (g_tcp_now_ms x + 1) in
    let x := with_clock now (if now_tsc =? 0 then last_tick_tsc x else now_tsc) x in
    tcp_conn_iter (tcp_timer_conn now) x.

(** ** Runs *)

(** What drives the stack: frames from the wire, the timer, and the system calls of sotboxes. *)
Inductive tcp_op :=
  | OpPacket (isn : Z) (frame : list Z)
  | OpTick (now_tsc : Z)
  | OpListen (local_port_be : Z)
  | OpConnect (dst_ip_be dst_port_be pid port_rnd isn : Z)
  | OpAccept (w : acceptor)
  | OpPark (w : acceptor)
  | OpSend (i : nat) (buf : list Z)
  | OpRecv (i : nat) (count : Z) (copy_ok : bool)
  | OpClose (i : nat)
  | OpShell (conn_id : Z).
Definition tcp_step (op : tcp_op) (x : net) : net :=
  match op with
  | OpPacket isn frame => tcp_handle_packet isn frame x
  | OpTick now_tsc => tcp_timer_tick now_tsc x
  | OpListen port => (tcp_passive_open port x).2
  | OpConnect ip port pid port_rnd isn => (tcp_active_open ip port pid port_rnd isn x).2
  | OpAccept w => (do_accept w x).2
  | OpPark w => with_acceptors (n_acceptors x ++ [w]) x
  | OpSend i buf => (tcp_send_data i buf x).2
  | OpRecv i count copy_ok => (lucas_tcp_recv_drain i count copy_ok x).2
  | OpClose i => sotnet_tcp_close i x
  | OpShell cid => with_shell cid x
  end.
Definition tcp_run (ops : list tcp_op) (x : net) : net := fold_left (fun x op => tcp_step op x) ops x.
