(* ===== verification/NetTheorems.v ===== *)
(** * Byte order, checksums and headers of sotnet

    Byte swapping is an involution, a header with its checksum in place sums to 0xFFFF, and
    a frame built by the stack is read back field by field. *)

From S2P Require Import Prelude WalSpec NetFrame SotTcp.

(** ** Byte order *)

Lemma u16_range z : 0 <= u16 z < 2 ^ 16.
Proof. apply Z.mod_pos_bound; lia. Qed.
Lemma u16_small z : 0 <= z < 2 ^ 16 -> u16 z = z.
Proof. apply Z.mod_small. Qed.

Ltac powers :=
  change (2 ^ 8) with 256 in *; change (2 ^ 16) with 65536 in *; change (2 ^ 24) with 16777216 in *; change (2 ^ 32) with 4294967296 in *.
Ltac div_lia := powers; Z.to_euclidean_division_equations; lia.

(** A disjoint union of bit fields is a sum. *)
Lemma lor_shiftl a b n : 0 <= n -> 0 <= a < 2 ^ n -> Z.lor a (Z.shiftl b n) = a + b * 2 ^ n.
Proof.
  intros Hn Ha. rewrite <- Z.lxor_lor, <- Z.add_nocarry_lxor, Z.shiftl_mul_pow2 by first [done|
    apply Z.bits_inj_0; intros k; rewrite Z.land_spec; destruct (decide (k < n)); [rewrite Z.shiftl_spec_low by lia; apply andb_false_r|];
    rewrite <- (Z.mod_small a (2 ^ n)) by lia; rewrite Z.mod_pow2_bits_high by lia; done].
  done.
Qed.

Lemma htons_val v : 0 <= v < 2 ^ 16 -> tcp_htons_ v = v / 256 + 256 * (v mod 256).
Proof.
  intros Hv. unfold tcp_htons_, u16. powers. rewrite Z.lor_comm, Z.shiftr_div_pow2, lor_shiftl by div_lia. div_lia.
Qed.
Lemma htons_range v : 0 <= v < 2 ^ 16 -> 0 <= tcp_htons_ v < 2 ^ 16.
Proof. intros. unfold tcp_htons_. apply u16_range. Qed.
Lemma ntohs_htons v : 0 <= v < 2 ^ 16 -> tcp_ntohs_ (tcp_htons_ v) = v.
Proof.
  intros Hv. change (tcp_htons_ (tcp_htons_ v) = v). pose proof (htons_range v Hv). rewrite htons_val by done. rewrite htons_val by done.
  div_lia.
Qed.
Lemma htons_ntohs v : 0 <= v < 2 ^ 16 -> tcp_htons_ (tcp_ntohs_ v) = v.
Proof. exact (ntohs_htons v). Qed.

(** A byte of a word. *)
Lemma land_byte v k : 0 <= k -> Z.land v (Z.shiftl 0xFF k) = Z.shiftl (Z.shiftr v k mod 256) k.
Proof.
  intros Hk. change 256 with (2 ^ 8). rewrite <- Z.land_ones by lia. rewrite Z.shiftl_land. change (Z.ones 8) with 0xFF.
  apply Z.bits_inj_iff. intros n. rewrite !Z.land_spec. destruct (decide (n < k)).
  - rewrite !Z.shiftl_spec_low by lia. by rewrite !andb_false_r.
  - destruct (decide (0 <= n)); [|by rewrite !Z.testbit_neg_r by lia]. rewrite !Z.shiftl_spec, Z.shiftr_spec by lia. do 2 f_equal. lia.
Qed.

Lemma lor_rev4 a b c d : Z.lor (Z.lor (Z.lor a b) c) d = Z.lor (Z.lor (Z.lor d c) b) a.
Proof. apply Z.bits_inj_iff. intros n. rewrite !Z.lor_spec. by repeat destruct (Z.testbit _ n). Qed.

Lemma htonl_val v : 0 <= v < 2 ^ 32 ->
  tcp_htonl_ v = v / 2 ^ 24 + 2 ^ 8 * (v / 2 ^ 16 mod 256) + 2 ^ 16 * (v / 2 ^ 8 mod 256) + 2 ^ 24 * (v mod 256).
Proof.
  intros Hv. unfold tcp_htonl_.
  change 0xFF with (Z.shiftl 0xFF 0). change 0xFF00 with (Z.shiftl 0xFF 8). change 0xFF0000 with (Z.shiftl 0xFF 16). change 0xFF000000 with (Z.shiftl 0xFF 24).
  rewrite !land_byte by lia. rewrite Z.shiftr_0_r, Z.shiftl_0_r.
  pose proof (Z.mod_pos_bound v 256 ltac:(lia)). pose proof (Z.mod_pos_bound (Z.shiftr v 8) 256 ltac:(lia)).
  pose proof (Z.mod_pos_bound (Z.shiftr v 16) 256 ltac:(lia)). pose proof (Z.mod_pos_bound (Z.shiftr v 24) 256 ltac:(lia)).
  rewrite (Z.shiftl_shiftl _ 8 8) by lia. change (8 + 8) with 16.
  rewrite (Z.shiftr_shiftl_l _ 16 8) by lia. rewrite (Z.shiftr_shiftl_l _ 24 24) by lia. change (16 - 8) with 8. change (24 - 24) with 0. rewrite Z.shiftl_0_r.
  rewrite !u32_small by (rewrite Z.shiftl_mul_pow2 by lia; lia).
  rewrite lor_rev4. rewrite (lor_shiftl _ _ 8), (lor_shiftl _ _ 16), (lor_shiftl _ _ 24) by (powers; lia).
  rewrite !Z.shiftr_div_pow2 by lia. div_lia.
Qed.
Lemma u32_bytes v : 0 <= v < 2 ^ 32 ->
  exists a b c d, is_byte a /\ is_byte b /\ is_byte c /\ is_byte d /\ v = a + 256 * (b + 256 * (c + 256 * d)).
Proof.
  intros Hv. exists (v mod 256), (v / 256 mod 256), (v / 256 / 256 mod 256), (v / 256 / 256 / 256). unfold is_byte. powers.
  pose proof (Z.div_mod v 256). pose proof (Z.div_mod (v / 256) 256). pose proof (Z.div_mod (v / 256 / 256) 256).
  pose proof (Z.mod_pos_bound v 256). pose proof (Z.mod_pos_bound (v / 256) 256). pose proof (Z.mod_pos_bound (v / 256 / 256) 256). lia.
Qed.
Lemma htonl_bytes a b c d : is_byte a -> is_byte b -> is_byte c -> is_byte d ->
  tcp_htonl_ (a + 256 * (b + 256 * (c + 256 * d))) = d + 256 * (c + 256 * (b + 256 * a)).
Proof.
  unfold is_byte. intros. set (v := a + 256 * (b + 256 * (c + 256 * d))).
  rewrite htonl_val by (unfold v; powers; lia). powers.
  rewrite <- (Z.div_unique v 16777216 d (a + 256 * (b + 256 * c))), <- (Z.div_unique v 65536 (c + 256 * d) (a + 256 * b)),
    <- (Z.div_unique v 256 (b + 256 * (c + 256 * d)) a), <- (Z.mod_unique v 256 (b + 256 * (c + 256 * d)) a) by (unfold v; lia).
  rewrite <- (Z.mod_unique (c + 256 * d) 256 d c), <- (Z.mod_unique (b + 256 * (c + 256 * d)) 256 (c + 256 * d) b) by lia. lia.
Qed.
Lemma htonl_range v : 0 <= v < 2 ^ 32 -> 0 <= tcp_htonl_ v < 2 ^ 32.
Proof. intros (a&b&c&d&?&?&?&?&->)%u32_bytes. rewrite htonl_bytes by done. unfold is_byte in *. powers. lia. Qed.
Lemma ntohl_htonl v : 0 <= v < 2 ^ 32 -> tcp_ntohl_ (tcp_htonl_ v) = v.
Proof. intros (a&b&c&d&?&?&?&?&->)%u32_bytes. unfold tcp_ntohl_. by rewrite !htonl_bytes. Qed.

(** ** Checksums *)

(** The sum of the words of a buffer, without a width. *)
Fixpoint words (bs : list Z) : Z :=
  match bs with
  | a :: b :: bs' => a + 256 * b + words bs'
  | [a] => a
  | [] => 0
  end.

Lemma pair_ind (P : list Z -> Prop) : P [] -> (forall a, P [a]) -> (forall a b l, P l -> P (a :: b :: l)) -> forall l, P l.
Proof.
  intros H0 H1 H2 l. assert (P l /\ forall a, P (a :: l)) as [? _]; [|done].
  induction l as [|b l [IH1 IH2]]; split; auto.
Qed.

Lemma words_range bs : Forall is_byte bs -> 0 <= words bs <= 32768 * Z.of_nat (length bs) + 32768.
Proof.
  unfold is_byte. induction bs as [|a|a b bs IH] using pair_ind; simpl; intros H; [lia| |]; repeat (apply Forall_cons in H as [? H]); [lia|].
  specialize (IH H). lia.
Qed.

Lemma csum_words_sum s bs : Forall is_byte bs -> 0 <= s -> s + words bs < 2 ^ 32 -> csum_words s bs = s + words bs.
Proof.
  revert s. induction bs as [|a|a b bs IH] using pair_ind; intros s H Hs Hw; cbn [csum_words words] in *.
  - lia.
  - apply Forall_cons in H as [? _]. unfold is_byte in *. apply u32_small. lia.
  - repeat (apply Forall_cons in H as [? H]). pose proof (words_range _ H). unfold is_byte in *. rewrite u32_small by lia. rewrite IH by (done || lia). lia.
Qed.

Lemma words_app a b : Nat.Even (length a) -> words (a ++ b) = words a + words b.
Proof.
  induction a as [|x|x y a IH] using pair_ind; intros He; simpl in *; [lia|by destruct He as [k Hk]; lia|].
  rewrite IH; [lia|]. destruct He as [k Hk]. exists (k - 1)%nat. lia.
Qed.
Lemma words_le2 c : 0 <= c < 2 ^ 16 -> words (le_bytes 2 c) = c.
Proof. intros Hc. simpl. div_lia. Qed.

(** One round of the fold. *)
Lemma fold_round s : 0 <= s < 2 ^ 32 ->
  Z.shiftr s 16 = s / 65536 /\ u32 (Z.land s 0xFFFF + Z.shiftr s 16) = s mod 65536 + s / 65536.
Proof.
  intros Hs. rewrite Z.shiftr_div_pow2 by lia. change 0xFFFF with (Z.ones 16). rewrite Z.land_ones by lia. split; [done|].
  apply u32_small. div_lia.
Qed.

Lemma csum_fold_spec s : 0 <= s < 2 ^ 32 ->
  0 <= csum_fold 3 s <= 65535 /\ csum_fold 3 s mod 65535 = s mod 65535 /\ (csum_fold 3 s = 0 -> s = 0).
Proof.
  intros Hs. assert (forall t, 0 <= t < 2 ^ 32 -> 0 <= t mod 65536 + t / 65536 <= 131070 /\ (t mod 65536 + t / 65536) mod 65535 = t mod 65535
    /\ (t mod 65536 + t / 65536 = 0 -> t = 0) /\ (t <= 131070 -> t mod 65536 + t / 65536 <= 65535)) as R.
  { intros t Ht. split; [div_lia|]. split; [|split; div_lia].
    rewrite (Z.div_mod t 65536) at 3 by lia. replace (65536 * (t / 65536) + t mod 65536) with (t mod 65536 + t / 65536 + (t / 65536) * 65535) by lia.
    by rewrite Z.mod_add. }
  assert (forall t, 0 <= t < 2 ^ 32 -> t / 65536 = 0 -> t <= 65535) as Z0 by (intros; div_lia).
  cbn [csum_fold]. destruct (fold_round s Hs) as [-> ->]. destruct (R s Hs) as (B1&M1&N1&_). destruct (Z.eqb_spec (s / 65536) 0) as [E|_]; [split; [specialize (Z0 s Hs E); lia|done]|].
  set (s1 := s mod 65536 + s / 65536) in *. assert (0 <= s1 < 2 ^ 32) as H1 by (powers; lia). destruct (fold_round s1 H1) as [-> ->]. destruct (R s1 H1) as (B2&M2&N2&C2).
  destruct (Z.eqb_spec (s1 / 65536) 0) as [E|_]; [split; [specialize (Z0 s1 H1 E); lia|split; [done|auto]]|].
  set (s2 := s1 mod 65536 + s1 / 65536) in *. assert (0 <= s2 < 2 ^ 32) as H2 by (powers; lia). destruct (fold_round s2 H2) as [-> ->].
  rewrite (Z.div_small s2) by lia. simpl. split; [lia|]. split; [congruence|auto].
Qed.

(** A buffer whose checksum word holds the complement of the rest sums to 0xFFFF. *)
Lemma csum_verifies s : 0 <= s < 2 ^ 32 - 65536 ->
  let c := u16 (Z.lnot (csum_fold 3 s)) in 0 <= c < 2 ^ 16 /\ csum_fold 3 (s + c) = 0xFFFF.
Proof.
  intros Hs c. destruct (csum_fold_spec s) as (B&M&N); [powers; lia|].
  assert (c = 65535 - csum_fold 3 s) as Ec.
  { unfold c, u16, Z.lnot. powers. symmetry. apply (Z.mod_unique _ _ (-1)); lia. }
  split; [powers; lia|]. destruct (csum_fold_spec (s + c)) as (B'&M'&N'); [powers; lia|].
  assert ((s + c) mod 65535 = 0) as Z0.
  { rewrite Ec. replace (s + (65535 - csum_fold 3 s)) with ((s - csum_fold 3 s) + 1 * 65535) by lia. rewrite Z.mod_add by lia.
    rewrite Zminus_mod, M, Z.sub_diag. done. }
  rewrite Z0 in M'. assert (csum_fold 3 (s + c) <> 0) by (intros ?%N'; assert (s = 0) as -> by lia; unfold c in *; change (csum_fold 3 0) with 0 in *; lia).
  set (r := csum_fold 3 (s + c)) in *. apply Z.mod_divide in M' as [k Hk]; lia.
Qed.

(** ** Frames of the stack *)

(** A frame with both checksum words given. *)
Definition packet (dst src : list Z) (total id ips ipd c1 sp dp sq ak doff fl win c2 : Z) (body : list Z) : list Z :=
  eth_bytes dst src 0x0800 ++ ip_bytes total id true 6 ips ipd c1 ++ seg_bytes sp dp sq ak doff fl win body c2.

Lemma le_val_2 z : 0 <= z < 2 ^ 16 -> le_val (le_bytes 2 z) = z.
Proof. apply (le_val_bytes 2). Qed.
Lemma le_val_4 z : 0 <= z < 2 ^ 32 -> le_val (le_bytes 4 z) = z.
Proof. apply (le_val_bytes 4). Qed.

Section packet.
Context (dst src : list Z) (total id ips ipd c1 sp dp sq ak doff fl win c2 : Z) (body : list Z).
Hypothesis (Hdst : length dst = 6%nat) (Hsrc : length src = 6%nat).
Hypothesis (Htotal : 0 <= total < 2 ^ 16) (Hips : 0 <= ips < 2 ^ 32) (Hipd : 0 <= ipd < 2 ^ 32)
  (Hsp : 0 <= sp < 2 ^ 16) (Hdp : 0 <= dp < 2 ^ 16) (Hsq : 0 <= sq < 2 ^ 32) (Hak : 0 <= ak < 2 ^ 32) (Hwin : 0 <= win < 2 ^ 16)
  (Hc2 : 0 <= c2 < 2 ^ 16).
Let f := packet dst src total id ips ipd c1 sp dp sq ak doff fl win c2 body.

Lemma packet_len : length f = (54 + length body)%nat.
Proof using Hdst Hsrc.
  unfold f, packet, eth_bytes, ip_bytes, seg_bytes. rewrite !length_app, !length_le_bytes, Hdst, Hsrc. simpl. lia.
Qed.

Ltac explode :=
  destruct dst as [|? [|? [|? [|? [|? [|? [|? ?]]]]]]]; try discriminate; destruct src as [|? [|? [|? [|? [|? [|? [|? ?]]]]]]]; try discriminate.

Lemma packet_ip :
  ip_ihl_ver (ip_at f) = 0x45 /\ tcp_ntohs_ (ip_total_len (ip_at f)) = total /\ ip_proto (ip_at f) = 6 /\ ip_src (ip_at f) = ips /\ ip_dst (ip_at f) = ipd.
Proof using Hdst Hsrc Htotal Hips Hipd.
  pose proof (htons_range total Htotal) as Ht. pose proof (ntohs_htons total Htotal) as Hn.
  unfold f, packet, eth_bytes, ip_bytes, seg_bytes. generalize dependent (tcp_htons_ total). intros ht Ht Hn. clear f. explode.
  unfold ip_at, field. cbn -[le_val le_bytes].
  split; [done|]. split; [rewrite <- Hn; f_equal; exact (le_val_2 _ Ht)|]. split; [done|].
  split; [exact (le_val_4 _ Hips)|exact (le_val_4 _ Hipd)].
Qed.

Lemma packet_off : tcp_off f = Some 34%nat.
Proof using Hdst Hsrc Htotal Hips Hipd.
  destruct packet_ip as (E&_). unfold tcp_off, ihl_of. rewrite E. pose proof packet_len as L. rewrite L.
  rewrite (proj2 (Z.ltb_ge _ _)) by lia. change (u8 (Z.land 0x45 0x0F * 4)) with 20. simpl orb. rewrite (proj2 (Z.ltb_ge _ _)) by lia. done.
Qed.

Lemma packet_tcp :
  tcp_at f 34 = mk_tcp sp dp (tcp_htonl_ sq) (tcp_htonl_ ak) doff fl (tcp_htons_ win) c2 0.
Proof using Hdst Hsrc Hsp Hdp Hsq Hak Hwin Hc2.
  pose proof (htonl_range sq Hsq) as Hq. pose proof (htonl_range ak Hak) as Hk. pose proof (htons_range win Hwin) as Hw.
  unfold f, packet, eth_bytes, ip_bytes, seg_bytes. generalize dependent (tcp_htonl_ sq). generalize dependent (tcp_htonl_ ak). generalize dependent (tcp_htons_ win).
  intros w Hw k Hk q Hq. clear f. explode. unfold tcp_at, field. cbn -[le_val le_bytes].
  f_equal; [exact (le_val_2 _ Hsp)|exact (le_val_2 _ Hdp)|exact (le_val_4 _ Hq)|exact (le_val_4 _ Hk)| | |exact (le_val_2 _ Hw)|exact (le_val_2 _ Hc2)]; apply Z.add_0_r.
Qed.

Lemma packet_body : drop 54 f = body.
Proof using Hdst Hsrc. unfold f, packet, eth_bytes, ip_bytes, seg_bytes. explode. done. Qed.

Lemma packet_seg : drop 34 f = seg_bytes sp dp sq ak doff fl win body c2.
Proof using Hdst Hsrc. unfold f, packet, eth_bytes, ip_bytes. explode. done. Qed.

Lemma packet_iph : bytes_at f 14 20 = ip_bytes total id true 6 ips ipd c1.
Proof using Hdst Hsrc. unfold f, packet, eth_bytes, ip_bytes, bytes_at. explode. done. Qed.
End packet.

(** A frame a receiver accepts: lengths, protocol and both checksums. *)
Definition csum_ok (bs : list Z) : Prop := csum_fold 3 (csum_words 0 bs) = 0xFFFF.
Definition wire_ok (f : list Z) : Prop :=
  (54 <= length f <= 1500)%nat /\ Forall is_byte f /\ eth_type (eth_at f) = tcp_htons_ 0x0800
  /\ ip_ihl_ver (ip_at f) = 0x45 /\ ip_proto (ip_at f) = 6 /\ tcp_ntohs_ (ip_total_len (ip_at f)) = Z.of_nat (length f) - 14
  /\ csum_ok (bytes_at f 14 20)
  /\ csum_ok (pseudo_bytes (ip_src (ip_at f)) (ip_dst (ip_at f)) (Z.of_nat (length f) - 34) ++ drop 34 f).

Lemma csum_words_app s a b : Nat.Even (length a) -> csum_words s (a ++ b) = csum_words (csum_words s a) b.
Proof.
  revert s. induction a as [|x|x y a IH] using pair_ind; intros s He; simpl in *; [done|by destruct He as [k Hk]; lia|].
  apply IH. destruct He as [k Hk]. exists (k - 1)%nat. lia.
Qed.

(** The checksum word sits between two parts of a buffer. *)
Lemma csum_insert pre a b : Nat.Even (length pre) -> Nat.Even (length a) -> Forall is_byte (pre ++ a ++ b) -> Z.of_nat (length (pre ++ a ++ b)) <= 100000 ->
  let c := u16 (Z.lnot (csum_fold 3 (csum_words 0 (pre ++ a ++ le_bytes 2 0 ++ b)))) in
  0 <= c < 2 ^ 16 /\ csum_ok (pre ++ a ++ le_bytes 2 c ++ b).
Proof.
  intros Hp Ha Hb Hl c. assert (forall w, 0 <= w < 2 ^ 16 -> csum_words 0 (pre ++ a ++ le_bytes 2 w ++ b) = words (pre ++ a ++ b) + w) as W.
  { intros w Hw. assert (words (pre ++ a ++ le_bytes 2 w ++ b) = words (pre ++ a ++ b) + w) as E.
    { rewrite !words_app, words_le2 by (done || by exists 1%nat). lia. }
    pose proof (words_range _ Hb). apply Forall_app in Hb as [? [? ?]%Forall_app]. rewrite csum_words_sum; [rewrite E; lia| |lia|].
    - rewrite ?Forall_app; auto using le_bytes_byte, Forall_nil_2.
    - rewrite E. powers. lia. }
  pose proof (words_range _ Hb). unfold c. rewrite (W 0) by lia. rewrite Z.add_0_r. destruct (csum_verifies (words (pre ++ a ++ b))) as [Hc Hok]; [powers; lia|].
  split; [done|]. unfold csum_ok. by rewrite (W _ Hc).
Qed.

Lemma ip_header_ok total id df proto src dst : 0 <= id < 2 ^ 16 -> is_byte proto ->
  let c := ip_csum (ip_bytes total id df proto src dst 0) in 0 <= c < 2 ^ 16 /\ csum_ok (ip_bytes total id df proto src dst c) /\ Forall is_byte (ip_bytes total id df proto src dst c).
Proof.
  intros Hid Hp c. pose (a := [Z.lor (Z.shiftl 4 4) 5; 0] ++ le_bytes 2 (tcp_htons_ total) ++ sotfp_ip_set id df ++ [proto]).
  pose (b := le_bytes 4 src ++ le_bytes 4 dst).
  assert (forall w, ip_bytes total id df proto src dst w = [] ++ a ++ le_bytes 2 w ++ b) as E by (intros; unfold ip_bytes, a, b; simpl; by destruct df).
  assert (Forall is_byte a /\ Forall is_byte b) as [Ba Bb].
  { split; [|by apply Forall_app_2; apply le_bytes_byte]. unfold a, sotfp_ip_set. rewrite Z.shiftr_div_pow2 by lia. change 0xFF with (Z.ones 8). rewrite Z.land_ones by lia.
    rewrite !Forall_app, !Forall_cons. unfold is_byte in *. split_and!; try apply le_bytes_byte; try apply Forall_nil; try done; try (destruct df; done); try div_lia. }
  destruct (csum_insert [] a b) as [Hc Hok]; [by exists 0%nat|by exists 5%nat|by rewrite app_nil_l; apply Forall_app_2|done|].
  unfold c, ip_csum. rewrite !E. split; [done|]. split; [done|]. rewrite ?Forall_app; auto using le_bytes_byte, Forall_nil_2.
Qed.

Lemma segment_ok ips ipd sp dp sq ak doff fl win body : is_byte doff -> is_byte fl -> Forall is_byte body -> (length body <= 2000)%nat ->
  let n := 20 + Z.of_nat (length body) in
  let c := tcp_csum (pseudo_bytes ips ipd n) (seg_bytes sp dp sq ak doff fl win body 0) in
  0 <= c < 2 ^ 16 /\ csum_ok (pseudo_bytes ips ipd n ++ seg_bytes sp dp sq ak doff fl win body c) /\ Forall is_byte (seg_bytes sp dp sq ak doff fl win body c).
Proof.
  intros Hd Hf Hb Hl n c. pose (a := le_bytes 2 sp ++ le_bytes 2 dp ++ le_bytes 4 (tcp_htonl_ sq) ++ le_bytes 4 (tcp_htonl_ ak) ++ [doff; fl] ++ le_bytes 2 (tcp_htons_ win)).
  assert (forall w, seg_bytes sp dp sq ak doff fl win body w = a ++ le_bytes 2 w ++ ([0; 0] ++ body)) as E by (intros; unfold seg_bytes, a; by rewrite <- !app_assoc).
  assert (Forall is_byte a /\ Forall is_byte ([0; 0] ++ body)) as [Ba Bb].
  { split; [|by constructor; [|constructor; [|done]]]. unfold a. rewrite !Forall_app. split_and!; try apply le_bytes_byte; by rewrite ?Forall_cons. }
  assert (Forall is_byte (pseudo_bytes ips ipd n)) as Bp.
  { unfold pseudo_bytes. rewrite !Forall_app. split_and!; try apply le_bytes_byte; by rewrite ?Forall_cons. }
  destruct (csum_insert (pseudo_bytes ips ipd n) a ([0; 0] ++ body)) as [Hc Hok]; [by exists 6%nat|by exists 8%nat|by rewrite (Forall_app _ (pseudo_bytes ips ipd n)), (Forall_app _ a)|by rewrite !length_app; simpl; lia|].
  unfold c, tcp_csum. rewrite <- csum_words_app by (by exists 6%nat). rewrite !E. split; [done|]. split; [done|]. apply Forall_app_2; [done|]. apply Forall_app_2; [apply le_bytes_byte|done].
Qed.

(** The frames the stack builds are accepted by a receiver. *)
Lemma frame_wire_ok dst src total id ips ipd sp dp sq ak doff fl win body :
  length dst = 6%nat -> length src = 6%nat -> Forall is_byte dst -> Forall is_byte src ->
  0 <= id < 2 ^ 16 -> 0 <= ips < 2 ^ 32 -> 0 <= ipd < 2 ^ 32 -> is_byte doff -> is_byte fl ->
  Forall is_byte body -> (length body <= 1400)%nat -> total = 40 + Z.of_nat (length body) ->
  wire_ok (eth_bytes dst src 0x0800 ++ ip_header total id true 6 ips ipd ++ tcp_segment (pseudo_bytes ips ipd (20 + Z.of_nat (length body))) sp dp sq ak doff fl win body).
Proof.
  intros Hdst Hsrc Bd Bs Hid Hips Hipd Hdo Hfl Hb Hl ->.
  destruct (ip_header_ok (40 + Z.of_nat (length body)) id true 6 ips ipd) as (C1&Ok1&B1); [done|done|].
  destruct (segment_ok ips ipd sp dp sq ak doff fl win body) as (C2&Ok2&B2); [done..|lia|].
  unfold ip_header, tcp_segment. set (c1 := ip_csum _) in *. set (c2 := tcp_csum _ _) in *.
  fold (packet dst src (40 + Z.of_nat (length body)) id ips ipd c1 sp dp sq ak doff fl win c2 body).
  pose proof (packet_len dst src (40 + Z.of_nat (length body)) id ips ipd c1 sp dp sq ak doff fl win c2 body Hdst Hsrc) as L.
  destruct (packet_ip dst src (40 + Z.of_nat (length body)) id ips ipd c1 sp dp sq ak doff fl win c2 body Hdst Hsrc) as (I1&I2&I3&I4&I5); [powers; lia|done|done|].
  unfold wire_ok. rewrite I1, I2, I3, I4, I5, L, packet_iph, packet_seg by done.
  split; [lia|]. split; [|split; [|split_and!; [done|done|lia|done|]]].
  - unfold packet, eth_bytes. rewrite !Forall_app. split_and!; try done. apply le_bytes_byte.
  - unfold packet, eth_bytes. destruct dst as [|? [|? [|? [|? [|? [|? [|? ?]]]]]]]; try discriminate; destruct src as [|? [|? [|? [|? [|? [|? [|? ?]]]]]]]; try discriminate. done.
  - by replace (Z.of_nat (54 + length body) - 34) with (20 + Z.of_nat (length body)) by lia.
Qed.
