(* ===== verification/SotTcpInv.v ===== *)
(** * Invariant of the TCP stack

    What holds of the connection table, the counters and the frames handed to the device
    after any sequence of frames, ticks and system calls ([tcp_invariant]). *)

From S2P Require Import Prelude WalSpec NetFrame SotTcp NetTheorems.

(** ** The table *)

Definition tab (x : net) : Prop := length (g_tcp_conns x) = TCP_CONN_MAX.

Lemma conn_at_upd i f x j : tab x -> (i < TCP_CONN_MAX)%nat -> conn_at (upd_conn i f x) j = if decide (i = j) then f (conn_at x i) else conn_at x j.
Proof. intros Ht Hi. unfold conn_at, upd_conn. cbn [g_tcp_conns with_conns]. by rewrite array_get_insert by (rewrite Ht; lia). Qed.
Lemma conn_at_same i f x : tab x -> (i < TCP_CONN_MAX)%nat -> conn_at (upd_conn i f x) i = f (conn_at x i).
Proof. intros. by rewrite conn_at_upd, decide_True. Qed.
Lemma conn_at_other i f x j : i <> j -> conn_at (upd_conn i f x) j = conn_at x j.
Proof. intros Hn. unfold conn_at, upd_conn. cbn [g_tcp_conns with_conns]. by rewrite list_lookup_insert_ne. Qed.
Lemma conn_at_beyond x i : tab x -> (TCP_CONN_MAX <= i)%nat -> conn_at x i = free_conn.
Proof. intros Ht Hi. unfold conn_at. by rewrite lookup_ge_None_2 by (rewrite Ht; lia). Qed.
Lemma tab_upd i f x : tab x -> tab (upd_conn i f x).
Proof. intros Ht. unfold tab, upd_conn. cbn [g_tcp_conns with_conns]. by rewrite length_insert. Qed.
Lemma in_use_below x i : tab x -> c_in_use (conn_at x i) = true -> (i < TCP_CONN_MAX)%nat.
Proof. intros Ht Hu. destruct (decide (i < TCP_CONN_MAX)%nat); [done|]. by rewrite conn_at_beyond in Hu by (done || lia). Qed.

(** Two updates of a slot in a row. *)
Lemma conn_upd_upd i f g x : tab x -> (i < TCP_CONN_MAX)%nat -> upd_conn i g (upd_conn i f x) = upd_conn i (fun c => g (f c)) x.
Proof.
  intros Ht Hi. unfold upd_conn at 1. rewrite conn_at_same by done. unfold upd_conn, with_conns. simpl. by rewrite list_insert_insert_eq.
Qed.

(** ** Well-formed states *)

Definition half_open (s : tcp_state) : Prop := s = TCP_STATE_SYN_SENT \/ s = TCP_STATE_SYN_RCVD.
Definition r16 (z : Z) : Prop := 0 <= z < 2 ^ 16.
Definition r32 (z : Z) : Prop := 0 <= z < 2 ^ 32.

Record conn_ok (c : tcp_conn) : Prop := {
  co_free : c_in_use c = false -> c = free_conn;
  co_used : c_in_use c = true -> c_state c <> TCP_STATE_CLOSED;
  co_ids : r16 (c_conn_id c) /\ r32 (c_remote_ip_be c) /\ r16 (c_remote_port_be c) /\ r16 (c_local_port_be c) /\ r32 (c_origin_pid c);
  co_seqs : r32 (c_snd_nxt c) /\ r32 (c_snd_una c) /\ r32 (c_rcv_nxt c);
  co_window : 0 <= c_peer_wscale c <= 14 /\ r32 (c_snd_wnd c);
  co_times : r32 (c_last_tx_ms c) /\ r32 (c_time_wait_tick c);
  co_tx : Forall is_byte (c_tx c) /\ Z.of_nat (length (c_tx c)) <= TCP_TX_BUF_SIZE /\ is_byte (c_tx_flags c) /\ 0 <= c_retx_count c <= TCP_RETX_MAX;
  co_rx : Forall is_byte (c_rx c) /\ rx_len c <= TCP_RX_BUF_SIZE;
  co_counts : 0 <= c_rx_bytes c < 2 ^ 64 /\ 0 <= c_tx_bytes c < 2 ^ 64;
  co_listen : -1 <= c_listen_slot c < Z.of_nat TCP_CONN_MAX;
  co_half : half_open (c_state c) -> c_snd_una c = c_snd_nxt c }.

Definition mac_ok (m : list Z) : Prop := length m = 6%nat /\ Forall is_byte m.
Definition effect_ok (e : net_effect) : Prop := match e with TX f => wire_ok f | _ => True end.

(** Everything but the table. *)
Record rest_ok (x : net) : Prop := {
  ro_clock : r32 (g_tcp_now_ms x);
  ro_next : 1 <= g_conn_id_next x < 2 ^ 16;
  ro_inbound : r32 (g_inbound_total x);
  ro_ip : r16 (g_ip_id x) /\ r32 (g_our_ip x);
  ro_macs : mac_ok (n_hw_mac x) /\ Forall (fun r => mac_ok (r_gw_mac r)) (g_routes x);
  ro_out : Forall effect_ok (n_out x) }.

(** No two listeners share a port. *)
Definition listening (x : net) (i : nat) (port : Z) : Prop := c_state (conn_at x i) = TCP_STATE_LISTEN /\ c_local_port_be (conn_at x i) = port.
Definition one_listener (x : net) : Prop := forall i j port, listening x i port -> listening x j port -> i = j.

Record net_ok (x : net) : Prop := {
  no_tab : tab x;
  no_conns : forall i, conn_ok (conn_at x i);
  no_rest : rest_ok x;
  no_listen : one_listener x }.

Lemma free_conn_ok : conn_ok free_conn.
Proof. split; simpl; try done; unfold r16, r32, is_byte, rx_len; simpl; try (split_and!; done || lia). Qed.

Lemma net_init_ok our_ip mac : r32 our_ip -> mac_ok mac -> net_ok (net_init our_ip mac).
Proof.
  intros Hip Hm. assert (forall i, conn_at (net_init our_ip mac) i = free_conn) as E.
  { intros i. unfold conn_at, net_init. cbn [g_tcp_conns]. destruct (decide (i < TCP_CONN_MAX)%nat); [by rewrite lookup_replicate_2|].
    by rewrite lookup_ge_None_2 by (rewrite length_replicate; lia). }
  split; [unfold tab, net_init; apply length_replicate|intros i; rewrite E; apply free_conn_ok| |intros i j p [H _] _; by rewrite E in H].
  split; simpl; try done.
  - split; [apply u16_range|done].
  - split; [done|]. unfold sotnet_route_init, SOTNET_ROUTE_MAX. simpl.
    repeat (apply Forall_cons; split; [split; [done|unfold is_byte; repeat (apply Forall_cons; split; [lia|]); apply Forall_nil_2]|]). apply Forall_nil_2.
Qed.

(** ** Steps that keep it *)

Lemma net_ok_upd i f x : net_ok x -> conn_ok (f (conn_at x i)) ->
  (c_state (f (conn_at x i)) = TCP_STATE_LISTEN -> c_state (conn_at x i) = TCP_STATE_LISTEN /\ c_local_port_be (f (conn_at x i)) = c_local_port_be (conn_at x i)) ->
  net_ok (upd_conn i f x).
Proof.
  intros [Ht Hc Hr Hl] Hf Hs. destruct (decide (i < TCP_CONN_MAX)%nat) as [Hi|Hi].
  - split; [by apply tab_upd| |by destruct Hr|].
    + intros j. rewrite conn_at_upd by done. by case_decide.
    + assert (forall j port, listening (upd_conn i f x) j port -> listening x j port) as Hle.
      { intros j port. unfold listening. rewrite conn_at_upd by done. case_decide; [|done]. subst j. intros [Hst Hp]. destruct (Hs Hst) as [? E]. split; [done|congruence]. }
      intros j k port Hj Hk. eapply Hl; eauto.
  - assert (upd_conn i f x = x) as ->; [|done]. unfold upd_conn, with_conns. rewrite list_insert_ge by (rewrite Ht; lia). by destruct x.
Qed.

Lemma net_ok_out e x : net_ok x -> effect_ok e -> net_ok (out e x).
Proof. intros [Ht Hc [] Hl] He. split; [done|done| |done]. split; try done. cbn [n_out out with_out]. apply Forall_app_2; [done|by constructor]. Qed.

Lemma net_ok_free i x : net_ok x -> net_ok (tcp_conn_free i x).
Proof. intros H. apply net_ok_upd; [done|apply free_conn_ok|done]. Qed.

Lemma route_mac_ok rs d m : Forall (fun r => mac_ok (r_gw_mac r)) rs -> sotnet_route_lookup rs d = Some m -> mac_ok m.
Proof.
  intros Hr H. unfold sotnet_route_lookup in H. destruct (fold_left _ _ _).1 as [b|]; [|done]. destruct (mac_is_zero _); [done|]. injection H as <-.
  destruct (rs !! b) as [r|] eqn:E; simpl; [by rewrite Forall_lookup in Hr; eapply Hr|]. split; [done|]. unfold is_byte. by repeat (apply Forall_cons; split; [lia|]).
Qed.

Lemma tcp_frame_ok x c flags ip_id data : rest_ok x -> conn_ok c -> is_byte flags -> r16 ip_id -> Forall is_byte data ->
  (length data <= 256)%nat -> wire_ok (tcp_frame x c flags ip_id data).
Proof.
  intros Hr Hc Hf Hid Hd Hl. unfold tcp_frame. set (opts := if has_flag flags TCP_FLAG_SYN then LINUX_SYNACK_OPTS else []).
  assert (Forall is_byte opts /\ (length opts <= 12)%nat) as [Ho Hol].
  { unfold opts. destruct (has_flag _ _); [|split; [constructor|simpl; lia]]. split; [|done]. unfold LINUX_SYNACK_OPTS, is_byte. by repeat (apply Forall_cons; split; [lia|]). }
  destruct (ro_macs _ Hr) as [[Hm Hmb] Hrs]. destruct (ro_ip _ Hr) as [_ Hip]. destruct (co_ids _ Hc) as (_&Hrip&_).
  assert (mac_ok (default (replicate 6 0xFF) (sotnet_route_lookup (g_routes x) (c_remote_ip_be c)))) as [Hdl Hdb].
  { destruct (sotnet_route_lookup _ _) as [m|] eqn:E; simpl; [by eapply route_mac_ok|]. split; [done|]. unfold is_byte. by repeat (apply Forall_cons; split; [lia|]). }
  replace (20 + Z.of_nat (length opts) + Z.of_nat (length data)) with (20 + Z.of_nat (length (opts ++ data))) by (rewrite length_app; lia).
  apply frame_wire_ok; try done.
  - unfold is_byte. pose proof (u8_range (Z.shiftl ((20 + Z.of_nat (length opts)) / 4) 4)). powers. lia.
  - by apply Forall_app_2.
  - rewrite length_app. lia.
  - rewrite u16_small by (powers; lia). rewrite length_app. lia.
Qed.

Lemma next_ip_id_ok x : net_ok x -> net_ok (sotfp_next_ip_id x).2 /\ r16 (sotfp_next_ip_id x).1.
Proof. intros [Ht Hc [] Hl]. split; [|apply u16_range]. split; [done|done| |done]. split; try done. split; [apply u16_range|]. cbn. by destruct ro_ip0. Qed.

Lemma virtio_tx_ok f x : net_ok x -> wire_ok f -> net_ok (virtio_net_tx f x).2.
Proof. intros Hx Hf. unfold virtio_net_tx. repeat case_match; try done. by apply net_ok_out. Qed.

(** A segment changes only the retransmission fields of its connection. *)
Lemma send_conn i flags data x j : tab x -> exists tx fl last,
  conn_at (tcp_send_segment i flags data x).2 j = if decide (i = j) then set_tx tx fl last (conn_at x i) else conn_at x j.
Proof.
  intros Ht. assert (forall c, set_tx (c_tx c) (c_tx_flags c) (c_last_tx_ms c) c = c) as Hid by (by intros []).
  assert (exists tx fl last, conn_at x j = if decide (i = j) then set_tx tx fl last (conn_at x i) else conn_at x j) as Hsame.
  { exists (c_tx (conn_at x i)), (c_tx_flags (conn_at x i)), (c_last_tx_ms (conn_at x i)). rewrite Hid. by case_decide; subst. }
  unfold tcp_send_segment. cbv zeta. destruct (_ >? TCP_TX_BUF_SIZE); [exact Hsame|]. destruct (_ >? 1500); [exact Hsame|].
  destruct (if has_flag flags TCP_FLAG_SYN then (0, x) else sotfp_next_ip_id x) as [id x1] eqn:E1.
  assert (g_tcp_conns x1 = g_tcp_conns x) as Ec by (unfold sotfp_next_ip_id in E1; by case_match; simplify_eq/=).
  assert (forall k, conn_at x1 k = conn_at x k) as Ea by (intros; unfold conn_at; by rewrite Ec).
  assert (forall y f, conn_at (virtio_net_tx f y).2 j = conn_at y j) as Ev by (intros y f; unfold virtio_net_tx; by repeat case_match).
  rewrite Ev. destruct (decide (i < TCP_CONN_MAX)%nat) as [Hi|Hi].
  - rewrite conn_at_upd by (done || by unfold tab; rewrite Ec). rewrite !Ea. eauto.
  - destruct Hsame as (a&b&c&Hs). exists (c_tx (conn_at x i)), (c_tx_flags (conn_at x i)), (c_last_tx_ms (conn_at x i)). rewrite Hid.
    unfold upd_conn, conn_at at 1. cbn [g_tcp_conns with_conns]. rewrite list_insert_ge by (rewrite Ec, Ht; lia). rewrite Ec. by case_decide; subst.
Qed.

Lemma net_ok_send i flags data x : net_ok x -> c_in_use (conn_at x i) = true -> is_byte flags -> Forall is_byte data ->
  net_ok (tcp_send_segment i flags data x).2.
Proof.
  intros Hx Hu Hf Hd. unfold tcp_send_segment. cbv zeta. destruct (_ >? TCP_TX_BUF_SIZE) eqn:Ez; [done|]. destruct (_ >? 1500); [done|]. rewrite Z.gtb_ltb in Ez. bool_to_prop.
  destruct (if has_flag flags TCP_FLAG_SYN then (0, x) else sotfp_next_ip_id x) as [id x1] eqn:E1.
  assert (net_ok x1 /\ r16 id) as [Hx1 Hid].
  { case_match; [simplify_eq; split; [done|unfold r16; lia]|]. pose proof (next_ip_id_ok x Hx) as [? ?]. by rewrite E1 in *. }
  assert (conn_at x1 i = conn_at x i) as Ec by (unfold sotfp_next_ip_id in E1; by case_match; simplify_eq/=). rewrite Ec.
  assert (Z.of_nat (length data) <= 256) as Hl by (unfold TCP_TX_BUF_SIZE in *; case_match; simpl in *; lia).
  pose proof (no_conns _ Hx i) as Hc.
  apply virtio_tx_ok; [|apply tcp_frame_ok; try done; [apply Hx1|lia]]. rewrite <- Ec in Hu, Hc. apply net_ok_upd; [done| |by rewrite Ec].
  destruct Hc. rewrite Ec in *. split; simpl; try done; try (intros; congruence).
  - split; [|by destruct co_times0]. destruct (_ || _); [apply (ro_clock _ (no_rest _ Hx1))|by destruct co_times0].
  - destruct co_tx0 as (?&?&?&?). split; [by destruct (_ >? 0)|]. split; [destruct (_ >? 0); [unfold TCP_TX_BUF_SIZE; lia|done]|]. done.
Qed.

(** What a segment leaves alone. *)
Lemma send_proj {A} (p : tcp_conn -> A) i flags data x j : tab x -> (forall tx fl last c, p (set_tx tx fl last c) = p c) ->
  p (conn_at (tcp_send_segment i flags data x).2 j) = p (conn_at x j).
Proof. intros Ht Hp. destruct (send_conn i flags data x j Ht) as (tx&fl&last&->). case_decide; [subst; apply Hp|done]. Qed.
Lemma send_tab i flags data x : tab x -> tab (tcp_send_segment i flags data x).2.
Proof.
  intros Ht. unfold tcp_send_segment. cbv zeta. destruct (_ >? TCP_TX_BUF_SIZE); [done|]. destruct (_ >? 1500); [done|].
  destruct (if has_flag flags TCP_FLAG_SYN then (0, x) else sotfp_next_ip_id x) as [id x1] eqn:E1.
  assert (tab x1) by (unfold sotfp_next_ip_id in E1; by case_match; simplify_eq/=).
  assert (forall y f, tab y -> tab (virtio_net_tx f y).2) as Ev by (intros y f; unfold virtio_net_tx; by repeat case_match). by apply Ev, tab_upd.
Qed.

#[local] Create HintDb tcp.

(** A connection with a few fields replaced. *)
Ltac conn_tac :=
  match goal with
  | Hc : conn_ok ?c |- conn_ok _ =>
      let H := fresh in pose proof Hc as H; destruct H as [? ? (?&?&?&?&?) (?&?&?) (?&?) (?&?) (?&?&?&?) (?&?) (?&?) ? ?];
      split; simpl; intros; split_and?; try done; try congruence; unfold rx_len in *; simpl in *; try tauto
  end.

Definition steady (s : tcp_state) : Prop := s <> TCP_STATE_CLOSED /\ s <> TCP_STATE_LISTEN /\ ~ half_open s.

Lemma set_state_ok s c : conn_ok c -> c_in_use c = true -> steady s -> conn_ok (set_cstate s c).
Proof. intros Hc Hu (?&?&?). conn_tac. Qed.
Lemma set_snd_ok nxt una c : conn_ok c -> c_in_use c = true -> (half_open (c_state c) -> una = nxt) -> r32 nxt -> r32 una -> conn_ok (set_snd nxt una c).
Proof. intros Hc Hu Hh ? ?. conn_tac. Qed.
Lemma set_rcv_ok nxt c : conn_ok c -> c_in_use c = true -> r32 nxt -> conn_ok (set_rcv nxt c).
Proof. intros Hc Hu ?. conn_tac. Qed.
Lemma set_tw_ok t c : conn_ok c -> c_in_use c = true -> r32 t -> conn_ok (set_tw_tick t c).
Proof. intros Hc Hu ?. conn_tac. Qed.
Lemma set_retx_ok n c : conn_ok c -> c_in_use c = true -> 0 <= n <= TCP_RETX_MAX -> conn_ok (set_retx n c).
Proof. intros Hc Hu ?. conn_tac. Qed.
Lemma set_wnd_ok w c : conn_ok c -> c_in_use c = true -> r32 w -> conn_ok (set_snd_wnd w c).
Proof. intros Hc Hu ?. conn_tac. Qed.
Lemma set_wscale_ok w c : conn_ok c -> c_in_use c = true -> 0 <= w <= 14 -> conn_ok (set_wscale w c).
Proof. intros Hc Hu ?. conn_tac. Qed.
Lemma set_rx_ok rx c : conn_ok c -> c_in_use c = true -> Forall is_byte rx -> Z.of_nat (length rx) <= TCP_RX_BUF_SIZE -> conn_ok (set_rx rx c).
Proof. intros Hc Hu ? ?. conn_tac. Qed.
Lemma set_counts_ok rb tb c : conn_ok c -> c_in_use c = true -> 0 <= rb < 2 ^ 64 -> 0 <= tb < 2 ^ 64 -> conn_ok (set_counts rb tb c).
Proof. intros Hc Hu ? ?. conn_tac. Qed.
Lemma set_listen_ok s c : conn_ok c -> c_in_use c = true -> -1 <= s < Z.of_nat TCP_CONN_MAX -> conn_ok (set_listen_slot s c).
Proof. intros Hc Hu ?. conn_tac. Qed.
Lemma set_owned_ok b c : conn_ok c -> c_in_use c = true -> conn_ok (set_app_owned b c).
Proof. intros Hc Hu. conn_tac. Qed.
#[local] Hint Resolve set_state_ok set_snd_ok set_rcv_ok set_tw_ok set_retx_ok set_wnd_ok set_wscale_ok set_rx_ok set_counts_ok set_listen_ok set_owned_ok : tcp.
Lemma r32_u32 z : r32 (u32 z).
Proof. apply u32_range. Qed.
#[local] Hint Resolve r32_u32 u64_range : tcp.

(** Handlers keep the invariant. *)
Lemma send_in_use i flags data x j : tab x -> c_in_use (conn_at (tcp_send_segment i flags data x).2 j) = c_in_use (conn_at x j).
Proof. intros Ht. by apply send_proj. Qed.
Lemma send_state i flags data x j : tab x -> c_state (conn_at (tcp_send_segment i flags data x).2 j) = c_state (conn_at x j).
Proof. intros Ht. by apply send_proj. Qed.

(** A segment followed by an update that ends in a steady state. *)
Lemma upd_steady_ok i f x : net_ok x -> conn_ok (f (conn_at x i)) -> steady (c_state (f (conn_at x i))) -> net_ok (upd_conn i f x).
Proof. intros Hx Hf (_&Hl&_). by apply net_ok_upd. Qed.
Lemma upd_keep_ok i f x : net_ok x -> conn_ok (f (conn_at x i)) -> c_state (f (conn_at x i)) = c_state (conn_at x i) ->
  c_local_port_be (f (conn_at x i)) = c_local_port_be (conn_at x i) -> net_ok (upd_conn i f x).
Proof. intros Hx Hf Hs Hp. apply net_ok_upd; [done|done|]. by rewrite Hs. Qed.

Lemma state_steady s : s = TCP_STATE_ESTABLISHED \/ s = TCP_STATE_FIN_WAIT_1 \/ s = TCP_STATE_FIN_WAIT_2 \/ s = TCP_STATE_CLOSE_WAIT \/ s = TCP_STATE_CLOSING
  \/ s = TCP_STATE_LAST_ACK \/ s = TCP_STATE_TIME_WAIT -> steady s.
Proof. unfold steady, half_open. intuition congruence. Qed.
Ltac steady_tac := apply state_steady; tauto.

Lemma close_ok i x : net_ok x -> net_ok (sotnet_tcp_close i x).
Proof.
  intros Hx. unfold sotnet_tcp_close. destruct (c_in_use (conn_at x i)) eqn:Hu; [|done]. cbn [negb].
  assert (forall s, c_state (conn_at x i) = TCP_STATE_ESTABLISHED \/ c_state (conn_at x i) = TCP_STATE_CLOSE_WAIT -> steady s ->
    net_ok (upd_conn i (fun c => set_cstate s (set_snd (u32 (c_snd_nxt c + 1)) (c_snd_una c) c)) (tcp_send_segment i (Z.lor TCP_FLAG_FIN TCP_FLAG_ACK) [] x).2)) as Hfin.
  { intros s Hs Hst. assert (net_ok (tcp_send_segment i (Z.lor TCP_FLAG_FIN TCP_FLAG_ACK) [] x).2) as Hy by (by apply net_ok_send).
    assert (c_in_use (conn_at (tcp_send_segment i (Z.lor TCP_FLAG_FIN TCP_FLAG_ACK) [] x).2 i) = true) as Hu' by (by rewrite send_in_use by apply Hx).
    pose proof (send_state i (Z.lor TCP_FLAG_FIN TCP_FLAG_ACK) [] x i (no_tab _ Hx)) as Es'. revert Hy Hu' Es'. generalize (tcp_send_segment i (Z.lor TCP_FLAG_FIN TCP_FLAG_ACK) [] x).2. intros y Hy Hu' Es'.
    apply upd_steady_ok; [done| |done]. pose proof (no_conns _ Hy i) as Hc. destruct (co_seqs _ Hc) as (_&?&_).
    apply set_state_ok; [|done|done]. apply set_snd_ok; auto with tcp. rewrite Es'. intros [E|E]; rewrite E in Hs; intuition congruence. }
  destruct (c_state (conn_at x i)) eqn:Es; try (by apply net_ok_free, net_ok_out); apply Hfin; try tauto; steady_tac.
Qed.

Lemma ack_fin_ok i s x : net_ok x -> c_in_use (conn_at x i) = true -> steady s -> net_ok (ack_fin i s x) /\ c_in_use (conn_at (ack_fin i s x) i) = true.
Proof.
  intros Hx Hu Hs. unfold ack_fin. pose proof (in_use_below x i (no_tab _ Hx) Hu) as Hi. pose proof (no_conns _ Hx i) as Hc.
  assert (net_ok (upd_conn i (fun c => set_rcv (u32 (c_rcv_nxt c + 1)) c) x)) as H1 by (apply upd_keep_ok; auto with tcp).
  set (x1 := upd_conn i _ x) in *. assert (c_in_use (conn_at x1 i) = true) as Hu1 by (unfold x1; by rewrite conn_at_same by (done || apply Hx)).
  assert (net_ok (tcp_send_segment i TCP_FLAG_ACK [] x1).2) as H2 by (by apply net_ok_send).
  assert (c_in_use (conn_at (tcp_send_segment i TCP_FLAG_ACK [] x1).2 i) = true) as Hu2 by (by rewrite send_in_use by apply H1).
  split; [|by rewrite conn_at_same by (done || apply H2)]. apply upd_steady_ok; [done| |done]. apply set_state_ok; [apply H2|done|done].
Qed.

Lemma on_fin_ok i frame x : net_ok x -> net_ok (tcp_close_on_fin i frame x).
Proof.
  intros Hx. unfold tcp_close_on_fin. destruct (c_in_use (conn_at x i)) eqn:Hu; [|done]. cbn [negb]. destruct (tcp_off frame) as [off|]; [|done].
  cbv zeta. destruct (negb _); [done|].
  destruct (c_state (conn_at x i)) eqn:Es; try done; try (apply ack_fin_ok; [done|done|steady_tac]).
  destruct (ack_fin_ok i TCP_STATE_TIME_WAIT x Hx Hu ltac:(steady_tac)) as [Hy Huy]. apply net_ok_out; [|done].
  revert Hy Huy. generalize (ack_fin i TCP_STATE_TIME_WAIT x). intros y Hy Huy. apply upd_keep_ok; [done| |done|done]. apply set_tw_ok; [apply Hy|done|apply Hx].
Qed.

Lemma on_finack_ok i x : net_ok x -> net_ok (tcp_close_on_finack i x).
Proof.
  intros Hx. unfold tcp_close_on_finack. destruct (c_in_use (conn_at x i)) eqn:Hu; [|done]. cbn [negb]. pose proof (no_conns _ Hx i) as Hc.
  destruct (c_state (conn_at x i)) eqn:Es; try done; try (by apply net_ok_free, net_ok_out).
  - apply upd_steady_ok; [done| |simpl; steady_tac]. apply set_state_ok; [done|done|steady_tac].
  - apply upd_steady_ok; [done| |simpl; steady_tac]. apply set_tw_ok; [apply set_state_ok; [done|done|steady_tac]|done|apply Hx].
Qed.

Lemma dequeue_ok port x : net_ok x -> net_ok (tcp_accept_dequeue port x).2 /\ (forall i, (tcp_accept_dequeue port x).1 = Some i -> c_in_use (conn_at (tcp_accept_dequeue port x).2 i) = true).
Proof.
  intros Hx. unfold tcp_accept_dequeue. destruct (first_below _ _) as [i|] eqn:E; [|done]. apply first_below_Some in E as (Hi&Hp&_). apply andb_true_iff in Hp as [Hu _].
  pose proof (no_conns _ Hx i) as Hc. split.
  - apply upd_keep_ok; [done| |done|done]. apply set_listen_ok; [done|done|unfold TCP_CONN_MAX; lia].
  - intros j [= <-]. cbn [snd]. by rewrite conn_at_same by (done || apply Hx).
Qed.

Lemma do_accept_ok w x : net_ok x -> net_ok (do_accept w x).2.
Proof.
  intros Hx. unfold do_accept. destruct (dequeue_ok lucas_default_local_port_be x Hx) as [Hy Hu]. destruct (tcp_accept_dequeue _ x) as [[i|] y]; [|done].
  specialize (Hu i eq_refl). cbn [snd] in *. destruct (aw_outcome w); cbn [snd]; [|done|by apply close_ok].
  apply net_ok_out; [|done]. apply upd_keep_ok; [done| |done|done]. apply set_owned_ok; [apply Hy|done].
Qed.

Lemma with_acceptors_ok ws x : net_ok x -> net_ok (with_acceptors ws x).
Proof. by intros [? ? [] ?]. Qed.
Lemma wake_ok x : net_ok x -> net_ok (lucas_accept_wake_waiter x).
Proof.
  intros Hx. unfold lucas_accept_wake_waiter. destruct (n_acceptors x) as [|w ws]; [done|]. pose proof (do_accept_ok w x Hx) as H.
  destruct (do_accept w x) as [[i|] y]; [by apply with_acceptors_ok|done].
Qed.

(** The fields of a frame of bytes are in range. *)
Lemma field_r16 f off : Forall is_byte f -> r16 (field f off 2).
Proof. exact (field_range f off 2). Qed.
Lemma field_r32 f off : Forall is_byte f -> r32 (field f off 4).
Proof. exact (field_range f off 4). Qed.
#[local] Hint Resolve field_r16 field_r32 : tcp.

Lemma wscale_range fuel opts : Forall is_byte opts -> 0 <= wscale_loop fuel opts <= 14.
Proof.
  revert opts. induction fuel as [|fuel IH]; intros opts Ho; cbn [wscale_loop]; [lia|]. destruct opts as [|k opts]; [lia|].
  repeat (case_match; try lia); try (apply IH; by (apply Forall_drop || apply Forall_cons in Ho as [_ ?])).
  rewrite Forall_lookup in Ho. destruct ((k :: z :: l) !! 2%nat) as [w|] eqn:E; simpl in *; [|lia]. pose proof (Ho 2%nat _ E). unfold is_byte in *. rewrite Z.gtb_ltb in *. bool_to_prop. lia.
Qed.

Lemma alloc_spec x : tab x ->
  match (tcp_conn_alloc x).1 with
  | Some i => (i < TCP_CONN_MAX)%nat /\ c_in_use (conn_at x i) = false /\ (tcp_conn_alloc x).2 = upd_conn i (fun _ => alloc_conn) x
  | None => (forall i, (i < TCP_CONN_MAX)%nat -> c_in_use (conn_at x i) = true) /\ (tcp_conn_alloc x).2 = x
  end.
Proof.
  intros Ht. unfold tcp_conn_alloc. destruct (first_below _ _) as [i|] eqn:E; cbn [fst snd].
  - apply first_below_Some in E as (?&H%negb_true_iff&_). done.
  - split; [|done]. intros i Hi. pose proof (first_below_None _ _ _ E Hi) as H. by apply negb_false_iff in H.
Qed.

Lemma net_ok_new i f x : net_ok x -> (i < TCP_CONN_MAX)%nat -> c_in_use (conn_at x i) = false -> conn_ok (f alloc_conn) ->
  (c_state (f alloc_conn) = TCP_STATE_LISTEN -> forall j, ~ listening x j (c_local_port_be (f alloc_conn))) ->
  net_ok (upd_conn i f (upd_conn i (fun _ => alloc_conn) x)).
Proof.
  intros Hx Hi Hu Hf Hl. rewrite conn_upd_upd by (done || apply Hx). destruct Hx as [Ht Hc Hr Hone]. split; [by apply tab_upd| |by destruct Hr|].
  - intros j. rewrite conn_at_upd by done. by case_decide.
  - assert (forall j port, listening (upd_conn i (fun _ => f alloc_conn) x) j port ->
      (j = i /\ c_state (f alloc_conn) = TCP_STATE_LISTEN /\ port = c_local_port_be (f alloc_conn)) \/ (listening x j port /\ j <> i)) as Hle.
    { intros j port. unfold listening. rewrite conn_at_upd by done. case_decide; [subst|auto]. intros [? ?]. left. done. }
    intros j k port Hj Hk. destruct (Hle _ _ Hj) as [(->&Es&->)|[Hj' _]], (Hle _ _ Hk) as [(->&Ek&Ep)|[Hk' _]]; try done.
    + by destruct (Hl Es k).
    + rewrite Ep in Hj'. by destruct (Hl Ek j).
    + by eapply Hone.
Qed.

Lemma with_conn_id_ok n x : net_ok x -> 1 <= n < 2 ^ 16 -> net_ok (with_conn_id n x).
Proof. by intros [? ? [] ?] ?. Qed.
Lemma with_inbound_ok n x : net_ok x -> r32 n -> net_ok (with_inbound n x).
Proof. by intros [? ? [] ?] ?. Qed.

Lemma find_listen_spec x port : tab x -> tcp_conn_find_listen x port = None -> forall j, conn_ok (conn_at x j) -> ~ listening x j port.
Proof.
  intros Ht Hn j Hc [Hs Hp]. destruct (c_in_use (conn_at x j)) eqn:Hu; [|by rewrite (co_free _ Hc Hu) in Hs].
  pose proof (first_below_None _ _ j Hn (in_use_below x j Ht Hu)) as H. cbv beta zeta in H. rewrite Hu, Hs, Hp, Z.eqb_refl in H. by rewrite bool_decide_true in H.
Qed.

Lemma learn_wscale_ok i frame off tcp x : net_ok x -> c_in_use (conn_at x i) = true -> Forall is_byte frame ->
  net_ok (learn_wscale i frame off tcp x) /\ c_in_use (conn_at (learn_wscale i frame off tcp x) i) = true.
Proof.
  intros Hx Hu Hf. unfold learn_wscale, peer_wscale_of. destruct (_ && _); [|done].
  pose proof (in_use_below x i (no_tab _ Hx) Hu). pose proof (no_conns _ Hx i). split; [|by rewrite conn_at_same by (done || apply Hx)].
  apply upd_keep_ok; [done| |done|done]. apply set_wscale_ok; [done|done|]. apply wscale_range. unfold bytes_at. by apply Forall_take, Forall_drop.
Qed.

(** The slot of a connection that answers a SYN, and of one that sends a SYN. *)
Definition syn_rcvd_conn (cid li ips sp dp isn rcv : Z) (c : tcp_conn) : tcp_conn :=
  set_rcv rcv (set_snd isn isn (set_ids cid li 0 (set_peer ips sp dp (set_cstate TCP_STATE_SYN_RCVD (set_counts 0 0 c))))).
Definition syn_sent_conn (ip port lport pid isn : Z) (c : tcp_conn) : tcp_conn :=
  set_rcv 0 (set_snd isn isn (set_ids (c_conn_id c) (-1) pid (set_peer ip port lport (set_cstate TCP_STATE_SYN_SENT c)))).
Lemma syn_rcvd_ok i cid li ips sp dp isn rcv x : net_ok x -> (i < TCP_CONN_MAX)%nat -> c_in_use (conn_at x i) = false ->
  r16 cid -> -1 <= li < Z.of_nat TCP_CONN_MAX -> r32 ips -> r16 sp -> r16 dp -> r32 isn -> r32 rcv ->
  net_ok (upd_conn i (syn_rcvd_conn cid li ips sp dp isn rcv) (upd_conn i (fun _ => alloc_conn) x)).
Proof.
  intros Hx Hi Hu. intros. apply net_ok_new; [done|done|done| |done].
  split; simpl; intros; try done; split_and?; try done; try (unfold r16, r32, is_byte, rx_len, TCP_CONN_MAX in *; simpl; lia); try constructor.
Qed.
Lemma syn_sent_ok i ip port lport pid isn x : net_ok x -> (i < TCP_CONN_MAX)%nat -> c_in_use (conn_at x i) = false ->
  r32 ip -> r16 port -> r16 lport -> r32 pid -> r32 isn ->
  net_ok (upd_conn i (syn_sent_conn ip port lport pid isn) (upd_conn i (fun _ => alloc_conn) x)).
Proof.
  intros Hx Hi Hu. intros. apply net_ok_new; [done|done|done| |done].
  split; simpl; intros; try done; split_and?; try done; try (unfold r16, r32, is_byte, rx_len, TCP_CONN_MAX in *; simpl; lia); try constructor.
Qed.

Lemma next_conn_id_ok x : net_ok x -> 1 <= (if u16 (g_conn_id_next x + 1) =? 0 then 1 else u16 (g_conn_id_next x + 1)) < 2 ^ 16.
Proof. intros Hx. pose proof (ro_next _ (no_rest _ Hx)). pose proof (u16_range (g_conn_id_next x + 1)). destruct (Z.eqb_spec (u16 (g_conn_id_next x + 1)) 0); powers; lia. Qed.

Lemma on_syn_ok isn frame x : net_ok x -> Forall is_byte frame -> r32 isn -> net_ok (tcp_server_on_syn isn frame x).
Proof.
  intros Hx Hf Hi. unfold tcp_server_on_syn. destruct (tcp_off frame) as [off|]; [|done]. cbv zeta. destruct (tcp_conn_find_listen _ _); [|done].
  destruct (find_listen_slot_index _ _) as [li|] eqn:El; [|done]. apply first_below_Some in El as (Hli&_).
  pose proof (alloc_spec x (no_tab _ Hx)) as Ha. destruct (tcp_conn_alloc x) as [[i|] x1]; cbn [fst snd] in Ha; [|by destruct Ha as [_ ->]]. destruct Ha as (Hi32&Hu&->).
  pose proof (ro_next _ (no_rest _ Hx)) as Hn.
  match goal with |- context [learn_wscale i frame off _ (upd_conn i ?f (with_conn_id ?n ?y))] =>
    change (upd_conn i f (with_conn_id n y)) with (with_conn_id n (upd_conn i (syn_rcvd_conn (g_conn_id_next x) (Z.of_nat li) (ip_src (ip_at frame)) (th_src_port (tcp_at frame off)) (th_dst_port (tcp_at frame off)) isn (u32 (tcp_ntohl_ (th_seq (tcp_at frame off)) + 1))) y)); set (n' := n) end.
  match goal with |- context [learn_wscale i frame off _ ?y] => assert (net_ok y) as H1; [|set (x1 := y) in *] end.
  { apply with_conn_id_ok; [|exact (next_conn_id_ok x Hx)].
    apply syn_rcvd_ok; [done|done|done|unfold r16; lia|lia|by apply (field_range _ _ 4)|by apply (field_range _ _ 2)|by apply (field_range _ _ 2)|done|apply u32_range]. }
  assert (c_in_use (conn_at x1 i) = true) as Hu1 by (unfold x1; change (conn_at (with_conn_id n' ?y)) with (conn_at y); rewrite !conn_at_same by (apply tab_upd, Hx || done || apply Hx); done).
  destruct (learn_wscale_ok i frame off (tcp_at frame off) x1 H1 Hu1 Hf) as [H2 Hu2]. apply net_ok_send; [done|done| |constructor].
  unfold sotfp_synack_flags. by destruct (_ && _).
Qed.

Lemma on_ack_ok i frame x : net_ok x -> c_in_use (conn_at x i) = true -> net_ok (tcp_server_on_ack i frame x).
Proof.
  intros Hx Hu. unfold tcp_server_on_ack. destruct (tcp_off frame) as [off|]; [|done]. cbv zeta. destruct (negb _); [done|]. destruct (negb _); [done|].
  pose proof (no_conns _ Hx i) as Hc.
  match goal with |- context [lucas_accept_wake_waiter ?y] => assert (net_ok y) as H1; [|pose proof (wake_ok y H1) as H2; set (z := lucas_accept_wake_waiter y) in *] end.
  { apply net_ok_out; [|done]. apply with_inbound_ok; [|apply u32_range]. apply upd_steady_ok; [done| |simpl; steady_tac].
    apply set_state_ok; [|done|steady_tac]. apply set_snd_ok; auto with tcp. }
  apply net_ok_out; [|done]. destruct (_ =? 22); [by apply net_ok_out|done].
Qed.

Lemma passive_ok port x : net_ok x -> r16 port -> net_ok (tcp_passive_open port x).2.
Proof.
  intros Hx Hp. unfold tcp_passive_open. destruct (tcp_conn_find_listen x port) eqn:El; [done|].
  pose proof (alloc_spec x (no_tab _ Hx)) as Ha. destruct (tcp_conn_alloc x) as [[i|] x1]; cbn [fst snd] in *; [|by destruct Ha as [_ ->]]. destruct Ha as (Hi&Hu&->).
  apply net_ok_new; [done|done|done| |].
  - split; simpl; intros; try done; split_and?; try done; try (unfold r16, r32, is_byte, rx_len, TCP_CONN_MAX in *; simpl; lia); try constructor.
  - intros _ j. simpl. apply find_listen_spec; [apply Hx|done|apply Hx].
Qed.

Lemma active_ok ip port pid rnd isn x : net_ok x -> r32 ip -> r16 port -> r32 pid -> r32 isn -> net_ok (tcp_active_open ip port pid rnd isn x).2.
Proof.
  intros Hx Hip Hport Hpid Hisn. unfold tcp_active_open. pose proof (alloc_spec x (no_tab _ Hx)) as Ha.
  destruct (tcp_conn_alloc x) as [[i|] x1]; cbn [fst snd] in *; [|by destruct Ha as [_ ->]]. destruct Ha as (Hi&Hu&->).
  set (lport := tcp_htons_ _). match goal with |- context [upd_conn i ?f (upd_conn i ?g x)] => change f with (syn_sent_conn ip port lport pid isn); set (y := upd_conn i (syn_sent_conn ip port lport pid isn) (upd_conn i g x)) end.
  assert (net_ok y) as H1 by (apply syn_sent_ok; try done; apply u16_range).
  assert (c_in_use (conn_at y i) = true) as Hu1 by (unfold y; rewrite !conn_at_same by (apply tab_upd, Hx || done || apply Hx); done).
  pose proof (net_ok_send i TCP_FLAG_SYN [] y H1 Hu1 ltac:(done) ltac:(constructor)) as H2. destruct (tcp_send_segment i TCP_FLAG_SYN [] y) as [rc z]. cbn [snd] in *.
  destruct (negb _); [by apply net_ok_free|done].
Qed.

Lemma synack_ok i frame x : net_ok x -> c_in_use (conn_at x i) = true -> Forall is_byte frame -> net_ok (tcp_client_on_synack i frame x).
Proof.
  intros Hx Hu Hf. unfold tcp_client_on_synack. cbv zeta. destruct (negb _); [done|]. destruct (tcp_off frame) as [off|]; [|done].
  destruct (negb _); [done|]. destruct (negb _); [done|]. pose proof (no_conns _ Hx i) as Hc. pose proof (in_use_below x i (no_tab _ Hx) Hu) as Hi.
  match goal with |- context [learn_wscale i frame off _ ?y] => assert (net_ok y) as H1; [|set (x1 := y) in *] end.
  { apply upd_steady_ok; [done| |simpl; steady_tac]. apply set_state_ok; [|done|steady_tac]. apply set_snd_ok; auto with tcp. }
  assert (c_in_use (conn_at x1 i) = true) as Hu1 by (unfold x1; by rewrite conn_at_same by (done || apply Hx)).
  destruct (learn_wscale_ok i frame off (tcp_at frame off) x1 H1 Hu1 Hf) as [H2 Hu2]. set (x2 := learn_wscale i frame off _ x1) in *.
  pose proof (net_ok_send i TCP_FLAG_ACK [] x2 H2 Hu2 ltac:(done) ltac:(constructor)) as H3. destruct (tcp_send_segment i TCP_FLAG_ACK [] x2) as [rc z]. cbn [snd] in *.
  destruct (negb _); [by apply net_ok_free|by apply net_ok_out].
Qed.

Lemma send_data_ok i buf x : net_ok x -> Forall is_byte buf -> net_ok (tcp_send_data i buf x).2.
Proof.
  intros Hx Hb. unfold tcp_send_data. destruct (_ && _) eqn:Es; [done|]. destruct (_ =? 0)%nat; [done|].
  assert (c_in_use (conn_at x i) = true) as Hu.
  { destruct (c_in_use (conn_at x i)) eqn:E; [done|]. by rewrite (co_free _ (no_conns _ Hx i) E) in Es. }
  assert (~ half_open (c_state (conn_at x i))) as Hh.
  { intros [E|E]; rewrite E in Es; done. }
  pose proof (net_ok_send i (Z.lor TCP_FLAG_ACK TCP_FLAG_PSH) (take (Z.to_nat TCP_TX_BUF_SIZE) buf) x Hx Hu ltac:(done) ltac:(by apply Forall_take)) as H1.
  pose proof (send_in_use i (Z.lor TCP_FLAG_ACK TCP_FLAG_PSH) (take (Z.to_nat TCP_TX_BUF_SIZE) buf) x i (no_tab _ Hx)) as Hu1. rewrite Hu in Hu1.
  pose proof (send_state i (Z.lor TCP_FLAG_ACK TCP_FLAG_PSH) (take (Z.to_nat TCP_TX_BUF_SIZE) buf) x i (no_tab _ Hx)) as Hs1.
  destruct (tcp_send_segment _ _ _ x) as [rc z]. cbn [snd] in *. destruct (rc =? 0); cbn [negb snd]; [|done]. pose proof (no_conns _ H1 i) as Hc. destruct (co_seqs _ Hc) as (_&?&_). destruct (co_counts _ Hc) as [? _].
  apply upd_keep_ok; [done| |done|done]. apply set_counts_ok; [|done|done|apply u64_range]. apply set_snd_ok; auto with tcp. rewrite Hs1. done.
Qed.

Lemma payload_ok i sq data x : net_ok x -> c_in_use (conn_at x i) = true -> Forall is_byte data -> net_ok (tcp_take_payload i sq data x).
Proof.
  intros Hx Hu Hd. unfold tcp_take_payload. cbv zeta. pose proof (no_conns _ Hx i) as Hc. destruct (co_rx _ Hc) as [Hr Hl]. destruct (co_counts _ Hc) as [_ Ht]. pose proof (in_use_below x i (no_tab _ Hx) Hu) as Hi.
  match goal with |- context [upd_conn i _ ?y] => assert (net_ok y /\ conn_at y i = conn_at x i) as [Hy Ey]; [|set (z := y) in *] end.
  { destruct (is_bridged _); (split; [|done]); repeat (apply net_ok_out; [|done]); done. }
  match goal with |- net_ok (tcp_send_segment i _ _ ?y).2 => assert (net_ok y /\ c_in_use (conn_at y i) = true) as [Hy2 Hu2]; [|by apply net_ok_send] end.
  destruct (_ && _); (split; [|by rewrite conn_at_same, Ey by (done || apply Hy)]).
  - apply upd_keep_ok; [done| |by rewrite Ey|by rewrite Ey]. rewrite Ey. apply set_counts_ok; [|done|apply u64_range|done]. by apply set_rcv_ok; [|done|apply u32_range].
  - apply upd_keep_ok; [done| |by rewrite Ey|by rewrite Ey]. rewrite Ey. apply set_counts_ok; [|done|apply u64_range|done]. apply set_rcv_ok; [|done|apply u32_range].
    apply set_rx_ok; [done|done|by apply Forall_app_2; [|apply Forall_take]|]. rewrite length_app, length_take. unfold rx_len in *.
    destruct (Z.ltb_spec (Z.of_nat (length (c_rx (conn_at x i)))) TCP_RX_BUF_SIZE); case_match; bool_to_prop; lia.
Qed.

Lemma data_ok i frame x : net_ok x -> c_in_use (conn_at x i) = true -> c_state (conn_at x i) = TCP_STATE_ESTABLISHED -> Forall is_byte frame ->
  net_ok (tcp_data_on_segment i frame x).
Proof.
  intros Hx Hu He Hf. unfold tcp_data_on_segment. destruct (tcp_off frame) as [off|]; [|done]. cbv zeta. destruct (_ <? 20); [done|]. destruct (_ <? 14 + _ + _); [done|]. destruct (_ <? u16 _); [done|]. destruct (14 + _ >? _); [done|].
  pose proof (no_conns _ Hx i) as Hc. pose proof (in_use_below x i (no_tab _ Hx) Hu) as Hi.
  set (x1 := upd_conn i (fun c => set_snd_wnd _ c) x). assert (net_ok x1) as H1 by (apply upd_keep_ok; auto with tcp).
  assert (conn_at x1 i = set_snd_wnd (u32 (Z.shiftl (tcp_ntohs_ (th_window (tcp_at frame off))) (c_peer_wscale (conn_at x i)))) (conn_at x i)) as E1 by (unfold x1; by rewrite conn_at_same by (done || apply Hx)).
  match goal with |- context [if _ >? 0 then (if _ =? c_rcv_nxt (conn_at ?y i) then _ else _) else _] =>
    assert (net_ok y /\ c_in_use (conn_at y i) = true) as [H2 Hu2]; [|set (x2 := y) in *] end.
  { destruct (has_flag _ _ && _); [|by rewrite E1]. split; [|rewrite conn_at_same, E1 by (done || apply H1); done].
    pose proof (no_conns _ H1 i) as Hc1. destruct (co_seqs _ Hc1) as (?&_&_). assert (c_in_use (conn_at x1 i) = true) as Hu1 by by rewrite E1.
    apply upd_keep_ok; [done| |done|done]. apply set_retx_ok; [|done|unfold TCP_RETX_MAX; lia]. apply set_snd_ok; [done|done| |done|by apply htonl_range, field_r32].
    rewrite E1. intros [E|E]; simpl in E; congruence. }
  match goal with |- net_ok (if ?b then _ else _) => destruct b end; [|done]. destruct (_ =? _); [|by apply net_ok_send]. apply payload_ok; [done|done|]. unfold bytes_at. by apply Forall_take, Forall_drop.
Qed.

Lemma recv_ok i count ok x : net_ok x -> net_ok (lucas_tcp_recv_drain i count ok x).2.
Proof.
  intros Hx. unfold lucas_tcp_recv_drain. cbv zeta. destruct (rx_len (conn_at x i) =? 0) eqn:Er; [done|]. destruct ok; cbn [negb]; [|done].
  pose proof (no_conns _ Hx i) as Hc. destruct (co_rx _ Hc) as [Hr Hl].
  assert (c_in_use (conn_at x i) = true) as Hu by (destruct (c_in_use (conn_at x i)) eqn:E; [done|by rewrite (co_free _ Hc E) in Er]).
  set (x1 := upd_conn i _ x). assert (net_ok x1) as H1.
  { apply upd_keep_ok; [done| |done|done]. apply set_rx_ok; [done|done|by apply Forall_drop|]. rewrite length_drop. unfold rx_len in *. lia. }
  cbn [snd]. destruct (_ && _); [|done]. apply net_ok_send; [done| |done|constructor]. unfold x1. by rewrite conn_at_same by (apply Hx || by apply in_use_below with x; [apply Hx|]).
Qed.

Lemma lookup_spec x ip rp lp i : tcp_conn_lookup x ip rp lp = Some i ->
  (i < TCP_CONN_MAX)%nat /\ c_in_use (conn_at x i) = true /\ c_state (conn_at x i) <> TCP_STATE_LISTEN
  /\ c_remote_ip_be (conn_at x i) = ip /\ c_remote_port_be (conn_at x i) = rp /\ c_local_port_be (conn_at x i) = lp.
Proof. intros (Hi&Hp&_)%first_below_Some. cbv zeta in Hp. bool_to_prop. done. Qed.

Lemma send_rst_ok frame x : net_ok x -> Forall is_byte frame -> net_ok (send_rst frame x).
Proof.
  intros Hx Hf. unfold send_rst. destruct (tcp_off frame) as [off|] eqn:Eo; [|done]. cbv zeta. apply virtio_tx_ok; [done|].
  destruct (ro_macs _ (no_rest _ Hx)) as [[Hm Hmb] _].
  apply (frame_wire_ok _ _ 40 0 _ _ _ _ _ _ _ _ 0 []); try done.
  - unfold eth_at, bytes_at. cbn [eth_src]. rewrite length_take, length_drop. unfold tcp_off in Eo. case_match; [done|]. bool_to_prop. lia.
  - unfold eth_at, bytes_at. cbn [eth_src]. by apply Forall_take, Forall_drop.
  - by apply (field_range _ _ 4).
  - by apply (field_range _ _ 4).
  - unfold sotfp_rst_fields. by destruct (has_flag _ _).
  - simpl. lia.
Qed.

Lemma packet_ok isn frame x : net_ok x -> Forall is_byte frame -> r32 isn -> net_ok (tcp_handle_packet isn frame x).
Proof.
  intros Hx Hf Hi. unfold tcp_handle_packet. destruct (tcp_off frame) as [off|]; [|done]. cbv zeta. destruct (negb _); [done|]. destruct (negb _); [done|].
  destruct (tcp_conn_lookup _ _ _ _) as [i|] eqn:El.
  - apply lookup_spec in El as (Hi32&Hu&_). destruct (has_flag _ TCP_FLAG_RST); [by apply net_ok_free|].
    destruct (c_state (conn_at x i)) eqn:Es; try done;
      try (destruct (has_flag _ _); [by apply on_fin_ok|]; destruct (has_flag _ _); [by apply on_finack_ok|done]).
    + destruct (_ && _); [by apply synack_ok|done].
    + destruct (has_flag _ _); [by apply on_ack_ok|done].
    + pose proof (data_ok i frame x Hx Hu Es Hf). destruct (has_flag _ _); [by apply on_fin_ok|done].
  - destruct (sotfp_unsolicited_action _ _); [by apply on_syn_ok|by apply send_rst_ok|done].
Qed.

Lemma timer_conn_ok now i x : net_ok x -> c_in_use (conn_at x i) = true -> net_ok (tcp_timer_conn now i x).
Proof.
  intros Hx Hu. unfold tcp_timer_conn. cbv zeta. pose proof (no_conns _ Hx i) as Hc. pose proof (in_use_below x i (no_tab _ Hx) Hu) as Hi.
  assert (net_ok (tcp_conn_free i (tcp_send_segment i TCP_FLAG_RST [] x).2)) as Hrst by (apply net_ok_free, net_ok_send; done).
  assert ((c_retx_count (conn_at x i) >=? TCP_RETX_MAX) = false ->
    net_ok (tcp_send_segment i (c_tx_flags (conn_at x i)) (c_tx (conn_at x i)) (upd_conn i (fun c => set_retx (u16 (c_retx_count c + 1)) c) x)).2) as Hretx.
  { intros Hr. rewrite Z.geb_leb in Hr. bool_to_prop. destruct (co_tx _ Hc) as (?&?&?&?). unfold TCP_RETX_MAX in *. apply net_ok_send; [|by rewrite conn_at_same by (done || apply Hx)|done|done].
    apply upd_keep_ok; [done| |done|done]. apply set_retx_ok; [done|done|]. unfold TCP_RETX_MAX. rewrite u16_small by lia. lia. }
  destruct (c_state (conn_at x i)) eqn:Es; try done.
  1-3: destruct (_ && _); [destruct (_ >=? _) eqn:Er; [done|by apply Hretx]|destruct (_ && _); done].
  all: try (destruct (_ >? _); [by apply net_ok_free|done]).
  destruct (_ && _); [by apply close_ok|done].
Qed.

Lemma iter_ok (body : nat -> net -> net) (P : net -> Prop) x :
  (forall i x, P x -> c_in_use (conn_at x i) = true -> P (body i x)) -> P x -> P (tcp_conn_iter body x).
Proof.
  intros Hb. unfold tcp_conn_iter. generalize (seq 0 TCP_CONN_MAX). intros l. revert x. induction l as [|i l IH]; intros x Hx; [done|]. cbn [fold_left].
  apply IH. destruct (c_in_use (conn_at x i)) eqn:Hu; [by apply Hb|done].
Qed.

Lemma tick_ok tsc x : net_ok x -> net_ok (tcp_timer_tick tsc x).
Proof.
  intros Hx. assert (forall now l, r32 now -> net_ok (with_clock now l x)) as Hclk by (intros; by destruct Hx as [? ? [] ?]).
  unfold tcp_timer_tick. cbv zeta. destruct (_ && _); [apply Hclk, Hx|]. apply iter_ok; [|apply Hclk, u32_range]. intros. by apply timer_conn_ok.
Qed.

(** ** Runs *)

(** What the callers guarantee: frames and buffers are bytes, numbers have their C types. *)
Definition op_ok (op : tcp_op) : Prop :=
  match op with
  | OpPacket isn frame => r32 isn /\ Forall is_byte frame
  | OpListen port => r16 port
  | OpConnect ip port pid rnd isn => r32 ip /\ r16 port /\ r32 pid /\ r32 isn
  | OpSend _ buf => Forall is_byte buf
  | _ => True
  end.

Lemma tcp_step_ok op x : op_ok op -> net_ok x -> net_ok (tcp_step op x).
Proof.
  intros Ho Hx. destruct op; simpl in *; destruct_and?.
  - by apply packet_ok.
  - by apply tick_ok.
  - by apply passive_ok.
  - by apply active_ok.
  - by apply do_accept_ok.
  - by apply with_acceptors_ok.
  - by apply send_data_ok.
  - by apply recv_ok.
  - by apply close_ok.
  - by destruct Hx as [? ? [] ?].
Qed.

Lemma run_ok ops x : Forall op_ok ops -> net_ok x -> net_ok (tcp_run ops x).
Proof. intros Ho. revert x. induction Ho as [|op ops Hop _ IH]; intros x Hx; [done|]. apply IH. by apply tcp_step_ok. Qed.
