(* ===== verification/SotTcpStream.v ===== *)
(** * The byte stream of a connection

    What a guest reads from a connection is a prefix of what the peer sent, whatever the
    network does to the segments ([stream_in_order]). *)

From S2P Require Import Prelude WalSpec NetFrame SotTcp NetTheorems SotTcpInv.

(** ** What the operations leave of a synchronised connection *)

Definition live (c : tcp_conn) : Prop := c_in_use c = true /\ steady (c_state c).

(** [c'] is [c] with its buffer, or the slot was given back; established ones were so before
    and expect the same byte. *)
Definition same_conn (c c' : tcp_conn) : Prop :=
  live c' /\ c_rx c' = c_rx c
  /\ c_remote_ip_be c' = c_remote_ip_be c /\ c_remote_port_be c' = c_remote_port_be c /\ c_local_port_be c' = c_local_port_be c
  /\ (c_app_owned c = true -> c_app_owned c' = true)
  /\ (c_state c' = TCP_STATE_ESTABLISHED -> c_state c = TCP_STATE_ESTABLISHED /\ c_rcv_nxt c' = c_rcv_nxt c).
Definition keeps (c c' : tcp_conn) : Prop := (c = free_conn -> c' = free_conn) /\ (live c -> c' = free_conn \/ same_conn c c').

Lemma keeps_refl c : keeps c c.
Proof. split; [done|]. intros Hl. right. repeat split; try done; apply Hl. Qed.
Lemma keeps_trans a b c : keeps a b -> keeps b c -> keeps a c.
Proof.
  intros [F1 H1] [F2 H2]. split; [auto|]. intros Ha. destruct (H1 Ha) as [->|(Hb&R1&I1&P1&L1&O1&E1)]; [left; auto|].
  destruct (H2 Hb) as [?|(Hc&R2&I2&P2&L2&O2&E2)]; [by left|]. right. split_and!; try congruence; auto.
  intros Es. destruct (E2 Es) as [Es1 Er]. destruct (E1 Es1). split; congruence.
Qed.

Definition calm (x y : net) : Prop := tab y /\ forall j, keeps (conn_at x j) (conn_at y j).
Lemma calm_refl x : tab x -> calm x x.
Proof. split; [done|]. intros. apply keeps_refl. Qed.
Lemma calm_trans x y z : calm x y -> calm y z -> calm x z.
Proof. intros [_ H1] [Ht H2]. split; [done|]. intros j. eapply keeps_trans; eauto. Qed.
Lemma calm_same x y : tab x -> g_tcp_conns y = g_tcp_conns x -> calm x y.
Proof. intros Ht E. split; [unfold tab; by rewrite E|]. intros j. unfold conn_at. rewrite E. apply keeps_refl. Qed.

Lemma calm_out e x y : calm x y -> calm x (out e y).
Proof. intros H. exact H. Qed.

Lemma used_not_free c : c_in_use c = true -> c <> free_conn.
Proof. by intros H ->. Qed.
Lemma calm_upd i f x : tab x -> c_in_use (conn_at x i) = true -> keeps (conn_at x i) (f (conn_at x i)) -> calm x (upd_conn i f x).
Proof.
  intros Ht Hu Hk. split; [by apply tab_upd|]. intros j. rewrite conn_at_upd by (done || by eapply in_use_below). case_decide; [by subst|apply keeps_refl].
Qed.
Lemma calm_free i x : tab x -> calm x (tcp_conn_free i x).
Proof.
  intros Ht. split; [by apply tab_upd|]. intros j. unfold tcp_conn_free. destruct (decide (i = j)) as [->|Hn]; [|rewrite conn_at_other by done; apply keeps_refl].
  destruct (decide (j < TCP_CONN_MAX)%nat); [rewrite conn_at_same by done; by split; [|left]|].
  rewrite !conn_at_beyond by (lia || done || by apply tab_upd). by split; [|left].
Qed.

(** Changes that no reader sees, for a slot in use. *)
Lemma keeps_quiet c c' : c_in_use c = true -> (live c -> same_conn c c') -> keeps c c'.
Proof. intros Hu H. split; [intros ->; done|auto]. Qed.
Lemma keeps_tx tx fl last c : c_in_use c = true -> keeps c (set_tx tx fl last c).
Proof. intros Hu. apply keeps_quiet; [done|]. intros Hl. by repeat split; try apply Hl. Qed.

Lemma keeps_tw t c : c_in_use c = true -> keeps c (set_tw_tick t c).
Proof. intros Hu. apply keeps_quiet; [done|]. intros Hl. by repeat split; try apply Hl. Qed.
Lemma keeps_retx n c : c_in_use c = true -> keeps c (set_retx n c).
Proof. intros Hu. apply keeps_quiet; [done|]. intros Hl. by repeat split; try apply Hl. Qed.
Lemma keeps_snd nxt una c : c_in_use c = true -> keeps c (set_snd nxt una c).
Proof. intros Hu. apply keeps_quiet; [done|]. intros Hl. by repeat split; try apply Hl. Qed.
Lemma keeps_counts rb tb c : c_in_use c = true -> keeps c (set_counts rb tb c).
Proof. intros Hu. apply keeps_quiet; [done|]. intros Hl. by repeat split; try apply Hl. Qed.
Lemma keeps_wnd w c : c_in_use c = true -> keeps c (set_snd_wnd w c).
Proof. intros Hu. apply keeps_quiet; [done|]. intros Hl. by repeat split; try apply Hl. Qed.
Lemma keeps_listen n c : c_in_use c = true -> keeps c (set_listen_slot n c).
Proof. intros Hu. apply keeps_quiet; [done|]. intros Hl. by repeat split; try apply Hl. Qed.
Lemma keeps_owned c : c_in_use c = true -> keeps c (set_app_owned true c).
Proof. intros Hu. apply keeps_quiet; [done|]. intros Hl. by repeat split; try apply Hl. Qed.
(** Leaving the established state, or staying in the others. *)
Lemma keeps_state s c : c_in_use c = true -> steady s -> s <> TCP_STATE_ESTABLISHED -> keeps c (set_cstate s c).
Proof. intros Hu Hs Hn. apply keeps_quiet; [done|]. intros Hl. split_and!; try done. Qed.

Lemma calm_send i flags data x : tab x -> c_in_use (conn_at x i) = true -> calm x (tcp_send_segment i flags data x).2.
Proof.
  intros Ht Hu. split; [by apply send_tab|]. intros j. destruct (send_conn i flags data x j Ht) as (tx&fl&last&->). case_decide; [subst; by apply keeps_tx|apply keeps_refl].
Qed.

Lemma calm_close i x : tab x -> calm x (sotnet_tcp_close i x).
Proof.
  intros Ht. unfold sotnet_tcp_close. destruct (c_in_use (conn_at x i)) eqn:Hu; [|by apply calm_refl]. cbn [negb].
  assert (forall s, s <> TCP_STATE_ESTABLISHED -> steady s ->
    calm x (upd_conn i (fun c => set_cstate s (set_snd (u32 (c_snd_nxt c + 1)) (c_snd_una c) c)) (tcp_send_segment i (Z.lor TCP_FLAG_FIN TCP_FLAG_ACK) [] x).2)) as Hfin.
  { intros s Hs Hst. eapply calm_trans; [by apply calm_send|]. assert (tab (tcp_send_segment i (Z.lor TCP_FLAG_FIN TCP_FLAG_ACK) [] x).2) by by apply send_tab.
    assert (c_in_use (conn_at (tcp_send_segment i (Z.lor TCP_FLAG_FIN TCP_FLAG_ACK) [] x).2 i) = true) as Hu' by by rewrite send_in_use.
    apply calm_upd; [done|exact Hu'|]. eapply keeps_trans; [by apply keeps_snd|]. by apply keeps_state. }
  destruct (c_state (conn_at x i)) eqn:Es; try (eapply calm_trans; [|by apply calm_free]; by apply calm_out, calm_refl); apply Hfin; done || steady_tac.
Qed.

Lemma ack_fin_conn i s x : tab x -> c_in_use (conn_at x i) = true -> tab (ack_fin i s x) /\ exists tx fl last, forall j,
  conn_at (ack_fin i s x) j = if decide (i = j) then set_cstate s (set_tx tx fl last (set_rcv (u32 (c_rcv_nxt (conn_at x i) + 1)) (conn_at x i))) else conn_at x j.
Proof.
  intros Ht Hu. pose proof (in_use_below x i Ht Hu) as Hi. unfold ack_fin. set (x1 := upd_conn i _ x). assert (tab x1) as Ht1 by by apply tab_upd.
  assert (tab (tcp_send_segment i TCP_FLAG_ACK [] x1).2) as Ht2 by by apply send_tab. split; [by apply tab_upd|].
  destruct (send_conn i TCP_FLAG_ACK [] x1 i Ht1) as (tx&fl&last&E). rewrite decide_True in E by done. exists tx, fl, last. intros j. rewrite conn_at_upd by done.
  case_decide; [subst j; rewrite E; unfold x1; by rewrite conn_at_same|]. destruct (send_conn i TCP_FLAG_ACK [] x1 j Ht1) as (?&?&?&->). rewrite decide_False by done.
  unfold x1. by rewrite conn_at_other.
Qed.
Lemma calm_ack_fin i s x : tab x -> c_in_use (conn_at x i) = true -> steady s -> s <> TCP_STATE_ESTABLISHED -> calm x (ack_fin i s x).
Proof.
  intros Ht Hu Hs Hn. destruct (ack_fin_conn i s x Ht Hu) as (Ht'&tx&fl&last&E). split; [done|]. intros j. rewrite E. case_decide; [subst j|apply keeps_refl].
  apply keeps_quiet; [done|]. intros _. split_and!; try done.
Qed.

Lemma calm_on_fin i frame x : tab x -> calm x (tcp_close_on_fin i frame x).
Proof.
  intros Ht. unfold tcp_close_on_fin. destruct (c_in_use (conn_at x i)) eqn:Hu; [|by apply calm_refl]. cbn [negb]. destruct (tcp_off frame) as [off|]; [|by apply calm_refl].
  cbv zeta. destruct (negb _); [by apply calm_refl|].
  destruct (c_state (conn_at x i)) eqn:Es; try (by apply calm_refl); try (apply calm_ack_fin; [done|done|steady_tac|done]).
  assert (calm x (ack_fin i TCP_STATE_TIME_WAIT x)) as Hc by (apply calm_ack_fin; [done|done|steady_tac|done]).
  eapply calm_trans; [exact Hc|]. destruct (ack_fin_conn i TCP_STATE_TIME_WAIT x Ht Hu) as (Ht'&tx&fl&last&E).
  assert (c_in_use (conn_at (ack_fin i TCP_STATE_TIME_WAIT x) i) = true) as Hu' by by rewrite E, decide_True.
  apply calm_out. apply calm_upd; [exact Ht'|exact Hu'|exact (keeps_tw _ _ Hu')].
Qed.

Lemma calm_on_finack i x : tab x -> calm x (tcp_close_on_finack i x).
Proof.
  intros Ht. unfold tcp_close_on_finack. destruct (c_in_use (conn_at x i)) eqn:Hu; [|by apply calm_refl]. cbn [negb].
  destruct (c_state (conn_at x i)) eqn:Es; try (by apply calm_refl).
  - apply calm_upd; [done|done|]. apply keeps_state; [done|steady_tac|done].
  - apply calm_upd; [done|done|]. eapply keeps_trans; [apply (keeps_state TCP_STATE_TIME_WAIT); [done|steady_tac|done]|by apply keeps_tw].
  - eapply calm_trans; [|by apply calm_free]. by apply calm_out, calm_refl.
Qed.

Lemma calm_dequeue port x : tab x -> calm x (tcp_accept_dequeue port x).2
  /\ (forall i, (tcp_accept_dequeue port x).1 = Some i -> c_in_use (conn_at (tcp_accept_dequeue port x).2 i) = true).
Proof.
  intros Ht. unfold tcp_accept_dequeue. destruct (first_below _ _) as [i|] eqn:E; [|by split; [apply calm_refl|]].
  apply first_below_Some in E as (Hi&Hp&_). apply andb_true_iff in Hp as [Hu _]. cbn [fst snd]. split.
  - apply calm_upd; [done|done|]. by apply keeps_listen.
  - intros j [= <-]. by rewrite conn_at_same.
Qed.

Lemma calm_do_accept w x : tab x -> calm x (do_accept w x).2.
Proof.
  intros Ht. unfold do_accept. destruct (calm_dequeue lucas_default_local_port_be x Ht) as [Hc Hu]. destruct (tcp_accept_dequeue _ x) as [[i|] y]; [|done].
  specialize (Hu i eq_refl). cbn [snd] in *. pose proof (proj1 Hc) as Hy. destruct (aw_outcome w); cbn [snd]; [|done|].
  - apply calm_out. eapply calm_trans; [exact Hc|]. apply calm_upd; [done|done|]. by apply keeps_owned.
  - eapply calm_trans; [exact Hc|]. by apply calm_close.
Qed.

Lemma calm_wake x : tab x -> calm x (lucas_accept_wake_waiter x).
Proof.
  intros Ht. unfold lucas_accept_wake_waiter. destruct (n_acceptors x) as [|w ws]; [by apply calm_refl|]. pose proof (calm_do_accept w x Ht) as H.
  destruct (do_accept w x) as [[i|] y]; exact H.
Qed.

(** A connection that is not yet synchronised may become anything in use. *)
Lemma calm_upd_new i f x : tab x -> c_in_use (conn_at x i) = true -> ~ steady (c_state (conn_at x i)) -> calm x (upd_conn i f x).
Proof. intros Ht Hu Hn. apply calm_upd; [done|done|]. split; [intros E; by apply used_not_free in Hu|]. by intros [_ ?]. Qed.

Lemma calm_on_ack i frame x : tab x -> c_in_use (conn_at x i) = true -> calm x (tcp_server_on_ack i frame x).
Proof.
  intros Ht Hu. unfold tcp_server_on_ack. destruct (tcp_off frame) as [off|]; [|by apply calm_refl]. cbv zeta.
  destruct (negb (bool_decide _)) eqn:Es; [by apply calm_refl|]. apply negb_false_iff, bool_decide_eq_true in Es. destruct (negb _); [by apply calm_refl|].
  match goal with |- context [lucas_accept_wake_waiter ?y] => assert (calm x y) as H1; [|pose proof (calm_wake y (proj1 H1)) as H2; set (z := lucas_accept_wake_waiter y) in *] end.
  { change (calm x (upd_conn i (fun c => set_cstate TCP_STATE_ESTABLISHED (set_snd (u32 (c_snd_nxt (conn_at x i) + 1)) (u32 (c_snd_nxt (conn_at x i) + 1)) c)) x)).
    apply calm_upd_new; [done|done|]. rewrite Es. intros (_&_&H). by destruct H; right. }
  apply calm_out. destruct (_ =? 22); [apply calm_out|]; by eapply calm_trans.
Qed.

Lemma calm_synack i frame x : tab x -> c_in_use (conn_at x i) = true -> calm x (tcp_client_on_synack i frame x).
Proof.
  intros Ht Hu. unfold tcp_client_on_synack. cbv zeta. destruct (negb (bool_decide _)) eqn:Es; [by apply calm_refl|]. apply negb_false_iff, bool_decide_eq_true in Es.
  destruct (tcp_off frame) as [off|]; [|by apply calm_refl]. destruct (negb _); [by apply calm_refl|]. destruct (negb _); [by apply calm_refl|].
  match goal with |- context [learn_wscale i frame off _ (upd_conn i ?f x)] => set (g := f) end.
  assert (calm x (upd_conn i g x) /\ c_in_use (conn_at (upd_conn i g x) i) = true) as [H1 Hu1].
  { split; [|by rewrite conn_at_same by (done || by eapply in_use_below)]. apply calm_upd_new; [done|done|]. rewrite Es. intros (_&_&H). by destruct H; left. }
  assert (calm x (learn_wscale i frame off (tcp_at frame off) (upd_conn i g x)) /\ c_in_use (conn_at (learn_wscale i frame off (tcp_at frame off) (upd_conn i g x)) i) = true) as [H2 Hu2].
  { unfold learn_wscale. destruct (peer_wscale_of _ _ _) as [w|]; [|done]. destruct H1 as [Ht1 _]. assert (i < TCP_CONN_MAX)%nat by by eapply in_use_below. rewrite conn_upd_upd by done.
    split; [|by rewrite conn_at_same]. apply calm_upd_new; [done|done|]. rewrite Es. intros (_&_&H'). by destruct H'; left. }
  set (x2 := learn_wscale i frame off _ _) in *. pose proof (calm_send i TCP_FLAG_ACK [] x2 (proj1 H2) Hu2) as H3. destruct (tcp_send_segment i TCP_FLAG_ACK [] x2) as [rc z]. cbn [snd] in *.
  pose proof (calm_trans _ _ _ H2 H3) as H4. destruct (negb _); [|by apply calm_out]. eapply calm_trans; [exact H4|]. apply calm_free, H4.
Qed.

Lemma calm_send_data i buf x : net_ok x -> calm x (tcp_send_data i buf x).2.
Proof.
  intros Hx. pose proof (no_tab _ Hx) as Ht. unfold tcp_send_data. destruct (_ && _) eqn:Es; [by apply calm_refl|]. destruct (_ =? 0)%nat; [by apply calm_refl|].
  assert (c_in_use (conn_at x i) = true) as Hu.
  { destruct (c_in_use (conn_at x i)) eqn:E; [done|]. by rewrite (co_free _ (no_conns _ Hx i) E) in Es. }
  set (d := take _ buf). pose proof (calm_send i (Z.lor TCP_FLAG_ACK TCP_FLAG_PSH) d x Ht Hu) as H1. pose proof (send_in_use i (Z.lor TCP_FLAG_ACK TCP_FLAG_PSH) d x i Ht) as Hu1. rewrite Hu in Hu1.
  destruct (tcp_send_segment _ _ _ x) as [rc z]. cbn [snd] in *. destruct (rc =? 0); cbn [negb snd]; [|done]. eapply calm_trans; [exact H1|].
  apply calm_upd; [apply H1|done|]. eapply keeps_trans; [by apply keeps_snd|by apply keeps_counts].
Qed.

Lemma calm_timer_conn now i x : tab x -> c_in_use (conn_at x i) = true -> calm x (tcp_timer_conn now i x).
Proof.
  intros Ht Hu. unfold tcp_timer_conn. cbv zeta.
  assert (calm x (tcp_conn_free i (tcp_send_segment i TCP_FLAG_RST [] x).2)) as Hrst by (eapply calm_trans; [by apply calm_send|by apply calm_free, send_tab]).
  assert (calm x (tcp_send_segment i (c_tx_flags (conn_at x i)) (c_tx (conn_at x i)) (upd_conn i (fun c => set_retx (u16 (c_retx_count c + 1)) c) x)).2) as Hretx.
  { eapply calm_trans; [apply calm_upd; [done|done|by apply keeps_retx]|]. apply calm_send; [by apply tab_upd|]. by rewrite conn_at_same by (done || by eapply in_use_below). }
  destruct (c_state (conn_at x i)) eqn:Es; try (by apply calm_refl).
  1-3: destruct (_ && _); [by destruct (_ >=? _)|destruct (_ && _); [done|by apply calm_refl]].
  all: try (destruct (_ >? _); [by apply calm_free|by apply calm_refl]).
  destruct (_ && _); [by apply calm_close|by apply calm_refl].
Qed.

Lemma calm_tick tsc x : tab x -> calm x (tcp_timer_tick tsc x).
Proof.
  intros Ht. unfold tcp_timer_tick. cbv zeta. destruct (_ && _); [by apply calm_same|].
  apply (iter_ok _ (calm x)); [|by apply calm_same]. intros i y Hy Hu. eapply calm_trans; [exact Hy|]. apply calm_timer_conn; [apply Hy|done].
Qed.

(** Opening a connection leaves the ones in use alone. *)
Lemma send_other i flags data x j : tab x -> i <> j -> conn_at (tcp_send_segment i flags data x).2 j = conn_at x j.
Proof. intros Ht Hn. destruct (send_conn i flags data x j Ht) as (?&?&?&->). by rewrite decide_False. Qed.

Lemma on_syn_other isn frame x j : tab x -> c_in_use (conn_at x j) = true ->
  tab (tcp_server_on_syn isn frame x) /\ conn_at (tcp_server_on_syn isn frame x) j = conn_at x j.
Proof.
  intros Ht Hu. unfold tcp_server_on_syn. destruct (tcp_off frame) as [off|]; [|done]. cbv zeta. destruct (tcp_conn_find_listen _ _); [|done].
  destruct (find_listen_slot_index _ _) as [li|]; [|done].
  pose proof (alloc_spec x Ht) as Ha. destruct (tcp_conn_alloc x) as [[i|] x1]; cbn [fst snd] in Ha; [|by destruct Ha as [_ ->]]. destruct Ha as (Hi&Hf&->).
  assert (i <> j) by congruence. match goal with |- context [learn_wscale i frame off _ ?y] => set (y1 := y) end.
  assert (tab y1 /\ conn_at y1 j = conn_at x j) as [Ht1 E1].
  { split; [by apply tab_upd, tab_upd|]. unfold y1. rewrite conn_at_other by done. change (conn_at (upd_conn i (fun _ => alloc_conn) x) j = conn_at x j). by rewrite conn_at_other. }
  assert (tab (learn_wscale i frame off (tcp_at frame off) y1) /\ conn_at (learn_wscale i frame off (tcp_at frame off) y1) j = conn_at x j) as [Ht2 E2].
  { unfold learn_wscale. destruct (peer_wscale_of _ _ _); [|done]. split; [by apply tab_upd|by rewrite conn_at_other]. }
  split; [by apply send_tab|]. by rewrite send_other.
Qed.
Lemma passive_other port x j : tab x -> c_in_use (conn_at x j) = true -> conn_at (tcp_passive_open port x).2 j = conn_at x j.
Proof.
  intros Ht Hu. unfold tcp_passive_open. destruct (tcp_conn_find_listen x port); [done|].
  pose proof (alloc_spec x Ht) as Ha. destruct (tcp_conn_alloc x) as [[i|] x1]; cbn [fst snd] in *; [|by destruct Ha as [_ ->]]. destruct Ha as (Hi&Hf&->).
  assert (i <> j) by congruence. by rewrite !conn_at_other.
Qed.
Lemma active_other ip port pid rnd isn x j : tab x -> c_in_use (conn_at x j) = true -> conn_at (tcp_active_open ip port pid rnd isn x).2 j = conn_at x j.
Proof.
  intros Ht Hu. unfold tcp_active_open. pose proof (alloc_spec x Ht) as Ha. destruct (tcp_conn_alloc x) as [[i|] x1]; cbn [fst snd] in *; [|by destruct Ha as [_ ->]].
  destruct Ha as (Hi&Hf&->). assert (i <> j) as Hn by congruence. match goal with |- context [tcp_send_segment i _ _ ?y] => set (y1 := y) end.
  assert (tab y1 /\ conn_at y1 j = conn_at x j) as [Ht1 E1] by (split; [by apply tab_upd, tab_upd|unfold y1; by rewrite !conn_at_other]).
  pose proof (send_other i TCP_FLAG_SYN [] y1 j Ht1 Hn) as E2. destruct (tcp_send_segment i TCP_FLAG_SYN [] y1) as [rc z]. cbn [snd] in *.
  destruct (negb _); cbn [snd]; [unfold tcp_conn_free; rewrite conn_at_other by done|]; congruence.
Qed.

(** ** Data *)

(** The sequence number and the payload of a segment, as its headers delimit it. *)
Definition seg_seq (frame : list Z) (off : nat) : Z := tcp_ntohl_ (th_seq (tcp_at frame off)).
Definition seg_payload (frame : list Z) (off : nat) : list Z :=
  let ip := ip_at frame in
  let start := 14 + ihl_of ip + doff_of (tcp_at frame off) in
  bytes_at frame (Z.to_nat start) (Z.to_nat (14 + tcp_ntohs_ (ip_total_len ip) - start)).

(** The payload goes to the buffer a guest reads, not only to the responder. *)
Definition buffered (c : tcp_conn) : bool := negb (is_bridged (tcp_ntohs_ (c_local_port_be c)) && negb (c_app_owned c)).

(** [y] is [x] after connection [i] took [n] bytes of a payload. *)
Definition took (i : nat) (payload : list Z) (n : nat) (x y : net) : Prop :=
  tab y /\ (forall j, j <> i -> conn_at y j = conn_at x j) /\ (n <= length payload)%nat
  /\ let c := conn_at x i in let c' := conn_at y i in
     c_in_use c' = true /\ c_state c' = c_state c /\ c_remote_ip_be c' = c_remote_ip_be c /\ c_remote_port_be c' = c_remote_port_be c
     /\ c_local_port_be c' = c_local_port_be c /\ c_app_owned c' = c_app_owned c
     /\ c_rcv_nxt c' = u32 (c_rcv_nxt c + Z.of_nat n) /\ (buffered c = true -> c_rx c' = c_rx c ++ take n payload).

Lemma payload_took i data x : net_ok x -> c_in_use (conn_at x i) = true -> Z.of_nat (length data) < 2 ^ 16 ->
  exists n, took i data n x (tcp_take_payload i (c_rcv_nxt (conn_at x i)) data x).
Proof.
  intros Hx Hu Hl. unfold tcp_take_payload. cbv zeta. pose proof (no_tab _ Hx) as Ht. pose proof (in_use_below x i Ht Hu) as Hi. destruct (co_rx _ (no_conns _ Hx i)) as [_ Hr].
  match goal with |- context [upd_conn i _ ?y] => assert (g_tcp_conns y = g_tcp_conns x) as Ey by (by destruct (is_bridged _)); set (z := y) in * end.
  assert (forall k, conn_at z k = conn_at x k) as Ez by (intros; unfold conn_at; by rewrite Ey). assert (tab z) as Htz by (unfold tab; by rewrite Ey).
  set (c := conn_at x i) in *. set (free := if rx_len c <? TCP_RX_BUF_SIZE then TCP_RX_BUF_SIZE - rx_len c else 0) in *.
  set (cl := if Z.of_nat (length data) <? free then Z.of_nat (length data) else free) in *.
  assert (0 <= cl <= Z.of_nat (length data)) as Hcl by (unfold cl, free, rx_len; repeat case_match; bool_to_prop; lia).
  assert (forall f (n : nat), (n <= length data)%nat -> c_in_use (f c) = true -> c_state (f c) = c_state c -> c_remote_ip_be (f c) = c_remote_ip_be c -> c_remote_port_be (f c) = c_remote_port_be c ->
    c_local_port_be (f c) = c_local_port_be c -> c_app_owned (f c) = c_app_owned c -> c_rcv_nxt (f c) = u32 (c_rcv_nxt c + Z.of_nat n) ->
    (buffered c = true -> c_rx (f c) = c_rx c ++ take n data) -> took i data n x (tcp_send_segment i TCP_FLAG_ACK [] (upd_conn i f z)).2) as Hend.
  { intros f n Hn. intros. assert (tab (upd_conn i f z)) as Htu by by apply tab_upd. split; [by apply send_tab|]. split.
    - intros j Hj. rewrite send_other by (done || congruence). rewrite conn_at_other by congruence. apply Ez.
    - split; [done|]. cbv zeta. destruct (send_conn i TCP_FLAG_ACK [] (upd_conn i f z) i Htu) as (tx&fl&last&->). rewrite decide_True, conn_at_same, Ez by done. fold c. done. }
  destruct (_ && _) eqn:Eb.
  - exists (length data). apply Hend; try done.
    + simpl. f_equal. rewrite u32_small by (powers; lia). done.
    + unfold buffered. rewrite Eb. done.
  - exists (Z.to_nat cl). apply Hend; try done; [lia|]. simpl. f_equal. rewrite u32_small by (powers; lia). lia.
Qed.

Lemma data_cases i frame x : net_ok x -> c_in_use (conn_at x i) = true -> c_state (conn_at x i) = TCP_STATE_ESTABLISHED -> Forall is_byte frame ->
  calm x (tcp_data_on_segment i frame x)
  \/ exists off n, tcp_off frame = Some off /\ seg_seq frame off = c_rcv_nxt (conn_at x i) /\ took i (seg_payload frame off) n x (tcp_data_on_segment i frame x).
Proof.
  intros Hx Hu He Hf. pose proof (no_tab _ Hx) as Ht. pose proof (in_use_below x i Ht Hu) as Hi. unfold tcp_data_on_segment.
  destruct (tcp_off frame) as [off|] eqn:Eo; [|left; by apply calm_refl]. cbv zeta.
  destruct (_ <? 20); [left; by apply calm_refl|]. destruct (_ <? 14 + _ + _) eqn:El; [left; by apply calm_refl|]. destruct (_ <? u16 _); [left; by apply calm_refl|].
  destruct (14 + _ >? _) eqn:Et; [left; by apply calm_refl|].
  set (x1 := upd_conn i (fun c => set_snd_wnd _ c) x). assert (net_ok x1) as H1.
  { pose proof (no_conns _ Hx i) as Hc. apply upd_keep_ok; [done| |done|done]. apply set_wnd_ok; [done|done|apply u32_range]. }
  assert (calm x x1) as Hc1 by (apply calm_upd; [done|done|by apply keeps_wnd]).
  assert (conn_at x1 i = set_snd_wnd (u32 (Z.shiftl (tcp_ntohs_ (th_window (tcp_at frame off))) (c_peer_wscale (conn_at x i)))) (conn_at x i)) as E1 by (unfold x1; by rewrite conn_at_same).
  match goal with |- calm x (if _ >? 0 then (if _ =? c_rcv_nxt (conn_at ?y i) then _ else _) else _) \/ _ => set (x2 := y) end.
  assert (net_ok x2 /\ calm x x2 /\ (forall j, j <> i -> conn_at x2 j = conn_at x j) /\ c_in_use (conn_at x2 i) = true /\ c_state (conn_at x2 i) = c_state (conn_at x i)
    /\ c_remote_ip_be (conn_at x2 i) = c_remote_ip_be (conn_at x i) /\ c_remote_port_be (conn_at x2 i) = c_remote_port_be (conn_at x i)
    /\ c_local_port_be (conn_at x2 i) = c_local_port_be (conn_at x i) /\ c_app_owned (conn_at x2 i) = c_app_owned (conn_at x i)
    /\ c_rcv_nxt (conn_at x2 i) = c_rcv_nxt (conn_at x i) /\ c_rx (conn_at x2 i) = c_rx (conn_at x i)) as (Hok2&Hc2&Ho2&Hu2&S2&I2&P2&L2&O2&R2&X2).
  { assert (forall j, j <> i -> conn_at x1 j = conn_at x j) as Ho1 by (intros; unfold x1; by rewrite conn_at_other).
    unfold x2. destruct (has_flag _ _ && _); [|by rewrite E1]. pose proof (no_conns _ H1 i) as Hcx. destruct (co_seqs _ Hcx) as (?&_&_).
    assert (c_in_use (conn_at x1 i) = true) as Hu1 by by rewrite E1. split; [|split; [|split]].
    - apply upd_keep_ok; [done| |done|done]. apply set_retx_ok; [|done|unfold TCP_RETX_MAX; lia]. apply set_snd_ok; [done|done| |done|by apply htonl_range, field_r32].
      rewrite E1. intros [E|E]; simpl in E; congruence.
    - eapply calm_trans; [exact Hc1|]. apply calm_upd; [apply H1|done|]. eapply keeps_trans; [by apply keeps_snd|by apply keeps_retx].
    - intros j Hj. rewrite conn_at_other by congruence. by apply Ho1.
    - rewrite conn_at_same by (done || apply H1). rewrite E1. done. }
  match goal with |- calm x (if ?b then _ else _) \/ _ => destruct b end; [|by left].
  destruct (_ =? c_rcv_nxt (conn_at x2 i)) eqn:Eq; [|left; eapply calm_trans; [exact Hc2|apply calm_send; [apply Hok2|done]]]. bool_to_prop.
  right. exists off. assert (seg_seq frame off = c_rcv_nxt (conn_at x i)) as Es by (unfold seg_seq; congruence). fold (seg_seq frame off). rewrite Es.
  replace (bytes_at frame _ _) with (seg_payload frame off) by (unfold seg_payload; f_equal; f_equal; lia).
  rewrite Z.gtb_ltb in Et. bool_to_prop. pose proof (u16_range (Z.lor (Z.shiftl (ip_total_len (ip_at frame)) 8) (Z.shiftr (ip_total_len (ip_at frame)) 8))) as Htot. fold (tcp_ntohs_ (ip_total_len (ip_at frame))) in Htot.
  pose proof (u8_range (Z.land (ip_ihl_ver (ip_at frame)) 0x0F * 4)) as Hih. fold (ihl_of (ip_at frame)) in Hih.
  pose proof (u8_range (Z.shiftr (th_data_off (tcp_at frame off)) 4 * 4)) as Hdo. fold (doff_of (tcp_at frame off)) in Hdo.
  destruct (payload_took i (seg_payload frame off) x2 Hok2 Hu2) as (n&Ht2&Hoth&Hn&Htook).
  { unfold seg_payload, bytes_at. rewrite length_take, length_drop. powers. lia. }
  rewrite R2 in Htook, Ht2, Hoth. exists n. split; [done|]. split; [done|]. split; [done|]. split; [intros j Hj; rewrite Hoth, Ho2 by done; done|]. split; [done|].
  cbv zeta in *. unfold buffered in *. rewrite S2, I2, P2, L2, O2, X2, R2 in Htook. exact Htook.
Qed.

(** ** Frames *)

(** The frame is a TCP segment for connection [c]. *)
Definition for_conn (x : net) (c : tcp_conn) (frame : list Z) (off : nat) : Prop :=
  tcp_off frame = Some off /\ ip_proto (ip_at frame) = 6 /\ ip_dst (ip_at frame) = g_our_ip x /\ ip_src (ip_at frame) = c_remote_ip_be c
  /\ th_src_port (tcp_at frame off) = c_remote_port_be c /\ th_dst_port (tcp_at frame off) = c_local_port_be c.

Lemma send_rst_conns frame x : g_tcp_conns (send_rst frame x) = g_tcp_conns x.
Proof. unfold send_rst. destruct (tcp_off frame); [|done]. cbv zeta. unfold virtio_net_tx. by repeat case_match. Qed.

Lemma packet_cases isn frame x i : net_ok x -> Forall is_byte frame -> live (conn_at x i) ->
  let y := tcp_handle_packet isn frame x in
  keeps (conn_at x i) (conn_at y i)
  \/ exists off n z, for_conn x (conn_at x i) frame off /\ c_state (conn_at x i) = TCP_STATE_ESTABLISHED /\ seg_seq frame off = c_rcv_nxt (conn_at x i)
     /\ took i (seg_payload frame off) n x z /\ keeps (conn_at z i) (conn_at y i).
Proof.
  intros Hx Hf [Hu Hst]. cbv zeta. pose proof (no_tab _ Hx) as Ht. unfold tcp_handle_packet. destruct (tcp_off frame) as [off|] eqn:Eo; [|left; apply keeps_refl]. cbv zeta.
  destruct (negb (ip_proto _ =? 6)) eqn:Ep; [left; apply keeps_refl|]. destruct (negb (ip_dst _ =? _)) eqn:Ed; [left; apply keeps_refl|]. bool_to_prop.
  destruct (tcp_conn_lookup _ _ _ _) as [k|] eqn:El.
  - apply lookup_spec in El as (Hk&Huk&_&Tip&Trp&Tlp). destruct (has_flag _ TCP_FLAG_RST); [left; by apply calm_free|].
    destruct (c_state (conn_at x k)) eqn:Es; try (left; apply keeps_refl);
      try (left; destruct (has_flag _ _); [by apply calm_on_fin|]; destruct (has_flag _ _); [by apply calm_on_finack|apply keeps_refl]).
    + left. destruct (_ && _); [by apply calm_synack|apply keeps_refl].
    + left. destruct (has_flag _ _); [by apply calm_on_ack|apply keeps_refl].
    + pose proof (data_ok k frame x Hx Huk Es Hf) as Hy. set (y := tcp_data_on_segment k frame x) in *.
      assert (forall P : net -> Prop, P y -> P (tcp_close_on_fin k frame y) -> P (if has_flag (th_flags (tcp_at frame off)) TCP_FLAG_FIN then tcp_close_on_fin k frame y else y)) as Hif by (intros; by destruct (has_flag _ _)).
      assert (keeps (conn_at y i) (conn_at (tcp_close_on_fin k frame y) i)) as Hfin by (apply calm_on_fin, Hy).
      destruct (data_cases k frame x Hx Huk Es Hf) as [[_ Hc]|(off'&n&Eo'&Eq&Htk)]; [fold y in Hc|fold y in Htk].
      * left. apply (Hif (fun z => keeps (conn_at x i) (conn_at z i))); [apply Hc|]. eapply keeps_trans; [apply Hc|done].
      * destruct (decide (k = i)) as [->|Hn].
        -- right. rewrite Eo in Eo'. injection Eo' as <-. exists off, n, y. split; [by split_and!|]. split; [done|]. split; [done|]. split; [done|].
           apply (Hif (fun z => keeps (conn_at y i) (conn_at z i))); [apply keeps_refl|done].
        -- left. destruct Htk as (_&Ho&_). apply (Hif (fun z => keeps (conn_at x i) (conn_at z i))); rewrite <- (Ho i) by congruence; [apply keeps_refl|done].
  - left. destruct (sotfp_unsolicited_action _ _); [|unfold conn_at; rewrite send_rst_conns; apply keeps_refl|apply keeps_refl].
    destruct (on_syn_other isn frame x i Ht Hu) as [_ ->]. apply keeps_refl.
Qed.

(** ** The stream *)

(** The bytes a guest got from connection [i] in a step, and over a run. *)
Definition step_read (i : nat) (op : tcp_op) (x : net) : list Z :=
  match op with OpRecv k count ok => if decide (k = i) then (lucas_tcp_recv_drain k count ok x).1.2 else [] | _ => [] end.
Fixpoint reads (i : nat) (ops : list tcp_op) (x : net) : list Z :=
  match ops with [] => [] | op :: ops' => step_read i op x ++ reads i ops' (tcp_step op x) end.

(** The connection stays in its slot over a run. *)
Fixpoint stays (i : nat) (ops : list tcp_op) (x : net) : Prop :=
  c_in_use (conn_at x i) = true /\ match ops with [] => True | op :: ops' => stays i ops' (tcp_step op x) end.

(** Every segment for the connection carries the part of [S] its number says; [base] is the
    number of the first byte. *)
Definition segment_of (S : list Z) (base : Z) (frame : list Z) (off : nat) : Prop :=
  exists o, (o + length (seg_payload frame off) <= length S)%nat /\ seg_seq frame off = u32 (base + Z.of_nat o)
    /\ seg_payload frame off = take (length (seg_payload frame off)) (drop o S).
Definition honest (S : list Z) (base rip rport lport : Z) (op : tcp_op) : Prop :=
  match op with
  | OpPacket _ frame => forall off, tcp_off frame = Some off -> ip_src (ip_at frame) = rip ->
      th_src_port (tcp_at frame off) = rport -> th_dst_port (tcp_at frame off) = lport -> segment_of S base frame off
  | _ => True
  end.

(** What the reader has and what waits in the buffer are a prefix of the stream. *)
Definition in_order (S : list Z) (base : Z) (d : list Z) (c : tcp_conn) : Prop :=
  live c /\ buffered c = true
  /\ exists k, (k <= length S)%nat /\ d ++ c_rx c = take k S /\ (c_state c = TCP_STATE_ESTABLISHED -> c_rcv_nxt c = u32 (base + Z.of_nat k)).

Lemma in_order_keeps S base d c c' : in_order S base d c -> c_in_use c' = true -> keeps c c' -> in_order S base d c'.
Proof.
  intros (Hl&Hb&k&Hk&Hd&Hr) Hu [_ H]. destruct (H Hl) as [->|(Hl'&Er&_&_&El&Ho&He)]; [done|]. split; [done|]. split.
  - unfold buffered in *. rewrite El. destruct (is_bridged _); [|done]. simpl in *. rewrite negb_involutive in *. auto.
  - exists k. split; [done|]. split; [by rewrite Er|]. intros Es. destruct (He Es) as [Es' ->]. auto.
Qed.

Lemma u32_offset base k o : 0 <= k < 2 ^ 32 -> 0 <= o < 2 ^ 32 -> u32 (base + k) = u32 (base + o) -> k = o.
Proof.
  intros Hk Ho H. unfold u32 in H. assert ((k - o) mod 2 ^ 32 = 0) as Hm.
  { replace (k - o) with ((base + k) - (base + o)) by lia. rewrite Zminus_mod, H, Z.sub_diag. done. }
  apply Z.mod_divide in Hm as [q Hq]; [|done]. powers. nia.
Qed.

Lemma in_order_took S base d x y i frame off n : Z.of_nat (length S) < 2 ^ 32 -> in_order S base d (conn_at x i) ->
  c_state (conn_at x i) = TCP_STATE_ESTABLISHED -> segment_of S base frame off -> seg_seq frame off = c_rcv_nxt (conn_at x i) ->
  took i (seg_payload frame off) n x y -> in_order S base d (conn_at y i).
Proof.
  intros HS (Hl&Hb&k&Hk&Hd&Hr) Es (o&Ho&Eo&Ep) Eq (_&_&Hn&Hu&Hst&_&_&El&Eow&Ercv&Erx). specialize (Hr Es).
  assert (o = k) as ->.
  { assert (Z.of_nat o = Z.of_nat k); [|lia]. apply (u32_offset base); [lia|lia|]. congruence. }
  split; [split; [done|rewrite Hst; apply Hl]|]. split; [unfold buffered in *; by rewrite El, Eow|].
  exists (k + n)%nat. split; [lia|]. split.
  - rewrite Erx by done. rewrite app_assoc, Hd, Ep, take_take, Nat.min_l by lia. by rewrite take_take_drop.
  - intros _. rewrite Ercv, Hr. unfold u32. rewrite Nat2Z.inj_add, Z.add_assoc, Zplus_mod_idemp_l. done.
Qed.

Lemma recv_conn k count ok x i : net_ok x -> let y := (lucas_tcp_recv_drain k count ok x).2 in
  keeps (conn_at x i) (conn_at y i) /\ (k = i -> (lucas_tcp_recv_drain k count ok x).1.2 = [])
  \/ (k = i /\ exists n tx fl last, (lucas_tcp_recv_drain k count ok x).1.2 = take n (c_rx (conn_at x i))
      /\ conn_at y i = set_tx tx fl last (set_rx (drop n (c_rx (conn_at x i))) (conn_at x i))).
Proof.
  intros Hx. cbv zeta. pose proof (no_tab _ Hx) as Ht. unfold lucas_tcp_recv_drain. cbv zeta. destruct (rx_len (conn_at x k) =? 0) eqn:Er; [left; split; [apply keeps_refl|done]|].
  destruct ok; cbn [negb]; [|left; split; [apply keeps_refl|done]].
  assert (c_in_use (conn_at x k) = true) as Hu by (destruct (c_in_use (conn_at x k)) eqn:E; [done|by rewrite (co_free _ (no_conns _ Hx k) E) in Er]).
  pose proof (in_use_below x k Ht Hu) as Hk. set (n := if count <? rx_len (conn_at x k) then count else rx_len (conn_at x k)).
  set (x1 := upd_conn k _ x). assert (tab x1) as Ht1 by by apply tab_upd. cbn [fst snd].
  assert (forall c, set_tx (c_tx c) (c_tx_flags c) (c_last_tx_ms c) c = c) as Hid by (by intros []).
  assert (exists tx fl last, conn_at (if (n >? 0) && bool_decide (c_state (conn_at x k) = TCP_STATE_ESTABLISHED) then (tcp_send_segment k TCP_FLAG_ACK [] x1).2 else x1) i
    = if decide (k = i) then set_tx tx fl last (conn_at x1 k) else conn_at x1 i) as (tx&fl&last&->).
  { destruct (_ && _); [by apply send_conn|]. exists (c_tx (conn_at x1 k)), (c_tx_flags (conn_at x1 k)), (c_last_tx_ms (conn_at x1 k)). rewrite Hid. by case_decide; subst. }
  case_decide as Hki.
  - subst k. right. split; [done|]. exists (Z.to_nat n), tx, fl, last. split; [done|]. unfold x1. by rewrite conn_at_same.
  - left. split; [|done]. unfold x1. rewrite conn_at_other by done. apply keeps_refl.
Qed.

Lemma step_in_order S base d rip rport lport op x i : Z.of_nat (length S) < 2 ^ 32 -> net_ok x -> op_ok op ->
  c_remote_ip_be (conn_at x i) = rip -> c_remote_port_be (conn_at x i) = rport -> c_local_port_be (conn_at x i) = lport ->
  honest S base rip rport lport op -> in_order S base d (conn_at x i) -> c_in_use (conn_at (tcp_step op x) i) = true ->
  in_order S base (d ++ step_read i op x) (conn_at (tcp_step op x) i).
Proof.
  intros HS Hx Ho <- <- <- Hh Hin Hu. pose proof (no_tab _ Hx) as Ht. pose proof (proj1 Hin) as Hl.
  destruct op; cbn [tcp_step step_read op_ok] in *; rewrite ?app_nil_r.
  - destruct Ho as [_ Hf]. destruct (packet_cases isn frame x i Hx Hf Hl) as [Hk|(off&n&z&(Eo&_&_&Es&Esp&Edp)&Est&Eq&Htk&Hk)]; [by eapply in_order_keeps|].
    eapply in_order_keeps; [eapply in_order_took; eauto|exact Hu|exact Hk].
  - eapply in_order_keeps; [exact Hin|exact Hu|]. by apply calm_tick.
  - eapply in_order_keeps; [exact Hin|exact Hu|]. rewrite passive_other; [apply keeps_refl|done|apply Hl].
  - eapply in_order_keeps; [exact Hin|exact Hu|]. rewrite active_other; [apply keeps_refl|done|apply Hl].
  - eapply in_order_keeps; [exact Hin|exact Hu|]. by apply calm_do_accept.
  - eapply in_order_keeps; [exact Hin|exact Hu|]. apply keeps_refl.
  - eapply in_order_keeps; [exact Hin|exact Hu|]. by apply calm_send_data.
  - destruct (recv_conn i0 count copy_ok x i Hx) as [[Hk Hr]|(->&n&tx&fl&last&Er&Ec)].
    + replace (if decide (i0 = i) then _ else []) with (@nil Z) by (case_decide; [by rewrite Hr|done]). rewrite app_nil_r. by eapply in_order_keeps.
    + rewrite decide_True by done. rewrite Er, Ec. destruct Hin as (_&Hb&k&Hk&Hd&Hrc). split; [exact Hl|]. split; [exact Hb|]. exists k. split; [done|]. split; [|exact Hrc].
      cbn [c_rx set_tx set_rx]. by rewrite <- app_assoc, take_drop.
  - eapply in_order_keeps; [exact Hin|exact Hu|]. by apply calm_close.
  - eapply in_order_keeps; [exact Hin|exact Hu|]. apply keeps_refl.
Qed.

(** The peer of a connection does not change while it is in its slot. *)
Definition peer_of (c : tcp_conn) : Z * Z * Z := (c_remote_ip_be c, c_remote_port_be c, c_local_port_be c).
Lemma keeps_peer c c' : live c -> c_in_use c' = true -> keeps c c' -> peer_of c' = peer_of c.
Proof. intros Hl Hu [_ H]. destruct (H Hl) as [->|(_&_&E1&E2&E3&_)]; [done|]. unfold peer_of. by rewrite E1, E2, E3. Qed.

Lemma step_peer op x i : net_ok x -> op_ok op -> live (conn_at x i) -> c_in_use (conn_at (tcp_step op x) i) = true ->
  peer_of (conn_at (tcp_step op x) i) = peer_of (conn_at x i).
Proof.
  intros Hx Ho Hl Hu. pose proof (no_tab _ Hx) as Ht. destruct op; cbn [tcp_step op_ok] in *.
  - destruct Ho as [_ Hf]. destruct (packet_cases isn frame x i Hx Hf Hl) as [Hk|(off&n&z&_&_&_&(_&_&_&Huz&Hs&E1&E2&E3&_)&Hk)]; [by apply keeps_peer|].
    rewrite (keeps_peer (conn_at z i)); [unfold peer_of; by rewrite E1, E2, E3| |done|done]. split; [done|]. rewrite Hs. apply Hl.
  - apply keeps_peer; [done|done|]. by apply calm_tick.
  - by rewrite passive_other by (done || apply Hl).
  - by rewrite active_other by (done || apply Hl).
  - apply keeps_peer; [done|done|]. by apply calm_do_accept.
  - done.
  - apply keeps_peer; [done|done|]. by apply calm_send_data.
  - destruct (recv_conn i0 count copy_ok x i Hx) as [[Hk _]|(->&n&tx&fl&last&Er&Ec)]; [by apply keeps_peer|]. by rewrite Ec.
  - apply keeps_peer; [done|done|]. by apply calm_close.
  - done.
Qed.

Lemma run_in_order S base rip rport lport ops : forall d x i, Z.of_nat (length S) < 2 ^ 32 -> net_ok x -> Forall op_ok ops -> Forall (honest S base rip rport lport) ops ->
  peer_of (conn_at x i) = (rip, rport, lport) -> in_order S base d (conn_at x i) -> stays i ops x ->
  in_order S base (d ++ reads i ops x) (conn_at (tcp_run ops x) i).
Proof.
  induction ops as [|op ops IH]; intros d x i HS Hx Ho Hh Hp Hin [_ Hst]; [by rewrite app_nil_r|].
  apply Forall_cons in Ho as [Ho Hos]. apply Forall_cons in Hh as [Hh Hhs]. cbn [reads]. rewrite app_assoc.
  assert (c_in_use (conn_at (tcp_step op x) i) = true) as Hu by (destruct ops; apply Hst).
  apply (IH (d ++ step_read i op x) (tcp_step op x) i); [done|by apply tcp_step_ok|done|done| |injection Hp as E1 E2 E3; by eapply step_in_order|done].
  by rewrite step_peer by (done || apply Hin).
Qed.

