(* ===== verification/SotTcpPair.v ===== *)
(** * Two stacks on a wire

    One stack opens a connection to another; each frame one of them sends is handled by the
    other.  The handshake synchronises both and a conversation delivers to each what the other
    sent, on a bridged port to the bridge ([tcp_conversation]). *)

From S2P Require Import Prelude WalSpec NetFrame SotTcp NetTheorems SotTcpInv SotTcpStream.

(** ** Reading a frame of the stack *)

Record parsed (f : list Z) (ips ipd sp dp sq ak fl : Z) (nopt : nat) (data : list Z) : Prop := {
  pa_bytes : Forall is_byte f;
  pa_len : length f = (54 + nopt + length data)%nat;
  pa_off : tcp_off f = Some 34%nat;
  pa_ip : ihl_of (ip_at f) = 20 /\ ip_proto (ip_at f) = 6 /\ ip_src (ip_at f) = ips /\ ip_dst (ip_at f) = ipd
    /\ tcp_ntohs_ (ip_total_len (ip_at f)) = Z.of_nat (40 + nopt + length data);
  pa_ports : th_src_port (tcp_at f 34) = sp /\ th_dst_port (tcp_at f 34) = dp;
  pa_seq : tcp_ntohl_ (th_seq (tcp_at f 34)) = sq /\ tcp_ntohl_ (th_ack (tcp_at f 34)) = ak;
  pa_flags : th_flags (tcp_at f 34) = fl;
  pa_doff : doff_of (tcp_at f 34) = Z.of_nat (20 + nopt);
  pa_data : drop (54 + nopt) f = data }.

Definition opts_of (flags : Z) : list Z := if has_flag flags TCP_FLAG_SYN then LINUX_SYNACK_OPTS else [].

Lemma frame_parsed x c flags id data : rest_ok x -> conn_ok c -> is_byte flags -> r16 id -> Forall is_byte data -> (length data <= 256)%nat ->
  parsed (tcp_frame x c flags id data) (g_our_ip x) (c_remote_ip_be c) (c_local_port_be c) (c_remote_port_be c) (c_snd_nxt c) (c_rcv_nxt c) flags
    (length (opts_of flags)) data.
Proof.
  intros Hr Hc Hf Hid Hd Hl. pose proof (tcp_frame_ok x c flags id data Hr Hc Hf Hid Hd Hl) as (_&Hb&_). revert Hb. unfold tcp_frame. fold (opts_of flags).
  assert (length (opts_of flags) = 0%nat \/ length (opts_of flags) = 12%nat) as Hol by (unfold opts_of; destruct (has_flag _ _); auto).
  destruct (ro_macs _ Hr) as [[Hm _] Hrs]. destruct (ro_ip _ Hr) as [_ Hip]. destruct (co_ids _ Hc) as (_&Hrip&Hrp&Hlp&_). destruct (co_seqs _ Hc) as (Hsn&_&Hrn).
  set (dst := default _ _). assert (length dst = 6%nat) as Hdl by (unfold dst; destruct (sotnet_route_lookup _ _) as [m|] eqn:E; simpl; [by eapply route_mac_ok|done]).
  set (win := adv_window c flags). assert (0 <= win < 2 ^ 16) as Hw.
  { unfold win, adv_window. destruct (has_flag _ _); [done|]. cbv zeta. destruct (_ >? _); [done|apply u16_range]. }
  unfold ip_header, tcp_segment. set (total := u16 _). assert (total = 40 + Z.of_nat (length (opts_of flags)) + Z.of_nat (length data)) as Et by (unfold total; rewrite u16_small by (powers; lia); lia).
  assert (0 <= total < 2 ^ 16) as Htot by (rewrite Et; powers; lia).
  set (c1 := ip_csum _). set (doff := u8 _). set (c2 := tcp_csum _ _). assert (0 <= c2 < 2 ^ 16) as Hc2 by apply u16_range.
  match goal with |- Forall is_byte ?g -> _ => change g with (packet dst (n_hw_mac x) total id (g_our_ip x) (c_remote_ip_be c) c1 (c_local_port_be c) (c_remote_port_be c) (c_snd_nxt c) (c_rcv_nxt c) doff flags win c2 (opts_of flags ++ data)) end.
  intros Hb.
  pose proof (packet_len dst (n_hw_mac x) total id (g_our_ip x) (c_remote_ip_be c) c1 (c_local_port_be c) (c_remote_port_be c) (c_snd_nxt c) (c_rcv_nxt c) doff flags win c2 (opts_of flags ++ data) Hdl Hm) as HL.
  destruct (packet_ip dst (n_hw_mac x) total id (g_our_ip x) (c_remote_ip_be c) c1 (c_local_port_be c) (c_remote_port_be c) (c_snd_nxt c) (c_rcv_nxt c) doff flags win c2 (opts_of flags ++ data) Hdl Hm Htot Hip Hrip) as (I1&I2&I3&I4&I5).
  pose proof (packet_off dst (n_hw_mac x) total id (g_our_ip x) (c_remote_ip_be c) c1 (c_local_port_be c) (c_remote_port_be c) (c_snd_nxt c) (c_rcv_nxt c) doff flags win c2 (opts_of flags ++ data) Hdl Hm Htot Hip Hrip) as HO.
  pose proof (packet_tcp dst (n_hw_mac x) total id (g_our_ip x) (c_remote_ip_be c) c1 (c_local_port_be c) (c_remote_port_be c) (c_snd_nxt c) (c_rcv_nxt c) doff flags win c2 (opts_of flags ++ data) Hdl Hm Hlp Hrp Hsn Hrn Hw Hc2) as HT.
  pose proof (packet_body dst (n_hw_mac x) total id (g_our_ip x) (c_remote_ip_be c) c1 (c_local_port_be c) (c_remote_port_be c) (c_snd_nxt c) (c_rcv_nxt c) doff flags win c2 (opts_of flags ++ data) Hdl Hm) as HB.
  set (f := packet _ _ _ _ _ _ _ _ _ _ _ _ _ _ _ _) in *. split; try done.
  - rewrite HL, length_app. lia.
  - unfold ihl_of. rewrite I1, I2, I3, I4, I5. split_and!; try done. lia.
  - by rewrite HT.
  - rewrite HT. simpl. by rewrite !ntohl_htonl.
  - by rewrite HT.
  - rewrite HT. unfold doff_of. cbn [th_data_off]. unfold doff. by destruct Hol as [-> | ->].
  - rewrite <- drop_drop, HB. by rewrite drop_app_length.
Qed.

(** ** Sending with a ready device *)

Definition same_env (x y : net) : Prop := g_our_ip y = g_our_ip x /\ n_tx_ready y = n_tx_ready x /\ n_acceptors y = n_acceptors x.

Lemma send_ready i flags data x : net_ok x -> c_in_use (conn_at x i) = true -> n_tx_ready x = true -> is_byte flags -> Forall is_byte data ->
  (length (opts_of flags) + length data <= 256)%nat ->
  exists y f tx fl last, tcp_send_segment i flags data x = (0, y) /\ net_ok y /\ n_out y = n_out x ++ [TX f] /\ same_env x y
    /\ (let c := conn_at x i in parsed f (g_our_ip x) (c_remote_ip_be c) (c_local_port_be c) (c_remote_port_be c) (c_snd_nxt c) (c_rcv_nxt c) flags (length (opts_of flags)) data)
    /\ (forall j, conn_at y j = if decide (i = j) then set_tx tx fl last (conn_at x i) else conn_at x j).
Proof.
  intros Hx Hu Hrdy Hf Hd Hl. pose proof (net_ok_send i flags data x Hx Hu Hf Hd) as Hy. pose proof (no_tab _ Hx) as Ht. pose proof (in_use_below x i Ht Hu) as Hi. revert Hy.
  unfold tcp_send_segment. cbv zeta.
  assert ((if has_flag flags TCP_FLAG_SYN then Z.of_nat (length LINUX_SYNACK_OPTS) else 0) = Z.of_nat (length (opts_of flags))) as -> by (unfold opts_of; by destruct (has_flag _ _)).
  rewrite !Z.gtb_ltb. rewrite (proj2 (Z.ltb_ge TCP_TX_BUF_SIZE _)) by (unfold TCP_TX_BUF_SIZE; lia). rewrite (proj2 (Z.ltb_ge 1500 _)) by lia.
  destruct (if has_flag flags TCP_FLAG_SYN then (0, x) else sotfp_next_ip_id x) as [id x1] eqn:E1.
  assert (r16 id /\ rest_ok x1 /\ g_tcp_conns x1 = g_tcp_conns x /\ n_out x1 = n_out x /\ same_env x x1) as (Hid&Hr1&Ec&Eo&Ee).
  { destruct (has_flag flags TCP_FLAG_SYN); [injection E1 as <- <-; split; [done|]; split; [apply Hx|done]|]. destruct (next_ip_id_ok x Hx) as [Hn Hr]. rewrite E1 in *.
    unfold sotfp_next_ip_id in E1. injection E1 as <- <-. split; [done|]. split; [apply Hn|done]. }
  assert (forall k, conn_at x1 k = conn_at x k) as Ea by (intros; unfold conn_at; by rewrite Ec). rewrite !Ea.
  pose proof (frame_parsed x1 (conn_at x i) flags id data Hr1 (no_conns _ Hx i) Hf Hid Hd ltac:(lia)) as Hp. set (f := tcp_frame _ _ _ _ _) in *.
  match goal with |- context [set_tx ?a ?b ?c] => set (tx := a); set (last := c) end.
  set (x2 := upd_conn i (set_tx tx flags last) x1). unfold virtio_net_tx. pose proof (pa_len _ _ _ _ _ _ _ _ _ _ Hp) as HL.
  rewrite (proj2 (Z.eqb_neq (Z.of_nat (length f)) 0)) by lia. rewrite (Z.gtb_ltb (Z.of_nat (length f))), (proj2 (Z.ltb_ge 1500 _)) by lia. cbn [orb].
  destruct Ee as (Eip&Erdy&Eacc). assert (n_tx_ready x2 = true) as Hr2 by (change (n_tx_ready x1 = true); by rewrite Erdy).
  rewrite Hr2. cbn [negb snd]. intros Hy. exists (out (TX f) x2), f, tx, flags, last. split; [done|]. split; [done|]. split; [change (n_out x1 ++ [TX f] = n_out x ++ [TX f]); by rewrite Eo|].
  split; [done|]. split; [by rewrite <- Eip|]. intros j. change (conn_at (out (TX f) x2) j) with (conn_at x2 j). unfold x2.
  rewrite conn_at_upd by (done || by unfold tab; rewrite Ec). by rewrite !Ea.
Qed.

(** ** Receiving *)

(** What a lookup sees of a slot. *)
Definition key (c : tcp_conn) : bool * bool * Z * Z * Z :=
  (c_in_use c, bool_decide (c_state c = TCP_STATE_LISTEN), c_remote_ip_be c, c_remote_port_be c, c_local_port_be c).
Lemma lookup_key x y ip rp lp : (forall k, key (conn_at y k) = key (conn_at x k)) -> tcp_conn_lookup y ip rp lp = tcp_conn_lookup x ip rp lp.
Proof. intros H. apply first_below_ext. intros k _. cbv beta zeta. specialize (H k). injection H as -> -> -> -> ->. done. Qed.

Lemma handle_est r f x j ips sp dp sq ak fl nopt data : parsed f ips (g_our_ip x) sp dp sq ak fl nopt data -> tcp_conn_lookup x ips sp dp = Some j ->
  c_state (conn_at x j) = TCP_STATE_ESTABLISHED -> has_flag fl TCP_FLAG_RST = false -> has_flag fl TCP_FLAG_FIN = false ->
  tcp_handle_packet r f x = tcp_data_on_segment j f x.
Proof.
  intros [_ _ Ho (_&Hp&Hs&Hd&_) (Esp&Edp) _ Efl _ _] Hl Hst Hr Hf. unfold tcp_handle_packet. rewrite Ho. cbv zeta. rewrite Hp, Hd, !Z.eqb_refl. cbn [negb]. by rewrite Hs, Esp, Edp, Hl, Hst, Efl, Hr, Hf.
Qed.

(** The part of a segment before its payload is looked at. *)
Lemma data_unfold j f x ips ipd sp dp sq ak fl data : parsed f ips ipd sp dp sq ak fl 0 data ->
  let x1 := upd_conn j (fun c => set_snd_wnd (u32 (Z.shiftl (tcp_ntohs_ (th_window (tcp_at f 34))) (c_peer_wscale c))) c) x in
  let x2 := if has_flag fl TCP_FLAG_ACK && (i32 (ak - c_snd_una (conn_at x1 j)) >? 0) then upd_conn j (fun c => set_retx 0 (set_snd (c_snd_nxt c) ak c)) x1 else x1 in
  tcp_data_on_segment j f x =
    if Z.of_nat (length data) >? 0 then
      if sq =? c_rcv_nxt (conn_at x2 j) then tcp_take_payload j sq data x2 else (tcp_send_segment j TCP_FLAG_ACK [] x2).2
    else x2.
Proof.
  intros [_ HL Ho (Hih&_&_&_&Htot) _ (Esq&Eak) Efl Edo Hda]. cbv zeta. unfold tcp_data_on_segment. rewrite Ho. cbv zeta. rewrite Hih, Htot, Edo, Efl, Esq, Eak. clear Ho.
  rewrite (proj2 (Z.ltb_ge _ 20)) by lia. rewrite (proj2 (Z.ltb_ge _ (14 + 20 + _))) by lia. rewrite (proj2 (Z.ltb_ge _ (u16 _))) by (rewrite u16_small; powers; lia).
  rewrite (Z.gtb_ltb (14 + _)), (proj2 (Z.ltb_ge _ (14 + _))) by lia.
  replace (Z.of_nat (40 + 0 + length data) - 20 - Z.of_nat (20 + 0)) with (Z.of_nat (length data)) by lia.
  replace (bytes_at f _ _) with data; [done|]. unfold bytes_at. replace (Z.to_nat (14 + 20 + Z.of_nat (20 + 0))) with (54 + 0)%nat by lia. rewrite Hda, take_ge; [done|]. lia.
Qed.

(** Fields both sides rely on. *)
Definition agrees (c c' : tcp_conn) : Prop :=
  key c' = key c /\ c_state c' = c_state c /\ c_snd_nxt c' = c_snd_nxt c /\ c_app_owned c' = c_app_owned c /\ c_conn_id c' = c_conn_id c.

(** The bytes handed to the bridge for a connection, and the stream its reader sees: the receive
    buffer, or for a bridged port no sotbox accepted on, what the bridge was handed. *)
Definition pushes (cid lport : Z) (es : list net_effect) : list Z :=
  concat (omap (fun e => match e with INBOUND_PUSH c p d => if (c =? cid) && (p =? lport) then Some d else None | _ => None end) es).
Definition stream (x : net) (i : nat) : list Z :=
  let c := conn_at x i in if buffered c then c_rx c else pushes (c_conn_id c) (tcp_ntohs_ (c_local_port_be c)) (n_out x).

Lemma pushes_app cid lport es1 es2 : pushes cid lport (es1 ++ es2) = pushes cid lport es1 ++ pushes cid lport es2.
Proof. unfold pushes. by rewrite omap_app, concat_app. Qed.
Lemma pushes_tx cid lport es f : pushes cid lport (es ++ [TX f]) = pushes cid lport es.
Proof. rewrite pushes_app. apply app_nil_r. Qed.
Lemma agrees_buffered c c' : agrees c c' -> buffered c' = buffered c.
Proof. intros (K&_&_&W&_). unfold buffered, key in *. injection K as _ _ _ _ ->. by rewrite W. Qed.

(** The payload is taken: into the buffer, or by the bridge. *)
Lemma take_payload_conn j sq data x : net_ok x -> c_in_use (conn_at x j) = true -> c_state (conn_at x j) = TCP_STATE_ESTABLISHED ->
  (0 < length data <= 256)%nat -> Forall is_byte data -> (buffered (conn_at x j) = true -> rx_len (conn_at x j) + Z.of_nat (length data) <= TCP_RX_BUF_SIZE) ->
  exists y pre, tcp_take_payload j sq data x = (tcp_send_segment j TCP_FLAG_ACK [] y).2 /\ net_ok y /\ same_env x y /\ n_out y = n_out x ++ pre
    /\ (let c := conn_at x j in let c' := conn_at y j in
        agrees c c' /\ c_remote_ip_be c' = c_remote_ip_be c /\ c_snd_una c' = c_snd_una c /\ c_rcv_nxt c' = u32 (sq + Z.of_nat (length data)) /\ stream y j = stream x j ++ data)
    /\ (forall k, k <> j -> conn_at y k = conn_at x k).
Proof.
  intros Hx Hu Hst Hl Hd Hroom. pose proof (no_tab _ Hx) as Ht. pose proof (in_use_below x j Ht Hu) as Hj. unfold tcp_take_payload. cbv zeta. set (c := conn_at x j) in *.
  set (z := if is_bridged (tcp_ntohs_ (c_local_port_be c)) then _ else _).
  assert (exists pre, n_out z = n_out x ++ pre /\ g_tcp_conns z = g_tcp_conns x /\ same_env x z /\ net_ok z
    /\ (buffered c = false -> pushes (c_conn_id c) (tcp_ntohs_ (c_local_port_be c)) pre = data)) as (pre&Eo&Ec&Ee&Hz&Hpre).
  { unfold z. destruct (is_bridged _) eqn:Eb; cbn [n_out out with_out].
    - eexists. rewrite <- app_assoc. split; [done|]. split; [done|]. split; [done|]. split; [by apply net_ok_out; [apply net_ok_out|]|]. intros _. unfold pushes. cbn. rewrite !Z.eqb_refl. apply app_nil_r.
    - eexists. split; [done|]. split; [done|]. split; [done|]. split; [by apply net_ok_out|]. unfold buffered. by rewrite Eb. }
  clearbody z. assert (forall k, conn_at z k = conn_at x k) as Ez by (intros; unfold conn_at; by rewrite Ec).
  pose proof (no_conns _ Hx j) as Hc. fold c in Hc. destruct (co_rx _ Hc) as [? _]. destruct (co_counts _ Hc) as [_ ?].
  assert (0 <= Z.of_nat (length data) < 2 ^ 32) as Hl32 by (powers; lia).
  destruct (is_bridged _ && _) eqn:Eb.
  - rewrite (u32_small (Z.of_nat (length data))) by done. match goal with |- context [upd_conn j ?h z] => set (g := h) end. eexists (upd_conn j g z), pre. split; [done|].
    assert (conn_at (upd_conn j g z) j = g c) as Eg by (rewrite conn_at_same, Ez by (done || apply Hz); done). split; [|split; [exact Ee|split; [exact Eo|split]]].
    + apply upd_keep_ok; [done| |done|done]. rewrite Ez. fold c. unfold g. apply set_counts_ok; [|done|apply u64_range|done]. by apply set_rcv_ok; [|done|apply u32_range].
    + cbv zeta. assert (buffered c = false) as Hbf by (unfold buffered; by rewrite Eb). rewrite Eg. split; [done|]. split; [done|]. split; [done|]. split; [done|]. unfold stream. rewrite Eg. fold c.
      change (buffered (g c)) with (buffered c). rewrite Hbf. change (n_out (upd_conn j g z)) with (n_out z). rewrite Eo, pushes_app. f_equal. by apply Hpre.
    + intros k Hk. by rewrite conn_at_other, Ez by congruence.
  - assert (buffered c = true) as Hbf by (unfold buffered; by rewrite Eb). specialize (Hroom Hbf). rewrite (proj2 (Z.ltb_lt (rx_len c) _)) by lia.
    set (cl := if Z.of_nat (length data) <? TCP_RX_BUF_SIZE - rx_len c then _ else _).
    assert (cl = Z.of_nat (length data)) as -> by (unfold cl; case_match; bool_to_prop; lia).
    rewrite Nat2Z.id, take_ge by lia. rewrite (u32_small (Z.of_nat (length data))) by done.
    match goal with |- context [upd_conn j ?h z] => set (g := h) end. eexists (upd_conn j g z), pre. split; [done|].
    assert (conn_at (upd_conn j g z) j = g c) as Eg by (rewrite conn_at_same, Ez by (done || apply Hz); done). split; [|split; [exact Ee|split; [exact Eo|split]]].
    + apply upd_keep_ok; [done| |done|done]. rewrite Ez. fold c. unfold g. apply set_counts_ok; [|done|apply u64_range|done]. apply set_rcv_ok; [|done|apply u32_range].
      apply set_rx_ok; [done|done|by apply Forall_app_2|]. rewrite length_app. unfold rx_len in *. lia.
    + cbv zeta. rewrite Eg. split; [done|]. split; [done|]. split; [done|]. split; [done|]. unfold stream. rewrite Eg. fold c. change (buffered (g c)) with (buffered c). by rewrite Hbf.
    + intros k Hk. by rewrite conn_at_other, Ez by congruence.
Qed.

Lemma data_recv j f x ips sp dp sq ak fl data : net_ok x -> n_tx_ready x = true -> parsed f ips (g_our_ip x) sp dp sq ak fl 0 data ->
  c_in_use (conn_at x j) = true -> c_state (conn_at x j) = TCP_STATE_ESTABLISHED ->
  sq = c_rcv_nxt (conn_at x j) -> ak = c_snd_una (conn_at x j) -> (0 < length data <= 256)%nat -> Forall is_byte data ->
  (buffered (conn_at x j) = true -> rx_len (conn_at x j) + Z.of_nat (length data) <= TCP_RX_BUF_SIZE) ->
  exists y g pre, tcp_data_on_segment j f x = y /\ net_ok y /\ same_env x y /\ n_out y = n_out x ++ pre ++ [TX g]
    /\ (let c := conn_at x j in let c' := conn_at y j in
        agrees c c' /\ c_snd_una c' = c_snd_una c /\ c_rcv_nxt c' = u32 (sq + Z.of_nat (length data)) /\ stream y j = stream x j ++ data
        /\ parsed g (g_our_ip x) (c_remote_ip_be c) (c_local_port_be c) (c_remote_port_be c) (c_snd_nxt c) (c_rcv_nxt c') TCP_FLAG_ACK 0 [])
    /\ (forall k, k <> j -> conn_at y k = conn_at x k).
Proof.
  intros Hx Hrdy Hp Hu Hst -> -> Hl Hd Hroom. pose proof (no_tab _ Hx) as Ht. pose proof (in_use_below x j Ht Hu) as Hj.
  pose proof (data_unfold j f x _ _ _ _ _ _ _ _ Hp) as E. cbv zeta in E. set (x1 := upd_conn j _ x) in E. set (c := conn_at x j) in *.
  assert (conn_at x1 j = set_snd_wnd (u32 (Z.shiftl (tcp_ntohs_ (th_window (tcp_at f 34))) (c_peer_wscale c))) c) as E1 by (unfold x1; by rewrite conn_at_same).
  set (c1 := set_snd_wnd _ c) in E1. assert (net_ok x1) as H1.
  { pose proof (no_conns _ Hx j). apply upd_keep_ok; [done| |done|done]. apply set_wnd_ok; [done|done|apply u32_range]. }
  replace (i32 (c_snd_una c - c_snd_una (conn_at x1 j))) with 0 in E by (rewrite E1; simpl; by rewrite Z.sub_diag). rewrite andb_false_r in E.
  rewrite Z.gtb_ltb, (proj2 (Z.ltb_lt 0 _)) in E by lia. rewrite E1 in E. change (c_rcv_nxt c1) with (c_rcv_nxt c) in E. rewrite Z.eqb_refl in E. rewrite E. clear E.
  assert (stream x1 j = stream x j) as Es1 by (unfold stream; by rewrite E1).
  destruct (take_payload_conn j (c_rcv_nxt c) data x1 H1) as (z&pre&->&Hz&(Eip&Erdy&Eacc)&Eo&(Hag&Hrip&Hun&Hrc&Hst1)&Hoth); [by rewrite E1|by rewrite E1|done|done|by rewrite E1|].
  rewrite E1 in Hag, Hrip, Hun. pose proof Hag as (K&_&_). unfold key in K. injection K as K1 K2 K3 K4 K5.
  destruct (send_ready j TCP_FLAG_ACK [] z Hz) as (y&gf&tx&fl'&last&Es&Hy&Hout&He&Hpg&Hconns); [by rewrite K1|by rewrite Erdy|done|apply Forall_nil_2|simpl; lia|].
  rewrite Es. cbn [snd]. exists y, gf, pre. split; [done|]. split; [done|]. split; [split_and!; [rewrite (proj1 He)|rewrite (proj1 (proj2 He))|rewrite (proj2 (proj2 He))]; done|].
  split; [rewrite Hout, Eo, <- app_assoc; done|]. cbv zeta in *. assert (conn_at y j = set_tx tx fl' last (conn_at z j)) as Ey by by rewrite Hconns, decide_True. split.
  - rewrite Ey. split; [exact Hag|]. split; [exact Hun|]. split; [exact Hrc|]. split.
    + rewrite <- Es1, <- Hst1. unfold stream. rewrite Ey, Hout. change (buffered (set_tx tx fl' last (conn_at z j))) with (buffered (conn_at z j)). destruct (buffered (conn_at z j)); [done|]. apply pushes_tx.
    + destruct Hag as (_&_&N&_). change (c_rcv_nxt (set_tx tx fl' last (conn_at z j))) with (c_rcv_nxt (conn_at z j)). rewrite Eip in Hpg. rewrite K3, K4, K5, N in Hpg. exact Hpg.
  - intros k Hk. rewrite Hconns, decide_False by congruence. rewrite Hoth by congruence. unfold x1. by rewrite conn_at_other by congruence.
Qed.

Lemma ack_recv i f x ips sp dp sq ak fl : net_ok x -> parsed f ips (g_our_ip x) sp dp sq ak fl 0 [] -> r32 ak ->
  c_in_use (conn_at x i) = true -> c_state (conn_at x i) = TCP_STATE_ESTABLISHED -> has_flag fl TCP_FLAG_ACK = true -> i32 (ak - c_snd_una (conn_at x i)) > 0 ->
  let y := tcp_data_on_segment i f x in
  net_ok y /\ same_env x y /\ n_out y = n_out x
  /\ (let c := conn_at x i in let c' := conn_at y i in agrees c c' /\ c_snd_una c' = ak /\ c_rcv_nxt c' = c_rcv_nxt c /\ stream y i = stream x i)
  /\ (forall k, k <> i -> conn_at y k = conn_at x k).
Proof.
  intros Hx Hp Hak Hu Hst Hfl Hd. cbv zeta. pose proof (no_tab _ Hx) as Ht. pose proof (in_use_below x i Ht Hu) as Hi.
  pose proof (data_unfold i f x _ _ _ _ _ _ _ _ Hp) as E. cbv zeta in E. set (x1 := upd_conn i _ x) in E. set (c := conn_at x i) in *.
  assert (conn_at x1 i = set_snd_wnd (u32 (Z.shiftl (tcp_ntohs_ (th_window (tcp_at f 34))) (c_peer_wscale c))) c) as E1 by (unfold x1; by rewrite conn_at_same).
  set (c1 := set_snd_wnd _ c) in E1. assert (net_ok x1) as H1.
  { pose proof (no_conns _ Hx i). apply upd_keep_ok; [done| |done|done]. apply set_wnd_ok; [done|done|apply u32_range]. }
  change (Z.of_nat (length (@nil Z)) >? 0) with false in E. cbv iota in E. rewrite E1 in E. change (c_snd_una c1) with (c_snd_una c) in E.
  rewrite Hfl, Z.gtb_ltb, (proj2 (Z.ltb_lt 0 _)) in E by lia. cbn [andb] in E. rewrite E.
  assert (forall k, k <> i -> conn_at x1 k = conn_at x k) as Ho by (intros; unfold x1; by rewrite conn_at_other).
  split; [|split; [done|split; [done|split]]].
  - pose proof (no_conns _ H1 i) as Hc1. rewrite E1 in Hc1. destruct (co_seqs _ Hc1) as (?&_&_). apply upd_keep_ok; [done| |done|done]. rewrite E1.
    apply set_retx_ok; [|done|unfold TCP_RETX_MAX; lia]. apply set_snd_ok; [done|done| |done|done]. change (c_state c1) with (c_state c). rewrite Hst. intros [?|?]; done.
  - unfold stream. rewrite conn_at_same, E1 by (done || apply H1). done.
  - intros k Hk. rewrite conn_at_other by congruence. by apply Ho.
Qed.

(** ** The wire *)

(** The last frame a stack sent, and its delivery. *)
Definition frames (es : list net_effect) : list (list Z) := omap (fun e => match e with TX f => Some f | _ => None end) es.
Definition last_tx (x : net) : list Z := default [] (last (frames (n_out x))).
Definition deliver (rnd : Z) (src dst : net) : net := tcp_handle_packet rnd (last_tx src) dst.

Lemma last_tx_after x o f rest : n_out x = o ++ TX f :: rest -> frames rest = [] -> last_tx x = f.
Proof. intros E Hr. unfold last_tx, frames in *. rewrite E, omap_app. cbn [omap list_omap]. rewrite Hr, last_snoc. done. Qed.

(** Both ends are established, agree on the numbers, and nothing is on the way. *)
Record joined (A : net) (i : nat) (B : net) (j : nat) : Prop := {
  jo_ok : net_ok A /\ net_ok B;
  jo_ready : n_tx_ready A = true /\ n_tx_ready B = true;
  jo_state : c_state (conn_at A i) = TCP_STATE_ESTABLISHED /\ c_state (conn_at B j) = TCP_STATE_ESTABLISHED;
  jo_used : c_in_use (conn_at A i) = true /\ c_in_use (conn_at B j) = true;
  jo_addr : c_remote_ip_be (conn_at A i) = g_our_ip B /\ c_remote_ip_be (conn_at B j) = g_our_ip A
    /\ c_remote_port_be (conn_at A i) = c_local_port_be (conn_at B j) /\ c_remote_port_be (conn_at B j) = c_local_port_be (conn_at A i);
  jo_seq : c_snd_nxt (conn_at A i) = c_rcv_nxt (conn_at B j) /\ c_snd_nxt (conn_at B j) = c_rcv_nxt (conn_at A i)
    /\ c_snd_una (conn_at A i) = c_snd_nxt (conn_at A i) /\ c_snd_una (conn_at B j) = c_snd_nxt (conn_at B j);
  jo_found : tcp_conn_lookup A (g_our_ip B) (c_local_port_be (conn_at B j)) (c_local_port_be (conn_at A i)) = Some i
    /\ tcp_conn_lookup B (g_our_ip A) (c_local_port_be (conn_at A i)) (c_local_port_be (conn_at B j)) = Some j }.

Lemma joined_sym A i B j : joined A i B j -> joined B j A i.
Proof. intros [[? ?] [? ?] [? ?] [? ?] (?&?&?&?) (?&?&?&?) [? ?]]. by split. Qed.

(** A sends, B answers. *)
Definition say (i : nat) (d : list Z) (A B : net) : net * net :=
  let A1 := (tcp_send_data i d A).2 in
  let B1 := deliver 0 A1 B in
  (deliver 0 B1 A1, B1).

Lemma send_data_ready i d x : net_ok x -> n_tx_ready x = true -> c_in_use (conn_at x i) = true -> c_state (conn_at x i) = TCP_STATE_ESTABLISHED ->
  (0 < length d <= 256)%nat -> Forall is_byte d ->
  exists y f, tcp_send_data i d x = (Z.of_nat (length d), y) /\ net_ok y /\ same_env x y /\ n_out y = n_out x ++ [TX f]
    /\ (let c := conn_at x i in let c' := conn_at y i in
        key c' = key c /\ c_state c' = c_state c /\ c_app_owned c' = c_app_owned c /\ c_conn_id c' = c_conn_id c /\ c_snd_nxt c' = u32 (c_snd_nxt c + Z.of_nat (length d)) /\ c_snd_una c' = c_snd_una c
        /\ c_rcv_nxt c' = c_rcv_nxt c /\ stream y i = stream x i
        /\ parsed f (g_our_ip x) (c_remote_ip_be c) (c_local_port_be c) (c_remote_port_be c) (c_snd_nxt c) (c_rcv_nxt c) (Z.lor TCP_FLAG_ACK TCP_FLAG_PSH) 0 d)
    /\ (forall k, k <> i -> conn_at y k = conn_at x k).
Proof.
  intros Hx Hrdy Hu Hst Hl Hd. pose proof (send_data_ok i d x Hx Hd) as Hok. pose proof (no_tab _ Hx) as Ht. pose proof (in_use_below x i Ht Hu) as Hi. revert Hok. unfold tcp_send_data. rewrite Hst.
  cbn [negb andb bool_decide decide_rel tcp_state_eq_dec]. rewrite bool_decide_true by done. cbn [negb andb]. rewrite (proj2 (Nat.eqb_neq _ 0)) by lia.
  rewrite (take_ge d) by (unfold TCP_TX_BUF_SIZE; lia).
  destruct (send_ready i (Z.lor TCP_FLAG_ACK TCP_FLAG_PSH) d x Hx Hu Hrdy) as (y&f&tx&fl&last&Es&Hy&Hout&He&Hpf&Hconns); [done|done|simpl; lia|].
  rewrite Es. cbn [negb Z.eqb snd]. intros Hok. eexists _, f. split; [done|]. split; [exact Hok|]. split; [exact He|]. split; [exact Hout|]. split.
  - cbv zeta in *. unfold stream. rewrite conn_at_same by (done || apply Hy). rewrite Hconns, decide_True by done. 
    match goal with |- context [buffered ?c] => change (buffered c) with (buffered (conn_at x i)) end. split_and!; try done. destruct (buffered _); [done|].
    match goal with |- pushes ?a ?b ?o = _ => change o with (n_out y) end. rewrite Hout. apply pushes_tx.
  - intros k Hk. rewrite conn_at_other by congruence. rewrite Hconns, decide_False by congruence. done.
Qed.

Lemma key_all (x y : net) i : (forall k, k <> i -> conn_at y k = conn_at x k) -> key (conn_at y i) = key (conn_at x i) -> forall k, key (conn_at y k) = key (conn_at x k).
Proof. intros Ho Hi k. destruct (decide (k = i)) as [->|Hn]; [done|by rewrite Ho]. Qed.

Lemma i32_step a n : 0 < n <= 256 -> i32 (u32 (a + n) - a) = n.
Proof.
  intros Hn. unfold i32, u32. rewrite Zminus_mod_idemp_l. replace (a + n - a) with n by lia. rewrite Z.mod_small by (powers; lia). rewrite (proj2 (Z.ltb_lt _ _)) by lia. done.
Qed.

(** There is room for [n] more bytes where they are buffered. *)
Definition room (c : tcp_conn) (n : Z) : Prop := buffered c = true -> rx_len c + n <= TCP_RX_BUF_SIZE.

(** The connection of [x] is the one of [y], whose reader got [d] more. *)
Record follows (x : net) (i : nat) (y : net) (d : list Z) : Prop := {
  fo_conn : c_local_port_be (conn_at y i) = c_local_port_be (conn_at x i) /\ c_app_owned (conn_at y i) = c_app_owned (conn_at x i) /\ c_conn_id (conn_at y i) = c_conn_id (conn_at x i);
  fo_out : n_out x `prefix_of` n_out y;
  fo_stream : stream y i = stream x i ++ d }.

Lemma follows_buffered x i y d : follows x i y d -> buffered (conn_at y i) = buffered (conn_at x i).
Proof. intros [(E1&E2&_) _ _]. unfold buffered. by rewrite E1, E2. Qed.
Lemma follows_refl x i : follows x i x [].
Proof. split; [done|done|by rewrite app_nil_r]. Qed.
Lemma follows_trans x i y z d e : follows x i y d -> follows y i z e -> follows x i z (d ++ e).
Proof. intros [(?&?&?) ? E1] [(?&?&?) ? E2]. split; [split_and!; congruence|by etrans|by rewrite E2, E1, app_assoc]. Qed.
Lemma follows_room x i y d n : follows x i y d -> room (conn_at x i) (Z.of_nat (length d) + n) -> room (conn_at y i) n.
Proof.
  intros Hf Hr Hb. rewrite (follows_buffered _ _ _ _ Hf) in Hb. specialize (Hr Hb). pose proof (fo_stream _ _ _ _ Hf) as E. unfold stream in E. rewrite (follows_buffered _ _ _ _ Hf), Hb in E.
  unfold rx_len in *. rewrite E, length_app. lia.
Qed.

Lemma say_joined A i B j d : joined A i B j -> (0 < length d <= 256)%nat -> Forall is_byte d -> room (conn_at B j) (Z.of_nat (length d)) ->
  let '(A2, B1) := say i d A B in
  joined A2 i B1 j /\ follows A i A2 [] /\ follows B j B1 d.
Proof.
  intros [[HA HB] [RA RB] [SA SB] [UA UB] (IA&IB&PA&PB) (Q1&Q2&Q3&Q4) [FA FB]] Hl Hd Hroom. unfold say.
  destruct (send_data_ready i d A HA RA UA SA Hl Hd) as (A1&f&E1&HA1&EA1&O1&(K1&S1&W1&D1&N1&U1&V1&X1&Pf)&C1). rewrite E1. cbn [snd]. unfold deliver.
  rewrite (last_tx_after A1 _ f [] O1 eq_refl). rewrite IA, PA in Pf.
  rewrite (handle_est 0 f B j _ _ _ _ _ _ _ _ Pf FB SB eq_refl eq_refl).
  destruct (data_recv j f B _ _ _ _ _ _ d HB RB Pf UB SB Q1) as (B1&g&pre&E2&HB1&EB1&O2&(Ag2&U2&V2&X2&Pg)&C2); [congruence|done|done|done|].
  rewrite E2. rewrite (last_tx_after B1 (n_out B ++ pre) g []); [|by rewrite O2, app_assoc|done].
  cbv zeta in *. destruct EA1 as (Eip1&Erd1&_). destruct EB1 as (Eip2&Erd2&_).
  assert (forall ip rp lp, tcp_conn_lookup A1 ip rp lp = tcp_conn_lookup A ip rp lp) as LA1 by (intros; apply lookup_key, (key_all A A1 i); done).
  assert (c_in_use (conn_at A1 i) = true) as UA1 by (injection K1; congruence).
  rewrite IB in Pg. rewrite <- Eip1 in Pg. rewrite PB in Pg.
  rewrite (handle_est 0 g A1 i _ _ _ _ _ _ _ _ Pg); [|by rewrite LA1|congruence|done|done].
  destruct (ack_recv i g A1 _ _ _ _ _ _ HA1 Pg) as (HA2&EA2&O3&(Ag3&U3&V3&X3)&C3); [rewrite V2; apply u32_range|done|congruence|done|rewrite V2, U1, Q3, i32_step by lia; lia|].
  set (A2 := tcp_data_on_segment i g A1) in *. destruct EA2 as (Eip3&Erd3&_). pose proof (agrees_buffered _ _ Ag3) as Bf3. pose proof Ag2 as (K2&S2&N2&W2&D2). pose proof Ag3 as (K3&S3&N3&W3&D3).
  assert (forall ip rp lp, tcp_conn_lookup A2 ip rp lp = tcp_conn_lookup A ip rp lp) as LA2 by (intros; rewrite <- LA1; apply lookup_key, (key_all A1 A2 i); done).
  assert (forall ip rp lp, tcp_conn_lookup B1 ip rp lp = tcp_conn_lookup B ip rp lp) as LB1 by (intros; apply lookup_key, (key_all B B1 j); done).
  unfold key in K1, K2, K3. injection K1 as K1a K1b K1c K1d K1e. injection K2 as K2a K2b K2c K2d K2e. injection K3 as K3a K3b K3c K3d K3e.
  split; [|split].
  - split; [done|split; congruence|split; congruence|split; congruence|split_and!; congruence|split_and!; congruence|]. rewrite LA2, LB1. split; congruence.
  - split; [split_and!; congruence|rewrite O3, O1; by apply prefix_app_r|by rewrite app_nil_r, X3].
  - split; [done|rewrite O2; by apply prefix_app_r|done].
Qed.

(** ** Conversations *)

(** [(true, d)]: the first stack sends [d]. *)
Fixpoint converse (i j : nat) (msgs : list (bool * list Z)) (A B : net) : net * net :=
  match msgs with
  | [] => (A, B)
  | (true, d) :: msgs' => let '(A, B) := say i d A B in converse i j msgs' A B
  | (false, d) :: msgs' => let '(B, A) := say j d B A in converse i j msgs' A B
  end.
Definition said (who : bool) (msgs : list (bool * list Z)) : list Z := concat (snd <$> filter (fun m => m.1 = who) msgs).
Definition msg_ok (m : bool * list Z) : Prop := (0 < length m.2 <= 256)%nat /\ Forall is_byte m.2.

Lemma said_cons who b d msgs : said who ((b, d) :: msgs) = if decide (b = who) then d ++ said who msgs else said who msgs.
Proof. unfold said. rewrite filter_cons. cbn [fst]. by case_decide. Qed.

Lemma converse_joined i j msgs : forall A B, joined A i B j -> Forall msg_ok msgs ->
  room (conn_at A i) (Z.of_nat (length (said false msgs))) -> room (conn_at B j) (Z.of_nat (length (said true msgs))) ->
  let '(A', B') := converse i j msgs A B in
  joined A' i B' j /\ follows A i A' (said false msgs) /\ follows B j B' (said true msgs).
Proof.
  induction msgs as [|[b d] msgs IH]; intros A B Hj Hm RA RB; [split; [done|split; apply follows_refl]|]. apply Forall_cons in Hm as [[Hl Hd] Hm]. cbn [snd] in *.
  rewrite !said_cons in *. destruct b; cbn [converse]; rewrite (decide_True (P := true = true)), (decide_False (P := true = false)) in * || rewrite (decide_False (P := false = true)), (decide_True (P := false = false)) in *; try done.
  - rewrite length_app, Nat2Z.inj_add in RB. pose proof (say_joined A i B j d Hj Hl Hd) as Hs. destruct (say i d A B) as [A1 B1]. destruct Hs as (Hj1&FA&FB); [intros Hb; specialize (RB Hb); lia|].
    specialize (IH A1 B1 Hj1 Hm (follows_room _ _ _ _ _ FA RA) (follows_room _ _ _ _ _ FB RB)). destruct (converse i j msgs A1 B1) as [A2 B2].
    destruct IH as (?&FA'&FB'). split; [done|]. split; [exact (follows_trans _ _ _ _ _ _ FA FA')|by eapply follows_trans].
  - rewrite length_app, Nat2Z.inj_add in RA. pose proof (say_joined B j A i d (joined_sym _ _ _ _ Hj) Hl Hd) as Hs. destruct (say j d B A) as [B1 A1]. destruct Hs as (Hj1&FB&FA); [intros Hb; specialize (RA Hb); lia|].
    specialize (IH A1 B1 (joined_sym _ _ _ _ Hj1) Hm (follows_room _ _ _ _ _ FA RA) (follows_room _ _ _ _ _ FB RB)). destruct (converse i j msgs A1 B1) as [A2 B2].
    destruct IH as (?&FA'&FB'). split; [done|]. split; [by eapply follows_trans|exact (follows_trans _ _ _ _ _ _ FB FB')].
Qed.

(** ** The handshake *)

Lemma lookup_new x y i ip rp lp : tcp_conn_lookup x ip rp lp = None -> (i < TCP_CONN_MAX)%nat -> (forall k, k <> i -> key (conn_at y k) = key (conn_at x k)) ->
  key (conn_at y i) = (true, false, ip, rp, lp) -> tcp_conn_lookup y ip rp lp = Some i.
Proof.
  intros Hn Hi Ho Hk. unfold tcp_conn_lookup in *. injection Hk as K1 K2 K3 K4 K5.
  match goal with |- first_below ?p _ = _ => destruct (first_below_is_Some p TCP_CONN_MAX i Hi) as [k Ek] end.
  { cbv zeta. rewrite K1, K2, K3, K4, K5, !Z.eqb_refl. done. }
  rewrite Ek. f_equal. destruct (decide (k = i)) as [|Hne]; [done|]. apply first_below_Some in Ek as (Hk&Hp&_). pose proof (first_below_None _ _ _ Hn Hk) as H. cbv beta zeta in *.
  specialize (Ho k Hne). injection Ho as J1 J2 J3 J4 J5. rewrite J1, J2, J3, J4, J5, H in Hp. done.
Qed.

Lemma find_listen_index x port : find_listen_slot_index x port = tcp_conn_find_listen x port.
Proof. apply first_below_ext. intros k _. cbv zeta. by rewrite andb_assoc. Qed.

Lemma learn_conn i frame off t x : tab x -> (i < TCP_CONN_MAX)%nat -> exists w, forall k,
  conn_at (learn_wscale i frame off t x) k = if decide (i = k) then set_wscale w (conn_at x i) else conn_at x k.
Proof.
  intros Ht Hi. unfold learn_wscale. destruct (peer_wscale_of _ _ _) as [w|]; [exists w; intros; by apply conn_at_upd|].
  exists (c_peer_wscale (conn_at x i)). intros k. case_decide; [subst|done]. by destruct (conn_at x k).
Qed.
Lemma learn_env i frame off t x : same_env x (learn_wscale i frame off t x) /\ n_out (learn_wscale i frame off t x) = n_out x.
Proof. unfold learn_wscale. by destruct (peer_wscale_of _ _ _). Qed.

(** A connection just made: what the later steps look at. *)
Definition conn_is (c : tcp_conn) (s : tcp_state) (rip rport lport nxt una rcv : Z) : Prop :=
  c_in_use c = true /\ c_state c = s /\ c_remote_ip_be c = rip /\ c_remote_port_be c = rport /\ c_local_port_be c = lport
  /\ c_snd_nxt c = nxt /\ c_snd_una c = una /\ c_rcv_nxt c = rcv /\ c_rx c = [].

Lemma open_step ip port pid rnd isn A i : net_ok A -> n_tx_ready A = true -> (tcp_conn_alloc A).1 = Some i ->
  r32 ip -> r16 port -> r32 pid -> r32 isn ->
  let lport := tcp_htons_ (u16 (EPHEMERAL_PORT_BASE + rnd)) in
  exists A1 f, tcp_active_open ip port pid rnd isn A = (Some i, A1) /\ net_ok A1 /\ same_env A A1 /\ n_out A1 = n_out A ++ [TX f]
    /\ conn_is (conn_at A1 i) TCP_STATE_SYN_SENT ip port lport isn isn 0
    /\ parsed f (g_our_ip A) ip lport port isn 0 TCP_FLAG_SYN 12 []
    /\ (i < TCP_CONN_MAX)%nat /\ (forall k, k <> i -> conn_at A1 k = conn_at A k).
Proof.
  intros HA RA Ha Hip Hp Hpid Hisn lport. pose proof (active_ok ip port pid rnd isn A HA Hip Hp Hpid Hisn) as Hok. revert Hok. unfold tcp_active_open.
  pose proof (alloc_spec A (no_tab _ HA)) as Hs. destruct (tcp_conn_alloc A) as [[k|] x1]; [|done]. cbn [fst snd] in *. injection Ha as ->. destruct Hs as (Hi&Hf&->). cbv zeta. fold lport.
  match goal with |- context [upd_conn i ?f (upd_conn i ?g A)] => change f with (syn_sent_conn ip port lport pid isn); set (y := upd_conn i (syn_sent_conn ip port lport pid isn) (upd_conn i g A)) end.
  assert (net_ok y) as H1 by (apply syn_sent_ok; try done; apply u16_range).
  assert (conn_at y i = syn_sent_conn ip port lport pid isn alloc_conn) as Ey by (unfold y; rewrite !conn_at_same by (apply tab_upd, HA || done || apply HA); done).
  destruct (send_ready i TCP_FLAG_SYN [] y H1) as (A1&f&tx&fl&last&Es&HA1&Hout&He&Hpf&Hc); [by rewrite Ey|done|done|apply Forall_nil_2|simpl; lia|]. rewrite Es. cbn [negb Z.eqb].
  intros _. exists A1, f. split; [done|]. split; [done|]. split; [exact He|]. split; [exact Hout|]. cbv zeta in Hpf. rewrite Ey in Hpf. split; [rewrite Hc, decide_True, Ey by done; done|]. split; [exact Hpf|].
  split; [done|]. intros k Hk. rewrite Hc, decide_False by congruence. unfold y. by rewrite !conn_at_other by congruence.
Qed.

Lemma syn_step r f B li j ips sp port isnA : net_ok B -> n_tx_ready B = true -> r32 r -> (tcp_conn_alloc B).1 = Some j -> tcp_conn_find_listen B port = Some li ->
  tcp_conn_lookup B ips sp port = None -> parsed f ips (g_our_ip B) sp port isnA 0 TCP_FLAG_SYN 12 [] -> r32 isnA ->
  let B1 := tcp_handle_packet r f B in
  net_ok B1 /\ same_env B B1 /\ (j < TCP_CONN_MAX)%nat /\ (forall k, k <> j -> conn_at B1 k = conn_at B k)
  /\ conn_is (conn_at B1 j) TCP_STATE_SYN_RCVD ips sp port r r (u32 (isnA + 1))
  /\ exists g, n_out B1 = n_out B ++ [TX g] /\ parsed g (g_our_ip B) ips port sp r (u32 (isnA + 1)) (Z.lor TCP_FLAG_SYN TCP_FLAG_ACK) 12 [].
Proof.
  intros HB RB Hr Ha Hli Hlk [Pb PL Po (Pih&Ppr&Ps&Pd&_) (Psp&Pdp) (Psq&_) Pfl _ _] HisnA. cbv zeta.
  pose proof (packet_ok r f B HB Pb Hr) as Hok. revert Hok. unfold tcp_handle_packet. rewrite Po. cbv zeta. rewrite Ppr, Pd, !Z.eqb_refl. cbn [negb].
  rewrite Ps, Psp, Pdp, Hlk, Hli, Pfl. rewrite bool_decide_true by eauto. cbn [sotfp_unsolicited_action has_flag TCP_FLAG_SYN TCP_FLAG_RST TCP_FLAG_ACK Z.land Z.eqb negb andb Pos.land].
  change (sotfp_unsolicited_action TCP_FLAG_SYN true) with SOTFP_ACT_SYN_ACCEPT. cbv iota. unfold tcp_server_on_syn. rewrite Po. cbv zeta. rewrite Pdp, Hli, find_listen_index, Hli.
  pose proof (alloc_spec B (no_tab _ HB)) as Hs. destruct (tcp_conn_alloc B) as [[k|] x1]; [|done]. cbn [fst snd] in *. injection Ha as ->. destruct Hs as (Hj&Hf&->).
  rewrite Ps, Psp, Psq. cbn [g_conn_id_next upd_conn with_conns].
  match goal with |- context [learn_wscale j f 34 _ (upd_conn j ?h (with_conn_id ?n ?y))] =>
    change (upd_conn j h (with_conn_id n y)) with (with_conn_id n (upd_conn j (syn_rcvd_conn (g_conn_id_next B) (Z.of_nat li) ips sp port r (u32 (isnA + 1))) y)); set (n' := n) end.
  match goal with |- context [learn_wscale j f 34 _ ?y] => assert (net_ok y) as H1; [|set (x1 := y) in *] end.
  { apply with_conn_id_ok; [|exact (next_conn_id_ok B HB)]. pose proof (ro_next _ (no_rest _ HB)). apply first_below_Some in Hli as (?&_).
    apply syn_rcvd_ok; [done|done|done|unfold r16; lia|lia|rewrite <- Ps; by apply (field_range _ _ 4)|rewrite <- Psp; by apply (field_range _ _ 2)|rewrite <- Pdp; by apply (field_range _ _ 2)|done|apply u32_range]. }
  assert (forall k, conn_at x1 k = if decide (j = k) then syn_rcvd_conn (g_conn_id_next B) (Z.of_nat li) ips sp port r (u32 (isnA + 1)) alloc_conn else conn_at B k) as E1.
  { intros k. change (conn_at x1 k) with (conn_at (upd_conn j (syn_rcvd_conn (g_conn_id_next B) (Z.of_nat li) ips sp port r (u32 (isnA + 1))) (upd_conn j (fun _ => alloc_conn) B)) k).
    rewrite conn_at_upd by (apply tab_upd, HB || done). case_decide; [by rewrite conn_at_same by (apply HB || done)|by rewrite conn_at_other]. }
  assert (c_in_use (conn_at x1 j) = true) as U1 by by rewrite E1, decide_True.
  destruct (learn_wscale_ok j f 34 (tcp_at f 34) x1 H1 U1 Pb) as [H2 U2]. destruct (learn_conn j f 34 (tcp_at f 34) x1 (no_tab _ H1) Hj) as (w&E2). destruct (learn_env j f 34 (tcp_at f 34) x1) as [(Eip&Erd&Eac) Eo].
  set (x2 := learn_wscale j f 34 _ x1) in *. rewrite Pfl. change (sotfp_synack_flags TCP_FLAG_SYN) with (Z.lor TCP_FLAG_SYN TCP_FLAG_ACK).
  destruct (send_ready j (Z.lor TCP_FLAG_SYN TCP_FLAG_ACK) [] x2 H2 U2) as (B1&g&tx&fl&last&Es&HB1&Hout&(Ei&Er&Ea)&Hpf&Hc); [by rewrite Erd|done|apply Forall_nil_2|simpl; lia|]. rewrite Es. cbn [snd].
  intros Hok. split; [done|]. split; [split_and!; [rewrite Ei, Eip|rewrite Er, Erd|rewrite Ea, Eac]; done|]. split; [done|]. split; [intros k Hk; rewrite Hc, decide_False, E2, decide_False, E1, decide_False by congruence; done|].
  cbv zeta in Hpf. rewrite E2, decide_True, E1, decide_True, Eip in Hpf by done. split; [rewrite Hc, decide_True, E2, decide_True, E1, decide_True by done; done|].
  exists g. split; [rewrite Hout, Eo; done|exact Hpf].
Qed.

Lemma synack_step rnd g A i ips port lport isn r : net_ok A -> n_tx_ready A = true -> r32 rnd ->
  conn_is (conn_at A i) TCP_STATE_SYN_SENT ips port lport isn isn 0 -> tcp_conn_lookup A ips port lport = Some i ->
  parsed g ips (g_our_ip A) port lport r (u32 (isn + 1)) (Z.lor TCP_FLAG_SYN TCP_FLAG_ACK) 12 [] ->
  let A2 := tcp_handle_packet rnd g A in
  net_ok A2 /\ same_env A A2 /\ (forall k, k <> i -> conn_at A2 k = conn_at A k)
  /\ conn_is (conn_at A2 i) TCP_STATE_ESTABLISHED ips port lport (u32 (isn + 1)) (u32 (isn + 1)) (u32 (r + 1))
  /\ exists h rest, n_out A2 = n_out A ++ TX h :: rest /\ frames rest = [] /\ parsed h (g_our_ip A) ips lport port (u32 (isn + 1)) (u32 (r + 1)) TCP_FLAG_ACK 0 [].
Proof.
  intros HA RA Hrnd (Cu&Cs&Cip&Crp&Clp&Cnx&Cun&Crc&Crx) Hlk [Pb PL Po (Pih&Ppr&Ps&Pd&_) (Psp&Pdp) (Psq&Pak) Pfl _ _]. cbv zeta.
  pose proof (packet_ok rnd g A HA Pb Hrnd) as Hok. pose proof (no_tab _ HA) as Ht. pose proof (in_use_below A i Ht Cu) as Hi. revert Hok.
  unfold tcp_handle_packet. rewrite Po. cbv zeta. rewrite Ppr, Pd, !Z.eqb_refl. cbn [negb].
  rewrite Ps, Psp, Pdp, Hlk, Pfl. change (has_flag (Z.lor TCP_FLAG_SYN TCP_FLAG_ACK) TCP_FLAG_RST) with false. cbv iota. rewrite Cs. change (has_flag (Z.lor TCP_FLAG_SYN TCP_FLAG_ACK) TCP_FLAG_SYN && has_flag (Z.lor TCP_FLAG_SYN TCP_FLAG_ACK) TCP_FLAG_ACK) with true. cbv iota.
  unfold tcp_client_on_synack. cbv zeta. rewrite bool_decide_true by done. cbn [negb]. rewrite Po, Pfl, Pak, Psq. change (has_flag (Z.lor TCP_FLAG_SYN TCP_FLAG_ACK) TCP_FLAG_SYN && has_flag (Z.lor TCP_FLAG_SYN TCP_FLAG_ACK) TCP_FLAG_ACK) with true. cbn [negb].
  rewrite Cnx, Z.eqb_refl. cbn [negb]. set (f := fun c => set_cstate TCP_STATE_ESTABLISHED _). set (x1 := upd_conn i f A).
  assert (net_ok x1) as H1.
  { pose proof (no_conns _ HA i) as Hc. apply upd_steady_ok; [done| |simpl; steady_tac]. unfold f. apply set_state_ok; [|done|steady_tac]. apply set_snd_ok; [|done|done|apply u32_range|apply u32_range]. apply set_rcv_ok; [done|done|apply u32_range]. }
  assert (forall k, conn_at x1 k = if decide (i = k) then f (conn_at A i) else conn_at A k) as E1 by (intros; by apply conn_at_upd).
  assert (c_in_use (conn_at x1 i) = true) as U1 by by rewrite E1, decide_True.
  destruct (learn_wscale_ok i g 34 (tcp_at g 34) x1 H1 U1 Pb) as [H2 U2]. destruct (learn_conn i g 34 (tcp_at g 34) x1 (no_tab _ H1) Hi) as (w&E2). destruct (learn_env i g 34 (tcp_at g 34) x1) as [(Eip&Erd&Eac) Eo].
  set (x2 := learn_wscale i g 34 _ x1) in *.
  destruct (send_ready i TCP_FLAG_ACK [] x2 H2 U2) as (y&h&tx&fl&last&Es&Hy&Hout&(Ei&Er&Ea)&Hpf&Hc); [by rewrite Erd|done|apply Forall_nil_2|simpl; lia|]. rewrite Es. cbn [negb Z.eqb].
  intros Hok. split; [done|]. split; [split_and!; [change (g_our_ip y = g_our_ip A); rewrite Ei, Eip|change (n_tx_ready y = n_tx_ready A); rewrite Er, Erd|change (n_acceptors y = n_acceptors A); rewrite Ea, Eac]; done|].
  assert (forall k, conn_at (tcp_audit i y) k = if decide (i = k) then set_tx tx fl last (set_wscale w (f (conn_at A i))) else conn_at A k) as E3.
  { intros k. change (conn_at (tcp_audit i y) k) with (conn_at y k). rewrite Hc. case_decide as Hk; [by rewrite E2, decide_True, E1, decide_True by done|by rewrite E2, decide_False, E1, decide_False by done]. }
  split; [intros k Hk; by rewrite E3, decide_False by congruence|]. split; [rewrite E3, decide_True by done; done|].
  cbv zeta in Hpf. rewrite E2, decide_True, E1, decide_True, Eip in Hpf by done. cbn [c_remote_ip_be c_local_port_be c_remote_port_be c_snd_nxt c_rcv_nxt set_wscale set_cstate set_snd set_rcv f] in Hpf. rewrite Cip, Crp, Clp in Hpf.
  eexists h, _. split; [change (n_out (tcp_audit i y)) with (n_out y ++ [AUDIT_OPEN (c_origin_pid (conn_at y i)) (c_remote_ip_be (conn_at y i)) (c_remote_port_be (conn_at y i)) (c_local_port_be (conn_at y i))]); rewrite Hout, Eo, <- app_assoc; reflexivity|].
  split; [reflexivity|exact Hpf].
Qed.

(** A parked [accept] that is woken keeps every slot's key: it takes a connection over, unless it
    cannot write the peer's address, when it closes it. *)
Definition accept_keeps (w : acceptor) : Prop := aw_outcome w <> ACCEPT_BAD_ADDR.
Lemma wake_keeps x : tab x -> Forall accept_keeps (n_acceptors x) ->
  let y := lucas_accept_wake_waiter x in
  g_our_ip y = g_our_ip x /\ n_tx_ready y = n_tx_ready x
  /\ forall k, exists ls ao, conn_at y k = set_app_owned ao (set_listen_slot ls (conn_at x k)).
Proof.
  intros Ht Hf. cbv zeta. unfold lucas_accept_wake_waiter, do_accept, tcp_accept_dequeue.
  assert (forall c, exists ls ao, c = set_app_owned ao (set_listen_slot ls c)) as Hid by (intros c; exists (c_listen_slot c), (c_app_owned c); by destruct c).
  destruct (n_acceptors x) as [|w ws]; [done|]. apply Forall_cons in Hf as [Hw _]. unfold accept_keeps in Hw.
  destruct (first_below _ _) as [i|] eqn:Ef; [|done]. apply first_below_Some in Ef as (Hi&_&_).
  destruct (aw_outcome w); [| |done]; (split; [done|]; split; [done|]); intros k.
  - match goal with |- context [conn_at ?y k] => change (conn_at y k) with (conn_at (upd_conn i (set_app_owned true) (upd_conn i (set_listen_slot (-1)) x)) k) end.
    rewrite conn_at_upd by (done || by apply tab_upd). case_decide as Hk; [subst; rewrite conn_at_same by done; by eexists _, _|rewrite conn_at_other by done; apply Hid].
  - match goal with |- context [conn_at ?y k] => change (conn_at y k) with (conn_at (upd_conn i (set_listen_slot (-1)) x) k) end.
    rewrite conn_at_upd by done. case_decide as Hk; [subst; exists (-1), (c_app_owned (conn_at x k)); by destruct (conn_at x k)|apply Hid].
Qed.

Lemma ack_step rnd h B j ips sp port isnA r sq : net_ok B -> Forall accept_keeps (n_acceptors B) -> r32 rnd ->
  conn_is (conn_at B j) TCP_STATE_SYN_RCVD ips sp port r r (u32 (isnA + 1)) -> tcp_conn_lookup B ips sp port = Some j ->
  parsed h ips (g_our_ip B) sp port sq (u32 (r + 1)) TCP_FLAG_ACK 0 [] ->
  let B2 := tcp_handle_packet rnd h B in
  net_ok B2 /\ g_our_ip B2 = g_our_ip B /\ n_tx_ready B2 = n_tx_ready B /\ (forall k, key (conn_at B2 k) = key (conn_at B k))
  /\ conn_is (conn_at B2 j) TCP_STATE_ESTABLISHED ips sp port (u32 (r + 1)) (u32 (r + 1)) (u32 (isnA + 1)).
Proof.
  intros HB Hacc Hrnd (Cu&Cs&Cip&Crp&Clp&Cnx&Cun&Crc&Crx) Hlk [Pb PL Po (Pih&Ppr&Ps&Pd&_) (Psp&Pdp) (Psq&Pak) Pfl _ _]. cbv zeta.
  pose proof (packet_ok rnd h B HB Pb Hrnd) as Hok. pose proof (no_tab _ HB) as Ht. pose proof (in_use_below B j Ht Cu) as Hj. revert Hok.
  unfold tcp_handle_packet. rewrite Po. cbv zeta. rewrite Ppr, Pd, !Z.eqb_refl. cbn [negb].
  rewrite Ps, Psp, Pdp, Hlk, Pfl. change (has_flag TCP_FLAG_ACK TCP_FLAG_RST) with false. cbv iota. rewrite Cs. change (has_flag TCP_FLAG_ACK TCP_FLAG_ACK) with true. cbv iota.
  unfold tcp_server_on_ack. cbv zeta. rewrite Po, Cs. rewrite bool_decide_true by done. cbn [negb]. rewrite Pak, Cnx, Z.eqb_refl. cbn [negb].
  set (f := fun c => set_cstate TCP_STATE_ESTABLISHED _). set (z := tcp_audit j _).
  assert (forall k, conn_at z k = if decide (j = k) then f (conn_at B j) else conn_at B k) as Ez by (intros; change (conn_at z k) with (conn_at (upd_conn j f B) k); by apply conn_at_upd).
  assert (forall k, key (conn_at z k) = key (conn_at B k)) as Kz.
  { intros k. rewrite Ez. case_decide; [subst|done]. unfold key. rewrite Cs. done. }
  destruct (wake_keeps z) as (Wip&Wrd&Wc); [change (tab (upd_conn j f B)); by apply tab_upd|exact Hacc|]. change (g_our_ip z) with (g_our_ip B) in Wip. change (n_tx_ready z) with (n_tx_ready B) in Wrd.
  set (z' := lucas_accept_wake_waiter z) in *. clearbody z' z.
  match goal with |- net_ok (out _ ?y) -> _ => assert (g_our_ip y = g_our_ip z' /\ n_tx_ready y = n_tx_ready z' /\ forall k, conn_at y k = conn_at z' k) as (Y1&Y2&Ec) by (by destruct (_ =? 22)); set (y' := y) in * end.
  intros Hok. split; [done|]. split; [simpl; congruence|]. split; [simpl; congruence|]. split.
  - intros k. change (key (conn_at y' k) = key (conn_at B k)). rewrite Ec, <- Kz. by destruct (Wc k) as (ls&ao&->).
  - change (conn_is (conn_at y' j) TCP_STATE_ESTABLISHED ips sp port (u32 (r + 1)) (u32 (r + 1)) (u32 (isnA + 1))). rewrite Ec. destruct (Wc j) as (ls&ao&->). rewrite Ez, decide_True by done. done.
Qed.

(** SYN, SYN-ACK, ACK. *)
Definition handshake (port pid rnd isnA isnB : Z) (A B : net) : net * net :=
  let A1 := (tcp_active_open (g_our_ip B) port pid rnd isnA A).2 in
  let B1 := deliver isnB A1 B in
  let A2 := deliver 0 B1 A1 in
  (A2, deliver 0 A2 B1).

Lemma conn_is_key c s rip rport lport nxt una rcv : s <> TCP_STATE_LISTEN -> conn_is c s rip rport lport nxt una rcv -> key c = (true, false, rip, rport, lport).
Proof. intros Hs (Cu&Cs&Cip&Crp&Clp&_). unfold key. rewrite Cu, Cs, Cip, Crp, Clp. by rewrite bool_decide_false. Qed.

Lemma ephemeral_unbridged rnd c : 0 <= rnd < EPHEMERAL_PORT_RANGE -> c_local_port_be c = tcp_htons_ (u16 (EPHEMERAL_PORT_BASE + rnd)) -> buffered c = true.
Proof.
  unfold EPHEMERAL_PORT_RANGE, EPHEMERAL_PORT_BASE. intros Hr E. unfold buffered. rewrite E, ntohs_htons by apply u16_range. rewrite u16_small by (powers; lia). unfold is_bridged.
  rewrite !(proj2 (Z.eqb_neq _ _)) by lia. done.
Qed.

Lemma handshake_joined port pid rnd isnA isnB A B i j li :
  let lport := tcp_htons_ (u16 (EPHEMERAL_PORT_BASE + rnd)) in
  net_ok A -> net_ok B -> n_tx_ready A = true -> n_tx_ready B = true -> Forall accept_keeps (n_acceptors B) ->
  r16 port -> r32 pid -> 0 <= rnd < EPHEMERAL_PORT_RANGE -> r32 isnA -> r32 isnB ->
  (tcp_conn_alloc A).1 = Some i -> (tcp_conn_alloc B).1 = Some j -> tcp_conn_find_listen B port = Some li ->
  tcp_conn_lookup A (g_our_ip B) port lport = None -> tcp_conn_lookup B (g_our_ip A) lport port = None ->
  let '(A', B') := handshake port pid rnd isnA isnB A B in
  joined A' i B' j /\ c_local_port_be (conn_at B' j) = port /\ buffered (conn_at A' i) = true /\ c_rx (conn_at A' i) = [] /\ c_rx (conn_at B' j) = [] /\ c_snd_nxt (conn_at A' i) = u32 (isnA + 1) /\ c_snd_nxt (conn_at B' j) = u32 (isnB + 1).
Proof.
  intros lport HA HB RA RB HBacc Hport Hpid Hrnd HisnA HisnB HaA HaB Hli HlA HlB.
  assert (r32 (g_our_ip B)) as HipB by apply (ro_ip _ (no_rest _ HB)). unfold handshake, deliver.
  destruct (open_step (g_our_ip B) port pid rnd isnA A i HA RA HaA HipB Hport Hpid HisnA) as (A1&f&E1&HA1&(I1&R1&_)&O1&C1&P1&Hi&X1). fold lport in C1, P1. rewrite E1. cbn [snd].
  rewrite (last_tx_after A1 _ f [] O1 eq_refl).
  destruct (syn_step isnB f B li j (g_our_ip A) lport port isnA HB RB HisnB HaB Hli HlB P1 HisnA) as (HB1&(I2&R2&Ac2)&Hj&X2&C2&g&O2&P2). set (B1 := tcp_handle_packet isnB f B) in *.
  rewrite (last_tx_after B1 _ g [] O2 eq_refl). rewrite <- I1 in P2.
  assert (tcp_conn_lookup A1 (g_our_ip B) port lport = Some i) as LA1.
  { apply (lookup_new A); [done|done|intros k Hk; by rewrite X1|]. by eapply conn_is_key; [|exact C1]. }
  destruct (synack_step 0 g A1 i (g_our_ip B) port lport isnA isnB HA1 ltac:(congruence) ltac:(done) C1 LA1 P2) as (HA2&(I3&R3&_)&X3&C3&h&rest&O3&Fr&P3). set (A2 := tcp_handle_packet 0 g A1) in *.
  rewrite (last_tx_after A2 _ h rest O3 Fr). rewrite I1, <- I2 in P3.
  assert (tcp_conn_lookup B1 (g_our_ip A) lport port = Some j) as LB1.
  { apply (lookup_new B); [done|done|intros k Hk; by rewrite X2|]. by eapply conn_is_key; [|exact C2]. }
  destruct (ack_step 0 h B1 j (g_our_ip A) lport port isnA isnB _ HB1 ltac:(by rewrite Ac2) ltac:(done) C2 LB1 P3) as (HB2&I4&R4&KB&C4). set (B2 := tcp_handle_packet 0 h B1) in *.
  assert (forall k, key (conn_at A2 k) = key (conn_at A1 k)) as KA by (apply (key_all A1 A2 i); [done|]; pose proof (conn_is_key _ TCP_STATE_ESTABLISHED _ _ _ _ _ _ ltac:(done) C3); pose proof (conn_is_key _ TCP_STATE_SYN_SENT _ _ _ _ _ _ ltac:(done) C1); congruence).
  pose proof (lookup_key A1 A2 (g_our_ip B) port lport KA) as LA2. pose proof (lookup_key B1 B2 (g_our_ip A) lport port KB) as LB2.
  destruct C3 as (?&?&?&?&Elp&?&?&?&?). destruct C4 as (?&?&?&?&Elp'&?&?&?&?). split; [|split; [done|split; [by apply (ephemeral_unbridged rnd)|done]]]. split.
  - done.
  - split; congruence.
  - done.
  - done.
  - split_and!; congruence.
  - split_and!; congruence.
  - rewrite Elp, Elp'. split; congruence.
Qed.

(** C6: Two stacks that talk to each other: a connects to a port b listens on, with any initial
    numbers, and afterwards they exchange messages in any order.  Both ends are then established
    and agree on every sequence number with nothing unacknowledged; a's receive buffer holds
    exactly what b sent; on b, the receive buffer holds exactly what a sent when the port is not
    bridged or a parked sotbox accepted the connection, and otherwise (ports 80, 22 and 443)
    the bridge was handed exactly what a sent, for this connection and port, in order.  The conditions: both tables have a free slot
    and no connection of the same four numbers, both devices take every frame, no frame is lost, no sotbox
    parked in accept on b has an unwritable address (it would close the connection), every message has 1 to 256 bytes ([TCP_TX_BUF_SIZE], what one send takes), and nothing is read
    meanwhile, so that what is buffered is at most 16384 bytes each way. *)
Theorem tcp_conversation port pid rnd isnA isnB msgs A B i j li :
  let lport := tcp_htons_ (u16 (EPHEMERAL_PORT_BASE + rnd)) in
  net_ok A -> net_ok B -> n_tx_ready A = true -> n_tx_ready B = true -> Forall accept_keeps (n_acceptors B) ->
  r16 port -> r32 pid -> 0 <= rnd < EPHEMERAL_PORT_RANGE -> r32 isnA -> r32 isnB ->
  (tcp_conn_alloc A).1 = Some i -> (tcp_conn_alloc B).1 = Some j -> tcp_conn_find_listen B port = Some li ->
  tcp_conn_lookup A (g_our_ip B) port lport = None -> tcp_conn_lookup B (g_our_ip A) lport port = None ->
  Forall msg_ok msgs -> Z.of_nat (length (said false msgs)) <= TCP_RX_BUF_SIZE ->
  let '(A1, B1) := handshake port pid rnd isnA isnB A B in
  (buffered (conn_at B1 j) = true -> Z.of_nat (length (said true msgs)) <= TCP_RX_BUF_SIZE) ->
  let '(A', B') := converse i j msgs A1 B1 in
  let c := conn_at B' j in
  joined A' i B' j /\ c_local_port_be c = port /\ c_rx (conn_at A' i) = said false msgs
  /\ if is_bridged (tcp_ntohs_ port) && negb (c_app_owned c)
     then exists evs, n_out B' = n_out B1 ++ evs /\ pushes (c_conn_id c) (tcp_ntohs_ port) evs = said true msgs
     else c_rx c = said true msgs.
Proof.
  intros lport HA HB RA RB HBacc Hport Hpid Hrnd HisnA HisnB HaA HaB Hli HlA HlB Hm Hf.
  pose proof (handshake_joined port pid rnd isnA isnB A B i j li HA HB RA RB HBacc Hport Hpid Hrnd HisnA HisnB HaA HaB Hli HlA HlB) as H. destruct (handshake _ _ _ _ _ _ _) as [A1 B1].
  destruct H as (Hj&Hlp&HbA&XA&XB&_). intros Ht. pose proof (converse_joined i j msgs A1 B1 Hj Hm) as Hc. destruct (converse _ _ _ _ _) as [A' B'].
  destruct Hc as (Hj'&FA&FB); [intros _; unfold rx_len; rewrite XA; simpl; lia|intros Hb; unfold rx_len; rewrite XB; specialize (Ht Hb); simpl; lia|].
  pose proof (follows_buffered _ _ _ _ FA) as BA. pose proof (follows_buffered _ _ _ _ FB) as BB. destruct FA as [_ _ SA]. destruct FB as [(Ep&Ea&Ei) [evs Eo] SB]. unfold stream in SA, SB.
  rewrite BA, HbA, XA in SA. rewrite Hlp in Ep. split; [done|]. split; [done|]. split; [done|]. cbv zeta.
  rewrite BB in SB. unfold buffered in SB. rewrite Hlp, Ep, Ea, Ei, XB in *. destruct (is_bridged _ && _); cbn [negb] in SB; [|done].
  exists evs. split; [done|]. rewrite Eo, pushes_app in SB. by apply app_inv_head in SB.
Qed.
