(* ===== verification/SotTcpTimer.v ===== *)
(** * The timer of the TCP stack, one slot at a time

    What a turn of the timer and a whole scan do to one slot of the table. *)

From S2P Require Import Prelude WalSpec NetFrame SotTcp NetTheorems SotTcpInv SotTcpStream.

Definition clock_of (x : net) : Z * Z := (g_tcp_now_ms x, g_ssh_shell_conn x).

Lemma send_clock i flags data x : clock_of (tcp_send_segment i flags data x).2 = clock_of x.
Proof.
  unfold tcp_send_segment. cbv zeta. destruct (_ >? TCP_TX_BUF_SIZE); [done|]. destruct (_ >? 1500); [done|].
  assert (forall f y, clock_of (virtio_net_tx f y).2 = clock_of y) as Hv by (intros; unfold virtio_net_tx; by repeat case_match).
  destruct (has_flag flags TCP_FLAG_SYN); unfold sotfp_next_ip_id; by rewrite Hv.
Qed.

(** The time of the last transmission is kept, or it is now; FIN makes it now. *)
Lemma send_last i flags data x : tab x -> (i < TCP_CONN_MAX)%nat ->
  let last := c_last_tx_ms (conn_at (tcp_send_segment i flags data x).2 i) in
  (last = c_last_tx_ms (conn_at x i) \/ last = g_tcp_now_ms x) /\ (data = [] -> has_flag flags TCP_FLAG_SYN = false -> has_flag flags (Z.lor TCP_FLAG_SYN TCP_FLAG_FIN) = true -> last = g_tcp_now_ms x).
Proof.
  intros Ht Hi. cbv zeta. unfold tcp_send_segment. cbv zeta. destruct (_ >? TCP_TX_BUF_SIZE) eqn:E1; [split; [by left|]; intros -> Hf; by rewrite Hf in E1|].
  destruct (_ >? 1500) eqn:E2; [split; [by left|]; intros -> Hf; by rewrite Hf in E2|].
  destruct (if has_flag flags TCP_FLAG_SYN then (0, x) else sotfp_next_ip_id x) as [id x1] eqn:E3.
  assert (g_tcp_conns x1 = g_tcp_conns x /\ g_tcp_now_ms x1 = g_tcp_now_ms x) as [Ec En] by (unfold sotfp_next_ip_id in E3; by case_match; simplify_eq/=).
  assert (forall k, conn_at x1 k = conn_at x k) as Ea by (intros; unfold conn_at; by rewrite Ec).
  assert (forall f y, conn_at (virtio_net_tx f y).2 i = conn_at y i) as Hv by (intros; unfold virtio_net_tx; by repeat case_match).
  rewrite Hv, conn_at_same by (done || by unfold tab; rewrite Ec). rewrite En, !Ea. cbn [c_last_tx_ms set_tx]. split.
  - destruct (_ || _); auto.
  - intros _ _ ->. by rewrite orb_true_r.
Qed.

Lemma timer_conn_other now i x j : tab x -> i <> j -> conn_at (tcp_timer_conn now i x) j = conn_at x j /\ tab (tcp_timer_conn now i x).
Proof.
  intros Ht Hn. assert (forall y, tab y -> conn_at y j = conn_at x j -> conn_at (tcp_conn_free i y) j = conn_at x j /\ tab (tcp_conn_free i y)) as Hfree.
  { intros y Hy E. unfold tcp_conn_free. rewrite conn_at_other by done. split; [done|by apply tab_upd]. }
  assert (forall fl d y, tab y -> conn_at y j = conn_at x j -> conn_at (tcp_send_segment i fl d y).2 j = conn_at x j /\ tab (tcp_send_segment i fl d y).2) as Hsend.
  { intros fl d y Hy E. rewrite send_other by done. split; [done|by apply send_tab]. }
  assert (forall f y, tab y -> conn_at y j = conn_at x j -> conn_at (upd_conn i f y) j = conn_at x j /\ tab (upd_conn i f y)) as Hupd.
  { intros f y Hy E. rewrite conn_at_other by done. split; [done|by apply tab_upd]. }
  assert (conn_at (sotnet_tcp_close i x) j = conn_at x j /\ tab (sotnet_tcp_close i x)) as Hclose.
  { unfold sotnet_tcp_close. destruct (negb _); [done|]. destruct (c_state (conn_at x i)); try (by apply Hfree).
    all: apply Hupd; apply Hsend; done. }
  unfold tcp_timer_conn. cbv zeta. destruct (c_state (conn_at x i)); try done; repeat case_match; try done; try (by apply Hfree); try (apply Hfree; apply Hsend; done).
  all: apply Hsend; apply Hupd; done.
Qed.

Lemma timer_conn_clock now i x : clock_of (tcp_timer_conn now i x) = clock_of x.
Proof.
  assert (clock_of (sotnet_tcp_close i x) = clock_of x) as Hclose.
  { unfold sotnet_tcp_close. destruct (negb _); [done|]. destruct (c_state (conn_at x i)); try done; apply (send_clock i (Z.lor TCP_FLAG_FIN TCP_FLAG_ACK) [] x). }
  unfold tcp_timer_conn. cbv zeta. destruct (c_state (conn_at x i)); try done; repeat case_match; try done; try apply (send_clock i TCP_FLAG_RST [] x); (etransitivity; [apply send_clock|done]).
Qed.

(** The scan does to slot [j] what its turn does, with nothing of it changed before. *)
Lemma iter_slot now x j : tab x -> (j < TCP_CONN_MAX)%nat -> exists y, tab y /\ clock_of y = clock_of x /\ conn_at y j = conn_at x j /\
  tab (tcp_conn_iter (tcp_timer_conn now) x) /\ clock_of (tcp_conn_iter (tcp_timer_conn now) x) = clock_of x /\
  conn_at (tcp_conn_iter (tcp_timer_conn now) x) j = if c_in_use (conn_at x j) then conn_at (tcp_timer_conn now j y) j else conn_at x j.
Proof.
  intros Ht Hj. unfold tcp_conn_iter. set (body := fun x i => if c_in_use (conn_at x i) then tcp_timer_conn now i x else x).
  assert (forall l x, tab x -> j ∉ l -> tab (fold_left body l x) /\ clock_of (fold_left body l x) = clock_of x /\ conn_at (fold_left body l x) j = conn_at x j) as Hskip.
  { clear -Hj. intros l. induction l as [|i l IH]; intros x Ht Hn; [done|]. apply not_elem_of_cons in Hn as [Hn Hl]. cbn [fold_left].
    assert (tab (body x i) /\ clock_of (body x i) = clock_of x /\ conn_at (body x i) j = conn_at x j) as (H1&H2&H3).
    { unfold body. destruct (c_in_use _); [|done]. destruct (timer_conn_other now i x j Ht (not_eq_sym Hn)). split; [done|]. split; [apply timer_conn_clock|done]. }
    destruct (IH _ H1 Hl) as (?&E1&E2). split; [done|]. split; congruence. }
  assert (seq 0 TCP_CONN_MAX = seq 0 j ++ j :: seq (S j) (TCP_CONN_MAX - S j)) as ->.
  { replace TCP_CONN_MAX with (j + S (TCP_CONN_MAX - S j))%nat at 1 by lia. rewrite seq_app. done. }
  rewrite fold_left_app. cbn [fold_left]. destruct (Hskip (seq 0 j) x Ht) as (H1&H2&H3); [rewrite elem_of_seq; lia|]. set (y := fold_left body (seq 0 j) x) in *.
  exists y. assert (tab (body y j) /\ clock_of (body y j) = clock_of x) as [H4 H5].
  { unfold body. destruct (c_in_use (conn_at y j)) eqn:Hu; [|done]. split; [by apply calm_timer_conn|]. by rewrite timer_conn_clock. }
  destruct (Hskip (seq (S j) (TCP_CONN_MAX - S j)) (body y j) H4) as (H6&H7&H8); [rewrite elem_of_seq; lia|].
  split_and!; try done; [congruence|]. rewrite H8. unfold body. rewrite H3. by destruct (c_in_use (conn_at x j)).
Qed.
