(* ===== verification/SotTcpTheorems.v ===== *)
(** * Theorems on the TCP stack

    The invariant over runs ([tcp_invariant]), the slots the timer gives back
    ([slots_reclaimed]) and those it never does ([half_open_forever]), and a retransmission
    that the peer takes for new data ([retransmit_duplicates]). *)

From S2P Require Import Prelude Crc64 WalSpec NetFrame SotTcp NetTheorems SotTcpInv SotTcpStream SotTcpPair SotTcpTimer.

(** C27: Whatever frames arrive and whatever the callers do: every field stays within its C type
    and every buffer within its size, a free slot is cleared, no two listeners share a port,
    half-open connections have nothing to retransmit, and every frame the stack ever sent is
    well-formed with correct IP and TCP checksums. *)
Theorem tcp_invariant our_ip mac ops : r32 our_ip -> mac_ok mac -> Forall op_ok ops -> net_ok (tcp_run ops (net_init our_ip mac)).
Proof. intros Hip Hm Ho. apply run_ok; [done|]. by apply net_init_ok. Qed.

(** ** Giving slots back *)

(** Ticks in a row, and how many of them advance the clock. *)
Definition ticks (tscs : list Z) (x : net) : net := fold_left (fun x t => tcp_timer_tick t x) tscs x.
Definition advances (tsc : Z) (x : net) : bool :=
  negb (negb (tsc =? 0) && (u64 (tsc - (if last_tick_tsc x =? 0 then tsc else last_tick_tsc x)) <? TCP_TSC_PER_TICK)).
Fixpoint advanced (tscs : list Z) (x : net) : Z :=
  match tscs with [] => 0 | t :: r => (if advances t x then 1 else 0) + advanced r (tcp_timer_tick t x) end.

(** The connections the timer is meant to clear: past the handshake, not the interactive shell's,
    and with numbers that did not wrap between what was sent and what was acknowledged. *)
Definition reapable (x : net) (c : tcp_conn) : Prop :=
  c_in_use c = true /\ steady (c_state c) /\ tcp_conn_protected x (c_conn_id c) = false /\ 0 <= c_retx_count c <= TCP_RETX_MAX
  /\ (c_state c = TCP_STATE_ESTABLISHED -> c_snd_una c <= c_snd_nxt c).

(** Ticks until an age passes [T], and until a connection is cleared. *)
Definition wait (age T : Z) : Z := if age =? 2 ^ 32 - 1 then T + 2 else if T <=? age then 1 else T + 1 - age.
Definition rank (now : Z) (c : tcp_conn) : Z :=
  let age := u32 (now - c_last_tx_ms c) in
  match c_state c with
  | TCP_STATE_ESTABLISHED => if c_snd_una c =? c_snd_nxt c then wait age TCP_IDLE_TICKS else (TCP_RETX_MAX - c_retx_count c) * (TCP_RETX_TICKS + 2) + wait age TCP_RETX_TICKS
  | TCP_STATE_CLOSE_WAIT => wait age TCP_CLOSE_WAIT_TICKS + (TCP_IDLE_TICKS + 1)
  | TCP_STATE_TIME_WAIT => wait (u32 (now - c_time_wait_tick c)) TCP_TIME_WAIT_TICKS
  | _ => wait age TCP_IDLE_TICKS
  end.

Lemma wait_bound age T : 0 <= age -> 0 < T -> 1 <= wait age T <= T + 2.
Proof. intros. unfold wait. repeat case_match; bool_to_prop; lia. Qed.

(** An age that does not pass the limit at the next tick gets closer to it. *)
Lemma wait_tick n last T : 0 < T < 2 ^ 31 -> u32 (u32 (n + 1) - last) <= T -> wait (u32 (u32 (n + 1) - last)) T < wait (u32 (n - last)) T.
Proof.
  intros HT. assert (u32 (u32 (n + 1) - last) = u32 (u32 (n - last) + 1)) as ->.
  { unfold u32. rewrite Zminus_mod_idemp_l, Zplus_mod_idemp_l. f_equal. lia. }
  pose proof (u32_range (n - last)) as Hr. set (a := u32 (n - last)) in *. unfold wait. destruct (Z.eqb_spec a (2 ^ 32 - 1)) as [E|E].
  - rewrite E. change (u32 (2 ^ 32 - 1 + 1)) with 0. powers. repeat case_match; bool_to_prop; lia.
  - rewrite u32_small by lia. powers. repeat case_match; bool_to_prop; lia.
Qed.
Lemma wait_now n T : 0 < T -> wait (u32 (n - n)) T = T + 1.
Proof. intros. rewrite Z.sub_diag. change (u32 0) with 0. unfold wait. powers. repeat case_match; bool_to_prop; lia. Qed.

(** A turn of the timer clears the slot or brings it closer to being cleared. *)
Lemma timer_conn_rank n i x : tab x -> (i < TCP_CONN_MAX)%nat -> g_tcp_now_ms x = u32 (n + 1) -> reapable x (conn_at x i) ->
  let c' := conn_at (tcp_timer_conn (u32 (n + 1)) i x) i in
  c' = free_conn \/ reapable x c' /\ rank (u32 (n + 1)) c' < rank n (conn_at x i).
Proof.
  intros Ht Hi Hn Hr. cbv zeta. assert (forall y, tab y -> conn_at (tcp_conn_free i y) i = free_conn) as Hfree by (intros; unfold tcp_conn_free; by rewrite conn_at_same).
  pose proof Hr as (Hu&(Hs1&Hs2&Hs3)&Hp&Hx&Hw). unfold tcp_timer_conn. cbv zeta. set (c := conn_at x i) in *.
  assert (forall T last, 0 < T < 2 ^ 31 -> (u32 (u32 (n + 1) - last) >? T) = false -> wait (u32 (u32 (n + 1) - last)) T < wait (u32 (n - last)) T) as Hstep.
  { intros T last HT E. apply wait_tick; [done|]. rewrite Z.gtb_ltb in E. apply Z.ltb_ge in E. done. }
  destruct (c_state c) eqn:Es; try done; try (by destruct Hs3; (left + right)).
  - destruct (Z.ltb_spec (c_snd_una c) (c_snd_nxt c)) as [Hlt|Hge]; cbn [andb].
    + destruct (u32 _ >? TCP_RETX_TICKS) eqn:E.
      * destruct (c_retx_count c >=? TCP_RETX_MAX) eqn:E8; [left; apply Hfree; by apply send_tab|right].
        rewrite Z.geb_leb in E8. apply Z.leb_gt in E8. 
        set (x1 := upd_conn i _ x). assert (tab x1) as H1 by (by apply tab_upd).
        assert (conn_at x1 i = set_retx (c_retx_count c + 1) c) as E1 by (unfold x1; rewrite conn_at_same by done; cbv beta; fold c; rewrite u16_small by (unfold TCP_RETX_MAX in *; powers; lia); done).
        destruct (send_conn i (c_tx_flags c) (c_tx c) x1 i H1) as (tx&fl&last&Ec). rewrite decide_True, E1 in Ec by done. rewrite Ec. clear Ec. split; [split; [done|]; split; [exact (proj1 (proj2 Hr))|]; split; [done|]; split; [cbn; lia|intros _; cbn; lia]|].
        unfold rank. cbn [c_state set_tx set_retx c_snd_una c_snd_nxt c_last_tx_ms c_retx_count]. rewrite Es. rewrite (proj2 (Z.eqb_neq (c_snd_una c) (c_snd_nxt c))) by lia.
        pose proof (u32_range (u32 (n + 1) - last)). pose proof (u32_range (n - c_last_tx_ms c)).
        pose proof (wait_bound (u32 (u32 (n + 1) - last)) TCP_RETX_TICKS). pose proof (wait_bound (u32 (n - c_last_tx_ms c)) TCP_RETX_TICKS). unfold TCP_RETX_TICKS, TCP_RETX_MAX in *. lia.
      * right. rewrite bool_decide_true by done. rewrite (proj2 (Z.eqb_neq (c_snd_una c) (c_snd_nxt c))) by lia. cbn [andb]. split; [done|]. fold c. unfold rank. rewrite Es. rewrite (proj2 (Z.eqb_neq (c_snd_una c) (c_snd_nxt c))) by lia.
        apply Z.add_lt_mono_l. by apply Hstep.
    + rewrite bool_decide_true, Hp by done. specialize (Hw eq_refl). assert (c_snd_una c = c_snd_nxt c) as Eq by lia. rewrite (proj2 (Z.eqb_eq _ _) Eq). cbn [andb negb].
      rewrite andb_true_r. destruct (u32 _ >? TCP_IDLE_TICKS) eqn:E; [left; apply Hfree; by apply send_tab|]. right. split; [done|]. fold c. unfold rank. rewrite Es, (proj2 (Z.eqb_eq _ _) Eq). by apply Hstep.
  - destruct (u32 _ >? TCP_IDLE_TICKS) eqn:E; [left; by apply Hfree|]. right. split; [done|]. fold c. unfold rank. rewrite Es. by apply Hstep.
  - destruct (u32 _ >? TCP_IDLE_TICKS) eqn:E; [left; by apply Hfree|]. right. split; [done|]. fold c. unfold rank. rewrite Es. by apply Hstep.
  - rewrite Hp. cbn [negb]. rewrite andb_true_r. destruct (u32 _ >? TCP_CLOSE_WAIT_TICKS) eqn:E.
    + right. unfold sotnet_tcp_close. fold c. rewrite Hu, Es. cbn [negb]. cbv zeta.
      destruct (send_last i (Z.lor TCP_FLAG_FIN TCP_FLAG_ACK) [] x Ht Hi) as [_ El]. specialize (El eq_refl eq_refl eq_refl). rewrite Hn in El.
      destruct (send_conn i (Z.lor TCP_FLAG_FIN TCP_FLAG_ACK) [] x i Ht) as (tx&fl&last&Ec). rewrite decide_True in Ec by done.
      rewrite conn_at_same by (done || by apply send_tab). rewrite Ec in *. cbn [c_last_tx_ms set_tx] in El. fold c. split; [split; [done|]; split; [|done]; split_and!; try done; by intros [?|?]|].
      unfold rank. cbn [c_state set_cstate c_last_tx_ms set_snd set_tx]. rewrite Es, El, wait_now by done.
      pose proof (u32_range (n - c_last_tx_ms c)). pose proof (wait_bound (u32 (n - c_last_tx_ms c)) TCP_CLOSE_WAIT_TICKS). unfold TCP_CLOSE_WAIT_TICKS, TCP_IDLE_TICKS in *. lia.
    + right. split; [done|]. fold c. unfold rank. rewrite Es. apply Z.add_lt_mono_r. by apply Hstep.
  - destruct (u32 _ >? TCP_IDLE_TICKS) eqn:E; [left; by apply Hfree|]. right. split; [done|]. fold c. unfold rank. rewrite Es. by apply Hstep.
  - destruct (u32 _ >? TCP_IDLE_TICKS) eqn:E; [left; by apply Hfree|]. right. split; [done|]. fold c. unfold rank. rewrite Es. by apply Hstep.
  - destruct (u32 _ >? TCP_TIME_WAIT_TICKS) eqn:E; [left; by apply Hfree|]. right. split; [done|]. fold c. unfold rank. rewrite Es. by apply Hstep.
Qed.

Lemma rank_bound now c : 0 <= c_retx_count c <= TCP_RETX_MAX -> 1 <= rank now c <= 32003.
Proof.
  intros H. unfold rank. cbv zeta. pose proof (u32_range (now - c_last_tx_ms c)). pose proof (u32_range (now - c_time_wait_tick c)).
  pose proof (wait_bound (u32 (now - c_last_tx_ms c)) TCP_IDLE_TICKS). pose proof (wait_bound (u32 (now - c_last_tx_ms c)) TCP_RETX_TICKS).
  pose proof (wait_bound (u32 (now - c_last_tx_ms c)) TCP_CLOSE_WAIT_TICKS). pose proof (wait_bound (u32 (now - c_time_wait_tick c)) TCP_TIME_WAIT_TICKS).
  unfold TCP_IDLE_TICKS, TCP_RETX_TICKS, TCP_RETX_MAX, TCP_CLOSE_WAIT_TICKS, TCP_TIME_WAIT_TICKS in *. destruct (c_state c); try case_match; lia.
Qed.

(** A tick that does not advance leaves the table alone; one that does gives each slot its turn. *)
#[local] Opaque tcp_conn_iter tcp_timer_conn.
Lemma tick_cases tsc x :
  if advances tsc x then exists t, tcp_timer_tick tsc x = tcp_conn_iter (tcp_timer_conn (u32 (g_tcp_now_ms x + 1))) (with_clock (u32 (g_tcp_now_ms x + 1)) t x)
  else tcp_timer_tick tsc x = with_clock (g_tcp_now_ms x) (if last_tick_tsc x =? 0 then tsc else last_tick_tsc x) x.
Proof. unfold tcp_timer_tick, advances. cbv zeta. destruct (negb (tsc =? 0) && _); cbn [negb]; [reflexivity|]. eexists. reflexivity. Qed.
Lemma tick_slot tsc x i : tab x -> (i < TCP_CONN_MAX)%nat -> let x' := tcp_timer_tick tsc x in
  tab x' /\ g_ssh_shell_conn x' = g_ssh_shell_conn x /\
  if advances tsc x then
    g_tcp_now_ms x' = u32 (g_tcp_now_ms x + 1) /\
    exists y, tab y /\ g_tcp_now_ms y = u32 (g_tcp_now_ms x + 1) /\ g_ssh_shell_conn y = g_ssh_shell_conn x /\ conn_at y i = conn_at x i /\
      conn_at x' i = if c_in_use (conn_at x i) then conn_at (tcp_timer_conn (u32 (g_tcp_now_ms x + 1)) i y) i else conn_at x i
  else g_tcp_now_ms x' = g_tcp_now_ms x /\ conn_at x' i = conn_at x i.
Proof.
  intros Ht Hi. cbv zeta. pose proof (tick_cases tsc x) as Hc. destruct (advances tsc x); [|rewrite Hc; split; [exact Ht|split; [reflexivity|split; reflexivity]]].
  destruct Hc as (t&Hc). rewrite Hc. clear Hc.
  destruct (iter_slot (u32 (g_tcp_now_ms x + 1)) (with_clock (u32 (g_tcp_now_ms x + 1)) t x) i Ht Hi) as (y&Hy&Ey&Cy&Hz&Ez&Cz).
  revert Hz Ez Cz. generalize (tcp_conn_iter (tcp_timer_conn (u32 (g_tcp_now_ms x + 1))) (with_clock (u32 (g_tcp_now_ms x + 1)) t x)). intros w Hz Ez Cz.
  split; [exact Hz|]. split; [exact (f_equal snd Ez)|]. split; [exact (f_equal fst Ez)|]. exists y. split; [exact Hy|]. split; [exact (f_equal fst Ey)|]. split; [exact (f_equal snd Ey)|]. split; [exact Cy|exact Cz].
Qed.

Lemma tick_keeps_free tsc x i : tab x -> (i < TCP_CONN_MAX)%nat -> conn_at x i = free_conn -> conn_at (tcp_timer_tick tsc x) i = free_conn.
Proof.
  intros Ht Hi Hf. destruct (tick_slot tsc x i Ht Hi) as (_&_&H). destruct (advances tsc x).
  - destruct H as (_&y&_&_&_&_&->). by rewrite Hf.
  - by destruct H as [_ ->].
Qed.
Lemma ticks_keep_free tscs x i : tab x -> (i < TCP_CONN_MAX)%nat -> conn_at x i = free_conn -> conn_at (ticks tscs x) i = free_conn.
Proof.
  revert x. induction tscs as [|t tscs IH]; intros x Ht Hi Hf; [done|]. cbn [ticks fold_left]. apply IH; [by apply (tick_slot t x i)|done|]. by apply tick_keeps_free.
Qed.

Lemma ticks_rank tscs x i : tab x -> (i < TCP_CONN_MAX)%nat -> reapable x (conn_at x i) ->
  rank (g_tcp_now_ms x) (conn_at x i) <= advanced tscs x -> conn_at (ticks tscs x) i = free_conn.
Proof.
  revert x. induction tscs as [|t tscs IH]; intros x Ht Hi Hr Ha.
  { pose proof (rank_bound (g_tcp_now_ms x) (conn_at x i)). destruct Hr as (_&_&_&Hx&_). cbn [advanced] in Ha. lia. }
  cbn [ticks fold_left advanced] in *. destruct (tick_slot t x i Ht Hi) as (H1&H2&H3). destruct (advances t x).
  - destruct H3 as (Hn&y&Hy&Ny&Sy&Cy&Cx). assert (reapable y (conn_at y i)) as Hry by (rewrite Cy; unfold reapable, tcp_conn_protected in *; by rewrite Sy).
    rewrite (proj1 Hr) in Cx. destruct (timer_conn_rank (g_tcp_now_ms x) i y Hy Hi Ny Hry) as [E|[Hr' Hlt]].
    + apply ticks_keep_free; [done|done|]. by rewrite Cx.
    + apply IH; [done|done| |].
      * rewrite Cx. unfold reapable, tcp_conn_protected in *. by rewrite H2, <- Sy.
      * rewrite Cx, Hn. rewrite Cy in Hlt. lia.
  - destruct H3 as [Hn Cx]. apply IH; [done|done| |].
    + rewrite Cx. unfold reapable, tcp_conn_protected in *. by rewrite H2.
    + rewrite Cx, Hn. lia.
Qed.

(** C28: Slots are given back: whatever state past the handshake a connection is in, if nothing else
    touches it, its slot is cleared by the time the clock has advanced 32003 times (the time a
    half-closed connection waits for its own FIN plus the idle time), provided it is not the
    interactive shell's and [snd_una] has not passed [snd_nxt]. *)
Theorem slots_reclaimed x i tscs : net_ok x -> steady (c_state (conn_at x i)) -> c_in_use (conn_at x i) = true ->
  tcp_conn_protected x (c_conn_id (conn_at x i)) = false -> (c_state (conn_at x i) = TCP_STATE_ESTABLISHED -> c_snd_una (conn_at x i) <= c_snd_nxt (conn_at x i)) ->
  32003 <= advanced tscs x -> conn_at (ticks tscs x) i = free_conn.
Proof.
  intros Hx Hs Hu Hp Hw Ha. pose proof (no_tab _ Hx) as Ht. destruct (co_tx _ (no_conns _ Hx i)) as (_&_&_&Hrt).
  apply ticks_rank; [done|by eapply in_use_below|done|]. pose proof (rank_bound (g_tcp_now_ms x) _ Hrt). lia.
Qed.

(** ** Slots that are never given back *)

Definition waiting (c : tcp_conn) : Prop := c_in_use c = true /\ (c_state c = TCP_STATE_LISTEN \/ half_open (c_state c) /\ c_snd_una c = c_snd_nxt c).
Definition starved (x : net) : Prop := forall i, (i < TCP_CONN_MAX)%nat -> waiting (conn_at x i).

(** Everything but an acknowledgement, a reset or a close. *)
Definition no_answer (op : tcp_op) : Prop :=
  match op with
  | OpPacket _ f => match tcp_off f with None => True | Some off => has_flag (th_flags (tcp_at f off)) TCP_FLAG_ACK = false /\ has_flag (th_flags (tcp_at f off)) TCP_FLAG_RST = false end
  | OpTick _ | OpListen _ | OpConnect _ _ _ _ _ | OpAccept _ | OpPark _ | OpSend _ _ | OpShell _ => True
  | OpRecv _ _ _ | OpClose _ => False
  end.

#[local] Transparent tcp_timer_conn.
Lemma timer_waiting now i x : waiting (conn_at x i) -> tcp_timer_conn now i x = x.
Proof.
  intros [_ Hw]. unfold tcp_timer_conn. cbv zeta. destruct Hw as [-> | [[-> | ->] ->]]; [done| |]; rewrite Z.ltb_irrefl; cbn [andb]; by rewrite bool_decide_false.
Qed.
#[local] Opaque tcp_timer_conn.
Lemma iter_id body x : (forall i, (i < TCP_CONN_MAX)%nat -> body i x = x) -> tcp_conn_iter body x = x.
Proof.
  #[local] Transparent tcp_conn_iter. intros H. unfold tcp_conn_iter. assert (Forall (fun i => body i x = x) (seq 0 TCP_CONN_MAX)) as Hl by (apply Forall_seq; intros; apply H; lia).
  induction Hl as [|i l Hi _ IH]; [done|]. cbn [fold_left]. rewrite Hi. by destruct (c_in_use (conn_at x i)).
Qed.
#[local] Opaque tcp_conn_iter.

Lemma first_below_none P n : (forall i, (i < n)%nat -> P i = false) -> first_below P n = None.
Proof. intros H. destruct (first_below P n) as [i|] eqn:E; [|done]. apply first_below_Some in E as (Hi&HP&_). by rewrite H in HP. Qed.

Lemma starved_alloc x : starved x -> tcp_conn_alloc x = (None, x).
Proof. intros H. unfold tcp_conn_alloc. rewrite first_below_none; [done|]. intros i Hi. by destruct (H i Hi) as [-> _]. Qed.
Lemma starved_dequeue p x : starved x -> tcp_accept_dequeue p x = (None, x).
Proof. intros H. unfold tcp_accept_dequeue. rewrite first_below_none; [done|]. intros i Hi. destruct (H i Hi) as [-> [-> | [[-> | ->] _]]]; by rewrite bool_decide_false. Qed.

Lemma starved_packet isn f x : starved x -> no_answer (OpPacket isn f) -> g_tcp_conns (tcp_handle_packet isn f x) = g_tcp_conns x.
Proof.
  intros Hs Hn. unfold tcp_handle_packet. cbn [no_answer] in Hn. destruct (tcp_off f) as [off|] eqn:Eo; [|done]. cbv zeta. destruct Hn as [Ha Hr].
  destruct (negb (ip_proto _ =? 6)); [done|]. destruct (negb (ip_dst _ =? _)); [done|]. destruct (tcp_conn_lookup _ _ _ _) as [i|] eqn:El.
  - rewrite Hr, Ha. apply first_below_Some in El as (Hi&_). destruct (Hs i Hi) as [_ [-> | [[-> | ->] _]]]; [done|by rewrite andb_false_r|done].
  - destruct (sotfp_unsolicited_action _ _).
    + unfold tcp_server_on_syn. rewrite Eo. cbv zeta. destruct (tcp_conn_find_listen _ _); [|done]. destruct (find_listen_slot_index _ _); [|done]. by rewrite starved_alloc.
    + unfold send_rst. rewrite Eo. cbv zeta. match goal with |- context [virtio_net_tx ?r x] => generalize r end. intros r.
      unfold virtio_net_tx. by repeat case_match.
    + done.
Qed.

Lemma starved_step op x : tab x -> starved x -> no_answer op -> g_tcp_conns (tcp_step op x) = g_tcp_conns x.
Proof.
  intros Ht Hs Hn. destruct op as [isn f|tsc|p|a b c d e|w|w|i buf|i n ok|i|cid]; cbn [tcp_step]; try done.
  - by apply starved_packet.
  - pose proof (tick_cases tsc x) as Hc. destruct (advances tsc x); [|by rewrite Hc]. destruct Hc as [t ->]. rewrite iter_id; [done|].
    intros i Hi. apply timer_waiting. by apply Hs.
  - unfold tcp_passive_open. destruct (tcp_conn_find_listen _ _); [done|]. by rewrite starved_alloc.
  - unfold tcp_active_open. by rewrite starved_alloc.
  - unfold do_accept. by rewrite starved_dequeue.
  - unfold tcp_send_data. cbv zeta. destruct (decide (i < TCP_CONN_MAX)%nat) as [Hi|Hi].
    + destruct (Hs i Hi) as [_ [-> | [[-> | ->] _]]]; done.
    + by rewrite conn_at_beyond by (done || lia).
Qed.

(** Half-open connections hold their slots for ever: the timer neither retransmits nor drops a
    connection in SYN_SENT or SYN_RCVD, so once every slot listens or is half-open the table never
    changes again, however many ticks pass, frames without ACK or RST arrive, and system calls
    listen, connect, accept or send; each new SYN is turned away. *)
Theorem half_open_forever x ops : net_ok x ->
  (forall i, (i < TCP_CONN_MAX)%nat -> c_in_use (conn_at x i) = true /\ (c_state (conn_at x i) = TCP_STATE_LISTEN \/ half_open (c_state (conn_at x i)))) ->
  Forall no_answer ops -> g_tcp_conns (tcp_run ops x) = g_tcp_conns x.
Proof.
  intros Hx Hw Ho. assert (starved x) as Hs.
  { intros i Hi. destruct (Hw i Hi) as [Hu Hst]. split; [done|]. destruct Hst as [?|Hh]; [by left|]. right. split; [done|]. by apply (co_half _ (no_conns _ Hx i)). }
  pose proof (no_tab _ Hx) as Ht. clear Hx Hw. revert x Hs Ht. induction Ho as [|op ops Hop _ IH]; intros x Hs Ht; [done|]. cbn [tcp_run fold_left].
  pose proof (starved_step op x Ht Hs Hop) as E. rewrite <- E. apply IH; [|unfold tab; by rewrite E]. intros i Hi. unfold conn_at. rewrite E. by apply Hs.
Qed.

(** ** Retransmission *)

(** What a data segment leaves for the timer. *)
Lemma send_data_pending i d x : tab x -> (i < TCP_CONN_MAX)%nat -> n_tx_ready x = true -> c_state (conn_at x i) = TCP_STATE_ESTABLISHED -> (0 < length d <= 256)%nat ->
  let c := conn_at (tcp_send_data i d x).2 i in
  c_tx c = d /\ c_tx_flags c = Z.lor TCP_FLAG_ACK TCP_FLAG_PSH /\ c_last_tx_ms c = g_tcp_now_ms x /\ c_retx_count c = c_retx_count (conn_at x i).
Proof.
  intros Ht Hi Hrdy Hst Hl. cbv zeta. unfold tcp_send_data. rewrite Hst, bool_decide_true by done. cbn [negb andb]. rewrite (proj2 (Nat.eqb_neq _ 0)) by lia.
  rewrite (take_ge d) by (unfold TCP_TX_BUF_SIZE; lia). unfold tcp_send_segment. change (has_flag (Z.lor TCP_FLAG_ACK TCP_FLAG_PSH) TCP_FLAG_SYN) with false. cbv iota zeta.
  rewrite !Z.gtb_ltb. rewrite (proj2 (Z.ltb_ge TCP_TX_BUF_SIZE _)) by (unfold TCP_TX_BUF_SIZE; lia). rewrite (proj2 (Z.ltb_ge 1500 _)) by lia. rewrite (proj2 (Z.ltb_lt 0 _)) by lia. cbn [orb].
  unfold sotfp_next_ip_id. cbv zeta. set (x1 := with_ip_id _ x). set (f := tcp_frame _ _ _ _ _). clearbody f. change (conn_at x1 i) with (conn_at x i). change (g_tcp_now_ms x1) with (g_tcp_now_ms x).
  set (x2 := upd_conn i _ x1). assert (conn_at x2 i = set_tx d (Z.lor TCP_FLAG_ACK TCP_FLAG_PSH) (g_tcp_now_ms x) (conn_at x i)) as E2 by (unfold x2; by rewrite conn_at_same).
  assert (tab x2) as H2 by (by apply tab_upd). clearbody x2.
  destruct (virtio_net_tx f x2) as [rc x3] eqn:E3. assert (conn_at x3 i = conn_at x2 i /\ tab x3) as [E4 H3] by (unfold virtio_net_tx in E3; by repeat case_match; simplify_eq).
  destruct (negb (rc =? 0)); cbn [snd]; [by rewrite E4, E2|]. rewrite conn_at_same by done. by rewrite E4, E2.
Qed.

(** The segment the timer sends again carries the number after the data. *)
#[local] Transparent tcp_timer_conn.
Lemma timer_resends now i x : net_ok x -> n_tx_ready x = true -> c_in_use (conn_at x i) = true -> c_state (conn_at x i) = TCP_STATE_ESTABLISHED ->
  c_snd_una (conn_at x i) < c_snd_nxt (conn_at x i) -> c_retx_count (conn_at x i) < TCP_RETX_MAX -> u32 (now - c_last_tx_ms (conn_at x i)) > TCP_RETX_TICKS ->
  c_tx_flags (conn_at x i) = Z.lor TCP_FLAG_ACK TCP_FLAG_PSH ->
  exists y f, tcp_timer_conn now i x = y /\ n_out y = n_out x ++ [TX f] /\ c_snd_nxt (conn_at y i) = c_snd_nxt (conn_at x i)
    /\ let c := conn_at x i in parsed f (g_our_ip x) (c_remote_ip_be c) (c_local_port_be c) (c_remote_port_be c) (c_snd_nxt c) (c_rcv_nxt c) (c_tx_flags c) 0 (c_tx c).
Proof.
  intros Hx Hrdy Hu Hst Hlt Hr Hd Hfl. pose proof (no_tab _ Hx) as Ht. pose proof (in_use_below x i Ht Hu) as Hi. pose proof (no_conns _ Hx i) as Hc. destruct (co_tx _ Hc) as (Htx&Hlen&Hbf&Hrt).
  unfold tcp_timer_conn. cbv zeta. set (c := conn_at x i) in *. rewrite Hst. rewrite (proj2 (Z.ltb_lt _ _) Hlt). rewrite Z.gtb_ltb, (proj2 (Z.ltb_lt TCP_RETX_TICKS _)) by lia. cbn [andb].
  rewrite Z.geb_leb, (proj2 (Z.leb_gt TCP_RETX_MAX _)) by lia. set (x1 := upd_conn i _ x).
  assert (conn_at x1 i = set_retx (u16 (c_retx_count c + 1)) c) as E1 by (unfold x1; by rewrite conn_at_same).
  assert (net_ok x1) as H1.
  { apply upd_keep_ok; [done| |done|done]. apply set_retx_ok; [done|done|]. fold c. rewrite u16_small by (unfold TCP_RETX_MAX in *; powers; lia). lia. }
  destruct (send_ready i (c_tx_flags c) (c_tx c) x1 H1) as (y&f&tx&fl&last&Es&Hy&Hout&He&Hpf&Hconns); [by rewrite E1|done|done|done|rewrite Hfl; unfold TCP_TX_BUF_SIZE in Hlen; simpl; lia|].
  rewrite Es. exists y, f. split; [done|]. split; [done|]. rewrite Hconns, decide_True, E1 by done. split; [done|]. rewrite E1 in Hpf. rewrite Hfl in *. exact Hpf.
Qed.

(** A retransmission is taken for new data: [tcp_send_segment] numbers every segment with
    [snd_nxt], so when B has the data but its acknowledgement is lost, A's timer sends the same bytes
    under the next number and B appends them a second time; from then on B expects more than A has
    sent. *)
Theorem retransmit_duplicates A i B j d now : joined A i B j -> (0 < length d <= 256)%nat -> Forall is_byte d ->
  room (conn_at B j) (2 * Z.of_nat (length d)) -> c_snd_nxt (conn_at A i) + Z.of_nat (length d) < 2 ^ 32 ->
  c_retx_count (conn_at A i) < TCP_RETX_MAX -> u32 (now - g_tcp_now_ms A) > TCP_RETX_TICKS ->
  let A1 := (tcp_send_data i d A).2 in
  let B1 := deliver 0 A1 B in
  let A2 := tcp_timer_conn now i A1 in
  let B2 := deliver 0 A2 B1 in
  stream B1 j = stream B j ++ d /\ stream B2 j = stream B j ++ d ++ d
  /\ c_rcv_nxt (conn_at B2 j) = u32 (c_snd_nxt (conn_at A2 i) + Z.of_nat (length d)).
Proof.
  intros [[HA HB] [RA RB] [SA SB] [UA UB] (IA&IB&PA&PB) (Q1&Q2&Q3&Q4) [FA FB]] Hl Hd Hroom Hw Hr Hdue. cbv zeta. pose proof (no_tab _ HA) as HtA. pose proof (in_use_below A i HtA UA) as Hi.
  destruct (send_data_pending i d A HtA Hi RA SA Hl) as (T1&T2&T3&T4).
  destruct (send_data_ready i d A HA RA UA SA Hl Hd) as (A1&f&E1&HA1&EA1&O1&(K1&S1&W1&D1&N1&U1&V1&X1&Pf)&C1). rewrite E1 in *. cbn [snd] in *. unfold deliver.
  rewrite (last_tx_after A1 _ f [] O1 eq_refl). rewrite IA, PA in Pf.
  rewrite (handle_est 0 f B j _ _ _ _ _ _ _ _ Pf FB SB eq_refl eq_refl).
  destruct (data_recv j f B _ _ _ _ _ _ d HB RB Pf UB SB Q1) as (B1&g&pre&E2&HB1&EB1&O2&(Ag2&U2&V2&X2&Pg)&C2); [congruence|done|done|intros Hb; specialize (Hroom Hb); lia|].
  pose proof (follows_room B j B1 d (Z.of_nat (length d))) as Hroom'. pose proof Ag2 as (K2&S2&N2&W2&D2).
  rewrite E2. cbv zeta in *. destruct EA1 as (Eip1&Erd1&_). destruct EB1 as (Eip2&Erd2&_).
  assert (c_snd_nxt (conn_at A1 i) = c_snd_nxt (conn_at A i) + Z.of_nat (length d)) as N1'.
  { rewrite N1, u32_small; [done|]. destruct (co_seqs _ (no_conns _ HA i)) as ([? _]&_). lia. }
  destruct (timer_resends now i A1 HA1) as (A2&h&E3&O3&N3&Ph); [congruence|injection K1; congruence|congruence|rewrite U1, Q3, N1'; lia|rewrite T4; done|by rewrite T3|done|].
  rewrite E3, N3. rewrite (last_tx_after A2 _ h [] O3 eq_refl). cbv zeta in Ph. rewrite T1, T2 in Ph. injection K1 as K1a K1b K1c K1d K1e. injection K2 as K2a K2b K2c K2d K2e.
  rewrite K1c, K1d, K1e, Eip1, IA, PA in Ph. rewrite <- Eip2 in Ph.
  assert (forall ip rp lp, tcp_conn_lookup B1 ip rp lp = tcp_conn_lookup B ip rp lp) as LB1 by (intros; apply lookup_key, (key_all B B1 j); [done|]; unfold key; congruence).
  rewrite (handle_est 0 h B1 j _ _ _ _ _ _ _ _ Ph); [|by rewrite LB1|congruence|done|done].
  destruct (data_recv j h B1 _ _ _ _ _ _ d HB1 (eq_trans Erd2 RB) Ph) as (B2&g2&pre2&E4&_&_&_&(_&_&V4&X4&_)&_); [congruence|congruence|congruence|congruence|done|done| |].
  { apply Hroom'; [split; [split_and!; congruence|rewrite O2; by apply prefix_app_r|done]|]. intros Hb. specialize (Hroom Hb). lia. }
  rewrite E4. split; [done|]. split; [rewrite X4, X2, <- app_assoc; done|done].
Qed.

(** ** Two machines *)

(** 10.0.2.15 talks to 10.0.2.16, which listens on port 8080. *)
Module TcpDemo.
Definition ip_a : Z := 0x0F02000A.
Definition ip_b : Z := 0x1002000A.
Definition mac_a : list Z := [0x52; 0x54; 0; 0x12; 0x34; 0x56].
Definition mac_b : list Z := [0x52; 0x54; 0; 0x12; 0x34; 0x57].
Definition port : Z := tcp_htons_ 8080.
Definition a0 : net := net_init ip_a mac_a.
Definition b0 : net := tcp_run [OpListen port] (net_init ip_b mac_b).
Definition pair : net * net := handshake port 7 5 1000 5000 a0 b0.
Definition a1 : net := pair.1.
Definition b1 : net := pair.2.

Lemma macs_ok : mac_ok mac_a /\ mac_ok mac_b.
Proof. split; (split; [reflexivity|]; unfold is_byte; repeat constructor; lia). Qed.
Lemma a0_ok : net_ok a0.
Proof. apply net_init_ok; [vm_compute; split; discriminate || reflexivity|apply macs_ok]. Qed.
Lemma b0_ok : net_ok b0.
Proof. apply run_ok; [apply Forall_cons; split; [vm_compute; split; discriminate || reflexivity|apply Forall_nil_2]|]. apply net_init_ok; [vm_compute; split; discriminate || reflexivity|apply macs_ok]. Qed.

Lemma pair_joined : joined a1 0 b1 1 /\ c_snd_nxt (conn_at a1 0) = 1001 /\ c_rx (conn_at b1 1) = [].
Proof.
  pose proof (handshake_joined port 7 5 1000 5000 a0 b0 0 1 0 a0_ok b0_ok eq_refl eq_refl (Forall_nil_2 _)) as H. unfold a1, b1. cbv zeta in H. unfold pair.
  destruct (handshake port 7 5 1000 5000 a0 b0) as [A B]. cbn [fst snd].
  destruct H as (Hj&_&_&_&Hb&Hn&_); try (vm_compute; split; discriminate || reflexivity); try reflexivity; try (vm_compute; reflexivity). split; [exact Hj|]. split; [exact Hn|exact Hb].
Qed.

(** A run of the listener's machine: a connection, a frame of junk, a tick, calls. *)
Definition syn0 : list Z := Eval vm_compute in last_tx (tcp_active_open ip_b port 7 5 1000 a0).2.
Definition syn (k : Z) : list Z := take 34 syn0 ++ [k; 192] ++ drop 36 syn0.

Lemma tcp_invariant_witness : net_ok (tcp_run [OpListen port; OpPacket 9 (syn 1); OpTick 0; OpPacket 10 [1; 2; 3]; OpSend 1 [65]; OpClose 1] (net_init ip_b mac_b)).
Proof.
  apply tcp_invariant; [vm_compute; split; discriminate || reflexivity|apply macs_ok|].
  unfold op_ok, r32, r16, is_byte. repeat (apply Forall_cons; split); try apply Forall_nil_2; try exact I; try (vm_compute; split; discriminate || reflexivity).
  - split; [lia|]. apply bytes_dec. vm_compute. reflexivity.
  - split; [lia|]. repeat constructor; lia.
Defined.

(** The client says two things, the listener answers. *)
Definition talk : list (bool * list Z) := [(true, [71; 69; 84]); (false, [79; 75]); (true, [10])].
Definition web : Z := tcp_htons_ 80.
Definition b80 : net := tcp_run [OpListen web] (net_init ip_b mac_b).
Lemma b80_ok : net_ok b80.
Proof. apply run_ok; [apply Forall_cons; split; [vm_compute; split; discriminate || reflexivity|apply Forall_nil_2]|]. apply net_init_ok; [vm_compute; split; discriminate || reflexivity|apply macs_ok]. Qed.
Lemma talk_ok : Forall msg_ok talk.
Proof. unfold msg_ok, talk, is_byte. repeat (apply Forall_cons; split); try apply Forall_nil_2; cbn [snd length]; (split; [lia|]); repeat constructor; lia. Qed.

(** On port 8080 the listener buffers the request; on port 80 the bridge is handed it. *)
Lemma tcp_conversation_witness :
  (let '(A1, B1) := handshake port 7 5 1000 5000 a0 b0 in let '(A', B') := converse 0 1 talk A1 B1 in
   joined A' 0 B' 1 /\ c_rx (conn_at A' 0) = [79; 75] /\ c_rx (conn_at B' 1) = [71; 69; 84; 10])
  /\ (let '(A1, B1) := handshake web 7 5 1000 5000 a0 b80 in let '(A', B') := converse 0 1 talk A1 B1 in
   joined A' 0 B' 1 /\ c_rx (conn_at A' 0) = [79; 75]
   /\ exists evs, n_out B' = n_out B1 ++ evs /\ pushes (c_conn_id (conn_at B' 1)) 80 evs = [71; 69; 84; 10]).
Proof.
  split.
  - pose proof (tcp_conversation port 7 5 1000 5000 talk a0 b0 0 1 0 a0_ok b0_ok eq_refl eq_refl (Forall_nil_2 _)) as H. cbv zeta in H.
    specialize (H ltac:(vm_compute; split; discriminate || reflexivity) ltac:(vm_compute; split; discriminate || reflexivity) ltac:(vm_compute; split; discriminate || reflexivity)
      ltac:(vm_compute; split; discriminate || reflexivity) ltac:(vm_compute; split; discriminate || reflexivity) eq_refl eq_refl eq_refl eq_refl eq_refl talk_ok ltac:(vm_compute; discriminate)).
    destruct (handshake _ _ _ _ _ _ _) as [A1 B1]. specialize (H ltac:(intros _; vm_compute; discriminate)). destruct (converse _ _ _ _ _) as [A' B']. destruct H as (Hj&_&HA&HB). done.
  - pose proof (tcp_conversation web 7 5 1000 5000 talk a0 b80 0 1 0 a0_ok b80_ok eq_refl eq_refl (Forall_nil_2 _)) as H. cbv zeta in H.
    specialize (H ltac:(vm_compute; split; discriminate || reflexivity) ltac:(vm_compute; split; discriminate || reflexivity) ltac:(vm_compute; split; discriminate || reflexivity)
      ltac:(vm_compute; split; discriminate || reflexivity) ltac:(vm_compute; split; discriminate || reflexivity) eq_refl eq_refl eq_refl eq_refl eq_refl talk_ok ltac:(vm_compute; discriminate)).
    assert (c_app_owned (conn_at (converse 0 1 talk (handshake web 7 5 1000 5000 a0 b80).1 (handshake web 7 5 1000 5000 a0 b80).2).2 1) = false) as Ho by (vm_compute; reflexivity).
    destruct (handshake _ _ _ _ _ _ _) as [A1 B1]. cbn [fst snd] in Ho. specialize (H ltac:(intros _; vm_compute; discriminate)). destruct (converse _ _ _ _ _) as [A' B']. cbn [fst snd] in Ho. destruct H as (Hj&_&HA&HB).
    rewrite Ho in HB. done.
Defined.

(** Any of its states is cleared by 32003 ticks of a machine without a cycle counter. *)
Lemma advanced_zero k x : advanced (replicate k 0) x = Z.of_nat k.
Proof. revert x. induction k as [|k IH]; intros x; [reflexivity|]. change (1 + advanced (replicate k 0) (tcp_timer_tick 0 x) = Z.of_nat (S k)). rewrite IH. lia. Qed.
Lemma slots_reclaimed_witness : c_state (conn_at b1 1) = TCP_STATE_ESTABLISHED /\ conn_at (ticks (replicate (Z.to_nat 32003) 0) b1) 1 = free_conn.
Proof.
  destruct pair_joined as [Hj _]. split; [apply Hj|]. apply slots_reclaimed; [apply Hj|rewrite (proj2 (jo_state _ _ _ _ Hj)); split_and!; try done; by intros [?|?]|apply Hj|vm_compute; reflexivity| |rewrite advanced_zero; lia].
  destruct (jo_seq _ _ _ _ Hj) as (_&_&_&->). intros _. apply Z.le_refl.
Defined.

(** The acknowledgement of [hello] is lost. *)
Lemma retransmit_duplicates_witness :
  let hello := [104; 101; 108; 108; 111] in
  let A1 := (tcp_send_data 0 hello a1).2 in
  let B1 := deliver 0 A1 b1 in
  let B2 := deliver 0 (tcp_timer_conn 1001 0 A1) B1 in
  c_rx (conn_at B2 1) = hello ++ hello.
Proof.
  destruct pair_joined as (Hj&Hn&Hr). cbv zeta. destruct (retransmit_duplicates a1 0 b1 1 [104; 101; 108; 108; 111] 1001 Hj) as (_&E&_).
  - simpl. lia.
  - unfold is_byte. repeat constructor; lia.
  - intros _. unfold rx_len. rewrite Hr. vm_compute. discriminate.
  - rewrite Hn. vm_compute. reflexivity.
  - vm_compute. reflexivity.
  - vm_compute. reflexivity.
  - assert (stream (deliver 0 (tcp_timer_conn 1001 0 (tcp_send_data 0 [104; 101; 108; 108; 111] a1).2) (deliver 0 (tcp_send_data 0 [104; 101; 108; 108; 111] a1).2 b1)) 1 = stream b1 1 ++ [104; 101; 108; 108; 111] ++ [104; 101; 108; 108; 111]) as E' by exact E. revert E'. vm_compute. done.
Defined.

(** Thirty-one SYNs from different ports fill the table of the listener; then ticks, one more SYN,
    a connect and an accept. *)
Definition flooded : net := tcp_run (OpListen port :: ((fun k => OpPacket (Z.of_nat k) (syn (Z.of_nat k))) <$> seq 1 31)) (net_init ip_b mac_b).
Lemma flooded_ok : net_ok flooded.
Proof.
  apply run_ok; [|apply net_init_ok; [vm_compute; split; discriminate || reflexivity|apply macs_ok]]. apply Forall_cons. split; [vm_compute; split; discriminate || reflexivity|].
  apply Forall_fmap, Forall_seq. intros k Hk. cbn [op_ok compose]. unfold r32. split; [powers; lia|]. unfold syn. apply Forall_app. split; [apply bytes_dec; vm_compute; reflexivity|].
  apply Forall_app. split; [unfold is_byte; repeat constructor; lia|]. apply bytes_dec. vm_compute. reflexivity.
Qed.
Lemma half_open_forever_witness : g_tcp_conns (tcp_run [OpTick 0; OpPacket 77 (syn 99); OpTick 0; OpConnect ip_a port 3 1 2; OpListen 5; OpTick 0] flooded) = g_tcp_conns flooded.
Proof.
  apply half_open_forever; [apply flooded_ok| |].
  - intros i Hi. assert (forallb (fun c => c_in_use c && (bool_decide (c_state c = TCP_STATE_LISTEN) || bool_decide (c_state c = TCP_STATE_SYN_RCVD))) (g_tcp_conns flooded) = true) as H by (vm_compute; reflexivity).
    rewrite forallb_forall in H. destruct (g_tcp_conns flooded !! i) as [c|] eqn:E.
    + unfold conn_at. rewrite E. cbn [default]. apply list_elem_of_lookup_2, list_elem_of_In in E. specialize (H c E). apply andb_prop in H as [Hu Hs]. split; [exact Hu|].
      apply orb_prop in Hs as [Hs|Hs]; apply bool_decide_eq_true in Hs; [left; exact Hs|right; right; exact Hs].
    + apply lookup_ge_None in E. pose proof (no_tab _ flooded_ok) as Ht. unfold tab in Ht. lia.
  - repeat (apply Forall_cons; split); try apply Forall_nil_2; vm_compute; try exact I; split; reflexivity.
Defined.

(** The client's two segments reach the listener: the second too early, the first twice, the second
    again; the guest reads in between. *)
Definition seg1 : list Z := Eval vm_compute in last_tx (tcp_send_data 0 [71; 69; 84] a1).2.
Definition seg2 : list Z := Eval vm_compute in last_tx (tcp_send_data 0 [32; 47] (tcp_send_data 0 [71; 69; 84] a1).2).2.
Definition shuffled : list tcp_op := [OpPacket 0 seg2; OpPacket 0 seg1; OpTick 0; OpPacket 0 seg1; OpRecv 1 2 true; OpPacket 0 seg2; OpPacket 0 (syn 3)].
End TcpDemo.
