(* ===== verification/Ring.v ===== *)
(** * Ring buffers

    The circular byte buffers of the repository (the pipe of src/orch/pipe.c,
    the two directions of a pseudo-terminal in src/lucas/backends_pty.c) are an
    array of [N] bytes, a write position, a read position and a count, moved one
    byte at a time modulo [N].  [ring_put] and [ring_take] are their two copy
    loops; [content] is the list of unread bytes they represent.  The three
    lemmas every client uses: taking reads a prefix of the content, dropping
    what was taken leaves the rest, putting appends. *)

From S2P Require Import Prelude.

Section Ring.
Context (N : Z).

(** The array [buf] with [buf[i] = b]. *)
Definition poke (buf : Z -> Z) (i b : Z) : Z -> Z := fun j => if j =? i then b else buf j.

(** [buf[head] = b; head = (head + 1) % N] for every byte. *)
Fixpoint ring_put (buf : Z -> Z) (head : Z) (bs : list Z) : (Z -> Z) * Z :=
  match bs with
  | [] => (buf, head)
  | b :: bs => ring_put (poke buf head b) ((head + 1) mod N) bs
  end.

(** [stage[i] = buf[tail]; tail = (tail + 1) % N], [n] times. *)
Fixpoint ring_take (buf : Z -> Z) (tail : Z) (n : nat) : list Z * Z :=
  match n with
  | O => ([], tail)
  | S n => let '(bs, t) := ring_take buf ((tail + 1) mod N) n in (buf tail :: bs, t)
  end.

(** The [n] bytes from the read position on. *)
Definition content (buf : Z -> Z) (tail : Z) (n : nat) : list Z :=
  map (fun i => buf ((tail + Z.of_nat i) mod N)) (seq 0 n).

Hypothesis N_pos : 0 < N.

Lemma length_content buf tail n : length (content buf tail n) = n.
Proof using Type. unfold content. by rewrite length_map, length_seq. Qed.

Lemma content_S buf tail n : 0 <= tail < N ->
  content buf tail (S n) = buf tail :: content buf ((tail + 1) mod N) n.
Proof using Type.
  intros. unfold content. cbn [seq map].
  rewrite Z.add_0_r, Z.mod_small by lia. f_equal.
  rewrite <- seq_shift, map_map. apply map_ext. intros i.
  rewrite Zplus_mod_idemp_l. do 2 f_equal. lia.
Qed.

Lemma ring_take_content n : forall buf tail, 0 <= tail < N ->
  ring_take buf tail n = (content buf tail n, (tail + Z.of_nat n) mod N).
Proof using N_pos.
  induction n as [|n IH]; intros buf tail Ht.
  - cbn. by rewrite Z.add_0_r, Z.mod_small by lia.
  - rewrite content_S by done. cbn [ring_take].
    rewrite IH by (apply Z.mod_pos_bound; lia).
    f_equal. rewrite Zplus_mod_idemp_l. f_equal. lia.
Qed.

Lemma content_app buf tail n m :
  content buf tail (n + m) = content buf tail n ++ content buf ((tail + Z.of_nat n) mod N) m.
Proof using Type.
  unfold content. rewrite seq_app, map_app. f_equal. cbn [Nat.add].
  replace (seq n m) with (map (Nat.add n) (seq 0 m)) by (change (Nat.add n <$> seq 0 m = seq n m); by rewrite fmap_add_seq, Nat.add_0_r).
  rewrite map_map. apply map_ext. intros i. rewrite Zplus_mod_idemp_l. do 2 f_equal. lia.
Qed.

(** What is left after [k] bytes were taken. *)
Lemma content_drop buf tail n k : (k <= n)%nat ->
  content buf ((tail + Z.of_nat k) mod N) (n - k) = drop k (content buf tail n).
Proof using Type.
  intros. replace n with (k + (n - k))%nat at 2 by lia.
  by rewrite content_app, drop_app_length' by (by rewrite length_content).
Qed.

Lemma content_take buf tail n k : (k <= n)%nat -> content buf tail k = take k (content buf tail n).
Proof using Type.
  intros. replace n with (k + (n - k))%nat by lia.
  by rewrite content_app, take_app_length' by (by rewrite length_content).
Qed.

(** A byte stored outside the content leaves it as it is. *)
Lemma content_poke buf tail n b :
  0 <= tail < N -> Z.of_nat n < N ->
  content (poke buf ((tail + Z.of_nat n) mod N) b) tail n = content buf tail n.
Proof using Type.
  intros Ht Hn. unfold content. apply map_ext_in. intros i Hi%in_seq. unfold poke.
  destruct (Z.eqb_spec ((tail + Z.of_nat i) mod N) ((tail + Z.of_nat n) mod N)) as [E|]; [|done].
  exfalso. assert (Hd : (Z.of_nat n - Z.of_nat i) mod N = 0).
  { replace (Z.of_nat n - Z.of_nat i) with ((tail + Z.of_nat n) - (tail + Z.of_nat i)) by lia.
    by rewrite Zminus_mod, E, Z.sub_diag. }
  rewrite Z.mod_small in Hd by lia. lia.
Qed.

Lemma content_put bs : forall buf tail n,
  0 <= tail < N -> Z.of_nat (n + length bs) <= N ->
  let '(buf', head') := ring_put buf ((tail + Z.of_nat n) mod N) bs in
  content buf' tail (n + length bs) = content buf tail n ++ bs /\
  head' = (tail + Z.of_nat (n + length bs)) mod N.
Proof using N_pos.
  induction bs as [|b bs IH]; intros buf tail n Ht Hn.
  - cbn. by rewrite Nat.add_0_r, app_nil_r.
  - cbn [ring_put length] in *.
    replace (((tail + Z.of_nat n) mod N + 1) mod N) with ((tail + Z.of_nat (S n)) mod N)
      by (rewrite Zplus_mod_idemp_l; f_equal; lia).
    specialize (IH (poke buf ((tail + Z.of_nat n) mod N) b) tail (S n) Ht ltac:(lia)).
    destruct (ring_put _ _ bs) as [buf' head']. destruct IH as [IH ->].
    replace (n + S (length bs))%nat with (S n + length bs)%nat by lia. split; [|done].
    rewrite IH. replace (S n) with (n + 1)%nat by lia.
    rewrite content_app, content_poke by lia. rewrite <- app_assoc. f_equal.
    cbn. rewrite Z.add_0_r, Z.mod_mod by lia. unfold poke. by rewrite Z.eqb_refl.
Qed.

End Ring.
