(* ===== verification/ClientMem.v ===== *)
(** * The address space of a sotBox and the copies in and out of it

    The syscall layer reaches the memory of a client page by page: it looks the
    frame of the page up, maps a duplicate of it into its own address space,
    copies the part of the page that is wanted and unmaps it again
    ([lucas_copy_from_client] and [lucas_copy_to_client] of
    src/lucas/handlers_fs.c, [pipe_copy_from_client] of src/orch/pipe.c).

    [vspace] is what the copies see of a client: its bytes, the pages that have a
    frame and the pages whose duplicate can be mapped.  The two seL4 calls behind
    the last two are outside the repository and may fail independently.

    The lemmas say when a copy succeeds ([accessible]) and what it then transfers;
    a copy that fails has still written the pages before the one that failed. *)

From S2P Require Import Prelude Storage.

Definition PAGE : Z := 4096.

Record vspace := mk_vspace {
  vs_mem : Z -> Z;
  vs_frame : Z -> bool;  (** [vspace_get_cap] finds a frame for the page *)
  vs_dup : Z -> bool     (** [sel4utils_dup_and_map] succeeds on that frame *)
}.

Definition set_mem (m : Z -> Z) (v : vspace) : vspace := mk_vspace m (vs_frame v) (vs_dup v).

(** The page of an address and the length of the piece the loop copies next. *)
Definition page_base (addr : Z) : Z := Z.land addr (Z.lnot 0xFFF).

Definition in_page (addr left : Z) : Z :=
  let room := PAGE - (addr - page_base addr) in
  if room >? left then left else room.

Definition page_ok (v : vspace) (base : Z) : bool := vs_frame v base && vs_dup v base.

Fixpoint copy_in_loop (fuel : nat) (v : vspace) (client_vaddr size copied : Z) : option (list Z) :=
  if copied <? size then
    match fuel with
    | O => None
    | S fuel =>
        let addr := u64 (client_vaddr + copied) in
        let n := in_page addr (size - copied) in
        if page_ok v (page_base addr) then
          match copy_in_loop fuel v client_vaddr size (copied + n) with
          | Some rest => Some (slice (vs_mem v) addr (Z.to_nat n) ++ rest)
          | None => None
          end
        else None
    end
  else Some [].

Fixpoint copy_out_loop (fuel : nat) (v : vspace) (client_vaddr : Z) (src : list Z) (copied : Z) : vspace * bool :=
  let size := Z.of_nat (length src) in
  if copied <? size then
    match fuel with
    | O => (v, false)
    | S fuel =>
        let addr := u64 (client_vaddr + copied) in
        let n := in_page addr (size - copied) in
        if page_ok v (page_base addr) then
          let piece := take (Z.to_nat n) (drop (Z.to_nat copied) src) in
          copy_out_loop fuel (set_mem (overlay (vs_mem v) addr piece) v) client_vaddr src (copied + n)
        else (v, false)
    end
  else (v, true).

(** One turn of the loop per page touched; [size / 4096 + 2] bounds their number. *)
Definition page_turns (size : Z) : nat := Z.to_nat (size / PAGE + 2).

(** [None] and [false] are the return value -1. *)
Definition lucas_copy_from_client (v : vspace) (client_vaddr size : Z) : option (list Z) :=
  copy_in_loop (page_turns size) v client_vaddr size 0.

Definition pipe_copy_from_client (v : vspace) (client_vaddr size : Z) : option (list Z) :=
  copy_in_loop (page_turns size) v client_vaddr size 0.

Definition lucas_copy_to_client (v : vspace) (client_vaddr : Z) (src : list Z) : vspace * bool :=
  copy_out_loop (page_turns (Z.of_nat (length src))) v client_vaddr src 0.

(** ** Pages *)

Lemma page_base_div a : page_base a = PAGE * (a / PAGE).
Proof.
  unfold page_base, PAGE. change 0xFFF with (Z.ones 12).
  rewrite <- Z.ldiff_land, Z.ldiff_ones_r by lia.
  rewrite Z.shiftl_mul_pow2, Z.shiftr_div_pow2 by lia. change (2 ^ 12) with 4096. lia.
Qed.

Lemma page_base_bounds a : page_base a <= a < page_base a + PAGE.
Proof. rewrite page_base_div. unfold PAGE. pose proof (Z.div_mod a 4096 ltac:(lia)).
  pose proof (Z.mod_pos_bound a 4096 ltac:(lia)). lia. Qed.

(** Every page of the range has a frame that can be mapped. *)
Definition accessible (v : vspace) (a n : Z) : Prop :=
  forall i, a <= i < a + n -> page_ok v (page_base i) = true.

(** The range lies inside the 64-bit address space. *)
Definition in_range (a n : Z) : Prop := 0 <= a /\ 0 <= n /\ a + n <= 2 ^ 64.

Lemma in_page_bounds a n : 0 < n ->
  0 < in_page a n <= n /\ a + in_page a n <= page_base a + PAGE /\
  (in_page a n = n \/ a + in_page a n = page_base a + PAGE).
Proof.
  intros. unfold in_page. rewrite Z.gtb_ltb. pose proof (page_base_bounds a).
  destruct (Z.ltb_spec n (PAGE - (a - page_base a))); lia.
Qed.

Lemma page_base_same a i : page_base a <= i < page_base a + PAGE -> page_base i = page_base a.
Proof.
  rewrite !page_base_div. unfold PAGE. intros. f_equal.
  symmetry. apply Z.div_unique with (r := i - 4096 * (a / 4096)); lia.
Qed.

(** Pages between [a] and [a + n]. *)
Definition pages_left (a n : Z) : Z := (a + n - 1) / PAGE - a / PAGE + 1.

Lemma pages_left_step a n : 0 < n -> in_page a n < n ->
  pages_left (a + in_page a n) (n - in_page a n) = pages_left a n - 1.
Proof.
  intros Hn Hlt. destruct (in_page_bounds a n Hn) as (H1 & H2 & [H3|H3]); [lia|].
  unfold pages_left. rewrite H3. rewrite page_base_div in *.
  replace (PAGE * (a / PAGE) + PAGE) with ((a / PAGE + 1) * PAGE) in * by lia.
  rewrite Z.div_mul by done.
  replace ((a / PAGE + 1) * PAGE + (n - in_page a n) - 1) with (a + n - 1) by lia. lia.
Qed.

Lemma pages_left_pos a n : 0 < n -> 0 < pages_left a n.
Proof. intros. unfold pages_left, PAGE. pose proof (Z.div_le_mono a (a + n - 1) 4096). lia. Qed.

Lemma pages_left_turns a n : 0 <= n -> pages_left a n <= Z.of_nat (page_turns n).
Proof.
  intros. unfold pages_left, page_turns, PAGE.
  pose proof (Z.div_pos n 4096 ltac:(lia) ltac:(lia)). rewrite Z2Nat.id by lia.
  pose proof (Z.div_mod a 4096 ltac:(lia)). pose proof (Z.div_mod n 4096 ltac:(lia)).
  pose proof (Z.mod_pos_bound a 4096 ltac:(lia)). pose proof (Z.mod_pos_bound n 4096 ltac:(lia)).
  pose proof (Z.div_mod (a + n - 1) 4096 ltac:(lia)). pose proof (Z.mod_pos_bound (a + n - 1) 4096 ltac:(lia)).
  lia.
Qed.

(** ** Copies *)

Lemma accessible_head v a n : 0 < n -> accessible v a n -> page_ok v (page_base a) = true.
Proof. intros ? H. apply H. lia. Qed.

Lemma accessible_tail v a n k : 0 <= k -> accessible v a n -> accessible v (a + k) (n - k).
Proof. intros ? H i Hi. apply H. lia. Qed.

Lemma accessible_mem v m a n : accessible (set_mem m v) a n <-> accessible v a n.
Proof. done. Qed.

(** The piece of the next page and the rest together are the whole range. *)
Lemma copy_in_ok fuel : forall v a size copied,
  in_range a size -> 0 <= copied <= size ->
  accessible v (a + copied) (size - copied) ->
  (copied < size -> pages_left (a + copied) (size - copied) <= Z.of_nat fuel) ->
  copy_in_loop fuel v a size copied = Some (slice (vs_mem v) (a + copied) (Z.to_nat (size - copied))).
Proof.
  induction fuel as [|fuel IH]; intros v a size copied Hr Hc Hacc Hf;
    cbn [copy_in_loop]; destruct (Z.ltb_spec copied size) as [Hlt|];
    try (by replace (Z.to_nat (size - copied)) with 0%nat by lia).
  - pose proof (pages_left_pos (a + copied) (size - copied)). lia.
  - destruct Hr as (Ha & Hs & Hr). rewrite u64_small by lia.
    rewrite (accessible_head _ _ _ (ltac:(lia) : 0 < size - copied) Hacc).
    destruct (in_page_bounds (a + copied) (size - copied) ltac:(lia)) as (H1 & H2 & _).
    set (n := in_page (a + copied) (size - copied)) in *.
    rewrite IH; [|done|lia|..].
    + replace (Z.to_nat (size - copied)) with (Z.to_nat n + Z.to_nat (size - (copied + n)))%nat by lia.
      rewrite slice_app. do 3 f_equal. lia.
    + pose proof (accessible_tail _ _ _ n ltac:(lia) Hacc) as H'.
      by replace (a + (copied + n)) with (a + copied + n) by lia;
        replace (size - (copied + n)) with (size - copied - n) by lia.
    + intros. specialize (Hf Hlt).
      replace (a + (copied + n)) with (a + copied + n) by lia.
      replace (size - (copied + n)) with (size - copied - n) by lia.
      subst n. rewrite pages_left_step by lia. lia.
Qed.

Lemma copy_from_ok v a n : in_range a n -> accessible v a n ->
  lucas_copy_from_client v a n = Some (slice (vs_mem v) a (Z.to_nat n)).
Proof.
  intros Hr Hacc. unfold lucas_copy_from_client. destruct Hr as (Ha & Hn & Hr).
  rewrite copy_in_ok; rewrite ?Z.add_0_r, ?Z.sub_0_r; try done; try lia.
  intros. by apply pages_left_turns.
Qed.

(** Whatever the outcome, the pages keep their frames and no byte outside the
    range changes. *)
Definition writes_within (v v' : vspace) (a n : Z) : Prop :=
  vs_frame v' = vs_frame v /\ vs_dup v' = vs_dup v /\
  forall o, ~ (a <= o < a + n) -> vs_mem v' o = vs_mem v o.

Lemma overlay_out m a bs o : ~ (a <= o < a + Z.of_nat (length bs)) -> overlay m a bs o = m o.
Proof. intros H. unfold overlay. destruct (a <=? o) eqn:?, (o <? _) eqn:?; try done; bool_to_prop; lia. Qed.

Lemma overlay_in m a bs o : a <= o < a + Z.of_nat (length bs) ->
  overlay m a bs o = bs.[Z.to_nat (o - a), 0].
Proof. intros H. unfold overlay. by rewrite (proj2 (Z.leb_le _ _)), (proj2 (Z.ltb_lt _ _)) by lia. Qed.

Lemma length_piece (src : list Z) n copied : 0 <= n -> 0 <= copied -> copied + n <= Z.of_nat (length src) ->
  Z.of_nat (length (take (Z.to_nat n) (drop (Z.to_nat copied) src))) = n.
Proof. intros. rewrite length_take, length_drop. lia. Qed.

Lemma piece_lookup (src : list Z) n copied k : 0 <= copied -> 0 <= k < n ->
  (take (Z.to_nat n) (drop (Z.to_nat copied) src)).[Z.to_nat k, 0] = src.[Z.to_nat (copied + k), 0].
Proof. intros. rewrite lookup_take_lt, lookup_drop by lia. do 2 f_equal. lia. Qed.

Lemma copy_out_frame fuel : forall v a src copied,
  in_range a (Z.of_nat (length src)) -> 0 <= copied ->
  writes_within v (copy_out_loop fuel v a src copied).1 a (Z.of_nat (length src)).
Proof.
  induction fuel as [|fuel IH]; intros v a src copied Hr Hc;
    cbn [copy_out_loop]; destruct (Z.ltb_spec copied (Z.of_nat (length src))); try done.
  cbn zeta. destruct (page_ok _ _); [|done].
  destruct Hr as (Ha & Hs & Hr). rewrite u64_small by lia.
  destruct (in_page_bounds (a + copied) (Z.of_nat (length src) - copied) ltac:(lia)) as (H1 & H2 & _).
  set (n := in_page (a + copied) _) in *.
  destruct (IH (set_mem (overlay (vs_mem v) (a + copied) (take (Z.to_nat n) (drop (Z.to_nat copied) src))) v)
    a src (copied + n) ltac:(done) ltac:(lia)) as (Hf & Hd & Hm).
  repeat split; [by rewrite Hf|by rewrite Hd|].
  intros o Ho. rewrite Hm by done. cbn. apply overlay_out. rewrite length_piece by lia. lia.
Qed.

(** The loop never goes back. *)
Lemma copy_out_below fuel : forall v a src copied o,
  in_range a (Z.of_nat (length src)) -> 0 <= copied -> o < a + copied ->
  vs_mem (copy_out_loop fuel v a src copied).1 o = vs_mem v o.
Proof.
  induction fuel as [|fuel IH]; intros v a src c o Hr Hc Ho; cbn [copy_out_loop];
    destruct (Z.ltb_spec c (Z.of_nat (length src))); try done.
  cbn zeta. destruct (page_ok _ _); [|done]. pose proof Hr as (Ha & Hs & Hr'). rewrite u64_small by lia.
  destruct (in_page_bounds (a + c) (Z.of_nat (length src) - c) ltac:(lia)) as (H1 & H2 & _).
  rewrite IH by (done || lia). cbn. apply overlay_out. rewrite length_piece by lia. lia.
Qed.

Lemma copy_out_ok fuel : forall v a src copied,
  in_range a (Z.of_nat (length src)) -> 0 <= copied <= Z.of_nat (length src) ->
  let left := Z.of_nat (length src) - copied in
  accessible v (a + copied) left ->
  (0 < left -> pages_left (a + copied) left <= Z.of_nat fuel) ->
  (copy_out_loop fuel v a src copied).2 = true /\
  forall o, a + copied <= o < a + Z.of_nat (length src) ->
    vs_mem (copy_out_loop fuel v a src copied).1 o = src.[Z.to_nat (o - a), 0].
Proof.
  induction fuel as [|fuel IH]; intros v a src copied Hr Hc left Hacc Hf; subst left;
    cbn [copy_out_loop]; destruct (Z.ltb_spec copied (Z.of_nat (length src))) as [Hlt|];
    try (split; [done|intros; lia]).
  - pose proof (pages_left_pos (a + copied) (Z.of_nat (length src) - copied)). lia.
  - pose proof Hr as (Ha & Hs & Hr'). cbn zeta. rewrite u64_small by lia.
    rewrite (accessible_head _ _ _ (ltac:(lia) : 0 < Z.of_nat (length src) - copied) Hacc).
    destruct (in_page_bounds (a + copied) (Z.of_nat (length src) - copied) ltac:(lia)) as (H1 & H2 & _).
    set (n := in_page (a + copied) _) in *.
    set (v1 := set_mem _ v).
    assert (Hsplit : accessible v1 (a + (copied + n)) (Z.of_nat (length src) - (copied + n))).
    { pose proof (accessible_tail _ _ _ n ltac:(lia) Hacc) as H'.
      replace (a + (copied + n)) with (a + copied + n) by lia.
      by replace (Z.of_nat (length src) - (copied + n)) with (Z.of_nat (length src) - copied - n) by lia. }
    destruct (IH v1 a src (copied + n)) as [Hok Hm]; [done|lia|done| |].
    { intros. specialize (Hf ltac:(lia)).
      replace (a + (copied + n)) with (a + copied + n) by lia.
      replace (Z.of_nat (length src) - (copied + n)) with (Z.of_nat (length src) - copied - n) by lia.
      subst n. rewrite pages_left_step by lia. lia. }
    split; [done|]. intros o Ho. destruct (decide (a + (copied + n) <= o)); [apply Hm; lia|].
    assert (Hkeep : vs_mem (copy_out_loop fuel v1 a src (copied + n)).1 o = vs_mem v1 o).
    { apply copy_out_below; [done|lia|lia]. }
    rewrite Hkeep. subst v1. cbn [set_mem vs_mem].
    rewrite overlay_in by (rewrite length_piece by lia; lia).
    rewrite piece_lookup by lia. do 3 f_equal. lia.
Qed.

Lemma copy_to_frame v a src : in_range a (Z.of_nat (length src)) ->
  writes_within v (lucas_copy_to_client v a src).1 a (Z.of_nat (length src)).
Proof. intros. by apply copy_out_frame. Qed.

Lemma copy_to_ok v a src : in_range a (Z.of_nat (length src)) -> accessible v a (Z.of_nat (length src)) ->
  (lucas_copy_to_client v a src).2 = true /\
  slice (vs_mem (lucas_copy_to_client v a src).1) a (length src) = src.
Proof.
  intros Hr Hacc. unfold lucas_copy_to_client.
  destruct (copy_out_ok (page_turns (Z.of_nat (length src))) v a src 0) as [Hok Hm];
    rewrite ?Z.add_0_r, ?Z.sub_0_r in *; try done; [lia|by intros; apply pages_left_turns; lia|].
  split; [done|]. apply list_eq. intros i. destruct (decide (i < length src)%nat).
  - rewrite slice_lookup by done. rewrite Hm by lia.
    rewrite (array_lookup_lt src i 0) by done. do 3 f_equal. lia.
  - rewrite !lookup_ge_None_2; rewrite ?length_slice; try done; lia.
Qed.

(** A copy in that succeeds had all its pages, and returns their bytes. *)
Lemma copy_in_some fuel : forall v a size copied bs,
  in_range a size -> 0 <= copied ->
  copy_in_loop fuel v a size copied = Some bs -> accessible v (a + copied) (size - copied).
Proof.
  induction fuel as [|fuel IH]; intros v a size copied bs Hr Hc; cbn [copy_in_loop];
    destruct (Z.ltb_spec copied size); try done; try (by intros _ i Hi; lia).
  pose proof Hr as (Ha & Hs & Hm). rewrite u64_small by lia.
  destruct (page_ok v (page_base (a + copied))) eqn:Hok; [|done].
  destruct (in_page_bounds (a + copied) (size - copied) ltac:(lia)) as (H1 & H2 & _).
  set (n := in_page _ _) in *. destruct (copy_in_loop fuel v a size (copied + n)) as [rest|] eqn:E; [|done].
  intros _ i Hi. destruct (decide (i < a + copied + n)).
  - rewrite (page_base_same (a + copied)); [done|]. pose proof (page_base_bounds (a + copied)). lia.
  - apply (IH v a size (copied + n) rest Hr ltac:(lia) E). lia.
Qed.

Lemma copy_from_some v a n bs : in_range a n -> lucas_copy_from_client v a n = Some bs ->
  accessible v a n /\ bs = slice (vs_mem v) a (Z.to_nat n).
Proof.
  intros Hr H. assert (Hacc : accessible v a n).
  { unfold lucas_copy_from_client in H. apply copy_in_some in H; [|done|lia]. by rewrite Z.add_0_r, Z.sub_0_r in H. }
  split; [done|]. rewrite copy_from_ok in H by done. by injection H as <-.
Qed.

(** What was copied out is what is copied in. *)
Lemma copy_out_in v a src : in_range a (Z.of_nat (length src)) -> accessible v a (Z.of_nat (length src)) ->
  lucas_copy_from_client (lucas_copy_to_client v a src).1 a (Z.of_nat (length src)) = Some src.
Proof.
  intros Hr Hacc. destruct (copy_to_ok v a src Hr Hacc) as [_ Hs].
  destruct (copy_to_frame v a src Hr) as (Hf & Hd & _).
  rewrite copy_from_ok; [|done|].
  - by rewrite Nat2Z.id, Hs.
  - intros i Hi. unfold page_ok. rewrite Hf, Hd. by apply Hacc.
Qed.
