(* ===== verification/Bytepipe.v ===== *)
(** * The shared-memory byte pipes between orch and net-synth

    include/sotnet/bytepipe.h and bytepipe_frame.h: one producer, one consumer,
    a data area of 65472 bytes, a write cursor [w] published by the producer and
    a private read cursor of the consumer, both counted modulo 2^32.  Nothing
    tells the producer how far the consumer is: when it is lapped the consumer
    skips to the oldest byte still there.

    [carries r S] is the refinement relation: the ring holds the last 65472 bytes
    of the stream [S] of everything pushed so far, and the stream has not reached
    2^32 bytes.  The lemmas give every operation in terms of the stream; the
    theorems are in [BytepipeTheorems]. *)

From S2P Require Import Prelude Storage Ring.

Definition BYTEPIPE_DATA_BYTES : Z := 65472.
Definition BYTEPIPE_MAGIC : Z := 0x50495045.
Definition BYTEPIPE_FRAME_HDR_SZ : Z := 8.

Record bytepipe_ring := mk_ring {
  br_magic : Z;
  br_w : Z;             (** producer write cursor *)
  br_meta_pid : Z;
  br_meta_src_ip : Z;
  br_meta_src_port : Z;
  br_data : Z -> Z
}.

Definition bytepipe_set_meta (r : bytepipe_ring) (pid src_ip_be src_port_be : Z) : bytepipe_ring :=
  mk_ring (br_magic r) (br_w r) pid src_ip_be src_port_be (br_data r).

Definition bytepipe_producer_init (r : bytepipe_ring) : bytepipe_ring :=
  mk_ring BYTEPIPE_MAGIC 0 (br_meta_pid r) (br_meta_src_ip r) (br_meta_src_port r) (br_data r).

(** [data[(w + i) % BYTEPIPE_DATA_BYTES]], the sum in 32 bits. *)
Definition bp_index (w i : Z) : Z := u32 (w + i) mod BYTEPIPE_DATA_BYTES.

Fixpoint bp_store (data : Z -> Z) (w i : Z) (src : list Z) : Z -> Z :=
  match src with
  | [] => data
  | b :: src => bp_store (poke data (bp_index w i) b) w (i + 1) src
  end.

Definition bytepipe_push (r : bytepipe_ring) (src : list Z) : bytepipe_ring * Z :=
  let n := Z.min (Z.of_nat (length src)) BYTEPIPE_DATA_BYTES in
  let src := take (Z.to_nat n) src in
  (mk_ring (br_magic r) (u32 (br_w r + n)) (br_meta_pid r) (br_meta_src_ip r) (br_meta_src_port r)
     (bp_store (br_data r) (br_w r) 0 src), n).

Definition bp_load (data : Z -> Z) (rd : Z) (n : nat) : list Z :=
  map (fun i => data (bp_index rd (Z.of_nat i))) (seq 0 n).

(** The read cursor and what is available to it, after the lap check. *)
Definition bp_avail (r : bytepipe_ring) (rd : Z) : Z * Z :=
  let avail := u32 (br_w r - rd) in
  if avail >? BYTEPIPE_DATA_BYTES then (u32 (br_w r - BYTEPIPE_DATA_BYTES), BYTEPIPE_DATA_BYTES) else (rd, avail).

(** The bytes drained and the new read cursor. *)
Definition bytepipe_pull (r : bytepipe_ring) (rd max : Z) : list Z * Z :=
  let '(rd, avail) := bp_avail r rd in
  let n := if avail <? max then avail else max in
  (bp_load (br_data r) rd (Z.to_nat n), u32 (rd + n)).

(** ** Frames *)

Record frame_hdr := mk_frame_hdr { fh_conn_id : Z; fh_local_port : Z; fh_len : Z }.

Definition hdr_bytes (h : frame_hdr) : list Z :=
  le_bytes 2 (fh_conn_id h) ++ le_bytes 2 (fh_local_port h) ++ le_bytes 4 (fh_len h).

Definition hdr_of_bytes (bs : list Z) : frame_hdr :=
  mk_frame_hdr (field bs 0 2) (field bs 2 2) (field bs 4 4).

(** A null payload of length 0 is the empty list; the sum is in 32 bits. *)
Definition bytepipe_push_frame (r : bytepipe_ring) (conn_id local_port : Z) (payload : list Z) : bytepipe_ring * Z :=
  let len := Z.of_nat (length payload) in
  if u32 (BYTEPIPE_FRAME_HDR_SZ + len) >? BYTEPIPE_DATA_BYTES then (r, 0)
  else bytepipe_push r (hdr_bytes (mk_frame_hdr conn_id local_port len) ++ payload).

(** [None] is the return value 0; the cursor may have moved all the same, by the
    lap check. *)
Definition bytepipe_pull_frame (r : bytepipe_ring) (rd out_max : Z) : option (frame_hdr * list Z) * Z :=
  let '(rd, avail) := bp_avail r rd in
  if avail <? BYTEPIPE_FRAME_HDR_SZ then (None, rd)
  else
    let h := hdr_of_bytes (bp_load (br_data r) rd 8) in
    if fh_len h >? BYTEPIPE_DATA_BYTES then (None, rd)
    else if avail <? u32 (BYTEPIPE_FRAME_HDR_SZ + fh_len h) then (None, rd)
    else if fh_len h >? out_max then (None, rd)
    else (Some (h, bp_load (br_data r) (u32 (rd + BYTEPIPE_FRAME_HDR_SZ)) (Z.to_nat (fh_len h))),
          u32 (rd + BYTEPIPE_FRAME_HDR_SZ + fh_len h)).

(** ** The stream a ring carries *)

Definition carries (r : bytepipe_ring) (S : list Z) : Prop :=
  br_w r = Z.of_nat (length S) /\ br_w r < 2 ^ 32 /\
  forall k, br_w r - BYTEPIPE_DATA_BYTES <= k < br_w r -> 0 <= k ->
    br_data r (k mod BYTEPIPE_DATA_BYTES) = S.[Z.to_nat k, 0].

(** A region the kernel has zeroed, initialised by its producer. *)
Definition fresh_ring : bytepipe_ring := bytepipe_producer_init (mk_ring 0 0 0 0 0 (fun _ => 0)).

Lemma fresh_carries : carries fresh_ring [].
Proof. repeat split; cbn; lia. Qed.

Lemma bp_index_small w i : 0 <= w + i < 2 ^ 32 -> bp_index w i = (w + i) mod BYTEPIPE_DATA_BYTES.
Proof. intros. unfold bp_index. by rewrite u32_small. Qed.

Lemma ring_apart N a b : 0 < N -> a < b < a + N -> a mod N <> b mod N.
Proof.
  intros HN H E. assert (Hd : (b - a) mod N = 0) by (by rewrite Zminus_mod, E, Z.sub_diag).
  rewrite Z.mod_small in Hd by lia. lia.
Qed.

(** What the store loop leaves at the cell of cursor [k]. *)
Lemma bp_store_get src : forall data w i k,
  0 <= w + i -> w + i + Z.of_nat (length src) <= 2 ^ 32 -> Z.of_nat (length src) <= BYTEPIPE_DATA_BYTES ->
  w + i + Z.of_nat (length src) - BYTEPIPE_DATA_BYTES <= k < w + i + Z.of_nat (length src) -> 0 <= k ->
  bp_store data w i src (k mod BYTEPIPE_DATA_BYTES) =
  if k <? w + i then data (k mod BYTEPIPE_DATA_BYTES) else src.[Z.to_nat (k - (w + i)), 0].
Proof.
  induction src as [|b src IH]; intros data w i k Hw Hmax Hlen Hk H0; cbn [bp_store length] in *.
  - by rewrite (proj2 (Z.ltb_lt _ _)) by lia.
  - rewrite IH by lia. rewrite bp_index_small by lia. unfold poke.
    destruct (Z.ltb_spec k (w + i)) as [Hlt|Hge].
    + rewrite (proj2 (Z.ltb_lt _ _)) by lia.
      destruct (Z.eqb_spec (k mod BYTEPIPE_DATA_BYTES) ((w + i) mod BYTEPIPE_DATA_BYTES)) as [E|]; [|done].
      destruct (ring_apart BYTEPIPE_DATA_BYTES k (w + i)); [done|unfold BYTEPIPE_DATA_BYTES in *; lia|done].
    + destruct (Z.eqb_spec k (w + i)) as [->|].
      * rewrite (proj2 (Z.ltb_lt _ _)), Z.eqb_refl, Z.sub_diag by lia. done.
      * rewrite (proj2 (Z.ltb_ge _ _)) by lia.
        replace (Z.to_nat (k - (w + i))) with (S (Z.to_nat (k - (w + (i + 1))))) by lia. done.
Qed.

Lemma push_carries r S src : carries r S ->
  Z.of_nat (length src) <= BYTEPIPE_DATA_BYTES -> Z.of_nat (length S + length src) < 2 ^ 32 ->
  bytepipe_push r src = ((bytepipe_push r src).1, Z.of_nat (length src)) /\
  carries (bytepipe_push r src).1 (S ++ src).
Proof.
  intros (Hw & Hlt & Hd) Hlen Hmax. unfold bytepipe_push.
  rewrite Z.min_l, Nat2Z.id, firstn_all by lia. cbn [fst snd]. split; [done|].
  assert (Hu : u32 (br_w r + Z.of_nat (length src)) = Z.of_nat (length (S ++ src)))
    by (rewrite length_app, u32_small; lia).
  split; [done|]. cbn [br_w br_data]. rewrite Hu, length_app. split; [lia|]. intros k Hk H0.
  rewrite bp_store_get; rewrite ?Z.add_0_r; try lia.
  destruct (Z.ltb_spec k (br_w r)).
  - rewrite Hd by lia. rewrite lookup_app_l by lia. done.
  - rewrite lookup_app_r by lia. do 2 f_equal. lia.
Qed.

Lemma bp_load_carries r S rd n : carries r S ->
  br_w r - BYTEPIPE_DATA_BYTES <= rd -> 0 <= rd -> rd + Z.of_nat n <= br_w r ->
  bp_load (br_data r) rd n = take n (drop (Z.to_nat rd) S).
Proof.
  intros (Hw & Hlt & Hd) H1 H2 H3. apply list_eq. intros i. unfold bp_load.
  destruct (decide (i < n)%nat) as [Hi|Hi].
  - rewrite list_lookup_fmap, lookup_seq_lt by done. cbn [fmap option_fmap option_map Nat.add].
    rewrite bp_index_small, Hd by lia. rewrite lookup_take_lt, lookup_drop by done.
    replace (Z.to_nat (rd + Z.of_nat i)) with (Z.to_nat rd + i)%nat by lia.
    rewrite (array_lookup_lt S _ 0) by lia. done.
  - rewrite !lookup_ge_None_2; [done| |].
    + rewrite length_take, length_drop. lia.
    + rewrite length_map, length_seq. lia.
Qed.

(** The oldest byte of the stream the consumer can still have. *)
Definition oldest (r : bytepipe_ring) (rd : Z) : Z := Z.max rd (br_w r - BYTEPIPE_DATA_BYTES).

Lemma bp_avail_carries r S rd : carries r S -> 0 <= rd <= br_w r ->
  bp_avail r rd = (oldest r rd, br_w r - oldest r rd).
Proof.
  intros (Hw & Hlt & _) Hrd. unfold bp_avail, oldest. rewrite u32_small, Z.gtb_ltb by lia.
  unfold BYTEPIPE_DATA_BYTES in *. destruct (Z.ltb_spec 65472 (br_w r - rd)).
  - rewrite u32_small by lia. f_equal; lia.
  - f_equal; lia.
Qed.
