(* ===== verification/BytepipeTheorems.v ===== *)
(** * What the byte pipes promise

    A pull returns the unread bytes of the stream in order, without gaps unless
    the consumer was lapped, and then the newest 65472 of them
    ([pull_in_order]).  Under frames the ring is a queue: as long as the unread
    frames fit, any interleaving of pushes and pulls behaves like a queue of
    frames ([frames_queue]).  Two limits of the code are proved as well: the
    cursor wraps at 2^32, which 65472 does not divide, and the bytes around the
    wrap are overwritten unread ([cursor_wrap_overwrites]); a consumer that finds
    a header it cannot accept stays there ([bad_header_blocks]). *)

From S2P Require Import Prelude Storage Ring Bytepipe.

(** Arithmetic with the size of the data area and of the cursor as numbers. *)
Ltac bp_lia := unfold BYTEPIPE_DATA_BYTES in *; change (2 ^ 32) with 4294967296 in *; lia.

(** The part of the stream [S] a pull of at most [max] bytes returns, and the
    cursor after it. *)
Definition pulled (r : bytepipe_ring) (S : list Z) (rd max : Z) : list Z * Z :=
  let o := oldest r rd in
  let n := Z.min (br_w r - o) max in
  (take (Z.to_nat n) (drop (Z.to_nat o) S), o + n).

(** A pull on a ring that carries the stream [S] returns the bytes of [S]
    from the read cursor on, at most [max] and at most what was pushed, and
    advances the cursor past them; a consumer that was lapped continues at the
    oldest of the 65472 bytes the ring still holds.  Holds while fewer than 2^32
    bytes have been pushed. *)
Theorem pull_in_order r S rd max :
  carries r S -> 0 <= rd <= br_w r -> 0 <= max ->
  bytepipe_pull r rd max = pulled r S rd max.
Proof.
  intros Hc Hrd Hmax. pose proof Hc as (Hw & Hlt & _).
  unfold bytepipe_pull. rewrite (bp_avail_carries r S) by done. unfold pulled.
  assert (Ho : 0 <= oldest r rd <= br_w r) by (unfold oldest, BYTEPIPE_DATA_BYTES; lia).
  replace (if br_w r - oldest r rd <? max then br_w r - oldest r rd else max)
    with (Z.min (br_w r - oldest r rd) max) by (destruct (Z.ltb_spec (br_w r - oldest r rd) max); lia).
  rewrite (bp_load_carries r S) by (done || (unfold oldest in *; lia)).
  by rewrite u32_small by lia.
Qed.

(** Four bytes pushed, three pulled. *)
Lemma pull_in_order_witness :
  bytepipe_pull (bytepipe_push fresh_ring [7; 8; 9; 10]).1 0 3 = ([7; 8; 9], 3).
Proof.
  rewrite (pull_in_order _ [7; 8; 9; 10] 0 3).
  - reflexivity.
  - apply (push_carries fresh_ring [] [7; 8; 9; 10] fresh_carries); vm_compute; [discriminate|reflexivity].
  - vm_compute. split; discriminate.
  - lia.
Defined.

(** ** Frames *)

Record frame := mk_frame { fr_conn : Z; fr_port : Z; fr_payload : list Z }.

Definition frame_bytes (f : frame) : list Z :=
  hdr_bytes (mk_frame_hdr (fr_conn f) (fr_port f) (Z.of_nat (length (fr_payload f)))) ++ fr_payload f.

Definition frame_ok (f : frame) : Prop :=
  0 <= fr_conn f < 2 ^ 16 /\ 0 <= fr_port f < 2 ^ 16 /\
  BYTEPIPE_FRAME_HDR_SZ + Z.of_nat (length (fr_payload f)) <= BYTEPIPE_DATA_BYTES.

(** The two sides of the ring at work, in any order. *)
Inductive bp_op := BpPush (f : frame) | BpPull.

Record bp_state := mk_bp { bp_ring : bytepipe_ring; bp_rd : Z; bp_out : list frame }.

Definition bp_step (s : bp_state) (o : bp_op) : bp_state :=
  match o with
  | BpPush f => mk_bp (bytepipe_push_frame (bp_ring s) (fr_conn f) (fr_port f) (fr_payload f)).1 (bp_rd s) (bp_out s)
  | BpPull =>
      match bytepipe_pull_frame (bp_ring s) (bp_rd s) BYTEPIPE_DATA_BYTES with
      | (Some (h, bs), rd) => mk_bp (bp_ring s) rd (bp_out s ++ [mk_frame (fh_conn_id h) (fh_local_port h) bs])
      | (None, rd) => mk_bp (bp_ring s) rd (bp_out s)
      end
  end.

Definition bp_run (s : bp_state) (ops : list bp_op) : bp_state := fold_left bp_step ops s.

(** The specification: a queue of frames, and what was taken from it. *)
Record queue := mk_queue { q_waiting : list frame; q_out : list frame }.

Definition q_step (q : queue) (o : bp_op) : queue :=
  match o with
  | BpPush f => mk_queue (q_waiting q ++ [f]) (q_out q)
  | BpPull =>
      match q_waiting q with
      | [] => q
      | f :: fs => mk_queue fs (q_out q ++ [f])
      end
  end.

Definition q_run (q : queue) (ops : list bp_op) : queue := fold_left q_step ops q.

Definition frames_bytes (fs : list frame) : list Z := concat (map frame_bytes fs).

(** The frames are well formed, the unread ones fit in the data area after every
    step, and the stream stays below 2^32 bytes ([total] pushed so far). *)
Fixpoint fits (total : Z) (q : queue) (ops : list bp_op) : Prop :=
  match ops with
  | [] => True
  | o :: ops =>
      let total := match o with BpPush f => total + Z.of_nat (length (frame_bytes f)) | BpPull => total end in
      match o with BpPush f => frame_ok f | BpPull => True end /\
      Z.of_nat (length (frames_bytes (q_waiting (q_step q o)))) <= BYTEPIPE_DATA_BYTES /\
      total < 2 ^ 32 /\
      fits total (q_step q o) ops
  end.

(** The unread part of the stream is the frames that wait. *)
Definition bp_refines (s : bp_state) (q : queue) (total : Z) : Prop :=
  bp_out s = q_out q /\ Forall frame_ok (q_waiting q) /\
  Z.of_nat (length (frames_bytes (q_waiting q))) <= BYTEPIPE_DATA_BYTES /\
  exists S, carries (bp_ring s) S /\ total = br_w (bp_ring s) /\
    0 <= bp_rd s <= br_w (bp_ring s) /\ drop (Z.to_nat (bp_rd s)) S = frames_bytes (q_waiting q).

Lemma length_frame_bytes f : length (frame_bytes f) = (8 + length (fr_payload f))%nat.
Proof. unfold frame_bytes, hdr_bytes. by rewrite !length_app, !length_le_bytes. Qed.

Lemma hdr_roundtrip h rest :
  0 <= fh_conn_id h < 2 ^ 16 -> 0 <= fh_local_port h < 2 ^ 16 -> 0 <= fh_len h < 2 ^ 32 ->
  hdr_of_bytes (take 8 (hdr_bytes h ++ rest)) = h.
Proof.
  intros H1 H2 H3. destruct h as [c p l]. cbn [fh_conn_id fh_local_port fh_len] in *.
  unfold hdr_bytes, hdr_of_bytes, field. cbn [fh_conn_id fh_local_port fh_len].
  rewrite take_app_length' by (by rewrite !length_app, !length_le_bytes).
  rewrite drop_0, take_app_length' by (by rewrite length_le_bytes).
  rewrite drop_app_length' by (by rewrite length_le_bytes).
  rewrite take_app_length' by (by rewrite length_le_bytes).
  rewrite app_assoc, drop_app_length' by (by rewrite length_app, !length_le_bytes).
  rewrite firstn_all2 by (by rewrite length_le_bytes).
  rewrite !le_val_bytes by (cbn; lia). done.
Qed.

Lemma frame_header f rest : frame_ok f ->
  hdr_of_bytes (take 8 (frame_bytes f ++ rest)) = mk_frame_hdr (fr_conn f) (fr_port f) (Z.of_nat (length (fr_payload f))).
Proof.
  intros (H1 & H2 & H3). unfold frame_bytes, BYTEPIPE_FRAME_HDR_SZ in *. rewrite <- app_assoc.
  apply hdr_roundtrip; cbn [fh_len fh_conn_id fh_local_port]; [done|done|bp_lia].
Qed.

Lemma bp_push_refines s q total f :
  bp_refines s q total -> frame_ok f ->
  Z.of_nat (length (frames_bytes (q_waiting q ++ [f]))) <= BYTEPIPE_DATA_BYTES ->
  total + Z.of_nat (length (frame_bytes f)) < 2 ^ 32 ->
  bp_refines (bp_step s (BpPush f)) (q_step q (BpPush f)) (total + Z.of_nat (length (frame_bytes f))).
Proof.
  intros (Ho & Hok & Hfit & S & Hc & Ht & Hrd & Hd) Hf Hfit' Htot.
  pose proof Hc as (Hw & Hlt & _). pose proof Hf as (_ & _ & Hlen). pose proof (length_frame_bytes f) as Hl.
  unfold BYTEPIPE_FRAME_HDR_SZ in Hlen.
  assert (Hpush : bytepipe_push_frame (bp_ring s) (fr_conn f) (fr_port f) (fr_payload f)
    = bytepipe_push (bp_ring s) (frame_bytes f)).
  { unfold bytepipe_push_frame, BYTEPIPE_FRAME_HDR_SZ. rewrite u32_small, Z.gtb_ltb by bp_lia.
    by rewrite (proj2 (Z.ltb_ge _ _)) by lia. }
  cbn [bp_step q_step]. rewrite Hpush.
  destruct (push_carries (bp_ring s) S (frame_bytes f) Hc) as [_ Hc']; [lia|lia|].
  split; [done|]. cbn [q_waiting q_out bp_ring bp_rd].
  split; [by apply Forall_app_2; [|apply Forall_cons]|]. split; [done|].
  pose proof Hc' as (Hw' & _). rewrite length_app in Hw'.
  exists (S ++ frame_bytes f). split; [done|]. split; [lia|]. split; [lia|].
  rewrite drop_app_le by lia. rewrite Hd. unfold frames_bytes.
  rewrite map_app, concat_app. cbn. by rewrite app_nil_r.
Qed.

Lemma bp_pull_refines s q total :
  bp_refines s q total -> bp_refines (bp_step s BpPull) (q_step q BpPull) total.
Proof.
  intros (Ho & Hok & Hfit & S & Hc & Ht & Hrd & Hd).
  pose proof Hc as (Hw & Hlt & _). cbn [bp_step q_step]. unfold bytepipe_pull_frame.
  assert (Hlen : br_w (bp_ring s) - bp_rd s = Z.of_nat (length (frames_bytes (q_waiting q))))
    by (rewrite <- Hd, length_drop; lia).
  rewrite (bp_avail_carries _ S) by done.
  assert (Hold : oldest (bp_ring s) (bp_rd s) = bp_rd s) by (unfold oldest; lia). rewrite Hold, Hlen.
  destruct (q_waiting q) as [|f fs] eqn:Eq.
  - cbn [frames_bytes map concat length] in *. cbn. split; [done|]. rewrite Eq.
    repeat split; [done|done|]. by exists S.
  - apply Forall_cons in Hok as [(Hconn & Hport & Hf) Hfs].
    unfold frames_bytes in Hlen, Hd, Hfit |- *. cbn [map concat] in *. rewrite length_app, length_frame_bytes in *.
    unfold BYTEPIPE_FRAME_HDR_SZ in *. rewrite (proj2 (Z.ltb_ge _ _)) by lia.
    rewrite (bp_load_carries _ S) by (done || lia). rewrite Hd.
    rewrite frame_header by done. cbn [fh_len fh_conn_id fh_local_port].
    rewrite !Z.gtb_ltb. unfold BYTEPIPE_DATA_BYTES in *. rewrite (u32_small (8 + _)) by bp_lia.
    rewrite (proj2 (Z.ltb_ge _ _)) by lia. rewrite (proj2 (Z.ltb_ge _ _)) by lia.
    rewrite !u32_small by bp_lia. rewrite (bp_load_carries _ S) by (done || bp_lia).
    replace (Z.to_nat (bp_rd s + 8)) with (Z.to_nat (bp_rd s) + 8)%nat by lia.
    rewrite <- drop_drop, Hd. unfold frame_bytes at 1. rewrite <- app_assoc.
    rewrite (drop_app_length' (hdr_bytes _)) by done. rewrite take_app_length' by (by rewrite Nat2Z.id).
    split; [cbn; destruct f; by rewrite Ho|]. cbn [q_waiting bp_ring bp_rd].
    split; [done|]. split; [unfold frames_bytes; bp_lia|]. exists S. split; [done|]. split; [done|]. split; [lia|].
    replace (Z.to_nat (bp_rd s + 8 + Z.of_nat (length (fr_payload f))))
      with (Z.to_nat (bp_rd s) + (8 + length (fr_payload f)))%nat by lia.
    rewrite <- drop_drop, Hd. by rewrite drop_app_length' by (by rewrite length_frame_bytes).
Qed.

Lemma bp_run_refines ops : forall s q total,
  bp_refines s q total -> fits total q ops -> exists total', bp_refines (bp_run s ops) (q_run q ops) total'.
Proof.
  induction ops as [|o ops IH]; intros s q total Hr Hf; [by exists total|].
  destruct Hf as (Ho & Hb & Ht & Hf). unfold bp_run, q_run. cbn [fold_left].
  destruct o as [f|]; eapply IH; try exact Hf; [by apply bp_push_refines|by apply bp_pull_refines].
Qed.

(** C20: a ring under framed pushes and pulls, in any interleaving, delivers
    exactly the frames a queue would deliver: complete, in order, none twice,
    none lost.  Assumes the unread frames fit in the 65472 bytes at every step
    (the producer has no way to check) and fewer than 2^32 bytes in all. *)
Theorem frames_queue ops :
  fits 0 (mk_queue [] []) ops ->
  bp_out (bp_run (mk_bp fresh_ring 0 []) ops) = q_out (q_run (mk_queue [] []) ops).
Proof.
  intros Hf. destruct (bp_run_refines ops (mk_bp fresh_ring 0 []) (mk_queue [] []) 0) as [t (H & _)]; [|done..].
  split; [done|]. split; [by apply Forall_nil_2|]. split; [done|].
  exists []. split; [apply fresh_carries|]. cbn. repeat split; lia.
Qed.

Definition demo_frames : list bp_op :=
  [BpPush (mk_frame 7 80 [65; 65]); BpPull; BpPull; BpPush (mk_frame 9 22 []); BpPush (mk_frame 9 0xFF02 [1]); BpPull; BpPull].

Lemma frames_queue_witness :
  bp_out (bp_run (mk_bp fresh_ring 0 []) demo_frames) = [mk_frame 7 80 [65; 65]; mk_frame 9 22 []; mk_frame 9 0xFF02 [1]].
Proof.
  rewrite (frames_queue demo_frames); [reflexivity|].
  repeat split; vm_compute; try reflexivity; intros; discriminate.
Defined.

(** ** Limits *)

(** C40: at the wrap of the 32-bit cursor the ring loses bytes that fit: with 4096
    bytes unread before the wrap, far less than the ring holds, the next byte
    pushed lands on the oldest unread one, and the consumer reads the new byte in
    its place (65472 does not divide 2^32). *)
Theorem cursor_wrap_overwrites r b :
  br_w r = 0 ->
  let rd := 2 ^ 32 - 4096 in
  let r' := (bytepipe_push r [b]).1 in
  bp_avail r' rd = (rd, 4097) /\ (bytepipe_pull r' rd 1).1 = [b].
Proof.
  intros Hw rd r'. subst r' rd. unfold bytepipe_push. cbn [length take fst].
  change (Z.min (Z.of_nat 1) BYTEPIPE_DATA_BYTES) with 1. change (Z.to_nat 1) with 1%nat. cbn [take bp_store].
  unfold bytepipe_pull, bp_avail. cbn [br_w br_data]. rewrite Hw. split; [reflexivity|].
  change (u32 (u32 (0 + 1) - (2 ^ 32 - 4096))) with 4097. cbn -[bp_index bp_load poke Z.pow].
  unfold bp_load. cbn [map seq Z.to_nat Pos.to_nat Pos.iter_op Nat.add]. unfold poke. by vm_compute.
Qed.

Lemma cursor_wrap_overwrites_witness :
  (bytepipe_pull (bytepipe_push fresh_ring [42]).1 (2 ^ 32 - 4096) 1).1 = [42].
Proof. exact (proj2 (cursor_wrap_overwrites fresh_ring 42 eq_refl)). Defined.

(** A consumer whose cursor stands on bytes that do not decode to an acceptable
    header, as after a lap that ended inside a frame, does not move: every pull
    fails until the producer has lapped it again. *)
Lemma bad_header_blocks r S rd src out_max :
  carries r S -> 0 <= rd -> rd + BYTEPIPE_FRAME_HDR_SZ <= br_w r ->
  fh_len (hdr_of_bytes (take 8 (drop (Z.to_nat rd) S))) > BYTEPIPE_DATA_BYTES ->
  br_w r + Z.of_nat (length src) - rd <= BYTEPIPE_DATA_BYTES ->
  Z.of_nat (length S + length src) < 2 ^ 32 ->
  bytepipe_pull_frame (bytepipe_push r src).1 rd out_max = (None, rd).
Proof.
  unfold BYTEPIPE_FRAME_HDR_SZ. intros Hc H0 Hrd Hbad Hlap Hmax. pose proof Hc as (Hw & _).
  destruct (push_carries r S src Hc) as [_ Hc']; [lia|lia|]. pose proof Hc' as (Hw' & _).
  rewrite length_app in Hw'. unfold bytepipe_pull_frame, BYTEPIPE_FRAME_HDR_SZ.
  rewrite (bp_avail_carries _ (S ++ src)) by (done || lia). unfold oldest. rewrite Z.max_l by lia.
  rewrite (proj2 (Z.ltb_ge _ _)) by lia. rewrite (bp_load_carries _ (S ++ src)) by (done || lia).
  rewrite drop_app_le, take_app_le by (rewrite ?length_drop; lia).
  rewrite Z.gtb_ltb, (proj2 (Z.ltb_lt _ _)) by lia. done.
Qed.
