(* ===== verification/BoxState.v ===== *)
(** * The state the pipes, the descriptors and the multiplexing calls share

    A sotBox is a client process of the orchestrator; at most eight are live.
    This file holds the parts of [lucas_state_t] (src/lucas/state.h) that the
    blocking calls use (the descriptor table, the record of a parked pipe
    transfer, of a parked epoll_wait, poll, select or console wait, the epoll
    instances), the pipe pool of src/orch/pipe.c and the slot table.

    [world] is all of it together, with the log of what left it: [EvResume] is
    the reply sent to a parked client, with the reply capability it is sent on
    and the value of the system call; [EvAlloc], [EvFill] and [EvDrain] are the
    life of a pipe and the bytes that enter and leave its ring; the others are
    calls into the file systems, the socket layer and the
    capture of an attacker's keystrokes.  [env] is what the calls
    read from outside: the file system operations, the readiness of sockets and
    of the console.

    Register access of a parked client ([seL4_TCB_ReadRegisters] and
    [WriteRegisters]) is taken to succeed. *)

From S2P Require Import Prelude ClientMem Bytepipe.

Definition LUCAS_MAX_FDS : nat := 64.
Definition SOTBOX_MAX_SLOTS : nat := 8.
Definition LUCAS_PIPE_POOL : nat := 64.
Definition LUCAS_PIPE_BUF_SIZE : Z := 4096.
Definition LUCAS_WAIT4_DEFERRED : Z := - 2 ^ 63.
Definition O_NONBLOCK : Z := 0x800.
Definition LX_O_CLOEXEC : Z := 0x80000.
Definition LX_EBADF : Z := 9.
Definition LX_EAGAIN : Z := 11.
Definition LX_ENOMEM : Z := 12.
Definition LX_EFAULT : Z := 14.
Definition LX_EINVAL : Z := 22.

(** ** Descriptors *)

Inductive fd_kind :=
  | FD_INVALID | FD_STDIO | FD_VFS | FD_PIPE_READ | FD_PIPE_WRITE | FD_SOCKET
  | FD_EPOLL | FD_FB | FD_DOOMKBD | FD_DOOMMOUSE | FD_NULL | FD_URANDOM.

#[export] Instance fd_kind_eq_dec : EqDecision fd_kind.
Proof. solve_decision. Defined.

(** An entry of the descriptor table. *)
Record lucas_fd := mk_lucas_fd {
  f_kind : fd_kind;
  f_mount : option nat;  (** the mount, when a file is open *)
  f_handle : Z;  (** its backend handle, 0 for none *)
  f_cursor : Z;
  f_flags : Z;  (** O_NONBLOCK, O_CLOEXEC *)
  f_is_std : bool;
  f_is_console_tty : bool;
  f_pipe : option nat;  (** index of the pipe in the pool *)
  f_unix_chan : bool;  (** a socketpair end, [unix_chan_idx1 != 0] *)
  f_egress : bool;  (** an egress socket: [lwip_sess], [tcp_conn] or [connect_peer_ip_be] *)
  f_lazy_pinned : bool  (** a lazy mapping holds the handle *)
}.

Definition zero_fd : lucas_fd := mk_lucas_fd FD_INVALID None 0 0 0 false false None false false false.

Definition set_f_kind (x : fd_kind) (e : lucas_fd) : lucas_fd :=
  mk_lucas_fd x (f_mount e) (f_handle e) (f_cursor e) (f_flags e) (f_is_std e) (f_is_console_tty e) (f_pipe e) (f_unix_chan e) (f_egress e) (f_lazy_pinned e).
Definition set_f_mount (x : option nat) (e : lucas_fd) : lucas_fd :=
  mk_lucas_fd (f_kind e) x (f_handle e) (f_cursor e) (f_flags e) (f_is_std e) (f_is_console_tty e) (f_pipe e) (f_unix_chan e) (f_egress e) (f_lazy_pinned e).
Definition set_f_handle (x : Z) (e : lucas_fd) : lucas_fd :=
  mk_lucas_fd (f_kind e) (f_mount e) x (f_cursor e) (f_flags e) (f_is_std e) (f_is_console_tty e) (f_pipe e) (f_unix_chan e) (f_egress e) (f_lazy_pinned e).
Definition set_f_flags (x : Z) (e : lucas_fd) : lucas_fd :=
  mk_lucas_fd (f_kind e) (f_mount e) (f_handle e) (f_cursor e) x (f_is_std e) (f_is_console_tty e) (f_pipe e) (f_unix_chan e) (f_egress e) (f_lazy_pinned e).
Definition set_f_pipe (x : option nat) (e : lucas_fd) : lucas_fd :=
  mk_lucas_fd (f_kind e) (f_mount e) (f_handle e) (f_cursor e) (f_flags e) (f_is_std e) (f_is_console_tty e) x (f_unix_chan e) (f_egress e) (f_lazy_pinned e).

(** ** Pipes *)

(** The pipe object: a ring of 4096 bytes and the open counts of its two ends. *)
Record pipe := mk_pipe {
  p_buf : Z -> Z;
  p_head : Z;  (** next write position *)
  p_tail : Z;  (** next read position *)
  p_count : Z;  (** bytes available to read *)
  p_readers_open : Z;
  p_writers_open : Z;
  p_in_use : bool
}.

Definition zero_pipe : pipe := mk_pipe (fun _ => 0) 0 0 0 0 0 false.

Definition set_p_readers_open (x : Z) (p : pipe) : pipe :=
  mk_pipe (p_buf p) (p_head p) (p_tail p) (p_count p) x (p_writers_open p) (p_in_use p).
Definition set_p_writers_open (x : Z) (p : pipe) : pipe :=
  mk_pipe (p_buf p) (p_head p) (p_tail p) (p_count p) (p_readers_open p) x (p_in_use p).
Definition set_p_in_use (x : bool) (p : pipe) : pipe :=
  mk_pipe (p_buf p) (p_head p) (p_tail p) (p_count p) (p_readers_open p) (p_writers_open p) x.

(** ** Wait records *)

Inductive sotbox_state :=
  | RUNNING | WAITING_FOR_CHILD | WAITING_FOR_PIPE_READ | WAITING_FOR_PIPE_WRITE | EXITED
  | WAITING_FOR_FUTEX | WAITING_FOR_EPOLL | WAITING_FOR_SIGNAL | WAITING_FOR_RECV
  | WAITING_FOR_ACCEPT | WAITING_FOR_CONSOLE | WAITING_FOR_VFORK | WAITING_FOR_UNIX
  | WAITING_FOR_POLL | WAITING_FOR_SELECT.

#[export] Instance sotbox_state_eq_dec : EqDecision sotbox_state.
Proof. solve_decision. Defined.

(** A transfer parked on a pipe. *)
Record pipe_wait := mk_pipe_wait {
  waiting_pipe : option nat;
  waiting_pipe_buf : Z;
  waiting_pipe_count : Z;
  pipe_reply_cap : Z;
  pipe_wait_kind : Z  (** 0 none, 1 read, 2 write *)
}.

Definition no_pipe_wait : pipe_wait := mk_pipe_wait None 0 0 0 0.

(** A descriptor registered with an epoll instance. *)
Record epoll_entry := mk_epoll_entry {
  ee_fd : Z;
  ee_events : Z;
  ee_user_data : Z
}.

Definition zero_epoll_entry : epoll_entry := mk_epoll_entry 0 0 0.

(** An epoll instance. *)
Record epoll_instance := mk_epoll_instance {
  ep_in_use : bool;
  ep_epfd : Z;
  ep_entries : list epoll_entry;  (** 16 of them *)
  ep_n_entries : Z
}.

Definition zero_epoll_instance : epoll_instance := mk_epoll_instance false 0 (replicate 16 zero_epoll_entry) 0.

(** A parked epoll_wait. *)
Record epoll_wait := mk_epoll_wait {
  epoll_wait_slot : Z;  (** -1 when not waiting *)
  epoll_wait_events_vaddr : Z;
  epoll_wait_maxevents : Z
}.

(** A parked poll. *)
Record poll_wait := mk_poll_wait {
  poll_wait_fds_vaddr : Z;
  poll_wait_nfds : Z
}.

(** A parked select. *)
Record sel_wait := mk_sel_wait {
  sel_wait_nfds : Z;
  sel_wait_rfds_vaddr : Z;
  sel_wait_wfds_vaddr : Z;
  sel_wait_efds_vaddr : Z;
  sel_wait_rfds_orig : list Z  (** the read set before the first scan *)
}.

(** The console side of a sotBox and its parked console wait. *)
Record console := mk_console {
  console_src : Z;  (** LUCAS_CONSOLE_SRC_* *)
  console_interactive : bool;
  dsr_emit : Z;  (** bytes left of the cursor report *)
  shell_in_rd : Z;  (** read cursor in the SHELL_IN ring *)
  console_reply_cslot : Z;
  console_wait_kind : Z;  (** LUCAS_CONSOLE_WAIT_* *)
  console_buf_vaddr : Z;
  console_poll_fds_vaddr : Z;
  console_poll_nfds : Z;
  console_sel_wfds_vaddr : Z;
  console_sel_efds_vaddr : Z
}.

(** ** sotBoxes and the world *)

(** The part of [lucas_state_t] used here. *)
Record box := mk_box {
  b_state : sotbox_state;
  b_waiting_reply_cap : Z;
  b_fds : list lucas_fd;  (** LUCAS_MAX_FDS entries *)
  b_pipe_wait : pipe_wait;
  b_epoll_table : list epoll_instance;  (** 8 instances *)
  b_n_epoll_instances : Z;
  b_epoll_wait : epoll_wait;
  b_poll_wait : poll_wait;
  b_sel_wait : sel_wait;
  b_console : console;
  b_vspace : vspace
}.

Definition set_b_state (x : sotbox_state) (b : box) : box :=
  mk_box x (b_waiting_reply_cap b) (b_fds b) (b_pipe_wait b) (b_epoll_table b) (b_n_epoll_instances b) (b_epoll_wait b) (b_poll_wait b) (b_sel_wait b) (b_console b) (b_vspace b).
Definition set_b_waiting_reply_cap (x : Z) (b : box) : box :=
  mk_box (b_state b) x (b_fds b) (b_pipe_wait b) (b_epoll_table b) (b_n_epoll_instances b) (b_epoll_wait b) (b_poll_wait b) (b_sel_wait b) (b_console b) (b_vspace b).
Definition set_b_fds (x : list lucas_fd) (b : box) : box :=
  mk_box (b_state b) (b_waiting_reply_cap b) x (b_pipe_wait b) (b_epoll_table b) (b_n_epoll_instances b) (b_epoll_wait b) (b_poll_wait b) (b_sel_wait b) (b_console b) (b_vspace b).
Definition set_b_pipe_wait (x : pipe_wait) (b : box) : box :=
  mk_box (b_state b) (b_waiting_reply_cap b) (b_fds b) x (b_epoll_table b) (b_n_epoll_instances b) (b_epoll_wait b) (b_poll_wait b) (b_sel_wait b) (b_console b) (b_vspace b).
Definition set_b_epoll_table (x : list epoll_instance) (b : box) : box :=
  mk_box (b_state b) (b_waiting_reply_cap b) (b_fds b) (b_pipe_wait b) x (b_n_epoll_instances b) (b_epoll_wait b) (b_poll_wait b) (b_sel_wait b) (b_console b) (b_vspace b).
Definition set_b_n_epoll_instances (x : Z) (b : box) : box :=
  mk_box (b_state b) (b_waiting_reply_cap b) (b_fds b) (b_pipe_wait b) (b_epoll_table b) x (b_epoll_wait b) (b_poll_wait b) (b_sel_wait b) (b_console b) (b_vspace b).
Definition set_b_epoll_wait (x : epoll_wait) (b : box) : box :=
  mk_box (b_state b) (b_waiting_reply_cap b) (b_fds b) (b_pipe_wait b) (b_epoll_table b) (b_n_epoll_instances b) x (b_poll_wait b) (b_sel_wait b) (b_console b) (b_vspace b).
Definition set_b_poll_wait (x : poll_wait) (b : box) : box :=
  mk_box (b_state b) (b_waiting_reply_cap b) (b_fds b) (b_pipe_wait b) (b_epoll_table b) (b_n_epoll_instances b) (b_epoll_wait b) x (b_sel_wait b) (b_console b) (b_vspace b).
Definition set_b_sel_wait (x : sel_wait) (b : box) : box :=
  mk_box (b_state b) (b_waiting_reply_cap b) (b_fds b) (b_pipe_wait b) (b_epoll_table b) (b_n_epoll_instances b) (b_epoll_wait b) (b_poll_wait b) x (b_console b) (b_vspace b).
Definition set_b_console (x : console) (b : box) : box :=
  mk_box (b_state b) (b_waiting_reply_cap b) (b_fds b) (b_pipe_wait b) (b_epoll_table b) (b_n_epoll_instances b) (b_epoll_wait b) (b_poll_wait b) (b_sel_wait b) x (b_vspace b).
Definition set_b_vspace (x : vspace) (b : box) : box :=
  mk_box (b_state b) (b_waiting_reply_cap b) (b_fds b) (b_pipe_wait b) (b_epoll_table b) (b_n_epoll_instances b) (b_epoll_wait b) (b_poll_wait b) (b_sel_wait b) (b_console b) x.

Inductive event :=
  | EvResume (slot : nat) (cap retval : Z)
  | EvAlloc (p : nat)
  | EvFill (p : nat) (bs : list Z)
  | EvDrain (p : nat) (bs : list Z)
  | EvVfsClose (mount : nat) (handle : Z)
  | EvReclockRelease (slot fd : nat)
  | EvSocketClose (slot fd : nat)
  | EvUnixInherit (slot fd : nat)
  | EvCapture (slot : nat) (b : Z).

(** Pipes, sotBoxes, the slot the console is focused on, and the log. *)
Record world := mk_world {
  w_pipes : list pipe;  (** [g_pipe_pool] *)
  w_slots : list (option box);  (** [g_slots] *)
  w_focus : Z;  (** [g_console_focus_slot] *)
  w_log : list event  (** what happened, oldest first *)
}.

Definition set_w_pipes (x : list pipe) (w : world) : world :=
  mk_world x (w_slots w) (w_focus w) (w_log w).
Definition set_w_slots (x : list (option box)) (w : world) : world :=
  mk_world (w_pipes w) x (w_focus w) (w_log w).
Definition set_w_focus (x : Z) (w : world) : world :=
  mk_world (w_pipes w) (w_slots w) x (w_log w).
Definition set_w_log (x : list event) (w : world) : world :=
  mk_world (w_pipes w) (w_slots w) (w_focus w) x.

(** What the calls read from outside: the close and dup_handle operations of a
    mount, the readiness mask of a socket, whether the serial console has a byte,
    the SHELL_IN ring (src/net-synth writes it). *)
Record env := mk_env {
  vfs_close : nat -> option (Z -> Z);
  vfs_dup_handle : nat -> option (Z -> option Z);
  socket_ready : box -> nat -> Z;
  console_data_ready : bool;
  shell_in : bytepipe_ring
}.

(** ** Access *)

Definition get_pipe (w : world) (p : nat) : pipe := (w_pipes w).[p, zero_pipe].

Definition set_pipe (p : nat) (x : pipe) (w : world) : world := set_w_pipes (<[p := x]> (w_pipes w)) w.

(** [sotbox_get_slot]. *)
Definition sotbox_get_slot (w : world) (i : nat) : option box := (w_slots w).[i, None].

Definition set_slot (i : nat) (b : box) (w : world) : world := set_w_slots (<[i := Some b]> (w_slots w)) w.

Definition log_event (e : event) (w : world) : world := set_w_log (w_log w ++ [e]) w.

Definition get_fd (b : box) (fd : nat) : lucas_fd := (b_fds b).[fd, zero_fd].

Definition set_fd (fd : nat) (e : lucas_fd) (b : box) : box := set_b_fds (<[fd := e]> (b_fds b)) b.

(** A free entry: no kind and not a legacy standard stream. *)
Definition fd_free (b : box) (i : nat) : bool :=
  bool_decide (f_kind (get_fd b i) = FD_INVALID) && negb (f_is_std (get_fd b i)).

(** [lucas_copy_to_client] on the memory of a sotBox. *)
Definition box_copy_out (b : box) (vaddr : Z) (bs : list Z) : box * bool :=
  let '(v, ok) := lucas_copy_to_client (b_vspace b) vaddr bs in (set_b_vspace v b, ok).

(** The slots in the order the loops visit them. *)
Definition all_slots : list nat := seq 0 SOTBOX_MAX_SLOTS.
