(* ===== verification/Iomux.v ===== *)
(** * I/O multiplexing: readiness, epoll, poll and select

    src/lucas/iomux.c.  [iomux_fd_ready] is the readiness oracle; [epoll_drain_ready],
    [iomux_select_scan] and [iomux_poll_scan] walk a set of descriptors, write the
    result into the memory of the client and return how many are ready; the parks
    record a blocked call in the sotBox; [iomux_check_epoll_waiters],
    [iomux_check_poll_waiters] and [iomux_check_select_waiters] are the hooks the
    pipes call when their readiness may have changed.

    The readiness predicates of a pipe (src/orch/pipe.c) come first because the
    oracle is their only user. *)

From S2P Require Import Prelude Storage ClientMem Bytepipe BoxState.

(** ** Pipe readiness (src/orch/pipe.c) *)

Definition lucas_pipe_read_ready (p : pipe) : bool := (p_count p >? 0) || (p_writers_open p =? 0).

Definition lucas_pipe_write_ready (p : pipe) : bool :=
  if p_readers_open p =? 0 then true else LUCAS_PIPE_BUF_SIZE - p_count p >? 0.

Definition lucas_pipe_hup (p : pipe) : bool := (p_writers_open p =? 0) && (p_count p =? 0).

Definition lucas_pipe_would_block_read (p : pipe) : bool := (p_count p =? 0) && negb (p_writers_open p =? 0).

(** ** Constants *)

Definition LX_EPOLLIN : Z := 0x001.
Definition LX_EPOLLOUT : Z := 0x004.
Definition LX_EPOLLHUP : Z := 0x010.
Definition LX_EPOLL_CTL_ADD : Z := 1.
Definition LX_EPOLL_CTL_DEL : Z := 2.
Definition LX_EPOLL_CTL_MOD : Z := 3.
Definition LX_POLLIN : Z := 0x001.
Definition LX_POLLOUT : Z := 0x004.
Definition LX_POLLHUP : Z := 0x010.
Definition IOMUX_READABLE : Z := 0x1.
Definition IOMUX_WRITABLE : Z := 0x2.
Definition IOMUX_HUP : Z := 0x4.
Definition LUCAS_CONSOLE_SRC_SSH_RING : Z := 1.

(** [x & m] as a condition, [if (c) x |= m]. *)
Definition has (x m : Z) : bool := negb (Z.land x m =? 0).
Definition or_if (c : bool) (m x : Z) : Z := if c then Z.lor x m else x.

(** ** The readiness oracle *)

(** The pipe of a descriptor, [None] for a null pointer. *)
Definition fd_pipe (pipes : list pipe) (e : lucas_fd) : option pipe :=
  match f_pipe e with Some p => Some (pipes.[p, zero_pipe]) | None => None end.

Definition iomux_fd_ready (E : env) (pipes : list pipe) (b : box) (fd : Z) : Z :=
  if (fd <? 0) || (fd >=? Z.of_nat LUCAS_MAX_FDS) then 0
  else
    let e := get_fd b (Z.to_nat fd) in
    let c := b_console b in
    match f_kind e with
    | FD_STDIO =>
        if (fd =? 0) || f_is_console_tty e then
          if console_src c =? LUCAS_CONSOLE_SRC_SSH_RING then
            or_if ((dsr_emit c >? 0) || negb (br_w (shell_in E) =? shell_in_rd c)) IOMUX_READABLE IOMUX_WRITABLE
          else or_if ((dsr_emit c >? 0) || console_data_ready E) IOMUX_READABLE IOMUX_WRITABLE
        else IOMUX_WRITABLE
    | FD_PIPE_READ =>
        match fd_pipe pipes e with
        | None => 0
        | Some p => or_if (lucas_pipe_hup p) IOMUX_HUP (or_if (lucas_pipe_read_ready p) IOMUX_READABLE 0)
        end
    | FD_PIPE_WRITE =>
        match fd_pipe pipes e with
        | None => 0
        | Some p => or_if (lucas_pipe_hup p) IOMUX_HUP (or_if (lucas_pipe_write_ready p) IOMUX_WRITABLE 0)
        end
    | FD_VFS => Z.lor IOMUX_READABLE IOMUX_WRITABLE
    | FD_SOCKET => socket_ready E b (Z.to_nat fd)
    | _ => 0
    end.

Definition alloc_lucas_fd (b : box) : option nat := first_below (fd_free b) LUCAS_MAX_FDS.

(** ** Epoll instances *)

Definition EPOLL_TABLE_SIZE : nat := 8.
Definition EPOLL_ENTRIES_PER_INSTANCE : nat := 16.

Definition get_ep (b : box) (s : nat) : epoll_instance := (b_epoll_table b).[s, zero_epoll_instance].
Definition set_ep (s : nat) (x : epoll_instance) (b : box) : box :=
  set_b_epoll_table (<[s := x]> (b_epoll_table b)) b.

Definition epoll_slot_for_fd (b : box) (epfd : Z) : option nat :=
  first_below (fun s => ep_in_use (get_ep b s) && (ep_epfd (get_ep b s) =? epfd)) EPOLL_TABLE_SIZE.

Definition epoll_alloc_slot (b : box) : option (nat * box) :=
  match first_below (fun s => negb (ep_in_use (get_ep b s))) EPOLL_TABLE_SIZE with
  | Some s => Some (s, set_ep s (mk_epoll_instance true 0 (replicate 16 zero_epoll_entry) 0) b)
  | None => None
  end.

(** The event a registered descriptor has ready: its mask restricted to what was
    asked for, HUP always. *)
Definition epoll_got (E : env) (pipes : list pipe) (b : box) (x : epoll_entry) : Z :=
  let mask := iomux_fd_ready E pipes b (ee_fd x) in
  let want := ee_events x in
  or_if (has mask IOMUX_HUP) LX_EPOLLHUP
    (or_if (has want LX_EPOLLOUT && has mask IOMUX_WRITABLE) LX_EPOLLOUT
      (or_if (has want LX_EPOLLIN && has mask IOMUX_READABLE) LX_EPOLLIN 0)).

(** [struct lx_epoll_event], packed. *)
Definition epoll_event_bytes (ev : Z * Z) : list Z := le_bytes 4 ev.1 ++ le_bytes 8 ev.2.

Fixpoint epoll_stage (E : env) (pipes : list pipe) (b : box) (room : nat) (xs : list epoll_entry) : list (Z * Z) :=
  match xs, room with
  | [], _ | _, O => []
  | x :: xs, S room' =>
      let got := epoll_got E pipes b x in
      if got =? 0 then epoll_stage E pipes b room xs
      else (got, ee_user_data x) :: epoll_stage E pipes b room' xs
  end.

(** The registered entries the scan visits. *)
Definition ep_live (x : epoll_instance) : list epoll_entry :=
  let n := if ep_n_entries x >? Z.of_nat EPOLL_ENTRIES_PER_INSTANCE then Z.of_nat EPOLL_ENTRIES_PER_INSTANCE
           else ep_n_entries x in
  take (Z.to_nat n) (ep_entries x).

Definition epoll_drain_ready (E : env) (pipes : list pipe) (b : box) (slot events_vaddr maxevents : Z) : box * Z :=
  if (slot <? 0) || (slot >=? Z.of_nat EPOLL_TABLE_SIZE) then (b, - LX_EINVAL)
  else if maxevents <=? 0 then (b, - LX_EINVAL)
  else
    let staged := epoll_stage E pipes b (Z.to_nat (Z.min maxevents 16)) (ep_live (get_ep b (Z.to_nat slot))) in
    match staged with
    | [] => (b, 0)
    | _ =>
        let '(b, ok) := box_copy_out b events_vaddr (concat (map epoll_event_bytes staged)) in
        if ok then (b, Z.of_nat (length staged)) else (b, - LX_EFAULT)
    end.

(** ** Parking and resuming

    [cap] is the outcome of [vka_cspace_alloc] and [seL4_CNode_SaveCaller]: the
    slot the reply capability was saved in, or nothing. *)

Definition epoll_park (cap : option Z) (slot events_vaddr maxevents : Z) (b : box) : box * Z :=
  match cap with
  | None => (b, - LX_ENOMEM)
  | Some c =>
      (set_b_state WAITING_FOR_EPOLL (set_b_epoll_wait (mk_epoll_wait slot events_vaddr maxevents)
         (set_b_waiting_reply_cap c b)), LUCAS_WAIT4_DEFERRED)
  end.

Definition epoll_resume_sotbox (i : nat) (retval : Z) (b : box) : box * event :=
  (set_b_state RUNNING (set_b_epoll_wait (mk_epoll_wait (-1) 0 0) (set_b_waiting_reply_cap 0 b)),
   EvResume i (b_waiting_reply_cap b) retval).

Definition poll_park (cap : option Z) (fds_vaddr nfds : Z) (b : box) : box * Z :=
  match cap with
  | None => (b, - LX_ENOMEM)
  | Some c =>
      (set_b_state WAITING_FOR_POLL (set_b_poll_wait (mk_poll_wait fds_vaddr nfds) (set_b_waiting_reply_cap c b)),
       LUCAS_WAIT4_DEFERRED)
  end.

Definition lucas_poll_pipe_park := poll_park.

Definition poll_resume_sotbox (i : nat) (retval : Z) (b : box) : box * event :=
  (set_b_state RUNNING (set_b_poll_wait (mk_poll_wait 0 0) (set_b_waiting_reply_cap 0 b)),
   EvResume i (b_waiting_reply_cap b) retval).

Definition select_park (cap : option Z) (nfds rfds wfds efds : Z) (rfds_orig : list Z) (b : box) : box * Z :=
  match cap with
  | None => (b, - LX_ENOMEM)
  | Some c =>
      (set_b_state WAITING_FOR_SELECT (set_b_sel_wait (mk_sel_wait nfds rfds wfds efds rfds_orig)
         (set_b_waiting_reply_cap c b)), LUCAS_WAIT4_DEFERRED)
  end.

Definition lucas_select_pipe_park := select_park.

(** [sel_wait_rfds_orig] is left as it is. *)
Definition select_resume_sotbox (i : nat) (retval : Z) (b : box) : box * event :=
  (set_b_state RUNNING (set_b_sel_wait (mk_sel_wait 0 0 0 0 (sel_wait_rfds_orig (b_sel_wait b)))
     (set_b_waiting_reply_cap 0 b)),
   EvResume i (b_waiting_reply_cap b) retval).

(** ** select *)

Definition FDSET_WORDS : nat := 1.

Definition fdset_get (set : list Z) (fd : nat) : bool :=
  Z.testbit (set.[(fd / 64)%nat, 0]) (Z.of_nat (fd mod 64)).

Definition fdset_set (set : list Z) (fd : nat) : list Z :=
  let i := (fd / 64)%nat in <[i := Z.lor (set.[i, 0]) (Z.shiftl 1 (Z.of_nat (fd mod 64)))]> set.

Definition fdset_bytes (nfds : Z) : Z := if nfds <=? 0 then 0 else (nfds + 63) / 64 * 8.

(** The words of a set and the bytes of the words. *)
Definition words_of_bytes (bs : list Z) : list Z := map (fun i => field bs (8 * i) 8) (seq 0 FDSET_WORDS).
Definition bytes_of_words (ws : list Z) : list Z := concat (map (le_bytes 8) ws).

Definition zero_set : list Z := replicate FDSET_WORDS 0.

(** A set of the client; a null pointer is the empty set. *)
Definition fdset_load (b : box) (vaddr nbytes : Z) : option (list Z) :=
  if vaddr =? 0 then Some zero_set
  else match lucas_copy_from_client (b_vspace b) vaddr nbytes with
       | Some bs => Some (words_of_bytes bs)
       | None => None
       end.

Definition fdset_store (b : box) (vaddr nbytes : Z) (ws : list Z) : box * bool :=
  if vaddr =? 0 then (b, true) else box_copy_out b vaddr (take (Z.to_nat nbytes) (bytes_of_words ws)).

Record sel_sets := mk_sel_sets { ss_r : list Z; ss_w : list Z; ss_e : list Z; ss_ready : Z }.

(** One turn of the scan: descriptor [fd] against the three sets. *)
Definition select_step (E : env) (pipes : list pipe) (b : box) (rfds wfds efds : Z) (rin win ein : list Z)
  (acc : sel_sets) (fd : nat) : sel_sets :=
  let mask := iomux_fd_ready E pipes b (Z.of_nat fd) in
  let r := negb (rfds =? 0) && fdset_get rin fd && has mask IOMUX_READABLE in
  let w := negb (wfds =? 0) && fdset_get win fd && has mask IOMUX_WRITABLE in
  let e := negb (efds =? 0) && fdset_get ein fd && has mask IOMUX_HUP in
  mk_sel_sets (if r then fdset_set (ss_r acc) fd else ss_r acc)
              (if w then fdset_set (ss_w acc) fd else ss_w acc)
              (if e then fdset_set (ss_e acc) fd else ss_e acc)
              (ss_ready acc + Z.b2z r + Z.b2z w + Z.b2z e).

Definition clamp_fds (nfds : Z) : Z := if nfds >? Z.of_nat LUCAS_MAX_FDS then Z.of_nat LUCAS_MAX_FDS else nfds.

Definition set_bytes (nfds : Z) : Z := Z.min (fdset_bytes nfds) (8 * Z.of_nat FDSET_WORDS).

Definition iomux_select_scan (E : env) (pipes : list pipe) (b : box) (nfds rfds wfds efds : Z) : box * Z :=
  if nfds <=? 0 then (b, 0)
  else
    let nfds := clamp_fds nfds in
    let nbytes := set_bytes nfds in
    match fdset_load b rfds nbytes, fdset_load b wfds nbytes, fdset_load b efds nbytes with
    | Some rin, Some win, Some ein =>
        let out := fold_left (select_step E pipes b rfds wfds efds rin win ein) (seq 0 (Z.to_nat nfds))
                     (mk_sel_sets zero_set zero_set zero_set 0) in
        let '(b, ok) := fdset_store b rfds nbytes (ss_r out) in
        if negb ok then (b, - LX_EFAULT) else
        let '(b, ok) := fdset_store b wfds nbytes (ss_w out) in
        if negb ok then (b, - LX_EFAULT) else
        let '(b, ok) := fdset_store b efds nbytes (ss_e out) in
        if negb ok then (b, - LX_EFAULT) else (b, ss_ready out)
    | _, _, _ => (b, - LX_EFAULT)
    end.

(** The loop of the eligibility test; [found] is [pipe_in]. *)
Fixpoint select_pipe_only (b : box) (wfds efds : Z) (rin win ein : list Z) (fds : list nat) (found : bool) : bool :=
  match fds with
  | [] => found
  | fd :: rest =>
      if negb (wfds =? 0) && fdset_get win fd then false
      else if negb (efds =? 0) && fdset_get ein fd then false
      else if negb (fdset_get rin fd) then select_pipe_only b wfds efds rin win ein rest found
      else if bool_decide (f_kind (get_fd b fd) = FD_PIPE_READ)
      then select_pipe_only b wfds efds rin win ein rest true
      else false
  end.

Definition iomux_select_has_pipe_read_block (b : box) (nfds rfds wfds efds : Z) : bool :=
  if (nfds <=? 0) || (rfds =? 0) then false
  else
    let nfds := clamp_fds nfds in
    let nbytes := set_bytes nfds in
    match fdset_load b rfds nbytes, fdset_load b wfds nbytes, fdset_load b efds nbytes with
    | Some rin, Some win, Some ein =>
        select_pipe_only b wfds efds rin win ein (seq 0 (Z.to_nat nfds)) false
    | _, _, _ => false
    end.

(** ** poll *)

(** [struct lx_pollfd]: fd at 0 (4 bytes), events at 4 and revents at 6 (2 each). *)
Definition POLLFD_BYTES : nat := 8.

Definition pollfd_fd (bs : list Z) : Z := i32 (field bs 0 4).
Definition pollfd_events (bs : list Z) : Z := field bs 4 2.

Definition poll_revents (E : env) (pipes : list pipe) (b : box) (bs : list Z) : Z :=
  if pollfd_fd bs <? 0 then 0
  else
    let mask := iomux_fd_ready E pipes b (pollfd_fd bs) in
    or_if (has mask IOMUX_HUP) LX_POLLHUP
      (or_if (has (pollfd_events bs) LX_POLLOUT && has mask IOMUX_WRITABLE) LX_POLLOUT
        (or_if (has (pollfd_events bs) LX_POLLIN && has mask IOMUX_READABLE) LX_POLLIN 0)).

(** The array cut into its entries. *)
Fixpoint pollfds (n : nat) (bs : list Z) : list (list Z) :=
  match n with
  | O => []
  | S n => take POLLFD_BYTES bs :: pollfds n (drop POLLFD_BYTES bs)
  end.

Definition poll_load (b : box) (fds_vaddr nfds : Z) : option (list (list Z)) :=
  let n := clamp_fds nfds in
  match lucas_copy_from_client (b_vspace b) fds_vaddr (n * Z.of_nat POLLFD_BYTES) with
  | Some bs => Some (pollfds (Z.to_nat n) bs)
  | None => None
  end.

Definition iomux_poll_scan (E : env) (pipes : list pipe) (b : box) (fds_vaddr nfds : Z) : box * Z :=
  if (nfds =? 0) || (fds_vaddr =? 0) then (b, 0)
  else
    match poll_load b fds_vaddr nfds with
    | None => (b, - LX_EFAULT)
    | Some pfds =>
        let out := map (fun x => take 6 x ++ le_bytes 2 (poll_revents E pipes b x)) pfds in
        let ready := length (filter (fun x => poll_revents E pipes b x <> 0) pfds) in
        let '(b, ok) := box_copy_out b fds_vaddr (concat out) in
        if ok then (b, Z.of_nat ready) else (b, - LX_EFAULT)
    end.

Fixpoint poll_stdin_only (b : box) (pfds : list (list Z)) (found : bool) : bool :=
  match pfds with
  | [] => found
  | x :: rest =>
      if pollfd_fd x <? 0 then poll_stdin_only b rest found
      else if negb (has (pollfd_events x) LX_POLLIN) then poll_stdin_only b rest found
      else if (pollfd_fd x =? 0) && bool_decide (f_kind (get_fd b 0) = FD_STDIO) then poll_stdin_only b rest true
      else false
  end.

Definition iomux_poll_is_stdin_block (b : box) (fds_vaddr nfds : Z) : bool :=
  if (nfds =? 0) || (fds_vaddr =? 0) then false
  else match poll_load b fds_vaddr nfds with Some pfds => poll_stdin_only b pfds false | None => false end.

Fixpoint poll_pipe_only (b : box) (pfds : list (list Z)) (found : bool) : bool :=
  match pfds with
  | [] => found
  | x :: rest =>
      if pollfd_fd x <? 0 then poll_pipe_only b rest found
      else if negb (has (pollfd_events x) LX_POLLIN) then poll_pipe_only b rest found
      else if (pollfd_fd x <? Z.of_nat LUCAS_MAX_FDS)
              && bool_decide (f_kind (get_fd b (Z.to_nat (pollfd_fd x))) = FD_PIPE_READ)
      then poll_pipe_only b rest true
      else false
  end.

Definition iomux_poll_has_pipe_read_block (b : box) (fds_vaddr nfds : Z) : bool :=
  if (nfds =? 0) || (fds_vaddr =? 0) then false
  else match poll_load b fds_vaddr nfds with Some pfds => poll_pipe_only b pfds false | None => false end.

(** ** The hooks the pipes call *)

(** A hook visits the slots in order; [f] rescans one sotBox and says whether it
    is resumed and with what value. *)
Fixpoint for_slots (f : nat -> box -> option (box * option event)) (slots : list nat) (w : world) : world :=
  match slots with
  | [] => w
  | i :: rest =>
      match sotbox_get_slot w i with
      | None => for_slots f rest w
      | Some b =>
          match f i b with
          | None => for_slots f rest w
          | Some (b', ev) =>
              let w := set_slot i b' w in
              for_slots f rest (match ev with Some e => log_event e w | None => w end)
          end
      end
  end.

(** A rescan that found something, or failed, resumes the sotBox with its result. *)
Definition resume_if (resume : nat -> Z -> box -> box * event) (i : nat) (r : box * Z) : box * option event :=
  let '(b, n) := r in
  if n =? 0 then (b, None) else let '(b, e) := resume i n b in (b, Some e).

Definition iomux_check_epoll_waiters (E : env) (w : world) : world :=
  for_slots (fun i b =>
    if bool_decide (b_state b <> WAITING_FOR_EPOLL) then None
    else
      let x := b_epoll_wait b in
      if epoll_wait_slot x <? 0 then None
      else Some (resume_if epoll_resume_sotbox i
             (epoll_drain_ready E (w_pipes w) b (epoll_wait_slot x) (epoll_wait_events_vaddr x) (epoll_wait_maxevents x))))
    all_slots w.

Definition iomux_check_poll_waiters (E : env) (w : world) : world :=
  for_slots (fun i b =>
    if bool_decide (b_state b <> WAITING_FOR_POLL) then None
    else
      let x := b_poll_wait b in
      Some (resume_if poll_resume_sotbox i
        (iomux_poll_scan E (w_pipes w) b (poll_wait_fds_vaddr x) (poll_wait_nfds x))))
    all_slots w.

(** The original read set goes back into the client before the rescan. *)
Definition select_restore (b : box) : box :=
  let x := b_sel_wait b in
  if sel_wait_rfds_vaddr x =? 0 then b
  else
    let nb := set_bytes (sel_wait_nfds x) in
    (box_copy_out b (sel_wait_rfds_vaddr x) (take (Z.to_nat nb) (bytes_of_words (sel_wait_rfds_orig x)))).1.

Definition iomux_check_select_waiters (E : env) (w : world) : world :=
  for_slots (fun i b =>
    if bool_decide (b_state b <> WAITING_FOR_SELECT) then None
    else
      let x := b_sel_wait b in
      Some (resume_if select_resume_sotbox i
        (iomux_select_scan E (w_pipes w) (select_restore b) (sel_wait_nfds x) (sel_wait_rfds_vaddr x)
           (sel_wait_wfds_vaddr x) (sel_wait_efds_vaddr x))))
    all_slots w.

(** ** epoll calls *)

Definition iomux_epoll_create (b : box) : box * Z :=
  match alloc_lucas_fd b with
  | None => (b, - 24)
  | Some fd =>
      match epoll_alloc_slot b with
      | None => (b, - 24)
      | Some (s, b) =>
          let x := get_ep b s in
          let b := set_ep s (mk_epoll_instance (ep_in_use x) (Z.of_nat fd) (ep_entries x) 0) b in
          let e := get_fd b fd in
          let b := set_fd fd (set_f_kind FD_EPOLL (set_f_pipe None (set_f_mount None (set_f_handle 0 e)))) b in
          (set_b_n_epoll_instances (b_n_epoll_instances b + 1) b, Z.of_nat fd)
      end
  end.

(** The first entry registered for [fd]. *)
Definition ep_find (x : epoll_instance) (fd : Z) : option nat :=
  first_below (fun i => ee_fd ((ep_entries x).[i, zero_epoll_entry]) =? fd) (Z.to_nat (ep_n_entries x)).

Definition ep_delete (x : epoll_instance) (existing : nat) : epoll_instance :=
  let last := Z.to_nat (ep_n_entries x - 1) in
  let es := ep_entries x in
  let es := if bool_decide (existing = last) then es else <[existing := es.[last, zero_epoll_entry]]> es in
  mk_epoll_instance (ep_in_use x) (ep_epfd x) es (ep_n_entries x - 1).

Definition iomux_epoll_ctl (b : box) (epfd op fd event_vaddr : Z) : box * Z :=
  match epoll_slot_for_fd b epfd with
  | None => (b, - LX_EBADF)
  | Some slot =>
      if (fd <? 0) || (fd >=? Z.of_nat LUCAS_MAX_FDS) then (b, - LX_EBADF)
      else
        let x := get_ep b slot in
        let existing := ep_find x fd in
        let n := ep_n_entries x in
        if op =? LX_EPOLL_CTL_DEL then
          match existing with
          | None => (b, - 2)
          | Some k => (set_ep slot (ep_delete x k) b, 0)
          end
        else
          match lucas_copy_from_client (b_vspace b) event_vaddr 12 with
          | None => (b, - LX_EFAULT)
          | Some ev =>
              let events := field ev 0 4 in
              let data := field ev 4 8 in
              if op =? LX_EPOLL_CTL_ADD then
                if bool_decide (is_Some existing) then (b, - 17)
                else if n >=? Z.of_nat EPOLL_ENTRIES_PER_INSTANCE then (b, - LX_ENOMEM)
                else (set_ep slot (mk_epoll_instance (ep_in_use x) (ep_epfd x)
                        (<[Z.to_nat n := mk_epoll_entry fd events data]> (ep_entries x)) (n + 1)) b, 0)
              else if op =? LX_EPOLL_CTL_MOD then
                match existing with
                | None => (b, - 2)
                | Some k =>
                    (set_ep slot (mk_epoll_instance (ep_in_use x) (ep_epfd x)
                       (<[k := mk_epoll_entry (ee_fd ((ep_entries x).[k, zero_epoll_entry])) events data]> (ep_entries x)) n) b, 0)
                end
              else (b, - LX_EINVAL)
          end
  end.

Definition iomux_epoll_wait (E : env) (pipes : list pipe) (cap : option Z) (b : box)
  (epfd events_vaddr maxevents timeout : Z) : box * Z :=
  match epoll_slot_for_fd b epfd with
  | None => (b, - LX_EBADF)
  | Some slot =>
      if maxevents <=? 0 then (b, - LX_EINVAL)
      else
        let '(b, got) := epoll_drain_ready E pipes b (Z.of_nat slot) events_vaddr maxevents in
        if negb (got =? 0) then (b, got)
        else if timeout =? 0 then (b, 0)
        else epoll_park cap (Z.of_nat slot) events_vaddr maxevents b
  end.
