(* ===== verification/Pipe.v ===== *)
(** * Pipes

    src/orch/pipe.c: the pool of pipe objects, the transfers between a ring and
    the memory of a client, parking and waking of readers and writers, and the
    open counts of the two ends.  A pipe is its index in the pool; a client is
    its index in the slot table.

    A reader of an empty pipe parks: its reply capability, buffer and count go
    into the sotBox, and the next writer that puts bytes in, or the close of the
    last writer, completes the read on its behalf ([lucas_pipe_wake_readers]).
    The same in reverse for the writer of a full pipe.  Every change that can make
    a pipe readable also calls the three hooks of [Iomux]. *)

From S2P Require Import Prelude Ring ClientMem BoxState Iomux.

(** ** The pool *)

Definition lucas_pipe_alloc (w : world) : world * option nat :=
  match first_below (fun i => negb (p_in_use (get_pipe w i))) LUCAS_PIPE_POOL with
  | Some i => (log_event (EvAlloc i) (set_pipe i (mk_pipe (fun _ => 0) 0 0 0 1 1 true) w), Some i)
  | None => (w, None)
  end.

(** ** The ring *)

(** [(count < room) ? count : room]. *)
Definition upto (count room : Z) : Z := if count <? room then count else room.

(** Put bytes into the ring and count them. *)
Definition pipe_put (bs : list Z) (p : pipe) : pipe :=
  let '(buf, head) := ring_put LUCAS_PIPE_BUF_SIZE (p_buf p) (p_head p) bs in
  mk_pipe buf head (p_tail p) (p_count p + Z.of_nat (length bs)) (p_readers_open p) (p_writers_open p) (p_in_use p).

Section Pipe.
Context (E : env).

Definition pipe_read_drain (s p : nat) (client_vaddr count : Z) (w : world) : world * Z :=
  match sotbox_get_slot w s with
  | None => (w, 0)
  | Some b =>
      let x := get_pipe w p in
      let available := p_count x in
      if available =? 0 then (w, 0)
      else
        let to_read := upto count available in
        let '(stage, tail) := ring_take LUCAS_PIPE_BUF_SIZE (p_buf x) (p_tail x) (Z.to_nat to_read) in
        let x := mk_pipe (p_buf x) (p_head x) tail (available - to_read) (p_readers_open x) (p_writers_open x) (p_in_use x) in
        let w := log_event (EvDrain p stage) (set_pipe p x w) in
        (** whether or not the copy succeeds the bytes have left the ring *)
        (set_slot s (box_copy_out b client_vaddr stage).1 w, to_read)
  end.

Definition pipe_write_fill (s p : nat) (client_vaddr count : Z) (w : world) : world * Z :=
  match sotbox_get_slot w s with
  | None => (w, 0)
  | Some b =>
      let x := get_pipe w p in
      let free_space := LUCAS_PIPE_BUF_SIZE - p_count x in
      if free_space =? 0 then (w, 0)
      else
        let to_write := upto count free_space in
        match pipe_copy_from_client (b_vspace b) client_vaddr to_write with
        | None => (w, 0)
        | Some stage => (log_event (EvFill p stage) (set_pipe p (pipe_put stage x) w), to_write)
        end
  end.

(** ** Waking *)

(** [state] is cleared only while it still names a pipe wait: a sibling thread
    may have overwritten it. *)
Definition pipe_resume_sotbox (s : nat) (retval : Z) (w : world) : world :=
  match sotbox_get_slot w s with
  | None => w
  | Some b =>
      let pw := b_pipe_wait b in
      let st := if bool_decide (b_state b = WAITING_FOR_PIPE_READ) || bool_decide (b_state b = WAITING_FOR_PIPE_WRITE)
                then RUNNING else b_state b in
      let b := set_b_state st (set_b_pipe_wait (mk_pipe_wait None (waiting_pipe_buf pw) (waiting_pipe_count pw) 0 0) b) in
      log_event (EvResume s (pipe_reply_cap pw) retval) (set_slot s b w)
  end.

(** A sotBox parked on pipe [p] with the given kind. *)
Definition parked_on (kind : Z) (p : nat) (b : box) : bool :=
  (pipe_wait_kind (b_pipe_wait b) =? kind) && bool_decide (waiting_pipe (b_pipe_wait b) = Some p).

Fixpoint wake_readers_loop (p : nat) (slots : list nat) (w : world) : world :=
  match slots with
  | [] => w
  | i :: rest =>
      match sotbox_get_slot w i with
      | None => wake_readers_loop p rest w
      | Some b =>
          if negb (parked_on 1 p b) then wake_readers_loop p rest w
          else
            let pw := b_pipe_wait b in
            if p_count (get_pipe w p) >? 0 then
              let '(w, got) := pipe_read_drain i p (waiting_pipe_buf pw) (waiting_pipe_count pw) w in
              pipe_resume_sotbox i got w
            else if p_writers_open (get_pipe w p) =? 0 then pipe_resume_sotbox i 0 w
            else wake_readers_loop p rest w
      end
  end.

Definition lucas_pipe_wake_readers (p : nat) (w : world) : world := wake_readers_loop p all_slots w.

Fixpoint wake_writers_loop (p : nat) (slots : list nat) (w : world) : world :=
  match slots with
  | [] => w
  | i :: rest =>
      match sotbox_get_slot w i with
      | None => wake_writers_loop p rest w
      | Some b =>
          if negb (parked_on 2 p b) then wake_writers_loop p rest w
          else
            let pw := b_pipe_wait b in
            let '(w, retval) :=
              if p_readers_open (get_pipe w p) =? 0 then (w, -32)
              else pipe_write_fill i p (waiting_pipe_buf pw) (waiting_pipe_count pw) w in
            let w := pipe_resume_sotbox i retval w in
            if retval >? 0 then lucas_pipe_wake_readers p w else w
      end
  end.

Definition lucas_pipe_wake_writers (p : nat) (w : world) : world := wake_writers_loop p all_slots w.

(** The three hooks, in the order pipe.c calls them. *)
Definition iomux_check_all (w : world) : world :=
  iomux_check_select_waiters E (iomux_check_poll_waiters E (iomux_check_epoll_waiters E w)).

(** ** Reading and writing *)

(** Park the caller; [cap] is the saved reply capability, [None] when the slot
    or the capability could not be had. *)
Definition pipe_park (kind : Z) (st : sotbox_state) (s p : nat) (client_vaddr count : Z) (cap : option Z)
  (w : world) : world * Z :=
  match cap, sotbox_get_slot w s with
  | Some c, Some b =>
      (set_slot s (set_b_state st (set_b_pipe_wait (mk_pipe_wait (Some p) client_vaddr count c kind) b)) w,
       LUCAS_WAIT4_DEFERRED)
  | _, _ => (w, -11)
  end.

Definition lucas_pipe_read (s p : nat) (client_vaddr count : Z) (cap : option Z) (w : world) : world * Z :=
  if count =? 0 then (w, 0)
  else if p_count (get_pipe w p) >? 0 then
    let '(w, got) := pipe_read_drain s p client_vaddr count w in
    (lucas_pipe_wake_writers p w, got)
  else if p_writers_open (get_pipe w p) =? 0 then (w, 0)
  else pipe_park 1 WAITING_FOR_PIPE_READ s p client_vaddr count cap w.

Definition lucas_pipe_write_kbuf (p : nat) (buf : list Z) (w : world) : world * Z :=
  let x := get_pipe w p in
  let count := Z.of_nat (length buf) in
  if count =? 0 then (w, 0)
  else if p_readers_open x =? 0 then (w, -32)
  else
    let free_space := LUCAS_PIPE_BUF_SIZE - p_count x in
    if free_space =? 0 then (w, 0)
    else
      let to_write := upto count free_space in
      let stage := take (Z.to_nat to_write) buf in
      let w := log_event (EvFill p stage) (set_pipe p (pipe_put stage x) w) in
      (iomux_check_all (lucas_pipe_wake_readers p w), to_write).

Definition lucas_pipe_write (s p : nat) (client_vaddr count : Z) (cap : option Z) (w : world) : world * Z :=
  if count =? 0 then (w, 0)
  else if p_readers_open (get_pipe w p) =? 0 then (w, -32)
  else if LUCAS_PIPE_BUF_SIZE - p_count (get_pipe w p) >? 0 then
    let '(w, put) := pipe_write_fill s p client_vaddr count w in
    (iomux_check_all (lucas_pipe_wake_readers p w), put)
  else pipe_park 2 WAITING_FOR_PIPE_WRITE s p client_vaddr count cap w.

(** ** Open counts *)

Definition upd_pipe (p : nat) (f : pipe -> pipe) (w : world) : world := set_pipe p (f (get_pipe w p)) w.

Definition lucas_pipe_close_reader (p : nat) (w : world) : world :=
  if p_readers_open (get_pipe w p) <=? 0 then w
  else
    let w := upd_pipe p (fun x => set_p_readers_open (p_readers_open x - 1) x) w in
    if p_readers_open (get_pipe w p) =? 0 then
      let w := iomux_check_all (lucas_pipe_wake_writers p w) in
      if p_writers_open (get_pipe w p) =? 0 then upd_pipe p (set_p_in_use false) w else w
    else w.

Definition lucas_pipe_close_writer (p : nat) (w : world) : world :=
  if p_writers_open (get_pipe w p) <=? 0 then w
  else
    let w := upd_pipe p (fun x => set_p_writers_open (p_writers_open x - 1) x) w in
    if p_writers_open (get_pipe w p) =? 0 then
      let w := iomux_check_all (lucas_pipe_wake_readers p w) in
      if p_readers_open (get_pipe w p) =? 0 then upd_pipe p (set_p_in_use false) w else w
    else w.

Definition lucas_pipe_add_reader (p : nat) (w : world) : world :=
  upd_pipe p (fun x => set_p_readers_open (p_readers_open x + 1) x) w.

Definition lucas_pipe_add_writer (p : nat) (w : world) : world :=
  upd_pipe p (fun x => set_p_writers_open (p_writers_open x + 1) x) w.

End Pipe.
