(* ===== verification/FdTable.v ===== *)
(** * Descriptor tables: the calls that make, copy and drop pipe ends

    The pipe cases of the system calls of src/lucas/handlers_fs.c (pipe, pipe2,
    read, write, close, dup2, dup3, fcntl, and the close of every descriptor at
    exit), the inheritance of descriptors at fork (src/orch/fork.c) and their
    close at execve (src/orch/execve.c).  Files and sockets are followed as far
    as their entries in the table go: the operations of a mount come from [env],
    calls into the socket layer are logged. *)

From S2P Require Import Prelude Storage ClientMem BoxState Iomux Pipe.

(** The sotBox in slot [s]; the calls are made by live clients. *)
Definition zero_vspace : vspace := mk_vspace (fun _ => 0) (fun _ => false) (fun _ => false).
Definition zero_console : console := mk_console 0 false 0 0 0 0 0 0 0 0 0.
Definition zero_box : box :=
  mk_box RUNNING 0 (replicate LUCAS_MAX_FDS zero_fd) no_pipe_wait (replicate EPOLL_TABLE_SIZE zero_epoll_instance) 0
    (mk_epoll_wait (-1) 0 0) (mk_poll_wait 0 0) (mk_sel_wait 0 0 0 0 [0]) zero_console zero_vspace.
Definition box_at (w : world) (s : nat) : box := default zero_box (sotbox_get_slot w s).
Definition upd_box (s : nat) (f : box -> box) (w : world) : world := set_slot s (f (box_at w s)) w.

(** The two pipe ends a descriptor entry can be. *)
Definition pipe_end (k : fd_kind) (e : lucas_fd) : option nat :=
  if bool_decide (f_kind e = k) then f_pipe e else None.

(** Count one more open end for a copied entry. *)
Definition add_end (e : lucas_fd) (w : world) : world :=
  match pipe_end FD_PIPE_READ e, pipe_end FD_PIPE_WRITE e with
  | Some p, _ => lucas_pipe_add_reader p w
  | None, Some p => lucas_pipe_add_writer p w
  | None, None => w
  end.

(** A second handle for a copied file entry; the old one stays when the mount
    has no [dup_handle] or its pool is full. *)
Definition dup_vfs (E : env) (e : lucas_fd) : lucas_fd :=
  match f_kind e, f_mount e with
  | FD_VFS, Some m =>
      match vfs_dup_handle E m with
      | Some dup =>
          if f_handle e =? 0 then e
          else match dup (f_handle e) with Some h => set_f_handle h e | None => e end
      | None => e
      end
  | _, _ => e
  end.

Section FdTable.
Context (E : env).

(** ** pipe *)

(** Two free entries, the read end first. *)
Definition two_free_fds (b : box) : option (nat * nat) :=
  match first_below (fd_free b) LUCAS_MAX_FDS with
  | None => None
  | Some rfd =>
      match first_below (fun i => fd_free b i && (rfd <? i)%nat) LUCAS_MAX_FDS with
      | None => None
      | Some wfd => Some (rfd, wfd)
      end
  end.

(** [kind], [pipe], [mount] and [handle] are set; the flags stay as they are. *)
Definition make_end (k : fd_kind) (p : nat) (e : lucas_fd) : lucas_fd :=
  set_f_handle 0 (set_f_mount None (set_f_pipe (Some p) (set_f_kind k e))).

Definition lucas_sys_pipe (s : nat) (fds_vaddr : Z) (w : world) : world * Z :=
  let '(w, p) := lucas_pipe_alloc w in
  match p with
  | None => (w, -24)
  | Some p =>
      let b := box_at w s in
      match two_free_fds b with
      | None => (w, -24)
      | Some (rfd, wfd) =>
          let b := set_fd rfd (make_end FD_PIPE_READ p (get_fd b rfd)) b in
          let b := set_fd wfd (make_end FD_PIPE_WRITE p (get_fd b wfd)) b in
          let '(b, ok) := box_copy_out b fds_vaddr (le_bytes 4 (Z.of_nat rfd) ++ le_bytes 4 (Z.of_nat wfd)) in
          (set_slot s b w, if ok then 0 else -14)
      end
  end.

Definition lucas_sys_pipe2 (s : nat) (fds_vaddr flags : Z) (w : world) : world * Z := lucas_sys_pipe s fds_vaddr w.

(** ** read and write of a pipe end; [None] for the other kinds of descriptor

    The write comes after the gates of the tier (locked descriptors, silenced
    writes), which end the call before the kind of the descriptor is looked at. *)

Definition sys_read_pipe (s : nat) (fd buf_vaddr count : Z) (cap : option Z) (w : world) : option (world * Z) :=
  if fd >=? Z.of_nat LUCAS_MAX_FDS then Some (w, - LX_EBADF)
  else
    let e := get_fd (box_at w s) (Z.to_nat fd) in
    match f_kind e, f_pipe e with
    | FD_PIPE_READ, Some p =>
        if has (f_flags e) O_NONBLOCK && lucas_pipe_would_block_read (get_pipe w p) then Some (w, - LX_EAGAIN)
        else Some (lucas_pipe_read s p buf_vaddr count cap w)
    | _, _ => None
    end.

Definition sys_write_pipe (s : nat) (fd buf_vaddr count : Z) (cap : option Z) (w : world) : option (world * Z) :=
  if fd >=? Z.of_nat LUCAS_MAX_FDS then Some (w, - LX_EBADF)
  else
    let e := get_fd (box_at w s) (Z.to_nat fd) in
    match f_kind e, f_pipe e with
    | FD_PIPE_WRITE, Some p => Some (lucas_pipe_write E s p buf_vaddr count cap w)
    | _, _ => None
    end.

(** ** readv and writev of a pipe end *)

Definition LX_IOV_MAX : Z := 1024.

(** The loop over the segments: [call i] is the transfer of one of them, which may
    park the caller.  A negative result, the mark of a parked caller included,
    ends the loop with the bytes so far when there are any. *)
Fixpoint iov_loop (call : nat -> Z -> Z -> world -> option (world * Z)) (s : nat) (iov_vaddr : Z)
  (turns i : nat) (total : Z) (w : world) : option (world * Z) :=
  match turns with
  | O => Some (w, total)
  | S turns =>
      match lucas_copy_from_client (b_vspace (box_at w s)) (u64 (iov_vaddr + Z.of_nat i * 16)) 16 with
      | None => Some (w, if total >? 0 then total else - LX_EFAULT)
      | Some iov =>
          let len := field iov 8 8 in
          if len =? 0 then iov_loop call s iov_vaddr turns (S i) total w
          else
            match call i (field iov 0 8) len w with
            | None => None
            | Some (w, n) =>
                if n <? 0 then Some (w, if total >? 0 then total else n)
                else if n <? len then Some (w, total + n)
                else iov_loop call s iov_vaddr turns (S i) (total + n) w
            end
      end
  end.

(** [caps i] is the reply slot a park in segment [i] would get. *)
Definition sys_writev_pipe (s : nat) (fd iov_vaddr iovcnt : Z) (caps : nat -> option Z) (w : world) : option (world * Z) :=
  if (iovcnt <? 0) || (iovcnt >? LX_IOV_MAX) then Some (w, - LX_EINVAL)
  else iov_loop (fun i buf len => sys_write_pipe s fd buf len (caps i)) s iov_vaddr (Z.to_nat iovcnt) 0 0 w.

Definition sys_readv_pipe (s : nat) (fd iov_vaddr iovcnt : Z) (caps : nat -> option Z) (w : world) : option (world * Z) :=
  if (iovcnt <? 0) || (iovcnt >? LX_IOV_MAX) then Some (w, - LX_EINVAL)
  else iov_loop (fun i buf len => sys_read_pipe s fd buf len (caps i)) s iov_vaddr (Z.to_nat iovcnt) 0 0 w.

(** ** close *)

Definition close_end (e : lucas_fd) (w : world) : world :=
  match pipe_end FD_PIPE_READ e, pipe_end FD_PIPE_WRITE e with
  | Some p, _ => lucas_pipe_close_reader E p w
  | None, Some p => lucas_pipe_close_writer E p w
  | None, None => w
  end.

(** The close operation of the mount of an entry: its result and its log. *)
Definition vfs_close_entry (e : lucas_fd) (w : world) : world * Z :=
  match f_mount e with
  | None => (w, 0)
  | Some m =>
      match vfs_close E m with
      | None => (w, 0)
      | Some close => (log_event (EvVfsClose m (f_handle e)) w, close (f_handle e))
      end
  end.

Definition clear_fd (s fd : nat) (w : world) : world := upd_box s (set_fd fd zero_fd) w.

Definition lucas_sys_close (s : nat) (fd : Z) (w : world) : world * Z :=
  if fd >=? Z.of_nat LUCAS_MAX_FDS then (w, - LX_EBADF)
  else
    let n := Z.to_nat fd in
    let e := get_fd (box_at w s) n in
    match f_kind e with
    | FD_STDIO => (clear_fd s n w, 0)
    | FD_PIPE_READ | FD_PIPE_WRITE => (clear_fd s n (close_end e w), 0)
    | FD_VFS =>
        let w := log_event (EvReclockRelease s n) w in
        let '(w, rc) := if f_lazy_pinned e then (w, 0) else vfs_close_entry e w in
        (clear_fd s n w, rc)
    | FD_SOCKET => (clear_fd s n (log_event (EvSocketClose s n) w), 0)
    | _ =>
        if f_is_std e then (clear_fd s n w, 0)
        else match f_mount e with
             | None => (w, - LX_EBADF)
             | Some _ =>
                 let '(w, rc) := vfs_close_entry e w in
                 (clear_fd s n w, rc)
             end
    end.

(** The close-on-exec flag of the call is accepted and ignored. *)
Definition lucas_sys_close_range (s : nat) (first last flags : Z) (w : world) : world * Z :=
  if first >? last then (w, - LX_EINVAL)
  else if has flags 2 then (w, 0)
  else
    let hi := if last >=? Z.of_nat LUCAS_MAX_FDS then Z.of_nat LUCAS_MAX_FDS - 1 else last in
    (fold_left (fun w i => if fd_free (box_at w s) i then w else (lucas_sys_close s (Z.of_nat i) w).1)
       (seq (Z.to_nat first) (Z.to_nat (hi + 1 - first))) w, 0).

(** [close_fd_entry]: as above for pipes and files, then the entry is zeroed. *)
Definition close_fd_entry (s fd : nat) (w : world) : world :=
  let e := get_fd (box_at w s) fd in
  let w := match f_kind e with FD_VFS => (vfs_close_entry e w).1 | _ => close_end e w end in
  clear_fd s fd w.

Definition lucas_close_all_fds (s : nat) (w : world) : world :=
  fold_left (fun w i =>
    if bool_decide (f_kind (get_fd (box_at w s) i) = FD_INVALID) then w else close_fd_entry s i w)
    (seq 0 LUCAS_MAX_FDS) w.

(** ** dup *)

Definition lucas_sys_dup2 (s : nat) (oldfd newfd : Z) (w : world) : world * Z :=
  if (oldfd >=? Z.of_nat LUCAS_MAX_FDS) || (newfd >=? Z.of_nat LUCAS_MAX_FDS) then (w, - LX_EBADF)
  else
    let o := Z.to_nat oldfd in
    let n := Z.to_nat newfd in
    if fd_free (box_at w s) o then (w, - LX_EBADF)
    else if oldfd =? newfd then (w, newfd)
    else
      let w := if fd_free (box_at w s) n then w else close_fd_entry s n w in
      let src := get_fd (box_at w s) o in
      let w := upd_box s (set_fd n src) w in
      let w := add_end src w in
      let w := if bool_decide (f_kind src = FD_SOCKET) && f_unix_chan src then log_event (EvUnixInherit s n) w else w in
      (upd_box s (set_fd n (dup_vfs E src)) w, newfd).

Definition lucas_sys_dup3 (s : nat) (oldfd newfd flags : Z) (w : world) : world * Z :=
  if oldfd =? newfd then (w, - LX_EINVAL) else lucas_sys_dup2 s oldfd newfd w.

(** ** fcntl *)

Definition cloexec_on (e : lucas_fd) : lucas_fd := set_f_flags (Z.lor (f_flags e) LX_O_CLOEXEC) e.
Definition cloexec_off (e : lucas_fd) : lucas_fd := set_f_flags (Z.land (f_flags e) (Z.lnot LX_O_CLOEXEC)) e.

(** F_GETFD, F_SETFD, F_GETFL, F_SETFL, F_DUPFD and F_DUPFD_CLOEXEC; [None] for
    the record locks and the other commands. *)
Definition sys_fcntl_fd (s : nat) (fd cmd arg : Z) (w : world) : option (world * Z) :=
  if fd >=? Z.of_nat LUCAS_MAX_FDS then Some (w, - LX_EBADF)
  else
    let n := Z.to_nat fd in
    let e := get_fd (box_at w s) n in
    if bool_decide (f_kind e = FD_INVALID) && bool_decide (f_mount e = None) && negb (f_is_std e) then Some (w, - LX_EBADF)
    else if cmd =? 1 then Some (w, if has (f_flags e) LX_O_CLOEXEC then 1 else 0)
    else if cmd =? 2 then
      Some (upd_box s (set_fd n (if has arg 1 then cloexec_on e else cloexec_off e)) w, 0)
    else if cmd =? 3 then Some (w, f_flags e)
    else if cmd =? 4 then Some (upd_box s (set_fd n (set_f_flags (i32 arg) e)) w, 0)
    else if (cmd =? 0) || (cmd =? 1030) then
      let min_fd := i32 arg in
      if (min_fd <? 0) || (min_fd >=? Z.of_nat LUCAS_MAX_FDS) then Some (w, - LX_EINVAL)
      else
        match first_below (fun i => fd_free (box_at w s) i && (Z.to_nat min_fd <=? i)%nat) LUCAS_MAX_FDS with
        | None => Some (w, -24)
        | Some newfd =>
            let w := add_end e (upd_box s (set_fd newfd e) w) in
            let d := dup_vfs E e in
            Some (upd_box s (set_fd newfd (if cmd =? 1030 then cloexec_on d else cloexec_off d)) w, Z.of_nat newfd)
        end
    else None.

(** ** fork (src/orch/fork.c) *)

(** How far the construction of the child got. *)
Inductive fork_outcome := ForkNoStorage | ForkNoArena | ForkBuildFails | ForkDone.

(** [*child = *parent] without the wait state of the parent. *)
Definition fork_child (parent : box) : box :=
  set_b_pipe_wait no_pipe_wait (set_b_waiting_reply_cap 0 (set_b_state RUNNING parent)).

(** One more open end for every inherited pipe descriptor. *)
Definition inherit_pipe_ends (child : box) (w : world) : world :=
  fold_left (fun w i => add_end (get_fd child i) w) (seq 0 LUCAS_MAX_FDS) w.

(** An independent handle for every inherited file that is not pinned. *)
Definition lucas_dup_vfs_handles (child : box) : box :=
  set_b_fds (map (fun e => if f_lazy_pinned e then e else dup_vfs E e) (b_fds child)) child.

Definition sotbox_alloc_slot (w : world) : option nat :=
  first_below (fun i => bool_decide (sotbox_get_slot w i = None)) SOTBOX_MAX_SLOTS.

Definition sotbox_free_slot (i : nat) (w : world) : world := set_w_slots (<[i := None]> (w_slots w)) w.

Definition unix_inherit_all (slot : nat) (child : box) (w : world) : world :=
  fold_left (fun w i => if bool_decide (f_kind (get_fd child i) = FD_SOCKET) && f_unix_chan (get_fd child i) then log_event (EvUnixInherit slot i) w else w)
    (seq 0 LUCAS_MAX_FDS) w.

(** The descriptor side of [sotbox_fork]: on the paths that fail after the ends
    were counted, nothing is taken back. *)
Definition sotbox_fork (parent : nat) (out : fork_outcome) (w : world) : world * Z :=
  match out with
  | ForkNoStorage => (w, -11)
  | _ =>
      let child := fork_child (box_at w parent) in
      let w := inherit_pipe_ends child w in
      let child := lucas_dup_vfs_handles child in
      match sotbox_alloc_slot w with
      | None => (w, -11)
      | Some slot =>
          let w := unix_inherit_all slot child (set_slot slot child w) in
          match out with
          | ForkNoArena => (sotbox_free_slot slot w, -11)
          | ForkBuildFails => (sotbox_free_slot slot w, -12)
          | _ => (w, Z.of_nat slot + 1)
          end
      end
  end.

(** ** execve (src/orch/execve.c) *)

(** One entry of the close-on-exec loop: pipes and files marked O_CLOEXEC, or all
    of them for a transport method of apt; only the fields named are reset. *)
Definition execve_close_one (s : nat) (is_apt_method : bool) (w : world) (i : nat) : world :=
  let e := get_fd (box_at w s) i in
  let marked := is_apt_method || has (f_flags e) LX_O_CLOEXEC in
  match f_kind e with
  | FD_PIPE_READ | FD_PIPE_WRITE =>
      if bool_decide (is_Some (f_pipe e)) && marked then
        upd_box s (set_fd i (set_f_kind FD_INVALID (set_f_pipe None e))) (close_end e w)
      else w
  | FD_VFS =>
      if marked then
        let w := if f_handle e =? 0 then w else (vfs_close_entry e w).1 in
        upd_box s (set_fd i (set_f_kind FD_INVALID (set_f_mount None (set_f_handle 0 e)))) w
      else w
  | _ => w
  end.

Definition execve_close_fds (s : nat) (is_apt_method : bool) (w : world) : world :=
  fold_left (execve_close_one s is_apt_method) (seq 3 (LUCAS_MAX_FDS - 3)) w.

(** ** exit (src/lucas/handlers_proc.c) *)

(** The descriptors and the epoll instances go; the slot is freed when the
    client is reaped. *)
Definition exit_fds (s : nat) (w : world) : world :=
  let w := lucas_close_all_fds s w in
  upd_box s (fun b =>
    let x := b_epoll_wait b in
    set_b_epoll_wait (mk_epoll_wait (-1) (epoll_wait_events_vaddr x) (epoll_wait_maxevents x))
      (set_b_n_epoll_instances 0 (set_b_epoll_table (replicate EPOLL_TABLE_SIZE zero_epoll_instance) b))) w.

End FdTable.
