(* ===== verification/Console.v ===== *)
(** * The console of a sotBox, and the poll and select calls

    The console waits of src/lucas/handlers_fs.c (a read of descriptor 0, a poll
    or a select that waits for it) with their resumption by the idle loop, and
    the system calls poll, ppoll, select and pselect6 of src/lucas/handlers_proc.c,
    which decide between answering at once, parking on pipes ([Iomux]) and
    parking on the console.

    [uart] is the input the serial console holds, consumed byte by byte.  The
    network pump the calls run before they give up ([lucas_egress_poll_pump]) can
    change the readiness of sockets: it is the passage from one [env] to another. *)

From S2P Require Import Prelude ClientMem Bytepipe BoxState Iomux Pipe FdTable.

Definition LUCAS_CONSOLE_WAIT_READ : Z := 0.
Definition LUCAS_CONSOLE_WAIT_POLL : Z := 1.
Definition LUCAS_CONSOLE_WAIT_SELECT : Z := 2.

(** [dsr_emit], [shell_in_rd], and the wait fields of the console record. *)
Definition con_dsr (n : Z) (c : console) : console :=
  mk_console (console_src c) (console_interactive c) n (shell_in_rd c) (console_reply_cslot c) (console_wait_kind c)
    (console_buf_vaddr c) (console_poll_fds_vaddr c) (console_poll_nfds c) (console_sel_wfds_vaddr c) (console_sel_efds_vaddr c).
Definition con_rd (n : Z) (c : console) : console :=
  mk_console (console_src c) (console_interactive c) (dsr_emit c) n (console_reply_cslot c) (console_wait_kind c)
    (console_buf_vaddr c) (console_poll_fds_vaddr c) (console_poll_nfds c) (console_sel_wfds_vaddr c) (console_sel_efds_vaddr c).
Definition con_wait (cslot kind buf fds nfds wfds efds : Z) (c : console) : console :=
  mk_console (console_src c) (console_interactive c) (dsr_emit c) (shell_in_rd c) cslot kind buf fds nfds wfds efds.

Section Console.
Context (E : env).

(** ** Input *)

Definition DSR_REPLY : list Z := [0x1b; 91; 49; 59; 49; 82].

(** A box that is not in front waits for one that is, when both take their input
    from the same source. *)
Definition behind_focus (s : nat) (b : box) (w : world) : bool :=
  if (w_focus w >=? 0) && negb (Z.of_nat s =? w_focus w) then
    match sotbox_get_slot w (Z.to_nat (w_focus w)) with
    | Some fg => console_src (b_console fg) =? console_src (b_console b)
    | None => false
    end
  else false.

(** The next byte, [None] for -1. *)
Definition lucas_console_src_getbyte (s : nat) (uart : list Z) (w : world) : world * list Z * option Z :=
  let b := box_at w s in
  let c := b_console b in
  if dsr_emit c >? 0 then
    (set_slot s (set_b_console (con_dsr (dsr_emit c - 1) c) b) w, uart, Some (DSR_REPLY.[Z.to_nat (6 - dsr_emit c), 0]))
  else if behind_focus s b w then (w, uart, None)
  else if console_src c =? LUCAS_CONSOLE_SRC_SSH_RING then
    match bytepipe_pull (shell_in E) (shell_in_rd c) 1 with
    | ([ch], rd) => (log_event (EvCapture s ch) (set_slot s (set_b_console (con_rd rd c) b) w), uart, Some ch)
    | (_, rd) => (set_slot s (set_b_console (con_rd rd c) b) w, uart, None)
    end
  else
    match uart with
    | ch :: uart => (w, uart, Some ch)
    | [] => (w, [], None)
    end.

(** Ctrl-D ends the input of the box in front. *)
Definition veof (s : nat) (w : world) (ch : Z) : bool :=
  (ch =? 4) && (w_focus w >=? 0) && (Z.of_nat s =? w_focus w).

(** ** Parking *)

(** The reply slot is allocated once and reused; [alloc] is the outcome of
    [vka_cspace_alloc], [saved] of [seL4_CNode_SaveCaller]. *)
Definition console_cslot (alloc : option Z) (b : box) : option Z :=
  if console_reply_cslot (b_console b) =? 0 then alloc else Some (console_reply_cslot (b_console b)).

Definition keep_cslot (cslot : Z) (b : box) : box :=
  let c := b_console b in
  set_b_console (con_wait cslot (console_wait_kind c) (console_buf_vaddr c) (console_poll_fds_vaddr c)
    (console_poll_nfds c) (console_sel_wfds_vaddr c) (console_sel_efds_vaddr c) c) b.

Definition console_park (fail : Z) (alloc : option Z) (saved : bool) (rec : Z -> console -> console) (b : box) : box * Z :=
  match console_cslot alloc b with
  | None => (b, fail)
  | Some cslot =>
      if saved then
        (set_b_state WAITING_FOR_CONSOLE (set_b_console (rec cslot (b_console b)) (set_b_waiting_reply_cap cslot b)),
         LUCAS_WAIT4_DEFERRED)
      else (keep_cslot cslot b, fail)
  end.

Definition lucas_console_read_or_park (s : nat) (buf_vaddr count : Z) (alloc : option Z) (saved : bool)
  (uart : list Z) (w : world) : world * list Z * Z :=
  if count =? 0 then (w, uart, 0)
  else
    let '(w, uart, ch) := lucas_console_src_getbyte s uart w in
    match ch with
    | Some ch =>
        if veof s w ch then (w, uart, 0)
        else
          let '(b, ok) := box_copy_out (box_at w s) buf_vaddr [u8 ch] in
          (set_slot s b w, uart, if ok then 1 else - LX_EFAULT)
    | None =>
        let '(b, r) := console_park (-11) alloc saved
          (fun cslot c => con_wait cslot LUCAS_CONSOLE_WAIT_READ buf_vaddr (console_poll_fds_vaddr c)
             (console_poll_nfds c) (console_sel_wfds_vaddr c) (console_sel_efds_vaddr c) c) (box_at w s) in
        (set_slot s b w, uart, r)
    end.

Definition lucas_console_poll_park (alloc : option Z) (saved : bool) (fds_vaddr nfds : Z) (b : box) : box * Z :=
  console_park 0 alloc saved (fun cslot c =>
    con_wait cslot LUCAS_CONSOLE_WAIT_POLL (console_buf_vaddr c) fds_vaddr nfds
      (console_sel_wfds_vaddr c) (console_sel_efds_vaddr c) c) b.

Definition lucas_console_select_park (alloc : option Z) (saved : bool) (nfds rfds wfds efds : Z) (b : box) : box * Z :=
  console_park 0 alloc saved (fun cslot c =>
    con_wait cslot LUCAS_CONSOLE_WAIT_SELECT (console_buf_vaddr c) rfds nfds wfds efds c) b.

(** ** Resumption *)

Definition ring_empty (c : console) : bool := br_w (shell_in E) =? shell_in_rd c.

(** The attempt to complete a parked wait: [None] leaves it parked. *)
Definition console_complete (s : nat) (uart : list Z) (w : world) : world * list Z * option Z :=
  let b := box_at w s in
  let c := b_console b in
  let ssh := console_src c =? LUCAS_CONSOLE_SRC_SSH_RING in
  if console_wait_kind c =? LUCAS_CONSOLE_WAIT_POLL then
    if (if ssh then ring_empty c else negb (console_data_ready E)) then (w, uart, None)
    else
      let '(b, r) := iomux_poll_scan E (w_pipes w) b (console_poll_fds_vaddr c) (console_poll_nfds c) in
      (set_slot s b w, uart, if r =? 0 then None else Some r)
  else if console_wait_kind c =? LUCAS_CONSOLE_WAIT_SELECT then
    if (if ssh then (dsr_emit c =? 0) && ring_empty c else (dsr_emit c =? 0) && negb (console_data_ready E))
    then (w, uart, None)
    else if console_poll_fds_vaddr c =? 0 then (w, uart, None)
    else
      let '(b, ok) := box_copy_out b (console_poll_fds_vaddr c) [1] in
      (set_slot s b w, uart, if ok then Some 1 else None)
  else
    let '(w, uart, ch) := lucas_console_src_getbyte s uart w in
    match ch with
    | None => (w, uart, None)
    | Some ch =>
        if veof s w ch then (w, uart, Some 0)
        else
          let '(b, ok) := box_copy_out (box_at w s) (console_buf_vaddr c) [u8 ch] in
          (set_slot s b w, uart, Some (if ok then 1 else - LX_EFAULT))
    end.

(** The reply slot stays for the next park. *)
Definition console_resume (s : nat) (r : Z) (w : world) : world :=
  let b := box_at w s in
  let b' := set_b_state RUNNING (set_b_console
    (con_wait (console_reply_cslot (b_console b)) LUCAS_CONSOLE_WAIT_READ 0 0 0 0 0 (b_console b))
    (set_b_waiting_reply_cap 0 b)) in
  log_event (EvResume s (b_waiting_reply_cap b) r) (set_slot s b' w).

Fixpoint console_resume_loop (slots : list nat) (uart : list Z) (w : world) : world * list Z :=
  match slots with
  | [] => (w, uart)
  | s :: rest =>
      match sotbox_get_slot w s with
      | None => console_resume_loop rest uart w
      | Some b =>
          if bool_decide (b_state b <> WAITING_FOR_CONSOLE) then console_resume_loop rest uart w
          else if (w_focus w >=? 0) && negb (Z.of_nat s =? w_focus w) then console_resume_loop rest uart w
          else
            let '(w, uart, r) := console_complete s uart w in
            console_resume_loop rest uart (match r with Some r => console_resume s r w | None => w end)
      end
  end.

Definition lucas_console_resume_parked (uart : list Z) (w : world) : world * list Z :=
  console_resume_loop all_slots uart w.

End Console.

(** ** poll and ppoll *)

(** What parking may use: a reply slot for a pipe park, and the two outcomes of a
    console park. *)
Record park_res := mk_park_res { pr_cap : option Z; pr_alloc : option Z; pr_saved : bool }.

(** Try a park; go on with the scan result when it is not to be had. *)
Definition try_park (park : box -> box * Z) (k : box -> box * Z) (b : box) : box * Z :=
  let '(b, pk) := park b in
  if pk =? LUCAS_WAIT4_DEFERRED then (b, pk) else k b.

(** [E] before the network pump, [E'] after it. *)
Definition lucas_sys_poll (E E' : env) (pipes : list pipe) (res : park_res) (b : box) (fds nfds timeout : Z) : box * Z :=
  let n := u32 nfds in
  let '(b, scanned) := iomux_poll_scan E pipes b fds n in
  if negb (scanned =? 0) then (b, scanned)
  else
    let '(b, scanned) := iomux_poll_scan E' pipes b fds n in
    if negb (scanned =? 0) then (b, scanned)
    else
      let stdin_park b :=
        if (i32 timeout <? 0) && iomux_poll_is_stdin_block b fds n
        then try_park (lucas_console_poll_park (pr_alloc res) (pr_saved res) fds n) (fun b => (b, scanned)) b
        else (b, scanned) in
      if negb (timeout =? 0) && iomux_poll_has_pipe_read_block b fds n
      then try_park (lucas_poll_pipe_park (pr_cap res) fds n) stdin_park b
      else stdin_park b.

(** A timespec of the client that is exactly {0, 0}. *)
Definition zero_timespec (b : box) (vaddr : Z) : bool :=
  match lucas_copy_from_client (b_vspace b) vaddr 16 with
  | Some bs => (field bs 0 8 =? 0) && (field bs 8 8 =? 0)
  | None => false
  end.

Definition blocking_timespec (b : box) (vaddr : Z) : bool := (vaddr =? 0) || negb (zero_timespec b vaddr).

Definition lucas_sys_ppoll (E E' : env) (pipes : list pipe) (res : park_res) (b : box) (fds nfds timeout : Z) : box * Z :=
  let n := u32 nfds in
  let '(b, scanned) := iomux_poll_scan E pipes b fds n in
  if negb (scanned =? 0) then (b, scanned)
  else
    let '(b, scanned) := iomux_poll_scan E' pipes b fds n in
    if negb (scanned =? 0) then (b, scanned)
    else if blocking_timespec b timeout && iomux_poll_has_pipe_read_block b fds n
    then try_park (lucas_poll_pipe_park (pr_cap res) fds n) (fun b => (b, scanned)) b
    else (b, scanned).

(** ** select and pselect6 *)

Definition sel_fd0_requested (b : box) (rfds : Z) : bool :=
  if rfds =? 0 then false
  else match lucas_copy_from_client (b_vspace b) rfds 1 with
       | Some bs => has (bs.[0%nat, 0]) 1
       | None => false
       end.

Definition select_egress_write_interest (b : box) (nfds wfds : Z) : bool :=
  if wfds =? 0 then false
  else
    let rn := clamp_fds (u32 nfds) in
    match lucas_copy_from_client (b_vspace b) wfds (Z.min ((rn + 63) / 64 * 8) 8) with
    | None => false
    | Some bs =>
        existsb (fun fd => fdset_get (words_of_bytes bs) fd && bool_decide (f_kind (get_fd b fd) = FD_SOCKET)
                           && f_egress (get_fd b fd)) (seq 0 (Z.to_nat rn))
    end.

(** [E] without the network pump, [E'] after it. *)
Definition console_select (E E' : env) (pipes : list pipe) (res : park_res) (b : box)
  (nfds rfds wfds efds timeout_vaddr : Z) : box * Z :=
  let E := if select_egress_write_interest b nfds wfds then E else E' in
  let fd0req := (timeout_vaddr =? 0) && console_interactive (b_console b) && sel_fd0_requested b rfds in
  let n := i32 nfds in
  let pipe_block := blocking_timespec b timeout_vaddr && iomux_select_has_pipe_read_block b n rfds wfds efds in
  let orig :=
    if pipe_block && negb (rfds =? 0) then
      fdset_load b rfds (Z.min ((clamp_fds (u32 nfds) + 63) / 64 * 8) 8)
    else Some zero_set in
  let pipe_block := pipe_block && bool_decide (is_Some orig) in
  let '(b, r) := iomux_select_scan E pipes b n rfds wfds efds in
  if negb (r =? 0) then (b, r)
  else
    let fd0_park b :=
      if fd0req
      then try_park (lucas_console_select_park (pr_alloc res) (pr_saved res) (u32 nfds) rfds wfds efds) (fun b => (b, r)) b
      else (b, r) in
    if pipe_block
    then try_park (lucas_select_pipe_park (pr_cap res) n rfds wfds efds (default zero_set orig)) fd0_park b
    else fd0_park b.

Definition lucas_sys_select := console_select.

(** The signal mask is ignored. *)
Definition lucas_sys_pselect6 (E E' : env) (pipes : list pipe) (res : park_res) (b : box)
  (nfds rfds wfds efds timeout sigmask : Z) : box * Z :=
  console_select E E' pipes res b nfds rfds wfds efds timeout.
