(* ===== verification/PipeSys.v ===== *)
(** * Runs of the descriptor and multiplexing calls

    [exec] is one system call of the client in slot [s]; [reach] is the set of
    worlds the orchestrator can be in: it starts with empty tables, clients are
    spawned, make calls, change their own memory, wait, are woken and are reaped.
    A client that exits has closed its descriptors ([exit_fds]) when its slot is
    freed; one that is killed or torn down loses the slot as it is.

    A client is one thread here: it makes calls only while it runs.  Left out besides
    second threads: vfork (src/orch/fork.c), which copies and counts the descriptors as
    fork does but stops the parent and shares its memory until the child executes a
    program; descriptors passed over a socket (src/lucas/handlers_net.c), where a channel
    holds pipe ends and counts them itself while they are in flight; and readv and writev,
    which are defined in [FdTable] as sequences of reads and writes.  The theorems on pipes
    are of runs without these.  [flow] reads
    the log of a world: the bytes that entered and left a pipe since it was last
    allocated. *)

From S2P Require Import Prelude Ring ClientMem Bytepipe BoxState Iomux Pipe FdTable Console.

Inductive op :=
  | OpPipe (fds_vaddr : Z)
  | OpPipe2 (fds_vaddr flags : Z)
  | OpRead (fd buf count : Z) (cap : option Z)
  | OpWrite (fd buf count : Z) (cap : option Z)
  | OpSendfile (p : nat) (bs : list Z)
  | OpClose (fd : Z)
  | OpDup2 (oldfd newfd : Z)
  | OpDup3 (oldfd newfd flags : Z)
  | OpFcntl (fd cmd arg : Z)
  | OpFork (out : fork_outcome)
  | OpExec (is_apt_method : bool)
  | OpExit
  | OpEpollCreate
  | OpEpollCtl (epfd what fd event_vaddr : Z)
  | OpEpollWait (cap : option Z) (epfd events_vaddr maxevents timeout : Z)
  | OpPoll (res : park_res) (fds nfds timeout : Z)
  | OpPpoll (res : park_res) (fds nfds timeout : Z)
  | OpSelect (res : park_res) (nfds rfds wfds efds timeout : Z).

(** A call that only touches the caller. *)
Definition on_box (s : nat) (f : box -> box * Z) (w : world) : world * Z :=
  let '(b, r) := f (box_at w s) in (set_slot s b w, r).

(** A descriptor that is not a pipe end is left to the other files. *)
Definition or_skip (r : option (world * Z)) (w : world) : world * Z := default (w, 0) r.

(** [E] is the outside at the call, [E'] after the network pump. *)
Definition exec (E E' : env) (s : nat) (o : op) (w : world) : world * Z :=
  match o with
  | OpPipe v => lucas_sys_pipe s v w
  | OpPipe2 v flags => lucas_sys_pipe2 s v flags w
  | OpRead fd buf count cap => or_skip (sys_read_pipe s fd buf count cap w) w
  | OpWrite fd buf count cap => or_skip (sys_write_pipe E s fd buf count cap w) w
  | OpSendfile p bs => lucas_pipe_write_kbuf E p bs w
  | OpClose fd => lucas_sys_close E s fd w
  | OpDup2 o n => lucas_sys_dup2 E s o n w
  | OpDup3 o n flags => lucas_sys_dup3 E s o n flags w
  | OpFcntl fd cmd arg => or_skip (sys_fcntl_fd E s fd cmd arg w) w
  | OpFork out => sotbox_fork E s out w
  | OpExec apt => (execve_close_fds E s apt w, 0)
  | OpExit => (exit_fds E s w, 0)
  | OpEpollCreate => on_box s iomux_epoll_create w
  | OpEpollCtl epfd what fd ev => on_box s (fun b => iomux_epoll_ctl b epfd what fd ev) w
  | OpEpollWait cap epfd ev maxev timeout =>
      on_box s (fun b => iomux_epoll_wait E (w_pipes w) cap b epfd ev maxev timeout) w
  | OpPoll res fds nfds timeout => on_box s (fun b => lucas_sys_poll E E' (w_pipes w) res b fds nfds timeout) w
  | OpPpoll res fds nfds timeout => on_box s (fun b => lucas_sys_ppoll E E' (w_pipes w) res b fds nfds timeout) w
  | OpSelect res nfds rfds wfds efds timeout =>
      on_box s (fun b => lucas_sys_select E E' (w_pipes w) res b nfds rfds wfds efds timeout) w
  end.

Definition running (w : world) (s : nat) : Prop := exists b, sotbox_get_slot w s = Some b /\ b_state b = RUNNING.

(** The arguments of a call: register values; a buffer of the client lies inside
    its address space, a pipe named by the caller of sendfile is in the pool. *)
Definition args_ok (o : op) : Prop :=
  match o with
  | OpPipe v | OpPipe2 v _ => in_range v 8
  | OpRead fd buf count _ => 0 <= fd /\ in_range buf count
  | OpWrite fd buf count _ => 0 <= fd /\ in_range buf count
  | OpSendfile p _ => (p < LUCAS_PIPE_POOL)%nat
  | OpClose fd => 0 <= fd
  | OpDup2 o n | OpDup3 o n _ => 0 <= o /\ 0 <= n
  | OpFcntl fd _ _ => 0 <= fd
  | OpEpollWait _ _ ev n _ => 0 <= ev /\ ev + 12 * 16 <= 2 ^ 64
  | OpPoll _ fds _ _ | OpPpoll _ fds _ _ => 0 <= fds /\ fds + 8 * 64 <= 2 ^ 64
  | OpSelect _ _ r _ _ _ => in_range r 8
  | _ => True
  end.

Definition init_world : world :=
  mk_world (replicate LUCAS_PIPE_POOL zero_pipe) (replicate SOTBOX_MAX_SLOTS None) (-1) [].

(** A fresh client: it runs, waits for nothing and has no pipe descriptor. *)
Definition fresh_box (b : box) : Prop :=
  b_state b = RUNNING /\ b_pipe_wait b = no_pipe_wait /\ length (b_fds b) = LUCAS_MAX_FDS /\
  Forall (fun e => f_kind e <> FD_PIPE_READ /\ f_kind e <> FD_PIPE_WRITE) (b_fds b).

Inductive step : world -> world -> Prop :=
  | step_spawn w s b :
      (s < SOTBOX_MAX_SLOTS)%nat -> sotbox_get_slot w s = None -> fresh_box b -> step w (set_slot s b w)
  | step_call E E' w s o :
      running w s -> args_ok o -> step w (exec E E' s o w).1
  | step_memory w s v :
      running w s -> step w (upd_box s (set_b_vspace v) w)
  | step_console E w uart :
      step w (lucas_console_resume_parked E uart w).1
  | step_focus w slot :
      step w (set_w_focus slot w)
  | step_reap w s b :
      sotbox_get_slot w s = Some b -> step w (sotbox_free_slot s w).

Inductive reach : world -> Prop :=
  | reach_init : reach init_world
  | reach_step w w' : reach w -> step w w' -> reach w'.

(** ** The bytes through a pipe *)

(** What entered and what left pipe [p] since its last allocation. *)
Definition flow_step (p : nat) (f : list Z * list Z) (e : event) : list Z * list Z :=
  match e with
  | EvAlloc q => if bool_decide (q = p) then ([], []) else f
  | EvFill q bs => if bool_decide (q = p) then (f.1 ++ bs, f.2) else f
  | EvDrain q bs => if bool_decide (q = p) then (f.1, f.2 ++ bs) else f
  | _ => f
  end.

Definition flow (p : nat) (log : list event) : list Z * list Z := fold_left (flow_step p) log ([], []).

(** The unread bytes of a pipe. *)
Definition pipe_content (p : pipe) : list Z :=
  content LUCAS_PIPE_BUF_SIZE (p_buf p) (p_tail p) (Z.to_nat (p_count p)).
