(* ===== verification/PipeInv.v ===== *)
(** * Invariants of the pipes and the descriptor tables

    Three layers.  [keeps] is the frame of everything that only moves bytes and
    wakes clients: open counts and descriptor tables are as before.  [fifo] is
    the ring invariant together with first-in first-out delivery: what entered a
    pipe is what left it followed by what it holds.  [refs] ties the open counts
    to the descriptor tables: every end is counted, and a pipe is in the pool
    exactly when no end of it is open. *)

From S2P Require Import Prelude Ring ClientMem Bytepipe BoxState Iomux Pipe FdTable Console PipeSys.

(** ** Access *)

Lemma get_pipe_set p q x w :
  get_pipe (set_pipe p x w) q = if bool_decide (q = p /\ (p < length (w_pipes w))%nat) then x else get_pipe w q.
Proof.
  unfold get_pipe, set_pipe. cbn [w_pipes set_w_pipes].
  case_bool_decide as H.
  - destruct H as [-> H]. by rewrite list_lookup_insert_eq.
  - destruct (decide (q = p)) as [->|]; [|by rewrite list_lookup_insert_ne].
    rewrite list_insert_ge by (destruct (decide (p < length (w_pipes w))%nat); [tauto|lia]). done.
Qed.

Lemma slot_set i j b w : is_Some (sotbox_get_slot w i) ->
  sotbox_get_slot (set_slot i b w) j = if bool_decide (j = i) then Some b else sotbox_get_slot w j.
Proof.
  intros [x Hx]. unfold sotbox_get_slot, set_slot in *. cbn [w_slots set_w_slots].
  assert (i < length (w_slots w))%nat.
  { destruct (decide (i < length (w_slots w))%nat); [done|]. rewrite lookup_ge_None_2 in Hx by lia. done. }
  case_bool_decide; [subst; by rewrite list_lookup_insert_eq|by rewrite list_lookup_insert_ne].
Qed.

Lemma slot_set_eq i b w : is_Some (sotbox_get_slot w i) -> sotbox_get_slot (set_slot i b w) i = Some b.
Proof. intros. rewrite slot_set by done. by rewrite bool_decide_eq_true_2. Qed.

Lemma slot_set_ne i j b w : i <> j -> sotbox_get_slot (set_slot i b w) j = sotbox_get_slot w j.
Proof. intros. unfold sotbox_get_slot, set_slot. cbn. by rewrite list_lookup_insert_ne. Qed.

Lemma box_at_Some w s b : sotbox_get_slot w s = Some b -> box_at w s = b.
Proof. intros H. unfold box_at. by rewrite H. Qed.

Lemma length_set_slot i b w : length (w_slots (set_slot i b w)) = length (w_slots w).
Proof. apply length_insert. Qed.

Lemma length_set_pipe p x w : length (w_pipes (set_pipe p x w)) = length (w_pipes w).
Proof. apply length_insert. Qed.

(** ** Frames *)

(** Open counts and the in-use flag of a pipe. *)
Definition counts (x : pipe) : Z * Z * bool := (p_readers_open x, p_writers_open x, p_in_use x).

Record keeps (w w' : world) : Prop := {
  k_counts : forall p, counts (get_pipe w' p) = counts (get_pipe w p);
  k_fds : forall i, option_map b_fds (sotbox_get_slot w' i) = option_map b_fds (sotbox_get_slot w i);
  k_pipes : length (w_pipes w') = length (w_pipes w);
  k_slots : length (w_slots w') = length (w_slots w)
}.

#[export] Instance keeps_pre : PreOrder keeps.
Proof.
  split; [by constructor|].
  intros u v w [] []; constructor; intros; congruence.
Qed.

Create HintDb pipe discriminated.

Lemma world_keeps_trans u v w : keeps u v -> keeps v w -> keeps u w.
Proof. apply transitivity. Qed.

Lemma keeps_log e w : keeps w (log_event e w).
Proof. by constructor. Qed.

Lemma keeps_set_pipe p x w : counts x = counts (get_pipe w p) -> keeps w (set_pipe p x w).
Proof.
  intros H. constructor; try done; [|apply length_set_pipe].
  intros q. rewrite get_pipe_set. case_bool_decide as Hq; [|done]. destruct Hq as [-> _]. done.
Qed.

Lemma keeps_set_slot i b b' w : sotbox_get_slot w i = Some b -> b_fds b' = b_fds b -> keeps w (set_slot i b' w).
Proof.
  intros Hb Hf. constructor; try done; [|apply length_set_slot].
  intros j. rewrite slot_set by done. case_bool_decide; [subst; rewrite Hb; cbn; by rewrite Hf|done].
Qed.

Lemma box_copy_out_fds b v bs : b_fds (box_copy_out b v bs).1 = b_fds b.
Proof. unfold box_copy_out. by destruct (lucas_copy_to_client _ _ _). Qed.

Lemma pipe_put_counts bs x : counts (pipe_put bs x) = counts x.
Proof. unfold pipe_put. by destruct (ring_put _ _ _ _). Qed.

Lemma read_drain_keeps s p v n w : keeps w (pipe_read_drain s p v n w).1.
Proof.
  unfold pipe_read_drain. destruct (sotbox_get_slot w s) as [b|] eqn:Hb; [|done].
  destruct (_ =? 0); [done|]. destruct (ring_take _ _ _ _) as [stage tail]. cbn [fst].
  eapply world_keeps_trans; [|eapply keeps_set_slot; [exact Hb|apply box_copy_out_fds]].
  eapply world_keeps_trans; [|apply keeps_log]. by apply keeps_set_pipe.
Qed.

Lemma write_fill_keeps s p v n w : keeps w (pipe_write_fill s p v n w).1.
Proof.
  unfold pipe_write_fill. destruct (sotbox_get_slot w s); [|done].
  destruct (_ =? 0); [done|]. destruct (pipe_copy_from_client _ _ _); [|done].
  eapply world_keeps_trans; [|apply keeps_log]. apply keeps_set_pipe, pipe_put_counts.
Qed.

Lemma resume_keeps s r w : keeps w (pipe_resume_sotbox s r w).
Proof.
  unfold pipe_resume_sotbox. destruct (sotbox_get_slot w s) eqn:Hb; [|done].
  eapply world_keeps_trans; [|apply keeps_log]. by eapply keeps_set_slot.
Qed.

#[export] Hint Resolve world_keeps_trans keeps_log read_drain_keeps write_fill_keeps resume_keeps : pipe.

Lemma wake_readers_loop_keeps p slots : forall w, keeps w (wake_readers_loop p slots w).
Proof.
  induction slots as [|i slots IH]; intros w; cbn [wake_readers_loop]; [done|].
  destruct (sotbox_get_slot w i) as [b|]; [|auto].
  destruct (parked_on 1 p b); cbn [negb]; [|auto].
  destruct (_ >? 0).
  - pose proof (read_drain_keeps i p (waiting_pipe_buf (b_pipe_wait b)) (waiting_pipe_count (b_pipe_wait b)) w) as H.
    destruct (pipe_read_drain _ _ _ _ _) as [w1 got]. cbn in H. eauto with pipe.
  - destruct (_ =? 0); [apply resume_keeps|auto].
Qed.

Lemma wake_readers_keeps p w : keeps w (lucas_pipe_wake_readers p w).
Proof. apply wake_readers_loop_keeps. Qed.

Lemma wake_writers_loop_keeps p slots : forall w, keeps w (wake_writers_loop p slots w).
Proof.
  induction slots as [|i slots IH]; intros w; cbn [wake_writers_loop]; [done|].
  destruct (sotbox_get_slot w i) as [b|]; [|auto].
  destruct (parked_on 2 p b); cbn [negb]; [|auto].
  assert (H : keeps w (if p_readers_open (get_pipe w p) =? 0 then (w, -32)
    else pipe_write_fill i p (waiting_pipe_buf (b_pipe_wait b)) (waiting_pipe_count (b_pipe_wait b)) w).1)
    by (destruct (_ =? 0); [done|apply write_fill_keeps]).
  destruct (if _ =? 0 then _ else _) as [w1 r]. cbn in H.
  destruct (r >? 0); [|eauto with pipe].
  eapply world_keeps_trans; [|apply wake_readers_keeps]. eauto with pipe.
Qed.

Lemma wake_writers_keeps p w : keeps w (lucas_pipe_wake_writers p w).
Proof. apply wake_writers_loop_keeps. Qed.

(** A hook touches one sotBox at a time, keeps its descriptors and logs no
    transfer. *)
Definition no_transfer (e : event) : Prop :=
  match e with EvAlloc _ | EvFill _ _ | EvDrain _ _ => False | _ => True end.

Definition hook_ok (f : nat -> box -> option (box * option event)) : Prop :=
  forall i b b' ev, f i b = Some (b', ev) ->
    b_fds b' = b_fds b /\ b_pipe_wait b' = b_pipe_wait b /\ match ev with Some e => no_transfer e | None => True end.

(** What a hook leaves in slot [j]. *)
Lemma for_slots_get f slots j : forall w, NoDup slots ->
  sotbox_get_slot (for_slots f slots w) j =
  match sotbox_get_slot w j with
  | Some b => if bool_decide (j ∈ slots) then match f j b with Some (b', _) => Some b' | None => Some b end else Some b
  | None => None
  end.
Proof.
  induction slots as [|i slots IH]; intros w Hnd; cbn [for_slots].
  - destruct (sotbox_get_slot w j); [|done]. by rewrite bool_decide_eq_false_2 by set_solver.
  - apply NoDup_cons in Hnd as [Hni Hnd].
    destruct (sotbox_get_slot w i) as [b|] eqn:Hb.
    2:{ rewrite IH by done. destruct (sotbox_get_slot w j) eqn:Hj; [|done].
        erewrite bool_decide_ext; [done|]. rewrite elem_of_cons. split; [tauto|]. intros [->|]; [congruence|done]. }
    destruct (decide (j = i)) as [->|Hji].
    + rewrite Hb, (bool_decide_eq_true_2 (i ∈ i :: slots)) by set_solver.
      destruct (f i b) as [[b' ev]|] eqn:Hf.
      * rewrite IH by done. assert (Hs : sotbox_get_slot (match ev with Some e => log_event e (set_slot i b' w) | None => set_slot i b' w end) i = Some b')
          by (destruct ev; apply (slot_set_eq i b' w); by eexists).
        rewrite Hs. by rewrite bool_decide_eq_false_2.
      * rewrite IH by done. rewrite Hb. by rewrite bool_decide_eq_false_2.
    + assert (Hext : forall b0 : box, (if bool_decide (j ∈ i :: slots) then match f j b0 with Some (b', _) => Some b' | None => Some b0 end else Some b0)
        = (if bool_decide (j ∈ slots) then match f j b0 with Some (b', _) => Some b' | None => Some b0 end else Some b0)).
      { intros. erewrite bool_decide_ext; [done|]. set_solver. }
      transitivity (match sotbox_get_slot w j with
        | Some b0 => if bool_decide (j ∈ slots) then match f j b0 with Some (b', _) => Some b' | None => Some b0 end else Some b0
        | None => None end); [|destruct (sotbox_get_slot w j); [by rewrite Hext|done]].
      destruct (f i b) as [[b' ev]|]; rewrite IH by done; [|done].
      replace (sotbox_get_slot (match ev with Some e => log_event e (set_slot i b' w) | None => set_slot i b' w end) j)
        with (sotbox_get_slot w j); [done|].
      destruct ev; symmetry; by apply (slot_set_ne i j b' w).
Qed.

Lemma for_slots_pipes f slots : forall w, w_pipes (for_slots f slots w) = w_pipes w.
Proof.
  induction slots as [|i slots IH]; intros w; cbn [for_slots]; [done|].
  destruct (sotbox_get_slot w i); [|auto]. destruct (f i b) as [[b' ev]|]; [|auto].
  rewrite IH. by destruct ev.
Qed.

Lemma for_slots_focus f slots : forall w, w_focus (for_slots f slots w) = w_focus w.
Proof.
  induction slots as [|i slots IH]; intros w; cbn [for_slots]; [done|].
  destruct (sotbox_get_slot w i); [|auto]. destruct (f i b) as [[b' ev]|]; [|auto].
  rewrite IH. by destruct ev.
Qed.

Lemma for_slots_length f slots : forall w, length (w_slots (for_slots f slots w)) = length (w_slots w).
Proof.
  induction slots as [|i slots IH]; intros w; cbn [for_slots]; [done|].
  destruct (sotbox_get_slot w i); [|auto]. destruct (f i b) as [[b' ev]|]; [|auto].
  rewrite IH. destruct ev; apply (length_set_slot i b' w).
Qed.

Lemma flow_app p l l' : flow p (l ++ l') = fold_left (flow_step p) l' (flow p l).
Proof. unfold flow. apply fold_left_app. Qed.

Lemma flow_quiet p l e : no_transfer e -> flow p (l ++ [e]) = flow p l.
Proof. intros H. rewrite flow_app. cbn. by destruct e. Qed.

Lemma for_slots_flow f slots p : hook_ok f -> forall w, flow p (w_log (for_slots f slots w)) = flow p (w_log w).
Proof.
  intros Hf. induction slots as [|i slots IH]; intros w; cbn [for_slots]; [done|].
  destruct (sotbox_get_slot w i); [|auto]. destruct (f i b) as [[b' ev]|] eqn:Hfi; [|auto].
  rewrite IH. destruct (Hf _ _ _ _ Hfi) as (_ & _ & He). destruct ev; [|done]. by apply (flow_quiet p (w_log w)).
Qed.

Lemma all_slots_nodup : NoDup all_slots.
Proof. apply NoDup_ListNoDup, seq_NoDup. Qed.

(** ** Scans change the memory of the sotBox and nothing else *)

Definition only_mem (b b' : box) : Prop := b' = set_b_vspace (b_vspace b') b.

Lemma only_mem_refl b : only_mem b b.
Proof. by destruct b. Qed.

Lemma only_mem_trans a b c : only_mem a b -> only_mem b c -> only_mem a c.
Proof. unfold only_mem. intros -> ->. done. Qed.

Lemma copy_out_only_mem b v bs : only_mem b (box_copy_out b v bs).1.
Proof. unfold box_copy_out. by destruct (lucas_copy_to_client _ _ _). Qed.

#[export] Hint Resolve only_mem_refl copy_out_only_mem : pipe.

Lemma drain_ready_only_mem E ps b s v m : only_mem b (epoll_drain_ready E ps b s v m).1.
Proof.
  unfold epoll_drain_ready. destruct (_ || _); [apply only_mem_refl|]. destruct (m <=? 0); [apply only_mem_refl|].
  destruct (epoll_stage _ _ _ _ _) as [|x xs]; [apply only_mem_refl|].
  match goal with |- context [box_copy_out b v ?bs] => pose proof (copy_out_only_mem b v bs) as H end.
  destruct (box_copy_out _ _ _) as [b' ok]. by destruct ok.
Qed.

Lemma poll_scan_only_mem E ps b v n : only_mem b (iomux_poll_scan E ps b v n).1.
Proof.
  unfold iomux_poll_scan. destruct (_ || _); [apply only_mem_refl|].
  destruct (poll_load b v n) as [pfds|]; [|apply only_mem_refl]. cbn zeta.
  match goal with |- context [box_copy_out b v ?bs] => pose proof (copy_out_only_mem b v bs) as H end.
  destruct (box_copy_out _ _ _) as [b' ok]. by destruct ok.
Qed.

Lemma fdset_store_only_mem b v n ws : only_mem b (fdset_store b v n ws).1.
Proof. unfold fdset_store. destruct (v =? 0); [apply only_mem_refl|apply copy_out_only_mem]. Qed.

Lemma select_scan_only_mem E ps b n r w e : only_mem b (iomux_select_scan E ps b n r w e).1.
Proof.
  unfold iomux_select_scan. destruct (n <=? 0); [apply only_mem_refl|]. cbn zeta.
  set (nb := set_bytes (clamp_fds n)).
  destruct (fdset_load b r nb), (fdset_load b w nb), (fdset_load b e nb); try apply only_mem_refl.
  set (out := fold_left _ _ _). clearbody out.
  pose proof (fdset_store_only_mem b r nb (ss_r out)) as H1.
  destruct (fdset_store b r _ _) as [b1 []]; cbn [negb fst] in *; [|done].
  pose proof (fdset_store_only_mem b1 w nb (ss_w out)) as H2.
  destruct (fdset_store b1 w _ _) as [b2 []]; cbn [negb fst] in *; [|by eapply only_mem_trans].
  pose proof (fdset_store_only_mem b2 e nb (ss_e out)) as H3.
  destruct (fdset_store b2 e _ _) as [b3 []]; cbn [negb fst] in *; by do 2 (eapply only_mem_trans; [|done]).
Qed.

Lemma select_restore_only_mem b : only_mem b (select_restore b).
Proof. unfold select_restore. destruct (_ =? 0); [apply only_mem_refl|apply copy_out_only_mem]. Qed.

(** ** The three hooks *)

Definition epoll_hook (E : env) (ps : list pipe) (i : nat) (b : box) : option (box * option event) :=
  if bool_decide (b_state b <> WAITING_FOR_EPOLL) then None
  else
    let x := b_epoll_wait b in
    if epoll_wait_slot x <? 0 then None
    else Some (resume_if epoll_resume_sotbox i
           (epoll_drain_ready E ps b (epoll_wait_slot x) (epoll_wait_events_vaddr x) (epoll_wait_maxevents x))).

Definition poll_hook (E : env) (ps : list pipe) (i : nat) (b : box) : option (box * option event) :=
  if bool_decide (b_state b <> WAITING_FOR_POLL) then None
  else
    let x := b_poll_wait b in
    Some (resume_if poll_resume_sotbox i (iomux_poll_scan E ps b (poll_wait_fds_vaddr x) (poll_wait_nfds x))).

Definition select_hook (E : env) (ps : list pipe) (i : nat) (b : box) : option (box * option event) :=
  if bool_decide (b_state b <> WAITING_FOR_SELECT) then None
  else
    let x := b_sel_wait b in
    Some (resume_if select_resume_sotbox i
      (iomux_select_scan E ps (select_restore b) (sel_wait_nfds x) (sel_wait_rfds_vaddr x)
         (sel_wait_wfds_vaddr x) (sel_wait_efds_vaddr x))).

Lemma check_all_hooks E w :
  iomux_check_all E w =
  for_slots (select_hook E (w_pipes w)) all_slots
    (for_slots (poll_hook E (w_pipes w)) all_slots (for_slots (epoll_hook E (w_pipes w)) all_slots w)).
Proof.
  unfold iomux_check_all, iomux_check_select_waiters, iomux_check_poll_waiters, iomux_check_epoll_waiters.
  by rewrite !for_slots_pipes.
Qed.

(** Resuming after a scan: the wait fields change, the rest of the sotBox is the
    memory the scan left. *)
Lemma resume_if_fds resume i b0 r b' ev :
  (forall n b, b_fds (resume i n b).1 = b_fds b /\ b_pipe_wait (resume i n b).1 = b_pipe_wait b /\
               exists c v, (resume i n b).2 = EvResume i c v) ->
  only_mem b0 r.1 -> resume_if resume i r = (b', ev) ->
  b_fds b' = b_fds b0 /\ b_pipe_wait b' = b_pipe_wait b0 /\ match ev with Some e => no_transfer e | None => True end.
Proof.
  intros Hres Hmem. destruct r as [b n]. cbn in Hmem. unfold resume_if.
  destruct (n =? 0).
  - intros [= <- <-]. rewrite Hmem. done.
  - destruct (Hres n b) as (Hf & Hp & c & v & He). destruct (resume i n b) as [b1 e]. cbn in *. subst e.
    intros [= <- <-]. rewrite Hf, Hp, Hmem. done.
Qed.

Lemma epoll_hook_ok E ps : hook_ok (epoll_hook E ps).
Proof.
  intros i b b' ev. unfold epoll_hook. case_bool_decide; [done|]. cbn zeta. destruct (_ <? 0); [done|].
  intros [= Heq]. eapply resume_if_fds; [|apply drain_ready_only_mem|done]. intros. split_and!; [done..|by eexists _, _].
Qed.

Lemma poll_hook_ok E ps : hook_ok (poll_hook E ps).
Proof.
  intros i b b' ev. unfold poll_hook. case_bool_decide; [done|]. cbn zeta.
  intros [= Heq]. eapply resume_if_fds; [|apply poll_scan_only_mem|done]. intros. split_and!; [done..|by eexists _, _].
Qed.

Lemma select_hook_ok E ps : hook_ok (select_hook E ps).
Proof.
  intros i b b' ev. unfold select_hook. case_bool_decide; [done|]. cbn zeta.
  intros [= Heq]. eapply resume_if_fds; [| |done].
  - intros. split_and!; [done..|by eexists _, _].
  - eapply only_mem_trans; [apply select_restore_only_mem|apply select_scan_only_mem].
Qed.

(** What a hook may change: not the pipes, and of a sotBox neither the descriptors
    nor the parked pipe transfer. *)
Record quiet (w w' : world) : Prop := {
  q_pipes : w_pipes w' = w_pipes w;
  q_flow : forall p, flow p (w_log w') = flow p (w_log w);
  q_slots : length (w_slots w') = length (w_slots w);
  q_box : forall i, option_map (fun b => (b_fds b, b_pipe_wait b)) (sotbox_get_slot w' i)
                  = option_map (fun b => (b_fds b, b_pipe_wait b)) (sotbox_get_slot w i)
}.

#[export] Instance quiet_pre : PreOrder quiet.
Proof. split; [by constructor|]. intros u v w [] []; constructor; intros; congruence. Qed.

Lemma quiet_trans u v w : quiet u v -> quiet v w -> quiet u w.
Proof. apply transitivity. Qed.

Lemma for_slots_quiet f w : hook_ok f -> quiet w (for_slots f all_slots w).
Proof.
  intros Hf. constructor; [apply for_slots_pipes|intros; by apply for_slots_flow|apply for_slots_length|].
  intros i. rewrite for_slots_get by apply all_slots_nodup.
  destruct (sotbox_get_slot w i) as [b|]; [|done]. case_bool_decide; [|done].
  destruct (f i b) as [[b' ev]|] eqn:Hb; [|done]. destruct (Hf _ _ _ _ Hb) as (H1 & H2 & _). cbn. by rewrite H1, H2.
Qed.

Lemma check_all_quiet E w : quiet w (iomux_check_all E w).
Proof.
  rewrite check_all_hooks.
  eapply quiet_trans; [|apply for_slots_quiet, select_hook_ok].
  eapply quiet_trans; [|apply for_slots_quiet, poll_hook_ok].
  apply for_slots_quiet, epoll_hook_ok.
Qed.

Lemma quiet_keeps w w' : quiet w w' -> keeps w w'.
Proof.
  intros [Hp _ Hs Hb]. constructor; [intros; unfold get_pipe; by rewrite Hp| |by rewrite Hp|done].
  intros i. specialize (Hb i). destruct (sotbox_get_slot w' i), (sotbox_get_slot w i); cbn in *; congruence.
Qed.

Lemma check_all_keeps E w : keeps w (iomux_check_all E w).
Proof. apply quiet_keeps, check_all_quiet. Qed.

#[export] Hint Resolve wake_readers_keeps wake_writers_keeps check_all_keeps : pipe.
