(* ===== verification/PipeFifo.v ===== *)
(** * Pipes deliver first in, first out

    [fifo] is preserved by every step of [PipeSys]: each ring is well formed, and
    the bytes that entered a pipe since its allocation are the bytes that left it
    followed by the bytes it holds. *)

From S2P Require Import Prelude Storage Ring ClientMem Bytepipe BoxState Iomux Pipe FdTable Console PipeSys PipeInv.

Definition ring_ok (x : pipe) : Prop :=
  0 <= p_tail x < LUCAS_PIPE_BUF_SIZE /\ 0 <= p_count x <= LUCAS_PIPE_BUF_SIZE /\
  p_head x = (p_tail x + p_count x) mod LUCAS_PIPE_BUF_SIZE.

Definition fifo1 (x : pipe) (f : list Z * list Z) : Prop := ring_ok x /\ f.1 = f.2 ++ pipe_content x.

Record fifo (w : world) : Prop := {
  fifo_pipes : forall p, (p < length (w_pipes w))%nat -> fifo1 (get_pipe w p) (flow p (w_log w));
  fifo_waits : forall i b, sotbox_get_slot w i = Some b -> 0 <= waiting_pipe_count (b_pipe_wait b)
}.

(** ** One pipe *)

Lemma copy_in_length fuel : forall v a size copied bs,
  copy_in_loop fuel v a size copied = Some bs -> Z.of_nat (length bs) = Z.max 0 (size - copied).
Proof.
  induction fuel as [|fuel IH]; intros v a size copied bs; cbn [copy_in_loop];
    destruct (Z.ltb_spec copied size); try (by intros [= <-]; cbn; lia).
  destruct (page_ok _ _); [|done].
  pose proof (in_page_bounds (u64 (a + copied)) (size - copied) ltac:(lia)).
  set (n := in_page _ _) in *. destruct (copy_in_loop fuel v a size (copied + n)) as [rest|] eqn:E; [|done].
  intros [= <-]. apply IH in E. rewrite length_app, length_slice. lia.
Qed.

Lemma ring_put_ok x bs : ring_ok x -> p_count x + Z.of_nat (length bs) <= LUCAS_PIPE_BUF_SIZE ->
  ring_ok (pipe_put bs x) /\ pipe_content (pipe_put bs x) = pipe_content x ++ bs.
Proof.
  intros (Ht & Hc & Hh) Hlen. unfold pipe_put, pipe_content, ring_ok.
  pose proof (content_put LUCAS_PIPE_BUF_SIZE ltac:(done) bs (p_buf x) (p_tail x) (Z.to_nat (p_count x)) Ht ltac:(lia)) as H.
  rewrite Z2Nat.id in H by lia. rewrite <- Hh in H.
  destruct (ring_put _ _ _ _) as [buf head]. destruct H as [H1 H2]. cbn.
  replace (Z.to_nat (p_count x + Z.of_nat (length bs))) with (Z.to_nat (p_count x) + length bs)%nat by lia.
  split; [|done]. split; [done|]. split; [lia|]. rewrite H2. f_equal. lia.
Qed.

(** A pipe after [n] bytes were taken. *)
Definition drained (x : pipe) (n : Z) : pipe :=
  mk_pipe (p_buf x) (p_head x) ((p_tail x + n) mod LUCAS_PIPE_BUF_SIZE) (p_count x - n)
    (p_readers_open x) (p_writers_open x) (p_in_use x).

Lemma drained_ok x n : ring_ok x -> 0 <= n <= p_count x ->
  ring_ok (drained x n) /\ pipe_content x = take (Z.to_nat n) (pipe_content x) ++ pipe_content (drained x n).
Proof.
  intros (Ht & Hc & Hh) Hn. unfold ring_ok, pipe_content, drained. cbn. split.
  - split; [by apply Z.mod_pos_bound|]. split; [lia|]. rewrite Zplus_mod_idemp_l, Hh. f_equal. lia.
  - pose proof (content_drop LUCAS_PIPE_BUF_SIZE (p_buf x) (p_tail x) (Z.to_nat (p_count x)) (Z.to_nat n) ltac:(lia)) as H.
    rewrite Z2Nat.id in H by lia. replace (Z.to_nat (p_count x - n)) with (Z.to_nat (p_count x) - Z.to_nat n)%nat by lia.
    by rewrite H, take_drop.
Qed.

Lemma ring_take_drained x n : ring_ok x -> 0 <= n <= p_count x ->
  ring_take LUCAS_PIPE_BUF_SIZE (p_buf x) (p_tail x) (Z.to_nat n)
  = (take (Z.to_nat n) (pipe_content x), p_tail (drained x n)).
Proof.
  intros (Ht & Hc & Hh) Hn. rewrite ring_take_content by done. rewrite Z2Nat.id by lia. cbn.
  unfold pipe_content. by rewrite <- content_take by lia.
Qed.

Lemma upto_le a b : upto a b <= a /\ upto a b <= b.
Proof. unfold upto. destruct (Z.ltb_spec a b); lia. Qed.

Lemma upto_pos a b : 0 <= a -> 0 <= b -> 0 <= upto a b.
Proof. unfold upto. destruct (Z.ltb_spec a b); lia. Qed.

(** ** The transfers *)

Lemma read_drain_eq s p v n w b : sotbox_get_slot w s = Some b ->
  ring_ok (get_pipe w p) -> 0 <= n -> p_count (get_pipe w p) <> 0 ->
  let k := upto n (p_count (get_pipe w p)) in
  let bs := take (Z.to_nat k) (pipe_content (get_pipe w p)) in
  pipe_read_drain s p v n w =
  (set_slot s (box_copy_out b v bs).1 (log_event (EvDrain p bs) (set_pipe p (drained (get_pipe w p) k) w)), k).
Proof.
  intros Hb Hr Hn Hc k bs. unfold pipe_read_drain. rewrite Hb, (proj2 (Z.eqb_neq _ _)) by done.
  rewrite ring_take_drained; [done|done|]. pose proof (upto_le n (p_count (get_pipe w p))).
  pose proof (upto_pos n (p_count (get_pipe w p)) Hn ltac:(destruct Hr; lia)). lia.
Qed.

Lemma write_fill_cases s p v n w b : sotbox_get_slot w s = Some b ->
  pipe_write_fill s p v n w = (w, 0) \/
  exists bs, pipe_write_fill s p v n w
      = (log_event (EvFill p bs) (set_pipe p (pipe_put bs (get_pipe w p)) w), upto n (LUCAS_PIPE_BUF_SIZE - p_count (get_pipe w p))) /\
    Z.of_nat (length bs) = Z.max 0 (upto n (LUCAS_PIPE_BUF_SIZE - p_count (get_pipe w p))) /\
    pipe_copy_from_client (b_vspace b) v (upto n (LUCAS_PIPE_BUF_SIZE - p_count (get_pipe w p))) = Some bs.
Proof.
  intros Hb. unfold pipe_write_fill. rewrite Hb. destruct (_ =? 0); [by left|].
  destruct (pipe_copy_from_client _ _ _) as [bs|] eqn:E; [|by left]. right. exists bs. split; [done|].
  split; [|done]. unfold pipe_copy_from_client in E. apply copy_in_length in E. by rewrite Z.sub_0_r in E.
Qed.

(** ** Preservation *)

Lemma fifo_slot i b b' w : sotbox_get_slot w i = Some b ->
  0 <= waiting_pipe_count (b_pipe_wait b') -> fifo w -> fifo (set_slot i b' w).
Proof.
  intros Hb Hc [Hp Hw]. constructor; [done|]. intros j x. rewrite slot_set by done.
  case_bool_decide; [by intros [= <-]|apply Hw].
Qed.

Lemma fifo_log e w : no_transfer e -> fifo w -> fifo (log_event e w).
Proof. intros He [Hp Hw]. constructor; [|done]. intros p Hlt. cbn [w_log log_event set_w_log]. rewrite flow_quiet by done. by apply Hp. Qed.

Lemma fifo_quiet w w' : quiet w w' -> fifo w -> fifo w'.
Proof.
  intros [Hp Hf Hs Hb] [H1 H2]. constructor.
  - intros p. rewrite Hp, Hf. unfold get_pipe. rewrite Hp. apply H1.
  - intros i b Hi. specialize (Hb i). rewrite Hi in Hb. destruct (sotbox_get_slot w i) as [b0|] eqn:H0; [|done].
    cbn in Hb. injection Hb as _ ->. by eapply H2.
Qed.

(** A step on one pipe with its event. *)
Lemma fifo_pipe p x e w :
  (forall q, q <> p -> forall f, flow_step q f e = f) ->
  (fifo1 (get_pipe w p) (flow p (w_log w)) -> fifo1 x (flow_step p (flow p (w_log w)) e)) ->
  fifo w -> fifo (log_event e (set_pipe p x w)).
Proof.
  intros Hne Hp [H1 H2]. constructor; [|done]. intros q. cbn [w_log log_event set_w_log w_pipes].
  intros Hq. cbn in Hq. rewrite length_insert in Hq. rewrite flow_app. cbn [fold_left].
  change (get_pipe (log_event e (set_pipe p x w)) q) with (get_pipe (set_pipe p x w) q).
  rewrite get_pipe_set. case_bool_decide as Hc.
  - destruct Hc as [-> _]. apply Hp. by apply H1.
  - rewrite Hne by (intros ->; tauto). by apply H1.
Qed.

(** A change of the open counts. *)
Lemma fifo_recount p x w :
  (p_buf x, p_head x, p_tail x, p_count x) = (p_buf (get_pipe w p), p_head (get_pipe w p), p_tail (get_pipe w p), p_count (get_pipe w p)) ->
  fifo w -> fifo (set_pipe p x w).
Proof.
  intros Hx [H1 H2]. constructor; [|done]. intros q Hq. cbn in Hq. rewrite length_insert in Hq.
  rewrite get_pipe_set. cbn [w_log set_pipe set_w_pipes]. case_bool_decide as Hc; [|by apply H1].
  destruct Hc as [-> _]. specialize (H1 p Hq). injection Hx as Hbuf Hh Ht Hc.
  unfold fifo1, ring_ok, pipe_content in *. by rewrite Hbuf, Hh, Ht, Hc.
Qed.

Lemma pipe_wait_copy_out b v bs : b_pipe_wait (box_copy_out b v bs).1 = b_pipe_wait b.
Proof. unfold box_copy_out. by destruct (lucas_copy_to_client _ _ _). Qed.

Lemma fifo_read_drain s p v n w : 0 <= n -> (p < length (w_pipes w))%nat -> fifo w -> fifo (pipe_read_drain s p v n w).1.
Proof.
  intros Hn Hp Hf. pose proof (fifo_pipes w Hf p Hp) as [Hr Hflow].
  destruct (sotbox_get_slot w s) as [b|] eqn:Hb; [|unfold pipe_read_drain; by rewrite Hb].
  destruct (decide (p_count (get_pipe w p) = 0)) as [H0|H0].
  { unfold pipe_read_drain. by rewrite Hb, H0. }
  rewrite (read_drain_eq s p v n w b) by done. cbn [fst].
  set (k := upto n (p_count (get_pipe w p))).
  assert (Hk : 0 <= k <= p_count (get_pipe w p)).
  { split; [apply upto_pos; [done|destruct Hr; lia]|apply upto_le]. }
  eapply fifo_slot; [exact Hb|rewrite pipe_wait_copy_out; by eapply fifo_waits|].
  apply fifo_pipe; [intros q Hq f; cbn; by rewrite bool_decide_eq_false_2 by congruence| |done].
  intros _. destruct (drained_ok (get_pipe w p) k Hr Hk) as [Hr' Hc]. split; [done|].
  cbn. rewrite bool_decide_eq_true_2 by done. cbn [fst snd]. by rewrite Hflow, <- app_assoc, <- Hc.
Qed.

Lemma fifo_fill p bs w : p_count (get_pipe w p) + Z.of_nat (length bs) <= LUCAS_PIPE_BUF_SIZE ->
  fifo w -> fifo (log_event (EvFill p bs) (set_pipe p (pipe_put bs (get_pipe w p)) w)).
Proof.
  intros Hlen Hf. apply fifo_pipe; [intros q Hq f; cbn; by rewrite bool_decide_eq_false_2 by congruence| |done].
  intros [Hr Hflow]. destruct (ring_put_ok (get_pipe w p) bs Hr Hlen) as [Hr' Hc]. split; [done|].
  cbn. rewrite bool_decide_eq_true_2 by done. cbn [fst snd]. by rewrite Hflow, Hc, app_assoc.
Qed.

Lemma fifo_write_fill s p v n w : (p < length (w_pipes w))%nat -> fifo w -> fifo (pipe_write_fill s p v n w).1.
Proof.
  intros Hp Hf. pose proof (fifo_pipes w Hf p Hp) as [(_ & Hc & _) _].
  destruct (sotbox_get_slot w s) as [b|] eqn:Hb; [|unfold pipe_write_fill; by rewrite Hb].
  destruct (write_fill_cases s p v n w b Hb) as [->|(bs & -> & Hlen & _)]; [done|].
  apply fifo_fill; [|done]. pose proof (upto_le n (LUCAS_PIPE_BUF_SIZE - p_count (get_pipe w p))). lia.
Qed.

Lemma fifo_resume s r w : fifo w -> fifo (pipe_resume_sotbox s r w).
Proof.
  intros Hf. unfold pipe_resume_sotbox. destruct (sotbox_get_slot w s) eqn:Hb; [|done].
  apply fifo_log; [done|]. eapply fifo_slot; [exact Hb| |done]. cbn. by eapply fifo_waits.
Qed.

Lemma fifo_wake_readers_loop p slots : forall w, (p < length (w_pipes w))%nat -> fifo w -> fifo (wake_readers_loop p slots w).
Proof.
  induction slots as [|i slots IH]; intros w Hp Hf; cbn [wake_readers_loop]; [done|].
  destruct (sotbox_get_slot w i) as [b|] eqn:Hb; [|auto]. destruct (parked_on 1 p b); cbn [negb]; [|auto].
  destruct (_ >? 0).
  - pose proof (fifo_read_drain i p (waiting_pipe_buf (b_pipe_wait b)) (waiting_pipe_count (b_pipe_wait b)) w
      (fifo_waits w Hf _ _ Hb) Hp Hf) as H.
    destruct (pipe_read_drain _ _ _ _ _). by apply fifo_resume.
  - destruct (_ =? 0); [by apply fifo_resume|auto].
Qed.

Lemma fifo_wake_readers p w : (p < length (w_pipes w))%nat -> fifo w -> fifo (lucas_pipe_wake_readers p w).
Proof. apply fifo_wake_readers_loop. Qed.

Lemma fifo_wake_writers_loop p slots : forall w, (p < length (w_pipes w))%nat -> fifo w -> fifo (wake_writers_loop p slots w).
Proof.
  induction slots as [|i slots IH]; intros w Hp Hf; cbn [wake_writers_loop]; [done|].
  destruct (sotbox_get_slot w i) as [b|] eqn:Hb; [|auto]. destruct (parked_on 2 p b); cbn [negb]; [|auto].
  set (r := if p_readers_open (get_pipe w p) =? 0 then _ else _).
  assert (H : fifo r.1 /\ length (w_pipes r.1) = length (w_pipes w)).
  { subst r. destruct (_ =? 0); [done|]. split; [by apply fifo_write_fill|apply write_fill_keeps]. }
  destruct r as [w1 n]. destruct H as [H Hl].
  destruct (n >? 0); [|by apply fifo_resume].
  apply fifo_wake_readers; [|by apply fifo_resume]. rewrite (k_pipes _ _ (resume_keeps i n w1)). cbn in Hl. lia.
Qed.

Lemma fifo_wake_writers p w : (p < length (w_pipes w))%nat -> fifo w -> fifo (lucas_pipe_wake_writers p w).
Proof. apply fifo_wake_writers_loop. Qed.

Lemma fifo_check_all E w : fifo w -> fifo (iomux_check_all E w).
Proof. apply fifo_quiet, check_all_quiet. Qed.

Lemma fifo_park k st s p v n cap w : 0 <= n -> fifo w -> fifo (pipe_park k st s p v n cap w).1.
Proof.
  intros Hn Hf. unfold pipe_park. destruct cap; [|done]. destruct (sotbox_get_slot w s) eqn:Hb; [|done].
  by eapply fifo_slot.
Qed.

Lemma fifo_pipe_read s p v n cap w : 0 <= n -> (p < length (w_pipes w))%nat -> fifo w -> fifo (lucas_pipe_read s p v n cap w).1.
Proof.
  intros Hn Hp Hf. unfold lucas_pipe_read. destruct (n =? 0); [done|].
  destruct (_ >? 0); [|destruct (_ =? 0); [done|by apply fifo_park]].
  pose proof (fifo_read_drain s p v n w Hn Hp Hf). pose proof (k_pipes _ _ (read_drain_keeps s p v n w)) as Hl.
  destruct (pipe_read_drain _ _ _ _ _). apply fifo_wake_writers; [cbn in Hl; lia|done].
Qed.

Lemma fifo_pipe_write E s p v n cap w : 0 <= n -> (p < length (w_pipes w))%nat -> fifo w -> fifo (lucas_pipe_write E s p v n cap w).1.
Proof.
  intros Hn Hp Hf. unfold lucas_pipe_write. destruct (n =? 0); [done|]. destruct (_ =? 0); [done|].
  destruct (_ >? 0); [|by apply fifo_park].
  pose proof (fifo_write_fill s p v n w Hp Hf). pose proof (k_pipes _ _ (write_fill_keeps s p v n w)) as Hl.
  destruct (pipe_write_fill _ _ _ _ _). apply fifo_check_all, fifo_wake_readers; [cbn in Hl; lia|done].
Qed.

Lemma fifo_write_kbuf E p bs w : (p < length (w_pipes w))%nat -> fifo w -> fifo (lucas_pipe_write_kbuf E p bs w).1.
Proof.
  intros Hp Hf. unfold lucas_pipe_write_kbuf. destruct (_ =? 0); [done|]. destruct (_ =? 0); [done|]. cbn zeta.
  destruct (_ =? 0); [done|]. cbn [fst].
  apply fifo_check_all, fifo_wake_readers; [cbn; by rewrite length_insert|]. apply fifo_fill; [|done].
  pose proof (upto_le (Z.of_nat (length bs)) (LUCAS_PIPE_BUF_SIZE - p_count (get_pipe w p))).
  pose proof (fifo_pipes w Hf p Hp) as [(_ & Hc & _) _]. rewrite length_take. lia.
Qed.

Lemma fifo_upd p f w :
  (forall x, (p_buf (f x), p_head (f x), p_tail (f x), p_count (f x)) = (p_buf x, p_head x, p_tail x, p_count x)) ->
  fifo w -> fifo (upd_pipe p f w).
Proof. intros. by apply fifo_recount. Qed.

Lemma fifo_close_reader E p w : (p < length (w_pipes w))%nat -> fifo w -> fifo (lucas_pipe_close_reader E p w).
Proof.
  intros Hp Hf. unfold lucas_pipe_close_reader. destruct (_ <=? 0); [done|].
  set (w1 := upd_pipe _ _ w). assert (H1 : fifo w1) by (by apply fifo_upd).
  destruct (_ =? 0); [|done].
  assert (H2 : fifo (iomux_check_all E (lucas_pipe_wake_writers p w1))).
  { apply fifo_check_all, fifo_wake_writers; [|done]. subst w1. unfold upd_pipe. by rewrite length_set_pipe. }
  cbn zeta. destruct (_ =? 0); [|done]. by apply fifo_upd.
Qed.

Lemma fifo_close_writer E p w : (p < length (w_pipes w))%nat -> fifo w -> fifo (lucas_pipe_close_writer E p w).
Proof.
  intros Hp Hf. unfold lucas_pipe_close_writer. destruct (_ <=? 0); [done|].
  set (w1 := upd_pipe _ _ w). assert (H1 : fifo w1) by (by apply fifo_upd).
  destruct (_ =? 0); [|done].
  assert (H2 : fifo (iomux_check_all E (lucas_pipe_wake_readers p w1))).
  { apply fifo_check_all, fifo_wake_readers; [|done]. subst w1. unfold upd_pipe. by rewrite length_set_pipe. }
  cbn zeta. destruct (_ =? 0); [|done]. by apply fifo_upd.
Qed.
