(* ===== verification/PipeRefs.v ===== *)
(** * Open counts and descriptor tables agree

    [ends k p w] is the number of descriptors of kind [k] (the read or the write
    end) that name pipe [p], over all sotBoxes.  [refs]: no count is below it, and
    a pipe is in use exactly while one of its counts is positive.  The counts can
    be above: a pipe() that finds no descriptors and a fork that fails late do not
    give theirs back. *)

From S2P Require Import Prelude Ring ClientMem Bytepipe BoxState Iomux Pipe FdTable Console PipeSys PipeInv PipeFifo.

(** ** Sums over tables *)

Fixpoint zsum {A} (f : A -> Z) (l : list A) : Z :=
  match l with [] => 0 | x :: l => f x + zsum f l end.

Lemma zsum_insert {A} (f : A -> Z) l i x y : l !! i = Some x -> zsum f (<[i := y]> l) = zsum f l - f x + f y.
Proof.
  revert i. induction l as [|z l IH]; intros [|i]; try done.
  - cbn. intros [= ->]. lia.
  - intros H. change (f z + zsum f (<[i := y]> l) = f z + zsum f l - f x + f y). rewrite (IH i H). lia.
Qed.

Lemma zsum_nonneg {A} (f : A -> Z) l : (forall x, 0 <= f x) -> 0 <= zsum f l.
Proof. intros H. induction l as [|x l IH]; cbn; [done|]. specialize (H x). lia. Qed.

Lemma zsum_lookup {A} (f : A -> Z) l i x : (forall x, 0 <= f x) -> l !! i = Some x -> f x <= zsum f l.
Proof.
  intros Hf. revert i. induction l as [|z l IH]; intros [|i]; cbn; try done.
  - intros [= ->]. pose proof (zsum_nonneg f l Hf). lia.
  - intros H. specialize (IH i H). specialize (Hf z). lia.
Qed.

Lemma zsum_ext {A} (f g : A -> Z) l : (forall x, x ∈ l -> f x = g x) -> zsum f l = zsum g l.
Proof. intros H. induction l as [|x l IH]; cbn; [done|]. rewrite IH by set_solver. rewrite H by set_solver. done. Qed.

Lemma zsum_app {A} (f : A -> Z) l l' : zsum f (l ++ l') = zsum f l + zsum f l'.
Proof. induction l as [|x l IH]; cbn; [done|]. rewrite IH. lia. Qed.

Lemma zsum_map {A B} (f : B -> Z) (g : A -> B) l : zsum f (map g l) = zsum (fun x => f (g x)) l.
Proof. induction l as [|x l IH]; cbn; [done|]. by rewrite IH. Qed.

Lemma zsum_zero {A} (f : A -> Z) l : (forall x, x ∈ l -> f x = 0) -> zsum f l = 0.
Proof. intros H. induction l as [|x l IH]; cbn; [done|]. rewrite IH, H by set_solver. done. Qed.

(** ** Ends *)

Definition end_of (k : fd_kind) (p : nat) (e : lucas_fd) : Z := Z.b2z (bool_decide (pipe_end k e = Some p)).

Definition fd_ends (k : fd_kind) (p : nat) (fds : list lucas_fd) : Z := zsum (end_of k p) fds.

Definition box_ends (k : fd_kind) (p : nat) (o : option box) : Z :=
  match o with Some b => fd_ends k p (b_fds b) | None => 0 end.

Definition ends (k : fd_kind) (p : nat) (w : world) : Z := zsum (box_ends k p) (w_slots w).

Lemma end_of_nonneg k p e : 0 <= end_of k p e.
Proof. unfold end_of. destruct (bool_decide _); cbn; lia. Qed.

Lemma fd_ends_nonneg k p l : 0 <= fd_ends k p l.
Proof. apply zsum_nonneg, end_of_nonneg. Qed.

Lemma box_ends_nonneg k p o : 0 <= box_ends k p o.
Proof. destruct o; cbn; [apply fd_ends_nonneg|done]. Qed.

Lemma ends_nonneg k p w : 0 <= ends k p w.
Proof. apply zsum_nonneg, box_ends_nonneg. Qed.

#[export] Hint Resolve end_of_nonneg fd_ends_nonneg box_ends_nonneg ends_nonneg : pipe.

(** The open count of one kind of end. *)
Definition open_of (k : fd_kind) (x : pipe) : Z :=
  match k with FD_PIPE_READ => p_readers_open x | _ => p_writers_open x end.

Record refs (w : world) : Prop := {
  r_pipes : length (w_pipes w) = LUCAS_PIPE_POOL;
  r_slots : length (w_slots w) = SOTBOX_MAX_SLOTS;
  r_fds : forall i b, sotbox_get_slot w i = Some b -> length (b_fds b) = LUCAS_MAX_FDS;
  r_read : forall p, ends FD_PIPE_READ p w <= p_readers_open (get_pipe w p);
  r_write : forall p, ends FD_PIPE_WRITE p w <= p_writers_open (get_pipe w p);
  r_use : forall p, p_in_use (get_pipe w p) = (0 <? p_readers_open (get_pipe w p)) || (0 <? p_writers_open (get_pipe w p))
}.

Lemma get_slot_lookup w i b : sotbox_get_slot w i = Some b <-> w_slots w !! i = Some (Some b).
Proof. unfold sotbox_get_slot. destruct (w_slots w !! i) as [[]|]; cbn; naive_solver. Qed.

(** The descriptor tables are the same. *)
Definition fds_same (w w' : world) : Prop :=
  length (w_pipes w') = length (w_pipes w) /\ length (w_slots w') = length (w_slots w) /\
  forall i, option_map b_fds (sotbox_get_slot w' i) = option_map b_fds (sotbox_get_slot w i).

Lemma keeps_fds w w' : keeps w w' -> fds_same w w'.
Proof. intros []. done. Qed.

Lemma fds_same_ends w w' k p : fds_same w w' -> ends k p w' = ends k p w.
Proof.
  intros (_ & Hl & Hf). unfold ends, sotbox_get_slot in *.
  revert Hl Hf. generalize (w_slots w'), (w_slots w). intros l' l. revert l'.
  induction l as [|o l IH]; intros [|o' l'] Hl Hf; cbn in *; try done.
  f_equal; [|apply IH; [lia|intros i; apply (Hf (S i))]].
  specialize (Hf 0%nat). cbn in Hf. destruct o, o'; cbn in *; congruence.
Qed.

Lemma fds_same_len w w' : fds_same w w' ->
  (forall i b, sotbox_get_slot w i = Some b -> length (b_fds b) = LUCAS_MAX_FDS) ->
  (forall i b, sotbox_get_slot w' i = Some b -> length (b_fds b) = LUCAS_MAX_FDS).
Proof.
  intros (_ & _ & Hf) H i b Hi. specialize (Hf i). rewrite Hi in Hf. cbn in Hf.
  destruct (sotbox_get_slot w i) as [b0|] eqn:H0; [|done]. injection Hf as ->. by eapply H.
Qed.

Lemma refs_keeps w w' : keeps w w' -> refs w -> refs w'.
Proof.
  intros Hk [Hp Hs Hf Hr Hw Hu]. pose proof (keeps_fds _ _ Hk) as Hsame.
  assert (Hc : forall p, counts (get_pipe w' p) = counts (get_pipe w p)) by apply Hk.
  constructor; try (intros p; specialize (Hc p); unfold counts in Hc; injection Hc as Hc1 Hc2 Hc3).
  - rewrite (k_pipes _ _ Hk). done.
  - rewrite (k_slots _ _ Hk). done.
  - by eapply fds_same_len.
  - rewrite (fds_same_ends w w'), Hc1 by done. apply Hr.
  - rewrite (fds_same_ends w w'), Hc2 by done. apply Hw.
  - rewrite Hc1, Hc2, Hc3. apply Hu.
Qed.

(** ** Changing one descriptor *)

Lemma get_fd_lookup b i : (i < length (b_fds b))%nat -> b_fds b !! i = Some (get_fd b i).
Proof. intros. unfold get_fd. by apply array_lookup_lt. Qed.

Lemma ends_set_slot k p s b b' w : sotbox_get_slot w s = Some b ->
  ends k p (set_slot s b' w) = ends k p w - fd_ends k p (b_fds b) + fd_ends k p (b_fds b').
Proof. intros Hb%get_slot_lookup. unfold ends. cbn. by rewrite (zsum_insert _ _ _ _ _ Hb). Qed.

Lemma fd_ends_set k p b i e : (i < length (b_fds b))%nat ->
  fd_ends k p (b_fds (set_fd i e b)) = fd_ends k p (b_fds b) - end_of k p (get_fd b i) + end_of k p e.
Proof. intros Hi. unfold fd_ends. cbn. by rewrite (zsum_insert _ _ _ _ _ (get_fd_lookup b i Hi)). Qed.

Lemma ends_set_fd k p s i e b w : sotbox_get_slot w s = Some b -> (i < length (b_fds b))%nat ->
  ends k p (set_slot s (set_fd i e b) w) = ends k p w - end_of k p (get_fd b i) + end_of k p e.
Proof. intros Hb Hi. rewrite (ends_set_slot k p s b) by done. rewrite fd_ends_set by done. lia. Qed.

Lemma end_of_le k p s i b w : sotbox_get_slot w s = Some b -> (i < length (b_fds b))%nat -> end_of k p (get_fd b i) <= ends k p w.
Proof.
  intros Hb%get_slot_lookup Hi. transitivity (box_ends k p (Some b)).
  - cbn. eapply (zsum_lookup _ _ i); [apply end_of_nonneg|by apply get_fd_lookup].
  - eapply (zsum_lookup _ _ s); [apply box_ends_nonneg|done].
Qed.

(** An end that is open names a pipe of the pool that is in use. *)
Lemma end_open k p s i b w : refs w -> k = FD_PIPE_READ \/ k = FD_PIPE_WRITE ->
  sotbox_get_slot w s = Some b -> (i < length (b_fds b))%nat -> pipe_end k (get_fd b i) = Some p ->
  (p < LUCAS_PIPE_POOL)%nat /\ 0 < open_of k (get_pipe w p) /\ p_in_use (get_pipe w p) = true.
Proof.
  intros Hr Hk Hb Hi He. pose proof (end_of_le k p s i b w Hb Hi) as Hle.
  unfold end_of in Hle. rewrite bool_decide_eq_true_2 in Hle by done. cbn in Hle.
  assert (Ho : 0 < open_of k (get_pipe w p)).
  { destruct Hk as [-> | ->]; cbn; [pose proof (r_read w Hr p)|pose proof (r_write w Hr p)]; lia. }
  split; [|split; [done|]].
  - destruct (decide (p < LUCAS_PIPE_POOL)%nat); [done|]. unfold get_pipe in Ho.
    rewrite lookup_ge_None_2 in Ho by (rewrite (r_pipes w Hr); lia). by destruct Hk as [-> | ->].
  - rewrite (r_use w Hr). destruct Hk as [-> | ->]; cbn in Ho.
    + by rewrite (proj2 (Z.ltb_lt _ _)) by lia.
    + rewrite orb_comm. by rewrite (proj2 (Z.ltb_lt _ _)) by lia.
Qed.

(** What a change of counts and of one descriptor together must satisfy. *)
Lemma refs_change w w' :
  length (w_pipes w') = LUCAS_PIPE_POOL -> length (w_slots w') = SOTBOX_MAX_SLOTS ->
  (forall i b, sotbox_get_slot w' i = Some b -> length (b_fds b) = LUCAS_MAX_FDS) ->
  (forall p, p_readers_open (get_pipe w' p) - p_readers_open (get_pipe w p) >= ends FD_PIPE_READ p w' - ends FD_PIPE_READ p w) ->
  (forall p, p_writers_open (get_pipe w' p) - p_writers_open (get_pipe w p) >= ends FD_PIPE_WRITE p w' - ends FD_PIPE_WRITE p w) ->
  (forall p, p_in_use (get_pipe w' p) = (0 <? p_readers_open (get_pipe w' p)) || (0 <? p_writers_open (get_pipe w' p))) ->
  refs w -> refs w'.
Proof.
  intros H1 H2 H3 H4 H5 H6 [_ _ _ Hr Hw _]. constructor; try done; intros p.
  - specialize (H4 p). specialize (Hr p). lia.
  - specialize (H5 p). specialize (Hw p). lia.
Qed.

(** A descriptor replaced by one with the same ends. *)
Lemma refs_set_box s b b' w : sotbox_get_slot w s = Some b -> length (b_fds b') = LUCAS_MAX_FDS ->
  (forall k p, k = FD_PIPE_READ \/ k = FD_PIPE_WRITE -> fd_ends k p (b_fds b') <= fd_ends k p (b_fds b)) ->
  refs w -> refs (set_slot s b' w).
Proof.
  intros Hb Hl He Hr. apply (refs_change w); try done; try apply Hr.
  - by rewrite length_set_slot, (r_slots w Hr).
  - intros i x. rewrite slot_set by done. case_bool_decide; [by intros [= <-]|by apply Hr].
  - intros p. rewrite (ends_set_slot _ _ s b) by done. specialize (He FD_PIPE_READ p ltac:(auto)).
    change (get_pipe (set_slot s b' w) p) with (get_pipe w p). lia.
  - intros p. rewrite (ends_set_slot _ _ s b) by done. specialize (He FD_PIPE_WRITE p ltac:(auto)).
    change (get_pipe (set_slot s b' w) p) with (get_pipe w p). lia.
Qed.

(** ** Closing and copying one end *)

(** [r_use] alone, for the states between two changes. *)
Definition use_ok (w : world) : Prop :=
  forall p, 0 <= p_readers_open (get_pipe w p) /\ 0 <= p_writers_open (get_pipe w p) /\
    p_in_use (get_pipe w p) = (0 <? p_readers_open (get_pipe w p)) || (0 <? p_writers_open (get_pipe w p)).

Lemma refs_use w : refs w -> use_ok w.
Proof.
  intros H p. pose proof (r_read w H p). pose proof (r_write w H p). pose proof (ends_nonneg FD_PIPE_READ p w).
  pose proof (ends_nonneg FD_PIPE_WRITE p w). split; [lia|]. split; [lia|]. apply H.
Qed.

Lemma fds_same_refl w : fds_same w w.
Proof. done. Qed.

Lemma fds_same_trans u v w : fds_same u v -> fds_same v w -> fds_same u w.
Proof. intros (H1 & H2 & H3) (K1 & K2 & K3). split_and!; [congruence..|]. intros. by rewrite K3. Qed.

Lemma upd_pipe_fds p f w : fds_same w (upd_pipe p f w).
Proof. split_and!; [apply length_set_pipe|done|done]. Qed.

Lemma get_upd_pipe p f w q : (p < length (w_pipes w))%nat ->
  get_pipe (upd_pipe p f w) q = if bool_decide (q = p) then f (get_pipe w p) else get_pipe w q.
Proof.
  intros. unfold upd_pipe. rewrite get_pipe_set. repeat case_bool_decide; naive_solver.
Qed.

(** The end of a close: the waiters were told, and the pipe goes back to the pool
    when [last]. *)
Lemma close_finish p w1 w2 (last : bool) : (p < length (w_pipes w1))%nat -> keeps w1 w2 ->
  let w3 := if last then upd_pipe p (set_p_in_use false) w2 else w2 in
  fds_same w1 w3 /\
  forall q, counts (get_pipe w3 q)
    = if bool_decide (q = p) && last
      then (p_readers_open (get_pipe w1 p), p_writers_open (get_pipe w1 p), false) else counts (get_pipe w1 q).
Proof.
  intros Hp Hk w3. subst w3. pose proof (keeps_fds _ _ Hk) as Hs. destruct last.
  - split; [eapply fds_same_trans; [exact Hs|apply upd_pipe_fds]|]. intros q.
    rewrite get_upd_pipe by (rewrite (k_pipes _ _ Hk); done). rewrite andb_true_r.
    case_bool_decide as Hq; [|apply Hk].
    pose proof (k_counts _ _ Hk p) as Hc. unfold counts in *. cbn [p_readers_open p_writers_open p_in_use set_p_in_use].
    injection Hc as -> -> _. done.
  - split; [done|]. intros q. rewrite andb_false_r. apply Hk.
Qed.

(** The counts of every pipe after [lucas_pipe_close_reader]. *)
Definition closed_reader (x : pipe) : Z * Z * bool :=
  (p_readers_open x - 1, p_writers_open x,
   if (p_readers_open x =? 1) && (p_writers_open x =? 0) then false else p_in_use x).

Lemma close_reader_spec E p w : (p < length (w_pipes w))%nat -> 0 < p_readers_open (get_pipe w p) ->
  fds_same w (lucas_pipe_close_reader E p w) /\
  forall q, counts (get_pipe (lucas_pipe_close_reader E p w) q)
    = if bool_decide (q = p) then closed_reader (get_pipe w p) else counts (get_pipe w q).
Proof.
  intros Hp Ho. unfold lucas_pipe_close_reader. rewrite (proj2 (Z.leb_gt _ _)) by lia. cbn zeta.
  pose proof (upd_pipe_fds p (fun x => set_p_readers_open (p_readers_open x - 1) x) w) as Hs1.
  pose proof (fun q => get_upd_pipe p (fun x => set_p_readers_open (p_readers_open x - 1) x) w q Hp) as Hg1.
  revert Hs1 Hg1. generalize (upd_pipe p (fun x => set_p_readers_open (p_readers_open x - 1) x) w). intros w1 Hs1 Hg1.
  pose proof (Hg1 p) as Hgp. rewrite bool_decide_eq_true_2 in Hgp by done.
  assert (Hk : keeps w1 (iomux_check_all E (lucas_pipe_wake_writers p w1)))
    by (eapply world_keeps_trans; [apply wake_writers_keeps|apply check_all_keeps]).
  revert Hk. generalize (iomux_check_all E (lucas_pipe_wake_writers p w1)). intros w2 Hk.
  assert (Hp1 : (p < length (w_pipes w1))%nat) by (destruct Hs1 as (-> & _ & _); done).
  pose proof (close_finish p w1 w2 (p_writers_open (get_pipe w2 p) =? 0) Hp1 Hk) as [Hs3 Hc3]. cbn zeta in *.
  pose proof (k_counts _ _ Hk p) as Hcp. rewrite Hgp in Hcp. injection Hcp as Hr2 Hw2 Hu2.
  rewrite Hgp in *. cbn [p_readers_open p_writers_open p_in_use set_p_readers_open] in *. rewrite Hw2 in *.
  unfold closed_reader.
  destruct (Z.eqb_spec (p_readers_open (get_pipe w p) - 1) 0) as [Hz|Hz].
  - split; [by eapply fds_same_trans|]. intros q. rewrite Hc3, Hg1.
    rewrite (proj2 (Z.eqb_eq (p_readers_open (get_pipe w p)) 1)) by lia.
    case_bool_decide; [|done]. cbn [andb]. by destruct (_ =? 0).
  - split; [done|]. intros q. rewrite Hg1. case_bool_decide; [|done].
    by rewrite (proj2 (Z.eqb_neq (p_readers_open (get_pipe w p)) 1)) by lia.
Qed.

Definition closed_writer (x : pipe) : Z * Z * bool :=
  (p_readers_open x, p_writers_open x - 1,
   if (p_writers_open x =? 1) && (p_readers_open x =? 0) then false else p_in_use x).

Lemma close_writer_spec E p w : (p < length (w_pipes w))%nat -> 0 < p_writers_open (get_pipe w p) ->
  fds_same w (lucas_pipe_close_writer E p w) /\
  forall q, counts (get_pipe (lucas_pipe_close_writer E p w) q)
    = if bool_decide (q = p) then closed_writer (get_pipe w p) else counts (get_pipe w q).
Proof.
  intros Hp Ho. unfold lucas_pipe_close_writer. rewrite (proj2 (Z.leb_gt _ _)) by lia. cbn zeta.
  pose proof (upd_pipe_fds p (fun x => set_p_writers_open (p_writers_open x - 1) x) w) as Hs1.
  pose proof (fun q => get_upd_pipe p (fun x => set_p_writers_open (p_writers_open x - 1) x) w q Hp) as Hg1.
  revert Hs1 Hg1. generalize (upd_pipe p (fun x => set_p_writers_open (p_writers_open x - 1) x) w). intros w1 Hs1 Hg1.
  pose proof (Hg1 p) as Hgp. rewrite bool_decide_eq_true_2 in Hgp by done.
  assert (Hk : keeps w1 (iomux_check_all E (lucas_pipe_wake_readers p w1)))
    by (eapply world_keeps_trans; [apply wake_readers_keeps|apply check_all_keeps]).
  revert Hk. generalize (iomux_check_all E (lucas_pipe_wake_readers p w1)). intros w2 Hk.
  assert (Hp1 : (p < length (w_pipes w1))%nat) by (destruct Hs1 as (-> & _ & _); done).
  pose proof (close_finish p w1 w2 (p_readers_open (get_pipe w2 p) =? 0) Hp1 Hk) as [Hs3 Hc3]. cbn zeta in *.
  pose proof (k_counts _ _ Hk p) as Hcp. rewrite Hgp in Hcp. injection Hcp as Hr2 Hw2 Hu2.
  rewrite Hgp in *. cbn [p_readers_open p_writers_open p_in_use set_p_writers_open] in *. rewrite Hr2 in *.
  unfold closed_writer.
  destruct (Z.eqb_spec (p_writers_open (get_pipe w p) - 1) 0) as [Hz|Hz].
  - split; [by eapply fds_same_trans|]. intros q. rewrite Hc3, Hg1.
    rewrite (proj2 (Z.eqb_eq (p_writers_open (get_pipe w p)) 1)) by lia.
    case_bool_decide; [|done]. cbn [andb]. by destruct (_ =? 0).
  - split; [done|]. intros q. rewrite Hg1. case_bool_decide; [|done].
    by rewrite (proj2 (Z.eqb_neq (p_writers_open (get_pipe w p)) 1)) by lia.
Qed.

(** The ends of [e] are open. *)
Definition end_is_open (e : lucas_fd) (w : world) : Prop :=
  forall k p, k = FD_PIPE_READ \/ k = FD_PIPE_WRITE -> pipe_end k e = Some p ->
    (p < length (w_pipes w))%nat /\ 0 < open_of k (get_pipe w p).

Lemma pipe_end_one e p q : pipe_end FD_PIPE_READ e = Some p -> pipe_end FD_PIPE_WRITE e = Some q -> False.
Proof. unfold pipe_end. repeat case_bool_decide; congruence. Qed.

Lemma end_of_at k p e q : pipe_end k e = Some p -> end_of k q e = Z.b2z (bool_decide (q = p)).
Proof. intros H. unfold end_of. rewrite H. f_equal. apply bool_decide_ext. naive_solver. Qed.

Lemma end_of_none k q e : pipe_end k e = None -> end_of k q e = 0.
Proof. intros H. unfold end_of. by rewrite H. Qed.

Lemma close_end_spec E e w : end_is_open e w -> use_ok w ->
  fds_same w (close_end E e w) /\ use_ok (close_end E e w) /\
  forall q, p_readers_open (get_pipe (close_end E e w) q) = p_readers_open (get_pipe w q) - end_of FD_PIPE_READ q e /\
            p_writers_open (get_pipe (close_end E e w) q) = p_writers_open (get_pipe w q) - end_of FD_PIPE_WRITE q e.
Proof.
  intros Ho Hu. unfold close_end.
  destruct (pipe_end FD_PIPE_READ e) as [p|] eqn:Er.
  - destruct (Ho FD_PIPE_READ p ltac:(auto) Er) as [Hp Hpos]. cbn in Hpos.
    destruct (close_reader_spec E p w Hp Hpos) as [Hs Hc]. split; [done|].
    assert (Ew : pipe_end FD_PIPE_WRITE e = None) by (destruct (pipe_end FD_PIPE_WRITE e) eqn:?; [by edestruct pipe_end_one|done]).
    assert (Hq : forall q, counts (get_pipe (lucas_pipe_close_reader E p w) q)
      = (p_readers_open (get_pipe w q) - end_of FD_PIPE_READ q e, p_writers_open (get_pipe w q),
         (0 <? p_readers_open (get_pipe w q) - end_of FD_PIPE_READ q e) || (0 <? p_writers_open (get_pipe w q)))).
    { intros q. rewrite Hc, (end_of_at _ _ _ _ Er). destruct (Hu q) as (Hn1 & Hn2 & Huse). case_bool_decide as Hqp; cbn [Z.b2z].
      - subst q. unfold closed_reader. f_equal. rewrite Huse.
        destruct (Z.eqb_spec (p_readers_open (get_pipe w p)) 1) as [H1|H1];
          destruct (Z.eqb_spec (p_writers_open (get_pipe w p)) 0) as [H2|H2]; cbn [andb]; lia.
      - unfold counts. rewrite Huse, Z.sub_0_r. done. }
    split; intros q; specialize (Hq q); unfold counts in Hq; injection Hq as H1 H2 H3.
    + rewrite H1, H2, H3. destruct (Hu q) as (Hn1 & Hn2 & _). rewrite (end_of_at _ _ _ _ Er). case_bool_decide; subst; cbn; split_and!; done || lia.
    + rewrite H1, H2, (end_of_none _ _ _ Ew). lia.
  - rewrite ?(end_of_none FD_PIPE_READ _ _ Er). destruct (pipe_end FD_PIPE_WRITE e) as [p|] eqn:Ew.
    + destruct (Ho FD_PIPE_WRITE p ltac:(auto) Ew) as [Hp Hpos]. cbn in Hpos.
      destruct (close_writer_spec E p w Hp Hpos) as [Hs Hc]. split; [done|].
      assert (Hq : forall q, counts (get_pipe (lucas_pipe_close_writer E p w) q)
        = (p_readers_open (get_pipe w q), p_writers_open (get_pipe w q) - end_of FD_PIPE_WRITE q e,
           (0 <? p_readers_open (get_pipe w q)) || (0 <? p_writers_open (get_pipe w q) - end_of FD_PIPE_WRITE q e))).
      { intros q. rewrite Hc, (end_of_at _ _ _ _ Ew). destruct (Hu q) as (Hn1 & Hn2 & Huse). case_bool_decide as Hqp; cbn [Z.b2z].
        - subst q. unfold closed_writer. f_equal. rewrite Huse.
          destruct (Z.eqb_spec (p_writers_open (get_pipe w p)) 1) as [H1|H1];
            destruct (Z.eqb_spec (p_readers_open (get_pipe w p)) 0) as [H2|H2]; cbn [andb]; lia.
        - unfold counts. rewrite Huse, Z.sub_0_r. done. }
      split; intros q; specialize (Hq q); unfold counts in Hq; injection Hq as H1 H2 H3.
      * rewrite H1, H2, H3. destruct (Hu q) as (Hn1 & Hn2 & _). rewrite (end_of_at _ _ _ _ Ew). case_bool_decide; subst; cbn; split_and!; done || lia.
      * rewrite H1, H2, (end_of_none _ _ _ Er). lia.
    + split; [done|]. split; [done|]. intros q. rewrite !end_of_none by done. lia.
Qed.

Lemma add_end_spec e w : end_is_open e w -> use_ok w ->
  fds_same w (add_end e w) /\ use_ok (add_end e w) /\
  forall q, p_readers_open (get_pipe (add_end e w) q) = p_readers_open (get_pipe w q) + end_of FD_PIPE_READ q e /\
            p_writers_open (get_pipe (add_end e w) q) = p_writers_open (get_pipe w q) + end_of FD_PIPE_WRITE q e.
Proof.
  intros Ho Hu. unfold add_end.
  destruct (pipe_end FD_PIPE_READ e) as [p|] eqn:Er; [|destruct (pipe_end FD_PIPE_WRITE e) as [p|] eqn:Ew].
  - destruct (Ho FD_PIPE_READ p ltac:(auto) Er) as [Hp Hpos]. cbn in Hpos.
    assert (Ew : pipe_end FD_PIPE_WRITE e = None) by (destruct (pipe_end FD_PIPE_WRITE e) eqn:?; [by edestruct pipe_end_one|done]).
    split; [apply upd_pipe_fds|]. unfold lucas_pipe_add_reader.
    split; intros q; rewrite get_upd_pipe by done; [destruct (Hu q) as (H1 & H2 & H3)|rewrite (end_of_at _ _ _ _ Er), (end_of_none _ _ _ Ew)];
      case_bool_decide; subst; cbn; try lia; try done.
    rewrite H3. split_and!; lia.
  - destruct (Ho FD_PIPE_WRITE p ltac:(auto) Ew) as [Hp Hpos]. cbn in Hpos.
    split; [apply upd_pipe_fds|]. unfold lucas_pipe_add_writer.
    split; intros q; rewrite get_upd_pipe by done; [destruct (Hu q) as (H1 & H2 & H3)|rewrite (end_of_at _ _ _ _ Ew), (end_of_none _ _ _ Er)];
      case_bool_decide; subst; cbn; try lia; try done.
    rewrite H3. split_and!; lia.
  - split; [done|]. split; [done|]. intros q. rewrite !end_of_none by done. lia.
Qed.

(** ** The system invariant *)

Definition inv (w : world) : Prop := fifo w /\ refs w.

(** No pipe end. *)
Definition no_end (e : lucas_fd) : Prop := f_kind e <> FD_PIPE_READ /\ f_kind e <> FD_PIPE_WRITE.

Lemma no_end_of k p e : k = FD_PIPE_READ \/ k = FD_PIPE_WRITE -> no_end e -> end_of k p e = 0.
Proof. intros Hk [H1 H2]. apply end_of_none. unfold pipe_end. case_bool_decide; [|done]. destruct Hk; congruence. Qed.

Lemma open_entry w s b i : refs w -> sotbox_get_slot w s = Some b -> (i < LUCAS_MAX_FDS)%nat -> end_is_open (get_fd b i) w.
Proof.
  intros Hr Hb Hi k p Hk He. rewrite (r_pipes w Hr).
  destruct (end_open k p s i b w Hr Hk Hb) as (H1 & H2 & _); [by rewrite (r_fds w Hr s b Hb)|done|done].
Qed.

Lemma inv_keeps w w' : fifo w' -> keeps w w' -> inv w -> inv w'.
Proof. intros Hf Hk [_ Hr]. split; [done|]. by eapply refs_keeps. Qed.

Lemma inv_log e w : no_transfer e -> inv w -> inv (log_event e w).
Proof. intros He Hi. eapply inv_keeps; [by apply fifo_log, Hi|apply keeps_log|done]. Qed.

Lemma inv_set_slot s b b' w : sotbox_get_slot w s = Some b -> b_fds b' = b_fds b -> 0 <= waiting_pipe_count (b_pipe_wait b') ->
  inv w -> inv (set_slot s b' w).
Proof. intros Hb Hf Hc Hi. eapply inv_keeps; [eapply fifo_slot; [exact Hb|done|exact (proj1 Hi)]|by eapply keeps_set_slot|done]. Qed.

Lemma upd_box_eq s f w b : sotbox_get_slot w s = Some b -> upd_box s f w = set_slot s (f b) w.
Proof. intros Hb. unfold upd_box. by rewrite (box_at_Some _ _ _ Hb). Qed.

Lemma fds_same_slot w w' s b : fds_same w w' -> sotbox_get_slot w s = Some b ->
  exists b', sotbox_get_slot w' s = Some b' /\ b_fds b' = b_fds b.
Proof.
  intros (_ & _ & H) Hb. specialize (H s). rewrite Hb in H. cbn in H.
  destruct (sotbox_get_slot w' s) as [b'|]; [|done]. injection H as H. by exists b'.
Qed.

(** Counts and one descriptor change together: [w1] has the tables of [w] and the
    counts shifted by [d]. *)
Lemma inv_replace s fd e' w w1 b (d : fd_kind -> nat -> Z) :
  refs w -> sotbox_get_slot w s = Some b -> (fd < LUCAS_MAX_FDS)%nat ->
  fifo w1 -> fds_same w w1 -> use_ok w1 ->
  (forall q, p_readers_open (get_pipe w1 q) = p_readers_open (get_pipe w q) + d FD_PIPE_READ q /\
             p_writers_open (get_pipe w1 q) = p_writers_open (get_pipe w q) + d FD_PIPE_WRITE q) ->
  (forall k q, k = FD_PIPE_READ \/ k = FD_PIPE_WRITE -> end_of k q e' - end_of k q (get_fd b fd) <= d k q) ->
  inv (upd_box s (set_fd fd e') w1).
Proof.
  intros Hr Hb Hfd Hf Hs Hu Hd He. destruct (fds_same_slot _ _ _ _ Hs Hb) as (b1 & Hb1 & Hfds).
  rewrite (upd_box_eq _ _ _ _ Hb1).
  assert (Hl : length (b_fds b1) = LUCAS_MAX_FDS) by (rewrite Hfds; by eapply r_fds).
  assert (Hg : get_fd b1 fd = get_fd b fd) by (unfold get_fd; by rewrite Hfds).
  split; [eapply fifo_slot; [exact Hb1|exact (fifo_waits w1 Hf s b1 Hb1)|done]|].
  pose proof Hs as (Hlp & Hls & _).
  apply (refs_change w); try done.
  - cbn. rewrite Hlp. apply Hr.
  - rewrite length_set_slot, Hls. apply Hr.
  - intros i x. rewrite slot_set by done. case_bool_decide.
    + intros [= <-]. cbn. by rewrite length_insert.
    + apply (fds_same_len _ _ Hs). apply Hr.
  - intros p. rewrite (ends_set_fd _ _ s fd _ b1), Hg by (done || lia). rewrite (fds_same_ends _ _ _ _ Hs).
    change (get_pipe (set_slot s (set_fd fd e' b1) w1) p) with (get_pipe w1 p).
    destruct (Hd p) as [-> _]. specialize (He FD_PIPE_READ p ltac:(auto)). lia.
  - intros p. rewrite (ends_set_fd _ _ s fd _ b1), Hg by (done || lia). rewrite (fds_same_ends _ _ _ _ Hs).
    change (get_pipe (set_slot s (set_fd fd e' b1) w1) p) with (get_pipe w1 p).
    destruct (Hd p) as [_ ->]. specialize (He FD_PIPE_WRITE p ltac:(auto)). lia.
  - intros p. change (get_pipe (set_slot s (set_fd fd e' b1) w1) p) with (get_pipe w1 p). apply Hu.
Qed.

Lemma fifo_close_end E e w : end_is_open e w -> fifo w -> fifo (close_end E e w).
Proof.
  intros Ho Hf. unfold close_end. destruct (pipe_end FD_PIPE_READ e) as [p|] eqn:Er.
  - apply fifo_close_reader; [|done]. by apply (Ho FD_PIPE_READ); [auto|].
  - destruct (pipe_end FD_PIPE_WRITE e) as [p|] eqn:Ew; [|done].
    apply fifo_close_writer; [|done]. by apply (Ho FD_PIPE_WRITE); [auto|].
Qed.

Lemma fifo_add_end e w : fifo w -> fifo (add_end e w).
Proof.
  intros Hf. unfold add_end. destruct (pipe_end FD_PIPE_READ e); [by apply fifo_upd|].
  destruct (pipe_end FD_PIPE_WRITE e); [by apply fifo_upd|done].
Qed.

(** A descriptor is closed and its entry overwritten with one that is no end. *)
Lemma inv_close_entry E s fd e' w b : inv w -> sotbox_get_slot w s = Some b -> (fd < LUCAS_MAX_FDS)%nat -> no_end e' ->
  inv (upd_box s (set_fd fd e') (close_end E (get_fd b fd) w)).
Proof.
  intros [Hf Hr] Hb Hfd He. pose proof (open_entry _ _ _ _ Hr Hb Hfd) as Ho.
  destruct (close_end_spec E _ w Ho (refs_use w Hr)) as (Hs & Hu & Hc).
  apply (inv_replace s fd e' w _ b (fun k q => - end_of k q (get_fd b fd))); try done.
  - by apply fifo_close_end.
  - intros k q Hk. rewrite (no_end_of k q e') by done. lia.
Qed.

(** A descriptor that is no end is overwritten with one that is none. *)
Lemma inv_set_fd s fd e' w b : inv w -> sotbox_get_slot w s = Some b -> (fd < LUCAS_MAX_FDS)%nat ->
  (forall k p, k = FD_PIPE_READ \/ k = FD_PIPE_WRITE -> end_of k p e' <= end_of k p (get_fd b fd)) ->
  inv (upd_box s (set_fd fd e') w).
Proof.
  intros [Hf Hr] Hb Hfd He.
  apply (inv_replace s fd e' w w b (fun k q => 0)); try done; [by apply refs_use|intros; lia|].
  intros k q Hk. specialize (He k q Hk). lia.
Qed.
