(* ===== verification/PipeOps.v ===== *)
(** * Every call preserves the invariant of the pipes

    One lemma per operation of [PipeSys.exec] and per step of [PipeSys.step]:
    delivery stays first in, first out, and the open counts keep covering the
    descriptor tables. *)

From S2P Require Import Prelude Ring ClientMem Bytepipe BoxState Iomux Pipe FdTable Console PipeSys PipeInv PipeFifo PipeRefs.

(** ** Calls that leave the descriptors alone *)

Definition calm (b b' : box) : Prop := b_fds b' = b_fds b /\ b_pipe_wait b' = b_pipe_wait b.

Lemma box_calm_refl b : calm b b.
Proof. done. Qed.

Lemma box_calm_trans a b c : calm a b -> calm b c -> calm a c.
Proof. unfold calm. intros [-> ->] [-> ->]. done. Qed.

Lemma only_mem_calm b b' : only_mem b b' -> calm b b'.
Proof. unfold only_mem, calm. by intros ->. Qed.

#[export] Hint Resolve box_calm_refl only_mem_calm poll_scan_only_mem select_scan_only_mem drain_ready_only_mem : pipe.

Lemma inv_calm s b b' w : sotbox_get_slot w s = Some b -> calm b b' -> inv w -> inv (set_slot s b' w).
Proof.
  intros Hb [Hf Hp] Hi. eapply inv_set_slot; [exact Hb|done| |done]. rewrite Hp. by eapply fifo_waits; [apply Hi|].
Qed.

Lemma epoll_park_calm cap a v m b : calm b (epoll_park cap a v m b).1.
Proof. by destruct cap. Qed.

Lemma poll_park_calm cap v n b : calm b (poll_park cap v n b).1.
Proof. by destruct cap. Qed.

Lemma select_park_calm cap n r w e o b : calm b (select_park cap n r w e o b).1.
Proof. by destruct cap. Qed.

Lemma console_park_calm f a sv rec b : calm b (console_park f a sv rec b).1.
Proof. unfold console_park. destruct (console_cslot a b); [|done]. by destruct sv. Qed.

Lemma try_park_calm park k b : (forall b, calm b (park b).1) -> (forall b, calm b (k b).1) -> calm b (try_park park k b).1.
Proof.
  intros Hp Hk. unfold try_park. specialize (Hp b). destruct (park b) as [b1 pk]. cbn in Hp.
  destruct (pk =? _); [done|]. eapply box_calm_trans; [done|apply Hk].
Qed.

Lemma epoll_wait_calm E ps cap b epfd v m t : calm b (iomux_epoll_wait E ps cap b epfd v m t).1.
Proof.
  unfold iomux_epoll_wait. destruct (epoll_slot_for_fd b epfd) as [s|]; [|done]. destruct (m <=? 0); [done|].
  pose proof (only_mem_calm _ _ (drain_ready_only_mem E ps b (Z.of_nat s) v m)) as H.
  destruct (epoll_drain_ready _ _ _ _ _ _) as [b1 got]. cbn in H.
  destruct (negb _); [done|]. destruct (t =? 0); [done|]. eapply box_calm_trans; [done|apply epoll_park_calm].
Qed.

Lemma epoll_ctl_calm b epfd o fd v : calm b (iomux_epoll_ctl b epfd o fd v).1.
Proof.
  unfold iomux_epoll_ctl. destruct (epoll_slot_for_fd b epfd); [|done]. destruct (_ || _); [done|]. cbn zeta.
  destruct (o =? _); [by destruct (ep_find _ _)|]. destruct (lucas_copy_from_client _ _ _); [|done].
  destruct (o =? _); [destruct (bool_decide _); [done|]; by destruct (_ >=? _)|].
  destruct (o =? _); [by destruct (ep_find _ _)|done].
Qed.

Lemma sys_poll_calm E E' ps res b fds n t : calm b (lucas_sys_poll E E' ps res b fds n t).1.
Proof.
  unfold lucas_sys_poll.
  pose proof (only_mem_calm _ _ (poll_scan_only_mem E ps b fds (u32 n))) as H1.
  destruct (iomux_poll_scan E ps b fds (u32 n)) as [b1 r1]. cbn in H1. destruct (negb _); [done|].
  pose proof (only_mem_calm _ _ (poll_scan_only_mem E' ps b1 fds (u32 n))) as H2.
  destruct (iomux_poll_scan E' ps b1 fds (u32 n)) as [b2 r2]. cbn in H2. destruct (negb _); [by eapply box_calm_trans|].
  eapply box_calm_trans; [exact H1|]. eapply box_calm_trans; [exact H2|].
  assert (Hk : forall b, calm b ((if (i32 t <? 0) && iomux_poll_is_stdin_block b fds (u32 n)
      then try_park (lucas_console_poll_park (pr_alloc res) (pr_saved res) fds (u32 n)) (fun b => (b, r2)) b
      else (b, r2)).1)).
  { intros b'. destruct (_ && _); [|done]. apply try_park_calm; [intros; apply console_park_calm|done]. }
  destruct (_ && _); [|apply Hk]. apply try_park_calm; [intros; apply poll_park_calm|apply Hk].
Qed.

Lemma sys_ppoll_calm E E' ps res b fds n t : calm b (lucas_sys_ppoll E E' ps res b fds n t).1.
Proof.
  unfold lucas_sys_ppoll.
  pose proof (only_mem_calm _ _ (poll_scan_only_mem E ps b fds (u32 n))) as H1.
  destruct (iomux_poll_scan E ps b fds (u32 n)) as [b1 r1]. cbn in H1. destruct (negb _); [done|].
  pose proof (only_mem_calm _ _ (poll_scan_only_mem E' ps b1 fds (u32 n))) as H2.
  destruct (iomux_poll_scan E' ps b1 fds (u32 n)) as [b2 r2]. cbn in H2. destruct (negb _); [by eapply box_calm_trans|].
  eapply box_calm_trans; [exact H1|]. eapply box_calm_trans; [exact H2|].
  destruct (_ && _); [|done]. apply try_park_calm; [intros; apply poll_park_calm|done].
Qed.

Lemma sys_select_calm E E' ps res b n r w e t : calm b (lucas_sys_select E E' ps res b n r w e t).1.
Proof.
  unfold lucas_sys_select, console_select. cbn zeta.
  set (E0 := if select_egress_write_interest b n w then E else E').
  pose proof (only_mem_calm _ _ (select_scan_only_mem E0 ps b (i32 n) r w e)) as H1.
  destruct (iomux_select_scan E0 ps b (i32 n) r w e) as [b1 r1]. cbn in H1. destruct (negb _); [done|].
  eapply box_calm_trans; [exact H1|].
  match goal with |- calm b1 (if ?c then try_park ?p ?k b1 else _).1 => assert (Hk : forall b, calm b (k b).1) end.
  { intros b'. destruct (_ && _); [|done]. apply try_park_calm; [intros; apply console_park_calm|done]. }
  destruct (_ && bool_decide _); [|apply Hk]. apply try_park_calm; [intros; apply select_park_calm|apply Hk].
Qed.

Lemma inv_on_box s f w b : sotbox_get_slot w s = Some b -> calm b (f b).1 -> inv w -> inv (on_box s f w).1.
Proof.
  intros Hb Hc Hi. unfold on_box. rewrite (box_at_Some _ _ _ Hb). destruct (f b) as [b' r]. by eapply inv_calm.
Qed.

(** The console moves no bytes through pipes and touches no descriptor. *)
Lemma quiet_set_slot s b b' w : sotbox_get_slot w s = Some b -> calm b b' -> quiet w (set_slot s b' w).
Proof.
  intros Hb [Hf Hp]. constructor; [done|done|apply length_set_slot|].
  intros i. rewrite slot_set by done. case_bool_decide; [subst; rewrite Hb; cbn; by rewrite Hf, Hp|done].
Qed.

Lemma quiet_log e w : no_transfer e -> quiet w (log_event e w).
Proof. intros He. constructor; [done| |done|done]. intros p. by apply flow_quiet. Qed.

Lemma quiet_slot w w' s b : quiet w w' -> sotbox_get_slot w s = Some b -> exists b', sotbox_get_slot w' s = Some b' /\ calm b b'.
Proof.
  intros [_ _ _ H] Hb. specialize (H s). rewrite Hb in H. cbn in H.
  destruct (sotbox_get_slot w' s) as [b'|]; [|done]. injection H as H1 H2. by exists b'.
Qed.

Lemma getbyte_quiet E s uart w b : sotbox_get_slot w s = Some b -> quiet w (lucas_console_src_getbyte E s uart w).1.1.
Proof.
  intros Hb. unfold lucas_console_src_getbyte. rewrite (box_at_Some _ _ _ Hb). cbn zeta.
  destruct (_ >? 0); [by eapply quiet_set_slot|]. destruct (behind_focus s b w); [done|].
  destruct (_ =? _); [|by destruct uart].
  destruct (bytepipe_pull _ _ _) as [[|ch [|]] rd]; [by eapply quiet_set_slot| |by eapply quiet_set_slot].
  eapply quiet_trans; [|by apply quiet_log]. by eapply quiet_set_slot.
Qed.

Lemma quiet_copy_out s w b v bs : sotbox_get_slot w s = Some b -> quiet w (set_slot s (box_copy_out b v bs).1 w).
Proof. intros. eapply quiet_set_slot; [done|]. apply only_mem_calm, copy_out_only_mem. Qed.

Lemma complete_quiet E s uart w b : sotbox_get_slot w s = Some b -> quiet w (console_complete E s uart w).1.1.
Proof.
  intros Hb. unfold console_complete. rewrite (box_at_Some _ _ _ Hb). cbn zeta.
  destruct (_ =? LUCAS_CONSOLE_WAIT_POLL).
  { match goal with |- context [if ?c then (w, uart, None) else _] => destruct c; [done|] end.
    pose proof (only_mem_calm _ _ (poll_scan_only_mem E (w_pipes w) b (console_poll_fds_vaddr (b_console b)) (console_poll_nfds (b_console b)))).
    destruct (iomux_poll_scan _ _ _ _ _). by eapply quiet_set_slot. }
  destruct (_ =? LUCAS_CONSOLE_WAIT_SELECT).
  { match goal with |- context [if ?c then (w, uart, None) else _] => destruct c; [done|] end. destruct (_ =? 0); [done|].
    pose proof (quiet_copy_out s w b (console_poll_fds_vaddr (b_console b)) [1] Hb).
    by destruct (box_copy_out _ _ _). }
  pose proof (getbyte_quiet E s uart w b Hb) as Hq.
  destruct (lucas_console_src_getbyte E s uart w) as [[w1 u1] [ch|]]; cbn in Hq; [|done].
  destruct (veof s w1 ch); [done|]. destruct (quiet_slot _ _ _ _ Hq Hb) as (b1 & Hb1 & _).
  rewrite (box_at_Some _ _ _ Hb1). pose proof (quiet_copy_out s w1 b1 (console_buf_vaddr (b_console b)) [u8 ch] Hb1) as Hq2.
  destruct (box_copy_out _ _ _). cbn in *. by eapply quiet_trans.
Qed.

Lemma console_resume_quiet E slots : forall uart w, quiet w (console_resume_loop E slots uart w).1.
Proof.
  induction slots as [|s slots IH]; intros uart w; cbn [console_resume_loop]; [done|].
  destruct (sotbox_get_slot w s) as [b|] eqn:Hb; [|auto]. case_bool_decide; [auto|]. destruct (_ && _); [auto|].
  pose proof (complete_quiet E s uart w b Hb) as Hq.
  destruct (console_complete E s uart w) as [[w1 u1] [r|]]; cbn in Hq; [|by eapply quiet_trans].
  eapply quiet_trans; [exact Hq|]. eapply quiet_trans; [|apply IH].
  destruct (quiet_slot _ _ _ _ Hq Hb) as (b1 & Hb1 & _).
  unfold console_resume. rewrite (box_at_Some _ _ _ Hb1).
  eapply quiet_trans; [|by apply quiet_log]. by eapply quiet_set_slot.
Qed.

Lemma inv_quiet w w' : quiet w w' -> inv w -> inv w'.
Proof. intros Hq [Hf Hr]. split; [by eapply fifo_quiet|]. eapply refs_keeps; [by apply quiet_keeps|done]. Qed.

(** ** pipe *)

Lemma alloc_cases w :
  lucas_pipe_alloc w = (w, None) \/
  exists p, (p < LUCAS_PIPE_POOL)%nat /\ p_in_use (get_pipe w p) = false /\
    lucas_pipe_alloc w = (log_event (EvAlloc p) (set_pipe p (mk_pipe (fun _ => 0) 0 0 0 1 1 true) w), Some p).
Proof.
  unfold lucas_pipe_alloc. destruct (first_below _ _) as [p|] eqn:Hp; [|by left].
  apply first_below_Some in Hp as (Hlt & Hu & _). right. exists p. by apply negb_true_iff in Hu.
Qed.

Lemma free_counts w p : use_ok w -> p_in_use (get_pipe w p) = false ->
  p_readers_open (get_pipe w p) = 0 /\ p_writers_open (get_pipe w p) = 0.
Proof. intros Hu Hf. destruct (Hu p) as (H1 & H2 & H3). rewrite Hf in H3. lia. Qed.

Lemma fifo_alloc p w : fifo w -> fifo (log_event (EvAlloc p) (set_pipe p (mk_pipe (fun _ => 0) 0 0 0 1 1 true) w)).
Proof.
  intros Hf. apply fifo_pipe; [intros q Hq f; cbn; by rewrite bool_decide_eq_false_2 by congruence| |done].
  intros _. cbn. rewrite bool_decide_eq_true_2 by done. split; [|done]. unfold ring_ok, LUCAS_PIPE_BUF_SIZE. cbn. split_and!; done || lia.
Qed.

Lemma two_free_spec b rfd wfd : two_free_fds b = Some (rfd, wfd) ->
  (rfd < LUCAS_MAX_FDS)%nat /\ (wfd < LUCAS_MAX_FDS)%nat /\ rfd <> wfd /\
  f_kind (get_fd b rfd) = FD_INVALID /\ f_kind (get_fd b wfd) = FD_INVALID.
Proof.
  unfold two_free_fds. destruct (first_below (fd_free b) _) as [r|] eqn:Hr; [|done].
  destruct (first_below (fun i => _) _) as [v|] eqn:Hv; [|done]. intros [= -> ->].
  apply first_below_Some in Hr as (Hr1 & Hr2 & _). apply first_below_Some in Hv as (Hv1 & Hv2 & _).
  unfold fd_free in *. bool_to_prop. apply Nat.ltb_lt in H0. split_and!; try done. lia.
Qed.

Lemma end_of_made k p q e : end_of k q (make_end k p e) = Z.b2z (bool_decide (q = p)).
Proof. unfold end_of, make_end, pipe_end. cbn. rewrite (bool_decide_eq_true_2 (k = k)) by done. f_equal. apply bool_decide_ext. naive_solver. Qed.

Lemma end_of_other k k' p q e : k <> k' -> end_of k q (make_end k' p e) = 0.
Proof. intros. apply end_of_none. unfold make_end, pipe_end. cbn. by rewrite bool_decide_eq_false_2 by congruence. Qed.

Lemma get_set_fd b i j e : (i < length (b_fds b))%nat -> get_fd (set_fd i e b) j = if bool_decide (j = i) then e else get_fd b j.
Proof.
  intros. unfold get_fd, set_fd. cbn. case_bool_decide; [subst; by rewrite list_lookup_insert_eq|by rewrite list_lookup_insert_ne].
Qed.

Lemma made_ends b rfd wfd p k q : two_free_fds b = Some (rfd, wfd) -> length (b_fds b) = LUCAS_MAX_FDS ->
  k = FD_PIPE_READ \/ k = FD_PIPE_WRITE ->
  let b1 := set_fd rfd (make_end FD_PIPE_READ p (get_fd b rfd)) b in
  fd_ends k q (b_fds (set_fd wfd (make_end FD_PIPE_WRITE p (get_fd b1 wfd)) b1))
  = fd_ends k q (b_fds b) + Z.b2z (bool_decide (q = p)).
Proof.
  intros H2 Hl Hk b1. destruct (two_free_spec _ _ _ H2) as (Hr & Hw & Hne & Kr & Kw).
  assert (Hl1 : length (b_fds b1) = LUCAS_MAX_FDS) by (cbn; by rewrite length_insert).
  rewrite fd_ends_set by lia. subst b1. rewrite fd_ends_set by lia. rewrite get_set_fd by lia.
  rewrite (bool_decide_eq_false_2 (wfd = rfd)) by done.
  assert (Hnone : forall i, f_kind (get_fd b i) = FD_INVALID -> end_of k q (get_fd b i) = 0)
    by (intros i Hi; apply no_end_of; [done|split; congruence]).
  rewrite !Hnone by done. destruct Hk as [-> | ->]; rewrite end_of_made, end_of_other by done; lia.
Qed.

Lemma inv_sys_pipe s v w : inv w -> running w s -> inv (lucas_sys_pipe s v w).1.
Proof.
  intros [Hf Hr] (b & Hb & _). unfold lucas_sys_pipe.
  destruct (alloc_cases w) as [->|(p & Hp & Hfree & ->)]; [by split|].
  pose proof (refs_use w Hr) as Hu. destruct (free_counts w p Hu Hfree) as [Hr0 Hw0].
  set (w1 := log_event _ _).
  assert (Hf1 : fifo w1) by (by apply fifo_alloc).
  assert (Hb1 : sotbox_get_slot w1 s = Some b) by done.
  assert (Hg : forall q, get_pipe w1 q = if bool_decide (q = p) then mk_pipe (fun _ => 0) 0 0 0 1 1 true else get_pipe w q).
  { intros q. change (get_pipe w1 q) with (get_pipe (set_pipe p (mk_pipe (fun _ => 0) 0 0 0 1 1 true) w) q).
    rewrite get_pipe_set, (r_pipes w Hr). repeat case_bool_decide; naive_solver. }
  assert (Hl : length (w_pipes w1) = LUCAS_PIPE_POOL) by (cbn; rewrite length_insert; apply Hr).
  pose proof (r_fds w Hr s b Hb) as Hlb.
  rewrite (box_at_Some _ _ _ Hb1).
  assert (Hgen : forall b', length (b_fds b') = LUCAS_MAX_FDS -> 0 <= waiting_pipe_count (b_pipe_wait b') ->
    (forall k q, k = FD_PIPE_READ \/ k = FD_PIPE_WRITE -> fd_ends k q (b_fds b') <= fd_ends k q (b_fds b) + Z.b2z (bool_decide (q = p))) ->
    inv (set_slot s b' w1)).
  { intros b' Hlb' Hc He. split; [by eapply fifo_slot|].
    apply (refs_change w); try done; try apply Hr.
    - rewrite length_set_slot. cbn. apply Hr.
    - intros i x. rewrite slot_set by done. case_bool_decide; [by intros [= <-]|]. apply Hr.
    - intros q. change (get_pipe (set_slot s b' w1) q) with (get_pipe w1 q).
      rewrite (ends_set_slot _ _ s b) by done. change (ends FD_PIPE_READ q w1) with (ends FD_PIPE_READ q w). rewrite Hg.
      specialize (He FD_PIPE_READ q ltac:(auto)). case_bool_decide; subst; cbn in *; lia.
    - intros q. change (get_pipe (set_slot s b' w1) q) with (get_pipe w1 q).
      rewrite (ends_set_slot _ _ s b) by done. change (ends FD_PIPE_WRITE q w1) with (ends FD_PIPE_WRITE q w). rewrite Hg.
      specialize (He FD_PIPE_WRITE q ltac:(auto)). case_bool_decide; subst; cbn in *; lia.
    - intros q. change (get_pipe (set_slot s b' w1) q) with (get_pipe w1 q). rewrite Hg. case_bool_decide; [done|]. apply Hu. }
  destruct (two_free_fds b) as [[rfd wfd]|] eqn:E2.
  - cbn zeta. match goal with |- context [box_copy_out ?b2 v ?bs] =>
      pose proof (copy_out_only_mem b2 v bs) as Hm; destruct (box_copy_out b2 v bs) as [b3 ok] end.
    cbn [fst] in *. apply Hgen.
    + rewrite Hm. cbn. rewrite !length_insert. done.
    + rewrite Hm. cbn. by eapply fifo_waits.
    + intros k q Hk. rewrite Hm. pose proof (made_ends b rfd wfd p k q E2 Hlb Hk) as H. cbn zeta in H. cbn [b_fds set_b_vspace]. lia.
  - cbn [fst]. replace w1 with (set_slot s b w1).
    + apply Hgen; [done|by eapply fifo_waits|]. intros k q _. destruct (bool_decide _); cbn; lia.
    + unfold set_slot. apply get_slot_lookup in Hb1. rewrite list_insert_id by done. by destruct w1.
Qed.

(** ** read, write, sendfile *)

Lemma read_keeps s p v n cap w : keeps w (lucas_pipe_read s p v n cap w).1.
Proof.
  unfold lucas_pipe_read. destruct (n =? 0); [done|]. destruct (_ >? 0).
  - pose proof (read_drain_keeps s p v n w). destruct (pipe_read_drain _ _ _ _ _).
    eapply world_keeps_trans; [|apply wake_writers_keeps]. done.
  - destruct (_ =? 0); [done|]. unfold pipe_park. destruct cap; [|done].
    destruct (sotbox_get_slot w s) eqn:Hb; [|done]. by eapply keeps_set_slot.
Qed.

Lemma write_keeps E s p v n cap w : keeps w (lucas_pipe_write E s p v n cap w).1.
Proof.
  unfold lucas_pipe_write. destruct (n =? 0); [done|]. destruct (_ =? 0); [done|]. destruct (_ >? 0).
  - pose proof (write_fill_keeps s p v n w). destruct (pipe_write_fill _ _ _ _ _). cbn [fst] in *.
    eapply world_keeps_trans; [|apply check_all_keeps]. eapply world_keeps_trans; [|apply wake_readers_keeps]. done.
  - unfold pipe_park. destruct cap; [|done].
    destruct (sotbox_get_slot w s) eqn:Hb; [|done]. by eapply keeps_set_slot.
Qed.

Lemma write_kbuf_keeps E p bs w : keeps w (lucas_pipe_write_kbuf E p bs w).1.
Proof.
  unfold lucas_pipe_write_kbuf. destruct (_ =? 0); [done|]. destruct (_ =? 0); [done|]. cbn zeta. destruct (_ =? 0); [done|].
  cbn [fst]. eapply world_keeps_trans; [|apply check_all_keeps]. eapply world_keeps_trans; [|apply wake_readers_keeps].
  eapply world_keeps_trans; [|apply keeps_log]. apply keeps_set_pipe, pipe_put_counts.
Qed.

Lemma entry_pipe w s b fd k p : inv w -> sotbox_get_slot w s = Some b -> (fd < LUCAS_MAX_FDS)%nat ->
  k = FD_PIPE_READ \/ k = FD_PIPE_WRITE -> f_kind (get_fd b fd) = k -> f_pipe (get_fd b fd) = Some p ->
  (p < length (w_pipes w))%nat.
Proof.
  intros [_ Hr] Hb Hfd Hk Hkind Hp. apply (open_entry w s b fd Hr Hb Hfd k p Hk).
  unfold pipe_end. by rewrite bool_decide_eq_true_2.
Qed.

Lemma fd_lt fd : 0 <= fd -> (fd >=? Z.of_nat LUCAS_MAX_FDS) = false -> (Z.to_nat fd < LUCAS_MAX_FDS)%nat.
Proof. rewrite Z.geb_leb. intros H0 H%Z.leb_gt. lia. Qed.

Lemma inv_read s fd v n cap w : inv w -> running w s -> 0 <= fd -> 0 <= n ->
  inv (or_skip (sys_read_pipe s fd v n cap w) w).1.
Proof.
  intros Hi (b & Hb & _) H0 Hn. unfold sys_read_pipe. destruct (fd >=? _) eqn:Hfd; [done|].
  rewrite (box_at_Some _ _ _ Hb). apply fd_lt in Hfd; [|done]. cbn zeta.
  destruct (f_kind (get_fd b (Z.to_nat fd))) eqn:Hk; try done.
  destruct (f_pipe (get_fd b (Z.to_nat fd))) as [p|] eqn:Hp; [|done].
  destruct (_ && _); [done|]. cbn.
  eapply inv_keeps; [|apply read_keeps|done]. apply fifo_pipe_read; [done| |apply Hi]. exact (entry_pipe w s b _ FD_PIPE_READ p Hi Hb Hfd (or_introl eq_refl) Hk Hp).
Qed.

Lemma inv_write E s fd v n cap w : inv w -> running w s -> 0 <= fd -> 0 <= n ->
  inv (or_skip (sys_write_pipe E s fd v n cap w) w).1.
Proof.
  intros Hi (b & Hb & _) H0 Hn. unfold sys_write_pipe. destruct (fd >=? _) eqn:Hfd; [done|].
  rewrite (box_at_Some _ _ _ Hb). apply fd_lt in Hfd; [|done]. cbn zeta.
  destruct (f_kind (get_fd b (Z.to_nat fd))) eqn:Hk; try done.
  destruct (f_pipe (get_fd b (Z.to_nat fd))) as [p|] eqn:Hp; [|done].
  eapply inv_keeps; [|apply write_keeps|done]. apply fifo_pipe_write; [done| |apply Hi]. exact (entry_pipe w s b _ FD_PIPE_WRITE p Hi Hb Hfd (or_intror eq_refl) Hk Hp).
Qed.

(** ** close *)

Definition live (w : world) (s : nat) : Prop := is_Some (sotbox_get_slot w s).

Lemma live_set_slot w s t b : live w s -> live (set_slot t b w) s.
Proof.
  intros [x Hx]. unfold live. destruct (decide (s = t)) as [->|]; [by rewrite slot_set_eq; eauto|].
  rewrite slot_set_ne by congruence. by exists x.
Qed.

Lemma live_fds_same w w' s : fds_same w w' -> live w s -> live w' s.
Proof. intros H [b Hb]. destruct (fds_same_slot _ _ _ _ H Hb) as (b' & Hb' & _). by exists b'. Qed.

Lemma zero_fd_no_end : no_end zero_fd.
Proof. done. Qed.

Lemma vfs_close_fst E e w : (vfs_close_entry E e w).1 = w \/ exists m h, (vfs_close_entry E e w).1 = log_event (EvVfsClose m h) w.
Proof. unfold vfs_close_entry. destruct (f_mount e) as [m|]; [|by left]. destruct (vfs_close E m); [right; by eexists _, _|by left]. Qed.

Lemma inv_vfs_close E e w : inv w -> inv (vfs_close_entry E e w).1.
Proof. intros. destruct (vfs_close_fst E e w) as [->|(m & h & ->)]; [done|by apply inv_log]. Qed.

Lemma slot_vfs_close E e w s : sotbox_get_slot (vfs_close_entry E e w).1 s = sotbox_get_slot w s.
Proof. by destruct (vfs_close_fst E e w) as [->|(m & h & ->)]. Qed.

Lemma inv_clear_fd s fd w b : inv w -> sotbox_get_slot w s = Some b -> (fd < LUCAS_MAX_FDS)%nat -> inv (clear_fd s fd w).
Proof.
  intros. eapply inv_set_fd; try done. intros k p Hk. rewrite (no_end_of k p zero_fd) by done. apply end_of_nonneg.
Qed.

Lemma inv_sys_close E s fd w : inv w -> running w s -> 0 <= fd -> inv (lucas_sys_close E s fd w).1.
Proof.
  intros Hi (b & Hb & _) H0. unfold lucas_sys_close. destruct (fd >=? _) eqn:Hfd; [done|].
  apply fd_lt in Hfd; [|done]. rewrite (box_at_Some _ _ _ Hb). cbn zeta.
  set (n := Z.to_nat fd) in *. set (e := get_fd b n).
  assert (Hend : inv (clear_fd s n (close_end E e w))) by (by apply inv_close_entry).
  assert (Hdef : inv ((if f_is_std e then (clear_fd s n w, 0) else
     match f_mount e with None => (w, - LX_EBADF) | Some _ => let '(w, rc) := vfs_close_entry E e w in (clear_fd s n w, rc) end).1)).
  { destruct (f_is_std e); [by eapply inv_clear_fd|]. destruct (f_mount e); [|done].
    pose proof (inv_vfs_close E e w Hi) as H1. pose proof (slot_vfs_close E e w s) as H2.
    destruct (vfs_close_entry E e w) as [w1 rc]. cbn in *. eapply inv_clear_fd; [done|by rewrite H2|done]. }
  destruct (f_kind e); try done; cbn [fst]; try (by eapply inv_clear_fd).
  - assert (Hl : inv (log_event (EvReclockRelease s n) w)) by (by apply inv_log).
    destruct (f_lazy_pinned e); [by eapply inv_clear_fd|].
    pose proof (inv_vfs_close E e _ Hl) as H1. pose proof (slot_vfs_close E e (log_event (EvReclockRelease s n) w) s) as H2.
    destruct (vfs_close_entry E e (log_event (EvReclockRelease s n) w)) as [w1 rc]. cbn [fst] in *.
    eapply inv_clear_fd; [done|by rewrite H2|done].
  - eapply inv_clear_fd; [by apply inv_log|done|done].
Qed.

Lemma inv_close_fd_entry E s fd w : inv w -> live w s -> (fd < LUCAS_MAX_FDS)%nat ->
  inv (close_fd_entry E s fd w) /\ live (close_fd_entry E s fd w) s.
Proof.
  intros Hi [b Hb] Hfd. unfold close_fd_entry. rewrite (box_at_Some _ _ _ Hb). cbn zeta.
  set (e := get_fd b fd).
  destruct (decide (f_kind e = FD_VFS)) as [Hk|Hk].
  - rewrite Hk. pose proof (inv_vfs_close E e w Hi) as H1. pose proof (slot_vfs_close E e w s) as H2.
    rewrite Hb in H2. split; [by eapply inv_clear_fd|]. unfold clear_fd. rewrite (upd_box_eq _ _ _ _ H2). apply live_set_slot. by exists b.
  - replace (match f_kind e with FD_VFS => (vfs_close_entry E e w).1 | _ => close_end E e w end) with (close_end E e w)
      by (by destruct (f_kind e)).
    split; [by apply inv_close_entry|].
    pose proof (open_entry w s b fd (proj2 Hi) Hb Hfd) as Ho.
    destruct (close_end_spec E e w Ho (refs_use w (proj2 Hi))) as (Hs & _ & _).
    destruct (fds_same_slot _ _ _ _ Hs Hb) as (b1 & Hb1 & _). unfold clear_fd. rewrite (upd_box_eq _ _ _ _ Hb1).
    apply live_set_slot. by exists b1.
Qed.

(** A loop over descriptors keeps the invariant when its body does. *)
Lemma inv_fold (f : world -> nat -> world) s l : forall w,
  (forall w i, i ∈ l -> inv w -> live w s -> inv (f w i) /\ live (f w i) s) ->
  inv w -> live w s -> inv (fold_left f l w) /\ live (fold_left f l w) s.
Proof.
  induction l as [|i l IH]; intros w Hstep Hi Hl; [done|]. cbn [fold_left].
  destruct (Hstep w i ltac:(set_solver) Hi Hl). apply IH; [|done|done]. intros. apply Hstep; set_solver.
Qed.

Lemma elem_of_below i n m : i ∈ seq n m -> (i < n + m)%nat.
Proof. rewrite list_elem_of_In, in_seq. lia. Qed.

Lemma inv_close_all E s w : inv w -> live w s -> inv (lucas_close_all_fds E s w) /\ live (lucas_close_all_fds E s w) s.
Proof.
  intros Hi Hl. unfold lucas_close_all_fds. apply inv_fold; [|done|done].
  intros w' i Hin Hi' Hl'. apply elem_of_below in Hin. case_bool_decide; [done|]. apply inv_close_fd_entry; [done..|]. lia.
Qed.

Lemma inv_exit E s w : inv w -> running w s -> inv (exit_fds E s w).
Proof.
  intros Hi (b & Hb & _). unfold exit_fds. destruct (inv_close_all E s w Hi) as [H1 [b1 Hb1]]; [by exists b|].
  rewrite (upd_box_eq _ _ _ _ Hb1). by eapply inv_calm.
Qed.

Lemma execve_one_inv E s apt w i : inv w -> live w s -> (i < LUCAS_MAX_FDS)%nat ->
  inv (execve_close_one E s apt w i) /\ live (execve_close_one E s apt w i) s.
Proof.
  intros Hi [b Hb] Hlt. unfold execve_close_one.
  rewrite (box_at_Some _ _ _ Hb). cbn zeta. set (e := get_fd b i).
  assert (Hend : forall e', no_end e' -> inv (upd_box s (set_fd i e') (close_end E e w)) /\ live (upd_box s (set_fd i e') (close_end E e w)) s).
  { intros e' He'. split; [by apply inv_close_entry|].
    pose proof (open_entry w s b i (proj2 Hi) Hb Hlt) as Ho.
    destruct (close_end_spec E e w Ho (refs_use w (proj2 Hi))) as (Hs & _ & _).
    destruct (fds_same_slot _ _ _ _ Hs Hb) as (b1 & Hb1 & _). rewrite (upd_box_eq _ _ _ _ Hb1).
    apply live_set_slot. by exists b1. }
  assert (Hsame : inv w /\ live w s) by (split; [done|by exists b]).
  destruct (f_kind e); try done; try (destruct (_ && _); [by apply Hend|done]).
  destruct (_ || _); [|done].
  set (w1 := if _ =? 0 then w else _).
  assert (H1 : inv w1 /\ sotbox_get_slot w1 s = Some b).
  { subst w1. destruct (_ =? 0); [done|]. split; [by apply inv_vfs_close|by rewrite slot_vfs_close]. }
  destruct H1 as [H1 Hb1]. split; [|rewrite (upd_box_eq _ _ _ _ Hb1); apply live_set_slot; by exists b].
  eapply inv_set_fd; try done. intros k p Hk. rewrite no_end_of by done. apply end_of_nonneg.
Qed.

Lemma inv_execve E s apt w : inv w -> running w s -> inv (execve_close_fds E s apt w).
Proof.
  intros Hi (b & Hb & _). unfold execve_close_fds. apply (inv_fold _ s); [|done|by exists b].
  intros w' i Hin Hi' Hl'. apply execve_one_inv; [done..|]. apply elem_of_below in Hin. unfold LUCAS_MAX_FDS in *. lia.
Qed.

(** ** dup and fcntl *)

Lemma end_of_ends k p e e' : f_kind e' = f_kind e -> f_pipe e' = f_pipe e -> end_of k p e' = end_of k p e.
Proof. intros H1 H2. unfold end_of, pipe_end. by rewrite H1, H2. Qed.

Lemma dup_vfs_same E e : f_kind (dup_vfs E e) = f_kind e /\ f_pipe (dup_vfs E e) = f_pipe e.
Proof.
  unfold dup_vfs. destruct (f_kind e) eqn:Hk; try done. destruct (f_mount e) as [m|]; [|done].
  destruct (vfs_dup_handle E m) as [dup|]; [|done]. destruct (_ =? 0); [done|]. by destruct (dup _).
Qed.

Lemma add_end_set_slot e s b w : add_end e (set_slot s b w) = set_slot s b (add_end e w).
Proof. unfold add_end. by destruct (pipe_end FD_PIPE_READ e), (pipe_end FD_PIPE_WRITE e). Qed.

Lemma add_end_slot e w s : sotbox_get_slot (add_end e w) s = sotbox_get_slot w s.
Proof. unfold add_end. by destruct (pipe_end FD_PIPE_READ e), (pipe_end FD_PIPE_WRITE e). Qed.

(** The entry is written before the end is counted and again after: one write
    after the count is the same. *)
Lemma dup_commute s n d src w b : sotbox_get_slot w s = Some b ->
  upd_box s (set_fd n d) (add_end src (upd_box s (set_fd n src) w)) = upd_box s (set_fd n d) (add_end src w).
Proof.
  intros Hb. rewrite (upd_box_eq _ _ _ _ Hb), add_end_set_slot.
  assert (Hb' : sotbox_get_slot (add_end src w) s = Some b) by (by rewrite add_end_slot).
  rewrite (upd_box_eq s _ (add_end src w) b) by done.
  rewrite (upd_box_eq s _ _ (set_fd n src b)) by (apply slot_set_eq; by exists b).
  unfold set_slot. cbn. rewrite list_insert_insert_eq. unfold set_fd. cbn. rewrite list_insert_insert_eq. done.
Qed.

Lemma inv_dup s n d src w b : inv w -> sotbox_get_slot w s = Some b -> (n < LUCAS_MAX_FDS)%nat -> no_end (get_fd b n) ->
  end_is_open src w -> f_kind d = f_kind src -> f_pipe d = f_pipe src ->
  inv (upd_box s (set_fd n d) (add_end src w)).
Proof.
  intros [Hf Hr] Hb Hn Hfree Ho Hk Hp.
  destruct (add_end_spec src w Ho (refs_use w Hr)) as (Hs & Hu & Hc).
  apply (inv_replace s n d w _ b (fun k q => end_of k q src)); try done; [by apply fifo_add_end|].
  intros k q Hkk. rewrite (no_end_of k q (get_fd b n)), (end_of_ends k q src d) by done. lia.
Qed.

Lemma fd_free_no_end b i : fd_free b i = true -> no_end (get_fd b i).
Proof. unfold fd_free. intros H. bool_to_prop. split; congruence. Qed.

(** The entry [newfd] of slot [s] gets a copy [d] of [src], a copy that counts. *)
Lemma inv_dup_entry s n d src w b : inv w -> sotbox_get_slot w s = Some b -> (n < LUCAS_MAX_FDS)%nat -> no_end (get_fd b n) ->
  end_is_open src w -> f_kind d = f_kind src -> f_pipe d = f_pipe src ->
  inv (upd_box s (set_fd n d) (add_end src (upd_box s (set_fd n src) w))).
Proof. intros. rewrite (dup_commute s n d src w b) by done. by eapply inv_dup. Qed.

(** [close_fd_entry] leaves the table of the caller with that entry zeroed. *)
Lemma close_fd_entry_get E s fd w b : inv w -> sotbox_get_slot w s = Some b -> (fd < LUCAS_MAX_FDS)%nat ->
  exists b', sotbox_get_slot (close_fd_entry E s fd w) s = Some b' /\ b_fds b' = <[fd := zero_fd]> (b_fds b).
Proof.
  intros Hi Hb Hfd. unfold close_fd_entry. rewrite (box_at_Some _ _ _ Hb). cbn zeta.
  set (w1 := match f_kind (get_fd b fd) with FD_VFS => _ | _ => _ end).
  assert (Hs : fds_same w w1).
  { subst w1. destruct (close_end_spec E (get_fd b fd) w (open_entry w s b fd (proj2 Hi) Hb Hfd) (refs_use w (proj2 Hi))) as (Hs & _ & _).
    destruct (f_kind (get_fd b fd)); try done.
    destruct (vfs_close_fst E (get_fd b fd) w) as [->|(m & h & ->)]; done. }
  clearbody w1. destruct (fds_same_slot _ _ _ _ Hs Hb) as (b1 & Hb1 & Hf1).
  unfold clear_fd. rewrite (upd_box_eq _ _ _ _ Hb1). exists (set_fd fd zero_fd b1).
  split; [apply slot_set_eq; by exists b1|]. cbn. by rewrite Hf1.
Qed.

Lemma inv_dup2 E s o n w : inv w -> running w s -> 0 <= o -> 0 <= n -> inv (lucas_sys_dup2 E s o n w).1.
Proof.
  intros Hi (b & Hb & _) Ho Hn. unfold lucas_sys_dup2. destruct (_ || _) eqn:Hlt; [done|].
  apply orb_false_iff in Hlt as [Hol%fd_lt Hnl%fd_lt]; [|done..]. cbn zeta.
  destruct (fd_free (box_at w s) (Z.to_nat o)); [done|]. destruct (Z.eqb_spec o n); [done|].
  set (w1 := if fd_free _ _ then w else _).
  assert (H1 : inv w1 /\ exists b1, sotbox_get_slot w1 s = Some b1 /\ no_end (get_fd b1 (Z.to_nat n))).
  { subst w1. rewrite (box_at_Some _ _ _ Hb). destruct (fd_free b (Z.to_nat n)) eqn:Hfree.
    - split; [done|]. exists b. split; [done|]. by apply fd_free_no_end.
    - split; [by apply inv_close_fd_entry; [|exists b|]|].
      destruct (close_fd_entry_get E s (Z.to_nat n) w b Hi Hb Hnl) as (b1 & Hb1 & Hf1). exists b1. split; [done|].
      unfold get_fd. rewrite Hf1, list_lookup_insert_eq by (rewrite (r_fds w (proj2 Hi) s b Hb); done). done. }
  destruct H1 as (Hi1 & b1 & Hb1 & Hne). clearbody w1. rewrite (box_at_Some _ _ _ Hb1).
  set (src := get_fd b1 (Z.to_nat o)). destruct (dup_vfs_same E src) as [Hk Hp]. cbn [fst].
  assert (Hd : inv (upd_box s (set_fd (Z.to_nat n) (dup_vfs E src)) (add_end src (upd_box s (set_fd (Z.to_nat n) src) w1)))).
  { eapply inv_dup_entry; try done. by apply (open_entry w1 s b1); [apply Hi1|..]. }
  destruct (_ && _); [|done].
  apply (inv_log (EvUnixInherit s (Z.to_nat n))) in Hd; [|done]. exact Hd.
Qed.

Lemma inv_fcntl E s fd cmd arg w : inv w -> running w s -> 0 <= fd -> inv (or_skip (sys_fcntl_fd E s fd cmd arg w) w).1.
Proof.
  intros Hi (b & Hb & _) H0. unfold sys_fcntl_fd. destruct (fd >=? _) eqn:Hfd; [done|].
  apply fd_lt in Hfd; [|done]. rewrite (box_at_Some _ _ _ Hb). cbn zeta.
  set (n := Z.to_nat fd) in *. set (e := get_fd b n).
  assert (Hset : forall e', f_kind e' = f_kind e -> f_pipe e' = f_pipe e -> inv (upd_box s (set_fd n e') w)).
  { intros e' H1 H2. eapply inv_set_fd; try done. intros k p _. by rewrite (end_of_ends k p e e'). }
  destruct (_ && _ && _); [done|]. destruct (cmd =? 1); [done|].
  destruct (cmd =? 2); [apply Hset; by destruct (has _ _)|]. destruct (cmd =? 3); [done|].
  destruct (cmd =? 4); [by apply Hset|]. destruct (_ || _); [|done]. destruct (_ || _); [done|].
  destruct (first_below _ _) as [m|] eqn:Hm; [|done].
  apply first_below_Some in Hm as (Hml & Hmf & _). apply andb_true_iff in Hmf as [Hmf _]. cbn [or_skip default fst].
  destruct (dup_vfs_same E e) as [Hk Hp].
  eapply inv_dup_entry; try done; [by apply fd_free_no_end|by apply (open_entry w s b); [apply Hi|..]|by destruct (cmd =? 1030)..].
Qed.

(** ** fork *)

Lemma add_end_fold (f : nat -> lucas_fd) l : forall w, use_ok w -> fifo w ->
  (forall i, i ∈ l -> end_is_open (f i) w) ->
  let w' := fold_left (fun w i => add_end (f i) w) l w in
  fds_same w w' /\ use_ok w' /\ fifo w' /\
  forall q, p_readers_open (get_pipe w' q) = p_readers_open (get_pipe w q) + zsum (fun i => end_of FD_PIPE_READ q (f i)) l /\
            p_writers_open (get_pipe w' q) = p_writers_open (get_pipe w q) + zsum (fun i => end_of FD_PIPE_WRITE q (f i)) l.
Proof.
  induction l as [|i l IH]; intros w Hu Hf Ho; cbn [fold_left zsum].
  { split; [done|]. split; [done|]. split; [done|]. intros; lia. }
  destruct (add_end_spec (f i) w (Ho i ltac:(set_solver)) Hu) as (Hs & Hu1 & Hc).
  destruct (IH (add_end (f i) w) Hu1 (fifo_add_end _ _ Hf)) as (Hs' & Hu' & Hf' & Hc').
  { intros j Hj k p Hk Hp. destruct (Ho j ltac:(set_solver) k p Hk Hp) as [Hl Hpos].
    destruct Hs as (-> & _ & _). split; [done|]. destruct (Hc p) as [H1 H2].
    destruct Hk as [-> | ->]; cbn in *; [rewrite H1|rewrite H2]; pose proof (end_of_nonneg FD_PIPE_READ p (f i)); pose proof (end_of_nonneg FD_PIPE_WRITE p (f i)); lia. }
  split; [by eapply fds_same_trans|]. split; [done|]. split; [done|].
  intros q. destruct (Hc' q) as [-> ->]. destruct (Hc q) as [-> ->]. lia.
Qed.

Lemma zsum_seq {A} (f : A -> Z) (d : A) (l : list A) :
  zsum (fun i => f (l.[i, d])) (seq 0 (length l)) = zsum f l.
Proof.
  induction l as [|x l IH]; [done|]. cbn [length seq zsum]. f_equal. rewrite <- IH.
  rewrite <- seq_shift, zsum_map. done.
Qed.

Lemma slot_free_lookup w slot : sotbox_alloc_slot w = Some slot -> length (w_slots w) = SOTBOX_MAX_SLOTS -> w_slots w !! slot = Some None.
Proof.
  intros H Hl. apply first_below_Some in H as (H1 & H2 & _). apply bool_decide_eq_true in H2. unfold sotbox_get_slot in H2.
  destruct (w_slots w !! slot) as [[]|] eqn:E; [done|done|]. apply lookup_ge_None in E. lia.
Qed.

Lemma unix_inherit_eq slot child l : forall w,
  exists evs, Forall no_transfer evs /\
    fold_left (fun w i => if bool_decide (f_kind (get_fd child i) = FD_SOCKET) && f_unix_chan (get_fd child i)
                          then log_event (EvUnixInherit slot i) w else w) l w = set_w_log (w_log w ++ evs) w.
Proof.
  induction l as [|i l IH]; intros w; cbn [fold_left].
  - exists []. split; [by apply Forall_nil_2|]. rewrite app_nil_r. by destruct w.
  - destruct (_ && _); [|apply IH]. destruct (IH (log_event (EvUnixInherit slot i) w)) as (evs & He & ->).
    exists (EvUnixInherit slot i :: evs). split; [by apply Forall_cons|]. cbn. unfold log_event, set_w_log. cbn. by rewrite <- app_assoc.
Qed.

Lemma inv_logs evs : forall w, Forall no_transfer evs -> inv w -> inv (set_w_log (w_log w ++ evs) w).
Proof.
  induction evs as [|e evs IH]; intros w He Hi.
  - rewrite app_nil_r. by destruct w.
  - apply Forall_cons in He as [He Hes]. specialize (IH (log_event e w) Hes (inv_log e w He Hi)).
    unfold log_event, set_w_log in *. cbn in *. by rewrite <- app_assoc in IH.
Qed.

Lemma free_slot_alloc slot c evs w : w_slots w !! slot = Some None ->
  sotbox_free_slot slot (set_w_log evs (set_slot slot c w)) = set_w_log evs w.
Proof.
  intros H. unfold sotbox_free_slot, set_slot, set_w_slots, set_w_log. cbn. f_equal.
  rewrite list_insert_insert_eq. by apply list_insert_id.
Qed.

Lemma dup_handles_ends E b k q : fd_ends k q (b_fds (lucas_dup_vfs_handles E b)) = fd_ends k q (b_fds b).
Proof.
  unfold fd_ends. cbn. rewrite zsum_map. apply zsum_ext. intros e _. destruct (f_lazy_pinned e); [done|].
  destruct (dup_vfs_same E e). by apply end_of_ends.
Qed.

(** The ends of the parent are counted a second time. *)
Lemma inherit_spec w s b : inv w -> sotbox_get_slot w s = Some b ->
  let w1 := inherit_pipe_ends (fork_child b) w in
  fds_same w w1 /\ use_ok w1 /\ fifo w1 /\ refs w1 /\
  forall q, p_readers_open (get_pipe w1 q) = p_readers_open (get_pipe w q) + fd_ends FD_PIPE_READ q (b_fds b) /\
            p_writers_open (get_pipe w1 q) = p_writers_open (get_pipe w q) + fd_ends FD_PIPE_WRITE q (b_fds b).
Proof.
  intros [Hf Hr] Hb w1. pose proof (r_fds w Hr s b Hb) as Hl.
  destruct (add_end_fold (get_fd (fork_child b)) (seq 0 LUCAS_MAX_FDS) w (refs_use w Hr) Hf) as (Hs & Hu & Hf1 & Hc).
  { intros i Hi%elem_of_below. by apply (open_entry w s b). }
  assert (Hsum : forall k q, zsum (fun i => end_of k q (get_fd (fork_child b) i)) (seq 0 LUCAS_MAX_FDS) = fd_ends k q (b_fds b)).
  { intros k q. rewrite <- Hl. apply (zsum_seq (end_of k q) zero_fd). }
  setoid_rewrite Hsum in Hc.
  split; [exact Hs|]. split; [exact Hu|]. split; [exact Hf1|]. split; [|exact Hc].
  change (fold_left _ _ w) with w1 in Hs, Hu, Hc. clearbody w1. destruct Hs as (H1 & H2 & H3).
  assert (Hs : fds_same w w1) by done.
  apply (refs_change w); [rewrite H1; apply Hr|rewrite H2; apply Hr|by apply (fds_same_len w); [|apply Hr]| | |apply Hu|done];
    intros p; rewrite (fds_same_ends w w1) by done; destruct (Hc p) as [K1 K2]; rewrite ?K1, ?K2;
    pose proof (fd_ends_nonneg FD_PIPE_READ p (b_fds b)); pose proof (fd_ends_nonneg FD_PIPE_WRITE p (b_fds b)); lia.
Qed.

Lemma inv_add_child w w1 slot b c : refs w -> fifo w1 -> refs w1 -> fds_same w w1 -> use_ok w1 ->
  w_slots w1 !! slot = Some None -> length (b_fds c) = LUCAS_MAX_FDS -> 0 <= waiting_pipe_count (b_pipe_wait c) ->
  (forall k q, fd_ends k q (b_fds c) = fd_ends k q (b_fds b)) ->
  (forall q, p_readers_open (get_pipe w1 q) = p_readers_open (get_pipe w q) + fd_ends FD_PIPE_READ q (b_fds b) /\
             p_writers_open (get_pipe w1 q) = p_writers_open (get_pipe w q) + fd_ends FD_PIPE_WRITE q (b_fds b)) ->
  inv (set_slot slot c w1).
Proof.
  intros Hr Hf1 Hr1 Hs Hu Hslot Hl Hw He Hc.
  assert (Hget : forall i, sotbox_get_slot (set_slot slot c w1) i = if bool_decide (i = slot) then Some c else sotbox_get_slot w1 i).
  { intros i. unfold sotbox_get_slot, set_slot. cbn. case_bool_decide; [subst|by rewrite list_lookup_insert_ne].
    rewrite list_lookup_insert_eq; [done|]. by apply lookup_lt_Some in Hslot. }
  assert (Hends : forall k q, ends k q (set_slot slot c w1) = ends k q w + fd_ends k q (b_fds b)).
  { intros k q. rewrite <- (fds_same_ends w w1) by done. unfold ends. cbn. rewrite (zsum_insert _ _ _ _ _ Hslot). cbn. rewrite He. lia. }
  split.
  - constructor; [apply Hf1|]. intros i x. rewrite Hget. case_bool_decide; [by intros [= <-]|]. apply Hf1.
  - apply (refs_change w); [cbn; apply Hr1|rewrite length_set_slot; apply Hr1| | | |apply Hu|done].
    + intros i x. rewrite Hget. case_bool_decide; [by intros [= <-]|]. apply Hr1.
    + intros p. rewrite Hends. change (get_pipe (set_slot slot c w1) p) with (get_pipe w1 p). destruct (Hc p) as [-> _]. lia.
    + intros p. rewrite Hends. change (get_pipe (set_slot slot c w1) p) with (get_pipe w1 p). destruct (Hc p) as [_ ->]. lia.
Qed.

Lemma inv_fork E s out w : inv w -> running w s -> inv (sotbox_fork E s out w).1.
Proof.
  intros Hi (b & Hb & _). unfold sotbox_fork.
  destruct (inherit_spec w s b Hi Hb) as (Hs & Hu & Hf1 & Hr1 & Hc). rewrite (box_at_Some _ _ _ Hb).
  revert Hs Hu Hf1 Hr1 Hc. generalize (inherit_pipe_ends (fork_child b) w). intros w1 Hs Hu Hf1 Hr1 Hc.
  cbn zeta. assert (Hi1 : inv w1) by done. set (c := lucas_dup_vfs_handles E (fork_child b)).
  assert (Hall : forall r, inv (match sotbox_alloc_slot w1 with
    | None => (w1, -11)
    | Some slot => match r with
        | Some z => (sotbox_free_slot slot (unix_inherit_all slot c (set_slot slot c w1)), z)
        | None => (unix_inherit_all slot c (set_slot slot c w1), Z.of_nat slot + 1) end end).1).
  { intros r. destruct (sotbox_alloc_slot w1) as [slot|] eqn:Ha; [|done].
    apply slot_free_lookup in Ha; [|apply Hr1].
    unfold unix_inherit_all. destruct (unix_inherit_eq slot c (seq 0 LUCAS_MAX_FDS) (set_slot slot c w1)) as (evs & He & ->).
    change (w_log (set_slot slot c w1)) with (w_log w1). destruct r as [z|]; cbn [fst].
    - rewrite free_slot_alloc by done. by apply inv_logs.
    - apply (inv_logs evs (set_slot slot c w1)); [done|]. apply (inv_add_child w w1 slot b c); try done; [apply Hi| |].
      + subst c. cbn. rewrite length_map. by apply (r_fds w (proj2 Hi) s).
      + intros k q. subst c. by rewrite dup_handles_ends. }
  destruct out; [done|exact (Hall (Some (-11)))|exact (Hall (Some (-12)))|exact (Hall None)].
Qed.

(** ** epoll_create *)

Lemma inv_epoll_create s w : inv w -> running w s -> inv (on_box s iomux_epoll_create w).1.
Proof.
  intros Hi (b & Hb & _). unfold on_box. rewrite (box_at_Some _ _ _ Hb). unfold iomux_epoll_create.
  destruct (alloc_lucas_fd b) as [fd|] eqn:Hfd; [|by eapply inv_calm].
  unfold epoll_alloc_slot. destruct (first_below _ EPOLL_TABLE_SIZE) as [k|]; [|by eapply inv_calm].
  apply first_below_Some in Hfd as (Hfd & Hfree & _). cbn [fst].
  pose proof (r_fds w (proj2 Hi) s b Hb) as Hl.
  split; [eapply fifo_slot; [exact Hb|exact (fifo_waits w (proj1 Hi) s b Hb)|apply Hi]|].
  eapply refs_set_box; [exact Hb|cbn; by rewrite length_insert| |apply Hi].
  intros kk p Hk.
  change (b_fds _) with (b_fds (set_fd fd (set_f_kind FD_EPOLL (set_f_pipe None (set_f_mount None (set_f_handle 0 (get_fd b fd))))) b)) at 1.
  rewrite fd_ends_set by lia. rewrite (no_end_of kk p (set_f_kind _ _)) by (done || by split).
  rewrite (no_end_of kk p (get_fd b fd)) by (done || by apply fd_free_no_end). lia.
Qed.

(** ** Every step *)

Lemma inv_exec E E' s o w : inv w -> running w s -> args_ok o -> inv (exec E E' s o w).1.
Proof.
  intros Hi Hrun Ha. pose proof Hrun as (b & Hb & _). destruct o; cbn [exec args_ok] in *.
  - by apply inv_sys_pipe.
  - by apply inv_sys_pipe.
  - destruct Ha as (? & _ & ? & _). by apply inv_read.
  - destruct Ha as (? & _ & ? & _). by apply inv_write.
  - eapply inv_keeps; [|apply write_kbuf_keeps|done]. apply fifo_write_kbuf; [|apply Hi]. by rewrite (r_pipes w (proj2 Hi)).
  - by apply inv_sys_close.
  - destruct Ha. by apply inv_dup2.
  - destruct Ha. unfold lucas_sys_dup3. destruct (_ =? _); [done|]. by apply inv_dup2.
  - by apply inv_fcntl.
  - by apply inv_fork.
  - by apply inv_execve.
  - by apply inv_exit.
  - by apply inv_epoll_create.
  - eapply inv_on_box; [exact Hb|apply epoll_ctl_calm|done].
  - eapply inv_on_box; [exact Hb|apply epoll_wait_calm|done].
  - eapply inv_on_box; [exact Hb|apply sys_poll_calm|done].
  - eapply inv_on_box; [exact Hb|apply sys_ppoll_calm|done].
  - eapply inv_on_box; [exact Hb|apply sys_select_calm|done].
Qed.

Lemma no_ends_zero fds k p : k = FD_PIPE_READ \/ k = FD_PIPE_WRITE -> Forall no_end fds -> fd_ends k p fds = 0.
Proof. intros Hk H. apply zsum_zero. intros e He. apply no_end_of; [done|]. by eapply Forall_forall in H. Qed.

Lemma inv_spawn w s b : inv w -> (s < SOTBOX_MAX_SLOTS)%nat -> sotbox_get_slot w s = None -> fresh_box b -> inv (set_slot s b w).
Proof.
  intros [Hf0 Hr] Hs Hnone (_ & Hp & Hl & Hf).
  assert (Hslot : w_slots w !! s = Some None).
  { unfold sotbox_get_slot in Hnone. destruct (w_slots w !! s) as [[]|] eqn:E; [done|done|].
    apply lookup_ge_None in E. rewrite (r_slots w Hr) in E. lia. }
  assert (Hget : forall i, sotbox_get_slot (set_slot s b w) i = if bool_decide (i = s) then Some b else sotbox_get_slot w i).
  { intros i. unfold sotbox_get_slot, set_slot. cbn. case_bool_decide; [subst|by rewrite list_lookup_insert_ne].
    rewrite list_lookup_insert_eq; [done|]. by rewrite (r_slots w Hr). }
  split.
  - constructor; [apply Hf0|]. intros i x. rewrite Hget. case_bool_decide; [intros [= <-]; by rewrite Hp|]. apply Hf0.
  - apply (refs_change w); [apply Hr|rewrite length_set_slot; apply Hr| | | |apply Hr|done].
    + intros i x. rewrite Hget. case_bool_decide; [by intros [= <-]|]. apply Hr.
    + intros p. unfold ends. cbn [w_slots set_slot set_w_slots]. rewrite (zsum_insert _ _ _ _ _ Hslot). cbn [box_ends].
      rewrite no_ends_zero by auto. change (get_pipe (set_slot s b w) p) with (get_pipe w p). lia.
    + intros p. unfold ends. cbn [w_slots set_slot set_w_slots]. rewrite (zsum_insert _ _ _ _ _ Hslot). cbn [box_ends].
      rewrite no_ends_zero by auto. change (get_pipe (set_slot s b w) p) with (get_pipe w p). lia.
Qed.

Lemma inv_reap w s b : inv w -> sotbox_get_slot w s = Some b -> inv (sotbox_free_slot s w).
Proof.
  intros [Hf0 Hr] Hb. pose proof (proj1 (get_slot_lookup w s b) Hb) as Hslot.
  assert (Hget : forall i x, sotbox_get_slot (sotbox_free_slot s w) i = Some x -> sotbox_get_slot w i = Some x).
  { intros i x. unfold sotbox_get_slot, sotbox_free_slot. cbn. destruct (decide (i = s)) as [->|]; [|by rewrite list_lookup_insert_ne].
    rewrite list_lookup_insert_eq; [done|]. by apply lookup_lt_Some in Hslot. }
  split.
  - constructor; [apply Hf0|]. intros i x Hx%Hget. by eapply fifo_waits.
  - apply (refs_change w); [apply Hr|cbn; rewrite length_insert; apply Hr| | | |apply Hr|done].
    + intros i x Hx%Hget. by eapply r_fds.
    + intros p. unfold ends. cbn [w_slots sotbox_free_slot set_w_slots]. rewrite (zsum_insert _ _ _ _ _ Hslot). cbn [box_ends].
      pose proof (fd_ends_nonneg FD_PIPE_READ p (b_fds b)). change (get_pipe (sotbox_free_slot s w) p) with (get_pipe w p). lia.
    + intros p. unfold ends. cbn [w_slots sotbox_free_slot set_w_slots]. rewrite (zsum_insert _ _ _ _ _ Hslot). cbn [box_ends].
      pose proof (fd_ends_nonneg FD_PIPE_WRITE p (b_fds b)). change (get_pipe (sotbox_free_slot s w) p) with (get_pipe w p). lia.
Qed.

Lemma inv_step w w' : step w w' -> inv w -> inv w'.
Proof.
  intros [] Hi.
  - by apply inv_spawn.
  - by apply inv_exec.
  - destruct H as (b & Hb & _). rewrite (upd_box_eq _ _ _ _ Hb). by eapply inv_calm.
  - eapply inv_quiet; [apply console_resume_quiet|done].
  - eapply inv_quiet; [|done]. by constructor.
  - by eapply inv_reap.
Qed.

Lemma inv_init : inv init_world.
Proof.
  assert (Hg : forall p, get_pipe init_world p = zero_pipe).
  { intros p. unfold get_pipe, init_world. cbn [w_pipes]. destruct (replicate LUCAS_PIPE_POOL zero_pipe !! p) eqn:E; [|done].
    apply lookup_replicate in E as [-> _]. done. }
  assert (Hs : forall i, sotbox_get_slot init_world i = None).
  { intros i. unfold sotbox_get_slot, init_world. cbn [w_slots].
    destruct (replicate SOTBOX_MAX_SLOTS None !! i) eqn:E; [|done]. apply lookup_replicate in E as [-> _]. done. }
  split.
  - constructor; [|intros i b; by rewrite Hs]. intros p _. rewrite Hg. split; [|done].
    unfold ring_ok, LUCAS_PIPE_BUF_SIZE. cbn. split_and!; done || lia.
  - constructor; try done; intros; rewrite ?Hg; try done. by rewrite Hs in H.
Qed.

Lemma reach_inv w : reach w -> inv w.
Proof. induction 1 as [|w w' _ IH Hst]; [apply inv_init|by eapply inv_step]. Qed.
