(* ===== verification/PipeWait.v ===== *)
(** * No reader sleeps on data, no writer on room

    pipe.c completes the transfer of at most one parked reader and one parked
    writer per change, and says so ("one blocked reader per pipe").  Under that
    assumption ([single]) a parked reader means that the pipe is empty with a
    writer still open, and a parked writer that it is full with a reader still
    open: nobody waits for something that has happened.

    Two frames carry the proofs: [fewer] (no step but a park makes a client wait)
    and [other] (a step on pipe [p] leaves the other pipes and their waiters
    alone). *)

From S2P Require Import Prelude Ring ClientMem Bytepipe BoxState Iomux Pipe FdTable Console PipeSys PipeInv PipeFifo PipeRefs PipeOps.

(** The client in slot [i] waits on pipe [p]: kind 1 to read, 2 to write. *)
Definition parked (w : world) (k : Z) (p i : nat) : Prop :=
  exists b, sotbox_get_slot w i = Some b /\ parked_on k p b = true.

Definition single (w : world) : Prop := forall k p i j, k <> 0 -> parked w k p i -> parked w k p j -> i = j.

(** What a parked reader and a parked writer of pipe [p] imply. *)
Definition reader_blocked (w : world) (p : nat) : Prop :=
  p_count (get_pipe w p) = 0 /\ 0 < p_writers_open (get_pipe w p).
Definition writer_blocked (w : world) (p : nat) : Prop :=
  p_count (get_pipe w p) = LUCAS_PIPE_BUF_SIZE /\ 0 < p_readers_open (get_pipe w p).

Definition waits_ok (w : world) (p : nat) : Prop :=
  (forall i, parked w 1 p i -> reader_blocked w p) /\ (forall i, parked w 2 p i -> writer_blocked w p).

(** ** Frames *)

Definition fewer (w w' : world) : Prop := forall k p i, k <> 0 -> parked w' k p i -> parked w k p i.

Lemma fewer_refl w : fewer w w.
Proof. by intros k p i _ H. Qed.

Lemma fewer_trans u v w : fewer u v -> fewer v w -> fewer u w.
Proof. unfold fewer. eauto. Qed.

(** Nothing about the other pipes changes. *)
Definition other (p : nat) (w w' : world) : Prop :=
  fewer w w' /\ forall q, q <> p ->
    p_count (get_pipe w' q) = p_count (get_pipe w q) /\ counts (get_pipe w' q) = counts (get_pipe w q).

Lemma other_refl p w : other p w w.
Proof. split; [apply fewer_refl|done]. Qed.

Lemma other_trans p u v w : other p u v -> other p v w -> other p u w.
Proof.
  intros [H1 H2] [K1 K2]. split; [by eapply fewer_trans|]. intros q Hq. destruct (H2 q Hq), (K2 q Hq). split; congruence.
Qed.

Lemma other_waits p w w' q : other p w w' -> q <> p -> waits_ok w q -> waits_ok w' q.
Proof.
  intros [Hf Ho] Hq [H1 H2]. destruct (Ho q Hq) as [Hc Hn]. unfold counts in Hn. injection Hn as Hr Hw _.
  split; intros i Hi; apply Hf in Hi; try lia.
  - destruct (H1 i Hi) as [K1 K2]. unfold reader_blocked. by rewrite Hc, Hw.
  - destruct (H2 i Hi) as [K1 K2]. unfold writer_blocked. by rewrite Hc, Hr.
Qed.

Lemma parked_waits k p i w w' :
  option_map b_pipe_wait (sotbox_get_slot w' i) = option_map b_pipe_wait (sotbox_get_slot w i) ->
  parked w' k p i -> parked w k p i.
Proof.
  intros H (b & Hb & Hp). rewrite Hb in H. cbn in H. destruct (sotbox_get_slot w i) as [b0|] eqn:H0; [|done].
  injection H as H. exists b0. split; [done|]. unfold parked_on in *. by rewrite <- H.
Qed.

Lemma fewer_same w w' :
  (forall i, option_map b_pipe_wait (sotbox_get_slot w' i) = option_map b_pipe_wait (sotbox_get_slot w i)) -> fewer w w'.
Proof. intros H k p i _. by apply parked_waits. Qed.

Lemma fewer_set_slot s b b' w : sotbox_get_slot w s = Some b ->
  b_pipe_wait b' = b_pipe_wait b \/ pipe_wait_kind (b_pipe_wait b') = 0 -> fewer w (set_slot s b' w).
Proof.
  intros Hb H k p i Hk (x & Hx & Hp). rewrite slot_set in Hx by done. case_bool_decide.
  - injection Hx as <-. subst i. exists b. split; [done|]. unfold parked_on in *. destruct H as [<- | H]; [done|].
    rewrite H in Hp. destruct k; done.
  - by exists x.
Qed.

Lemma other_quiet p w w' : quiet w w' -> other p w w'.
Proof.
  intros [Hp _ _ Hb]. split; [|intros q _; unfold get_pipe; by rewrite Hp].
  apply fewer_same. intros i. specialize (Hb i). destruct (sotbox_get_slot w' i), (sotbox_get_slot w i); cbn in *; congruence.
Qed.

Lemma other_set_slot p s b b' w : sotbox_get_slot w s = Some b ->
  b_pipe_wait b' = b_pipe_wait b \/ pipe_wait_kind (b_pipe_wait b') = 0 -> other p w (set_slot s b' w).
Proof. intros. split; [by eapply fewer_set_slot|done]. Qed.

Lemma other_log p e w : other p w (log_event e w).
Proof. split; [by intros k q i _ H|done]. Qed.

Lemma other_set_pipe p x w : other p w (set_pipe p x w).
Proof. split; [by intros k r i _ H|]. intros q Hq. rewrite get_pipe_set, bool_decide_eq_false_2 by tauto. done. Qed.

Lemma other_drain s p v n w : other p w (pipe_read_drain s p v n w).1.
Proof.
  unfold pipe_read_drain. destruct (sotbox_get_slot w s) as [b|] eqn:Hb; [|apply other_refl].
  destruct (_ =? 0); [apply other_refl|]. destruct (ring_take _ _ _ _) as [stage tail]. cbn [fst].
  eapply other_trans; [|eapply other_set_slot; [exact Hb|left; apply pipe_wait_copy_out]].
  eapply other_trans; [|apply other_log]. apply other_set_pipe.
Qed.

Lemma other_fill s p v n w : other p w (pipe_write_fill s p v n w).1.
Proof.
  unfold pipe_write_fill. destruct (sotbox_get_slot w s); [|apply other_refl].
  destruct (_ =? 0); [apply other_refl|]. destruct (pipe_copy_from_client _ _ _); [|apply other_refl].
  eapply other_trans; [|apply other_log]. apply other_set_pipe.
Qed.

Lemma other_resume p s r w : other p w (pipe_resume_sotbox s r w).
Proof.
  unfold pipe_resume_sotbox. destruct (sotbox_get_slot w s) eqn:Hb; [|apply other_refl].
  eapply other_trans; [|apply other_log]. eapply other_set_slot; [exact Hb|by right].
Qed.

Lemma other_wake_readers p w : other p w (lucas_pipe_wake_readers p w).
Proof.
  unfold lucas_pipe_wake_readers. generalize all_slots. intros slots.
  induction slots as [|i slots IH]; cbn [wake_readers_loop]; [apply other_refl|].
  destruct (sotbox_get_slot w i) as [b|]; [|done]. destruct (parked_on 1 p b); cbn [negb]; [|done].
  destruct (_ >? 0); [|destruct (_ =? 0); [apply other_resume|done]].
  pose proof (other_drain i p (waiting_pipe_buf (b_pipe_wait b)) (waiting_pipe_count (b_pipe_wait b)) w) as H.
  destruct (pipe_read_drain _ _ _ _ _). eapply other_trans; [exact H|apply other_resume].
Qed.

Lemma other_wake_writers p w : other p w (lucas_pipe_wake_writers p w).
Proof.
  unfold lucas_pipe_wake_writers. generalize all_slots. intros slots.
  induction slots as [|i slots IH]; cbn [wake_writers_loop]; [apply other_refl|].
  destruct (sotbox_get_slot w i) as [b|]; [|done]. destruct (parked_on 2 p b); cbn [negb]; [|done].
  set (r := if p_readers_open (get_pipe w p) =? 0 then _ else _).
  assert (H : other p w r.1) by (subst r; destruct (_ =? 0); [apply other_refl|apply other_fill]).
  destruct r as [w1 n]. eapply other_trans; [exact H|].
  destruct (n >? 0); [|apply other_resume]. eapply other_trans; [apply other_resume|apply other_wake_readers].
Qed.

Lemma other_check_all E p w : other p w (iomux_check_all E w).
Proof. apply other_quiet, check_all_quiet. Qed.

Lemma other_upd p f w : other p w (upd_pipe p f w).
Proof. apply other_set_pipe. Qed.

(** ** Waking *)

Lemma parked_dec w k p i b : sotbox_get_slot w i = Some b -> parked w k p i <-> parked_on k p b = true.
Proof. intros Hb. split; [|by exists b]. intros (x & Hx & Hp). congruence. Qed.

Lemma slot_log e w i : sotbox_get_slot (log_event e w) i = sotbox_get_slot w i.
Proof. done. Qed.

Lemma resume_not_parked s r w k p : k <> 0 -> ~ parked (pipe_resume_sotbox s r w) k p s.
Proof.
  intros Hk (b & Hb & Hp). unfold pipe_resume_sotbox in Hb. destruct (sotbox_get_slot w s) as [b0|] eqn:H0.
  - rewrite slot_log, slot_set_eq in Hb by (by exists b0).
    injection Hb as <-. unfold parked_on in Hp. cbn in Hp. destruct k; done.
  - congruence.
Qed.

(** The loops stop at the one client that waits. *)
Lemma wake_readers_none p w : (forall i, ~ parked w 1 p i) -> lucas_pipe_wake_readers p w = w.
Proof.
  intros Hn. unfold lucas_pipe_wake_readers. generalize all_slots. intros slots.
  induction slots as [|i slots IH]; cbn [wake_readers_loop]; [done|].
  destruct (sotbox_get_slot w i) as [b|] eqn:Hb; [|done].
  destruct (parked_on 1 p b) eqn:Hp; [|done]. exfalso. apply (Hn i). by exists b.
Qed.

Lemma wake_readers_idle p w : p_count (get_pipe w p) = 0 -> p_writers_open (get_pipe w p) <> 0 ->
  lucas_pipe_wake_readers p w = w.
Proof.
  intros Hc Hw. unfold lucas_pipe_wake_readers. generalize all_slots. intros slots.
  induction slots as [|i slots IH]; cbn [wake_readers_loop]; [done|].
  destruct (sotbox_get_slot w i); [|done]. destruct (negb _); [done|].
  rewrite Hc, (proj2 (Z.eqb_neq (p_writers_open (get_pipe w p)) 0)) by done. done.
Qed.

Lemma not_elem_cons_parked w k p i slots : (forall x, parked w k p x -> x ∈ i :: slots) -> ~ parked w k p i ->
  forall x, parked w k p x -> x ∈ slots.
Proof. intros H Hn x Hx. destruct (proj1 (elem_of_cons _ _ _) (H x Hx)) as [->|]; done. Qed.

Lemma parked_in_slots w k p i : length (w_slots w) = SOTBOX_MAX_SLOTS -> parked w k p i -> i ∈ all_slots.
Proof.
  intros Hl (b & Hb & _). apply get_slot_lookup, lookup_lt_Some in Hb. unfold all_slots.
  apply list_elem_of_In, in_seq. lia.
Qed.

(** The one client that waits is resumed: afterwards nobody waits. *)
Lemma resumed_gone w w1 k p j n : single w -> k <> 0 -> fewer w w1 -> parked w k p j ->
  forall i, ~ parked (pipe_resume_sotbox j n w1) k p i.
Proof.
  intros Hs Hk Hf Hj i Hpk. assert (i = j) as ->.
  { apply (Hs k p i j Hk); [|done]. apply Hf; [done|]. by apply (proj1 (other_resume p j n w1)). }
  by apply resume_not_parked in Hpk.
Qed.

Lemma wake_readers_clears p w : single w -> length (w_slots w) = SOTBOX_MAX_SLOTS ->
  0 < p_count (get_pipe w p) \/ p_writers_open (get_pipe w p) = 0 ->
  forall i, ~ parked (lucas_pipe_wake_readers p w) 1 p i.
Proof.
  intros Hs Hl Hc. unfold lucas_pipe_wake_readers.
  assert (Hin : forall x, parked w 1 p x -> x ∈ all_slots) by (intros; by eapply parked_in_slots).
  revert Hin. generalize all_slots. intros slots.
  induction slots as [|j slots IH]; intros Hin i; cbn [wake_readers_loop].
  { intros Hi. destruct (proj1 (elem_of_nil _) (Hin i Hi)). }
  destruct (sotbox_get_slot w j) as [b|] eqn:Hb.
  2:{ apply IH. eapply not_elem_cons_parked; [done|]. intros (? & ? & _). congruence. }
  destruct (parked_on 1 p b) eqn:Hp; cbn [negb].
  2:{ apply IH. eapply not_elem_cons_parked; [done|]. intros Hx%(parked_dec w 1 p j b); congruence. }
  assert (Hj : parked w 1 p j) by (by exists b).
  destruct (Z.gtb_spec (p_count (get_pipe w p)) 0).
  - pose proof (proj1 (other_drain j p (waiting_pipe_buf (b_pipe_wait b)) (waiting_pipe_count (b_pipe_wait b)) w)) as Hf.
    destruct (pipe_read_drain _ _ _ _ _) as [w1 n]. by apply (resumed_gone w w1 1).
  - rewrite (proj2 (Z.eqb_eq (p_writers_open (get_pipe w p)) 0)) by lia. by apply (resumed_gone w w 1); [..|apply fewer_refl|].
Qed.

(** After a wake, whoever still waits to read has to. *)
Lemma wake_readers_ok p w : single w -> length (w_slots w) = SOTBOX_MAX_SLOTS -> use_ok w -> 0 <= p_count (get_pipe w p) ->
  forall i, parked (lucas_pipe_wake_readers p w) 1 p i -> reader_blocked (lucas_pipe_wake_readers p w) p.
Proof.
  intros Hs Hl Hu Hc i Hi. destruct (Hu p) as (_ & Hw & _).
  destruct (decide (p_count (get_pipe w p) = 0 /\ p_writers_open (get_pipe w p) <> 0)) as [[H1 H2]|H].
  - rewrite wake_readers_idle by done. split; [done|lia].
  - exfalso. eapply (wake_readers_clears p w); [done|done| |exact Hi]. lia.
Qed.

(** A writer that waits is always resumed, with what fits or with EPIPE. *)
Lemma wake_writers_clears p w : single w -> length (w_slots w) = SOTBOX_MAX_SLOTS ->
  forall i, ~ parked (lucas_pipe_wake_writers p w) 2 p i.
Proof.
  intros Hs Hl. unfold lucas_pipe_wake_writers.
  assert (Hin : forall x, parked w 2 p x -> x ∈ all_slots) by (intros; by eapply parked_in_slots).
  revert Hin. generalize all_slots. intros slots.
  induction slots as [|j slots IH]; intros Hin i; cbn [wake_writers_loop].
  { intros Hi. destruct (proj1 (elem_of_nil _) (Hin i Hi)). }
  destruct (sotbox_get_slot w j) as [b|] eqn:Hb.
  2:{ apply IH. eapply not_elem_cons_parked; [done|]. intros (? & ? & _). congruence. }
  destruct (parked_on 2 p b) eqn:Hp; cbn [negb].
  2:{ apply IH. eapply not_elem_cons_parked; [done|]. intros Hx%(parked_dec w 2 p j b); congruence. }
  assert (Hj : parked w 2 p j) by (by exists b).
  set (r := if p_readers_open (get_pipe w p) =? 0 then _ else _).
  assert (Hf : fewer w r.1) by (subst r; destruct (_ =? 0); [apply fewer_refl|apply (other_fill j p)]).
  destruct r as [w1 n]. cbn in Hf.
  assert (Hg : forall i, ~ parked (pipe_resume_sotbox j n w1) 2 p i) by (by apply (resumed_gone w w1 2)).
  destruct (n >? 0); [|apply Hg]. intros Hi. apply (Hg i). by apply (proj1 (other_wake_readers p _)).
Qed.

(** Wakes that do not move bytes. *)
Lemma resume_pipes s r w : w_pipes (pipe_resume_sotbox s r w) = w_pipes w.
Proof. unfold pipe_resume_sotbox. by destruct (sotbox_get_slot w s). Qed.

Lemma wake_writers_epipe p w : p_readers_open (get_pipe w p) = 0 -> w_pipes (lucas_pipe_wake_writers p w) = w_pipes w.
Proof.
  intros Hr. unfold lucas_pipe_wake_writers. generalize all_slots. intros slots.
  induction slots as [|i slots IH]; cbn [wake_writers_loop]; [done|].
  destruct (sotbox_get_slot w i); [|done]. destruct (negb _); [done|]. rewrite Hr. cbn. apply resume_pipes.
Qed.

Lemma wake_readers_eof p w : p_count (get_pipe w p) = 0 -> w_pipes (lucas_pipe_wake_readers p w) = w_pipes w.
Proof.
  intros Hc. unfold lucas_pipe_wake_readers. generalize all_slots. intros slots.
  induction slots as [|i slots IH]; cbn [wake_readers_loop]; [done|].
  destruct (sotbox_get_slot w i); [|done]. destruct (negb _); [done|]. rewrite Hc. cbn.
  destruct (_ =? 0); [apply resume_pipes|done].
Qed.

(** ** Steps *)

Definition blocked_ok (w : world) : Prop := forall p, waits_ok w p.

Record good (w : world) : Prop := { g_inv : inv w; g_single : single w; g_blocked : blocked_ok w }.

Lemma single_fewer w w' : fewer w w' -> single w -> single w'.
Proof. intros Hf Hs k p i j Hk Hi Hj. by apply (Hs k p i j Hk); apply Hf. Qed.

Lemma good_of w w' : inv w' -> fewer w w' -> blocked_ok w' -> good w -> good w'.
Proof. intros Hi Hf Hb [_ Hs _]. split; [done|by eapply single_fewer|done]. Qed.

Lemma blocked_other p w w' : other p w w' -> waits_ok w' p -> blocked_ok w -> blocked_ok w'.
Proof. intros Ho Hp Hb q. destruct (decide (q = p)) as [->|Hq]; [done|]. by eapply other_waits. Qed.

(** Counts as before on every pipe. *)
Lemma blocked_frame w w' : fewer w w' ->
  (forall q, p_count (get_pipe w' q) = p_count (get_pipe w q) /\ counts (get_pipe w' q) = counts (get_pipe w q)) ->
  blocked_ok w -> blocked_ok w'.
Proof.
  intros Hf Hc Hb q. apply (other_waits (S q) w); [|lia|done]. split; [done|]. intros. apply Hc.
Qed.

Lemma good_quiet w w' : quiet w w' -> good w -> good w'.
Proof.
  intros Hq Hg. pose proof (other_quiet 0 _ _ Hq) as [Hf _].
  eapply good_of; [eapply inv_quiet; [done|apply Hg]|done| |done].
  apply (blocked_frame w); [done| |apply Hg]. intros q. unfold get_pipe. by rewrite (q_pipes _ _ Hq).
Qed.

(** A sotBox changes, its parked transfer does not. *)
Lemma good_set_slot s b b' w : sotbox_get_slot w s = Some b -> b_pipe_wait b' = b_pipe_wait b ->
  inv (set_slot s b' w) -> good w -> good (set_slot s b' w).
Proof.
  intros Hb Hp Hi Hg. assert (Hf : fewer w (set_slot s b' w)) by (eapply fewer_set_slot; [exact Hb|by left]).
  eapply good_of; [done|done| |done]. apply (blocked_frame w); [done|done|apply Hg].
Qed.

Lemma good_upd_box s f w : live w s -> (forall b, b_pipe_wait (f b) = b_pipe_wait b) ->
  inv (upd_box s f w) -> good w -> good (upd_box s f w).
Proof. intros [b Hb] Hp. rewrite (upd_box_eq _ _ _ _ Hb). by eapply good_set_slot. Qed.

Lemma inv_count w p : inv w -> (p < length (w_pipes w))%nat -> 0 <= p_count (get_pipe w p) <= LUCAS_PIPE_BUF_SIZE.
Proof. intros [Hf _] Hp. apply (fifo_pipes w Hf p Hp). Qed.

Lemma count_nonneg w p : inv w -> 0 <= p_count (get_pipe w p).
Proof.
  intros Hi. destruct (decide (p < length (w_pipes w))%nat) as [Hp|Hp]; [by apply inv_count|].
  unfold get_pipe. by rewrite lookup_ge_None_2 by lia.
Qed.

(** Parking. *)
Lemma blocked_park k st s p v n cap w : k = 1 \/ k = 2 ->
  (k = 1 -> reader_blocked w p) -> (k = 2 -> writer_blocked w p) ->
  blocked_ok w -> blocked_ok (pipe_park k st s p v n cap w).1.
Proof.
  intros Hk H1 H2 Hb. unfold pipe_park. destruct cap as [c|]; [|done].
  destruct (sotbox_get_slot w s) as [b|] eqn:Hs; [|done]. cbn [fst]. set (b' := set_b_state _ _).
  assert (Hp : forall k' q i, parked (set_slot s b' w) k' q i -> parked w k' q i \/ (k' = k /\ q = p)).
  { intros k' q i (x & Hx & Hpk). rewrite slot_set in Hx by done. case_bool_decide; [|left; by exists x].
    injection Hx as <-. unfold parked_on in Hpk. cbn in Hpk. bool_to_prop. right. naive_solver. }
  intros q. destruct (Hb q) as [W1 W2].
  split; intros i Hi; destruct (Hp _ _ _ Hi) as [Hi'|[Hkk ->]].
  - exact (W1 i Hi').
  - exact (H1 (eq_sym Hkk)).
  - exact (W2 i Hi').
  - exact (H2 (eq_sym Hkk)).
Qed.

Lemma blocked_read s p v n cap w : good w -> blocked_ok (lucas_pipe_read s p v n cap w).1.
Proof.
  intros [Hi Hs Hb]. unfold lucas_pipe_read. destruct (n =? 0); [done|].
  destruct (Z.gtb_spec (p_count (get_pipe w p)) 0) as [Hc|Hc].
  - pose proof (other_drain s p v n w) as Ho. pose proof (read_drain_keeps s p v n w) as Hk.
    destruct (pipe_read_drain _ _ _ _ _) as [w1 got]. cbn [fst] in *.
    pose proof (other_wake_writers p w1) as Ho2.
    eapply blocked_other; [eapply other_trans; [exact Ho|exact Ho2]| |done]. split; intros i Hpk; exfalso.
    + apply (proj1 Ho2), (proj1 Ho) in Hpk; [|done..]. destruct (Hb p) as [W1 _]. destruct (W1 i Hpk). lia.
    + eapply (wake_writers_clears p w1); [by eapply single_fewer; [apply Ho|]| |exact Hpk].
      rewrite (k_slots _ _ Hk). apply Hi.
  - destruct (Z.eqb_spec (p_writers_open (get_pipe w p)) 0); [done|].
    apply blocked_park; [by left| |done|done]. intros _. pose proof (refs_use w (proj2 Hi) p) as (_ & Hw & _).
    pose proof (count_nonneg w p Hi). split; lia.
Qed.

(** Bytes were put into a pipe that had room: its waiting reader is served. *)
Lemma blocked_filled E p w w1 : good w -> p_count (get_pipe w p) <> LUCAS_PIPE_BUF_SIZE ->
  other p w w1 -> keeps w w1 -> 0 <= p_count (get_pipe w1 p) ->
  blocked_ok (iomux_check_all E (lucas_pipe_wake_readers p w1)).
Proof.
  intros [Hi Hs Hb] Hc Ho Hk Hn. pose proof (other_wake_readers p w1) as Ho2.
  assert (Hu : use_ok w1) by (eapply refs_use, refs_keeps; [done|apply Hi]).
  assert (Hw2 : blocked_ok (lucas_pipe_wake_readers p w1)).
  { eapply blocked_other; [eapply other_trans; [exact Ho|exact Ho2]| |done]. split; intros i Hpk.
    - eapply wake_readers_ok; [by eapply single_fewer; [apply Ho|]|rewrite (k_slots _ _ Hk); apply Hi|done|done|exact Hpk].
    - exfalso. apply (proj1 Ho2), (proj1 Ho) in Hpk; [|done..]. destruct (Hb p) as [_ W2]. by destruct (W2 i Hpk). }
  pose proof (check_all_quiet E (lucas_pipe_wake_readers p w1)) as Hq.
  apply (blocked_frame (lucas_pipe_wake_readers p w1)); [apply (other_quiet 0 _ _ Hq)| |exact Hw2]. intros q. unfold get_pipe. by rewrite (q_pipes _ _ Hq).
Qed.

Lemma blocked_write E s p v n cap w : good w -> (p < length (w_pipes w))%nat -> blocked_ok (lucas_pipe_write E s p v n cap w).1.
Proof.
  intros Hg Hp. pose proof Hg as [Hi Hs Hb]. unfold lucas_pipe_write. destruct (n =? 0); [done|].
  destruct (Z.eqb_spec (p_readers_open (get_pipe w p)) 0); [done|].
  pose proof (inv_count w p Hi Hp) as Hc. pose proof (refs_use w (proj2 Hi) p) as (Hr & _).
  destruct (Z.gtb_spec (LUCAS_PIPE_BUF_SIZE - p_count (get_pipe w p)) 0).
  - pose proof (other_fill s p v n w) as Ho. pose proof (write_fill_keeps s p v n w) as Hk.
    pose proof (fifo_write_fill s p v n w Hp (proj1 Hi)) as Hf.
    destruct (pipe_write_fill _ _ _ _ _) as [w1 put]. cbn [fst] in *.
    apply (blocked_filled E p w w1); try done; [lia|].
    apply (count_nonneg w1 p). split; [done|]. eapply refs_keeps; [done|apply Hi].
  - apply blocked_park; [by right|done| |done]. intros _. split; lia.
Qed.

Lemma blocked_write_kbuf E p bs w : good w -> (p < length (w_pipes w))%nat -> blocked_ok (lucas_pipe_write_kbuf E p bs w).1.
Proof.
  intros Hg Hp. pose proof Hg as [Hi Hs Hb]. unfold lucas_pipe_write_kbuf. destruct (_ =? 0); [done|].
  destruct (Z.eqb_spec (p_readers_open (get_pipe w p)) 0); [done|]. cbn zeta.
  destruct (Z.eqb_spec (LUCAS_PIPE_BUF_SIZE - p_count (get_pipe w p)) 0); [done|]. cbn [fst].
  set (stage := take _ bs). set (w1 := log_event _ _).
  assert (Hk : keeps w w1) by (eapply world_keeps_trans; [|apply keeps_log]; apply keeps_set_pipe, pipe_put_counts).
  apply (blocked_filled E p w w1); try done; [lia| |].
  - eapply other_trans; [apply other_set_pipe|apply other_log].
  - apply (count_nonneg w1 p). split; [|eapply refs_keeps; [done|apply Hi]].
    apply fifo_fill; [|apply Hi]. pose proof (inv_count w p Hi Hp).
    pose proof (upto_le (Z.of_nat (length bs)) (LUCAS_PIPE_BUF_SIZE - p_count (get_pipe w p))).
    subst stage. rewrite length_take. lia.
Qed.

(** ** Opening and closing ends *)

(** What is left to show for pipe [p] once the rest is framed. *)
Lemma waits_from w w' p : fewer w w' -> p_count (get_pipe w' p) = p_count (get_pipe w p) ->
  ((exists i, parked w' 1 p i) -> 0 < p_writers_open (get_pipe w p) -> 0 < p_writers_open (get_pipe w' p)) ->
  ((exists i, parked w' 2 p i) -> 0 < p_readers_open (get_pipe w p) -> 0 < p_readers_open (get_pipe w' p)) ->
  waits_ok w p -> waits_ok w' p.
Proof.
  intros Hf Hc Hw Hr [W1 W2]. split; intros i Hi.
  - destruct (W1 i) as [H1 H2]; [by apply Hf|]. split; [by rewrite Hc|]. apply Hw; [by exists i|done].
  - destruct (W2 i) as [H1 H2]; [by apply Hf|]. split; [by rewrite Hc|]. apply Hr; [by exists i|done].
Qed.

(** The end of a close as in [close_finish]: the waiters of [w1] were told in [w2]. *)
Lemma finish_waits E p w1 w2 (last : bool) : (p < length (w_pipes w1))%nat -> quiet w2 (iomux_check_all E w2) ->
  length (w_pipes w2) = length (w_pipes w1) ->
  let w3 := iomux_check_all E w2 in
  let w4 := if last then upd_pipe p (set_p_in_use false) w3 else w3 in
  fewer w2 w4 /\ forall q, p_count (get_pipe w4 q) = p_count (get_pipe w2 q) /\
    p_readers_open (get_pipe w4 q) = p_readers_open (get_pipe w2 q) /\
    p_writers_open (get_pipe w4 q) = p_writers_open (get_pipe w2 q).
Proof.
  intros Hp Hq Hl. cbn zeta. revert Hq. generalize (iomux_check_all E w2). intros w3 Hq. set (w4 := if last then _ else _).
  assert (H3 : forall q, get_pipe w3 q = get_pipe w2 q) by (intros; unfold get_pipe; by rewrite (q_pipes _ _ Hq)).
  assert (Hf3 : fewer w2 w3) by apply (other_quiet 0 _ _ Hq). subst w4. destruct last.
  - split; [eapply fewer_trans; [exact Hf3|apply (other_upd p)]|]. intros q.
    rewrite get_upd_pipe by (rewrite (q_pipes _ _ Hq : w_pipes w3 = w_pipes w2); lia). case_bool_decide; [subst; cbn|]; by rewrite !H3.
  - split; [done|]. intros q. by rewrite H3.
Qed.

#[local] Opaque iomux_check_all.

Lemma blocked_close_reader E p w : good w -> (p < length (w_pipes w))%nat -> 0 < p_readers_open (get_pipe w p) ->
  fewer w (lucas_pipe_close_reader E p w) /\ blocked_ok (lucas_pipe_close_reader E p w).
Proof.
  intros [Hi Hs Hb] Hp Hr. unfold lucas_pipe_close_reader. rewrite (proj2 (Z.leb_gt _ _)) by lia. cbn zeta.
  set (f := fun x : pipe => set_p_readers_open (p_readers_open x - 1) x).
  pose proof (other_upd p f w) as Ho1. pose proof (get_upd_pipe p f w p Hp) as Hg. rewrite bool_decide_eq_true_2 in Hg by done.
  assert (Hl1 : length (w_pipes (upd_pipe p f w)) = length (w_pipes w)) by apply length_set_pipe.
  assert (Hsl : length (w_slots (upd_pipe p f w)) = SOTBOX_MAX_SLOTS) by apply Hi.
  revert Ho1 Hg Hl1 Hsl. generalize (upd_pipe p f w). intros w1 Ho1 Hg Hl1 Hsl.
  assert (Hg' : p_count (get_pipe w1 p) = p_count (get_pipe w p) /\ p_writers_open (get_pipe w1 p) = p_writers_open (get_pipe w p)
    /\ p_readers_open (get_pipe w1 p) = p_readers_open (get_pipe w p) - 1) by (rewrite Hg; done).
  destruct Hg' as (G1 & G2 & G3). clear Hg f.
  destruct (Z.eqb_spec (p_readers_open (get_pipe w1 p)) 0) as [H0|H0].
  - pose proof (other_wake_writers p w1) as Ho2. pose proof (wake_writers_clears p w1 (single_fewer _ _ (proj1 Ho1) Hs) Hsl) as Hno.
    pose proof (wake_writers_epipe p w1 H0) as Hpp. revert Ho2 Hno Hpp. generalize (lucas_pipe_wake_writers p w1). intros w2 Ho2 Hno Hpp.
    set (last := p_writers_open (get_pipe (iomux_check_all E w2) p) =? 0). clearbody last.
    destruct (finish_waits E p w1 w2 last ltac:(lia) (check_all_quiet E w2) ltac:(by rewrite Hpp)) as [Hf4 Hc4]. cbn zeta in *.
    revert Hf4 Hc4. generalize (if last then upd_pipe p (set_p_in_use false) (iomux_check_all E w2) else iomux_check_all E w2). intros w4 Hf4 Hc4.
    assert (Hf : fewer w w4) by (eapply fewer_trans; [apply Ho1|]; eapply fewer_trans; [apply Ho2|done]).
    split; [done|]. intros q. destruct (Hc4 q) as (C1 & C2 & C3).
    assert (E2 : get_pipe w2 q = get_pipe w1 q) by (unfold get_pipe; by rewrite Hpp).
    destruct (decide (q = p)) as [->|Hq].
    + apply (waits_from w); [done|by rewrite C1, E2| | |apply Hb].
      * intros _. by rewrite C3, E2, G2.
      * intros [i Hpk] _. exfalso. apply (Hno i). by apply Hf4.
    + destruct (proj2 Ho1 q Hq) as [D1 D2]. unfold counts in D2. injection D2 as D2 D3 _.
      apply (waits_from w); [done|by rewrite C1, E2, D1| | |apply Hb]; intros _; [by rewrite C3, E2, D3|by rewrite C2, E2, D2].
  - split; [apply Ho1|]. eapply blocked_other; [exact Ho1| |done].
    apply (waits_from w); [apply Ho1|done| | |apply Hb]; intros _; [by rewrite G2|].
    pose proof (refs_use w (proj2 Hi) p). lia.
Qed.

Lemma blocked_close_writer E p w : good w -> (p < length (w_pipes w))%nat -> 0 < p_writers_open (get_pipe w p) ->
  fewer w (lucas_pipe_close_writer E p w) /\ blocked_ok (lucas_pipe_close_writer E p w).
Proof.
  intros [Hi Hs Hb] Hp Hr. unfold lucas_pipe_close_writer. rewrite (proj2 (Z.leb_gt _ _)) by lia. cbn zeta.
  set (f := fun x : pipe => set_p_writers_open (p_writers_open x - 1) x).
  pose proof (other_upd p f w) as Ho1. pose proof (get_upd_pipe p f w p Hp) as Hg. rewrite bool_decide_eq_true_2 in Hg by done.
  assert (Hl1 : length (w_pipes (upd_pipe p f w)) = length (w_pipes w)) by apply length_set_pipe.
  assert (Hsl : length (w_slots (upd_pipe p f w)) = SOTBOX_MAX_SLOTS) by apply Hi.
  revert Ho1 Hg Hl1 Hsl. generalize (upd_pipe p f w). intros w1 Ho1 Hg Hl1 Hsl.
  assert (Hg' : p_count (get_pipe w1 p) = p_count (get_pipe w p) /\ p_readers_open (get_pipe w1 p) = p_readers_open (get_pipe w p)
    /\ p_writers_open (get_pipe w1 p) = p_writers_open (get_pipe w p) - 1) by (rewrite Hg; done).
  destruct Hg' as (G1 & G2 & G3). clear Hg f.
  destruct (Z.eqb_spec (p_writers_open (get_pipe w1 p)) 0) as [H0|H0].
  - pose proof (other_wake_readers p w1) as Ho2.
    pose proof (wake_readers_clears p w1 (single_fewer _ _ (proj1 Ho1) Hs) Hsl ltac:(by right)) as Hno.
    assert (Hpp : w_pipes (lucas_pipe_wake_readers p w1) = w_pipes w1).
    { destruct (decide (p_count (get_pipe w1 p) = 0)) as [Hz|Hz]; [by apply wake_readers_eof|].
      rewrite wake_readers_none; [done|]. intros i Hpk. apply (proj1 Ho1) in Hpk; [|done].
      destruct (proj1 (Hb p) i Hpk). lia. }
    revert Ho2 Hno Hpp. generalize (lucas_pipe_wake_readers p w1). intros w2 Ho2 Hno Hpp.
    set (last := p_readers_open (get_pipe (iomux_check_all E w2) p) =? 0). clearbody last.
    destruct (finish_waits E p w1 w2 last ltac:(lia) (check_all_quiet E w2) ltac:(by rewrite Hpp)) as [Hf4 Hc4]. cbn zeta in *.
    revert Hf4 Hc4. generalize (if last then upd_pipe p (set_p_in_use false) (iomux_check_all E w2) else iomux_check_all E w2). intros w4 Hf4 Hc4.
    assert (Hf : fewer w w4) by (eapply fewer_trans; [apply Ho1|]; eapply fewer_trans; [apply Ho2|done]).
    split; [done|]. intros q. destruct (Hc4 q) as (C1 & C2 & C3).
    assert (E2 : get_pipe w2 q = get_pipe w1 q) by (unfold get_pipe; by rewrite Hpp).
    destruct (decide (q = p)) as [->|Hq].
    + apply (waits_from w); [done|by rewrite C1, E2| | |apply Hb].
      * intros [i Hpk] _. exfalso. apply (Hno i). by apply Hf4.
      * intros _. by rewrite C2, E2, G2.
    + destruct (proj2 Ho1 q Hq) as [D1 D2]. unfold counts in D2. injection D2 as D2 D3 _.
      apply (waits_from w); [done|by rewrite C1, E2, D1| | |apply Hb]; intros _; [by rewrite C3, E2, D3|by rewrite C2, E2, D2].
  - split; [apply Ho1|]. eapply blocked_other; [exact Ho1| |done].
    apply (waits_from w); [apply Ho1|done| | |apply Hb]; intros _; [|by rewrite G2].
    pose proof (refs_use w (proj2 Hi) p). lia.
Qed.

Lemma blocked_close_end E e w : good w -> end_is_open e w -> fewer w (close_end E e w) /\ blocked_ok (close_end E e w).
Proof.
  intros Hg Ho. unfold close_end. destruct (pipe_end FD_PIPE_READ e) as [p|] eqn:Er.
  - destruct (Ho FD_PIPE_READ p ltac:(auto) Er). by apply blocked_close_reader.
  - destruct (pipe_end FD_PIPE_WRITE e) as [p|] eqn:Ew; [|split; [apply fewer_refl|apply Hg]].
    destruct (Ho FD_PIPE_WRITE p ltac:(auto) Ew). by apply blocked_close_writer.
Qed.

Lemma blocked_add_end e w : good w -> end_is_open e w -> fewer w (add_end e w) /\ blocked_ok (add_end e w).
Proof.
  intros [Hi Hs Hb] Ho. unfold add_end. destruct (pipe_end FD_PIPE_READ e) as [p|] eqn:Er; [|destruct (pipe_end FD_PIPE_WRITE e) as [p|] eqn:Ew].
  - destruct (Ho FD_PIPE_READ p ltac:(auto) Er) as [Hp _]. unfold lucas_pipe_add_reader.
    pose proof (other_upd p (fun x => set_p_readers_open (p_readers_open x + 1) x) w) as H1.
    split; [apply H1|]. eapply blocked_other; [exact H1| |done].
    apply (waits_from w); [apply H1|..|apply Hb]; rewrite get_upd_pipe, bool_decide_eq_true_2 by done; cbn; intros; lia || done.
  - destruct (Ho FD_PIPE_WRITE p ltac:(auto) Ew) as [Hp _]. unfold lucas_pipe_add_writer.
    pose proof (other_upd p (fun x => set_p_writers_open (p_writers_open x + 1) x) w) as H1.
    split; [apply H1|]. eapply blocked_other; [exact H1| |done].
    apply (waits_from w); [apply H1|..|apply Hb]; rewrite get_upd_pipe, bool_decide_eq_true_2 by done; cbn; intros; lia || done.
  - split; [apply fewer_refl|done].
Qed.

(** ** Every call *)

(** No new waiter, and the waiters there are have to wait. *)
Definition nice (w w' : world) : Prop := fewer w w' /\ (blocked_ok w -> blocked_ok w').

Lemma nice_refl w : nice w w.
Proof. split; [apply fewer_refl|done]. Qed.

Lemma nice_trans u v w : nice u v -> nice v w -> nice u w.
Proof. intros [H1 H2] [K1 K2]. split; [by eapply fewer_trans|auto]. Qed.

Lemma nice_good w w' : nice w w' -> inv w' -> good w -> good w'.
Proof. intros [Hf Hb] Hi Hg. eapply good_of; [done|done|apply Hb, Hg|done]. Qed.

Lemma nice_same w w' : fewer w w' -> w_pipes w' = w_pipes w -> nice w w'.
Proof. intros Hf Hp. split; [done|]. apply blocked_frame; [done|]. intros q. unfold get_pipe. by rewrite Hp. Qed.

Lemma nice_log e w : nice w (log_event e w).
Proof. apply nice_same; [by intros k p i _ H|done]. Qed.

Lemma nice_quiet w w' : quiet w w' -> nice w w'.
Proof. intros Hq. apply nice_same; [apply (other_quiet 0 _ _ Hq)|apply Hq]. Qed.

Lemma nice_set_slot s b b' w : sotbox_get_slot w s = Some b -> b_pipe_wait b' = b_pipe_wait b -> nice w (set_slot s b' w).
Proof. intros Hb Hp. apply nice_same; [eapply fewer_set_slot; [exact Hb|by left]|done]. Qed.

Lemma nice_set_fd s fd e w : live w s -> nice w (upd_box s (set_fd fd e) w).
Proof. intros [b Hb]. rewrite (upd_box_eq _ _ _ _ Hb). by eapply nice_set_slot. Qed.

Lemma nice_vfs_close E e w : nice w (vfs_close_entry E e w).1.
Proof. destruct (vfs_close_fst E e w) as [->|(m & h & ->)]; [apply nice_refl|apply nice_log]. Qed.

Lemma nice_close_end E e w : good w -> end_is_open e w -> nice w (close_end E e w).
Proof. intros Hg Ho. destruct (blocked_close_end E e w Hg Ho). by split. Qed.

Lemma live_close_end E e w s : good w -> end_is_open e w -> live w s -> live (close_end E e w) s.
Proof.
  intros Hg Ho. apply live_fds_same. apply close_end_spec; [done|]. apply refs_use, Hg.
Qed.

Lemma live_vfs_close E e w s : live w s -> live (vfs_close_entry E e w).1 s.
Proof. unfold live. by rewrite slot_vfs_close. Qed.

Lemma blocked_pipe s v w : good w -> running w s -> nice w (lucas_sys_pipe s v w).1.
Proof.
  intros [Hi Hs Hb] (b & Hb0 & _). unfold lucas_sys_pipe.
  destruct (alloc_cases w) as [->|(p & Hp & Hfree & ->)]; [apply nice_refl|].
  destruct (free_counts w p (refs_use w (proj2 Hi)) Hfree) as [Hr0 Hw0].
  set (w1 := log_event _ _).
  assert (Hn : nice w w1).
  { assert (Ho : other p w w1) by (eapply other_trans; [apply other_set_pipe|apply other_log]).
    split; [apply Ho|]. apply blocked_other with p; [done|].
    split; intros i Hpk; exfalso; apply (proj1 Ho) in Hpk; try done; destruct (Hb p) as [W1 W2].
    - destruct (W1 i Hpk). lia.
    - destruct (W2 i Hpk). lia. }
  assert (Hb1 : sotbox_get_slot w1 s = Some b) by done. rewrite (box_at_Some _ _ _ Hb1).
  clearbody w1. destruct (two_free_fds b) as [[rfd wfd]|]; [|done]. cbn zeta.
  match goal with |- context [box_copy_out ?b2 v ?bs] =>
    pose proof (copy_out_only_mem b2 v bs) as Hm; destruct (box_copy_out b2 v bs) as [b3 ok] end. cbn [fst] in *.
  eapply nice_trans; [exact Hn|]. eapply nice_set_slot; [exact Hb1|]. by rewrite Hm.
Qed.

Lemma nice_clear_fd s fd w : live w s -> nice w (clear_fd s fd w).
Proof. apply nice_set_fd. Qed.

Lemma nice_close E s fd w : good w -> running w s -> 0 <= fd -> nice w (lucas_sys_close E s fd w).1.
Proof.
  intros Hg (b & Hb & _) H0. assert (Hl : live w s) by (by exists b).
  unfold lucas_sys_close. destruct (fd >=? _) eqn:Hfd; [apply nice_refl|].
  apply fd_lt in Hfd; [|done]. rewrite (box_at_Some _ _ _ Hb). cbn zeta.
  set (n := Z.to_nat fd) in *. set (e := get_fd b n).
  pose proof (open_entry w s b n (proj2 (g_inv w Hg)) Hb Hfd : end_is_open e w) as Ho.
  assert (Hend : nice w (clear_fd s n (close_end E e w))).
  { eapply nice_trans; [by apply (nice_close_end E e)|]. apply nice_clear_fd. by apply live_close_end. }
  assert (Hvfs : forall w', nice w w' -> live w' s -> nice w (clear_fd s n (vfs_close_entry E e w').1)).
  { intros w' Hn Hl'. eapply nice_trans; [exact Hn|]. eapply nice_trans; [apply nice_vfs_close|]. apply nice_clear_fd. by apply live_vfs_close. }
  assert (Hdef : nice w ((if f_is_std e then (clear_fd s n w, 0) else
     match f_mount e with None => (w, - LX_EBADF) | Some _ => let '(w, rc) := vfs_close_entry E e w in (clear_fd s n w, rc) end).1)).
  { destruct (f_is_std e); [by apply nice_clear_fd|]. destruct (f_mount e); [|apply nice_refl].
    specialize (Hvfs w (nice_refl w) Hl). by destruct (vfs_close_entry E e w). }
  destruct (f_kind e); try done; cbn [fst]; try (by apply nice_clear_fd).
  - destruct (f_lazy_pinned e); [eapply nice_trans; [apply nice_log|by apply nice_clear_fd]|].
    specialize (Hvfs (log_event (EvReclockRelease s n) w) (nice_log _ _) Hl).
    by destruct (vfs_close_entry E e (log_event (EvReclockRelease s n) w)).
  - eapply nice_trans; [apply nice_log|by apply nice_clear_fd].
Qed.

Lemma good_close_fd_entry E s fd w : good w -> live w s -> (fd < LUCAS_MAX_FDS)%nat ->
  nice w (close_fd_entry E s fd w) /\ good (close_fd_entry E s fd w) /\ live (close_fd_entry E s fd w) s.
Proof.
  intros Hg Hl Hfd. destruct (inv_close_fd_entry E s fd w (g_inv w Hg) Hl Hfd) as [Hi' Hl'].
  assert (Hn : nice w (close_fd_entry E s fd w)); [|split; [done|split; [by eapply nice_good|done]]].
  destruct Hl as [b Hb]. unfold close_fd_entry. rewrite (box_at_Some _ _ _ Hb). cbn zeta.
  pose proof (open_entry w s b fd (proj2 (g_inv w Hg)) Hb Hfd) as Ho.
  assert (Hl : live w s) by (by exists b).
  assert (Hend : nice w (clear_fd s fd (close_end E (get_fd b fd) w)))
    by (eapply nice_trans; [by apply (nice_close_end E (get_fd b fd))|]; apply nice_clear_fd; by apply live_close_end).
  destruct (f_kind (get_fd b fd)); try done.
  eapply nice_trans; [apply nice_vfs_close|]. apply nice_clear_fd. by apply live_vfs_close.
Qed.

(** Loops over descriptors. *)
Lemma nice_fold (f : world -> nat -> world) s l : forall w,
  (forall w i, i ∈ l -> good w -> live w s -> nice w (f w i) /\ good (f w i) /\ live (f w i) s) ->
  good w -> live w s -> nice w (fold_left f l w) /\ good (fold_left f l w) /\ live (fold_left f l w) s.
Proof.
  induction l as [|i l IH]; intros w Hstep Hg Hl; cbn [fold_left]; [split; [apply nice_refl|done]|].
  destruct (Hstep w i ltac:(set_solver) Hg Hl) as (Hn & Hg1 & Hl1).
  destruct (IH (f w i)) as (Hn' & H'); [intros; apply Hstep; set_solver|done|done|].
  split; [by eapply nice_trans|done].
Qed.

Lemma nice_close_all E s w : good w -> live w s ->
  nice w (lucas_close_all_fds E s w) /\ good (lucas_close_all_fds E s w) /\ live (lucas_close_all_fds E s w) s.
Proof.
  intros Hg Hl. apply nice_fold; [|done|done]. intros w' i Hin Hg' Hl'. apply elem_of_below in Hin.
  case_bool_decide; [split; [apply nice_refl|done]|]. apply good_close_fd_entry; [done..|lia].
Qed.

Lemma nice_exit E s w : good w -> running w s -> nice w (exit_fds E s w).
Proof.
  intros Hg (b & Hb & _). unfold exit_fds. destruct (nice_close_all E s w Hg) as (H1 & _ & b1 & Hb1); [by exists b|].
  rewrite (upd_box_eq _ _ _ _ Hb1). eapply nice_trans; [exact H1|]. by eapply nice_set_slot.
Qed.

Lemma nice_execve E s apt w : good w -> running w s -> nice w (execve_close_fds E s apt w).
Proof.
  intros Hg (b & Hb & _). unfold execve_close_fds. apply (nice_fold _ s); [|done|by exists b].
  clear w b Hg Hb. intros w i Hin Hg Hl.
  assert (Hlt : (i < LUCAS_MAX_FDS)%nat) by (apply elem_of_below in Hin; unfold LUCAS_MAX_FDS in *; lia).
  destruct (execve_one_inv E s apt w i) as [Hi' Hl']; [apply Hg|done|done|].
  assert (Hn : nice w (execve_close_one E s apt w i)); [|split; [done|split; [by eapply nice_good|done]]].
  destruct Hl as [b Hb]. assert (Hl : live w s) by (by exists b). unfold execve_close_one. rewrite (box_at_Some _ _ _ Hb). cbn zeta.
  pose proof (open_entry w s b i (proj2 (g_inv w Hg)) Hb Hlt) as Ho.
  assert (Hend : forall e', nice w (upd_box s (set_fd i e') (close_end E (get_fd b i) w)))
    by (intros; eapply nice_trans; [by apply (nice_close_end E (get_fd b i))|]; apply nice_set_fd; by apply live_close_end).
  destruct (f_kind (get_fd b i)); try apply nice_refl; try (destruct (_ && _); [apply Hend|apply nice_refl]).
  destruct (_ || _); [|apply nice_refl].
  eapply nice_trans; [|apply nice_set_fd]; destruct (_ =? 0); try done; [apply nice_refl|apply nice_vfs_close|by apply live_vfs_close].
Qed.

Lemma nice_add_end e w : good w -> end_is_open e w -> nice w (add_end e w).
Proof. intros Hg Ho. destruct (blocked_add_end e w Hg Ho). by split. Qed.

Lemma nice_dup s n d src w b : good w -> sotbox_get_slot w s = Some b -> end_is_open src w ->
  nice w (upd_box s (set_fd n d) (add_end src (upd_box s (set_fd n src) w))).
Proof.
  intros Hg Hb Ho. rewrite (dup_commute s n d src w b) by done. eapply nice_trans; [by apply (nice_add_end src)|].
  apply nice_set_fd. exists b. by rewrite add_end_slot.
Qed.

Lemma nice_dup2 E s o n w : good w -> running w s -> 0 <= o -> 0 <= n -> nice w (lucas_sys_dup2 E s o n w).1.
Proof.
  intros Hg (b & Hb & _) Ho Hn. unfold lucas_sys_dup2. destruct (_ || _) eqn:Hlt; [apply nice_refl|].
  apply orb_false_iff in Hlt as [Hol%fd_lt Hnl%fd_lt]; [|done..]. cbn zeta.
  destruct (fd_free (box_at w s) (Z.to_nat o)); [apply nice_refl|]. destruct (Z.eqb_spec o n); [apply nice_refl|].
  set (w1 := if fd_free _ _ then w else _).
  assert (H1 : nice w w1 /\ good w1 /\ live w1 s).
  { subst w1. destruct (fd_free _ _); [split; [apply nice_refl|split; [done|by exists b]]|].
    by apply good_close_fd_entry; [|exists b|]. }
  destruct H1 as (Hn1 & Hg1 & b1 & Hb1). clearbody w1. rewrite (box_at_Some _ _ _ Hb1).
  set (src := get_fd b1 (Z.to_nat o)). cbn [fst].
  assert (Hop : end_is_open src w1) by (by apply (open_entry w1 s b1); [apply Hg1|..]).
  assert (Hd : nice w (upd_box s (set_fd (Z.to_nat n) (dup_vfs E src)) (add_end src (upd_box s (set_fd (Z.to_nat n) src) w1))))
    by (eapply nice_trans; [exact Hn1|by eapply nice_dup]).
  destruct (_ && _); [|done]. eapply nice_trans; [exact Hd|]. apply (nice_log (EvUnixInherit s (Z.to_nat n))).
Qed.

Lemma nice_fcntl E s fd cmd arg w : good w -> running w s -> 0 <= fd -> nice w (or_skip (sys_fcntl_fd E s fd cmd arg w) w).1.
Proof.
  intros Hg (b & Hb & _) H0. assert (Hl : live w s) by (by exists b). unfold sys_fcntl_fd.
  destruct (fd >=? _) eqn:Hfd; [apply nice_refl|]. apply fd_lt in Hfd; [|done].
  rewrite (box_at_Some _ _ _ Hb). cbn zeta.
  destruct (_ && _ && _); [apply nice_refl|]. destruct (cmd =? 1); [apply nice_refl|].
  destruct (cmd =? 2); [by apply nice_set_fd|]. destruct (cmd =? 3); [apply nice_refl|].
  destruct (cmd =? 4); [by apply nice_set_fd|]. destruct (_ || _); [|apply nice_refl]. destruct (_ || _); [apply nice_refl|].
  destruct (first_below _ _) as [m|] eqn:Hm; [|apply nice_refl]. cbn [or_skip default fst].
  eapply nice_dup; [done|exact Hb|]. by apply (open_entry w s b); [apply Hg|..].
Qed.

(** A client that waits for nothing appears, or one disappears. *)
Lemma nice_new_slot slot c w : w_slots w !! slot = Some None -> pipe_wait_kind (b_pipe_wait c) = 0 -> nice w (set_slot slot c w).
Proof.
  intros Hs Hk. apply nice_same; [|done]. intros k p i Hk' (x & Hx & Hp). exists x. split; [|done].
  unfold sotbox_get_slot, set_slot in *. cbn in Hx. destruct (decide (i = slot)) as [->|]; [|by rewrite list_lookup_insert_ne in Hx].
  rewrite list_lookup_insert_eq in Hx by (by apply lookup_lt_Some in Hs). cbn in Hx. injection Hx as ->.
  unfold parked_on in Hp. rewrite Hk in Hp. destruct k; done.
Qed.

Lemma nice_free_slot slot w : nice w (sotbox_free_slot slot w).
Proof.
  apply nice_same; [|done]. intros k p i _ (x & Hx & Hp). exists x. split; [|done].
  unfold sotbox_get_slot, sotbox_free_slot in *. cbn in Hx. destruct (decide (i = slot)) as [->|]; [|by rewrite list_lookup_insert_ne in Hx].
  destruct (decide (slot < length (w_slots w))%nat); [by rewrite list_lookup_insert_eq in Hx|].
  by rewrite list_insert_ge in Hx by lia.
Qed.

Lemma nice_add_end_fold (f : nat -> lucas_fd) l : forall w, good w -> (forall i, i ∈ l -> end_is_open (f i) w) ->
  (forall w' e, good w' -> end_is_open e w' -> inv (add_end e w')) ->
  nice w (fold_left (fun w i => add_end (f i) w) l w).
Proof.
  induction l as [|i l IH]; intros w Hg Ho Hinv; cbn [fold_left]; [apply nice_refl|].
  assert (Hoi : end_is_open (f i) w) by (apply Ho; set_solver).
  pose proof (nice_add_end (f i) w Hg Hoi) as Hn.
  eapply nice_trans; [exact Hn|]. apply IH; [eapply nice_good; [done|by apply Hinv|done]| |done].
  intros j Hj k p Hk Hp. destruct (Ho j ltac:(set_solver) k p Hk Hp) as [H1 H2].
  destruct (add_end_spec (f i) w Hoi (refs_use w (proj2 (g_inv w Hg)))) as ((Hlen & _) & _ & Hc). rewrite Hlen.
  split; [done|]. destruct (Hc p) as [K1 K2].
  destruct Hk as [-> | ->]; cbn in *; [rewrite K1|rewrite K2]; pose proof (end_of_nonneg FD_PIPE_READ p (f i)); pose proof (end_of_nonneg FD_PIPE_WRITE p (f i)); lia.
Qed.

Lemma inv_add_end w e : good w -> end_is_open e w -> inv (add_end e w).
Proof.
  intros Hg Ho. pose proof (g_inv w Hg) as [Hf Hr]. split; [by apply fifo_add_end|].
  destruct (add_end_spec e w Ho (refs_use w Hr)) as (Hs & Hu & Hc). pose proof Hs as (H1 & H2 & _).
  apply (refs_change w); [rewrite H1; apply Hr|rewrite H2; apply Hr|apply (fds_same_len w); [done|apply Hr]| | |apply Hu|done];
    intros p; rewrite (fds_same_ends w) by done; destruct (Hc p) as [K1 K2]; rewrite ?K1, ?K2;
    pose proof (end_of_nonneg FD_PIPE_READ p e); pose proof (end_of_nonneg FD_PIPE_WRITE p e); lia.
Qed.

Lemma nice_fork E s out w : good w -> running w s -> nice w (sotbox_fork E s out w).1.
Proof.
  intros Hg (b & Hb & _). unfold sotbox_fork. rewrite (box_at_Some _ _ _ Hb).
  assert (Hn : nice w (inherit_pipe_ends (fork_child b) w)).
  { apply nice_add_end_fold; [done| |apply inv_add_end]. intros i Hi%elem_of_below. by apply (open_entry w s b); [apply Hg|..]. }
  destruct (inherit_spec w s b (g_inv w Hg) Hb) as (_ & _ & _ & Hr1 & _).
  revert Hn Hr1. generalize (inherit_pipe_ends (fork_child b) w). intros w1 Hn Hr1. cbn zeta.
  set (c := lucas_dup_vfs_handles E (fork_child b)).
  assert (Hall : forall slot, sotbox_alloc_slot w1 = Some slot -> nice w (unix_inherit_all slot c (set_slot slot c w1))).
  { intros slot Ha. apply slot_free_lookup in Ha; [|apply Hr1]. unfold unix_inherit_all.
    destruct (unix_inherit_eq slot c (seq 0 LUCAS_MAX_FDS) (set_slot slot c w1)) as (evs & _ & ->).
    eapply nice_trans; [exact Hn|]. eapply nice_trans; [by apply (nice_new_slot slot c)|].
    apply nice_same; [by intros k p i _ H|done]. }
  destruct out; [apply nice_refl|..]; (destruct (sotbox_alloc_slot w1) as [slot|]; [|done]); specialize (Hall slot eq_refl); cbn [fst];
    try done; (eapply nice_trans; [exact Hall|apply nice_free_slot]).
Qed.

Lemma nice_on_box s f w b : sotbox_get_slot w s = Some b -> b_pipe_wait (f b).1 = b_pipe_wait b -> nice w (on_box s f w).1.
Proof.
  intros Hb Hp. unfold on_box. rewrite (box_at_Some _ _ _ Hb). destruct (f b) as [b' r]. by eapply nice_set_slot.
Qed.

Lemma epoll_create_wait b : b_pipe_wait (iomux_epoll_create b).1 = b_pipe_wait b.
Proof.
  unfold iomux_epoll_create. destruct (alloc_lucas_fd b); [|done]. unfold epoll_alloc_slot.
  by destruct (first_below _ EPOLL_TABLE_SIZE).
Qed.

Lemma blocked_exec E E' s o w : good w -> running w s -> args_ok o -> blocked_ok (exec E E' s o w).1.
Proof.
  intros Hg Hrun Ha. pose proof Hrun as (b & Hb & _). pose proof (g_blocked w Hg) as Hb0.
  destruct o; cbn [exec args_ok] in *.
  - by apply (blocked_pipe s).
  - by apply (blocked_pipe s).
  - unfold sys_read_pipe. destruct (_ >=? _); [done|]. cbn zeta.
    destruct (f_kind _); try done. destruct (f_pipe _); [|done]. destruct (_ && _); [done|]. by apply blocked_read.
  - unfold sys_write_pipe. destruct (fd >=? _) eqn:Hfd; [done|]. destruct Ha as (H0 & _). apply fd_lt in Hfd; [|done].
    rewrite (box_at_Some _ _ _ Hb). cbn zeta.
    destruct (f_kind (get_fd b (Z.to_nat fd))) eqn:Hk; try done. destruct (f_pipe (get_fd b (Z.to_nat fd))) as [p|] eqn:Hp; [|done].
    apply blocked_write; [done|]. exact (entry_pipe w s b _ FD_PIPE_WRITE p (g_inv w Hg) Hb Hfd (or_intror eq_refl) Hk Hp).
  - apply blocked_write_kbuf; [done|]. by rewrite (r_pipes w (proj2 (g_inv w Hg))).
  - by apply (nice_close E s fd w).
  - destruct Ha. by apply (nice_dup2 E s oldfd newfd w).
  - destruct Ha. unfold lucas_sys_dup3. destruct (_ =? _); [done|]. by apply (nice_dup2 E s oldfd newfd w).
  - by apply (nice_fcntl E s fd cmd arg w).
  - by apply (nice_fork E s out w).
  - by apply (nice_execve E s is_apt_method w).
  - by apply (nice_exit E s w).
  - eapply nice_on_box; [exact Hb|apply epoll_create_wait|done].
  - eapply nice_on_box; [exact Hb|apply epoll_ctl_calm|done].
  - eapply nice_on_box; [exact Hb|apply epoll_wait_calm|done].
  - eapply nice_on_box; [exact Hb|apply sys_poll_calm|done].
  - eapply nice_on_box; [exact Hb|apply sys_ppoll_calm|done].
  - eapply nice_on_box; [exact Hb|apply sys_select_calm|done].
Qed.

Lemma blocked_step w w' : step w w' -> good w -> blocked_ok w'.
Proof.
  intros Hst Hg. pose proof (g_blocked w Hg) as Hb. destruct Hst as [w s b Hlt Hn Hf|E E' w s o Hr Ha|w s v (b & Hs & _)|E w uart|w slot|w s b Hs].
  - apply (nice_new_slot s b w); [|by destruct Hf as (_ & -> & _)|done].
    unfold sotbox_get_slot in Hn. destruct (w_slots w !! s) as [[]|] eqn:Hq; [done|done|].
    apply lookup_ge_None in Hq. rewrite (r_slots w (proj2 (g_inv w Hg))) in Hq. lia.
  - by apply blocked_exec.
  - rewrite (upd_box_eq _ _ _ _ Hs). by eapply nice_set_slot.
  - by apply (nice_quiet w _ (console_resume_quiet E all_slots uart w)).
  - apply (nice_same w); [by intros k p i _ H|done|done].
  - by apply (nice_free_slot s w).
Qed.

(** Runs in which never two clients wait for the same end of a pipe. *)
Inductive reach_single : world -> Prop :=
  | rs_init : reach_single init_world
  | rs_step w w' : reach_single w -> step w w' -> single w' -> reach_single w'.

Lemma init_slot i : sotbox_get_slot init_world i = None.
Proof.
  unfold sotbox_get_slot, init_world. cbn [w_slots].
  destruct (replicate SOTBOX_MAX_SLOTS None !! i) eqn:E; [|done]. apply lookup_replicate in E as [-> _]. done.
Qed.

Lemma reach_good w : reach_single w -> good w.
Proof.
  induction 1 as [|w w' _ IH Hst Hs].
  - assert (Hno : forall k p i, ~ parked init_world k p i) by (intros k p i (b & Hb & _); by rewrite init_slot in Hb).
    split; [apply inv_init| |].
    + intros k p i j _ Hi. by destruct (Hno _ _ _ Hi).
    + intros p. split; intros i Hi; by destruct (Hno _ _ _ Hi).
  - split; [eapply inv_step; [done|apply IH]|done|by eapply blocked_step].
Qed.
