(* ===== verification/PollWait.v ===== *)
(** * No multiplexed wait sleeps on a readable pipe

    A client parked in epoll_wait, poll or select wants the read ends it asked to
    hear about ([wants]).  [calm_waits]: none of those pipes is readable.  It holds
    in every reachable world: the calls park only after a scan that found nothing,
    and every change that makes a pipe readable ends with the three hooks, which
    rescan every parked client.

    First the scans (a scan that returns 0 left nothing readable among the
    interests), then the hooks; [PollOps] has the calls. *)

From S2P Require Import Prelude Storage Ring ClientMem Bytepipe BoxState Iomux Pipe FdTable Console PipeSys PipeInv PipeFifo PipeRefs PipeOps.

(** The pipe whose read end descriptor [fd] is. *)
Definition read_pipe (b : box) (fd : Z) : option nat :=
  if (0 <=? fd) && (fd <? Z.of_nat LUCAS_MAX_FDS) then pipe_end FD_PIPE_READ (get_fd b (Z.to_nat fd)) else None.

Inductive wants (b : box) (p : nat) : Prop :=
  | wants_epoll x :
      b_state b = WAITING_FOR_EPOLL -> x ∈ ep_live (get_ep b (Z.to_nat (epoll_wait_slot (b_epoll_wait b)))) ->
      has (ee_events x) LX_EPOLLIN = true -> read_pipe b (ee_fd x) = Some p -> wants b p
  | wants_poll pfds x :
      b_state b = WAITING_FOR_POLL ->
      poll_load b (poll_wait_fds_vaddr (b_poll_wait b)) (poll_wait_nfds (b_poll_wait b)) = Some pfds -> x ∈ pfds ->
      has (pollfd_events x) LX_POLLIN = true -> read_pipe b (pollfd_fd x) = Some p -> wants b p
  | wants_select fd :
      b_state b = WAITING_FOR_SELECT -> (fd < Z.to_nat (clamp_fds (sel_wait_nfds (b_sel_wait b))))%nat ->
      fdset_get (sel_wait_rfds_orig (b_sel_wait b)) fd = true -> read_pipe b (Z.of_nat fd) = Some p -> wants b p.

(** The arguments a parked call was saved with. *)
Definition wait_args_ok (b : box) : Prop :=
  (b_state b = WAITING_FOR_EPOLL ->
     0 <= epoll_wait_slot (b_epoll_wait b) < Z.of_nat EPOLL_TABLE_SIZE /\ 0 < epoll_wait_maxevents (b_epoll_wait b)) /\
  (b_state b = WAITING_FOR_POLL ->
     0 < poll_wait_fds_vaddr (b_poll_wait b) /\ poll_wait_fds_vaddr (b_poll_wait b) + 512 <= 2 ^ 64 /\
     0 < poll_wait_nfds (b_poll_wait b)) /\
  (b_state b = WAITING_FOR_SELECT ->
     0 < sel_wait_rfds_vaddr (b_sel_wait b) /\ sel_wait_rfds_vaddr (b_sel_wait b) + 8 <= 2 ^ 64 /\
     0 < sel_wait_nfds (b_sel_wait b) /\ length (sel_wait_rfds_orig (b_sel_wait b)) = FDSET_WORDS).

Definition not_readable (ps : list pipe) (p : nat) : Prop := lucas_pipe_read_ready (ps.[p, zero_pipe]) = false.

(** ** The oracle *)

Lemma has_or_if c m x k : has (or_if c m x) k = has x k || (c && has m k).
Proof.
  unfold has, or_if. destruct c; [|by rewrite orb_false_r]. cbn [andb]. rewrite Z.land_lor_distr_l.
  generalize (Z.land x k), (Z.land m k). intros u v.
  pose proof (Z.lor_eq_0_iff u v) as H.
  destruct (Z.eqb_spec u 0), (Z.eqb_spec v 0), (Z.eqb_spec (Z.lor u v) 0); cbn; tauto.
Qed.

Lemma ready_readable E ps b fd p : read_pipe b fd = Some p ->
  has (iomux_fd_ready E ps b fd) IOMUX_READABLE = lucas_pipe_read_ready (ps.[p, zero_pipe]).
Proof.
  unfold read_pipe, iomux_fd_ready. destruct ((0 <=? fd) && (fd <? Z.of_nat LUCAS_MAX_FDS)) eqn:Hfd; [|done].
  bool_to_prop. unfold pipe_end. case_bool_decide as Hk; [|done]. intros Hp.
  rewrite (proj2 (Z.ltb_ge fd 0)), Z.geb_leb, (proj2 (Z.leb_gt _ fd)) by lia. cbn [orb].
  rewrite Hk. unfold fd_pipe. rewrite Hp. rewrite !has_or_if. cbn. by rewrite andb_false_r, orb_false_r, andb_true_r.
Qed.

(** ** Scans that find nothing *)

Lemma got_zero E ps b x p : epoll_got E ps b x = 0 -> has (ee_events x) LX_EPOLLIN = true -> read_pipe b (ee_fd x) = Some p ->
  not_readable ps p.
Proof.
  intros Hg Hw Hp. unfold not_readable. rewrite <- (ready_readable E ps b (ee_fd x) p Hp).
  assert (H : has (epoll_got E ps b x) LX_EPOLLIN = false) by (by rewrite Hg). unfold epoll_got in H.
  rewrite !has_or_if, Hw in H. cbn in H. rewrite !andb_true_r in H. by destruct (has (iomux_fd_ready _ _ _ _) IOMUX_READABLE).
Qed.

Lemma stage_nil E ps b room xs : room <> 0%nat -> epoll_stage E ps b room xs = [] -> forall x, x ∈ xs -> epoll_got E ps b x = 0.
Proof.
  intros Hr. induction xs as [|y xs IH]; cbn [epoll_stage]; [set_solver|]. destruct room as [|room]; [done|].
  destruct (Z.eqb_spec (epoll_got E ps b y) 0); [|done]. intros H x [->|Hx]%elem_of_cons; [done|]. by apply IH.
Qed.

Lemma drain_zero E ps b slot v m b' : 0 <= slot < Z.of_nat EPOLL_TABLE_SIZE -> 0 < m ->
  epoll_drain_ready E ps b slot v m = (b', 0) ->
  b' = b /\ forall x, x ∈ ep_live (get_ep b (Z.to_nat slot)) -> epoll_got E ps b x = 0.
Proof.
  intros Hs Hm. unfold epoll_drain_ready. rewrite (proj2 (Z.ltb_ge slot 0)), Z.geb_leb, (proj2 (Z.leb_gt _ slot)) by lia.
  cbn [orb]. rewrite (proj2 (Z.leb_gt m 0)) by lia.
  destruct (epoll_stage E ps b (Z.to_nat (Z.min m 16)) (ep_live (get_ep b (Z.to_nat slot)))) as [|y ys] eqn:Hst.
  - intros [= <-]. split; [done|]. intros x Hx. eapply stage_nil; [|exact Hst|done]. lia.
  - match goal with |- context [box_copy_out ?b2 v ?bs] => destruct (box_copy_out b2 v bs) as [b3 []] end; intros [= ? ?]; cbn in *; lia.
Qed.

Lemma revents_zero E ps b x p : poll_revents E ps b x = 0 -> has (pollfd_events x) LX_POLLIN = true ->
  read_pipe b (pollfd_fd x) = Some p -> not_readable ps p.
Proof.
  intros Hg Hw Hp. unfold not_readable. rewrite <- (ready_readable E ps b (pollfd_fd x) p Hp).
  assert (Hfd : (pollfd_fd x <? 0) = false).
  { unfold read_pipe in Hp. destruct ((0 <=? pollfd_fd x) && _) eqn:H; [|done]. bool_to_prop. by apply Z.ltb_ge. }
  assert (H : has (poll_revents E ps b x) LX_POLLIN = false) by (by rewrite Hg). unfold poll_revents in H. rewrite Hfd in H.
  rewrite !has_or_if, Hw in H. cbn in H. rewrite !andb_true_r in H. by destruct (has (iomux_fd_ready _ _ _ _) IOMUX_READABLE).
Qed.

Lemma clamp_bounds n : 0 < n -> 0 < clamp_fds n <= 64.
Proof. intros. unfold clamp_fds. change (Z.of_nat LUCAS_MAX_FDS) with 64. rewrite Z.gtb_ltb. destruct (Z.ltb_spec 64 n); lia. Qed.

Lemma pollfds_length n : forall bs x, x ∈ pollfds n bs -> length bs = (n * 8)%nat -> length x = 8%nat.
Proof.
  induction n as [|n IH]; intros bs x; cbn [pollfds]; [set_solver|].
  intros [->|Hx]%elem_of_cons Hl; [rewrite length_take; unfold POLLFD_BYTES; lia|].
  apply (IH _ _ Hx). rewrite length_drop. unfold POLLFD_BYTES. lia.
Qed.

Lemma length_pollfds n bs : length (pollfds n bs) = n.
Proof. revert bs. induction n; intros; cbn; auto. Qed.

Lemma pollfds_concat l : Forall (fun x => length x = 8%nat) l -> pollfds (length l) (concat l) = l.
Proof.
  induction 1 as [|x l Hx _ IH]; cbn [length pollfds concat]; [done|]. unfold POLLFD_BYTES.
  rewrite take_app_length', drop_app_length' by done. by rewrite IH.
Qed.

Lemma concat_length8 l : Forall (fun x : list Z => length x = 8%nat) l -> length (concat l) = (length l * 8)%nat.
Proof. induction 1 as [|x l Hx _ IH]; cbn; [done|]. rewrite length_app, Hx, IH. done. Qed.

Lemma field_take6 x y off n : (off + n <= 6)%nat -> length x = 8%nat -> field (take 6 x ++ y) off n = field x off n.
Proof.
  intros Hn Hl. unfold field. f_equal. rewrite drop_app_le, take_app_le by (rewrite ?length_drop, ?length_take; lia).
  rewrite <- (take_drop 6 x) at 2. rewrite drop_app_le, take_app_le by (rewrite ?length_drop, ?length_take; lia). done.
Qed.

(** A poll that found nothing leaves a set that asks for the same and has nothing
    readable. *)
Lemma poll_scan_zero E ps b v n b' : 0 < v -> v + 512 <= 2 ^ 64 -> 0 < n ->
  iomux_poll_scan E ps b v n = (b', 0) ->
  forall pfds x p, poll_load b' v n = Some pfds -> x ∈ pfds -> has (pollfd_events x) LX_POLLIN = true ->
    read_pipe b (pollfd_fd x) = Some p -> not_readable ps p.
Proof.
  intros Hv Hmax Hn. unfold iomux_poll_scan.
  rewrite (proj2 (Z.eqb_neq n 0)), (proj2 (Z.eqb_neq v 0)) by lia. cbn [orb].
  pose proof (clamp_bounds n Hn) as Hc. unfold poll_load at 1. unfold POLLFD_BYTES. change (Z.of_nat 8) with 8.
  assert (Hr : in_range v (clamp_fds n * 8)) by (unfold in_range; lia).
  destruct (lucas_copy_from_client (b_vspace b) v (clamp_fds n * 8)) as [bs|] eqn:Hin; [|done].
  destruct (copy_from_some _ _ _ _ Hr Hin) as [Hacc Hbs]. cbn zeta.
  set (pf := pollfds (Z.to_nat (clamp_fds n)) bs).
  assert (Hl8 : forall x, x ∈ pf -> length x = 8%nat).
  { intros x Hx. eapply pollfds_length; [exact Hx|]. rewrite Hbs, length_slice. lia. }
  set (out := map (fun x => take 6 x ++ le_bytes 2 (poll_revents E ps b x)) pf).
  assert (Ho8 : Forall (fun x => length x = 8%nat) out).
  { apply Forall_forall. intros y Hy. apply list_elem_of_In, in_map_iff in Hy as (x & <- & Hx%list_elem_of_In).
    rewrite length_app, length_take, (Hl8 x Hx), length_le_bytes. done. }
  assert (Hol : length out = Z.to_nat (clamp_fds n)) by (subst out pf; by rewrite length_map, length_pollfds).
  assert (Hlen : Z.of_nat (length (concat out)) = clamp_fds n * 8) by (rewrite concat_length8, Hol by done; lia).
  unfold box_copy_out. pose proof (copy_out_in (b_vspace b) v (concat out)) as Hback. rewrite Hlen in Hback. specialize (Hback Hr Hacc).
  destruct (lucas_copy_to_client (b_vspace b) v (concat out)) as [v' ok]. cbn [fst] in Hback.
  destruct ok; [|done]. intros [= <- Hready]. intros pfds x p Hload Hx Hin1 Hp.
  assert (Hpf : pfds = out).
  { unfold poll_load, POLLFD_BYTES in Hload. cbn [b_vspace set_b_vspace] in Hload. change (Z.of_nat 8) with 8 in Hload.
    rewrite Hback in Hload. injection Hload as <-. rewrite <- Hol. by apply pollfds_concat. }
  subst pfds. apply list_elem_of_In, in_map_iff in Hx as (y & <- & Hy%list_elem_of_In).
  unfold pollfd_events, pollfd_fd in *. rewrite field_take6 in * by (lia || by apply Hl8).
  apply (revents_zero E ps b y); try done.
  destruct (decide (poll_revents E ps b y = 0)) as [|Hne]; [done|]. exfalso.
  assert (Hin2 : y ∈ filter (fun x => poll_revents E ps b x <> 0) pf) by (by apply list_elem_of_filter).
  destruct (filter _ pf); [set_solver|]. cbn in Hready. lia.
Qed.

Lemma select_ready_mono E ps b rf wf ef rin win ein l : forall acc,
  let out := fold_left (select_step E ps b rf wf ef rin win ein) l acc in
  ss_ready acc <= ss_ready out /\
  (ss_ready out = ss_ready acc -> rf <> 0 -> forall fd, fd ∈ l -> fdset_get rin fd = true ->
     has (iomux_fd_ready E ps b (Z.of_nat fd)) IOMUX_READABLE = false).
Proof.
  induction l as [|fd l IH]; intros acc; cbn [fold_left]; [split; [lia|set_solver]|].
  set (acc1 := select_step _ _ _ _ _ _ _ _ _ acc fd). destruct (IH acc1) as [H1 H2]. cbn zeta in *.
  set (r := negb (rf =? 0) && fdset_get rin fd && has (iomux_fd_ready E ps b (Z.of_nat fd)) IOMUX_READABLE).
  assert (Ha : ss_ready acc + Z.b2z r <= ss_ready acc1).
  { subst acc1 r. unfold select_step. cbn [ss_ready].
    repeat match goal with |- context [Z.b2z ?c] => lazymatch goal with H : 0 <= Z.b2z c |- _ => fail | _ => assert (0 <= Z.b2z c) by (by destruct c) end end. lia. }
  assert (Hr0 : 0 <= Z.b2z r) by (destruct r; cbn; lia). split; [lia|].
  intros He Hrf fd' [->|Hin]%elem_of_cons Hg.
  - assert (r = false) as Hr by (destruct r; [change (Z.b2z true) with 1 in Ha; lia|done]). subst r.
    rewrite (proj2 (Z.eqb_neq rf 0)), Hg in Hr by done. done.
  - apply H2; [lia|done|done|done].
Qed.

Lemma select_scan_zero E ps b n r w e b' rin : r <> 0 -> 0 < n ->
  fdset_load b r (set_bytes (clamp_fds n)) = Some rin ->
  iomux_select_scan E ps b n r w e = (b', 0) ->
  forall fd p, (fd < Z.to_nat (clamp_fds n))%nat -> fdset_get rin fd = true -> read_pipe b (Z.of_nat fd) = Some p -> not_readable ps p.
Proof.
  intros Hr Hn Hload. unfold iomux_select_scan. rewrite (proj2 (Z.leb_gt n 0)) by lia. cbn zeta. rewrite Hload.
  set (nb := set_bytes (clamp_fds n)). destruct (fdset_load b w nb) as [win|]; [|done]. destruct (fdset_load b e nb) as [ein|]; [|done].
  destruct (select_ready_mono E ps b r w e rin win ein (seq 0 (Z.to_nat (clamp_fds n))) (mk_sel_sets zero_set zero_set zero_set 0)) as [_ H].
  cbn zeta in H. set (out := fold_left _ _ _) in *.
  destruct (fdset_store b r nb (ss_r out)) as [b1 []]; cbn [negb]; [|done].
  destruct (fdset_store b1 w nb (ss_w out)) as [b2 []]; cbn [negb]; [|done].
  destruct (fdset_store b2 e nb (ss_e out)) as [b3 []]; cbn [negb]; [|done].
  intros [= _ H0] fd p Hfd Hg Hp. unfold not_readable. rewrite <- (ready_readable E ps b (Z.of_nat fd) p Hp).
  apply H; [done|done| |done]. apply list_elem_of_In, in_seq. lia.
Qed.

Lemma set_bytes_8 n : 0 < n -> set_bytes (clamp_fds n) = 8.
Proof.
  intros Hn. pose proof (clamp_bounds n Hn). unfold set_bytes, fdset_bytes. rewrite (proj2 (Z.leb_gt _ 0)) by lia.
  change (8 * Z.of_nat FDSET_WORDS) with 8. replace ((clamp_fds n + 63) / 64) with 1; [done|].
  apply Z.div_unique with (clamp_fds n - 1); lia.
Qed.

Lemma set_bytes_pos n : 0 < n -> set_bytes n = 8.
Proof.
  intros Hn. unfold set_bytes, fdset_bytes. rewrite (proj2 (Z.leb_gt _ 0)) by lia. change (8 * Z.of_nat FDSET_WORDS) with 8.
  assert (1 <= (n + 63) / 64) by (apply Z.div_le_lower_bound; lia). lia.
Qed.

Lemma le_val_mod n : forall z, le_val (le_bytes n z) = z mod 2 ^ (8 * Z.of_nat n).
Proof.
  induction n as [|n IH]; intros z; cbn [le_bytes le_val]; [change (2 ^ (8 * Z.of_nat 0)) with 1; by rewrite Z.mod_1_r|].
  rewrite IH. replace (8 * Z.of_nat (S n)) with (8 + 8 * Z.of_nat n) by lia. rewrite Z.pow_add_r by lia.
  change (2 ^ 8) with 256. rewrite Z.rem_mul_r by lia. done.
Qed.

(** The words of a set that was stored and loaded. *)
Lemma words_back ws fd : length ws = FDSET_WORDS -> (fd < 64)%nat ->
  fdset_get (words_of_bytes (take 8 (bytes_of_words ws))) fd = fdset_get ws fd.
Proof.
  intros Hl Hfd. destruct ws as [|x [|]]; try done. unfold fdset_get. rewrite Nat.div_small, Nat.mod_small by done.
  cbn [words_of_bytes bytes_of_words map concat seq FDSET_WORDS default lookup list_lookup].
  rewrite app_nil_r. unfold field. rewrite (firstn_all2 (le_bytes 8 x)) by (by rewrite length_le_bytes).
  unfold id. rewrite le_val_mod. change (8 * Z.of_nat 8) with 64. by rewrite Z.mod_pow2_bits_low by lia.
Qed.

Lemma restore_load b r : r <> 0 -> in_range r 8 -> length (sel_wait_rfds_orig (b_sel_wait b)) = FDSET_WORDS ->
  sel_wait_rfds_vaddr (b_sel_wait b) = r -> 0 < sel_wait_nfds (b_sel_wait b) ->
  forall rin, fdset_load (select_restore b) r 8 = Some rin ->
  forall fd, (fd < 64)%nat -> fdset_get rin fd = fdset_get (sel_wait_rfds_orig (b_sel_wait b)) fd.
Proof.
  intros Hr Hrange Hl Hv Hn rin. unfold select_restore, fdset_load. rewrite Hv, (proj2 (Z.eqb_neq r 0)) by done.
  rewrite set_bytes_pos by done. change (Z.to_nat 8) with 8%nat.
  set (src := take 8 (bytes_of_words (sel_wait_rfds_orig (b_sel_wait b)))).
  assert (Hsrc : Z.of_nat (length src) = 8).
  { subst src. destruct (sel_wait_rfds_orig (b_sel_wait b)) as [|x [|]]; try done. }
  unfold box_copy_out.
  pose proof (copy_to_frame (b_vspace b) r src ltac:(by rewrite Hsrc)) as (Hf & Hd & _).
  pose proof (copy_out_in (b_vspace b) r src) as Hback. rewrite Hsrc in Hback.
  destruct (lucas_copy_to_client (b_vspace b) r src) as [v' ok]. cbn [fst b_vspace set_b_vspace] in *.
  destruct (lucas_copy_from_client v' r 8) as [bs|] eqn:Hin; [|done]. intros [= <-] fd Hfd.
  destruct (copy_from_some _ _ _ _ Hrange Hin) as [Hacc _].
  assert (Hacc0 : accessible (b_vspace b) r 8).
  { intros i Hi. specialize (Hacc i Hi). unfold page_ok in *. by rewrite Hf, Hd in Hacc. }
  specialize (Hback Hrange Hacc0). injection Hback as ->. by apply words_back.
Qed.

(** ** Boxes *)

Definition pipe_state (b : box) : Prop := b_state b = WAITING_FOR_PIPE_READ \/ b_state b = WAITING_FOR_PIPE_WRITE.

(** A client parked on a pipe is in the state that says so. *)
Definition box_ok (b : box) : Prop := wait_args_ok b /\ (pipe_wait_kind (b_pipe_wait b) <> 0 -> pipe_state b).

Definition calm_box (ps : list pipe) (b : box) : Prop := forall p, wants b p -> not_readable ps p.

Definition boxes_ok (w : world) : Prop := forall i b, sotbox_get_slot w i = Some b -> box_ok b.
Definition calm_waits (w : world) : Prop := forall i b, sotbox_get_slot w i = Some b -> calm_box (w_pipes w) b.

(** Not parked in a multiplexing call. *)
Definition idle (b : box) : Prop :=
  b_state b <> WAITING_FOR_EPOLL /\ b_state b <> WAITING_FOR_POLL /\ b_state b <> WAITING_FOR_SELECT /\
  (pipe_wait_kind (b_pipe_wait b) <> 0 -> pipe_state b).

Lemma idle_ok b : idle b -> box_ok b.
Proof. intros (H1 & H2 & H3 & H4). split; [|done]. unfold wait_args_ok. split_and!; congruence. Qed.

Lemma idle_wants b p : idle b -> ~ wants b p.
Proof. intros (H1 & H2 & H3 & _) []; congruence. Qed.

Lemma idle_calm ps b : idle b -> calm_box ps b.
Proof. intros Hi p Hw. by apply idle_wants in Hw. Qed.

Lemma running_idle b b' : box_ok b -> b_state b = RUNNING -> b_state b' = RUNNING -> b_pipe_wait b' = b_pipe_wait b -> idle b'.
Proof.
  intros [_ Hk] Hs Hs' Hp. unfold idle, pipe_state in *. rewrite Hs', Hp. split_and!; try done.
  intros H. destruct (Hk H); congruence.
Qed.

(** A multiplexed wait that is over. *)
Lemma resumed_idle b b' : box_ok b -> ~ pipe_state b -> b_state b' = RUNNING -> b_pipe_wait b' = b_pipe_wait b -> idle b'.
Proof.
  intros [_ Hk] Hs Hs' Hp. unfold idle, pipe_state in *. rewrite Hs', Hp. split_and!; try done. intros H. tauto.
Qed.

Lemma resume_if_cases resume i b n b' ev : Some (resume_if resume i (b, n)) = Some (b', ev) ->
  (n = 0 /\ b' = b) \/ (n <> 0 /\ b' = (resume i n b).1).
Proof.
  unfold resume_if. destruct (Z.eqb_spec n 0) as [->|]; [intros [= <- _]; by left|].
  right. destruct (resume i n b). split; [done|]. cbn. congruence.
Qed.

Lemma epoll_hook_calm E ps i b b' ev : box_ok b -> epoll_hook E ps i b = Some (b', ev) ->
  b_state b = WAITING_FOR_EPOLL /\ (b_state b' = WAITING_FOR_EPOLL \/ b_state b' = RUNNING) /\ box_ok b' /\ calm_box ps b'.
Proof.
  intros Hok. unfold epoll_hook. case_bool_decide as Hst; [done|]. cbn zeta.
  assert (Hs : b_state b = WAITING_FOR_EPOLL) by (destruct (decide (b_state b = WAITING_FOR_EPOLL)); tauto). clear Hst.
  pose proof (proj1 (proj1 Hok) Hs) as [Hslot Hmax]. destruct (Z.ltb_spec (epoll_wait_slot (b_epoll_wait b)) 0); [done|].
  destruct (epoll_drain_ready _ _ _ _ _ _) as [b1 n] eqn:Hd. pose proof (drain_ready_only_mem E ps b (epoll_wait_slot (b_epoll_wait b))
    (epoll_wait_events_vaddr (b_epoll_wait b)) (epoll_wait_maxevents (b_epoll_wait b))) as Hm. rewrite Hd in Hm. cbn in Hm.
  intros Hr. split; [done|]. destruct (resume_if_cases _ _ _ _ _ _ Hr) as [[-> ->]|[Hn ->]].
  - destruct (drain_zero _ _ _ _ _ _ _ Hslot Hmax Hd) as [-> Hz]. split; [by left|]. split; [done|].
    intros p [x _ Hx Hev Hp|? ? Hst|? Hst]; [|congruence..]. by eapply got_zero; [apply Hz|..].
  - split; [by right|]. assert (Hi : idle (epoll_resume_sotbox i n b1).1).
    { apply (resumed_idle b); [done|unfold pipe_state; intros [H'|H']; congruence|done|]. cbn. by rewrite Hm. }
    split; [by apply idle_ok|by apply idle_calm].
Qed.

Lemma poll_hook_calm E ps i b b' ev : box_ok b -> poll_hook E ps i b = Some (b', ev) ->
  b_state b = WAITING_FOR_POLL /\ (b_state b' = WAITING_FOR_POLL \/ b_state b' = RUNNING) /\ box_ok b' /\ calm_box ps b'.
Proof.
  intros Hok. unfold poll_hook. case_bool_decide as Hst; [done|]. cbn zeta.
  assert (Hs : b_state b = WAITING_FOR_POLL) by (destruct (decide (b_state b = WAITING_FOR_POLL)); tauto). clear Hst.
  pose proof (proj1 (proj2 (proj1 Hok)) Hs) as (Hv & Hmax & Hn0).
  destruct (iomux_poll_scan _ _ _ _ _) as [b1 n] eqn:Hd. pose proof (poll_scan_only_mem E ps b (poll_wait_fds_vaddr (b_poll_wait b))
    (poll_wait_nfds (b_poll_wait b))) as Hm. rewrite Hd in Hm. cbn in Hm.
  intros Hr. split; [done|]. destruct (resume_if_cases _ _ _ _ _ _ Hr) as [[-> ->]|[Hn ->]].
  - assert (Hs1 : b_state b1 = WAITING_FOR_POLL) by (by rewrite Hm). split; [by left|].
    split; [rewrite Hm; destruct Hok; split; [|done]; unfold wait_args_ok in *; cbn; tauto|].
    intros p [? Hst|pfds x _ Hl Hx Hev Hp|? Hst]; [congruence| |congruence].
    rewrite Hm in Hl. cbn [b_poll_wait set_b_vspace] in Hl. rewrite <- Hm in Hl.
    eapply (poll_scan_zero E ps b _ _ b1 Hv Hmax Hn0 Hd pfds x); [done|done|done|]. rewrite Hm in Hp. exact Hp.
  - split; [by right|]. assert (Hi : idle (poll_resume_sotbox i n b1).1).
    { apply (resumed_idle b); [done|unfold pipe_state; intros [H'|H']; congruence|done|]. cbn. by rewrite Hm. }
    split; [by apply idle_ok|by apply idle_calm].
Qed.

Lemma select_load_some E ps b n r w e b' : 0 < n -> iomux_select_scan E ps b n r w e = (b', 0) ->
  exists rin, fdset_load b r 8 = Some rin.
Proof.
  intros Hn. unfold iomux_select_scan. rewrite (proj2 (Z.leb_gt n 0)) by lia. cbn zeta. rewrite set_bytes_8 by done.
  destruct (fdset_load b r 8) as [rin|]; [by eexists|done].
Qed.

Lemma select_hook_calm E ps i b b' ev : box_ok b -> select_hook E ps i b = Some (b', ev) ->
  b_state b = WAITING_FOR_SELECT /\ (b_state b' = WAITING_FOR_SELECT \/ b_state b' = RUNNING) /\ box_ok b' /\ calm_box ps b'.
Proof.
  intros Hok. unfold select_hook. case_bool_decide as Hst; [done|]. cbn zeta.
  assert (Hs : b_state b = WAITING_FOR_SELECT) by (destruct (decide (b_state b = WAITING_FOR_SELECT)); tauto). clear Hst.
  pose proof (proj2 (proj2 (proj1 Hok)) Hs) as (Hv & Hmax & Hn0 & Hlen).
  set (x := b_sel_wait b) in *.
  destruct (iomux_select_scan _ _ _ _ _ _ _) as [b1 n] eqn:Hd.
  assert (Hm : only_mem b b1).
  { eapply only_mem_trans; [apply select_restore_only_mem|].
    pose proof (select_scan_only_mem E ps (select_restore b) (sel_wait_nfds x) (sel_wait_rfds_vaddr x) (sel_wait_wfds_vaddr x) (sel_wait_efds_vaddr x)) as H.
    by rewrite Hd in H. }
  intros Hr. split; [done|]. destruct (resume_if_cases _ _ _ _ _ _ Hr) as [[-> ->]|[Hn ->]].
  - assert (Hs1 : b_state b1 = WAITING_FOR_SELECT) by (by rewrite Hm). split; [by left|].
    split; [rewrite Hm; destruct Hok; split; [|done]; unfold wait_args_ok in *; cbn; tauto|].
    intros p [? Hst|? ? Hst|fd _ Hfd Hg Hp]; [congruence|congruence|].
    rewrite Hm in Hfd, Hg, Hp. cbn [b_sel_wait set_b_vspace] in Hfd, Hg. fold x in Hfd, Hg.
    destruct (select_load_some _ _ _ _ _ _ _ _ Hn0 Hd) as [rin Hload].
    pose proof (clamp_bounds _ Hn0) as Hcb.
    assert (Hget : fdset_get rin fd = true).
    { rewrite (restore_load b (sel_wait_rfds_vaddr x)) with (rin := rin); [done|lia|unfold in_range; lia|done|done|done|done|lia]. }
    eapply (select_scan_zero E ps (select_restore b)); [..|exact Hd|exact Hfd|exact Hget|];
      [lia|done|by rewrite set_bytes_8|].
    pose proof (select_restore_only_mem b) as Hm2. rewrite Hm2. exact Hp.
  - split; [by right|]. assert (Hi : idle (select_resume_sotbox i n b1).1).
    { apply (resumed_idle b); [done|unfold pipe_state; intros [H'|H']; congruence|done|]. cbn. by rewrite Hm. }
    split; [by apply idle_ok|by apply idle_calm].
Qed.
