(* ===== verification/PollOps.v ===== *)
(** * Every call keeps the multiplexed waits calm

    [calm_at s w]: nobody parked in epoll_wait, poll or select waits for a readable
    pipe, and the client in slot [s], which makes the call, is not parked.  Two
    frames carry the proof: [mild] (no client is put into a multiplexed wait) and
    [dull] (no pipe becomes readable); a step that is both keeps [calm_at], a step
    that is mild and ends with the hooks restores it. *)

From S2P Require Import Prelude Storage Ring ClientMem Bytepipe BoxState Iomux Pipe FdTable Console PipeSys PipeInv PipeFifo PipeRefs PipeOps PipeWait PollWait.

Definition readable (w : world) (p : nat) : bool := lucas_pipe_read_ready (get_pipe w p).

Definition idle_at (w : world) (s : nat) : Prop := forall b, sotbox_get_slot w s = Some b -> idle b.

Record base (s : nat) (w : world) : Prop := {
  c_len : length (w_slots w) = SOTBOX_MAX_SLOTS;
  c_writers : forall p, 0 <= p_writers_open (get_pipe w p);
  c_boxes : boxes_ok w;
  c_idle : idle_at w s
}.

Definition calm_at (s : nat) (w : world) : Prop := base s w /\ calm_waits w.

(** ** The frames *)

Record mild (w w' : world) : Prop := {
  m_len : length (w_slots w') = length (w_slots w);
  m_writers : (forall p, 0 <= p_writers_open (get_pipe w p)) -> forall p, 0 <= p_writers_open (get_pipe w' p);
  m_box : forall i b, sotbox_get_slot w' i = Some b -> idle b \/ sotbox_get_slot w i = Some b
}.

Definition dull (w w' : world) : Prop := forall p, readable w' p = true -> readable w p = true.

#[export] Instance mild_pre : PreOrder mild.
Proof.
  split; [constructor; auto|]. intros u v w [H1 H2 H3] [K1 K2 K3]. constructor; [congruence|auto|].
  intros i b Hb. destruct (K3 i b Hb) as [|Hv]; [by left|]. by apply H3.
Qed.

#[export] Instance dull_pre : PreOrder dull.
Proof. split; [by intros w p|]. intros u v w H K p Hp. auto. Qed.

Lemma mild_trans u v w : mild u v -> mild v w -> mild u w.
Proof. apply transitivity. Qed.

Lemma dull_trans u v w : dull u v -> dull v w -> dull u w.
Proof. apply transitivity. Qed.

Lemma mild_idle_at w w' s : mild w w' -> idle_at w s -> idle_at w' s.
Proof. intros H Hi b Hb. destruct (m_box _ _ H s b Hb); auto. Qed.

Lemma mild_base s w w' : mild w w' -> base s w -> base s w'.
Proof.
  intros H [Hl Hw Hb Hi]. constructor; [by rewrite (m_len _ _ H)|by apply (m_writers _ _ H)| |by eapply mild_idle_at].
  intros i b Hs. destruct (m_box _ _ H i b Hs); [by apply idle_ok|by eapply Hb].
Qed.

Lemma waits_frame w w' : mild w w' -> dull w w' -> calm_waits w -> calm_waits w'.
Proof.
  intros Hm Hd Hc i b Hs p Hw. destruct (m_box _ _ Hm i b Hs) as [Hi|Hi]; [by apply (idle_wants b p) in Hi|].
  specialize (Hc i b Hi p Hw). unfold not_readable in *. change (readable w' p = false). change (readable w p = false) in Hc.
  destruct (readable w' p) eqn:Hr; [|done]. apply Hd in Hr. congruence.
Qed.

Lemma calm_frame s w w' : mild w w' -> dull w w' -> calm_at s w -> calm_at s w'.
Proof. intros Hm Hd [Hb Hc]. split; [by eapply mild_base|by eapply waits_frame]. Qed.

(** ** Elementary steps *)

Lemma slot_set_any i b w j x : sotbox_get_slot (set_slot i b w) j = Some x -> x = b \/ sotbox_get_slot w j = Some x.
Proof.
  unfold sotbox_get_slot, set_slot. cbn. destruct (decide (j = i)) as [->|]; [|rewrite list_lookup_insert_ne by done; auto].
  destruct (decide (i < length (w_slots w))%nat); [rewrite list_lookup_insert_eq by done; cbn; left; congruence|].
  rewrite list_insert_ge by lia. auto.
Qed.

Lemma mild_set_slot i b w : idle b -> mild w (set_slot i b w).
Proof.
  intros Hi. constructor; [apply length_set_slot|done|]. intros j x Hx. destruct (slot_set_any _ _ _ _ _ Hx) as [->|]; auto.
Qed.

Lemma mild_log e w : mild w (log_event e w).
Proof. constructor; [done|done|]. by intros i b Hb; right. Qed.

Lemma mild_set_pipe p x w : 0 <= p_writers_open x \/ p_writers_open x = p_writers_open (get_pipe w p) -> mild w (set_pipe p x w).
Proof.
  intros Hx. constructor; [done| |by intros i b Hb; right]. intros H q. rewrite get_pipe_set. case_bool_decide as Hq; [|done].
  destruct Hx as [|Hx]; [done|]. rewrite Hx. apply H.
Qed.

Lemma dull_set_pipe p x w : (lucas_pipe_read_ready x = true -> readable w p = true) -> dull w (set_pipe p x w).
Proof. intros H q. unfold readable. rewrite get_pipe_set. case_bool_decide as Hq; [|done]. destruct Hq as [<- _]. exact H. Qed.

Lemma idle_at_box w s : idle_at w s -> idle (box_at w s).
Proof. intros H. unfold box_at. destruct (sotbox_get_slot w s) as [b|] eqn:Hb; [by apply H|]. cbn. unfold idle. cbn. done. Qed.

(** A box that differs in other fields only. *)
Lemma idle_same b b' : b_state b' = b_state b -> b_pipe_wait b' = b_pipe_wait b -> idle b -> idle b'.
Proof. intros H1 H2. unfold idle, pipe_state. by rewrite H1, H2. Qed.

Lemma mild_upd s f w : idle_at w s -> (forall b, idle b -> idle (f b)) -> mild w (upd_box s f w).
Proof. intros Hi Hf. apply mild_set_slot, Hf. by apply idle_at_box. Qed.

Lemma calm_at_upd s f w : (forall b, idle b -> idle (f b)) -> calm_at s w -> calm_at s (upd_box s f w).
Proof. intros Hf Hc. apply (calm_frame s w); [|by intros p|done]. apply mild_upd; [apply Hc|done]. Qed.

Lemma idle_set_fd n e b : idle b -> idle (set_fd n e b).
Proof. by apply idle_same. Qed.

Lemma calm_set_fd s n e w : calm_at s w -> calm_at s (upd_box s (set_fd n e) w).
Proof. apply calm_at_upd. intros b. apply idle_set_fd. Qed.

Lemma calm_log s e w : calm_at s w -> calm_at s (log_event e w).
Proof. apply calm_frame; [apply mild_log|by intros p]. Qed.

(** ** Transfers and wakes *)

Lemma parked_idle w i b k p : boxes_ok w -> sotbox_get_slot w i = Some b -> k <> 0 -> parked_on k p b = true -> idle_at w i.
Proof.
  intros Hok Hb Hk Hp b' Hb'. rewrite Hb in Hb'. injection Hb' as <-. destruct (Hok i b Hb) as [_ Hs].
  unfold parked_on in Hp. apply andb_true_iff in Hp as [Hp%Z.eqb_eq _]. rewrite <- Hp in Hk.
  specialize (Hs Hk). unfold idle. split_and!; [destruct Hs; congruence..|done].
Qed.

Lemma mild_drain s p v n w : idle_at w s -> mild w (pipe_read_drain s p v n w).1.
Proof.
  intros Hi. unfold pipe_read_drain. destruct (sotbox_get_slot w s) as [b|] eqn:Hb; [|done]. cbn zeta.
  destruct (_ =? 0); [done|]. destruct (ring_take _ _ _ _) as [stage tail]. cbn [fst].
  eapply mild_trans; [|apply mild_set_slot; eapply idle_same; [| |by apply Hi]; by rewrite (copy_out_only_mem b v stage)].
  eapply mild_trans; [|apply mild_log]. apply mild_set_pipe. by right.
Qed.

Lemma mild_fill s p v n w : mild w (pipe_write_fill s p v n w).1.
Proof.
  unfold pipe_write_fill. destruct (sotbox_get_slot w s); [|done]. cbn zeta.
  destruct (_ =? 0); [done|]. destruct (pipe_copy_from_client _ _ _); [|done]. cbn [fst].
  eapply mild_trans; [|apply mild_log]. apply mild_set_pipe. right. unfold pipe_put. by destruct (ring_put _ _ _ _).
Qed.

Lemma mild_resume s r w : idle_at w s -> mild w (pipe_resume_sotbox s r w).
Proof.
  intros Hi. unfold pipe_resume_sotbox. destruct (sotbox_get_slot w s) as [b|] eqn:Hb; [|done]. cbn zeta.
  eapply mild_trans; [|apply mild_log]. apply mild_set_slot. destruct (Hi b Hb) as (H1 & H2 & H3 & _).
  unfold idle. cbn. split_and!; try done; destruct (_ || _); done.
Qed.

Lemma mild_wake_readers p w : boxes_ok w -> mild w (lucas_pipe_wake_readers p w).
Proof.
  intros Hok. unfold lucas_pipe_wake_readers. generalize all_slots. intros slots.
  induction slots as [|i slots IH]; cbn [wake_readers_loop]; [done|].
  destruct (sotbox_get_slot w i) as [b|] eqn:Hb; [|done]. destruct (parked_on 1 p b) eqn:Hp; cbn [negb]; [|done].
  pose proof (parked_idle w i b 1 p Hok Hb ltac:(lia) Hp) as Hi.
  destruct (_ >? 0); [|destruct (_ =? 0); [by apply mild_resume|done]].
  pose proof (mild_drain i p (waiting_pipe_buf (b_pipe_wait b)) (waiting_pipe_count (b_pipe_wait b)) w Hi) as H.
  destruct (pipe_read_drain _ _ _ _ _) as [w1 got]. cbn [fst] in H. eapply mild_trans; [exact H|]. apply mild_resume. by eapply mild_idle_at.
Qed.

Lemma mild_boxes_ok w w' : mild w w' -> boxes_ok w -> boxes_ok w'.
Proof. intros H Hb i b Hs. destruct (m_box _ _ H i b Hs); [by apply idle_ok|by eapply Hb]. Qed.

Lemma mild_wake_writers p w : boxes_ok w -> mild w (lucas_pipe_wake_writers p w).
Proof.
  intros Hok. unfold lucas_pipe_wake_writers. generalize all_slots. intros slots.
  induction slots as [|i slots IH]; cbn [wake_writers_loop]; [done|].
  destruct (sotbox_get_slot w i) as [b|] eqn:Hb; [|done]. destruct (parked_on 2 p b) eqn:Hp; cbn [negb]; [|done].
  pose proof (parked_idle w i b 2 p Hok Hb ltac:(lia) Hp) as Hi.
  set (r := if p_readers_open (get_pipe w p) =? 0 then _ else _).
  assert (H : mild w r.1) by (subst r; destruct (_ =? 0); [done|apply mild_fill]).
  destruct r as [w1 n]. cbn [fst] in H. pose proof (mild_idle_at _ _ _ H Hi) as Hi1.
  pose proof (mild_trans _ _ _ H (mild_resume i n w1 Hi1)) as H2.
  destruct (n >? 0); [|done]. eapply mild_trans; [exact H2|]. apply mild_wake_readers. by eapply mild_boxes_ok.
Qed.

(** ** The hooks *)

(** What each hook does to a box: nothing unless the box waits in its call, and
    then it leaves it calm. *)
Definition serves (st : sotbox_state) (ps : list pipe) (f : nat -> box -> option (box * option event)) : Prop :=
  forall i b, box_ok b ->
    match f i b with
    | Some (b', _) => b_state b = st /\ (b_state b' = st \/ b_state b' = RUNNING) /\ box_ok b' /\ calm_box ps b'
    | None => b_state b <> st
    end.

Lemma epoll_serves E ps : serves WAITING_FOR_EPOLL ps (epoll_hook E ps).
Proof.
  intros i b Hok. destruct (epoll_hook E ps i b) as [[b' ev]|] eqn:H; [by eapply epoll_hook_calm|].
  revert H. unfold epoll_hook. case_bool_decide as Hs; [done|]. cbn zeta.
  assert (Hst : b_state b = WAITING_FOR_EPOLL) by (destruct (decide (b_state b = WAITING_FOR_EPOLL)); tauto).
  destruct (proj1 (proj1 Hok) Hst). by rewrite (proj2 (Z.ltb_ge _ 0)) by lia.
Qed.

Lemma poll_serves E ps : serves WAITING_FOR_POLL ps (poll_hook E ps).
Proof.
  intros i b Hok. destruct (poll_hook E ps i b) as [[b' ev]|] eqn:H; [by eapply poll_hook_calm|].
  revert H. unfold poll_hook. by case_bool_decide.
Qed.

Lemma select_serves E ps : serves WAITING_FOR_SELECT ps (select_hook E ps).
Proof.
  intros i b Hok. destruct (select_hook E ps i b) as [[b' ev]|] eqn:H; [by eapply select_hook_calm|].
  revert H. unfold select_hook. by case_bool_decide.
Qed.

(** The boxes that wait in one of the calls of [sts] are calm. *)
Definition served (sts : list sotbox_state) (s : nat) (ps : list pipe) (w : world) : Prop :=
  w_pipes w = ps /\ length (w_slots w) = SOTBOX_MAX_SLOTS /\ boxes_ok w /\ idle_at w s /\
  forall i b, sotbox_get_slot w i = Some b -> b_state b ∈ sts -> calm_box ps b.

Lemma for_slots_served sts st s ps f w : serves st ps f -> st = WAITING_FOR_EPOLL \/ st = WAITING_FOR_POLL \/ st = WAITING_FOR_SELECT ->
  served sts s ps w -> served (st :: sts) s ps (for_slots f all_slots w).
Proof.
  intros Hf Hst (Hp & Hl & Hb & Hi & Hc). unfold served. rewrite for_slots_pipes, for_slots_length.
  assert (Hget : forall i x, sotbox_get_slot (for_slots f all_slots w) i = Some x -> exists b, sotbox_get_slot w i = Some b /\
    ((x = b /\ b_state b <> st) \/ (b_state b = st /\ (b_state x = st \/ b_state x = RUNNING) /\ box_ok x /\ calm_box ps x))).
  { intros i x. rewrite for_slots_get by apply all_slots_nodup. destruct (sotbox_get_slot w i) as [b|] eqn:Hs; [|done].
    assert (Hin : i ∈ all_slots).
    { apply get_slot_lookup, lookup_lt_Some in Hs. unfold all_slots. apply list_elem_of_In, in_seq. lia. }
    rewrite bool_decide_eq_true_2 by done. intros Hx. exists b. split; [done|]. specialize (Hf i b (Hb i b Hs)).
    destruct (f i b) as [[b' ev]|]; injection Hx as <-; [right; exact Hf|left; by split]. }
  split_and!; [done|done| | |].
  - intros i x Hx. destruct (Hget i x Hx) as (b & Hs & [[-> _]|(_ & _ & H & _)]); [by eapply Hb|done].
  - intros x Hx. destruct (Hget s x Hx) as (b & Hs & [[-> _]|(H & _)]); [by apply Hi|].
    destruct (Hi b Hs) as (H1 & H2 & H3 & _). exfalso. destruct Hst as [-> |[-> | ->]]; congruence.
  - intros i x Hx Hin. destruct (Hget i x Hx) as (b & Hs & [[-> Hne]|(_ & _ & _ & H)]); [|done].
    apply (Hc i b Hs). by apply elem_of_cons in Hin as [|].
Qed.

Lemma calm_check_all E s w : base s w -> calm_at s (iomux_check_all E w).
Proof.
  intros [Hl Hw Hb Hi].
  assert (H : served [WAITING_FOR_SELECT; WAITING_FOR_POLL; WAITING_FOR_EPOLL] s (w_pipes w) (iomux_check_all E w)).
  { rewrite check_all_hooks. apply for_slots_served; [apply select_serves|by auto|].
    apply for_slots_served; [apply poll_serves|by auto|]. apply for_slots_served; [apply epoll_serves|by auto|].
    unfold served. split_and!; [done..|]. intros i b _ H. by apply elem_of_nil in H. }
  destruct H as (Hp & Hl' & Hb' & Hi' & Hc). revert Hp Hl' Hb' Hi' Hc. generalize (iomux_check_all E w). intros w' Hp Hl' Hb' Hi' Hc.
  split; [constructor; try done; intros p; unfold get_pipe; rewrite Hp; apply Hw|].
  intros i b Hs p Hwants. rewrite Hp. eapply Hc; [exact Hs| |exact Hwants]. destruct Hwants as [? ->|? ? ->|? ->]; rewrite !elem_of_cons; auto.
Qed.

(** ** Reading, writing, closing *)

Lemma dull_other p w w' : other p w w' -> readable w p = true -> dull w w'.
Proof.
  intros [_ Ho] Hr q Hq. destruct (decide (q = p)) as [->|Hne]; [done|]. destruct (Ho q Hne) as [H1 H2].
  unfold counts in H2. injection H2 as _ H2 _. unfold readable, lucas_pipe_read_ready in *. by rewrite H1, H2 in Hq.
Qed.

Lemma mild_park k st s p v n cap w : idle_at w s -> st = WAITING_FOR_PIPE_READ \/ st = WAITING_FOR_PIPE_WRITE ->
  mild w (pipe_park k st s p v n cap w).1.
Proof.
  intros Hi Hst. unfold pipe_park. destruct cap; [|done]. destruct (sotbox_get_slot w s) as [b|] eqn:Hb; [|done]. cbn [fst].
  apply mild_set_slot. unfold idle, pipe_state. cbn. destruct Hst as [-> | ->]; split_and!; try done; auto.
Qed.

Lemma dull_park k st s p v n cap w : dull w (pipe_park k st s p v n cap w).1.
Proof. intros q. unfold pipe_park. destruct cap; [|done]. by destruct (sotbox_get_slot w s). Qed.

Lemma calm_read s p v n cap w : calm_at s w -> calm_at s (lucas_pipe_read s p v n cap w).1.
Proof.
  intros Hc. pose proof (proj1 Hc) as Hb. unfold lucas_pipe_read. destruct (n =? 0); [done|].
  destruct (p_count (get_pipe w p) >? 0) eqn:Hcnt.
  - pose proof (mild_drain s p v n w (c_idle s w Hb)) as Hm. pose proof (other_drain s p v n w) as Ho.
    destruct (pipe_read_drain s p v n w) as [w1 got]. cbn [fst] in *. pose proof (other_wake_writers p w1) as Ho2.
    apply (calm_frame s w); [|eapply dull_other; [eapply other_trans; [exact Ho|exact Ho2]|]|done].
    + eapply mild_trans; [exact Hm|]. apply mild_wake_writers. eapply mild_boxes_ok; [exact Hm|apply Hb].
    + unfold readable, lucas_pipe_read_ready. by rewrite Hcnt.
  - destruct (_ =? 0); [done|]. apply (calm_frame s w); [apply mild_park; [apply Hb|by left]|apply dull_park|done].
Qed.

Lemma calm_write_after E s p w w' : calm_at s w -> mild w w' -> calm_at s (iomux_check_all E (lucas_pipe_wake_readers p w')).
Proof.
  intros Hc Hm. apply calm_check_all. eapply mild_base; [|apply Hc]. eapply mild_trans; [exact Hm|].
  apply mild_wake_readers. eapply mild_boxes_ok; [exact Hm|apply Hc].
Qed.

Lemma calm_write E s p v n cap w : calm_at s w -> calm_at s (lucas_pipe_write E s p v n cap w).1.
Proof.
  intros Hc. unfold lucas_pipe_write. destruct (n =? 0); [done|]. destruct (_ =? 0); [done|]. destruct (_ >? 0).
  - pose proof (mild_fill s p v n w) as Hm. destruct (pipe_write_fill s p v n w) as [w1 put]. cbn [fst] in *. by eapply calm_write_after.
  - apply (calm_frame s w); [apply mild_park; [apply Hc|by right]|apply dull_park|done].
Qed.

Lemma calm_write_kbuf E s p bs w : calm_at s w -> calm_at s (lucas_pipe_write_kbuf E p bs w).1.
Proof.
  intros Hc. unfold lucas_pipe_write_kbuf. cbn zeta. destruct (_ =? 0); [done|]. destruct (_ =? 0); [done|]. destruct (_ =? 0); [done|].
  cbn [fst]. eapply calm_write_after; [exact Hc|]. eapply mild_trans; [|apply mild_log]. apply mild_set_pipe. right.
  unfold pipe_put. by destruct (ring_put _ _ _ _).
Qed.

Lemma dull_in_use p b w : dull w (upd_pipe p (set_p_in_use b) w).
Proof. unfold upd_pipe. by apply dull_set_pipe. Qed.

Lemma calm_in_use s p b w : calm_at s w -> calm_at s (upd_pipe p (set_p_in_use b) w).
Proof. apply calm_frame; [|apply dull_in_use]. unfold upd_pipe. apply mild_set_pipe. by right. Qed.

Lemma calm_close_reader E s p w : calm_at s w -> calm_at s (lucas_pipe_close_reader E p w).
Proof.
  intros Hc. unfold lucas_pipe_close_reader. destruct (_ <=? 0); [done|]. cbn zeta. set (w1 := upd_pipe p _ w).
  assert (Hm : mild w w1) by (subst w1; unfold upd_pipe; apply mild_set_pipe; by right).
  assert (Hd : dull w w1) by (subst w1; unfold upd_pipe; by apply dull_set_pipe).
  destruct (_ =? 0); [|by eapply calm_frame].
  assert (Hc2 : calm_at s (iomux_check_all E (lucas_pipe_wake_writers p w1))).
  { apply calm_check_all. eapply mild_base; [|apply Hc]. eapply mild_trans; [exact Hm|]. apply mild_wake_writers.
    eapply mild_boxes_ok; [exact Hm|apply Hc]. }
  revert Hc2. generalize (iomux_check_all E (lucas_pipe_wake_writers p w1)). intros w2 Hc2. destruct (_ =? 0); [by apply calm_in_use|done].
Qed.

Lemma calm_close_writer E s p w : calm_at s w -> calm_at s (lucas_pipe_close_writer E p w).
Proof.
  intros Hc. unfold lucas_pipe_close_writer. destruct (Z.leb_spec (p_writers_open (get_pipe w p)) 0); [done|]. cbn zeta.
  set (w1 := upd_pipe p _ w).
  assert (Hm : mild w w1) by (subst w1; unfold upd_pipe; apply mild_set_pipe; left; cbn; lia).
  destruct (Z.eqb_spec (p_writers_open (get_pipe w1 p)) 0) as [|Hne].
  - pose proof (calm_write_after E s p w w1 Hc Hm) as Hc2. revert Hc2.
    generalize (iomux_check_all E (lucas_pipe_wake_readers p w1)). intros w2 Hc2. destruct (_ =? 0); [by apply calm_in_use|done].
  - eapply calm_frame; [exact Hm| |done]. intros q. subst w1. unfold readable, upd_pipe in *. rewrite get_pipe_set.
    case_bool_decide as Hq; [|done]. destruct Hq as [Hq Hlt]. subst q. rewrite get_pipe_set, bool_decide_eq_true_2 in Hne by done. cbn in Hne.
    unfold lucas_pipe_read_ready. cbn. rewrite (proj2 (Z.eqb_neq (p_writers_open (get_pipe w p) - 1) 0)) by done.
    rewrite orb_false_r. intros ->. done.
Qed.

Lemma calm_close_end E s e w : calm_at s w -> calm_at s (close_end E e w).
Proof.
  intros Hc. unfold close_end. destruct (pipe_end FD_PIPE_READ e); [by apply calm_close_reader|].
  destruct (pipe_end FD_PIPE_WRITE e); [by apply calm_close_writer|done].
Qed.

Lemma calm_add_end s e w : calm_at s w -> calm_at s (add_end e w).
Proof.
  intros Hc. pose proof (c_writers s w (proj1 Hc)) as Hw. unfold add_end, lucas_pipe_add_reader, lucas_pipe_add_writer, upd_pipe.
  destruct (pipe_end FD_PIPE_READ e) as [p|]; [|destruct (pipe_end FD_PIPE_WRITE e) as [p|]; [|done]].
  - eapply calm_frame; [apply mild_set_pipe; by right|by apply dull_set_pipe|done].
  - specialize (Hw p). eapply calm_frame; [apply mild_set_pipe; left; cbn; lia| |done]. apply dull_set_pipe.
    unfold readable, lucas_pipe_read_ready. cbn. rewrite (proj2 (Z.eqb_neq (_ + 1) 0)) by lia. rewrite orb_false_r. by intros ->.
Qed.

Lemma calm_vfs_close E s e w : calm_at s w -> calm_at s (vfs_close_entry E e w).1.
Proof. intros Hc. unfold vfs_close_entry. destruct (f_mount e); [|done]. destruct (vfs_close E _); [by apply calm_log|done]. Qed.

(** ** The calls on descriptors *)

Lemma calm_close_fd_entry E s n w : calm_at s w -> calm_at s (close_fd_entry E s n w).
Proof.
  intros Hc. unfold close_fd_entry, clear_fd. cbn zeta. apply calm_set_fd.
  destruct (f_kind _); first [by apply calm_vfs_close|by apply calm_close_end].
Qed.

Lemma calm_sys_close E s fd w : calm_at s w -> calm_at s (lucas_sys_close E s fd w).1.
Proof.
  intros Hc. unfold lucas_sys_close. destruct (_ >=? _); [done|]. cbn zeta. set (e := get_fd _ _). unfold clear_fd.
  assert (Hv : forall w, calm_at s w -> calm_at s (let '(w, rc) := vfs_close_entry E e w in (upd_box s (set_fd (Z.to_nat fd) zero_fd) w, rc)).1).
  { intros w' Hc'. pose proof (calm_vfs_close E s e w' Hc'). destruct (vfs_close_entry E e w'). by apply calm_set_fd. }
  assert (Hdef : calm_at s (if f_is_std e then (upd_box s (set_fd (Z.to_nat fd) zero_fd) w, 0) else
     match f_mount e with None => (w, - LX_EBADF)
     | Some _ => let '(w, rc) := vfs_close_entry E e w in (upd_box s (set_fd (Z.to_nat fd) zero_fd) w, rc) end).1).
  { destruct (f_is_std e); [by apply calm_set_fd|]. destruct (f_mount e); [by apply Hv|done]. }
  destruct (f_kind e); try done; cbn [fst]; try (by apply calm_set_fd).
  - destruct (f_lazy_pinned e); [by apply calm_set_fd, calm_log|]. by apply Hv, calm_log.
  - by apply calm_set_fd, calm_close_end.
  - by apply calm_set_fd, calm_close_end.
  - by apply calm_set_fd, calm_log.
Qed.

Lemma calm_fold (f : world -> nat -> world) s l : (forall w i, calm_at s w -> calm_at s (f w i)) ->
  forall w, calm_at s w -> calm_at s (fold_left f l w).
Proof. intros H. induction l; intros w Hc; cbn; auto. Qed.

Lemma calm_exit E s w : calm_at s w -> calm_at s (exit_fds E s w).
Proof.
  intros Hc. unfold exit_fds. apply calm_at_upd; [intros b; by apply idle_same|]. apply calm_fold; [|done].
  intros w' i Hc'. case_bool_decide; [done|by apply calm_close_fd_entry].
Qed.

Lemma calm_execve E s apt w : calm_at s w -> calm_at s (execve_close_fds E s apt w).
Proof.
  apply calm_fold. clear w. intros w i Hc. unfold execve_close_one. cbn zeta. destruct (f_kind _); try done.
  - destruct (_ || _); [|done]. apply calm_set_fd. destruct (_ =? 0); [done|by apply calm_vfs_close].
  - destruct (_ && _); [|done]. by apply calm_set_fd, calm_close_end.
  - destruct (_ && _); [|done]. by apply calm_set_fd, calm_close_end.
Qed.

Lemma calm_dup2 E s o n w : calm_at s w -> calm_at s (lucas_sys_dup2 E s o n w).1.
Proof.
  intros Hc. unfold lucas_sys_dup2. destruct (_ || _); [done|]. cbn zeta. destruct (fd_free _ _); [done|]. destruct (_ =? _); [done|].
  set (w1 := if fd_free _ _ then w else _).
  assert (Hc1 : calm_at s w1) by (subst w1; destruct (fd_free _ _); [done|by apply calm_close_fd_entry]).
  clearbody w1. cbn [fst]. apply calm_set_fd. destruct (_ && _); [apply calm_log|]; by apply calm_add_end, calm_set_fd.
Qed.

Lemma calm_fcntl E s fd cmd arg w : calm_at s w -> calm_at s (or_skip (sys_fcntl_fd E s fd cmd arg w) w).1.
Proof.
  intros Hc. unfold sys_fcntl_fd. destruct (_ >=? _); [done|]. cbn zeta. destruct (_ && _ && _); [done|].
  destruct (cmd =? 1); [done|]. destruct (cmd =? 2); [by apply calm_set_fd|]. destruct (cmd =? 3); [done|].
  destruct (cmd =? 4); [by apply calm_set_fd|]. destruct (_ || _); [|done]. destruct (_ || _); [done|].
  destruct (first_below _ _); [|done]. cbn [or_skip default fst]. by apply calm_set_fd, calm_add_end, calm_set_fd.
Qed.

Lemma mild_free_slot i w : mild w (sotbox_free_slot i w).
Proof.
  constructor; [unfold sotbox_free_slot; cbn; by rewrite length_insert|done|].
  intros j b. unfold sotbox_get_slot, sotbox_free_slot. cbn. destruct (decide (j = i)) as [->|]; [|rewrite list_lookup_insert_ne by done; auto].
  destruct (decide (i < length (w_slots w))%nat); [by rewrite list_lookup_insert_eq|]. rewrite list_insert_ge by lia. auto.
Qed.

Lemma calm_free_slot s i w : calm_at s w -> calm_at s (sotbox_free_slot i w).
Proof. apply calm_frame; [apply mild_free_slot|by intros p]. Qed.

Lemma calm_new_box s i b w : idle b -> calm_at s w -> calm_at s (set_slot i b w).
Proof. intros Hi. apply calm_frame; [by apply mild_set_slot|by intros p]. Qed.

Lemma calm_fork E s out w : calm_at s w -> calm_at s (sotbox_fork E s out w).1.
Proof.
  intros Hc. unfold sotbox_fork. set (c := fork_child (box_at w s)).
  assert (Hi : idle (lucas_dup_vfs_handles E c)) by (unfold idle; cbn; done).
  assert (Hw : calm_at s (inherit_pipe_ends c w)) by (apply calm_fold; [intros; by apply calm_add_end|done]).
  revert Hw. generalize (inherit_pipe_ends c w). intros w1 Hw.
  assert (Hall : forall i, calm_at s (unix_inherit_all i (lucas_dup_vfs_handles E c) (set_slot i (lucas_dup_vfs_handles E c) w1))).
  { intros i. apply calm_fold; [|by apply calm_new_box]. intros w2 j Hc2. destruct (_ && _); [by apply calm_log|done]. }
  destruct out; [done|..]; cbn zeta; (destruct (sotbox_alloc_slot w1) as [i|]; [|done]); cbn [fst];
    first [by apply calm_free_slot|done].
Qed.

Lemma calm_alloc s w : calm_at s w -> calm_at s (lucas_pipe_alloc w).1.
Proof.
  intros Hc. unfold lucas_pipe_alloc. destruct (first_below _ _); [|done]. cbn [fst]. apply calm_log.
  eapply calm_frame; [apply mild_set_pipe; left; cbn; lia|by apply dull_set_pipe|done].
Qed.

Lemma calm_pipe s v w : calm_at s w -> calm_at s (lucas_sys_pipe s v w).1.
Proof.
  intros Hc. unfold lucas_sys_pipe. pose proof (calm_alloc s w Hc) as H. destruct (lucas_pipe_alloc w) as [w1 [p|]]; [|done]. cbn [fst] in H.
  cbn zeta. destruct (two_free_fds _) as [[r t]|]; [|done].
  match goal with |- context [box_copy_out ?b v ?bs] => pose proof (copy_out_only_mem b v bs) as Hm; assert (Hi : idle b) end.
  { apply idle_set_fd, idle_set_fd, idle_at_box, H. }
  destruct (box_copy_out _ _ _) as [b2 ok]. cbn [fst] in *. apply calm_new_box; [|done].
  eapply idle_same; [..|exact Hi]; by rewrite Hm.
Qed.

(** ** The multiplexing calls *)

(** A box with legal saved arguments that waits for nothing readable. *)
Definition fine (ps : list pipe) (b : box) : Prop := box_ok b /\ calm_box ps b.

Lemma idle_fine ps b : idle b -> fine ps b.
Proof. intros H. split; [by apply idle_ok|by apply idle_calm]. Qed.

(** A client that runs waits for no pipe either. *)
Definition runs (b : box) : Prop := b_state b = RUNNING /\ pipe_wait_kind (b_pipe_wait b) = 0.

Lemma runs_idle b : runs b -> idle b.
Proof. intros [Hs Hk]. unfold idle. rewrite Hs, Hk. done. Qed.

Lemma runs_fine ps b : runs b -> fine ps b.
Proof. intros H. by apply idle_fine, runs_idle. Qed.

Lemma only_mem_runs b b' : only_mem b b' -> runs b -> runs b'.
Proof. intros Hm. unfold runs. by rewrite Hm. Qed.

Lemma only_mem_read_pipe b b' fd : only_mem b b' -> read_pipe b' fd = read_pipe b fd.
Proof. intros Hm. by rewrite Hm. Qed.

Lemma fine_epoll_wait E ps cap b epfd v m t : runs b -> fine ps (iomux_epoll_wait E ps cap b epfd v m t).1.
Proof.
  intros Hi. unfold iomux_epoll_wait. destruct (epoll_slot_for_fd b epfd) as [s|] eqn:Hs; [|by apply runs_fine].
  apply first_below_Some in Hs as (Hlt & _). destruct (Z.leb_spec m 0); [by apply runs_fine|].
  pose proof (drain_ready_only_mem E ps b (Z.of_nat s) v m) as Hm. destruct (epoll_drain_ready _ _ _ _ _ _) as [b1 got] eqn:Hd.
  cbn [fst] in Hm. pose proof (only_mem_runs _ _ Hm Hi) as Hi1. destruct (Z.eqb_spec got 0) as [->|]; cbn [negb]; [|by apply runs_fine].
  destruct (t =? 0); [by apply runs_fine|]. unfold epoll_park. destruct cap as [c|]; [|by apply runs_fine]. cbn [fst].
  assert (Hrange : 0 <= Z.of_nat s < Z.of_nat EPOLL_TABLE_SIZE) by lia.
  destruct (drain_zero _ _ _ _ _ _ _ Hrange ltac:(done) Hd) as [-> Hz]. destruct Hi as [_ Hk]. split.
  - split; [|cbn; by rewrite Hk]. unfold wait_args_ok. split_and!; [intros _|done..].
    change (0 <= Z.of_nat s < Z.of_nat EPOLL_TABLE_SIZE /\ 0 < m). lia.
  - intros p [x _ Hx Hev Hp|? ? Hst|? Hst]; [|done..]. cbn in Hx. rewrite Nat2Z.id in *.
    by eapply got_zero; [apply Hz|exact Hev|exact Hp].
Qed.

Lemma fine_poll_park E ps cap b v n b1 : runs b -> 0 <= v -> v + 512 <= 2 ^ 64 -> 0 <= n -> n <> 0 -> v <> 0 ->
  iomux_poll_scan E ps b v n = (b1, 0) -> fine ps (lucas_poll_pipe_park cap v n b1).1.
Proof.
  intros Hr Hv Hmax Hn Hn0 Hv0 Hd. pose proof (poll_scan_only_mem E ps b v n) as Hm. rewrite Hd in Hm. cbn [fst] in Hm.
  pose proof (only_mem_runs _ _ Hm Hr) as Hr1. unfold lucas_poll_pipe_park, poll_park. destruct cap as [c|]; [|by apply runs_fine]. cbn [fst].
  split; [split; [|cbn; by rewrite (proj2 Hr1)]; unfold wait_args_ok; split_and!; [done|intros _; change (0 < v /\ v + 512 <= 2 ^ 64 /\ 0 < n); lia|done]|].
  intros p [? Hst|pfds x _ Hl Hx Hev Hp|? Hst]; [done| |done]. cbn in Hl.
  eapply (poll_scan_zero E ps b v n b1); [lia|done|lia|done|exact Hl|exact Hx|exact Hev|].
  rewrite <- (only_mem_read_pipe b b1) by done. exact Hp.
Qed.

Lemma runs_console_park ps f a sv rec b : runs b -> fine ps (console_park f a sv rec b).1.
Proof.
  intros Hr. apply idle_fine. unfold console_park. destruct (console_cslot a b); [|by apply runs_idle].
  destruct sv; [|by apply runs_idle]. unfold idle. cbn. rewrite (proj2 Hr). done.
Qed.

Lemma fine_try_park ps park k b : fine ps (park b).1 -> ((park b).2 <> LUCAS_WAIT4_DEFERRED -> fine ps (k (park b).1).1) ->
  fine ps (try_park park k b).1.
Proof. unfold try_park. destruct (park b) as [b' pk]. cbn. destruct (Z.eqb_spec pk LUCAS_WAIT4_DEFERRED); auto. Qed.

(** A park that was refused leaves the box as it was. *)
Lemma poll_park_refused cap v n b : (lucas_poll_pipe_park cap v n b).2 <> LUCAS_WAIT4_DEFERRED -> (lucas_poll_pipe_park cap v n b).1 = b.
Proof. unfold lucas_poll_pipe_park, poll_park. by destruct cap. Qed.

Lemma select_park_refused cap n r w e o b : (lucas_select_pipe_park cap n r w e o b).2 <> LUCAS_WAIT4_DEFERRED ->
  (lucas_select_pipe_park cap n r w e o b).1 = b.
Proof. unfold lucas_select_pipe_park, select_park. by destruct cap. Qed.

Lemma poll_block_args b v n : iomux_poll_has_pipe_read_block b v n = true -> n <> 0 /\ v <> 0.
Proof. unfold iomux_poll_has_pipe_read_block. destruct (Z.eqb_spec n 0), (Z.eqb_spec v 0); done. Qed.

Lemma u32_nonneg n : 0 <= u32 n.
Proof. unfold u32. apply Z.mod_pos_bound. lia. Qed.

Lemma fine_sys_poll E E' ps res b v n t : runs b -> 0 <= v -> v + 512 <= 2 ^ 64 -> fine ps (lucas_sys_poll E E' ps res b v n t).1.
Proof.
  intros Hr Hv Hmax. unfold lucas_sys_poll. cbn zeta. pose proof (u32_nonneg n) as Hn. revert Hn. generalize (u32 n). intros k Hn.
  pose proof (poll_scan_only_mem E ps b v k) as Hm. destruct (iomux_poll_scan E ps b v k) as [b1 z1]. cbn [fst] in Hm.
  pose proof (only_mem_runs _ _ Hm Hr) as Hr1. destruct (negb (z1 =? 0)); [by apply runs_fine|].
  pose proof (poll_scan_only_mem E' ps b1 v k) as Hm2. destruct (iomux_poll_scan E' ps b1 v k) as [b2 z2] eqn:Hd. cbn [fst] in Hm2.
  pose proof (only_mem_runs _ _ Hm2 Hr1) as Hr2. destruct (Z.eqb_spec z2 0) as [->|]; cbn [negb]; [|by apply runs_fine].
  match goal with |- context [try_park (lucas_poll_pipe_park _ _ _) ?f] => set (stdin_park := f) end.
  assert (Hstdin : fine ps (stdin_park b2).1).
  { subst stdin_park. cbv beta. destruct (_ && _); [|by apply runs_fine]. apply fine_try_park; [by apply runs_console_park|].
    intros _. by apply runs_console_park. }
  destruct (negb (t =? 0) && _) eqn:Hb; [|exact Hstdin]. apply andb_true_iff in Hb as [_ Hb%poll_block_args].
  apply fine_try_park; [eapply fine_poll_park; [exact Hr1|done|done|done|tauto|tauto|exact Hd]|].
  intros Hne. by rewrite poll_park_refused.
Qed.

Lemma fine_sys_ppoll E E' ps res b v n t : runs b -> 0 <= v -> v + 512 <= 2 ^ 64 -> fine ps (lucas_sys_ppoll E E' ps res b v n t).1.
Proof.
  intros Hr Hv Hmax. unfold lucas_sys_ppoll. cbn zeta. pose proof (u32_nonneg n) as Hn. revert Hn. generalize (u32 n). intros k Hn.
  pose proof (poll_scan_only_mem E ps b v k) as Hm. destruct (iomux_poll_scan E ps b v k) as [b1 z1]. cbn [fst] in Hm.
  pose proof (only_mem_runs _ _ Hm Hr) as Hr1. destruct (negb (z1 =? 0)); [by apply runs_fine|].
  pose proof (poll_scan_only_mem E' ps b1 v k) as Hm2. destruct (iomux_poll_scan E' ps b1 v k) as [b2 z2] eqn:Hd. cbn [fst] in Hm2.
  pose proof (only_mem_runs _ _ Hm2 Hr1) as Hr2. destruct (Z.eqb_spec z2 0) as [->|]; cbn [negb]; [|by apply runs_fine].
  destruct (_ && _) eqn:Hb; [|by apply runs_fine]. apply andb_true_iff in Hb as [_ Hb%poll_block_args].
  apply fine_try_park; [eapply fine_poll_park; [exact Hr1|done|done|done|tauto|tauto|exact Hd]|].
  intros Hne. rewrite poll_park_refused by done. by apply runs_fine.
Qed.

Lemma select_block_args b n r w e : iomux_select_has_pipe_read_block b n r w e = true -> 0 < n /\ r <> 0.
Proof. unfold iomux_select_has_pipe_read_block. destruct (Z.leb_spec n 0), (Z.eqb_spec r 0); done. Qed.

Lemma u32_i32_pos n : 0 < i32 n -> u32 n = i32 n.
Proof.
  unfold i32, u32. pose proof (Z.mod_pos_bound n (2 ^ 32)) as H. destruct (Z.ltb_spec (n mod 2 ^ 32) (2 ^ 31)); lia.
Qed.

Lemma length_words_of_bytes bs : length (words_of_bytes bs) = FDSET_WORDS.
Proof. done. Qed.

Lemma fdset_load_length b r n ws : fdset_load b r n = Some ws -> length ws = FDSET_WORDS.
Proof.
  unfold fdset_load. destruct (r =? 0); [by intros [= <-]|]. destruct (lucas_copy_from_client _ _ _); [by intros [= <-]|done].
Qed.

Lemma orig_bytes n : 0 < n -> Z.min ((clamp_fds n + 63) / 64 * 8) 8 = 8.
Proof.
  intros Hn. pose proof (clamp_bounds n Hn) as Hc. replace ((clamp_fds n + 63) / 64) with 1; [done|].
  apply Z.div_unique with (clamp_fds n - 1); lia.
Qed.

Lemma fine_select_park E ps cap b n r w e b1 rin : runs b -> in_range r 8 -> 0 < n -> r <> 0 ->
  fdset_load b r 8 = Some rin -> iomux_select_scan E ps b n r w e = (b1, 0) ->
  fine ps (lucas_select_pipe_park cap n r w e rin b1).1.
Proof.
  intros Hr Hrange Hn Hr0 Hload Hd. pose proof (select_scan_only_mem E ps b n r w e) as Hm. rewrite Hd in Hm. cbn [fst] in Hm.
  pose proof (only_mem_runs _ _ Hm Hr) as Hr1. unfold lucas_select_pipe_park, select_park. destruct cap as [c|]; [|by apply runs_fine]. cbn [fst].
  split; [split; [|cbn; by rewrite (proj2 Hr1)]; unfold wait_args_ok; split_and!; [done|done|intros _]|].
  - change (0 < r /\ r + 8 <= 2 ^ 64 /\ 0 < n /\ length rin = FDSET_WORDS). unfold in_range in Hrange.
    apply fdset_load_length in Hload. split_and!; [lia|lia|done|done].
  - intros p [? Hst|? ? Hst|fd _ Hfd Hg Hp]; [done|done|]. cbn in Hfd, Hg.
    eapply (select_scan_zero E ps b n r w e b1 rin); [done|done|by rewrite set_bytes_8|done|exact Hfd|exact Hg|].
    rewrite <- (only_mem_read_pipe b b1) by done. exact Hp.
Qed.

Lemma fine_sys_select E E' ps res b n r w e t : runs b -> in_range r 8 -> fine ps (lucas_sys_select E E' ps res b n r w e t).1.
Proof.
  intros Hr Hrange. unfold lucas_sys_select, console_select. cbn zeta. set (E1 := if select_egress_write_interest _ _ _ then E else E').
  set (fd0 := _ && console_interactive _ && _). set (blk := blocking_timespec _ _ && _). set (orig := if blk && _ then _ else _).
  pose proof (select_scan_only_mem E1 ps b (i32 n) r w e) as Hm. destruct (iomux_select_scan E1 ps b (i32 n) r w e) as [b1 z] eqn:Hd.
  cbn [fst] in Hm. pose proof (only_mem_runs _ _ Hm Hr) as Hr1. destruct (Z.eqb_spec z 0) as [->|]; cbn [negb]; [|by apply runs_fine].
  match goal with |- context [try_park (lucas_select_pipe_park _ _ _ _ _ _) ?f] => set (fd0_park := f) end.
  assert (Hfd0 : fine ps (fd0_park b1).1).
  { subst fd0_park. cbv beta. destruct fd0; [|by apply runs_fine]. apply fine_try_park; [by apply runs_console_park|].
    intros _. by apply runs_console_park. }
  destruct (blk && bool_decide (is_Some orig)) eqn:Hb; [|exact Hfd0]. apply andb_true_iff in Hb as [Hblk Ho%bool_decide_eq_true].
  assert (Hargs : 0 < i32 n /\ r <> 0) by (subst blk; apply andb_true_iff in Hblk as [_ H]; by eapply select_block_args).
  destruct Hargs as [Hn Hr0]. destruct Ho as [rin Hrin]. rewrite Hrin. cbn [default].
  assert (Hload : fdset_load b r 8 = Some rin).
  { subst orig. rewrite Hblk, (proj2 (Z.eqb_neq r 0)) in Hrin by done. cbn [negb andb] in Hrin.
    by rewrite u32_i32_pos, orig_bytes in Hrin by done. }
  apply fine_try_park; [exact (fine_select_park E1 ps _ b _ r w e b1 rin Hr Hrange Hn Hr0 Hload Hd)|].
  intros Hne. by rewrite select_park_refused.
Qed.

(** ** Steps *)

Definition rested (w : world) : Prop :=
  length (w_slots w) = SOTBOX_MAX_SLOTS /\ (forall p, 0 <= p_writers_open (get_pipe w p)) /\ boxes_ok w /\ calm_waits w.

Lemma calm_rested s w : calm_at s w -> rested w.
Proof. intros [[] H]. by split_and!. Qed.

Lemma rested_runs w s b : rested w -> sotbox_get_slot w s = Some b -> b_state b = RUNNING -> runs b.
Proof.
  intros (_ & _ & Hb & _) Hs Hr. split; [done|]. destruct (Hb s b Hs) as [_ Hk].
  destruct (decide (pipe_wait_kind (b_pipe_wait b) = 0)) as [|H]; [done|]. destruct (Hk H); congruence.
Qed.

Lemma rested_calm w s : rested w -> running w s -> calm_at s w.
Proof.
  intros Hr (b & Hs & Hst). pose proof (rested_runs w s b Hr Hs Hst) as Hru. destruct Hr as (H1 & H2 & H3 & H4).
  split; [|done]. constructor; try done. intros b' Hb'. rewrite Hs in Hb'. injection Hb' as <-. by apply runs_idle.
Qed.

Lemma rested_fine w s b : rested w -> fine (w_pipes w) b -> rested (set_slot s b w).
Proof.
  intros (H1 & H2 & H3 & H4) [Hok Hc]. split_and!; [by rewrite length_set_slot|done|..];
    intros i x Hx; (destruct (slot_set_any _ _ _ _ _ Hx) as [-> |Hx']; [done|]); [by eapply H3|by eapply H4].
Qed.

Lemma rested_on_box s f w : rested w -> running w s -> (forall b, runs b -> fine (w_pipes w) (f b).1) -> rested (on_box s f w).1.
Proof.
  intros Hr (b & Hs & Hst) Hf. unfold on_box. rewrite (box_at_Some _ _ _ Hs). specialize (Hf b (rested_runs w s b Hr Hs Hst)).
  destruct (f b) as [b' r]. by apply rested_fine.
Qed.

Lemma runs_epoll_create b : runs b -> runs (iomux_epoll_create b).1.
Proof.
  unfold iomux_epoll_create. destruct (alloc_lucas_fd b); [|done]. unfold epoll_alloc_slot. by destruct (first_below _ EPOLL_TABLE_SIZE).
Qed.

Lemma runs_epoll_ctl b a o f v : runs b -> runs (iomux_epoll_ctl b a o f v).1.
Proof.
  unfold iomux_epoll_ctl. destruct (epoll_slot_for_fd b a); [|done]. destruct (_ || _); [done|]. cbn zeta.
  destruct (o =? LX_EPOLL_CTL_DEL); [by destruct (ep_find _ _)|]. destruct (lucas_copy_from_client _ _ _); [|done].
  destruct (o =? LX_EPOLL_CTL_ADD); [destruct (bool_decide _); [done|]; by destruct (_ >=? _)|].
  destruct (o =? LX_EPOLL_CTL_MOD); [by destruct (ep_find _ _)|done].
Qed.

Lemma rested_exec E E' s o w : rested w -> running w s -> args_ok o -> rested (exec E E' s o w).1.
Proof.
  intros Hr Hrun Ha. pose proof (rested_calm w s Hr Hrun) as Hc. destruct o; cbn [exec args_ok] in *.
  1-12: apply (calm_rested s).
  - by apply calm_pipe.
  - by apply (calm_pipe s).
  - unfold sys_read_pipe. destruct (_ >=? _); [done|]. cbn zeta. destruct (f_kind _); try done. destruct (f_pipe _); [|done].
    destruct (_ && _); [done|]. by apply calm_read.
  - unfold sys_write_pipe. destruct (_ >=? _); [done|]. cbn zeta. destruct (f_kind _); try done. destruct (f_pipe _); [|done].
    by apply calm_write.
  - by apply calm_write_kbuf.
  - by apply calm_sys_close.
  - by apply calm_dup2.
  - unfold lucas_sys_dup3. destruct (_ =? _); [done|by apply calm_dup2].
  - by apply calm_fcntl.
  - by apply calm_fork.
  - by apply calm_execve.
  - by apply calm_exit.
  - apply rested_on_box; [done|done|]. intros b Hb. by apply runs_fine, runs_epoll_create.
  - apply rested_on_box; [done|done|]. intros b Hb. by apply runs_fine, runs_epoll_ctl.
  - apply rested_on_box; [done|done|]. intros b Hb. by apply fine_epoll_wait.
  - destruct Ha. apply rested_on_box; [done|done|]. intros b Hb. by apply fine_sys_poll.
  - destruct Ha. apply rested_on_box; [done|done|]. intros b Hb. by apply fine_sys_ppoll.
  - apply rested_on_box; [done|done|]. intros b Hb. by apply fine_sys_select.
Qed.

(** The console touches the box it serves; until it is resumed its state stays. *)
Definition tweak (s : nat) (w w' : world) : Prop :=
  (forall i, i <> s -> sotbox_get_slot w' i = sotbox_get_slot w i) /\
  option_map b_state (sotbox_get_slot w' s) = option_map b_state (sotbox_get_slot w s).

Lemma tweak_trans s u v w : tweak s u v -> tweak s v w -> tweak s u w.
Proof. intros [H1 H2] [K1 K2]. split; [intros i Hi; rewrite K1 by done; by apply H1|congruence]. Qed.

Lemma tweak_set_slot s b b' w : sotbox_get_slot w s = Some b -> b_state b' = b_state b -> tweak s w (set_slot s b' w).
Proof.
  intros Hb Hs. split; [intros i Hi; by apply slot_set_ne|]. rewrite slot_set_eq by (by exists b). rewrite Hb. cbn. by rewrite Hs.
Qed.

Lemma tweak_live s w w' b : tweak s w w' -> sotbox_get_slot w s = Some b -> exists b', sotbox_get_slot w' s = Some b' /\ b_state b' = b_state b.
Proof. intros [_ H] Hb. rewrite Hb in H. destruct (sotbox_get_slot w' s) as [b'|]; [|done]. injection H as H. by exists b'. Qed.

Lemma getbyte_tweak E s uart w b : sotbox_get_slot w s = Some b -> tweak s w (lucas_console_src_getbyte E s uart w).1.1.
Proof.
  intros Hb. unfold lucas_console_src_getbyte. rewrite (box_at_Some _ _ _ Hb). cbn zeta.
  destruct (_ >? 0); [by eapply tweak_set_slot|]. destruct (behind_focus _ _ _); [done|].
  destruct (_ =? _); [|by destruct uart]. destruct (bytepipe_pull _ _ _) as [[|c [|]] rd]; by eapply tweak_set_slot.
Qed.

Lemma copy_out_state b v bs : b_state (box_copy_out b v bs).1 = b_state b.
Proof. by rewrite (copy_out_only_mem b v bs). Qed.

Lemma complete_tweak E s uart w b : sotbox_get_slot w s = Some b -> tweak s w (console_complete E s uart w).1.1.
Proof.
  intros Hb. unfold console_complete. rewrite (box_at_Some _ _ _ Hb). cbn zeta.
  destruct (_ =? LUCAS_CONSOLE_WAIT_POLL).
  { match goal with |- context [if ?c then (w, uart, None) else _] => destruct c end; [done|].
    pose proof (poll_scan_only_mem E (w_pipes w) b (console_poll_fds_vaddr (b_console b)) (console_poll_nfds (b_console b))) as Hm.
    destruct (iomux_poll_scan _ _ _ _ _) as [b1 r]. cbn [fst] in *. eapply tweak_set_slot; [done|]. by rewrite Hm. }
  destruct (_ =? LUCAS_CONSOLE_WAIT_SELECT).
  { match goal with |- context [if ?c then (w, uart, None) else _] => destruct c end; [done|]. destruct (_ =? 0); [done|].
    pose proof (copy_out_state b (console_poll_fds_vaddr (b_console b)) [1]) as Hm. destruct (box_copy_out _ _ _) as [b1 ok].
    by eapply tweak_set_slot. }
  pose proof (getbyte_tweak E s uart w b Hb) as Ht. destruct (lucas_console_src_getbyte E s uart w) as [[w1 u1] [ch|]]; [|done].
  cbn [fst] in Ht. destruct (veof s w1 ch); [done|]. destruct (tweak_live _ _ _ _ Ht Hb) as (b1 & Hb1 & _). rewrite (box_at_Some _ _ _ Hb1).
  pose proof (copy_out_state b1 (console_buf_vaddr (b_console b)) [u8 ch]) as Hm. destruct (box_copy_out _ _ _) as [b2 ok].
  eapply tweak_trans; [exact Ht|]. by eapply tweak_set_slot.
Qed.

(** A box that waits for the console waits for no pipe, before and after. *)
Lemma rested_tweak s w w' b : quiet w w' -> tweak s w w' -> sotbox_get_slot w s = Some b -> b_state b = WAITING_FOR_CONSOLE ->
  rested w -> rested w' /\ forall x, sotbox_get_slot w' s = Some x -> b_state x = WAITING_FOR_CONSOLE /\ pipe_wait_kind (b_pipe_wait x) = 0.
Proof.
  intros Hq Ht Hb Hst (H1 & H2 & H3 & H4).
  assert (Hk : pipe_wait_kind (b_pipe_wait b) = 0).
  { destruct (decide (pipe_wait_kind (b_pipe_wait b) = 0)) as [|H]; [done|]. destruct (proj2 (H3 s b Hb) H); congruence. }
  assert (Hx : forall x, sotbox_get_slot w' s = Some x -> b_state x = WAITING_FOR_CONSOLE /\ pipe_wait_kind (b_pipe_wait x) = 0).
  { intros x Hx. destruct (tweak_live _ _ _ _ Ht Hb) as (b' & Hb' & Hs'). rewrite Hx in Hb'. injection Hb' as <-.
    pose proof (q_box _ _ Hq s) as Hbox. rewrite Hx, Hb in Hbox. cbn in Hbox. injection Hbox as _ Hpw. rewrite Hpw. split; congruence. }
  assert (Hidle : forall i x, sotbox_get_slot w' i = Some x -> idle x \/ sotbox_get_slot w i = Some x).
  { intros i x Hi. destruct (decide (i = s)) as [->|Hne]; [|right; by rewrite <- (proj1 Ht i Hne)].
    left. destruct (Hx x Hi) as [Hs Hz]. unfold idle. rewrite Hs, Hz. done. }
  split; [|done]. split_and!; [by rewrite (q_slots _ _ Hq)|intros p; unfold get_pipe; rewrite (q_pipes _ _ Hq); apply H2|..];
    intros i x Hi; (destruct (Hidle i x Hi) as [H|H]; [first [by apply idle_ok|by apply idle_calm]|]).
  - by eapply H3.
  - rewrite (q_pipes _ _ Hq). by eapply H4.
Qed.

Lemma rested_console E slots : forall uart w, rested w -> rested (console_resume_loop E slots uart w).1.
Proof.
  induction slots as [|s slots IH]; intros uart w Hr; cbn [console_resume_loop]; [done|].
  destruct (sotbox_get_slot w s) as [b|] eqn:Hb; [|auto]. case_bool_decide as Hst; [auto|]. destruct (_ && _); [auto|].
  assert (Hs : b_state b = WAITING_FOR_CONSOLE) by (destruct (decide (b_state b = WAITING_FOR_CONSOLE)); tauto).
  pose proof (complete_quiet E s uart w b Hb) as Hq. pose proof (complete_tweak E s uart w b Hb) as Ht.
  destruct (console_complete E s uart w) as [[w1 u1] r]. cbn [fst] in *.
  destruct (rested_tweak s w w1 b Hq Ht Hb Hs Hr) as [Hr1 Hx]. apply IH. destruct r as [r|]; [|done].
  destruct (tweak_live _ _ _ _ Ht Hb) as (b1 & Hb1 & _). destruct (Hx b1 Hb1) as [_ Hk].
  unfold console_resume. rewrite (box_at_Some _ _ _ Hb1). cbn zeta.
  assert (Hf : rested (set_slot s (set_b_state RUNNING (set_b_console
    (con_wait (console_reply_cslot (b_console b1)) LUCAS_CONSOLE_WAIT_READ 0 0 0 0 0 (b_console b1)) (set_b_waiting_reply_cap 0 b1))) w1)).
  { apply rested_fine; [done|]. by apply runs_fine. }
  exact Hf.
Qed.

Lemma rested_mild w w' : mild w w' -> dull w w' -> rested w -> rested w'.
Proof.
  intros Hm Hd (H1 & H2 & H3 & H4).
  split_and!; [by rewrite (m_len _ _ Hm)|by apply (m_writers _ _ Hm)|by eapply mild_boxes_ok|by eapply waits_frame].
Qed.

Lemma rested_step w w' : step w w' -> rested w -> rested w'.
Proof.
  intros Hst Hr. destruct Hst as [w s b Hlt Hn Hf|E E' w s o Hrun Ha|w s v Hrun|E w uart|w slot|w s b Hs].
  - apply rested_fine; [done|]. apply runs_fine. destruct Hf as (Hs & Hp & _). split; [done|by rewrite Hp].
  - by apply rested_exec.
  - apply (calm_rested s), calm_at_upd; [|by apply rested_calm]. intros b. by apply idle_same.
  - by apply rested_console.
  - exact Hr.
  - eapply rested_mild; [apply mild_free_slot|by intros p|exact Hr].
Qed.

Lemma reach_rested w : reach w -> rested w.
Proof.
  induction 1 as [|w w' _ IH Hst]; [|by eapply rested_step]. split_and!; [done| |..].
  - intros p. unfold get_pipe, init_world. cbn [w_pipes]. destruct (replicate LUCAS_PIPE_POOL zero_pipe !! p) eqn:E; [|done].
    apply lookup_replicate in E as [-> _]. done.
  - intros i b. by rewrite init_slot.
  - intros i b. by rewrite init_slot.
Qed.

(** ** The caller of a close goes on running *)

Definition runs_at (w : world) (s : nat) : Prop := exists b, sotbox_get_slot w s = Some b /\ runs b.

Lemma runs_other s i b w : i <> s -> runs_at w s -> runs_at (set_slot i b w) s.
Proof. intros Hne (x & Hx & Hr). exists x. split; [by rewrite slot_set_ne|done]. Qed.

Lemma runs_upd s f w : runs_at w s -> (forall b, runs b -> runs (f b)) -> runs_at (upd_box s f w) s.
Proof.
  intros (b & Hb & Hr) Hf. unfold upd_box. rewrite (box_at_Some _ _ _ Hb). exists (f b). split; [|by apply Hf].
  apply slot_set_eq. by exists b.
Qed.

Lemma parked_other w i b k p s : sotbox_get_slot w i = Some b -> k <> 0 -> parked_on k p b = true -> runs_at w s -> i <> s.
Proof.
  intros Hb Hk Hp (x & Hx & _ & Hz) ->. rewrite Hb in Hx. injection Hx as ->. unfold parked_on in Hp.
  apply andb_true_iff in Hp as [Hp%Z.eqb_eq _]. congruence.
Qed.

Lemma runs_drain s i p v n w : i <> s -> runs_at w s -> runs_at (pipe_read_drain i p v n w).1 s.
Proof.
  intros Hne Hr. unfold pipe_read_drain. destruct (sotbox_get_slot w i) as [b|]; [|done]. cbn zeta. destruct (_ =? 0); [done|].
  destruct (ring_take _ _ _ _) as [stage tail]. cbn [fst]. by apply runs_other.
Qed.

Lemma runs_resume s i r w : i <> s -> runs_at w s -> runs_at (pipe_resume_sotbox i r w) s.
Proof. intros Hne Hr. unfold pipe_resume_sotbox. destruct (sotbox_get_slot w i) as [b|]; [|done]. by apply (runs_other s i _ w). Qed.

Lemma runs_fill s i p v n w : runs_at w s -> runs_at (pipe_write_fill i p v n w).1 s.
Proof.
  intros Hr. unfold pipe_write_fill. destruct (sotbox_get_slot w i); [|done]. cbn zeta.
  destruct (_ =? 0); [done|]. by destruct (pipe_copy_from_client _ _ _).
Qed.

Lemma runs_wake_readers s p w : runs_at w s -> runs_at (lucas_pipe_wake_readers p w) s.
Proof.
  intros Hr. unfold lucas_pipe_wake_readers. generalize all_slots. intros slots.
  induction slots as [|i slots IH]; cbn [wake_readers_loop]; [done|].
  destruct (sotbox_get_slot w i) as [b|] eqn:Hb; [|done]. destruct (parked_on 1 p b) eqn:Hp; cbn [negb]; [|done].
  pose proof (parked_other w i b 1 p s Hb ltac:(lia) Hp Hr) as Hne.
  destruct (_ >? 0); [|destruct (_ =? 0); [by apply runs_resume|done]].
  pose proof (runs_drain s i p (waiting_pipe_buf (b_pipe_wait b)) (waiting_pipe_count (b_pipe_wait b)) w Hne Hr) as H.
  destruct (pipe_read_drain _ _ _ _ _) as [w1 got]. by apply runs_resume.
Qed.

Lemma runs_wake_writers s p w : runs_at w s -> runs_at (lucas_pipe_wake_writers p w) s.
Proof.
  intros Hr. unfold lucas_pipe_wake_writers. generalize all_slots. intros slots.
  induction slots as [|i slots IH]; cbn [wake_writers_loop]; [done|].
  destruct (sotbox_get_slot w i) as [b|] eqn:Hb; [|done]. destruct (parked_on 2 p b) eqn:Hp; cbn [negb]; [|done].
  pose proof (parked_other w i b 2 p s Hb ltac:(lia) Hp Hr) as Hne.
  set (r := if p_readers_open (get_pipe w p) =? 0 then _ else _).
  assert (H : runs_at r.1 s) by (subst r; destruct (_ =? 0); [done|by apply runs_fill]).
  destruct r as [w1 n]. cbn [fst] in H. pose proof (runs_resume s i n w1 Hne H) as H2.
  destruct (n >? 0); [by apply runs_wake_readers|done].
Qed.

Lemma runs_hook s st ps f w : serves st ps f -> st <> RUNNING -> boxes_ok w -> runs_at w s -> runs_at (for_slots f all_slots w) s.
Proof.
  intros Hf Hst Hok (b & Hb & Hr). exists b. split; [|done]. rewrite for_slots_get by apply all_slots_nodup. rewrite Hb.
  case_bool_decide; [|done]. specialize (Hf s b (Hok s b Hb)). destruct (f s b) as [[b' ev]|]; [|done].
  destruct Hf as [Hs _]. destruct Hr. congruence.
Qed.

Lemma runs_check_all E s w : base s w -> runs_at w s -> runs_at (iomux_check_all E w) s.
Proof.
  intros [Hl Hw Hb Hi] Hr. rewrite check_all_hooks. set (ps := w_pipes w).
  assert (H0 : served [] s ps w) by (unfold served; split_and!; try done; intros i b _ H; by apply elem_of_nil in H).
  pose proof (for_slots_served [] WAITING_FOR_EPOLL s ps _ w (epoll_serves E ps) ltac:(by auto) H0) as H1.
  pose proof (for_slots_served _ WAITING_FOR_POLL s ps _ _ (poll_serves E ps) ltac:(by auto) H1) as H2.
  apply (runs_hook s WAITING_FOR_SELECT ps); [apply select_serves|done|apply H2|].
  apply (runs_hook s WAITING_FOR_POLL ps); [apply poll_serves|done|apply H1|].
  by apply (runs_hook s WAITING_FOR_EPOLL ps); [apply epoll_serves|..].
Qed.

Lemma runs_close_reader E s p w : calm_at s w -> runs_at w s -> runs_at (lucas_pipe_close_reader E p w) s.
Proof.
  intros Hc Hr. unfold lucas_pipe_close_reader. destruct (_ <=? 0); [done|]. cbn zeta. set (w1 := upd_pipe p _ w).
  assert (Hm : mild w w1) by (subst w1; unfold upd_pipe; apply mild_set_pipe; by right).
  assert (Hr1 : runs_at w1 s) by exact Hr. destruct (_ =? 0); [|done].
  assert (Hm2 : mild w (lucas_pipe_wake_writers p w1))
    by (eapply mild_trans; [exact Hm|]; apply mild_wake_writers; eapply mild_boxes_ok; [exact Hm|apply Hc]).
  pose proof (runs_check_all E s _ (mild_base s _ _ Hm2 (proj1 Hc)) (runs_wake_writers s p w1 Hr1)) as H2. revert H2.
  generalize (iomux_check_all E (lucas_pipe_wake_writers p w1)). intros w2 H2. by destruct (_ =? 0).
Qed.

Lemma runs_close_writer E s p w : calm_at s w -> runs_at w s -> runs_at (lucas_pipe_close_writer E p w) s.
Proof.
  intros Hc Hr. unfold lucas_pipe_close_writer. destruct (Z.leb_spec (p_writers_open (get_pipe w p)) 0); [done|]. cbn zeta.
  set (w1 := upd_pipe p _ w).
  assert (Hm : mild w w1) by (subst w1; unfold upd_pipe; apply mild_set_pipe; left; cbn; lia).
  assert (Hr1 : runs_at w1 s) by exact Hr. destruct (_ =? 0); [|done].
  assert (Hm2 : mild w (lucas_pipe_wake_readers p w1))
    by (eapply mild_trans; [exact Hm|]; apply mild_wake_readers; eapply mild_boxes_ok; [exact Hm|apply Hc]).
  pose proof (runs_check_all E s _ (mild_base s _ _ Hm2 (proj1 Hc)) (runs_wake_readers s p w1 Hr1)) as H2. revert H2.
  generalize (iomux_check_all E (lucas_pipe_wake_readers p w1)). intros w2 H2. by destruct (_ =? 0).
Qed.

Lemma runs_close_end E s e w : calm_at s w -> runs_at w s -> runs_at (close_end E e w) s.
Proof.
  intros Hc Hr. unfold close_end. destruct (pipe_end FD_PIPE_READ e); [by apply runs_close_reader|].
  destruct (pipe_end FD_PIPE_WRITE e); [by apply runs_close_writer|done].
Qed.

Lemma runs_clear s n w : runs_at w s -> runs_at (clear_fd s n w) s.
Proof. intros Hr. by apply runs_upd. Qed.

Lemma runs_vfs_close E s e w : runs_at w s -> runs_at (vfs_close_entry E e w).1 s.
Proof. intros Hr. destruct (vfs_close_fst E e w) as [-> |(m & h & ->)]; exact Hr. Qed.

Lemma runs_sys_close E s fd w : calm_at s w -> runs_at w s -> runs_at (lucas_sys_close E s fd w).1 s.
Proof.
  intros Hc Hr. unfold lucas_sys_close. destruct (_ >=? _); [done|]. cbn zeta. set (e := get_fd _ _).
  assert (Hv : forall w, runs_at w s -> runs_at (let '(w, rc) := vfs_close_entry E e w in (clear_fd s (Z.to_nat fd) w, rc)).1 s).
  { intros w' Hr'. pose proof (runs_vfs_close E s e w' Hr'). destruct (vfs_close_entry E e w'). by apply runs_clear. }
  assert (Hdef : runs_at (if f_is_std e then (clear_fd s (Z.to_nat fd) w, 0) else
     match f_mount e with None => (w, - LX_EBADF)
     | Some _ => let '(w, rc) := vfs_close_entry E e w in (clear_fd s (Z.to_nat fd) w, rc) end).1 s).
  { destruct (f_is_std e); [by apply runs_clear|]. destruct (f_mount e); [by apply Hv|done]. }
  destruct (f_kind e); try done; cbn [fst]; try (by apply runs_clear).
  - destruct (f_lazy_pinned e); [by apply runs_clear|]. by apply Hv.
  - by apply runs_clear, runs_close_end.
  - by apply runs_clear, runs_close_end.
Qed.

(** close_range is a run of closes. *)
Lemma reach_close_range E s first last flags w : 0 <= first -> reach w -> running w s ->
  reach (lucas_sys_close_range E s first last flags w).1.
Proof.
  intros H0 Hw Hrun. unfold lucas_sys_close_range. destruct (_ >? _); [done|]. destruct (has flags 2); [done|]. cbn [fst].
  set (l := seq _ _). clearbody l. revert w Hw Hrun. induction l as [|i l IH]; intros w Hw Hrun; cbn [fold_left]; [done|].
  destruct (fd_free _ _); [by apply IH|].
  pose proof (reach_rested w Hw) as Hre. pose proof (rested_calm w s Hre Hrun) as Hc. pose proof Hrun as (b & Hb & Hst).
  assert (Hr : runs_at w s) by (exists b; split; [done|by eapply rested_runs]).
  apply IH.
  - eapply reach_step; [exact Hw|]. exact (step_call E E w s (OpClose (Z.of_nat i)) Hrun (Nat2Z.is_nonneg i)).
  - destruct (runs_sys_close E s (Z.of_nat i) w Hc Hr) as (b' & Hb' & Hs' & _). by exists b'.
Qed.
