(* ===== verification/EpollTheorems.v ===== *)
(** * epoll instances are finite maps

    [iomux_epoll_ctl] keeps the interests of an instance in an array of 16 entries
    and deletes by moving the last entry into the hole.  The specification is a
    map from descriptors to (events, data); [interest] relates the two, and every
    sequence of calls returns the same codes on both. *)

From S2P Require Import Prelude Storage Ring ClientMem BoxState Iomux Pipe FdTable.

(** ** The specification *)

Abbreviation interests := (gmap Z (Z * Z)).

(** [ev] is what the call reads from the client, [None] when that fails. *)
Definition ctl_spec (m : interests) (op fd : Z) (ev : option (Z * Z)) : interests * Z :=
  if op =? LX_EPOLL_CTL_DEL then
    match m !! fd with None => (m, -2) | Some _ => (delete fd m, 0) end
  else
    match ev with
    | None => (m, - LX_EFAULT)
    | Some x =>
        if op =? LX_EPOLL_CTL_ADD then
          match m !! fd with
          | Some _ => (m, -17)
          | None => if (EPOLL_ENTRIES_PER_INSTANCE <=? size m)%nat then (m, - LX_ENOMEM) else (<[fd := x]> m, 0)
          end
        else if op =? LX_EPOLL_CTL_MOD then
          match m !! fd with None => (m, -2) | Some _ => (<[fd := x]> m, 0) end
        else (m, - LX_EINVAL)
    end.

(** ** The relation *)

Definition pair_of (e : epoll_entry) : Z * (Z * Z) := (ee_fd e, (ee_events e, ee_user_data e)).

Definition interest (x : epoll_instance) (m : interests) : Prop :=
  0 <= ep_n_entries x <= Z.of_nat EPOLL_ENTRIES_PER_INSTANCE /\
  length (ep_entries x) = EPOLL_ENTRIES_PER_INSTANCE /\
  NoDup (map ee_fd (take (Z.to_nat (ep_n_entries x)) (ep_entries x))) /\
  m = list_to_map (map pair_of (take (Z.to_nat (ep_n_entries x)) (ep_entries x))).

Lemma pair_fst l : (map pair_of l).*1 = map ee_fd l.
Proof. induction l; cbn; congruence. Qed.

Lemma interest_lookup l fd v : NoDup (map ee_fd l) ->
  (list_to_map (map pair_of l) : interests) !! fd = Some v <-> exists e, e ∈ l /\ pair_of e = (fd, v).
Proof.
  intros Hn. rewrite <- (elem_of_list_to_map (M := gmap Z)) by (by rewrite pair_fst).
  rewrite list_elem_of_In, in_map_iff. split; intros (e & H); exists e; rewrite list_elem_of_In in *; tauto.
Qed.

Lemma interest_size l : NoDup (map ee_fd l) -> size (list_to_map (map pair_of l) : interests) = length l.
Proof.
  induction l as [|e l IH]; intros Hn; cbn; [by rewrite map_size_empty|]. apply NoDup_cons in Hn as [Hne Hn].
  rewrite map_size_insert_None; [by rewrite IH|]. apply not_elem_of_list_to_map. by rewrite pair_fst.
Qed.

(** Entries as the code indexes them. *)
Lemma ep_find_spec x m fd : interest x m ->
  match ep_find x fd with
  | Some k => (k < Z.to_nat (ep_n_entries x))%nat /\ exists e, ep_entries x !! k = Some e /\ (ep_entries x).[k, zero_epoll_entry] = e /\
              ee_fd e = fd /\ m !! fd = Some (ee_events e, ee_user_data e)
  | None => m !! fd = None
  end.
Proof.
  intros (Hb & Hl & Hn & ->). unfold ep_find. set (n := Z.to_nat (ep_n_entries x)) in *.
  assert (Hle : (n <= length (ep_entries x))%nat) by (rewrite Hl; unfold EPOLL_ENTRIES_PER_INSTANCE in *; lia).
  destruct (first_below _ _) as [k|] eqn:Hf.
  - apply first_below_Some in Hf as (Hk & He%Z.eqb_eq & _). split; [done|].
    destruct (lookup_lt_is_Some_2 (ep_entries x) k ltac:(lia)) as [e Hek]. exists e.
    assert (Hget : (ep_entries x).[k, zero_epoll_entry] = e) by (by rewrite Hek). rewrite Hget in He.
    split_and!; [done|done|done|]. apply interest_lookup; [done|]. exists e. split; [|by rewrite <- He].
    apply list_elem_of_lookup. exists k. by rewrite lookup_take_lt.
  - apply not_elem_of_list_to_map. rewrite pair_fst. intros (e & Hfd & Hin%list_elem_of_In)%list_elem_of_In%in_map_iff.
    apply list_elem_of_lookup in Hin as [k Hk]. apply lookup_take_Some in Hk as [Hk Hlt].
    pose proof (first_below_None _ _ k Hf Hlt) as Hne. cbv beta in Hne. rewrite Hk in Hne. cbn in Hne. apply Z.eqb_neq in Hne. done.
Qed.

(** ** The three changes *)

(** The array after a deletion holds the other entries. *)
Lemma swap_remove (es : list epoll_entry) k m e d : (m < length es)%nat -> (k <= m)%nat -> es !! k = Some e ->
  take (S m) es ≡ₚ e :: take m (if bool_decide (k = m) then es else <[k := default d (es !! m)]> es).
Proof.
  intros Hm Hk He. destruct (lookup_lt_is_Some_2 es m Hm) as [y Hy]. rewrite (take_S_r _ _ _ Hy), Hy. cbn [default]. unfold id.
  case_bool_decide as Heq.
  - subst k. rewrite Hy in He. injection He as ->. symmetry. apply Permutation_cons_append.
  - rewrite take_insert_lt by lia. assert (Hek : take m es !! k = Some e) by (by rewrite lookup_take_lt by lia).
    rewrite insert_take_drop by (rewrite length_take; lia). rewrite <- (take_drop_middle _ _ _ Hek) at 1.
    rewrite <- app_assoc. cbn. rewrite <- Permutation_middle. constructor. apply Permutation_app_head.
    symmetry. apply Permutation_cons_append.
Qed.

Lemma interest_delete x m k e : interest x m -> (k < Z.to_nat (ep_n_entries x))%nat -> ep_entries x !! k = Some e ->
  interest (ep_delete x k) (delete (ee_fd e) m).
Proof.
  intros (Hb & Hl & Hn & ->) Hk He. unfold ep_delete. set (n := Z.to_nat (ep_n_entries x)) in *.
  assert (Hlt : (n <= 16)%nat) by (subst n; unfold EPOLL_ENTRIES_PER_INSTANCE in Hb; lia). unfold EPOLL_ENTRIES_PER_INSTANCE in Hl.
  replace (Z.to_nat (ep_n_entries x - 1)) with (n - 1)%nat by lia.
  pose proof (swap_remove (ep_entries x) k (n - 1) e zero_epoll_entry ltac:(lia) ltac:(lia) He) as Hp.
  replace (S (n - 1)) with n in Hp by lia.
  set (es := if bool_decide (k = (n - 1)%nat) then _ else _) in *.
  assert (Hn' : NoDup (map ee_fd (e :: take (n - 1) es))) by (eapply NoDup_Permutation_proper; [symmetry; by apply Permutation_map|done]).
  cbn [map] in Hn'. apply NoDup_cons in Hn' as [Hni Hn'].
  split; [cbn; lia|]. split; [subst es; cbn; case_bool_decide; [|rewrite length_insert]; done|]. cbn [ep_entries ep_n_entries].
  replace (Z.to_nat (ep_n_entries x - 1)) with (n - 1)%nat by lia. split; [done|].
  rewrite (list_to_map_proper (M := gmap Z) _ (map pair_of (e :: take (n - 1) es)));
    [|by rewrite pair_fst|by apply Permutation_map].
  cbn. rewrite delete_insert_id; [done|]. apply not_elem_of_list_to_map. by rewrite pair_fst.
Qed.

Lemma interest_add x m fd ev : interest x m -> m !! fd = None -> ep_n_entries x < Z.of_nat EPOLL_ENTRIES_PER_INSTANCE ->
  interest (mk_epoll_instance (ep_in_use x) (ep_epfd x)
    (<[Z.to_nat (ep_n_entries x) := mk_epoll_entry fd ev.1 ev.2]> (ep_entries x)) (ep_n_entries x + 1)) (<[fd := ev]> m).
Proof.
  intros (Hb & Hl & Hn & ->) Hf Hlt. unfold interest. cbn [ep_entries ep_n_entries]. rewrite length_insert. set (n := Z.to_nat (ep_n_entries x)) in *.
  replace (Z.to_nat (ep_n_entries x + 1)) with (S n) by lia.
  assert (Htake : take (S n) (<[n := mk_epoll_entry fd ev.1 ev.2]> (ep_entries x)) = take n (ep_entries x) ++ [mk_epoll_entry fd ev.1 ev.2]).
  { rewrite (take_S_r _ _ (mk_epoll_entry fd ev.1 ev.2)); [by rewrite take_insert_ge|]. apply list_lookup_insert_eq. lia. }
  rewrite Htake. rewrite !map_app. split_and!; [lia|lia|done| |].
  - apply NoDup_app. split; [done|]. split; [|apply NoDup_singleton]. intros f Hin [->|H]%elem_of_cons; [|by apply elem_of_nil in H].
    apply not_elem_of_list_to_map in Hf. by rewrite pair_fst in Hf.
  - rewrite list_to_map_app. cbn. rewrite <- insert_union_r by done. rewrite map_union_empty. by destruct ev.
Qed.

Lemma interest_mod x m k e ev : interest x m -> (k < Z.to_nat (ep_n_entries x))%nat -> ep_entries x !! k = Some e ->
  interest (mk_epoll_instance (ep_in_use x) (ep_epfd x)
    (<[k := mk_epoll_entry (ee_fd e) ev.1 ev.2]> (ep_entries x)) (ep_n_entries x)) (<[ee_fd e := ev]> m).
Proof.
  intros (Hb & Hl & Hn & ->) Hk He. unfold interest. cbn [ep_entries ep_n_entries]. rewrite length_insert. set (n := Z.to_nat (ep_n_entries x)) in *.
  rewrite take_insert_lt by done. set (l := take n (ep_entries x)) in *.
  assert (Hlk : l !! k = Some e) by (subst l; by rewrite lookup_take_lt).
  set (e' := mk_epoll_entry (ee_fd e) ev.1 ev.2).
  assert (Hfds : map ee_fd (<[k := e']> l) = map ee_fd l).
  { change (ee_fd <$> <[k := e']> l = ee_fd <$> l). rewrite list_fmap_insert. apply list_insert_id. by rewrite list_lookup_fmap, Hlk. }
  split_and!; [lia|lia|done|by rewrite Hfds|]. apply map_eq. intros f. apply option_eq. intros v.
  assert (Hn' : NoDup (map ee_fd (<[k := e']> l))) by (by rewrite Hfds).
  rewrite interest_lookup by done. rewrite lookup_insert_Some, interest_lookup by done. split.
  - intros [[<- <-]|[Hne (y & Hy & Hp)]].
    + exists e'. split; [|by destruct ev]. apply list_elem_of_lookup. exists k. apply list_lookup_insert_eq. by apply lookup_lt_Some in Hlk.
    + exists y. split; [|done]. apply list_elem_of_lookup in Hy as [j Hj]. apply list_elem_of_lookup. exists j.
      rewrite list_lookup_insert_ne; [done|]. intros ->. rewrite Hlk in Hj. injection Hj as ->. unfold pair_of in Hp. congruence.
  - intros (y & Hy & Hp). apply list_elem_of_lookup in Hy as [j Hj]. destruct (decide (j = k)) as [->|Hjk].
    + rewrite list_lookup_insert_eq in Hj by (by apply lookup_lt_Some in Hlk). injection Hj as <-. left. subst e'. injection Hp as <- <-. by destruct ev.
    + rewrite list_lookup_insert_ne in Hj by done. right. split; [|exists y; split; [by apply list_elem_of_lookup; exists j|done]].
      intros Heq. assert (Hfy : ee_fd y = ee_fd e) by (unfold pair_of in Hp; congruence). apply Hjk. eapply NoDup_lookup; [exact Hn| |].
      * change (map ee_fd l) with (ee_fd <$> l). rewrite list_lookup_fmap, Hj. done.
      * change (map ee_fd l) with (ee_fd <$> l). rewrite list_lookup_fmap, Hlk. cbn. congruence.
Qed.

(** ** The call *)

(** What the call reads from the client. *)
Definition event_at (b : box) (event_vaddr : Z) : option (Z * Z) :=
  match lucas_copy_from_client (b_vspace b) event_vaddr 12 with
  | Some ev => Some (field ev 0 4, field ev 4 8)
  | None => None
  end.

Lemma get_ep_set b s x : (s < length (b_epoll_table b))%nat -> get_ep (set_ep s x b) s = x.
Proof. intros Hs. unfold get_ep, set_ep. cbn. by rewrite list_lookup_insert_eq. Qed.

Lemma ctl_step b epfd op fd v slot m : (slot < length (b_epoll_table b))%nat ->
  epoll_slot_for_fd b epfd = Some slot -> 0 <= fd < Z.of_nat LUCAS_MAX_FDS -> interest (get_ep b slot) m ->
  (iomux_epoll_ctl b epfd op fd v).2 = (ctl_spec m op fd (event_at b v)).2 /\
  exists x, ep_in_use x = ep_in_use (get_ep b slot) /\ ep_epfd x = ep_epfd (get_ep b slot) /\
    interest x (ctl_spec m op fd (event_at b v)).1 /\
    ((iomux_epoll_ctl b epfd op fd v).1 = set_ep slot x b \/ (iomux_epoll_ctl b epfd op fd v).1 = b /\ x = get_ep b slot).
Proof.
  intros Hs Hslot Hfd Hi. unfold iomux_epoll_ctl, ctl_spec, event_at. rewrite Hslot.
  rewrite (proj2 (Z.ltb_ge fd 0)), Z.geb_leb, (proj2 (Z.leb_gt _ fd)) by lia. cbn [orb]. cbn zeta. set (x := get_ep b slot) in *.
  assert (Hkeep : exists y, ep_in_use y = ep_in_use x /\ ep_epfd y = ep_epfd x /\ interest y m /\ (b = set_ep slot y b \/ b = b /\ y = x))
    by (exists x; split_and!; auto).
  assert (Hput : forall y m', ep_in_use y = ep_in_use x -> ep_epfd y = ep_epfd x -> interest y m' ->
    exists z, ep_in_use z = ep_in_use x /\ ep_epfd z = ep_epfd x /\ interest z m' /\ (set_ep slot y b = set_ep slot z b \/ set_ep slot y b = b /\ z = x))
    by (intros y m' H1 H2 H3; exists y; split_and!; auto).
  pose proof (ep_find_spec x m fd Hi) as Hf. destruct (op =? LX_EPOLL_CTL_DEL).
  { destruct (ep_find x fd) as [k|]; [|rewrite Hf; by split]. destruct Hf as (Hk & e & He & _ & Hfe & Hm). rewrite Hm. split; [done|].
    apply Hput; [done|done|]. rewrite <- Hfe. by apply interest_delete. }
  destruct (lucas_copy_from_client _ _ _) as [ev|]; [|by split]. destruct (op =? LX_EPOLL_CTL_ADD).
  { destruct (ep_find x fd) as [k|]; [destruct Hf as (_ & e & _ & _ & _ & Hm); rewrite Hm; auto|]. rewrite Hf.
    rewrite bool_decide_eq_false_2 by (by intros []).
    assert (Hsz : size m = Z.to_nat (ep_n_entries x)).
    { destruct Hi as (Hb & Hl & Hn & ->). rewrite interest_size, length_take by done. unfold EPOLL_ENTRIES_PER_INSTANCE in *. lia. }
    rewrite Hsz, Z.geb_leb. pose proof Hi as (Hb & _). destruct (Z.leb_spec (Z.of_nat EPOLL_ENTRIES_PER_INSTANCE) (ep_n_entries x)).
    - rewrite (proj2 (Nat.leb_le _ _)) by lia. by split.
    - rewrite (proj2 (Nat.leb_gt _ _)) by lia. split; [done|]. apply Hput; [done|done|].
      by apply (interest_add x m fd (field ev 0 4, field ev 4 8)). }
  destruct (op =? LX_EPOLL_CTL_MOD); [|by split]. destruct (ep_find x fd) as [k|]; [|rewrite Hf; by split].
  destruct Hf as (Hk & e & He & Hget & Hfe & Hm). rewrite Hm. split; [done|]. apply Hput; [done|done|]. rewrite Hget. rewrite <- Hfe.
  by apply (interest_mod x m k e (field ev 0 4, field ev 4 8)).
Qed.

(** ** Runs *)

(** A call, with the memory the client has at that time. *)
Record ctl_call := mk_ctl { ctl_mem : vspace; ctl_op : Z; ctl_fd : Z; ctl_vaddr : Z }.

Fixpoint ctl_run (b : box) (epfd : Z) (l : list ctl_call) : box * list Z :=
  match l with
  | [] => (b, [])
  | c :: l =>
      let r := iomux_epoll_ctl (set_b_vspace (ctl_mem c) b) epfd (ctl_op c) (ctl_fd c) (ctl_vaddr c) in
      let rs := ctl_run r.1 epfd l in
      (rs.1, r.2 :: rs.2)
  end.

Fixpoint spec_run (m : interests) (l : list (Z * Z * option (Z * Z))) : interests * list Z :=
  match l with
  | [] => (m, [])
  | (op, fd, ev) :: l => let r := ctl_spec m op fd ev in let rs := spec_run r.1 l in (rs.1, r.2 :: rs.2)
  end.

Definition ctl_view (b : box) (c : ctl_call) : Z * Z * option (Z * Z) :=
  (ctl_op c, ctl_fd c, event_at (set_b_vspace (ctl_mem c) b) (ctl_vaddr c)).

(** The instance a descriptor names does not change when its interests do. *)
Lemma slot_for_fd_set b epfd slot x : (slot < length (b_epoll_table b))%nat ->
  ep_in_use x = ep_in_use (get_ep b slot) -> ep_epfd x = ep_epfd (get_ep b slot) ->
  epoll_slot_for_fd (set_ep slot x b) epfd = epoll_slot_for_fd b epfd.
Proof.
  intros Hs H1 H2. apply first_below_ext. intros j _. destruct (decide (j = slot)) as [->|Hne].
  - by rewrite get_ep_set, H1, H2.
  - unfold get_ep, set_ep. cbn. by rewrite list_lookup_insert_ne.
Qed.

(** C19: any sequence of epoll_ctl calls on an instance, with whatever the client has
    in memory at each of them, returns the codes a finite map from descriptors to
    interests would give (EEXIST, ENOENT, ENOMEM beyond 16, EFAULT, EINVAL) and
    leaves the instance holding exactly that map, although the array deletes by
    moving its last entry. *)
Theorem epoll_interest_map l : forall b epfd slot m,
  (slot < length (b_epoll_table b))%nat -> epoll_slot_for_fd b epfd = Some slot ->
  Forall (fun c => 0 <= ctl_fd c < Z.of_nat LUCAS_MAX_FDS) l -> interest (get_ep b slot) m ->
  (ctl_run b epfd l).2 = (spec_run m (map (ctl_view b) l)).2 /\
  interest (get_ep (ctl_run b epfd l).1 slot) (spec_run m (map (ctl_view b) l)).1.
Proof.
  induction l as [|c l IH]; intros b epfd slot m Hs Hslot Ha Hi; [done|]. apply Forall_cons in Ha as [Hfd Ha].
  cbn [ctl_run map spec_run ctl_view fst snd]. set (b0 := set_b_vspace (ctl_mem c) b).
  destruct (ctl_step b0 epfd (ctl_op c) (ctl_fd c) (ctl_vaddr c) slot m Hs Hslot Hfd Hi) as (Hr & x & H1 & H2 & Hx & Hb).
  set (r := iomux_epoll_ctl _ _ _ _ _) in *. set (q := ctl_spec _ _ _ _) in *.
  assert (Hb' : (slot < length (b_epoll_table r.1))%nat /\ epoll_slot_for_fd r.1 epfd = Some slot /\ get_ep r.1 slot = x).
  { destruct Hb as [-> | [-> ->]]; [|done]. split; [cbn; by rewrite length_insert|]. split; [by rewrite slot_for_fd_set|by apply get_ep_set]. }
  destruct Hb' as (Hs' & Hslot' & Hg). destruct (IH r.1 epfd slot q.1 Hs' Hslot' Ha ltac:(by rewrite Hg)) as [K1 K2].
  change (map (ctl_view b) l) with (map (ctl_view r.1) l). split; [by rewrite Hr, K1|done].
Qed.

(** A new instance is empty. *)
Lemma created_empty b : (length (b_epoll_table b) = EPOLL_TABLE_SIZE)%nat -> forall fd b' s, iomux_epoll_create b = (b', fd) ->
  epoll_slot_for_fd b' fd = Some s -> (forall j, ep_in_use (get_ep b j) = true -> ep_epfd (get_ep b j) <> fd) -> interest (get_ep b' s) ∅.
Proof.
  intros Hl fd b' s. unfold iomux_epoll_create. destruct (alloc_lucas_fd b) as [n|]; [|intros [= <- <-]].
  2:{ intros (Hs & [Hu He%Z.eqb_eq]%andb_true_iff & _)%first_below_Some Hno. by apply Hno in Hu. }
  unfold epoll_alloc_slot. destruct (first_below _ _) as [k|] eqn:Hk; [|intros [= <- <-]].
  2:{ intros (Hs & [Hu He%Z.eqb_eq]%andb_true_iff & _)%first_below_Some Hno. by apply Hno in Hu. }
  apply first_below_Some in Hk as (Hk & Hfree & _). cbn zeta. intros [= <- <-].
  intros (Hs & [Hu He%Z.eqb_eq]%andb_true_iff & _)%first_below_Some Hno.
  unfold get_ep, set_ep, set_b_n_epoll_instances, set_fd in *. cbn in *.
  destruct (decide (s = k)) as [->|Hne].
  - rewrite !list_lookup_insert_eq by (rewrite ?length_insert, Hl; done). cbn. repeat split; cbn; try lia. constructor.
  - rewrite !list_lookup_insert_ne in Hu, He by done. by apply Hno in Hu.
Qed.

Definition demo_mem : vspace := mk_vspace (fun a => a mod 256) (fun _ => true) (fun _ => true).
Definition demo_instance : box := (iomux_epoll_create zero_box).1.
Definition demo_ctl : list ctl_call :=
  [mk_ctl demo_mem LX_EPOLL_CTL_ADD 3 4096; mk_ctl demo_mem LX_EPOLL_CTL_ADD 4 4098; mk_ctl demo_mem LX_EPOLL_CTL_DEL 3 0;
   mk_ctl demo_mem LX_EPOLL_CTL_ADD 4 4096; mk_ctl demo_mem LX_EPOLL_CTL_MOD 3 4096; mk_ctl demo_mem LX_EPOLL_CTL_MOD 4 4096].

Lemma epoll_interest_map_witness :
  (ctl_run demo_instance 0 demo_ctl).2 = [0; 0; 0; -17; -2; 0] /\
  (ctl_run demo_instance 0 demo_ctl).2 = (spec_run ∅ (map (ctl_view demo_instance) demo_ctl)).2.
Proof.
  split; [by vm_compute|]. apply (epoll_interest_map demo_ctl demo_instance 0 0 ∅); [by vm_compute; lia|by vm_compute| |].
  - unfold demo_ctl. repeat (apply Forall_cons; split; [cbn [ctl_fd]; unfold LUCAS_MAX_FDS; lia|]). apply Forall_nil_2.
  - repeat split; try (by vm_compute). constructor.
Defined.
