(* ===== verification/PipeTheorems.v ===== *)
(** * What the pipes promise

    The theorems of the descriptor, pipe and multiplexing code over every
    reachable world ([reach]): the stream, the open counts, the waits of readers
    and writers, the waits in epoll_wait, poll and select, and two runs in which
    the code does less than it should. *)

From S2P Require Import Prelude Storage Ring ClientMem Bytepipe BoxState Iomux Pipe FdTable Console PipeSys PipeInv PipeFifo PipeRefs PipeOps PipeWait PollWait PollOps.

(** ** Concrete runs *)

Definition running_b (w : world) (s : nat) : bool :=
  match sotbox_get_slot w s with Some b => bool_decide (b_state b = RUNNING) | None => false end.

Lemma running_b_spec w s : running_b w s = true -> running w s.
Proof. unfold running_b. destruct (sotbox_get_slot w s) as [b|] eqn:Hb; [|done]. intros H%bool_decide_eq_true. by exists b. Qed.

Definition parked_b (w : world) (k : Z) (p i : nat) : bool :=
  match sotbox_get_slot w i with Some b => parked_on k p b | None => false end.

Lemma parked_b_spec w k p i : parked_b w k p i = true <-> parked w k p i.
Proof.
  unfold parked_b. split.
  - destruct (sotbox_get_slot w i) as [b|] eqn:Hb; [|done]. intros H. by exists b.
  - by intros (b & -> & H).
Qed.

(** Calls made one after the other, each by a client that runs. *)
Fixpoint calls (E : env) (l : list (nat * op)) (w : world) : world :=
  match l with [] => w | (s, o) :: l => calls E l (exec E E s o w).1 end.

Fixpoint calls_ok (E : env) (l : list (nat * op)) (w : world) : bool :=
  match l with [] => true | (s, o) :: l => running_b w s && calls_ok E l (exec E E s o w).1 end.

Lemma reach_calls E l : forall w, reach w -> Forall (fun x => args_ok x.2) l -> calls_ok E l w = true -> reach (calls E l w).
Proof.
  induction l as [|[s o] l IH]; intros w Hw Ha Hok; cbn in *; [done|]. apply andb_true_iff in Hok as [Hr Hok].
  apply Forall_cons in Ha as [Ho Ha]. apply IH; [|done|done]. eapply reach_step; [exact Hw|]. apply step_call; [by apply running_b_spec|done].
Qed.

(** A client whose address space is mapped throughout, and an outside in which no
    file or socket ever has anything to say. *)
Definition demo_env : env := mk_env (fun _ => None) (fun _ => None) (fun _ _ => 0) false fresh_ring.
Definition demo_box : box := set_b_vspace (mk_vspace (fun a => a mod 256) (fun _ => true) (fun _ => true)) zero_box.
Definition demo_world : world := set_slot 0 demo_box init_world.

Lemma demo_reach : reach demo_world.
Proof.
  eapply reach_step; [apply reach_init|]. apply step_spawn; [unfold SOTBOX_MAX_SLOTS; lia|apply init_slot|].
  split_and!; [done|done|done|]. apply Forall_replicate. cbn. done.
Qed.

(** pipe, a write of three bytes, a read of two. *)
Definition demo_transfer : list (nat * op) := [(0%nat, OpPipe 4096); (0%nat, OpWrite 1 8192 3 None); (0%nat, OpRead 0 4096 2 None)].

Ltac args := repeat (apply Forall_cons; split; [cbn; unfold in_range; lia|]); apply Forall_nil_2.
Ltac run_ok := apply reach_calls; [apply demo_reach|args|by vm_compute].

Lemma demo_transfer_reach : reach (calls demo_env demo_transfer demo_world).
Proof. run_ok. Qed.

(** ** The stream *)

(** C9: in every reachable world the bytes that were written into a pipe since it
    was allocated are those that were read from it, followed by its unread
    content: nothing is lost, repeated or reordered, across partial transfers,
    parked readers and writers, and the wrap of the ring; and the unread bytes are
    at most 4096. *)
Theorem pipe_stream w p : reach w -> (p < LUCAS_PIPE_POOL)%nat ->
  let x := get_pipe w p in
  (flow p (w_log w)).1 = (flow p (w_log w)).2 ++ pipe_content x /\
  Z.of_nat (length (pipe_content x)) = p_count x /\ 0 <= p_count x <= LUCAS_PIPE_BUF_SIZE.
Proof.
  intros Hr Hp x. pose proof (reach_inv w Hr) as [Hf Hrefs].
  destruct (fifo_pipes w Hf p ltac:(by rewrite (r_pipes w Hrefs))) as [(_ & Hc & _) Hflow].
  split; [done|]. split; [|done]. unfold pipe_content. rewrite length_content. subst x. lia.
Qed.

Lemma pipe_stream_witness :
  let w := calls demo_env demo_transfer demo_world in
  (flow 0 (w_log w)).1 = (flow 0 (w_log w)).2 ++ pipe_content (get_pipe w 0).
Proof. apply (pipe_stream _ 0 demo_transfer_reach). unfold LUCAS_PIPE_POOL. lia. Defined.

(** The run moves the bytes: three in, two out. *)
Example demo_transfer_flow : flow 0 (w_log (calls demo_env demo_transfer demo_world)) = ([0; 1; 2], [0; 1]).
Proof. by vm_compute. Qed.

(** ** The open counts *)

(** C15: in every reachable world the open counts of a pipe cover the descriptors
    of all clients that refer to it (after pipe, dup, fork, close, exec and exit
    in any order), a pipe is in use exactly while a count is positive, and the
    pipe the allocator hands out next is one no descriptor refers to. *)
Theorem open_counts w p : reach w ->
  let x := get_pipe w p in
  ends FD_PIPE_READ p w <= p_readers_open x /\ ends FD_PIPE_WRITE p w <= p_writers_open x /\
  p_in_use x = ((0 <? p_readers_open x) || (0 <? p_writers_open x)) /\
  ((lucas_pipe_alloc w).2 = Some p -> ends FD_PIPE_READ p w = 0 /\ ends FD_PIPE_WRITE p w = 0).
Proof.
  intros Hr x. pose proof (reach_inv w Hr) as [_ Hrefs]. pose proof (r_read w Hrefs p) as H1. pose proof (r_write w Hrefs p) as H2.
  split_and!; [done|done|apply (r_use w Hrefs)|]. intros Ha.
  destruct (alloc_cases w) as [Hn|(q & _ & Hu & Hq)]; [by rewrite Hn in Ha|]. rewrite Hq in Ha. injection Ha as ->.
  pose proof (free_counts w p (refs_use w Hrefs) Hu). pose proof (ends_nonneg FD_PIPE_READ p w). pose proof (ends_nonneg FD_PIPE_WRITE p w). lia.
Qed.

(** A fork, then the parent keeps the write end and the child the read end. *)
Definition demo_fork : list (nat * op) :=
  [(0%nat, OpPipe 4096); (0%nat, OpFork ForkDone); (0%nat, OpClose 0); (1%nat, OpClose 1)].

Lemma demo_fork_reach : reach (calls demo_env demo_fork demo_world).
Proof. run_ok. Qed.

Lemma open_counts_witness :
  let w := calls demo_env demo_fork demo_world in
  ends FD_PIPE_READ 1 w = 0 /\ ends FD_PIPE_WRITE 1 w = 0.
Proof. apply (open_counts _ 1 demo_fork_reach). by vm_compute. Defined.

(** ** Parked readers and writers *)

(** C16: while never two clients wait for the same end of a pipe, a client parked in
    a read waits on an empty pipe that has a writer, and one parked in a write on
    a full pipe that has a reader: every write, read and close that ends such a
    state has completed the transfer and resumed the client. *)
Theorem parked_means_blocked w p i : reach_single w ->
  (parked w 1 p i -> p_count (get_pipe w p) = 0 /\ 0 < p_writers_open (get_pipe w p)) /\
  (parked w 2 p i -> p_count (get_pipe w p) = LUCAS_PIPE_BUF_SIZE /\ 0 < p_readers_open (get_pipe w p)).
Proof.
  intros Hr. destruct (g_blocked w (reach_good w Hr) p) as [H1 H2].
  split; intros H; [apply (H1 i H)|apply (H2 i H)].
Qed.

(** The child reads from the empty pipe. *)
Definition demo_park : list (nat * op) := [(0%nat, OpPipe 4096); (0%nat, OpFork ForkDone); (1%nat, OpRead 0 4096 2 (Some 77))].

(** No client but that in slot [j] waits on a pipe. *)
Definition lone_b (j : nat) (w : world) : bool :=
  forallb (fun i => (i =? j)%nat || match sotbox_get_slot w i with Some b => pipe_wait_kind (b_pipe_wait b) =? 0 | None => true end)
    (seq 0 (length (w_slots w))).

Lemma lone_single j w : lone_b j w = true -> single w.
Proof.
  intros H k p. assert (Hj : forall i, k <> 0 -> parked w k p i -> i = j).
  { intros i Hk (b & Hb & Hp). unfold lone_b in H. rewrite forallb_forall in H. pose proof Hb as Hl. apply get_slot_lookup, lookup_lt_Some in Hl.
    specialize (H i ltac:(apply in_seq; lia)). rewrite Hb in H. unfold parked_on in Hp. apply andb_true_iff in Hp as [Hp%Z.eqb_eq _].
    apply orb_true_iff in H as [H|H]; [by apply Nat.eqb_eq in H|]. apply Z.eqb_eq in H. congruence. }
  intros i i' Hk Hi Hi'. rewrite (Hj i Hk Hi). symmetry. by apply Hj.
Qed.

Fixpoint lone_calls (E : env) (j : nat) (l : list (nat * op)) (w : world) : bool :=
  match l with
  | [] => true
  | (s, o) :: l => running_b w s && lone_b j (exec E E s o w).1 && lone_calls E j l (exec E E s o w).1
  end.

Lemma reach_lone E j l : forall w, reach_single w -> Forall (fun x => args_ok x.2) l -> lone_calls E j l w = true ->
  reach_single (calls E l w).
Proof.
  induction l as [|[s o] l IH]; intros w Hw Ha Hok; cbn in *; [done|]. apply andb_true_iff in Hok as [[Hr Hl]%andb_true_iff Hok].
  apply Forall_cons in Ha as [Ho Ha]. apply IH; [|done|done].
  eapply rs_step; [exact Hw|apply step_call; [by apply running_b_spec|done]|by apply (lone_single j)].
Qed.

Lemma demo_park_reach : reach_single (calls demo_env demo_park demo_world).
Proof.
  apply (reach_lone demo_env 1); [|args|by vm_compute].
  eapply rs_step; [apply rs_init| |by apply (lone_single 0)].
  apply step_spawn; [unfold SOTBOX_MAX_SLOTS; lia|apply init_slot|]. split_and!; [done|done|done|]. apply Forall_replicate. cbn. done.
Qed.

Lemma parked_means_blocked_witness :
  let w := calls demo_env demo_park demo_world in
  p_count (get_pipe w 0) = 0 /\ 0 < p_writers_open (get_pipe w 0).
Proof. apply (parked_means_blocked _ 0 1 demo_park_reach). apply parked_b_spec. by vm_compute. Defined.

(** Without that condition a reader can sleep for ever: two clients parked in a
    read of one pipe, the last writer closes, one of them is told the end of file
    and the other stays parked on a pipe that is empty and has no writer left. *)
Theorem second_reader_stranded : exists w, reach w /\ parked w 1 0 2 /\
  p_count (get_pipe w 0) = 0 /\ p_writers_open (get_pipe w 0) = 0 /\ ~ parked w 1 0 1.
Proof.
  set (l := [(0%nat, OpPipe 4096); (0%nat, OpFork ForkDone); (0%nat, OpFork ForkDone); (1%nat, OpClose 1); (2%nat, OpClose 1);
             (1%nat, OpRead 0 4096 2 (Some 77)); (2%nat, OpRead 0 4096 2 (Some 78)); (0%nat, OpClose 1)]).
  exists (calls demo_env l demo_world). split_and!.
  - run_ok.
  - apply parked_b_spec. by vm_compute.
  - by vm_compute.
  - by vm_compute.
  - rewrite <- parked_b_spec. by vm_compute.
Qed.

(** ** Waits in epoll_wait, poll and select *)

(** C8: in every reachable world, a client that sleeps in epoll_wait, poll or select
    and asked to hear about the read end of a pipe sleeps only while that pipe is
    neither readable nor at end of file: no wake-up is lost, whatever the other
    clients write, close, fork or read in between. *)
Theorem no_lost_wakeup w i b p : reach w -> sotbox_get_slot w i = Some b -> wants b p ->
  p_count (get_pipe w p) <= 0 /\ p_writers_open (get_pipe w p) <> 0.
Proof.
  intros Hr Hb Hw. destruct (reach_rested w Hr) as (_ & _ & _ & Hc). pose proof (Hc i b Hb p Hw) as H.
  unfold not_readable in H. change (lucas_pipe_read_ready (get_pipe w p) = false) in H. unfold lucas_pipe_read_ready in H.
  apply orb_false_iff in H as [H1 H2]. rewrite Z.gtb_ltb in H1. apply Z.ltb_ge in H1. by apply Z.eqb_neq in H2.
Qed.

(** The child asks epoll for descriptor 0 and waits. *)
Definition demo_epoll : list (nat * op) :=
  [(0%nat, OpPipe 4096); (0%nat, OpFork ForkDone); (1%nat, OpEpollCreate); (1%nat, OpEpollCtl 2 LX_EPOLL_CTL_ADD 0 8193);
   (1%nat, OpEpollWait (Some 77) 2 4096 4 (-1))].

Lemma demo_epoll_reach : reach (calls demo_env demo_epoll demo_world).
Proof. run_ok. Qed.

(** The client in slot [i] sleeps in epoll_wait for the read end of [p]. *)
Definition epoll_waits (w : world) (i p : nat) : bool :=
  match sotbox_get_slot w i with
  | Some b =>
      bool_decide (b_state b = WAITING_FOR_EPOLL) &&
      existsb (fun x => has (ee_events x) LX_EPOLLIN && bool_decide (read_pipe b (ee_fd x) = Some p))
        (ep_live (get_ep b (Z.to_nat (epoll_wait_slot (b_epoll_wait b)))))
  | None => false
  end.

Lemma epoll_waits_spec w i p : epoll_waits w i p = true -> exists b, sotbox_get_slot w i = Some b /\ wants b p.
Proof.
  unfold epoll_waits. destruct (sotbox_get_slot w i) as [b|]; [|done]. intros [Hs%bool_decide_eq_true Hx]%andb_true_iff.
  exists b. split; [done|]. apply existsb_exists in Hx as (x & Hin%list_elem_of_In & [Hev Hp%bool_decide_eq_true]%andb_true_iff).
  by eapply wants_epoll.
Qed.

Lemma no_lost_wakeup_witness :
  let w := calls demo_env demo_epoll demo_world in
  p_count (get_pipe w 0) <= 0 /\ p_writers_open (get_pipe w 0) <> 0.
Proof.
  destruct (epoll_waits_spec (calls demo_env demo_epoll demo_world) 1 0) as (b & Hb & Hw); [by vm_compute|].
  exact (no_lost_wakeup _ 1 b 0 demo_epoll_reach Hb Hw).
Defined.

(** ** A fork that fails *)

(** A fork that fails after the descriptors were copied (no arena, or the child
    could not be built) leaves every open count higher by the descriptors of the
    parent, while the descriptor tables are as before: the pipes of the parent can
    no longer reach end of file, nor return to the pool. *)
Theorem failed_fork_leaks E w s b out p : reach w -> sotbox_get_slot w s = Some b -> out = ForkNoArena \/ out = ForkBuildFails ->
  let w' := (sotbox_fork E s out w).1 in
  (sotbox_fork E s out w).2 < 0 /\ (forall k, ends k p w' = ends k p w) /\
  p_readers_open (get_pipe w' p) = p_readers_open (get_pipe w p) + fd_ends FD_PIPE_READ p (b_fds b) /\
  p_writers_open (get_pipe w' p) = p_writers_open (get_pipe w p) + fd_ends FD_PIPE_WRITE p (b_fds b).
Proof.
  intros Hr Hb Hout. pose proof (reach_inv w Hr) as Hi. unfold sotbox_fork. rewrite (box_at_Some _ _ _ Hb).
  destruct (inherit_spec w s b Hi Hb) as (Hs & _ & _ & Hr1 & Hc). revert Hs Hr1 Hc. generalize (inherit_pipe_ends (fork_child b) w).
  intros w1 Hs Hr1 Hc. cbn zeta. set (c := lucas_dup_vfs_handles E (fork_child b)).
  destruct (sotbox_alloc_slot w1) as [slot|] eqn:Ha;
    [|destruct Hout as [-> | ->]; (split; [done|]; split; [intros k; by apply fds_same_ends|apply Hc])].
  apply slot_free_lookup in Ha; [|apply Hr1]. unfold unix_inherit_all.
  destruct (unix_inherit_eq slot c (seq 0 LUCAS_MAX_FDS) (set_slot slot c w1)) as (evs & _ & ->).
  assert (He : forall k, ends k p (sotbox_free_slot slot (set_w_log (w_log (set_slot slot c w1) ++ evs) (set_slot slot c w1))) = ends k p w).
  { intros k. rewrite <- (fds_same_ends w w1 k p Hs). unfold ends, sotbox_free_slot, set_slot. cbn.
    by rewrite list_insert_insert_eq, list_insert_id. }
  destruct Hout as [-> | ->]; (split; [done|]; split; [exact He|exact (Hc p)]).
Qed.

(** The same loss without a failure: a client that is killed or torn down keeps the
    ends it had open for ever, since only exit_group closes descriptors. *)
Lemma killed_client_leaks w s b p : reach w -> sotbox_get_slot w s = Some b ->
  let w' := sotbox_free_slot s w in
  ends FD_PIPE_WRITE p w' + fd_ends FD_PIPE_WRITE p (b_fds b) <= p_writers_open (get_pipe w' p).
Proof.
  intros Hr Hb w'. pose proof (reach_inv w Hr) as [_ Hrefs]. pose proof (r_write w Hrefs p) as H. subst w'. unfold ends in *.
  change (get_pipe (sotbox_free_slot s w) p) with (get_pipe w p). cbn [w_slots sotbox_free_slot set_w_slots].
  apply get_slot_lookup in Hb. rewrite (zsum_insert _ _ _ _ _ Hb). cbn [box_ends]. lia.
Qed.

Lemma demo_pipe_reach : reach (calls demo_env [(0%nat, OpPipe 4096)] demo_world).
Proof. run_ok. Qed.

Lemma failed_fork_leaks_witness :
  let w := calls demo_env [(0%nat, OpPipe 4096)] demo_world in
  let w' := (sotbox_fork demo_env 0 ForkNoArena w).1 in
  exists b, sotbox_get_slot w 0 = Some b /\ fd_ends FD_PIPE_WRITE 0 (b_fds b) = 1 /\
    p_writers_open (get_pipe w' 0) = p_writers_open (get_pipe w 0) + fd_ends FD_PIPE_WRITE 0 (b_fds b).
Proof.
  intros w w'. destruct (sotbox_get_slot w 0) as [b|] eqn:Hb.
  - exists b. split; [done|]. split.
    + assert (H : option_map (fun b => fd_ends FD_PIPE_WRITE 0 (b_fds b)) (sotbox_get_slot w 0) = Some 1) by (by vm_compute).
      rewrite Hb in H. cbn [option_map] in H. congruence.
    + apply (failed_fork_leaks demo_env w 0 b ForkNoArena 0 demo_pipe_reach Hb). by left.
  - exfalso. assert (H : running_b w 0 = true) by (by vm_compute). unfold running_b in H. by rewrite Hb in H.
Defined.

(** ** Copies to and from a client *)

(** A copy of a buffer into mapped memory of a client succeeds, changes no other
    byte of it and keeps its mappings, and copying the same range back returns
    the buffer, whatever page boundaries it crosses. *)
Theorem client_copy_roundtrip v a src :
  in_range a (Z.of_nat (length src)) -> accessible v a (Z.of_nat (length src)) ->
  let r := lucas_copy_to_client v a src in
  r.2 = true /\ lucas_copy_from_client r.1 a (Z.of_nat (length src)) = Some src /\
  vs_frame r.1 = vs_frame v /\ vs_dup r.1 = vs_dup v /\
  (forall o, o < a \/ a + Z.of_nat (length src) <= o -> vs_mem r.1 o = vs_mem v o).
Proof.
  intros Hr Ha r. destruct (copy_to_ok v a src Hr Ha) as [H1 _]. destruct (copy_to_frame v a src Hr) as (H2 & H3 & H4).
  split_and!; [done|by apply copy_out_in|done|done|]. intros o Ho. apply H4. lia.
Qed.

Lemma client_copy_roundtrip_witness :
  lucas_copy_from_client (lucas_copy_to_client (b_vspace demo_box) 8190 [1; 2; 3; 4]).1 8190 4 = Some [1; 2; 3; 4].
Proof. apply (client_copy_roundtrip (b_vspace demo_box) 8190 [1; 2; 3; 4]); [unfold in_range; cbn; lia|by intros i Hi]. Defined.

(** ** An epoll descriptor that is replaced *)

(** Descriptor 0 is an epoll instance, is replaced by dup2 and closed, and epoll_create
    returns it again: the instance found for it is the old one, since neither dup2
    nor close frees an instance. *)
Example stale_instance_found :
  let w := calls demo_env [(0%nat, OpEpollCreate); (0%nat, OpPipe 4096); (0%nat, OpDup2 1 0); (0%nat, OpClose 0); (0%nat, OpEpollCreate)] demo_world in
  let b := box_at w 0 in
  epoll_slot_for_fd b 0 = Some 0%nat /\ ep_in_use (get_ep b 1) = true /\ ep_epfd (get_ep b 1) = 0.
Proof. by vm_compute. Qed.

(** A pipe() with a full descriptor table keeps the pipe it allocated: nobody can
    refer to it and it stays in use. *)
Definition full_box : box := set_b_fds (replicate LUCAS_MAX_FDS (set_f_kind FD_STDIO zero_fd)) demo_box.

Example full_table_leaks_pipe :
  let r := lucas_sys_pipe 0 4096 (set_slot 0 full_box init_world) in
  r.2 = -24 /\ p_in_use (get_pipe r.1 0) = true /\ ends FD_PIPE_READ 0 r.1 = 0 /\ ends FD_PIPE_WRITE 0 r.1 = 0.
Proof. by vm_compute. Qed.

(** ** writev parks and answers *)

(** Two segments, 4096 bytes and one byte, at 12288 in the memory of the client. *)
Definition iov_mem (a : Z) : Z :=
  match a with 12289 => 16 | 12297 => 16 | 12305 => 64 | 12312 => 1 | _ => 0 end.

Definition iov_box : box := set_b_vspace (mk_vspace iov_mem (fun _ => true) (fun _ => true)) zero_box.

(** A writev on an empty pipe whose first segment fills it: the second parks the
    caller, yet the call answers 4096 at once; when the pipe is read the parked
    transfer answers it a second time. *)
Example writev_parks_and_answers :
  let w := (lucas_sys_pipe 0 8192 (set_slot 0 iov_box init_world)).1 in
  match sys_writev_pipe demo_env 0 1 12288 2 (fun _ => Some 77) w with
  | Some (w', n) => n = 4096 /\ parked_b w' 2 0 0 = true
  | None => False
  end.
Proof. by vm_compute. Qed.
