(* ===== verification/WaitTable.v ===== *)
(** * Exits and wait4

    src/orch/sotbox_table.c keeps the exits nobody has waited for in a table of 32
    zombies and wakes the client parked in wait4; src/lucas/handlers_proc.c has the
    calls (wait4, the end of exit_group, the terminating case of kill), and the loop
    of src/orch/fault_loop.c records the exit and frees the slot.  A client is its
    index in the slot table; its pid is the index plus one, so pids are reused.

    What the client gets when it is woken is the event [EvWake]; whether a copy of
    the status into its memory succeeds is an argument. *)

From S2P Require Import Prelude.

Definition MAX_ZOMBIES : nat := 32.
Definition MAX_SLOTS : nat := 8.

(** ** The zombie table *)

Record zombie := mk_zombie {
  z_pid : Z;
  z_exit_code : Z;
  z_parent_pid : Z;  (** 0 when unknown *)
  z_waiting : bool;
  z_seq : Z
}.

Definition zero_zombie : zombie := mk_zombie 0 0 0 false 0.

Record ztable := mk_ztable { g_zombies : list zombie; g_zombie_seq : Z; g_zombies_evicted : Z }.

Definition empty_ztable : ztable := mk_ztable (replicate MAX_ZOMBIES zero_zombie) 0 0.

Definition z_at (t : ztable) (i : nat) : zombie := (g_zombies t).[i, zero_zombie].

Definition z_put (i : nat) (pid code parent : Z) (t : ztable) : ztable :=
  let s := u64 (g_zombie_seq t + 1) in
  mk_ztable (<[i := mk_zombie pid code parent true s]> (g_zombies t)) s (g_zombies_evicted t).

(** The entry with the smallest sequence number, the first of them. *)
Definition z_oldest (t : ztable) : nat :=
  fold_left (fun o i => if z_seq (z_at t i) <? z_seq (z_at t o) then i else o) (seq 1 (MAX_ZOMBIES - 1)) 0%nat.

Definition sotbox_record_exit_p (pid code parent : Z) (t : ztable) : ztable :=
  match first_below (fun i => negb (z_waiting (z_at t i))) MAX_ZOMBIES with
  | Some i => z_put i pid code parent t
  | None => z_put (z_oldest t) pid code parent (mk_ztable (g_zombies t) (g_zombie_seq t) (u64 (g_zombies_evicted t + 1)))
  end.

Definition sotbox_record_exit (pid code : Z) (t : ztable) : ztable := sotbox_record_exit_p pid code 0 t.

Definition z_drop (z : zombie) : zombie := mk_zombie (z_pid z) (z_exit_code z) (z_parent_pid z) false (z_seq z).

Definition sotbox_clear_zombie (pid : Z) (t : ztable) : ztable :=
  mk_ztable (map (fun z => if z_waiting z && (z_pid z =? pid) then z_drop z else z) (g_zombies t))
    (g_zombie_seq t) (g_zombies_evicted t).

(** A zombie the caller may have: its own child, or one of unknown parent. *)
Definition reapable (pid_want caller_pid : Z) (z : zombie) : bool :=
  z_waiting z && ((pid_want =? -1) || (z_pid z =? pid_want))
  && ((caller_pid =? 0) || (z_parent_pid z =? 0) || (z_parent_pid z =? caller_pid)).

(** The pid and the exit code, [None] for -1. *)
Definition sotbox_reap_p (pid_want caller_pid : Z) (t : ztable) : option (Z * Z) * ztable :=
  match first_below (fun i => reapable pid_want caller_pid (z_at t i)) MAX_ZOMBIES with
  | None => (None, t)
  | Some i =>
      (Some (z_pid (z_at t i), z_exit_code (z_at t i)),
       mk_ztable (<[i := z_drop (z_at t i)]> (g_zombies t)) (g_zombie_seq t) (g_zombies_evicted t))
  end.

Definition sotbox_reap (pid_want : Z) (t : ztable) : option (Z * Z) * ztable := sotbox_reap_p pid_want 0 t.

(** The first [max] entries as [sotbox_dump_zombies] lists them. *)
Definition sotbox_dump_zombies (max : nat) (t : ztable) : list (Z * Z) :=
  take max (map (fun z => (z_pid z, z_exit_code z)) (filter (fun z => z_waiting z = true) (g_zombies t))).

(** ** The clients *)

Inductive wait_state := PROC_RUNNING | PROC_WAITING_FOR_CHILD.

#[export] Instance wait_state_eq_dec : EqDecision wait_state.
Proof. solve_decision. Defined.

Record proc := mk_proc {
  synthetic_pid : Z;
  parent_slot : Z;         (** -1 for a client that was spawned *)
  p_state : wait_state;
  waiting_reply_cap : Z;
  waiting_for_pid : Z;
  waiting_status_vaddr : Z;
  fork_attempts : Z;
  client_tcb : bool;       (** there is a thread *)
  p_exited : bool;
  p_exit_code : Z;
  marked_for_teardown : bool
}.

Inductive wait_event := EvWake (slot : nat) (cap pid wstatus : Z).

Record procs := mk_procs { p_zombies : ztable; p_slots : list (option proc); p_log : list wait_event }.

Definition set_zombies (t : ztable) (w : procs) : procs := mk_procs t (p_slots w) (p_log w).
Definition set_proc (i : nat) (o : option proc) (w : procs) : procs := mk_procs (p_zombies w) (<[i := o]> (p_slots w)) (p_log w).
Definition get_proc (w : procs) (i : nat) : option proc := (p_slots w).[i, None].

Definition with_exit (exited : bool) (code : Z) (mark : bool) (p : proc) : proc :=
  mk_proc (synthetic_pid p) (parent_slot p) (p_state p) (waiting_reply_cap p) (waiting_for_pid p) (waiting_status_vaddr p)
    (fork_attempts p) (client_tcb p) exited code mark.

Definition with_wait (st : wait_state) (cap pid vaddr forks : Z) (p : proc) : proc :=
  mk_proc (synthetic_pid p) (parent_slot p) st cap pid vaddr forks (client_tcb p) (p_exited p) (p_exit_code p) (marked_for_teardown p).

(** [if (fork_attempts > 0) fork_attempts--], an unsigned counter. *)
Definition one_fork_less (n : Z) : Z := if n >? 0 then n - 1 else n.

Definition parent_pid_of (p : proc) : Z := if parent_slot p >=? 0 then parent_slot p + 1 else 0.

Definition wstatus_of (code : Z) : Z := Z.shiftl (Z.land code 0xff) 8.

Definition sotbox_pid_has_real_tcb (pid : Z) (w : procs) : bool :=
  if pid <=? 0 then false
  else existsb (fun o => match o with Some p => (synthetic_pid p =? pid) && client_tcb p | None => false end) (p_slots w).

Definition sotbox_has_children (caller_slot : nat) (w : procs) : bool :=
  existsb z_waiting (g_zombies (p_zombies w))
  || existsb (fun i => negb (i =? caller_slot)%nat && bool_decide (is_Some (get_proc w i))) (seq 0 MAX_SLOTS).

(** ** Waking *)

(** The two passes: a client that waits for this pid, then one that waits for any
    child and is the parent. *)
Definition waits_exactly (pid : Z) (o : option proc) : bool :=
  match o with
  | Some p => bool_decide (p_state p = PROC_WAITING_FOR_CHILD) && (waiting_for_pid p =? pid)
  | None => false
  end.

Definition waits_any (parent_pid : Z) (o : option proc) : bool :=
  match o with
  | Some p => bool_decide (p_state p = PROC_WAITING_FOR_CHILD) && (waiting_for_pid p =? -1)
              && ((parent_pid =? 0) || (synthetic_pid p =? parent_pid))
  | None => false
  end.

Definition find_waiter (pid parent_pid : Z) (w : procs) : option nat :=
  match first_below (fun i => waits_exactly pid (get_proc w i)) MAX_SLOTS with
  | Some i => Some i
  | None => first_below (fun i => waits_any parent_pid (get_proc w i)) MAX_SLOTS
  end.

Definition sotbox_try_wakeup_waiter_p (pid code parent_pid : Z) (w : procs) : procs * Z :=
  match find_waiter pid parent_pid w with
  | None => (w, 0)
  | Some i =>
      match get_proc w i with
      | None => (w, 0)
      | Some p =>
          let w := set_proc i (Some (with_wait PROC_RUNNING 0 (waiting_for_pid p) (waiting_status_vaddr p)
                                       (one_fork_less (fork_attempts p)) p)) w in
          (mk_procs (p_zombies w) (p_slots w) (p_log w ++ [EvWake i (waiting_reply_cap p) pid (wstatus_of code)]), 1)
      end
  end.

(** ** wait4 *)

Definition WAIT_DEFERRED : Z := - 2 ^ 63.

(** The pid is the signed value of the argument.  [synth] tells whether the process table shows the pid as a synthetic child,
    [copied] whether the status could be stored, [cap] the reply slot. *)
Definition lucas_sys_wait4 (s : nat) (pid status_vaddr options : Z) (synth copied : bool) (cap : option Z)
  (w : procs) : procs * Z :=
  match get_proc w s with
  | None => (w, 0)
  | Some p =>
      if (pid >? 0) && synth && negb (sotbox_pid_has_real_tcb (i32 pid) w) then (w, 0)
      else
        match sotbox_reap_p (i32 pid) (synthetic_pid p) (p_zombies w) with
        | (Some (reaped, code), t) =>
            let w := set_zombies t w in
            let w := set_proc s (Some (with_wait (p_state p) (waiting_reply_cap p) (waiting_for_pid p) (waiting_status_vaddr p)
                                         (one_fork_less (fork_attempts p)) p)) w in
            if negb (status_vaddr =? 0) && negb copied then (w, -14) else (w, reaped)
        | (None, _) =>
            if negb (sotbox_has_children s w) then (w, -10)
            else if Z.testbit options 0 then (w, 0)
            else
              match cap with
              | None => (w, -11)
              | Some c =>
                  (set_proc s (Some (with_wait PROC_WAITING_FOR_CHILD c (i32 pid) status_vaddr (fork_attempts p) p)) w,
                   WAIT_DEFERRED)
              end
        end
  end.

(** ** Birth and death *)

(** The child of a fork: the process side of src/orch/fork.c when storage and arena
    are to be had. *)
Definition fork_proc (s : nat) (w : procs) : procs * Z :=
  match first_below (fun i => bool_decide (get_proc w i = None)) MAX_SLOTS with
  | None => (w, -11)
  | Some slot =>
      let pid := Z.of_nat slot + 1 in
      let child := mk_proc pid (Z.of_nat s) PROC_RUNNING 0 0 0 0 true false 0 false in
      (set_proc slot (Some child) (set_zombies (sotbox_clear_zombie pid (p_zombies w)) w), pid)
  end.

(** The end of exit_group: the code is kept and a waiting parent is woken (a parent
    parked by vfork is not part of this state). *)
Definition exit_group (s : nat) (code : Z) (w : procs) : procs :=
  match get_proc w s with
  | None => w
  | Some p =>
      let p := with_exit true (i32 code) (marked_for_teardown p) p in
      (sotbox_try_wakeup_waiter_p (synthetic_pid p) (i32 code) (parent_pid_of p) (set_proc s (Some p) w)).1
  end.

(** The loop of the orchestrator after a call that ended the client. *)
Definition reap_exited (s : nat) (w : procs) : procs :=
  match get_proc w s with
  | None => w
  | Some p =>
      let ppid := parent_pid_of p in
      let w := set_zombies (sotbox_record_exit_p (synthetic_pid p) (p_exit_code p) ppid (p_zombies w)) w in
      let w := if p_exited p then w else (sotbox_try_wakeup_waiter_p (synthetic_pid p) (p_exit_code p) ppid w).1 in
      set_proc s None w
  end.

(** SIGINT, SIGKILL and SIGTERM at another client, past the synthetic answers. *)
Definition kill_terminate (pid signo : Z) (w : procs) : procs * Z :=
  if (pid =? 0) || (pid >? 8) then (w, -3)
  else
    let s := Z.to_nat (pid - 1) in
    match get_proc w s with
    | None => (w, -3)
    | Some p =>
        if p_exited p then (w, 0)
        else
          let code := 128 + i32 signo in
          let w := set_proc s (Some (with_exit true code true p)) w in
          let w := set_zombies (sotbox_record_exit_p (synthetic_pid p) code (parent_pid_of p) (p_zombies w)) w in
          ((sotbox_try_wakeup_waiter_p (synthetic_pid p) code (parent_pid_of p) w).1, 0)
    end.

(** Clients marked for teardown lose their slots. *)
Definition sweep (w : procs) : procs :=
  mk_procs (p_zombies w)
    (map (fun o => match o with Some p => if marked_for_teardown p then None else Some p | None => None end) (p_slots w)) (p_log w).
