(* ===== verification/WaitTheorems.v ===== *)
(** * The zombie table as a bounded queue, and what wait4 makes of it

    [pending] is the list of exits nobody has waited for, oldest first.  The table
    of 32 entries refines it: a new exit goes to the end, the oldest is given up
    when there are 33, and a reap takes some exit that its arguments allow.  Then
    two runs in which an exit is reported to the wrong client or twice. *)

From Stdlib Require Import Sorted.
From S2P Require Import Prelude WaitTable.

(** ** The specification *)

Record xit := mk_xit { x_pid : Z; x_code : Z; x_parent : Z }.

Definition pending := list xit.

Inductive zop :=
  | ZRecord (pid code parent : Z)
  | ZClear (pid : Z)
  | ZReap (pid_want caller_pid : Z).

(** An exit the caller may have: its own child, or one of unknown parent. *)
Definition allowed (want caller : Z) (e : xit) : Prop :=
  (want = -1 \/ x_pid e = want) /\ (caller = 0 \/ x_parent e = 0 \/ x_parent e = caller).

Inductive zspec : zop -> pending -> option (Z * Z) -> pending -> Prop :=
  | zs_record pid code parent l :
      zspec (ZRecord pid code parent) l None
        ((if (length l <? MAX_ZOMBIES)%nat then l else tail l) ++ [mk_xit pid code parent])
  | zs_clear pid l : zspec (ZClear pid) l None (filter (fun e => x_pid e <> pid) l)
  | zs_reap want caller l1 e l2 :
      allowed want caller e -> zspec (ZReap want caller) (l1 ++ e :: l2) (Some (x_pid e, x_code e)) (l1 ++ l2)
  | zs_none want caller l : Forall (fun e => ~ allowed want caller e) l -> zspec (ZReap want caller) l None l.

Inductive zspec_run : list zop -> pending -> list (option (Z * Z)) -> pending -> Prop :=
  | zr_nil l : zspec_run [] l [] l
  | zr_cons o os l r l' rs l'' : zspec o l r l' -> zspec_run os l' rs l'' -> zspec_run (o :: os) l (r :: rs) l''.

(** ** The table *)

Definition zexec (o : zop) (t : ztable) : option (Z * Z) * ztable :=
  match o with
  | ZRecord pid code parent => (None, sotbox_record_exit_p pid code parent t)
  | ZClear pid => (None, sotbox_clear_zombie pid t)
  | ZReap want caller => sotbox_reap_p want caller t
  end.

Fixpoint zrun (os : list zop) (t : ztable) : list (option (Z * Z)) * ztable :=
  match os with
  | [] => ([], t)
  | o :: os => let r := zexec o t in let rs := zrun os r.2 in (r.1 :: rs.1, rs.2)
  end.

(** ** The relation *)

Definition younger (a b : zombie) : Prop := z_seq a < z_seq b.
Definition xit_of (z : zombie) : xit := mk_xit (z_pid z) (z_exit_code z) (z_parent_pid z).
Definition waiting (z : zombie) : Prop := z_waiting z = true.

#[export] Instance waiting_dec z : Decision (waiting z).
Proof. unfold waiting. apply _. Defined.

Definition holds_pending (t : ztable) (l : pending) : Prop :=
  length (g_zombies t) = MAX_ZOMBIES /\ 0 <= g_zombie_seq t /\
  exists zs, filter waiting (g_zombies t) ≡ₚ zs /\ StronglySorted younger zs /\
    Forall (fun z => z_seq z <= g_zombie_seq t) zs /\ l = map xit_of zs.

(** Sorted lists. *)
Lemma sorted_snoc zs z : StronglySorted younger zs -> Forall (fun x => z_seq x < z_seq z) zs -> StronglySorted younger (zs ++ [z]).
Proof.
  induction 1 as [|x zs Hs IH Hx]; intros Hf; cbn; [repeat constructor|]. apply Forall_cons in Hf as [Hxz Hf].
  constructor; [by apply IH|]. apply Forall_app. split; [done|]. by repeat constructor.
Qed.

Lemma sorted_filter (P : zombie -> Prop) `{!forall z, Decision (P z)} zs : StronglySorted younger zs -> StronglySorted younger (filter P zs).
Proof.
  induction 1 as [|x zs Hs IH Hx]; [apply SSorted_nil|]. rewrite filter_cons. case_decide; [|done]. constructor; [done|].
  apply Forall_forall. intros y [_ Hy]%list_elem_of_filter. rewrite Forall_forall in Hx. auto.
Qed.

Lemma sorted_middle a x b : StronglySorted younger (a ++ x :: b) -> StronglySorted younger (a ++ b).
Proof.
  induction a as [|y a IH]; cbn; intros H; apply StronglySorted_inv in H as [Hs Hf]; [done|].
  constructor; [by apply IH|]. apply Forall_app in Hf as [Hfa Hfb]. apply Forall_cons in Hfb as [_ Hfb]. by apply Forall_app.
Qed.

Lemma sorted_seq_inj zs x y : StronglySorted younger zs -> x ∈ zs -> y ∈ zs -> z_seq x = z_seq y -> x = y.
Proof.
  induction 1 as [|z zs Hs IH Hz]; [by intros ?%elem_of_nil|]. rewrite Forall_forall in Hz.
  intros [->|Hx]%elem_of_cons [->|Hy]%elem_of_cons He; [done| | |by apply IH].
  - specialize (Hz y Hy). unfold younger in Hz. lia.
  - specialize (Hz x Hx). unfold younger in Hz. lia.
Qed.

(** Arrays up to order. *)
Lemma delete_insert_list {A} (l : list A) i y : delete i (<[i := y]> l) = delete i l.
Proof. revert i. induction l as [|x l IH]; intros [|i]; cbn; try done. by f_equal. Qed.

Lemma insert_perm {A} (l : list A) i x y : l !! i = Some x -> l ≡ₚ x :: delete i l /\ <[i := y]> l ≡ₚ y :: delete i l.
Proof.
  intros Hx. split; [by apply delete_Permutation|]. rewrite <- (delete_insert_list l i y).
  apply delete_Permutation. apply list_lookup_insert_eq. by apply lookup_lt_Some in Hx.
Qed.

Lemma filter_perm_cons l i x : l !! i = Some x ->
  filter waiting l ≡ₚ (if decide (waiting x) then [x] else []) ++ filter waiting (delete i l).
Proof.
  intros Hx. destruct (insert_perm l i x x Hx) as [Hp _].
  transitivity (filter waiting (x :: delete i l)); [by apply filter_Permutation|]. rewrite filter_cons. by case_decide.
Qed.

Lemma filter_perm_insert l i x y : l !! i = Some x ->
  filter waiting (<[i := y]> l) ≡ₚ (if decide (waiting y) then [y] else []) ++ filter waiting (delete i l).
Proof.
  intros Hx. destruct (insert_perm l i x y Hx) as [_ Hp].
  transitivity (filter waiting (y :: delete i l)); [by apply filter_Permutation|]. rewrite filter_cons. by case_decide.
Qed.

Lemma z_at_lookup t i : length (g_zombies t) = MAX_ZOMBIES -> (i < MAX_ZOMBIES)%nat -> g_zombies t !! i = Some (z_at t i).
Proof. intros Hl Hi. apply array_lookup_lt. by rewrite Hl. Qed.

Lemma filter_all (P : zombie -> Prop) `{!forall z, Decision (P z)} l : Forall P l -> filter P l = l.
Proof. induction 1 as [|x l Hx _ IH]; [done|]. rewrite filter_cons_True by done. by rewrite IH. Qed.

(** The oldest entry has the smallest number. *)
Lemma oldest_scan t l : forall o,
  let r := fold_left (fun o i => if z_seq (z_at t i) <? z_seq (z_at t o) then i else o) l o in
  r ∈ o :: l /\ forall j, j ∈ o :: l -> z_seq (z_at t r) <= z_seq (z_at t j).
Proof.
  induction l as [|i l IH]; intros o; cbn [fold_left]; [split; [set_solver|]; intros j [->|H]%elem_of_cons; [lia|by apply elem_of_nil in H]|].
  destruct (Z.ltb_spec (z_seq (z_at t i)) (z_seq (z_at t o))).
  - destruct (IH i) as [H1 H2]. split; [set_solver|]. intros j [->|Hj]%elem_of_cons; [|by apply H2].
    pose proof (H2 i ltac:(set_solver)). lia.
  - destruct (IH o) as [H1 H2]. split; [set_solver|]. intros j Hj. apply elem_of_cons in Hj as [->|[->|Hj]%elem_of_cons].
    + apply H2. set_solver.
    + pose proof (H2 o ltac:(set_solver)). lia.
    + apply H2. set_solver.
Qed.

Lemma oldest_spec t : (z_oldest t < MAX_ZOMBIES)%nat /\ forall j, (j < MAX_ZOMBIES)%nat -> z_seq (z_at t (z_oldest t)) <= z_seq (z_at t j).
Proof.
  destruct (oldest_scan t (seq 1 (MAX_ZOMBIES - 1)) 0) as [H1 H2]. unfold z_oldest.
  assert (Hin : forall j, j ∈ 0%nat :: seq 1 (MAX_ZOMBIES - 1) <-> (j < MAX_ZOMBIES)%nat).
  { intros j. rewrite elem_of_cons, list_elem_of_In, in_seq. unfold MAX_ZOMBIES. lia. }
  split; [by apply Hin|]. intros j Hj. by apply H2, Hin.
Qed.

Lemma head_is_oldest zs h x : StronglySorted younger (h :: zs) -> x ∈ h :: zs -> z_seq x <= z_seq h -> x = h.
Proof.
  intros Hs Hx Hle. apply StronglySorted_inv in Hs as [_ Hf]. apply elem_of_cons in Hx as [->|Hx]; [done|].
  rewrite Forall_forall in Hf. specialize (Hf x Hx). unfold younger in Hf. lia.
Qed.

(** ** The three operations *)

Lemma sim_record pid code parent t l : holds_pending t l -> g_zombie_seq t + 1 < 2 ^ 64 ->
  holds_pending (sotbox_record_exit_p pid code parent t)
    ((if (length l <? MAX_ZOMBIES)%nat then l else tail l) ++ [mk_xit pid code parent]).
Proof.
  intros (Hl & H0 & zs & Hp & Hs & Hb & ->) Hseq. rewrite length_map. rewrite <- (Permutation_length Hp).
  unfold sotbox_record_exit_p. set (z := mk_zombie pid code parent true (u64 (g_zombie_seq t + 1))).
  assert (Hu : u64 (g_zombie_seq t + 1) = g_zombie_seq t + 1) by (unfold u64; apply Z.mod_small; lia).
  assert (Hsnoc : forall ys, StronglySorted younger ys -> Forall (fun x => z_seq x <= g_zombie_seq t) ys ->
    StronglySorted younger (ys ++ [z]) /\ Forall (fun x => z_seq x <= u64 (g_zombie_seq t + 1)) (ys ++ [z])).
  { intros ys Hys Hle. assert (Hz : z_seq z = g_zombie_seq t + 1) by exact Hu. rewrite Hu. split.
    - apply sorted_snoc; [done|]. eapply Forall_impl; [exact Hle|]. intros x Hx. cbv beta in *. lia.
    - apply Forall_app. split; [eapply Forall_impl; [exact Hle|]; intros x Hx; cbv beta in *; lia|]. apply Forall_singleton. lia. }
  destruct (first_below _ _) as [i|] eqn:Hi.
  - apply first_below_Some in Hi as (Hlt & Hfree%negb_true_iff & _). pose proof (z_at_lookup t i Hl Hlt) as Hat.
    pose proof (filter_perm_cons _ _ _ Hat) as Hc. rewrite decide_False in Hc by (unfold waiting; congruence). cbn in Hc.
    assert (Hlen : (length (filter waiting (g_zombies t)) < MAX_ZOMBIES)%nat).
    { rewrite (Permutation_length Hc). pose proof (length_filter waiting (delete i (g_zombies t))) as H.
      rewrite length_delete in H by (by exists (z_at t i)). unfold MAX_ZOMBIES in *. lia. }
    rewrite (proj2 (Nat.ltb_lt _ _)) by done. unfold z_put. cbn zeta. split; [cbn [g_zombies]; by rewrite length_insert|]. split; [cbn [g_zombie_seq]; lia|].
    cbn [g_zombies g_zombie_seq]. fold z. exists (zs ++ [z]). destruct (Hsnoc zs Hs Hb) as [K1 K2].
    split; [|split; [done|split; [done|by rewrite map_app]]].
    rewrite (filter_perm_insert _ _ _ z Hat), decide_True by done. rewrite <- Hc, Hp. apply Permutation_cons_append.
  - assert (Hall : filter waiting (g_zombies t) = g_zombies t).
    { apply filter_all. apply Forall_forall. intros x Hx. apply list_elem_of_lookup in Hx as [i Hix].
      pose proof (lookup_lt_Some _ _ _ Hix) as Hlt. rewrite Hl in Hlt. pose proof (first_below_None _ _ i Hi Hlt) as Hn.
      apply negb_false_iff in Hn. unfold z_at in Hn. by rewrite (array_get _ _ _ _ Hix) in Hn. }
    rewrite Hall, Hl. rewrite (proj2 (Nat.ltb_ge _ _)) by done. rewrite Hall in Hp.
    destruct zs as [|h zs]; [apply Permutation_length in Hp; rewrite Hl in Hp; done|].
    destruct (oldest_spec t) as [Hlt Hmin]. pose proof (z_at_lookup t _ Hl Hlt) as Hat.
    assert (Hh : z_at t (z_oldest t) = h).
    { apply (head_is_oldest zs); [done| |].
      - rewrite <- Hp. apply list_elem_of_lookup. by eexists.
      - assert (Hin : h ∈ g_zombies t) by (rewrite Hp; apply elem_of_cons; by left). apply list_elem_of_lookup in Hin as [j Hj].
        pose proof (lookup_lt_Some _ _ _ Hj) as Hjl. rewrite Hl in Hjl. specialize (Hmin j Hjl). unfold z_at in Hmin at 2.
        by rewrite (array_get _ _ _ _ Hj) in Hmin. }
    rewrite Hh in Hat. destruct (insert_perm _ _ _ z Hat) as [P1 P2]. unfold z_put. cbn zeta. split; [cbn [g_zombies]; by rewrite length_insert|]. split; [cbn [g_zombie_seq]; lia|].
    cbn [g_zombies g_zombie_seq]. fold z. apply StronglySorted_inv in Hs as [Hs _]. apply Forall_cons in Hb as [_ Hb].
    destruct (Hsnoc zs Hs Hb) as [K1 K2]. exists (zs ++ [z]). split; [|split; [done|split; [done|cbn; by rewrite map_app]]].
    assert (Hrest : zs ≡ₚ delete (z_oldest t) (g_zombies t)) by (apply (Permutation_cons_inv (a := h)); by rewrite <- Hp).
    rewrite (filter_perm_insert _ _ _ z Hat), decide_True by done. cbn [app]. rewrite filter_all.
    + rewrite <- Hrest. apply Permutation_cons_append.
    + apply Forall_forall. intros x Hx. assert (Hxg : x ∈ g_zombies t) by (rewrite P1; apply elem_of_cons; by right).
      rewrite <- Hall in Hxg. by apply list_elem_of_filter in Hxg as [? _].
Qed.

Lemma reapable_spec want caller z : reapable want caller z = true <-> waiting z /\ allowed want caller (xit_of z).
Proof.
  unfold reapable, waiting, allowed, xit_of. cbn. rewrite !andb_true_iff, !orb_true_iff, !Z.eqb_eq. tauto.
Qed.

Lemma sim_reap want caller t l : holds_pending t l ->
  exists l', zspec (ZReap want caller) l (sotbox_reap_p want caller t).1 l' /\ holds_pending (sotbox_reap_p want caller t).2 l'.
Proof.
  intros Hh. pose proof Hh as (Hl & H0 & zs & Hp & Hs & Hb & ->). unfold sotbox_reap_p. destruct (first_below _ _) as [i|] eqn:Hi.
  - apply first_below_Some in Hi as (Hlt & [Hw Ha]%reapable_spec & _). pose proof (z_at_lookup t i Hl Hlt) as Hat. set (z := z_at t i) in *.
    pose proof (filter_perm_cons _ _ _ Hat) as Hc. rewrite decide_True in Hc by done. cbn in Hc. rewrite Hp in Hc.
    assert (Hin : z ∈ zs) by (rewrite Hc; apply elem_of_cons; by left). apply list_elem_of_split in Hin as (a & b & ->).
    exists (map xit_of (a ++ b)). split; [rewrite map_app; cbn; rewrite map_app; by apply (zs_reap want caller _ (xit_of z))|].
    cbn [snd]. split; [cbn [g_zombies]; by rewrite length_insert|]. split; [done|]. cbn [g_zombies g_zombie_seq]. exists (a ++ b).
    apply Forall_app in Hb as [Hba [_ Hbb]%Forall_cons].
    split; [|split; [by eapply sorted_middle|split; [by apply Forall_app|done]]].
    rewrite (filter_perm_insert _ _ _ (z_drop z) Hat), decide_False by done. cbn [app].
    apply (Permutation_cons_inv (a := z)). rewrite <- Hc. symmetry. apply Permutation_middle.
  - exists (map xit_of zs). split; [|exact Hh]. apply zs_none. apply Forall_forall. intros e He.
    apply list_elem_of_In, in_map_iff in He as (z & <- & Hz%list_elem_of_In). intros Ha.
    rewrite <- Hp in Hz. apply list_elem_of_filter in Hz as [Hw Hz]. apply list_elem_of_lookup in Hz as [i Hiz].
    pose proof (lookup_lt_Some _ _ _ Hiz) as Hlt. rewrite Hl in Hlt. pose proof (first_below_None _ _ i Hi Hlt) as Hn. cbv beta in Hn.
    unfold z_at in Hn. rewrite (array_get _ _ _ _ Hiz) in Hn. by rewrite (proj2 (reapable_spec want caller z)) in Hn.
Qed.

Lemma clear_filter pid l :
  filter waiting (map (fun z => if z_waiting z && (z_pid z =? pid) then z_drop z else z) l) =
  filter (fun z => z_pid z <> pid) (filter waiting l).
Proof.
  induction l as [|z l IH]; [done|]. cbn [map]. destruct (decide (waiting z)) as [Hw|Hw].
  - rewrite (filter_cons_True waiting z) by done. assert (Hb : z_waiting z = true) by exact Hw. rewrite Hb. cbn [andb].
    destruct (Z.eqb_spec (z_pid z) pid).
    + rewrite filter_cons_False by done. rewrite filter_cons_False by tauto. exact IH.
    + rewrite filter_cons_True by done. rewrite filter_cons_True by done. by rewrite IH.
  - rewrite (filter_cons_False waiting z) by done. assert (Hb : z_waiting z = false) by (by apply not_true_iff_false). rewrite Hb.
    cbn [andb]. rewrite filter_cons_False by done. exact IH.
Qed.

Lemma filter_xits pid zs :
  filter (fun e => x_pid e <> pid) (map xit_of zs) = map xit_of (filter (fun z => z_pid z <> pid) zs).
Proof.
  induction zs as [|z zs IH]; [done|]. cbn [map]. destruct (decide (z_pid z = pid)) as [He|He].
  - rewrite filter_cons_False by (cbn; tauto). rewrite filter_cons_False by tauto. exact IH.
  - rewrite filter_cons_True by done. rewrite filter_cons_True by done. cbn [map]. by rewrite IH.
Qed.

Lemma sim_clear pid t l : holds_pending t l -> holds_pending (sotbox_clear_zombie pid t) (filter (fun e => x_pid e <> pid) l).
Proof.
  intros (Hl & H0 & zs & Hp & Hs & Hb & ->). split; [cbn; by rewrite length_map|]. split; [done|]. cbn [sotbox_clear_zombie g_zombies g_zombie_seq].
  exists (filter (fun z => z_pid z <> pid) zs). split; [rewrite clear_filter; by apply filter_Permutation|]. split; [by apply sorted_filter|].
  split; [apply Forall_forall; intros z [_ Hz]%list_elem_of_filter; rewrite Forall_forall in Hb; by apply Hb|].
  apply filter_xits.
Qed.

Lemma record_seq pid code parent t : g_zombie_seq (sotbox_record_exit_p pid code parent t) = u64 (g_zombie_seq t + 1).
Proof. unfold sotbox_record_exit_p. by destruct (first_below _ _). Qed.

Lemma zexec_seq o t : 0 <= g_zombie_seq t -> g_zombie_seq t + 1 < 2 ^ 64 -> 0 <= g_zombie_seq (zexec o t).2 <= g_zombie_seq t + 1.
Proof.
  intros H0 H1. destruct o; cbn [zexec snd].
  - rewrite record_seq. unfold u64. rewrite Z.mod_small by lia. lia.
  - cbn. lia.
  - unfold sotbox_reap_p. destruct (first_below _ _); cbn; lia.
Qed.

Lemma sim_exec o t l : holds_pending t l -> g_zombie_seq t + 1 < 2 ^ 64 ->
  exists l', zspec o l (zexec o t).1 l' /\ holds_pending (zexec o t).2 l'.
Proof.
  intros Hh Hs. destruct o; cbn [zexec fst snd].
  - eexists. split; [constructor|by apply sim_record].
  - eexists. split; [constructor|by apply sim_clear].
  - by apply sim_reap.
Qed.

Lemma sim_run os : forall t l, holds_pending t l -> g_zombie_seq t + Z.of_nat (length os) < 2 ^ 64 ->
  exists l', zspec_run os l (zrun os t).1 l' /\ holds_pending (zrun os t).2 l'.
Proof.
  induction os as [|o os IH]; intros t l Hh Hs; cbn [zrun fst snd]; [eexists; split; [constructor|done]|]. cbn [length] in Hs.
  destruct (sim_exec o t l Hh ltac:(lia)) as (l1 & Hsp & H1). pose proof Hh as (_ & H0 & _).
  pose proof (zexec_seq o t H0 ltac:(lia)) as Hq. destruct (IH (zexec o t).2 l1 H1 ltac:(lia)) as (l2 & Hr & H2).
  exists l2. split; [by econstructor|done].
Qed.

Lemma empty_holds : holds_pending empty_ztable [].
Proof.
  split; [done|]. split; [done|]. exists []. split; [|split; [constructor|split; [constructor|done]]].
  replace (filter waiting (g_zombies empty_ztable)) with (@nil zombie); [done|by vm_compute].
Qed.

(** C21: the table of 32 zombies is a bounded queue of exits: through any sequence of
    exits, births and waits it answers each wait with an exit that is pending, that
    matches the pid asked for and whose parent is the caller or unknown, and takes
    exactly that one; it answers -1 only when there is none; and an exit is lost only
    when 32 younger ones are pending or its pid is born again. *)
Theorem zombies_are_a_queue os : Z.of_nat (length os) < 2 ^ 64 ->
  exists l, zspec_run os [] (zrun os empty_ztable).1 l /\ holds_pending (zrun os empty_ztable).2 l.
Proof. intros H. by apply sim_run; [apply empty_holds|]. Qed.

Definition demo_zombies : list zop := [ZRecord 3 7 2; ZRecord 4 0 2; ZReap (-1) 5; ZReap 4 2; ZClear 3; ZReap (-1) 2].

Lemma zombies_are_a_queue_witness :
  (zrun demo_zombies empty_ztable).1 = [None; None; None; Some (4, 0); None; None] /\
  exists l, zspec_run demo_zombies [] (zrun demo_zombies empty_ztable).1 l /\ holds_pending (zrun demo_zombies empty_ztable).2 l.
Proof. split; [by vm_compute|]. apply (zombies_are_a_queue demo_zombies). by vm_compute. Defined.

(** ** Waking *)

(** Who is woken: the first client parked for this pid, else the first parked for
    any child that is the parent, or whoever waits when the parent is unknown. *)
Definition may_take (pid parent_pid : Z) (p : proc) : Prop :=
  p_state p = PROC_WAITING_FOR_CHILD /\
  (waiting_for_pid p = pid \/ waiting_for_pid p = -1 /\ (parent_pid = 0 \/ synthetic_pid p = parent_pid)).

Lemma waits_take pid ppid p :
  waits_exactly pid (Some p) = true \/ waits_any ppid (Some p) = true <-> may_take pid ppid p.
Proof.
  unfold waits_exactly, waits_any, may_take.
  rewrite !andb_true_iff, orb_true_iff, !Z.eqb_eq, !bool_decide_eq_true. tauto.
Qed.

Lemma find_waiter_Some pid ppid w i : find_waiter pid ppid w = Some i ->
  (i < MAX_SLOTS)%nat /\ exists p, get_proc w i = Some p /\ may_take pid ppid p.
Proof.
  unfold find_waiter. intros H. assert (K : (i < MAX_SLOTS)%nat /\ (waits_exactly pid (get_proc w i) = true \/ waits_any ppid (get_proc w i) = true)).
  { destruct (first_below (fun i => waits_exactly pid (get_proc w i)) MAX_SLOTS) as [j|] eqn:Hj.
    - injection H as <-. apply first_below_Some in Hj as (? & ? & _). auto.
    - apply first_below_Some in H as (? & ? & _). auto. }
  destruct K as [Hi K]. split; [done|]. destruct (get_proc w i) as [p|]; [|by destruct K].
  exists p. split; [done|]. by apply waits_take.
Qed.

Lemma find_waiter_None pid ppid w i p : find_waiter pid ppid w = None -> (i < MAX_SLOTS)%nat -> get_proc w i = Some p -> ~ may_take pid ppid p.
Proof.
  unfold find_waiter. intros H Hi Hp Ht. destruct (first_below (fun i => waits_exactly pid (get_proc w i)) MAX_SLOTS) eqn:Hj; [done|].
  pose proof (first_below_None _ _ i Hj Hi) as H1. pose proof (first_below_None _ _ i H Hi) as H2. cbv beta in H1, H2. rewrite Hp in H1, H2.
  apply waits_take in Ht as [K|K]; congruence.
Qed.

Lemma get_set_proc w i j o : (i < length (p_slots w))%nat -> get_proc (set_proc i o w) j = if decide (i = j) then o else get_proc w j.
Proof. intros Hi. unfold get_proc, set_proc. cbn [p_slots]. rewrite array_get_insert by done. repeat case_decide; congruence. Qed.

(** Marking a client as exited changes nobody's wait. *)
Lemma find_waiter_exit w c p code m pid ppid : (c < length (p_slots w))%nat -> get_proc w c = Some p ->
  find_waiter pid ppid (set_proc c (Some (with_exit true code m p)) w) = find_waiter pid ppid w.
Proof.
  intros Hc Hp. unfold find_waiter.
  rewrite (first_below_ext _ (fun i => waits_exactly pid (get_proc w i))) by (intros j _; rewrite get_set_proc by done; case_decide; [subst; by rewrite Hp|done]).
  rewrite (first_below_ext (fun i => waits_any _ _) (fun i => waits_any ppid (get_proc w i)))
    by (intros j _; rewrite get_set_proc by done; case_decide; [subst; by rewrite Hp|done]).
  done.
Qed.

Lemma zspec_reap_inv want caller l r l' : zspec (ZReap want caller) l r l' ->
  (exists e, e ∈ l /\ allowed want caller e /\ r = Some (x_pid e, x_code e)) \/ (r = None /\ Forall (fun e => ~ allowed want caller e) l).
Proof.
  inversion 1; subst; [left|by right]. eexists. split; [apply elem_of_app; right; apply elem_of_cons; by left|done].
Qed.

(** A recorded exit is the one the next wait for its pid takes. *)
Lemma reap_recorded pid code ppid caller t l : holds_pending t l -> g_zombie_seq t + 1 < 2 ^ 64 ->
  pid <> -1 -> ppid = 0 \/ ppid = caller -> Forall (fun e => x_pid e <> pid) l ->
  (sotbox_reap_p pid caller (sotbox_record_exit_p pid code ppid t)).1 = Some (pid, code).
Proof.
  intros Hh Hs H1 Hpp Hl. pose proof (sim_record pid code ppid t l Hh Hs) as Hr.
  destruct (sim_reap pid caller _ _ Hr) as (l' & Hsp & _). set (k := if (length l <? MAX_ZOMBIES)%nat then l else tail l) in *.
  assert (Hk : Forall (fun e => x_pid e <> pid) k) by (subst k; destruct (_ <? _)%nat; [done|destruct l; [done|by apply Forall_cons in Hl as [_ ?]]]).
  destruct (zspec_reap_inv _ _ _ _ _ Hsp) as [(e & Hin & [Ha _] & Hres)|[_ Hn]].
  - rewrite Hres. apply elem_of_app in Hin as [Hin|Hin].
    + rewrite Forall_forall in Hk. specialize (Hk e Hin). tauto.
    + apply list_elem_of_singleton in Hin as ->. done.
  - exfalso. apply Forall_app in Hn as [_ Hn]. rewrite Forall_singleton in Hn. apply Hn. unfold allowed. cbn. split; [by right|]. tauto.
Qed.

(** The exit of a client, the call and the loop together. *)
Definition leave (c : nat) (code : Z) (w : procs) : procs := reap_exited c (exit_group c code w).

Lemma leave_unwaited w c p code : (c < length (p_slots w))%nat -> get_proc w c = Some p ->
  find_waiter (synthetic_pid p) (parent_pid_of p) w = None ->
  leave c code w = set_proc c None (set_zombies (sotbox_record_exit_p (synthetic_pid p) (i32 code) (parent_pid_of p) (p_zombies w)) w).
Proof.
  intros Hc Hp Hf. unfold leave, exit_group. rewrite Hp. set (pe := with_exit true (i32 code) (marked_for_teardown p) p).
  unfold sotbox_try_wakeup_waiter_p. change (synthetic_pid pe) with (synthetic_pid p). change (parent_pid_of pe) with (parent_pid_of p).
  subst pe. rewrite find_waiter_exit, Hf by done. cbn [fst]. unfold reap_exited. rewrite get_set_proc, decide_True by done.
  unfold set_proc, set_zombies. cbn [p_slots p_zombies p_log p_exited with_exit]. by rewrite list_insert_insert_eq.
Qed.

Lemma leave_waited w c p code i q : (c < length (p_slots w))%nat -> get_proc w c = Some p -> i <> c ->
  (i < length (p_slots w))%nat -> get_proc w i = Some q ->
  find_waiter (synthetic_pid p) (parent_pid_of p) w = Some i ->
  leave c code w =
  mk_procs (sotbox_record_exit_p (synthetic_pid p) (i32 code) (parent_pid_of p) (p_zombies w))
    (<[c := None]> (<[i := Some (with_wait PROC_RUNNING 0 (waiting_for_pid q) (waiting_status_vaddr q) (one_fork_less (fork_attempts q)) q)]> (p_slots w)))
    (p_log w ++ [EvWake i (waiting_reply_cap q) (synthetic_pid p) (wstatus_of (i32 code))]).
Proof.
  intros Hc Hp Hne Hi Hq Hf. unfold leave, exit_group. rewrite Hp. set (pe := with_exit true (i32 code) (marked_for_teardown p) p).
  unfold sotbox_try_wakeup_waiter_p. change (synthetic_pid pe) with (synthetic_pid p). change (parent_pid_of pe) with (parent_pid_of p).
  subst pe. rewrite find_waiter_exit, Hf by done. rewrite get_set_proc, decide_False, Hq by done. cbn [fst].
  set (pe := with_exit true (i32 code) (marked_for_teardown p) p). set (qe := with_wait _ _ _ _ _ q).
  unfold reap_exited. assert (Hg : get_proc (mk_procs (p_zombies (set_proc i (Some qe) (set_proc c (Some pe) w))) (p_slots (set_proc i (Some qe) (set_proc c (Some pe) w)))
     (p_log (set_proc i (Some qe) (set_proc c (Some pe) w)) ++ [EvWake i (waiting_reply_cap q) (synthetic_pid p) (wstatus_of (i32 code))])) c = Some pe).
  { unfold get_proc, set_proc. cbn [p_slots]. rewrite array_get_insert by (by rewrite length_insert). rewrite decide_False by done.
    rewrite array_get_insert by done. by rewrite decide_True. }
  rewrite Hg. unfold set_proc, set_zombies. cbn [p_slots p_zombies p_log p_exited with_exit pe]. f_equal.
  rewrite (list_insert_insert_ne _ c i) by done. rewrite list_insert_insert_eq. by rewrite list_insert_insert_ne by done.
Qed.

(** A client that is alone in waiting, for this pid, is the one that is found. *)
Lemma only_waiter w i q pid ppid : (i < MAX_SLOTS)%nat -> get_proc w i = Some q -> p_state q = PROC_WAITING_FOR_CHILD -> waiting_for_pid q = pid ->
  (forall j q', get_proc w j = Some q' -> j <> i -> p_state q' = PROC_RUNNING) -> find_waiter pid ppid w = Some i.
Proof.
  intros Hi Hq Hs Hf Ho. destruct (find_waiter pid ppid w) as [j|] eqn:Hj.
  - apply find_waiter_Some in Hj as (_ & r & Hr & Hm & _). destruct (decide (j = i)) as [->|Hne]; [done|]. rewrite (Ho _ _ Hr Hne) in Hm. done.
  - exfalso. apply (find_waiter_None _ _ _ _ _ Hj Hi Hq). split; [done|by left].
Qed.

(** Pids are slot numbers plus one. *)
Definition slots_wf (w : procs) : Prop :=
  length (p_slots w) = MAX_SLOTS /\ forall i p, get_proc w i = Some p -> synthetic_pid p = Z.of_nat i + 1.

Lemma get_proc_lt w i p : slots_wf w -> get_proc w i = Some p -> (i < MAX_SLOTS)%nat.
Proof.
  intros [Hl _] Hp. destruct (decide (i < MAX_SLOTS)%nat); [done|]. unfold get_proc in Hp.
  rewrite lookup_ge_None_2 in Hp by (rewrite Hl; lia). done.
Qed.

Lemma pid_i32 w i p : slots_wf w -> get_proc w i = Some p -> 0 < synthetic_pid p /\ i32 (synthetic_pid p) = synthetic_pid p.
Proof.
  intros Hw Hp. pose proof (get_proc_lt _ _ _ Hw Hp) as Hi. destruct Hw as [_ Hw]. rewrite (Hw _ _ Hp). unfold MAX_SLOTS in Hi.
  split; [lia|]. do 8 (destruct i as [|i]; [by vm_compute|]). lia.
Qed.

(** Whatever its parent was doing, the exit of a client can be waited for: the call
    returns its pid and takes the zombie, and the parent is the one to get it. *)
Lemma wait_after_exit w c i p q code l opts cap : slots_wf w -> get_proc w c = Some p -> get_proc (leave c code w) i = Some q ->
  synthetic_pid q = parent_pid_of p \/ parent_pid_of p = 0 ->
  p_zombies (leave c code w) = sotbox_record_exit_p (synthetic_pid p) (i32 code) (parent_pid_of p) (p_zombies w) ->
  holds_pending (p_zombies w) l -> g_zombie_seq (p_zombies w) + 1 < 2 ^ 64 -> Forall (fun e => x_pid e <> synthetic_pid p) l ->
  (lucas_sys_wait4 i (synthetic_pid p) 0 opts false true cap (leave c code w)).2 = synthetic_pid p.
Proof.
  intros Hw Hp Hq Hpar Hz Hh Hs Hn. unfold lucas_sys_wait4. rewrite Hq, andb_false_r. cbn [andb].
  destruct (pid_i32 _ _ _ Hw Hp) as [Hpos ->]. rewrite Hz.
  pose proof (reap_recorded (synthetic_pid p) (i32 code) (parent_pid_of p) (synthetic_pid q) _ _ Hh Hs ltac:(lia) ltac:(destruct Hpar; auto) Hn) as Hr.
  destruct (sotbox_reap_p _ _ _) as [o t]. cbn [fst] in Hr. subst o. done.
Qed.

(** An exit is told twice to a parent that was parked for it.  When a client ends
    and its parent waits in wait4 for it, the call of exit_group wakes the parent with
    the pid and the status; the orchestrator's loop then also records the exit, and
    the parent's next wait4 for that pid, any options, returns the same child again. *)
Theorem exit_reported_twice w c i p q code l opts cap : slots_wf w -> get_proc w c = Some p -> get_proc w i = Some q -> i <> c ->
  parent_slot p = Z.of_nat i -> p_state q = PROC_WAITING_FOR_CHILD -> waiting_for_pid q = synthetic_pid p ->
  (forall j q', get_proc w j = Some q' -> j <> i -> p_state q' = PROC_RUNNING) ->
  holds_pending (p_zombies w) l -> g_zombie_seq (p_zombies w) + 1 < 2 ^ 64 -> Forall (fun e => x_pid e <> synthetic_pid p) l ->
  p_log (leave c code w) = p_log w ++ [EvWake i (waiting_reply_cap q) (synthetic_pid p) (wstatus_of (i32 code))] /\
  (lucas_sys_wait4 i (synthetic_pid p) 0 opts false true cap (leave c code w)).2 = synthetic_pid p.
Proof.
  intros Hw Hp Hq Hne Hpar Hst Hwf Hother Hh Hs Hn. pose proof Hw as [Hl Hpid].
  pose proof (get_proc_lt _ _ _ Hw Hp) as Hc. pose proof (get_proc_lt _ _ _ Hw Hq) as Hi.
  assert (Hf : find_waiter (synthetic_pid p) (parent_pid_of p) w = Some i) by (by apply (only_waiter w i q); auto).
  rewrite <- Hl in Hc, Hi. pose proof (leave_waited _ _ _ code _ _ Hc Hp Hne Hi Hq Hf) as Hlv.
  split; [by rewrite Hlv|]. eapply wait_after_exit; [done|done| | |by rewrite Hlv|done|done|done].
  - rewrite Hlv. unfold get_proc. cbn [p_slots]. rewrite array_get_insert by (by rewrite length_insert). rewrite decide_False by done.
    rewrite array_get_insert by done. by rewrite decide_True.
  - left. cbn. rewrite (Hpid _ _ Hq). unfold parent_pid_of. rewrite Hpar. destruct (Z.geb_spec (Z.of_nat i) 0); lia.
Qed.

(** A shell in slot 0 that waits for its child in slot 1. *)
Definition demo_shell : proc := mk_proc 1 (-1) PROC_WAITING_FOR_CHILD 77 2 0 1 true false 0 false.
Definition demo_child : proc := mk_proc 2 0 PROC_RUNNING 0 0 0 0 true false 0 false.
Definition demo_procs : procs :=
  mk_procs empty_ztable ([Some demo_shell; Some demo_child] ++ replicate 6 None) [].

Lemma demo_procs_at j q : get_proc demo_procs j = Some q -> j = 0%nat /\ q = demo_shell \/ j = 1%nat /\ q = demo_child.
Proof. do 8 (destruct j as [|j]; [cbn; intros [= <-]; auto|]). by destruct j. Qed.

Lemma demo_procs_wf : slots_wf demo_procs.
Proof. split; [done|]. by intros i p [[-> ->]|[-> ->]]%demo_procs_at. Qed.

Lemma exit_reported_twice_witness :
  p_log (leave 1 3 demo_procs) = [EvWake 0 77 2 0x300] /\
  (lucas_sys_wait4 0 2 0 1 false true None (leave 1 3 demo_procs)).2 = 2.
Proof.
  apply (exit_reported_twice demo_procs 1 0 demo_child demo_shell 3 [] 1 None); try done.
  - apply demo_procs_wf.
  - by intros j q [[-> ->]|[-> ->]]%demo_procs_at.
  - apply empty_holds.
Defined.

(** ** wait4 without a child *)

(** Only an empty machine gives ECHILD: as long as any other client lives, or any exit
    at all is pending, a call that finds nothing of its own parks its caller. *)
Lemma wait4_parks_without_children s p pid vaddr opts copied c w : get_proc w s = Some p -> Z.testbit opts 0 = false ->
  (sotbox_reap_p (i32 pid) (synthetic_pid p) (p_zombies w)).1 = None ->
  (lucas_sys_wait4 s pid vaddr opts false copied (Some c) w).2 = WAIT_DEFERRED <-> sotbox_has_children s w = true.
Proof.
  intros Hp Ho Hr. unfold lucas_sys_wait4. rewrite Hp, andb_false_r. cbn [andb]. destruct (sotbox_reap_p _ _ _) as [r t]. cbn [fst] in Hr.
  subst r. destruct (sotbox_has_children s w); cbn [negb]; [|done]. by rewrite Ho.
Qed.

(** The child in [demo_procs] has no children; the shell is enough to park it, and
    then the two wait for one another. *)
Example childless_client_parks : (lucas_sys_wait4 1 (-1) 0 0 false true (Some 5) demo_procs).2 = WAIT_DEFERRED.
Proof. by vm_compute. Qed.

(** An exit whose status cannot be stored is consumed all the same. *)
Example efault_loses_the_exit :
  let w := leave 1 3 demo_procs in let r := lucas_sys_wait4 0 2 1 1 false false None w in
  r.2 = -14 /\ (lucas_sys_wait4 0 2 0 1 false true None r.1).2 <> 2.
Proof. by vm_compute. Qed.
