(* ===== verification/Signals.v ===== *)
(** * Signals of a sotBox

    src/lucas/signals.c: the dispositions, the mask and the queue of eight pending
    signals of a sotBox, the alternate stack, the frame that is built in the client's
    memory when a signal is delivered and the return from the handler; with the places
    that call it: the system calls of src/lucas/handlers_proc.c, the way back from a
    system call in src/lucas/fault_loop.c, the interrupted console read of
    src/lucas/handlers_fs.c and the reset at exit.

    A client is its signal state and its address space ([ClientMem]); the registers
    are the eighteen the code saves. *)

From S2P Require Import Prelude Storage ClientMem.

Definition LUCAS_SIG_BLOCK : Z := 0.
Definition LUCAS_SIG_UNBLOCK : Z := 1.
Definition LUCAS_SIG_SETMASK : Z := 2.
Definition LUCAS_SA_NODEFER : Z := 0x40000000.
Definition LUCAS_SA_ONSTACK : Z := 0x08000000.
Definition LUCAS_SIG_DFL : Z := 0.
Definition LUCAS_SIG_IGN : Z := 1.
Definition LUCAS_SS_DISABLE : Z := 2.
Definition LUCAS_MINSIGSTKSZ : Z := 2048.
Definition LUCAS_SIGFRAME_MAGIC : Z := 0x5347464D454D4F73.
Definition PENDING_MAX : nat := 8.
Definition E_FAULT : Z := -14.
Definition E_INVAL : Z := -22.

(** ** State *)

Record k_sigaction := mk_action { sa_handler : Z; sa_flags : Z; sa_restorer : Z; sa_mask : Z }.

(** The four arrays [signal_handlers], [signal_flags], [signal_restorers] and
    [signal_sa_mask] are one array of actions, indexed by the signal minus one. *)
Record sigstate := mk_sigstate {
  actions : list k_sigaction;
  signal_mask : Z;
  pending_signals : list Z;
  n_pending : nat;
  sigaltstack_sp : Z;
  sigaltstack_size : Z;
  in_signal_handler : bool
}.

Definition zero_action : k_sigaction := mk_action 0 0 0 0.

Definition zero_sigstate : sigstate := mk_sigstate (replicate 64 zero_action) 0 (replicate PENDING_MAX 0) 0 0 0 false.

Record client := mk_client { c_sig : sigstate; c_vs : vspace }.

Definition set_actions (x : list k_sigaction) (s : sigstate) : sigstate :=
  mk_sigstate x (signal_mask s) (pending_signals s) (n_pending s) (sigaltstack_sp s) (sigaltstack_size s) (in_signal_handler s).
Definition set_mask (x : Z) (s : sigstate) : sigstate :=
  mk_sigstate (actions s) x (pending_signals s) (n_pending s) (sigaltstack_sp s) (sigaltstack_size s) (in_signal_handler s).
Definition set_queue (x : list Z) (n : nat) (s : sigstate) : sigstate :=
  mk_sigstate (actions s) (signal_mask s) x n (sigaltstack_sp s) (sigaltstack_size s) (in_signal_handler s).
Definition set_altstack (sp size : Z) (s : sigstate) : sigstate :=
  mk_sigstate (actions s) (signal_mask s) (pending_signals s) (n_pending s) sp size (in_signal_handler s).
Definition set_in_handler (x : bool) (s : sigstate) : sigstate :=
  mk_sigstate (actions s) (signal_mask s) (pending_signals s) (n_pending s) (sigaltstack_sp s) (sigaltstack_size s) x.

Definition action (s : sigstate) (sig : Z) : k_sigaction := (actions s).[Z.to_nat (sig - 1), zero_action].
Definition put_action (sig : Z) (a : k_sigaction) (s : sigstate) : sigstate :=
  set_actions (<[Z.to_nat (sig - 1) := a]> (actions s)) s.
Definition pending_at (s : sigstate) (i : nat) : Z := (pending_signals s).[i, 0].

Record uregs := mk_uregs {
  rip : Z; rsp : Z; rflags : Z; rax : Z; rbx : Z; rcx : Z; rdx : Z; rdi : Z; rsi : Z; rbp : Z;
  r8 : Z; r9 : Z; r10 : Z; r11 : Z; r12 : Z; r13 : Z; r14 : Z; r15 : Z
}.

(** ** Words in client memory *)

Definition bytes_of (ws : list Z) : list Z := concat (map (le_bytes 8) ws).

(** The [k]-th eight-byte word of a buffer. *)
Definition word (bs : list Z) (k : nat) : Z := le_val (take 8 (drop (8 * k) bs)).

Definition copy_out (c : client) (addr : Z) (bs : list Z) : client * bool :=
  let r := lucas_copy_to_client (c_vs c) addr bs in (mk_client (c_sig c) r.1, r.2).

(** The old value, for a caller that asks for it. *)
Definition copy_old (c : client) (uptr : Z) (bs : list Z) : client * bool := if uptr =? 0 then (c, true) else copy_out c uptr bs.

Definition with_sig (f : sigstate -> sigstate) (c : client) : client := mk_client (f (c_sig c)) (c_vs c).

(** ** Masks *)

Definition default_is_ignore (sig : Z) : bool := (sig =? 17) || (sig =? 18) || (sig =? 23) || (sig =? 28).

Definition sigmask_bit (sig : Z) : Z := if (sig <? 1) || (sig >? 64) then 0 else Z.shiftl 1 (sig - 1).

(** The complement of [(bit 9) | (bit 19)] in 64 bits. *)
Definition unblockable : Z := Z.lor (sigmask_bit 9) (sigmask_bit 19).
Definition without (m bits : Z) : Z := Z.ldiff m bits.

(** ** rt_sigaction *)

Definition action_words (a : k_sigaction) : list Z := [sa_handler a; sa_flags a; sa_restorer a; sa_mask a].
Definition action_of (bs : list Z) : k_sigaction := mk_action (word bs 0) (word bs 1) (word bs 2) (word bs 3).

(** A reset to the default disposition also clears the other fields. *)
Definition settled_action (a : k_sigaction) : k_sigaction :=
  if sa_handler a =? LUCAS_SIG_DFL then mk_action (sa_handler a) 0 0 0 else a.

Definition lucas_signals_rt_sigaction (sig act_uptr oact_uptr sigsetsize : Z) (c : client) : client * Z :=
  if (sig <? 1) || (sig >? 64) then (c, E_INVAL)
  else if (sig =? 9) || (sig =? 19) then (c, E_INVAL)
  else if negb (sigsetsize =? 8) then (c, E_INVAL)
  else
    let r := copy_old c oact_uptr (bytes_of (action_words (action (c_sig c) sig))) in
    if negb r.2 then (r.1, E_FAULT)
    else if act_uptr =? 0 then (r.1, 0)
    else
      match lucas_copy_from_client (c_vs r.1) act_uptr 32 with
      | None => (r.1, E_FAULT)
      | Some bs => (with_sig (put_action sig (settled_action (action_of bs))) r.1, 0)
      end.

(** ** rt_sigprocmask *)

Definition new_mask (how m inmask : Z) : option Z :=
  let i := without inmask unblockable in
  if how =? LUCAS_SIG_BLOCK then Some (Z.lor m i)
  else if how =? LUCAS_SIG_UNBLOCK then Some (without m i)
  else if how =? LUCAS_SIG_SETMASK then Some i
  else None.

Definition lucas_signals_rt_sigprocmask (how set_uptr oset_uptr sigsetsize : Z) (c : client) : client * Z :=
  if negb (sigsetsize =? 8) then (c, E_INVAL)
  else
    let r := copy_old c oset_uptr (le_bytes 8 (signal_mask (c_sig c))) in
    if negb r.2 then (r.1, E_FAULT)
    else if set_uptr =? 0 then (r.1, 0)
    else
      match lucas_copy_from_client (c_vs r.1) set_uptr 8 with
      | None => (r.1, E_FAULT)
      | Some bs =>
          match new_mask how (signal_mask (c_sig c)) (le_val bs) with
          | Some m => (with_sig (set_mask m) r.1, 0)
          | None => (r.1, E_INVAL)
          end
      end.

(** ** sigaltstack *)

(** [ss_sp], [ss_flags] in four bytes, four of padding, [ss_size]. *)
Definition stack_bytes (sp flags size : Z) : list Z := le_bytes 8 sp ++ le_bytes 4 flags ++ replicate 4 0 ++ le_bytes 8 size.

Definition lucas_signals_sigaltstack (ss_uptr oss_uptr : Z) (c : client) : client * Z :=
  let s := c_sig c in
  let r := copy_old c oss_uptr (stack_bytes (sigaltstack_sp s) (if sigaltstack_sp s =? 0 then LUCAS_SS_DISABLE else 0) (sigaltstack_size s)) in
  if negb r.2 then (r.1, E_FAULT)
  else if ss_uptr =? 0 then (r.1, 0)
  else
    match lucas_copy_from_client (c_vs r.1) ss_uptr 24 with
    | None => (r.1, E_FAULT)
    | Some bs =>
        let flags := le_val (take 4 (drop 8 bs)) in
        if Z.testbit flags 1 then (with_sig (set_altstack 0 0) r.1, 0)
        else if word bs 2 <? LUCAS_MINSIGSTKSZ then (r.1, E_INVAL)
        else (with_sig (set_altstack (word bs 0) (word bs 2)) r.1, 0)
    end.

(** ** The queue *)

Definition lucas_signals_queue_pending (sig : Z) (s : sigstate) : sigstate :=
  if (sig <? 1) || (sig >? 64) then s
  else if existsb (fun i => pending_at s i =? sig) (seq 0 (n_pending s)) then s
  else if (PENDING_MAX <=? n_pending s)%nat then s
  else set_queue (<[n_pending s := u8 sig]> (pending_signals s)) (S (n_pending s)) s.

(** ** Delivery *)

(** Not masked, and with a handler. *)
Definition deliverable (s : sigstate) (sig : Z) : bool :=
  negb ((sig <? 1) || (sig >? 64)) && (Z.land (signal_mask s) (sigmask_bit sig) =? 0)
  && negb (sa_handler (action s sig) =? LUCAS_SIG_DFL) && negb (sa_handler (action s sig) =? LUCAS_SIG_IGN).

Definition pick (s : sigstate) : option nat := first_below (fun i => deliverable s (pending_at s i)) (n_pending s).

(** The entries behind the one picked move down, the last is zeroed. *)
Definition compact (i : nat) (s : sigstate) : sigstate :=
  let n := (n_pending s - 1)%nat in
  let q := map (fun j => if (i <=? j)%nat && (j <? n)%nat then pending_at s (S j) else pending_at s j) (seq 0 PENDING_MAX) in
  set_queue (if (n <? PENDING_MAX)%nat then <[n := 0]> q else q) n s.

Definition handler_stack (s : sigstate) (flags rsp : Z) : Z :=
  if negb (Z.land flags LUCAS_SA_ONSTACK =? 0) && negb (sigaltstack_sp s =? 0) && (sigaltstack_size s >=? LUCAS_MINSIGSTKSZ)
  then u64 (sigaltstack_sp s + sigaltstack_size s) else rsp.

Definition FRAME_BYTES : Z := 160.

(** Below the red zone and a slot, 160 bytes, aligned down to sixteen. *)
Definition frame_addr_of (base_sp : Z) : Z := Z.land (u64 (u64 (u64 (base_sp - 128) - 8) - FRAME_BYTES)) (Z.lxor (2 ^ 64 - 1) 0xF).

Definition frame_words (r : uregs) (mask : Z) : list Z :=
  [rip r; rsp r; rflags r; rax r; rbx r; rcx r; rdx r; rdi r; rsi r; rbp r;
   r8 r; r9 r; r10 r; r11 r; r12 r; r13 r; r14 r; r15 r; mask; LUCAS_SIGFRAME_MAGIC].

(** The mask while the handler runs. *)
Definition handler_mask (s : sigstate) (sig : Z) : Z :=
  let a := action s sig in
  let m := Z.lor (signal_mask s) (sa_mask a) in
  let m := if Z.land (sa_flags a) LUCAS_SA_NODEFER =? 0 then Z.lor m (sigmask_bit sig) else m in
  without m unblockable.

Definition enter_handler (handler sp sig : Z) (r : uregs) : uregs :=
  mk_uregs handler sp (rflags r) (rax r) (rbx r) handler 0 sig 0 (rbp r)
    (r8 r) (r9 r) (r10 r) (rflags r) (r12 r) (r13 r) (r14 r) (r15 r).

Definition lucas_signals_try_deliver (c : client) (r : uregs) : client * uregs * Z :=
  let s := c_sig c in
  if in_signal_handler s then (c, r, 0)
  else if (n_pending s =? 0)%nat then (c, r, 0)
  else
    match pick s with
    | None => (c, r, 0)
    | Some i =>
        let sig := pending_at s i in
        let a := action s sig in
        let s := compact i s in
        let frame_addr := frame_addr_of (handler_stack s (sa_flags a) (rsp r)) in
        let slot := u64 (frame_addr - 8) in
        let o1 := copy_out (mk_client s (c_vs c)) frame_addr (bytes_of (frame_words r (signal_mask s))) in
        if negb o1.2 then (o1.1, r, 0)
        else
          let o2 := copy_out o1.1 slot (le_bytes 8 (sa_restorer a)) in
          if negb o2.2 then (o2.1, r, 0)
          else (with_sig (fun s => set_in_handler true (set_mask (handler_mask s sig) s)) o2.1,
                enter_handler (sa_handler a) slot sig r, 1)
    end.

(** ** The return from a handler *)

(** -16, -8, ..., 256. *)
Definition deltas : list Z := map (fun i => 8 * Z.of_nat i - 16) (seq 0 35).

Definition probe (v : vspace) (scan_base delta : Z) : option (list Z) :=
  match lucas_copy_from_client v (u64 (scan_base + delta)) FRAME_BYTES with
  | Some bs => if word bs 19 =? LUCAS_SIGFRAME_MAGIC then Some bs else None
  | None => None
  end.

Fixpoint find_frame (v : vspace) (scan_base : Z) (ds : list Z) : option (list Z) :=
  match ds with
  | [] => None
  | d :: ds => match probe v scan_base d with Some bs => Some bs | None => find_frame v scan_base ds end
  end.

Definition regs_of (bs : list Z) : uregs :=
  mk_uregs (word bs 0) (word bs 1) (word bs 2) (word bs 3) (word bs 4) (word bs 5) (word bs 6) (word bs 7) (word bs 8) (word bs 9)
    (word bs 10) (word bs 11) (word bs 12) (word bs 13) (word bs 14) (word bs 15) (word bs 16) (word bs 17).

Definition lucas_signals_rt_sigreturn (c : client) (r : uregs) : client * uregs :=
  match find_frame (c_vs c) (rsp r) deltas with
  | None => (with_sig (set_in_handler false) c, r)
  | Some bs => (with_sig (fun s => set_in_handler false (set_mask (word bs 18) s)) c, regs_of bs)
  end.

(** ** The callers *)

(** [rcx] and [r11] as the instruction sysret expects them. *)
Definition mirror (r : uregs) : uregs :=
  mk_uregs (rip r) (rsp r) (rflags r) (rax r) (rbx r) (rip r) (rdx r) (rdi r) (rsi r) (rbp r)
    (r8 r) (r9 r) (r10 r) (rflags r) (r12 r) (r13 r) (r14 r) (r15 r).

Definition lucas_sys_rt_sigaction (sig act oact sigsetsize : Z) : client -> client * Z :=
  lucas_signals_rt_sigaction (i32 sig) act oact sigsetsize.

Definition lucas_sys_rt_sigprocmask (how set oset sigsetsize : Z) : client -> client * Z :=
  lucas_signals_rt_sigprocmask (i32 how) set oset sigsetsize.

Definition lucas_sys_sigaltstack (ss oss : Z) : client -> client * Z := lucas_signals_sigaltstack ss oss.

(** With the registers of the thread at the call; reading and writing them succeeds. *)
Definition lucas_sys_rt_sigreturn (c : client) (r : uregs) : client * uregs :=
  let x := lucas_signals_rt_sigreturn c r in (x.1, mirror x.2).

(** The end of a system call: the fault loop delivers what is pending. *)
Definition syscall_return (c : client) (r : uregs) : client * uregs :=
  let x := if (0 <? n_pending (c_sig c))%nat then (lucas_signals_try_deliver c r).1 else (c, r) in
  (x.1, mirror x.2).

(** The registers with which an interrupted read of the console goes on. *)
Definition eintr_return (c : client) (r : uregs) : client * uregs :=
  let r := mirror (mk_uregs (u64 (rip r + 2)) (rsp r) (rflags r) (u64 (-4)) (rbx r) (rcx r) (rdx r) (rdi r) (rsi r) (rbp r)
                     (r8 r) (r9 r) (r10 r) (r11 r) (r12 r) (r13 r) (r14 r) (r15 r)) in
  if (0 <? n_pending (c_sig c))%nat then (lucas_signals_try_deliver c r).1 else (c, r).

(** exit_group clears the whole state. *)
Definition exit_signals (c : client) : client := mk_client zero_sigstate (c_vs c).
