(* ===== verification/SignalsTheorems.v ===== *)
(** * Signals: the queue, the frame and the return

    The pending signals as a list without duplicates, of which a delivery takes the
    first that is neither masked nor without a handler; where the frame is put; that
    the return from a handler restores the registers and the mask; and the ways in
    which a signal is lost. *)

From S2P Require Import Prelude Storage ClientMem Signals.

(** ** Words *)

Lemma length_bytes_of ws : length (bytes_of ws) = (8 * length ws)%nat.
Proof.
  unfold bytes_of. induction ws as [|w ws IH]; [done|]. cbn [map concat length]. rewrite length_app, length_le_bytes, IH. lia.
Qed.

Lemma drop_bytes_of ws k : drop (8 * k) (bytes_of ws) = bytes_of (drop k ws).
Proof.
  revert k. induction ws as [|w ws IH]; intros k; [rewrite drop_nil; unfold bytes_of; cbn [map concat]; by rewrite drop_nil|]. destruct k as [|k]; [done|]. cbn [drop].
  unfold bytes_of. cbn [map concat]. replace (8 * S k)%nat with (length (le_bytes 8 w) + 8 * k)%nat by (rewrite length_le_bytes; lia).
  rewrite <- drop_drop, drop_app_length. apply IH.
Qed.

Lemma word_bytes_of ws k w : ws !! k = Some w -> 0 <= w < 2 ^ 64 -> word (bytes_of ws) k = w.
Proof.
  intros Hk Hw. unfold word. rewrite drop_bytes_of. rewrite (drop_S _ _ _ Hk). unfold bytes_of. cbn [map concat].
  rewrite take_app_length' by (by rewrite length_le_bytes). by apply le_val_bytes.
Qed.

(** ** The place of the frame *)

Lemma align16 x : 0 <= x < 2 ^ 64 -> Z.land x (Z.lxor (2 ^ 64 - 1) 0xF) = 16 * (x / 16).
Proof.
  intros Hx. assert (E : Z.lxor (2 ^ 64 - 1) 0xF = Z.ldiff (Z.ones 64) (Z.ones 4)) by (by vm_compute). rewrite E.
  replace (Z.land x (Z.ldiff (Z.ones 64) (Z.ones 4))) with (Z.ldiff (Z.land x (Z.ones 64)) (Z.ones 4)).
  - rewrite Z.land_ones by lia. rewrite Z.mod_small by lia. rewrite Z.ldiff_ones_r by lia.
    rewrite Z.shiftl_mul_pow2, Z.shiftr_div_pow2 by lia. change (2 ^ 4) with 16. lia.
  - apply Z.bits_inj'. intros n Hn. rewrite ?Z.ldiff_spec, ?Z.land_spec, ?Z.ldiff_spec, ?Z.land_spec. symmetry. apply andb_assoc.
Qed.

Lemma frame_addr_eq base : 512 <= base < 2 ^ 64 -> frame_addr_of base = 16 * ((base - 296) / 16).
Proof.
  intros H. unfold frame_addr_of, FRAME_BYTES.
  rewrite (u64_small (base - 128)), (u64_small (base - 128 - 8)), (u64_small (base - 128 - 8 - 160)) by lia. rewrite align16 by lia. do 2 f_equal. lia.
Qed.

(** The frame lies below the red zone and the slot below it; at the entry of the
    handler the stack is eight below a multiple of sixteen. *)
Lemma frame_place base : 512 <= base < 2 ^ 64 ->
  base - 312 < frame_addr_of base /\ frame_addr_of base + FRAME_BYTES <= base - 136 /\ (frame_addr_of base) mod 16 = 0.
Proof.
  intros H. rewrite frame_addr_eq by done. unfold FRAME_BYTES.
  pose proof (Z.div_mod (base - 296) 16 ltac:(lia)). pose proof (Z.mod_pos_bound (base - 296) 16 ltac:(lia)).
  split; [lia|]. split; [lia|]. rewrite Z.mul_comm. by apply Z.mod_mul.
Qed.

(** A handler on the alternate stack has its frame inside it: 2048 bytes suffice. *)
Lemma frame_on_altstack s flags sp : Z.land flags LUCAS_SA_ONSTACK <> 0 -> 0 < sigaltstack_sp s ->
  LUCAS_MINSIGSTKSZ <= sigaltstack_size s -> sigaltstack_sp s + sigaltstack_size s < 2 ^ 64 ->
  let f := frame_addr_of (handler_stack s flags sp) in
  sigaltstack_sp s <= f - 8 /\ f + FRAME_BYTES <= sigaltstack_sp s + sigaltstack_size s.
Proof.
  intros Hf Hsp Hsz Ht. unfold handler_stack, LUCAS_MINSIGSTKSZ in *. rewrite (proj2 (Z.eqb_neq _ _)) by done.
  rewrite (proj2 (Z.eqb_neq (sigaltstack_sp s) 0)) by lia. rewrite (proj2 (Z.geb_le _ _)) by done. cbn [negb andb].
  rewrite u64_small by lia. destruct (frame_place (sigaltstack_sp s + sigaltstack_size s)) as (H1 & H2 & _); [lia|]. unfold FRAME_BYTES in *. lia.
Qed.

(** ** The queue *)

Definition squeue (s : sigstate) : list Z := take (n_pending s) (pending_signals s).

Definition valid_sig (sig : Z) : Prop := 1 <= sig <= 64.

Record queue_ok (s : sigstate) : Prop := {
  qo_actions : length (actions s) = 64%nat;
  qo_len : length (pending_signals s) = PENDING_MAX;
  qo_n : (n_pending s <= PENDING_MAX)%nat;
  qo_nodup : NoDup (squeue s);
  qo_valid : Forall valid_sig (squeue s)
}.

Lemma sig_queue_length s : queue_ok s -> length (squeue s) = n_pending s.
Proof. intros H. unfold squeue. rewrite length_take, (qo_len _ H). pose proof (qo_n _ H). lia. Qed.

Lemma queue_lookup s i : queue_ok s -> (i < n_pending s)%nat -> squeue s !! i = Some (pending_at s i).
Proof.
  intros H Hi. unfold squeue. rewrite lookup_take_lt by done. apply array_lookup_lt. rewrite (qo_len _ H). pose proof (qo_n _ H). lia.
Qed.

Lemma queued_iff s sig : queue_ok s -> existsb (fun i => pending_at s i =? sig) (seq 0 (n_pending s)) = true <-> sig ∈ squeue s.
Proof.
  intros H. rewrite existsb_exists. split.
  - intros (i & Hi%in_seq & He%Z.eqb_eq). apply list_elem_of_lookup. exists i. rewrite <- He. apply queue_lookup; [done|lia].
  - intros [i Hi]%list_elem_of_lookup. pose proof (lookup_lt_Some _ _ _ Hi) as Hl. rewrite sig_queue_length in Hl by done.
    exists i. rewrite in_seq. split; [lia|]. rewrite queue_lookup in Hi by done. injection Hi as ->. apply Z.eqb_refl.
Qed.

(** Queueing adds at the end, unless it is there or there are eight. *)
Lemma queue_pending_spec sig s : queue_ok s ->
  squeue (lucas_signals_queue_pending sig s) =
    if decide (valid_sig sig /\ (sig ∉ squeue s) /\ (length (squeue s) < PENDING_MAX)%nat) then squeue s ++ [sig] else squeue s.
Proof.
  intros H. unfold lucas_signals_queue_pending. unfold valid_sig.
  destruct (Z.ltb_spec sig 1) as [|H1]; cbn [orb]; [rewrite decide_False by lia; done|].
  rewrite Z.gtb_ltb. destruct (Z.ltb_spec 64 sig) as [|H2]; [rewrite decide_False by lia; done|].
  destruct (existsb _ _) eqn:He; [apply queued_iff in He; [|done]; rewrite decide_False by tauto; done|].
  assert (Hn : sig ∉ squeue s) by (intros Hin%queued_iff; [congruence|done]). rewrite sig_queue_length by done.
  destruct (Nat.leb_spec PENDING_MAX (n_pending s)); [rewrite decide_False by lia; done|]. rewrite decide_True by (split; [lia|]; split; [done|lia]).
  unfold squeue. cbn [set_queue n_pending pending_signals]. rewrite (take_S_r _ _ (u8 sig)).
  - rewrite take_insert_ge by lia. unfold u8. by rewrite Z.mod_small by lia.
  - apply list_lookup_insert_eq. by rewrite (qo_len _ H).
Qed.

Lemma queue_pending_ok sig s : queue_ok s -> queue_ok (lucas_signals_queue_pending sig s).
Proof.
  intros H. pose proof (queue_pending_spec sig s H) as Hq.
  assert (Hs : actions (lucas_signals_queue_pending sig s) = actions s /\ length (pending_signals (lucas_signals_queue_pending sig s)) = PENDING_MAX
               /\ (n_pending (lucas_signals_queue_pending sig s) <= PENDING_MAX)%nat).
  { pose proof (qo_len _ H). pose proof (qo_n _ H). unfold lucas_signals_queue_pending. destruct (_ || _); [done|]. destruct (existsb _ _); [done|].
    destruct (Nat.leb_spec PENDING_MAX (n_pending s)); [done|]. cbn. rewrite length_insert. auto with lia. }
  destruct Hs as (Ha & Hl & Hn). constructor; [by rewrite Ha; apply (qo_actions _ H)|done|done| |].
  - rewrite Hq. case_decide as Hd; [|apply (qo_nodup _ H)]. apply NoDup_app. split; [apply (qo_nodup _ H)|].
    split; [intros x Hx ->%list_elem_of_singleton; tauto|apply NoDup_singleton].
  - rewrite Hq. case_decide as Hd; [|apply (qo_valid _ H)]. apply Forall_app. split; [apply (qo_valid _ H)|]. constructor; [tauto|done].
Qed.

Lemma compact_queue i s : queue_ok s -> (i < n_pending s)%nat -> squeue (compact i s) = delete i (squeue s).
Proof.
  intros H Hi. pose proof (qo_n _ H) as Hn. unfold squeue, compact. cbn [set_queue n_pending pending_signals].
  rewrite (proj2 (Nat.ltb_lt _ _)) by lia. rewrite take_insert_ge by done. apply list_eq. intros j.
  destruct (decide (j < n_pending s - 1)%nat) as [Hj|Hj].
  - rewrite lookup_take_lt by done. rewrite list_lookup_fmap, lookup_seq_lt by lia. cbn [fmap option_fmap option_map].
    destruct (decide (j < i)%nat) as [Hji|Hji].
    + rewrite list_lookup_delete_lt by done. rewrite (proj2 (Nat.leb_gt _ _)) by lia. cbn [andb].
      pose proof (queue_lookup s j H ltac:(lia)) as E. unfold squeue in E. by rewrite E.
    + rewrite list_lookup_delete_ge by lia. rewrite (proj2 (Nat.leb_le _ _)), (proj2 (Nat.ltb_lt _ _)) by lia. cbn [andb].
      pose proof (queue_lookup s (S j) H ltac:(lia)) as E. unfold squeue in E. by rewrite E.
  - rewrite !lookup_ge_None_2; [done| |].
    + rewrite length_delete by (exists (pending_at s i); by apply queue_lookup). fold (squeue s). rewrite (sig_queue_length s H). lia.
    + rewrite length_take. lia.
Qed.

Lemma compact_ok i s : queue_ok s -> (i < n_pending s)%nat -> queue_ok (compact i s).
Proof.
  intros H Hi. pose proof (qo_n _ H) as Hn. pose proof (compact_queue i s H Hi) as Hq.
  assert (Hsub : squeue (compact i s) `sublist_of` squeue s) by (rewrite Hq; apply sublist_delete).
  constructor; [apply (qo_actions _ H)| | | |].
  - unfold compact. cbn [set_queue pending_signals]. destruct (_ <? _)%nat; [rewrite length_insert|]; by rewrite length_map, length_seq.
  - cbn. lia.
  - eapply sublist_NoDup; [apply (qo_nodup _ H)|done].
  - rewrite Hq, delete_take_drop. apply Forall_app. split; [apply Forall_take|apply Forall_drop]; apply (qo_valid _ H).
Qed.

(** ** Delivery *)

Lemma pick_Some s i : queue_ok s -> pick s = Some i ->
  exists l1 l2, squeue s = l1 ++ pending_at s i :: l2 /\ length l1 = i /\ (i < n_pending s)%nat /\
    deliverable s (pending_at s i) = true /\ Forall (fun sig => deliverable s sig = false) l1.
Proof.
  intros H (Hi & Hd & Hm)%first_below_Some. pose proof (queue_lookup s i H Hi) as Hq.
  exists (take i (squeue s)), (drop (S i) (squeue s)). split; [by rewrite take_drop_middle|].
  split; [rewrite length_take, sig_queue_length by done; lia|]. split; [done|]. split; [done|].
  apply Forall_forall. intros sig [j Hj]%list_elem_of_lookup. apply lookup_take_Some in Hj as [Hj Hlt].
  rewrite queue_lookup in Hj by (done || lia). injection Hj as <-. apply Hm. lia.
Qed.

Lemma pick_None s : queue_ok s -> pick s = None -> Forall (fun sig => deliverable s sig = false) (squeue s).
Proof.
  intros H Hn. apply Forall_forall. intros sig [j Hj]%list_elem_of_lookup. pose proof (lookup_lt_Some _ _ _ Hj) as Hl. rewrite sig_queue_length in Hl by done.
  rewrite queue_lookup in Hj by done. injection Hj as <-. by apply (first_below_None _ _ j Hn).
Qed.

Lemma delete_middle {A} (l1 l2 : list A) x : delete (length l1) (l1 ++ x :: l2) = l1 ++ l2.
Proof. induction l1 as [|y l1 IH]; cbn; [done|by f_equal]. Qed.

(** What a delivery does, on each of its branches. *)
Inductive delivery (c : client) (r : uregs) : client * uregs * Z -> Prop :=
  | dl_none : in_signal_handler (c_sig c) = true \/ Forall (fun sig => deliverable (c_sig c) sig = false) (squeue (c_sig c)) ->
      delivery c r (c, r, 0)
  | dl_lost l1 sig l2 c' : squeue (c_sig c) = l1 ++ sig :: l2 -> squeue (c_sig c') = l1 ++ l2 ->
      signal_mask (c_sig c') = signal_mask (c_sig c) -> in_signal_handler (c_sig c') = false -> delivery c r (c', r, 0)
  | dl_run l1 sig l2 c' r' : squeue (c_sig c) = l1 ++ sig :: l2 -> squeue (c_sig c') = l1 ++ l2 ->
      Forall (fun sig => deliverable (c_sig c) sig = false) l1 -> deliverable (c_sig c) sig = true ->
      rip r' = sa_handler (action (c_sig c) sig) -> rdi r' = sig ->
      signal_mask (c_sig c') = handler_mask (c_sig c) sig -> in_signal_handler (c_sig c') = true -> delivery c r (c', r', 1).

Lemma deliver_cases c r : queue_ok (c_sig c) -> delivery c r (lucas_signals_try_deliver c r).
Proof.
  intros H. unfold lucas_signals_try_deliver. destruct (in_signal_handler (c_sig c)) eqn:Hh; [apply dl_none; by left|].
  destruct (Nat.eqb_spec (n_pending (c_sig c)) 0) as [H0|].
  { apply dl_none. right. unfold squeue. by rewrite H0. }
  destruct (pick (c_sig c)) as [i|] eqn:Hp; [|apply dl_none; right; by apply pick_None].
  destruct (pick_Some _ _ H Hp) as (l1 & l2 & Hq & Hl & Hi & Hd & Hf).
  assert (Hc : squeue (compact i (c_sig c)) = l1 ++ l2) by (rewrite compact_queue, Hq, <- Hl by done; apply delete_middle).
  destruct (copy_out _ _ _) as [c1 ok1] eqn:E1. unfold copy_out in E1. injection E1 as E1 _. subst c1. cbn [fst snd c_sig].
  destruct ok1; cbn [negb]; [|by eapply dl_lost].
  destruct (copy_out _ _ _) as [c2 ok2] eqn:E2. unfold copy_out in E2. injection E2 as E2 _. subst c2. cbn [fst snd c_sig].
  destruct ok2; cbn [negb]; [|by eapply dl_lost]. by eapply dl_run.
Qed.

Lemma deliver_ok c r : queue_ok (c_sig c) -> queue_ok (c_sig (lucas_signals_try_deliver c r).1.1).
Proof.
  intros H. unfold lucas_signals_try_deliver. destruct (in_signal_handler _); [done|]. destruct (_ =? _)%nat; [done|].
  destruct (pick (c_sig c)) as [i|] eqn:Hp; [|done]. destruct (pick_Some _ _ H Hp) as (_ & _ & _ & _ & Hi & _).
  pose proof (compact_ok i _ H Hi) as [? ? ? ? ?]. destruct (copy_out (mk_client _ _) _ _) as [c1 ok1] eqn:E1. unfold copy_out in E1.
  injection E1 as E1 _. subst c1. cbn [fst snd c_sig]. destruct ok1; cbn [negb]; [|by constructor].
  destruct (copy_out _ _ _) as [c2 ok2] eqn:E2. unfold copy_out in E2. injection E2 as E2 _. subst c2. cbn [fst snd c_sig].
  destruct ok2; by constructor.
Qed.

(** ** The frame and the return *)

Lemma drop_slice m a n k : (k <= n)%nat -> drop k (slice m a n) = slice m (a + Z.of_nat k) (n - k).
Proof.
  intros H. replace n with (k + (n - k))%nat at 1 by lia. rewrite slice_app. rewrite drop_app_length' by (by rewrite length_slice). done.
Qed.

Lemma word_slice m a n k : (8 * k + 8 <= n)%nat -> word (slice m a n) k = le_val (slice m (a + 8 * Z.of_nat k) 8).
Proof.
  intros H. unfold word. rewrite drop_slice by lia. rewrite slice_0_take by lia. do 2 f_equal. lia.
Qed.

(** The words of a frame in memory, read from any place. *)
Lemma frame_word m a ws k w : slice m a (length (bytes_of ws)) = bytes_of ws -> ws !! k = Some w -> 0 <= w < 2 ^ 64 ->
  le_val (slice m (a + 8 * Z.of_nat k) 8) = w.
Proof.
  intros Hs Hk Hw. pose proof (lookup_lt_Some _ _ _ Hk) as Hl. rewrite <- (word_bytes_of ws k w Hk Hw), <- Hs.
  symmetry. apply word_slice. rewrite length_bytes_of. lia.
Qed.

Lemma probe_word v a d : in_range (a + d) FRAME_BYTES -> le_val (slice (vs_mem v) (a + d + 152) 8) <> LUCAS_SIGFRAME_MAGIC -> probe v a d = None.
Proof.
  intros Hr Hm. unfold probe. rewrite u64_small by (destruct Hr as (? & ? & ?); unfold FRAME_BYTES in *; lia).
  destruct (lucas_copy_from_client v (a + d) FRAME_BYTES) as [bs|] eqn:Hc; [|done].
  destruct (copy_from_some _ _ _ _ Hr Hc) as [_ ->]. rewrite word_slice by (unfold FRAME_BYTES; cbn; lia).
  rewrite (proj2 (Z.eqb_neq _ _)); [done|exact Hm].
Qed.

Definition words_ok (r : uregs) (mask : Z) : Prop := Forall (fun w => 0 <= w < 2 ^ 64) (frame_words r mask).

Lemma probe_hit v a r m : 0 <= a -> a + FRAME_BYTES <= 2 ^ 64 -> words_ok r m -> accessible v a FRAME_BYTES ->
  slice (vs_mem v) a (Z.to_nat FRAME_BYTES) = bytes_of (frame_words r m) -> probe v a 0 = Some (bytes_of (frame_words r m)).
Proof.
  intros H0 H1 Hw Ha Hs. unfold probe. rewrite Z.add_0_r. rewrite u64_small by (unfold FRAME_BYTES in *; lia).
  rewrite copy_from_ok by (done || (split; [|split]; unfold FRAME_BYTES in *; lia)). rewrite Hs.
  by rewrite (word_bytes_of _ 19 LUCAS_SIGFRAME_MAGIC).
Qed.

(** Seen from the frame itself, the two probes below it read [r15] and the mask in
    the place of the magic number. *)
Lemma find_the_frame v a r m : 16 <= a -> a + FRAME_BYTES <= 2 ^ 64 -> words_ok r m -> accessible v a FRAME_BYTES ->
  slice (vs_mem v) a (Z.to_nat FRAME_BYTES) = bytes_of (frame_words r m) ->
  r15 r <> LUCAS_SIGFRAME_MAGIC -> m <> LUCAS_SIGFRAME_MAGIC -> find_frame v a deltas = Some (bytes_of (frame_words r m)).
Proof.
  intros H0 H1 Hw Ha Hs Hr15 Hm. assert (Hwk : forall k w, frame_words r m !! k = Some w -> 0 <= w < 2 ^ 64) by (intros k w Hk; exact (Forall_lookup_1 _ _ k w Hw Hk)).
  assert (Hword : forall k w, frame_words r m !! k = Some w -> le_val (slice (vs_mem v) (a + 8 * Z.of_nat k) 8) = w).
  { intros k w Hk. eapply frame_word; [|exact Hk|by apply (Hwk k)]. by rewrite length_bytes_of. }
  change deltas with ((-16) :: (-8) :: 0 :: map (fun i => 8 * Z.of_nat i - 16) (seq 3 32)). cbn [find_frame].
  rewrite (probe_word v a (-16)); [|split; [|split]; unfold FRAME_BYTES in *; lia|].
  2: { replace (a + -16 + 152) with (a + 8 * Z.of_nat 17) by lia. by rewrite (Hword 17%nat (r15 r)). }
  rewrite (probe_word v a (-8)); [|split; [|split]; unfold FRAME_BYTES in *; lia|].
  2: { replace (a + -8 + 152) with (a + 8 * Z.of_nat 18) by lia. by rewrite (Hword 18%nat m). }
  by rewrite (probe_hit v a r m) by (done || lia).
Qed.

Lemma regs_of_frame r m : words_ok r m -> regs_of (bytes_of (frame_words r m)) = r /\ word (bytes_of (frame_words r m)) 18 = m.
Proof.
  intros Hw. assert (Hk : forall k w, frame_words r m !! k = Some w -> word (bytes_of (frame_words r m)) k = w).
  { intros k w E. apply word_bytes_of; [done|]. exact (Forall_lookup_1 _ _ k w Hw E). }
  split; [|by apply Hk]. unfold regs_of.
  rewrite (Hk 0%nat _ eq_refl), (Hk 1%nat _ eq_refl), (Hk 2%nat _ eq_refl), (Hk 3%nat _ eq_refl), (Hk 4%nat _ eq_refl), (Hk 5%nat _ eq_refl),
    (Hk 6%nat _ eq_refl), (Hk 7%nat _ eq_refl), (Hk 8%nat _ eq_refl), (Hk 9%nat _ eq_refl), (Hk 10%nat _ eq_refl), (Hk 11%nat _ eq_refl),
    (Hk 12%nat _ eq_refl), (Hk 13%nat _ eq_refl), (Hk 14%nat _ eq_refl), (Hk 15%nat _ eq_refl), (Hk 16%nat _ eq_refl), (Hk 17%nat _ eq_refl).
  by destruct r.
Qed.

Section deliver_and_return.
Context (c : client) (r : uregs) (i : nat).
Let s := c_sig c.
Let a := action s (pending_at s i).
Let base := handler_stack s (sa_flags a) (rsp r).
Let fa := frame_addr_of base.

Lemma delivered : queue_ok s -> in_signal_handler s = false -> pick s = Some i -> 512 <= base < 2 ^ 64 -> accessible (c_vs c) (fa - 8) 168 ->
  exists c1, lucas_signals_try_deliver c r = (c1, enter_handler (sa_handler a) (fa - 8) (pending_at s i) r, 1) /\
    slice (vs_mem (c_vs c1)) fa (Z.to_nat FRAME_BYTES) = bytes_of (frame_words r (signal_mask s)) /\
    slice (vs_mem (c_vs c1)) (fa - 8) 8 = le_bytes 8 (sa_restorer a) /\
    writes_within (c_vs c) (c_vs c1) (fa - 8) 168 /\ signal_mask (c_sig c1) = handler_mask s (pending_at s i).
Proof.
  intros Hok Hh Hp Hb Hacc. destruct (frame_place base Hb) as (Hlo & Hhi & _). fold fa in Hlo, Hhi. unfold FRAME_BYTES in *.
  destruct (pick_Some _ _ Hok Hp) as (_ & _ & _ & _ & Hi & _).
  assert (Hlen : Z.of_nat (length (bytes_of (frame_words r (signal_mask s)))) = 160) by (rewrite length_bytes_of; done).
  assert (Hl8 : Z.of_nat (length (le_bytes 8 (sa_restorer a))) = 8) by (rewrite length_le_bytes; done).
  set (fb := bytes_of (frame_words r (signal_mask s))) in *. set (rb := le_bytes 8 (sa_restorer a)) in *.
  assert (R1 : in_range fa (Z.of_nat (length fb))) by (rewrite Hlen; split; [|split]; lia).
  assert (A1 : accessible (c_vs c) fa (Z.of_nat (length fb))) by (rewrite Hlen; intros x Hx; apply Hacc; lia).
  destruct (copy_to_ok (c_vs c) fa fb R1 A1) as [Ok1 S1]. destruct (copy_to_frame (c_vs c) fa fb R1) as (F1 & D1 & M1).
  set (v1 := (lucas_copy_to_client (c_vs c) fa fb).1) in *.
  assert (R2 : in_range (fa - 8) (Z.of_nat (length rb))) by (rewrite Hl8; split; [|split]; lia).
  assert (A2 : accessible v1 (fa - 8) (Z.of_nat (length rb))).
  { rewrite Hl8. intros x Hx. unfold page_ok. rewrite F1, D1. apply Hacc. lia. }
  destruct (copy_to_ok v1 (fa - 8) rb R2 A2) as [Ok2 S2]. destruct (copy_to_frame v1 (fa - 8) rb R2) as (F2 & D2 & M2).
  rewrite Hlen in M1. rewrite Hl8 in M2.
  eexists. split; [|split; [|split; [|split]]]; cycle 1.
  - instantiate (1 := mk_client (set_in_handler true (set_mask (handler_mask s (pending_at s i)) (compact i s))) (lucas_copy_to_client v1 (fa - 8) rb).1).
    cbn [c_vs]. rewrite <- S1 at 1. replace (length fb) with (Z.to_nat 160) by lia.
    apply slice_ext. intros o Ho. apply M2. lia.
  - cbn [c_vs]. transitivity (slice (vs_mem (lucas_copy_to_client v1 (fa - 8) rb).1) (fa - 8) (length rb)); [f_equal; lia|exact S2].
  - cbn [c_vs]. split; [by rewrite F2|]. split; [by rewrite D2|]. intros o Ho. rewrite M2 by lia. apply M1. lia.
  - done.
  - unfold lucas_signals_try_deliver. fold s. rewrite Hh. rewrite (proj2 (Nat.eqb_neq _ _)) by lia. rewrite Hp. cbv zeta.
    change (handler_stack (compact i s) (sa_flags (action s (pending_at s i))) (rsp r)) with base. fold fa.
    change (signal_mask (compact i s)) with (signal_mask s). fold a. fold fb. unfold copy_out. cbn [c_sig c_vs fst snd]. fold v1.
    rewrite Ok1. cbn [negb]. rewrite (u64_small (fa - 8)) by lia. fold rb. rewrite Ok2. done.
Qed.
End deliver_and_return.

(** The handler ran: the memory of the frame is as the delivery left it. *)
Definition frame_kept (v v' : vspace) (a n : Z) : Prop :=
  forall x, a <= x < a + n -> vs_mem v' x = vs_mem v x /\ page_ok v' (page_base x) = page_ok v (page_base x).

(** C22: a signal handler is transparent.  A pending signal with a handler, a stack with
    room and mapped pages: the signal is delivered, 168 bytes below the red zone are
    written and the handler is entered with the signal as its argument.  Whatever the
    handler does to its registers, its signal state and its memory outside the frame,
    the rt_sigreturn made at the stack pointer that its return leaves restores every
    register, with rcx and r11 as the interrupted call would have left them, and the
    mask; for registers in which neither r15 nor the mask is the magic number. *)
Theorem handler_transparent c r i : let s := c_sig c in let sig := pending_at s i in
  let fa := frame_addr_of (handler_stack s (sa_flags (action s sig)) (rsp r)) in
  queue_ok s -> in_signal_handler s = false -> pick s = Some i ->
  512 <= handler_stack s (sa_flags (action s sig)) (rsp r) < 2 ^ 64 -> accessible (c_vs c) (fa - 8) 168 ->
  words_ok r (signal_mask s) -> r15 r <> LUCAS_SIGFRAME_MAGIC -> signal_mask s <> LUCAS_SIGFRAME_MAGIC ->
  exists c1 r1, lucas_signals_try_deliver c r = (c1, r1, 1) /\ rip r1 = sa_handler (action s sig) /\ rdi r1 = sig /\
    writes_within (c_vs c) (c_vs c1) (fa - 8) 168 /\ slice (vs_mem (c_vs c1)) (rsp r1) 8 = le_bytes 8 (sa_restorer (action s sig)) /\
    forall c2 r2, frame_kept (c_vs c1) (c_vs c2) fa FRAME_BYTES -> rsp r2 = rsp r1 + 8 ->
      let x := lucas_sys_rt_sigreturn c2 r2 in
      x.2 = mirror r /\ signal_mask (c_sig x.1) = signal_mask s /\ in_signal_handler (c_sig x.1) = false.
Proof.
  intros s sig fa Hok Hh Hp Hb Hacc Hw H15 Hm. destruct (delivered c r i Hok Hh Hp Hb Hacc) as (c1 & He & Hs & Hr & Hwr & _).
  destruct (frame_place _ Hb) as (Hlo & Hhi & _). fold s in Hlo, Hhi, He, Hs, Hr, Hwr. fold sig in Hlo, Hhi, He, Hs, Hr, Hwr.
  fold fa in Hlo, Hhi, He, Hs, Hr, Hwr. unfold FRAME_BYTES in *.
  assert (H16 : 16 <= fa /\ fa + 160 <= 2 ^ 64) by lia. clearbody fa.
  eexists c1, _. split; [exact He|]. split; [done|]. split; [done|]. split; [exact Hwr|]. split; [exact Hr|].
  intros c2 r2 Hk Hrsp. change (rsp r2 = fa - 8 + 8) in Hrsp.
  assert (Hf : find_frame (c_vs c2) (rsp r2) deltas = Some (bytes_of (frame_words r (signal_mask s)))).
  { rewrite Hrsp. replace (fa - 8 + 8) with fa by lia. destruct Hwr as (F & D & _). apply find_the_frame; unfold FRAME_BYTES; try done; try lia.
    - intros x Hx. destruct (Hk x Hx) as [_ ->]. unfold page_ok. rewrite F, D. apply Hacc. lia.
    - rewrite <- Hs. apply slice_ext. intros o Ho. apply Hk. lia. }
  unfold lucas_sys_rt_sigreturn, lucas_signals_rt_sigreturn. rewrite Hf. destruct (regs_of_frame r _ Hw) as [Hreg Hmask].
  cbn [fst snd].
  split; [by rewrite Hreg|]. split; [exact Hmask|done].
Qed.

(** A client with a handler for SIGWINCH at 0x400100, one page of stack, and the
    signal pending. *)
Definition demo_vs : vspace := mk_vspace (fun _ => 0) (fun b => b =? 0x7000) (fun _ => true).
Definition demo_client : client :=
  mk_client (lucas_signals_queue_pending 28 (put_action 28 (mk_action 0x400100 0x04000000 0x400200 0) zero_sigstate)) demo_vs.
Definition demo_regs : uregs := mk_uregs 0x400010 0x7f00 0x202 (2 ^ 64 - 4) 1 2 3 4 5 6 7 8 9 10 11 12 13 14.

Lemma zero_queue_ok : queue_ok zero_sigstate.
Proof. constructor; [done|done|by vm_compute; lia|by apply NoDup_nil|by apply Forall_nil]. Qed.

Lemma demo_queue_ok : queue_ok (c_sig demo_client).
Proof.
  apply queue_pending_ok. destruct zero_queue_ok as [? ? ? ? ?]. constructor; [|done|done|done|done].
  cbn. by rewrite length_insert.
Qed.

Lemma handler_transparent_witness :
  exists c1 r1, lucas_signals_try_deliver demo_client demo_regs = (c1, r1, 1) /\ rip r1 = 0x400100 /\ rdi r1 = 28 /\
    writes_within demo_vs (c_vs c1) (frame_addr_of 0x7f00 - 8) 168 /\ slice (vs_mem (c_vs c1)) (rsp r1) 8 = le_bytes 8 0x400200 /\
    forall c2 r2, frame_kept (c_vs c1) (c_vs c2) (frame_addr_of 0x7f00) FRAME_BYTES -> rsp r2 = rsp r1 + 8 ->
      let x := lucas_sys_rt_sigreturn c2 r2 in
      x.2 = mirror demo_regs /\ signal_mask (c_sig x.1) = 0 /\ in_signal_handler (c_sig x.1) = false.
Proof.
  apply (handler_transparent demo_client demo_regs 0).
  - apply demo_queue_ok.
  - done.
  - by vm_compute.
  - by vm_compute.
  - intros x Hx. assert (E : page_base x = 0x7000); [|rewrite E; by vm_compute].
    apply (page_base_same 0x7000). change (page_base 0x7000) with 0x7000. unfold PAGE.
    change (0x7dc8 <= x < 0x7dc8 + 168) in Hx. lia.
  - repeat (constructor; [by vm_compute|]). constructor.
  - by vm_compute.
  - by vm_compute.
Defined.

(** ** Invariants *)

(** What a client and the orchestrator may do; [honest] clients return from handlers
    only through frames whose mask leaves the two signals alone. *)
Inductive sig_step (honest : bool) : client -> client -> Prop :=
  | st_sigaction sig act oact n c : sig_step honest c (lucas_sys_rt_sigaction sig act oact n c).1
  | st_sigprocmask how set oset n c : sig_step honest c (lucas_sys_rt_sigprocmask how set oset n c).1
  | st_sigaltstack ss oss c : sig_step honest c (lucas_sys_sigaltstack ss oss c).1
  | st_queue sig c : sig_step honest c (with_sig (lucas_signals_queue_pending sig) c)
  | st_syscall r c : sig_step honest c (syscall_return c r).1
  | st_eintr r c : sig_step honest c (eintr_return c r).1
  | st_sigreturn r c :
      (honest = true -> forall bs, find_frame (c_vs c) (rsp r) deltas = Some bs -> Z.land (word bs 18) unblockable = 0) ->
      sig_step honest c (lucas_sys_rt_sigreturn c r).1
  | st_memory v c : sig_step honest c (mk_client (c_sig c) v)
  | st_exit c : sig_step honest c (exit_signals c).

Inductive sig_reach (honest : bool) : client -> Prop :=
  | sr_start v : sig_reach honest (mk_client zero_sigstate v)
  | sr_step c c' : sig_reach honest c -> sig_step honest c c' -> sig_reach honest c'.

Definition mask_ok (m : Z) : Prop := Z.land m unblockable = 0.

Record sig_inv (s : sigstate) : Prop := {
  si_queue : queue_ok s;
  si_kill : action s 9 = zero_action;
  si_stop : action s 19 = zero_action;
  si_reset : Forall (fun a => sa_handler a = LUCAS_SIG_DFL -> a = zero_action) (actions s);
  si_alt : sigaltstack_sp s = 0 \/ LUCAS_MINSIGSTKSZ <= sigaltstack_size s
}.

(** Operations that touch neither the actions nor the queue. *)
Lemma inv_eq s s' : sig_inv s -> actions s' = actions s -> pending_signals s' = pending_signals s -> n_pending s' = n_pending s ->
  sigaltstack_sp s' = sigaltstack_sp s -> sigaltstack_size s' = sigaltstack_size s -> sig_inv s'.
Proof. intros [[] ? ? ? ?] Ha Hp Hn Hs Hz. destruct s, s'. cbn in *. subst. repeat (constructor; try done). Qed.

Lemma mask_ok_without m b : mask_ok m -> mask_ok (without m b).
Proof.
  unfold mask_ok, without. intros H. rewrite Z.ldiff_land, <- Z.land_assoc, (Z.land_comm (Z.lnot b)), Z.land_assoc, H. apply Z.land_0_l.
Qed.

Lemma without_ok m : mask_ok (without m unblockable).
Proof. apply Z.land_ldiff. Qed.

Lemma mask_ok_lor m k : mask_ok m -> mask_ok k -> mask_ok (Z.lor m k).
Proof. unfold mask_ok. intros H1 H2. by rewrite Z.land_lor_distr_l, H1, H2. Qed.

Lemma new_mask_ok how m i m' : mask_ok m -> new_mask how m i = Some m' -> mask_ok m'.
Proof.
  intros H. unfold new_mask. destruct (_ =? _); [intros [= <-]; apply mask_ok_lor; [done|apply without_ok]|].
  destruct (_ =? _); [intros [= <-]; by apply mask_ok_without|]. destruct (_ =? _); [intros [= <-]; apply without_ok|done].
Qed.

Lemma copy_old_sig c a bs : c_sig (copy_old c a bs).1 = c_sig c.
Proof. unfold copy_old. by destruct (a =? 0). Qed.

Lemma put_action_inv sig a s : 1 <= sig <= 64 -> sig <> 9 -> sig <> 19 -> sig_inv s -> sig_inv (put_action sig (settled_action a) s).
Proof.
  intros Hs H9 H19 [[Ha Hl Hn Hd Hv] Hk Ht Hr Hz]. assert (Hlt : (Z.to_nat (sig - 1) < length (actions s))%nat) by (rewrite Ha; lia).
  assert (Hne : forall k, 1 <= k -> sig <> k -> action (put_action sig (settled_action a) s) k = action s k).
  { intros k Hk1 Hk2. unfold action. cbn [put_action set_actions actions]. rewrite array_get_insert by done. rewrite decide_False by lia. done. }
  constructor; [constructor; try done; cbn; by rewrite length_insert|by rewrite Hne by lia|by rewrite Hne by lia| |done].
  cbn [put_action set_actions actions]. apply Forall_insert; [done|]. unfold settled_action, LUCAS_SIG_DFL.
  destruct (Z.eqb_spec (sa_handler a) 0) as [E|E]; cbn; [by rewrite E|done].
Qed.

Lemma deliver_frame c r : let s' := c_sig (lucas_signals_try_deliver c r).1.1 in
  actions s' = actions (c_sig c) /\ sigaltstack_sp s' = sigaltstack_sp (c_sig c) /\ sigaltstack_size s' = sigaltstack_size (c_sig c) /\
  (mask_ok (signal_mask (c_sig c)) -> mask_ok (signal_mask s')).
Proof.
  unfold lucas_signals_try_deliver. destruct (in_signal_handler _); [done|]. destruct (_ =? _)%nat; [done|].
  destruct (pick (c_sig c)) as [i|]; [|done]. cbv zeta. destruct (negb _); [done|]. destruct (negb _); [done|].
  split; [done|]. split; [done|]. split; [done|]. intros _. apply without_ok.
Qed.

Lemma deliver_inv c r : sig_inv (c_sig c) -> sig_inv (c_sig (lucas_signals_try_deliver c r).1.1).
Proof.
  intros [Hq Hk Ht Hr Hz]. destruct (deliver_frame c r) as (Ha & Hs & Hy & _). constructor.
  - by apply deliver_ok.
  - unfold action. by rewrite Ha.
  - unfold action. by rewrite Ha.
  - by rewrite Ha.
  - by rewrite Hs, Hy.
Qed.

Lemma queue_inv sig s : sig_inv s -> sig_inv (lucas_signals_queue_pending sig s).
Proof.
  intros [Hq Hk Ht Hr Hz]. pose proof (queue_pending_ok sig s Hq) as Hq'. revert Hq'. unfold lucas_signals_queue_pending.
  destruct (_ || _); [by constructor|]. destruct (existsb _ _); [by constructor|]. destruct (_ <=? _)%nat; by constructor.
Qed.

Lemma zero_inv : sig_inv zero_sigstate.
Proof. constructor; [apply zero_queue_ok|done|done|by apply Forall_replicate|by left]. Qed.

(** The three calls, by what they do to the signal state. *)
Lemma sigaction_cases sig act oact n c : let x := lucas_signals_rt_sigaction sig act oact n c in
  c_sig x.1 = c_sig c \/ 1 <= sig <= 64 /\ sig <> 9 /\ sig <> 19 /\ exists a, c_sig x.1 = put_action sig (settled_action a) (c_sig c).
Proof.
  unfold lucas_signals_rt_sigaction. destruct ((sig <? 1) || (sig >? 64)) eqn:E1; [by left|]. destruct ((sig =? 9) || (sig =? 19)) eqn:E2; [by left|].
  destruct (negb (n =? 8)); [by left|]. cbv zeta. set (r := copy_old c oact _). pose proof (copy_old_sig c oact _ : c_sig r.1 = c_sig c) as Hc.
  destruct (negb r.2); [by left|]. destruct (act =? 0); [by left|]. destruct (lucas_copy_from_client _ _ _) as [bs|]; [|by left].
  right. apply orb_false_iff in E1 as [E1 E1']. apply orb_false_iff in E2 as [E2 E2']. rewrite Z.gtb_ltb in E1'.
  split; [lia|]. split; [lia|]. split; [lia|]. exists (action_of bs). cbn [fst with_sig c_sig]. by rewrite Hc.
Qed.

Lemma sigprocmask_cases how set oset n c : let x := lucas_signals_rt_sigprocmask how set oset n c in
  c_sig x.1 = c_sig c \/ exists i m, new_mask how (signal_mask (c_sig c)) i = Some m /\ c_sig x.1 = set_mask m (c_sig c).
Proof.
  unfold lucas_signals_rt_sigprocmask. destruct (negb (n =? 8)); [by left|]. cbv zeta. set (r := copy_old c oset _).
  pose proof (copy_old_sig c oset _ : c_sig r.1 = c_sig c) as Hc. destruct (negb r.2); [by left|]. destruct (set =? 0); [by left|].
  destruct (lucas_copy_from_client _ _ _) as [bs|]; [|by left]. destruct (new_mask _ _ _) as [m|] eqn:E; [|by left].
  right. exists (le_val bs), m. split; [done|]. cbn [fst with_sig c_sig]. by rewrite Hc.
Qed.

Lemma sigaltstack_cases ss oss c : let x := lucas_signals_sigaltstack ss oss c in
  c_sig x.1 = c_sig c \/ exists sp size, c_sig x.1 = set_altstack sp size (c_sig c) /\ (sp = 0 \/ LUCAS_MINSIGSTKSZ <= size).
Proof.
  unfold lucas_signals_sigaltstack. cbv zeta. set (r := copy_old c oss _).
  pose proof (copy_old_sig c oss _ : c_sig r.1 = c_sig c) as Hc. destruct (negb r.2); [by left|]. destruct (ss =? 0); [by left|].
  destruct (lucas_copy_from_client _ _ _) as [bs|]; [|by left]. destruct (Z.testbit _ _).
  - right. exists 0, 0. cbn [fst with_sig c_sig]. rewrite Hc. auto.
  - destruct (Z.ltb_spec (word bs 2) LUCAS_MINSIGSTKSZ); [by left|]. right. exists (word bs 0), (word bs 2). cbn [fst with_sig c_sig]. rewrite Hc. auto.
Qed.

Lemma sig_step_inv h c c' : sig_step h c c' -> sig_inv (c_sig c) -> sig_inv (c_sig c').
Proof.
  intros Hs Hi. destruct Hs.
  - destruct (sigaction_cases (i32 sig) act oact n c) as [E|(H1 & H2 & H3 & a & E)]; unfold lucas_sys_rt_sigaction; rewrite E; [done|]. by apply put_action_inv.
  - destruct (sigprocmask_cases (i32 how) set oset n c) as [E|(i & m & _ & E)]; unfold lucas_sys_rt_sigprocmask; rewrite E; [done|]. by eapply inv_eq.
  - destruct (sigaltstack_cases ss oss c) as [E|(sp & size & E & Ha)]; unfold lucas_sys_sigaltstack; rewrite E; [done|].
    destruct Hi as [[] ? ? ? _]. constructor; [by constructor|done|done|done|exact Ha].
  - by apply queue_inv.
  - unfold syscall_return. destruct (_ <? _)%nat; [|done]. by apply deliver_inv.
  - unfold eintr_return. destruct (_ <? _)%nat; [|done]. by apply deliver_inv.
  - unfold lucas_sys_rt_sigreturn, lucas_signals_rt_sigreturn. destruct (find_frame _ _ _); by eapply inv_eq.
  - done.
  - apply zero_inv.
Qed.

Lemma step_mask c c' : sig_step true c c' -> mask_ok (signal_mask (c_sig c)) -> mask_ok (signal_mask (c_sig c')).
Proof.
  intros Hs Hm. destruct Hs as [sig act oact n c|how set oset n c|ss oss c|sig c|r c|r c|r c Hh|v c|c].
  - destruct (sigaction_cases (i32 sig) act oact n c) as [E|(_ & _ & _ & a & E)]; unfold lucas_sys_rt_sigaction; by rewrite E.
  - destruct (sigprocmask_cases (i32 how) set oset n c) as [E|(i & m & En & E)]; unfold lucas_sys_rt_sigprocmask; rewrite E; [done|]. by eapply new_mask_ok.
  - destruct (sigaltstack_cases ss oss c) as [E|(sp & size & E & _)]; unfold lucas_sys_sigaltstack; by rewrite E.
  - cbn [with_sig c_sig]. unfold lucas_signals_queue_pending. destruct (_ || _); [done|]. destruct (existsb _ _); [done|]. by destruct (_ <=? _)%nat.
  - unfold syscall_return. destruct (_ <? _)%nat; [|done]. by apply deliver_frame.
  - unfold eintr_return. destruct (_ <? _)%nat; [|done]. by apply deliver_frame.
  - unfold lucas_sys_rt_sigreturn, lucas_signals_rt_sigreturn. destruct (find_frame (c_vs c) (rsp r) deltas) as [bs|]; [|done]. by apply (Hh eq_refl bs).
  - done.
  - done.
Qed.

(** In every reachable state at most eight signals are pending, each once and each
    between 1 and 64; SIGKILL and SIGSTOP have the default disposition; a signal
    reset to the default keeps nothing of its old action; an alternate stack has at
    least 2048 bytes; and, as long as no handler returns through a frame with another
    mask, SIGKILL and SIGSTOP are not blocked. *)
Theorem signals_invariant h c : sig_reach h c -> sig_inv (c_sig c) /\ (h = true -> mask_ok (signal_mask (c_sig c))).
Proof.
  induction 1 as [v|c c' _ [IH1 IH2] Hs]; [split; [apply zero_inv|done]|]. split; [by eapply sig_step_inv|].
  intros ->. eapply step_mask; [done|by apply IH2].
Qed.

Lemma signals_invariant_witness :
  sig_inv (c_sig (syscall_return demo_client demo_regs).1) /\ (true = true -> mask_ok (signal_mask (c_sig (syscall_return demo_client demo_regs).1))).
Proof.
  apply (signals_invariant true). eapply sr_step; [|apply st_syscall].
  set (c0 := mk_client (put_action 28 (mk_action 0x400100 0x04000000 0x400200 0) zero_sigstate) demo_vs).
  apply (sr_step true c0 demo_client); [|apply (st_queue true 28 c0)].
  set (m := fun o => (le_bytes 8 0x400100 ++ le_bytes 8 0x04000000 ++ le_bytes 8 0x400200).[Z.to_nat (o - 0x7000), 0]).
  set (v := mk_vspace m (fun b => b =? 0x7000) (fun _ => true)).
  apply (sr_step true (mk_client (c_sig c0) v) c0); [|apply st_memory].
  apply (sr_step true (mk_client zero_sigstate v)); [apply sr_start|].
  apply (st_sigaction true 28 0x7000 0 8 (mk_client zero_sigstate v)).
Defined.

(** ** What is not as the comments say *)

(** The mask comes back from client memory as it is: a frame made by the client blocks
    SIGKILL. *)
Definition forged_frame : list Z := bytes_of (frame_words demo_regs (sigmask_bit 9)).
Definition forged_vs : vspace := mk_vspace (overlay (fun _ => 0) 0x7100 forged_frame) (fun b => b =? 0x7000) (fun _ => true).

Example forged_frame_blocks_kill :
  let c := (lucas_sys_rt_sigreturn (mk_client zero_sigstate forged_vs)
              (mk_uregs 0 0x7100 0 0 0 0 0 0 0 0 0 0 0 0 0 0 0 0)).1 in
  signal_mask (c_sig c) = sigmask_bit 9.
Proof. by vm_compute. Qed.

(** A pending signal without a handler is passed over, not dropped: eight of them
    fill the queue, and from then on no other signal reaches its handler. *)
Lemma ignored_signals_stay s sig : queue_ok s -> n_pending s = PENDING_MAX -> Forall (fun x => deliverable s x = false) (squeue s) ->
  sig ∉ squeue s -> lucas_signals_queue_pending sig s = s /\ forall v r, lucas_signals_try_deliver (mk_client s v) r = (mk_client s v, r, 0).
Proof.
  intros H Hn Hf Hs. split.
  - unfold lucas_signals_queue_pending. destruct (_ || _); [done|]. destruct (existsb _ _); [done|]. by rewrite Hn.
  - intros v r. unfold lucas_signals_try_deliver. cbn [c_sig]. destruct (in_signal_handler s); [done|]. rewrite Hn. cbn [Nat.eqb PENDING_MAX].
    destruct (pick s) as [i|] eqn:Hp; [|done]. destruct (pick_Some _ _ H Hp) as (l1 & l2 & Hq & _ & _ & Hd & _).
    rewrite Hq in Hf. apply Forall_app in Hf as [_ [Hf _]%Forall_cons]. congruence.
Qed.

(** SIGWINCH, with its handler, comes too late. *)
Definition full_queue : sigstate :=
  fold_left (fun s sig => lucas_signals_queue_pending sig s) [1; 2; 3; 10; 12; 13; 14; 15]
    (put_action 28 (mk_action 0x400100 0x04000000 0x400200 0) zero_sigstate).

Example winch_never_delivered : (28 ∉ squeue (lucas_signals_queue_pending 28 full_queue)) /\
  (lucas_signals_try_deliver (mk_client (lucas_signals_queue_pending 28 full_queue) demo_vs) demo_regs).2 = 0.
Proof.
  split; [|by vm_compute]. replace (squeue (lucas_signals_queue_pending 28 full_queue)) with [1; 2; 3; 10; 12; 13; 14; 15]; [|by vm_compute].
  intros H. repeat (apply elem_of_cons in H as [H|H]; [done|]). by apply elem_of_nil in H.
Qed.

(** A frame that cannot be written costs the signal. *)
Example unwritable_stack_loses_signal :
  let x := lucas_signals_try_deliver (mk_client (c_sig demo_client) (mk_vspace (fun _ => 0) (fun _ => false) (fun _ => true))) demo_regs in
  x.2 = 0 /\ squeue (c_sig x.1.1) = [] /\ squeue (c_sig demo_client) = [28].
Proof. by vm_compute. Qed.
