(* ===== verification/ShmPool.v ===== *)
(** * Shared-memory pools of the Wayland path

    src/orch/shm_pool.c: four pools of page frames, each frame with a read-only copy of
    its capability for the compositor, allocated and grown by ftruncate, fallocate and
    mmap of a memfd, reference counted by the wl_shm_pool and wl_buffer objects whose
    requests pass through.

    The capabilities come from the allocator of the kernel libraries, which is not part
    of the repository: [kobj] has the set of capabilities that were handed out and not
    given back, the next identifier, and which of the coming calls fail ([k_fail]; a
    call past its end succeeds).  Unmapping has no effect on the set.  A page mapped
    with [sel4utils_map_page] may need paging structures, which are allocated too:
    [k_paging] says how many each coming mapping leaves behind (none past its end).  The
    array the source receives them in is a local that goes out of scope, so nothing can
    give them back; [k_dropped] records them and is read by no operation.  The paging structures and
    reservations of a mapping in a guest belong to the address space object of that guest and are
    not counted. *)

From S2P Require Import Prelude.

Definition PAGE_4K : Z := 4096.
Definition ORCH_SHM_MAX_POOLS : nat := 4.
Definition ORCH_SHM_MAX_FRAMES : Z := 1024.
Definition SHM_BUF_WIRE_MAX : nat := 8.

Record kobj := mk_kobj { k_live : gset Z; k_next : Z; k_fail : list bool; k_paging : list nat; k_dropped : gset Z }.

(** Whether the next call fails. *)
Definition ask (k : kobj) : bool * kobj :=
  match k_fail k with
  | [] => (false, k)
  | b :: bs => (b, mk_kobj (k_live k) (k_next k) bs (k_paging k) (k_dropped k))
  end.

Definition new_cap (k : kobj) : Z * kobj :=
  (k_next k, mk_kobj ({[k_next k]} ∪ k_live k) (k_next k + 1) (k_fail k) (k_paging k) (k_dropped k)).

Definition free_cap (c : Z) (k : kobj) : kobj := mk_kobj (k_live k ∖ {[c]}) (k_next k) (k_fail k) (k_paging k) (k_dropped k).
Definition free_caps (cs : list Z) (k : kobj) : kobj := fold_left (fun k c => free_cap c k) cs k.

(** One capability handed out and dropped; [sel4utils_map_page] of one page with its local
    [paging] array. *)
Definition drop_cap (k : kobj) : kobj :=
  mk_kobj ({[k_next k]} ∪ k_live k) (k_next k + 1) (k_fail k) (k_paging k) ({[k_next k]} ∪ k_dropped k).
Definition map_page (k : kobj) : bool * kobj :=
  let n := match k_paging k with [] => O | n :: _ => n end in
  let k := Nat.iter n drop_cap (mk_kobj (k_live k) (k_next k) (k_fail k) (tail (k_paging k)) (k_dropped k)) in
  let (bad, k) := ask k in (negb bad, k).

Record shm_pool := mk_pool {
  used : bool;
  refcount : Z;
  p_owner : Z;
  p_size : Z;
  nframes : Z;
  frames : list Z;
  copies : list Z;
  gmap_at : option (Z * Z);  (** [gvs] and [gbase] while [gmapped] *)
  cmap_at : option (Z * Z);  (** [cpd] and [cbase] while [cmapped] *)
  owner_has_conn : bool;
  conn_fd : Z;
  pool_wire_id : Z;
  buf_wire_ids : list Z
}.

Definition zero_pool : shm_pool :=
  mk_pool false 0 0 0 0 [] [] None None false 0 0 (replicate SHM_BUF_WIRE_MAX 0).

Record shm := mk_shm { g_pools : list shm_pool; g_k : kobj }.

Definition empty_shm : shm := mk_shm (replicate ORCH_SHM_MAX_POOLS zero_pool) (mk_kobj ∅ 0 [] [] ∅).

Definition pool_at (s : shm) (i : nat) : shm_pool := (g_pools s).[i, zero_pool].
Definition put_pool (i : nat) (p : shm_pool) (s : shm) : shm := mk_shm (<[i := p]> (g_pools s)) (g_k s).
Definition set_k (k : kobj) (s : shm) : shm := mk_shm (g_pools s) k.

Definition set_refs (n : Z) (wire : Z) (bufs : list Z) (p : shm_pool) : shm_pool :=
  mk_pool (used p) n (p_owner p) (p_size p) (nframes p) (frames p) (copies p) (gmap_at p) (cmap_at p)
    (owner_has_conn p) (conn_fd p) wire bufs.
Definition set_pool_size (size n : Z) (fs cs : list Z) (p : shm_pool) : shm_pool :=
  mk_pool (used p) (refcount p) (p_owner p) size n fs cs (gmap_at p) (cmap_at p) (owner_has_conn p) (conn_fd p) (pool_wire_id p) (buf_wire_ids p).
Definition set_maps (g c : option (Z * Z)) (p : shm_pool) : shm_pool :=
  mk_pool (used p) (refcount p) (p_owner p) (p_size p) (nframes p) (frames p) (copies p) g c (owner_has_conn p) (conn_fd p) (pool_wire_id p) (buf_wire_ids p).

(** [id < 0 || id >= ORCH_SHM_MAX_POOLS || !used]. *)
Definition live_id (id : Z) (s : shm) : option nat :=
  if (0 <=? id) && (id <? Z.of_nat ORCH_SHM_MAX_POOLS) && used (pool_at s (Z.to_nat id)) then Some (Z.to_nat id) else None.

Definition frames_for (size : Z) : Z := u64 (size + PAGE_4K - 1) / PAGE_4K.

(** A frame and a copy of its capability, [n] times; on a failure everything made in
    this call is given back. *)
Fixpoint alloc_loop (n : nat) (fs cs : list Z) (k : kobj) : option (list Z * list Z) * kobj :=
  match n with
  | O => (Some (fs, cs), k)
  | S n =>
      let (no_frame, k) := ask k in
      if no_frame then (None, free_caps (cs ++ fs) k)
      else
        let (f, k) := new_cap k in
        let (no_slot, k) := ask k in
        if no_slot then (None, free_caps (cs ++ fs) (free_cap f k))
        else
          let (no_copy, k) := ask k in
          if no_copy then (None, free_caps (cs ++ fs) (free_cap f k))
          else
            let (c, k) := new_cap k in
            alloc_loop n (fs ++ [f]) (cs ++ [c]) k
  end.

Definition orch_shm_pool_alloc (size owner : Z) (s : shm) : shm * Z :=
  if size =? 0 then (s, -1)
  else
    let n := frames_for size in
    if n >? ORCH_SHM_MAX_FRAMES then (s, -1)
    else
      match first_below (fun i => negb (used (pool_at s i))) ORCH_SHM_MAX_POOLS with
      | None => (s, -1)
      | Some id =>
          match alloc_loop (Z.to_nat n) [] [] (g_k s) with
          | (None, k) => (put_pool id zero_pool (set_k k s), -1)
          | (Some (fs, cs), k) =>
              (put_pool id (mk_pool true 1 owner size n fs cs None None false 0 0 (replicate SHM_BUF_WIRE_MAX 0)) (set_k k s), Z.of_nat id)
          end
      end.

(** Reserving and mapping the window again at its base. *)
Definition remap (k : kobj) : bool * kobj :=
  let (no_range, k) := ask k in
  if no_range then (false, k) else let (no_map, k) := ask k in (negb no_map, k).

(** The new copies in the compositor, one by one; errors are ignored. *)
Definition extend_compositor (n : nat) (k : kobj) : kobj := Nat.iter n (fun k => (map_page k).2) k.

Definition orch_shm_pool_grow (id new_size : Z) (s : shm) : shm * Z :=
  match live_id id s with
  | None => (s, -1)
  | Some i =>
      let p := pool_at s i in
      let need := frames_for new_size in
      if need <=? nframes p then
        (if new_size >? p_size p then put_pool i (set_pool_size new_size (nframes p) (frames p) (copies p) p) s else s, 0)
      else if need >? ORCH_SHM_MAX_FRAMES then (s, -1)
      else
        match alloc_loop (Z.to_nat (need - nframes p)) [] [] (g_k s) with
        | (None, k) => (set_k k s, -1)
        | (Some (fs, cs), k) =>
            let (ok, k) := match gmap_at p with Some _ => remap k | None => (true, k) end in
            if ok then
              let k := match cmap_at p with Some _ => extend_compositor (Z.to_nat (need - nframes p)) k | None => k end in
              (put_pool i (set_pool_size new_size need (frames p ++ fs) (copies p ++ cs) p) (set_k k s), 0)
            else (put_pool i (set_maps None (cmap_at p) p) (set_k (free_caps (cs ++ fs) k) s), -1)
        end
  end.

(** The address, 0 for a failure; an address space is a positive number, 0 for NULL. *)
Definition orch_shm_pool_map_guest (id gv base want_size : Z) (s : shm) : shm * Z :=
  match live_id id s with
  | None => (s, 0)
  | Some i =>
      if gv =? 0 then (s, 0)
      else
        let (s, rc) := if frames_for want_size >? nframes (pool_at s i) then orch_shm_pool_grow id want_size s else (s, 0) in
        if negb (rc =? 0) then (s, 0)
        else
          let p := pool_at s i in
          let fresh :=
            let base := u64 (base + id * ORCH_SHM_MAX_FRAMES * PAGE_4K) in
            let (ok, k) := remap (g_k s) in
            if ok then (put_pool i (set_maps (Some (gv, base)) (cmap_at p) p) (set_k k s), base) else (set_k k s, 0) in
          match gmap_at p with
          | Some (v, b) => if v =? gv then (s, b) else fresh
          | None => fresh
          end
  end.

(** One mapping per frame; the first that fails ends it. *)
Fixpoint map_loop (n : nat) (k : kobj) : bool * kobj :=
  match n with
  | O => (true, k)
  | S n => let (ok, k) := map_page k in if ok then map_loop n k else (false, k)
  end.

Definition orch_shm_pool_map_compositor (id comp_pd base : Z) (s : shm) : shm * Z :=
  match live_id id s with
  | None => (s, 0)
  | Some i =>
      if comp_pd =? 0 then (s, 0)
      else
        let p := pool_at s i in
        let base := u64 (base + id * ORCH_SHM_MAX_FRAMES * PAGE_4K) in
        let (ok, k) := map_loop (Z.to_nat (nframes p)) (g_k s) in
        if ok then (put_pool i (set_maps (gmap_at p) (Some (comp_pd, base)) p) (set_k k s), base) else (set_k k s, 0)
  end.

Definition orch_shm_pool_size (id : Z) (s : shm) : Z :=
  match live_id id s with Some i => p_size (pool_at s i) | None => 0 end.
Definition orch_shm_pool_nframes (id : Z) (s : shm) : Z :=
  match live_id id s with Some i => nframes (pool_at s i) | None => 0 end.

Definition orch_shm_pool_free (i : nat) (s : shm) : shm :=
  let p := pool_at s i in
  if used p then put_pool i zero_pool (set_k (free_caps (copies p ++ frames p) (g_k s)) s) else s.

Definition shm_unref (i : nat) (s : shm) : shm :=
  let p := pool_at s i in
  if used p then
    let n := if refcount p >? 0 then refcount p - 1 else refcount p in
    let s := put_pool i (set_refs n (pool_wire_id p) (buf_wire_ids p) p) s in
    if n <=? 0 then orch_shm_pool_free i s else s
  else s.

Definition orch_shm_pool_attach (id owner fd wire : Z) (s : shm) : shm :=
  match live_id id s with
  | None => s
  | Some i =>
      let p := pool_at s i in
      put_pool i (mk_pool (used p) (refcount p) owner (p_size p) (nframes p) (frames p) (copies p) (gmap_at p) (cmap_at p)
                    true fd wire (buf_wire_ids p)) s
  end.

Definition orch_shm_pool_free_owner (owner : Z) (s : shm) : shm :=
  fold_left (fun s i => if used (pool_at s i) && (p_owner (pool_at s i) =? owner) then orch_shm_pool_free i s else s)
    (seq 0 ORCH_SHM_MAX_POOLS) s.

(** Requests: opcode 0 of a pool creates a buffer, 1 destroys the pool; opcode 0 of a
    buffer destroys it. *)
Definition buf_index (p : shm_pool) (x : Z) : option nat :=
  first_below (fun b => (buf_wire_ids p).[b, 0] =? x) SHM_BUF_WIRE_MAX.

Definition pool_event (i : nat) (opcode new_id : Z) (s : shm) : shm :=
  let p := pool_at s i in
  if opcode =? 0 then
    match buf_index p 0 with
    | Some b => put_pool i (set_refs (refcount p + 1) (pool_wire_id p) (<[b := new_id]> (buf_wire_ids p)) p) s
    | None => s
    end
  else if opcode =? 1 then shm_unref i (put_pool i (set_refs (refcount p) 0 (buf_wire_ids p) p) s)
  else s.

Definition buffer_event (i b : nat) (opcode : Z) (s : shm) : shm :=
  let p := pool_at s i in
  if opcode =? 0 then shm_unref i (put_pool i (set_refs (refcount p) (pool_wire_id p) (<[b := 0]> (buf_wire_ids p)) p) s) else s.

Fixpoint wire_loop (ids : list nat) (owner fd obj opcode new_id : Z) (s : shm) : shm :=
  match ids with
  | [] => s
  | i :: ids =>
      let p := pool_at s i in
      if negb (used p) || negb (owner_has_conn p) || negb (p_owner p =? owner) || negb (conn_fd p =? fd)
      then wire_loop ids owner fd obj opcode new_id s
      else if negb (pool_wire_id p =? 0) && (pool_wire_id p =? obj) then pool_event i opcode new_id s
      else
        match buf_index p obj with
        | Some b => buffer_event i b opcode s
        | None => wire_loop ids owner fd obj opcode new_id s
        end
  end.

Definition orch_shm_pool_wire_event (owner fd obj opcode new_id : Z) (s : shm) : shm :=
  if obj =? 0 then s else wire_loop (seq 0 ORCH_SHM_MAX_POOLS) owner fd obj opcode new_id s.

(** ** The memfd *)

(** The fields of a descriptor; [m_pool_id] is -1 before the first size. *)
Record memfd := mk_memfd { m_pool_id : Z; m_pool_size : Z; m_guest_vaddr : Z }.

Definition zero_memfd : memfd := mk_memfd (-1) 0 0.

Definition LUCAS_SHM_POOL_BASE : Z := 0x200000000.

(** ftruncate and fallocate once the size is known. *)
Definition memfd_resize (size owner : Z) (m : memfd) (s : shm) : memfd * shm * Z :=
  if m_pool_id m >=? 0 then
    let (s, rc) := orch_shm_pool_grow (m_pool_id m) size s in
    if rc <? 0 then (m, s, -12)
    else (if size >? m_pool_size m then mk_memfd (m_pool_id m) size (m_guest_vaddr m) else m, s, 0)
  else
    let (s, id) := orch_shm_pool_alloc size owner s in
    if id <? 0 then (m, s, -12) else (mk_memfd id size (m_guest_vaddr m), s, 0).

Definition ftruncate_memfd (len owner : Z) : memfd -> shm -> memfd * shm * Z := memfd_resize len owner.

Definition fallocate_memfd (offset len owner : Z) : memfd -> shm -> memfd * shm * Z := memfd_resize (u64 (offset + len)) owner.

Definition mmap_memfd (vs len : Z) (m : memfd) (s : shm) : memfd * shm * Z :=
  if m_pool_id m <? 0 then (m, s, -22)
  else
    let (s, va) := orch_shm_pool_map_guest (m_pool_id m) vs LUCAS_SHM_POOL_BASE len s in
    if va =? 0 then (m, s, -12) else (mk_memfd (m_pool_id m) (m_pool_size m) va, s, va).

Definition close_memfd (m : memfd) : memfd := if m_pool_id m >=? 0 then mk_memfd (-1) (m_pool_size m) (m_guest_vaddr m) else m.
