(* ===== verification/ShmPoolTheorems.v ===== *)
(** * Shared-memory pools: which capabilities are outstanding, and what is not checked

    Through every sequence of calls and failures the outstanding capabilities are those of
    the pools in use, each in one pool, and the paging structures that mappings in the
    compositor dropped, which nothing gives back ([mapping_drops_paging]); the frames cover the size of a pool while no
    size wraps; and two ways around the life cycle: a size that wraps and an identifier that outlives its pool.
    The count of references is in ShmWireTheorems. *)

From S2P Require Import Prelude ShmPool.

(** ** The invariant *)

Definition caps (p : shm_pool) : list Z := copies p ++ frames p.

Definition holds_cap (s : shm) (i : nat) (x : Z) : Prop := used (pool_at s i) = true /\ x ∈ caps (pool_at s i).

Record shm_pool_ok (p : shm_pool) : Prop := {
  po_frames : Z.of_nat (length (frames p)) = nframes p;
  po_copies : Z.of_nat (length (copies p)) = nframes p;
  po_bound : nframes p <= ORCH_SHM_MAX_FRAMES;
  po_bufs : length (buf_wire_ids p) = SHM_BUF_WIRE_MAX
}.

Record shm_inv (s : shm) : Prop := {
  si_pools : length (g_pools s) = ORCH_SHM_MAX_POOLS;
  si_live : forall x, x ∈ k_live (g_k s) <-> x ∈ k_dropped (g_k s) \/ exists i, holds_cap s i x;
  si_dropped : forall i x, x ∈ k_dropped (g_k s) -> ~ holds_cap s i x;
  si_unique : forall i j x, holds_cap s i x -> holds_cap s j x -> i = j;
  si_fresh : forall x, x ∈ k_live (g_k s) -> x < k_next (g_k s);
  si_ok : forall i, shm_pool_ok (pool_at s i)
}.

Lemma zero_pool_ok : shm_pool_ok zero_pool.
Proof. by constructor. Qed.

Lemma pool_at_put s i j p : (i < length (g_pools s))%nat -> pool_at (put_pool i p s) j = if decide (i = j) then p else pool_at s j.
Proof. intros Hi. unfold pool_at, put_pool. cbn [g_pools]. by rewrite array_get_insert. Qed.

Lemma pool_at_lt s i : used (pool_at s i) = true -> (i < length (g_pools s))%nat.
Proof.
  intros H. destruct (decide (i < length (g_pools s))%nat); [done|]. unfold pool_at in H. rewrite lookup_ge_None_2 in H by lia. done.
Qed.

Lemma live_id_Some id s i : live_id id s = Some i -> used (pool_at s i) = true /\ i = Z.to_nat id /\ 0 <= id.
Proof.
  unfold live_id. destruct (_ && _) eqn:E; [|done]. intros [= <-]. apply andb_true_iff in E as [E1 E2]. apply andb_true_iff in E1 as [E0 _].
  split; [done|]. split; [done|]. by apply Z.leb_le.
Qed.

(** ** The allocator *)

Lemma free_caps_live cs k : k_live (free_caps cs k) = k_live k ∖ list_to_set cs.
Proof.
  unfold free_caps. revert k. induction cs as [|c cs IH]; intros k; cbn [fold_left list_to_set]; [set_solver|]. rewrite IH. cbn [free_cap k_live]. set_solver.
Qed.

Lemma free_caps_next cs k : k_next (free_caps cs k) = k_next k.
Proof. unfold free_caps. revert k. induction cs as [|c cs IH]; intros k; cbn [fold_left]; [done|]. by rewrite IH. Qed.

Lemma free_caps_dropped cs k : k_dropped (free_caps cs k) = k_dropped k.
Proof. unfold free_caps. revert k. induction cs as [|c cs IH]; intros k; cbn [fold_left]; [done|]. by rewrite IH. Qed.

Lemma ask_same k b k' : ask k = (b, k') -> k_live k' = k_live k /\ k_next k' = k_next k.
Proof. unfold ask. destruct (k_fail k); by intros [= <- <-]. Qed.
Lemma ask_dropped k : k_dropped (ask k).2 = k_dropped k.
Proof. unfold ask. by destruct (k_fail k). Qed.
Lemma alloc_dropped n : forall fs cs k, k_dropped (alloc_loop n fs cs k).2 = k_dropped k.
Proof.
  induction n as [|n IH]; intros fs cs k; cbn [alloc_loop]; [done|]. pose proof (ask_dropped k) as D1. destruct (ask k) as [[] k1]; cbn [snd] in *; [by rewrite free_caps_dropped|].
  cbn [new_cap]. match goal with |- context [ask ?q] => pose proof (ask_dropped q) as D2; destruct (ask q) as [[] k2] end; cbn [snd k_dropped] in *; [rewrite free_caps_dropped; cbn; congruence|].
  pose proof (ask_dropped k2) as D3. destruct (ask k2) as [[] k3]; cbn [snd] in *; [rewrite free_caps_dropped; cbn; congruence|]. rewrite IH. cbn. congruence.
Qed.

(** [k'] has, besides the capabilities of [k], new ones that were dropped. *)
Definition paged (k k' : kobj) : Prop := k_next k <= k_next k' /\ exists ps : gset Z,
  (forall x, x ∈ ps -> k_next k <= x < k_next k') /\ k_live k' = ps ∪ k_live k /\ k_dropped k' = ps ∪ k_dropped k.

#[local] Instance paged_pre : PreOrder paged.
Proof.
  split.
  - intros k. split; [lia|]. exists ∅. split; [by intros x Hx%elem_of_empty|]. by rewrite !(left_id_L ∅ (∪)).
  - intros k1 k2 k3 [N1 (p1&B1&L1&D1)] [N2 (p2&B2&L2&D2)]. split; [lia|]. exists (p2 ∪ p1). rewrite L2, L1, D2, D1, !(assoc_L (∪)). split; [|done].
    intros x [Hx%B2|Hx%B1]%elem_of_union; lia.
Qed.
Lemma drop_paged n k : paged k (Nat.iter n drop_cap k).
Proof.
  induction n as [|n IH]; [reflexivity|]. etrans; [exact IH|]. cbn [Nat.iter nat_rect]. set (q := Nat.iter n drop_cap k). change (paged q (drop_cap q)). split; [cbn; lia|].
  exists {[k_next q]}. split; [|done]. intros x ->%elem_of_singleton. cbn. lia.
Qed.
Lemma ask_paged k : paged k (ask k).2.
Proof.
  pose proof (ask_dropped k) as D. destruct (ask k) as [b k'] eqn:E. apply ask_same in E as [L N]. cbn [snd] in *. split; [lia|]. exists ∅. rewrite L, D, !(left_id_L ∅ (∪)). split; [|done].
  by intros x Hx%elem_of_empty.
Qed.
Lemma map_page_paged k : paged k (map_page k).2.
Proof.
  unfold map_page. cbv zeta. match goal with |- context [ask ?q] => pose proof (ask_paged q) as H; destruct (ask q) as [b k'] end. cbn [snd] in *.
  etrans; [|exact H]. set (k0 := mk_kobj _ _ _ _ _). assert (paged k k0) as H0 by (split; [cbn; lia|]; exists ∅; rewrite !(left_id_L ∅ (∪)); split; [by intros x Hx%elem_of_empty|done]).
  etrans; [exact H0|]. apply drop_paged.
Qed.
Lemma extend_paged n k : paged k (extend_compositor n k).
Proof. induction n as [|n IH]; [reflexivity|]. etrans; [exact IH|]. cbn. apply map_page_paged. Qed.
Lemma map_loop_paged n : forall k, paged k (map_loop n k).2.
Proof.
  induction n as [|n IH]; intros k; cbn [map_loop]; [reflexivity|]. pose proof (map_page_paged k) as H. destruct (map_page k) as [[] k1]; [|done]. etrans; [exact H|]. apply IH.
Qed.

(** What a loop of allocations leaves: new capabilities, or nothing. *)
Lemma alloc_loop_spec n : forall fs cs k r k', alloc_loop n fs cs k = (r, k') ->
  (forall x, x ∈ k_live k -> x < k_next k) -> (forall x, x ∈ cs ++ fs -> x ∈ k_live k) ->
  (forall x, x ∈ k_live k' -> x < k_next k') /\ k_next k <= k_next k' /\
  match r with
  | None => k_live k' = k_live k ∖ list_to_set (cs ++ fs)
  | Some (fs', cs') => exists f c, fs' = fs ++ f /\ cs' = cs ++ c /\ length f = n /\ length c = n /\
      k_live k' = list_to_set (c ++ f) ∪ k_live k /\ forall x, x ∈ c ++ f -> k_next k <= x
  end.
Proof.
  induction n as [|n IH]; intros fs cs k r k' He Hb Hin; cbn [alloc_loop] in He.
  - injection He as <- <-. split; [done|]. split; [lia|]. exists [], []. rewrite !app_nil_r. repeat split; [set_solver|]. by intros x Hx%elem_of_nil.
  - destruct (ask k) as [b1 k1] eqn:E1. apply ask_same in E1 as [L1 N1]. destruct b1.
    { injection He as <- <-. rewrite free_caps_live, free_caps_next, L1, N1. split; [set_solver|]. split; [lia|done]. }
    cbn [new_cap] in He. destruct (ask _) as [b2 k2] eqn:E2. apply ask_same in E2 as [L2 N2]. cbn [k_live k_next] in L2, N2. rewrite L1, N1 in *.
    assert (Hfree : k_live (free_caps (cs ++ fs) (free_cap (k_next k) k2)) = k_live k ∖ list_to_set (cs ++ fs)).
    { rewrite free_caps_live. cbn [free_cap k_live]. rewrite L2. assert (k_next k ∉ k_live k) by (intros H%Hb; lia). set_solver. }
    destruct b2.
    { injection He as <- <-. rewrite Hfree, free_caps_next. cbn [free_cap k_next]. rewrite N2. split; [|split; [lia|done]].
      intros x Hx. assert (x < k_next k) by (apply Hb; set_solver). lia. }
    destruct (ask k2) as [b3 k3] eqn:E3. apply ask_same in E3 as [L3 N3]. rewrite L2 in L3. rewrite N2 in N3. destruct b3.
    { injection He as <- <-. assert (Hf3 : k_live (free_caps (cs ++ fs) (free_cap (k_next k) k3)) = k_live k ∖ list_to_set (cs ++ fs)).
      { rewrite <- Hfree, !free_caps_live. cbn [free_cap k_live]. by rewrite L3, L2. }
      rewrite Hf3, free_caps_next. cbn [free_cap k_next]. rewrite N3. split; [|split; [lia|done]].
      intros x Hx. assert (x < k_next k) by (apply Hb; set_solver). lia. }
    cbn [new_cap] in He. rewrite L3, N3 in He.
    apply IH in He as (Hb' & Hn & Hr); cbn [k_live k_next] in *.
    + split; [done|]. split; [lia|]. destruct r as [[fs' cs']|].
      * destruct Hr as (f & c & -> & -> & Hf & Hc & Hl & Hge). exists (k_next k :: f), (k_next k + 1 :: c).
        rewrite <- !app_assoc. cbn [app length]. repeat split; [lia|lia|rewrite Hl; set_solver|].
        intros x Hx. assert (x = k_next k \/ x = k_next k + 1 \/ x ∈ c ++ f) as [->|[->|Hx']] by set_solver; [lia|lia|]. specialize (Hge x Hx'). lia.
      * rewrite Hr. assert (k_next k ∉ k_live k) by (intros H%Hb; lia). assert (k_next k + 1 ∉ k_live k) by (intros H'%Hb; lia).
        assert (Hcf : forall x, x ∈ cs ++ fs -> x <> k_next k /\ x <> k_next k + 1) by (intros x Hx%Hin%Hb; lia). set_solver.
    + intros x Hx. assert (x = k_next k \/ x = k_next k + 1 \/ x ∈ k_live k) as [->|[->|Hx']] by set_solver; [lia|lia|]. specialize (Hb x Hx'). lia.
    + intros x Hx. set_solver.
Qed.

(** ** Updates of one pool *)

Lemma inv_put s i p' k' : shm_inv s -> (i < ORCH_SHM_MAX_POOLS)%nat -> shm_pool_ok p' -> (forall x, x ∈ k_live k' -> x < k_next k') -> k_dropped k' = k_dropped (g_k s) ->
  (forall x, x ∈ k_live k' <-> (x ∈ k_live (g_k s) /\ ~ holds_cap s i x) \/ (used p' = true /\ x ∈ caps p')) ->
  (forall x, used p' = true -> x ∈ caps p' -> holds_cap s i x \/ k_next (g_k s) <= x) ->
  shm_inv (put_pool i p' (set_k k' s)).
Proof.
  intros [Hn Hl Hd Hu Hf Ho] Hi Hp Hb Hdr Hk Hc.
  assert (Hat : forall j, pool_at (put_pool i p' (set_k k' s)) j = if decide (i = j) then p' else pool_at s j) by (intros j; apply (pool_at_put (set_k k' s)); cbn; lia).
  assert (Hh : forall j x, holds_cap (put_pool i p' (set_k k' s)) j x <-> (j = i /\ used p' = true /\ x ∈ caps p') \/ (j <> i /\ holds_cap s j x)).
  { intros j x. unfold holds_cap. rewrite Hat. destruct (decide (i = j)) as [<-|]; naive_solver. }
  assert (Hne : forall j x, used p' = true -> x ∈ caps p' -> j <> i -> ~ holds_cap s j x).
  { intros j x Hus Hx Hj Hjx. destruct (Hc x Hus Hx) as [Hix|Hge]; [by apply Hj, (Hu j i x)|].
    assert (x < k_next (g_k s)) by (apply Hf, Hl; right; by exists j). lia. }
  constructor.
  - cbn [put_pool set_k g_pools]. by rewrite length_insert.
  - intros x. cbn [put_pool set_k g_k]. rewrite Hk, Hl, Hdr. split.
    + intros [[[Hx|[j Hj]] Hni]|Hx]; [by left| |right; exists i; apply Hh; auto]. right. exists j. apply Hh. right. split; [|done]. by intros ->.
    + intros [Hx|[j [[-> Hx]|[Hj Hx]]%Hh]]; [left; split; [by left|by apply Hd]|by right|]. left. split; [right; by exists j|]. intros Hix. by apply Hj, (Hu j i x).
  - intros j x Hx. cbn [put_pool set_k g_k] in Hx. rewrite Hdr in Hx. intros [[-> [U X]]|[_ H]]%Hh; [|by apply (Hd j x)].
    destruct (Hc x U X) as [H|H]; [by apply (Hd i x)|]. assert (x < k_next (g_k s)) by (apply Hf, Hl; by left). lia.
  - intros j j' x [[-> [U1 X1]]|[J1 H1]]%Hh [[-> [U2 X2]]|[J2 H2]]%Hh; [done|by destruct (Hne j' x)|by destruct (Hne j x)|by eapply Hu].
  - done.
  - intros j. rewrite Hat. by case_decide.
Qed.

(** Fields that hold no capability. *)
Lemma inv_meta s i p' k' : shm_inv s -> (i < ORCH_SHM_MAX_POOLS)%nat -> k_live k' = k_live (g_k s) -> k_next (g_k s) <= k_next k' -> k_dropped k' = k_dropped (g_k s) ->
  used p' = used (pool_at s i) -> frames p' = frames (pool_at s i) -> copies p' = copies (pool_at s i) -> nframes p' = nframes (pool_at s i) ->
  length (buf_wire_ids p') = SHM_BUF_WIRE_MAX -> shm_inv (put_pool i p' (set_k k' s)).
Proof.
  intros Hs Hi Hl Hn Hdr Hu Hf Hc Hm Hw. assert (Hcaps : caps p' = caps (pool_at s i)) by (unfold caps; by rewrite Hf, Hc).
  assert (Hh : forall x, used p' = true -> x ∈ caps p' -> holds_cap s i x) by (intros x H1 H2; split; [by rewrite <- Hu|by rewrite <- Hcaps]).
  apply inv_put; try done.
  - destruct (si_ok s Hs i). constructor; [by rewrite Hf, Hm|by rewrite Hc, Hm|by rewrite Hm|done].
  - rewrite Hl. intros x Hx%(si_fresh s Hs). lia.
  - intros x. rewrite Hl. split.
    + intros Hx. destruct (decide (used p' = true /\ x ∈ caps p')) as [D|D]; [by right|]. left. split; [done|].
      intros [U X]. apply D. by rewrite Hu, Hcaps.
    + intros [[Hx _]|[U X]]; [done|]. apply (si_live s Hs). right. exists i. by apply Hh.
  - intros x U X. left. by apply Hh.
Qed.

Lemma put_pool_k s i p : put_pool i p s = put_pool i p (set_k (g_k s) s).
Proof. by destruct s. Qed.

Lemma inv_k s k' : shm_inv s -> k_live k' = k_live (g_k s) -> k_next k' = k_next (g_k s) -> k_dropped k' = k_dropped (g_k s) -> shm_inv (set_k k' s).
Proof. intros [? ? ? ? ? ?] Hl Hn Hd. constructor; cbn [set_k g_k g_pools]; [done|by rewrite Hl, Hd|by rewrite Hd|done|by rewrite Hl, Hn|done]. Qed.

(** Paging structures that were dropped. *)
Lemma inv_paged s k' : shm_inv s -> paged (g_k s) k' -> shm_inv (set_k k' s).
Proof.
  intros [Hp Hl Hd Hu Hf Ho] [Hn (ps&Hb&EL&ED)].
  assert (Hh : forall i x, holds_cap s i x -> x < k_next (g_k s)) by (intros i x H; apply Hf, Hl; right; by exists i).
  constructor; cbn [set_k g_k g_pools]; [done| | |done| |done].
  - intros x. rewrite EL, ED, !elem_of_union, Hl. change (exists i, holds_cap (set_k k' s) i x) with (exists i, holds_cap s i x). tauto.
  - intros i x. rewrite ED, elem_of_union. intros [Hx%Hb|Hx] H; [|by apply (Hd i x)]. change (holds_cap s i x) in H. apply Hh in H. lia.
  - intros x. rewrite EL, elem_of_union. intros [Hx%Hb|Hx%Hf]; lia.
Qed.

Lemma inv_free s i : shm_inv s -> shm_inv (orch_shm_pool_free i s).
Proof.
  intros Hs. unfold orch_shm_pool_free. destruct (used (pool_at s i)) eqn:Hu; [|done]. pose proof (pool_at_lt s i Hu) as Hi. rewrite (si_pools s Hs) in Hi.
  apply inv_put; try done.
  - rewrite free_caps_live, free_caps_next. intros x Hx. apply (si_fresh s Hs). set_solver.
  - apply free_caps_dropped.
  - intros x. rewrite free_caps_live. fold (caps (pool_at s i)). unfold holds_cap. rewrite Hu. cbn [used zero_pool]. set_solver.
Qed.

(** ** The calls *)

Lemma frames_for_pos n : 0 <= frames_for n.
Proof. unfold frames_for, u64, PAGE_4K. pose proof (Z.mod_pos_bound (n + 4096 - 1) (2 ^ 64) ltac:(lia)). apply Z.div_pos; lia. Qed.

Lemma inv_alloc size owner s : shm_inv s -> shm_inv (orch_shm_pool_alloc size owner s).1.
Proof.
  intros Hs. unfold orch_shm_pool_alloc. destruct (size =? 0); [done|]. rewrite Z.gtb_ltb. destruct (Z.ltb_spec ORCH_SHM_MAX_FRAMES (frames_for size)); [done|].
  destruct (first_below _ _) as [id|] eqn:Hid; [|done]. apply first_below_Some in Hid as (Hlt & Hfree%negb_true_iff & _).
  pose proof (alloc_dropped (Z.to_nat (frames_for size)) [] [] (g_k s)) as Hdr. destruct (alloc_loop _ _ _ _) as [r k'] eqn:Ha. cbn [snd] in Hdr. apply alloc_loop_spec in Ha as (Hb & Hn & Hr); [|apply (si_fresh s Hs)|by intros x Hx%elem_of_nil].
  assert (Hno : forall x, ~ holds_cap s id x) by (intros x [U _]; congruence).
  destruct r as [[fs cs]|]; cbn [fst].
  - destruct Hr as (f & c & -> & -> & Lf & Lc & Hk & Hge). cbn [app]. apply inv_put; [done|done| |done|done| |].
    + constructor; cbn; [rewrite Lf|rewrite Lc| |by rewrite length_replicate]; pose proof (frames_for_pos size); lia.
    + intros x. rewrite Hk. unfold caps. cbn [used copies frames]. pose proof (Hno x). set_solver.
    + intros x _ Hx. right. by apply Hge.
  - apply inv_put; [done|done|apply zero_pool_ok|done|done| |done]. intros x. rewrite Hr. cbn [used zero_pool list_to_set app]. pose proof (Hno x). set_solver.
Qed.

Lemma remap_same k b k' : remap k = (b, k') -> k_live k' = k_live k /\ k_next k' = k_next k /\ k_dropped k' = k_dropped k.
Proof.
  unfold remap. pose proof (ask_dropped k) as D1. destruct (ask k) as [b1 k1] eqn:E1. apply ask_same in E1 as [L1 N1]. destruct b1; [by intros [= <- <-]|].
  pose proof (ask_dropped k1) as D2. destruct (ask k1) as [b2 k2] eqn:E2. apply ask_same in E2 as [L2 N2]. intros [= <- <-]. cbn [snd] in *. by rewrite L2, N2, D2.
Qed.

Lemma grow_frames s i p : shm_inv s -> used (pool_at s i) = true -> pool_at s i = p -> forall f c k', k_next (g_k s) <= k_next k' ->
  forall size need, length f = Z.to_nat (need - nframes p) -> length c = Z.to_nat (need - nframes p) -> nframes p < need <= ORCH_SHM_MAX_FRAMES ->
  (forall x, x ∈ k_live k' -> x < k_next k') -> k_dropped k' = k_dropped (g_k s) -> k_live k' = list_to_set (c ++ f) ∪ k_live (g_k s) -> (forall x, x ∈ c ++ f -> k_next (g_k s) <= x) ->
  shm_inv (put_pool i (set_pool_size size need (frames p ++ f) (copies p ++ c) p) (set_k k' s)).
Proof.
  intros Hs Hu <- f c k' Hn size need Lf Lc Hneed Hb Hdr Hk Hge. pose proof (pool_at_lt s i Hu) as Hi. rewrite (si_pools s Hs) in Hi. set (p := pool_at s i) in *.
  destruct (si_ok s Hs i) as [P1 P2 P3 P4]. fold p in P1, P2, P3, P4.
  assert (Hh : forall x, x ∈ caps p -> holds_cap s i x) by (intros x Hx; by split). apply inv_put; [done|done| |done|done| |].
  - constructor; cbn [set_pool_size frames copies nframes buf_wire_ids]; rewrite ?length_app, ?Lf, ?Lc; try done; lia.
  - intros x. rewrite Hk. unfold caps. cbn [set_pool_size used copies frames]. assert (Hhx : holds_cap s i x <-> x ∈ caps p) by (unfold holds_cap; fold p; rewrite Hu; tauto).
    unfold caps in Hhx. assert (Hlv : x ∈ caps p -> x ∈ k_live (g_k s)) by (intros Hx; apply (si_live s Hs); right; exists i; by apply Hh). unfold caps in Hlv.
    rewrite Hhx. clear Hhx. rewrite elem_of_union, elem_of_list_to_set, !elem_of_app in *. destruct (decide (x ∈ copies p)), (decide (x ∈ frames p)); tauto.
  - intros x _ Hx. unfold caps in Hx. cbn [set_pool_size copies frames] in Hx.
    assert (x ∈ caps p \/ x ∈ c ++ f) as [Hx'|Hx'] by (unfold caps; set_solver); [left; by apply Hh|right; by apply Hge].
Qed.

Lemma inv_grow id size s : shm_inv s -> shm_inv (orch_shm_pool_grow id size s).1.
Proof.
  intros Hs. unfold orch_shm_pool_grow. destruct (live_id id s) as [i|] eqn:Hid; [|done]. apply live_id_Some in Hid as (Hu & _ & _).
  pose proof (pool_at_lt s i Hu) as Hi. rewrite (si_pools s Hs) in Hi. cbv zeta. destruct (Z.leb_spec (frames_for size) (nframes (pool_at s i))).
  { destruct (_ >? _); [|done]. cbn [fst]. rewrite put_pool_k. apply inv_meta; try done. apply (si_ok s Hs). }
  rewrite Z.gtb_ltb. destruct (Z.ltb_spec ORCH_SHM_MAX_FRAMES (frames_for size)); [done|].
  pose proof (alloc_dropped (Z.to_nat (frames_for size - nframes (pool_at s i))) [] [] (g_k s)) as Hdr. destruct (alloc_loop _ _ _ _) as [r k1] eqn:Ha. cbn [snd] in Hdr. apply alloc_loop_spec in Ha as (Hb & Hn & Hr); [|apply (si_fresh s Hs)|by intros x Hx%elem_of_nil].
  destruct r as [[fs cs]|]; cbn [fst].
  - destruct Hr as (f & c & -> & -> & Lf & Lc & Hk & Hge). cbn [app].
    destruct (match gmap_at (pool_at s i) with Some _ => remap k1 | None => (true, k1) end) as [ok k2] eqn:E2.
    assert (S2 : k_live k2 = k_live k1 /\ k_next k2 = k_next k1 /\ k_dropped k2 = k_dropped k1) by (destruct (gmap_at _); [by apply remap_same in E2|by injection E2 as _ <-]). destruct S2 as (L2 & N2 & D2).
    destruct ok; cbn [fst].
    { assert (shm_inv (put_pool i (set_pool_size size (frames_for size) (frames (pool_at s i) ++ f) (copies (pool_at s i) ++ c) (pool_at s i)) (set_k k2 s))) as Hg
        by (eapply grow_frames; try done; rewrite ?L2, ?N2, ?D2; done).
      apply (inv_paged _ (match cmap_at (pool_at s i) with Some _ => extend_compositor (Z.to_nat (frames_for size - nframes (pool_at s i))) k2 | None => k2 end)) in Hg; [exact Hg|].
      cbn [put_pool set_k g_k]. destruct (cmap_at _); [apply extend_paged|reflexivity]. }
    apply inv_meta; try done; [rewrite free_caps_live, L2, Hk|rewrite free_caps_next, N2; done|rewrite free_caps_dropped, D2; done|by apply (si_ok s Hs)].
    assert (Hd : forall x, x ∈ c ++ f -> x ∉ k_live (g_k s)) by (intros x Hx%Hge Hl%(si_fresh s Hs); lia). apply set_eq. intros x. specialize (Hd x).
    rewrite elem_of_difference, elem_of_union, !elem_of_list_to_set. tauto.
  - rewrite <- (si_pools s Hs) in Hi. replace (set_k k1 s) with (put_pool i (pool_at s i) (set_k k1 s)).
    + rewrite (si_pools s Hs) in Hi. apply inv_meta; try done; [rewrite Hr; cbn [list_to_set app]; set_solver|by apply (si_ok s Hs)].
    + unfold put_pool. cbn [set_k g_pools g_k]. unfold set_k. f_equal. apply list_insert_id. apply array_lookup_lt. done.
Qed.

Lemma grow_pools id size s j : j <> Z.to_nat id -> pool_at (orch_shm_pool_grow id size s).1 j = pool_at s j.
Proof.
  intros Hj. unfold orch_shm_pool_grow. destruct (live_id id s) as [i|] eqn:Hid; [|done]. apply live_id_Some in Hid as (Hu & -> & _).
  pose proof (pool_at_lt s _ Hu) as Hi. cbv zeta. destruct (_ <=? _); [destruct (_ >? _); [|done]; cbn [fst]; by rewrite pool_at_put, decide_False by done|].
  destruct (_ >? _); [done|]. destruct (alloc_loop _ _ _ _) as [[[fs cs]|] k1]; [|done].
  destruct (match gmap_at _ with Some _ => remap k1 | None => (true, k1) end) as [[] k2]; cbn [fst];
    rewrite (pool_at_put (set_k _ s)), decide_False by done; done.
Qed.

Lemma grow_used id size s i : used (pool_at s i) = true -> used (pool_at (orch_shm_pool_grow id size s).1 i) = true.
Proof.
  intros Hu. pose proof (pool_at_lt s i Hu) as Hi. unfold orch_shm_pool_grow. destruct (live_id id s) as [j|] eqn:Hid; [|done].
  apply live_id_Some in Hid as (Hj & _ & _). pose proof (pool_at_lt s j Hj) as Hjl. cbv zeta.
  destruct (_ <=? _); [destruct (_ >? _); [|done]; cbn [fst]; rewrite pool_at_put by done; by case_decide|].
  destruct (_ >? _); [done|]. destruct (alloc_loop _ _ _ _) as [[[fs cs]|] k1]; [|done].
  destruct (match gmap_at _ with Some _ => remap k1 | None => (true, k1) end) as [[] k2]; cbn [fst];
    rewrite (pool_at_put (set_k _ s)) by done; by case_decide.
Qed.

Lemma inv_map_guest id gv base want s : shm_inv s -> shm_inv (orch_shm_pool_map_guest id gv base want s).1.
Proof.
  intros Hs. unfold orch_shm_pool_map_guest. destruct (live_id id s) as [i|] eqn:Hid; [|done]. apply live_id_Some in Hid as (Hu & _ & _).
  destruct (gv =? 0); [done|].
  destruct (if _ >? _ then orch_shm_pool_grow id want s else (s, 0)) as [s1 rc] eqn:E.
  assert (H1 : shm_inv s1 /\ used (pool_at s1 i) = true).
  { destruct (_ >? _); [|by injection E as <- _]. split; [pose proof (inv_grow id want s Hs) as H|pose proof (grow_used id want s i Hu) as H]; by rewrite E in H. }
  destruct H1 as [Hs1 Hu1]. clear E. destruct (negb (rc =? 0)); [done|]. pose proof (pool_at_lt s1 i Hu1) as Hi. rewrite (si_pools s1 Hs1) in Hi.
  destruct (remap (g_k s1)) as [ok k] eqn:Er. apply remap_same in Er as (L & N & D).
  assert (Hfresh : forall b, shm_inv (if ok then (put_pool i (set_maps (Some (gv, b)) (cmap_at (pool_at s1 i)) (pool_at s1 i)) (set_k k s1), b) else (set_k k s1, 0)).1).
  { intros b. destruct ok; cbn [fst]; [apply inv_meta; try done; [lia|apply (si_ok s1 Hs1)]|by apply inv_k]. }
  destruct (gmap_at (pool_at s1 i)) as [[v b]|]; [destruct (v =? gv); [done|]|]; apply Hfresh.
Qed.

Lemma inv_map_comp id pd base s : shm_inv s -> shm_inv (orch_shm_pool_map_compositor id pd base s).1.
Proof.
  intros Hs. unfold orch_shm_pool_map_compositor. destruct (live_id id s) as [i|] eqn:Hid; [|done]. apply live_id_Some in Hid as (Hu & _ & _).
  pose proof (pool_at_lt s i Hu) as Hi. rewrite (si_pools s Hs) in Hi. destruct (pd =? 0); [done|]. cbv zeta.
  pose proof (map_loop_paged (Z.to_nat (nframes (pool_at s i))) (g_k s)) as Hp. destruct (map_loop _ _) as [ok k]. cbn [snd] in Hp. pose proof (inv_paged s k Hs Hp) as Hk.
  destruct ok; cbn [fst]; [|done]. rewrite (put_pool_k (set_k k s)). apply (inv_meta (set_k k s)); try done. apply (si_ok s Hs).
Qed.

Lemma inv_attach id owner fd wire s : shm_inv s -> shm_inv (orch_shm_pool_attach id owner fd wire s).
Proof.
  intros Hs. unfold orch_shm_pool_attach. destruct (live_id id s) as [i|] eqn:Hid; [|done]. apply live_id_Some in Hid as (Hu & _ & _).
  pose proof (pool_at_lt s i Hu) as Hi. rewrite (si_pools s Hs) in Hi. rewrite put_pool_k. apply inv_meta; try done. apply (si_ok s Hs).
Qed.

Lemma inv_refs s i n w bufs : shm_inv s -> (i < ORCH_SHM_MAX_POOLS)%nat -> length bufs = SHM_BUF_WIRE_MAX ->
  shm_inv (put_pool i (set_refs n w bufs (pool_at s i)) s).
Proof. intros Hs Hi Hb. rewrite put_pool_k. by apply inv_meta. Qed.

Lemma inv_unref s i : shm_inv s -> shm_inv (shm_unref i s).
Proof.
  intros Hs. unfold shm_unref. destruct (used (pool_at s i)) eqn:Hu; [|done]. pose proof (pool_at_lt s i Hu) as Hi. rewrite (si_pools s Hs) in Hi. cbv zeta.
  pose proof (si_ok s Hs i) as [_ _ _ Hb].
  destruct (_ <=? 0); [apply inv_free|]; by apply inv_refs.
Qed.

Lemma inv_wire_loop ids owner fd obj op nid s : shm_inv s -> shm_inv (wire_loop ids owner fd obj op nid s).
Proof.
  intros Hs. induction ids as [|i ids IH]; cbn [wire_loop]; [done|]. destruct (used (pool_at s i)) eqn:Hu; cbn [negb orb]; [|done].
  pose proof (pool_at_lt s i Hu) as Hi. rewrite (si_pools s Hs) in Hi. pose proof (si_ok s Hs i) as [_ _ _ Hb].
  destruct (_ || _); [done|]. destruct (_ && _).
  - unfold pool_event. destruct (op =? 0); [destruct (buf_index _ _); [|done]; apply inv_refs; [done|done|by rewrite length_insert]|].
    destruct (op =? 1); [|done]. apply inv_unref. by apply inv_refs.
  - destruct (buf_index _ _) as [b|]; [|done]. unfold buffer_event. destruct (op =? 0); [|done]. apply inv_unref, inv_refs; [done|done|by rewrite length_insert].
Qed.

Lemma inv_free_owner owner s : shm_inv s -> shm_inv (orch_shm_pool_free_owner owner s).
Proof.
  unfold orch_shm_pool_free_owner. generalize (seq 0 ORCH_SHM_MAX_POOLS) as l. intros l. revert s.
  induction l as [|i l IH]; intros s Hs; cbn [fold_left]; [done|]. apply IH. destruct (_ && _); [by apply inv_free|done].
Qed.

(** ** Runs *)

(** The calls of the clients and of the orchestrator.  Before each, any choice of
    calls to the allocator may be made to fail, and of paging structures to be needed.
    [sane] holds of the sizes that are asked for; with [comp] pools are mapped in the
    compositor. *)
Definition with_oracle (fl : list bool) (pg : list nat) (s : shm) : shm :=
  set_k (mk_kobj (k_live (g_k s)) (k_next (g_k s)) fl pg (k_dropped (g_k s))) s.

Inductive shm_step (sane : Z -> Prop) (comp : bool) : shm -> shm -> Prop :=
  | ss_fail fl pg s : shm_step sane comp s (with_oracle fl pg s)
  | ss_alloc size owner s : sane size -> shm_step sane comp s (orch_shm_pool_alloc size owner s).1
  | ss_grow id size s : sane size -> shm_step sane comp s (orch_shm_pool_grow id size s).1
  | ss_guest id gv base want s : sane want -> shm_step sane comp s (orch_shm_pool_map_guest id gv base want s).1
  | ss_comp id pd base s : comp = true -> shm_step sane comp s (orch_shm_pool_map_compositor id pd base s).1
  | ss_attach id owner fd wire s : shm_step sane comp s (orch_shm_pool_attach id owner fd wire s)
  | ss_wire owner fd obj op nid s : shm_step sane comp s (orch_shm_pool_wire_event owner fd obj op nid s)
  | ss_exit owner s : shm_step sane comp s (orch_shm_pool_free_owner owner s).

Inductive shm_reach (sane : Z -> Prop) (comp : bool) : shm -> Prop :=
  | sh_start : shm_reach sane comp empty_shm
  | sh_step s s' : shm_reach sane comp s -> shm_step sane comp s s' -> shm_reach sane comp s'.

Lemma pool_at_empty i : pool_at empty_shm i = zero_pool.
Proof.
  unfold pool_at. cbn [empty_shm g_pools]. destruct (decide (i < ORCH_SHM_MAX_POOLS)%nat); [by rewrite lookup_replicate_2|].
  by rewrite lookup_ge_None_2 by (rewrite length_replicate; lia).
Qed.

Lemma empty_inv : shm_inv empty_shm.
Proof.
  assert (Hno : forall i x, ~ holds_cap empty_shm i x) by (intros i x [Hu _]; rewrite pool_at_empty in Hu; done).
  constructor; [done| |by intros i x Hx%elem_of_empty|by intros i j x Hx; destruct (Hno i x)|by intros x Hx%elem_of_empty|intros i; rewrite pool_at_empty; apply zero_pool_ok].
  intros x. split; [by intros Hx%elem_of_empty|]. by intros [Hx%elem_of_empty|[i Hx]]; [|destruct (Hno i x)].
Qed.

Lemma inv_shm_step sane comp s s' : shm_step sane comp s s' -> shm_inv s -> shm_inv s'.
Proof.
  intros H Hs. destruct H; [by apply inv_k|by apply inv_alloc|by apply inv_grow|by apply inv_map_guest|by apply inv_map_comp|by apply inv_attach| |by apply inv_free_owner].
  unfold orch_shm_pool_wire_event. destruct (obj =? 0); [done|by apply inv_wire_loop].
Qed.

Lemma shm_reach_inv sane comp s : shm_reach sane comp s -> shm_inv s.
Proof. induction 1 as [|s s' _ IH Hs]; [apply empty_inv|by eapply inv_shm_step]. Qed.

(** ** Dropped capabilities *)

Lemma grow_dropped id size s : k_dropped (g_k s) ⊆ k_dropped (g_k (orch_shm_pool_grow id size s).1) /\
  ((forall i, cmap_at (pool_at s i) = None) -> k_dropped (g_k (orch_shm_pool_grow id size s).1) = k_dropped (g_k s)).
Proof.
  unfold orch_shm_pool_grow. destruct (live_id id s) as [i|]; [|done]. cbv zeta. destruct (_ <=? _); [by destruct (_ >? _)|]. destruct (_ >? _); [done|].
  pose proof (alloc_dropped (Z.to_nat (frames_for size - nframes (pool_at s i))) [] [] (g_k s)) as Hdr. destruct (alloc_loop _ _ _ _) as [[[fs cs]|] k1]; cbn [snd] in Hdr; [|cbn [fst set_k g_k]; by rewrite Hdr].
  destruct (match gmap_at _ with Some _ => remap k1 | None => (true, k1) end) as [ok k2] eqn:E2.
  assert (D2 : k_dropped k2 = k_dropped k1) by (destruct (gmap_at _); [by apply remap_same in E2 as (_ & _ & E2)|by injection E2 as _ <-]).
  destruct ok; cbn [fst put_pool set_k g_k]; [|by rewrite free_caps_dropped, D2, Hdr]. rewrite <- Hdr, <- D2. split.
  - destruct (cmap_at _); [|done]. destruct (extend_paged (Z.to_nat (frames_for size - nframes (pool_at s i))) k2) as [_ (ps&_&_&->)]. set_solver.
  - intros Hc. by rewrite Hc.
Qed.

Lemma free_dropped i s : k_dropped (g_k (orch_shm_pool_free i s)) = k_dropped (g_k s).
Proof. unfold orch_shm_pool_free. destruct (used _); [|done]. apply free_caps_dropped. Qed.

Lemma wire_dropped owner fd obj op nid s : k_dropped (g_k (orch_shm_pool_wire_event owner fd obj op nid s)) = k_dropped (g_k s).
Proof.
  unfold orch_shm_pool_wire_event. destruct (obj =? 0); [done|]. generalize (seq 0 ORCH_SHM_MAX_POOLS) as ids. induction ids as [|i ids IH]; cbn [wire_loop]; [done|].
  assert (Hun : forall q, k_dropped (g_k (shm_unref i (put_pool i q s))) = k_dropped (g_k s)).
  { intros q. unfold shm_unref. destruct (used _); [|done]. cbv zeta. destruct (_ <=? 0); [by rewrite free_dropped|done]. }
  destruct (_ || _ || _ || _); [done|]. destruct (_ && _).
  - unfold pool_event. destruct (op =? 0); [by destruct (buf_index _ _)|]. destruct (op =? 1); [apply Hun|done].
  - destruct (buf_index _ _); [|done]. unfold buffer_event. destruct (op =? 0); [apply Hun|done].
Qed.

(** Nothing gives a dropped capability back; where no pool is mapped in the compositor,
    only a mapping there drops one. *)
Lemma step_dropped sane comp s s' : shm_step sane comp s s' ->
  k_dropped (g_k s) ⊆ k_dropped (g_k s') /\ (comp = false -> (forall i, cmap_at (pool_at s i) = None) -> k_dropped (g_k s') = k_dropped (g_k s)).
Proof.
  intros H. destruct H as [fl pg s|size owner s _|id size s _|id gv base want s _|id pd base s Hc|id owner fd wire s|owner fd obj op nid s|owner s].
  - done.
  - unfold orch_shm_pool_alloc. destruct (size =? 0); [done|]. destruct (_ >? _); [done|]. destruct (first_below _ _) as [i|]; [|done].
    pose proof (alloc_dropped (Z.to_nat (frames_for size)) [] [] (g_k s)) as Hdr. destruct (alloc_loop _ _ _ _) as [[[fs cs]|] k]; cbn [snd fst put_pool set_k g_k] in *; by rewrite Hdr.
  - destruct (grow_dropped id size s). auto.
  - unfold orch_shm_pool_map_guest. destruct (live_id id s) as [i|]; [|done]. destruct (gv =? 0); [done|].
    destruct (if _ >? _ then orch_shm_pool_grow id want s else (s, 0)) as [s1 rc] eqn:E.
    assert (H1 : k_dropped (g_k s) ⊆ k_dropped (g_k s1) /\ (comp = false -> (forall i, cmap_at (pool_at s i) = None) -> k_dropped (g_k s1) = k_dropped (g_k s))).
    { destruct (_ >? _); [|by injection E as <- _]. destruct (grow_dropped id want s) as [H1 H2]. rewrite E in H1, H2. auto. }
    clear E. destruct (negb (rc =? 0)); [done|]. destruct (remap (g_k s1)) as [ok k] eqn:Er. apply remap_same in Er as (_ & _ & D).
    destruct (gmap_at (pool_at s1 i)) as [[v b]|]; [destruct (v =? gv); [done|]|]; destruct ok; cbn [fst put_pool set_k g_k]; by rewrite D.
  - split; [|congruence]. unfold orch_shm_pool_map_compositor. destruct (live_id id s) as [i|]; [|done]. destruct (pd =? 0); [done|]. cbv zeta.
    destruct (map_loop_paged (Z.to_nat (nframes (pool_at s i))) (g_k s)) as [_ (ps&_&_&E)]. destruct (map_loop _ _) as [[] k]; cbn [fst snd put_pool set_k g_k] in *; rewrite E; set_solver.
  - unfold orch_shm_pool_attach. by destruct (live_id id s).
  - by rewrite wire_dropped.
  - unfold orch_shm_pool_free_owner. generalize (seq 0 ORCH_SHM_MAX_POOLS) as l. intros l.
    assert (forall s, k_dropped (g_k (fold_left (fun s i => if used (pool_at s i) && (p_owner (pool_at s i) =? owner) then orch_shm_pool_free i s else s) l s)) = k_dropped (g_k s)) as ->; [|done].
    induction l as [|i l IH]; intros t; cbn [fold_left]; [done|]. rewrite IH. destruct (_ && _); [apply free_dropped|done].
Qed.

(** ** The life of one pool *)

Definition unrefd (p : shm_pool) : shm_pool :=
  let n := if refcount p >? 0 then refcount p - 1 else refcount p in
  if n <=? 0 then zero_pool else set_refs n (pool_wire_id p) (buf_wire_ids p) p.

Section life.
Context (sane : Z -> Prop) (comp : bool).

Inductive pool_change : shm_pool -> shm_pool -> Prop :=
  | pc_new size owner fs cs p : sane size -> used p = false ->
      pool_change p (mk_pool true 1 owner size (frames_for size) fs cs None None false 0 0 (replicate SHM_BUF_WIRE_MAX 0))
  | pc_size size p : sane size -> used p = true -> frames_for size <= nframes p ->
      pool_change p (set_pool_size size (nframes p) (frames p) (copies p) p)
  | pc_grow size fs cs p : sane size -> used p = true -> pool_change p (set_pool_size size (frames_for size) fs cs p)
  | pc_maps g c p : comp = true \/ c = cmap_at p -> pool_change p (set_maps g c p)
  | pc_attach owner fd wire p : used p = true ->
      pool_change p (mk_pool (used p) (refcount p) owner (p_size p) (nframes p) (frames p) (copies p) (gmap_at p) (cmap_at p) true fd wire (buf_wire_ids p))
  | pc_create b nid p : used p = true -> owner_has_conn p = true -> buf_wire_ids p !! b = Some 0 ->
      pool_change p (set_refs (refcount p + 1) (pool_wire_id p) (<[b := nid]> (buf_wire_ids p)) p)
  | pc_drop_pool p : used p = true -> owner_has_conn p = true -> pool_wire_id p <> 0 ->
      pool_change p (unrefd (set_refs (refcount p) 0 (buf_wire_ids p) p))
  | pc_drop_buf b obj p : used p = true -> owner_has_conn p = true -> obj <> 0 -> buf_wire_ids p !! b = Some obj ->
      pool_change p (unrefd (set_refs (refcount p) (pool_wire_id p) (<[b := 0]> (buf_wire_ids p)) p))
  | pc_free p : pool_change p zero_pool.

Lemma pool_put_cases s i p j : pool_at (put_pool i p s) j = pool_at s j \/ i = j /\ pool_at (put_pool i p s) j = p.
Proof.
  destruct (decide (i < length (g_pools s))%nat) as [H|H].
  - rewrite pool_at_put by done. case_decide; auto.
  - left. unfold pool_at, put_pool. cbn [g_pools]. by rewrite list_insert_ge by lia.
Qed.

Lemma change_put s i p j : pool_change (pool_at s i) p -> rtc pool_change (pool_at s j) (pool_at (put_pool i p s) j).
Proof. intros H. destruct (pool_put_cases s i p j) as [->|[-> ->]]; [done|by apply rtc_once]. Qed.

Lemma grow_life id size s j : sane size -> rtc pool_change (pool_at s j) (pool_at (orch_shm_pool_grow id size s).1 j).
Proof.
  intros Hz. unfold orch_shm_pool_grow. destruct (live_id id s) as [i|] eqn:Hid; [|done]. apply live_id_Some in Hid as (Hu & _ & _). cbv zeta.
  destruct (Z.leb_spec (frames_for size) (nframes (pool_at s i))); [destruct (_ >? _); [|done]; by apply change_put, pc_size|].
  destruct (_ >? _); [done|]. destruct (alloc_loop _ _ _ _) as [[[fs cs]|] k1]; [|done].
  destruct (match gmap_at _ with Some _ => remap k1 | None => (true, k1) end) as [[] k2]; cbn [fst];
    apply (change_put (set_k _ s)); [by apply pc_grow|apply pc_maps; by right].
Qed.

Lemma unref_at s i p j : used p = true -> (i < length (g_pools s))%nat -> pool_at (shm_unref i (put_pool i p s)) j = if decide (i = j) then unrefd p else pool_at s j.
Proof.
  intros Hu Hi. unfold shm_unref. rewrite (pool_at_put s i i p), decide_True by done. rewrite Hu. cbv zeta. unfold unrefd. cbv zeta.
  set (n := if refcount p >? 0 then refcount p - 1 else refcount p). destruct (n <=? 0).
  - unfold orch_shm_pool_free. rewrite (pool_at_put (put_pool i p s) i i), decide_True by (done || (cbn; rewrite length_insert; done)). cbn [set_refs used].
    rewrite Hu. rewrite pool_at_put by (cbn; rewrite !length_insert; done). case_decide; [done|]. change (pool_at (put_pool i (set_refs n (pool_wire_id p) (buf_wire_ids p) p) (put_pool i p s)) j = pool_at s j).
    rewrite pool_at_put by (cbn; rewrite length_insert; done). rewrite decide_False by done. by rewrite pool_at_put, decide_False by done.
  - rewrite pool_at_put by (cbn; rewrite length_insert; done). case_decide; [done|]. by rewrite pool_at_put, decide_False by done.
Qed.

Lemma unref_life s i p j : used p = true -> (i < length (g_pools s))%nat -> pool_change (pool_at s i) (unrefd p) ->
  rtc pool_change (pool_at s j) (pool_at (shm_unref i (put_pool i p s)) j).
Proof. intros Hu Hi Hc. rewrite unref_at by done. case_decide; [subst; by apply rtc_once|done]. Qed.

Lemma buf_index_Some p x b : length (buf_wire_ids p) = SHM_BUF_WIRE_MAX -> buf_index p x = Some b -> buf_wire_ids p !! b = Some x.
Proof.
  intros Hl (Hb & He%Z.eqb_eq & _)%first_below_Some. rewrite <- He. apply array_lookup_lt. by rewrite Hl.
Qed.

Lemma wire_life ids owner fd obj op nid s j : shm_inv s -> obj <> 0 ->
  rtc pool_change (pool_at s j) (pool_at (wire_loop ids owner fd obj op nid s) j).
Proof.
  intros Hs Ho. induction ids as [|i ids IH]; cbn [wire_loop]; [done|]. destruct (used (pool_at s i)) eqn:Hu; cbn [negb orb]; [|done].
  pose proof (pool_at_lt s i Hu) as Hi. pose proof (si_ok s Hs i) as [_ _ _ Hb].
  destruct (owner_has_conn (pool_at s i)) eqn:Hc; cbn [negb orb]; [|done]. destruct (_ || _); [done|].
  destruct (negb (pool_wire_id (pool_at s i) =? 0) && _) eqn:Hw.
  - apply andb_true_iff in Hw as [Hw%negb_true_iff%Z.eqb_neq _]. unfold pool_event. destruct (op =? 0).
    { destruct (buf_index (pool_at s i) 0) as [b|] eqn:E; [|done]. apply change_put, pc_create; [done|done|by apply buf_index_Some]. }
    destruct (op =? 1); [|done]. apply unref_life; [done|done|by apply pc_drop_pool].
  - destruct (buf_index (pool_at s i) obj) as [b|] eqn:E; [|done]. unfold buffer_event. destruct (op =? 0); [|done].
    apply unref_life; [done|done|]. eapply pc_drop_buf; [done|done|exact Ho|by apply buf_index_Some].
Qed.

Lemma free_life s i j : rtc pool_change (pool_at s j) (pool_at (orch_shm_pool_free i s) j).
Proof. unfold orch_shm_pool_free. destruct (used (pool_at s i)); [|done]. apply (change_put (set_k _ s)), pc_free. Qed.

Lemma step_life s s' j : shm_inv s -> shm_step sane comp s s' -> rtc pool_change (pool_at s j) (pool_at s' j).
Proof.
  intros Hs H. destruct H as [fl pg s|size owner s Hz|id size s Hz|id gv base want s Hz|id pd base s Hc|id owner fd wire s|owner fd obj op nid s|owner s].
  - done.
  - unfold orch_shm_pool_alloc. destruct (size =? 0); [done|]. destruct (_ >? _); [done|]. destruct (first_below _ _) as [i|] eqn:Hi; [|done].
    apply first_below_Some in Hi as (_ & Hf%negb_true_iff & _). destruct (alloc_loop _ _ _ _) as [[[fs cs]|] k]; apply (change_put (set_k k s)); [by apply pc_new|apply pc_free].
  - by apply grow_life.
  - unfold orch_shm_pool_map_guest. destruct (live_id id s) as [i|]; [|done]. destruct (gv =? 0); [done|].
    destruct (if _ >? _ then orch_shm_pool_grow id want s else (s, 0)) as [s1 rc] eqn:E.
    assert (H1 : rtc pool_change (pool_at s j) (pool_at s1 j)).
    { destruct (_ >? _); [|by injection E as <- _]. pose proof (grow_life id want s j Hz) as H. by rewrite E in H. }
    clear E. destruct (negb (rc =? 0)); [done|]. destruct (remap (g_k s1)) as [ok k].
    assert (Hfresh : forall b, rtc pool_change (pool_at s j)
      (pool_at (if ok then (put_pool i (set_maps (Some (gv, b)) (cmap_at (pool_at s1 i)) (pool_at s1 i)) (set_k k s1), b) else (set_k k s1, 0)).1 j)).
    { intros b. etrans; [exact H1|]. destruct ok; [|done]. apply (change_put (set_k k s1)), pc_maps. by right. }
    destruct (gmap_at (pool_at s1 i)) as [[v b]|]; [destruct (v =? gv); [done|]|]; apply Hfresh.
  - unfold orch_shm_pool_map_compositor. destruct (live_id id s) as [i|]; [|done]. destruct (pd =? 0); [done|]. cbv zeta.
    destruct (map_loop _ _) as [[] k]; [|done]. apply (change_put (set_k k s)), pc_maps. by left.
  - unfold orch_shm_pool_attach. destruct (live_id id s) as [i|] eqn:Hid; [|done]. apply live_id_Some in Hid as (Hu & -> & _). by apply change_put, pc_attach.
  - unfold orch_shm_pool_wire_event. destruct (Z.eqb_spec obj 0); [done|by apply wire_life].
  - unfold orch_shm_pool_free_owner. clear Hs. generalize (seq 0 ORCH_SHM_MAX_POOLS) as l. intros l. revert s.
    induction l as [|i l IH]; intros s; cbn [fold_left]; [done|]. etrans; [|apply IH]. destruct (_ && _); [apply free_life|done].
Qed.

(** A property of one pool that its changes keep holds of all pools. *)
Lemma reach_pools (Q : shm_pool -> Prop) : Q zero_pool -> (forall p p', pool_change p p' -> Q p -> Q p') ->
  forall s, shm_reach sane comp s -> forall i, Q (pool_at s i).
Proof.
  intros H0 Hc s. induction 1 as [|s s' Hr IH Hs]; intros i; [by rewrite pool_at_empty|].
  pose proof (step_life s s' i (shm_reach_inv _ _ _ Hr) Hs) as Hl. specialize (IH i). induction Hl as [|p q r Hpq _ IHl]; [done|]. apply IHl. by eapply Hc.
Qed.
End life.

(** ** The capabilities *)

Lemma no_comp_cmap sane s : shm_reach sane false s -> forall i, cmap_at (pool_at s i) = None.
Proof.
  intros H. apply (reach_pools sane false (fun p => cmap_at p = None)); [done| |done]. clear. intros p p' H Hp. destruct H; cbn; try done.
  - by destruct H as [Hc | ->].
  - unfold unrefd. cbv zeta. by destruct (_ <=? 0).
  - unfold unrefd. cbv zeta. by destruct (_ <=? 0).
Qed.

Lemma no_comp_dropped sane s : shm_reach sane false s -> k_dropped (g_k s) = ∅.
Proof.
  intros H. induction H as [|s s' Hr IH Hs]; [done|]. rewrite <- IH. apply (step_dropped _ _ _ _ Hs); [done|by eapply no_comp_cmap].
Qed.

(** C23: what becomes of the capabilities.  Through any sequence of calls, whatever calls to
    the allocator fail on the way and whatever paging structures the mappings need, a
    capability that is outstanding is either a frame or a copy of exactly one pool in use, or
    a paging structure that a mapping in the compositor allocated and dropped; the dropped
    ones are never given back, and while no pool is mapped in the compositor there are
    none, so that the pools neither lose nor share a capability.  A pool has one frame and one copy per page, at most 1024. *)
Theorem pools_own_their_caps comp s : shm_reach (fun _ => True) comp s ->
  (forall x, x ∈ k_live (g_k s) <-> x ∈ k_dropped (g_k s) \/ exists i, holds_cap s i x) /\
  (forall i x, x ∈ k_dropped (g_k s) -> ~ holds_cap s i x) /\
  (forall i j x, holds_cap s i x -> holds_cap s j x -> i = j) /\
  (comp = false -> k_dropped (g_k s) = ∅) /\
  (forall s', shm_step (fun _ => True) comp s s' -> k_dropped (g_k s) ⊆ k_dropped (g_k s')) /\
  (forall i, Z.of_nat (length (frames (pool_at s i))) = nframes (pool_at s i) /\ Z.of_nat (length (copies (pool_at s i))) = nframes (pool_at s i) /\
             nframes (pool_at s i) <= ORCH_SHM_MAX_FRAMES).
Proof.
  intros H. pose proof (shm_reach_inv _ _ _ H) as [_ Hl Hd Hu _ Ho]. split; [done|]. split; [done|]. split; [done|]. split; [intros ->; by eapply no_comp_dropped|].
  split; [intros s' Hs; by apply (step_dropped _ _ _ _ Hs)|]. intros i. by destruct (Ho i).
Qed.

(** A pool mapped in the compositor with one page table, one that cannot be completed, and
    the growth of the first, with another page table. *)
Definition demo_shm : shm :=
  let s := (orch_shm_pool_alloc 8192 7 empty_shm).1 in
  let s := (orch_shm_pool_map_compositor 0 9 0x300000000 (with_oracle [] [1; 0]%nat s)).1 in
  let s := (orch_shm_pool_alloc 20000 8 (with_oracle [false; false; false; true] [1]%nat s)).1 in
  (orch_shm_pool_grow 0 9000 s).1.

Lemma pools_own_their_caps_witness :
  (elements (k_live (g_k demo_shm)) ≡ₚ [0; 1; 2; 3; 4; 7; 8; 9]) /\ elements (k_dropped (g_k demo_shm)) ≡ₚ [4; 9] /\
  (forall x, x ∈ k_live (g_k demo_shm) <-> x ∈ k_dropped (g_k demo_shm) \/ exists i, holds_cap demo_shm i x) /\
  (forall i j x, holds_cap demo_shm i x -> holds_cap demo_shm j x -> i = j).
Proof.
  split; [apply (bool_decide_eq_true_1 (_ ≡ₚ _)); by vm_compute|]. split; [apply (bool_decide_eq_true_1 (_ ≡ₚ _)); by vm_compute|].
  destruct (pools_own_their_caps true demo_shm) as (H1&_&H3&_); [|by split]. unfold demo_shm. cbv zeta.
  eapply sh_step; [|by apply ss_grow]. eapply sh_step; [|by apply ss_alloc]. eapply sh_step; [|apply ss_fail].
  eapply sh_step; [|by apply ss_comp]. eapply sh_step; [|apply ss_fail]. eapply sh_step; [|by apply ss_alloc]. apply sh_start.
Defined.

(** ** Sizes *)

(** Sizes for which rounding up to pages does not wrap. *)
Definition sane_size (n : Z) : Prop := 0 <= n <= 2 ^ 64 - PAGE_4K.

Lemma frames_cover n : sane_size n -> n <= frames_for n * PAGE_4K.
Proof.
  unfold sane_size, frames_for, PAGE_4K. intros H. rewrite u64_small by lia.
  pose proof (Z.div_mod (n + 4096 - 1) 4096 ltac:(lia)). pose proof (Z.mod_pos_bound (n + 4096 - 1) 4096 ltac:(lia)). lia.
Qed.

(** The size of a pool, which the compositor is told, is covered by its frames as
    long as no client asks for one within a page of 2^64. *)
Lemma size_covered comp s i : shm_reach sane_size comp s -> used (pool_at s i) = true -> p_size (pool_at s i) <= nframes (pool_at s i) * PAGE_4K.
Proof.
  intros Hr. apply (reach_pools sane_size comp (fun p => used p = true -> p_size p <= nframes p * PAGE_4K)); [done| |done].
  clear. intros p p' H Hp. destruct H; cbn; try done; try (intros _; auto).
  - by apply frames_cover.
  - unfold PAGE_4K in *. pose proof (frames_cover _ H). unfold PAGE_4K in *. nia.
  - by apply frames_cover.
  - unfold unrefd. cbv zeta. destruct (_ <=? 0); [done|]. auto.
  - unfold unrefd. cbv zeta. destruct (_ <=? 0); [done|]. auto.
Qed.

(** ** Ways around the life cycle *)

(** A page table that the mapping in the compositor needed outlives the pool and its owner. *)
Example mapping_drops_paging :
  let s := (orch_shm_pool_alloc 4096 7 empty_shm).1 in
  let s := (orch_shm_pool_map_compositor 0 9 0x300000000 (with_oracle [] [1]%nat s)).1 in
  let s := orch_shm_pool_free_owner 7 s in
  g_pools s = g_pools empty_shm /\ elements (k_live (g_k s)) = [2].
Proof. by vm_compute. Qed.

(** ftruncate of a memfd to 2^64 - 1 bytes gives a pool of that size without a frame,
    and a second ftruncate makes a small pool as large. *)
Example wrapped_size :
  let s := (ftruncate_memfd (2 ^ 64 - 1) 7 zero_memfd empty_shm).1.2 in
  let '(m, t, _) := ftruncate_memfd 4096 7 zero_memfd empty_shm in
  let t := (ftruncate_memfd (2 ^ 64 - 1) 7 m t).1.2 in
  (orch_shm_pool_size 0 s, orch_shm_pool_nframes 0 s) = (2 ^ 64 - 1, 0) /\
  (orch_shm_pool_size 0 t, orch_shm_pool_nframes 0 t) = (2 ^ 64 - 1, 1).
Proof. by vm_compute. Qed.

(** A descriptor keeps the number of its pool.  Client 7 destroys its pool, client 8
    gets the place, and client 7 (address space 70) maps the frames of client 8. *)
Example stale_id_maps_another :
  let '(m7, s, _) := ftruncate_memfd 4096 7 zero_memfd empty_shm in
  let s := orch_shm_pool_wire_event 7 3 20 1 0 (orch_shm_pool_attach (m_pool_id m7) 7 3 20 s) in
  let '(m8, s, _) := ftruncate_memfd 4096 8 zero_memfd s in
  let '(_, s, va) := mmap_memfd 70 4096 m7 s in
  p_owner (pool_at s 0) = 8 /\ va = LUCAS_SHM_POOL_BASE /\ gmap_at (pool_at s 0) = Some (70, va).
Proof. by vm_compute. Qed.
