(* ===== verification/ShmWireTheorems.v ===== *)
(** * Shared-memory pools: a pool lives as long as the Wayland objects on it

    src/orch/shm_pool.c counts references by watching the requests that pass through.  The
    reference here is the Wayland protocol itself: [wl] has the wl_shm_pool and wl_buffer
    objects that exist, by connection and identifier, and the pool each is on.  The count of a
    pool is the number of these objects, and a request frees a pool exactly when it destroys
    the last one ([pool_outlives_refs]), for clients that follow the protocol, bind a pool to
    one wl_shm_pool and have at most eight buffers on it; with nine, or two, it is not. *)

From S2P Require Import Prelude ShmPool ShmPoolTheorems.

(** ** The objects of the clients *)

Inductive wl_class := WL_SHM_POOL | WL_BUFFER.
#[global] Instance wl_class_dec : EqDecision wl_class.
Proof. solve_decision. Defined.
Record wl_obj := mk_wl { wl_kind : wl_class; wl_at : nat }.
#[global] Instance wl_obj_dec : EqDecision wl_obj.
Proof. solve_decision. Defined.

(** By client, connection and identifier. *)
Abbreviation wl := (gmap (Z * Z * Z) wl_obj).

(** The objects on a pool, and its buffers. *)
Definition objs (w : wl) (i : nat) : wl := filter (fun ke => wl_at ke.2 = i) w.
Definition bufs (w : wl) (i : nat) : wl := filter (fun ke => ke.2 = mk_wl WL_BUFFER i) w.

(** wl_shm_pool.create_buffer (0) and .destroy (1), wl_buffer.destroy (0). *)
Definition wl_request (owner fd obj op nid : Z) (w : wl) : wl :=
  match w !! (owner, fd, obj) with
  | Some (mk_wl WL_SHM_POOL i) => if op =? 0 then <[(owner, fd, nid) := mk_wl WL_BUFFER i]> w else if op =? 1 then delete (owner, fd, obj) w else w
  | Some (mk_wl WL_BUFFER _) => if op =? 0 then delete (owner, fd, obj) w else w
  | None => w
  end.

(** A new buffer has an identifier that is not zero and not in use on the connection, and is
    one of at most eight on its pool. *)
Definition request_ok (w : wl) (owner fd obj op nid : Z) : Prop :=
  match w !! (owner, fd, obj) with
  | Some (mk_wl WL_SHM_POOL i) => op = 0 -> nid <> 0 /\ w !! (owner, fd, nid) = None /\ (size (bufs w i) < 8)%nat
  | _ => True
  end.

Definition wl_exit (owner : Z) (w : wl) : wl := filter (fun ke => ke.1.1.1 <> owner) w.

(** The calls, with what the clients' objects become. *)
Inductive wl_step : shm * wl -> shm * wl -> Prop :=
  | ws_fail fl pg s w : wl_step (s, w) (with_oracle fl pg s, w)
  | ws_alloc size owner s w : wl_step (s, w) ((orch_shm_pool_alloc size owner s).1, w)
  | ws_grow id size s w : wl_step (s, w) ((orch_shm_pool_grow id size s).1, w)
  | ws_guest id gv base want s w : wl_step (s, w) ((orch_shm_pool_map_guest id gv base want s).1, w)
  | ws_comp id pd base s w : wl_step (s, w) ((orch_shm_pool_map_compositor id pd base s).1, w)
  | ws_attach id i owner fd wire s w : live_id id s = Some i -> owner_has_conn (pool_at s i) = false -> wire <> 0 -> w !! (owner, fd, wire) = None ->
      wl_step (s, w) (orch_shm_pool_attach id owner fd wire s, <[(owner, fd, wire) := mk_wl WL_SHM_POOL i]> w)
  | ws_wire owner fd obj op nid s w : request_ok w owner fd obj op nid ->
      wl_step (s, w) (orch_shm_pool_wire_event owner fd obj op nid s, wl_request owner fd obj op nid w)
  | ws_exit owner s w : wl_step (s, w) (orch_shm_pool_free_owner owner s, wl_exit owner w).

Inductive wl_reach : shm * wl -> Prop :=
  | wl_start : wl_reach (empty_shm, ∅)
  | wl_next x x' : wl_reach x -> wl_step x x' -> wl_reach x'.

Lemma objs_Some w i k e : objs w i !! k = Some e <-> w !! k = Some e /\ wl_at e = i.
Proof. apply map_lookup_filter_Some. Qed.

Lemma objs_insert w k e i : w !! k = None -> objs (<[k := e]> w) i = if decide (wl_at e = i) then <[k := e]> (objs w i) else objs w i.
Proof.
  intros Hk. apply map_eq. intros k'. apply option_eq. intros e'. rewrite objs_Some. destruct (decide (k = k')) as [<-|Hne].
  - rewrite lookup_insert_eq. case_decide; [rewrite lookup_insert_eq|rewrite objs_Some, Hk]; naive_solver.
  - rewrite lookup_insert_ne by done. case_decide; [rewrite lookup_insert_ne by done|]; by rewrite objs_Some.
Qed.

Lemma objs_delete w k e i : w !! k = Some e -> objs (delete k w) i = if decide (wl_at e = i) then delete k (objs w i) else objs w i.
Proof.
  intros Hk. apply map_eq. intros k'. apply option_eq. intros e'. rewrite objs_Some. destruct (decide (k = k')) as [<-|Hne].
  - rewrite lookup_delete_eq. case_decide; [by rewrite lookup_delete_eq; naive_solver|rewrite objs_Some, Hk]; naive_solver.
  - rewrite lookup_delete_ne by done. case_decide; [rewrite lookup_delete_ne by done|]; by rewrite objs_Some.
Qed.

(** ** The invariant *)

(** A pool bound to a connection and the objects on it. *)
Record conn_agrees (p : shm_pool) (m : wl) : Prop := {
  ca_live : m <> ∅;
  ca_keys : forall o f x e, m !! (o, f, x) = Some e -> o = p_owner p /\ f = conn_fd p /\ x <> 0 /\
    match wl_kind e with WL_SHM_POOL => x = pool_wire_id p | WL_BUFFER => x ∈ buf_wire_ids p end;
  ca_pool : pool_wire_id p <> 0 -> wl_kind <$> m !! (p_owner p, conn_fd p, pool_wire_id p) = Some WL_SHM_POOL;
  ca_bufs : forall x, x <> 0 -> x ∈ buf_wire_ids p -> wl_kind <$> m !! (p_owner p, conn_fd p, x) = Some WL_BUFFER;
  ca_once : forall b b' x, x <> 0 -> buf_wire_ids p !! b = Some x -> buf_wire_ids p !! b' = Some x -> b = b';
  ca_count : refcount p = Z.of_nat (size m)
}.

Definition pool_agrees (p : shm_pool) (m : wl) : Prop :=
  if used p then
    if owner_has_conn p then conn_agrees p m
    else m = ∅ /\ refcount p = 1 /\ pool_wire_id p = 0 /\ forall x, x ∈ buf_wire_ids p -> x = 0
  else m = ∅.

Definition wl_inv (s : shm) (w : wl) : Prop := shm_inv s /\ forall i, pool_agrees (pool_at s i) (objs w i).

(** What it says of a pool. *)
Definition wire_fields (p : shm_pool) : bool * bool * Z * Z * Z * Z * list Z :=
  (used p, owner_has_conn p, refcount p, p_owner p, conn_fd p, pool_wire_id p, buf_wire_ids p).

Lemma agrees_ext p p' m : wire_fields p' = wire_fields p -> pool_agrees p m -> pool_agrees p' m.
Proof.
  unfold wire_fields. intros [= E1 E2 E3 E4 E5 E6 E7]. unfold pool_agrees. rewrite E1, E2, E3, E6, E7. destruct (used p), (owner_has_conn p); try done.
  intros []. constructor; rewrite ?E3, ?E4, ?E5, ?E6, ?E7; done.
Qed.

(** An object is on a pool in use, bound to its connection. *)
Lemma agrees_object s w o f x e : wl_inv s w -> w !! (o, f, x) = Some e ->
  let p := pool_at s (wl_at e) in
  used p = true /\ owner_has_conn p = true /\ p_owner p = o /\ conn_fd p = f /\ conn_agrees p (objs w (wl_at e)) /\ objs w (wl_at e) !! (o, f, x) = Some e.
Proof.
  intros [_ Hw] He. assert (Ho : objs w (wl_at e) !! (o, f, x) = Some e) by by apply objs_Some. cbv zeta. specialize (Hw (wl_at e)). unfold pool_agrees in Hw.
  destruct (used _); [|rewrite Hw in Ho; by apply lookup_empty_Some in Ho]. destruct (owner_has_conn _); [|destruct Hw as [Hw _]; rewrite Hw in Ho; by apply lookup_empty_Some in Ho].
  destruct (ca_keys _ _ Hw _ _ _ _ Ho) as (->&->&_). done.
Qed.

(** ** Requests *)

Lemma in_pools s i : shm_inv s -> used (pool_at s i) = true -> i ∈ seq 0 ORCH_SHM_MAX_POOLS.
Proof. intros Hs Hu%pool_at_lt. rewrite (si_pools s Hs) in Hu. apply elem_of_seq. lia. Qed.

Lemma buf_index_is p x : length (buf_wire_ids p) = SHM_BUF_WIRE_MAX -> x ∈ buf_wire_ids p -> exists b, buf_index p x = Some b.
Proof.
  intros Hl [b Hb]%list_elem_of_lookup_1. unfold buf_index. pose proof (lookup_lt_Some _ _ _ Hb) as Hlt.
  destruct (first_below_is_Some (fun b => (buf_wire_ids p).[b, 0] =? x) SHM_BUF_WIRE_MAX b) as [b' ->]; [lia| |by eexists]. rewrite Hb. cbn [default]. apply Z.eqb_refl.
Qed.

(** The scan of the pools ends at the pool the protocol names. *)
Lemma wire_find s w owner fd obj op nid ids : wl_inv s w -> obj <> 0 ->
  match w !! (owner, fd, obj) with
  | None => wire_loop ids owner fd obj op nid s = s
  | Some e => wl_at e ∈ ids ->
      match wl_kind e with
      | WL_SHM_POOL => wire_loop ids owner fd obj op nid s = pool_event (wl_at e) op nid s
      | WL_BUFFER => exists b, buf_wire_ids (pool_at s (wl_at e)) !! b = Some obj /\ wire_loop ids owner fd obj op nid s = buffer_event (wl_at e) b op s
      end
  end.
Proof.
  intros Hw Ho. induction ids as [|i ids IH]; cbn [wire_loop].
  { destruct (w !! _); [by intros ?%elem_of_nil|done]. }
  set (p := pool_at s i) in *. destruct (negb (used p) || negb (owner_has_conn p) || negb (p_owner p =? owner) || negb (conn_fd p =? fd)) eqn:Ec.
  { destruct (w !! _) as [e|] eqn:He; [|done]. intros [Hi|Hi]%elem_of_cons; [|by apply IH]. destruct (agrees_object _ _ _ _ _ _ Hw He) as (E1&E2&E3&E4&_). rewrite Hi in *. fold p in E1, E2, E3, E4.
    rewrite E1, E2, E3, E4, !Z.eqb_refl in Ec. done. }
  apply orb_false_iff in Ec as [Ec Ef%negb_false_iff%Z.eqb_eq]. apply orb_false_iff in Ec as [Ec Eo%negb_false_iff%Z.eqb_eq]. apply orb_false_iff in Ec as [Eu%negb_false_iff Eh%negb_false_iff].
  pose proof (proj2 Hw i) as Hp. fold p in Hp. unfold pool_agrees in Hp. rewrite Eu, Eh in Hp. pose proof (si_ok s (proj1 Hw) i) as [_ _ _ Hlen]. fold p in Hlen.
  destruct (negb (pool_wire_id p =? 0) && (pool_wire_id p =? obj)) eqn:Ew.
  - apply andb_true_iff in Ew as [Ew%negb_true_iff%Z.eqb_neq Ex%Z.eqb_eq]. pose proof (ca_pool _ _ Hp Ew) as Hk. rewrite Eo, Ef, Ex in Hk.
    destruct (objs w i !! (owner, fd, obj)) as [e|] eqn:He; [|done]. apply objs_Some in He as [-> <-]. intros _. injection Hk as ->. done.
  - destruct (buf_index p obj) as [b|] eqn:Eb.
    + pose proof (buf_index_Some p obj b Hlen Eb) as Hb. pose proof (ca_bufs _ _ Hp obj Ho (list_elem_of_lookup_2 _ _ _ Hb)) as Hk. rewrite Eo, Ef in Hk.
      destruct (objs w i !! (owner, fd, obj)) as [e|] eqn:He; [|done]. apply objs_Some in He as [-> <-]. intros _. injection Hk as ->. by exists b.
    + destruct (w !! _) as [e|] eqn:He; [|done]. intros [Hi|Hi]%elem_of_cons; [|by apply IH]. destruct (agrees_object _ _ _ _ _ _ Hw He) as (_&_&_&_&_&Hx). rewrite Hi in Hx.
      pose proof (ca_keys _ _ Hp _ _ _ _ Hx) as (_&_&_&Hm). destruct (wl_kind e).
      * rewrite <- Hm, Z.eqb_refl, (proj2 (Z.eqb_neq _ _)) in Ew by done. done.
      * destruct (buf_index_is p obj Hlen Hm) as [b Hb]. congruence.
Qed.

(** The table has a free place for each of the first eight buffers. *)
Lemma table_free p w i : conn_agrees p (objs w i) -> length (buf_wire_ids p) = SHM_BUF_WIRE_MAX -> (size (bufs w i) < 8)%nat -> exists b, buf_wire_ids p !! b = Some 0 /\ buf_index p 0 = Some b.
Proof.
  intros Hp Hl Hn. destruct (buf_index p 0) as [b|] eqn:E; [exists b; split; [by apply buf_index_Some|done]|]. exfalso.
  assert (Hz : forall b x, buf_wire_ids p !! b = Some x -> x <> 0).
  { intros b x Hb ->. destruct (buf_index_is p 0 Hl (list_elem_of_lookup_2 _ _ _ Hb)) as [b' Hb']. congruence. }
  set (keys := (fun x => (p_owner p, conn_fd p, x)) <$> buf_wire_ids p).
  assert (NoDup keys) as Hnd.
  { apply NoDup_fmap; [by intros x y [= ->]|]. apply NoDup_alt. intros b b' x Hb Hb'. apply (ca_once _ _ Hp b b' x); [by eapply Hz|done|done]. }
  assert (list_to_set keys ⊆ dom (bufs w i)) as Hsub.
  { intros k Hk%elem_of_list_to_set. apply list_elem_of_fmap in Hk as (x & -> & Hx). pose proof Hx as [b Hb]%list_elem_of_lookup_1. pose proof (ca_bufs _ _ Hp x (Hz b x Hb) Hx) as Hy.
    destruct (objs w i !! _) as [[c j]|] eqn:He; [|done]. injection Hy as ->. apply objs_Some in He as [He <-]. apply elem_of_dom. exists (mk_wl WL_BUFFER j). by apply map_lookup_filter_Some. }
  apply subseteq_size in Hsub. rewrite size_list_to_set, size_dom in Hsub by done. unfold keys in Hsub. rewrite length_fmap, Hl in Hsub. unfold SHM_BUF_WIRE_MAX in Hsub. lia.
Qed.

Lemma create_agrees p m b nid i : conn_agrees p m -> buf_wire_ids p !! b = Some 0 -> nid <> 0 -> m !! (p_owner p, conn_fd p, nid) = None ->
  conn_agrees (set_refs (refcount p + 1) (pool_wire_id p) (<[b := nid]> (buf_wire_ids p)) p) (<[(p_owner p, conn_fd p, nid) := mk_wl WL_BUFFER i]> m).
Proof.
  intros [Hl Hk Hp Hb Ho Hc] Hz Hn Hm. pose proof (lookup_lt_Some _ _ _ Hz) as Hlt.
  assert (Hin : forall x, x ∈ <[b := nid]> (buf_wire_ids p) -> x = nid \/ x ∈ buf_wire_ids p).
  { intros x [k Hx]%list_elem_of_lookup_1. destruct (decide (b = k)) as [<-|]; [rewrite list_lookup_insert_eq in Hx by done; left; congruence|rewrite list_lookup_insert_ne in Hx by done; right; by eapply list_elem_of_lookup_2]. }
  assert (Hin' : forall x, x <> 0 -> x ∈ buf_wire_ids p -> x ∈ <[b := nid]> (buf_wire_ids p)).
  { intros x Hx0 [k Hx]%list_elem_of_lookup_1. apply (list_elem_of_lookup_2 _ k). rewrite list_lookup_insert_ne; [done|]. intros <-. congruence. }
  assert (Hnew : nid ∉ buf_wire_ids p) by (intros Hx; pose proof (Hb nid Hn Hx) as Hy; by rewrite Hm in Hy).
  constructor; cbn [set_refs p_owner conn_fd pool_wire_id buf_wire_ids refcount].
  - apply insert_non_empty.
  - intros o f x e. rewrite lookup_insert_Some. intros [[[= <- <- <-] <-]|[_ He]].
    + split_and!; try done. cbn. by eapply list_elem_of_lookup_2, list_lookup_insert_eq.
    + destruct (Hk _ _ _ _ He) as (->&->&Hx&Hy). split_and!; try done. destruct (wl_kind e); [done|by apply Hin'].
  - intros Hw. rewrite lookup_insert_ne; [by apply Hp|]. intros [= E]. specialize (Hp Hw). rewrite <- E, Hm in Hp. done.
  - intros x Hx [->|Hx']%Hin; [by rewrite lookup_insert_eq|]. rewrite lookup_insert_ne; [by apply Hb|]. intros [= ->]. done.
  - intros k k' x Hx. destruct (decide (b = k)) as [<-|Hbk], (decide (b = k')) as [<-|Hbk']; rewrite ?list_lookup_insert_eq, ?list_lookup_insert_ne by done; [done| | |by apply Ho].
    + intros [= <-] Hy. by apply list_elem_of_lookup_2 in Hy.
    + intros Hy [= <-]. by apply list_elem_of_lookup_2 in Hy.
  - rewrite map_size_insert_None by done. lia.
Qed.

(** An object goes: [q] is the pool without its identifier. *)
Lemma drop_agrees p m k e q : conn_agrees p m -> m !! k = Some e -> wire_fields q = (true, true, refcount p, p_owner p, conn_fd p, pool_wire_id q, buf_wire_ids q) ->
  (pool_wire_id q = match wl_kind e with WL_SHM_POOL => 0 | WL_BUFFER => pool_wire_id p end) ->
  (forall b x, x <> 0 -> buf_wire_ids q !! b = Some x <-> buf_wire_ids p !! b = Some x /\ (wl_kind e = WL_BUFFER -> x <> k.2)) ->
  used p = true -> pool_agrees (unrefd q) (delete k m).
Proof.
  intros [Hl Hk Hp Hb Ho Hc] He Hq Hw Hbq Hu. unfold wire_fields in Hq. injection Hq as Q1 Q2 Q3 Q4 Q5.
  assert (Hin : forall x, x <> 0 -> x ∈ buf_wire_ids q <-> x ∈ buf_wire_ids p /\ (wl_kind e = WL_BUFFER -> x <> k.2)).
  { intros x Hx. split; [intros [b Hy]%list_elem_of_lookup_1; apply Hbq in Hy as [Hy Hn]; [|done]; split; [by eapply list_elem_of_lookup_2|done]|].
    intros [[b Hy]%list_elem_of_lookup_1 Hn]. apply (list_elem_of_lookup_2 _ b). by apply Hbq. }
  assert (size m = S (size (delete k m))) as Hsz by (rewrite map_size_delete_Some by eauto; assert (size m <> 0%nat) by (intros ->%map_size_empty_iff; done); lia).
  unfold unrefd. cbv zeta. rewrite Q3, Hc, Z.gtb_ltb, (proj2 (Z.ltb_lt 0 _)) by lia. destruct (Z.leb_spec (Z.of_nat (size m) - 1) 0) as [Hz|Hz].
  { cbn. apply map_size_empty_iff. lia. }
  unfold pool_agrees. cbn [set_refs used owner_has_conn]. rewrite Q1, Q2. destruct k as [[ko kf] kx]. destruct (Hk _ _ _ _ He) as (->&->&Hk0&Hkm). cbn [snd] in *.
  constructor; cbn [set_refs p_owner conn_fd pool_wire_id buf_wire_ids refcount].
  - intros E%map_size_empty_iff. lia.
  - intros o f x e'. rewrite lookup_delete_Some, Q4, Q5. intros [Hne He']. destruct (Hk _ _ _ _ He') as (->&->&Hx&Hy). split_and!; try done. destruct (wl_kind e') eqn:Ek.
    + rewrite Hw. destruct (wl_kind e) eqn:Eke; [|done]. congruence.
    + apply Hin; [done|]. split; [done|]. intros _. congruence.
  - rewrite Hw, Q4, Q5. destruct (wl_kind e) eqn:Eke; [done|]. intros Hw0. rewrite lookup_delete_ne; [by apply Hp|]. intros [= E]. specialize (Hp Hw0). rewrite <- E, He in Hp. cbn in Hp. congruence.
  - rewrite Q4, Q5. intros x Hx [Hx' Hn]%Hin; [|done]. rewrite lookup_delete_ne; [by apply Hb|]. intros [= ->]. destruct (wl_kind e) eqn:Eke; [|by apply Hn].
    specialize (Hb x Hx Hx'). rewrite He in Hb. cbn in Hb. congruence.
  - intros b b' x Hx [H1 _]%Hbq [H2 _]%Hbq; try done. by apply (Ho b b' x).
  - lia.
Qed.

(** A request changes one pool. *)
Lemma wl_put s w w' i p' s' : wl_inv s w -> shm_inv s' -> (forall j, pool_at s' j = if decide (i = j) then p' else pool_at s j) ->
  pool_agrees p' (objs w' i) -> (forall j, j <> i -> objs w' j = objs w j) -> wl_inv s' w'.
Proof. intros [_ Hw] Hs Hat Hp Hj. split; [done|]. intros j. rewrite Hat. case_decide as Hd; [by subst|]. rewrite Hj by congruence. apply Hw. Qed.

Lemma wl_drop s w i k e q : wl_inv s w -> w !! k = Some e -> i = wl_at e -> conn_agrees (pool_at s i) (objs w i) -> used (pool_at s i) = true ->
  shm_inv (shm_unref i (put_pool i q s)) ->
  wire_fields q = (true, true, refcount (pool_at s i), p_owner (pool_at s i), conn_fd (pool_at s i), pool_wire_id q, buf_wire_ids q) ->
  (pool_wire_id q = match wl_kind e with WL_SHM_POOL => 0 | WL_BUFFER => pool_wire_id (pool_at s i) end) ->
  (forall b x, x <> 0 -> buf_wire_ids q !! b = Some x <-> buf_wire_ids (pool_at s i) !! b = Some x /\ (wl_kind e = WL_BUFFER -> x <> k.2)) ->
  wl_inv (shm_unref i (put_pool i q s)) (delete k w).
Proof.
  intros Hw Hk -> Hc Hu Hs Hq Hwi Hb. apply (wl_put s w _ (wl_at e) (unrefd q)); [done|done| | |].
  - intros j. apply unref_at; [unfold wire_fields in Hq; congruence|by apply pool_at_lt].
  - rewrite (objs_delete w k e) by done. rewrite decide_True by done. eapply drop_agrees; [exact Hc|by apply objs_Some|done|done|done|done].
  - intros j Hj. rewrite (objs_delete w k e) by done. by rewrite decide_False by congruence.
Qed.

Lemma wl_wire owner fd obj op nid s w : wl_inv s w -> request_ok w owner fd obj op nid ->
  wl_inv (orch_shm_pool_wire_event owner fd obj op nid s) (wl_request owner fd obj op nid w).
Proof.
  intros Hw Hr. assert (Hs' : shm_inv (orch_shm_pool_wire_event owner fd obj op nid s)) by (apply (inv_shm_step (fun _ => True) true s), Hw; apply ss_wire).
  unfold orch_shm_pool_wire_event, wl_request, request_ok in *. destruct (Z.eqb_spec obj 0) as [->|Ho].
  { destruct (w !! (owner, fd, 0)) as [e|] eqn:He; [|done]. destruct (agrees_object _ _ _ _ _ _ Hw He) as (_&_&_&_&Hc&Hx). by destruct (ca_keys _ _ Hc _ _ _ _ Hx) as (_&_&[]&_). }
  pose proof (wire_find s w owner fd obj op nid (seq 0 ORCH_SHM_MAX_POOLS) Hw Ho) as Hf. destruct (w !! (owner, fd, obj)) as [e|] eqn:He; [|by rewrite Hf].
  destruct (agrees_object _ _ _ _ _ _ Hw He) as (Hu&Hh&Eo&Ef&Hc&Hx). specialize (Hf (in_pools _ _ (proj1 Hw) Hu)). pose proof (si_ok s (proj1 Hw) (wl_at e)) as [_ _ _ Hlen].
  destruct e as [[] i]; cbn [wl_kind wl_at] in *.
  - rewrite Hf in *. unfold pool_event in *. destruct (Z.eqb_spec op 0) as [Hop|_].
    + destruct (Hr Hop) as (Hn0&Hnew&H8). destruct (table_free _ _ _ Hc Hlen H8) as (b&Hb&Eb). rewrite Eb in *.
      apply (wl_put s w _ i (set_refs (refcount (pool_at s i) + 1) (pool_wire_id (pool_at s i)) (<[b:=nid]> (buf_wire_ids (pool_at s i))) (pool_at s i))); [done|done| | |].
      * intros j. apply pool_at_put. by apply pool_at_lt.
      * rewrite objs_insert, decide_True by done. unfold pool_agrees. cbn [set_refs used owner_has_conn]. rewrite Hu, Hh, <- Eo, <- Ef. apply create_agrees; [done|done|done|].
        rewrite Eo, Ef. apply eq_None_not_Some. intros [e [E _]%objs_Some]. congruence.
      * intros j Hj. rewrite objs_insert by done. by rewrite decide_False by (cbn; congruence).
    + destruct (op =? 1); [|done]. eapply wl_drop; [done|exact He|done|done|done|done|by unfold wire_fields; cbn; rewrite Hu, Hh|done|cbn; naive_solver].
  - destruct Hf as (b&Hb&Hf). rewrite Hf in *. unfold buffer_event in *. destruct (op =? 0); [|done].
    eapply wl_drop; [done|exact He|done|done|done|done|by unfold wire_fields; cbn; rewrite Hu, Hh|done|]. cbn. intros b' x Hx0. pose proof (lookup_lt_Some _ _ _ Hb) as Hlt.
    destruct (decide (b = b')) as [<-|Hne]; [rewrite list_lookup_insert_eq by done; naive_solver|]. rewrite list_lookup_insert_ne by done. split; [|naive_solver].
    intros Hy. split; [done|]. intros _ ->. apply Hne. by apply (ca_once _ _ Hc b b' obj).
Qed.

(** ** The other calls *)

Lemma put_fields s i p j : wire_fields p = wire_fields (pool_at s i) -> wire_fields (pool_at (put_pool i p s) j) = wire_fields (pool_at s j).
Proof. intros E. destruct (pool_put_cases s i p j) as [->|[-> ->]]; done. Qed.

Lemma grow_fields id size s j : wire_fields (pool_at (orch_shm_pool_grow id size s).1 j) = wire_fields (pool_at s j).
Proof.
  unfold orch_shm_pool_grow. destruct (live_id id s) as [i|]; [|done]. cbv zeta. destruct (_ <=? _); [destruct (_ >? _); [by apply put_fields|done]|].
  destruct (_ >? _); [done|]. destruct (alloc_loop _ _ _ _) as [[[fs cs]|] k1]; [|done].
  destruct (match gmap_at _ with Some _ => remap k1 | None => (true, k1) end) as [[] k2]; by apply (put_fields (set_k _ s)).
Qed.

Lemma guest_fields id gv base want s j : wire_fields (pool_at (orch_shm_pool_map_guest id gv base want s).1 j) = wire_fields (pool_at s j).
Proof.
  unfold orch_shm_pool_map_guest. destruct (live_id id s) as [i|]; [|done]. destruct (gv =? 0); [done|].
  destruct (if _ >? _ then orch_shm_pool_grow id want s else (s, 0)) as [s1 rc] eqn:E.
  assert (H1 : wire_fields (pool_at s1 j) = wire_fields (pool_at s j)).
  { destruct (_ >? _); [|by injection E as <- _]. pose proof (grow_fields id want s j) as H. by rewrite E in H. }
  clear E. destruct (negb (rc =? 0)); [done|]. destruct (remap (g_k s1)) as [[] k]; destruct (gmap_at (pool_at s1 i)) as [[v b]|];
    [destruct (v =? gv); [done|]| |destruct (v =? gv); [done|]|]; rewrite <- H1; try done; by apply (put_fields (set_k k s1)).
Qed.

Lemma comp_fields id pd base s j : wire_fields (pool_at (orch_shm_pool_map_compositor id pd base s).1 j) = wire_fields (pool_at s j).
Proof.
  unfold orch_shm_pool_map_compositor. destruct (live_id id s) as [i|]; [|done]. destruct (pd =? 0); [done|]. cbv zeta.
  destruct (map_loop _ _) as [[] k]; [|done]. by apply (put_fields (set_k k s)).
Qed.

Lemma exit_pools owner s j : pool_at (orch_shm_pool_free_owner owner s) j = if decide (j < ORCH_SHM_MAX_POOLS)%nat then if used (pool_at s j) && (p_owner (pool_at s j) =? owner) then zero_pool else pool_at s j else pool_at s j.
Proof.
  unfold orch_shm_pool_free_owner. assert (forall l s, pool_at (fold_left (fun s i => if used (pool_at s i) && (p_owner (pool_at s i) =? owner) then orch_shm_pool_free i s else s) l s) j
    = if decide (j ∈ l) then if used (pool_at s j) && (p_owner (pool_at s j) =? owner) then zero_pool else pool_at s j else pool_at s j) as H.
  { clear s. intros l. induction l as [|i l IH]; intros s; cbn [fold_left]; [by rewrite decide_False by apply not_elem_of_nil|]. rewrite IH. clear IH.
    assert (Hone : pool_at (if used (pool_at s i) && (p_owner (pool_at s i) =? owner) then orch_shm_pool_free i s else s) j
      = if decide (i = j) then if used (pool_at s j) && (p_owner (pool_at s j) =? owner) then zero_pool else pool_at s j else pool_at s j).
    { unfold orch_shm_pool_free. destruct (used (pool_at s i)) eqn:Hu; cbn [andb]; [|case_decide; [subst; by rewrite Hu|done]].
      destruct (p_owner (pool_at s i) =? owner) eqn:Ho; [|case_decide; [subst; by rewrite Hu, Ho|done]].
      rewrite (pool_at_put (set_k _ s)) by (by apply pool_at_lt in Hu). case_decide; [subst; by rewrite Hu, Ho|done]. }
    rewrite Hone. destruct (decide (i = j)) as [->|Hne].
    - rewrite (decide_True (P := j ∈ j :: l)) by (apply elem_of_cons; by left). destruct (_ && _) eqn:E; [by destruct (decide (j ∈ l))|]. rewrite E. by destruct (decide (j ∈ l)).
    - destruct (decide (j ∈ l)) as [Hl|Hl]; [rewrite decide_True by (apply elem_of_cons; by right); done|]. rewrite decide_False; [done|]. intros [?|?]%elem_of_cons; congruence. }
  rewrite H. destruct (decide (j < ORCH_SHM_MAX_POOLS)%nat) as [Hl|Hl]; [rewrite decide_True by (apply elem_of_seq; lia); done|rewrite decide_False by (rewrite elem_of_seq; lia); done].
Qed.

Lemma wl_exits owner s w : wl_inv s w -> wl_inv (orch_shm_pool_free_owner owner s) (wl_exit owner w).
Proof.
  intros Hw. split; [apply (inv_shm_step (fun _ => True) true s), Hw; apply ss_exit|]. intros j. pose proof (proj2 Hw j) as Hp.
  assert (Hsub : forall k e, objs (wl_exit owner w) j !! k = Some e <-> objs w j !! k = Some e /\ k.1.1 <> owner).
  { intros k e. rewrite !objs_Some. unfold wl_exit. rewrite map_lookup_filter_Some. cbn. tauto. }
  assert (Hkeys : forall k e, objs w j !! k = Some e -> used (pool_at s j) = true /\ p_owner (pool_at s j) = k.1.1).
  { intros [[o f] x] e [He <-]%objs_Some. destruct (agrees_object _ _ _ _ _ _ Hw He) as (?&_&?&_). done. }
  rewrite exit_pools. destruct (used (pool_at s j)) eqn:Hu; [|].
  - pose proof (pool_at_lt s j Hu) as Hj. rewrite (si_pools s (proj1 Hw)) in Hj. rewrite decide_True by done. cbn [andb]. destruct (Z.eqb_spec (p_owner (pool_at s j)) owner) as [Ho|Ho].
    + cbn. apply map_empty. intros k. apply eq_None_not_Some. intros [e [He Hne]%Hsub]. destruct (Hkeys k e He). congruence.
    + assert (objs (wl_exit owner w) j = objs w j) as ->; [|done]. apply map_eq. intros k. apply option_eq. intros e. rewrite Hsub. split; [tauto|]. intros He. split; [done|]. destruct (Hkeys k e He). congruence.
  - unfold pool_agrees in *. cbn [andb]. rewrite Hu in Hp. assert (objs (wl_exit owner w) j = ∅) as ->. { apply map_empty. intros k. apply eq_None_not_Some. intros [e [He _]%Hsub]. rewrite Hp in He. by apply lookup_empty_Some in He. }
    case_decide; by rewrite Hu.
Qed.

Lemma wl_attaches id i owner fd wire s w : wl_inv s w -> live_id id s = Some i -> owner_has_conn (pool_at s i) = false -> wire <> 0 -> w !! (owner, fd, wire) = None ->
  wl_inv (orch_shm_pool_attach id owner fd wire s) (<[(owner, fd, wire) := mk_wl WL_SHM_POOL i]> w).
Proof.
  intros Hw Hid Hh Hw0 Hn. assert (Hs' : shm_inv (orch_shm_pool_attach id owner fd wire s)) by (apply (inv_shm_step (fun _ => True) true s), Hw; apply ss_attach).
  unfold orch_shm_pool_attach in *. rewrite Hid in *. apply live_id_Some in Hid as (Hu & _ & _). pose proof (proj2 Hw i) as Hp. unfold pool_agrees in Hp. rewrite Hu, Hh in Hp. destruct Hp as (Hm&Hr&Hz&Hb).
  eapply (wl_put s w _ i); [done|done|intros j; apply pool_at_put; by apply pool_at_lt| |].
  - rewrite objs_insert, decide_True, Hm by done. unfold pool_agrees. cbn [used owner_has_conn]. rewrite Hu. constructor; cbn [p_owner conn_fd pool_wire_id buf_wire_ids refcount].
    + apply insert_non_empty.
    + intros o f x e. rewrite lookup_insert_Some, lookup_empty. intros [[[= <- <- <-] <-]|[_ ?]]; done.
    + intros _. by rewrite lookup_insert_eq.
    + intros x Hx Hy%Hb. done.
    + intros b b' x Hx Hy%list_elem_of_lookup_2%Hb. done.
    + rewrite map_size_insert_None, map_size_empty by apply lookup_empty. done.
  - intros j Hj. rewrite objs_insert by done. by rewrite decide_False by (cbn; congruence).
Qed.

Lemma wl_allocs size owner s w : wl_inv s w -> wl_inv (orch_shm_pool_alloc size owner s).1 w.
Proof.
  intros Hw. split; [apply (inv_shm_step (fun _ => True) true s), Hw; by apply ss_alloc|]. intros j. pose proof (proj2 Hw j) as Hj. unfold orch_shm_pool_alloc.
  destruct (size =? 0); [done|]. destruct (_ >? _); [done|]. destruct (first_below _ _) as [i|] eqn:Hi; [|done]. apply first_below_Some in Hi as (_ & Hf%negb_true_iff & _).
  destruct (alloc_loop _ _ _ _) as [[[fs cs]|] k]; cbn [fst]; match goal with |- context [put_pool i ?p _] => destruct (pool_put_cases (set_k k s) i p j) as [->|[-> ->]] end; try done;
    unfold pool_agrees in *; rewrite Hf in Hj; cbn [used owner_has_conn refcount pool_wire_id buf_wire_ids zero_pool]; [|done].
  split_and!; try done. by intros x [-> _]%elem_of_replicate.
Qed.

Lemma wl_fields s w s' sane : wl_inv s w -> shm_step sane true s s' -> (forall j, wire_fields (pool_at s' j) = wire_fields (pool_at s j)) -> wl_inv s' w.
Proof. intros [Hs Hw] Hst He. split; [by eapply inv_shm_step|]. intros j. eapply agrees_ext; [apply He|apply Hw]. Qed.

Lemma wl_reach_inv x : wl_reach x -> wl_inv x.1 x.2.
Proof.
  induction 1 as [|x x' _ IH Hst].
  - split; [apply empty_inv|]. intros i. cbn [fst snd]. rewrite pool_at_empty. cbn. apply map_empty. intros k. apply eq_None_not_Some. intros [e [He _]%objs_Some]. by apply lookup_empty_Some in He.
  - destruct Hst; cbn [fst snd] in *; [by apply (wl_fields s _ _ (fun _ => True)); [|apply ss_fail|]|by apply wl_allocs| | | |by apply wl_attaches|by apply wl_wire|by apply wl_exits].
    + apply (wl_fields s _ _ (fun _ => True)); [done|by apply ss_grow|intros; apply grow_fields].
    + apply (wl_fields s _ _ (fun _ => True)); [done|by apply ss_guest|intros; apply guest_fields].
    + apply (wl_fields s _ _ (fun _ => True)); [done|by apply ss_comp|intros; apply comp_fields].
Qed.

(** ** The count *)

(** What a request leaves of a pool. *)
Lemma wire_keeps owner fd obj op nid s j : let p := pool_at s j in
  pool_at (orch_shm_pool_wire_event owner fd obj op nid s) j = zero_pool \/
  exists n wire ids, pool_at (orch_shm_pool_wire_event owner fd obj op nid s) j = set_refs n wire ids p.
Proof.
  cbv zeta. assert (Hid : pool_at s j = set_refs (refcount (pool_at s j)) (pool_wire_id (pool_at s j)) (buf_wire_ids (pool_at s j)) (pool_at s j)) by by destruct (pool_at s j).
  unfold orch_shm_pool_wire_event. destruct (obj =? 0); [right; eauto|]. generalize (seq 0 ORCH_SHM_MAX_POOLS) as l. induction l as [|i l IH]; cbn [wire_loop]; [right; eauto|].
  destruct (used (pool_at s i)) eqn:Hu; cbn [negb orb]; [|done]. pose proof (pool_at_lt s i Hu) as Hi.
  assert (Hun : forall n wr ids, let t := shm_unref i (put_pool i (set_refs n wr ids (pool_at s i)) s) in pool_at t j = zero_pool \/ exists n wire ids, pool_at t j = set_refs n wire ids (pool_at s j)).
  { intros n wr ids. cbv zeta. rewrite unref_at by done. case_decide; [subst|right; eauto]. unfold unrefd. cbv zeta. destruct (_ <=? 0); [by left|right]. by eexists _, _, _. }
  destruct (_ || _); [done|]. destruct (_ && _).
  - unfold pool_event. destruct (op =? 0); [|destruct (op =? 1); [apply Hun|right; eauto]]. destruct (buf_index _ _) as [b|]; [|right; eauto]. right.
    match goal with |- context [put_pool i ?p s] => destruct (pool_put_cases s i p j) as [->|[-> ->]] end; [eauto|by eexists _, _, _].
  - destruct (buf_index _ _) as [b|]; [|done]. unfold buffer_event. destruct (op =? 0); [apply Hun|right; eauto].
Qed.

(** C25: a pool lives as long as the Wayland objects on it.  Through any calls of clients
    that follow the protocol (a new identifier is not zero and not in use on its connection),
    each pool bound to one wl_shm_pool and with at most eight wl_buffers at a time, the count
    of a bound pool is the number of its wl_shm_pool and wl_buffers that exist, not zero; and
    a request, of any client to any object, frees the pool exactly when it destroys the last
    of them, and otherwise leaves its frames and copies. *)
Theorem pool_outlives_refs s w i : wl_reach (s, w) -> used (pool_at s i) = true -> owner_has_conn (pool_at s i) = true ->
  refcount (pool_at s i) = Z.of_nat (size (objs w i)) /\ objs w i <> ∅ /\
  forall owner fd obj op nid, request_ok w owner fd obj op nid ->
    let p' := pool_at (orch_shm_pool_wire_event owner fd obj op nid s) i in
    (used p' = true <-> objs (wl_request owner fd obj op nid w) i <> ∅) /\
    (used p' = true -> frames p' = frames (pool_at s i) /\ copies p' = copies (pool_at s i)).
Proof.
  intros Hr Hu Hh. pose proof (wl_reach_inv _ Hr) as Hw. cbn [fst snd] in Hw. pose proof (proj2 Hw i) as Hp. unfold pool_agrees in Hp. rewrite Hu, Hh in Hp.
  split; [apply Hp|]. split; [apply Hp|]. intros owner fd obj op nid Hok. cbv zeta. pose proof (proj2 (wl_wire owner fd obj op nid s w Hw Hok) i) as Hp'.
  destruct (wire_keeps owner fd obj op nid s i) as [E|(n&wr&ids&E)]; rewrite E in *; unfold pool_agrees in Hp'; cbn [used zero_pool set_refs owner_has_conn frames copies] in *.
  - split; [|done]. rewrite Hp'. done.
  - rewrite Hu, Hh in Hp'. split; [|done]. split; [intros _; apply Hp'|done].
Qed.

(** A client binds a pool and makes a buffer on it; the pool outlives the wl_shm_pool. *)
Definition demo_bound : shm := orch_shm_pool_wire_event 7 3 20 0 21 (orch_shm_pool_attach 0 7 3 20 (orch_shm_pool_alloc 8192 7 empty_shm).1).
Definition demo_objects : wl := {[(7, 3, 21) := mk_wl WL_BUFFER 0; (7, 3, 20) := mk_wl WL_SHM_POOL 0]}.

Lemma demo_wl_reach : wl_reach (demo_bound, demo_objects).
Proof.
  assert (demo_objects = wl_request 7 3 20 0 21 (<[(7, 3, 20) := mk_wl WL_SHM_POOL 0]> ∅)) as -> by (vm_compute; reflexivity). unfold demo_bound.
  eapply wl_next; [|apply ws_wire; vm_compute; intros _; split; [done|split; [done|lia]]]. eapply wl_next; [|apply ws_attach; by vm_compute]. eapply wl_next; [|apply ws_alloc]. apply wl_start.
Qed.

Lemma pool_outlives_refs_witness :
  refcount (pool_at demo_bound 0) = 2 /\ used (pool_at (orch_shm_pool_wire_event 7 3 20 1 0 demo_bound) 0) = true.
Proof.
  destruct (pool_outlives_refs demo_bound demo_objects 0 demo_wl_reach ltac:(by vm_compute) ltac:(by vm_compute)) as (Hc&_&Hf).
  split; [rewrite Hc; by vm_compute|]. destruct (Hf 7 3 20 1 0) as [Hl _]; [by vm_compute|]. apply Hl. by vm_compute.
Defined.

(** ** Outside the conditions *)

(** The ninth buffer is not counted (shm_pool.c:349-353): after the wl_shm_pool and the
    eight others are destroyed the pool is freed, while the client still has it. *)
Definition nine : list Z := seqZ 21 9.
Example ninth_buffer_uncounted :
  let create (x : shm * wl) (b : Z) := (orch_shm_pool_wire_event 7 3 20 0 b x.1, wl_request 7 3 20 0 b x.2) in
  let destroy (x : shm * wl) (o : Z * Z) := (orch_shm_pool_wire_event 7 3 o.1 o.2 0 x.1, wl_request 7 3 o.1 o.2 0 x.2) in
  let x := (orch_shm_pool_attach 0 7 3 20 (orch_shm_pool_alloc 4096 7 empty_shm).1, {[(7, 3, 20) := mk_wl WL_SHM_POOL 0]}) in
  let x := fold_left create nine x in
  let y := fold_left destroy ((20, 1) :: ((fun b => (b, 0)) <$> seqZ 21 8)) x in
  size (objs x.2 0) = 10%nat /\ refcount (pool_at x.1 0) = 9 /\ objs y.2 0 = {[(7, 3, 29) := mk_wl WL_BUFFER 0]} /\ used (pool_at y.1 0) = false.
Proof. by vm_compute. Qed.

(** A second wl_shm_pool on the same memfd takes the place of the first: its destruction
    frees the pool under a buffer of the first. *)
Example second_pool_object_frees :
  let s := orch_shm_pool_attach 0 7 3 20 (orch_shm_pool_alloc 4096 7 empty_shm).1 in
  let s := orch_shm_pool_wire_event 7 3 20 0 21 s in
  let s := orch_shm_pool_wire_event 7 3 20 1 0 s in
  let s := orch_shm_pool_attach 0 7 3 22 s in
  let t := orch_shm_pool_wire_event 7 3 22 1 0 s in
  buf_index (pool_at s 0) 21 = Some 0%nat /\ used (pool_at t 0) = false.
Proof. by vm_compute. Qed.

(** A buffer created with the number 0 is counted but can never be destroyed. *)
Example buffer_zero_pins :
  let s := orch_shm_pool_attach 0 7 3 20 (orch_shm_pool_alloc 4096 7 empty_shm).1 in
  let s := orch_shm_pool_wire_event 7 3 20 1 0 (orch_shm_pool_wire_event 7 3 20 0 0 s) in
  used (pool_at s 0) = true /\ pool_wire_id (pool_at s 0) = 0 /\ buf_wire_ids (pool_at s 0) = replicate SHM_BUF_WIRE_MAX 0.
Proof. by vm_compute. Qed.
