(* ===== verification/ShmObj.v ===== *)
(** * Named shared memory

    src/lucas/backends_shm.c, the mount at /dev/shm: eight named objects of one page,
    sixteen open handles.  Obtaining a frame and mapping it can fail by argument.  Names
    are byte lists without the terminator; a stat is its mode, size and inode number. *)

From S2P Require Import Prelude Storage.

Definition LUCAS_MAX_SHM_OBJECTS : nat := 8.
Definition LUCAS_SHM_HANDLES : nat := 16.
Definition LUCAS_SHM_PAGE_BYTES : Z := 4096.
Definition LUCAS_SHM_NAME_MAX : nat := 63.
Definition O_CREAT : Z := 0x40.
Definition O_EXCL : Z := 0x80.

Record shm_object := mk_obj { o_in_use : bool; o_unlinked : bool; o_open : Z; o_name : list Z; o_page : Z -> Z }.
Record shm_handle := mk_handle { h_in_use : bool; h_slot : Z; h_flags : Z }.
Record shm_fs := mk_shm_fs { g_objects : list shm_object; g_handles : list shm_handle }.

Definition zero_obj : shm_object := mk_obj false false 0 [] (fun _ => 0).
Definition zero_handle : shm_handle := mk_handle false 0 0.
Definition zero_shm_fs : shm_fs := mk_shm_fs (replicate LUCAS_MAX_SHM_OBJECTS zero_obj) (replicate LUCAS_SHM_HANDLES zero_handle).

(** Run by [vfs_install_defaults] for every sotbox that is spawned: both tables are cleared,
    whatever they held. *)
Definition lucas_shm_mount (s : shm_fs) : shm_fs := zero_shm_fs.

Definition obj_at (s : shm_fs) (i : nat) : shm_object := (g_objects s).[i, zero_obj].
Definition handle_at (s : shm_fs) (h : nat) : shm_handle := (g_handles s).[h, zero_handle].
Definition put_obj (i : nat) (o : shm_object) (s : shm_fs) : shm_fs := mk_shm_fs (<[i := o]> (g_objects s)) (g_handles s).
Definition put_handle (h : nat) (x : shm_handle) (s : shm_fs) : shm_fs := mk_shm_fs (g_objects s) (<[h := x]> (g_handles s)).

Definition set_open (n : Z) (o : shm_object) : shm_object := mk_obj (o_in_use o) (o_unlinked o) n (o_name o) (o_page o).
Definition set_unlinked (o : shm_object) : shm_object := mk_obj (o_in_use o) true (o_open o) (o_name o) (o_page o).
Definition set_page (m : Z -> Z) (o : shm_object) : shm_object := mk_obj (o_in_use o) (o_unlinked o) (o_open o) (o_name o) m.

Fixpoint skip_slashes (path : list Z) : list Z :=
  match path with
  | c :: path' => if c =? 47 then skip_slashes path' else path
  | [] => []
  end.

Definition normalise_name (path : list Z) : option (list Z) :=
  match skip_slashes path with [] => None | name => Some name end.

Definition obj_named (name : list Z) (o : shm_object) : bool := o_in_use o && negb (o_unlinked o) && bool_decide (o_name o = name).

Definition find_object_by_name (name : list Z) (s : shm_fs) : option nat :=
  first_below (fun i => obj_named name (obj_at s i)) LUCAS_MAX_SHM_OBJECTS.
Definition alloc_object_slot (s : shm_fs) : option nat := first_below (fun i => negb (o_in_use (obj_at s i))) LUCAS_MAX_SHM_OBJECTS.
Definition alloc_handle_slot (s : shm_fs) : option nat := first_below (fun i => negb (h_in_use (handle_at s i))) LUCAS_SHM_HANDLES.

Definition release_object (i : nat) (s : shm_fs) : shm_fs := if o_in_use (obj_at s i) then put_obj i zero_obj s else s.

Definition refers (s : shm_fs) (i h : nat) : bool := h_in_use (handle_at s h) && (h_slot (handle_at s h) =? Z.of_nat i).

(** No handle left: an object without open handles is released. *)
Definition no_handle (i : nat) (s : shm_fs) : shm_fs :=
  let o := obj_at s i in
  if (o_open o =? 0) && negb (o_unlinked o) && negb (existsb (refers s i) (seq 0 LUCAS_SHM_HANDLES)) then release_object i s else s.

(** The handle on success; otherwise the negative error. *)
Definition take_handle (i : nat) (flags : Z) (s : shm_fs) : shm_fs * Z :=
  match alloc_handle_slot s with
  | None => (no_handle i s, -24)
  | Some h => (put_obj i (set_open (o_open (obj_at s i) + 1) (obj_at s i)) (put_handle h (mk_handle true (Z.of_nat i) flags) s), Z.of_nat h)
  end.

Definition create_object (name : list Z) (frame_ok map_ok : bool) (s : shm_fs) : shm_fs * option nat * Z :=
  match alloc_object_slot s with
  | None => (s, None, -28)
  | Some i =>
      if frame_ok && map_ok then (put_obj i (mk_obj true false 0 name (fun _ => 0)) s, Some i, 0)
      else (put_obj i zero_obj s, None, -12)
  end.

Definition flag_on (flags bit : Z) : bool := negb (Z.land flags bit =? 0).

Definition op_open (path : list Z) (flags : Z) (caller frame_ok map_ok : bool) (s : shm_fs) : shm_fs * Z :=
  match normalise_name path with
  | None => (s, -22)
  | Some name =>
      if (LUCAS_SHM_NAME_MAX <? length name)%nat then (s, -36)
      else if negb caller then (s, -5)
      else
        match find_object_by_name name s with
        | Some i => if flag_on flags O_CREAT && flag_on flags O_EXCL then (s, -17) else take_handle i flags s
        | None =>
            if negb (flag_on flags O_CREAT) then (s, -2)
            else
              match create_object name frame_ok map_ok s with
              | (s, Some i, _) => take_handle i flags s
              | (s, None, e) => (s, e)
              end
        end
  end.

Definition op_close (h : nat) (s : shm_fs) : shm_fs :=
  let x := handle_at s h in
  if negb (h_in_use x) then s
  else
    let s := put_handle h (mk_handle false (-1) (h_flags x)) s in
    if (h_slot x <? 0) || (h_slot x >=? Z.of_nat LUCAS_MAX_SHM_OBJECTS) then s
    else
      let i := Z.to_nat (h_slot x) in
      let o := obj_at s i in
      if negb (o_in_use o) then s
      else
        let n := if o_open o >? 0 then o_open o - 1 else o_open o in
        let s := put_obj i (set_open n o) s in
        if (n =? 0) && o_unlinked o then release_object i s else s.

(** The object behind a handle. *)
Definition behind (h : nat) (s : shm_fs) : option nat :=
  let x := handle_at s h in
  if negb (h_in_use x) || (h_slot x <? 0) || (h_slot x >=? Z.of_nat LUCAS_MAX_SHM_OBJECTS) then None
  else if o_in_use (obj_at s (Z.to_nat (h_slot x))) then Some (Z.to_nat (h_slot x)) else None.

(** The bytes read, or the error. *)
Definition op_read (h : nat) (count cursor : Z) (s : shm_fs) : list Z + Z :=
  match behind h s with
  | None => inr (-9)
  | Some i =>
      if cursor <? 0 then inr (-22)
      else if cursor >=? LUCAS_SHM_PAGE_BYTES then inl []
      else
        let available := LUCAS_SHM_PAGE_BYTES - cursor in
        inl (slice (o_page (obj_at s i)) cursor (Z.to_nat (if count >? available then available else count)))
  end.

Definition op_write (h : nat) (buf : list Z) (cursor : Z) (s : shm_fs) : shm_fs * Z :=
  match behind h s with
  | None => (s, -9)
  | Some i =>
      if cursor <? 0 then (s, -22)
      else if cursor >=? LUCAS_SHM_PAGE_BYTES then (s, -27)
      else
        let writable := LUCAS_SHM_PAGE_BYTES - cursor in
        let count := if Z.of_nat (length buf) >? writable then writable else Z.of_nat (length buf) in
        (put_obj i (set_page (overlay (o_page (obj_at s i)) cursor (take (Z.to_nat count) buf)) (obj_at s i)) s, count)
  end.

(** Mode, size and inode; the mount itself is a directory. *)
Definition op_stat (path : list Z) (s : shm_fs) : (Z * Z * Z) + Z :=
  match normalise_name path with
  | None => inl (0x41FF, 0, 1)
  | Some name =>
      match find_object_by_name name s with
      | None => inr (-2)
      | Some i => inl (0x81B6, LUCAS_SHM_PAGE_BYTES, 100 + Z.of_nat i)
      end
  end.

Definition op_fstat (h : nat) (s : shm_fs) : (Z * Z * Z) + Z :=
  match behind h s with
  | None => inr (-9)
  | Some i => inl (0x81B6, LUCAS_SHM_PAGE_BYTES, 100 + Z.of_nat i)
  end.

Definition lucas_shm_unlink_name (path : list Z) (s : shm_fs) : shm_fs * Z :=
  match normalise_name path with
  | None => (s, -22)
  | Some name =>
      match find_object_by_name name s with
      | None => (s, -2)
      | Some i =>
          let s := put_obj i (set_unlinked (obj_at s i)) s in
          (if o_open (obj_at s i) =? 0 then release_object i s else s, 0)
      end
  end.
