(* ===== verification/ShmObjTheorems.v ===== *)
(** * Named shared memory: names, handles and the life of an object

    The invariant of the two tables, the content of an object as all its handles see
    it, unlinking, an open that destroys what it could not open, and a spawn that clears
    the tables. *)

From S2P Require Import Prelude Storage ShmObj.

Definition on_slot (i : nat) (x : shm_handle) : Prop := h_in_use x = true /\ h_slot x = Z.of_nat i.

#[export] Instance on_slot_dec i x : Decision (on_slot i x).
Proof. unfold on_slot. apply _. Defined.

Definition handles_on (s : shm_fs) (i : nat) : Z := Z.of_nat (length (filter (on_slot i) (g_handles s))).

Record shm_fs_ok (s : shm_fs) : Prop := {
  so_objects : length (g_objects s) = LUCAS_MAX_SHM_OBJECTS;
  so_handles : length (g_handles s) = LUCAS_SHM_HANDLES;
  so_slot : forall h, h_in_use (handle_at s h) = true -> exists i, h_slot (handle_at s h) = Z.of_nat i /\ (i < LUCAS_MAX_SHM_OBJECTS)%nat /\ o_in_use (obj_at s i) = true;
  so_count : forall i, o_in_use (obj_at s i) = true -> o_open (obj_at s i) = handles_on s i;
  so_unlinked : forall i, o_in_use (obj_at s i) = true -> o_unlinked (obj_at s i) = true -> 0 < o_open (obj_at s i);
  so_names : forall i j name, obj_named name (obj_at s i) = true -> obj_named name (obj_at s j) = true -> i = j
}.

Lemma obj_at_put s i j o : (i < length (g_objects s))%nat -> obj_at (put_obj i o s) j = if decide (i = j) then o else obj_at s j.
Proof. intros H. unfold obj_at, put_obj. cbn [g_objects]. by rewrite array_get_insert. Qed.

Lemma handle_at_put s h k x : (h < length (g_handles s))%nat -> handle_at (put_handle h x s) k = if decide (h = k) then x else handle_at s k.
Proof. intros H. unfold handle_at, put_handle. cbn [g_handles]. by rewrite array_get_insert. Qed.

Lemma in_use_lt s i : o_in_use (obj_at s i) = true -> (i < length (g_objects s))%nat.
Proof. intros H. destruct (decide (i < length (g_objects s))%nat); [done|]. unfold obj_at in H. rewrite lookup_ge_None_2 in H by lia. done. Qed.

Lemma handle_lt s h : h_in_use (handle_at s h) = true -> (h < length (g_handles s))%nat.
Proof. intros H. destruct (decide (h < length (g_handles s))%nat); [done|]. unfold handle_at in H. rewrite lookup_ge_None_2 in H by lia. done. Qed.

Lemma obj_named_spec name o : obj_named name o = true <-> o_in_use o = true /\ o_unlinked o = false /\ o_name o = name.
Proof. unfold obj_named. rewrite !andb_true_iff, negb_true_iff, bool_decide_eq_true. tauto. Qed.

Lemma no_handles_on s i : handles_on s i = 0 -> forall h, h_in_use (handle_at s h) = true -> h_slot (handle_at s h) <> Z.of_nat i.
Proof.
  intros Hz h Hh Hs. pose proof (handle_lt s h Hh) as Hl. unfold handles_on in Hz.
  assert (Hin : handle_at s h ∈ filter (on_slot i) (g_handles s)).
  { apply list_elem_of_filter. split; [by split|]. apply list_elem_of_lookup. exists h. by apply array_lookup_lt. }
  destruct (filter _ _); [by apply elem_of_nil in Hin|done].
Qed.

(** Replacing an object that keeps_obj its handles, its name or less. *)
Lemma ok_put_obj s i o : shm_fs_ok s -> (i < LUCAS_MAX_SHM_OBJECTS)%nat ->
  (o_in_use o = false -> handles_on s i = 0) -> (o_in_use o = true -> o_open o = handles_on s i) ->
  (o_in_use o = true -> o_unlinked o = true -> 0 < o_open o) ->
  (forall name j, obj_named name o = true -> obj_named name (obj_at s j) = true -> i = j) -> shm_fs_ok (put_obj i o s).
Proof.
  intros [L1 L2 Hs Hc Hu Hn] Hi Hfree Hcount Hunl Hname. rewrite <- L1 in Hi.
  assert (Hat : forall j, obj_at (put_obj i o s) j = if decide (i = j) then o else obj_at s j) by (intros j; by apply obj_at_put). constructor.
  - cbn. by rewrite length_insert.
  - done.
  - intros h Hh. destruct (Hs h Hh) as (k & Hk & Hkl & Hko). exists k. split; [done|]. split; [done|]. rewrite Hat. case_decide; [|done]. subst k.
    destruct (o_in_use o); [done|]. by destruct (no_handles_on s i (Hfree eq_refl) h Hh).
  - intros j. rewrite Hat. case_decide; [subst; apply Hcount|apply Hc].
  - intros j. rewrite Hat. case_decide; [subst; apply Hunl|apply Hu].
  - intros j k name. rewrite !Hat. case_decide as D1; case_decide as D2; subst; [done| | |apply Hn].
    + intros H1 H2. by apply (Hname name k).
    + intros H1 H2. symmetry. by apply (Hname name j).
Qed.

Lemma ok_same_name s i o : shm_fs_ok s -> obj_named (o_name o) o = true -> o_in_use (obj_at s i) = true -> o_unlinked (obj_at s i) = false ->
  o_name o = o_name (obj_at s i) -> forall name j, obj_named name o = true -> obj_named name (obj_at s j) = true -> i = j.
Proof.
  intros Hs Ho Hi Hu He name j H1 H2. apply (so_names s Hs i j name); [|done]. apply obj_named_spec in H1 as (_ & _ & <-). apply obj_named_spec. auto.
Qed.

Lemma ok_release s i : shm_fs_ok s -> handles_on s i = 0 -> shm_fs_ok (release_object i s).
Proof.
  intros Hs Hz. unfold release_object. destruct (o_in_use (obj_at s i)) eqn:Hu; [|done]. pose proof (in_use_lt s i Hu) as Hi. rewrite (so_objects s Hs) in Hi.
  by apply ok_put_obj.
Qed.

(** Storing a handle changes the counts by what is stored and what was there. *)
Lemma handles_on_put s h x i : (h < length (g_handles s))%nat ->
  handles_on (put_handle h x s) i = handles_on s i - (if decide (on_slot i (handle_at s h)) then 1 else 0) + (if decide (on_slot i x) then 1 else 0).
Proof.
  intros Hh. unfold handles_on, put_handle. cbn [g_handles].
  pose proof (filter_insert_length (on_slot i) _ _ _ x (array_lookup_lt (g_handles s) h zero_handle Hh)) as H. fold (handle_at s h) in H.
  repeat case_decide; lia.
Qed.

(** A handle and the object it is on. *)
Lemma ok_both s i o h x : shm_fs_ok s -> (i < LUCAS_MAX_SHM_OBJECTS)%nat -> (h < LUCAS_SHM_HANDLES)%nat ->
  (h_in_use (handle_at s h) = true -> h_slot (handle_at s h) = Z.of_nat i) -> (h_in_use x = true -> h_slot x = Z.of_nat i) ->
  (o_in_use o = false -> handles_on (put_handle h x s) i = 0) -> (o_in_use o = true -> o_open o = handles_on (put_handle h x s) i) ->
  (o_in_use o = true -> o_unlinked o = true -> 0 < o_open o) ->
  (forall name j, obj_named name o = true -> obj_named name (obj_at s j) = true -> i = j) -> shm_fs_ok (put_obj i o (put_handle h x s)).
Proof.
  intros [L1 L2 Hs Hc Hu Hn] Hi Hh Hold Hnew Hfree Hcount Hunl Hname. rewrite <- L1 in Hi. rewrite <- L2 in Hh.
  assert (Hat : forall j, obj_at (put_obj i o (put_handle h x s)) j = if decide (i = j) then o else obj_at s j) by (intros j; by apply (obj_at_put (put_handle h x s))).
  assert (Hother : forall j, i <> j -> handles_on (put_handle h x s) j = handles_on s j).
  { intros j Hj. rewrite handles_on_put by done. rewrite !decide_False; [lia| |]; intros [U E]; [specialize (Hnew U)|specialize (Hold U)]; lia. }
  assert (Hha : forall k, handle_at (put_obj i o (put_handle h x s)) k = if decide (h = k) then x else handle_at s k) by (intros k; by apply handle_at_put).
  constructor.
  - cbn. by rewrite length_insert.
  - cbn. by rewrite length_insert.
  - intros k. rewrite Hha. intros Hk.
    assert (Hslot : exists j, h_slot (if decide (h = k) then x else handle_at s k) = Z.of_nat j /\ (j < LUCAS_MAX_SHM_OBJECTS)%nat /\ (i <> j -> o_in_use (obj_at s j) = true)).
    { case_decide; [exists i; split; [by apply Hnew|]; split; [lia|done]|]. destruct (Hs k Hk) as (j & H1 & H2 & H3). by exists j. }
    destruct Hslot as (j & H1 & H2 & H3). exists j. split; [done|]. split; [done|]. rewrite Hat. destruct (decide (i = j)) as [<-|D]; [|by apply H3].
    destruct (o_in_use o); [done|]. exfalso. refine (no_handles_on (put_handle h x s) i (Hfree eq_refl) k _ _).
    + rewrite handle_at_put by done. exact Hk.
    + rewrite handle_at_put by done. exact H1.
  - intros j. rewrite Hat. change (handles_on (put_obj i o (put_handle h x s)) j) with (handles_on (put_handle h x s) j).
    case_decide; [subst; apply Hcount|]. rewrite Hother by done. apply Hc.
  - intros j. rewrite Hat. case_decide; [subst; apply Hunl|apply Hu].
  - intros j k name. rewrite !Hat. case_decide as D1; case_decide as D2; subst; [done| | |apply Hn].
    + intros H1 H2. by apply (Hname name k).
    + intros H1 H2. symmetry. by apply (Hname name j).
Qed.

(** ** The operations *)

Lemma ok_take_handle s i flags : shm_fs_ok s -> o_in_use (obj_at s i) = true -> shm_fs_ok (take_handle i flags s).1.
Proof.
  intros Hs Hu. pose proof (in_use_lt s i Hu) as Hi. rewrite (so_objects s Hs) in Hi. unfold take_handle.
  destruct (alloc_handle_slot s) as [h|] eqn:Hh; cbn [fst].
  - apply first_below_Some in Hh as (Hhl & Hfree%negb_true_iff & _).
    assert (Hc : handles_on (put_handle h (mk_handle true (Z.of_nat i) flags) s) i = handles_on s i + 1).
    { rewrite handles_on_put by (by rewrite (so_handles s Hs)). rewrite decide_False by (intros [U _]; congruence). rewrite decide_True by done. lia. }
    apply ok_both; try done; cbn [set_open o_in_use o_open o_unlinked].
    + congruence.
    + congruence.
    + intros _. rewrite Hc. by rewrite (so_count s Hs).
    + intros _ _. pose proof (so_count s Hs i Hu). unfold handles_on in *. lia.
    + intros name j H1 H2. by apply (so_names s Hs i j name).
  - unfold no_handle. destruct (_ && _) eqn:E; [|done]. apply ok_release; [done|]. apply andb_true_iff in E as [E _].
    apply andb_true_iff in E as [E%Z.eqb_eq _]. by rewrite <- (so_count s Hs).
Qed.

Lemma ok_create s name f m : shm_fs_ok s -> find_object_by_name name s = None ->
  shm_fs_ok (create_object name f m s).1.1 /\ forall i, (create_object name f m s).1.2 = Some i -> o_in_use (obj_at (create_object name f m s).1.1 i) = true.
Proof.
  intros Hs Hf. unfold create_object. destruct (alloc_object_slot s) as [i|] eqn:Hi; [|done]. apply first_below_Some in Hi as (Hil & Hfree%negb_true_iff & _).
  assert (Hz : handles_on s i = 0).
  { unfold handles_on. destruct (filter (on_slot i) (g_handles s)) as [|x l] eqn:E; [done|]. exfalso.
    assert (Hin : x ∈ filter (on_slot i) (g_handles s)) by (rewrite E; apply elem_of_cons; by left). apply list_elem_of_filter in Hin as [[U S] Hin].
    apply list_elem_of_lookup in Hin as [h Hh]. pose proof (array_get _ _ _ zero_handle Hh) as Hx. fold (handle_at s h) in Hx. rewrite <- Hx in U, S.
    destruct (so_slot s Hs h U) as (j & Hj & _ & Hjo). rewrite S in Hj. assert (j = i) by lia. subst j. congruence. }
  destruct (f && m); cbn [fst snd].
  - split; [|intros j [= <-]; by rewrite obj_at_put, decide_True by (done || by rewrite (so_objects s Hs))]. apply ok_put_obj; try done.
    intros nm j H1 H2. apply obj_named_spec in H1 as (_ & _ & <-). cbn [o_name] in H2.
    pose proof (in_use_lt s j (proj1 (proj1 (obj_named_spec _ _) H2))) as Hj. rewrite (so_objects s Hs) in Hj.
    pose proof (first_below_None _ _ j Hf Hj) as Hn. cbv beta in Hn. congruence.
  - split; [|done]. by apply ok_put_obj.
Qed.

Lemma ok_open s path flags c f m : shm_fs_ok s -> shm_fs_ok (op_open path flags c f m s).1.
Proof.
  intros Hs. unfold op_open. destruct (normalise_name path) as [name|]; [|done]. destruct (_ <? _)%nat; [done|]. destruct (negb c); [done|].
  destruct (find_object_by_name name s) as [i|] eqn:Hf.
  - apply first_below_Some in Hf as (_ & (Hu & _ & _)%obj_named_spec & _). destruct (_ && _); [done|by apply ok_take_handle].
  - destruct (negb _); [done|]. destruct (ok_create s name f m Hs Hf) as [Hs' Hi]. destruct (create_object name f m s) as [[s1 [i|]] e]; cbn [fst snd] in *; [|done].
    apply ok_take_handle; [done|by apply Hi].
Qed.

Lemma release_put i o s : (i < length (g_objects s))%nat -> o_in_use o = true -> release_object i (put_obj i o s) = put_obj i zero_obj s.
Proof.
  intros Hi Ho. unfold release_object. rewrite obj_at_put, decide_True, Ho by done. unfold put_obj. cbn [g_objects g_handles]. by rewrite list_insert_insert_eq.
Qed.

Lemma ok_close s h : shm_fs_ok s -> shm_fs_ok (op_close h s).
Proof.
  intros Hs. unfold op_close. destruct (h_in_use (handle_at s h)) eqn:Hh; [|done]. cbn [negb]. pose proof (handle_lt s h Hh) as Hl. pose proof (so_handles s Hs) as L2.
  destruct (so_slot s Hs h Hh) as (i & Hslot & Hi & Hu). rewrite Hslot. rewrite Z.geb_leb. rewrite (proj2 (Z.ltb_ge _ _)), (proj2 (Z.leb_gt _ _)) by lia.
  cbn [orb]. rewrite Nat2Z.id. set (x := mk_handle false (-1) (h_flags (handle_at s h))). change (obj_at (put_handle h x s) i) with (obj_at s i). rewrite Hu. cbn [negb].
  pose proof (so_count s Hs i Hu) as Hc. assert (Hcx : handles_on (put_handle h x s) i = handles_on s i - 1).
  { rewrite handles_on_put by done. rewrite decide_True by done. rewrite decide_False by (by intros [? _]). lia. }
  assert (Hge : 0 <= handles_on (put_handle h x s) i) by (unfold handles_on; lia). rewrite Z.gtb_ltb, (proj2 (Z.ltb_lt 0 (o_open (obj_at s i)))) by lia.
  rewrite release_put by (done || (cbn; rewrite (so_objects s Hs); done)).
  destruct ((o_open (obj_at s i) - 1 =? 0) && o_unlinked (obj_at s i)) eqn:E.
  - apply andb_true_iff in E as [E%Z.eqb_eq _]. apply ok_both; try done; [by rewrite <- L2|by intros _; rewrite Hcx; lia].
  - apply ok_both; try done; cbn [set_open o_in_use o_open o_unlinked]; [by rewrite <- L2|congruence|intros _; lia| |].
    + intros _ Hun. rewrite Hun, andb_true_r in E. apply Z.eqb_neq in E. lia.
    + intros name j H1 H2. by apply (so_names s Hs i j name).
Qed.

Lemma behind_Some s h i : behind h s = Some i -> h_in_use (handle_at s h) = true /\ h_slot (handle_at s h) = Z.of_nat i /\ o_in_use (obj_at s i) = true.
Proof.
  unfold behind. destruct (h_in_use (handle_at s h)); cbn [negb orb]; [|done]. destruct (Z.ltb_spec (h_slot (handle_at s h)) 0); cbn [orb]; [done|].
  destruct (_ >=? _); [done|]. destruct (o_in_use _) eqn:E; [|done]. intros [= <-]. split; [done|]. split; [lia|done].
Qed.

Lemma ok_write s h buf cur : shm_fs_ok s -> shm_fs_ok (op_write h buf cur s).1.
Proof.
  intros Hs. unfold op_write. destruct (behind h s) as [i|] eqn:Hb; [|done]. apply behind_Some in Hb as (_ & _ & Hu).
  pose proof (in_use_lt s i Hu) as Hi. rewrite (so_objects s Hs) in Hi. destruct (_ <? 0); [done|]. destruct (_ >=? _); [done|]. cbn [fst].
  apply ok_put_obj; try done; cbn [set_page o_in_use o_open o_unlinked]; [congruence|by intros _; apply (so_count s Hs)|apply (so_unlinked s Hs)|].
  intros name j H1 H2. by apply (so_names s Hs i j name).
Qed.

Lemma ok_unlink s path : shm_fs_ok s -> shm_fs_ok (lucas_shm_unlink_name path s).1.
Proof.
  intros Hs. unfold lucas_shm_unlink_name. destruct (normalise_name path) as [name|]; [|done]. destruct (find_object_by_name name s) as [i|] eqn:Hf; [|done].
  apply first_below_Some in Hf as (Hi & (Hu & Hun & _)%obj_named_spec & _). cbn [fst]. pose proof (so_count s Hs i Hu) as Hc.
  rewrite obj_at_put, decide_True by (done || by rewrite (so_objects s Hs)). rewrite release_put by (done || by rewrite (so_objects s Hs)).
  cbn [set_unlinked o_open]. destruct (Z.eqb_spec (o_open (obj_at s i)) 0) as [E|E].
  - apply ok_put_obj; try done. lia.
  - apply ok_put_obj; try done; cbn [set_unlinked o_in_use o_open o_unlinked]; [congruence| |].
    + intros _ _. unfold handles_on in Hc. lia.
    + intros nm j H1 _. apply obj_named_spec in H1 as (_ & H1 & _). done.
Qed.

(** ** Runs *)

Inductive shm_fs_step : shm_fs -> shm_fs -> Prop :=
  | fs_open path flags c f m s : shm_fs_step s (op_open path flags c f m s).1
  | fs_close h s : shm_fs_step s (op_close h s)
  | fs_write h buf cur s : shm_fs_step s (op_write h buf cur s).1
  | fs_unlink path s : shm_fs_step s (lucas_shm_unlink_name path s).1
  | fs_spawn s : shm_fs_step s (lucas_shm_mount s).

Inductive shm_fs_reach : shm_fs -> Prop :=
  | fr_start : shm_fs_reach zero_shm_fs
  | fr_step s s' : shm_fs_reach s -> shm_fs_step s s' -> shm_fs_reach s'.

Lemma mount_ok : shm_fs_ok zero_shm_fs.
Proof.
  assert (Ho : forall i, o_in_use (obj_at zero_shm_fs i) = false).
  { intros i. unfold obj_at. cbn [zero_shm_fs g_objects]. destruct (decide (i < LUCAS_MAX_SHM_OBJECTS)%nat); [by rewrite lookup_replicate_2|].
    by rewrite lookup_ge_None_2 by (rewrite length_replicate; lia). }
  assert (Hh : forall h, h_in_use (handle_at zero_shm_fs h) = false).
  { intros h. unfold handle_at. cbn [zero_shm_fs g_handles]. destruct (decide (h < LUCAS_SHM_HANDLES)%nat); [by rewrite lookup_replicate_2|].
    by rewrite lookup_ge_None_2 by (rewrite length_replicate; lia). }
  constructor; [done|done|intros h Hu|intros i Hu|intros i Hu|intros i j name Hu%obj_named_spec]; try (rewrite Hh in Hu; done); rewrite Ho in Hu; [done|done|by destruct Hu].
Qed.

Lemma shm_fs_invariant s : shm_fs_reach s -> shm_fs_ok s.
Proof.
  induction 1 as [|s s' _ IH Hs]; [apply mount_ok|]. destruct Hs; [by apply ok_open|by apply ok_close|by apply ok_write|by apply ok_unlink|apply mount_ok].
Qed.

(** ** An open handle keeps its object *)

Definition keeps_obj (h i : nat) (s s' : shm_fs) : Prop :=
  handle_at s' h = handle_at s h /\ o_in_use (obj_at s' i) = o_in_use (obj_at s i) /\ o_page (obj_at s' i) = o_page (obj_at s i).

Lemma keeps_obj_trans h i s t u : keeps_obj h i s t -> keeps_obj h i t u -> keeps_obj h i s u.
Proof. intros (A & B & C) (A' & B' & C'). split; [by rewrite A'|]. split; [by rewrite B'|by rewrite C']. Qed.

Lemma keeps_put_obj h i j o s : (j < length (g_objects s))%nat -> (j = i -> o_in_use o = o_in_use (obj_at s i) /\ o_page o = o_page (obj_at s i)) -> keeps_obj h i s (put_obj j o s).
Proof. intros Hj Ho. split; [done|]. rewrite obj_at_put by done. case_decide; [by apply Ho|done]. Qed.

Lemma keeps_put_handle h i k x s : (k < length (g_handles s))%nat -> k <> h -> keeps_obj h i s (put_handle k x s).
Proof. intros Hk Hne. split; [by rewrite handle_at_put, decide_False by done|done]. Qed.

Lemma keeps_release h i j s : j <> i -> keeps_obj h i s (release_object j s).
Proof.
  intros Hj. unfold release_object. destruct (o_in_use (obj_at s j)) eqn:Hu; [|done]. apply keeps_put_obj; [by apply in_use_lt|done].
Qed.

Lemma handle_counts s h i : h_in_use (handle_at s h) = true -> h_slot (handle_at s h) = Z.of_nat i -> 0 < handles_on s i.
Proof.
  intros Hh Hs. destruct (decide (handles_on s i = 0)) as [E|E]; [by destruct (no_handles_on s i E h Hh)|]. unfold handles_on in *. lia.
Qed.

Lemma keeps_take_handle h i j flags s : shm_fs_ok s -> behind h s = Some i -> o_in_use (obj_at s j) = true -> keeps_obj h i s (take_handle j flags s).1.
Proof.
  intros Hs (Hh & Hi & Hu)%behind_Some Hj. unfold take_handle. destruct (alloc_handle_slot s) as [k|] eqn:Hk; cbn [fst].
  - apply first_below_Some in Hk as (Hkl & Hfree%negb_true_iff & _). rewrite <- (so_handles s Hs) in Hkl. assert (k <> h) by congruence.
    eapply keeps_obj_trans; [by apply keeps_put_handle|]. apply keeps_put_obj; [by apply in_use_lt|]. intros ->. done.
  - unfold no_handle. destruct (_ && _) eqn:E; [|done]. apply andb_true_iff in E as [E _]. apply andb_true_iff in E as [E%Z.eqb_eq _]. apply keeps_release.
    intros ->. rewrite (so_count s Hs i Hu) in E. pose proof (handle_counts s h i Hh Hi). lia.
Qed.

Lemma keeps_open h i path flags c f m s : shm_fs_ok s -> behind h s = Some i -> keeps_obj h i s (op_open path flags c f m s).1.
Proof.
  intros Hs Hb. unfold op_open. destruct (normalise_name path) as [name|]; [|done]. destruct (_ <? _)%nat; [done|]. destruct (negb c); [done|].
  destruct (find_object_by_name name s) as [j|] eqn:Hf.
  - apply first_below_Some in Hf as (_ & (Hu & _ & _)%obj_named_spec & _). destruct (_ && _); [done|by apply keeps_take_handle].
  - destruct (negb _); [done|]. destruct (ok_create s name f m Hs Hf) as [Hs' Hi].
    assert (Hk : keeps_obj h i s (create_object name f m s).1.1).
    { unfold create_object. destruct (alloc_object_slot s) as [j|] eqn:Hj; [|done]. apply first_below_Some in Hj as (Hjl & Hfree%negb_true_iff & _).
      rewrite <- (so_objects s Hs) in Hjl. apply behind_Some in Hb as (_ & _ & Hu). assert (j <> i) by congruence. destruct (f && m); by apply keeps_put_obj. }
    destruct (create_object name f m s) as [[s1 [j|]] e]; cbn [fst snd] in *; [|done]. eapply keeps_obj_trans; [exact Hk|]. apply keeps_take_handle; [done| |by apply Hi].
    destruct Hk as (A & B & _). apply behind_Some in Hb as (Hh & Hsl & Hu). unfold behind. rewrite A, Hh, Hsl. cbn [negb orb]. rewrite Z.geb_leb.
    pose proof (in_use_lt s i Hu) as Hil. rewrite (so_objects s Hs) in Hil. rewrite (proj2 (Z.ltb_ge _ _)), (proj2 (Z.leb_gt _ _)) by lia. cbn [orb].
    by rewrite Nat2Z.id, B, Hu.
Qed.

Lemma keeps_close h i k s : shm_fs_ok s -> behind h s = Some i -> k <> h -> keeps_obj h i s (op_close k s).
Proof.
  intros Hs (Hh & Hi & Hu)%behind_Some Hk. unfold op_close. destruct (h_in_use (handle_at s k)) eqn:Hku; [|done]. cbn [negb].
  destruct (so_slot s Hs k Hku) as (j & Hslot & Hj & Hju). rewrite Hslot. rewrite Z.geb_leb. rewrite (proj2 (Z.ltb_ge _ _)), (proj2 (Z.leb_gt _ _)) by lia.
  cbn [orb]. rewrite Nat2Z.id. set (x := mk_handle false (-1) _). change (obj_at (put_handle k x s) j) with (obj_at s j). rewrite Hju. cbn [negb].
  pose proof (handle_lt s k Hku) as Hkl. eapply keeps_obj_trans; [by apply (keeps_put_handle h i k x)|]. pose proof (so_count s Hs j Hju) as Hc.
  assert (Hcx : handles_on (put_handle k x s) j = handles_on s j - 1).
  { rewrite handles_on_put by done. rewrite decide_True by done. rewrite decide_False by (by intros [? _]). lia. }
  assert (Hge : 0 <= handles_on (put_handle k x s) j) by (unfold handles_on; lia). rewrite Z.gtb_ltb, (proj2 (Z.ltb_lt 0 (o_open (obj_at s j)))) by lia.
  assert (Hjl : (j < length (g_objects (put_handle k x s)))%nat) by (cbn; by rewrite (so_objects s Hs)). rewrite release_put by done.
  destruct ((o_open (obj_at s j) - 1 =? 0) && _) eqn:E; [|apply keeps_put_obj; [done|by intros ->]].
  apply keeps_put_obj; [done|]. intros ->. apply andb_true_iff in E as [E%Z.eqb_eq _].
  assert (0 < handles_on (put_handle k x s) i) by (apply (handle_counts _ h); rewrite handle_at_put, decide_False by done; done). lia.
Qed.

Lemma keeps_unlink h i path s : shm_fs_ok s -> behind h s = Some i -> keeps_obj h i s (lucas_shm_unlink_name path s).1.
Proof.
  intros Hs (Hh & Hi & Hu)%behind_Some. unfold lucas_shm_unlink_name. destruct (normalise_name path) as [name|]; [|done].
  destruct (find_object_by_name name s) as [j|] eqn:Hf; [|done]. apply first_below_Some in Hf as (Hj & (Hju & _ & _)%obj_named_spec & _). cbn [fst].
  rewrite <- (so_objects s Hs) in Hj. rewrite obj_at_put, decide_True by done. rewrite release_put by done. cbn [set_unlinked o_open].
  destruct (Z.eqb_spec (o_open (obj_at s j)) 0) as [E|E]; apply keeps_put_obj; try done; intros ->; [|done].
  rewrite (so_count s Hs i Hu) in E. pose proof (handle_counts s h i Hh Hi). lia.
Qed.

(** Everything but a write and the close of this handle. *)
Inductive quiet_step (h : nat) : shm_fs -> shm_fs -> Prop :=
  | qs_open path flags c f m s : quiet_step h s (op_open path flags c f m s).1
  | qs_close k s : k <> h -> quiet_step h s (op_close k s)
  | qs_unlink path s : quiet_step h s (lucas_shm_unlink_name path s).1.

Lemma keeps_behind h i s s' : behind h s = Some i -> keeps_obj h i s s' -> behind h s' = Some i /\ forall n c, op_read h n c s' = op_read h n c s.
Proof.
  intros Hb (A & B & C). assert (Hb' : behind h s' = Some i).
  { pose proof (behind_Some s h i Hb) as (_ & Hi & Hu). unfold behind in *. rewrite A, Hi in *. destruct (_ || _); [done|]. rewrite Nat2Z.id in *. by rewrite B, Hu. }
  split; [done|]. intros n c. unfold op_read. rewrite Hb, Hb'. by rewrite C.
Qed.

Lemma write_object k buf cur s i : behind k s = Some i -> 0 <= cur -> cur + Z.of_nat (length buf) <= LUCAS_SHM_PAGE_BYTES -> 0 < Z.of_nat (length buf) ->
  op_write k buf cur s = (put_obj i (set_page (overlay (o_page (obj_at s i)) cur buf) (obj_at s i)) s, Z.of_nat (length buf)).
Proof.
  intros Hb H0 H1 H2. unfold op_write, LUCAS_SHM_PAGE_BYTES in *. rewrite Hb. rewrite Z.geb_leb, Z.gtb_ltb.
  rewrite (proj2 (Z.ltb_ge cur 0)), (proj2 (Z.leb_gt 4096 cur)), (proj2 (Z.ltb_ge (4096 - cur) (Z.of_nat (length buf)))) by lia.
  by rewrite Nat2Z.id, firstn_all.
Qed.

(** C24: an open handle of /dev/shm keeps its object.  In any state reached by opens, closes, writes,
    unlinks and spawns, through any open, whether it
    succeeds or fails, any close of another handle and any unlink, also of its own
    name, the handle stays on the same object and reads the same bytes; a write that
    fits, through any handle on that object, is read back; a write to another object
    changes nothing.  The next spawn is the exception: it clears both tables
    ([spawn_clears_handles]). *)
Theorem shm_handle_keeps s h i : shm_fs_reach s -> behind h s = Some i ->
  (forall s', quiet_step h s s' -> behind h s' = Some i /\ forall n c, op_read h n c s' = op_read h n c s) /\
  (forall k buf cur, behind k s = Some i -> 0 <= cur -> cur + Z.of_nat (length buf) <= LUCAS_SHM_PAGE_BYTES -> 0 < Z.of_nat (length buf) ->
     (op_write k buf cur s).2 = Z.of_nat (length buf) /\ op_read h (Z.of_nat (length buf)) cur (op_write k buf cur s).1 = inl buf) /\
  (forall k buf cur, behind k s <> Some i -> forall n c, op_read h n c (op_write k buf cur s).1 = op_read h n c s).
Proof.
  intros Hs%shm_fs_invariant Hb. split; [|split].
  - intros s' Hq. apply keeps_behind; [done|]. destruct Hq; [by apply keeps_open|by apply keeps_close|by apply keeps_unlink].
  - intros k buf cur Hk H0 H1 H2. rewrite (write_object k buf cur s i) by done. cbn [fst snd]. split; [done|].
    pose proof (behind_Some s h i Hb) as (Hh & Hi & Hu). pose proof (in_use_lt s i Hu) as Hil.
    assert (Hb' : behind h (put_obj i (set_page (overlay (o_page (obj_at s i)) cur buf) (obj_at s i)) s) = Some i).
    { unfold behind in *. change (handle_at (put_obj _ _ s) h) with (handle_at s h). rewrite Hi in *. destruct (_ || _); [done|]. rewrite Nat2Z.id in *.
      rewrite obj_at_put, decide_True by done. cbn. by rewrite Hu. }
    unfold op_read. rewrite Hb'. rewrite obj_at_put, decide_True by done. cbn [set_page o_page]. unfold LUCAS_SHM_PAGE_BYTES in *. rewrite Z.geb_leb, Z.gtb_ltb.
    rewrite (proj2 (Z.ltb_ge cur 0)), (proj2 (Z.leb_gt 4096 cur)), (proj2 (Z.ltb_ge (4096 - cur) (Z.of_nat (length buf)))) by lia.
    by rewrite Nat2Z.id, slice_overlay.
  - intros k buf cur Hk n c. eapply keeps_behind; [exact Hb|]. unfold op_write. destruct (behind k s) as [j|] eqn:Ej; [|done].
    apply behind_Some in Ej as (_ & _ & Hju). destruct (_ <? 0); [done|]. destruct (_ >=? _); [done|]. apply keeps_put_obj; [by apply in_use_lt|congruence].
Qed.

(** An object named a, opened twice and unlinked, with four bytes. *)
Definition demo_shm_fs : shm_fs :=
  let s := (op_open [97] O_CREAT true true true zero_shm_fs).1 in
  let s := (op_open [47; 97] 0 true true true s).1 in
  (op_write 1 [1; 2; 3; 4] 10 s).1.

Lemma shm_handle_keeps_witness :
  op_read 0 4 10 demo_shm_fs = inl [1; 2; 3; 4] /\
  (forall s', quiet_step 0 demo_shm_fs s' -> behind 0 s' = Some 0%nat /\ forall n c, op_read 0 n c s' = op_read 0 n c demo_shm_fs) /\
  (forall k buf cur, behind k demo_shm_fs = Some 0%nat -> 0 <= cur -> cur + Z.of_nat (length buf) <= LUCAS_SHM_PAGE_BYTES -> 0 < Z.of_nat (length buf) ->
     (op_write k buf cur demo_shm_fs).2 = Z.of_nat (length buf) /\ op_read 0 (Z.of_nat (length buf)) cur (op_write k buf cur demo_shm_fs).1 = inl buf) /\
  (forall k buf cur, behind k demo_shm_fs <> Some 0%nat -> forall n c, op_read 0 n c (op_write k buf cur demo_shm_fs).1 = op_read 0 n c demo_shm_fs).
Proof.
  split; [by vm_compute|]. apply (shm_handle_keeps demo_shm_fs 0 0); [|by vm_compute].
  eapply fr_step; [|apply fs_write]. eapply fr_step; [|apply fs_open]. eapply fr_step; [|apply fs_open]. apply fr_start.
Defined.

(** An object without open handles is kept by its name: until an open of it fails for
    want of a handle, which releases it with its content. *)
Definition full_handles : shm_fs :=
  let s := op_close 0 (op_write 0 [1; 2; 3; 4] 0 (op_open [97] O_CREAT true true true zero_shm_fs).1).1 in
  fold_left (fun s _ => (op_open [98] O_CREAT true true true s).1) (seq 0 16) s.

Example failed_open_destroys :
  find_object_by_name [97] full_handles = Some 0%nat /\ (op_open [97] 0 true true true full_handles).2 = -24 /\
  find_object_by_name [97] (op_open [97] 0 true true true full_handles).1 = None.
Proof. by vm_compute. Qed.

(** A spawn clears the tables under the handles that are open (backends_shm.c:408): the handle
    reads nothing any more, and after the next open it is on the object of another client. *)
Example spawn_clears_handles :
  let s := lucas_shm_mount demo_shm_fs in
  let t := (op_write 0 [9] 0 (op_open [98] O_CREAT true true true s).1).1 in
  behind 0 demo_shm_fs = Some 0%nat /\ behind 0 s = None /\ op_read 0 4 10 demo_shm_fs = inl [1; 2; 3; 4] /\ op_read 0 1 0 t = inl [9].
Proof. by vm_compute. Qed.
